(* ===== verification/_CoqProject ===== *)
-Q . S2P
Prelude.v
Misc.v
MiscString.v
Double.v
Events.v
Bbdo.v
Transport.v
BbdoStream.v
Muxer.v
PersistentCache.v
Engine.v
ExpTokenizer.v
ExpParser.v
BoolValue.v
HstSvcMapping.v
ExpBuilder.v
Kpi.v
KpiService.v
Ba.v
FileSystem.v
Splitter.v
FileStream.v
Compression.v
PersistentFile.v
Perfdata.v
Correlation.v
CTime.v
Scanf.v
TimeRange.v
DateRange.v
TimePeriod.v
Availability.v
KpiDerived.v
Gprint.v
MetaService.v
Ceof.v
Failover.v
Feeder.v
Endpoints.v
Mapping.v
NebEvents.v
BamEvents.v
StorageEvents.v
CorrelationEvents.v
BroadcastEvents.v
Registry.v
MysqlStmt.v
QueryPreparator.v
Mfifo.v
ConflictManager.v
ConflictSql.v
ConflictStorage.v
ConflictRules.v
ConflictLoop.v
MacroCache.v
GraphiteCache.v
LuaCache.v
TextQuery.v
Graphite.v
GraphiteStream.v
LineProtocol.v
Influxdb.v
BamConfig.v
BamGraph.v
BaApplier.v
MetaApplier.v
KpiApplier.v
BamState.v
LuaUtils.v
