(* ===== verification/Prelude.v ===== *)
(** * Centreon Broker: a verification library

    Centreon Broker receives the events of a monitoring engine, multiplexes
    them to its outputs, carries them between brokers over the BBDO protocol,
    keeps what it could not deliver on disk and computes business activities
    (BAM). This library models the parts that carry that logic and proves what
    they promise. File names below are those of the repository, under src/.

    ** The layers and their files

    - Prelude: exceptions and outcomes of C++ calls, machine integers, bytes and
      text, lemmas every other file shares.
    - Misc, MiscString: core/src/misc. The CRC of the protocol, hexadecimal
      decoding, splitting, trimming, base64, UTF-8 repair, SQL escaping.
    - Double: IEEE doubles (the SpecFloat of the Standard Library) with printf
      and strtod; this is the C library, not code of the repository.
    - Events: core/src/io/events.cc. The registry of categories and events that
      gives each event its type, its members and its constructor.
    - Bbdo: the codec of core/src/bbdo/stream.cc (serialize, unserialize) and the
      control events. BbdoStream: the stream itself, which gathers packets from
      a transport, skips corrupted bytes, reassembles large events, negotiates
      and acknowledges.
    - Transport: io::stream as one layer uses the layer below it (class
      Substream), the layers a negotiation stacks (class Layered), and what the
      layers that store bytes promise (class RecordQueue).
    - FileSystem, Splitter, FileStream: core/src/misc/filesystem.cc and
      core/src/file. Names and files of a disk, files split in parts, the stream
      over them. Compression: core/src/compression, frames over zlib.
      PersistentFile: core/src/persistent_file.cc, BBDO over compression over a
      file, which is what a muxer overflows to.
    - Muxer: core/src/multiplexing/muxer.cc, one output's queue, in memory and in
      a retention file (class QueueFile, of which PersistentFile gives the real
      instance and its laws). PersistentCache: core/src/persistent_cache.cc,
      transactions as sequences of system calls that may be stopped. Engine: core/src/multiplexing/engine.cc,
      which hands each event to hooks (class Hooker) and to the muxers (class
      Subscriber, with Muxer's publish as its instance).
    - ExpTokenizer, ExpParser, ExpBuilder, BoolValue, HstSvcMapping: the boolean
      expressions of BAM (bam/src/exp_*.cc, bool_*.cc, hst_svc_mapping.cc), from
      the text of the configuration to values that follow the services.
    - Kpi, KpiService, Ba: the indicators and business activities of BAM
      (bam/src/kpi_service.cc, kpi.cc, ba.cc): impacts, states, downtimes and the
      history of events they write.
    - Perfdata: storage/src/parser.cc and perfdata.cc, the performance data of
      plugins, their thresholds and units.
    - Correlation: correlation/src/node.cc and stream.cc, nodes linked to their
      parents and dependencies, and the states, issues and parentings written
      for them. Pointers between nodes are keys of the map of the stream.
    - CTime, Scanf, Gprint: the C library again: local time in zones that shift,
      sscanf, the default format of iostreams. TimeRange, DateRange, TimePeriod:
      core/src/time, the ranges of the days of a week, ranges of dates, and the
      search of the next valid instant. Availability:
      bam/src/availability_builder.cc and availability_thread.cc, the time an
      activity spent in each state, day by day.
    - KpiDerived: bam/src/kpi_ba.cc, kpi_boolexp.cc and kpi_meta.cc, indicators
      over what Ba, BoolValue and MetaService compute (classes Activity and Meta).
      MetaService: bam/src/meta_service.cc and metric_book.cc.
    - Ceof: core/src/ceof, the text of objects, written with a visitor of their
      members and read back through an iterator.
    - Failover: core/src/processing/failover.cc, the thread of an output, as steps
      over an endpoint, a stream and a muxer of which only classes with laws are
      known (Stream, Endpoint, EventMuxer); Muxer gives the real instance. Feeder:
      feeder.cc and acceptor.cc, the threads of the clients of an input.
    - Endpoints: core/src/config/endpoint.cc and applier/endpoint.cc, which decide
      of the threads to stop and to start when a configuration is applied.
    - Mapping: core/inc/.../mapping and the registration of a module. NebEvents,
      BamEvents, StorageEvents, CorrelationEvents, BroadcastEvents: the classes of
      events, what their constructors leave and their mappings, entry by entry.
      Registry: what the modules register, whatever the order they are loaded in.
    - MysqlStmt, QueryPreparator: core/src/database (mysql_stmt.cc, mysql_bind.cc)
      and core/src/query_preparator.cc, from an event to the values of the places of a
      prepared statement.
    - Mfifo: core/inc/.../misc/mfifo.hh, the queue of two streams with flags and
      acknowledgements. ConflictManager, ConflictSql, ConflictStorage, ConflictRules,
      ConflictLoop: storage/src/conflict_manager*.cc, the thread that writes the events
      of these streams. The database is a class of functions of what was done before
      (class Database: calls that fail, answers, the clock), so that theorems hold for
      any database; ConflictRules says once what every handler may do to the queue,
      and ConflictLoop proves its theorems from that by induction on the steps of the
      thread and of the streams.
    - MacroCache, GraphiteCache, LuaCache: graphite/src/macro_cache.cc (and its copy
      in influxdb/src) and lua/src/macro_cache.cc, the names that outputs look up,
      saved to a PersistentCache and loaded from it; a class with laws (Cache,
      CacheLaws) says what a restart relies on. TextQuery, Graphite, GraphiteStream:
      graphite/src/query.cc and stream.cc. LineProtocol, Influxdb:
      influxdb/src/line_protocol_query.cc, influxdb12.cc and stream.cc, with a
      reader of the line protocol. Sockets are arguments of the calls.
    - BamConfig, BamGraph, BaApplier, MetaApplier, KpiApplier, BamState:
      bam/src/configuration and its directory applier. BamConfig holds the objects of a
      configuration; BamGraph the search for loops among them; the appliers compare the
      configuration with the objects they made, remove, make, change and link objects.
      Objects live in a heap (BamHeap.heap), since appliers, books of listeners and
      indicators refer to the same ones. What the appliers share, the comparison of two
      configurations and the loops over what it found, is proved once (Diff, Stages).
      BamState composes them, each leaving alone what the others own.
    - LuaUtils: lua/src/broker_utils.cc, the functions for JSON, performance data and
      URLs that scripts are given, with readers of JSON strings and of percent-encodings.
    ** Conventions

    A C++ call is a function to [outcome]: it returns, throws one of the
    exceptions of [exn], or has not ended within the fuel it was given
    ([Diverges]). Objects are records named after their class, with the names
    of their members; methods take the object and give it back. A function of
    the source keeps its name; a loop of a function is a Fixpoint of its own.
    Integers are Z, wrapped at their width by [u8] to [i64] where the code can
    overflow. A std::string is the list of its bytes. Mutexes are the
    granularity of the operations: what other threads do while a lock is
    released is an argument of the operation.

    Fuel bounds the loops that wait for input or that the recursion of the code
    does not bound; every theorem about such a loop says how much is enough
    (the bytes to read, the events to refill), so that the result is reached.

    ** Theorems

    Round trips: codec, stream, cache, compression, retention files, metrics,
    objects as text, time ranges.
    Refinement: the muxer against a first-in first-out queue with
    acknowledgement, for any file and for the real ones; the availabilities of a
    day against the history of an activity. Safety and liveness: no event is lost
    between a muxer and the streams of an output without a backup, and a stream that works gets
    all of them in a bounded number of turns; what the database streams are told to
    acknowledge was committed; nothing
    published while stopped is lost, commits are atomic, restarts lose nothing
    (and give again the events of the current part of the queue file that were
    read). Invariants: the caches of boolean expressions, the business
    activities, meta-services and the histories of indicators, the states, issues
    and parentings of correlation, the objects of BAM after any sequence of
    configurations. Functional: which threads run once a
    configuration is applied, the next instant of a period, the duration of an
    intersection. Bounds: the size of the parts. Types:
    the members, entries and columns of every registered event. Errors:
    corrupted packets, missing parts, failures of the database and rounds that
    last for ever. Each theorem that has hypotheses is followed by a
    witness, [<theorem>_witness], that applies it to a concrete case.
    Lemmas with names that state a defect ([raised_limit_reorders],
    [right_soft_value_is_stale], [escape_cut_can_dangle], ...) evaluate the
    code on an input where it does not do what it means to.

    ** What the statements leave out

    Some statements hold for part of the inputs only, each of which says so in
    its comment, and lemmas show the code on the others.
    - Doubles cross a connection and the disk as "%f" writes them, rounded to six
      decimals, and texts up to their first NUL (Bbdo).
    - The thread of the backup of an output acknowledges to the muxer of the
      output: no order is kept then (Failover, [shared_backup_loses]).
    - Periods are those of their weekly ranges, in zones of constant offset; the code
      never looks at their exceptions and exclusions ([exceptions_ignored]) and misses
      hours when clocks shift ([range_shifts_with_clocks]).
    - Boolean expressions: the parser is compared with infix expressions with calls
      and unary operators, the values only with those that the builder gives one:
      neither unary minus ([unary_minus_ignored]) nor functions other than
      SERVICESTATUS ([host_status_never_accepted]). Every text is parsed to its
      end, with fuel in proportion to its length ([text_fuel]).
    - Levels of a business activity are those of its impacts for the impact source
      only ([level_drifts]); impacts are whole numbers there.
    - Activities keep the service and downtime behaviour they were made with
      ([dt_behaviour_kept], [moved_ba_stays_in_book]); an indicator that has a service
      and follows something else is cast to a class it is not of
      ([meta_indicator_miscast]), which no statement covers.
    - Histories of correlation need statuses with times, that do not go back for
      periods not to overlap ([periods_overlap]).
    - Lines for InfluxDB that end a key with a backslash or give a text field in
      several pieces are not read back ([unread_lines]).
    - A transaction of the persistent cache on a stale .new file appends to it
      ([stale_transaction_committed]).

    ** Not modelled

    Sockets and TLS (tcp, tls), the threads of the connections to the database and the SQL of
    bam reporting, of its configuration and of the rebuilder, the interpreter of Lua, RRD bindings, logging, the loading of modules, the
    conversion of the engine's callbacks (neb), and configuration files: they
    are input and output around the code modelled here. The order of
    std::unordered_map, allocation failures and data races are not modelled
    either. *)

From Stdlib Require Import ZArith Lia ZifyNat ZifyBool Strings.Byte.
From stdpp Require Import base option list numbers strings gmap.

#[global] Open Scope Z_scope.

Declare Scope broker_scope.
Delimit Scope broker_scope with broker.
#[global] Open Scope broker_scope.

Create HintDb broker.

(** ** Exceptions and outcomes

    The exception classes of core/inc/com/centreon/broker/exceptions that the
    modelled code throws or catches, and the three ways a C++ call may end:
    it returns, it throws, or (for the unbounded loops, run with fuel) it has
    not finished yet. *)

Inductive exn : Type :=
  | Exn_msg
  | Exn_timeout
  | Exn_shutdown
  | Exn_interrupt
  | Exn_corruption
  | Exn_out_of_range.

#[global] Instance exn_eq_dec : EqDecision exn.
Proof. solve_decision. Defined.

Inductive outcome (A : Type) : Type :=
  | Returns (a : A)
  | Throws (e : exn)
  | Diverges.
Arguments Returns {A} a.
Arguments Throws {A} e.
Arguments Diverges {A}.

#[global] Instance outcome_eq_dec {A} `{EqDecision A} : EqDecision (outcome A).
Proof. solve_decision. Defined.

#[global] Instance outcome_ret : MRet outcome := fun A a => Returns a.
#[global] Instance outcome_bind : MBind outcome := fun A B f o =>
  match o with
  | Returns a => f a
  | Throws e => Throws e
  | Diverges => Diverges
  end.
#[global] Instance outcome_fmap : FMap outcome := fun A B f o =>
  match o with
  | Returns a => Returns (f a)
  | Throws e => Throws e
  | Diverges => Diverges
  end.

Lemma bind_Returns {A B} (o : outcome A) (f : A -> outcome B) b :
  o ≫= f = Returns b -> exists a, o = Returns a /\ f a = Returns b.
Proof. destruct o; simpl; intros; simplify_eq; eauto. Qed.

(** ** Tactics *)

(** Case analysis on the head test of the goal or of a hypothesis. *)
Ltac case_if :=
  match goal with
  | |- context [if ?b then _ else _] => destruct b eqn:?
  | H : context [if ?b then _ else _] |- _ => destruct b eqn:?
  end.

(** Turn boolean tests of the code into propositions. *)
Ltac zbool :=
  repeat match goal with
  | H : (_ =? _)%Z = true |- _ => apply Z.eqb_eq in H
  | H : (_ =? _)%Z = false |- _ => apply Z.eqb_neq in H
  | H : (_ <? _)%Z = true |- _ => apply Z.ltb_lt in H
  | H : (_ <? _)%Z = false |- _ => apply Z.ltb_ge in H
  | H : (_ <=? _)%Z = true |- _ => apply Z.leb_le in H
  | H : (_ <=? _)%Z = false |- _ => apply Z.leb_gt in H
  | H : (_ =? _)%nat = true |- _ => apply Nat.eqb_eq in H
  | H : (_ =? _)%nat = false |- _ => apply Nat.eqb_neq in H
  | H : (_ <? _)%nat = true |- _ => apply Nat.ltb_lt in H
  | H : (_ <? _)%nat = false |- _ => apply Nat.ltb_ge in H
  | H : (_ <=? _)%nat = true |- _ => apply Nat.leb_le in H
  | H : (_ <=? _)%nat = false |- _ => apply Nat.leb_gt in H
  | H : _ && _ = true |- _ => apply andb_true_iff in H; destruct H
  | H : _ || _ = false |- _ => apply orb_false_iff in H; destruct H
  | H : negb _ = true |- _ => apply negb_true_iff in H
  | H : negb _ = false |- _ => apply negb_false_iff in H
  end.

(** Linear arithmetic with divisions by constants. *)
Ltac zdm := Z.div_mod_to_equations; lia.

(** ** Machine integers

    Unsigned and signed integers of the C++ code, as integers with their
    wrap-around written out. *)

Definition u8 (z : Z) : Z := z mod 2 ^ 8.
Definition u16 (z : Z) : Z := z mod 2 ^ 16.
Definition u32 (z : Z) : Z := z mod 2 ^ 32.
Definition u64 (z : Z) : Z := z mod 2 ^ 64.
Definition i16 (z : Z) : Z := (z + 2 ^ 15) mod 2 ^ 16 - 2 ^ 15.
Definition i32 (z : Z) : Z := (z + 2 ^ 31) mod 2 ^ 32 - 2 ^ 31.
Definition i64 (z : Z) : Z := (z + 2 ^ 63) mod 2 ^ 64 - 2 ^ 63.

Lemma u32_small z : 0 <= z < 2 ^ 32 -> u32 z = z.
Proof. apply Z.mod_small. Qed.
Lemma u64_small z : 0 <= z < 2 ^ 64 -> u64 z = z.
Proof. apply Z.mod_small. Qed.
Lemma i16_small z : - 2 ^ 15 <= z < 2 ^ 15 -> i16 z = z.
Proof. intros. unfold i16. rewrite Z.mod_small; lia. Qed.
Lemma i32_small z : - 2 ^ 31 <= z < 2 ^ 31 -> i32 z = z.
Proof. intros. unfold i32. rewrite Z.mod_small; lia. Qed.
Lemma i64_small z : - 2 ^ 63 <= z < 2 ^ 63 -> i64 z = z.
Proof. intros. unfold i64. rewrite Z.mod_small; lia. Qed.

Lemma i16_mod z : i16 (z mod 2 ^ 16) = i16 z.
Proof. unfold i16. by rewrite Zplus_mod_idemp_l. Qed.
Lemma i32_mod z : i32 (z mod 2 ^ 32) = i32 z.
Proof. unfold i32. by rewrite Zplus_mod_idemp_l. Qed.
Lemma i64_mod z : i64 (z mod 2 ^ 64) = i64 z.
Proof. unfold i64. by rewrite Zplus_mod_idemp_l. Qed.

Lemma u32_range z : 0 <= u32 z < 2 ^ 32.
Proof. apply Z.mod_pos_bound. lia. Qed.
Lemma u16_range z : 0 <= u16 z < 2 ^ 16.
Proof. apply Z.mod_pos_bound. lia. Qed.

Lemma i32_add_l x y : i32 (i32 x + y) = i32 (x + y).
Proof.
  unfold i32 at 1 2.
  replace ((x + 2 ^ 31) mod 2 ^ 32 - 2 ^ 31 + y + 2 ^ 31) with ((x + 2 ^ 31) mod 2 ^ 32 + y) by lia.
  rewrite Zplus_mod_idemp_l. unfold i32. do 2 f_equal. lia.
Qed.

Lemma i32_mul_l x k : i32 (i32 x * k) = i32 (x * k).
Proof.
  unfold i32. rewrite Z.mul_sub_distr_r.
  rewrite <-(Zplus_mod_idemp_l (_ - _)), Zminus_mod, Zmult_mod_idemp_l, <-Zminus_mod.
  rewrite Zplus_mod_idemp_l. do 2 f_equal. lia.
Qed.

(** A wrapped integer keeps its low bits. *)
Lemma i32_div_mod x k j :
  0 <= k -> 0 <= j -> k + j <= 32 -> (i32 x / 2 ^ k) mod 2 ^ j = (x / 2 ^ k) mod 2 ^ j.
Proof.
  intros Hk Hj Hkj. unfold i32.
  pose proof (Z.div_mod (x + 2 ^ 31) (2 ^ 32) ltac:(lia)) as D.
  set (q := (x + 2 ^ 31) / 2 ^ 32) in *.
  replace ((x + 2 ^ 31) mod 2 ^ 32 - 2 ^ 31) with (x + (- q * 2 ^ (32 - k)) * 2 ^ k).
  2:{ rewrite <-Z.mul_assoc, <-Z.pow_add_r by lia. replace (32 - k + k) with 32 by lia. lia. }
  rewrite Z.div_add by lia.
  replace (- q * 2 ^ (32 - k)) with (- q * 2 ^ (32 - k - j) * 2 ^ j).
  2:{ rewrite <-Z.mul_assoc, <-Z.pow_add_r by lia. do 2 f_equal. lia. }
  apply Z.mod_add. lia.
Qed.

#[export] Hint Resolve u32_range u16_range : broker.

(** ** Bytes *)

Definition Z_of_byte (b : byte) : Z := Z.of_N (Byte.to_N b).
Definition byte_of_Z (z : Z) : byte :=
  match Byte.of_N (Z.to_N (z mod 256)) with
  | Some b => b
  | None => x00
  end.

Lemma Z_of_byte_range b : 0 <= Z_of_byte b < 256.
Proof. unfold Z_of_byte. pose proof (Byte.to_N_bounded b). lia. Qed.

Lemma byte_of_Z_of_byte b : byte_of_Z (Z_of_byte b) = b.
Proof.
  unfold byte_of_Z. rewrite Z.mod_small by apply Z_of_byte_range.
  unfold Z_of_byte. rewrite N2Z.id. by rewrite Byte.of_to_N.
Qed.

Lemma Z_of_byte_of_Z z : Z_of_byte (byte_of_Z z) = z mod 256.
Proof.
  unfold byte_of_Z, Z_of_byte.
  pose proof (Z.mod_pos_bound z 256 ltac:(lia)) as Hb.
  destruct (Byte.of_N (Z.to_N (z mod 256))) as [b|] eqn:E.
  - apply Byte.to_of_N in E. rewrite E, Z2N.id; lia.
  - apply Byte.of_N_None_iff in E. lia.
Qed.

Lemma Z_of_byte_inj a b : Z_of_byte a = Z_of_byte b -> a = b.
Proof. intros E. rewrite <-(byte_of_Z_of_byte a), <-(byte_of_Z_of_byte b). by rewrite E. Qed.

#[global] Instance byte_eq_dec : EqDecision byte.
Proof. intros a b. destruct (Byte.byte_eq_dec a b); [left | right]; done. Defined.

#[export] Hint Resolve Z_of_byte_range : broker.

(** [n] bytes of [z], most significant first: what htonl/htons followed by a
    copy of the bytes appends to a buffer. *)
Fixpoint be_bytes (n : nat) (z : Z) : list byte :=
  match n with
  | O => []
  | S n' => byte_of_Z (Z.shiftr z (8 * Z.of_nat n')) :: be_bytes n' z
  end.

(** The value of a big-endian byte sequence: ntohl/ntohs of a read. *)
Definition be_val (l : list byte) : Z :=
  fold_left (fun acc b => acc * 256 + Z_of_byte b) l 0.

Lemma length_be_bytes n z : length (be_bytes n z) = n.
Proof. induction n; simpl; congruence. Qed.

Lemma be_val_acc l acc :
  fold_left (fun a b => a * 256 + Z_of_byte b) l acc
  = acc * 256 ^ Z.of_nat (length l) + be_val l.
Proof.
  unfold be_val. revert acc.
  induction l as [|b l IH]; intros acc; cbn [fold_left length].
  - lia.
  - rewrite IH, (IH (0 * 256 + Z_of_byte b)).
    replace (Z.of_nat (S (length l))) with (Z.of_nat (length l) + 1) by lia.
    rewrite Z.pow_add_r by lia. lia.
Qed.

Lemma be_val_cons b l :
  be_val (b :: l) = Z_of_byte b * 256 ^ Z.of_nat (length l) + be_val l.
Proof. unfold be_val at 1. simpl. apply be_val_acc. Qed.

Lemma be_val_range l : 0 <= be_val l < 256 ^ Z.of_nat (length l).
Proof.
  induction l as [|b l IH]; [done|].
  rewrite be_val_cons. pose proof (Z_of_byte_range b).
  simpl length. rewrite Nat2Z.inj_succ, Z.pow_succ_r by lia. nia.
Qed.

Lemma be_val_be_bytes n z : be_val (be_bytes n z) = z mod 2 ^ (8 * Z.of_nat n).
Proof.
  induction n as [|n IH]; simpl be_bytes.
  - simpl. rewrite Z.mod_1_r. done.
  - rewrite be_val_cons, IH, Z_of_byte_of_Z, length_be_bytes.
    rewrite Z.shiftr_div_pow2 by lia.
    set (k := 8 * Z.of_nat n).
    replace (8 * Z.of_nat (S n)) with (k + 8) by lia.
    replace (256 ^ Z.of_nat n) with (2 ^ k)
      by (unfold k; rewrite Z.pow_mul_r by lia; done).
    rewrite Z.pow_add_r by lia. change (2 ^ 8) with 256.
    rewrite Z.rem_mul_r by lia. lia.
Qed.

Lemma be_bytes_mod n z : be_bytes n (z mod 2 ^ (8 * Z.of_nat n)) = be_bytes n z.
Proof.
  enough (forall m, (n <= m)%nat ->
            be_bytes n (z mod 2 ^ (8 * Z.of_nat m)) = be_bytes n z) by eauto.
  induction n as [|n IH]; intros m Hm; [done|]. simpl. f_equal; [|apply IH; lia].
  apply Z_of_byte_inj. rewrite !Z_of_byte_of_Z. change 256 with (2 ^ 8).
  rewrite <-!Z.land_ones by lia.
  apply Z.bits_inj'. intros i Hi.
  rewrite !Z.land_spec, !Z.shiftr_spec, Z.land_spec by lia.
  destruct (decide (i < 8)).
  - rewrite (Z.ones_spec_low 8) by lia.
    rewrite (Z.ones_spec_low (8 * Z.of_nat m)) by lia. by rewrite andb_true_r.
  - rewrite (Z.ones_spec_high 8) by lia. by rewrite !andb_false_r.
Qed.

(** ** Text

    A std::string is the list of its bytes; [str] turns a literal of the source
    into it. Searches return an index, [None] standing for npos. *)

Abbreviation cstring := (list byte).

Definition str (s : string) : cstring := String.list_byte_of_string s.

(** The character at an index, as the unsigned value of its byte. Reading one
    past the end yields the terminating NUL of std::string. *)
Definition char_at (l : cstring) (i : nat) : Z := Z_of_byte (nth i l x00).

(** <cctype> in the C locale. *)
Definition isspace (b : byte) : bool :=
  let z := Z_of_byte b in ((9 <=? z) && (z <=? 13)) || (z =? 32).
Definition isdigit (b : byte) : bool :=
  let z := Z_of_byte b in (48 <=? z) && (z <=? 57).

Definition byte_eqb (a b : byte) : bool := bool_decide (a = b).

Lemma byte_eqb_eq a b : byte_eqb a b = true <-> a = b.
Proof. unfold byte_eqb. apply bool_decide_eq_true. Qed.
Lemma byte_eqb_refl a : byte_eqb a a = true.
Proof. by apply byte_eqb_eq. Qed.
Lemma byte_eqb_neq a b : byte_eqb a b = false <-> a <> b.
Proof. unfold byte_eqb. apply bool_decide_eq_false. Qed.

(** Texts as keys of maps. *)
#[export] Program Instance byte_countable : Countable byte := inj_countable Byte.to_N Byte.of_N _.
Next Obligation. intros []; reflexivity. Qed.

Definition cstring_eqb (a b : cstring) : bool := bool_decide (a = b).

(** Index of the first element satisfying [P]. *)
Fixpoint find_first_if {A} (P : A -> bool) (l : list A) : option nat :=
  match l with
  | [] => None
  | x :: l' => if P x then Some O else S <$> find_first_if P l'
  end.

(** [find_from P l pos]: the same, at or after position [pos]. *)
Definition find_from {A} (P : A -> bool) (l : list A) (pos : nat) : option nat :=
  (fun i => (pos + i)%nat) <$> find_first_if P (drop pos l).

(** Index of the last element satisfying [P]. *)
Definition find_last_if {A} (P : A -> bool) (l : list A) : option nat :=
  (fun i => (length l - 1 - i)%nat) <$> find_first_if P (reverse l).

(** std::string::substr(pos, n). *)
Definition substr {A} (l : list A) (pos n : nat) : list A := take n (drop pos l).

Lemma find_first_if_Some {A} (P : A -> bool) l i :
  find_first_if P l = Some i <->
  exists x, l !! i = Some x /\ P x = true /\ forallb (fun y => negb (P y)) (take i l) = true.
Proof.
  revert i. induction l as [|y l IH]; intros i; simpl.
  - split; [done|]. intros (x & H & _). by rewrite lookup_nil in H.
  - destruct (P y) eqn:Hy.
    + split.
      * intros [= <-]. by exists y.
      * intros (x & H1 & H2 & H3). destruct i; [done|]. simpl in H3. by rewrite Hy in H3.
    + rewrite fmap_Some. setoid_rewrite IH. split.
      * intros (j & (x & H1 & H2 & H3) & ->). exists x. simpl. rewrite Hy. done.
      * intros (x & H1 & H2 & H3). destruct i as [|j]; simpl in *; [congruence|].
        rewrite Hy in H3. simpl in H3. exists j. eauto.
Qed.

Lemma find_first_if_None {A} (P : A -> bool) l :
  find_first_if P l = None <-> forallb (fun y => negb (P y)) l = true.
Proof.
  induction l as [|y l IH]; simpl; [done|].
  destruct (P y); simpl; [done|]. rewrite fmap_None. done.
Qed.

Lemma find_first_if_lt {A} (P : A -> bool) l i :
  find_first_if P l = Some i -> (i < length l)%nat.
Proof.
  rewrite find_first_if_Some. intros (x & H & _). by eapply lookup_lt_Some.
Qed.

(** The list cut at the first element satisfying [P]. *)
Lemma find_first_if_split {A} (P : A -> bool) l i :
  find_first_if P l = Some i ->
  exists x, l = take i l ++ x :: drop (S i) l /\ P x = true
            /\ forallb (fun y => negb (P y)) (take i l) = true.
Proof.
  rewrite find_first_if_Some. intros (x & H & Hx & Hl). exists x.
  split; [|done]. symmetry. by apply take_drop_middle.
Qed.

Lemma find_first_if_app {A} (P : A -> bool) l1 x l2 :
  forallb (fun y => negb (P y)) l1 = true -> P x = true ->
  find_first_if P (l1 ++ x :: l2) = Some (length l1).
Proof.
  intros H Hx. induction l1 as [|y l1 IH]; simpl in *; [by rewrite Hx|].
  destruct (P y); simpl in *; [done|]. by rewrite IH.
Qed.

Lemma find_last_if_split {A} (P : A -> bool) l p :
  find_last_if P l = Some p ->
  exists x, l = take p l ++ x :: drop (S p) l /\ P x = true
            /\ forallb (fun y => negb (P y)) (drop (S p) l) = true.
Proof.
  unfold find_last_if. rewrite fmap_Some. intros (i & H & ->).
  pose proof (find_first_if_lt _ _ _ H) as Hi. rewrite length_reverse in Hi.
  apply find_first_if_Some in H as (x & Hx & HP & Hf). exists x.
  assert (Hx' : l !! (length l - 1 - i)%nat = Some x).
  { rewrite reverse_lookup in Hx by lia. rewrite <-Hx. f_equal. lia. }
  split; [symmetry; by apply take_drop_middle|]. split; [done|].
  apply forallb_forall. intros y Hy. rewrite forallb_forall in Hf. apply Hf.
  apply list_elem_of_In. apply list_elem_of_In in Hy.
  apply list_elem_of_lookup in Hy as (j & Hy). rewrite lookup_drop in Hy.
  pose proof (lookup_lt_Some _ _ _ Hy).
  apply list_elem_of_lookup. exists (length l - S (S (length l - 1 - i) + j))%nat.
  rewrite lookup_take_lt by lia. rewrite reverse_lookup by lia. rewrite <-Hy. f_equal. lia.
Qed.

Lemma find_last_if_None {A} (P : A -> bool) l :
  find_last_if P l = None -> forallb (fun y => negb (P y)) l = true.
Proof.
  unfold find_last_if. rewrite fmap_None, find_first_if_None, !forallb_forall.
  intros H x Hx. apply H. rewrite <-list_elem_of_In, elem_of_reverse. by apply list_elem_of_In.
Qed.

(** *** Left folds: an invariant, agreement under it, and injectivity *)

Lemma fold_left_inv {A B} (P : A -> Prop) (f : A -> B -> A) l x :
  (forall x b, P x -> P (f x b)) -> P x -> P (fold_left f l x).
Proof. intros Hf. revert x. induction l; intros; simpl; auto. Qed.

Lemma fold_left_agree {A B} (P : A -> Prop) (f g : A -> B -> A) l x :
  (forall x b, P x -> f x b = g x b /\ P (g x b)) ->
  P x -> fold_left f l x = fold_left g l x.
Proof.
  intros Hf. revert x. induction l as [|b l IH]; intros x Hx; simpl; [done|].
  destruct (Hf x b Hx) as [-> ?]. auto.
Qed.

Lemma fold_left_inj {A B} (P : A -> Prop) (f : A -> B -> A) l x y :
  (forall x b, P x -> P (f x b)) ->
  (forall x y b, P x -> P y -> f x b = f y b -> x = y) ->
  P x -> P y -> fold_left f l x = fold_left f l y -> x = y.
Proof.
  intros Hp Hi. revert x y. induction l as [|b l IH]; intros x y Hx Hy E; simpl in E; eauto.
Qed.

Lemma fold_left_two {A B} (f : A -> B -> A) pre a b post x :
  fold_left f (pre ++ a :: b :: post) x = fold_left f post (f (f (fold_left f pre x) a) b).
Proof. by rewrite fold_left_app. Qed.

(** Every statement on bytes can be checked on the 256 of them. *)
Definition all_bytes : list byte := byte_of_Z <$> seqZ 0 256.

Lemma elem_of_all_bytes b : b ∈ all_bytes.
Proof.
  unfold all_bytes. apply list_elem_of_fmap. exists (Z_of_byte b).
  split; [by rewrite byte_of_Z_of_byte|]. apply elem_of_seqZ. apply Z_of_byte_range.
Qed.

Lemma forall_bytes (P : byte -> bool) : forallb P all_bytes = true -> forall b, P b = true.
Proof.
  intros H b. rewrite forallb_forall in H. apply H.
  apply list_elem_of_In, elem_of_all_bytes.
Qed.

Lemma forall_bytes2 (P : byte -> byte -> bool) :
  forallb (fun a => forallb (P a) all_bytes) all_bytes = true -> forall a b, P a b = true.
Proof.
  intros H a b. apply (forall_bytes (P a)).
  exact (forall_bytes (fun a => forallb (P a) all_bytes) H a).
Qed.

(** ** Bit operations on concatenated bytes *)

Lemma lor_shiftl_add a b k :
  0 <= k -> 0 <= b < 2 ^ k -> Z.lor (Z.shiftl a k) b = a * 2 ^ k + b.
Proof.
  intros Hk Hb. rewrite <-Z.shiftl_mul_pow2 by lia.
  rewrite <-Z.lxor_lor, <-Z.add_nocarry_lxor; try done.
  all: apply Z.bits_inj'; intros i Hi;
    rewrite Z.land_spec, Z.bits_0;
    destruct (decide (i < k));
    [rewrite Z.shiftl_spec_low by lia; done
    |replace (Z.testbit b i) with false; [by rewrite andb_false_r|]].
  all: symmetry; destruct (decide (b = 0)) as [->|]; [apply Z.bits_0|];
    apply Z.bits_above_log2; [lia|]; apply Z.log2_lt_pow2; [lia|];
    eapply Z.lt_le_trans; [apply Hb|]; apply Z.pow_le_mono_r; lia.
Qed.

Lemma testbit_high b k i : 0 <= b < 2 ^ k -> k <= i -> Z.testbit b i = false.
Proof.
  intros Hb Hi. destruct (decide (b = 0)) as [->|]; [apply Z.bits_0|].
  apply Z.bits_above_log2; [lia|]. apply Z.log2_lt_pow2; [lia|].
  eapply Z.lt_le_trans; [apply Hb|]. apply Z.pow_le_mono_r; lia.
Qed.

Lemma land_cat a b m n k :
  0 <= k -> 0 <= b < 2 ^ k -> 0 <= n < 2 ^ k ->
  Z.land (a * 2 ^ k + b) (m * 2 ^ k + n) = Z.land a m * 2 ^ k + Z.land b n.
Proof.
  intros Hk Hb Hn.
  assert (Hbn : 0 <= Z.land b n < 2 ^ k).
  { split; [apply Z.land_nonneg; lia|].
    destruct (decide (Z.land b n = 0)); [lia|].
    apply Z.log2_lt_pow2; [pose proof (proj2 (Z.land_nonneg b n)); lia|].
    eapply Z.le_lt_trans; [apply Z.log2_land; lia|].
    destruct (decide (b = 0)) as [->|]; [by rewrite Z.land_0_l in *|].
    eapply Z.le_lt_trans; [apply Z.le_min_l|]. apply Z.log2_lt_pow2; lia. }
  rewrite <-!lor_shiftl_add by lia. apply Z.bits_inj'. intros i Hi.
  rewrite !Z.land_spec, !Z.lor_spec, !Z.land_spec.
  destruct (decide (i < k)).
  - rewrite !Z.shiftl_spec_low by lia. done.
  - rewrite !Z.shiftl_spec by lia. rewrite Z.land_spec.
    rewrite (testbit_high b k i), (testbit_high n k i) by lia.
    by rewrite !orb_false_r.
Qed.
