(* ===== verification/Misc.v ===== *)
(** * core/src/misc/misc.cc: the header checksum and hexadecimal input

    [Module Crc]: misc::crc16_ccitt, the checksum of BBDO headers.
    [Module Hex]: misc::from_hex. *)

From Stdlib Require Import ZArith Lia ZifyNat ZifyBool Strings.Byte.
From stdpp Require Import base option list numbers strings sets.
From S2P Require Import Prelude.

Module Crc.

(** The nibble table of misc.cc. *)
Definition crc_tbl : list Z :=
  [0x0000; 0x1081; 0x2102; 0x3183; 0x4204; 0x5285; 0x6306; 0x7387;
   0x8408; 0x9489; 0xa50a; 0xb58b; 0xc60c; 0xd68d; 0xe70e; 0xf78f].

(** [((crc >> 4) & 0x0fff) ^ crc_tbl[((crc ^ c) & 15)]] *)
Definition crc_nibble (crc c : Z) : Z :=
  Z.lxor (Z.land (Z.shiftr crc 4) 0x0fff)
         (nth (Z.to_nat (Z.land (Z.lxor crc c) 15)) crc_tbl 0).

(** One iteration of the while loop: low nibble, then high nibble. *)
Definition crc_byte (crc : Z) (b : byte) : Z :=
  let c := Z_of_byte b in
  crc_nibble (crc_nibble crc c) (Z.shiftr c 4).

Definition crc16_ccitt (data : list byte) : Z :=
  Z.land (Z.lnot (fold_left crc_byte data 0xffff)) 0xffff.

(** Reference: the bit-serial CRC with the reflected polynomial 0x8408, initial
    value 0xffff and complemented result (CRC-16/X-25). *)
Definition crc_bit (x : Z) : Z :=
  Z.lxor (Z.shiftr x 1) (if Z.odd x then 0x8408 else 0).

Definition crc_ref_byte (crc : Z) (b : byte) : Z :=
  Nat.iter 8 crc_bit (Z.lxor crc (Z_of_byte b)).

Definition crc16_ref (data : list byte) : Z :=
  Z.lxor (fold_left crc_ref_byte data 0xffff) 0xffff.

(** Conversion must not unfold the iterated bit step, whose normal form on an
    open term is exponential in the number of steps. *)
#[local] Strategy 1000 [Nat.iter crc_bit].
#[local] Strategy 500 [crc_nibble].

(** ** Lemmas *)

Lemma crc_bit_lxor a b : crc_bit (Z.lxor a b) = Z.lxor (crc_bit a) (crc_bit b).
Proof.
  unfold crc_bit. rewrite Z.shiftr_lxor.
  assert (E : Z.odd (Z.lxor a b) = xorb (Z.odd a) (Z.odd b)).
  { rewrite <-!Z.bit0_odd. apply Z.lxor_spec. }
  rewrite E. destruct (Z.odd a), (Z.odd b); simpl xorb; cbv iota.
  all: apply Z.bits_inj'; intros i Hi; rewrite ?Z.lxor_spec, ?Z.bits_0.
  all: repeat match goal with |- context [Z.testbit ?x ?i] =>
         destruct (Z.testbit x i) end; done.
Qed.

Lemma iter_crc_bit_lxor n a b :
  Nat.iter n crc_bit (Z.lxor a b)
  = Z.lxor (Nat.iter n crc_bit a) (Nat.iter n crc_bit b).
Proof. induction n as [|n IH]; simpl; [done|]. by rewrite IH, crc_bit_lxor. Qed.

Lemma lxor_range a b k :
  0 <= k -> 0 <= a < 2 ^ k -> 0 <= b < 2 ^ k -> 0 <= Z.lxor a b < 2 ^ k.
Proof.
  intros Hk Ha Hb. assert (0 <= Z.lxor a b) by (apply Z.lxor_nonneg; lia).
  split; [done|]. destruct (decide (Z.lxor a b = 0)) as [->|]; [lia|].
  apply Z.log2_lt_pow2; [lia|].
  eapply Z.le_lt_trans; [apply Z.log2_lxor; lia|].
  apply Z.max_lub_lt.
  - destruct (decide (a = 0)) as [->|]; [|apply Z.log2_lt_pow2; lia].
    destruct (decide (k = 0)) as [->|]; [|simpl; lia]. assert (b = 0) as -> by lia.
    done.
  - destruct (decide (b = 0)) as [->|]; [|apply Z.log2_lt_pow2; lia].
    destruct (decide (k = 0)) as [->|]; [|simpl; lia]. assert (a = 0) as -> by lia.
    done.
Qed.

Lemma crc_bit_range x : 0 <= x < 2 ^ 16 -> 0 <= crc_bit x < 2 ^ 16.
Proof.
  intros Hx. unfold crc_bit. apply lxor_range; [lia| |by destruct (Z.odd x)].
  rewrite Z.shiftr_div_pow2 by lia. change (2 ^ 1) with 2.
  split; [apply Z.div_pos; lia|]. apply Z.div_lt_upper_bound; lia.
Qed.

Lemma iter_crc_bit_range n x :
  0 <= x < 2 ^ 16 -> 0 <= Nat.iter n crc_bit x < 2 ^ 16.
Proof. intros. induction n; simpl; [done|]. by apply crc_bit_range. Qed.

(** The kernel of the linear map [crc_bit] on 16-bit words is trivial. *)
Lemma crc_bit_kernel x : 0 <= x < 2 ^ 16 -> crc_bit x = 0 -> x = 0.
Proof.
  unfold crc_bit. intros Hx E. apply Z.lxor_eq in E.
  rewrite Z.shiftr_div_pow2 in E by lia. change (2 ^ 1) with 2 in E.
  pose proof (Z.div_mod x 2 ltac:(lia)) as D. rewrite Zmod_odd in D.
  destruct (Z.odd x); lia.
Qed.

Lemma iter_crc_bit_inj n x y :
  0 <= x < 2 ^ 16 -> 0 <= y < 2 ^ 16 ->
  Nat.iter n crc_bit x = Nat.iter n crc_bit y -> x = y.
Proof.
  intros Hx Hy E. apply Z.lxor_eq.
  assert (H : Nat.iter n crc_bit (Z.lxor x y) = 0).
  { by rewrite iter_crc_bit_lxor, E, Z.lxor_nilpotent. }
  assert (Hr : 0 <= Z.lxor x y < 2 ^ 16) by (apply lxor_range; lia).
  clear E Hx Hy. induction n as [|n IH]; [done|]. simpl in H.
  apply IH. apply crc_bit_kernel; [by apply iter_crc_bit_range|done].
Qed.

Lemma iter_split k m n x :
  k = (m + n)%nat -> Nat.iter k crc_bit x = Nat.iter m crc_bit (Nat.iter n crc_bit x).
Proof. intros ->. apply Nat.iter_add. Qed.

(** [n] bit steps on a word whose [n] low bits are clear are a shift. *)
Lemma iter_shiftl n k h :
  k = Z.of_nat n -> 0 <= h -> Nat.iter n crc_bit (Z.shiftl h k) = h.
Proof.
  intros -> Hh. induction n as [|n IH]; [apply Z.shiftl_0_r|].
  rewrite Nat.iter_succ_r. rewrite <-IH at 2. f_equal. unfold crc_bit.
  rewrite <-Z.bit0_odd, Z.shiftl_spec_low by lia.
  rewrite Z.lxor_0_r, Z.shiftr_shiftl_l by lia. f_equal. lia.
Qed.

Lemma split_nibble x : x = Z.lxor (Z.shiftl (Z.shiftr x 4) 4) (Z.land x 15).
Proof.
  apply Z.bits_inj'. intros i Hi. rewrite Z.lxor_spec, Z.land_spec.
  change 15 with (Z.ones 4). destruct (decide (i < 4)).
  - rewrite Z.shiftl_spec_low, Z.ones_spec_low by lia. by rewrite andb_true_r, xorb_false_l.
  - rewrite Z.shiftl_spec, Z.shiftr_spec, Z.ones_spec_high by lia.
    rewrite andb_false_r, xorb_false_r. f_equal. lia.
Qed.

Lemma crc_tbl_spec n :
  0 <= n < 16 -> nth (Z.to_nat n) crc_tbl 0 = Nat.iter 4 crc_bit n.
Proof.
  intros Hn.
  assert (H : forallb (fun n => nth (Z.to_nat n) crc_tbl 0 =? Nat.iter 4 crc_bit n)
                      (seqZ 0 16) = true) by reflexivity.
  rewrite forallb_forall in H. specialize (H n). apply Z.eqb_eq, H.
  apply list_elem_of_In, elem_of_seqZ. lia.
Qed.

Lemma land15_range x : 0 <= Z.land x 15 < 16.
Proof. change 15 with (Z.ones 4). rewrite Z.land_ones by lia. apply Z.mod_pos_bound. lia. Qed.

(** The table step is four bit steps. *)
Lemma crc_nibble_spec crc c :
  0 <= crc < 2 ^ 16 ->
  crc_nibble crc c = Nat.iter 4 crc_bit (Z.lxor crc (Z.land c 15)).
Proof.
  intros Hcrc. unfold crc_nibble.
  rewrite crc_tbl_spec by apply land15_range.
  rewrite (split_nibble (Z.lxor crc (Z.land c 15))), iter_crc_bit_lxor.
  rewrite (iter_shiftl 4 4 _ eq_refl).
  2:{ apply Z.shiftr_nonneg, Z.lxor_nonneg. pose proof (land15_range c). lia. }
  f_equal.
  - change 0x0fff with (Z.ones 12). rewrite Z.land_ones by lia.
    rewrite Z.shiftr_lxor.
    replace (Z.shiftr (Z.land c 15) 4) with 0.
    2:{ rewrite Z.shiftr_div_pow2 by lia. symmetry. apply Z.div_small, land15_range. }
    rewrite Z.lxor_0_r. apply Z.mod_small. rewrite Z.shiftr_div_pow2 by lia.
    split; [apply Z.div_pos; lia|apply Z.div_lt_upper_bound; lia].
  - f_equal. apply Z.bits_inj'. intros i Hi.
    rewrite !Z.land_spec, !Z.lxor_spec, Z.land_spec.
    by destruct (Z.testbit crc i), (Z.testbit c i), (Z.testbit 15 i).
Qed.

Lemma crc_ref_byte_range crc b :
  0 <= crc < 2 ^ 16 -> 0 <= crc_ref_byte crc b < 2 ^ 16.
Proof.
  intros. apply iter_crc_bit_range, lxor_range; [lia..|].
  pose proof (Z_of_byte_range b). lia.
Qed.

Lemma crc_two_nibbles crc c :
  0 <= crc < 2 ^ 16 -> 0 <= c < 256 ->
  crc_nibble (crc_nibble crc c) (Z.shiftr c 4) = Nat.iter 8 crc_bit (Z.lxor crc c).
Proof.
  intros Hcrc Hb. pose proof (land15_range c) as Hc.
  assert (Hl : 0 <= Z.lxor crc (Z.land c 15) < 2 ^ 16) by (apply lxor_range; lia).
  assert (Hh : Z.land (Z.shiftr c 4) 15 = Z.shiftr c 4).
  { change 15 with (Z.ones 4). rewrite Z.land_ones by lia. apply Z.mod_small.
    rewrite Z.shiftr_div_pow2 by lia.
    split; [apply Z.div_pos; lia|apply Z.div_lt_upper_bound; lia]. }
  rewrite (crc_nibble_spec crc c Hcrc).
  rewrite (crc_nibble_spec _ _ (iter_crc_bit_range 4 _ Hl)), Hh.
  rewrite (iter_split 8 4 4 _ eq_refl). apply (f_equal (Nat.iter 4 crc_bit)).
  rewrite (split_nibble c) at 3.
  rewrite (Z.lxor_comm (Z.shiftl _ _)), <-Z.lxor_assoc.
  rewrite (iter_crc_bit_lxor 4 _ (Z.shiftl _ _)).
  by rewrite (iter_shiftl 4 4 _ eq_refl) by (apply Z.shiftr_nonneg; lia).
Qed.

Lemma crc_byte_spec crc b :
  0 <= crc < 2 ^ 16 -> crc_byte crc b = crc_ref_byte crc b.
Proof. intros Hcrc. exact (crc_two_nibbles crc _ Hcrc (Z_of_byte_range b)). Qed.

Lemma fold_crc_range l crc :
  0 <= crc < 2 ^ 16 -> 0 <= fold_left crc_ref_byte l crc < 2 ^ 16.
Proof. apply (fold_left_inv (fun x => 0 <= x < 2 ^ 16)), crc_ref_byte_range. Qed.

Lemma fold_crc_spec l crc :
  0 <= crc < 2 ^ 16 -> fold_left crc_byte l crc = fold_left crc_ref_byte l crc.
Proof.
  apply (fold_left_agree (fun x => 0 <= x < 2 ^ 16)).
  intros x b Hx. split; [by apply crc_byte_spec|by apply crc_ref_byte_range].
Qed.

Lemma crc_ref_byte_inj x y b :
  0 <= x < 2 ^ 16 -> 0 <= y < 2 ^ 16 -> crc_ref_byte x b = crc_ref_byte y b -> x = y.
Proof.
  intros Hx Hy E. pose proof (Z_of_byte_range b).
  apply iter_crc_bit_inj in E; [|apply lxor_range; lia..].
  assert (H' : Z.lxor (Z.lxor x (Z_of_byte b)) (Z_of_byte b)
               = Z.lxor (Z.lxor y (Z_of_byte b)) (Z_of_byte b)) by by rewrite E.
  by rewrite !Z.lxor_assoc, Z.lxor_nilpotent, !Z.lxor_0_r in H'.
Qed.

Lemma fold_crc_inj l x y :
  0 <= x < 2 ^ 16 -> 0 <= y < 2 ^ 16 ->
  fold_left crc_ref_byte l x = fold_left crc_ref_byte l y -> x = y.
Proof.
  apply (fold_left_inj (fun x => 0 <= x < 2 ^ 16)).
  - apply crc_ref_byte_range.
  - apply crc_ref_byte_inj.
Qed.

(** Two consecutive bytes enter the register as one 16-bit word. *)
Lemma crc_ref_two crc a b :
  crc_ref_byte (crc_ref_byte crc a) b
  = Nat.iter 16 crc_bit
      (Z.lxor crc (Z.lxor (Z_of_byte a) (Z.shiftl (Z_of_byte b) 8))).
Proof.
  unfold crc_ref_byte. rewrite (iter_split 16 8 8) by done. f_equal.
  rewrite <-Z.lxor_assoc, (iter_crc_bit_lxor 8 _ (Z.shiftl _ _)). f_equal.
  symmetry. apply (iter_shiftl 8 8 _ eq_refl). apply Z_of_byte_range.
Qed.

Lemma crc16_ccitt_ref l : crc16_ccitt l = crc16_ref l.
Proof.
  unfold crc16_ccitt, crc16_ref. rewrite fold_crc_spec by lia.
  pose proof (fold_crc_range l 0xffff ltac:(lia)) as Hr.
  set (x := fold_left _ _ _) in *. change 0xffff with (Z.ones 16).
  apply Z.bits_inj'. intros i Hi.
  rewrite Z.land_spec, Z.lnot_spec, Z.lxor_spec by done. destruct (decide (i < 16)).
  - rewrite Z.ones_spec_low by lia. by destruct (Z.testbit x i).
  - rewrite Z.ones_spec_high by lia. rewrite (testbit_high x 16 i) by lia. done.
Qed.

Lemma crc16_ccitt_range l : 0 <= crc16_ccitt l < 2 ^ 16.
Proof.
  rewrite crc16_ccitt_ref. apply lxor_range; [lia| |lia].
  apply fold_crc_range. lia.
Qed.

Lemma lxor_shiftl_inj a b a' b' :
  Z.lxor (Z_of_byte a) (Z.shiftl (Z_of_byte b) 8)
  = Z.lxor (Z_of_byte a') (Z.shiftl (Z_of_byte b') 8) -> a = a' /\ b = b'.
Proof.
  assert (cat : forall x y, Z.lxor (Z_of_byte x) (Z.shiftl (Z_of_byte y) 8)
                            = Z_of_byte y * 256 + Z_of_byte x).
  { intros x y. pose proof (Z_of_byte_range x).
    rewrite <-(lor_shiftl_add _ _ 8) by lia. rewrite Z.lxor_comm.
    apply Z.lxor_lor. apply Z.bits_inj'. intros i Hi. rewrite Z.land_spec, Z.bits_0.
    destruct (decide (i < 8)); [by rewrite Z.shiftl_spec_low by lia|].
    rewrite (testbit_high (Z_of_byte x) 8) by lia. apply andb_false_r. }
  rewrite !cat. intros E.
  pose proof (Z_of_byte_range a). pose proof (Z_of_byte_range b).
  pose proof (Z_of_byte_range a'). pose proof (Z_of_byte_range b').
  split; apply Z_of_byte_inj; lia.
Qed.

Lemma lxor_cancel_l x u v : Z.lxor x u = Z.lxor x v -> u = v.
Proof.
  intros E. rewrite <-(Z.lxor_0_l u), <-(Z.lxor_0_l v).
  rewrite <-(Z.lxor_nilpotent x), !Z.lxor_assoc. by rewrite E.
Qed.

Lemma crc_ref_two_inj x a b a' b' :
  0 <= x < 2 ^ 16 ->
  crc_ref_byte (crc_ref_byte x a) b = crc_ref_byte (crc_ref_byte x a') b' ->
  a = a' /\ b = b'.
Proof.
  intros Hx E. rewrite !crc_ref_two in E.
  assert (Hw : forall c d, 0 <= Z.lxor (Z_of_byte c) (Z.shiftl (Z_of_byte d) 8) < 2 ^ 16).
  { intros c d. pose proof (Z_of_byte_range c). pose proof (Z_of_byte_range d).
    apply lxor_range; [lia..|]. rewrite Z.shiftl_mul_pow2 by lia. lia. }
  apply iter_crc_bit_inj in E; [|apply lxor_range; done || lia..].
  by apply lxor_cancel_l, lxor_shiftl_inj in E.
Qed.

(** The table-driven checksum is the bit-serial one. *)
Theorem crc16_ccitt_bit_serial data : crc16_ccitt data = crc16_ref data.
Proof. apply crc16_ccitt_ref. Qed.

(** Any error confined to two consecutive bytes changes the checksum. *)
Theorem crc16_ccitt_detects_burst pre a b a' b' post :
  (a, b) <> (a', b') ->
  crc16_ccitt (pre ++ a :: b :: post) <> crc16_ccitt (pre ++ a' :: b' :: post).
Proof.
  intros Hne E. apply Hne. rewrite !crc16_ccitt_ref in E. unfold crc16_ref in E.
  rewrite !(Z.lxor_comm _ 0xffff) in E. apply lxor_cancel_l in E.
  rewrite !fold_left_two in E.
  pose proof (fold_crc_range pre 0xffff ltac:(lia)) as Hr.
  apply fold_crc_inj in E; [|by do 2 apply crc_ref_byte_range..].
  apply crc_ref_two_inj in E as [-> ->]; done.
Qed.

Lemma crc16_ccitt_detects_burst_witness :
  crc16_ccitt (str "12345" ++ x36 :: x37 :: str "89")
  <> crc16_ccitt (str "12345" ++ x37 :: x37 :: str "89").
Proof. apply (crc16_ccitt_detects_burst (str "12345") x36 x37 x37 x37 (str "89")). done. Defined.

Example crc16_check : crc16_ccitt (str "123456789") = 0x906e.
Proof. reflexivity. Qed.

End Crc.

Module Hex.

(** The value of a hexadecimal digit, by the three range tests of from_hex. *)
Definition digit_value (c : byte) : option Z :=
  let z := Z_of_byte c in
  if (48 <=? z) && (z <=? 57) then Some (z - 48)
  else if (65 <=? z) && (z <=? 70) then Some (z + 10 - 65)
  else if (97 <=? z) && (z <=? 102) then Some (z + 10 - 97)
  else None.

(** The for loop: [valid] tells whether a high digit is pending in [value]. *)
Fixpoint from_hex_loop (s : cstring) (valid : bool) (value : Z) (retval : list byte)
  : outcome (list byte) :=
  match s with
  | [] => Returns retval
  | c :: s' =>
      let value := if valid then u8 (Z.shiftl value 4) else 0 in
      match digit_value c with
      | None => Throws Exn_msg
      | Some d =>
          let value := Z.lor value d in
          if valid then from_hex_loop s' false value (retval ++ [byte_of_Z value])
          else from_hex_loop s' true value retval
      end
  end.

Definition from_hex (s : cstring) : outcome (list byte) :=
  if Nat.odd (length s) then Throws Exn_msg
  else from_hex_loop s false 0 [].

(** Reference: one byte per pair of digits. *)
Fixpoint hex_pairs (s : cstring) : option (list byte) :=
  match s with
  | [] => Some []
  | h :: l :: s' =>
      hi ← digit_value h; lo ← digit_value l; rest ← hex_pairs s';
      Some (byte_of_Z (hi * 16 + lo) :: rest)
  | [_] => None
  end.

Definition hex_digit (z : Z) : byte := nth (Z.to_nat z) (str "0123456789ABCDEF") x00.
Definition to_hex (l : list byte) : cstring :=
  concat ((fun b => [hex_digit (Z_of_byte b / 16); hex_digit (Z_of_byte b mod 16)]) <$> l).

(** ** Lemmas *)

Lemma digit_value_range c d : digit_value c = Some d -> 0 <= d < 16.
Proof.
  unfold digit_value. intros H.
  repeat case_if; simplify_eq; zbool; lia.
Qed.

Lemma hex_combine hi lo :
  0 <= hi < 16 -> 0 <= lo < 16 -> Z.lor (u8 (Z.shiftl hi 4)) lo = hi * 16 + lo.
Proof.
  intros Hh Hl. unfold u8. rewrite Z.mod_small.
  - by apply (lor_shiftl_add hi lo 4).
  - rewrite Z.shiftl_mul_pow2 by lia. lia.
Qed.

Lemma from_hex_loop_spec n s v retval :
  (length s <= n)%nat -> Nat.odd (length s) = false ->
  from_hex_loop s false v retval =
    match hex_pairs s with Some bs => Returns (retval ++ bs) | None => Throws Exn_msg end.
Proof.
  revert s v retval. induction n as [|n IH]; intros s v retval Hn Ho.
  { destruct s; simpl in *; [by rewrite app_nil_r|lia]. }
  destruct s as [|h [|l s]]; [simpl; by rewrite app_nil_r|done|].
  cbn [from_hex_loop hex_pairs].
  destruct (digit_value h) as [hi|] eqn:Eh; [|done].
  cbn [mbind option_bind].
  destruct (digit_value l) as [lo|] eqn:El; [|done].
  apply digit_value_range in Eh. apply digit_value_range in El.
  simpl in Ho, Hn. rewrite Nat.odd_succ, <-Nat.negb_odd in Ho.
  rewrite Nat.odd_succ, <-Nat.negb_odd, negb_involutive in Ho.
  rewrite Z.lor_0_l, hex_combine, IH by (done || lia).
  destruct (hex_pairs s); simpl; [by rewrite <-app_assoc|done].
Qed.

(** from_hex accepts exactly the even-length strings of hexadecimal digits,
    and then returns one byte per pair. *)
Theorem from_hex_spec s :
  from_hex s = match hex_pairs s with Some bs => Returns bs | None => Throws Exn_msg end.
Proof.
  unfold from_hex. destruct (Nat.odd (length s)) eqn:Ho.
  - enough (hex_pairs s = None) as -> by done.
    assert (H : forall n s, (length s <= n)%nat -> Nat.odd (length s) = true -> hex_pairs s = None).
    { clear. induction n as [|n IH]; intros [|h [|l s]] Hn Ho; try done; [simpl in Hn; lia|].
      simpl in Ho, Hn. rewrite Nat.odd_succ, <-Nat.negb_odd in Ho.
      rewrite Nat.odd_succ, <-Nat.negb_odd, negb_involutive in Ho.
      simpl. rewrite IH by (done || lia).
      destruct (digit_value h), (digit_value l); done. }
    by eapply H.
  - by apply (from_hex_loop_spec (length s) s 0 []).
Qed.

Lemma hex_digit_value b :
  digit_value (hex_digit (Z_of_byte b / 16)) = Some (Z_of_byte b / 16)
  /\ digit_value (hex_digit (Z_of_byte b mod 16)) = Some (Z_of_byte b mod 16).
Proof.
  assert (H : forallb (fun b => bool_decide
    (digit_value (hex_digit (Z_of_byte b / 16)) = Some (Z_of_byte b / 16)
     /\ digit_value (hex_digit (Z_of_byte b mod 16)) = Some (Z_of_byte b mod 16)))
    all_bytes = true) by (vm_compute; reflexivity).
  pose proof (forall_bytes _ H b) as Hb. by apply bool_decide_eq_true in Hb.
Qed.

(** Printing bytes in hexadecimal and reading them back is the identity. *)
Theorem from_hex_to_hex l : from_hex (to_hex l) = Returns l.
Proof.
  rewrite from_hex_spec. enough (hex_pairs (to_hex l) = Some l) as -> by done.
  induction l as [|b l IH]; [done|].
  change (to_hex (b :: l)) with
    (hex_digit (Z_of_byte b / 16) :: hex_digit (Z_of_byte b mod 16) :: to_hex l).
  cbn [hex_pairs]. destruct (hex_digit_value b) as [-> ->].
  cbn [mbind option_bind]. rewrite IH. cbn [mbind option_bind]. do 2 f_equal.
  rewrite <-(byte_of_Z_of_byte b) at 3. f_equal.
  pose proof (Z.div_mod (Z_of_byte b) 16 ltac:(lia)). lia.
Qed.

Example from_hex_doc : from_hex (str "0A1286EF") = Returns [x0a; x12; x86; xef].
Proof. reflexivity. Qed.

End Hex.
