(* ===== verification/MiscString.v ===== *)
(** * core/src/misc/string.cc: string helpers

    trim, split, base64_encode, is_number, check_string_utf8,
    adjust_size_utf8 and escape, over byte strings. *)

From Stdlib Require Import ZArith Lia ZifyNat ZifyBool Strings.Byte.
From stdpp Require Import base option list numbers strings sets.
From S2P Require Import Prelude.

Module Str.

(** ** Definitions of string.cc *)

Definition whitespaces : cstring := [x20; x09; x0d; x0a].
Definition is_ws (b : byte) : bool := existsb (byte_eqb b) whitespaces.

Definition trim (s : cstring) : cstring :=
  match find_last_if (fun c => negb (is_ws c)) s with
  | None => []
  | Some pos =>
      let s := take (pos + 1) s in
      match find_first_if (fun c => negb (is_ws c)) s with
      | Some pos => drop pos s
      | None => s
      end
  end.

(** The while loop of split, from position [pos]; one turn per separator. *)
Fixpoint split_loop (fuel : nat) (s : cstring) (sep : byte) (pos : nat) : list cstring :=
  match fuel with
  | O => []
  | S fuel' =>
      match find_from (byte_eqb sep) s pos with
      | Some new_pos => substr s pos (new_pos - pos) :: split_loop fuel' s sep (new_pos + 1)
      | None => [drop pos s]
      end
  end.

Definition split (s : cstring) (sep : byte) : list cstring :=
  split_loop (S (length s)) s sep 0.

Definition base64_alphabet : cstring :=
  str "ABCDEFGHIJKLMNOPQRSTUVWXYZabcdefghijklmnopqrstuvwxyz0123456789+/".
Definition b64_char (z : Z) : byte := nth (Z.to_nat z) base64_alphabet x00.

(** The inner while loop: [valb] is below 10, so it turns at most twice. *)
Fixpoint b64_inner (n : nat) (val valb : Z) (retval : cstring) : Z * cstring :=
  match n with
  | O => (valb, retval)
  | S n' =>
      if 0 <=? valb
      then b64_inner n' val (valb - 6)
             (retval ++ [b64_char (Z.land (Z.shiftr val valb) 0x3f)])
      else (valb, retval)
  end.

Fixpoint b64_loop (s : cstring) (val valb : Z) (retval : cstring) : Z * Z * cstring :=
  match s with
  | [] => (val, valb, retval)
  | c :: s' =>
      let val := i32 (i32 (Z.shiftl val 8) + Z_of_byte c) in
      let '(valb, retval) := b64_inner 2 val (valb + 8) retval in
      b64_loop s' val valb retval
  end.

(** [while (retval.size() % 4) retval.push_back('=')]: at most three turns. *)
Fixpoint b64_pad (n : nat) (retval : cstring) : cstring :=
  match n with
  | O => retval
  | S n' => if (length retval mod 4 =? 0)%nat then retval else b64_pad n' (retval ++ [x3d])
  end.

Definition base64_encode (s : cstring) : cstring :=
  let '(val, valb, retval) := b64_loop s 0 (-6) [] in
  let retval :=
    if -6 <? valb
    then retval ++ [b64_char (Z.land (Z.shiftr (i32 (Z.shiftl val 8)) (valb + 8)) 0x3f)]
    else retval in
  b64_pad 3 retval.

Definition is_number (s : cstring) : bool :=
  negb (bool_decide (s = [])) && bool_decide (find_first_if (fun c => negb (isdigit c)) s = None).

(** *** UTF-8 *)

(** The scanning loop of check_string_utf8: what is left of the string where it
    stops.  [fuel] bounds the number of characters. *)
Fixpoint utf8_scan (fuel : nat) (it : cstring) : cstring :=
  match fuel, it with
  | O, _ => it
  | _, [] => it
  | S fuel', _ =>
      let val := char_at it 0 in
      if Z.land val 0x80 =? 0 then utf8_scan fuel' (drop 1 it)
      else
      let val := Z.lor (Z.shiftl val 8) (char_at it 1) in
      if Z.land val 0xe0c0 =? 0xc080 then
        if Z.land val 0x1e00 =? 0 then it else utf8_scan fuel' (drop 2 it)
      else
      let val := Z.lor (Z.shiftl val 8) (char_at it 2) in
      if Z.land val 0xf0c0c0 =? 0xe08080 then
        let v := Z.land val 0xf2000 in
        if (v =? 0) || (v =? 0xd2000) then it else utf8_scan fuel' (drop 3 it)
      else
      let val := Z.lor (Z.shiftl val 8) (char_at it 3) in
      if Z.land val 0xf8c0c0c0 =? 0xf0808080 then
        let v := Z.land val 0x7300000 in
        if (v =? 0) || (0x4000000 <? v) then it else utf8_scan fuel' (drop 4 it)
      else it
  end.

(** The two-byte encoding of the default cases of the switches. *)
Definition latin1_to_utf8 (c : byte) : cstring :=
  let z := Z_of_byte c in
  [byte_of_Z (Z.lor 0xc0 (Z.shiftr z 6)); byte_of_Z (Z.lor (Z.land z 0x3f) 0x80)].

Definition iso8859_char (c : byte) : cstring :=
  let z := Z_of_byte c in
  if z <? 128 then [c]
  else if (128 <=? z) && (z <=? 160) then str "_"
  else match z with
  | 0xa4 => str "€" | 0xa6 => str "Š" | 0xa8 => str "š" | 0xb4 => str "Ž"
  | 0xb8 => str "ž" | 0xbc => str "Œ" | 0xbd => str "œ" | 0xbe => str "Ÿ"
  | _ => latin1_to_utf8 c
  end.

Definition cp1252_char (c : byte) : cstring :=
  let z := Z_of_byte c in
  if z <? 128 then [c]
  else match z with
  | 128 => str "€"
  | 129 | 141 | 143 | 144 | 157 => str "_"
  | 130 => str "‚" | 131 => str "ƒ" | 132 => str "„" | 133 => str "…"
  | 134 => str "†" | 135 => str "‡" | 136 => str "ˆ" | 137 => str "‰"
  | 138 => str "Š" | 139 => str "‹" | 140 => str "Œ" | 142 => str "Ž"
  | 145 => str "‘" | 146 => str "’" | 147 => str "“" | 148 => str "”"
  | 149 => str "•" | 150 => str "–" | 151 => str "—" | 152 => str "˜"
  | 153 => str "™" | 154 => str "š" | 155 => str "›" | 156 => str "œ"
  | 158 => str "ž" | 159 => str "Ÿ"
  | _ => latin1_to_utf8 c
  end.

Inductive encoding := Iso8859_15 | Cp1252.

(** The do-while loop that chooses the source encoding of the remainder. *)
Fixpoint detect_encoding (itt : cstring) (is_cp1252 is_iso8859 : bool) : encoding :=
  match itt with
  | [] => Iso8859_15
  | c :: itt' =>
      let z := Z_of_byte c in
      let is_iso8859 := if (126 <? z) && (z <? 160) then false else is_iso8859 in
      let is_cp1252 :=
        if negb (Z.land z 128 =? 0) &&
           ((z =? 129) || (z =? 141) || (z =? 143) || (z =? 144) || (z =? 155))
        then false else is_cp1252 in
      if negb is_cp1252 then Iso8859_15
      else if negb is_iso8859 then Cp1252
      else detect_encoding itt' is_cp1252 is_iso8859
  end.

Definition check_string_utf8 (s : cstring) : cstring :=
  let it := utf8_scan (S (length s)) s in
  match it with
  | [] => s
  | _ =>
      let pre := take (length s - length it) s in
      match detect_encoding it true true with
      | Iso8859_15 => pre ++ concat (iso8859_char <$> it)
      | Cp1252 => pre ++ concat (cp1252_char <$> it)
      end
  end.

(** [while ((str[s] & 0xc0) == 0x80) s--]: [None] when the index underflows and
    the read is out of bounds. *)
Fixpoint back_to_lead (l : cstring) (s : nat) : option nat :=
  if Z.land (char_at l s) 0xc0 =? 0x80
  then match s with O => None | S s' => back_to_lead l s' end
  else Some s.

Definition adjust_size_utf8 (l : cstring) (s : nat) : option nat :=
  if (length l <=? s)%nat then Some (length l)
  else if (s =? 0)%nat then Some s
  else back_to_lead l s.

Definition quote : byte := x27.
Definition backslash : byte := x5c.
Definition needs_escape (b : byte) : bool := byte_eqb b quote || byte_eqb b backslash.

(** The do-while loop of escape, entered with the index of the last escaped
    character. *)
Fixpoint escape_loop (fuel : nat) (l : cstring) (s found : nat) (ret : cstring) : cstring :=
  match fuel with
  | O => ret
  | S fuel' =>
      let found := S found in
      match find_from needs_escape l found with
      | None => ret ++ drop found l
      | Some ffound =>
          let ret := ret ++ substr l found (ffound - found)
                         ++ [backslash; nth ffound l x00] in
          if (ffound <? s)%nat then escape_loop fuel' l s ffound ret else ret
      end
  end.

(** Drop a last backslash unless the character before it is a backslash too. *)
Definition drop_dangling (ret : cstring) : cstring :=
  let n := length ret in
  if (1 <? n)%nat && byte_eqb (nth (n - 1) ret x00) backslash
     && negb (byte_eqb (nth (n - 2) ret x00) backslash)
  then take (n - 1) ret else ret.

Definition escape (l : cstring) (s : nat) : option cstring :=
  match find_first_if needs_escape l with
  | None => n ← adjust_size_utf8 l s; Some (take n l)
  | Some found =>
      let ret := take found l ++ [backslash; nth found l x00] in
      let ret := escape_loop (length l) l s found ret in
      n ← adjust_size_utf8 ret s;
      Some (drop_dangling (take n ret))
  end.

(** ** Specifications *)

(** Pieces joined by a separator. *)
Fixpoint intercalate (sep : byte) (pieces : list cstring) : cstring :=
  match pieces with
  | [] => []
  | [p] => p
  | p :: ps => p ++ sep :: intercalate sep ps
  end.

(** Well-formed UTF-8 byte sequences (Unicode, table 3-7). *)
Definition in_range (b : byte) (lo hi : Z) : bool := (lo <=? Z_of_byte b) && (Z_of_byte b <=? hi).

Definition utf8_char (l : cstring) : bool :=
  match l with
  | [a] => in_range a 0 0x7f
  | [a; b] => in_range a 0xc2 0xdf && in_range b 0x80 0xbf
  | [a; b; c] =>
      ((in_range a 0xe0 0xe0 && in_range b 0xa0 0xbf)
       || (in_range a 0xe1 0xec && in_range b 0x80 0xbf)
       || (in_range a 0xed 0xed && in_range b 0x80 0x9f)
       || (in_range a 0xee 0xef && in_range b 0x80 0xbf))
      && in_range c 0x80 0xbf
  | [a; b; c; d] =>
      ((in_range a 0xf0 0xf0 && in_range b 0x90 0xbf)
       || (in_range a 0xf1 0xf3 && in_range b 0x80 0xbf)
       || (in_range a 0xf4 0xf4 && in_range b 0x80 0x8f))
      && in_range c 0x80 0xbf && in_range d 0x80 0xbf
  | _ => false
  end.

Definition utf8_wf (l : cstring) : Prop :=
  exists chars, Forall (fun c => utf8_char c = true) chars /\ l = concat chars.

(** The text a database reads between single quotes: a backslash protects the
    next character, a bare quote or a final backslash is an error. *)
Fixpoint unescape (l : cstring) : option cstring :=
  match l with
  | [] => Some []
  | c :: l' =>
      if byte_eqb c backslash then
        match l' with
        | [] => None
        | d :: l'' => cons d <$> unescape l''
        end
      else if byte_eqb c quote then None
      else cons c <$> unescape l'
  end.

(** RFC 4648, three bytes at a time. *)
Fixpoint b64_groups (s : cstring) : cstring :=
  match s with
  | a :: b :: c :: s' =>
      let n := (Z_of_byte a * 256 + Z_of_byte b) * 256 + Z_of_byte c in
      [b64_char (n / 2 ^ 18); b64_char (n / 2 ^ 12 mod 64);
       b64_char (n / 2 ^ 6 mod 64); b64_char (n mod 64)] ++ b64_groups s'
  | [a; b] =>
      let n := Z_of_byte a * 256 + Z_of_byte b in
      [b64_char (n / 2 ^ 10); b64_char (n / 2 ^ 4 mod 64); b64_char (n mod 16 * 4); x3d]
  | [a] => [b64_char (Z_of_byte a / 4); b64_char (Z_of_byte a mod 4 * 16); x3d; x3d]
  | [] => []
  end.

(** ** trim and split *)

Lemma forallb_not_sep sep p :
  forallb (fun y => negb (byte_eqb sep y)) p = true <-> sep ∉ p.
Proof.
  rewrite forallb_forall. setoid_rewrite negb_true_iff. setoid_rewrite byte_eqb_neq.
  split.
  - intros H Hin. apply list_elem_of_In in Hin. by apply (H sep).
  - intros H x Hx ->. apply H. by apply list_elem_of_In.
Qed.

Lemma split_loop_unique sep pieces fuel s pos :
  pieces <> [] -> drop pos s = intercalate sep pieces ->
  Forall (fun p => sep ∉ p) pieces -> (length pieces <= fuel)%nat ->
  split_loop fuel s sep pos = pieces.
Proof.
  revert fuel pos. induction pieces as [|p ps IH]; intros fuel pos Hne Hd Hf Hl; [done|].
  apply Forall_cons in Hf as [Hp Hps]. apply forallb_not_sep in Hp.
  destruct fuel as [|fuel]; [simpl in Hl; lia|]. simpl in Hl. simpl.
  destruct ps as [|q ps].
  - simpl in Hd. unfold find_from. rewrite Hd.
    by rewrite (proj2 (find_first_if_None _ p) Hp).
  - change (intercalate sep (p :: q :: ps)) with (p ++ sep :: intercalate sep (q :: ps)) in Hd.
    unfold find_from. rewrite Hd.
    rewrite find_first_if_app by (done || apply byte_eqb_refl). simpl. f_equal.
    + unfold substr. rewrite Hd. rewrite Nat.add_comm, Nat.add_sub. by rewrite take_app_length.
    + apply IH; [done| |done|simpl in *; lia].
      replace (pos + length p + 1)%nat with (pos + S (length p))%nat by lia.
      rewrite <-drop_drop, Hd. by rewrite drop_app_ge, Nat.sub_succ_l, Nat.sub_diag by lia.
Qed.

Lemma split_pieces_exist sep s :
  exists pieces, pieces <> [] /\ s = intercalate sep pieces
    /\ Forall (fun p => sep ∉ p) pieces /\ (length pieces <= S (length s))%nat.
Proof.
  induction s as [|c s (ps & Hne & -> & Hf & Hl)].
  - exists [[]]. repeat split; [done| |simpl; lia]. constructor; [set_solver|done].
  - destruct (decide (c = sep)) as [->|Hc].
    + exists ([] :: ps). repeat split; [done|by destruct ps| |simpl in *; lia].
      constructor; [set_solver|done].
    + destruct ps as [|p ps]; [done|]. exists ((c :: p) :: ps).
      repeat split; [done|by destruct ps| |simpl in *; lia].
      apply Forall_cons in Hf as [Hp Hps]. constructor; [|done].
      apply not_elem_of_cons. done.
Qed.

(** split cuts at every separator and nowhere else: its result is the only
    non-empty list of separator-free pieces that joins back to the input. *)
Theorem split_spec s sep pieces :
  split s sep = pieces <->
  pieces <> [] /\ s = intercalate sep pieces /\ Forall (fun p => sep ∉ p) pieces.
Proof.
  assert (U : forall ps, ps <> [] -> s = intercalate sep ps -> Forall (fun p => sep ∉ p) ps ->
              (length ps <= S (length s))%nat).
  { intros ps. clear. revert s. induction ps as [|p ps IH]; intros s Hne -> Hf; [done|].
    apply Forall_cons in Hf as [_ Hf].
    destruct ps as [|q ps]; [simpl; lia|].
    change (intercalate sep (p :: q :: ps)) with (p ++ sep :: intercalate sep (q :: ps)).
    specialize (IH _ ltac:(done) eq_refl Hf). rewrite length_app. simpl in *. lia. }
  split.
  - intros <-. destruct (split_pieces_exist sep s) as (ps & Hne & Hs & Hf & Hl).
    replace (split s sep) with ps; [done|]. symmetry.
    by apply split_loop_unique.
  - intros (Hne & Hs & Hf). apply split_loop_unique; [done..|]. by apply U.
Qed.

Lemma all_ws l : forallb (fun y => negb (negb (is_ws y))) l = true <-> Forall (fun c => is_ws c = true) l.
Proof.
  rewrite forallb_forall, Forall_forall. setoid_rewrite negb_involutive.
  by setoid_rewrite list_elem_of_In.
Qed.

(** trim removes whitespace at both ends and nothing else. *)
Theorem trim_spec s :
  exists w1 w2, s = w1 ++ trim s ++ w2
    /\ Forall (fun c => is_ws c = true) w1 /\ Forall (fun c => is_ws c = true) w2
    /\ (forall c, head (trim s) = Some c -> is_ws c = false)
    /\ (forall c, last (trim s) = Some c -> is_ws c = false).
Proof.
  unfold trim. destruct (find_last_if _ s) as [p|] eqn:E.
  2:{ apply find_last_if_None, all_ws in E. exists s, []. by rewrite app_nil_r. }
  apply find_last_if_split in E as (x & Hs & Hx & Hw). apply all_ws in Hw.
  assert (Ht : take (p + 1) s = take p s ++ [x]).
  { rewrite Hs at 1. assert (length (take p s) = p).
    { rewrite length_take. pose proof (f_equal length Hs) as L.
      rewrite length_app, length_take in L. simpl in L. rewrite length_drop in L. lia. }
    rewrite take_app_ge by lia. replace (p + 1 - length (take p s))%nat with 1%nat by lia. done. }
  rewrite Ht.
  destruct (find_first_if _ (take p s ++ [x])) as [q|] eqn:F.
  2:{ apply find_first_if_None in F. rewrite forallb_app in F. simpl in F.
      rewrite Hx in F. zbool. done. }
  pose proof (find_first_if_lt _ _ _ F) as Hq.
  apply find_first_if_split in F as (y & Hp & Hy & Hw').
  assert (Hd : drop q (take p s ++ [x]) = y :: drop (S q) (take p s ++ [x])).
  { rewrite Hp at 1. rewrite drop_app_ge by (rewrite length_take; lia).
    rewrite length_take, Nat.min_l by lia. by rewrite Nat.sub_diag. }
  exists (take q (take p s ++ [x])), (drop (S p) s).
  rewrite app_assoc, take_drop, <-app_assoc. split; [done|].
  split; [by apply all_ws|]. split; [done|]. split.
  - rewrite Hd. intros c [= <-]. by apply negb_true_iff.
  - intros c Hc. assert (Hl : last (take p s ++ [x]) = Some c).
    { rewrite <-(take_drop q (take p s ++ [x])). rewrite last_app, Hc. done. }
    rewrite last_snoc in Hl. injection Hl as <-. by apply negb_true_iff.
Qed.

(** ** base64 *)

Lemma b64_push x k :
  0 <= k <= 26 -> b64_char (Z.land (Z.shiftr (i32 x) k) 0x3f) = b64_char (x / 2 ^ k mod 64).
Proof.
  intros Hk. f_equal. change 0x3f with (Z.ones 6). rewrite Z.land_ones by lia.
  rewrite Z.shiftr_div_pow2 by lia. apply (i32_div_mod x k 6); lia.
Qed.

Lemma b64_acc v c : i32 (i32 (Z.shiftl (i32 v) 8) + c) = i32 (v * 256 + c).
Proof.
  rewrite Z.shiftl_mul_pow2 by lia. change (2 ^ 8) with 256.
  by rewrite i32_mul_l, i32_add_l.
Qed.

#[local] Arguments b64_char : simpl never.

Lemma b64_inner_2 val out :
  b64_inner 2 val (-6 + 8) out = (-4, out ++ [b64_char (Z.land (Z.shiftr val 2) 0x3f)]).
Proof. reflexivity. Qed.
Lemma b64_inner_4 val out :
  b64_inner 2 val (-4 + 8) out = (-2, out ++ [b64_char (Z.land (Z.shiftr val 4) 0x3f)]).
Proof. reflexivity. Qed.
Lemma b64_inner_6 val out :
  b64_inner 2 val (-2 + 8) out =
    (-6, (out ++ [b64_char (Z.land (Z.shiftr val 6) 0x3f)])
           ++ [b64_char (Z.land (Z.shiftr val 0) 0x3f)]).
Proof. reflexivity. Qed.

(** Compare two encoded texts character by character. *)
Ltac b64_arith :=
  cbn [app b64_groups];
  repeat match goal with
  | |- b64_char _ = b64_char _ => apply (f_equal b64_char); zdm
  | |- _ => progress f_equal
  end.

(** One, two and three bytes from a group boundary. *)
Lemma b64_loop_1 a s v out :
  b64_loop (a :: s) (i32 v) (-6) out =
  b64_loop s (i32 (v * 256 + Z_of_byte a)) (-4)
    (out ++ [b64_char (Z_of_byte a / 4)]).
Proof.
  pose proof (Z_of_byte_range a). cbn [b64_loop]. rewrite b64_acc, b64_inner_2.
  rewrite b64_push by lia. b64_arith.
Qed.

Lemma b64_loop_2 a b s v out :
  b64_loop (a :: b :: s) (i32 v) (-6) out =
  b64_loop s (i32 ((v * 256 + Z_of_byte a) * 256 + Z_of_byte b)) (-2)
    (out ++ [b64_char (Z_of_byte a / 4);
             b64_char ((Z_of_byte a * 256 + Z_of_byte b) / 2 ^ 4 mod 64)]).
Proof.
  pose proof (Z_of_byte_range a). pose proof (Z_of_byte_range b).
  rewrite b64_loop_1. cbn [b64_loop]. rewrite b64_acc, b64_inner_4.
  rewrite b64_push, <-app_assoc by lia. b64_arith.
Qed.

Lemma b64_loop_3 a b c s v out :
  b64_loop (a :: b :: c :: s) (i32 v) (-6) out =
  b64_loop s (i32 (((v * 256 + Z_of_byte a) * 256 + Z_of_byte b) * 256 + Z_of_byte c)) (-6)
    (out ++ b64_groups [a; b; c]).
Proof.
  pose proof (Z_of_byte_range a). pose proof (Z_of_byte_range b). pose proof (Z_of_byte_range c).
  rewrite b64_loop_2. cbn [b64_loop]. rewrite b64_acc, b64_inner_6.
  rewrite !b64_push, <-!app_assoc by lia. b64_arith.
Qed.

Lemma b64_pad_spec m k l :
  (k <= m <= 3)%nat -> ((length l + k) mod 4 = 0)%nat -> b64_pad m l = l ++ repeat x3d k.
Proof.
  revert k l. induction m as [|m IH]; intros k l Hk Hl; cbn [b64_pad].
  - destruct k; [by rewrite app_nil_r|lia].
  - destruct (Nat.eqb_spec (length l mod 4) 0) as [E|E].
    + destruct k; [by rewrite app_nil_r|]. exfalso. lia.
    + destruct k as [|k]; [rewrite Nat.add_0_r in Hl; lia|].
      rewrite (IH k); [by rewrite <-app_assoc|lia|].
      rewrite length_app. cbn [length]. lia.
Qed.

(** What base64_encode does with the state its main loop leaves. *)
Definition b64_finish (st : Z * Z * cstring) : cstring :=
  let '(val, valb, retval) := st in
  b64_pad 3
    (if -6 <? valb
     then retval ++ [b64_char (Z.land (Z.shiftr (i32 (Z.shiftl val 8)) (valb + 8)) 0x3f)]
     else retval).

Lemma b64_finish_leftover v r out k n :
  (n <= 2)%nat -> 0 <= k <= 26 -> -6 < k - 8 -> ((length out + 1 + n) mod 4 = 0)%nat ->
  b64_char (v * 256 / 2 ^ k mod 64) = b64_char r ->
  b64_finish (i32 v, k - 8, out) = out ++ b64_char r :: repeat x3d n.
Proof.
  intros Hn Hk Hv Hl Hr. unfold b64_finish. rewrite (proj2 (Z.ltb_lt _ _) Hv).
  rewrite Z.shiftl_mul_pow2, i32_mul_l, Z.sub_add, b64_push by lia.
  change (2 ^ 8) with 256. rewrite Hr.
  rewrite (b64_pad_spec _ n); [by rewrite <-app_assoc|lia|].
  rewrite length_app. cbn [length]. done.
Qed.

Lemma b64_finish_boundary v out :
  (length out mod 4 = 0)%nat -> b64_finish (v, -6, out) = out.
Proof.
  intros Ho. change (b64_pad 3 out = out). rewrite (b64_pad_spec 3 0) by lia.
  apply app_nil_r.
Qed.

Lemma base64_from_boundary n s v out :
  (length s <= n)%nat -> (length out mod 4 = 0)%nat ->
  b64_finish (b64_loop s (i32 v) (-6) out) = out ++ b64_groups s.
Proof.
  revert s v out. induction n as [|n IH]; intros s v out Hn Ho.
  all: destruct s as [|a [|b [|c s]]]; cbn [length] in Hn; try lia.
  all: try (cbn [b64_loop b64_groups]; rewrite app_nil_r; by apply b64_finish_boundary).
  - pose proof (Z_of_byte_range a). rewrite b64_loop_1. cbn [b64_loop].
    rewrite (b64_finish_leftover _ (Z_of_byte a mod 4 * 16) _ 4 2);
      [rewrite <-app_assoc; done|lia..|rewrite length_app; cbn [length]; lia|b64_arith].
  - pose proof (Z_of_byte_range a). pose proof (Z_of_byte_range b).
    rewrite b64_loop_2. cbn [b64_loop].
    rewrite (b64_finish_leftover _ ((Z_of_byte a * 256 + Z_of_byte b) mod 16 * 4) _ 6 1);
      [rewrite <-app_assoc; cbn [repeat]; b64_arith|lia..|rewrite length_app; cbn [length]; lia|b64_arith].
  - rewrite b64_loop_3, IH; [by rewrite <-app_assoc|lia|].
    rewrite length_app. cbn [length b64_groups app]. lia.
Qed.

(** base64_encode is the RFC 4648 encoding. *)
Theorem base64_encode_rfc4648 s : base64_encode s = b64_groups s.
Proof.
  transitivity (b64_finish (b64_loop s (i32 0) (-6) [])).
  - unfold base64_encode, b64_finish. change (i32 0) with 0.
    by destruct (b64_loop s 0 (-6) []) as [[val valb] retval].
  - by apply (base64_from_boundary (length s)).
Qed.

(** ** UTF-8 *)

(** Masking a word byte by byte. *)
Lemma land_byte_cat x b m n :
  0 <= n < 256 ->
  Z.land (Z.lor (Z.shiftl x 8) (Z_of_byte b)) (m * 256 + n)
  = Z.land x m * 256 + Z.land (Z_of_byte b) n.
Proof.
  intros Hn. pose proof (Z_of_byte_range b).
  rewrite lor_shiftl_add by lia. apply (land_cat _ _ _ _ 8); lia.
Qed.

Lemma land_byte_range b n : 0 <= n < 256 -> 0 <= Z.land (Z_of_byte b) n < 256.
Proof.
  intros Hn. pose proof (Z_of_byte_range b).
  replace (Z.land (Z_of_byte b) n) with (Z.land (Z.land (Z_of_byte b) n) (Z.ones 8)).
  - rewrite Z.land_ones by lia. apply Z.mod_pos_bound. lia.
  - rewrite <-Z.land_assoc. f_equal. rewrite Z.land_ones by lia. apply Z.mod_small. lia.
Qed.

Lemma mask_cat x b m n p q :
  0 <= n < 256 -> 0 <= q < 256 ->
  (Z.land (Z.lor (Z.shiftl x 8) (Z_of_byte b)) (m * 256 + n) =? p * 256 + q)
  = (Z.land x m =? p) && (Z.land (Z_of_byte b) n =? q).
Proof.
  intros Hn Hq. rewrite land_byte_cat by done. pose proof (land_byte_range b n Hn).
  destruct (Z.eqb_spec (Z.land x m) p), (Z.eqb_spec (Z.land (Z_of_byte b) n) q); simpl; lia.
Qed.

Definition cont (b : byte) : bool := in_range b 0x80 0xbf.

(** The tests of the scanning loop on one lead byte, and on a lead byte with
    the byte that follows it. *)
Lemma lead_masks b :
  (Z.land (Z_of_byte b) 0xc0 =? 0x80) = cont b
  /\ (Z.land (Z_of_byte b) 0x80 =? 0) = in_range b 0 0x7f
  /\ (Z.land (Z_of_byte b) 0xe0 =? 0xc0) = in_range b 0xc0 0xdf
  /\ (Z.land (Z_of_byte b) 0xf0 =? 0xe0) = in_range b 0xe0 0xef
  /\ (Z.land (Z_of_byte b) 0xf8 =? 0xf0) = in_range b 0xf0 0xf7
  /\ (Z.land (Z_of_byte b) 0x1e =? 0) && in_range b 0xc0 0xdf = in_range b 0xc0 0xc1
  /\ Z.land (Z_of_byte b) 0 = 0.
Proof.
  assert (H : forallb (fun b => bool_decide
    ((Z.land (Z_of_byte b) 0xc0 =? 0x80) = cont b
     /\ (Z.land (Z_of_byte b) 0x80 =? 0) = in_range b 0 0x7f
     /\ (Z.land (Z_of_byte b) 0xe0 =? 0xc0) = in_range b 0xc0 0xdf
     /\ (Z.land (Z_of_byte b) 0xf0 =? 0xe0) = in_range b 0xe0 0xef
     /\ (Z.land (Z_of_byte b) 0xf8 =? 0xf0) = in_range b 0xf0 0xf7
     /\ (Z.land (Z_of_byte b) 0x1e =? 0) && in_range b 0xc0 0xdf = in_range b 0xc0 0xc1
     /\ Z.land (Z_of_byte b) 0 = 0)) all_bytes = true) by (vm_compute; reflexivity).
  pose proof (forall_bytes _ H b) as Hb. by apply bool_decide_eq_true in Hb.
Qed.

Definition stop3 (a b : byte) : bool :=
  (in_range a 0xe0 0xe0 && in_range b 0x80 0x9f) || (in_range a 0xed 0xed && in_range b 0xa0 0xbf).
Definition stop4 (a b : byte) : bool :=
  (in_range a 0xf0 0xf0 && in_range b 0x80 0x8f) || (in_range a 0xf4 0xf4 && in_range b 0x90 0xbf)
  || in_range a 0xf5 0xf7.

Lemma pair_masks a b :
  cont b = true ->
  (in_range a 0xe0 0xef = true ->
     (((Z.land (Z_of_byte a) 0xf =? 0) && (Z.land (Z_of_byte b) 0x20 =? 0))
      || ((Z.land (Z_of_byte a) 0xf =? 0xd) && (Z.land (Z_of_byte b) 0x20 =? 0x20))) = stop3 a b)
  /\ (in_range a 0xf0 0xf7 = true ->
     (((Z.land (Z_of_byte a) 0x7 =? 0) && (Z.land (Z_of_byte b) 0x30 =? 0))
      || (4 * 256 <? Z.land (Z_of_byte a) 0x7 * 256 + Z.land (Z_of_byte b) 0x30)) = stop4 a b).
Proof.
  assert (H : forallb (fun a => forallb (fun b =>
    if negb (cont b) then true else
    (if negb (in_range a 0xe0 0xef) then true else
      Bool.eqb (((Z.land (Z_of_byte a) 0xf =? 0) && (Z.land (Z_of_byte b) 0x20 =? 0))
      || ((Z.land (Z_of_byte a) 0xf =? 0xd) && (Z.land (Z_of_byte b) 0x20 =? 0x20))) (stop3 a b))
    && (if negb (in_range a 0xf0 0xf7) then true else
      Bool.eqb (((Z.land (Z_of_byte a) 0x7 =? 0) && (Z.land (Z_of_byte b) 0x30 =? 0))
      || (4 * 256 <? Z.land (Z_of_byte a) 0x7 * 256 + Z.land (Z_of_byte b) 0x30)) (stop4 a b)))
    all_bytes) all_bytes = true) by (vm_compute; reflexivity).
  intros Hb. pose proof (forall_bytes2 _ H a b) as Hab. cbv beta in Hab.
  rewrite Hb in Hab. cbn [negb] in Hab. apply andb_true_iff in Hab as [H3 H4].
  split; intros Ha; rewrite Ha in *; cbn [negb] in *; by apply eqb_prop.
Qed.

(** The loop tests in terms of byte ranges. *)
Section ScanTests.
Context (a b c d : byte).
Let v1 := Z_of_byte a.
Let v2 := Z.lor (Z.shiftl v1 8) (Z_of_byte b).
Let v3 := Z.lor (Z.shiftl v2 8) (Z_of_byte c).
Let v4 := Z.lor (Z.shiftl v3 8) (Z_of_byte d).

Lemma scan_test2 : (Z.land v2 0xe0c0 =? 0xc080) = in_range a 0xc0 0xdf && cont b.
Proof.
  unfold v2, v1. rewrite (mask_cat _ b 0xe0 0xc0 0xc0 0x80) by lia.
  by rewrite (proj1 (lead_masks b)), (proj1 (proj2 (proj2 (lead_masks a)))).
Qed.

Lemma scan_stop2 :
  in_range a 0xc0 0xdf = true -> (Z.land v2 0x1e00 =? 0) = in_range a 0xc0 0xc1.
Proof.
  intros Ha. unfold v2, v1. rewrite (mask_cat _ b 0x1e 0 0 0) by lia.
  destruct (lead_masks a) as (_ & _ & _ & _ & _ & H & _). rewrite Ha, andb_true_r in H.
  destruct (lead_masks b) as (_ & _ & _ & _ & _ & _ & ->). rewrite H. apply andb_true_r.
Qed.

Lemma scan_test3 : (Z.land v3 0xf0c0c0 =? 0xe08080) = in_range a 0xe0 0xef && cont b && cont c.
Proof.
  unfold v3, v2, v1.
  rewrite (mask_cat _ c 0xf0c0 0xc0 0xe080 0x80), (mask_cat _ b 0xf0 0xc0 0xe0 0x80) by lia.
  rewrite (proj1 (lead_masks b)), (proj1 (lead_masks c)).
  by rewrite (proj1 (proj2 (proj2 (proj2 (lead_masks a))))).
Qed.

Lemma scan_stop3 :
  in_range a 0xe0 0xef = true -> cont b = true ->
  (Z.land v3 0xf2000 =? 0) || (Z.land v3 0xf2000 =? 0xd2000) = stop3 a b.
Proof.
  intros Ha Hb. unfold v3, v2, v1.
  rewrite (mask_cat _ c 0xf20 0 0 0), (mask_cat _ c 0xf20 0 0xd20 0) by lia.
  rewrite (mask_cat _ b 0xf 0x20 0 0), (mask_cat _ b 0xf 0x20 0xd 0x20) by lia.
  destruct (lead_masks c) as (_ & _ & _ & _ & _ & _ & ->). rewrite !andb_true_r.
  by apply pair_masks.
Qed.

Lemma scan_test4 :
  (Z.land v4 0xf8c0c0c0 =? 0xf0808080) = in_range a 0xf0 0xf7 && cont b && cont c && cont d.
Proof.
  unfold v4, v3, v2, v1.
  rewrite (mask_cat _ d 0xf8c0c0 0xc0 0xf08080 0x80), (mask_cat _ c 0xf8c0 0xc0 0xf080 0x80),
    (mask_cat _ b 0xf8 0xc0 0xf0 0x80) by lia.
  rewrite (proj1 (lead_masks b)), (proj1 (lead_masks c)), (proj1 (lead_masks d)).
  by rewrite (proj1 (proj2 (proj2 (proj2 (proj2 (lead_masks a)))))).
Qed.

Lemma scan_stop4 :
  in_range a 0xf0 0xf7 = true -> cont b = true ->
  (Z.land v4 0x7300000 =? 0) || (0x4000000 <? Z.land v4 0x7300000) = stop4 a b.
Proof.
  intros Ha Hb. rewrite <-(proj2 (pair_masks a b Hb) Ha). unfold v4, v3, v2, v1.
  f_equal.
  - rewrite (mask_cat _ d 0x73000 0 0 0), (mask_cat _ c 0x730 0 0 0),
      (mask_cat _ b 0x7 0x30 0 0) by lia.
    destruct (lead_masks c) as (_ & _ & _ & _ & _ & _ & ->).
    destruct (lead_masks d) as (_ & _ & _ & _ & _ & _ & ->). by rewrite !andb_true_r.
  - change 0x7300000 with ((0x730 * 256 + 0) * 256 + 0).
    rewrite !land_byte_cat by lia. change 0x730 with (0x7 * 256 + 0x30).
      rewrite land_byte_cat by lia.
      destruct (lead_masks c) as (_ & _ & _ & _ & _ & _ & ->).
      destruct (lead_masks d) as (_ & _ & _ & _ & _ & _ & ->).
      set (x := _ * 256 + _). apply eq_true_iff_eq. rewrite !Z.ltb_lt. lia.
  Qed.
End ScanTests.

(** One turn of the scanning loop, in terms of byte ranges. *)
Lemma utf8_scan_step fuel a l :
  let b := nth 0 l x00 in let c := nth 1 l x00 in let d := nth 2 l x00 in
  utf8_scan (S fuel) (a :: l) =
    if in_range a 0 0x7f then utf8_scan fuel l
    else if in_range a 0xc0 0xdf && cont b then
      if in_range a 0xc0 0xc1 then a :: l else utf8_scan fuel (drop 1 l)
    else if in_range a 0xe0 0xef && cont b && cont c then
      if stop3 a b then a :: l else utf8_scan fuel (drop 2 l)
    else if in_range a 0xf0 0xf7 && cont b && cont c && cont d then
      if stop4 a b then a :: l else utf8_scan fuel (drop 3 l)
    else a :: l.
Proof.
  intros b c d. unfold utf8_scan; fold utf8_scan.
  change (char_at (a :: l) 0) with (Z_of_byte a). change (char_at (a :: l) 1) with (Z_of_byte b).
  change (char_at (a :: l) 2) with (Z_of_byte c). change (char_at (a :: l) 3) with (Z_of_byte d).
  rewrite (proj1 (proj2 (lead_masks a))).
  destruct (in_range a 0 0x7f); [done|].
  cbv zeta. rewrite scan_test2, scan_test3, scan_test4.
  destruct (in_range a 0xc0 0xdf) eqn:E2, (cont b) eqn:Eb; cbn [andb];
    rewrite ?scan_stop2 by done; try done.
  all: destruct (in_range a 0xe0 0xef) eqn:E3; cbn [andb]; rewrite ?scan_stop3 by done; try done.
  all: destruct (in_range a 0xf0 0xf7) eqn:E4; cbn [andb]; rewrite ?scan_stop4 by done; try done.
Qed.

Lemma cont_nth l i : cont (nth i l x00) = true -> (i < length l)%nat.
Proof.
  intros H. destruct (decide (i < length l)%nat); [done|].
  rewrite nth_overflow in H by lia. done.
Qed.

(** Byte ranges that exclude or complete one another. *)
Ltac ranges := unfold in_range, cont, stop3, stop4, in_range in *; lia.

(** What the loop steps over is a sequence of well-formed characters. *)
Lemma utf8_scan_sound fuel l :
  exists chars, Forall (fun c => utf8_char c = true) chars
                /\ l = concat chars ++ utf8_scan fuel l.
Proof.
  revert l. induction fuel as [|fuel IH]; intros l; [by exists []|].
  destruct l as [|a l]; [by exists []|].
  assert (step : forall k, utf8_char (a :: take k l) = true ->
    exists chars, Forall (fun c => utf8_char c = true) chars
      /\ a :: l = concat chars ++ utf8_scan fuel (drop k l)).
  { intros k Hk. destruct (IH (drop k l)) as (chars & Hf & Hl).
    exists ((a :: take k l) :: chars). split; [by constructor|].
    cbn [concat]. rewrite <-app_assoc, <-Hl. cbn [app]. by rewrite take_drop. }
  rewrite utf8_scan_step. cbv zeta.
  destruct (in_range a 0 0x7f) eqn:E1; [apply (step 0%nat E1)|].
  destruct (in_range a 0xc0 0xdf && cont _) eqn:E2.
  { destruct (in_range a 0xc0 0xc1) eqn:S2; [by exists []|]. apply (step 1%nat).
    destruct l as [|b l]; [zbool; done|]. cbn [firstn nth] in *. rewrite take_0. cbn [utf8_char]. ranges. }
  destruct (in_range a 0xe0 0xef && cont _ && cont _) eqn:E3.
  { destruct (stop3 a _) eqn:S3; [by exists []|]. apply (step 2%nat).
    destruct l as [|b [|c l]]; [zbool; done..|]. cbn [firstn nth] in *. rewrite take_0. cbn [utf8_char]. ranges. }
  destruct (in_range a 0xf0 0xf7 && cont _ && cont _ && cont _) eqn:E4; [|by exists []].
  destruct (stop4 a _) eqn:S4; [by exists []|]. apply (step 3%nat).
  destruct l as [|b [|c [|d l]]]; [zbool; done..|]. cbn [firstn nth] in *. rewrite take_0. cbn [utf8_char]. ranges.
Qed.

(** The loop steps over every well-formed character. *)
Lemma utf8_scan_char fuel c rest :
  utf8_char c = true -> utf8_scan (S fuel) (c ++ rest) = utf8_scan fuel rest.
Proof.
  intros Hc. destruct c as [|a [|b [|d [|e [|f c]]]]]; try done; cbn [utf8_char] in Hc;
    cbn [app]; rewrite utf8_scan_step; cbn [nth drop].
  - by rewrite Hc.
  - assert (in_range a 0 0x7f = false) as -> by ranges.
    assert (in_range a 0xc0 0xdf && cont b = true) as -> by ranges.
    by assert (in_range a 0xc0 0xc1 = false) as -> by ranges.
  - assert (in_range a 0 0x7f = false) as -> by ranges.
    assert (in_range a 0xc0 0xdf = false) as -> by ranges. cbn [andb].
    assert (in_range a 0xe0 0xef && cont b && cont d = true) as -> by ranges.
    by assert (stop3 a b = false) as -> by ranges.
  - assert (in_range a 0 0x7f = false) as -> by ranges.
    assert (in_range a 0xc0 0xdf = false) as -> by ranges.
    assert (in_range a 0xe0 0xef = false) as -> by ranges. cbn [andb].
    assert (in_range a 0xf0 0xf7 && cont b && cont d && cont e = true) as -> by ranges.
    by assert (stop4 a b = false) as -> by ranges.
Qed.

Lemma utf8_scan_complete chars fuel :
  Forall (fun c => utf8_char c = true) chars -> (length chars < fuel)%nat ->
  utf8_scan fuel (concat chars) = [].
Proof.
  intros Hf. revert fuel. induction Hf as [|c chars Hc Hf IH]; intros fuel Hl.
  - by destruct fuel.
  - destruct fuel as [|fuel]; [lia|]. cbn [concat]. rewrite utf8_scan_char by done.
    apply IH. cbn [length] in Hl. lia.
Qed.

Lemma length_concat_chars chars :
  Forall (fun c => utf8_char c = true) chars -> (length chars <= length (concat chars))%nat.
Proof.
  induction 1 as [|c chars Hc Hf IH]; [done|]. cbn [concat length].
  rewrite length_app. destruct c; [done|]. cbn [length]. lia.
Qed.

Lemma utf8_scan_wf l : utf8_scan (S (length l)) l = [] <-> utf8_wf l.
Proof.
  split.
  - intros E. destruct (utf8_scan_sound (S (length l)) l) as (chars & Hf & Hl).
    rewrite E, app_nil_r in Hl. by exists chars.
  - intros (chars & Hf & ->). apply utf8_scan_complete; [done|].
    pose proof (length_concat_chars chars Hf). lia.
Qed.

Lemma utf8_wf_app l1 l2 : utf8_wf l1 -> utf8_wf l2 -> utf8_wf (l1 ++ l2).
Proof.
  intros (c1 & H1 & ->) (c2 & H2 & ->). exists (c1 ++ c2).
  split; [by apply Forall_app|by rewrite concat_app].
Qed.

Lemma utf8_wf_char c : utf8_char c = true -> utf8_wf c.
Proof. intros. exists [c]. split; [by constructor|]. cbn. by rewrite app_nil_r. Qed.

Lemma utf8_wf_concat (f : byte -> cstring) l :
  (forall b, utf8_wf (f b)) -> utf8_wf (concat (f <$> l)).
Proof.
  intros Hf. induction l as [|b l IH]; [by exists []|]. cbn. by apply utf8_wf_app.
Qed.

(** Every replacement text of the two conversion switches is one character. *)
Lemma conversions_wf b :
  utf8_char (iso8859_char b) = true /\ utf8_char (cp1252_char b) = true.
Proof.
  assert (H : forallb (fun b => utf8_char (iso8859_char b) && utf8_char (cp1252_char b))
                      all_bytes = true) by (vm_compute; reflexivity).
  pose proof (forall_bytes _ H b) as Hb. by apply andb_true_iff in Hb.
Qed.

Lemma scan_prefix_wf l :
  utf8_wf (take (length l - length (utf8_scan (S (length l)) l)) l).
Proof.
  destruct (utf8_scan_sound (S (length l)) l) as (chars & Hf & Hl).
  set (it := utf8_scan (S (length l)) l) in *. exists chars. split; [done|].
  rewrite Hl at 2. rewrite (f_equal length Hl), length_app, Nat.add_sub.
  apply take_app_length.
Qed.

(** check_string_utf8 returns well-formed UTF-8 whatever it is given, and
    changes nothing in a string that already is. *)
Theorem check_string_utf8_spec s :
  utf8_wf (check_string_utf8 s) /\ (utf8_wf s -> check_string_utf8 s = s).
Proof.
  unfold check_string_utf8. rewrite <-(utf8_scan_wf s).
  pose proof (scan_prefix_wf s) as Hp.
  destruct (utf8_scan (S (length s)) s) as [|b it] eqn:E.
  - split; [by apply utf8_scan_wf|done].
  - split; [|done]. destruct (detect_encoding _ _ _);
      (apply utf8_wf_app; [done|apply utf8_wf_concat; intros; apply utf8_wf_char, conversions_wf]).
Qed.

Lemma check_string_utf8_spec_witness :
  utf8_wf (str "é") /\ check_string_utf8 (str "é") = str "é".
Proof.
  assert (H : utf8_wf (str "é")) by (exists [str "é"]; split; [constructor; [reflexivity|constructor]|reflexivity]).
  split; [exact H|]. exact (proj2 (check_string_utf8_spec (str "é")) H).
Defined.

(** 0x9b is a quotation mark of CP-1252 and undefined in ISO-8859-15, but the
    test that rules CP-1252 out lists 155 where the table leaves 157 undefined:
    the character is lost. *)
Theorem cp1252_single_quote_lost :
  cp1252_char x9b = str "›" /\ check_string_utf8 [x9b] = str "_"
  /\ cp1252_char x9d = str "_" /\ detect_encoding [x9d] true true = Cp1252.
Proof. repeat split. Qed.

(** ** escape *)

(** The fully escaped text. *)
Definition esc_char (c : byte) : cstring := if needs_escape c then [backslash; c] else [c].
Definition esc (l : cstring) : cstring := concat (esc_char <$> l).

Lemma esc_app l1 l2 : esc (l1 ++ l2) = esc l1 ++ esc l2.
Proof. unfold esc. by rewrite fmap_app, concat_app. Qed.

Lemma esc_plain l : forallb (fun c => negb (needs_escape c)) l = true -> esc l = l.
Proof.
  induction l as [|c l IH]; [done|]. cbn. intros H. zbool. unfold esc_char.
  rewrite H. cbn. f_equal. by apply IH.
Qed.

Lemma esc_cons_special c l : needs_escape c = true -> esc (c :: l) = backslash :: c :: esc l.
Proof. intros H. unfold esc. cbn. unfold esc_char at 1. by rewrite H. Qed.

Lemma length_esc l : (length l <= length (esc l))%nat.
Proof.
  induction l as [|c l IH]; [done|]. change (esc (c :: l)) with (esc_char c ++ esc l).
  rewrite length_app. unfold esc_char. destruct (needs_escape c); cbn; lia.
Qed.

Lemma escape_loop_full fuel l s found ret :
  (length l <= s)%nat -> (length l <= S found + fuel)%nat ->
  escape_loop (S fuel) l s found ret = ret ++ esc (drop (S found) l).
Proof.
  revert found ret. induction fuel as [|fuel IH]; intros found ret Hs Hf.
  { cbn [escape_loop]. unfold find_from. rewrite drop_ge by lia. done. }
  remember (S fuel) as n. cbn [escape_loop]. subst n. unfold find_from.
  destruct (find_first_if needs_escape (drop (S found) l)) as [i|] eqn:E; cbn [fmap option_fmap option_map].
  - pose proof (find_first_if_lt _ _ _ E) as Hi. rewrite length_drop in Hi.
    apply find_first_if_split in E as (x & Hd & Hx & Hp).
    assert (Hn : nth (S found + i) l x00 = x).
    { apply nth_lookup_Some. rewrite <-lookup_drop, Hd.
      rewrite lookup_app_r by (rewrite length_take; lia).
      rewrite length_take, length_drop, Nat.min_l, Nat.sub_diag by lia. done. }
    rewrite (proj2 (Nat.ltb_lt _ _)) by lia. rewrite IH by lia.
    rewrite Hn, <-!app_assoc. f_equal. unfold substr.
    replace (S found + i - S found)%nat with i by lia.
    rewrite Hd at 2. rewrite esc_app, (esc_plain (take i _)) by done.
    rewrite esc_cons_special, drop_drop by done.
    by replace (S found + S i)%nat with (S (S found + i)) by lia.
  - f_equal. symmetry. apply esc_plain. by apply find_first_if_None.
Qed.

Lemma unescape_esc l : unescape (esc l) = Some l.
Proof.
  induction l as [|c l IH]; [done|]. change (esc (c :: l)) with (esc_char c ++ esc l).
  unfold esc_char. destruct (needs_escape c) eqn:E; cbn [app unescape].
  - rewrite byte_eqb_refl. by rewrite IH.
  - unfold needs_escape in E. zbool.
    destruct (byte_eqb c backslash); [done|]. destruct (byte_eqb c quote); [done|].
    by rewrite IH.
Qed.

(** A complete escaped text never ends with a lone backslash. *)
Lemma drop_dangling_esc l : drop_dangling (esc l) = esc l.
Proof.
  unfold drop_dangling. destruct (_ && _ && _) eqn:E; [|done]. exfalso. zbool.
  destruct l as [|c l _] using rev_ind; [done|].
  rewrite esc_app in *. cbn in *. rewrite app_nil_r in *. unfold esc_char in *.
  destruct (needs_escape c) eqn:Ec; rewrite length_app in *; cbn [length] in *.
  - replace (length (esc l) + 2 - 2)%nat with (length (esc l)) in * by lia.
    rewrite nth_middle in *. by rewrite byte_eqb_refl in *.
  - replace (length (esc l) + 1 - 1)%nat with (length (esc l)) in * by lia.
    rewrite nth_middle in *. unfold needs_escape in Ec. zbool. congruence.
Qed.

(** Given enough room, escape protects every quote and backslash, and the
    database reads back the original text. *)
Theorem escape_roundtrip l s :
  (length (esc l) <= s)%nat -> escape l s = Some (esc l) /\ unescape (esc l) = Some l.
Proof.
  intros Hs. split; [|apply unescape_esc]. unfold escape.
  pose proof (length_esc l) as Hl.
  assert (Ha : forall r, (length r <= s)%nat -> adjust_size_utf8 r s = Some (length r)).
  { intros r Hr. unfold adjust_size_utf8. by rewrite (proj2 (Nat.leb_le _ _) Hr). }
  destruct (find_first_if needs_escape l) as [i|] eqn:E.
  - pose proof (find_first_if_lt _ _ _ E) as Hi.
    apply find_first_if_split in E as (x & Hd & Hx & Hp).
    assert (Hn : nth i l x00 = x).
    { rewrite Hd. rewrite <-(length_take_le l i) at 1 by lia. apply nth_middle. }
    destruct (length l) as [|n] eqn:El; [lia|].
    rewrite escape_loop_full by lia. rewrite Hn.
    assert (Hr : (take i l ++ [backslash; x]) ++ esc (drop (S i) l) = esc l).
    { transitivity (esc (take i l ++ x :: drop (S i) l)); [|by rewrite <-Hd].
      rewrite esc_app, (esc_plain (take i l)), esc_cons_special by done. by rewrite <-app_assoc. }
    rewrite Hr, Ha by done. cbn [mbind option_bind].
    rewrite take_ge by lia. by rewrite drop_dangling_esc.
  - apply find_first_if_None in E. rewrite Ha by lia. cbn [mbind option_bind].
    rewrite take_ge by lia. by rewrite esc_plain.
Qed.

Lemma escape_roundtrip_witness :
  escape (str "it's a \ path") 100 = Some (esc (str "it's a \ path"))
  /\ unescape (esc (str "it's a \ path")) = Some (str "it's a \ path").
Proof. apply (escape_roundtrip (str "it's a \ path") 100). apply Nat.leb_le. reflexivity. Defined.

(** When it has to cut, the repair of a dangling backslash looks at the
    previous character only: an escaped backslash followed by half of another
    escape keeps its dangling backslash, which protects the closing quote. *)
Theorem escape_cut_can_dangle :
  exists l s r, escape l s = Some r /\ (length r = s)%nat /\ unescape r = None.
Proof.
  exists [backslash; quote], 3%nat, [backslash; backslash; backslash]. repeat split.
Qed.

Lemma back_to_lead_le l s n : back_to_lead l s = Some n -> (n <= s)%nat.
Proof.
  induction s as [|s IH]; cbn [back_to_lead]; intros H; case_if; simplify_eq; try lia.
Qed.

Lemma back_to_lead_spec l s n :
  back_to_lead l s = Some n -> cont (nth n l x00) = false.
Proof.
  assert (L : forall k, (Z.land (char_at l k) 0xc0 =? 0x80) = cont (nth k l x00))
    by (intros; apply lead_masks).
  induction s as [|s IH]; cbn [back_to_lead]; rewrite L; intros H; case_if; simplify_eq; auto.
Qed.

Lemma back_to_lead_total l s : cont (nth 0 l x00) = false -> is_Some (back_to_lead l s).
Proof.
  intros H0. assert (L : forall k, (Z.land (char_at l k) 0xc0 =? 0x80) = cont (nth k l x00))
    by (intros; apply lead_masks).
  induction s as [|s IH]; cbn [back_to_lead]; rewrite L; [by rewrite H0|].
  destruct (cont (nth (S s) l x00)); [exact IH|by eexists].
Qed.

(** adjust_size_utf8 on well-formed text: it never reads out of bounds, never
    exceeds the wanted size, and cuts only in front of a lead byte. *)
Theorem adjust_size_utf8_spec l s :
  utf8_wf l ->
  exists n, adjust_size_utf8 l s = Some n /\ (n <= s)%nat /\ (n <= length l)%nat
    /\ (n = length l \/ n = 0%nat \/ cont (nth n l x00) = false).
Proof.
  intros Hwf. unfold adjust_size_utf8.
  destruct (Nat.leb_spec (length l) s) as [H|H]; [exists (length l); auto|].
  destruct (Nat.eqb_spec s 0) as [->|Hs]; [exists 0%nat; repeat split; auto; lia|].
  assert (H0 : cont (nth 0 l x00) = false).
  { destruct Hwf as (chars & Hf & ->). destruct Hf as [|c chars Hc _]; [done|].
    destruct c as [|a c]; [done|]. cbn. destruct c as [|? [|? [|? [|]]]]; cbn [utf8_char] in Hc;
      try done; ranges. }
  destruct (back_to_lead_total l s H0) as [n Hn]. exists n.
  pose proof (back_to_lead_le _ _ _ Hn). pose proof (back_to_lead_spec _ _ _ Hn).
  split; [done|]; split; [lia|]; split; [lia|]; auto.
Qed.

Lemma adjust_size_utf8_spec_witness :
  exists n, adjust_size_utf8 (str "aé") 2 = Some n /\ (n <= 2)%nat
    /\ (n <= length (str "aé"))%nat
    /\ (n = length (str "aé") \/ n = 0%nat \/ cont (nth n (str "aé") x00) = false).
Proof.
  apply (adjust_size_utf8_spec (str "aé") 2). exists [str "a"; str "é"].
  split; [repeat constructor|reflexivity].
Defined.

End Str.
