(* ===== verification/Double.v ===== *)
(** * The double type and its text form

    IEEE 754 binary64 (the double of every supported platform) through the
    Standard Library's executable SpecFloat, with the two C library functions
    the modelled code relies on: printf's %f conversion and strtod. A group of
    lemmas shows that the integers below 2^53 are represented exactly and that
    adding, subtracting and comparing them is exact, which is what the impact
    arithmetic of the BAM module relies on. *)

From Stdlib Require Import ZArith Lia ZifyNat ZifyBool Strings.Byte Floats.SpecFloat.
From stdpp Require Import base option list numbers strings.
From S2P Require Import Prelude.

Abbreviation double := spec_float.

#[global] Instance double_eq_dec : EqDecision double.
Proof. solve_decision. Defined.

Module Dbl.

Definition add : double -> double -> double := SFadd 53 1024.
Definition sub : double -> double -> double := SFsub 53 1024.
Definition mul : double -> double -> double := SFmul 53 1024.
Definition div : double -> double -> double := SFdiv 53 1024.
Definition ltb : double -> double -> bool := SFltb.
Definition leb : double -> double -> bool := SFleb.
Definition eqb : double -> double -> bool := SFeqb.

(** Conversion of an integer. *)
Definition of_Z (z : Z) : double := binary_normalize 53 1024 z 0 false.

(** The double nearest to num / den, ties to even. *)
Definition of_ratio (s : bool) (num den : Z) : double :=
  if num =? 0 then S754_zero s
  else let '(q, e, l) := SFdiv_core_binary 53 1024 num 0 den 0 in
       binary_round_aux 53 1024 s q e l.

(** ** Decimal text *)

Definition digit (n : Z) : byte := byte_of_Z (48 + n).

Fixpoint dec_loop (fuel : nat) (n : Z) (acc : cstring) : cstring :=
  match fuel with
  | O => acc
  | S fuel' =>
    let acc' := digit (n mod 10) :: acc in
    if n / 10 =? 0 then acc' else dec_loop fuel' (n / 10) acc'
  end.

(** The decimal digits of a natural number. *)
Definition dec (n : Z) : cstring := dec_loop (S (Z.to_nat (Z.log2 n))) n [].

(** The [k] low decimal digits of a number, zero padded. *)
Fixpoint dec_pad (k : nat) (n : Z) : cstring :=
  match k with
  | O => []
  | S k' => dec_pad k' (n / 10) ++ [digit (n mod 10)]
  end.

Definition dec_val (l : cstring) : Z :=
  fold_left (fun a b => a * 10 + (Z_of_byte b - 48)) l 0.

(** num / den rounded to an integer, ties to even. *)
Definition div_round_even (num den : Z) : Z :=
  let q := num / den in
  let r := num mod den in
  match 2 * r ?= den with
  | Lt => q
  | Eq => if Z.even q then q else q + 1
  | Gt => q + 1
  end.

Definition sign_text (s : bool) : cstring := if s then str "-" else [].

(** printf("%f"). *)
Definition print_f (x : double) : cstring :=
  match x with
  | S754_nan => str "nan"
  | S754_infinity s => sign_text s ++ str "inf"
  | S754_zero s => sign_text s ++ str "0.000000"
  | S754_finite s m e =>
    let scaled :=
      if 0 <=? e then Z.pos m * 2 ^ e * 10 ^ 6
      else div_round_even (Z.pos m * 10 ^ 6) (2 ^ (- e)) in
    sign_text s ++ dec (scaled / 10 ^ 6) ++ str "." ++ dec_pad 6 (scaled mod 10 ^ 6)
  end.

(** ** strtod *)

Fixpoint span (p : byte -> bool) (l : cstring) : cstring * cstring :=
  match l with
  | [] => ([], [])
  | c :: l' => if p c then let '(a, b) := span p l' in (c :: a, b) else ([], l)
  end.

Definition lower (b : byte) : byte :=
  let z := Z_of_byte b in if (65 <=? z) && (z <=? 90) then byte_of_Z (z + 32) else b.

(** The text after [w], compared without case. *)
Fixpoint after_word (w l : cstring) : option cstring :=
  match w, l with
  | [], _ => Some l
  | c :: w', d :: l' => if byte_eqb c (lower d) then after_word w' l' else None
  | _ :: _, [] => None
  end.

Definition after_sign (l : cstring) : bool * cstring :=
  match l with
  | c :: l' =>
    if byte_eqb c x2d then (true, l') else if byte_eqb c x2b then (false, l') else (false, l)
  | [] => (false, l)
  end.

Definition isxdigit (b : byte) : bool :=
  let z := Z_of_byte (lower b) in isdigit b || ((97 <=? z) && (z <=? 102)).
Definition hex_val (l : cstring) : Z :=
  fold_left (fun a b => a * 16 + (if isdigit b then Z_of_byte b - 48
                                  else Z_of_byte (lower b) - 87)) l 0.

(** Digits with an optional fraction: the integer and fraction parts. *)
Definition mantissa (p : byte -> bool) (l : cstring) : option (cstring * cstring * cstring) :=
  let '(ip, r) := span p l in
  let '(fp, r') :=
    match r with
    | c :: r' => if byte_eqb c x2e then span p r' else ([], r)
    | [] => ([], r)
    end in
  match ip ++ fp with
  | [] => None
  | _ :: _ => Some (ip, fp, r')
  end.

(** An optional exponent introduced by [c]. *)
Definition exponent (c : byte) (l : cstring) : Z * cstring :=
  match l with
  | d :: l' =>
    if byte_eqb c (lower d) then
      let '(neg, l'') := after_sign l' in
      match span isdigit l'' with
      | ([], _) => (0, l)
      | (ds, rest) => ((if neg then - dec_val ds else dec_val ds), rest)
      end
    else (0, l)
  | [] => (0, l)
  end.

Definition scaled (s : bool) (n base e : Z) : double :=
  if 0 <=? e then of_ratio s (n * base ^ e) 1 else of_ratio s n (base ^ (- e)).

Definition number (s : bool) (l : cstring) : option (double * cstring) :=
  match mantissa isdigit l with
  | None => None
  | Some (ip, fp, rest) =>
    let '(e, rest') := exponent x65 rest in
    Some (scaled s (dec_val (ip ++ fp)) 10 (e - Z.of_nat (length fp)), rest')
  end.

Definition hex_number (s : bool) (l : cstring) : option (double * cstring) :=
  match mantissa isxdigit l with
  | None => None
  | Some (ip, fp, rest) =>
    let '(e, rest') := exponent x70 rest in
    Some (scaled s (hex_val (ip ++ fp)) 2 (e - 4 * Z.of_nat (length fp)), rest')
  end.

(** strtod: the value and the text that follows it (the text itself, with the
    value 0, when there is no number). *)
Definition strtod (l : cstring) : double * cstring :=
  let '(s, r) := after_sign (snd (span isspace l)) in
  match after_word (str "infinity") r with
  | Some rest => (S754_infinity s, rest)
  | None =>
    match after_word (str "inf") r with
    | Some rest => (S754_infinity s, rest)
    | None =>
      match after_word (str "nan") r with
      | Some rest => (S754_nan, rest)
      | None =>
        match (match after_word (str "0x") r with
               | Some rest => hex_number s rest
               | None => None
               end) with
        | Some res => res
        | None =>
          match number s r with
          | Some res => res
          | None => (S754_zero false, l)
          end
        end
      end
    end
  end.

(** ** Exact integers *)

(** Number of bits. *)
Definition bits (z : Z) : Z := Z.log2 z + 1.

Lemma digits2_pos_bits p : Z.pos (digits2_pos p) = bits (Z.pos p).
Proof.
  unfold bits. induction p as [p IH|p IH|]; cbn [digits2_pos].
  - rewrite Pos2Z.inj_succ, IH, (Pos2Z.inj_xI p). rewrite Z.log2_succ_double by lia. lia.
  - rewrite Pos2Z.inj_succ, IH, (Pos2Z.inj_xO p). rewrite Z.log2_double by lia. lia.
  - done.
Qed.

Lemma Zdigits2_bits z : 0 < z -> Zdigits2 z = bits z.
Proof. destruct z; try lia. intros _. apply digits2_pos_bits. Qed.

Lemma bits_shift z k : 0 < z -> 0 <= k -> bits (z * 2 ^ k) = bits z + k.
Proof. intros. unfold bits. rewrite Z.log2_mul_pow2 by lia. lia. Qed.

Lemma bits_pos z : 0 < z -> 1 <= bits z.
Proof. intros. unfold bits. pose proof (Z.log2_nonneg z). lia. Qed.

Lemma bits_53 z : 0 < z < 2 ^ 53 -> bits z <= 53.
Proof. intros. unfold bits. pose proof (proj1 (Z.log2_lt_pow2 z 53 ltac:(lia))). lia. Qed.

(** The canonical double of a non-zero integer below 2^53. *)
Definition canon_pos (s : bool) (n : Z) : double :=
  S754_finite s (Z.to_pos (n * 2 ^ (53 - bits n))) (bits n - 53).

Lemma iter_pos_iter {A} (f : A -> A) p x : SpecFloat.iter_pos f p x = Pos.iter f x p.
Proof.
  revert x. induction p as [p IH|p IH|]; intros x; cbn [SpecFloat.iter_pos Pos.iter]; [| |done].
  - rewrite !IH. by rewrite Pos.iter_swap, <-!Pos.iter_swap.
  - by rewrite !IH.
Qed.

Lemma shr_1_exact m : 0 < m ->
  shr_1 {| shr_m := m * 2; shr_r := false; shr_s := false |}
  = {| shr_m := m; shr_r := false; shr_s := false |}.
Proof. intros. destruct m; try lia. by rewrite Z.mul_comm. Qed.

Lemma shr_exact m e k : 0 < m -> 0 <= k ->
  shr {| shr_m := m * 2 ^ k; shr_r := false; shr_s := false |} e k
  = ({| shr_m := m; shr_r := false; shr_s := false |}, e + k).
Proof.
  intros Hm Hk. destruct k as [|p|p]; cbn [shr]; [|f_equal|lia].
  { change (2 ^ 0) with 1. rewrite Z.mul_1_r. f_equal. lia. }
  rewrite iter_pos_iter. clear Hk. revert m Hm. induction p as [|p IH] using Pos.peano_ind; intros m Hm.
  - by apply shr_1_exact.
  - rewrite Pos.iter_succ_r. replace (m * 2 ^ Z.pos (Pos.succ p)) with ((m * 2 ^ Z.pos p) * 2).
    + rewrite shr_1_exact by (apply Z.mul_pos_pos; lia). by apply IH.
    + rewrite Pos2Z.inj_succ, Z.pow_succ_r by lia. lia.
Qed.

Lemma fexp_small d : -1000 <= d - 53 -> fexp 53 1024 d = d - 53.
Proof. intros. unfold fexp, SpecFloat.emin. lia. Qed.

(** A value n written with at least 53 bits rounds to its canonical double. *)
Lemma round_aux_exact s n k :
  0 < n < 2 ^ 53 -> 53 - bits n <= k -> 
  binary_round_aux 53 1024 s (n * 2 ^ k) (- k) loc_Exact = canon_pos s n.
Proof.
  intros Hn Hk. pose proof (bits_53 n Hn). pose proof (bits_pos n ltac:(lia)).
  unfold binary_round_aux, shr_fexp.
  assert (0 < n * 2 ^ k) by (apply Z.mul_pos_pos; lia).
  rewrite Zdigits2_bits, bits_shift by lia.
  replace (bits n + k + - k) with (bits n) by lia.
  rewrite fexp_small by lia. cbn [shr_record_of_loc].
  set (c := n * 2 ^ (53 - bits n)).
  replace (n * 2 ^ k) with (c * 2 ^ (bits n - 53 - - k)).
  2:{ unfold c. rewrite <-Z.mul_assoc, <-Z.pow_add_r by lia. do 2 f_equal. lia. }
  assert (0 < c) by (apply Z.mul_pos_pos; lia).
  rewrite shr_exact by lia. cbn [shr_m shr_r shr_s loc_of_shr_record round_nearest_even].
  rewrite Zdigits2_bits by lia.
  assert (Hc : bits c = 53) by (unfold c; rewrite bits_shift; lia). rewrite Hc.
  replace (53 + (- k + (bits n - 53 - - k))) with (bits n) by lia.
  rewrite fexp_small by lia.
  replace (- k + (bits n - 53 - - k)) with (bits n - 53) by lia. rewrite Z.sub_diag.
  cbn [shr shr_m]. unfold canon_pos. fold c. destruct c as [|p|p]; try lia.
  rewrite (proj2 (Z.leb_le _ _)) by lia. done.
Qed.

Lemma shl_align_pos m e e' :
  e' <= e -> Z.pos (fst (shl_align m e e')) = Z.pos m * 2 ^ (e - e').
Proof.
  intros H. unfold shl_align. destruct (e' - e) as [|d|d] eqn:E; [|lia|].
  - replace (e - e') with 0 by lia. cbn. lia.
  - cbn [fst]. replace (e - e') with (Z.pos d) by lia.
    clear. induction d as [|d IH] using Pos.peano_ind; [cbn; lia|].
    rewrite Pos.iter_succ, Pos2Z.inj_succ, Z.pow_succ_r by lia.
    rewrite Pos2Z.inj_xO, IH. lia.
Qed.

Lemma round_exact s m n k :
  0 < n < 2 ^ 53 -> 0 <= k -> Z.pos m = n * 2 ^ k ->
  binary_round 53 1024 s m (- k) = canon_pos s n.
Proof.
  intros Hn Hk Hm. pose proof (bits_53 n Hn). pose proof (bits_pos n ltac:(lia)).
  unfold binary_round. rewrite digits2_pos_bits, Hm, bits_shift by lia.
  replace (bits n + k + - k) with (bits n) by lia. rewrite fexp_small by lia.
  destruct (decide (bits n - 53 <= - k)).
  - pose proof (shl_align_pos m (- k) (bits n - 53) ltac:(lia)) as Ha.
    destruct (shl_align m (- k) (bits n - 53)) as [mz ez] eqn:E. cbn [fst] in Ha.
    assert (ez = bits n - 53).
    { unfold shl_align in E. destruct (bits n - 53 - - k) eqn:?; simplify_eq; lia. }
    subst ez. rewrite Ha, Hm, <-Z.mul_assoc, <-Z.pow_add_r by lia.
    replace (bits n - 53) with (- (53 - bits n)) by lia.
    replace (k + (- k - - (53 - bits n))) with (53 - bits n) by lia.
    apply round_aux_exact; lia.
  - unfold shl_align. destruct (bits n - 53 - - k) as [|d|d] eqn:E; try lia.
    rewrite Hm. apply round_aux_exact; lia.
Qed.

(** The canonical double of an integer below 2^53 in magnitude. *)
Definition canon (z : Z) : double :=
  if z =? 0 then S754_zero false else canon_pos (z <? 0) (Z.abs z).

Lemma normalize_exact z k s :
  Z.abs z < 2 ^ 53 -> 0 <= k -> z <> 0 ->
  binary_normalize 53 1024 (z * 2 ^ k) (- k) s = canon z.
Proof.
  intros Hz Hk Hnz. unfold canon. rewrite (proj2 (Z.eqb_neq _ _)) by lia.
  assert (0 < 2 ^ k) by lia.
  destruct (z * 2 ^ k) as [|m|m] eqn:E; cbn [binary_normalize]; [nia| |].
  - assert (0 < z) by nia. rewrite (proj2 (Z.ltb_ge _ _)) by lia.
    apply round_exact; lia.
  - assert (z < 0) by nia. rewrite (proj2 (Z.ltb_lt _ _)) by lia.
    apply round_exact; lia.
Qed.

Lemma of_Z_canon z : Z.abs z < 2 ^ 53 -> of_Z z = canon z.
Proof.
  intros Hz. destruct (decide (z = 0)) as [->|]; [done|].
  unfold of_Z. rewrite <-(Z.mul_1_r z) at 1. change 1 with (2 ^ 0) at 1.
  change 0 with (- 0) at 2. by apply normalize_exact.
Qed.

(** Mantissa and exponent of a canonical double. *)
Lemma canon_cases z : Z.abs z < 2 ^ 53 ->
  canon z = S754_zero false /\ z = 0 \/
  exists m e, canon z = S754_finite (z <? 0) m e /\ e <= 0 /\ Z.pos m = Z.abs z * 2 ^ (- e)
              /\ z <> 0 /\ bits (Z.abs z) = e + 53.
Proof.
  intros Hz. unfold canon. destruct (Z.eqb_spec z 0) as [->|Hnz]; [by left|]. right.
  unfold canon_pos. pose proof (bits_53 (Z.abs z) ltac:(lia)).
  eexists _, _. split; [done|]. repeat split; try lia.
  rewrite Z2Pos.id by (apply Z.mul_pos_pos; lia). do 2 f_equal. lia.
Qed.

Lemma cond_Zopp_canon z m e k :
  Z.pos m = Z.abs z * 2 ^ (- e) -> k <= e -> e <= 0 ->
  cond_Zopp (z <? 0) (Z.pos (fst (shl_align m e k))) = z * 2 ^ (- k).
Proof.
  intros Hm Hk He. rewrite shl_align_pos, Hm by lia.
  rewrite <-Z.mul_assoc, <-Z.pow_add_r by lia.
  replace (- e + (e - k)) with (- k) by lia. unfold cond_Zopp.
  destruct (Z.ltb_spec z 0); [rewrite Z.abs_neq by lia|rewrite Z.abs_eq by lia]; lia.
Qed.

Lemma sum_exact z k :
  Z.abs z < 2 ^ 53 -> k <= 0 ->
  binary_normalize 53 1024 (z * 2 ^ (- k)) k false = canon z.
Proof.
  intros Hz Hk. destruct (decide (z = 0)) as [->|]; [by rewrite Z.mul_0_l|].
  rewrite <-(normalize_exact z (- k) false) by lia. f_equal. lia.
Qed.

(** Addition and subtraction of integers below 2^53 are exact. *)
Lemma add_canon x y :
  Z.abs x < 2 ^ 53 -> Z.abs y < 2 ^ 53 -> Z.abs (x + y) < 2 ^ 53 ->
  add (canon x) (canon y) = canon (x + y).
Proof.
  intros Hx Hy Hxy.
  destruct (canon_cases x Hx) as [[-> ->]|(mx & ex & Ex & Hex & Hmx & Hx0 & _)];
    destruct (canon_cases y Hy) as [[-> ->]|(my & ey & Ey & Hey & Hmy & Hy0 & _)].
  - done.
  - rewrite Ey, Z.add_0_l, Ey. done.
  - rewrite Ex, Z.add_0_r, Ex. done.
  - rewrite Ex, Ey. unfold add, SFadd.
    rewrite !cond_Zopp_canon by (done || lia).
    rewrite <-Z.mul_add_distr_r. apply sum_exact; lia.
Qed.

Lemma canon_opp y : y <> 0 -> canon (- y) = SFopp (canon y).
Proof.
  intros. unfold canon. rewrite !(proj2 (Z.eqb_neq _ _)) by lia.
  rewrite Z.abs_opp. unfold canon_pos, SFopp. f_equal. lia.
Qed.

Lemma sub_canon x y :
  Z.abs x < 2 ^ 53 -> Z.abs y < 2 ^ 53 -> Z.abs (x - y) < 2 ^ 53 ->
  sub (canon x) (canon y) = canon (x - y).
Proof.
  intros Hx Hy Hxy.
  destruct (canon_cases x Hx) as [[-> ->]|(mx & ex & Ex & Hex & Hmx & Hx0 & _)];
    destruct (canon_cases y Hy) as [[-> ->]|(my & ey & Ey & Hey & Hmy & Hy0 & _)].
  - done.
  - rewrite Z.sub_0_l, canon_opp, Ey by done. done.
  - rewrite Ex, Z.sub_0_r, Ex. done.
  - rewrite Ex, Ey. unfold sub, SFsub.
    rewrite !cond_Zopp_canon by (done || lia).
    rewrite <-Z.mul_sub_distr_r. apply sum_exact; lia.
Qed.

Lemma pos_compare_Z a b : Pos.compare_cont Eq a b = (Z.pos a ?= Z.pos b).
Proof. done. Qed.

Lemma bits_mono a b : 0 < a -> a <= b -> bits a <= bits b.
Proof. intros. unfold bits. pose proof (Z.log2_le_mono a b). lia. Qed.

(** Same-sign comparison: exponents first, then mantissas. *)
Lemma compare_canon_mag x y mx ex my ey :
  0 < x -> 0 < y -> bits x = ex + 53 -> bits y = ey + 53 -> ex <= 0 -> ey <= 0 ->
  Z.pos mx = x * 2 ^ (- ex) -> Z.pos my = y * 2 ^ (- ey) ->
  match ex ?= ey with Lt => Lt | Gt => Gt | Eq => Pos.compare_cont Eq mx my end = (x ?= y).
Proof.
  intros Hx Hy Bx By Hex Hey Hmx Hmy. rewrite pos_compare_Z.
  destruct (Z.compare_spec ex ey) as [->|Hlt|Hgt].
  - rewrite Hmx, Hmy. symmetry. apply Zmult_compare_compat_r. lia.
  - symmetry. apply Z.compare_lt_iff. apply Z.nle_gt. intros Hle.
    pose proof (bits_mono y x Hy Hle). lia.
  - symmetry. apply Z.compare_gt_iff. apply Z.nle_gt. intros Hle.
    pose proof (bits_mono x y Hx Hle). lia.
Qed.

Lemma compare_canon x y :
  Z.abs x < 2 ^ 53 -> Z.abs y < 2 ^ 53 -> SFcompare (canon x) (canon y) = Some (x ?= y).
Proof.
  intros Hx Hy.
  destruct (canon_cases x Hx) as [[-> ->]|(mx & ex & -> & Hex & Hmx & Hx0 & Bx)];
    destruct (canon_cases y Hy) as [[-> ->]|(my & ey & -> & Hey & Hmy & Hy0 & By)];
    cbn [SFcompare]; [done|destruct (Z.ltb_spec y 0)|destruct (Z.ltb_spec x 0)|].
  1-4: f_equal; symmetry; (apply Z.compare_lt_iff || apply Z.compare_gt_iff); lia.
  destruct (Z.ltb_spec x 0), (Z.ltb_spec y 0); f_equal.
  - rewrite (Z.abs_neq x), (Z.abs_neq y) in * by lia.
    rewrite <-(Z.compare_opp y x), <-(compare_canon_mag (- y) (- x) my ey mx ex) by lia.
    rewrite (Z.compare_antisym ey ex), !pos_compare_Z, (Z.compare_antisym (Z.pos my) (Z.pos mx)).
    destruct (ey ?= ex), (Z.pos my ?= Z.pos mx); done.
  - symmetry. apply Z.compare_lt_iff. lia.
  - symmetry. apply Z.compare_gt_iff. lia.
  - rewrite (Z.abs_eq x), (Z.abs_eq y) in * by lia. by apply compare_canon_mag; try lia.
Qed.

Lemma ltb_canon x y :
  Z.abs x < 2 ^ 53 -> Z.abs y < 2 ^ 53 -> ltb (canon x) (canon y) = (x <? y).
Proof. intros. unfold ltb, SFltb. rewrite compare_canon by done. unfold Z.ltb. by destruct (x ?= y). Qed.
Lemma leb_canon x y :
  Z.abs x < 2 ^ 53 -> Z.abs y < 2 ^ 53 -> leb (canon x) (canon y) = (x <=? y).
Proof. intros. unfold leb, SFleb. rewrite compare_canon by done. unfold Z.leb. by destruct (x ?= y). Qed.
Lemma eqb_canon x y :
  Z.abs x < 2 ^ 53 -> Z.abs y < 2 ^ 53 -> eqb (canon x) (canon y) = (x =? y).
Proof.
  intros. unfold eqb, SFeqb. rewrite compare_canon by done.
  destruct (Z.compare_spec x y); lia.
Qed.

(** ** Decimal text of integers *)

Lemma digit_val n : 0 <= n < 10 -> Z_of_byte (digit n) = 48 + n.
Proof. intros. unfold digit. rewrite Z_of_byte_of_Z. rewrite Z.mod_small; lia. Qed.

Lemma isdigit_digit n : 0 <= n < 10 -> isdigit (digit n) = true.
Proof. intros. unfold isdigit. rewrite digit_val by done. lia. Qed.

Lemma dec_val_app a b : dec_val (a ++ b) = dec_val a * 10 ^ Z.of_nat (length b) + dec_val b.
Proof.
  unfold dec_val. rewrite fold_left_app.
  generalize (fold_left (fun a b => a * 10 + (Z_of_byte b - 48)) a 0). intros x.
  induction b as [|c b IH] using rev_ind; [cbn; lia|].
  rewrite !fold_left_app, length_app. cbn [fold_left length]. rewrite IH.
  rewrite Nat2Z.inj_add, Z.pow_add_r by lia. lia.
Qed.

Lemma dec_loop_spec fuel n acc :
  0 <= n < 2 ^ Z.of_nat fuel -> (0 < fuel)%nat ->
  exists ds, dec_loop fuel n acc = ds ++ acc /\ forallb isdigit ds = true
             /\ ds <> [] /\ dec_val ds = n
             /\ forall k, (0 < k)%nat -> n < 10 ^ Z.of_nat k -> (length ds <= k)%nat.
Proof.
  revert n acc. induction fuel as [|fuel IH]; intros n acc Hn Hf; [lia|].
  cbn [dec_loop]. pose proof (Z.mod_pos_bound n 10 ltac:(lia)) as Hm.
  pose proof (Z.div_mod n 10 ltac:(lia)) as Hd.
  destruct (Z.eqb_spec (n / 10) 0) as [E|E].
  - exists [digit (n mod 10)]. cbn [forallb]. rewrite isdigit_digit by lia.
    repeat split; [done| |].
    + unfold dec_val. cbn [fold_left]. rewrite digit_val by lia. lia.
    + intros. cbn. lia.
  - assert (0 <= n / 10) by (apply Z.div_pos; lia).
    assert (n / 10 < 2 ^ Z.of_nat fuel).
    { apply Z.div_lt_upper_bound; [lia|].
      rewrite Nat2Z.inj_succ, Z.pow_succ_r in Hn by lia. lia. }
    destruct fuel as [|fuel']; [cbn in *; lia|].
    destruct (IH (n / 10) (digit (n mod 10) :: acc)) as (ds & -> & Hds & Hne & Hv & Hl); [lia|lia|].
    exists (ds ++ [digit (n mod 10)]). rewrite <-app_assoc. split; [done|].
    rewrite forallb_app, Hds. cbn [forallb]. rewrite isdigit_digit by lia.
    split; [done|]. split; [by destruct ds|]. split.
    + rewrite dec_val_app, Hv. cbn [length]. unfold dec_val. cbn [fold_left].
      rewrite digit_val by lia. change (10 ^ Z.of_nat 1) with 10. lia.
    + intros k Hk Hlt. rewrite length_app. cbn [length].
      destruct k as [|[|k]]; [lia| |].
      * exfalso. change (10 ^ Z.of_nat 1) with 10 in Hlt. rewrite Z.div_small in E; lia.
      * enough (length ds <= S k)%nat by lia. apply Hl; [lia|].
        apply Z.div_lt_upper_bound; [lia|].
        replace (Z.of_nat (S (S k))) with (Z.of_nat (S k) + 1) in Hlt by lia.
        rewrite Z.pow_add_r in Hlt by lia. lia.
Qed.

Lemma dec_spec n : 0 <= n ->
  forallb isdigit (dec n) = true /\ dec n <> [] /\ dec_val (dec n) = n
  /\ forall k, (0 < k)%nat -> n < 10 ^ Z.of_nat k -> (length (dec n) <= k)%nat.
Proof.
  intros Hn. unfold dec. pose proof (Z.log2_nonneg n) as Hl.
  destruct (dec_loop_spec (S (Z.to_nat (Z.log2 n))) n []) as (ds & -> & H); [|lia|].
  - split; [done|]. rewrite Nat2Z.inj_succ, Z2Nat.id by lia.
    destruct (decide (n = 0)) as [->|]; [done|]. apply Z.log2_spec. lia.
  - by rewrite app_nil_r.
Qed.

Lemma span_app p a b :
  forallb p a = true -> match b with c :: _ => p c = false | [] => True end ->
  span p (a ++ b) = (a, b).
Proof.
  intros Ha Hb. induction a as [|c a IH]; cbn [app span forallb] in *.
  - destruct b; [done|]. cbn [span]. by rewrite Hb.
  - zbool. rewrite H. by rewrite IH.
Qed.

(** The characters of a decimal number. *)
Definition isdecimal (b : byte) : bool := isdigit b || byte_eqb b x2e.

Lemma isdecimal_lower b : isdecimal b = true -> lower b = b.
Proof.
  intros H. pose proof (forall_bytes (fun b => implb (isdecimal b) (byte_eqb (lower b) b))) as F.
  specialize (F ltac:(vm_compute; reflexivity) b). cbn in F. rewrite H in F. by apply byte_eqb_eq.
Qed.

Lemma after_word_decimal w l :
  forallb isdecimal l = true -> forallb isdecimal w = false -> after_word w l = None.
Proof.
  revert l. induction w as [|c w IH]; intros [|d l]; cbn [forallb after_word]; intros Hl Hw;
    try done. zbool.
  rewrite isdecimal_lower by done. destruct (byte_eqb c d) eqn:E; [|done].
  apply byte_eqb_eq in E as <-. apply IH; [done|]. by rewrite H in Hw.
Qed.

Lemma round_ratio_exact s n d :
  0 < n < 2 ^ 53 -> 0 < d -> of_ratio s (n * d) d = canon_pos s n.
Proof.
  intros Hn Hd. unfold of_ratio. rewrite (proj2 (Z.eqb_neq _ _)) by nia.
  unfold SFdiv_core_binary. assert (Hnd : 0 < n * d) by nia.
  rewrite !Zdigits2_bits by lia. rewrite !Z.add_0_r, Z.sub_diag.
  assert (Hb : bits n - 1 <= bits (n * d) - bits d <= bits n).
  { unfold bits. pose proof (Z.log2_mul_below n d ltac:(lia) ltac:(lia)).
    pose proof (Z.log2_mul_above n d ltac:(lia) ltac:(lia)). lia. }
  pose proof (bits_pos n ltac:(lia)). pose proof (bits_53 n ltac:(lia)).
  rewrite fexp_small by lia.
  set (e := Z.min (bits (n * d) - bits d - 53) 0).
  assert (Hs : (match 0 - e with Zpos _ => Z.shiftl (n * d) (0 - e) | Z0 => n * d | Zneg _ => 0 end)
               = (n * 2 ^ (- e)) * d).
  { destruct (0 - e) as [|p|p] eqn:E; [replace (- e) with 0 by lia; lia| |lia].
    rewrite Z.shiftl_mul_pow2 by lia. replace (- e) with (Z.pos p) by lia. lia. }
  rewrite Hs. pose proof (Z_div_mod_eq_full (n * 2 ^ (- e) * d) d) as Hdm.
  pose proof (Z.div_mul (n * 2 ^ (- e)) d ltac:(lia)) as Hq.
  pose proof (Z_mod_mult (n * 2 ^ (- e)) d) as Hr. unfold Z.div, Z.modulo in Hq, Hr.
  destruct (Z.div_eucl (n * 2 ^ (- e) * d) d) as [q r]. subst q r.
  assert (Hl : new_location d 0 = loc_Exact) by (unfold new_location; by destruct (Z.even d)).
  rewrite Hl. replace e with (- - e) at 2 by lia. apply round_aux_exact; lia.
Qed.

Lemma sign_canon z m e : z <> 0 -> canon z = S754_finite (z <? 0) m e ->
  canon_pos (z <? 0) (Z.abs z) = canon z.
Proof. intros. unfold canon. by rewrite (proj2 (Z.eqb_neq _ _)) by lia. Qed.

Lemma print_f_canon z : Z.abs z < 2 ^ 53 ->
  print_f (canon z) = sign_text (z <? 0) ++ dec (Z.abs z) ++ str ".000000".
Proof.
  intros Hz. destruct (canon_cases z Hz) as [[-> ->]|(m & e & -> & He & Hm & Hz0 & _)]; [done|].
  cbn [print_f].
  assert (Hs : (if 0 <=? e then Z.pos m * 2 ^ e * 10 ^ 6
                else div_round_even (Z.pos m * 10 ^ 6) (2 ^ (- e))) = Z.abs z * 10 ^ 6).
  { rewrite Hm. destruct (Z.leb_spec 0 e).
    - assert (e = 0) as -> by lia. change (2 ^ 0) with 1. change (2 ^ (- 0)) with 1. lia.
    - unfold div_round_even.
      replace (Z.abs z * 2 ^ (- e) * 10 ^ 6) with (Z.abs z * 10 ^ 6 * 2 ^ (- e)) by lia.
      rewrite Z.mod_mul, Z.div_mul by lia.
      destruct (Z.compare_spec (2 * 0) (2 ^ (- e))); lia. }
  rewrite Hs, Z.div_mul, Z.mod_mul by lia. done.
Qed.

(** What %f prints for an integer below 2^53, strtod reads back. *)
Lemma strtod_print_f z : Z.abs z < 2 ^ 53 -> strtod (print_f (canon z)) = (canon z, []).
Proof.
  intros Hz. rewrite print_f_canon by done.
  destruct (dec_spec (Z.abs z) ltac:(lia)) as (Hd & Hne & Hv & _).
  set (t := dec (Z.abs z) ++ str ".000000").
  assert (Ht : forallb isdecimal t = true).
  { unfold t. rewrite forallb_app. apply andb_true_iff. split; [|done].
    rewrite forallb_forall in *. intros c Hc. unfold isdecimal. by rewrite Hd. }
  assert (Hsg : after_sign (snd (span isspace (sign_text (z <? 0) ++ t))) = (z <? 0, t)).
  { assert (Hsp : forall c, isdecimal c = true ->
              isspace c = false /\ byte_eqb c x2d = false /\ byte_eqb c x2b = false).
    { intros c Hc. pose proof (forall_bytes (fun c => implb (isdecimal c)
        (negb (isspace c) && negb (byte_eqb c x2d) && negb (byte_eqb c x2b)))) as F.
      specialize (F ltac:(vm_compute; reflexivity) c). cbn beta in F. rewrite Hc in F.
      cbn [implb] in F. zbool. done. }
    unfold sign_text. destruct (z <? 0); [done|]. cbn [app].
    destruct t as [|c t'] eqn:Et; [done|]. cbn [forallb] in Ht. zbool.
    destruct (Hsp c H) as (H1 & H2 & H3). cbn [span]. rewrite H1. cbn [snd after_sign].
    by rewrite H2, H3. }
  unfold strtod. rewrite Hsg. rewrite !after_word_decimal by done.
  assert (Hm : mantissa isdigit t = Some (dec (Z.abs z), str "000000", [])).
  { unfold mantissa, t. rewrite span_app by done.
    change (str ".000000") with (x2e :: str "000000"). cbv beta iota.
    rewrite byte_eqb_refl. change (span isdigit (str "000000")) with (str "000000", @nil byte).
    by destruct (dec (Z.abs z)). }
  unfold number. rewrite Hm. rewrite dec_val_app, Hv. cbn [exponent].
  change (dec_val (str "000000")) with 0.
  change (length (str "000000")) with 6%nat. rewrite Z.add_0_r.
  unfold scaled. change (0 - Z.of_nat 6) with (-6). change (0 <=? -6) with false. cbv iota.
  change (Z.of_nat 6) with 6. change (10 ^ (- -6)) with (10 ^ 6).
  destruct (Z.eqb_spec z 0) as [->|Hz0]; [done|].
  rewrite round_ratio_exact by lia. unfold canon.
  by rewrite (proj2 (Z.eqb_neq _ _)) by lia.
Qed.

Lemma length_print_f z : Z.abs z < 2 ^ 53 -> (length (print_f (canon z)) <= 24)%nat.
Proof.
  intros Hz. rewrite print_f_canon by done. rewrite !length_app.
  destruct (dec_spec (Z.abs z) ltac:(lia)) as (_ & _ & _ & Hl).
  specialize (Hl 16%nat ltac:(lia)). change (10 ^ Z.of_nat 16) with 10000000000000000 in Hl.
  change (length (str ".000000")) with 7%nat.
  assert (length (sign_text (z <? 0)%Z) <= 1)%nat by (unfold sign_text; case_if; cbn; lia).
  lia.
Qed.

(** %f prints no NUL. *)
Lemma print_f_no_nul z : Z.abs z < 2 ^ 53 ->
  forallb (fun b => negb (byte_eqb b x00)) (print_f (canon z)) = true.
Proof.
  intros Hz. rewrite print_f_canon by done. rewrite !forallb_app.
  destruct (dec_spec (Z.abs z) ltac:(lia)) as (Hd & _).
  apply andb_true_iff. split; [unfold sign_text; by case_if|].
  apply andb_true_iff. split; [|done].
  rewrite forallb_forall in *. intros c Hc. apply Hd in Hc.
  destruct (byte_eqb c x00) eqn:E; [|done]. apply byte_eqb_eq in E. by subst c.
Qed.

(** ** Any double *)

Lemma dec_pad_spec k : forall n, 0 <= n ->
  forallb isdigit (dec_pad k n) = true /\ length (dec_pad k n) = k /\ dec_val (dec_pad k n) = n mod 10 ^ Z.of_nat k.
Proof.
  induction k as [|k IH]; intros n Hn; cbn [dec_pad].
  { split; [done|]. split; [done|]. change (10 ^ Z.of_nat 0) with 1. by rewrite Z.mod_1_r. }
  destruct (IH (n / 10) ltac:(apply Z.div_pos; lia)) as (Hd & Hl & Hv). pose proof (Z.mod_pos_bound n 10 ltac:(lia)).
  rewrite forallb_app, Hd, length_app, Hl, dec_val_app, Hv. cbn [forallb length]. rewrite isdigit_digit by lia.
  split; [done|]. split; [lia|]. unfold dec_val. cbn [fold_left]. rewrite digit_val by lia.
  change (10 ^ Z.of_nat 1) with 10. replace (10 ^ Z.of_nat (S k)) with (10 * 10 ^ Z.of_nat k)
    by (rewrite Nat2Z.inj_succ, Z.pow_succ_r; lia).
  rewrite Z.rem_mul_r by (try apply Z.pow_pos_nonneg; lia). lia.
Qed.

(** The millionths of a finite double, as %f rounds them. *)
Definition micros (m : positive) (e : Z) : Z :=
  if 0 <=? e then Z.pos m * 2 ^ e * 10 ^ 6 else div_round_even (Z.pos m * 10 ^ 6) (2 ^ (- e)).

(** The double nearest to what six decimals say of a double. *)
Definition six_decimals (d : double) : double :=
  match d with
  | S754_finite s m e => of_ratio s (micros m e) (10 ^ 6)
  | d => d
  end.

Lemma micros_nonneg m e : 0 <= micros m e.
Proof.
  unfold micros. destruct (Z.leb_spec 0 e).
  - apply Z.mul_nonneg_nonneg; [|lia]. apply Z.mul_nonneg_nonneg; lia.
  - unfold div_round_even. pose proof (Z.pow_pos_nonneg 2 (- e) ltac:(lia) ltac:(lia)) as Hp.
    pose proof (Z.div_pos (Z.pos m * 10 ^ 6) (2 ^ (- e)) ltac:(lia) ltac:(lia)).
    repeat case_match; lia.
Qed.

(** A number with six decimals. *)
Definition decimals_text (s : bool) (n : Z) : cstring :=
  sign_text s ++ dec (n / 10 ^ 6) ++ str "." ++ dec_pad 6 (n mod 10 ^ 6).

Lemma isdecimal_digits l : forallb isdigit l = true -> forallb isdecimal l = true.
Proof. rewrite !forallb_forall. intros H c Hc. unfold isdecimal. by rewrite H. Qed.

Lemma after_sign_decimal s t : t <> [] -> forallb isdecimal t = true ->
  after_sign (snd (span isspace (sign_text s ++ t))) = (s, t).
Proof.
  intros Hne Ht. unfold sign_text. destruct s; [done|]. cbn [app]. destruct t as [|c t']; [done|].
  cbn [forallb] in Ht. zbool.
  pose proof (forall_bytes (fun c => implb (isdecimal c)
    (negb (isspace c) && negb (byte_eqb c x2d) && negb (byte_eqb c x2b)))) as F.
  specialize (F ltac:(vm_compute; reflexivity) c). cbn beta in F. rewrite H in F. cbn [implb] in F. zbool.
  cbn [span]. rewrite H1. cbn [snd after_sign]. by rewrite H3, H2.
Qed.

Lemma strtod_decimals s n : 0 <= n -> strtod (decimals_text s n) = (of_ratio s n (10 ^ 6), []).
Proof.
  intros Hn. unfold decimals_text.
  destruct (dec_spec (n / 10 ^ 6) ltac:(apply Z.div_pos; lia)) as (Hd & Hne & Hv & _).
  destruct (dec_pad_spec 6 (n mod 10 ^ 6) ltac:(apply Z.mod_pos_bound; lia)) as (Hd' & Hl' & Hv').
  set (ip := dec _) in *. set (fp := dec_pad 6 _) in *. set (t := ip ++ str "." ++ fp).
  assert (Ht : forallb isdecimal t = true).
  { unfold t. rewrite !forallb_app, (isdecimal_digits ip), (isdecimal_digits fp) by done. done. }
  assert (Htn : t <> []) by (unfold t; by destruct ip).
  unfold strtod. rewrite after_sign_decimal by done. rewrite !after_word_decimal by done.
  assert (Hm : mantissa isdigit t = Some (ip, fp, [])).
  { unfold mantissa, t. change (str "." ++ fp) with (x2e :: fp). rewrite span_app by done.
    cbv beta iota. rewrite byte_eqb_refl. rewrite <-(app_nil_r fp) at 1. rewrite span_app by done. by destruct ip. }
  unfold number. rewrite Hm. rewrite dec_val_app, Hv, Hv', Hl'. cbn [exponent]. unfold scaled.
  change (0 - Z.of_nat 6) with (-6). change (0 <=? -6) with false. cbv iota.
  change (Z.of_nat 6) with 6. change (10 ^ (- -6)) with (10 ^ 6). rewrite Z.mod_mod by lia.
  do 2 f_equal. pose proof (Z.div_mod n (10 ^ 6) ltac:(lia)). lia.
Qed.

(** What %f prints, strtod reads to the six decimals. *)
Lemma strtod_print d : strtod (print_f d) = (six_decimals d, []).
Proof.
  destruct d as [s|s| |s m e]; cbn [print_f six_decimals]; [by destruct s|by destruct s|done|].
  fold (micros m e). apply (strtod_decimals s (micros m e)), micros_nonneg.
Qed.

Lemma print_no_nul d : forallb (fun b => negb (byte_eqb b x00)) (print_f d) = true.
Proof.
  assert (Hdig : forall l, forallb isdigit l = true -> forallb (fun b => negb (byte_eqb b x00)) l = true).
  { intros l. rewrite !forallb_forall. intros H c Hc%H. destruct (byte_eqb c x00) eqn:E; [|done].
    apply byte_eqb_eq in E. by subst c. }
  destruct d as [s|s| |s m e]; cbn [print_f]; [by destruct s|by destruct s|done|]. fold (micros m e).
  pose proof (micros_nonneg m e). rewrite !forallb_app.
  rewrite (Hdig (dec _)) by (apply dec_spec, Z.div_pos; lia).
  rewrite (Hdig (dec_pad 6 _)) by (apply dec_pad_spec, Z.mod_pos_bound; lia). by destruct s.
Qed.

(** Below 10^23 the text fits in 31 characters. *)
Lemma length_print d : match d with S754_finite _ m e => micros m e < 10 ^ 29 | _ => True end ->
  (length (print_f d) <= 31)%nat.
Proof.
  destruct d as [s|s| |s m e]; cbn [print_f]; [by destruct s; cbn; lia|by destruct s; cbn; lia|cbn; lia|].
  fold (micros m e). intros H. pose proof (micros_nonneg m e). rewrite !length_app.
  destruct (dec_spec (micros m e / 10 ^ 6) ltac:(apply Z.div_pos; lia)) as (_ & _ & _ & Hl).
  destruct (dec_pad_spec 6 (micros m e mod 10 ^ 6) ltac:(apply Z.mod_pos_bound; lia)) as (_ & Hp & _). rewrite Hp.
  specialize (Hl 23%nat ltac:(lia)). specialize (Hl ltac:(apply Z.div_lt_upper_bound; lia)).
  change (length (str ".")) with 1%nat.
  assert (length (sign_text s) <= 1)%nat by (destruct s; cbn; lia). lia.
Qed.

Lemma six_decimals_canon z : Z.abs z < 2 ^ 53 -> six_decimals (canon z) = canon z.
Proof. intros H. pose proof (strtod_print (canon z)) as E. rewrite strtod_print_f in E by done. by injection E. Qed.

End Dbl.
