(* ===== verification/Events.v ===== *)
(** * The event registry (core/src/io/events.cc)

    Categories of events and the serialization mapping of each event type. The
    two levels of unordered_map are finite maps. The mapping entries of an
    event (core/inc/com/centreon/broker/mapping) are kept without the pointer to
    the member, which is their place in the list; what a constructor leaves in the members is a list
    of values, one per entry. *)

From Stdlib Require Import ZArith Lia ZifyNat ZifyBool Strings.Byte.
From stdpp Require Import base option list numbers strings gmap sets.
From S2P Require Import Prelude Double.

Module Events.

(** mapping::source::source_type. *)
Inductive source_type : Type :=
  | UNKNOWN | BOOL | DOUBLE | INT | SHORT | STRING | TIME | UINT | USHORT | ULONG.

#[global] Instance source_type_eq_dec : EqDecision source_type.
Proof. solve_decision. Defined.

(** The members an event may have. *)
Inductive value : Type :=
  | VBool (b : bool)
  | VDouble (d : double)
  | VInt (z : Z)
  | VShort (z : Z)
  | VString (s : cstring)
  | VTime (z : Z)
  | VUint (z : Z).

#[global] Instance value_eq_dec : EqDecision value.
Proof. solve_decision. Defined.

(** mapping::entry: the type of the member, whether BBDO carries it, the name
    of its column (a null pointer is None), its attribute, and the size of the
    column when that is a text (0 when it has no bound). *)
Record entry : Type := Entry {
  get_type : source_type;
  get_serialize : bool;
  get_name_v2 : option cstring;
  get_attribute : Z;
  get_max_len : Z
}.

(** entry::attribute. *)
Definition always_valid : Z := 0.
Definition invalid_on_zero : Z := 1.
Definition invalid_on_minus_one : Z := 2.

(** The constructors of mapping::entry: for members of type T, for texts. *)
Definition mapped (type : source_type) (name : string) (attr : Z) : entry := Entry type true (Some (str name)) attr 0.
Definition mapped_string (name : string) (max_len attr : Z) : entry := Entry STRING true (Some (str name)) attr max_len.

(** io::event_info: the constructor may yield no object (None). *)
Record event_info : Type := Event_info {
  get_name : cstring;
  constructor : option (list value);
  get_mapping : list entry;
  get_table_v2 : cstring
}.

Record category_info : Type := Category_info {
  name : cstring;
  events : gmap Z event_info
}.

Abbreviation registry := (gmap Z category_info).

(** Reserved categories. *)
Definition neb : Z := 1.
Definition bbdo : Z := 2.
Definition storage : Z := 3.
Definition correlation : Z := 4.
Definition bam : Z := 6.
Definition internal : Z := 65535.

Definition category_of_type (type : Z) : Z := u16 (Z.shiftr type 16).
Definition element_of_type (type : Z) : Z := u16 type.
Definition make_type (category_id element_id : Z) : Z :=
  Z.lor (Z.shiftl category_id 16) element_id.

(** ++hint on an unsigned short, 0 being skipped. *)
Definition next_hint (hint : Z) : Z :=
  let h := u16 (hint + 1) in if h =? 0 then 1 else h.

Fixpoint free_category (fuel : nat) (r : registry) (hint : Z) : outcome Z :=
  match fuel with
  | O => Diverges
  | S fuel' =>
    match r !! hint with
    | Some _ => free_category fuel' r (next_hint hint)
    | None => Returns hint
    end
  end.

Definition register_category (fuel : nat) (r : registry) (nm : cstring) (hint : Z)
  : outcome (registry * Z) :=
  let hint := if hint =? 0 then 1 else hint in
  id ← free_category fuel r hint;
  Returns (<[id := Category_info nm ∅]> r, id).

Definition unregister_category (r : registry) (category_id : Z) : registry :=
  match r !! category_id with
  | Some _ => delete category_id r
  | None => r
  end.

(** emplace keeps an event already registered under that type. *)
Definition register_event (r : registry) (category_id event_id : Z) (info : event_info)
  : outcome (registry * Z) :=
  match r !! category_id with
  | None => Throws Exn_msg
  | Some c =>
    let type := make_type category_id event_id in
    let evs := match events c !! type with
               | Some _ => events c
               | None => <[type := info]> (events c)
               end in
    Returns (<[category_id := Category_info (name c) evs]> r, type)
  end.

Definition unregister_event (r : registry) (type_id : Z) : registry :=
  let category_id := category_of_type type_id in
  match r !! category_id with
  | Some c =>
    match events c !! type_id with
    | Some _ => <[category_id := Category_info (name c) (delete type_id (events c))]> r
    | None => r
    end
  | None => r
  end.

Definition get_event_info (r : registry) (type : Z) : option event_info :=
  match r !! category_of_type type with
  | Some c => events c !! type
  | None => None
  end.

(** Every event, or those of the first category of that name. *)
Definition get_events_by_category_name (r : registry) (nm : cstring) : outcome (gmap Z event_info) :=
  if cstring_eqb nm (str "all") then Returns (list_to_map ((map_to_list r).*2 ≫= (fun c => map_to_list (events c))))
  else
    match List.find (fun c => cstring_eqb (name c) nm) (map_to_list r).*2 with
    | Some c => Returns (events c)
    | None => Throws Exn_msg
    end.

(** A category, or one event of a category after a colon. *)
Definition get_matching_events (r : registry) (nm : cstring) : outcome (gmap Z event_info) :=
  match find_first_if (byte_eqb x3a) nm with
  | None => get_events_by_category_name r nm
  | Some place =>
    let event_name := drop (S place) nm in
    if existsb (byte_eqb x3a) event_name then Throws Exn_msg
    else
      evs ← get_events_by_category_name r (take place nm);
      match List.find (fun p => cstring_eqb (get_name (snd p)) event_name) (map_to_list evs) with
      | Some (type, info) => Returns {[ type := info ]}
      | None => Throws Exn_msg
      end
  end.

(** events::events(): the internal category is always there. *)
Definition load : registry := {[ internal := Category_info (str "internal") ∅ ]}.

(** ** Identifiers *)

Definition is_u16 (z : Z) : Prop := 0 <= z < 2 ^ 16.

Lemma make_type_sum c e : is_u16 e -> make_type c e = c * 2 ^ 16 + e.
Proof. intros. unfold make_type. apply lor_shiftl_add; [lia|done]. Qed.

Lemma category_of_make_type c e : is_u16 c -> is_u16 e -> category_of_type (make_type c e) = c.
Proof.
  intros Hc He. rewrite make_type_sum by done. unfold category_of_type, u16, is_u16 in *.
  rewrite Z.shiftr_div_pow2, Z.div_add_l, (Z.div_small e), Z.add_0_r by lia.
  by apply Z.mod_small.
Qed.

Lemma element_of_make_type c e : is_u16 c -> is_u16 e -> element_of_type (make_type c e) = e.
Proof.
  intros Hc He. rewrite make_type_sum by done. unfold element_of_type, u16, is_u16 in *.
  rewrite Z.add_comm, Z.mod_add by lia. by apply Z.mod_small.
Qed.

(** ** The search of a free category *)

Lemma next_hint_cycle h : 1 <= h < 2 ^ 16 -> next_hint h = h mod 65535 + 1.
Proof.
  intros Hh. unfold next_hint, u16. destruct (decide (h = 65535)) as [->|]; [done|].
  rewrite (Z.mod_small (h + 1)), (Z.mod_small h) by lia. case_if; lia.
Qed.

Lemma next_hint_range h : 1 <= h < 2 ^ 16 -> 1 <= next_hint h < 2 ^ 16.
Proof. intros. rewrite next_hint_cycle by done. pose proof (Z.mod_pos_bound h 65535). lia. Qed.

(** The ids examined: a cycle over 1..65535. *)
Definition kth_hint (h : Z) (k : nat) : Z := (h - 1 + Z.of_nat k) mod 65535 + 1.

Lemma kth_hint_next h k : 1 <= h < 2 ^ 16 -> kth_hint (next_hint h) k = kth_hint h (S k).
Proof.
  intros. unfold kth_hint. rewrite next_hint_cycle by done.
  replace (h mod 65535 + 1 - 1 + Z.of_nat k) with (h mod 65535 + Z.of_nat k) by lia.
  rewrite Zplus_mod_idemp_l. do 2 f_equal. lia.
Qed.

Lemma free_category_Diverges fuel r h :
  1 <= h < 2 ^ 16 -> free_category fuel r h = Diverges ->
  forall k, (k < fuel)%nat -> kth_hint h k ∈ dom r.
Proof.
  revert h. induction fuel as [|fuel IH]; intros h Hh E k Hk; [lia|]. cbn [free_category] in E.
  destruct (r !! h) eqn:L; [|done]. destruct k as [|k].
  - unfold kth_hint. rewrite Z.mod_small by lia. apply elem_of_dom.
    replace (h - 1 + Z.of_nat 0 + 1) with h by lia. by eexists.
  - rewrite <-kth_hint_next by done. apply IH; [by apply next_hint_range|done|lia].
Qed.

Lemma free_category_Returns fuel r h id :
  1 <= h < 2 ^ 16 -> free_category fuel r h = Returns id -> r !! id = None /\ 1 <= id < 2 ^ 16.
Proof.
  revert h. induction fuel as [|fuel IH]; intros h Hh; cbn [free_category]; [done|].
  destruct (r !! h) eqn:L; [|by intros [= <-]].
  apply IH. by apply next_hint_range.
Qed.

Lemma kth_hint_inj h i j : Z.of_nat i < 65535 -> Z.of_nat j < 65535 -> kth_hint h i = kth_hint h j -> i = j.
Proof.
  unfold kth_hint. intros Hi Hj E.
  assert (E' : (h - 1 + Z.of_nat i) mod 65535 = (h - 1 + Z.of_nat j) mod 65535) by lia.
  clear E. Z.div_mod_to_equations. lia.
Qed.

Lemma free_category_never_throws fuel r h e : free_category fuel r h <> Throws e.
Proof. revert h. induction fuel; intros h; cbn [free_category]; [done|]. by destruct (r !! h). Qed.

(** Registering a category always ends with an identifier that was free and
    is not 0, as long as fewer than 65535 categories are registered. *)
Theorem register_category_total fuel r nm hint :
  is_u16 hint -> Z.of_nat (size r) < 65535 -> (size r < fuel)%nat ->
  exists r' id, register_category fuel r nm hint = Returns (r', id)
    /\ r !! id = None /\ id <> 0
    /\ r' !! id = Some (Category_info nm ∅)
    /\ (forall id', id' <> id -> r' !! id' = r !! id').
Proof.
  intros Hh Hs Hf. unfold register_category. set (h := if hint =? 0 then 1 else hint).
  assert (Hh' : 1 <= h < 2 ^ 16) by (unfold h, is_u16 in *; case_if; lia).
  destruct (free_category fuel r h) as [id|e|] eqn:E; cbn [mbind outcome_bind].
  - apply free_category_Returns in E as [Hn Hr]; [|done].
    eexists _, id. split; [done|]. split; [done|]. split; [lia|].
    split; [by rewrite lookup_insert_eq|]. intros id' Hne. by rewrite lookup_insert_ne.
  - by destruct (free_category_never_throws fuel r h e).
  - exfalso. pose proof (free_category_Diverges fuel r h Hh' E) as Hd.
    assert (Hsub : list_to_set (kth_hint h <$> seq 0 (S (size r))) ⊆ dom r).
    { intros x Hx. apply elem_of_list_to_set, list_elem_of_fmap in Hx as (k & -> & Hk).
      apply elem_of_seq in Hk. apply Hd. lia. }
    apply subseteq_size in Hsub. rewrite size_list_to_set, length_fmap, length_seq, size_dom in Hsub; [lia|].
    apply NoDup_fmap_2_strong; [|apply NoDup_seq].
    intros i j Hi Hj. apply elem_of_seq in Hi, Hj. apply kth_hint_inj; lia.
Qed.

(** An event registered in a category is the one looked up by its type, and
    no other type is disturbed. *)
Theorem register_event_lookup r c e info :
  is_u16 c -> is_u16 e -> is_Some (r !! c) -> get_event_info r (make_type c e) = None ->
  exists r', register_event r c e info = Returns (r', make_type c e)
    /\ get_event_info r' (make_type c e) = Some info
    /\ (forall t, t <> make_type c e -> get_event_info r' t = get_event_info r t)
    /\ get_event_info (unregister_event r' (make_type c e)) (make_type c e) = None.
Proof.
  intros Hc He [ci Hci] Hn. unfold register_event. rewrite Hci.
  unfold get_event_info in Hn. rewrite category_of_make_type, Hci in Hn by done. rewrite Hn.
  eexists. split; [done|]. unfold get_event_info, unregister_event.
  rewrite category_of_make_type by done. rewrite !lookup_insert_eq. cbn.
  rewrite !lookup_insert_eq. cbn. split; [done|]. split.
  - intros t Ht. destruct (decide (category_of_type t = c)) as [->|].
    + rewrite lookup_insert_eq, Hci. cbn. by rewrite lookup_insert_ne.
    + by rewrite lookup_insert_ne.
  - by rewrite lookup_delete_eq.
Qed.

Lemma register_event_lookup_witness :
  exists r', register_event load internal 1 (Event_info [] None [] []) =
      Returns (r', make_type internal 1)
    /\ get_event_info r' (make_type internal 1) = Some (Event_info [] None [] [])
    /\ (forall t, t <> make_type internal 1 -> get_event_info r' t = get_event_info load t)
    /\ get_event_info (unregister_event r' (make_type internal 1)) (make_type internal 1) = None.
Proof.
  apply (register_event_lookup load internal 1 (Event_info [] None [] []));
    [split; reflexivity || discriminate | split; reflexivity || discriminate | | reflexivity].
  by eexists.
Defined.

Lemma register_category_total_witness :
  exists r' id, register_category 3 load (str "neb") 65535 = Returns (r', id)
    /\ load !! id = None /\ id <> 0
    /\ r' !! id = Some (Category_info (str "neb") ∅)
    /\ (forall id', id' <> id -> r' !! id' = load !! id').
Proof.
  apply (register_category_total 3 load (str "neb") 65535).
  - split; [discriminate|reflexivity].
  - reflexivity.
  - apply Nat.ltb_lt. reflexivity.
Defined.

End Events.
