(* ===== verification/Bbdo.v ===== *)
(** * The BBDO codec (core/src/bbdo/stream.cc, static functions)

    Encoding and decoding of one event: the field writers and readers, the
    16-byte header with its CRC, the splitting of a large content in packets,
    and the two whole-event functions serialize and unserialize. *)

From Stdlib Require Import ZArith Lia ZifyNat ZifyBool Strings.Byte Floats.SpecFloat.
From stdpp Require Import base option list numbers strings gmap.
From S2P Require Import Prelude Misc Double Events.

Module Bbdo.
Import Events.

(** io::data: type, origin, destination and the members of the object. *)
Record data : Type := Data {
  type : Z;
  source_id : Z;
  destination_id : Z;
  fields : list value
}.

#[global] Instance data_eq_dec : EqDecision data.
Proof. solve_decision. Defined.

Definition BBDO_HEADER_SIZE : nat := 16.
Definition BBDO_VERSION_MAJOR : Z := 2.
Definition BBDO_VERSION_MINOR : Z := 0.
Definition BBDO_VERSION_PATCH : Z := 0.

(** ** Reading a member *)

(** strlen of the text at the start of the buffer. There is no result when the
    buffer holds no NUL: the C function then reads past the buffer, and finds a
    NUL, if any, at or after its end. *)
Definition strlen (l : cstring) : option nat := find_first_if (byte_eqb x00) l.

Definition set_boolean (buf : cstring) : outcome (value * nat) :=
  match buf with
  | [] => Throws Exn_msg
  | c :: _ => Returns (VBool (negb (byte_eqb c x00)), 1%nat)
  end.

Definition set_double (buf : cstring) : outcome (value * nat) :=
  match strlen buf with
  | None => Throws Exn_msg
  | Some len => Returns (VDouble (fst (Dbl.strtod (take len buf))), (len + 1)%nat)
  end.

Definition set_integer (buf : cstring) : outcome (value * nat) :=
  if (length buf <? 4)%nat then Throws Exn_msg
  else Returns (VInt (i32 (be_val (take 4 buf))), 4%nat).

Definition set_short (buf : cstring) : outcome (value * nat) :=
  if (length buf <? 2)%nat then Throws Exn_msg
  else Returns (VShort (i16 (be_val (take 2 buf))), 2%nat).

Definition set_string (buf : cstring) : outcome (value * nat) :=
  match strlen buf with
  | None => Throws Exn_msg
  | Some len => Returns (VString (take len buf), (len + 1)%nat)
  end.

Definition set_timestamp (buf : cstring) : outcome (value * nat) :=
  if (length buf <? 8)%nat then Throws Exn_msg
  else
    let high := be_val (take 4 buf) in
    let low := be_val (take 4 (drop 4 buf)) in
    Returns (VTime (i64 (Z.lor (u64 (Z.shiftl high 32)) low)), 8%nat).

Definition set_uint (buf : cstring) : outcome (value * nat) :=
  if (length buf <? 4)%nat then Throws Exn_msg
  else Returns (VUint (be_val (take 4 buf)), 4%nat).

Definition set_member (t : source_type) (buf : cstring) : outcome (value * nat) :=
  match t with
  | BOOL => set_boolean buf
  | DOUBLE => set_double buf
  | INT => set_integer buf
  | SHORT => set_short buf
  | STRING => set_string buf
  | TIME => set_timestamp buf
  | UINT => set_uint buf
  | UNKNOWN | USHORT | ULONG => Throws Exn_msg
  end.

(** The loop of unserialize: members of entries that are not serialized keep
    the value the constructor gave them. *)
Fixpoint unserialize_members (mapping : list entry) (t : list value) (buf : cstring)
  : outcome (list value) :=
  match mapping, t with
  | e :: mapping', v :: t' =>
    if get_serialize e then
      '(v', rb) ← set_member (get_type e) buf;
      r ← unserialize_members mapping' t' (drop rb buf);
      Returns (v' :: r)
    else
      r ← unserialize_members mapping' t' buf;
      Returns (v :: r)
  | _, _ => Returns t
  end.

Definition unserialize (reg : registry) (event_type source destination : Z) (buf : cstring)
  : outcome (option data) :=
  match get_event_info reg event_type with
  | Some info =>
    match constructor info with
    | Some t =>
      fs ← unserialize_members (get_mapping info) t buf;
      Returns (Some (Data event_type source destination fs))
    | None => Throws Exn_msg
    end
  | None => Returns None
  end.

(** ** Writing a member *)

Definition get_boolean (b : bool) : cstring := [if b then x01 else x00].

(** snprintf in a 32-byte buffer, its NUL included. *)
Definition get_double (d : double) : cstring := take 31 (Dbl.print_f d) ++ [x00].

Definition get_integer (z : Z) : cstring := be_bytes 4 z.
Definition get_short (z : Z) : cstring := be_bytes 2 z.
Definition get_string (s : cstring) : cstring := s ++ [x00].
Definition get_timestamp (z : Z) : cstring :=
  let ts := u64 z in be_bytes 4 (Z.shiftr ts 32) ++ be_bytes 4 (Z.land ts 0xffffffff).
Definition get_uint (z : Z) : cstring := be_bytes 4 z.

(** The writer chosen by the type of the entry. A member is of the type its
    entry says (the constructors of mapping::entry ensure it); another one is
    not possible in the code. *)
Definition get_member (t : source_type) (v : value) : outcome cstring :=
  match t, v with
  | BOOL, VBool b => Returns (get_boolean b)
  | DOUBLE, VDouble d => Returns (get_double d)
  | INT, VInt z => Returns (get_integer z)
  | SHORT, VShort z => Returns (get_short z)
  | STRING, VString s => Returns (get_string s)
  | TIME, VTime z => Returns (get_timestamp z)
  | UINT, VUint z => Returns (get_uint z)
  | _, _ => Throws Exn_msg
  end.

(** ** Packets *)

Definition header_tail (size event_id source dest : Z) : cstring :=
  be_bytes 2 size ++ be_bytes 4 event_id ++ be_bytes 4 source ++ be_bytes 4 dest.

(** A complete header: the CRC of the 14 other bytes comes first. *)
Definition make_header (size event_id source dest : Z) : cstring :=
  let tail := header_tail size event_id source dest in
  be_bytes 2 (Crc.crc16_ccitt tail) ++ tail.

Definition max_packet : nat := Z.to_nat 0xffff.

(** The packet splitting loop: [out] holds the finished packets. *)
Fixpoint split_packets (fuel : nat) (e : data) (out content : cstring) : cstring * cstring :=
  match fuel with
  | O => (out, content)
  | S fuel' =>
    if (max_packet <=? length content)%nat then
      split_packets fuel' e
        (out ++ make_header 0xffff (type e) (source_id e) (destination_id e)
             ++ take max_packet content)
        (drop max_packet content)
    else (out, content)
  end.

Fixpoint serialize_members (mapping : list entry) (e : data) (t : list value)
    (out content : cstring) : outcome (cstring * cstring) :=
  match mapping, t with
  | en :: mapping', v :: t' =>
    content' ← (if get_serialize en then
                  b ← get_member (get_type en) v; Returns (content ++ b)
                else Returns content);
    let '(out', content'') := split_packets (length content') e out content' in
    serialize_members mapping' e t' out' content''
  | _, _ => Returns (out, content)
  end.

Definition serialize (reg : registry) (e : data) : outcome (option cstring) :=
  match get_event_info reg (type e) with
  | Some info =>
    '(out, content) ← serialize_members (get_mapping info) e (fields e) [] [];
    Returns (Some (out ++ make_header (Z.of_nat (length content)) (type e) (source_id e)
                             (destination_id e) ++ content))
  | None => Returns None
  end.

(** ** Reading a header *)

Definition field (pack : cstring) (pos n : nat) : Z := be_val (substr pack pos n).
Definition chksum (pack : cstring) : Z := field pack 0 2.
Definition packet_size (pack : cstring) : Z := field pack 2 2.
Definition event_id (pack : cstring) : Z := field pack 4 4.
Definition header_source (pack : cstring) : Z := field pack 8 4.
Definition header_dest (pack : cstring) : Z := field pack 12 4.
Definition expected (pack : cstring) : Z :=
  Crc.crc16_ccitt (substr pack 2 (BBDO_HEADER_SIZE - 2)).

(** ** The bytes of one member *)

Lemma strlen_app s rest :
  forallb (fun b => negb (byte_eqb x00 b)) s = true -> strlen (s ++ x00 :: rest) = Some (length s).
Proof. intros. unfold strlen. by apply find_first_if_app. Qed.

(** What a member may be for the reader to find the next one: a value of its
    type, and a text without NUL, since the reader stops at the first one. *)
Definition sendable (t : source_type) (v : value) : Prop :=
  match t, v with
  | BOOL, VBool _ | DOUBLE, VDouble _ => True
  | INT, VInt z => - 2 ^ 31 <= z < 2 ^ 31
  | SHORT, VShort z => - 2 ^ 15 <= z < 2 ^ 15
  | STRING, VString s => forallb (fun b => negb (byte_eqb x00 b)) s = true
  | TIME, VTime z => - 2 ^ 63 <= z < 2 ^ 63
  | UINT, VUint z => 0 <= z < 2 ^ 32
  | _, _ => False
  end.

(** What becomes of a double: it is rounded to six decimals; from 10^23 on, the 31
    characters that are sent may not be all its text. *)
Definition arrived_double (d : double) : double :=
  match d with
  | S754_finite _ m e => if Dbl.micros m e <? 10 ^ 29 then Dbl.six_decimals d else fst (Dbl.strtod (take 31 (Dbl.print_f d)))
  | d => d
  end.

Definition arrived (v : value) : value := match v with VDouble d => VDouble (arrived_double d) | v => v end.

(** Members that come back as they are: a double is an integer below 2^53, for
    which six decimals lose nothing. *)
Definition value_ok (t : source_type) (v : value) : Prop :=
  match t, v with
  | BOOL, VBool _ => True
  | DOUBLE, VDouble d => exists z, Z.abs z < 2 ^ 53 /\ d = Dbl.of_Z z
  | INT, VInt z => - 2 ^ 31 <= z < 2 ^ 31
  | SHORT, VShort z => - 2 ^ 15 <= z < 2 ^ 15
  | STRING, VString s => forallb (fun b => negb (byte_eqb x00 b)) s = true
  | TIME, VTime z => - 2 ^ 63 <= z < 2 ^ 63
  | UINT, VUint z => 0 <= z < 2 ^ 32
  | _, _ => False
  end.

Lemma take_be n z rest : take n (be_bytes n z ++ rest) = be_bytes n z.
Proof. rewrite take_app_le by (rewrite length_be_bytes; lia). apply take_ge. by rewrite length_be_bytes. Qed.

Lemma drop_be n z rest : drop n (be_bytes n z ++ rest) = rest.
Proof. rewrite <-(length_be_bytes n z) at 1. apply drop_app_length. Qed.

Lemma be_val_take n z rest : be_val (take n (be_bytes n z ++ rest)) = z mod 2 ^ (8 * Z.of_nat n).
Proof. by rewrite take_be, be_val_be_bytes. Qed.

Lemma not_short n z rest : (length (be_bytes n z ++ rest) <? n)%nat = false.
Proof. rewrite length_app, length_be_bytes. lia. Qed.

Lemma arrived_double_read d : fst (Dbl.strtod (take 31 (Dbl.print_f d))) = arrived_double d.
Proof.
  assert (Hs : (length (Dbl.print_f d) <= 31)%nat -> fst (Dbl.strtod (take 31 (Dbl.print_f d))) = Dbl.six_decimals d).
  { intros H. by rewrite take_ge, Dbl.strtod_print by done. }
  unfold arrived_double. destruct d as [s|s| |s m e]; try (apply Hs; by apply Dbl.length_print).
  destruct (Z.ltb_spec (Dbl.micros m e) (10 ^ 29)); [|done]. apply Hs. by apply Dbl.length_print.
Qed.

Lemma arrived_ok t v : value_ok t v -> sendable t v /\ arrived v = v.
Proof.
  destruct t, v; try done. intros (z & Hz & ->). split; [done|]. cbn [arrived]. f_equal. rewrite Dbl.of_Z_canon by done.
  rewrite <-arrived_double_read, take_ge by (pose proof (Dbl.length_print_f z Hz); lia).
  by rewrite Dbl.strtod_print_f.
Qed.

Lemma double_text_no_nul d : forallb (fun b => negb (byte_eqb x00 b)) (take 31 (Dbl.print_f d)) = true.
Proof.
  pose proof (Dbl.print_no_nul d) as H. rewrite forallb_forall in *. intros x Hx.
  assert (Hn : negb (byte_eqb x x00) = true).
  { apply H. rewrite <-(take_drop 31 (Dbl.print_f d)). apply in_or_app. by left. }
  revert Hn. unfold byte_eqb. rewrite !negb_true_iff, !bool_decide_eq_false. auto.
Qed.

(** Reading what was written, whatever follows in the buffer. *)
Lemma member_arrives t v rest :
  sendable t v ->
  exists b, get_member t v = Returns b
    /\ set_member t (b ++ rest) = Returns (arrived v, length b).
Proof.
  intros Hv. destruct t, v; cbn [sendable] in Hv; try done;
    cbn [get_member arrived]; eexists; (split; [done|]); cbn [set_member].
  - destruct b; done.
  - unfold get_double, set_double. rewrite <-app_assoc. cbn [app]. rewrite strlen_app by apply double_text_no_nul.
    rewrite take_app_length, arrived_double_read, length_app. done.
  - unfold set_integer, get_integer. rewrite not_short, be_val_take.
    rewrite length_be_bytes. change (8 * Z.of_nat 4) with 32. rewrite i32_mod, i32_small by lia. done.
  - unfold set_short, get_short. rewrite not_short, be_val_take.
    rewrite length_be_bytes. change (8 * Z.of_nat 2) with 16. rewrite i16_mod, i16_small by lia. done.
  - unfold set_string, get_string. rewrite <-app_assoc. cbn [app]. rewrite strlen_app by done.
    rewrite take_app_length. rewrite length_app. cbn [length]. done.
  - unfold set_timestamp, get_timestamp. rewrite <-app_assoc.
    rewrite !length_app, !length_be_bytes. rewrite (proj2 (Nat.ltb_ge _ _)) by lia.
    rewrite drop_be, !be_val_take. change (8 * Z.of_nat 4) with 32.
    change 0xffffffff with (Z.ones 32). rewrite Z.land_ones, Z.mod_mod by lia.
    rewrite Z.shiftr_div_pow2 by lia.
    pose proof (Z.mod_pos_bound z (2 ^ 64) ltac:(lia)) as Hu. fold (u64 z) in Hu.
    rewrite (Z.mod_small (u64 z / 2 ^ 32)).
    2:{ split; [apply Z.div_pos; lia|apply Z.div_lt_upper_bound; lia]. }
    rewrite u64_small.
    2:{ rewrite Z.shiftl_mul_pow2 by lia. split; [|].
        - apply Z.mul_nonneg_nonneg; [apply Z.div_pos|]; lia.
        - pose proof (Z.mul_div_le (u64 z) (2 ^ 32)). lia. }
    rewrite lor_shiftl_add; [|lia|apply Z.mod_pos_bound; lia].
    rewrite Z.mul_comm, <-Z.div_mod by lia. unfold u64. rewrite i64_mod, i64_small by lia. done.
  - unfold set_uint, get_uint. rewrite not_short, be_val_take.
    rewrite length_be_bytes. change (8 * Z.of_nat 4) with 32. rewrite Z.mod_small by lia. done.
Qed.

Lemma member_roundtrip t v rest :
  value_ok t v -> exists b, get_member t v = Returns b /\ set_member t (b ++ rest) = Returns (v, length b).
Proof. intros [Hs Ha]%arrived_ok. destruct (member_arrives t v rest Hs) as (b & Hg & Hm). exists b. by rewrite Ha in Hm. Qed.

(** ** Headers *)

Lemma length_make_header size ev src dst : length (make_header size ev src dst) = BBDO_HEADER_SIZE.
Proof. unfold make_header, header_tail. rewrite !length_app, !length_be_bytes. done. Qed.

Lemma substr_middle {A} (a b c : list A) : substr (a ++ b ++ c) (length a) (length b) = b.
Proof. unfold substr. by rewrite drop_app_length, take_app_length. Qed.

Lemma field_be a n z c : field (a ++ be_bytes n z ++ c) (length a) n = z mod 2 ^ (8 * Z.of_nat n).
Proof.
  unfold field. rewrite <-(length_be_bytes n z) at 2. rewrite substr_middle. apply be_val_be_bytes.
Qed.

(** What the reader finds in a header the writer made. *)
Lemma header_fields size ev src dst rest h :
  h = make_header size ev src dst ++ rest ->
  chksum h = expected h /\ packet_size h = size mod 2 ^ 16 /\ event_id h = u32 ev
  /\ header_source h = u32 src /\ header_dest h = u32 dst.
Proof.
  unfold make_header. set (crc := Crc.crc16_ccitt (header_tail size ev src dst)).
  assert (Hc : crc mod 2 ^ 16 = crc) by (apply Z.mod_small, Crc.crc16_ccitt_range).
  unfold header_tail. intros ->. unfold chksum, packet_size, event_id, header_source, header_dest.
  assert (H1 : forall l, field (be_bytes 2 crc ++ l) 0 2 = crc).
  { intros l. rewrite <-Hc at 2. exact (field_be [] 2 crc l). }
  assert (H2 : forall l, length l = 14%nat ->
            expected ((be_bytes 2 crc ++ l) ++ rest) = Crc.crc16_ccitt l).
  { intros l Hl. unfold expected. f_equal. rewrite <-app_assoc.
    rewrite <-(substr_middle (be_bytes 2 crc) l rest) at 2. by rewrite length_be_bytes, Hl. }
  split.
  { rewrite H2 by (rewrite !length_app, !length_be_bytes; done).
    rewrite <-app_assoc. apply H1. }
  repeat split.
  - rewrite <-!app_assoc. exact (field_be (be_bytes 2 crc) 2 size _).
  - rewrite <-!app_assoc, (app_assoc (be_bytes 2 crc)).
    exact (field_be (be_bytes 2 crc ++ be_bytes 2 size) 4 ev _).
  - rewrite <-!app_assoc, (app_assoc (be_bytes 2 crc)), (app_assoc (_ ++ _) (be_bytes 4 ev)).
    exact (field_be ((be_bytes 2 crc ++ be_bytes 2 size) ++ be_bytes 4 ev) 4 src _).
  - rewrite <-!app_assoc, (app_assoc (be_bytes 2 crc)), (app_assoc (_ ++ _) (be_bytes 4 ev)),
      (app_assoc (_ ++ _) (be_bytes 4 src)).
    exact (field_be (((be_bytes 2 crc ++ be_bytes 2 size) ++ be_bytes 4 ev) ++ be_bytes 4 src) 4 dst _).
Qed.

(** ** Framing *)

(** The reference splitting: packets of 65535 bytes and a shorter last one. *)
Fixpoint chunks (fuel : nat) (l : cstring) : list cstring :=
  match fuel with
  | O => [l]
  | S fuel' =>
    if (max_packet <=? length l)%nat then take max_packet l :: chunks fuel' (drop max_packet l)
    else [l]
  end.

Definition packet (e : data) (c : cstring) : cstring :=
  make_header (Z.of_nat (length c)) (type e) (source_id e) (destination_id e) ++ c.

Definition frame (e : data) (content : cstring) : cstring :=
  concat (packet e <$> chunks (length content) content).

Lemma max_packet_Z : Z.of_nat max_packet = 0xffff.
Proof. done. Qed.

#[global] Opaque max_packet.

Lemma max_packet_pos : (0 < max_packet)%nat.
Proof. pose proof max_packet_Z. lia. Qed.

Lemma packet_full e c : (max_packet <= length c)%nat ->
  packet e (take max_packet c)
  = make_header 0xffff (type e) (source_id e) (destination_id e) ++ take max_packet c.
Proof.
  intros. unfold packet. rewrite length_take, Nat.min_l by lia. by rewrite max_packet_Z.
Qed.

Lemma split_packets_frame fuel e out c : (length c <= fuel)%nat ->
  let '(out', c') := split_packets fuel e out c in
  out' ++ packet e c' = out ++ concat (packet e <$> chunks fuel c)
  /\ (length c' < max_packet)%nat /\ (length c' <= length c)%nat.
Proof.
  pose proof max_packet_pos as Hmp.
  revert out c. induction fuel as [|fuel IH]; intros out c Hf; cbn [split_packets chunks].
  - split; [|lia]. cbn. by rewrite app_nil_r.
  - destruct (Nat.leb_spec max_packet (length c)) as [H|H].
    + specialize (IH (out ++ make_header 0xffff (type e) (source_id e) (destination_id e)
                           ++ take max_packet c) (drop max_packet c)).
      destruct (split_packets _ _ _ _) as [o c'].
      destruct IH as (IH & Hl & Hl'); [rewrite length_drop; lia|]. rewrite length_drop in Hl'.
      split; [|lia].
      rewrite IH. cbn [fmap list_fmap concat]. rewrite packet_full by done. by rewrite <-!app_assoc.
    + split; [|lia]. cbn. by rewrite app_nil_r.
Qed.

Lemma split_packets_fuel n m e o l : (length l <= n)%nat -> (length l <= m)%nat ->
  split_packets n e o l = split_packets m e o l.
Proof.
  pose proof max_packet_pos as Hmp. revert m o l.
  induction n as [|n IH]; intros [|m] o l Hn Hm; cbn [split_packets]; try done;
    destruct (Nat.leb_spec max_packet (length l)) as [H|H]; try done; try lia.
  apply IH; rewrite length_drop; lia.
Qed.

Lemma chunks_fuel fuel c : (length c <= fuel)%nat -> chunks fuel c = chunks (length c) c.
Proof.
  pose proof max_packet_pos as Hmp.
  enough (forall n m c, (length c <= n)%nat -> (length c <= m)%nat -> chunks n c = chunks m c) by auto.
  induction n as [|n IH]; intros [|m] l Hn Hm; cbn [chunks]; try done;
    destruct (Nat.leb_spec max_packet (length l)) as [H|H]; try done; try lia.
  f_equal. apply IH; rewrite length_drop; lia.
Qed.

(** Splitting as bytes arrive, or once they are all there: the same. *)
Lemma split_packets_app fuel fuel' e out c b :
  (length c <= fuel)%nat -> (length c + length b <= fuel')%nat ->
  split_packets fuel' e out (c ++ b)
  = let '(out', c') := split_packets fuel e out c in split_packets fuel' e out' (c' ++ b).
Proof.
  pose proof max_packet_pos as Hmp.
  revert fuel' out c. induction fuel as [|fuel IH]; intros fuel' out c Hc Hf.
  { destruct c; [done|cbn in Hc; lia]. }
  cbn [split_packets]. destruct (Nat.leb_spec max_packet (length c)) as [H|H]; [|done].
  destruct fuel' as [|fuel']; [lia|].
  rewrite (split_packets_fuel (S fuel') (S (S fuel'))) by (rewrite length_app; lia).
  remember (S fuel') as m. cbn [split_packets].
  rewrite (proj2 (Nat.leb_le _ _)) by (rewrite length_app; lia).
  rewrite take_app_le, drop_app_le by lia. apply IH; rewrite length_drop; lia.
Qed.

(** The serialized members, one after the other. *)
Fixpoint members_bytes (mapping : list entry) (t : list value) : outcome cstring :=
  match mapping, t with
  | en :: mapping', v :: t' =>
    b ← (if get_serialize en then get_member (get_type en) v else Returns []);
    r ← members_bytes mapping' t';
    Returns (b ++ r)
  | _, _ => Returns []
  end.

Lemma serialize_members_split mapping e t out content bytes :
  (length content < max_packet)%nat -> members_bytes mapping t = Returns bytes ->
  serialize_members mapping e t out content
  = Returns (split_packets (length content + length bytes) e out (content ++ bytes)).
Proof.
  revert t out content bytes.
  induction mapping as [|en mapping IH]; intros t out content bytes Hc Hb.
  { cbn in Hb. simplify_eq. rewrite app_nil_r. cbn [serialize_members length].
    rewrite Nat.add_0_r. destruct (length content) eqn:E; cbn [split_packets]; [done|].
    by rewrite E, (proj2 (Nat.leb_gt _ _)) by lia. }
  destruct t as [|v t].
  { cbn in Hb. simplify_eq. rewrite app_nil_r. cbn [serialize_members length].
    rewrite Nat.add_0_r. destruct (length content) eqn:E; cbn [split_packets]; [done|].
    by rewrite E, (proj2 (Nat.leb_gt _ _)) by lia. }
  cbn [members_bytes] in Hb. apply bind_Returns in Hb as (b & Eb & Hb).
  apply bind_Returns in Hb as (r & Er & Hb). simplify_eq.
  assert (Hcont : (if get_serialize en then b ← get_member (get_type en) v; Returns (content ++ b)
            else Returns content) = Returns (content ++ b)).
  { destruct (get_serialize en); [by rewrite Eb|]. simplify_eq. by rewrite app_nil_r. }
  cbn [serialize_members]. rewrite Hcont. cbn [mbind outcome_bind].
  pose proof (split_packets_frame (length (content ++ b)) e out (content ++ b) ltac:(lia)) as Hs.
  rewrite app_assoc.
  rewrite (split_packets_app (length (content ++ b)) _ e out (content ++ b) r)
    by (rewrite ?length_app; lia).
  destruct (split_packets (length (content ++ b)) e out (content ++ b)) as [o c].
  destruct Hs as (_ & Hl & Hl'). rewrite (IH _ _ _ r) by done. f_equal.
  apply split_packets_fuel; rewrite ?length_app in *; lia.
Qed.

(** The wire form of an event: the serialized members in their order, cut in
    packets that share the event's identification. *)
Lemma serialize_frame reg e info bytes :
  get_event_info reg (type e) = Some info ->
  members_bytes (get_mapping info) (fields e) = Returns bytes ->
  serialize reg e = Returns (Some (frame e bytes)).
Proof.
  intros Hi Hb. unfold serialize. rewrite Hi.
  rewrite (serialize_members_split _ _ _ _ _ bytes) by (exact max_packet_pos || exact Hb).
  cbn [mbind outcome_bind app length Nat.add].
  pose proof (split_packets_frame (length bytes) e [] bytes ltac:(lia)) as Hs.
  destruct (split_packets _ _ _ _) as [o c]. destruct Hs as [Hs _].
  do 2 f_equal. exact Hs.
Qed.

Lemma concat_chunks fuel c : concat (chunks fuel c) = c.
Proof.
  revert c. induction fuel as [|fuel IH]; intros c; cbn [chunks]; [cbn; by rewrite app_nil_r|].
  case_if; cbn [concat]; [|by rewrite app_nil_r]. rewrite IH. apply take_drop.
Qed.

(** ** Whole events *)

(** The members an event of this mapping may have: serialized ones are values
    of their type, the others are as the constructor left them. *)
Fixpoint members_ok (mapping : list entry) (t0 t : list value) : Prop :=
  match mapping, t0, t with
  | [], [], [] => True
  | e :: mapping', v0 :: t0', v :: t' =>
    (if get_serialize e then value_ok (get_type e) v else v = v0) /\ members_ok mapping' t0' t'
  | _, _, _ => False
  end.

Definition is_u32 (z : Z) : Prop := 0 <= z < 2 ^ 32.

(** An event of the registry, with members in range. *)
Definition event_ok (reg : registry) (e : data) : Prop :=
  is_u32 (type e) /\ is_u32 (source_id e) /\ is_u32 (destination_id e)
  /\ exists info t0, get_event_info reg (type e) = Some info
       /\ constructor info = Some t0 /\ members_ok (get_mapping info) t0 (fields e).

(** An event with members of their types. *)
Definition members_sendable (mapping : list entry) (t : list value) : Prop :=
  Forall2 (fun e v => get_serialize e = true -> sendable (get_type e) v) mapping t.

(** The members of the event that is rebuilt. *)
Fixpoint received (mapping : list entry) (t0 t : list value) : list value :=
  match mapping, t0, t with
  | e :: mapping, v0 :: t0, v :: t => (if get_serialize e then arrived v else v0) :: received mapping t0 t
  | _, _, _ => []
  end.

Lemma members_arrive mapping t0 t rest : length t0 = length mapping -> members_sendable mapping t ->
  exists bytes, members_bytes mapping t = Returns bytes
    /\ unserialize_members mapping t0 (bytes ++ rest) = Returns (received mapping t0 t).
Proof.
  intros Hl H. revert t0 Hl. induction H as [|e v mapping t Hv H IH]; intros [|v0 t0] Hl; try done.
  { by exists []. }
  destruct (IH t0) as (bytes & Hb & Hu); [cbn in Hl; lia|].
  cbn [members_bytes unserialize_members received]. rewrite Hb. destruct (get_serialize e).
  - destruct (member_arrives (get_type e) v (bytes ++ rest) (Hv eq_refl)) as (b & Hg & Hs).
    rewrite Hg. cbn [mbind outcome_bind]. exists (b ++ bytes). split; [done|].
    rewrite <-app_assoc, Hs. cbn [mbind outcome_bind].
    rewrite drop_app_length, Hu. done.
  - exists bytes. cbn [mbind outcome_bind app]. split; [done|]. by rewrite Hu.
Qed.

Lemma members_ok_received mapping t0 t : members_ok mapping t0 t ->
  length t0 = length mapping /\ members_sendable mapping t /\ received mapping t0 t = t.
Proof.
  revert t0 t. induction mapping as [|e mapping IH]; intros [|v0 t0] [|v t] H; cbn in H; try done.
  { split; [done|]. split; [constructor|done]. }
  destruct H as [Hv H]. apply IH in H as (Hl & Hs & Hr). cbn [length received]. rewrite Hl, Hr. split; [done|].
  destruct (get_serialize e) eqn:E.
  - apply arrived_ok in Hv as [Hv Ha]. rewrite Ha. split; [|done]. by constructor.
  - rewrite Hv. split; [|done]. constructor; [congruence|done].
Qed.

Lemma members_roundtrip mapping t0 t rest :
  members_ok mapping t0 t ->
  exists bytes, members_bytes mapping t = Returns bytes
    /\ unserialize_members mapping t0 (bytes ++ rest) = Returns t.
Proof.
  intros (Hl & Hs & Hr)%members_ok_received. destruct (members_arrive mapping t0 t rest Hl Hs) as (bytes & Hb & Hu).
  exists bytes. by rewrite Hr in Hu.
Qed.

Lemma strlen_take n s :
  forallb (fun b => negb (byte_eqb x00 b)) s = true -> (n <= length s)%nat ->
  strlen (take n (s ++ [x00])) = None.
Proof.
  intros H Hn. rewrite take_app_le by done. apply find_first_if_None.
  rewrite forallb_forall in *. intros x Hx. apply H.
  apply list_elem_of_In. apply list_elem_of_In in Hx. by eapply elem_of_take in Hx as (?&?&?);
  eapply list_elem_of_lookup_2.
Qed.

(** A member whose bytes are cut short is refused. *)
Lemma member_truncated t v b n :
  value_ok t v -> get_member t v = Returns b -> (n < length b)%nat ->
  set_member t (take n b) = Throws Exn_msg.
Proof.
  intros Hv Hg Hn.
  assert (Hs : forall s, b = s ++ [x00] -> forallb (fun b => negb (byte_eqb x00 b)) s = true ->
            strlen (take n b) = None).
  { intros s -> Hs. apply strlen_take; [done|]. rewrite length_app in Hn. cbn in Hn. lia. }
  assert (Hl : length (take n b) = n) by (rewrite length_take; lia).
  destruct t, v; cbn [value_ok get_member] in *; try done; simplify_eq;
    unfold get_integer, get_short, get_timestamp, get_uint in Hn;
    rewrite ?length_app, ?length_be_bytes in Hn;
    cbn [set_member]; unfold set_integer, set_short, set_timestamp, set_uint, set_double, set_string.
  - cbn in Hn. by assert (n = 0%nat) as -> by lia.
  - destruct Hv as (z & Hz & ->). rewrite Dbl.of_Z_canon in * by done. unfold get_double in *.
    rewrite (take_ge (Dbl.print_f _)) in * by (pose proof (Dbl.length_print_f z Hz); lia).
    rewrite (Hs _ eq_refl); [done|]. pose proof (Dbl.print_f_no_nul z Hz) as Hp.
    rewrite forallb_forall in *. intros x Hx. apply Hp in Hx. revert Hx. unfold byte_eqb.
    rewrite !negb_true_iff, !bool_decide_eq_false. auto.
  - rewrite Hl, (proj2 (Nat.ltb_lt _ _)) by lia. done.
  - rewrite Hl, (proj2 (Nat.ltb_lt _ _)) by lia. done.
  - by rewrite (Hs _ eq_refl).
  - rewrite Hl, (proj2 (Nat.ltb_lt _ _)) by lia. done.
  - rewrite Hl, (proj2 (Nat.ltb_lt _ _)) by lia. done.
Qed.

Lemma members_truncated mapping t0 t bytes n :
  members_ok mapping t0 t -> members_bytes mapping t = Returns bytes -> (n < length bytes)%nat ->
  unserialize_members mapping t0 (take n bytes) = Throws Exn_msg.
Proof.
  revert t0 t bytes n.
  induction mapping as [|e mapping IH]; intros [|v0 t0] [|v t] bytes n H Hb Hn; cbn in H; try done.
  { cbn in Hb. simplify_eq. cbn in Hn. lia. }
  destruct H as [Hv H]. cbn [members_bytes unserialize_members] in *.
  apply bind_Returns in Hb as (b & Eb & Hb). apply bind_Returns in Hb as (r & Er & Hb). simplify_eq.
  destruct (get_serialize e).
  - destruct (decide (n < length b)%nat) as [Hlt|Hge].
    + rewrite take_app_le by lia. by rewrite (member_truncated _ _ _ _ Hv Eb Hlt).
    + rewrite take_app_ge by lia.
      destruct (member_roundtrip (get_type e) v (take (n - length b) r) Hv) as (b' & Hg & Hs).
      rewrite Eb in Hg. simplify_eq. rewrite Hs. cbn [mbind outcome_bind]. rewrite drop_app_length.
      rewrite (IH t0 t r) by (done || (rewrite length_app in Hn; lia)). done.
  - simplify_eq. cbn [app length] in *. by rewrite (IH t0 t r).
Qed.

(** What comes of an event. *)
Definition received_event (e : data) (info : event_info) (t0 : list value) : data :=
  Data (type e) (source_id e) (destination_id e) (received (get_mapping info) t0 (fields e)).

(** C12. An event of a registered type, its members of their types and its texts
    without NUL, crosses the wire: serialize writes its framed members, and
    unserialize rebuilds from them the event with its doubles rounded to six
    decimals (those from 10^23 on read from the first 31 characters of their text)
    and, for the members that are not serialized, the values of a new event. It is
    the same event when its doubles are integers below 2^53 and it has the values of
    a new event where nothing is sent. *)
Theorem event_roundtrip reg e info t0 :
  get_event_info reg (type e) = Some info -> constructor info = Some t0 -> length t0 = length (get_mapping info) ->
  members_sendable (get_mapping info) (fields e) ->
  (exists bytes, serialize reg e = Returns (Some (frame e bytes))
    /\ unserialize reg (type e) (source_id e) (destination_id e) bytes = Returns (Some (received_event e info t0)))
  /\ (event_ok reg e -> received_event e info t0 = e).
Proof.
  intros Hi Hc Hl Hm. split.
  - destruct (members_arrive _ _ _ [] Hl Hm) as (bytes & Hb & Hu). rewrite app_nil_r in Hu.
    exists bytes. split; [by eapply serialize_frame|]. unfold unserialize. by rewrite Hi, Hc, Hu.
  - intros (_ & _ & _ & info' & t0' & Hi' & Hc' & Hok). simplify_eq.
    apply members_ok_received in Hok as (_ & _ & Hr). unfold received_event. rewrite Hr. by destruct e.
Qed.

(** A double of 41 digits arrives as one of 31. *)
Example large_double_cut : exists m e, Dbl.of_Z (10 ^ 40) = S754_finite false m e
  /\ Dbl.ltb (arrived_double (Dbl.of_Z (10 ^ 40))) (Dbl.of_Z (10 ^ 31)) = true.
Proof. do 2 eexists. split; vm_compute; reflexivity. Qed.

(** A content cut anywhere before its end is never decoded into an event:
    unserialize reports it. *)
Theorem unserialize_truncated reg e info bytes n :
  event_ok reg e -> get_event_info reg (type e) = Some info ->
  members_bytes (get_mapping info) (fields e) = Returns bytes -> (n < length bytes)%nat ->
  unserialize reg (type e) (source_id e) (destination_id e) (take n bytes) = Throws Exn_msg.
Proof.
  intros (_ & _ & _ & info' & t0 & Hi & Hc & Hm) Hi' Hb Hn. simplify_eq.
  unfold unserialize. rewrite Hi, Hc. by rewrite (members_truncated _ _ _ _ _ Hm Hb Hn).
Qed.

(** ** The two control events (ack.cc, version_response.cc) *)

Definition de_version_response : Z := 1.
Definition de_ack : Z := 2.
Definition version_response_type : Z := make_type bbdo de_version_response.
Definition ack_type : Z := make_type bbdo de_ack.

Definition version_response_info : event_info :=
  Event_info (str "version_response")
    (Some [VShort BBDO_VERSION_MAJOR; VShort BBDO_VERSION_MINOR; VShort BBDO_VERSION_PATCH; VString []])
    [mapped SHORT "major" always_valid; mapped SHORT "minor" always_valid; mapped SHORT "patch" always_valid;
     mapped_string "extensions" 0 always_valid] [].

Definition ack_info : event_info :=
  Event_info (str "ack") (Some [VUint 0]) [mapped UINT "acknowledged_events" always_valid] [].

Definition new_version_response (extensions : cstring) : data :=
  Data version_response_type 0 0
    [VShort BBDO_VERSION_MAJOR; VShort BBDO_VERSION_MINOR; VShort BBDO_VERSION_PATCH;
     VString extensions].

Definition new_ack (acknowledged_events : Z) : data :=
  Data ack_type 0 0 [VUint acknowledged_events].

(** bbdo::load(). *)
Definition load (fuel : nat) (r : registry) : outcome registry :=
  '(r, bbdo_category) ← register_category fuel r (str "bbdo") bbdo;
  if negb (bbdo_category =? bbdo) then Throws Exn_msg
  else
    '(r, _) ← register_event r bbdo de_version_response version_response_info;
    '(r, _) ← register_event r bbdo de_ack ack_info;
    Returns r.

(** A registry in which the BBDO protocol was loaded. *)
Definition bbdo_loaded (r : registry) : Prop :=
  get_event_info r version_response_type = Some version_response_info
  /\ get_event_info r ack_type = Some ack_info.

Definition base_registry : registry :=
  match load 2 Events.load with Returns r => r | _ => ∅ end.

Lemma load_loaded r r' fuel : load fuel r = Returns r' -> bbdo_loaded r'.
Proof.
  unfold load. intros H. apply bind_Returns in H as ([r1 id] & E1 & H).
  destruct (negb (id =? bbdo)) eqn:Eid; [done|]. zbool. subst id.
  unfold register_category in E1. apply bind_Returns in E1 as (i & _ & E1). simplify_eq.
  unfold register_event in H. rewrite lookup_insert_eq in H. cbn [mbind outcome_bind] in H.
  rewrite lookup_insert_eq in H. cbn [mbind outcome_bind Events.events] in H. simplify_eq.
  split; reflexivity || (unfold get_event_info; cbn; by rewrite !lookup_insert_eq).
Qed.

(** An event with a fraction. *)
Definition demo_info : event_info :=
  Event_info (str "level") (Some [VUint 0; VDouble (Dbl.of_Z 0)])
    [mapped UINT "id" always_valid; mapped DOUBLE "level" always_valid] [].
Definition demo_levels : registry := {[1 := Category_info (str "demo") {[make_type 1 2 := demo_info]}]}.
Definition demo_level : data := Data (make_type 1 2) 0 0 [VUint 7; VDouble (Dbl.of_ratio false 1 3)].

Lemma event_roundtrip_witness :
  (exists bytes, serialize demo_levels demo_level = Returns (Some (frame demo_level bytes))
    /\ unserialize demo_levels (make_type 1 2) 0 0 bytes
       = Returns (Some (Data (make_type 1 2) 0 0 [VUint 7; VDouble (Dbl.of_ratio false 333333 1000000)])))
  /\ (event_ok demo_levels demo_level ->
      received_event demo_level demo_info [VUint 0; VDouble (Dbl.of_Z 0)] = demo_level).
Proof.
  apply (event_roundtrip demo_levels demo_level demo_info [VUint 0; VDouble (Dbl.of_Z 0)]); try reflexivity.
  repeat constructor; done.
Defined.

Lemma unserialize_truncated_witness :
  unserialize base_registry ack_type 0 0 (take 3 (be_bytes 4 1000)) = Throws Exn_msg.
Proof.
  apply (unserialize_truncated base_registry (new_ack 1000) ack_info (be_bytes 4 1000) 3);
    [|reflexivity|reflexivity|apply Nat.ltb_lt; reflexivity].
  repeat split; try done. exists ack_info. eexists. repeat split; cbn; lia || done.
Defined.
End Bbdo.
