(* ===== verification/Transport.v ===== *)
(** * Layers of streams (core/inc/com/centreon/broker/io/stream.hh)

    What a stream promises to the layer above it: [Substream], the operations;
    [Layered], the chain that negotiation changes; [RecordQueue], the laws of the
    streams that keep what is written to them, as files do. *)

From Stdlib Require Import ZArith Lia ZifyNat ZifyBool Strings.Byte.
From stdpp Require Import base option list numbers.
From S2P Require Import Prelude.

Module Transport.

(** What io::stream::read may hand over: raw bytes or another event. *)
Inductive received : Type :=
  | Raw (bytes : cstring)
  | Other_data.

(** io::stream, as a layer uses the stream below it: reading (true when the
    deadline was not reached), writing, flushing. *)
Class Substream (S : Type) : Type := {
  sub_read : S -> Z -> S * outcome (bool * option received);
  sub_write : S -> cstring -> S * outcome unit;
  sub_flush : S -> S * outcome unit
}.

(** The chain of layers (get_name of each) that negotiation adds to or removes
    from. *)
Class Layered (S : Type) : Type := {
  sub_names : S -> list cstring;
  (** A new stream of that protocol over this one (endpntfactry->new_stream). *)
  sub_wrap : S -> bool -> cstring -> S * outcome unit;
  (** This chain without its [n]-th layer. *)
  sub_unwrap : S -> nat -> S
}.

(** What is written is kept in segments of whole records. *)
Definition segment := list cstring.

Definition bytes_in (seg : segment) : cstring := concat seg.

(** A write joins the last segment or starts another one. *)
Definition extended (segs segs' : list segment) (b : cstring) : Prop :=
  segs' = segs ++ [[b]] \/ exists init seg, segs = init ++ [seg] /\ segs' = init ++ [seg ++ [b]].

Lemma bytes_in_snoc seg b : bytes_in (seg ++ [b]) = bytes_in seg ++ b.
Proof. unfold bytes_in. rewrite concat_app. cbn. by rewrite app_nil_r. Qed.

Lemma bytes_in_single b : bytes_in [b] = b.
Proof. apply app_nil_r. Qed.

(** The first segment only grows. *)
Lemma extended_first cur rest segs' b :
  extended (cur :: rest) segs' b ->
  exists cur' rest', segs' = cur' :: rest' /\ (cur' = cur \/ cur' = cur ++ [b] /\ rest = [] /\ rest' = []).
Proof.
  intros [->|(init & seg & E & ->)]; [by eexists _, _; split; [|left]|].
  destruct init as [|x init]; cbn in *; injection E as -> ->.
  - eexists _, _. split; [done|]. by right.
  - eexists _, _. split; [done|]. by left.
Qed.

(** The largest chunk such a stream hands over. *)
Definition chunk_limit : Z := 8192.

(** An upper bound of the bytes that can still be read: enough turns for the
    loops that read a stream. *)
Class Sized (S : Type) : Type := remaining : S -> nat.

(** A stream that gives back what was written, in order, by chunks that never
    span two segments. [located s off cur rest]: [off] bytes of the segment
    [cur] were read, and the segments [rest] follow. A segment is forgotten
    when the next one is reached; the others are read again, from the
    beginning of the first one, by a stream opened in its place. *)
Class RecordQueue (S : Type) `{!Substream S} `{!Sized S} : Type := {
  located : S -> nat -> segment -> list segment -> Prop;
  ended : S -> Prop;
  (** How many segments can still be added. *)
  space : S -> nat;
  located_offset s off cur rest : located s off cur rest -> (off <= length (bytes_in cur))%nat;
  remaining_enough s off cur rest : located s off cur rest ->
    (length (bytes_in cur) - off + length (concat (bytes_in <$> rest)) <= remaining s)%nat;
  read_here s off cur rest dl : located s off cur rest -> (off < length (bytes_in cur))%nat ->
    exists s' c, sub_read s dl = (s', Returns (true, Some (Raw c)))
      /\ c <> [] /\ Z.of_nat (length c) <= chunk_limit
      /\ (exists tail, drop off (bytes_in cur) = c ++ tail) /\ located s' (off + length c) cur rest;
  read_next s cur next rest dl : located s (length (bytes_in cur)) cur (next :: rest) ->
    exists s', located s' 0 next rest /\ (remaining s' <= remaining s)%nat /\ sub_read s dl = sub_read s' dl;
  read_over s cur dl : located s (length (bytes_in cur)) cur [] ->
    exists s', sub_read s dl = (s', Throws Exn_shutdown) /\ ended s';
  write_last s off cur rest b : located s off cur rest -> Z.of_nat (length b) < 2 ^ 32 ->
    exists s' cur' rest', sub_write s b = (s', Returns tt) /\ located s' off cur' rest'
      /\ extended (cur :: rest) (cur' :: rest') b /\ (space s <= Datatypes.S (space s'))%nat
}.

End Transport.
