(* ===== verification/BbdoStream.v ===== *)
(** * The BBDO stream (core/src/bbdo/stream.cc, inc bbdo/stream.hh)

    The stateful half of the protocol: reassembly of packets from whatever
    chunks the transport delivers, resynchronisation after corruption,
    filtering of control events, acknowledgements and extension negotiation.
    The transport is any implementation of the [Substream] interface; [Script]
    is the one the theorems on delivery are stated with. *)

From Stdlib Require Import ZArith Lia ZifyNat ZifyBool Strings.Byte.
From stdpp Require Import base option list numbers strings gmap.
From S2P Require Import Prelude Misc MiscString Double Events Bbdo Transport.

Module BbdoStream.
Import Events Bbdo Transport.

(** stream::buffer: the parts of a large event received so far. *)
Record buffer : Type := Buffer {
  _event_id : Z;
  _source_id : Z;
  _dest_id : Z;
  _buf : list cstring
}.

Definition matches (b : buffer) (event_id source_id dest_id : Z) : bool :=
  (event_id =? _event_id b) && (source_id =? _source_id b) && (dest_id =? _dest_id b).

Definition to_vector (b : buffer) : cstring := concat (_buf b).

Definition push_back (b : buffer) (v : cstring) : buffer :=
  Buffer (_event_id b) (_source_id b) (_dest_id b) (_buf b ++ [v]).

Inductive negotiation_type : Type := negotiate_first | negotiate_second | negotiated_already.

#[global] Instance negotiation_type_eq_dec : EqDecision negotiation_type.
Proof. solve_decision. Defined.

Record stream (S : Type) : Type := Stream {
  _packet : cstring;
  _buffer : list buffer;
  _skipped : Z;
  _coarse : bool;
  _extensions : cstring * cstring;
  _negotiate : bool;
  _negotiated : bool;
  _timeout : Z;
  _acknowledged_events : Z;
  _ack_limit : Z;
  _events_received_since_last_ack : Z;
  _substream : S
}.
Arguments Stream {S}.
Arguments _packet {S}. Arguments _buffer {S}. Arguments _skipped {S}. Arguments _coarse {S}.
Arguments _extensions {S}. Arguments _negotiate {S}. Arguments _negotiated {S}.
Arguments _timeout {S}. Arguments _acknowledged_events {S}. Arguments _ack_limit {S}.
Arguments _events_received_since_last_ack {S}. Arguments _substream {S}.

Section Stream.
Context {S : Type} `{!Substream S}.
Implicit Types st : stream S.

(** The constructor, over a given substream. *)
Definition new_stream (s : S) : stream S :=
  Stream [] [] 0 false ([], []) true false 5 0 1000 0 s.

Definition with_packet st p := let 'Stream _ a b c d e f g h i j k := st in Stream p a b c d e f g h i j k.
Definition with_buffer st p := let 'Stream a _ b c d e f g h i j k := st in Stream a p b c d e f g h i j k.
Definition with_skipped st p := let 'Stream a b _ c d e f g h i j k := st in Stream a b p c d e f g h i j k.
Definition set_coarse st p := let 'Stream a b c _ d e f g h i j k := st in Stream a b c p d e f g h i j k.
Definition set_negotiate st (negotiate : bool) (extensions : cstring * cstring) :=
  let 'Stream a b c d _ _ e f g h i j := st in Stream a b c d extensions negotiate e f g h i j.
Definition with_negotiated st p := let 'Stream a b c d e f _ g h i j k := st in Stream a b c d e f p g h i j k.
Definition set_timeout st p := let 'Stream a b c d e f g _ h i j k := st in Stream a b c d e f g p h i j k.
Definition with_acknowledged st p := let 'Stream a b c d e f g h _ i j k := st in Stream a b c d e f g h p i j k.
Definition set_ack_limit st p := let 'Stream a b c d e f g h i _ j k := st in Stream a b c d e f g h i p j k.
Definition with_received st p := let 'Stream a b c d e f g h i j _ k := st in Stream a b c d e f g h i j p k.
Definition with_substream st (p : S) : stream S := let 'Stream a b c d e f g h i j k _ := st in Stream a b c d e f g h i j k p.

Variable reg : registry.
(** io::protocols: the names of the registered protocols. *)
Variable protocols : list cstring.
(** time(nullptr). *)
Variable now : Z.

(** ** Reading *)

Fixpoint _read_packet (fuel : nat) (size : nat) (deadline : Z) st : stream S * outcome unit :=
  if (size <=? length (_packet st))%nat then (st, Returns tt)
  else match fuel with
  | O => (st, Diverges)
  | Datatypes.S fuel' =>
    match sub_read (_substream st) deadline with
    | (s, Returns (in_time, d)) =>
      let st := with_substream st s in
      let st := match d with
                | Some (Raw new_v) => with_packet st (_packet st ++ new_v)
                | _ => st
                end in
      if in_time then _read_packet fuel' size deadline st else (st, Throws Exn_timeout)
    | (s, Throws e) => (with_substream st s, Throws e)
    | (s, Diverges) => (with_substream st s, Diverges)
    end
  end.

(** The first buffer that matches: what it holds, and the list without it. *)
Fixpoint take_buffer (bs : list buffer) (ev src dst : Z) : option (buffer * list buffer) :=
  match bs with
  | [] => None
  | b :: bs' =>
    if matches b ev src dst then Some (b, bs')
    else (fun '(r, rest) => (r, b :: rest)) <$> take_buffer bs' ev src dst
  end.

(** Append to the first buffer that matches. *)
Fixpoint push_buffer (bs : list buffer) (ev src dst : Z) (v : cstring) : option (list buffer) :=
  match bs with
  | [] => None
  | b :: bs' =>
    if matches b ev src dst then Some (push_back b v :: bs')
    else (cons b) <$> push_buffer bs' ev src dst v
  end.

(** while (_buffer.size() > n) _buffer.pop_front(). *)
Definition purge (n : nat) (bs : list buffer) : list buffer := drop (length bs - n) bs.

(** One turn of the loop of _read_any: None to go round again. *)
Definition read_any_step (fuel : nat) (deadline : Z) st : stream S * outcome (option (option data)) :=
  match _read_packet fuel BBDO_HEADER_SIZE deadline st with
  | (st, Throws e) => (st, Throws e)
  | (st, Diverges) => (st, Diverges)
  | (st, Returns _) =>
    let pack := _packet st in
    let size := Z.to_nat (packet_size pack) in
    let ev := event_id pack in
    let src := header_source pack in
    let dst := header_dest pack in
    if negb (expected pack =? chksum pack) then
      (with_packet (with_skipped st (i32 (_skipped st + 1))) (drop 1 pack), Returns None)
    else
      let st := if negb (_skipped st =? 0) then with_skipped st 0 else st in
      match _read_packet fuel (BBDO_HEADER_SIZE + size) deadline st with
      | (st, Throws e) => (st, Throws e)
      | (st, Diverges) => (st, Diverges)
      | (st, Returns _) =>
        let content := substr (_packet st) BBDO_HEADER_SIZE size in
        let st := with_packet st (drop (BBDO_HEADER_SIZE + size) (_packet st)) in
        if negb (Z.of_nat size =? 0xffff) then
          let '(content, bs) :=
            match take_buffer (_buffer st) ev src dst with
            | Some (b, bs) => (to_vector (push_back b content), bs)
            | None => (content, _buffer st)
            end in
          let st := with_buffer st (purge 3 bs) in
          (st, d ← unserialize reg ev src dst content; Returns (Some d))
        else
          let bs :=
            match push_buffer (_buffer st) ev src dst content with
            | Some bs => bs
            | None => _buffer st ++ [Buffer ev src dst [content]]
            end in
          (with_buffer st (purge 4 bs), Returns None)
      end
  end.

Fixpoint read_any_loop (fuel rounds : nat) (deadline : Z) st : stream S * outcome (option data) :=
  match rounds with
  | O => (st, Diverges)
  | Datatypes.S rounds' =>
    match read_any_step fuel deadline st with
    | (st, Returns None) => read_any_loop fuel rounds' deadline st
    | (st, Returns (Some d)) => (st, Returns d)
    | (st, Throws e) => (st, Throws e)
    | (st, Diverges) => (st, Diverges)
    end
  end.

(** The result is the returned boolean with what [d] was set to. *)
Definition _read_any (fuel : nat) (deadline : Z) st : stream S * outcome (bool * option data) :=
  match read_any_loop fuel fuel deadline st with
  | (st, Returns d) => (st, Returns (true, d))
  | (st, Throws Exn_timeout) => (st, Returns (false, None))
  | (st, Throws e) => (st, Throws e)
  | (st, Diverges) => (st, Diverges)
  end.

(** ** Writing and acknowledgements *)

Definition _write st (d : data) : stream S * outcome unit :=
  match serialize reg d with
  | Returns (Some serialized) =>
    let '(s, r) := sub_write (_substream st) serialized in (with_substream st s, r)
  | Returns None => (st, Returns tt)
  | Throws e => (st, Throws e)
  | Diverges => (st, Diverges)
  end.

Definition write st (d : data) : stream S * outcome Z :=
  match _write st d with
  | (st, Returns _) =>
    let retval := i32 (_acknowledged_events st) in
    (with_acknowledged st (u32 (_acknowledged_events st - retval)), Returns retval)
  | (st, Throws e) => (st, Throws e)
  | (st, Diverges) => (st, Diverges)
  end.

Definition flush st : stream S * outcome Z :=
  match sub_flush (_substream st) with
  | (s, Returns _) =>
    (with_acknowledged (with_substream st s) 0, Returns (i32 (_acknowledged_events st)))
  | (s, Throws e) => (with_substream st s, Throws e)
  | (s, Diverges) => (with_substream st s, Diverges)
  end.

Definition acknowledge_events st (events : Z) : stream S :=
  with_acknowledged st (u32 (_acknowledged_events st + events)).

Definition send_event_acknowledgement st : stream S * outcome unit :=
  if _coarse st then (st, Returns tt)
  else
    match _write st (new_ack (_events_received_since_last_ack st)) with
    | (st, Returns _) => (with_received st 0, Returns tt)
    | r => r
    end.

(** ** read *)

Definition bbdo_major (d : data) : Z :=
  match fields d with VShort m :: _ => m | _ => 0 end.
Definition peer_extensions (d : data) : cstring :=
  match fields d with [_; _; _; VString s] => s | _ => [] end.
Definition acked (d : data) : Z :=
  match fields d with VUint n :: _ => n | _ => 0 end.

Definition type_of (d : option data) : Z := match d with Some d => type d | None => 0 end.

(** The effect of a control event. *)
Definition control st (d : data) : stream S * outcome unit :=
  if Z.land (type d) 0xffff =? 1 then
    if negb (bbdo_major d =? BBDO_VERSION_MAJOR) then (st, Throws Exn_msg) else (st, Returns tt)
  else if Z.land (type d) 0xffff =? 2 then (acknowledge_events st (acked d), Returns tt)
  else (st, Returns tt).

Fixpoint read_loop (fuel rounds : nat) (deadline : Z) st : stream S * outcome (bool * option data) :=
  match rounds with
  | O => (st, Diverges)
  | Datatypes.S rounds' =>
    match _read_any fuel deadline st with
    | (st, Returns (true, Some d)) =>
      if Z.shiftr (type d) 16 =? bbdo then
        match control st d with
        | (st, Returns _) => read_loop fuel rounds' deadline st
        | (st, Throws e) => (st, Throws e)
        | (st, Diverges) => (st, Diverges)
        end
      else (st, Returns (true, Some d))
    | r => r
    end
  end.

Definition read (fuel : nat) (deadline : Z) st : stream S * outcome (bool * option data) :=
  match read_loop fuel fuel deadline st with
  | (st, Returns (in_time, d)) =>
    let st := match in_time, d with
              | true, Some _ => with_received st (u32 (_events_received_since_last_ack st + 1))
              | _, _ => st
              end in
    if _ack_limit st <=? _events_received_since_last_ack st then
      match send_event_acknowledgement st with
      | (st, Returns _) => (st, Returns (in_time, d))
      | (st, Throws e) => (st, Throws e)
      | (st, Diverges) => (st, Diverges)
      end
    else (st, Returns (in_time, d))
  | r => r
  end.

(** ** Negotiation *)

Context `{!Layered S}.

Definition get_running_config st : list cstring := sub_names (_substream st).

Definition mem (x : cstring) (l : list cstring) : bool := bool_decide (x ∈ l).

(** One extension of the list: apply it, drop it or leave it. Looking for a
    layer that an earlier turn of the loop already removed, the code runs past
    the end of the chain (a null pointer): there is no result. *)
Definition negotiate_extension (neg : negotiation_type) (peer_ext running_config : list cstring)
    st (ext : cstring) : stream S * outcome unit :=
  if mem ext peer_ext then
    if negb (mem ext running_config) then
      if mem ext protocols then
        let '(s, r) := sub_wrap (_substream st) (bool_decide (neg = negotiate_second)) ext in
        (with_substream st s, r)
      else (st, Returns tt)
    else (st, Returns tt)
  else if negb (cstring_eqb ext []) then
    if mem ext running_config then
      match find_first_if (cstring_eqb ext) (sub_names (_substream st)) with
      | Some n => (with_substream st (sub_unwrap (_substream st) n), Returns tt)
      | None => (st, Diverges)
      end
    else (st, Returns tt)
  else (st, Returns tt).

Fixpoint negotiate_extensions (neg : negotiation_type) (peer_ext running_config own_ext : list cstring)
    st : stream S * outcome unit :=
  match own_ext with
  | [] => (st, Returns tt)
  | ext :: own_ext' =>
    match negotiate_extension neg peer_ext running_config st ext with
    | (st, Returns _) => negotiate_extensions neg peer_ext running_config own_ext' st
    | r => r
    end
  end.

Definition negotiate (fuel : nat) (neg : negotiation_type) st : stream S * outcome unit :=
  let extensions := if _negotiate st then fst (_extensions st) else snd (_extensions st) in
  match (if bool_decide (neg = negotiate_first) then _write st (new_version_response extensions)
         else (st, Returns tt)) with
  | (st, Returns _) =>
    let deadline := if _timeout st =? -1 then -1 else now + _timeout st in
    match _read_any fuel deadline st with
    | (st, Returns (_, d)) =>
      match d with
      | None => (st, Throws Exn_msg)
      | Some v =>
        if negb (type v =? version_response_type) then (st, Throws Exn_msg)
        else if negb (bbdo_major v =? BBDO_VERSION_MAJOR) then (st, Throws Exn_msg)
        else
          match (if bool_decide (neg = negotiate_second) then
                   match _write st (new_version_response extensions) with
                   | (st, Returns _) =>
                     let '(s, r) := sub_flush (_substream st) in (with_substream st s, r)
                   | r => r
                   end
                 else (st, Returns tt)) with
          | (st, Returns _) =>
            let running_config := get_running_config st in
            let own_ext := Str.split extensions x20 in
            let peer_ext := Str.split (peer_extensions v) x20 in
            match negotiate_extensions neg peer_ext running_config own_ext st with
            | (st, Returns _) => (with_negotiated st true, Returns tt)
            | r => r
            end
          | r => r
          end
      end
    | (st, Throws e) => (st, Throws e)
    | (st, Diverges) => (st, Diverges)
    end
  | r => r
  end.

(** statistics: the two counters published. *)
Definition statistics st : list (cstring * Z) :=
  [(str "bbdo_input_ack_limit", _ack_limit st);
   (str "bbdo_unacknowledged_events", _events_received_since_last_ack st)].

End Stream.

(** ** A transport that follows a script *)

(** What the transport does at one call of read: hand over something in time,
    reach the deadline (maybe with data), or fail. *)
Inductive delivery : Type :=
  | Arrives (d : option received)
  | Deadline (d : option received)
  | Fails (e : exn).

Record script : Type := Script {
  incoming : list delivery;
  written : list cstring;
  layers : list cstring
}.

Definition script_read (s : script) (_ : Z) : script * outcome (bool * option received) :=
  match incoming s with
  | [] => (s, Returns (false, None))
  | Arrives d :: r => (Script r (written s) (layers s), Returns (true, d))
  | Deadline d :: r => (Script r (written s) (layers s), Returns (false, d))
  | Fails e :: r => (Script r (written s) (layers s), Throws e)
  end.

#[global] Instance script_substream : Substream script := {
  sub_read := script_read;
  sub_write s b := (Script (incoming s) (written s ++ [b]) (layers s), Returns tt);
  sub_flush s := (s, Returns tt)
}.

#[global] Instance script_layered : Layered script := {
  sub_names := layers;
  sub_wrap s _ ext := (Script (incoming s) (written s) (ext :: layers s), Returns tt);
  sub_unwrap s n := Script (incoming s) (written s) (delete n (layers s))
}.

Definition bytes_of (d : option received) : cstring :=
  match d with Some (Raw b) => b | _ => [] end.

(** The bytes a list of deliveries brings. *)
Definition pending (ds : list (option received)) : cstring := concat (bytes_of <$> ds).

(** A stream that has read on: its packet buffer and what is left to arrive. *)
Definition advance (st : stream script) (p : cstring) (ds : list (option received))
    (tail : list delivery) : stream script :=
  let s := _substream st in
  with_packet (with_substream st (Script ((Arrives <$> ds) ++ tail) (written s) (layers s))) p.

(** The next deliveries of a stream, and the bytes it will see. *)
Definition awaits (st : stream script) (ds : list (option received)) (tail : list delivery) : Prop :=
  incoming (_substream st) = (Arrives <$> ds) ++ tail.

Definition available (st : stream script) (ds : list (option received)) : cstring :=
  _packet st ++ pending ds.

Lemma pending_cons d ds : pending (d :: ds) = bytes_of d ++ pending ds.
Proof. done. Qed.

Lemma advance_self st ds tail : awaits st ds tail -> advance st (_packet st) ds tail = st.
Proof. destruct st as [? ? ? ? ? ? ? ? ? ? ? [inc wr la]]. unfold awaits, advance. cbn. by intros <-. Qed.

Lemma advance_advance st p ds tail p' ds' tail' :
  advance (advance st p ds tail) p' ds' tail' = advance st p' ds' tail'.
Proof. by destruct st. Qed.

Lemma packet_advance st p ds tail : _packet (advance st p ds tail) = p.
Proof. by destruct st. Qed.

Lemma awaits_advance st p ds tail : awaits (advance st p ds tail) ds tail.
Proof. by destruct st. Qed.

(** One read of the script. *)
Lemma read_packet_turn fuel size dl st d ds tail :
  awaits st (d :: ds) tail -> (length (_packet st) < size)%nat ->
  _read_packet (Datatypes.S fuel) size dl st
  = _read_packet fuel size dl (advance st (_packet st ++ bytes_of d) ds tail).
Proof.
  intros Ha Hs. cbn [_read_packet]. rewrite (proj2 (Nat.leb_gt _ _)) by done.
  destruct st as [? ? ? ? ? ? ? ? ? ? ? [inc wr la]]. unfold awaits in Ha. cbn in Ha. subst inc.
  unfold sub_read, script_substream, script_read, advance.
  cbn [_substream incoming written layers with_substream with_packet _packet].
  destruct d as [[b|]|]; cbn [bytes_of]; rewrite ?app_nil_r; done.
Qed.

(** As long as enough bytes are on their way, _read_packet gathers them and
    loses none. *)
Lemma read_packet_gathers fuel size dl st ds tail :
  awaits st ds tail -> (size <= length (available st ds))%nat -> (length ds <= fuel)%nat ->
  exists p ds', _read_packet fuel size dl st = (advance st p ds' tail, Returns tt)
    /\ p ++ pending ds' = available st ds /\ (size <= length p)%nat
    /\ ds' `suffix_of` ds.
Proof.
  revert st ds. induction fuel as [|fuel IH]; intros st ds Ha Hs Hf.
  - destruct ds; [|cbn in Hf; lia]. unfold available in *. cbn in Hs. rewrite app_nil_r in Hs.
    exists (_packet st), []. cbn [_read_packet]. rewrite (proj2 (Nat.leb_le _ _)) by lia.
    rewrite advance_self by done. done.
  - destruct (decide (size <= length (_packet st))%nat) as [H|H].
    { exists (_packet st), ds. cbn [_read_packet]. rewrite (proj2 (Nat.leb_le _ _)) by lia.
      rewrite advance_self by done. done. }
    destruct ds as [|d ds].
    { exfalso. unfold available in Hs. cbn in Hs. rewrite app_nil_r in Hs. lia. }
    rewrite (read_packet_turn _ _ _ _ _ _ _ Ha) by lia.
    set (st1 := advance st (_packet st ++ bytes_of d) ds tail).
    assert (Hav : available st1 ds = available st (d :: ds)).
    { unfold available, st1. rewrite packet_advance, pending_cons. by rewrite app_assoc. }
    destruct (IH st1 ds) as (p & ds' & E & Ep & Hp & Hd).
    { apply awaits_advance. } { by rewrite Hav. } { cbn in Hf. lia. }
    exists p, ds'. rewrite E. unfold st1. rewrite advance_advance.
    split; [done|]. rewrite Ep, Hav. split; [done|]. split; [done|]. etrans; [exact Hd|]. by exists [d].
Qed.

(** ** Transports that behave alike

    A stream over any transport reads what a stream over another one reads, as
    long as the transports give the same results. It lets the theorems stated
    over scripts be used over the real layers. *)
Section Simulation.
Context {S1 S2 : Type} `{!Substream S1} `{!Substream S2}.
Variable R : S1 -> S2 -> Prop.
Hypothesis read_alike : forall s1 s2 dl, R s1 s2 -> exists s1' s2' r,
  sub_read s1 dl = (s1', r) /\ sub_read s2 dl = (s2', r) /\ (forall x, r = Returns x -> R s1' s2').

(** The same stream over another transport. *)
Definition over {T1 T2} (st : stream T1) (s : T2) : stream T2 :=
  let 'Stream a b c d e f g h i j k _ := st in Stream a b c d e f g h i j k s.

Definition alike (st1 : stream S1) (st2 : stream S2) : Prop :=
  st1 = over st2 (_substream st1) /\ R (_substream st1) (_substream st2).

(** Two results that agree: the same value or exception, and alike streams when
    there is a value. *)
Definition agree {A} (x1 : stream S1 * outcome A) (x2 : stream S2 * outcome A) : Prop :=
  snd x1 = snd x2 /\ fst x1 = over (fst x2) (_substream (fst x1))
  /\ (forall a, snd x1 = Returns a -> R (_substream (fst x1)) (_substream (fst x2))).

Lemma alike_agree {A} st1 st2 (r : outcome A) : alike st1 st2 -> agree (st1, r) (st2, r).
Proof. by intros [H1 H2]. Qed.

Lemma alike_map st1 st2 (f : forall T, stream T -> stream T) :
  alike st1 st2 -> (forall T1 T2 (st : stream T1) (s : T2), f T2 (over st s) = over (f T1 st) s) ->
  (forall T (st : stream T), _substream (f T st) = _substream st) -> alike (f S1 st1) (f S2 st2).
Proof.
  intros [H1 H2] Hf Hs. unfold alike. rewrite !Hs. split; [|done]. rewrite H1 at 1. by rewrite Hf.
Qed.

Lemma alike_packet st1 st2 : alike st1 st2 -> _packet st1 = _packet st2.
Proof. intros [-> _]. by destruct st2. Qed.
Lemma alike_buffer st1 st2 : alike st1 st2 -> _buffer st1 = _buffer st2.
Proof. intros [-> _]. by destruct st2. Qed.
Lemma alike_skipped st1 st2 : alike st1 st2 -> _skipped st1 = _skipped st2.
Proof. intros [-> _]. by destruct st2. Qed.

Lemma read_packet_alike fuel size dl : forall st1 st2,
  alike st1 st2 -> agree (_read_packet fuel size dl st1) (_read_packet fuel size dl st2).
Proof.
  induction fuel as [|fuel IH]; intros st1 st2 H; cbn [_read_packet];
    rewrite (alike_packet _ _ H); (case_if; [by apply alike_agree|]); [by apply alike_agree|].
  pose proof (read_alike _ _ dl (proj2 H)) as (s1 & s2 & r & -> & -> & Hr).
  destruct H as [H1 H2]. rewrite H1.
  assert (Hd : agree (with_substream (over st2 (_substream st1)) s1, r) (with_substream st2 s2, r)).
  { split; [done|]. destruct st2; cbn. split; [done|]. apply Hr. }
  destruct r as [[in_time d]|e|]; [|split; [done|split; [apply Hd|done]]..].
  specialize (Hr _ eq_refl).
  set (st1' := match d with Some (Raw v) => _ | _ => _ end).
  set (st2' := match d with Some (Raw v) => with_packet (with_substream st2 s2) _ | _ => _ end).
  assert (Hl : alike st1' st2').
  { unfold st1', st2', alike. destruct d as [[v|]|], st2; cbn; done. }
  destruct in_time; [by apply IH|by apply alike_agree].
Qed.

Lemma agree_returns {A} st1 (a : A) (x1 : stream S1 * outcome A) x2 :
  agree x1 x2 -> x1 = (st1, Returns a) -> exists st2, x2 = (st2, Returns a) /\ alike st1 st2.
Proof.
  intros (H1 & H2 & H3) ->. destruct x2 as [st2' r]. cbn in *. subst r. exists st2'. split; [done|].
  split; [done|]. by eapply H3.
Qed.

Lemma read_any_step_alike reg fuel dl st1 st2 :
  alike st1 st2 -> agree (read_any_step reg fuel dl st1) (read_any_step reg fuel dl st2).
Proof.
  intros H. unfold read_any_step.
  pose proof (read_packet_alike fuel BBDO_HEADER_SIZE dl _ _ H) as Ha.
  destruct (_read_packet fuel BBDO_HEADER_SIZE dl st1) as [st1a [[]|e|]] eqn:E1;
    [|destruct Ha as (Hr & Ho & Hi), (_read_packet _ _ _ st2) as [st2a r2]; cbn in Hr; subst r2; by split..].
  destruct (agree_returns _ _ _ _ Ha eq_refl) as (st2a & -> & Hla).
  rewrite (alike_packet _ _ Hla), (alike_skipped _ _ Hla). case_if.
  { apply alike_agree. apply (alike_map _ _ (fun T st => with_packet (with_skipped st (i32 (_skipped st2a + 1))) (drop 1 (_packet st2a)))); [done|by intros ? ? []..|by intros ? []]. }
  set (st1b := if negb (_skipped st2a =? 0) then with_skipped st1a 0 else st1a).
  set (st2b := if negb (_skipped st2a =? 0) then with_skipped st2a 0 else st2a).
  assert (Hlb : alike st1b st2b).
  { unfold st1b, st2b. case_if; [|done]. apply (alike_map _ _ (fun T st => with_skipped st 0)); [done|by intros ? ? []|by intros ? []]. }
  set (size := Z.to_nat _). set (ev := event_id _). set (src := header_source _). set (dst := header_dest _).
  pose proof (read_packet_alike fuel (BBDO_HEADER_SIZE + size) dl _ _ Hlb) as Hc.
  destruct (_read_packet fuel (BBDO_HEADER_SIZE + size) dl st1b) as [st1c [[]|e|]] eqn:E2;
    [|destruct Hc as (Hr & Ho & Hi), (_read_packet _ _ _ st2b) as [st2c r2]; cbn in Hr; subst r2; by split..].
  destruct (agree_returns _ _ _ _ Hc eq_refl) as (st2c & -> & Hlc).
  rewrite (alike_packet _ _ Hlc).
  set (p := drop (BBDO_HEADER_SIZE + size) (_packet st2c)).
  assert (Hld : alike (with_packet st1c p) (with_packet st2c p)).
  { apply (alike_map _ _ (fun T st => with_packet st p)); [done|by intros ? ? []|by intros ? []]. }
  rewrite (alike_buffer _ _ Hld).
  assert (Hbuf : forall bs, alike (with_buffer (with_packet st1c p) bs) (with_buffer (with_packet st2c p) bs)).
  { intros bs. apply (alike_map _ _ (fun T st => with_buffer st bs)); [done|by intros ? ? []|by intros ? []]. }
  case_if.
  - destruct (take_buffer _ _ _ _) as [[b bs]|]; by apply alike_agree.
  - by apply alike_agree.
Qed.

Lemma read_any_loop_alike reg fuel rounds dl : forall st1 st2,
  alike st1 st2 -> agree (read_any_loop reg fuel rounds dl st1) (read_any_loop reg fuel rounds dl st2).
Proof.
  induction rounds as [|rounds IH]; intros st1 st2 H; cbn [read_any_loop]; [by apply alike_agree|].
  pose proof (read_any_step_alike reg fuel dl _ _ H) as Ha.
  destruct (read_any_step reg fuel dl st1) as [st1a [d|e|]] eqn:E1;
    [|destruct Ha as (Hr & Ho & Hi), (read_any_step _ _ _ st2) as [st2a r2]; cbn in Hr; subst r2; by split..].
  destruct (agree_returns _ _ _ _ Ha eq_refl) as (st2a & -> & Hla).
  destruct d; [by apply alike_agree|by apply IH].
Qed.

(** What _read_any gives does not depend on the transport. *)
Lemma read_any_alike reg fuel dl st1 st2 :
  alike st1 st2 ->
  snd (_read_any reg fuel dl st1) = snd (_read_any reg fuel dl st2)
  /\ fst (_read_any reg fuel dl st1) = over (fst (_read_any reg fuel dl st2)) (_substream (fst (_read_any reg fuel dl st1)))
  /\ (forall d, snd (_read_any reg fuel dl st1) = Returns (true, d) ->
       alike (fst (_read_any reg fuel dl st1)) (fst (_read_any reg fuel dl st2))).
Proof.
  intros H. unfold _read_any. pose proof (read_any_loop_alike reg fuel fuel dl _ _ H) as (Hr & Ho & Hi).
  destruct (read_any_loop _ _ _ _ st1) as [st1a r1], (read_any_loop _ _ _ _ st2) as [st2a r2].
  cbn in Hr, Ho, Hi. subst r2. destruct r1 as [d|[]|]; cbn; split_and!; try done.
  intros ? _. split; [done|]. by eapply Hi.
Qed.
End Simulation.

(** ** One packet *)

Section Reading.
Variable reg : registry.

(** The effect of one sound packet on the reassembly state. *)
Definition on_packet (st : stream script) (ev src dst : Z) (c : cstring)
  : stream script * outcome (option (option data)) :=
  if negb (Z.of_nat (length c) =? 0xffff) then
    match take_buffer (_buffer st) ev src dst with
    | Some (b, bs) =>
      (with_buffer st (purge 3 bs),
       d ← unserialize reg ev src dst (to_vector (push_back b c)); Returns (Some d))
    | None =>
      (with_buffer st (purge 3 (_buffer st)), d ← unserialize reg ev src dst c; Returns (Some d))
    end
  else
    match push_buffer (_buffer st) ev src dst c with
    | Some bs => (with_buffer st (purge 4 bs), Returns None)
    | None => (with_buffer st (purge 4 (_buffer st ++ [Buffer ev src dst [c]])), Returns None)
    end.

Lemma skipped_reset (st : stream script) :
  (if negb (_skipped st =? 0) then with_skipped st 0 else st) = with_skipped st 0.
Proof. destruct st as [? ? sk]. cbn. destruct (Z.eqb_spec sk 0) as [->|]; done. Qed.

Lemma header_prefix (p l h rest : cstring) :
  p ++ l = h ++ rest -> (length h <= length p)%nat ->
  exists q, p = h ++ q /\ q ++ l = rest.
Proof.
  intros E Hl. exists (drop (length h) p).
  assert (Hp : take (length h) p = h).
  { rewrite <-(take_app_le p l) by lia. rewrite E. apply take_app_length. }
  split; [by rewrite <-Hp at 1; rewrite take_drop|].
  rewrite <-(drop_app_le p l) by lia. rewrite E. apply drop_app_length.
Qed.

Lemma content_of_packet (h c q : cstring) :
  length h = BBDO_HEADER_SIZE -> substr (h ++ c ++ q) BBDO_HEADER_SIZE (length c) = c.
Proof. intros <-. unfold substr. by rewrite drop_app_length, take_app_length. Qed.

Lemma rest_of_packet (h c q : cstring) :
  length h = BBDO_HEADER_SIZE -> drop (BBDO_HEADER_SIZE + length c) (h ++ c ++ q) = q.
Proof. intros <-. rewrite <-length_app, app_assoc. apply drop_app_length. Qed.

Lemma step_packet fuel dl st ds tail ev src dst c rest :
  awaits st ds tail -> (length ds <= fuel)%nat ->
  is_u32 ev -> is_u32 src -> is_u32 dst -> Z.of_nat (length c) < 2 ^ 16 ->
  available st ds = make_header (Z.of_nat (length c)) ev src dst ++ c ++ rest ->
  exists p ds', p ++ pending ds' = rest /\ ds' `suffix_of` ds
    /\ read_any_step reg fuel dl st
       = on_packet (with_skipped (advance st p ds' tail) 0) ev src dst c.
Proof.
  intros Ha Hf Hev Hsrc Hdst Hc Hav.
  destruct (read_packet_gathers fuel BBDO_HEADER_SIZE dl st ds tail) as (p1 & ds1 & E1 & Hp1 & Hl1 & Hd1); [done| |done|].
  { rewrite Hav, !length_app, length_make_header. lia. }
  rewrite Hav in Hp1.
  destruct (header_prefix _ _ _ _ Hp1) as (q & -> & Hq); [by rewrite length_make_header|].
  unfold read_any_step. rewrite E1. rewrite packet_advance.
  destruct (header_fields (Z.of_nat (length c)) ev src dst q _ eq_refl) as (Hck & -> & -> & -> & ->).
  rewrite Hck, Z.eqb_refl. cbn [negb]. rewrite Z.mod_small by lia. rewrite Nat2Z.id.
  unfold u32. rewrite !(Z.mod_small _ (2 ^ 32)) by done.
  rewrite skipped_reset.
  set (st1 := with_skipped (advance st (make_header (Z.of_nat (length c)) ev src dst ++ q) ds1 tail) 0).
  destruct (read_packet_gathers fuel (BBDO_HEADER_SIZE + length c) dl st1 ds1 tail)
    as (p2 & ds2 & E2 & Hp2 & Hl2 & Hd2).
  { unfold st1. by destruct st. }
  { unfold st1, available. replace (_packet _) with (make_header (Z.of_nat (length c)) ev src dst ++ q) by (by destruct st).
    rewrite <-app_assoc, Hq, !length_app, length_make_header. lia. }
  { apply suffix_length in Hd1. lia. }
  assert (Hp2' : p2 ++ pending ds2 = make_header (Z.of_nat (length c)) ev src dst ++ c ++ rest).
  { rewrite Hp2. unfold st1, available.
    replace (_packet _) with (make_header (Z.of_nat (length c)) ev src dst ++ q) by (by destruct st).
    by rewrite <-app_assoc, Hq. }
  destruct (header_prefix _ _ _ _ Hp2') as (q2 & -> & Hq2); [rewrite length_make_header; lia|].
  rewrite length_app, length_make_header in Hl2.
  destruct (header_prefix _ _ _ _ Hq2) as (q3 & -> & Hq3); [lia|].
  rewrite E2. cbv beta iota. rewrite packet_advance.
  rewrite content_of_packet, rest_of_packet by apply length_make_header.
  exists q3, ds2. split; [done|]. split; [by etrans|].
  assert (Hst : forall x, with_packet (advance st1 x ds2 tail) q3
          = with_skipped (advance st q3 ds2 tail) 0) by (intros; unfold st1; by destruct st).
  rewrite Hst.
  unfold on_packet. destruct (negb _); [|by destruct (push_buffer _ _ _ _ _)].
  by destruct (take_buffer _ _ _ _) as [[b bs]|].
Qed.

(** ** One event *)

Definition foreign (ev src dst : Z) (bs : list buffer) : Prop :=
  Forall (fun b => matches b ev src dst = false) bs.

(** The buffers while a large event is being received: those of other events,
    then the parts of this one. *)
Definition with_parts (bs : list buffer) (ev src dst : Z) (parts : list cstring) : list buffer :=
  match parts with
  | [] => bs
  | _ :: _ => bs ++ [Buffer ev src dst parts]
  end.

Lemma matches_self ev src dst parts : matches (Buffer ev src dst parts) ev src dst = true.
Proof. unfold matches. cbn. by rewrite !Z.eqb_refl. Qed.

Lemma take_buffer_foreign bs ev src dst : foreign ev src dst bs -> take_buffer bs ev src dst = None.
Proof. induction 1 as [|b bs Hb _ IH]; cbn; [done|]. by rewrite Hb, IH. Qed.

Lemma push_buffer_foreign bs ev src dst v : foreign ev src dst bs -> push_buffer bs ev src dst v = None.
Proof. induction 1 as [|b bs Hb _ IH]; cbn; [done|]. by rewrite Hb, IH. Qed.

Lemma take_buffer_last bs ev src dst parts : foreign ev src dst bs ->
  take_buffer (bs ++ [Buffer ev src dst parts]) ev src dst = Some (Buffer ev src dst parts, bs).
Proof.
  induction 1 as [|b bs Hb _ IH]; cbn [app take_buffer]; [by rewrite matches_self|].
  by rewrite Hb, IH.
Qed.

Lemma push_buffer_last bs ev src dst parts v : foreign ev src dst bs ->
  push_buffer (bs ++ [Buffer ev src dst parts]) ev src dst v
  = Some (bs ++ [Buffer ev src dst (parts ++ [v])]).
Proof.
  induction 1 as [|b bs Hb _ IH]; cbn [app push_buffer]; [by rewrite matches_self|].
  by rewrite Hb, IH.
Qed.

Lemma purge_small n bs : (length bs <= n)%nat -> purge n bs = bs.
Proof. intros. unfold purge. by replace (length bs - n)%nat with 0%nat by lia. Qed.

(** A part that is not the last one joins the others. *)
Lemma on_packet_part st bs ev src dst parts c :
  _buffer st = with_parts bs ev src dst parts -> foreign ev src dst bs -> (length bs <= 3)%nat ->
  Z.of_nat (length c) = 0xffff ->
  on_packet st ev src dst c = (with_buffer st (with_parts bs ev src dst (parts ++ [c])), Returns None).
Proof.
  intros Hb Hf Hl Hc. unfold on_packet. rewrite Hc, Hb.
  change (negb (0xffff =? 0xffff)) with false. cbv iota.
  destruct parts as [|part parts]; cbn [with_parts app].
  - rewrite push_buffer_foreign by done. rewrite purge_small; [done|]. rewrite length_app. cbn. lia.
  - rewrite push_buffer_last by done. rewrite purge_small; [done|]. rewrite length_app. cbn. lia.
Qed.

(** The last part gives the event back. *)
Lemma on_packet_last st bs ev src dst parts c :
  _buffer st = with_parts bs ev src dst parts -> foreign ev src dst bs -> (length bs <= 3)%nat ->
  Z.of_nat (length c) <> 0xffff ->
  on_packet st ev src dst c
  = (with_buffer st bs, d ← unserialize reg ev src dst (concat parts ++ c); Returns (Some d)).
Proof.
  intros Hb Hf Hl Hc. unfold on_packet. rewrite (proj2 (Z.eqb_neq _ _)) by done. rewrite Hb.
  cbn [negb]. destruct parts as [|part parts]; cbn [with_parts].
  - rewrite take_buffer_foreign by done. by rewrite purge_small.
  - rewrite take_buffer_last by done. rewrite purge_small by done.
    unfold to_vector, push_back. cbn [_buf _event_id _source_id _dest_id].
    rewrite concat_app. cbn [concat]. by rewrite app_nil_r.
Qed.

(** The state after a complete event: only what had to be consumed was. *)
Definition after_event (st : stream script) (bs : list buffer) (p : cstring)
    (ds : list (option received)) (tail : list delivery) : stream script :=
  with_buffer (with_skipped (advance st p ds tail) 0) bs.

Lemma read_frame n fuel rounds dl e : forall st ds tail bs parts c rest,
  awaits st ds tail -> (length ds <= fuel)%nat ->
  is_u32 (type e) -> is_u32 (source_id e) -> is_u32 (destination_id e) ->
  _buffer st = with_parts bs (type e) (source_id e) (destination_id e) parts ->
  foreign (type e) (source_id e) (destination_id e) bs -> (length bs <= 3)%nat ->
  (length c <= n)%nat -> (n < rounds)%nat ->
  available st ds = concat (packet e <$> chunks n c) ++ rest ->
  exists p ds', p ++ pending ds' = rest /\ ds' `suffix_of` ds
    /\ read_any_loop reg fuel rounds dl st
       = (after_event st bs p ds' tail,
          unserialize reg (type e) (source_id e) (destination_id e) (concat parts ++ c)).
Proof.
  assert (Hmz : 65535 <= Z.of_nat max_packet <= 65535) by (rewrite max_packet_Z; lia).
  revert rounds. induction n as [|n IH];
    intros rounds st ds tail bs parts c rest Ha Hf H1 H2 H3 Hb Hfo Hl Hn Hr Hav;
    destruct rounds as [|rounds]; try lia.
  - destruct c; [|cbn in Hn; lia]. cbn [chunks fmap list_fmap concat] in Hav.
    rewrite app_nil_r in Hav. unfold packet in Hav. rewrite <-app_assoc in Hav.
    assert (Hsz : Z.of_nat (length ([] : cstring)) < 2 ^ 16) by (cbn; lia).
    destruct (step_packet _ dl st ds tail _ _ _ _ rest Ha Hf H1 H2 H3 Hsz Hav)
      as (p & ds' & Hp & Hd & E).
    exists p, ds'. split; [done|]. split; [done|]. cbn [read_any_loop]. rewrite E.
    rewrite (on_packet_last _ bs _ _ _ parts) by (done || by destruct st).
    by destruct (unserialize _ _ _ _ _).
  - cbn [chunks] in Hav. destruct (Nat.leb_spec max_packet (length c)) as [Hc|Hc].
    + cbn [fmap list_fmap concat] in Hav. unfold packet at 1 in Hav. rewrite <-!app_assoc in Hav.
      assert (Hsz : Z.of_nat (length (take max_packet c)) < 2 ^ 16) by (rewrite length_take; lia).
      destruct (step_packet _ dl st ds tail _ _ _ _ _ Ha Hf H1 H2 H3 Hsz Hav) as (p & ds' & Hp & Hd & E).
      assert (Hlen : Z.of_nat (length (take max_packet c)) = 0xffff) by (rewrite length_take; lia).
      rewrite (on_packet_part _ bs _ _ _ parts) in E by (done || by destruct st).
      set (st1 := with_buffer _ _) in E.
      destruct (IH rounds st1 ds' tail bs (parts ++ [take max_packet c]) (drop max_packet c) rest)
        as (p' & ds'' & Hp' & Hd' & E'); try done; try (apply suffix_length in Hd; lia).
      { unfold st1. by destruct st. }
      { unfold st1. by destruct st. }
      { rewrite length_drop. lia. }
      { unfold st1, available. rewrite <-Hp. by destruct st. }
      exists p', ds''. split; [done|]. split; [by etrans|]. cbn [read_any_loop]. rewrite E, E'.
      unfold st1. rewrite concat_app. cbn [concat]. rewrite app_nil_r, <-app_assoc, take_drop.
      by destruct st.
    + cbn [fmap list_fmap concat] in Hav. rewrite app_nil_r in Hav. unfold packet in Hav.
      rewrite <-app_assoc in Hav.
      assert (Hsz : Z.of_nat (length c) < 2 ^ 16) by lia.
      destruct (step_packet _ dl st ds tail _ _ _ _ rest Ha Hf H1 H2 H3 Hsz Hav)
        as (p & ds' & Hp & Hd & E).
      exists p, ds'. split; [done|]. split; [done|]. cbn [read_any_loop]. rewrite E.
      rewrite (on_packet_last _ bs _ _ _ parts); [|by destruct st|done|done|lia].
      by destruct (unserialize _ _ _ _ _).
Qed.

(** ** Corruption *)

(** No header can be read at this place. *)
Definition unsound (l : cstring) : Prop := expected l <> chksum l.

Lemma substr_app_l (p l : cstring) pos n : (pos + n <= length p)%nat -> substr (p ++ l) pos n = substr p pos n.
Proof.
  intros. unfold substr. rewrite drop_app_le by lia. rewrite take_app_le; [done|].
  rewrite length_drop. lia.
Qed.

Lemma unsound_prefix p l : (BBDO_HEADER_SIZE <= length p)%nat -> unsound (p ++ l) -> unsound p.
Proof.
  unfold unsound, expected, chksum, field, BBDO_HEADER_SIZE. intros Hl.
  by rewrite !substr_app_l by (cbn; lia).
Qed.

(** An unsound place costs one byte, and one round. *)
Lemma step_unsound fuel dl st ds tail :
  awaits st ds tail -> (length ds <= fuel)%nat -> (BBDO_HEADER_SIZE <= length (available st ds))%nat ->
  unsound (available st ds) ->
  exists p ds', p ++ pending ds' = drop 1 (available st ds) /\ ds' `suffix_of` ds
    /\ read_any_step reg fuel dl st
       = (with_skipped (advance st p ds' tail) (i32 (_skipped st + 1)), Returns None).
Proof.
  intros Ha Hf Hl Hu.
  destruct (read_packet_gathers fuel BBDO_HEADER_SIZE dl st ds tail Ha Hl Hf) as (p & ds' & E & Hp & Hpl & Hd).
  rewrite <-Hp in Hu. apply unsound_prefix in Hu; [|done].
  exists (drop 1 p), ds'. split.
  { rewrite <-Hp. rewrite drop_app_le; [done|]. unfold BBDO_HEADER_SIZE in Hpl. lia. }
  split; [done|]. unfold read_any_step. rewrite E, packet_advance.
  rewrite (proj2 (Z.eqb_neq _ _)) by done. cbn [negb]. by destruct st.
Qed.

Lemma read_junk dl tail l : forall junk fuel rounds st ds,
  (forall i, (i < length junk)%nat -> unsound (drop i (junk ++ l))) ->
  (BBDO_HEADER_SIZE <= length l)%nat -> awaits st ds tail -> (length ds <= fuel)%nat ->
  available st ds = junk ++ l ->
  exists p ds' k, p ++ pending ds' = l /\ ds' `suffix_of` ds
    /\ read_any_loop reg fuel (length junk + rounds) dl st
       = read_any_loop reg fuel rounds dl (with_skipped (advance st p ds' tail) k).
Proof.
  induction junk as [|b junk IH]; intros fuel rounds st ds Hu Hl Ha Hf Hav.
  - exists (_packet st), ds, (_skipped st). split; [done|]. split; [done|].
    rewrite advance_self by done. by destruct st.
  - destruct (step_unsound fuel dl st ds tail Ha Hf) as (p & ds1 & Hp & Hd & E).
    { rewrite Hav, length_app. cbn. lia. }
    { rewrite Hav. apply (Hu 0%nat). cbn. lia. }
    rewrite Hav in Hp. cbn [app drop] in Hp. rewrite drop_0 in Hp.
    set (st1 := with_skipped _ _) in E.
    assert (Hpk : _packet st1 = p) by (unfold st1; by destruct st).
    destruct (IH fuel rounds st1 ds1) as (p' & ds' & k & Hp' & Hd' & E').
    { intros i Hi. apply (Hu (Datatypes.S i)). cbn. lia. } { done. }
    { unfold st1. by destruct st. } { apply suffix_length in Hd. lia. } { unfold available. by rewrite Hpk. }
    exists p', ds', k. split; [done|]. split; [by etrans|]. cbn [length Nat.add read_any_loop].
    rewrite E, E'. unfold st1. by destruct st.
Qed.

Lemma frame_length (e : data) c : (length c <= length (frame e c))%nat.
Proof.
  unfold frame. rewrite <-(concat_chunks (length c) c) at 1.
  generalize (chunks (length c) c). intros cs.
  induction cs as [|x cs IH]; [done|]. cbn [concat fmap list_fmap]. unfold packet at 1.
  rewrite !length_app. unfold frame in IH. lia.
Qed.

Lemma frame_header (e : data) c : (BBDO_HEADER_SIZE <= length (frame e c))%nat.
Proof.
  unfold frame. destruct (length c); cbn [chunks]; [|destruct (_ <=? _)%nat];
    cbn [fmap list_fmap concat]; unfold packet; rewrite !length_app, length_make_header; lia.
Qed.

(** The general reading lemma: junk, then an event, then anything. *)
Lemma read_any_event fuel dl st ds tail e wire junk rest :
  event_ok reg e -> serialize reg e = Returns (Some wire) ->
  foreign (type e) (source_id e) (destination_id e) (_buffer st) -> (length (_buffer st) <= 3)%nat ->
  awaits st ds tail -> available st ds = junk ++ wire ++ rest ->
  (forall i, (i < length junk)%nat -> unsound (drop i (junk ++ wire ++ rest))) ->
  (length ds + length junk + length wire < fuel)%nat ->
  exists p ds', p ++ pending ds' = rest /\ ds' `suffix_of` ds
    /\ _read_any reg fuel dl st = (after_event st (_buffer st) p ds' tail, Returns (true, Some e)).
Proof.
  intros He Hser Hfo Hl Ha Hav Hu Hfuel.
  destruct He as (H1 & H2 & H3 & info & t0 & Hi & Hc & Hm).
  destruct (members_roundtrip _ _ _ [] Hm) as (bytes & Hb & Hun). rewrite app_nil_r in Hun.
  rewrite (serialize_frame _ _ _ _ Hi Hb) in Hser. simplify_eq.
  pose proof (frame_length e bytes). pose proof (frame_header e bytes).
  destruct (read_junk dl tail (frame e bytes ++ rest) junk fuel (fuel - length junk) st ds)
    as (p & ds1 & k & Hp & Hd & E); [done|rewrite length_app; lia|done|lia|done|].
  replace (length junk + (fuel - length junk))%nat with fuel in E by lia.
  set (st1 := with_skipped (advance st p ds1 tail) k) in E. pose proof (suffix_length _ _ Hd).
  destruct (read_frame (length bytes) fuel (fuel - length junk) dl e st1 ds1 tail (_buffer st) [] bytes rest)
    as (p' & ds' & Hp' & Hd' & E'); try (unfold st1; by destruct st); try done; try lia.
  exists p', ds'. split; [done|]. split; [by etrans|]. unfold _read_any. rewrite E, E'.
  cbn [concat app]. unfold unserialize. rewrite Hi, Hc, Hun. cbn [mbind outcome_bind].
  unfold st1. destruct e, st. done.
Qed.

(** An event alone in a delivery: nothing of it is left anywhere. *)
Lemma read_any_whole fuel dl st e wire more :
  event_ok reg e -> serialize reg e = Returns (Some wire) ->
  _buffer st = [] -> _packet st = [] -> incoming (_substream st) = Arrives (Some (Raw wire)) :: more ->
  (length wire + 1 < fuel)%nat ->
  _read_any reg fuel dl st = (after_event st [] [] [] more, Returns (true, Some e)).
Proof.
  intros He Hser Hb Hp Hi Hf.
  destruct (read_any_event fuel dl st [Some (Raw wire)] more e wire [] []) as (p & ds' & Hpd & Hd & E); try done.
  { rewrite Hb. constructor. } { rewrite Hb. cbn. lia. }
  { unfold available. rewrite Hp. unfold pending. cbn. by rewrite !app_nil_r. }
  { cbn. lia. } { cbn. lia. }
  rewrite E, Hb. apply app_eq_nil in Hpd as [-> Hpd].
  assert (ds' = []) as ->; [|done].
  destruct Hd as [[|x pre] Ed]; cbn in Ed; [|by destruct pre, ds'].
  subst ds'. exfalso. unfold pending in Hpd. cbn in Hpd. rewrite app_nil_r in Hpd. subst wire.
  destruct He as (_ & _ & _ & info & t0 & Hin & _ & Hm).
  destruct (members_roundtrip _ _ _ [] Hm) as (bytes & Hby & _).
  rewrite (serialize_frame _ _ _ _ Hin Hby) in Hser. pose proof (frame_header e bytes) as Hh.
  injection Hser as Hser. rewrite Hser in Hh. unfold BBDO_HEADER_SIZE in Hh. cbn in Hh. lia.
Qed.

(** C1. Whatever pieces the transport cuts the bytes in, reading gives back the
    event that serialize wrote, keeps every byte that follows it for the next
    call, and leaves the parts of other events alone. *)
Theorem read_any_roundtrip fuel dl st ds tail e wire rest :
  event_ok reg e -> serialize reg e = Returns (Some wire) ->
  foreign (type e) (source_id e) (destination_id e) (_buffer st) -> (length (_buffer st) <= 3)%nat ->
  awaits st ds tail -> available st ds = wire ++ rest ->
  (length ds + length wire < fuel)%nat ->
  exists st' ds', _read_any reg fuel dl st = (st', Returns (true, Some e))
    /\ awaits st' ds' tail /\ available st' ds' = rest
    /\ _buffer st' = _buffer st /\ (length ds' <= length ds)%nat.
Proof.
  intros He Hser Hfo Hl Ha Hav Hfuel.
  destruct (read_any_event fuel dl st ds tail e wire [] rest) as (p & ds' & Hp & Hd & E);
    try done; [cbn; lia|cbn; lia|].
  exists (after_event st (_buffer st) p ds' tail), ds'. split; [done|].
  apply suffix_length in Hd.
  split; [by destruct st|]. split; [|by destruct st]. rewrite <-Hp. by destruct st.
Qed.

(** C39. After any number of corrupted bytes in which no 16-byte window has a
    matching checksum, reading finds the next event, and the count of skipped
    bytes is reset. *)
Theorem read_any_resync fuel dl st ds tail e wire junk rest :
  event_ok reg e -> serialize reg e = Returns (Some wire) ->
  foreign (type e) (source_id e) (destination_id e) (_buffer st) -> (length (_buffer st) <= 3)%nat ->
  awaits st ds tail -> available st ds = junk ++ wire ++ rest ->
  (forall i, (i < length junk)%nat -> unsound (drop i (junk ++ wire ++ rest))) ->
  (length ds + length junk + length wire < fuel)%nat ->
  exists st' ds', _read_any reg fuel dl st = (st', Returns (true, Some e))
    /\ available st' ds' = rest /\ awaits st' ds' tail /\ _skipped st' = 0.
Proof.
  intros He Hser Hfo Hl Ha Hav Hu Hfuel.
  destruct (read_any_event fuel dl st ds tail e wire junk rest) as (p & ds' & Hp & Hd & E); try done.
  exists (after_event st (_buffer st) p ds' tail), ds'. split; [done|].
  rewrite <-Hp. by destruct st.
Qed.

(** *** Control events *)

(** An acknowledgement that precedes an event is consumed by read, credited
    to the sender, and not shown to the caller. *)
Theorem read_credits_acknowledgement fuel dl st ds tail e n wire wire_ack rest :
  bbdo_loaded reg -> is_u32 n -> event_ok reg e -> Z.shiftr (type e) 16 <> bbdo ->
  serialize reg (new_ack n) = Returns (Some wire_ack) -> serialize reg e = Returns (Some wire) ->
  _buffer st = [] -> _events_received_since_last_ack st + 1 < _ack_limit st < 2 ^ 32 ->
  0 <= _events_received_since_last_ack st ->
  awaits st ds tail -> available st ds = wire_ack ++ wire ++ rest ->
  (length ds + length wire_ack + length wire + 1 < fuel)%nat ->
  exists st' ds', read reg fuel dl st = (st', Returns (true, Some e))
    /\ available st' ds' = rest /\ awaits st' ds' tail
    /\ _acknowledged_events st' = u32 (_acknowledged_events st + n)
    /\ _events_received_since_last_ack st' = _events_received_since_last_ack st + 1.
Proof.
  intros [_ Hack] Hn He Hcat Hsa Hse Hb Hlim Hr0 Ha Hav Hfuel.
  assert (Hea : event_ok reg (new_ack n)).
  { repeat split; try done. exists ack_info. eexists. repeat split; try done; apply Hn. }
  destruct (read_any_event fuel dl st ds tail (new_ack n) wire_ack [] (wire ++ rest))
    as (p & ds1 & Hp & Hd & E); try done.
  { rewrite Hb. constructor. } { rewrite Hb. cbn. lia. } { cbn; lia. } { cbn. lia. }
  set (st1 := after_event st (_buffer st) p ds1 tail) in E.
  set (st2 := acknowledge_events st1 n).
  assert (Hb2 : _buffer st2 = []) by (rewrite <-Hb; by destruct st).
  apply suffix_length in Hd.
  destruct (read_any_event fuel dl st2 ds1 tail e wire [] rest) as (p' & ds2 & Hp' & Hd' & E');
    try (by destruct st); try (cbn; lia).
  { rewrite Hb2. constructor. } { rewrite Hb2. cbn. lia. }
  exists (with_received (after_event st2 (_buffer st2) p' ds2 tail)
           (_events_received_since_last_ack st + 1)), ds2.
  assert (Hl : read_loop reg fuel fuel dl st
           = (after_event st2 (_buffer st2) p' ds2 tail, Returns (true, Some e))).
  { destruct fuel as [|[|fuel]]; [lia|lia|].
    remember (Datatypes.S (Datatypes.S fuel)) as F eqn:EF. rewrite EF at 2. clear EF.
    cbn [read_loop]. rewrite E. cbv beta iota.
    change (type (new_ack n)) with ack_type.
    change (Z.shiftr ack_type 16 =? bbdo) with true. cbv iota.
    unfold control. change (Z.land (type (new_ack n)) 0xffff =? 1) with false.
    change (Z.land (type (new_ack n)) 0xffff =? 2) with true. cbv beta iota.
    change (acked (new_ack n)) with n. fold st2. rewrite E'.
    by rewrite (proj2 (Z.eqb_neq _ _)). }
  unfold read. rewrite Hl. cbv beta iota.
  set (st3 := after_event _ _ _ _ _).
  assert (H3 : _events_received_since_last_ack st3 = _events_received_since_last_ack st) by (by destruct st).
  rewrite H3. unfold u32. rewrite Z.mod_small by lia.
  replace (_ack_limit _) with (_ack_limit st) by (by destruct st).
  replace (_events_received_since_last_ack (with_received _ _))
    with (_events_received_since_last_ack st + 1) by (by destruct st).
  rewrite (proj2 (Z.leb_gt _ _)) by lia. split; [done|].
  rewrite <-Hp'. by destruct st.
Qed.
End Reading.

(** *** Bounds *)

Section Bounds.
Context {T : Type} `{!Substream T}.
Implicit Types st : stream T.
Variable reg : registry.

Lemma read_packet_buffer fuel size dl st st' r :
  _read_packet fuel size dl st = (st', r) -> _buffer st' = _buffer st.
Proof.
  revert st. induction fuel as [|fuel IH]; intros st; cbn [_read_packet];
    (case_if; [by intros [= <- <-]|]); [by intros [= <- <-]|].
  destruct (sub_read (_substream st) dl) as [s [[b d]|e|]]; [|by destruct st; intros [= <- <-]..].
  destruct b; [|by destruct st, d as [[]|]; intros [= <- <-]].
  intros H. rewrite (IH _ H). by destruct st, d as [[]|].
Qed.

Lemma length_purge n bs : (length (purge n bs) <= n)%nat.
Proof. unfold purge. rewrite length_drop. lia. Qed.

Lemma read_any_step_bounded fuel dl st st' r :
  (length (_buffer st) <= 4)%nat -> read_any_step reg fuel dl st = (st', r) ->
  (length (_buffer st') <= 4)%nat.
Proof.
  intros Hb. unfold read_any_step.
  destruct (_read_packet fuel BBDO_HEADER_SIZE dl st) as [st1 r1] eqn:E1.
  apply read_packet_buffer in E1. rewrite <-E1 in Hb. clear E1 st.
  destruct r1; [|by intros [= <- <-]..]. case_if; [intros [= <- <-]; by destruct st1|].
  set (st2 := if negb (_skipped st1 =? 0) then _ else _).
  assert (H2 : _buffer st2 = _buffer st1) by (unfold st2; case_if; by destruct st1).
  rewrite <-H2 in Hb.
  destruct (_read_packet fuel _ dl st2) as [st3 r3] eqn:E3.
  apply read_packet_buffer in E3. rewrite <-E3 in Hb. clear E3 H2.
  destruct r3; [|by intros [= <- <-]..].
  pose proof (length_purge 3) as P3. pose proof (length_purge 4) as P4.
  case_if.
  - destruct (take_buffer _ _ _ _) as [[b bs]|]; intros [= <- <-]; destruct st3; cbn; etrans; eauto; lia.
  - intros [= <- <-]. destruct st3; cbn. apply P4.
Qed.

Lemma read_any_loop_bounded fuel rounds dl st st' r :
  (length (_buffer st) <= 4)%nat -> read_any_loop reg fuel rounds dl st = (st', r) ->
  (length (_buffer st') <= 4)%nat.
Proof.
  revert st. induction rounds as [|rounds IH]; intros st Hb; cbn [read_any_loop]; [by intros [= <- <-]|].
  destruct (read_any_step reg fuel dl st) as [st1 [[d|]|e|]] eqn:E;
    apply read_any_step_bounded in E; try done; [|by apply IH|..]; by intros [= <- <-].
Qed.

(** Whatever the peer sends, at most four unfinished large events are kept
    in memory. *)
Theorem read_any_bounded fuel dl st st' r :
  (length (_buffer st) <= 4)%nat -> _read_any reg fuel dl st = (st', r) ->
  (length (_buffer st') <= 4)%nat.
Proof.
  intros Hb. unfold _read_any. destruct (read_any_loop _ _ _ _ _) as [st1 r1] eqn:E.
  apply read_any_loop_bounded in E; [|done].
  by destruct r1 as [d|[]|]; intros [= <- <-].
Qed.
End Bounds.

(** *** Acknowledging *)

Section Peers.
Variable reg : registry.
Variable protocols : list cstring.
Variable now : Z.

Lemma ack_ok n : bbdo_loaded reg -> is_u32 n -> event_ok reg (new_ack n).
Proof.
  intros [_ Hack] Hn. repeat split; try done. exists ack_info. eexists. repeat split; try done; apply Hn.
Qed.

Lemma version_response_ok ext :
  bbdo_loaded reg -> forallb (fun b => negb (byte_eqb x00 b)) ext = true ->
  event_ok reg (new_version_response ext).
Proof.
  intros [Hv _] He. repeat split; try done. exists version_response_info. eexists.
  repeat split; try done; cbn; lia.
Qed.

Lemma serialize_ok e : event_ok reg e -> exists wire, serialize reg e = Returns (Some wire).
Proof.
  intros (_ & _ & _ & info & t0 & Hi & Hc & Hm).
  destruct (members_roundtrip _ _ _ [] Hm) as (bytes & Hb & _).
  eexists. by eapply serialize_frame.
Qed.

(** The event that reaches the acknowledgement limit is handed over and an
    acknowledgement of exactly that many events is sent, after which the count
    starts again from 0. *)
Theorem read_sends_acknowledgement fuel dl st ds tail e wire rest :
  bbdo_loaded reg -> event_ok reg e -> Z.shiftr (type e) 16 <> bbdo ->
  serialize reg e = Returns (Some wire) ->
  _buffer st = [] -> _coarse st = false ->
  _events_received_since_last_ack st + 1 = _ack_limit st -> 0 < _ack_limit st < 2 ^ 32 ->
  awaits st ds tail -> available st ds = wire ++ rest ->
  (length ds + length wire < fuel)%nat ->
  exists st' ds' wire_ack, serialize reg (new_ack (_ack_limit st)) = Returns (Some wire_ack)
    /\ read reg fuel dl st = (st', Returns (true, Some e))
    /\ written (_substream st') = written (_substream st) ++ [wire_ack]
    /\ _events_received_since_last_ack st' = 0
    /\ awaits st' ds' tail /\ available st' ds' = rest.
Proof.
  intros Hld He Hcat Hse Hb Hco Hlim Hr0 Ha Hav Hfuel.
  destruct (serialize_ok (new_ack (_ack_limit st))) as [wa Hwa].
  { apply ack_ok; [done|]. split; lia. }
  destruct (read_any_event reg fuel dl st ds tail e wire [] rest) as (p & ds1 & Hp & Hd & E); try done.
  { rewrite Hb. constructor. } { rewrite Hb. cbn. lia. } { cbn; lia. } { cbn; lia. }
  set (st1 := after_event st (_buffer st) p ds1 tail) in E.
  assert (Hl : read_loop reg fuel fuel dl st = (st1, Returns (true, Some e))).
  { destruct fuel as [|fuel]; [lia|]. remember (Datatypes.S fuel) as F eqn:EF. rewrite EF at 2.
    cbn [read_loop]. rewrite E. cbv beta iota. by rewrite (proj2 (Z.eqb_neq _ _)). }
  unfold read. rewrite Hl. cbv beta iota.
  assert (H1 : u32 (_events_received_since_last_ack st1 + 1) = _ack_limit st).
  { replace (_events_received_since_last_ack st1) with (_events_received_since_last_ack st) by (by destruct st).
    rewrite Hlim. apply u32_small. lia. }
  rewrite H1. set (st2 := with_received st1 (_ack_limit st)).
  assert (H2 : _events_received_since_last_ack st2 = _ack_limit st2) by (by destruct st).
  rewrite H2, Z.leb_refl. unfold send_event_acknowledgement.
  replace (_coarse st2) with false by (by destruct st).
  unfold _write. rewrite H2. replace (_ack_limit st2) with (_ack_limit st) by (by destruct st).
  rewrite Hwa. cbn [sub_write script_substream]. cbv beta iota.
  eexists _, ds1, wa. split; [done|]. split; [done|]. rewrite <-Hp. by destruct st.
Qed.

(** *** Negotiating *)

(** The extensions both sides know, that this side can load. *)
Definition agreed (own_ext peer_ext : list cstring) : list cstring :=
  filter (fun ext => mem ext peer_ext && mem ext protocols) own_ext.

Definition with_layers (st : stream script) (l : list cstring) : stream script :=
  with_substream st (Script (incoming (_substream st)) (written (_substream st)) l).

Lemma negotiate_extensions_layers neg peer_ext own_ext st :
  negotiate_extensions protocols neg peer_ext [] own_ext st
  = (with_layers st (reverse (agreed own_ext peer_ext) ++ layers (_substream st)), Returns tt).
Proof.
  revert st. induction own_ext as [|ext own IH]; intros st; cbn [negotiate_extensions].
  { cbn. by destruct st as [? ? ? ? ? ? ? ? ? ? ? []]. }
  unfold negotiate_extension. change (negb (mem ext [])) with true. change (mem ext []) with false.
  unfold agreed. rewrite filter_cons.
  destruct (mem ext peer_ext) eqn:E1; cbn [andb]; cbv beta iota.
  - destruct (mem ext protocols) eqn:E2; cbv beta iota.
    + cbn [sub_wrap script_layered]. rewrite IH.
      rewrite (decide_True _ _ I). rewrite reverse_cons, <-app_assoc.
      by destruct st as [? ? ? ? ? ? ? ? ? ? ? []].
    + rewrite IH. by destruct (decide _).
  - destruct (negb (cstring_eqb ext [])); rewrite IH; by destruct (decide _).
Qed.

(** Negotiation between two peers that were just connected: the side that
    answers sends its own welcome, and stacks, in the order of its list,
    exactly the protocols both lists name. *)
Theorem negotiate_second_agrees fuel st ds tail rest peer_ext wire :
  bbdo_loaded reg -> forallb (fun b => negb (byte_eqb x00 b)) peer_ext = true ->
  forallb (fun b => negb (byte_eqb x00 b)) (fst (_extensions st)) = true ->
  _negotiate st = true -> _buffer st = [] -> layers (_substream st) = [] ->
  serialize reg (new_version_response peer_ext) = Returns (Some wire) ->
  awaits st ds tail -> available st ds = wire ++ rest ->
  (length ds + length wire < fuel)%nat ->
  exists st' own_wire ds',
    serialize reg (new_version_response (fst (_extensions st))) = Returns (Some own_wire)
    /\ negotiate reg protocols now fuel negotiate_second st = (st', Returns tt)
    /\ _negotiated st' = true
    /\ written (_substream st') = written (_substream st) ++ [own_wire]
    /\ layers (_substream st')
       = reverse (agreed (Str.split (fst (_extensions st)) x20) (Str.split peer_ext x20))
    /\ awaits st' ds' tail /\ available st' ds' = rest.
Proof.
  intros Hld Hpe Hoe Hn Hb Hla Hse Ha Hav Hfuel.
  destruct (serialize_ok (new_version_response (fst (_extensions st)))) as [wo Hwo].
  { by apply version_response_ok. }
  set (dl := if _timeout st =? -1 then -1 else now + _timeout st).
  destruct (read_any_event reg fuel dl st ds tail (new_version_response peer_ext) wire [] rest)
    as (p & ds1 & Hp & Hd & E); try done.
  { by apply version_response_ok. } { rewrite Hb. constructor. } { rewrite Hb. cbn. lia. } { cbn; lia. } { cbn; lia. }
  unfold negotiate. rewrite Hn. change (bool_decide (negotiate_second = negotiate_first)) with false.
  cbv beta iota. fold dl. rewrite E. cbv beta iota.
  change (type (new_version_response peer_ext)) with version_response_type. rewrite Z.eqb_refl.
  change (bbdo_major (new_version_response peer_ext)) with BBDO_VERSION_MAJOR.
  change (peer_extensions (new_version_response peer_ext)) with peer_ext.
  change (negb true) with false. change (negb (BBDO_VERSION_MAJOR =? BBDO_VERSION_MAJOR)) with false.
  change (bool_decide (negotiate_second = negotiate_second)) with true. cbv beta iota.
  unfold _write. rewrite Hwo. cbn [sub_write sub_flush script_substream]. cbv beta iota.
  unfold get_running_config. cbn [sub_names script_layered].
  match goal with |- context [negotiate_extensions _ _ _ ?l _ ?s] =>
    assert (Hnil : l = []) by (rewrite <-Hla; by destruct st);
    rewrite Hnil, negotiate_extensions_layers; set (stw := s) end.
  cbv beta iota. eexists _, wo, ds1. split; [done|]. split; [done|].
  rewrite <-Hp. assert (Hls : layers (_substream stw) = []) by (rewrite <-Hla; by destruct st).
  rewrite Hls, app_nil_r. by destruct st.
Qed.
End Peers.

(** ** The theorems at work on a small event *)

Definition demo_type : Z := make_type neb 5.
Definition demo_registry : registry :=
  match register_category 3 base_registry (str "neb") neb with
  | Returns (r, _) =>
    match register_event r neb 5 (Event_info (str "demo")
            (Some [VBool false; VInt 0; VString []; VDouble (Dbl.of_Z 0)])
            [Entry BOOL true None 0 0; Entry INT true None 0 0; Entry STRING true None 0 0; Entry DOUBLE false None 0 0] []) with
    | Returns (r, _) => r
    | _ => ∅
    end
  | _ => ∅
  end.
Definition demo_event : data :=
  Data demo_type 1 2 [VBool true; VInt (-7); VString (str "up"); VDouble (Dbl.of_Z 0)].

Definition wire_of (d : data) : cstring :=
  match serialize demo_registry d with Returns (Some w) => w | _ => [] end.

Definition demo_stream (bytes : cstring) : stream script :=
  set_ack_limit
    (set_negotiate (new_stream (Script [Arrives (Some (Raw (take 10 bytes)));
        Arrives (Some Other_data); Arrives (Some (Raw (drop 10 bytes)))] [] []))
      true (str "TLS compression", [])) 2.

Definition demo_ds (bytes : cstring) : list (option received) :=
  [Some (Raw (take 10 bytes)); Some Other_data; Some (Raw (drop 10 bytes))].

Lemma demo_loaded : bbdo_loaded demo_registry.
Proof. split; vm_compute; reflexivity. Defined.

Lemma demo_ok : event_ok demo_registry demo_event.
Proof.
  split; [by vm_compute|]. split; [by vm_compute|]. split; [by vm_compute|].
  eexists _, _. split; [vm_compute; reflexivity|]. split; [reflexivity|].
  repeat split; vm_compute; discriminate || reflexivity.
Defined.

Lemma read_any_roundtrip_witness :
  exists st' ds', _read_any demo_registry 100 0 (demo_stream (wire_of demo_event ++ [x2a]))
      = (st', Returns (true, Some demo_event))
    /\ awaits st' ds' [] /\ available st' ds' = [x2a]
    /\ _buffer st' = [] /\ (length ds' <= 3)%nat.
Proof.
  apply (read_any_roundtrip demo_registry 100 0 (demo_stream (wire_of demo_event ++ [x2a]))
    (demo_ds (wire_of demo_event ++ [x2a])) [] demo_event (wire_of demo_event) [x2a]).
  - apply demo_ok.
  - vm_compute. reflexivity.
  - constructor.
  - apply Nat.leb_le. reflexivity.
  - reflexivity.
  - vm_compute. reflexivity.
  - apply Nat.ltb_lt. vm_compute. reflexivity.
Defined.

Lemma read_any_resync_witness :
  exists st' ds', _read_any demo_registry 100 0 (demo_stream ([x01; x02] ++ wire_of demo_event))
      = (st', Returns (true, Some demo_event))
    /\ available st' ds' = [] /\ awaits st' ds' [] /\ _skipped st' = 0.
Proof.
  apply (read_any_resync demo_registry 100 0 (demo_stream ([x01; x02] ++ wire_of demo_event))
    (demo_ds ([x01; x02] ++ wire_of demo_event)) [] demo_event (wire_of demo_event) [x01; x02] []).
  - apply demo_ok.
  - vm_compute. reflexivity.
  - constructor.
  - apply Nat.leb_le. reflexivity.
  - reflexivity.
  - vm_compute. reflexivity.
  - intros [|[|i]] Hi; [vm_compute; discriminate|vm_compute; discriminate|cbn in Hi; lia].
  - apply Nat.ltb_lt. vm_compute. reflexivity.
Defined.

Lemma read_credits_acknowledgement_witness :
  exists st' ds', read demo_registry 200 0
      (demo_stream (wire_of (new_ack 12) ++ wire_of demo_event))
      = (st', Returns (true, Some demo_event))
    /\ available st' ds' = [] /\ awaits st' ds' []
    /\ _acknowledged_events st' = 12 /\ _events_received_since_last_ack st' = 1.
Proof.
  apply (read_credits_acknowledgement demo_registry 200 0
    (demo_stream (wire_of (new_ack 12) ++ wire_of demo_event))
    (demo_ds (wire_of (new_ack 12) ++ wire_of demo_event)) [] demo_event 12
    (wire_of demo_event) (wire_of (new_ack 12)) []).
  - apply demo_loaded.
  - by vm_compute.
  - apply demo_ok.
  - vm_compute. discriminate.
  - vm_compute. reflexivity.
  - vm_compute. reflexivity.
  - reflexivity.
  - by vm_compute.
  - by vm_compute.
  - reflexivity.
  - vm_compute. reflexivity.
  - apply Nat.ltb_lt. vm_compute. reflexivity.
Defined.

Lemma read_sends_acknowledgement_witness :
  exists st' ds' wire_ack, serialize demo_registry (new_ack 1) = Returns (Some wire_ack)
    /\ read demo_registry 200 0 (set_ack_limit (demo_stream (wire_of demo_event)) 1)
       = (st', Returns (true, Some demo_event))
    /\ written (_substream st') = [] ++ [wire_ack]
    /\ _events_received_since_last_ack st' = 0
    /\ awaits st' ds' [] /\ available st' ds' = [].
Proof.
  apply (read_sends_acknowledgement demo_registry 200 0
    (set_ack_limit (demo_stream (wire_of demo_event)) 1)
    (demo_ds (wire_of demo_event)) [] demo_event (wire_of demo_event) []).
  - apply demo_loaded.
  - apply demo_ok.
  - vm_compute. discriminate.
  - vm_compute. reflexivity.
  - reflexivity.
  - reflexivity.
  - reflexivity.
  - by vm_compute.
  - reflexivity.
  - vm_compute. reflexivity.
  - apply Nat.ltb_lt. vm_compute. reflexivity.
Defined.

Lemma negotiate_second_agrees_witness :
  exists st' own_wire ds',
    serialize demo_registry (new_version_response (str "TLS compression")) = Returns (Some own_wire)
    /\ negotiate demo_registry [str "TLS"; str "TCP"; str "compression"] 0 200 negotiate_second
         (demo_stream (wire_of (new_version_response (str "compression TLS X")))) = (st', Returns tt)
    /\ _negotiated st' = true
    /\ written (_substream st') = [] ++ [own_wire]
    /\ layers (_substream st')
       = reverse (agreed [str "TLS"; str "TCP"; str "compression"]
                   (Str.split (str "TLS compression") x20) (Str.split (str "compression TLS X") x20))
    /\ awaits st' ds' [] /\ available st' ds' = [].
Proof.
  apply (negotiate_second_agrees demo_registry [str "TLS"; str "TCP"; str "compression"] 0 200
    (demo_stream (wire_of (new_version_response (str "compression TLS X"))))
    (demo_ds (wire_of (new_version_response (str "compression TLS X")))) [] []
    (str "compression TLS X") (wire_of (new_version_response (str "compression TLS X")))).
  - apply demo_loaded.
  - reflexivity.
  - reflexivity.
  - reflexivity.
  - reflexivity.
  - reflexivity.
  - vm_compute. reflexivity.
  - reflexivity.
  - vm_compute. reflexivity.
  - apply Nat.ltb_lt. vm_compute. reflexivity.
Defined.

Lemma read_any_bounded_witness :
  (length (_buffer (fst (_read_any demo_registry 100 0 (demo_stream [])))) <= 4)%nat.
Proof.
  apply (read_any_bounded demo_registry 100 0 (demo_stream []) _
    (snd (_read_any demo_registry 100 0 (demo_stream [])))).
  - apply Nat.leb_le. reflexivity.
  - by destruct (_read_any demo_registry 100 0 (demo_stream [])).
Defined.
End BbdoStream.
