(* ===== verification/Muxer.v ===== *)
(** * The muxer (core/src/multiplexing/muxer.cc)

    The queue between the engine and one endpoint: events wait in memory, then
    in a retention file once the memory queue is full; they are handed out once
    and kept until they are acknowledged. The retention file is any
    implementation of the [QueueFile] interface. The theorems show that, the
    size limit being fixed, the whole is one first-in first-out queue with
    acknowledgement, across restarts too. *)

From Stdlib Require Import ZArith Lia ZifyNat ZifyBool Strings.Byte.
From stdpp Require Import base option list numbers gmap sets.
From S2P Require Import Prelude.

Module Muxer.

(** ** Retention files (persistent_file)

    Reading takes the oldest record off the file; there is no event (None) for
    a record whose type is not known. Reading at the end throws shutdown. The
    first operation on a closed file opens it. *)
Class QueueFile (E F : Type) : Type := {
  file_read : F -> F * outcome (option E);
  file_write : F -> E -> F * outcome unit;
  (** The destruction of the object: what stays on disk. *)
  file_close : F -> F
}.

(** What the muxer relies on: the file is a first-in first-out queue of the
    events it can store. [holds f again l]: it will give [l], and it would also
    give the events [again], which were read already, if it were closed and
    opened again. *)
Class QueueFileLaws (E F : Type) `{!QueueFile E F} : Type := {
  holds : F -> list (option E) -> list (option E) -> Prop;
  storable : E -> Prop;
  (** How many records can still be written before a part number overflows. *)
  room : F -> nat;
  file_read_end f again : holds f again [] ->
    exists f', file_read f = (f', Throws Exn_shutdown) /\ holds (file_close f') [] [];
  file_read_first f again r l : holds f again (r :: l) ->
    exists f' again', file_read f = (f', Returns r) /\ holds f' again' l
      /\ (again' = again ++ [r] \/ again' = [r]);
  file_write_last f again l e : holds f again l -> storable e ->
    exists f', file_write f e = (f', Returns tt) /\ holds f' again (l ++ [Some e]) /\ (room f <= S (room f'))%nat;
  file_close_rereads f again l : holds f again l -> (0 < room f)%nat -> holds (file_close f) [] (again ++ l);
  holds_storable f again l : holds f again l -> Forall storable (omap id (again ++ l))
}.

(** A std::list iterator: on the element of some rank, or past the end. *)
Inductive iterator : Type :=
  | At (i : nat)
  | End.

#[global] Instance iterator_eq_dec : EqDecision iterator.
Proof. solve_decision. Defined.

Section Muxer.
Context {E F : Type} `{!QueueFile E F}.
Variable type_of : E -> Z.

(** The object and its two files on disk. [_file] tells whether the queue file
    is open; the files themselves outlive the object. *)
Record muxer : Type := Mk_muxer {
  _events : list E;
  _events_size : Z;
  _pos : iterator;
  _file : bool;
  _queue_file : F;
  _memory_file : F;
  _persistent : bool;
  _read_filters : gset Z;
  _write_filters : gset Z
}.

Implicit Types m : muxer.

Definition with_events m l n p :=
  Mk_muxer l n p (_file m) (_queue_file m) (_memory_file m) (_persistent m) (_read_filters m) (_write_filters m).
Definition with_pos m p := with_events m (_events m) (_events_size m) p.
Definition with_file m b f :=
  Mk_muxer (_events m) (_events_size m) (_pos m) b f (_memory_file m) (_persistent m)
    (_read_filters m) (_write_filters m).
Definition with_memory_file m f :=
  Mk_muxer (_events m) (_events_size m) (_pos m) (_file m) (_queue_file m) f (_persistent m)
    (_read_filters m) (_write_filters m).
Definition set_read_filters m fltrs :=
  Mk_muxer (_events m) (_events_size m) (_pos m) (_file m) (_queue_file m) (_memory_file m)
    (_persistent m) fltrs (_write_filters m).
Definition set_write_filters m fltrs :=
  Mk_muxer (_events m) (_events_size m) (_pos m) (_file m) (_queue_file m) (_memory_file m)
    (_persistent m) (_read_filters m) fltrs.

(** The static size limit, 0 meaning none. *)
Definition event_queue_max_size (max : Z) : Z := if max =? 0 then 2 ^ 32 - 1 else max.

(** std::list: begin(), ++it, --end(), and the effect of pop_front on an
    iterator to another element. *)
Definition begin_of (l : list E) : iterator := match l with [] => End | _ => At 0 end.
Definition next (l : list E) (it : iterator) : iterator :=
  match it with
  | At i => if (S i =? length l)%nat then End else At (S i)
  | End => End
  end.
Definition before_end (l : list E) : iterator := At (length l - 1).
Definition after_pop (it : iterator) : iterator :=
  match it with At i => At (pred i) | End => End end.
Definition deref (l : list E) (it : iterator) : option E :=
  match it with At i => l !! i | End => None end.

(** do { _file->read(event); } while (!event); with the end of file caught. *)
Fixpoint read_file_loop (fuel : nat) m : muxer * outcome (option E) :=
  match fuel with
  | O => (m, Diverges)
  | S fuel' =>
    match file_read (_queue_file m) with
    | (f, Returns (Some e)) => (with_file m true f, Returns (Some e))
    | (f, Returns None) => read_file_loop fuel' (with_file m true f)
    | (f, Throws Exn_shutdown) => (with_file m false (file_close f), Returns None)
    | (f, Throws e) => (with_file m true f, Throws e)
    | (f, Diverges) => (with_file m true f, Diverges)
    end
  end.

Definition _get_event_from_file (fuel : nat) m : muxer * outcome (option E) :=
  if _file m then read_file_loop fuel m else (m, Returns None).

Definition _push_to_queue m (event : E) : muxer :=
  let pos_has_no_more_to_read := bool_decide (_pos m = End) in
  let m := with_events m (_events m ++ [event]) (u32 (_events_size m + 1)) (_pos m) in
  if pos_has_no_more_to_read then with_pos m (before_end (_events m)) else m.

Section Operations.
(** The size limit in force. *)
Variable max : Z.

(** ** The constructor and the destructor *)

(** The memory file, read until the end of file is thrown. *)
Fixpoint load_memory (fuel : nat) m : muxer * outcome unit :=
  match fuel with
  | O => (m, Diverges)
  | S fuel' =>
    match file_read (_memory_file m) with
    | (f, Returns d) =>
      let m := with_memory_file m f in
      load_memory fuel'
        (match d with
         | Some e => with_events m (_events m ++ [e]) (u32 (_events_size m + 1)) (_pos m)
         | None => m
         end)
    | (f, Throws Exn_shutdown) => (with_memory_file m (file_close f), Returns tt)
    | (f, Throws e) => (with_memory_file m (file_close f), Throws e)
    | (f, Diverges) => (with_memory_file m f, Diverges)
    end
  end.

(** The queue file: one event at least is asked for. *)
Fixpoint load_queue (fuel : nat) m : muxer * outcome unit :=
  match fuel with
  | O => (m, Diverges)
  | S fuel' =>
    match _get_event_from_file fuel m with
    | (m, Returns None) => (m, Returns tt)
    | (m, Returns (Some e)) =>
      let m := with_events m (_events m ++ [e]) (u32 (_events_size m + 1)) (_pos m) in
      if _events_size m <? event_queue_max_size max then load_queue fuel' m else (m, Returns tt)
    | (m, Throws e) => (m, Throws e)
    | (m, Diverges) => (m, Diverges)
    end
  end.

Definition new_muxer (fuel : nat) (persistent : bool) (queue memory : F) : muxer * outcome unit :=
  let m := Mk_muxer [] 0 End false queue memory persistent ∅ ∅ in
  match (if persistent then load_memory fuel m else (m, Returns tt)) with
  | (m, Returns _) =>
    match load_queue fuel (with_file m true (_queue_file m)) with
    | (m, Returns _) => (with_pos m (begin_of (_events m)), Returns tt)
    | (m, Throws Exn_shutdown) => (with_pos m (begin_of (_events m)), Returns tt)
    | r => r
    end
  | r => r
  end.

(** Write the events to the memory file until one write fails, and close it. *)
Fixpoint backup (l : list E) (f : F) : F :=
  match l with
  | [] => file_close f
  | e :: l' =>
    match file_write f e with
    | (f', Returns _) => backup l' f'
    | (f', _) => file_close f'
    end
  end.

Definition _clean m : muxer :=
  let m := with_file m false (if _file m then file_close (_queue_file m) else _queue_file m) in
  let m := if _persistent m && negb (match _events m with [] => true | _ => false end)
           then with_memory_file m (backup (_events m) (_memory_file m)) else m in
  with_events m [] 0 End.

(** ** Publishing, reading, acknowledging *)

Definition publish m (event : option E) : muxer * outcome unit :=
  match event with
  | None => (m, Returns tt)
  | Some e =>
    if bool_decide (type_of e ∈ _write_filters m) then
      if event_queue_max_size max <=? _events_size m then
        let '(f, r) := file_write (_queue_file m) e in
        (with_file m true f, r)
      else (_push_to_queue m e, Returns tt)
    else (m, Returns tt)
  end.

(** Waiting on the condition variable releases the lock: [wait] is what the
    other threads do meanwhile, and whether the wait ended by a timeout. *)
Definition read m (wait : muxer -> muxer * bool) : muxer * (bool * option E) :=
  if bool_decide (_pos m = End) then
    let '(m, timed_out) := wait m in
    if negb (bool_decide (_pos m = End)) then
      let event := deref (_events m) (_pos m) in
      let m := with_pos m (next (_events m) (_pos m)) in
      let timed_out := match event with Some _ => false | None => timed_out end in
      (m, (negb timed_out, event))
    else (m, (negb timed_out, None))
  else
    (with_pos m (next (_events m) (_pos m)), (true, deref (_events m) (_pos m))).

(** The removal loop of ack_events. *)
Fixpoint ack_loop (count : nat) m : muxer :=
  match count with
  | O => m
  | S count' =>
    match _events m with
    | [] => m
    | _ :: l =>
      if bool_decide (begin_of (_events m) = _pos m) then m
      else ack_loop count' (with_events m l (u32 (_events_size m - 1)) (after_pop (_pos m)))
    end
  end.

(** Fill memory from file. *)
Fixpoint refill (fuel : nat) m : muxer * outcome unit :=
  if _events_size m <? event_queue_max_size max then
    match fuel with
    | O => (m, Diverges)
    | S fuel' =>
      match _get_event_from_file fuel m with
      | (m, Returns None) => (m, Returns tt)
      | (m, Returns (Some e)) => refill fuel' (_push_to_queue m e)
      | (m, Throws e) => (m, Throws e)
      | (m, Diverges) => (m, Diverges)
      end
    end
  else (m, Returns tt).

Definition ack_events (fuel : nat) m (count : Z) : muxer * outcome unit :=
  if count =? 0 then (m, Returns tt)
  else refill fuel (ack_loop (Z.to_nat count) m).

Definition nack_events m : muxer := with_pos m (begin_of (_events m)).

(** write: the event handed to the engine, if any. *)
Definition write m (d : option E) : option E :=
  match d with
  | Some e => if bool_decide (type_of e ∈ _read_filters m) then Some e else None
  | None => None
  end.

Definition get_event_queue_size m : Z := u32 (Z.of_nat (length (_events m))).

(** The number of events between begin() and _pos. *)
Definition unacknowledged m : nat :=
  match _pos m with At i => i | End => length (_events m) end.

Definition statistics m : bool * Z := (_file m, Z.of_nat (unacknowledged m)).

End Operations.
(** ** The specification: a first-in first-out queue with acknowledgement *)

Record queue : Type := Mk_queue { unacked : list E; waiting : list E }.

Definition q_publish (q : queue) (e : E) : queue := Mk_queue (unacked q) (waiting q ++ [e]).
Definition q_read (q : queue) : option (E * queue) :=
  match waiting q with
  | [] => None
  | e :: w => Some (e, Mk_queue (unacked q ++ [e]) w)
  end.
Definition q_ack (n : nat) (q : queue) : queue := Mk_queue (drop n (unacked q)) (waiting q).
Definition q_nack (q : queue) : queue := Mk_queue [] (unacked q ++ waiting q).

(** ** The invariant and the abstraction *)

Section Refinement.
Context `{!QueueFileLaws E F}.
Variable max : Z.
Hypothesis max_range : 0 <= max < 2 ^ 32.

Definition limit : Z := event_queue_max_size max.

Record mem_ok m (again l : list (option E)) : Prop := {
  ok_size : _events_size m = Z.of_nat (length (_events m));
  ok_bound : Z.of_nat (length (_events m)) < 2 ^ 32;
  ok_pos : match _pos m with At i => (i < length (_events m))%nat | End => True end;
  ok_holds : holds (_queue_file m) again l;
  ok_closed : _file m = false -> again = [] /\ l = [];
  ok_storable : Forall storable (_events m)
}.

(** Order: events only go to the file while the memory is full. *)
Record wf m (again l : list (option E)) : Prop := {
  wf_mem : mem_ok m again l;
  wf_full : l = [] \/ limit <= _events_size m
}.

(** The events among the records of a file, unreadable ones left out. *)
Definition backlog (l : list (option E)) : list E := omap id l.

(** The queue a muxer stands for, with the records of its queue file. *)
Definition abs m (l : list (option E)) : queue :=
  Mk_queue (take (unacknowledged m) (_events m))
    (drop (unacknowledged m) (_events m) ++ backlog l).

Lemma limit_range : 0 < limit < 2 ^ 32.
Proof. unfold limit, event_queue_max_size. case_if; zbool; lia. Qed.

Lemma unacknowledged_le m again l : mem_ok m again l -> (unacknowledged m <= length (_events m))%nat.
Proof. intros [_ _ H _ _ _]. unfold unacknowledged. destruct (_pos m); lia. Qed.

(** Pushing an event to the memory queue. *)
Lemma push_to_queue_spec m again l e :
  mem_ok m again l -> _events_size m < 2 ^ 32 - 1 ->
  let m' := _push_to_queue m e in
  _events m' = _events m ++ [e] /\ unacknowledged m' = unacknowledged m
  /\ _events_size m' = _events_size m + 1
  /\ match _pos m' with At i => (i < length (_events m'))%nat | End => False end
  /\ _file m' = _file m /\ _queue_file m' = _queue_file m.
Proof.
  intros [Hs Hb Hp _ _ _] Hlt. unfold _push_to_queue, unacknowledged, with_pos, with_events.
  case_bool_decide as E'; cbn [_events _events_size _pos _file _queue_file].
  - rewrite E'. unfold before_end. rewrite length_app, u32_small by lia. cbn [length].
    repeat split; lia.
  - rewrite u32_small by lia. rewrite length_app.
    destruct (_pos m) as [i|]; [|done]. cbn [length]. repeat split; lia.
Qed.

(** Reading the file: nothing and a closed file, or its first event. *)
Lemma get_event_spec fuel m again l :
  holds (_queue_file m) again l -> (_file m = false -> again = [] /\ l = []) -> (length l < fuel)%nat ->
  exists m' o again' l', _get_event_from_file fuel m = (m', Returns o)
    /\ _events m' = _events m /\ _events_size m' = _events_size m /\ _pos m' = _pos m
    /\ holds (_queue_file m') again' l'
    /\ match o with
       | None => backlog l = [] /\ l' = [] /\ again' = [] /\ _file m' = false
       | Some e => backlog l = e :: backlog l' /\ _file m' = true /\ (length l' < length l)%nat
       end.
Proof.
  intros Hh Hw. unfold _get_event_from_file. destruct (_file m) eqn:Ef.
  2:{ intros _. destruct (Hw eq_refl) as [-> ->]. by exists m, None, [], []. }
  clear Hw Ef. revert m again l Hh. induction fuel as [|fuel IH]; intros m again l Hh Hf; [lia|]. cbn [read_file_loop].
  destruct l as [|r l].
  - destruct (file_read_end _ _ Hh) as (f & -> & Hf'). by eexists _, None, [], [].
  - destruct (file_read_first _ _ _ _ Hh) as (f & again' & -> & Hf' & _). destruct r as [e|].
    + eexists _, (Some e), again', l. split; [done|]. cbn. repeat split; [done|lia].
    + destruct (IH (with_file m true f) again' l) as (m' & o & again'' & l' & -> & H1 & H2 & H3 & H4 & H5).
      { done. } { cbn in Hf. lia. }
      eexists m', o, again'', l'. split; [done|]. cbn in *. split_and!; try done.
      destruct o; [|done]. destruct H5 as (? & ? & ?). split_and!; [done|done|lia].
Qed.

(** ** Publish *)

Lemma publish_refines m again l e : wf m again l -> type_of e ∈ _write_filters m -> storable e ->
  exists m' l', publish max m (Some e) = (m', Returns tt) /\ wf m' again l' /\ abs m' l' = q_publish (abs m l) e.
Proof.
  intros Hw Hfl Hst. pose proof limit_range as Hl. unfold publish. rewrite bool_decide_eq_true_2 by done.
  fold limit. pose proof Hw as [[Hs Hb Hp Hh Hc Hst'] Hf]. destruct (Z.leb_spec limit (_events_size m)).
  - destruct (file_write_last (_queue_file m) again l e Hh Hst) as (f & -> & Hf' & _). eexists _, (l ++ [Some e]).
    split; [done|]. split.
    + split; [|by right]. by constructor.
    + unfold abs, q_publish, unacknowledged, backlog. cbn. f_equal. by rewrite omap_app, app_assoc.
  - destruct Hf as [->|Hf]; [|lia].
    destruct (push_to_queue_spec m again [] e (wf_mem _ _ _ Hw) ltac:(lia)) as (H1 & H2 & H3 & H4 & H5 & H6).
    pose proof (unacknowledged_le m _ _ (wf_mem _ _ _ Hw)).
    eexists _, []. split; [done|]. split.
    + split; [constructor|]; rewrite ?H3, ?H5, ?H6; try done.
      * rewrite H1, length_app. cbn [length]. lia.
      * rewrite H1, length_app. cbn [length]. lia.
      * by destruct (_pos (_push_to_queue m e)).
      * rewrite H1. apply Forall_app. by repeat constructor.
      * by left.
    + unfold abs, q_publish. rewrite H1, H2. cbn [unacked waiting]. f_equal.
      * by rewrite take_app_le by lia.
      * cbn. rewrite !app_nil_r. by rewrite drop_app_le by lia.
Qed.

(** ** Read *)

Lemma pos_end_iff m again l : wf m again l -> (_pos m = End <-> drop (unacknowledged m) (_events m) = []) .
Proof.
  intros [[Hs Hb Hp _ _ _] _]. unfold unacknowledged. destruct (_pos m) as [i|].
  - split; [done|]. intros H. apply (f_equal length) in H. rewrite length_drop in H. cbn in H. lia.
  - split; [|done]. intros _. apply drop_ge. lia.
Qed.

Lemma read_available m again l i : wf m again l -> _pos m = At i ->
  exists e, _events m !! i = Some e
    /\ let m' := with_pos m (next (_events m) (_pos m)) in
       deref (_events m) (_pos m) = Some e /\ wf m' again l /\ q_read (abs m l) = Some (e, abs m' l).
Proof.
  intros Hw Hpos. pose proof Hw as [[Hs Hb Hp Hh Hc Hst] Hf]. rewrite Hpos in Hp.
  destruct (lookup_lt_is_Some_2 _ _ Hp) as [e He]. exists e. split; [done|].
  rewrite Hpos. cbn [deref next]. split; [done|].
  assert (Hn : unacknowledged (with_pos m (if (S i =? length (_events m))%nat then End else At (S i))) = S i).
  { unfold unacknowledged. cbn [with_pos with_events _pos _events]. destruct (Nat.eqb_spec (S i) (length (_events m))); lia. }
  split.
  - split; [|done]. constructor; cbn [with_pos with_events _pos _events _events_size _file _queue_file]; try done.
    destruct (Nat.eqb_spec (S i) (length (_events m))); [done|lia].
  - unfold abs, q_read. rewrite Hn. cbn [with_pos with_events _events _queue_file].
    unfold unacknowledged. rewrite Hpos. cbn [waiting unacked].
    rewrite (drop_S _ e) by done. cbn [app]. by rewrite (take_S_r _ _ e) by done.
Qed.

(** What read returns: the oldest waiting event, or nothing when no event is
    in memory after the wait. *)
Lemma read_refines m again l wait m' b o :
  let m1 := if bool_decide (_pos m = End) then fst (wait m) else m in
  wf m1 again l -> read m wait = (m', (b, o)) ->
  wf m' again l /\
  match o with
  | Some e => b = true /\ q_read (abs m1 l) = Some (e, abs m' l)
  | None => m' = m1 /\ _pos m1 = End
  end.
Proof.
  intros m1 Hw. unfold m1 in *. clear m1. unfold read. case_bool_decide as E'.
  - destruct (wait m) as [m1 t]. cbn [fst] in Hw. case_bool_decide as E1; cbn [negb].
    + intros [= <- <- <-]. done.
    + destruct (_pos m1) as [i|] eqn:Ei; [|done].
      destruct (read_available m1 again l i Hw Ei) as (e & _ & Hd & Hw' & Hq). rewrite Ei in Hd, Hw', Hq.
      rewrite Hd. intros [= <- <- <-]. done.
  - destruct (_pos m) as [i|] eqn:Ei; [|done].
    destruct (read_available m again l i Hw Ei) as (e & _ & Hd & Hw' & Hq). rewrite Ei in Hd, Hw', Hq.
    rewrite Hd. intros [= <- <- <-]. done.
Qed.

(** ** Acknowledge *)

Lemma ack_loop_spec again l n : forall m, mem_ok m again l ->
  let m' := ack_loop n m in
  mem_ok m' again l /\ _events m' = drop (n `min` unacknowledged m) (_events m)
  /\ unacknowledged m' = (unacknowledged m - n)%nat
  /\ _queue_file m' = _queue_file m /\ _file m' = _file m.
Proof.
  induction n as [|n IH]; intros m Hm; cbn [ack_loop].
  { cbn. rewrite Nat.sub_0_r, drop_0. done. }
  pose proof Hm as [Hs Hb Hp Hh Hc Hst].
  destruct (_events m) as [|e evs] eqn:El.
  - assert (unacknowledged m = 0%nat) as ->.
    { unfold unacknowledged. rewrite El. destruct (_pos m); cbn in *; [lia|done]. }
    rewrite Nat.min_0_r, El. done.
  - cbn [begin_of]. case_bool_decide as Eb.
    + assert (unacknowledged m = 0%nat) as -> by (unfold unacknowledged; by rewrite <-Eb).
      rewrite Nat.min_0_r, El. done.
    + set (m1 := with_events m evs _ _).
      assert (Hu : unacknowledged m = S (unacknowledged m1)).
      { unfold unacknowledged, m1. cbn [with_events _pos _events]. rewrite El.
        destruct (_pos m) as [[|i]|]; [done|done|done]. }
      assert (Hm1 : mem_ok m1 again l).
      { unfold m1. constructor; cbn [with_events _pos _events _events_size _file _queue_file].
        - rewrite u32_small; cbn in Hs, Hb; lia.
        - cbn in Hb. lia.
        - destruct (_pos m) as [[|i]|]; cbn in *; [done|lia|done].
        - done.
        - done.
        - by apply Forall_cons in Hst as [_ ?]. }
      destruct (IH m1 Hm1) as (H1 & H2 & H3 & H4 & H5). rewrite Hu.
      split; [done|]. split; [rewrite H2; done|]. split; [rewrite H3; done|]. done.
Qed.

Lemma refill_spec fuel : forall m again l, mem_ok m again l -> (length l < fuel)%nat ->
  exists m' again' l', refill max fuel m = (m', Returns tt) /\ wf m' again' l' /\ abs m' l' = abs m l.
Proof.
  pose proof limit_range as Hl.
  induction fuel as [|fuel IH]; intros m again l Hm Hf; [lia|]. cbn [refill]. fold limit.
  destruct (Z.ltb_spec (_events_size m) limit) as [Hlt|Hge].
  2:{ exists m, again, l. split; [done|]. split; [|done]. split; [done|by right]. }
  pose proof Hm as [Hs Hb Hp Hh Hc Hst].
  destruct (get_event_spec (S fuel) m again l Hh Hc Hf) as (m1 & o & again1 & l1 & -> & H1 & H2 & H3 & Hh1 & H4).
  pose proof (holds_storable _ _ _ Hh) as Hstl. rewrite omap_app in Hstl. apply Forall_app in Hstl as [_ Hstl].
  destruct o as [e|].
  - destruct H4 as (H4 & H5 & H6). unfold backlog in H4. rewrite H4 in Hstl. apply Forall_cons in Hstl as [Hste _].
    assert (Hm1 : mem_ok m1 again1 l1).
    { constructor; rewrite ?H1, ?H2, ?H3; try done. by rewrite H5. }
    destruct (push_to_queue_spec m1 again1 l1 e Hm1 ltac:(lia)) as (P1 & P2 & P3 & P4 & P5 & P6).
    destruct (IH (_push_to_queue m1 e) again1 l1) as (m' & again' & l' & -> & Hw & Ha).
    { constructor; rewrite ?P3, ?P5, ?P6, ?H5; try done.
      - rewrite P1, length_app, H1, H2, Hs. cbn [length]. lia.
      - rewrite P1, length_app, H1. cbn [length]. lia.
      - by destruct (_pos (_push_to_queue m1 e)).
      - rewrite P1, H1. apply Forall_app. by repeat constructor. }
    { lia. }
    exists m', again', l'. split; [done|]. split; [done|]. rewrite Ha. unfold abs, backlog.
    assert (Hk : unacknowledged m1 = unacknowledged m) by (unfold unacknowledged; by rewrite H3, H1).
    pose proof (unacknowledged_le m _ _ Hm).
    rewrite P1, P2, Hk, H1, H4. rewrite take_app_le, drop_app_le by lia. by rewrite <-app_assoc.
  - destruct H4 as (H4 & -> & -> & H6). exists m1, [], []. split; [done|]. split.
    + split; [|by left]. constructor; rewrite ?H1, ?H2, ?H3; done.
    + unfold abs, unacknowledged. rewrite H1, H3, H4. done.
Qed.

Lemma ack_refines fuel m again l count :
  wf m again l -> 0 <= count -> (length l < fuel)%nat ->
  exists m' again' l', ack_events max fuel m count = (m', Returns tt) /\ wf m' again' l'
             /\ abs m' l' = q_ack (Z.to_nat count) (abs m l).
Proof.
  intros Hw Hc Hf. unfold ack_events. destruct (Z.eqb_spec count 0) as [->|Hnz].
  { exists m, again, l. split; [done|]. split; [done|]. unfold q_ack. change (Z.to_nat 0) with 0%nat.
    rewrite drop_0. by destruct (abs m l). }
  destruct (ack_loop_spec again l (Z.to_nat count) m (wf_mem _ _ _ Hw)) as (H1 & H2 & H3 & H4 & H5).
  destruct (refill_spec fuel (ack_loop (Z.to_nat count) m) again l H1 Hf) as (m' & again' & l' & -> & Hw' & Ha).
  exists m', again', l'. split; [done|]. split; [done|]. rewrite Ha. unfold abs, q_ack. cbn [unacked waiting].
  rewrite H2, H3. pose proof (unacknowledged_le m _ _ (wf_mem _ _ _ Hw)).
  set (k := unacknowledged m) in *. set (n := Z.to_nat count).
  rewrite drop_drop. replace (n `min` k + (k - n))%nat with k by lia. f_equal.
  rewrite skipn_firstn_comm.
  destruct (decide (n <= k)%nat).
  - by replace (n `min` k)%nat with n by lia.
  - replace (k - n)%nat with 0%nat by lia. by rewrite !take_0.
Qed.

(** ** Negative acknowledgement *)

Lemma nack_refines m again l : wf m again l -> wf (nack_events m) again l /\ abs (nack_events m) l = q_nack (abs m l).
Proof.
  intros Hw. pose proof Hw as [[Hs Hb Hp Hh Hc Hst] Hf].
  assert (Hu : unacknowledged (nack_events m) = 0%nat).
  { unfold unacknowledged, nack_events. cbn. by destruct (_events m). }
  split.
  - split; [|done]. constructor; cbn; try done. destruct (_events m); cbn; [done|lia].
  - unfold abs. rewrite Hu. cbn [nack_events with_pos with_events _events].
    unfold q_nack. cbn [unacked waiting]. rewrite take_0, drop_0. f_equal.
    by rewrite app_assoc, take_drop.
Qed.

(** ** Construction *)

Lemma load_memory_spec fuel : forall m again l,
  holds (_memory_file m) again l -> (length l < fuel)%nat ->
  _events_size m = Z.of_nat (length (_events m)) ->
  Z.of_nat (length (_events m) + length l) < 2 ^ 32 ->
  exists m', load_memory fuel m = (m', Returns tt)
    /\ _events m' = _events m ++ backlog l
    /\ _events_size m' = Z.of_nat (length (_events m'))
    /\ holds (_memory_file m') [] []
    /\ _queue_file m' = _queue_file m /\ _pos m' = _pos m /\ _persistent m' = _persistent m.
Proof.
  induction fuel as [|fuel IH]; intros m again l Hh Hf Hs Hb; [lia|]. cbn [load_memory].
  destruct l as [|r l].
  - destruct (file_read_end _ _ Hh) as (f & -> & Hf'). eexists. split; [done|]. cbn. by rewrite app_nil_r.
  - destruct (file_read_first _ _ _ _ Hh) as (f & again' & -> & Hf' & _).
    match goal with |- context [load_memory fuel ?x] => set (m1 := x) end.
    assert (Hm1 : _memory_file m1 = f /\ _queue_file m1 = _queue_file m
              /\ _pos m1 = _pos m /\ _persistent m1 = _persistent m
              /\ _events m1 = _events m ++ omap id [r]
              /\ _events_size m1 = Z.of_nat (length (_events m1))).
    { unfold m1. destruct r; cbn; repeat split; try done.
      - rewrite length_app, u32_small; cbn [length] in *; lia.
      - by rewrite app_nil_r. }
    destruct Hm1 as (M1 & M2 & M3 & M4 & M5 & M6).
    destruct (IH m1 again' l) as (m' & -> & H1 & H2 & H3 & H4 & H5 & H6); [by rewrite M1| |done|rewrite M5|].
    { cbn in Hf. lia. }
    { rewrite length_app. cbn [length] in Hb. destruct r; cbn; lia. }
    exists m'. split; [done|]. rewrite H4, H5, H6. repeat split; try done.
    rewrite H1, M5, <-app_assoc. f_equal. unfold backlog. by destruct r.
Qed.

Lemma get_event_keeps fuel m m' o :
  _get_event_from_file fuel m = (m', o) -> _memory_file m' = _memory_file m /\ _persistent m' = _persistent m.
Proof.
  unfold _get_event_from_file. destruct (_file m); [|by intros [= <- <-]].
  revert m. induction fuel as [|fuel IH]; intros m; cbn [read_file_loop]; [by intros [= <- <-]|].
  destruct (file_read _) as [f [[e|]|[]|]]; try (by intros [= <- <-]).
  intros H. by apply IH in H.
Qed.

Lemma load_queue_spec fuel : forall m again l,
  holds (_queue_file m) again l ->
  _file m = true -> _pos m = End -> Forall storable (_events m) ->
  _events_size m = Z.of_nat (length (_events m)) ->
  (length l < fuel)%nat ->
  Z.of_nat (length (_events m) + length l) < 2 ^ 32 ->
  exists m' again' l', load_queue max fuel m = (m', Returns tt) /\ wf m' again' l'
    /\ _events m' ++ backlog l' = _events m ++ backlog l
    /\ _memory_file m' = _memory_file m /\ _persistent m' = _persistent m.
Proof.
  induction fuel as [|fuel IH]; intros m again l Hh Hfi Hpos Hst Hs Hf Hb; [lia|]. cbn [load_queue]. fold limit.
  destruct (get_event_spec (S fuel) m again l Hh) as (m1 & o & again1 & l1 & E1 & H1 & H2 & H3 & Hh1 & H4);
    [by rewrite Hfi|done|].
  pose proof (holds_storable _ _ _ Hh) as Hstl. rewrite omap_app in Hstl. apply Forall_app in Hstl as [_ Hstl].
  rewrite E1. apply get_event_keeps in E1 as [K1 K2]. destruct o as [e|].
  - destruct H4 as (H4 & H5 & H6). unfold backlog in H4. rewrite H4 in Hstl. apply Forall_cons in Hstl as [Hste _].
    set (m2 := with_events m1 _ _ _).
    assert (Hs2 : _events_size m2 = Z.of_nat (length (_events m2))).
    { unfold m2. cbn. rewrite length_app, H1, H2, Hs, u32_small; cbn [length]; lia. }
    assert (He2 : _events m2 = _events m ++ [e]) by (unfold m2; cbn; by rewrite H1).
    assert (Hst2 : Forall storable (_events m2)) by (rewrite He2; apply Forall_app; by repeat constructor).
    destruct (Z.ltb_spec (_events_size m2) limit).
    + destruct (IH m2 again1 l1) as (m' & again' & l' & -> & Hw & Ha & Hm & Hp); try done.
      * unfold m2. cbn. by rewrite H3.
      * lia.
      * rewrite He2, length_app. cbn. lia.
      * exists m', again', l'. split; [done|]. split; [done|]. rewrite Ha, He2, Hm, Hp. unfold backlog. rewrite H4.
        unfold m2. cbn. by rewrite <-app_assoc.
    + exists m2, again1, l1. split; [done|]. split; [split; [constructor|by right]|].
      * done.
      * rewrite He2, length_app. cbn [length]. lia.
      * unfold m2. cbn. by rewrite H3, Hpos.
      * done.
      * unfold m2. cbn. by rewrite H5.
      * done.
      * rewrite He2. unfold backlog. rewrite H4. unfold m2. cbn. by rewrite <-app_assoc.
  - destruct H4 as (H4 & -> & -> & H6). exists m1, [], []. split; [done|].
    split; [split; [constructor|by left]|]; rewrite ?H1, ?H2, ?H3, ?Hpos; try done; [lia|].
    by rewrite H4.
Qed.

Lemma length_backlog l : (length (backlog l) <= length l)%nat.
Proof. unfold backlog. induction l as [|[] l IH]; cbn; lia. Qed.

(** A muxer starts with everything its files held, oldest first. *)
Lemma new_muxer_spec fuel persistent q f aq lq af lf :
  holds q aq lq -> holds f af lf ->
  (length lq < fuel)%nat -> (length lf < fuel)%nat ->
  Z.of_nat (length lq + length lf) < 2 ^ 32 ->
  exists m again l, new_muxer max fuel persistent q f = (m, Returns tt) /\ wf m again l
    /\ abs m l = Mk_queue [] ((if persistent then backlog lf else []) ++ backlog lq)
    /\ _persistent m = persistent /\ (persistent = true -> holds (_memory_file m) [] []).
Proof.
  intros Hhq Hhf Hq Hf Hb. unfold new_muxer.
  pose proof (length_backlog lf) as Hlb.
  pose proof (holds_storable _ _ _ Hhf) as Hstf. rewrite omap_app in Hstf. apply Forall_app in Hstf as [_ Hstf].
  set (m0 := Mk_muxer _ _ _ _ _ _ _ _ _).
  assert (Hl : exists m1, (if persistent then load_memory fuel m0 else (m0, Returns tt)) = (m1, Returns tt)
      /\ _events m1 = (if persistent then backlog lf else []) /\ _queue_file m1 = q /\ _pos m1 = End
      /\ _events_size m1 = Z.of_nat (length (_events m1)) /\ _persistent m1 = persistent
      /\ (persistent = true -> holds (_memory_file m1) [] [])).
  { destruct persistent; [|by exists m0].
    destruct (load_memory_spec fuel m0 af lf) as (m1 & -> & H1 & H2 & H3 & H4 & H5 & H6); [done|done|done|cbn; lia|].
    exists m1. by repeat split. }
  destruct Hl as (m1 & -> & H1 & H2 & H3 & H4 & H5 & H6).
  destruct (load_queue_spec fuel (with_file m1 true (_queue_file m1)) aq lq)
    as (m2 & again & l & -> & Hw & Ha & Hm & Hp);
    cbn [with_file _file _pos _events _events_size _queue_file]; try done.
  { by rewrite H2. }
  { rewrite H1. by destruct persistent. }
  { rewrite H1. destruct persistent; cbn; lia. }
  exists (nack_events m2), again, l. split; [done|]. destruct (nack_refines m2 again l Hw) as [Hw' Ha'].
  split; [done|]. split.
  - rewrite Ha'. unfold q_nack, abs. cbn [unacked waiting]. f_equal.
    rewrite app_assoc, take_drop, Ha. cbn. by rewrite H1.
  - unfold nack_events. cbn. cbn in Hm, Hp. by rewrite Hm, Hp.
Qed.

Lemma backup_holds evs : forall f again l,
  holds f again l -> Forall storable evs -> (length evs < room f)%nat ->
  holds (backup evs f) [] (again ++ l ++ (Some <$> evs)).
Proof.
  induction evs as [|e evs IH]; intros f again l Hh Hst Hr; cbn [backup].
  - rewrite app_nil_r. apply file_close_rereads; [done|cbn in Hr; lia].
  - apply Forall_cons in Hst as [Hste Hst]. destruct (file_write_last f again l e Hh Hste) as (f' & -> & Hf' & Hr').
    specialize (IH f' again _ Hf' Hst). rewrite <-!app_assoc in IH. apply IH. cbn in Hr. lia.
Qed.

(** The files a muxer leaves: what was not acknowledged and was in memory, and
    what its queue file gives again. *)
Lemma clean_files m again l :
  mem_ok m again l -> holds (_memory_file m) [] [] ->
  (0 < room (_queue_file m))%nat -> (length (_events m) < room (_memory_file m))%nat ->
  holds (_queue_file (_clean m)) [] (again ++ l)
  /\ (_persistent m = true -> holds (_memory_file (_clean m)) [] (Some <$> _events m)).
Proof.
  intros [Hs Hb Hp Hh Hc Hst] Hmem Hrq Hrm.
  set (q := if _file m then file_close (_queue_file m) else _queue_file m).
  assert (Hq : holds q [] (again ++ l)).
  { unfold q. destruct (_file m); [by apply file_close_rereads|]. by destruct (Hc eq_refl) as [-> ->]. }
  unfold _clean. fold q. cbn [with_file _persistent _events].
  destruct (_persistent m); cbn [andb]; [|by split].
  destruct (_events m) as [|e evs] eqn:Ee; cbn [negb with_memory_file with_events _queue_file _memory_file]; split; try done.
  intros _. apply (backup_holds (e :: evs) (_memory_file m) [] []); by rewrite <-?Ee in *.
Qed.

(** ** The muxer as a transition system *)

Inductive label : Type :=
  | Publish (e : E)
  | Read (e : E)
  | Ack (count : Z)
  | Nack
  | Restart.

Inductive step : muxer -> label -> muxer -> Prop :=
  | step_publish m e m' :
      type_of e ∈ _write_filters m -> storable e -> publish max m (Some e) = (m', Returns tt) ->
      step m (Publish e) m'
  | step_read m i e m' wait :
      _pos m = At i -> read m wait = (m', (true, Some e)) -> step m (Read e) m'
  | step_ack m fuel count m' :
      0 <= count -> (forall again l, holds (_queue_file m) again l -> (length l < fuel)%nat) ->
      ack_events max fuel m count = (m', Returns tt) -> step m (Ack count) m'
  | step_nack m : step m Nack (nack_events m)
  | step_restart m fuel m1 :
      (** The object is destroyed and built again on its files. *)
      _persistent m = true ->
      (0 < room (_queue_file m))%nat -> (length (_events m) < room (_memory_file m))%nat ->
      (forall again l, holds (_queue_file m) again l ->
        Z.of_nat (length (_events m) + length (again ++ l)) < 2 ^ 32
        /\ (length (_events m) + length (again ++ l) < fuel)%nat) ->
      new_muxer max fuel true (_queue_file (_clean m)) (_memory_file (_clean m)) = (m1, Returns tt) ->
      step m Restart (set_write_filters m1 (_write_filters m)).

(** A restart may bring events back that were read from the queue file before:
    they come between what was in memory and what is still in the file. *)
Inductive q_step : queue -> label -> queue -> Prop :=
  | q_step_publish q e : q_step q (Publish e) (q_publish q e)
  | q_step_read q e q' : q_read q = Some (e, q') -> q_step q (Read e) q'
  | q_step_ack q n : q_step q (Ack n) (q_ack (Z.to_nat n) q)
  | q_step_nack q : q_step q Nack (q_nack q)
  | q_step_restart q pre again post : waiting q = pre ++ post ->
      q_step q Restart (Mk_queue [] (unacked q ++ pre ++ again ++ post)).

(** The invariant of the transition system. *)
Definition sound m (l : list (option E)) : Prop :=
  (exists again, wf m again l) /\ holds (_memory_file m) [] [].

Lemma push_to_queue_keeps m e : _memory_file (_push_to_queue m e) = _memory_file m.
Proof. unfold _push_to_queue. by case_bool_decide. Qed.

Lemma ack_loop_keeps n m : _memory_file (ack_loop n m) = _memory_file m.
Proof.
  revert m. induction n as [|n IH]; intros m; cbn [ack_loop]; [done|].
  destruct (_events m); [done|]. case_bool_decide; [done|]. by rewrite IH.
Qed.

Lemma refill_keeps fuel m m' o : refill max fuel m = (m', o) -> _memory_file m' = _memory_file m.
Proof.
  revert m. induction fuel as [|fuel IH]; intros m; cbn [refill];
    (case_if; [|by intros [= <- <-]]); [by intros [= <- <-]|].
  destruct (_get_event_from_file _ m) as [m1 [[e|]|x|]] eqn:E1; apply get_event_keeps in E1 as [E1 _];
    try (by intros [= <- <-]).
  intros H. apply IH in H. by rewrite H, push_to_queue_keeps.
Qed.

Lemma backlog_some (l : list E) : omap id (Some <$> l) = l.
Proof. induction l as [|x l IH]; cbn; [done|]. by rewrite IH. Qed.

Lemma restart_refines fuel m again l :
  wf m again l -> _persistent m = true -> holds (_memory_file m) [] [] ->
  (0 < room (_queue_file m))%nat -> (length (_events m) < room (_memory_file m))%nat ->
  Z.of_nat (length (_events m) + length (again ++ l)) < 2 ^ 32 ->
  (length (_events m) + length (again ++ l) < fuel)%nat ->
  exists m1 l1, new_muxer max fuel true (_queue_file (_clean m)) (_memory_file (_clean m)) = (m1, Returns tt)
    /\ sound m1 l1 /\ abs m1 l1 = Mk_queue [] (_events m ++ backlog again ++ backlog l).
Proof.
  intros Hw Hp Hmem Hrq Hrm Hb Hf. destruct (clean_files m again l (wf_mem _ _ _ Hw) Hmem Hrq Hrm) as [Hc1 Hc2].
  destruct (new_muxer_spec fuel true _ _ _ _ _ _ Hc1 (Hc2 Hp))
    as (m1 & again1 & l1 & E1 & Hw1 & Ha1 & _ & Hmem1); rewrite ?length_fmap; try lia.
  exists m1, l1. split; [done|]. split; [split; [by exists again1|by apply Hmem1]|]. rewrite Ha1.
  unfold backlog. by rewrite backlog_some, omap_app.
Qed.

Lemma wf_filters m again l fltrs : wf m again l -> wf (set_write_filters m fltrs) again l.
Proof. intros [[? ? ? ? ? ?] ?]. split; [by constructor|done]. Qed.

Lemma step_refines m l lb m' : sound m l -> step m lb m' -> exists l', sound m' l' /\ q_step (abs m l) lb (abs m' l').
Proof.
  intros [[again Hw] Hmem] Hs.
  destruct Hs as [m e m' Hfl Hst Hp|m i e m' wait Hpos Hr|m fuel count m' Hc Hf Ha|m|m fuel m1 Hp Hrq Hrm Hb Hn].
  - destruct (publish_refines m again l e Hw Hfl Hst) as (m1 & l1 & E1 & Hw1 & Ha1). rewrite Hp in E1. simplify_eq.
    exists l1. split; [|rewrite Ha1; constructor]. split; [by exists again|].
    unfold publish in Hp. rewrite bool_decide_eq_true_2 in Hp by done. case_if.
    + destruct (file_write _ _) as [f r]. by simplify_eq.
    + simplify_eq. by rewrite push_to_queue_keeps.
  - pose proof (read_refines m again l wait m' true (Some e)) as H. rewrite Hpos in H.
    destruct (H Hw Hr) as (Hw' & _ & Hq). exists l. split; [|by constructor]. split; [by exists again|].
    unfold read in Hr. rewrite Hpos in Hr. rewrite bool_decide_eq_false_2 in Hr by done. by simplify_eq.
  - destruct (ack_refines fuel m again l count Hw Hc (Hf _ _ (ok_holds _ _ _ (wf_mem _ _ _ Hw))))
      as (m1 & again1 & l1 & E1 & Hw1 & Ha1). rewrite Ha in E1. simplify_eq.
    exists l1. split; [|rewrite Ha1; constructor]. split; [by exists again1|].
    unfold ack_events in Ha. destruct (count =? 0); [by simplify_eq|].
    apply refill_keeps in Ha. by rewrite Ha, ack_loop_keeps.
  - destruct (nack_refines m again l Hw) as [Hw' Ha']. exists l. split; [split; [by exists again|done]|].
    rewrite Ha'. constructor.
  - destruct (Hb _ _ (ok_holds _ _ _ (wf_mem _ _ _ Hw))) as [Hb1 Hb2].
    destruct (restart_refines fuel m again l Hw Hp Hmem Hrq Hrm Hb1 Hb2) as (m2 & l1 & E2 & [[again1 Hw2] Hmem2] & Ha2).
    rewrite Hn in E2. simplify_eq. exists l1. split; [split; [exists again1; by apply wf_filters|done]|].
    replace (abs (set_write_filters m2 _) l1) with (abs m2 l1) by done. rewrite Ha2.
    rewrite <-(take_drop (unacknowledged m) (_events m)) at 1. rewrite <-app_assoc.
    by apply (q_step_restart (abs m l)).
Qed.

Inductive run : muxer -> list label -> muxer -> Prop :=
  | run_nil m : run m [] m
  | run_cons m l m1 ls m2 : step m l m1 -> run m1 ls m2 -> run m (l :: ls) m2.

Inductive q_run : queue -> list label -> queue -> Prop :=
  | q_run_nil q : q_run q [] q
  | q_run_cons q l q1 ls q2 : q_step q l q1 -> q_run q1 ls q2 -> q_run q (l :: ls) q2.

Lemma run_sound m l ls m' : sound m l -> run m ls m' -> exists l', sound m' l' /\ q_run (abs m l) ls (abs m' l').
Proof.
  intros Hs Hr. revert l Hs. induction Hr as [m|m lb m1 ls m2 H1 _ IH]; intros l Hs.
  { exists l. split; [done|constructor]. }
  destruct (step_refines _ _ _ _ Hs H1) as (l1 & Hs1 & Hq). destruct (IH l1 Hs1) as (l2 & Hs2 & Hr).
  exists l2. split; [done|]. by econstructor.
Qed.

(** The events of a trace. *)
Definition published (ls : list label) : list E :=
  omap (fun l => match l with Publish e => Some e | _ => None end) ls.
Definition delivered (ls : list label) : list E :=
  omap (fun l => match l with Read e => Some e | _ => None end) ls.
Definition replays (l : label) : bool := match l with Nack | Restart => true | _ => false end.

Lemma q_run_order q ls q' : q_run q ls q' -> existsb replays ls = false ->
  delivered ls ++ waiting q' = waiting q ++ published ls.
Proof.
  induction 1 as [q|q l q1 ls q2 H1 _ IH]; intros Hr; [by rewrite app_nil_r|].
  cbn [existsb] in Hr. apply orb_false_iff in Hr as [Hl Hr]. specialize (IH Hr).
  destruct H1 as [q e|q e q' H|q n|q|q]; try done.
  - unfold delivered, published in *. cbn [omap list_omap q_publish waiting] in *. rewrite IH.
    by rewrite <-app_assoc.
  - unfold delivered, published in *. cbn [omap list_omap] in *. unfold q_read in H.
    destruct (waiting q) as [|e' w] eqn:Ew; [done|]. simplify_eq. cbn [waiting] in IH.
    cbn [app]. by rewrite IH.
Qed.

(** An event published and not among the acknowledged ones is still there. *)
Lemma q_step_keeps q l q' : q_step q l q' ->
  match l with
  | Publish e => unacked q' ++ waiting q' = (unacked q ++ waiting q) ++ [e]
  | Ack n => unacked q' ++ waiting q' = drop (Z.to_nat n `min` length (unacked q)) (unacked q ++ waiting q)
  | Restart => (unacked q ++ waiting q) `sublist_of` (unacked q' ++ waiting q')
  | _ => unacked q' ++ waiting q' = unacked q ++ waiting q
  end.
Proof.
  destruct 1 as [q e|q e q' H|q n|q|q pre again post H]; cbn; try done.
  - by rewrite app_assoc.
  - unfold q_read in H. destruct (waiting q) eqn:Ew; [done|]. simplify_eq. cbn. by rewrite <-app_assoc.
  - rewrite drop_app_le by lia. f_equal. destruct (decide (Z.to_nat n <= length (unacked q))%nat).
    + by rewrite Nat.min_l.
    + rewrite Nat.min_r by lia. by rewrite !drop_ge by lia.
  - rewrite H. apply sublist_app; [done|]. apply sublist_app; [done|]. by apply sublist_inserts_l.
Qed.

(** C2. Every run of the muxer (publications, reads, acknowledgements, negative
    acknowledgements and restarts, with events moving between memory and the
    retention file) is a run of a plain queue with acknowledgement. *)
Theorem muxer_refines_queue m l ls m' :
  sound m l -> run m ls m' -> exists l', sound m' l' /\ q_run (abs m l) ls (abs m' l').
Proof. apply run_sound. Qed.

(** C15. Without replays, events are delivered in the order of publication, each
    once: the deliveries followed by what still waits are what waited at first
    followed by the publications. *)
Theorem muxer_delivers_in_order m l ls m' :
  sound m l -> run m ls m' -> existsb replays ls = false ->
  exists l', sound m' l' /\ delivered ls ++ waiting (abs m' l') = waiting (abs m l) ++ published ls.
Proof.
  intros Hs Hr Hn. destruct (run_sound _ _ _ _ Hs Hr) as (l' & Hs' & Hq). exists l'. split; [done|].
  by eapply q_run_order.
Qed.

(** An acknowledgement always completes: it forgets that many of the oldest
    delivered events, never one that was not delivered, and refills the memory
    from the file until it is full or the file is empty. *)
Theorem ack_events_spec fuel m again l count :
  wf m again l -> 0 <= count -> (length l < fuel)%nat ->
  exists m' again' l', ack_events max fuel m count = (m', Returns tt) /\ wf m' again' l'
    /\ unacked (abs m' l') = drop (Z.to_nat count) (unacked (abs m l))
    /\ waiting (abs m' l') = waiting (abs m l).
Proof.
  intros Hw Hc Hf. destruct (ack_refines fuel m again l count Hw Hc Hf) as (m' & again' & l' & E1 & Hw' & Ha).
  exists m', again', l'. by rewrite Ha.
Qed.

(** A persistent muxer that is destroyed and created again on its files has
    lost nothing: what was in memory waits again, unacknowledged events first,
    then what the queue file held. Events of its current part that were already
    read come back with the latter. *)
Theorem muxer_restart fuel m again l :
  wf m again l -> holds (_memory_file m) [] [] -> _persistent m = true ->
  (0 < room (_queue_file m))%nat -> (length (_events m) < room (_memory_file m))%nat ->
  Z.of_nat (length (_events m) + length (again ++ l)) < 2 ^ 32 ->
  (length (_events m) + length (again ++ l) < fuel)%nat ->
  exists m1 l1, new_muxer max fuel true (_queue_file (_clean m)) (_memory_file (_clean m)) = (m1, Returns tt)
    /\ sound m1 l1 /\ unacked (abs m1 l1) = []
    /\ waiting (abs m1 l1) = _events m ++ backlog again ++ backlog l.
Proof.
  intros Hw Hmem Hp Hrq Hrm Hb Hf.
  destruct (restart_refines fuel m again l Hw Hp Hmem Hrq Hrm Hb Hf) as (m1 & l1 & E1 & Hs1 & Ha).
  exists m1, l1. by rewrite Ha.
Qed.
End Refinement.
End Muxer.

(** ** A retention file as a list *)

(** The events read stay until the file is closed or read to its end. *)
Section Lists.
Context {E : Type}.

Definition list_file_state : Type := list (option E) * list (option E).

#[global] Instance list_file : QueueFile E list_file_state := {
  file_read f :=
    match snd f with [] => (([], []), Throws Exn_shutdown) | r :: l => ((fst f ++ [r], l), Returns r) end;
  file_write f e := ((fst f, snd f ++ [Some e]), Returns tt);
  file_close f := ([], fst f ++ snd f)
}.

#[global] Instance list_file_laws : QueueFileLaws E list_file_state.
Proof.
  refine {| holds f again l := f = (again, l); storable _ := True; room _ := 100%nat |}; cbn.
  - intros f again ->. by eexists.
  - intros f again r l ->. eexists _, _. split; [done|]. split; [done|]. by left.
  - intros f again l e -> _. eexists. split; [done|]. split; [done|lia].
  - by intros f again l ->.
  - intros. by apply Forall_true.
Defined.
End Lists.

(** A muxer of one-word events, all let through, with room for two in memory. *)
Definition demo_muxer : Type := muxer (E := Z) (F := list_file_state (E := Z)).

Definition demo : demo_muxer :=
  set_write_filters (fst (new_muxer 2 3 true ([], []) ([], []))) {[ 0 ]}.
Definition demo_publish (max : Z) (m : demo_muxer) (e : Z) : demo_muxer :=
  fst (publish (fun _ => 0) max m (Some e)).
Definition demo_read (m : demo_muxer) := read m (fun m => (m, true)).

(** Three events published with a limit of two: the third goes to the file. *)
Definition demo3 := demo_publish 2 (demo_publish 2 (demo_publish 2 demo 1) 2) 3.

Definition type_ok (m : demo_muxer) : bool := bool_decide (0 ∈ _write_filters m).

Lemma demo_range : 0 <= 2 < 2 ^ 32.
Proof. done. Defined.

Lemma demo_sound : sound 2 demo [].
Proof.
  split; [exists []; split; [constructor|by left]|reflexivity]; [reflexivity|reflexivity|exact I|reflexivity|by split|constructor].
Defined.

Lemma demo3_wf : wf 2 demo3 [] [Some 3].
Proof.
  split; [constructor|right; vm_compute; discriminate];
    [reflexivity|reflexivity|vm_compute; lia|reflexivity|discriminate|by apply Forall_true].
Defined.

Definition demo4 := fst (demo_read demo3).
Definition demo5 := fst (ack_events 2 5 demo4 1).
Definition demo6 := fst (demo_read demo5).

Lemma demo_publish_step max m e :
  type_ok m = true -> snd (publish (fun _ => 0) max m (Some e)) = Returns tt ->
  step (fun _ => 0) max m (Publish e) (demo_publish max m e).
Proof.
  intros Hf Hr. apply step_publish; [by apply bool_decide_eq_true in Hf|exact I|].
  unfold demo_publish. by destruct (publish _ _ _ _) as [m' r]; cbn in *; subst r.
Qed.

Lemma demo_read_step max m e :
  _pos m = At 0 -> snd (demo_read m) = (true, Some e) ->
  step (fun _ => 0) max m (Read e) (fst (demo_read m)).
Proof.
  intros Hp Hr. apply (step_read _ _ _ 0 _ _ (fun m => (m, true)) Hp).
  unfold demo_read in *. by destruct (read _ _) as [m' r]; cbn in *; subst r.
Qed.

Lemma demo_run :
  run (fun _ => 0) 2 demo [Publish 1; Publish 2; Publish 3; Read 1; Ack 1; Read 2] demo6.
Proof.
  eapply run_cons; [apply demo_publish_step; vm_compute; reflexivity|].
  eapply run_cons; [apply demo_publish_step; vm_compute; reflexivity|].
  eapply run_cons; [apply demo_publish_step; vm_compute; reflexivity|].
  eapply run_cons; [apply demo_read_step; vm_compute; reflexivity|].
  eapply run_cons.
  { apply (step_ack _ _ demo4 5 1 demo5); [done| |vm_compute; reflexivity].
    intros again l H. vm_compute in H. injection H as _ <-. cbn. lia. }
  eapply run_cons; [apply demo_read_step; vm_compute; reflexivity|]. apply run_nil.
Qed.

Lemma muxer_refines_queue_witness :
  exists l', sound 2 demo6 l'
  /\ q_run (abs demo []) [Publish 1; Publish 2; Publish 3; Read 1; Ack 1; Read 2] (abs demo6 l').
Proof. apply (muxer_refines_queue (fun _ => 0) 2 demo_range demo []); [apply demo_sound|apply demo_run]. Defined.

Lemma muxer_delivers_in_order_witness :
  exists l', sound 2 demo6 l' /\ [1; 2] ++ waiting (abs demo6 l') = waiting (abs demo []) ++ [1; 2; 3].
Proof.
  apply (muxer_delivers_in_order (fun _ => 0) 2 demo_range demo []
    [Publish 1; Publish 2; Publish 3; Read 1; Ack 1; Read 2]);
    [apply demo_sound|apply demo_run|reflexivity].
Defined.

Lemma ack_events_spec_witness :
  exists m' again' l', ack_events 2 5 demo3 1 = (m', Returns tt) /\ wf 2 m' again' l'
    /\ unacked (abs m' l') = drop 1 (unacked (abs demo3 [Some 3]))
    /\ waiting (abs m' l') = waiting (abs demo3 [Some 3]).
Proof.
  apply (ack_events_spec (fun _ => 0) 2 demo_range 5 demo3 [] [Some 3] 1); [apply demo3_wf|done|cbn; lia].
Defined.

Lemma muxer_restart_witness :
  exists m1 l1, new_muxer 2 9 true (_queue_file (_clean demo3)) (_memory_file (_clean demo3)) = (m1, Returns tt)
    /\ sound 2 m1 l1 /\ unacked (abs m1 l1) = []
    /\ waiting (abs m1 l1) = [1; 2; 3].
Proof.
  apply (muxer_restart (fun _ => 0) 2 demo_range 9 demo3 [] [Some 3]);
    [apply demo3_wf|reflexivity|reflexivity|vm_compute; first [reflexivity|lia]..].
Defined.

(** Were the limit raised while the file holds events, an event published then
    would overtake them: 4 is read before 3. *)
Lemma raised_limit_reorders :
  let m := demo_publish 4 demo3 4 in
  let '(m, (_, e1)) := demo_read m in
  let '(m, (_, e2)) := demo_read m in
  let '(m, (_, e3)) := demo_read m in
  (e1, e2, e3, _queue_file m) = (Some 1, Some 2, Some 4, ([], [Some 3])).
Proof. vm_compute. reflexivity. Qed.

End Muxer.
