(* ===== verification/PersistentCache.v ===== *)
(** * The persistent cache (core/src/persistent_cache.cc)

    A file of events replaced as a whole: a transaction writes to a .new file,
    commit renames the cache to .old, .new to the cache and removes .old, and
    opening repairs what an interruption between these steps left. A file is
    the list of events written to it. That reading a file gives back what was
    written is the work of the BBDO and file layers. *)

From Stdlib Require Import ZArith Lia.
From stdpp Require Import base option list numbers.
From S2P Require Import Prelude.

Module PersistentCache.
Section Cache.
Context {E : Type}.

(** The three files, None when absent. *)
Record files : Type := Files {
  cache_file : option (list E);
  new_file : option (list E);
  old_file : option (list E)
}.

(** The object: what is left to read, and whether a transaction is open. *)
Record persistent_cache : Type := Cache {
  disk : files;
  _read_file : option (list E);
  _write_file : bool
}.

(** ** The calls to the system

    rename(2) fails when the source is absent, and replaces the target. *)
Inductive file_name : Type := Cache_file | New_file | Old_file.

Inductive syscall : Type := Rename (src dst : file_name) | Remove (f : file_name).

Definition content (d : files) (f : file_name) : option (list E) :=
  match f with Cache_file => cache_file d | New_file => new_file d | Old_file => old_file d end.
Definition set_content (d : files) (f : file_name) (o : option (list E)) : files :=
  match f with
  | Cache_file => Files o (new_file d) (old_file d)
  | New_file => Files (cache_file d) o (old_file d)
  | Old_file => Files (cache_file d) (new_file d) o
  end.

Definition rename (d : files) (src dst : file_name) : option files :=
  match content d src with
  | Some l => Some (set_content (set_content d src None) dst (Some l))
  | None => None
  end.
Definition remove (d : files) (f : file_name) : files := set_content d f None.

(** What a call makes of the disk, and whether it fails. *)
Definition call (d : files) (s : syscall) : option files :=
  match s with Rename src dst => rename d src dst | Remove f => Some (remove d f) end.

(** Calls in order, until one fails: the disk then, and whether all were done. *)
Fixpoint calls (d : files) (l : list syscall) : files * bool :=
  match l with
  | [] => (d, true)
  | s :: l => match call d s with Some d => calls d l | None => (d, false) end
  end.

(** Opening a file for both uses creates it when absent, and appends. *)
Definition touch (f : option (list E)) : list E := match f with Some l => l | None => [] end.

Definition _open (d : files) : files * list E :=
  let d := match cache_file d with
           | None => default d (rename d Old_file Cache_file)
           | Some _ => d
           end in
  let l := touch (cache_file d) in
  (Files (Some l) (new_file d) (old_file d), l).

Definition open (d : files) : persistent_cache :=
  let '(d, l) := _open d in Cache d (Some l) false.

Definition add (c : persistent_cache) (e : E) : outcome persistent_cache :=
  if _write_file c then
    Returns (Cache (Files (cache_file (disk c)) (Some (touch (new_file (disk c)) ++ [e]))
                      (old_file (disk c)))
               (_read_file c) true)
  else Throws Exn_msg.

Definition transaction (c : persistent_cache) : outcome persistent_cache :=
  if _write_file c then Throws Exn_msg
  else Returns (Cache (Files (cache_file (disk c)) (Some (touch (new_file (disk c)))) (old_file (disk c)))
                 (_read_file c) true).

(** The calls of commit, in order. *)
Definition commit_calls : list syscall := [Rename Cache_file Old_file; Rename New_file Cache_file; Remove Old_file].

(** The transaction is closed even when a call fails. *)
Definition commit (c : persistent_cache) : persistent_cache * outcome unit :=
  if _write_file c then
    let '(d, done) := calls (disk c) commit_calls in
    (Cache d None false, if done then Returns tt else Throws Exn_msg)
  else (c, Returns tt).

Definition rollback (c : persistent_cache) : persistent_cache :=
  Cache (remove (disk c) New_file) (_read_file c) false.

Definition get (c : persistent_cache) : persistent_cache * option E :=
  let '(d, l) := match _read_file c with
                 | Some l => (disk c, l)
                 | None => _open (disk c)
                 end in
  match l with
  | e :: l' => (Cache d (Some l') (_write_file c), Some e)
  | [] => (Cache d (Some []) (_write_file c), None)
  end.

(** ** Transactions *)

Definition add_all (c : persistent_cache) (l : list E) : outcome persistent_cache :=
  fold_left (fun c e => c ≫= fun c => add c e) l (Returns c).

Lemma add_all_spec c l :
  _write_file c = true ->
  add_all c l = Returns (Cache (Files (cache_file (disk c))
                                  (match l with [] => new_file (disk c)
                                   | _ => Some (touch (new_file (disk c)) ++ l) end)
                                  (old_file (disk c))) (_read_file c) true).
Proof.
  intros Hw. unfold add_all. revert c Hw. induction l as [|e l IH]; intros c Hw; cbn [fold_left].
  - destruct c as [[] ? ?]. cbn in *. by subst.
  - cbn [mbind outcome_bind]. unfold add at 2. rewrite Hw. rewrite IH by done. cbn [disk cache_file new_file old_file touch _read_file].
    do 3 f_equal. destruct l; [done|]. by rewrite <-app_assoc.
Qed.

(** A transaction on what is on disk, whatever it is: the events go to the .new
    file, after those that an interrupted transaction may have left there. *)
Lemma transaction_filled d l : let before := (_open d).2 in let after := touch (new_file d) ++ l in
  exists c1 c2, transaction (open d) = Returns c1 /\ add_all c1 l = Returns c2 /\ _write_file c2 = true
    /\ exists old, disk c2 = Files (Some before) (Some after) old.
Proof.
  intros before after. destruct d as [c n o].
  eexists _, _. split; [done|]. split; [by apply add_all_spec|]. split; [done|].
  unfold after, before, _open. destruct c as [c|], o as [o|], l; cbn; rewrite ?app_nil_r; by eexists.
Qed.

(** C38. A transaction replaces the cache as a whole or not at all, whatever is on
    disk when it begins: stopped before any call that [commit] makes to the system,
    or after the last one, opening the cache again finds the previous events until
    the second renaming is done, and from then on those of the transaction. These
    come after the events of a .new file that an interrupted transaction left, if
    any. [commit] makes these calls and succeeds, and leaves no other file. *)
Theorem commit_atomic d l : let before := (_open d).2 in let after := touch (new_file d) ++ l in
  exists c1 c2 c3, transaction (open d) = Returns c1 /\ add_all c1 l = Returns c2 /\ commit c2 = (c3, Returns tt)
  /\ (forall n, exists d', calls (disk c2) (take n commit_calls) = (d', true)
        /\ (_open d').2 = if (n <? 2)%nat then before else after)
  /\ calls (disk c2) commit_calls = (disk c3, true) /\ disk c3 = Files (Some after) None None.
Proof.
  intros before after. destruct (transaction_filled d l) as (c1 & c2 & H1 & H2 & Hw & old & Hd).
  fold before after in Hd. exists c1, c2. unfold commit. rewrite Hw, Hd. eexists. split; [done|]. split; [done|].
  split; [done|]. split; [|done]. intros [|[|[|[|n]]]]; by eexists.
Qed.

Lemma transaction_opens d : new_file d = None ->
  exists c1, transaction (open d) = Returns c1 /\ _write_file c1 = true
    /\ is_Some (cache_file (disk c1)) /\ new_file (disk c1) = Some [].
Proof. intros Hn. destruct d as [[c|] n [o|]]; cbn in Hn; subst n; (eexists; split_and!; [done..|by eexists|done]). Qed.

Lemma commit_installs c l c' :
  _write_file c = true -> is_Some (cache_file (disk c)) -> new_file (disk c) = Some [] ->
  add_all c l = Returns c' ->
  exists c3, commit c' = (c3, Returns tt) /\ _open (disk c3) = (disk c3, l)
    /\ new_file (disk c3) = None /\ old_file (disk c3) = None.
Proof.
  intros Hw [old Hc] Hn Ha. rewrite add_all_spec, Hc, Hn in Ha by done. simplify_eq.
  destruct l; eexists; repeat split.
Qed.

(** A call that the system refuses leaves the disk as an interruption does; the
    transaction is closed. *)
Lemma commit_fails c d : _write_file c = true -> calls (disk c) commit_calls = (d, false) ->
  commit c = (Cache d None false, Throws Exn_msg).
Proof. intros Hw Hc. unfold commit. by rewrite Hw, Hc. Qed.

(** A transaction that is opened, filled and committed is what the next
    reader gets, event by event, then nothing. *)
Theorem committed_events_are_read d l :
  new_file d = None ->
  exists c1 c2 c3, transaction (open d) = Returns c1 /\ add_all c1 l = Returns c2
    /\ commit c2 = (c3, Returns tt)
    /\ (_open (disk c3)).2 = l /\ new_file (disk c3) = None /\ old_file (disk c3) = None.
Proof.
  intros Hn. destruct (transaction_filled d l) as (c1 & c2 & H1 & H2 & Hw & old & Hd). rewrite Hn in Hd.
  exists c1, c2. unfold commit. rewrite Hw, Hd. eexists. done.
Qed.

(** An interrupted transaction leaves its .new file, and the next transaction
    adds to it: the events of both are committed. *)
Lemma stale_transaction_committed d stale l :
  new_file d = Some stale ->
  exists c1 c2 c3, transaction (open d) = Returns c1 /\ add_all c1 l = Returns c2
    /\ commit c2 = (c3, Returns tt) /\ (_open (disk c3)).2 = stale ++ l.
Proof.
  intros Hn. destruct (transaction_filled d l) as (c1 & c2 & H1 & H2 & Hw & old & Hd). rewrite Hn in Hd.
  exists c1, c2. unfold commit. rewrite Hw, Hd. eexists. done.
Qed.
End Cache.

Lemma committed_events_are_read_witness :
  exists c1 c2 c3, transaction (open (Files (E := Z) None None None)) = Returns c1
    /\ add_all c1 [1; 2] = Returns c2 /\ commit c2 = (c3, Returns tt)
    /\ (_open (disk c3)).2 = [1; 2] /\ new_file (disk c3) = None /\ old_file (disk c3) = None.
Proof. by apply (committed_events_are_read (Files None None None) [1; 2]). Defined.

(** Stopped between the two renamings, with a previous cache. *)
Example stopped_between :
  (fun p => (_open p.1).2) (calls (Files (Some [7]) (Some [1; 2]) None) (take 1 commit_calls)) = [7].
Proof. reflexivity. Qed.

End PersistentCache.
