(* ===== verification/Engine.v ===== *)
(** * The multiplexing engine (core/src/multiplexing/engine.cc)

    The hub every event goes through: it queues an event, shows it to the
    hooks, which may produce more events, and hands all of them to the
    subscribers; while it is stopped, events go to a cache file that the next
    start replays. Hooks and subscribers are objects known by their address:
    the engine keeps identifiers, the objects live in two stores. *)

From Stdlib Require Import ZArith Lia.
From stdpp Require Import base option list numbers gmap.
From S2P Require Import Prelude PersistentCache Muxer.

Module Engine.

(** hooker, as the engine uses it. *)
Class Hooker (E H : Type) : Type := {
  starting : H -> H;
  stopping : H -> H;
  hook_write : H -> E -> H * outcome unit;
  hook_read : H -> H * outcome (option E)
}.

(** muxer::publish, as the engine uses it. *)
Class Subscriber (E M : Type) : Type := {
  deliver : M -> E -> M * outcome unit
}.

(** The muxers of the program are such subscribers. *)
#[global] Instance muxer_subscriber {E F} `{!Muxer.QueueFile E F} (type_of : E -> Z) (max : Z) :
  Subscriber E (Muxer.muxer (E := E) (F := F)) :=
  {| deliver m e := Muxer.publish type_of max m (Some e) |}.

Inductive write_func : Type := _nop | _write_to_subscribers | _write_to_cache_file.

#[global] Instance write_func_eq_dec : EqDecision write_func.
Proof. solve_decision. Defined.

Section Engine.
Context {E H M : Type} `{!Hooker E H} `{!Subscriber E M}.

Record engine : Type := Mk_engine {
  _kiew : list E;
  _hooks : list (Z * bool);
  _muxers : list Z;
  _write_func : write_func;
  _cache_file : option (PersistentCache.persistent_cache (E := E));
  (** The cache files when no object has them open. *)
  _disk : PersistentCache.files (E := E);
  hookers : gmap Z H;
  muxers : gmap Z M
}.
Implicit Types g : engine.

Definition with_kiew g k :=
  Mk_engine k (_hooks g) (_muxers g) (_write_func g) (_cache_file g) (_disk g) (hookers g) (muxers g).
Definition with_hooks g l :=
  Mk_engine (_kiew g) l (_muxers g) (_write_func g) (_cache_file g) (_disk g) (hookers g) (muxers g).
Definition with_muxer_list g l :=
  Mk_engine (_kiew g) (_hooks g) l (_write_func g) (_cache_file g) (_disk g) (hookers g) (muxers g).
Definition with_write_func g w :=
  Mk_engine (_kiew g) (_hooks g) (_muxers g) w (_cache_file g) (_disk g) (hookers g) (muxers g).
Definition with_cache g c d :=
  Mk_engine (_kiew g) (_hooks g) (_muxers g) (_write_func g) c d (hookers g) (muxers g).
Definition with_hookers g h :=
  Mk_engine (_kiew g) (_hooks g) (_muxers g) (_write_func g) (_cache_file g) (_disk g) h (muxers g).
Definition with_muxers g m :=
  Mk_engine (_kiew g) (_hooks g) (_muxers g) (_write_func g) (_cache_file g) (_disk g) (hookers g) m.

(** The constructor, on what the disk and the program hold. *)
Definition new_engine (d : PersistentCache.files) (h : gmap Z H) (m : gmap Z M) : engine :=
  Mk_engine [] [] [] _nop None d h m.

Definition clear g : engine := with_kiew g [].

(** ** Registration *)

Definition hook g (h : Z) (with_data : bool) : engine := with_hooks g (_hooks g ++ [(h, with_data)]).
Definition unhook g (h : Z) : engine :=
  with_hooks g (filter (fun p => negb (Z.eqb (fst p) h)) (_hooks g)).
Definition subscribe g (subscriber : Z) : engine := with_muxer_list g (_muxers g ++ [subscriber]).

(** Only the first occurrence is erased. *)
Fixpoint erase_first (l : list Z) (x : Z) : list Z :=
  match l with
  | [] => []
  | y :: l' => if y =? x then l' else y :: erase_first l' x
  end.
Definition unsubscribe g (subscriber : Z) : engine := with_muxer_list g (erase_first (_muxers g) subscriber).

(** ** Sending *)

(** One event to every subscriber of the list. *)
Fixpoint send_one (ids : list Z) (ms : gmap Z M) (e : E) : gmap Z M * outcome unit :=
  match ids with
  | [] => (ms, Returns tt)
  | id :: ids' =>
    match ms !! id with
    | None => (ms, Diverges)
    | Some m =>
      match deliver m e with
      | (m', Returns _) => send_one ids' (<[id := m']> ms) e
      | (m', r) => (<[id := m']> ms, r)
      end
    end
  end.

Fixpoint send_loop (k : list E) g : engine * outcome unit :=
  match k with
  | [] => (with_kiew g [], Returns tt)
  | e :: k' =>
    match send_one (_muxers g) (muxers g) e with
    | (ms, Returns _) => send_loop k' (with_muxers g ms)
    | (ms, r) => (with_kiew (with_muxers g ms) (e :: k'), r)
    end
  end.

Definition _send_to_subscribers g : engine * outcome unit := send_loop (_kiew g) g.

(** Read a hook until it has nothing more; what it produces is queued. *)
Fixpoint drain_hook (fuel : nat) (id : Z) g : engine * outcome unit :=
  match fuel with
  | O => (g, Diverges)
  | S fuel' =>
    match hookers g !! id with
    | None => (g, Diverges)
    | Some h =>
      match hook_read h with
      | (h', Returns (Some d)) =>
        drain_hook fuel' id
          (with_kiew (with_hookers g (<[id := h']> (hookers g))) (_kiew g ++ [d]))
      | (h', Returns None) => (with_hookers g (<[id := h']> (hookers g)), Returns tt)
      | (h', Throws x) => (with_hookers g (<[id := h']> (hookers g)), Throws x)
      | (h', Diverges) => (with_hookers g (<[id := h']> (hookers g)), Diverges)
      end
    end
  end.

Fixpoint write_hooks (fuel : nat) (hs : list (Z * bool)) g (e : E) : engine * outcome unit :=
  match hs with
  | [] => (g, Returns tt)
  | (id, with_data) :: hs' =>
    if with_data then
      match hookers g !! id with
      | None => (g, Diverges)
      | Some h =>
        match hook_write h e with
        | (h', Returns _) =>
          match drain_hook fuel id (with_hookers g (<[id := h']> (hookers g))) with
          | (g, Returns _) => write_hooks fuel hs' g e
          | r => r
          end
        | (h', r) => (with_hookers g (<[id := h']> (hookers g)), r)
        end
      end
    else write_hooks fuel hs' g e
  end.

Definition _write (fuel : nat) g (e : E) : engine * outcome unit :=
  match write_hooks fuel (_hooks g) g e with
  | (g, Returns _) => _send_to_subscribers g
  | r => r
  end.

(** Errors of the cache file are logged and swallowed. *)
Definition _write_to_cache g (d : E) : engine :=
  match _cache_file g with
  | Some c =>
    match PersistentCache.add c d with
    | Returns c => with_cache g (Some c) (_disk g)
    | _ => g
    end
  | None => g
  end.

Definition _publish (fuel : nat) g (e : E) : engine * outcome unit :=
  let g := with_kiew g (_kiew g ++ [e]) in
  match _write_func g with
  | _nop => (g, Returns tt)
  | _write_to_subscribers => _write fuel g e
  | _write_to_cache_file => (_write_to_cache g e, Returns tt)
  end.

Definition publish := _publish.

Fixpoint publish_list (fuel : nat) g (to_publish : list E) : engine * outcome unit :=
  match to_publish with
  | [] => (g, Returns tt)
  | e :: l =>
    match _publish fuel g e with
    | (g, Returns _) => publish_list fuel g l
    | r => r
    end
  end.

(** ** Starting and stopping *)

(** Notify each hook and queue what it has to say; its exceptions are caught. *)
Fixpoint notify_hooks (fuel : nat) (notify : H -> H) (hs : list (Z * bool)) g : engine * outcome unit :=
  match hs with
  | [] => (g, Returns tt)
  | (id, _) :: hs' =>
    match hookers g !! id with
    | None => (g, Diverges)
    | Some h =>
      match drain_hook fuel id (with_hookers g (<[id := notify h]> (hookers g))) with
      | (g, Diverges) => (g, Diverges)
      | (g, _) => notify_hooks fuel notify hs' g
      end
    end
  end.

(** The cache files, whether or not a transaction has one of them open. *)
Definition current_disk g : PersistentCache.files (E := E) :=
  match _cache_file g with Some c => PersistentCache.disk c | None => _disk g end.
Definition with_disk g d : engine :=
  with_cache g ((fun c => PersistentCache.Cache d (PersistentCache._read_file c)
                            (PersistentCache._write_file c)) <$> _cache_file g) d.

(** The events of the cache file, read with get until there is none. *)
Definition cached_events g : PersistentCache.files (E := E) * list E :=
  PersistentCache._open (current_disk g).

Definition start (fuel : nat) g : engine * outcome unit :=
  if bool_decide (_write_func g = _write_to_subscribers) then (g, Returns tt)
  else
    let g := with_write_func g _write_to_subscribers in
    let '(d, cached) := cached_events g in
    let kiew := cached ++ _kiew g in
    let g := with_kiew (with_disk g d) [] in
    match notify_hooks fuel starting (_hooks g) g with
    | (g, Returns _) =>
      match _send_to_subscribers g with
      | (g, Returns _) => publish_list fuel g kiew
      | r => r
      end
    | r => r
    end.

(** While the lock is released for 200 ms other threads may publish: the turns
    of the loop take these publications as an argument. *)
Fixpoint flush_loop (fuel : nat) (others : list (list E)) g : engine * outcome unit :=
  match _send_to_subscribers g with
  | (g, Returns _) =>
    match others with
    | [] => (g, Returns tt)
    | es :: others' =>
      match publish_list fuel g es with
      | (g, Returns _) =>
        match _kiew g with
        | [] => (g, Returns tt)
        | _ :: _ => flush_loop fuel others' g
        end
      | r => r
      end
    end
  | r => r
  end.

Definition stop (fuel : nat) (others : list (list E)) g : engine * outcome unit :=
  if bool_decide (_write_func g = _nop) then (g, Returns tt)
  else
    match notify_hooks fuel stopping (_hooks g) g with
    | (g, Returns _) =>
      match flush_loop fuel others g with
      | (g, Returns _) =>
        let c := PersistentCache.open (current_disk g) in
        let g := match PersistentCache.transaction c with
                 | Returns c => with_cache g (Some c) (PersistentCache.disk c)
                 | _ => with_cache g None (current_disk g)
                 end in
        (with_write_func g _write_to_cache_file, Returns tt)
      | r => r
      end
    | r => r
    end.

(** unload: the cache is committed, the object goes away; its disk remains. *)
Definition unload g : outcome (PersistentCache.files (E := E)) :=
  match _cache_file g with
  | Some c => let '(c, r) := PersistentCache.commit c in _ ← r; Returns (PersistentCache.disk c)
  | None => Returns (_disk g)
  end.

(** ** What subscribers get *)

(** Every subscriber accepts what it is given. *)
Class AcceptingSubscriber : Prop :=
  deliver_accepts : forall m e, exists m', deliver m e = (m', Returns tt).

Definition receive (m : M) (e : E) : M := fst (deliver m e).

(** All registered subscribers and hooks exist, each subscriber once. *)
Record registered g : Prop := {
  reg_muxers : forall id, id ∈ _muxers g -> is_Some (muxers g !! id);
  reg_nodup : NoDup (_muxers g);
  reg_hooks : forall id b, (id, b) ∈ _hooks g -> is_Some (hookers g !! id)
}.

(** The subscribers after a list of events. *)
Definition received (ids : list Z) (ms : gmap Z M) (es : list E) : gmap Z M :=
  map_imap (fun id m => Some (if bool_decide (id ∈ ids) then fold_left receive es m else m)) ms.

Context `{!AcceptingSubscriber}.

Lemma send_one_spec ids ms e :
  (forall id, id ∈ ids -> is_Some (ms !! id)) -> NoDup ids ->
  exists ms', send_one ids ms e = (ms', Returns tt)
    /\ forall id, ms' !! id = if bool_decide (id ∈ ids) then (fun m => receive m e) <$> ms !! id else ms !! id.
Proof.
  revert ms. induction ids as [|i ids IH]; intros ms Hm Hn; cbn [send_one].
  - exists ms. split; [done|]. intros id. by rewrite bool_decide_eq_false_2 by (by apply not_elem_of_nil).
  - destruct (Hm i) as [m Hi]; [left|]. rewrite Hi. apply NoDup_cons in Hn as [Hni Hn].
    destruct (deliver_accepts m e) as [m' Hd]. rewrite Hd.
    destruct (IH (<[i := m']> ms)) as (ms' & -> & Hs); [|done|].
    { intros id Hid. destruct (decide (id = i)) as [->|]; [done|].
      rewrite lookup_insert_ne by done. apply Hm. by right. }
    exists ms'. split; [done|]. intros id. rewrite Hs. destruct (decide (id = i)) as [->|Hne].
    + rewrite bool_decide_eq_false_2 by done. rewrite bool_decide_eq_true_2 by left.
      rewrite lookup_insert_eq, Hi. cbn. unfold receive. by rewrite Hd.
    + rewrite lookup_insert_ne by done.
      rewrite (bool_decide_ext (id ∈ i :: ids) (id ∈ ids)); [done|].
      rewrite elem_of_cons. split; [by intros [?|?]|by right].
Qed.

Lemma received_lookup ids ms es id :
  received ids ms es !! id = (fun m => if bool_decide (id ∈ ids) then fold_left receive es m else m) <$> ms !! id.
Proof. unfold received. rewrite map_lookup_imap. by destruct (ms !! id). Qed.

Lemma received_app ids ms a b : received ids (received ids ms a) b = received ids ms (a ++ b).
Proof.
  apply map_eq. intros id. rewrite !received_lookup. destruct (ms !! id); [|done]. cbn.
  case_bool_decide; [|done]. by rewrite fold_left_app.
Qed.

Lemma received_nil ids ms : received ids ms [] = ms.
Proof. apply map_eq. intros id. rewrite received_lookup. destruct (ms !! id); [|done]. cbn. by case_bool_decide. Qed.

Lemma send_loop_spec k : forall g,
  (forall id, id ∈ _muxers g -> is_Some (muxers g !! id)) -> NoDup (_muxers g) ->
  send_loop k g = (with_kiew (with_muxers g (received (_muxers g) (muxers g) k)) [], Returns tt).
Proof.
  induction k as [|e k IH]; intros g Hm Hn; cbn [send_loop].
  { rewrite received_nil. by destruct g. }
  destruct (send_one_spec (_muxers g) (muxers g) e Hm Hn) as (ms' & -> & Hs).
  rewrite IH; [|intros id Hid|done].
  - unfold with_kiew, with_muxers. cbn [_muxers muxers _hooks _write_func _cache_file _disk hookers].
    assert (received (_muxers g) ms' k = received (_muxers g) (muxers g) (e :: k)) as ->; [|done].
    apply map_eq. intros id. rewrite !received_lookup, Hs.
    case_bool_decide; [|done]. by destruct (muxers g !! id).
  - cbn in Hid. cbn. rewrite Hs. destruct (Hm id Hid) as [m ->]. by case_bool_decide.
Qed.

(** ** Hooks that produce events *)

(** A hook holds the events it has to say; read takes them one by one. *)
Class HookLaws : Type := {
  emits : H -> list E;
  hook_read_none h : emits h = [] -> exists h', hook_read h = (h', Returns None) /\ emits h' = [];
  hook_read_some h e l : emits h = e :: l -> exists h', hook_read h = (h', Returns (Some e)) /\ emits h' = l;
  hook_write_accepts h e : exists h', hook_write h e = (h', Returns tt)
}.

Context `{!HookLaws}.

Lemma with_kiew_kiew g a b : with_kiew (with_kiew g a) b = with_kiew g b.
Proof. by destruct g. Qed.
Lemma with_hookers_hookers g a b : with_hookers (with_hookers g a) b = with_hookers g b.
Proof. by destruct g. Qed.

Lemma drain_hook_spec fuel id : forall g h,
  hookers g !! id = Some h -> (length (emits h) < fuel)%nat ->
  exists h', emits h' = []
    /\ drain_hook fuel id g
       = (with_kiew (with_hookers g (<[id := h']> (hookers g))) (_kiew g ++ emits h), Returns tt).
Proof.
  induction fuel as [|fuel IH]; intros g h Hh Hf; [lia|]. cbn [drain_hook]. rewrite Hh.
  destruct (emits h) as [|e l] eqn:Ee.
  - destruct (hook_read_none h Ee) as (h' & -> & He). exists h'. split; [done|].
    rewrite app_nil_r. by destruct g.
  - destruct (hook_read_some h e l Ee) as (h1 & -> & He).
    set (g1 := with_kiew _ _).
    destruct (IH g1 h1) as (h' & He' & ->).
    { unfold g1. cbn. by rewrite lookup_insert_eq. } { cbn in Hf. rewrite He. lia. }
    exists h'. split; [done|]. unfold g1, with_kiew, with_hookers. cbn. rewrite insert_insert_eq, He.
    by rewrite <-app_assoc.
Qed.

(** What the data hooks say to an event, in the order of their registration. *)
Definition reactions (hs : list (Z * bool)) (st : gmap Z H) (e : E) : list E :=
  flat_map (fun '(id, b) =>
    match b, st !! id with
    | true, Some h => emits (fst (hook_write h e))
    | _, _ => []
    end) hs.

Lemma reactions_agree hs st st' e :
  (forall id b, (id, b) ∈ hs -> st !! id = st' !! id) -> reactions hs st e = reactions hs st' e.
Proof.
  induction hs as [|[id b] hs IH]; intros Ha; [done|]. unfold reactions in *. cbn [flat_map].
  rewrite (Ha id b) by left. f_equal. apply IH. intros i b' Hi. apply (Ha i b'). by right.
Qed.

Lemma write_hooks_spec fuel e hs : forall g,
  NoDup hs.*1 -> (forall id b, (id, b) ∈ hs -> is_Some (hookers g !! id)) ->
  (length (reactions hs (hookers g) e) < fuel)%nat ->
  exists st, write_hooks fuel hs g e
    = (with_kiew (with_hookers g st) (_kiew g ++ reactions hs (hookers g) e), Returns tt)
    /\ forall id, is_Some (hookers g !! id) -> is_Some (st !! id).
Proof.
  induction hs as [|[id b] hs IH]; intros g Hn Hh Hf; cbn [write_hooks].
  { exists (hookers g). split; [|done]. unfold reactions. cbn. rewrite app_nil_r. by destruct g. }
  cbn [fmap list_fmap fst] in Hn. apply NoDup_cons in Hn as [Hni Hn].
  assert (Hother : forall i b', (i, b') ∈ hs -> i <> id).
  { intros i b' Hi ->. apply Hni. apply list_elem_of_fmap. by exists (id, b'). }
  destruct (Hh id b) as [h Hid]; [left|]. unfold reactions in Hf |- *. cbn [flat_map] in Hf |- *.
  rewrite Hid in Hf |- *. destruct b.
  - rewrite length_app in Hf. destruct (hook_write_accepts h e) as [h1 Hw]. rewrite Hw in Hf |- *.
    cbn [fst] in *.
    destruct (drain_hook_spec fuel id (with_hookers g (<[id := h1]> (hookers g))) h1) as (h2 & _ & ->).
    { cbn. by rewrite lookup_insert_eq. } { lia. }
    set (g1 := with_kiew _ _).
    assert (Hg1 : hookers g1 = <[id := h2]> (hookers g)).
    { unfold g1, with_kiew, with_hookers. cbn. by rewrite insert_insert_eq. }
    assert (Hr : reactions hs (hookers g1) e = reactions hs (hookers g) e).
    { apply reactions_agree. intros i b' Hi. rewrite Hg1, lookup_insert_ne; [done|].
      intros ->. by eapply Hother. }
    destruct (IH g1) as (st & -> & Hst); [done| |rewrite Hr; unfold reactions; lia|].
    { intros i b' Hi. rewrite Hg1, lookup_insert_ne by (intros ->; by eapply Hother).
      apply (Hh i b'). by right. }
    exists st. rewrite Hr. split; [|].
    + unfold g1, with_kiew, with_hookers, reactions. cbn. by rewrite <-app_assoc.
    + intros i Hi. apply Hst. rewrite Hg1. destruct (decide (i = id)) as [->|].
      * rewrite lookup_insert_eq. by eexists.
      * by rewrite lookup_insert_ne.
  - cbn [app] in *. destruct (IH g) as (st & -> & Hst); [done| |done|].
    { intros i b' Hi. apply (Hh i b'). by right. }
    by exists st.
Qed.

Lemma send_to_subscribers_spec g :
  (forall id, id ∈ _muxers g -> is_Some (muxers g !! id)) -> NoDup (_muxers g) ->
  _send_to_subscribers g
  = (with_kiew (with_muxers g (received (_muxers g) (muxers g) (_kiew g))) [], Returns tt).
Proof. apply send_loop_spec. Qed.

(** Publishing on a started engine. *)
Lemma publish_started fuel g e :
  registered g -> NoDup (_hooks g).*1 -> _write_func g = _write_to_subscribers ->
  (length (reactions (_hooks g) (hookers g) e) < fuel)%nat ->
  exists st, publish fuel g e
    = (with_kiew (with_muxers (with_hookers g st)
         (received (_muxers g) (muxers g) (_kiew g ++ e :: reactions (_hooks g) (hookers g) e))) [],
       Returns tt)
    /\ forall id, is_Some (hookers g !! id) -> is_Some (st !! id).
Proof.
  intros [Hm Hn Hh] Hnh Hw Hf. unfold publish, _publish.
  change (_write_func (with_kiew g _)) with (_write_func g). rewrite Hw. unfold _write.
  destruct (write_hooks_spec fuel e (_hooks g) (with_kiew g (_kiew g ++ [e]))) as (st & E1 & Hst);
    [done|done|done|].
  change (_hooks (with_kiew g _)) with (_hooks g). rewrite E1.
  exists st. split; [|done]. rewrite send_to_subscribers_spec; [|done|done].
  unfold with_kiew, with_muxers, with_hookers. cbn. by rewrite <-app_assoc.
Qed.

(** Publishing a list, with hooks that do not ask for data. *)
Lemma publish_list_started fuel es : forall g,
  registered g -> _write_func g = _write_to_subscribers -> _kiew g = [] ->
  Forall (fun p => snd p = false) (_hooks g) -> NoDup (_hooks g).*1 -> (0 < fuel)%nat ->
  exists st, publish_list fuel g es
    = (with_muxers (with_hookers g st) (received (_muxers g) (muxers g) es), Returns tt)
    /\ forall id, is_Some (hookers g !! id) -> is_Some (st !! id).
Proof.
  induction es as [|e es IH]; intros g Hr Hw Hk Hd Hnh Hf; cbn [publish_list].
  { exists (hookers g). split; [|done]. rewrite received_nil. by destruct g. }
  assert (Hre : reactions (_hooks g) (hookers g) e = []).
  { clear -Hd. induction Hd as [|[id b] l Hb _ IH]; [done|]. unfold reactions in *. cbn in *. by subst. }
  destruct (publish_started fuel g e Hr Hnh Hw) as (st & E1 & Hst); [by rewrite Hre|].
  rewrite Hre, Hk in E1. unfold publish in E1. rewrite E1. cbn [app].
  set (g1 := with_kiew _ _).
  destruct (IH g1) as (st' & -> & Hst'); try done.
  { destruct Hr as [Hm Hn Hh]. constructor; cbn; [|done|].
    - intros id Hid. rewrite received_lookup. destruct (Hm id Hid) as [m ->]. by eexists.
    - intros id b Hb. apply Hst. by eapply Hh. }
  exists st'. split; [|intros id Hid; by apply Hst', Hst].
  unfold g1, with_kiew, with_muxers, with_hookers. cbn.
  rewrite received_app. cbn [app]. by rewrite Hk.
Qed.

Lemma notify_hooks_spec fuel notify hs : forall g,
  NoDup hs.*1 -> (forall id b, (id, b) ∈ hs -> exists h, hookers g !! id = Some h
                     /\ (length (emits (notify h)) < fuel)%nat) ->
  exists st, notify_hooks fuel notify hs g
    = (with_kiew (with_hookers g st)
         (_kiew g ++ flat_map (fun p => from_option (fun h => emits (notify h)) [] (hookers g !! p.1)) hs),
       Returns tt)
    /\ forall id, is_Some (hookers g !! id) -> is_Some (st !! id).
Proof.
  induction hs as [|[id b] hs IH]; intros g Hn Hh; cbn [notify_hooks].
  { exists (hookers g). split; [|done]. cbn. rewrite app_nil_r. by destruct g. }
  cbn [fmap list_fmap fst] in Hn. apply NoDup_cons in Hn as [Hni Hn].
  assert (Hother : forall i b', (i, b') ∈ hs -> i <> id).
  { intros i b' Hi ->. apply Hni. apply list_elem_of_fmap. by exists (id, b'). }
  destruct (Hh id b) as (h & Hid & Hf); [left|]. cbn [flat_map fst]. rewrite Hid. cbn [from_option].
  destruct (drain_hook_spec fuel id (with_hookers g (<[id := notify h]> (hookers g))) (notify h)) as (h2 & _ & ->).
  { cbn. by rewrite lookup_insert_eq. } { done. }
  set (g1 := with_kiew _ _).
  assert (Hg1 : hookers g1 = <[id := h2]> (hookers g)).
  { unfold g1, with_kiew, with_hookers. cbn. by rewrite insert_insert_eq. }
  destruct (IH g1) as (st & -> & Hst); [done| |].
  { intros i b' Hi. rewrite Hg1, lookup_insert_ne by (intros ->; by eapply Hother).
    apply (Hh i b'). by right. }
  exists st. split.
  - assert (Hfl : flat_map (fun p => from_option (fun h => emits (notify h)) [] (hookers g1 !! p.1)) hs
              = flat_map (fun p => from_option (fun h => emits (notify h)) [] (hookers g !! p.1)) hs).
    { clear IH Hst. clearbody g1. revert Hother. clear -Hg1. intros Hother.
      induction hs as [|[i b'] hs IH]; [done|]. cbn [flat_map fst].
      rewrite Hg1, lookup_insert_ne by (intros ->; by apply (Hother i b'); [left|]).
      rewrite <-Hg1, IH; [done|]. intros j b'' Hj. apply (Hother j b''). by right. }
    rewrite Hfl. unfold g1, with_kiew, with_hookers. cbn. by rewrite <-app_assoc.
  - intros i Hi. apply Hst. rewrite Hg1. destruct (decide (i = id)) as [->|].
    + rewrite lookup_insert_eq. by eexists.
    + by rewrite lookup_insert_ne.
Qed.

(** What the hooks have to say when the engine starts. *)
Definition starting_events g : list E :=
  flat_map (fun p => from_option (fun h => emits (starting h)) [] (hookers g !! p.1)) (_hooks g).

Lemma start_spec fuel g :
  registered g -> NoDup (_hooks g).*1 -> Forall (fun p => snd p = false) (_hooks g) ->
  _write_func g <> _write_to_subscribers ->
  (forall id b h, (id, b) ∈ _hooks g -> hookers g !! id = Some h -> (length (emits (starting h)) < fuel)%nat) ->
  (0 < fuel)%nat ->
  exists g', start fuel g = (g', Returns tt)
    /\ muxers g' = received (_muxers g) (muxers g)
                     (starting_events g ++ snd (cached_events g) ++ _kiew g)
    /\ _kiew g' = [] /\ _write_func g' = _write_to_subscribers.
Proof.
  intros Hr Hnh Hd Hw Hf Hf0. pose proof Hr as [Hm Hn Hh]. unfold start.
  rewrite bool_decide_eq_false_2 by done.
  change (cached_events (with_write_func g _write_to_subscribers)) with (cached_events g).
  destruct (cached_events g) as [d cached]. cbn [snd].
  set (g0 := with_kiew _ _).
  destruct (notify_hooks_spec fuel starting (_hooks g) g0) as (st & E1 & Hst); [done| |].
  { intros id b Hb. destruct (Hh id b Hb) as [h Hi]. exists h. split; [done|]. by eapply Hf. }
  change (_hooks (with_write_func g _)) with (_hooks g). change (_kiew (with_write_func g _)) with (_kiew g).
  change (_hooks g0) with (_hooks g). rewrite E1.
  change (hookers g0) with (hookers g). fold (starting_events g).
  change (_kiew g0 ++ starting_events g) with (starting_events g).
  rewrite send_to_subscribers_spec; [|done|done].
  set (g1 := with_kiew _ []).
  destruct (publish_list_started fuel (cached ++ _kiew g) g1) as (st' & E2 & _); try done.
  { constructor; cbn; [|done|].
    - intros id Hid. rewrite received_lookup. destruct (Hm id Hid) as [m ->]. by eexists.
    - intros id b Hb. apply Hst. by eapply Hh. }
  rewrite E2. eexists. split; [done|]. unfold g1, g0. cbn. by rewrite received_app.
Qed.

Lemma publish_list_stopped fuel es : forall g c,
  _write_func g = _write_to_cache_file -> _cache_file g = Some c ->
  PersistentCache._write_file c = true ->
  exists c' k, PersistentCache.add_all c es = Returns c'
    /\ publish_list fuel g es = (with_cache (with_kiew g k) (Some c') (_disk g), Returns tt).
Proof.
  induction es as [|e es IH]; intros g c Hw Hc Hcw; cbn [publish_list].
  { exists c, (_kiew g). split; [done|]. unfold with_cache, with_kiew. rewrite <-Hc. by destruct g. }
  unfold _publish. change (_write_func (with_kiew g _)) with (_write_func g). rewrite Hw.
  unfold _write_to_cache. change (_cache_file (with_kiew g _)) with (_cache_file g). rewrite Hc.
  unfold PersistentCache.add. rewrite Hcw.
  set (c1 := PersistentCache.Cache _ _ _).
  destruct (IH (with_cache (with_kiew g (_kiew g ++ [e])) (Some c1) (_disk g)) c1) as (c' & k & Ha & E1);
    [done|done|done|].
  exists c', k. cbn. rewrite E1. split; [|done].
  unfold PersistentCache.add_all. cbn [fold_left mbind outcome_bind].
  unfold PersistentCache.add at 2. rewrite Hcw. exact Ha.
Qed.

(** C13. Publishing on a running engine hands the event, and then everything the
    data hooks answer to it, to every subscriber, in that order and after what
    was queued; nothing stays queued. *)
Theorem publish_delivers fuel g e :
  registered g -> NoDup (_hooks g).*1 -> _write_func g = _write_to_subscribers ->
  (length (reactions (_hooks g) (hookers g) e) < fuel)%nat ->
  exists g', publish fuel g e = (g', Returns tt) /\ _kiew g' = []
    /\ muxers g' = received (_muxers g) (muxers g)
                     (_kiew g ++ e :: reactions (_hooks g) (hookers g) e).
Proof.
  intros Hr Hnh Hw Hf. destruct (publish_started fuel g e Hr Hnh Hw Hf) as (st & E1 & _).
  eexists. split; [exact E1|]. done.
Qed.

(** Starting the engine hands over, in this order: what the hooks say when
    they are told, the events of the cache file, the events queued while the
    engine was not started. *)
Theorem start_delivers fuel g :
  registered g -> NoDup (_hooks g).*1 -> Forall (fun p => snd p = false) (_hooks g) ->
  _write_func g <> _write_to_subscribers ->
  (forall id b h, (id, b) ∈ _hooks g -> hookers g !! id = Some h -> (length (emits (starting h)) < fuel)%nat) ->
  (0 < fuel)%nat ->
  exists g', start fuel g = (g', Returns tt) /\ _kiew g' = []
    /\ muxers g' = received (_muxers g) (muxers g)
                     (starting_events g ++ snd (cached_events g) ++ _kiew g).
Proof.
  intros. destruct (start_spec fuel g) as (g' & Eg & HA & HB & _); try done.
  by exists g'.
Qed.

(** C14. Nothing published while the engine is stopped is lost: stop, any
    publications, unload, and the start of the next engine hands exactly these
    publications to the subscribers of that time, in order. *)
Theorem stopped_events_replayed fuel g es ids ms hs :
  registered g -> _hooks g = [] -> _kiew g = [] -> _write_func g = _write_to_subscribers ->
  PersistentCache.new_file (current_disk g) = None ->
  NoDup ids -> (forall id, id ∈ ids -> is_Some (ms !! id)) -> (0 < fuel)%nat ->
  exists g1 g2 d g3, stop fuel [] g = (g1, Returns tt)
    /\ publish_list fuel g1 es = (g2, Returns tt)
    /\ unload g2 = Returns d
    /\ start fuel (fold_left subscribe ids (new_engine d hs ms)) = (g3, Returns tt)
    /\ muxers g3 = received ids ms es.
Proof.
  intros [Hm Hn Hh] Hhk Hk Hw Hnew Hni Hms Hf. unfold stop. rewrite Hw, Hhk.
  rewrite bool_decide_eq_false_2 by done. cbn [notify_hooks].
  destruct fuel as [|fuel]; [lia|]. cbn [flush_loop].
  rewrite send_to_subscribers_spec by done.
  set (g0 := with_kiew _ []).
  change (current_disk g0) with (current_disk g).
  destruct (PersistentCache.transaction_opens (current_disk g) Hnew) as (c0 & -> & Hcw & Hcc & Hcn).
  set (gs := with_write_func _ _write_to_cache_file).
  destruct (publish_list_stopped (S fuel) es gs c0) as (c' & k & Ha & E2); [done|done|done|].
  destruct (PersistentCache.commit_installs c0 es c' Hcw Hcc Hcn Ha) as (c3 & Hco & Hop & _).
  enough (exists g3, start (S fuel) (fold_left subscribe ids (new_engine (PersistentCache.disk c3) hs ms))
            = (g3, Returns tt) /\ muxers g3 = received ids ms es) as (g3 & E3 & Hg3).
  { eexists _, _, _, g3. split; [done|]. split; [exact E2|].
    unfold unload. cbn [with_cache _cache_file]. rewrite Hco. split; [reflexivity|]. done. }
  set (dd := PersistentCache.disk c3) in *.
  assert (Hsub : forall g0, fold_left subscribe ids g0 = with_muxer_list g0 (_muxers g0 ++ ids)).
  { clear. induction ids as [|i ids IH]; intros g0; cbn [fold_left]; [rewrite app_nil_r; by destruct g0|].
    rewrite IH. unfold subscribe, with_muxer_list. cbn. by rewrite <-app_assoc. }
  rewrite Hsub. cbn [new_engine _muxers app].
  destruct (start_spec (S fuel) (with_muxer_list (new_engine dd hs ms) ids)) as (g3 & E3 & H3 & _).
  - constructor; cbn; [done|done|]. intros id b Hb. by apply not_elem_of_nil in Hb.
  - constructor.
  - constructor.
  - done.
  - intros id b h Hb. by apply not_elem_of_nil in Hb.
  - lia.
  - exists g3. split; [exact E3|]. rewrite H3. unfold cached_events, current_disk, starting_events.
    cbn [with_muxer_list new_engine _cache_file _disk _muxers muxers _kiew _hooks flat_map]. rewrite Hop.
    cbn. by rewrite app_nil_r.
Qed.
End Engine.

(** ** A small engine: subscribers that remember, a hook that echoes *)

#[global] Instance log_subscriber : Subscriber Z (list Z) := {| deliver m e := (m ++ [e], Returns tt) |}.
#[global] Instance log_accepts : AcceptingSubscriber (E := Z) (M := list Z).
Proof. intros m e. by eexists. Defined.

#[global] Instance echo_hook : Hooker Z (list Z) := {|
  starting h := h ++ [100];
  stopping h := h;
  hook_write h e := (h ++ [10 * e], Returns tt);
  hook_read h := match h with [] => ([], Returns None) | e :: h' => (h', Returns (Some e)) end
|}.
#[global] Instance echo_laws : HookLaws (E := Z) (H := list Z).
Proof.
  refine {| emits h := h |}; cbn.
  - intros h ->. by eexists.
  - intros h e l ->. by eexists.
  - intros h e. by eexists.
Defined.

Definition demo (hs : list (Z * bool)) (w : write_func) (k : list Z) : engine (E := Z) (H := list Z) (M := list Z) :=
  Mk_engine k hs [5; 6] w None (PersistentCache.Files (Some [41; 42]) None None)
    {[ 1 := [] ]} (<[5 := []]> {[ 6 := [] ]}).

Lemma demo_registered hs w k : (forall id b, (id, b) ∈ hs -> id = 1) -> registered (demo hs w k).
Proof.
  intros Hhs. constructor; cbn.
  - intros id Hid. apply elem_of_cons in Hid as [->|Hid]; [by eexists|].
    apply list_elem_of_singleton in Hid as ->. by eexists.
  - apply NoDup_cons; split; [by rewrite list_elem_of_singleton|apply NoDup_singleton].
  - intros id b Hid. apply Hhs in Hid as ->. by eexists.
Qed.

Lemma publish_delivers_witness :
  let g := demo [(1, true)] _write_to_subscribers [3] in
  exists g', publish 9 g 4 = (g', Returns tt) /\ _kiew g' = []
    /\ muxers g' = received (_muxers g) (muxers g) (_kiew g ++ 4 :: reactions (_hooks g) (hookers g) 4).
Proof.
  intros g. apply (publish_delivers 9 (demo [(1, true)] _write_to_subscribers [3]) 4).
  - apply demo_registered. intros id b Hid. apply list_elem_of_singleton in Hid. by simplify_eq.
  - apply NoDup_singleton.
  - reflexivity.
  - apply Nat.ltb_lt. reflexivity.
Defined.

Lemma start_delivers_witness :
  let g := demo [(1, false)] _nop [3] in
  exists g', start 9 g = (g', Returns tt) /\ _kiew g' = []
    /\ muxers g' = received (_muxers g) (muxers g) (starting_events g ++ snd (cached_events g) ++ _kiew g).
Proof.
  intros g. apply (start_delivers 9 (demo [(1, false)] _nop [3])).
  - apply demo_registered. intros id b Hid. apply list_elem_of_singleton in Hid. by simplify_eq.
  - apply NoDup_singleton.
  - by repeat constructor.
  - discriminate.
  - intros id b h Hid Hh. apply list_elem_of_singleton in Hid. simplify_eq.
    assert (h = []) as -> by (cbn [hookers demo g] in Hh; rewrite lookup_singleton_eq in Hh; congruence). apply Nat.ltb_lt. reflexivity.
  - lia.
Defined.

Lemma stopped_events_replayed_witness :
  exists g1 g2 d g3, stop 9 [] (demo [] _write_to_subscribers []) = (g1, Returns tt)
    /\ publish_list 9 g1 [7; 8] = (g2, Returns tt)
    /\ unload g2 = Returns d
    /\ start 9 (fold_left subscribe [6] (new_engine (H := list Z) d ∅ {[ 6 := [] ]})) = (g3, Returns tt)
    /\ muxers g3 = received [6] {[ 6 := [] ]} [7; 8].
Proof.
  apply (stopped_events_replayed 9 (demo [] _write_to_subscribers []) [7; 8] [6] {[ 6 := [] ]} ∅).
  - apply demo_registered. intros id b Hid. by apply not_elem_of_nil in Hid.
  - reflexivity.
  - reflexivity.
  - reflexivity.
  - reflexivity.
  - apply NoDup_singleton.
  - intros id Hid. apply list_elem_of_singleton in Hid as ->. by eexists.
  - lia.
Defined.
End Engine.
