(* ===== verification/ExpTokenizer.v ===== *)
(** * The expression tokenizer (bam/src/exp_tokenizer.cc)

    Cutting the text of a boolean expression in tokens, with quotes, escapes and
    the old brace syntax for the status of a host or of a service. The cursor
    (_next) is kept as the text that starts there. *)

From Stdlib Require Import ZArith Lia ZifyNat ZifyBool Strings.Byte.
From stdpp Require Import base option list numbers strings.
From S2P Require Import Prelude.

Module ExpTokenizer.

Record exp_tokenizer : Type := Exp_tokenizer {
  _rest : cstring;
  _queue : list cstring
}.

Definition new_tokenizer (text : cstring) : exp_tokenizer := Exp_tokenizer text [].

Definition is_char (s : string) (b : byte) : bool := existsb (byte_eqb b) (str s).

Definition _is_special_char (b : byte) : bool := is_char "(),+-*/%=!><|&" b.
Definition _is_right_brace (b : byte) : bool := byte_eqb b x7d.
Definition _is_space_or_right_brace (b : byte) : bool := isspace b || _is_right_brace b.
Definition _is_delimiter (b : byte) : bool := isspace b || _is_special_char b.

Definition double_quote : byte := x22.
Definition single_quote : byte := x27.
Definition backslash : byte := x5c.

Fixpoint _skip_ws (l : cstring) : cstring :=
  match l with
  | c :: l' => if isspace c then _skip_ws l' else l
  | [] => []
  end.

(** [quote] is the quote being read, if any. The result is the token and the
    text that follows. A backslash that ends the text leaves the cursor one
    past the end, where the code goes on reading; here the text is over. *)
Fixpoint extract_loop (stop : byte -> bool) (quote : option byte) (retval l : cstring)
  : outcome (cstring * cstring) :=
  match quote, l with
  | None, [] => Returns (retval, [])
  | None, c :: l' =>
    if stop c then Returns (retval, l)
    else if byte_eqb c single_quote || byte_eqb c double_quote then extract_loop stop (Some c) retval l'
    else if byte_eqb c backslash then
      match l' with
      | d :: l'' => extract_loop stop None (retval ++ [d]) l''
      | [] => Returns (retval, [])
      end
    else extract_loop stop None (retval ++ [c]) l'
  | Some q, [] => Throws Exn_msg
  | Some q, c :: l' =>
    if byte_eqb c q then extract_loop stop None retval l'
    else if byte_eqb q double_quote && byte_eqb c backslash then
      match l' with
      | d :: l'' => extract_loop stop (Some q) (retval ++ [d]) l''
      | [] => Throws Exn_msg
      end
    else extract_loop stop (Some q) (retval ++ [c]) l'
  end.

Definition _extract_until (stop : byte -> bool) (l : cstring) : outcome (cstring * cstring) :=
  extract_loop stop None [] l.

(** What stays as it is between braces. *)
Definition brace_words : list cstring :=
  [str "IS"; str "NOT"; str "AND"; str "XOR"; str "OR"; str "OK"; str "WARNING"; str "CRITICAL";
   str "UNKNOWN"; str "UP"; str "DOWN"; str "UNREACHABLE"].

Definition is_brace_word (w : cstring) : bool := existsb (cstring_eqb w) brace_words.

(** The closing brace is required. *)
Definition end_brace (token l : cstring) (q : list cstring) : outcome (cstring * exp_tokenizer) :=
  match l with
  | c :: l' => if _is_right_brace c then Returns (token, Exp_tokenizer l' q) else Throws Exn_msg
  | [] => Throws Exn_msg
  end.

Definition _extract_token (l : cstring) (q : list cstring) : outcome (cstring * exp_tokenizer) :=
  match l with
  | c :: l' =>
    if byte_eqb c x7b then
      '(retval, r) ← _extract_until _is_space_or_right_brace l';
      if is_brace_word retval then end_brace retval r q
      else
        let q := q ++ [str "("; retval] in
        let r := _skip_ws r in
        match r with
        | d :: _ =>
          if negb (byte_eqb d x7d) then
            '(svc, r) ← _extract_until _is_right_brace r;
            end_brace (str "SERVICESTATUS") r (q ++ [str ","; svc; str ")"])
          else end_brace (str "HOSTSTATUS") r (q ++ [str ")"])
        | [] => end_brace (str "HOSTSTATUS") r (q ++ [str ")"])
        end
    else
      '(retval, r) ← _extract_until _is_delimiter l;
      Returns (retval, Exp_tokenizer r q)
  | [] => '(retval, r) ← _extract_until _is_delimiter l; Returns (retval, Exp_tokenizer r q)
  end.

(** ==, !=, >=, <=, || and && are one token. *)
Definition double_special (c d : byte) : bool :=
  (is_char "=!<>" c && byte_eqb d x3d) || (is_char "|&" c && byte_eqb c d).

Definition next (t : exp_tokenizer) : outcome (cstring * exp_tokenizer) :=
  match _queue t with
  | token :: q => Returns (token, Exp_tokenizer (_rest t) q)
  | [] =>
    match _skip_ws (_rest t) with
    | [] => Returns ([], Exp_tokenizer [] [])
    | c :: l =>
      if _is_special_char c then
        match l with
        | d :: l' =>
          if double_special c d then Returns ([c; d], Exp_tokenizer l' [])
          else Returns ([c], Exp_tokenizer l [])
        | [] => Returns ([c], Exp_tokenizer l [])
        end
      else _extract_token (c :: l) []
    end
  end.

(** The loop of exp_parser::get_postfix: tokens until an empty one. *)
Fixpoint tokens (fuel : nat) (t : exp_tokenizer) : outcome (list cstring) :=
  match fuel with
  | O => Diverges
  | S fuel' =>
    '(token, t') ← next t;
    match token with
    | [] => Returns []
    | _ :: _ => r ← tokens fuel' t'; Returns (token :: r)
    end
  end.

(** ** What a text is made of *)

(** Pieces of text and the tokens each stands for. *)
Inductive piece : Type :=
  | Word (w : cstring)              (** a name, a number, a constant *)
  | Special (w : cstring)           (** an operator of special characters, a parenthesis *)
  | Quoted (w : cstring)            (** a text between double quotes *)
  | Brace_word (w : cstring)        (** {IS} and the like *)
  | Brace_service (h s : cstring)   (** {host service} *)
  | Brace_host (h : cstring).       (** {host} *)

Definition plain_char (b : byte) : bool :=
  negb (_is_delimiter b || byte_eqb b single_quote || byte_eqb b double_quote
        || byte_eqb b backslash || byte_eqb b x7b || byte_eqb b x7d).

Definition nonempty (w : cstring) : bool := match w with [] => false | _ => true end.
Definition plain (w : cstring) : bool := nonempty w && forallb plain_char w.

(** The inside of double quotes: quotes and backslashes are escaped. *)
Definition quote_char (b : byte) : cstring :=
  if byte_eqb b double_quote || byte_eqb b backslash then [backslash; b] else [b].
Definition quote_text (w : cstring) : cstring := [double_quote] ++ (w ≫= quote_char) ++ [double_quote].

(** A service name may hold spaces and special characters, not in front. *)
Definition service_char (b : byte) : bool :=
  negb (byte_eqb b single_quote || byte_eqb b double_quote || byte_eqb b backslash || byte_eqb b x7d).
Definition service_name (w : cstring) : bool :=
  match w with b :: _ => negb (isspace b) && forallb service_char w | [] => false end.

Definition special_words : list cstring :=
  [str "("; str ")"; str ","; str "+"; str "-"; str "*"; str "/"; str "%"; str "="; str "!"; str ">";
   str "<"; str "|"; str "&"; str "=="; str "!="; str ">="; str "<="; str "||"; str "&&"].

Definition piece_ok (p : piece) : bool :=
  match p with
  | Word w => plain w
  | Special w => existsb (cstring_eqb w) special_words
  | Quoted w => nonempty w
  | Brace_word w => is_brace_word w
  | Brace_service h s => plain h && negb (is_brace_word h) && service_name s
  | Brace_host h => plain h && negb (is_brace_word h)
  end.

Definition piece_text (p : piece) : cstring :=
  match p with
  | Word w | Special w => w
  | Quoted w => quote_text w
  | Brace_word w => str "{" ++ w ++ str "}"
  | Brace_service h s => str "{" ++ h ++ str " " ++ s ++ str "}"
  | Brace_host h => str "{" ++ h ++ str "}"
  end.

Definition piece_tokens (p : piece) : list cstring :=
  match p with
  | Word w | Special w | Quoted w | Brace_word w => [w]
  | Brace_service h s => [str "SERVICESTATUS"; str "("; h; str ","; s; str ")"]
  | Brace_host h => [str "HOSTSTATUS"; str "("; h; str ")"]
  end.

(** A text: its pieces, each followed by a space. *)
Definition text_of (ps : list piece) : cstring := ps ≫= fun p => piece_text p ++ str " ".

(** ** Lemmas *)

Lemma plain_char_facts b : plain_char b = true ->
  _is_delimiter b = false /\ isspace b = false /\ _is_special_char b = false
  /\ _is_space_or_right_brace b = false /\ byte_eqb b x7b = false
  /\ byte_eqb b single_quote || byte_eqb b double_quote = false /\ byte_eqb b backslash = false.
Proof.
  intros H. pose proof (forall_bytes (fun b => implb (plain_char b)
    (negb (_is_delimiter b) && negb (isspace b) && negb (_is_special_char b)
     && negb (_is_space_or_right_brace b) && negb (byte_eqb b x7b)
     && negb (byte_eqb b single_quote || byte_eqb b double_quote) && negb (byte_eqb b backslash)))) as F.
  specialize (F ltac:(vm_compute; reflexivity) b). cbv beta in F. rewrite H in F. cbn [implb] in F.
  zbool. repeat split; try done. by apply orb_false_iff.
Qed.

(** Plain characters are taken as they are up to a stop. *)
Lemma extract_plain (stop : byte -> bool) (ok : byte -> bool) w acc rest :
  (forall b, ok b = true -> stop b = false /\ byte_eqb b single_quote || byte_eqb b double_quote = false
                            /\ byte_eqb b backslash = false) ->
  forallb ok w = true -> match rest with c :: _ => stop c = true | [] => True end ->
  extract_loop stop None acc (w ++ rest) = Returns (acc ++ w, rest).
Proof.
  intros Hok. revert acc. induction w as [|c w IH]; intros acc Hw Hr.
  - rewrite app_nil_r. destruct rest as [|d rest]; cbn; [done|]. by rewrite Hr.
  - cbn [forallb] in Hw. apply andb_true_iff in Hw as [Hc Hw]. cbn [app extract_loop].
    destruct (Hok c Hc) as (-> & -> & ->). rewrite IH by done. by rewrite <-app_assoc.
Qed.

Lemma extract_quoted stop w acc rest :
  extract_loop stop (Some double_quote) acc ((w ≫= quote_char) ++ [double_quote] ++ rest)
  = extract_loop stop None (acc ++ w) rest.
Proof.
  revert acc. induction w as [|c w IH]; intros acc.
  - rewrite app_nil_r. cbn [mbind list_bind app extract_loop]. by rewrite byte_eqb_refl.
  - change ((c :: w) ≫= quote_char) with (quote_char c ++ (w ≫= quote_char)).
    rewrite <-app_assoc. unfold quote_char at 1.
    assert (Hrec : extract_loop stop (Some double_quote) (acc ++ [c])
              ((w ≫= quote_char) ++ [double_quote] ++ rest) = extract_loop stop None (acc ++ c :: w) rest).
    { rewrite IH. by rewrite <-app_assoc. }
    destruct (byte_eqb c double_quote) eqn:E1; cbn [orb].
    + cbn [app extract_loop]. change (byte_eqb backslash double_quote) with false. cbv iota.
      by rewrite !byte_eqb_refl.
    + destruct (byte_eqb c backslash) eqn:E2; cbn [app extract_loop].
      * change (byte_eqb backslash double_quote) with false. cbv iota. by rewrite !byte_eqb_refl.
      * rewrite E1, E2. rewrite andb_false_r. exact Hrec.
Qed.

Lemma skip_ws_plain c l : isspace c = false -> _skip_ws (c :: l) = c :: l.
Proof. intros H. cbn. by rewrite H. Qed.

Lemma tokens_queue fuel t rest q r :
  tokens fuel (Exp_tokenizer rest []) = Returns r -> forallb nonempty q = true ->
  t = Exp_tokenizer rest q -> tokens (length q + fuel) t = Returns (q ++ r).
Proof.
  intros Hr Hq ->. induction q as [|w q IH]; [done|]. cbn [forallb] in Hq. zbool.
  cbn [length Nat.add tokens next _queue _rest mbind outcome_bind]. rewrite IH by done.
  by destruct w.
Qed.

Lemma tokens_more fuel fuel' t r : tokens fuel t = Returns r -> (fuel <= fuel')%nat -> tokens fuel' t = Returns r.
Proof.
  revert fuel' t r. induction fuel as [|fuel IH]; intros fuel' t r H Hf; [done|].
  destruct fuel' as [|fuel']; [lia|]. cbn [tokens] in *.
  destruct (next t) as [[w t']|e|]; cbn [mbind outcome_bind] in *; try done.
  destruct w; [done|]. apply bind_Returns in H as (r' & Hr' & H). rewrite (IH fuel' _ _ Hr') by lia. done.
Qed.

Lemma plain_cons w : plain w = true -> exists c l, w = c :: l /\ plain_char c = true /\ forallb plain_char w = true.
Proof. unfold plain. destruct w as [|c l]; cbn; [done|]. intros H. zbool. exists c, l. rewrite H. done. Qed.

Lemma plain_stops : forall b, plain_char b = true ->
  _is_delimiter b = false /\ byte_eqb b single_quote || byte_eqb b double_quote = false /\ byte_eqb b backslash = false.
Proof. intros b H. destruct (plain_char_facts b H) as (? & ? & ? & ? & ? & ? & ?). done. Qed.

Lemma plain_stops_brace : forall b, plain_char b = true ->
  _is_space_or_right_brace b = false /\ byte_eqb b single_quote || byte_eqb b double_quote = false
  /\ byte_eqb b backslash = false.
Proof. intros b H. destruct (plain_char_facts b H) as (? & ? & ? & ? & ? & ? & ?). done. Qed.

Lemma service_stops : forall b, service_char b = true ->
  _is_right_brace b = false /\ byte_eqb b single_quote || byte_eqb b double_quote = false
  /\ byte_eqb b backslash = false.
Proof. intros b H. unfold service_char in H. zbool. unfold _is_right_brace. split; [done|]. split; [|done]. by apply orb_false_iff. Qed.

Lemma in_words w l : existsb (cstring_eqb w) l = true -> w ∈ l.
Proof.
  intros H. apply existsb_exists in H as (x & Hx & He). apply bool_decide_eq_true in He. subst x.
  by apply list_elem_of_In.
Qed.

Lemma extract_plain_delim w acc rest :
  forallb plain_char w = true ->
  extract_loop _is_delimiter None acc (w ++ x20 :: rest) = Returns (acc ++ w, x20 :: rest).
Proof. intros. by apply (extract_plain _ plain_char); [apply plain_stops|..]. Qed.

Lemma next_plain w l : plain w = true ->
  next (Exp_tokenizer (w ++ str " " ++ l) []) = Returns (w, Exp_tokenizer (str " " ++ l) []).
Proof.
  intros H. destruct (plain_cons w H) as (c & w' & Ew & Hc & Hw).
  destruct (plain_char_facts c Hc) as (Hd & Hsp & Hs & _ & Hb & _).
  unfold next. cbn [_queue _rest].
  assert (Hskip : _skip_ws (w ++ str " " ++ l) = w ++ str " " ++ l).
  { rewrite Ew. cbn [app]. by apply skip_ws_plain. }
  rewrite Hskip. rewrite Ew at 1. cbn [app]. rewrite Hs.
  unfold _extract_token. rewrite Hb. unfold _extract_until.
  change (c :: w' ++ str " " ++ l) with ((c :: w') ++ x20 :: l). rewrite <-Ew.
  by rewrite extract_plain_delim.
Qed.

Lemma next_quoted w l : next (Exp_tokenizer (quote_text w ++ str " " ++ l) []) = Returns (w, Exp_tokenizer (str " " ++ l) []).
Proof.
  unfold next, quote_text. cbn [_queue _rest]. rewrite <-!app_assoc. cbn [app].
  rewrite skip_ws_plain by done. change (_is_special_char double_quote) with false. cbv iota.
  unfold _extract_token. change (byte_eqb double_quote x7b) with false. cbv iota.
  unfold _extract_until. cbn [extract_loop]. change (_is_delimiter double_quote) with false. cbv iota.
  change (byte_eqb double_quote single_quote || byte_eqb double_quote double_quote) with true. cbv iota.
  change (double_quote :: str " " ++ l) with ([double_quote] ++ str " " ++ l).
  rewrite extract_quoted. done.
Qed.

(** An opening brace and a host name. *)
Lemma extract_brace h rest :
  plain h = true -> match rest with c :: _ => _is_space_or_right_brace c = true | [] => True end ->
  _extract_until _is_space_or_right_brace (h ++ rest) = Returns (h, rest).
Proof.
  intros H Hr. destruct (plain_cons h H) as (_ & _ & _ & _ & Hh). unfold _extract_until.
  by rewrite (extract_plain _ plain_char) by (done || apply plain_stops_brace).
Qed.

Lemma next_brace_host h l : plain h = true -> is_brace_word h = false ->
  next (Exp_tokenizer (piece_text (Brace_host h) ++ str " " ++ l) [])
  = Returns (str "HOSTSTATUS", Exp_tokenizer (str " " ++ l) [str "("; h; str ")"]).
Proof.
  intros H Hb. unfold next. cbn [_queue _rest piece_text]. rewrite <-!app_assoc.
  change (str "{" ++ h ++ str "}" ++ str " " ++ l) with (x7b :: (h ++ (x7d :: str " " ++ l))).
  rewrite skip_ws_plain by done. change (_is_special_char x7b) with false. cbv iota.
  unfold _extract_token. rewrite byte_eqb_refl, extract_brace by done.
  cbn [mbind outcome_bind]. by rewrite Hb.
Qed.

Lemma next_brace_service h s l : plain h = true -> is_brace_word h = false -> service_name s = true ->
  next (Exp_tokenizer (piece_text (Brace_service h s) ++ str " " ++ l) [])
  = Returns (str "SERVICESTATUS", Exp_tokenizer (str " " ++ l) [str "("; h; str ","; s; str ")"]).
Proof.
  intros H Hb Hs. unfold next. cbn [_queue _rest piece_text]. rewrite <-!app_assoc.
  change (str "{" ++ h ++ str " " ++ s ++ str "}" ++ str " " ++ l)
    with (x7b :: (h ++ (x20 :: s ++ (x7d :: str " " ++ l)))).
  rewrite skip_ws_plain by done. change (_is_special_char x7b) with false. cbv iota.
  unfold _extract_token. rewrite byte_eqb_refl, extract_brace by done.
  cbn [mbind outcome_bind]. rewrite Hb.
  destruct s as [|c s]; [done|]. cbn [service_name] in Hs. apply andb_true_iff in Hs as [Hc Hs].
  apply negb_true_iff in Hc.
  change (_skip_ws (x20 :: (c :: s) ++ x7d :: str " " ++ l)) with (_skip_ws (c :: s ++ x7d :: str " " ++ l)).
  rewrite skip_ws_plain by done.
  assert (Hcb : byte_eqb c x7d = false).
  { cbn [forallb] in Hs. apply andb_true_iff in Hs as [Hs _]. apply service_stops in Hs as [Hs _]. done. }
  rewrite Hcb. cbn [negb]. unfold _extract_until.
  change (c :: s ++ x7d :: str " " ++ l) with ((c :: s) ++ x7d :: str " " ++ l).
  rewrite (extract_plain _ service_char) by (done || apply service_stops). done.
Qed.

Lemma piece_next p l : piece_ok p = true ->
  exists w q, piece_tokens p = w :: q /\ forallb nonempty (w :: q) = true
    /\ next (Exp_tokenizer (piece_text p ++ str " " ++ l) []) = Returns (w, Exp_tokenizer (str " " ++ l) q).
Proof.
  intros H. destruct p as [w|w|w|w|h s|h]; cbn [piece_ok piece_tokens] in *.
  - exists w, []. split; [done|]. split; [|by apply next_plain].
    unfold plain in H. cbn. by apply andb_true_iff in H as [-> _].
  - apply in_words in H. exists w, []. split; [done|]. cbn [piece_text].
    repeat (apply elem_of_cons in H as [->|H]; [split; reflexivity|]). by apply not_elem_of_nil in H.
  - exists w, []. split; [done|]. split; [by cbn; rewrite H|apply next_quoted].
  - apply in_words in H. exists w, []. split; [done|]. cbn [piece_text].
    repeat (apply elem_of_cons in H as [->|H]; [split; reflexivity|]). by apply not_elem_of_nil in H.
  - zbool. eexists _, _. split; [done|]. split; [|by apply next_brace_service].
    cbn. destruct h; [done|]. by destruct s.
  - zbool. eexists _, _. split; [done|]. split; [|by apply next_brace_host].
    cbn. by destruct h.
Qed.

Lemma tokens_space fuel l : tokens fuel (Exp_tokenizer (str " " ++ l) []) = tokens fuel (Exp_tokenizer l []).
Proof. by destruct fuel. Qed.

Lemma tokens_text ps : forallb piece_ok ps = true ->
  tokens (S (length (ps ≫= piece_tokens))) (Exp_tokenizer (text_of ps) []) = Returns (ps ≫= piece_tokens).
Proof.
  induction ps as [|p ps IH]; intros H; [done|]. cbn [forallb] in H. zbool.
  destruct (piece_next p (text_of ps)) as (w & q & Ht & Hne & Hn); [done|].
  change ((p :: ps) ≫= piece_tokens) with (piece_tokens p ++ (ps ≫= piece_tokens)).
  change (text_of (p :: ps)) with ((piece_text p ++ str " ") ++ text_of ps).
  rewrite <-app_assoc, Ht, length_app. cbn [length Nat.add].
  cbn [forallb] in Hne. zbool.
  remember (S (length q + length (ps ≫= piece_tokens))) as n eqn:En.
  cbn [tokens]. rewrite Hn. cbn [mbind outcome_bind].
  destruct w as [|c w]; [done|].
  assert (Hq : tokens n (Exp_tokenizer (str " " ++ text_of ps) q) = Returns (q ++ (ps ≫= piece_tokens))).
  { replace n with (length q + S (length (ps ≫= piece_tokens)))%nat by lia.
    eapply tokens_queue; [|done|reflexivity]. rewrite tokens_space. by apply IH. }
  by rewrite Hq.
Qed.

(** Tokenizing a text made of well-formed pieces gives the tokens of each:
    names and constants as they are, quoted texts without their quotes and
    escapes, the old brace syntax as the call it stands for. *)
Theorem tokenize_pieces ps fuel :
  forallb piece_ok ps = true -> (length (ps ≫= piece_tokens) < fuel)%nat ->
  tokens fuel (new_tokenizer (text_of ps)) = Returns (ps ≫= piece_tokens).
Proof. intros H Hf. eapply tokens_more; [by apply tokens_text|lia]. Qed.

Lemma tokenize_pieces_witness :
  tokens 20 (new_tokenizer (text_of [Brace_service (str "host") (str "disk /"); Brace_word (str "IS");
      Brace_word (str "CRITICAL"); Special (str "&&"); Quoted [x61; x22; x62]; Word (str "42")]))
  = Returns [str "SERVICESTATUS"; str "("; str "host"; str ","; str "disk /"; str ")"; str "IS";
      str "CRITICAL"; str "&&"; [x61; x22; x62]; str "42"].
Proof.
  apply (tokenize_pieces [Brace_service (str "host") (str "disk /"); Brace_word (str "IS");
      Brace_word (str "CRITICAL"); Special (str "&&"); Quoted [x61; x22; x62]; Word (str "42")]).
  - reflexivity.
  - apply Nat.ltb_lt. reflexivity.
Defined.

(** ** Every text ends *)

Definition never_diverges {A} (P : A -> Prop) (r : outcome A) : Prop :=
  match r with Returns a => P a | Throws _ => True | Diverges => False end.

Lemma never_diverges_bind {A B} (P : A -> Prop) (Q : B -> Prop) (r : outcome A) (f : A -> outcome B) :
  never_diverges P r -> (forall a, P a -> never_diverges Q (f a)) -> never_diverges Q (a ← r; f a).
Proof. destruct r; cbn; auto. Qed.

Lemma extract_loop_rest stop n : forall l quote acc, (length l <= n)%nat ->
  never_diverges (fun p => (length p.2 <= length l)%nat) (extract_loop stop quote acc l).
Proof.
  assert (Hle : forall (m m' : nat) (r : outcome (cstring * cstring)), (m <= m')%nat ->
    never_diverges (fun p => (length p.2 <= m)%nat) r -> never_diverges (fun p => (length p.2 <= m')%nat) r).
  { intros m m' [[w r]|e|]; cbn; lia. }
  induction n as [|n IH]; intros l quote acc Hl.
  { destruct l; [|cbn in Hl; lia]. destruct quote; cbn; [done|lia]. }
  destruct l as [|c l]; [destruct quote; cbn; [done|lia]|]. cbn [length] in Hl.
  assert (H1 : forall q a, never_diverges (fun p => (length p.2 <= S (length l))%nat) (extract_loop stop q a l)).
  { intros q a. apply (Hle (length l)); [lia|]. apply IH. lia. }
  assert (H2 : forall q a d l', l = d :: l' -> never_diverges (fun p => (length p.2 <= S (length l))%nat) (extract_loop stop q a l')).
  { intros q a d l' ->. cbn [length] in *. apply (Hle (length l')); [lia|]. apply IH. lia. }
  destruct quote as [q|]; cbn [extract_loop length].
  - case_match; [apply H1|]. case_match; [|apply H1]. destruct l as [|d l'] eqn:E; [done|]. rewrite <-E in *. by apply (H2 _ _ d).
  - case_match; [cbn; lia|]. case_match; [apply H1|]. case_match; [|apply H1].
    destruct l as [|d l'] eqn:E; [cbn; lia|]. rewrite <-E in *. by apply (H2 _ _ d).
Qed.

Lemma extract_until_rest stop l : never_diverges (fun p => (length p.2 <= length l)%nat) (_extract_until stop l).
Proof. by apply (extract_loop_rest stop (length l)). Qed.

Lemma skip_ws_rest l : (length (_skip_ws l) <= length l)%nat.
Proof. induction l as [|c l IH]; cbn [_skip_ws]; [done|]. case_match; cbn [length]; lia. Qed.

(** The text that is left, and the tokens that wait. *)
Definition weight (t : exp_tokenizer) : nat := 8 * length (_rest t) + length (_queue t).

Lemma end_brace_weight token l q : never_diverges (fun p => (weight p.2 < 8 * length l + length q)%nat) (end_brace token l q).
Proof. unfold end_brace. destruct l as [|c l]; [done|]. case_match; [|done]. cbn. lia. Qed.

(** A token takes at least one character of the text, or waited for its turn. *)
Lemma extract_token_weight c l : _is_delimiter c = false ->
  never_diverges (fun p => (weight p.2 < 8 * S (length l))%nat) (_extract_token (c :: l) []).
Proof.
  intros Hc. unfold _extract_token. destruct (byte_eqb c x7b).
  - eapply never_diverges_bind; [apply extract_until_rest|]. intros [w r] Hr. cbn [snd] in Hr.
    assert (He : forall token r' q, (length r' <= length l)%nat -> (length q <= 8)%nat ->
      never_diverges (fun p => (weight p.2 < 8 * S (length l))%nat) (end_brace token r' q)).
    { intros token r' q H1 H2. pose proof (end_brace_weight token r' q) as H. destruct (end_brace token r' q); cbn in *; try done. lia. }
    destruct (is_brace_word w); [apply He; [done|cbn; lia]|]. pose proof (skip_ws_rest r) as Hs.
    destruct (_skip_ws r) as [|d r'] eqn:E; [apply He; cbn; lia|].
    destruct (negb _); [|apply He; [lia|cbn; lia]].
    eapply never_diverges_bind; [apply extract_until_rest|]. intros [svc r2] Hr2. cbn [snd length] in *. apply He; [lia|cbn; lia].
  - unfold _extract_until. cbn [extract_loop]. rewrite Hc.
    assert (Hx : forall q a m, (length m <= length l)%nat ->
      never_diverges (fun p : cstring * exp_tokenizer => (weight p.2 < 8 * S (length l))%nat)
        ('(retval, r) ← extract_loop _is_delimiter q a m; Returns (retval, Exp_tokenizer r []))).
    { intros q a m Hm. eapply never_diverges_bind; [by apply (extract_loop_rest _ (length m))|]. intros [w r] Hr. cbn in *. lia. }
    case_match; [by apply Hx|]. case_match; [|by apply Hx]. destruct l as [|d l]; [cbn; lia|]. apply Hx. cbn. lia.
Qed.

Lemma next_weight t : never_diverges (fun p => p.1 <> [] -> (weight p.2 < weight t)%nat) (next t).
Proof.
  destruct t as [rest q]. unfold next. cbn [_queue _rest]. destruct q as [|w q]; [|cbn; lia].
  pose proof (skip_ws_rest rest) as Hs. destruct (_skip_ws rest) as [|c l] eqn:E; [by cbn|]. cbn [length] in Hs.
  assert (Hc : isspace c = false).
  { revert E. clear. induction rest as [|b rest IH]; cbn [_skip_ws]; [done|]. destruct (isspace b) eqn:Eb; [done|]. by intros [= <- _]. }
  destruct (_is_special_char c) eqn:Esp.
  - clear E Hc Esp. unfold weight. destruct l as [|d l]; [|destruct (double_special c d)];
      cbn [never_diverges fst snd _rest _queue length] in *; lia.
  - pose proof (extract_token_weight c l) as H. unfold _is_delimiter in H. rewrite Hc, Esp in H. specialize (H eq_refl).
    clear E Hc Esp. unfold weight in *. destruct (_extract_token (c :: l) []); cbn [never_diverges _rest _queue length] in *; try done. lia.
Qed.

(** With fuel in proportion to the text the loop over the tokens ends, on every
    text. *)
Definition text_fuel (text : cstring) : nat := S (8 * length text).

Lemma tokens_end fuel : forall t, (weight t < fuel)%nat -> tokens fuel t <> Diverges.
Proof.
  induction fuel as [|fuel IH]; intros t Hf; [lia|]. cbn [tokens]. pose proof (next_weight t) as H.
  destruct (next t) as [[token t']|e|]; cbn [mbind outcome_bind never_diverges fst snd] in *; [|done..].
  destruct token as [|c token]; [done|]. specialize (H ltac:(done)). specialize (IH t' ltac:(lia)).
  destruct (tokens fuel t'); cbn [mbind outcome_bind]; done.
Qed.

Lemma text_tokens_end fuel text : (text_fuel text <= fuel)%nat -> tokens fuel (new_tokenizer text) <> Diverges.
Proof. intros H. apply tokens_end. unfold weight, text_fuel in *. cbn. lia. Qed.

(** An empty quoted text is an empty token, which ends the expression there:
    the rest of it is silently dropped. *)
Lemma empty_quotes_end_expression :
  tokens 20 (new_tokenizer (str "A && " ++ [x22; x22] ++ str " || B")) = Returns [str "A"; str "&&"].
Proof. reflexivity. Qed.

End ExpTokenizer.
