(* ===== verification/ExpParser.v ===== *)
(** * The expression parser (bam/src/exp_parser.cc)

    From the tokens of an expression to postfix notation, by the shunting-yard
    algorithm. The theorems say that the usual infix notation, with its
    priorities and parentheses, comes out as the postfix form of the
    expression meant, and that unbalanced parentheses never get through. *)

From Stdlib Require Import ZArith Lia ZifyNat ZifyBool Strings.Byte.
From stdpp Require Import base option list numbers strings.
From S2P Require Import Prelude Double ExpTokenizer.

Module ExpParser.

Definition one_of (l : list string) (w : cstring) : bool := existsb (fun s => cstring_eqb w (str s)) l.

Definition function_words : list string :=
  ["HOSTSTATUS"; "SERVICESTATUS"; "METRICS"; "METRIC"; "AVERAGE"; "COUNT"; "MAX"; "MIN";
   "SUM"; "CALL"]%string.
Definition is_function (token : cstring) : bool := one_of function_words token.

Definition operator_words : list string :=
  ["+"; "-"; "-u"; "*"; "/"; "%"; ">"; ">="; "<"; "<="; "=="; "IS"; "NOT"; "!="; "!"; "AND";
          "^"; "XOR"; "&&"; "OR"; "||"]%string.
Definition is_operator (token : cstring) : bool := one_of operator_words token.

(** std::map::operator[]: 0 for what the constructor did not set. *)
Definition _precedence (token : cstring) : Z :=
  if one_of ["&&"; "AND"; "||"; "OR"; "^"; "XOR"]%string token then 2
  else if one_of ["IS"; "NOT"; ">"; ">="; "<"; "<="; "=="; "!="]%string token then 3
  else if one_of ["+"; "-"]%string token then 4
  else if one_of ["*"; "/"; "%"]%string token then 5
  else if one_of ["-u"; "!"]%string token then 6
  else 0.

Arguments is_function token : simpl never.
Arguments is_operator token : simpl never.
Arguments _precedence token : simpl never.
Arguments cstring_eqb a b : simpl never.

(** The locals of get_postfix; the stack is a list, top first. *)
Record yard : Type := Yard {
  postfix : list cstring;
  stack : list cstring;
  arity : list Z;
  can_be_unary : bool
}.

Definition lparen : cstring := str "(".
Definition rparen : cstring := str ")".
Definition comma : cstring := str ",".
Definition minus : cstring := str "-".

(** Pop operators to the output until a left parenthesis. *)
Fixpoint pop_to_paren (out st : list cstring) : list cstring * list cstring :=
  match st with
  | t :: st' => if cstring_eqb t lparen then (out, st) else pop_to_paren (out ++ [t]) st'
  | [] => (out, [])
  end.

(** Pop the operators that bind at least as tightly. *)
Fixpoint pop_operators (token : cstring) (out st : list cstring) : list cstring * list cstring :=
  match st with
  | t :: st' =>
    if is_operator t && (_precedence token <=? _precedence t) then pop_operators token (out ++ [t]) st'
    else (out, st)
  | [] => (out, [])
  end.

Definition read_token (y : yard) (token : cstring) : outcome yard :=
  if is_function token then
    Returns (Yard (postfix y) (token :: stack y) (1 :: arity y) false)
  else if cstring_eqb token comma then
    let '(out, st) := pop_to_paren (postfix y) (stack y) in
    match st, arity y with
    | [], _ => Throws Exn_msg
    | _ :: _, [] => Throws Exn_msg
    | _ :: _, a :: ar => Returns (Yard out st (a + 1 :: ar) false)
    end
  else if is_operator token then
    if can_be_unary y && cstring_eqb token minus then
      Returns (Yard (postfix y) (str "-u" :: stack y) (arity y) true)
    else if can_be_unary y && (cstring_eqb token (str "NOT") || cstring_eqb token (str "!")) then
      Returns (Yard (postfix y) (str "!" :: stack y) (arity y) true)
    else
      let '(out, st) := pop_operators token (postfix y) (stack y) in
      Returns (Yard out (token :: st) (arity y) true)
  else if cstring_eqb token lparen then
    Returns (Yard (postfix y) (token :: stack y) (arity y) true)
  else if cstring_eqb token rparen then
    let '(out, st) := pop_to_paren (postfix y) (stack y) in
    match st with
    | [] => Throws Exn_msg
    | _ :: st =>
      match st with
      | f :: st' =>
        if is_function f then
          match arity y with
          | a :: ar => Returns (Yard (out ++ [f; Dbl.dec a]) st' ar false)
          | [] => Diverges
          end
        else Returns (Yard out st (arity y) false)
      | [] => Returns (Yard out st (arity y) false)
      end
    end
  else Returns (Yard (postfix y ++ [token]) (stack y) (arity y) false).

Fixpoint read_tokens (y : yard) (tokens : list cstring) : outcome yard :=
  match tokens with
  | [] => Returns y
  | t :: ts => y ← read_token y t; read_tokens y ts
  end.

Fixpoint pop_all (out st : list cstring) : outcome (list cstring) :=
  match st with
  | [] => Returns out
  | t :: st' => if cstring_eqb t lparen then Throws Exn_msg else pop_all (out ++ [t]) st'
  end.

(** get_postfix on tokens; what earlier calls left in _postfix stays. *)
Definition postfix_of (_postfix tokens : list cstring) : outcome (list cstring) :=
  y ← read_tokens (Yard _postfix [] [] true) tokens;
  pop_all (postfix y) (stack y).

Record exp_parser : Type := Exp_parser { _exp : cstring; _postfix : list cstring }.
Definition new_parser (expression : cstring) : exp_parser := Exp_parser expression [].

Definition get_postfix (fuel : nat) (p : exp_parser) : outcome (exp_parser * list cstring) :=
  tokens ← ExpTokenizer.tokens fuel (ExpTokenizer.new_tokenizer (_exp p));
  out ← postfix_of (_postfix p) tokens;
  Returns (Exp_parser (_exp p) out, out).

(** ** Infix expressions *)

Inductive expr : Type :=
  | Atom (w : cstring)
  | Call (f : cstring) (args : list expr)
  | Unary (op : cstring) (e : expr)
  | Paren (e : expr)
  | Bin (op : cstring) (l r : expr).

Lemma expr_nested_ind (P : expr -> Prop) :
  (forall w, P (Atom w)) -> (forall f args, Forall P args -> P (Call f args)) -> (forall op e, P e -> P (Unary op e)) ->
  (forall e, P e -> P (Paren e)) -> (forall op l r, P l -> P r -> P (Bin op l r)) -> forall e, P e.
Proof.
  intros HA HC HU HP HB. fix IH 1. intros [w|f args|op e|e|op l r]; [apply HA| |apply HU, IH|apply HP, IH|apply HB; apply IH].
  apply HC. induction args as [|e args IHa]; constructor; [apply IH|exact IHa].
Qed.

(** How tightly the outermost construct binds. *)
Definition level (e : expr) : Z :=
  match e with
  | Atom _ | Call _ _ | Paren _ => 7
  | Unary _ _ => 6
  | Bin op _ _ => _precedence op
  end.

Definition is_operand (w : cstring) : bool :=
  negb (is_function w || is_operator w || cstring_eqb w comma || cstring_eqb w lparen
        || cstring_eqb w rparen).

Definition is_binary (w : cstring) : bool :=
  is_operator w && negb (cstring_eqb w (str "-u") || cstring_eqb w (str "!")).

Definition is_unary (w : cstring) : bool := one_of ["-"; "NOT"; "!"]%string w.

(** The operator of the output. *)
Definition unary_operator (w : cstring) : cstring := if cstring_eqb w minus then str "-u" else str "!".

Fixpoint starts_unary (e : expr) : bool :=
  match e with
  | Unary _ _ => true
  | Bin _ l _ => starts_unary l
  | _ => false
  end.

(** Parentheses wherever priority or left associativity requires them, functions
    with arguments, the first of which only may start with a unary operator: after
    a comma the parser takes it for a binary one. *)
Fixpoint wf (e : expr) : bool :=
  match e with
  | Atom w => is_operand w
  | Call f args => is_function f && forallb wf args
      && match args with [] => false | _ :: args => forallb (fun e => negb (starts_unary e)) args end
  | Unary op e => is_unary op && wf e && (6 <=? level e)
  | Paren e => wf e
  | Bin op l r => is_binary op && wf l && wf r && (_precedence op <=? level l) && (_precedence op <? level r)
  end.

(** Tokens of arguments with commas between them. *)
Definition commas (l : list (list cstring)) : list cstring :=
  match l with [] => [] | a :: l => a ++ concat (map (cons comma) l) end.

Fixpoint infix (e : expr) : list cstring :=
  match e with
  | Atom w => [w]
  | Call f args => [f; lparen] ++ commas (map infix args) ++ [rparen]
  | Unary op e => op :: infix e
  | Paren e => [lparen] ++ infix e ++ [rparen]
  | Bin op l r => infix l ++ [op] ++ infix r
  end.

(** A function comes after its arguments, with their number. *)
Fixpoint rpn (e : expr) : list cstring :=
  match e with
  | Atom w => [w]
  | Call f args => concat (map rpn args) ++ [f; Dbl.dec (Z.of_nat (length args))]
  | Unary op e => rpn e ++ [unary_operator op]
  | Paren e => rpn e
  | Bin op l r => rpn l ++ rpn r ++ [op]
  end.

(** ** Lemmas *)

(** A fact about the words of a list is checked on each. *)
Lemma one_of_all (P : cstring -> bool) l w :
  forallb (fun s => P (str s)) l = true -> one_of l w = true -> P w = true.
Proof.
  unfold one_of. intros F H. apply existsb_exists in H as (s & Hs & He).
  apply bool_decide_eq_true in He. subst w. rewrite forallb_forall in F. by apply F.
Qed.

Lemma is_binary_facts op : is_binary op = true ->
  is_function op = false /\ cstring_eqb op comma = false /\ is_operator op = true
  /\ 2 <= _precedence op <= 5.
Proof.
  intros H. pose proof H as Ho. unfold is_binary in Ho. apply andb_true_iff in Ho as [Ho _].
  pose proof (one_of_all (fun op => implb (is_binary op)
    (negb (is_function op) && negb (cstring_eqb op comma) && is_operator op
     && (2 <=? _precedence op) && (_precedence op <=? 5))) operator_words op ltac:(vm_compute; reflexivity) Ho) as F.
  cbv beta in F. rewrite H in F. cbn [implb] in F. zbool. done.
Qed.

Lemma is_operator_not_paren t : is_operator t = true -> cstring_eqb t lparen = false /\ is_function t = false.
Proof.
  intros H. pose proof (one_of_all (fun t => negb (cstring_eqb t lparen) && negb (is_function t)) operator_words t
    ltac:(vm_compute; reflexivity) H) as F. cbv beta in F. zbool. done.
Qed.

Lemma is_operand_facts w : is_operand w = true ->
  is_function w = false /\ is_operator w = false /\ cstring_eqb w comma = false
  /\ cstring_eqb w lparen = false /\ cstring_eqb w rparen = false.
Proof. unfold is_operand. intros H. zbool. done. Qed.

Lemma level_range e : wf e = true -> 2 <= level e <= 7.
Proof.
  destruct e; cbn; try lia. intros H. zbool. apply is_binary_facts in H as (_ & _ & _ & ?). lia.
Qed.

Lemma pop_operators_all op out s st :
  Forall (fun t => is_operator t = true /\ _precedence op <= _precedence t) s ->
  match st with t :: _ => is_operator t = true -> _precedence t < _precedence op | [] => True end ->
  pop_operators op out (s ++ st) = (out ++ s, st).
Proof.
  intros Hs Hst. revert out. induction Hs as [|t s [Ht Hp] _ IH]; intros out.
  - rewrite app_nil_r. destruct st as [|t st]; cbn [app pop_operators]; [done|].
    destruct (is_operator t); cbn [andb]; [|done]. by rewrite (proj2 (Z.leb_gt _ _)) by auto.
  - cbn [app pop_operators]. rewrite Ht, (proj2 (Z.leb_le _ _)) by done. cbn [andb].
    rewrite IH. by rewrite <-app_assoc.
Qed.

Lemma pop_to_paren_all out s st :
  Forall (fun t => is_operator t = true) s -> pop_to_paren out (s ++ lparen :: st) = (out ++ s, lparen :: st).
Proof.
  intros Hs. revert out. induction Hs as [|t s Ht _ IH]; intros out; cbn [app pop_to_paren].
  - unfold cstring_eqb at 1. rewrite bool_decide_eq_true_2 by done. by rewrite app_nil_r.
  - destruct (is_operator_not_paren t Ht) as [-> _]. rewrite IH. by rewrite <-app_assoc.
Qed.

Lemma pop_all_operators out s : Forall (fun t => is_operator t = true) s -> pop_all out s = Returns (out ++ s).
Proof.
  intros Hs. revert out. induction Hs as [|t s Ht _ IH]; intros out; cbn [pop_all]; [by rewrite app_nil_r|].
  destruct (is_operator_not_paren t Ht) as [-> _]. rewrite IH. by rewrite <-app_assoc.
Qed.

Lemma read_tokens_app y a b : read_tokens y (a ++ b) = (y ← read_tokens y a; read_tokens y b).
Proof.
  revert y. induction a as [|t a IH]; intros y; [done|]. cbn [app read_tokens].
  destruct (read_token y t); cbn [mbind outcome_bind]; [apply IH|done|done].
Qed.

(** What may be under an expression of that level: nothing, a parenthesis or
    an operator that binds less, and no function name. *)
Definition under (p : Z) (st : list cstring) : Prop :=
  match st with
  | t :: _ => is_function t = false /\ (6 <= p \/ (is_operator t = true -> _precedence t < p))
  | [] => True
  end.

Lemma under_weaken p q st : under p st -> p <= q -> under q st.
Proof. destruct st; [done|]. cbn. intros [H1 [H2|H2]] Hq; split; try done; [left; lia|]. right. intros Ho. apply H2 in Ho. lia. Qed.

Lemma read_operand y w : is_operand w = true ->
  read_token y w = Returns (Yard (postfix y ++ [w]) (stack y) (arity y) false).
Proof. intros H. destruct (is_operand_facts w H) as (H1 & H2 & H3 & H4 & H5). unfold read_token. by rewrite H1, H2, H3, H4, H5. Qed.

Lemma is_function_facts f : is_function f = true -> cstring_eqb f lparen = false.
Proof.
  intros H. pose proof (one_of_all (fun f => negb (cstring_eqb f lparen)) function_words f ltac:(vm_compute; reflexivity) H) as F.
  cbv beta in F. by apply negb_true_iff in F.
Qed.

Lemma read_unary out st ar w : is_unary w = true ->
  read_token (Yard out st ar true) w = Returns (Yard out (unary_operator w :: st) ar true).
Proof.
  intros H. unfold is_unary, one_of in H. apply existsb_exists in H as (x & Hx & He%bool_decide_eq_true). subst w.
  cbn [In] in Hx. by destruct Hx as [<-|[<-|[<-|[]]]].
Qed.

Lemma unary_operator_facts w : is_operator (unary_operator w) = true /\ _precedence (unary_operator w) = 6.
Proof. unfold unary_operator. by case_if. Qed.

Lemma read_rparen out s st ar u : Forall (fun t => is_operator t = true) s ->
  read_token (Yard out (s ++ lparen :: st) ar u) rparen
  = match st with
    | f :: st' =>
      if is_function f then
        match ar with a :: ar => Returns (Yard (out ++ s ++ [f; Dbl.dec a]) st' ar false) | [] => Diverges end
      else Returns (Yard (out ++ s) st ar false)
    | [] => Returns (Yard (out ++ s) st ar false)
    end.
Proof.
  intros Hs. unfold read_token. change (is_function rparen) with false. change (cstring_eqb rparen comma) with false.
  change (is_operator rparen) with false. change (cstring_eqb rparen lparen) with false.
  change (cstring_eqb rparen rparen) with true. cbv iota. cbn [postfix stack arity].
  rewrite pop_to_paren_all by done. destruct st as [|f st]; [done|]. case_if; [|done]. destruct ar; [done|].
  by rewrite <-app_assoc.
Qed.

Lemma read_comma out s st n ar u : Forall (fun t => is_operator t = true) s ->
  read_token (Yard out (s ++ lparen :: st) (n :: ar) u) comma = Returns (Yard (out ++ s) (lparen :: st) (n + 1 :: ar) false).
Proof.
  intros Hs. unfold read_token. change (is_function comma) with false. change (cstring_eqb comma comma) with true.
  cbv iota. cbn [postfix stack arity]. by rewrite pop_to_paren_all.
Qed.

(** The invariant of the algorithm: after an expression, its postfix form is
    the output that was added followed by the operators still on the stack. *)
Definition reads (e : expr) : Prop := forall out st ar u,
  wf e = true -> (starts_unary e = true -> u = true) -> under (level e) st ->
  exists o s, read_tokens (Yard out st ar u) (infix e) = Returns (Yard (out ++ o) (s ++ st) ar false)
    /\ o ++ s = rpn e
    /\ Forall (fun t => is_operator t = true /\ level e <= _precedence t) s.

Lemma only_operators p s : Forall (fun t => is_operator t = true /\ p <= _precedence t) s -> Forall (fun t => is_operator t = true) s.
Proof. intros H. eapply Forall_impl; [exact H|]. by intros t [? ?]. Qed.

(** The arguments after the first one, and the end of the call. *)
Lemma read_arguments f args : is_function f = true -> Forall reads args -> forallb wf args = true ->
  forallb (fun e => negb (starts_unary e)) args = true ->
  forall out s st n ar, Forall (fun t => is_operator t = true) s ->
  read_tokens (Yard out (s ++ lparen :: f :: st) (n :: ar) false) (concat (map (cons comma) (map infix args)) ++ [rparen])
  = Returns (Yard (out ++ s ++ concat (map rpn args) ++ [f; Dbl.dec (n + Z.of_nat (length args))]) st ar false).
Proof.
  intros Hf. induction args as [|e args IH]; intros Hr Hw Hu out s st n ar Hs; cbn [map concat forallb app length read_tokens] in *.
  { rewrite read_rparen, Hf by done. by rewrite Z.add_0_r. }
  zbool. apply Forall_cons in Hr as [He Hr]. rewrite read_comma by done. cbn [mbind outcome_bind].
  rewrite <-app_assoc, read_tokens_app.
  destruct (He (out ++ s) (lparen :: f :: st) (n + 1 :: ar) false) as (o & s' & E & Ho & Hs'); [done|congruence|by split; [|right]|].
  rewrite E. cbn [mbind outcome_bind]. rewrite IH by (done || by eapply only_operators).
  rewrite <-Ho, <-!app_assoc. do 7 f_equal. by rewrite Nat2Z.inj_succ, <-Z.add_assoc, Z.add_1_l.
Qed.

Lemma read_call f args : is_function f = true -> Forall reads args -> wf (Call f args) = true ->
  forall out st ar u, read_tokens (Yard out st ar u) (infix (Call f args)) = Returns (Yard (out ++ rpn (Call f args)) st ar false).
Proof.
  intros Hf Hr Hw out st ar u. cbn [wf infix rpn] in *. zbool. destruct args as [|e args]; [done|].
  cbn [map commas app read_tokens forallb] in *. zbool. apply Forall_cons in Hr as [He Hr].
  assert (Ef : read_token (Yard out st ar u) f = Returns (Yard out (f :: st) (1 :: ar) false)) by (unfold read_token; by rewrite Hf).
  rewrite Ef. cbn [mbind outcome_bind].
  change (read_token (Yard out (f :: st) (1 :: ar) false) lparen) with (Returns (Yard out (lparen :: f :: st) (1 :: ar) true)).
  cbn [mbind outcome_bind]. rewrite <-app_assoc, read_tokens_app.
  destruct (He out (lparen :: f :: st) (1 :: ar) true) as (o & s & E & Ho & Hs); [done|done|by split; [|right]|].
  rewrite E. cbn [mbind outcome_bind]. rewrite read_arguments by (done || by eapply only_operators).
  cbn [concat length]. rewrite <-Ho, <-!app_assoc. do 7 f_equal. by rewrite Nat2Z.inj_succ, Z.add_1_l.
Qed.

Lemma read_expr e : reads e.
Proof.
  induction e as [w|f args IH|uo e IH|e IH|op l r IHl IHr] using expr_nested_ind; intros out st ar u Hw Hun Hu.
  - exists [w], []. cbn [infix read_tokens]. rewrite read_operand by done. cbn. split; [done|]. split; [done|constructor].
  - exists (rpn (Call f args)), []. rewrite app_nil_r. split; [|by split].
    apply read_call; [|done|done]. cbn [wf] in Hw. by zbool.
  - cbn [wf infix rpn level starts_unary] in *. zbool. rewrite (Hun eq_refl). cbn [read_tokens]. rewrite read_unary by done.
    cbn [mbind outcome_bind]. destruct (unary_operator_facts uo) as [Ho6 Hp6].
    destruct (IH out (unary_operator uo :: st) ar true) as (o & s & E & Ho & Hs); [done|done| |].
    { destruct (is_operator_not_paren _ Ho6) as [_ ?]. split; [done|by left]. }
    exists o, (s ++ [unary_operator uo]). rewrite E. split; [by rewrite <-app_assoc|].
    split; [by rewrite app_assoc, Ho|]. apply Forall_app. split.
    + eapply Forall_impl; [exact Hs|]. cbn. intros t [? ?]. split; [done|lia].
    + constructor; [|constructor]. split; [done|]. by rewrite Hp6.
  - cbn [wf infix rpn level starts_unary] in *. destruct (IH out (lparen :: st) ar true) as (o & s & E & Ho & Hs); [done|done| |].
    { split; [done|]. right. done. }
    exists (o ++ s), []. rewrite app_nil_r. split; [|split; [done|constructor]].
    cbn [app read_tokens]. change (read_token (Yard out st ar u) lparen)
      with (Returns (Yard out (lparen :: st) ar true)). cbn [mbind outcome_bind].
    rewrite read_tokens_app, E. cbn [mbind outcome_bind read_tokens].
    rewrite read_rparen by (by eapply only_operators).
    rewrite <-app_assoc. destruct st as [|t st]; [done|]. destruct Hu as [-> _]. done.
  - cbn [wf infix rpn level starts_unary] in *. zbool. destruct (is_binary_facts op) as (F1 & F2 & F3 & F4); [done|].
    destruct (IHl out st ar u) as (o1 & s1 & E1 & Ho1 & Hs1); [done|done|by eapply under_weaken|].
    assert (Hop : pop_operators op (out ++ o1) (s1 ++ st) = ((out ++ o1) ++ s1, st)).
    { apply pop_operators_all.
      - eapply Forall_impl; [exact Hs1|]. cbn. intros t [? ?]. split; [done|lia].
      - destruct st as [|t st]; [done|]. destruct Hu as [_ [Hu|Hu]]; [lia|done]. }
    destruct (IHr (out ++ rpn l) (op :: st) ar true) as (o2 & s2 & E2 & Ho2 & Hs2); [done|done| |].
    { split; [done|]. right. intros _. lia. }
    exists (rpn l ++ o2), (s2 ++ [op]).
    rewrite read_tokens_app, E1. cbn [mbind outcome_bind app read_tokens].
    assert (Hrt : read_token (Yard (out ++ o1) (s1 ++ st) ar false) op
              = Returns (Yard (out ++ rpn l) (op :: st) ar true)).
    { unfold read_token. rewrite F1, F2, F3. cbn [can_be_unary andb postfix stack arity].
      by rewrite Hop, <-app_assoc, Ho1. }
    rewrite Hrt. cbn [mbind outcome_bind]. rewrite E2. split; [by rewrite <-!app_assoc|].
    split; [by rewrite <-Ho2, <-!app_assoc|]. apply Forall_app. split; [|repeat constructor; [done|lia]].
    eapply Forall_impl; [exact Hs2|]. cbn. intros t [? ?]. split; [done|lia].
Qed.

Lemma postfix_of_infix e : wf e = true -> postfix_of [] (infix e) = Returns (rpn e).
Proof.
  intros Hw. destruct (read_expr e [] [] [] true Hw (fun _ => eq_refl) I) as (o & s & E & Ho & Hs).
  unfold postfix_of. rewrite E. cbn [mbind outcome_bind postfix stack app]. rewrite app_nil_r.
  rewrite pop_all_operators by (eapply Forall_impl; [exact Hs|]; by intros t [? ?]). by rewrite Ho.
Qed.

(** C40. An expression in infix notation - words, calls of functions with one
    argument or more, the unary operators -, NOT and !, binary operators, and
    parentheses where priorities and left associativity require them - is parsed to
    its postfix form, unary minus being written -u and a function being followed by
    the number of its arguments. Only the first argument of a call may start with a
    unary operator. *)
Theorem parse_infix e : wf e = true -> postfix_of [] (infix e) = Returns (rpn e).
Proof. apply postfix_of_infix. Qed.

(** ** Parentheses *)

Definition parens (l : list cstring) : Z := Z.of_nat (length (filter (fun t => cstring_eqb t lparen) l)).
Definition closings (l : list cstring) : Z := Z.of_nat (length (filter (fun t => cstring_eqb t rparen) l)).

Lemma parens_cons t l : parens (t :: l) = (if cstring_eqb t lparen then 1 else 0) + parens l.
Proof.
  unfold parens. rewrite filter_cons. destruct (decide _) as [H|H]; destruct (cstring_eqb t lparen); cbn in *; try done; try lia.
Qed.

Lemma closings_cons t l : closings (t :: l) = (if cstring_eqb t rparen then 1 else 0) + closings l.
Proof.
  unfold closings. rewrite filter_cons. destruct (decide _) as [H|H]; destruct (cstring_eqb t rparen); cbn in *; try done; try lia.
Qed.

Lemma pop_to_paren_parens out st o s : pop_to_paren out st = (o, s) ->
  parens s = parens st /\ match s with t :: _ => cstring_eqb t lparen = true | [] => True end.
Proof.
  revert out. induction st as [|t st IH]; intros out; cbn [pop_to_paren]; [by intros [= <- <-]|].
  destruct (cstring_eqb t lparen) eqn:E; [by intros [= <- <-]|]. intros H.
  destruct (IH _ H) as [H1 H2]. split; [|done]. rewrite H1, parens_cons, E. lia.
Qed.

Lemma pop_operators_parens op out st o s : pop_operators op out st = (o, s) -> parens s = parens st.
Proof.
  revert out. induction st as [|t st IH]; intros out; cbn [pop_operators]; [by intros [= <- <-]|].
  destruct (is_operator t) eqn:E; cbn [andb]; [|by intros [= <- <-]].
  case_if; [|by intros [= <- <-]]. intros H. rewrite (IH _ H), parens_cons.
  destruct (is_operator_not_paren t E) as [-> _]. lia.
Qed.

Lemma not_paren_words w : is_function w = true \/ is_operator w = true \/ cstring_eqb w comma = true ->
  cstring_eqb w lparen = false /\ cstring_eqb w rparen = false.
Proof.
  intros [H|[H|H]].
  - pose proof (one_of_all (fun t => negb (cstring_eqb t lparen) && negb (cstring_eqb t rparen)) function_words w
      ltac:(vm_compute; reflexivity) H) as F. cbv beta in F. zbool. done.
  - pose proof (one_of_all (fun t => negb (cstring_eqb t lparen) && negb (cstring_eqb t rparen)) operator_words w
      ltac:(vm_compute; reflexivity) H) as F. cbv beta in F. zbool. done.
  - apply bool_decide_eq_true in H. by subst w.
Qed.

Lemma read_token_parens y t y' : read_token y t = Returns y' ->
  parens (stack y') = parens (stack y) + (if cstring_eqb t lparen then 1 else 0)
                      - (if cstring_eqb t rparen then 1 else 0).
Proof.
  unfold read_token.
  destruct (is_function t) eqn:E1.
  { intros [= <-]. cbn [stack]. rewrite parens_cons. destruct (not_paren_words t) as [-> ->]; [by left|]. lia. }
  destruct (cstring_eqb t comma) eqn:E2.
  { destruct (not_paren_words t) as [-> ->]; [by right; right|].
    destruct (pop_to_paren _ _) as [o s] eqn:E. apply pop_to_paren_parens in E as [E _].
    destruct s, (arity y); try done. intros [= <-]. cbn [stack]. lia. }
  destruct (is_operator t) eqn:E3.
  { destruct (not_paren_words t) as [H1 H2]; [by right; left|]. rewrite H1, H2.
    case_if; [intros [= <-]; cbn [stack]; rewrite parens_cons; change (cstring_eqb (str "-u") lparen) with false; lia|].
    case_if; [intros [= <-]; cbn [stack]; rewrite parens_cons; change (cstring_eqb (str "!") lparen) with false; lia|].
    destruct (pop_operators _ _ _) as [o s] eqn:E. apply pop_operators_parens in E.
    intros [= <-]. cbn [stack]. rewrite parens_cons, H1. lia. }
  destruct (cstring_eqb t lparen) eqn:E4.
  { apply bool_decide_eq_true in E4. subst t. intros [= <-]. cbn [stack]. rewrite parens_cons.
    change (cstring_eqb lparen lparen) with true. change (cstring_eqb lparen rparen) with false. lia. }
  destruct (cstring_eqb t rparen) eqn:E5; [|intros [= <-]; cbn [stack]; lia].
  destruct (pop_to_paren _ _) as [o s] eqn:E. apply pop_to_paren_parens in E as [E Ht].
  destruct s as [|p s]; [done|]. rewrite parens_cons, Ht in E.
  destruct s as [|f s]; [intros [= <-]; cbn [stack]; lia|].
  destruct (is_function f) eqn:Ef; [|intros [= <-]; cbn [stack]; lia].
  destruct (arity y); [done|]. intros [= <-]. cbn [stack]. rewrite parens_cons in E.
  destruct (not_paren_words f) as [H1 _]; [by left|]. rewrite H1 in E. lia.
Qed.

Lemma read_tokens_parens ts : forall y y', read_tokens y ts = Returns y' ->
  parens (stack y') = parens (stack y) + parens ts - closings ts.
Proof.
  induction ts as [|t ts IH]; intros y y'; cbn [read_tokens].
  { intros [= <-]. unfold parens at 3, closings. cbn. lia. }
  intros H. apply bind_Returns in H as (y1 & H1 & H). apply IH in H. apply read_token_parens in H1.
  rewrite parens_cons, closings_cons. lia.
Qed.

(** ** Every text is parsed to its end *)

(** The functions of a stack. *)
Definition functions (l : list cstring) : nat := length (filter (fun t => is_function t = true) l).

Lemma functions_cons t l : functions (t :: l) = ((if is_function t then 1 else 0) + functions l)%nat.
Proof. unfold functions. rewrite filter_cons. by destruct (is_function t). Qed.

Lemma pop_to_paren_functions out st o s : pop_to_paren out st = (o, s) -> (functions s <= functions st)%nat.
Proof.
  revert out. induction st as [|t st IH]; intros out; cbn [pop_to_paren]; [by intros [= <- <-]|].
  destruct (cstring_eqb t lparen); [by intros [= <- <-]|]. intros H%IH. rewrite functions_cons. lia.
Qed.

Lemma pop_operators_functions op out st o s : pop_operators op out st = (o, s) -> (functions s <= functions st)%nat.
Proof.
  revert out. induction st as [|t st IH]; intros out; cbn [pop_operators]; [by intros [= <- <-]|].
  case_if; [|by intros [= <- <-]]. intros H%IH. rewrite functions_cons. lia.
Qed.

(** There is an arity for each function that waits. *)
Definition arities_ok (y : yard) : Prop := (functions (stack y) <= length (arity y))%nat.

Lemma not_functions : is_function (str "-u") = false /\ is_function (str "!") = false.
Proof. done. Qed.

Lemma read_token_ends y t : arities_ok y -> ExpTokenizer.never_diverges arities_ok (read_token y t).
Proof.
  unfold arities_ok, read_token. intros Hy. destruct not_functions as [F1 F2]. destruct (is_function t) eqn:E1.
  { cbn [ExpTokenizer.never_diverges stack arity length]. rewrite functions_cons, E1. lia. }
  destruct (cstring_eqb t comma).
  { destruct (pop_to_paren _ _) as [o s] eqn:E. apply pop_to_paren_functions in E.
    destruct s, (arity y); cbn [ExpTokenizer.never_diverges stack arity length] in *; try done. lia. }
  destruct (is_operator t) eqn:E3.
  { case_if; [cbn [ExpTokenizer.never_diverges stack arity]; by rewrite functions_cons, F1|].
    case_if; [cbn [ExpTokenizer.never_diverges stack arity]; by rewrite functions_cons, F2|].
    destruct (pop_operators _ _ _) as [o s] eqn:E. apply pop_operators_functions in E.
    cbn [ExpTokenizer.never_diverges stack arity]. rewrite functions_cons, E1. lia. }
  destruct (cstring_eqb t lparen).
  { cbn [ExpTokenizer.never_diverges stack arity]. rewrite functions_cons, E1. lia. }
  destruct (cstring_eqb t rparen); [|done].
  destruct (pop_to_paren _ _) as [o s] eqn:E. apply pop_to_paren_functions in E.
  destruct s as [|p s]; [done|]. rewrite functions_cons in E.
  destruct s as [|f s]; [cbn [ExpTokenizer.never_diverges stack arity]; lia|].
  rewrite functions_cons in E. destruct (is_function f) eqn:Ef.
  - destruct (arity y); cbn [ExpTokenizer.never_diverges stack arity length] in *; lia.
  - cbn [ExpTokenizer.never_diverges stack arity]. rewrite functions_cons, Ef. lia.
Qed.

Lemma read_tokens_end ts : forall y, arities_ok y -> ExpTokenizer.never_diverges arities_ok (read_tokens y ts).
Proof.
  induction ts as [|t ts IH]; intros y Hy; cbn [read_tokens]; [done|].
  eapply ExpTokenizer.never_diverges_bind; [by apply read_token_ends|done].
Qed.

Lemma pop_all_ends st : forall out, pop_all out st <> Diverges.
Proof. induction st as [|t st IH]; intros out; cbn [pop_all]; [done|]. by case_if. Qed.

Lemma get_postfix_ends fuel p : (ExpTokenizer.text_fuel (_exp p) <= fuel)%nat -> get_postfix fuel p <> Diverges.
Proof.
  intros Hf. unfold get_postfix. pose proof (ExpTokenizer.text_tokens_end fuel (_exp p) Hf) as Ht.
  destruct (ExpTokenizer.tokens _ _) as [ts|e|]; cbn [mbind outcome_bind]; [|done..]. unfold postfix_of.
  pose proof (read_tokens_end ts (Yard (_postfix p) [] [] true) ltac:(by unfold arities_ok)) as H.
  destruct (read_tokens _ ts) as [y|e|]; cbn [mbind outcome_bind]; [|done..].
  pose proof (pop_all_ends (stack y) (postfix y)) as Hp. by destruct (pop_all _ _).
Qed.

(** An expression whose parentheses do not balance is never accepted. *)
Theorem unbalanced_rejected ts p : postfix_of [] ts = Returns p -> parens ts = closings ts.
Proof.
  unfold postfix_of. intros H. apply bind_Returns in H as (y & Hy & H).
  apply read_tokens_parens in Hy. cbn [stack] in Hy. unfold parens at 2 in Hy. cbn in Hy.
  enough (parens (stack y) = 0) by lia. clear Hy. revert H. generalize (postfix y). intros out.
  revert out. induction (stack y) as [|t st IH]; intros out; cbn [pop_all]; [done|].
  destruct (cstring_eqb t lparen) eqn:E; [done|]. intros H. rewrite parens_cons, E, (IH _ H). done.
Qed.

Definition demo : expr :=
  Bin (str "OR") (Bin (str "AND") (Unary (str "NOT") (Paren (Bin (str "IS") (Call (str "SERVICESTATUS") [Atom (str "h"); Atom (str "s")]) (Atom (str "OK")))))
                    (Bin (str ">") (Call (str "MAX") [Unary (str "-") (Atom (str "1")); Atom (str "4")])
                      (Bin (str "+") (Atom (str "2")) (Unary (str "-") (Atom (str "3"))))))
    (Atom (str "0")).

Lemma parse_infix_witness : wf demo = true /\ postfix_of [] (infix demo) = Returns (rpn demo).
Proof. split; [reflexivity|]. apply (parse_infix demo). reflexivity. Defined.

(** After a comma a minus is never unary: MAX(1,-2) is read as MAX of the
    difference of what precedes. *)
Lemma minus_after_comma :
  postfix_of [] (str <$> ["MAX"; "("; "1"; ","; "-"; "2"; ")"]%string) = Returns (str <$> ["1"; "2"; "-"; "MAX"; "2"]%string).
Proof. vm_compute. reflexivity. Qed.

Lemma unbalanced_rejected_witness : parens (infix demo) = closings (infix demo).
Proof. apply (unbalanced_rejected (infix demo) (rpn demo)). vm_compute. reflexivity. Defined.

(** get_postfix adds to what it returned before: asked twice, it gives the
    expression twice. *)
Lemma get_postfix_twice :
  exists p out p' out', get_postfix 9 (new_parser (str "A && B")) = Returns (p, out)
    /\ get_postfix 9 p = Returns (p', out') /\ out = [str "A"; str "B"; str "&&"] /\ out' = out ++ out.
Proof. eexists _, _, _, _. repeat split; reflexivity. Qed.

End ExpParser.
