(* ===== verification/BoolValue.v ===== *)
(** * Boolean expressions at run time (bam/src/bool_*.cc)

    The tree of values built for an expression. Binary operators keep the
    values of their operands in a cache that an update of a service refreshes
    on its way to the root. The theorems compare the cached values with the
    values the tree denotes. Doubles are compared up to the sign of zero, which
    no operation of the tree can tell apart. *)

From Stdlib Require Import ZArith Lia ZifyNat ZifyBool Strings.Byte Floats.SpecFloat.
From stdpp Require Import base option list numbers strings.
From S2P Require Import Prelude Double.

Module BoolValue.

Definition COMPARE_EPSILON : double := Dbl.of_ratio false 1 10000.

Definition zero : double := Dbl.of_Z 0.
Definition of_bool (b : bool) : double := Dbl.of_Z (if b then 1 else 0).
(** A double as a condition: everything but zero is true, NaN too. *)
Definition truth (d : double) : bool := negb (Dbl.eqb d zero).

Inductive operation_type : Type := addition | substraction | multiplication | division | modulo.

#[global] Instance operation_type_eq_dec : EqDecision operation_type.
Proof. solve_decision. Defined.

Inductive operator : Type :=
  | bool_and | bool_or | bool_xor | bool_equal | bool_not_equal
  | bool_more_than (strict : bool)
  | bool_less_than (strict : bool)
  | bool_operation (type : operation_type).

(** static_cast<long long>: no value is defined out of its range. *)
Definition long_long (d : double) : option Z :=
  match d with
  | S754_zero _ => Some 0
  | S754_finite s m e =>
    let a := if 0 <=? e then Z.pos m * 2 ^ e else Z.pos m / 2 ^ (- e) in
    let z := if s then - a else a in
    if (- 2 ^ 63 <=? z) && (z <? 2 ^ 63) then Some z else None
  | _ => None
  end.

Definition operate (type : operation_type) (l r : double) : double :=
  match type with
  | addition => Dbl.add l r
  | substraction => Dbl.sub l r
  | multiplication => Dbl.mul l r
  | division => if Dbl.ltb (SFabs r) COMPARE_EPSILON then S754_nan else Dbl.div l r
  | modulo =>
    match long_long l, long_long r with
    | Some left_val, Some right_val =>
      if right_val =? 0 then S754_nan else Dbl.of_Z (Z.rem left_val right_val)
    | _, _ => S754_nan
    end
  end.

(** value_hard and value_soft of each operator, on the cached operands. *)
Definition and_value (l r : double) : double := of_bool (truth l && truth r).
Definition or_value (l r : double) : double := of_bool (truth l || truth r).
Definition xor_value (l r : double) : double :=
  of_bool ((negb (truth l) && truth r) || (truth l && negb (truth r))).
Definition equal_value (l r : double) : double := of_bool (Dbl.ltb (SFabs (Dbl.sub l r)) COMPARE_EPSILON).
Definition not_equal_value (l r : double) : double := of_bool (Dbl.leb COMPARE_EPSILON (SFabs (Dbl.sub l r))).
Definition more_than_value (strict : bool) (l r : double) : double :=
  of_bool (if strict then Dbl.ltb r l else Dbl.leb r l).
Definition less_than_value (strict : bool) (l r : double) : double :=
  of_bool (if strict then Dbl.ltb l r else Dbl.leb l r).

Definition apply (op : operator) (l r : double) : double :=
  match op with
  | bool_and => and_value l r
  | bool_or => or_value l r
  | bool_xor => xor_value l r
  | bool_equal => equal_value l r
  | bool_not_equal => not_equal_value l r
  | bool_more_than strict => more_than_value strict l r
  | bool_less_than strict => less_than_value strict l r
  | bool_operation type => operate type l r
  end.

Record bool_service : Type := Bool_service {
  _host_id : Z;
  _service_id : Z;
  _state_hard : Z;
  _state_soft : Z;
  _state_known_s : bool;
  _in_downtime_s : bool
}.

Definition new_service (host_id service_id : Z) : bool_service :=
  Bool_service host_id service_id 0 0 false false.

Record operands : Type := Operands {
  _left_hard : double;
  _left_soft : double;
  _right_hard : double;
  _right_soft : double;
  _state_known : bool;
  _in_downtime : bool
}.

Inductive bool_value : Type :=
  | bool_constant (value : double)
  | service (s : bool_service)
  | bool_not (value : bool_value)
  | binary (op : operator) (left right : bool_value) (c : operands).

Fixpoint value_hard (t : bool_value) : double :=
  match t with
  | bool_constant v => v
  | service s => Dbl.of_Z (_state_hard s)
  | bool_not v => of_bool (negb (truth (value_hard v)))
  | binary op _ _ c => apply op (_left_hard c) (_right_hard c)
  end.

Fixpoint value_soft (t : bool_value) : double :=
  match t with
  | bool_constant v => v
  | service s => Dbl.of_Z (_state_soft s)
  | bool_not v => of_bool (negb (truth (value_soft v)))
  | binary op _ _ c => apply op (_left_soft c) (_right_soft c)
  end.

(** bool_operation refuses a division by (almost) zero. *)
Definition divides (op : operator) : bool :=
  match op with bool_operation (division | modulo) => true | _ => false end.

Fixpoint state_known (t : bool_value) : bool :=
  match t with
  | bool_constant _ => true
  | service s => _state_known_s s
  | bool_not v => state_known v
  | binary op l r c =>
    let known := state_known l && state_known r in
    if known && divides op
       && (Dbl.ltb (SFabs (_right_hard c)) COMPARE_EPSILON || Dbl.ltb (SFabs (_right_soft c)) COMPARE_EPSILON)
    then false else known
  end.

Fixpoint in_downtime (t : bool_value) : bool :=
  match t with
  | bool_constant _ => false
  | service s => _in_downtime_s s
  | bool_not v => in_downtime v
  | binary _ l r _ => in_downtime l || in_downtime r
  end.

(** set_left then set_right on a new operator. *)
Definition set_operands (op : operator) (left right : bool_value) : bool_value :=
  let c := Operands (value_hard left) (value_soft left) (value_hard right) (value_soft right) false false in
  let t := binary op left right c in
  binary op left right
    (Operands (_left_hard c) (_left_soft c) (_right_hard c) (_right_soft c) (state_known t) (in_downtime t)).

(** ** Updates *)

Definition neq (a b : double) : bool := negb (Dbl.eqb a b).

Inductive side : Type := Left | Right.

(** bool_binary_operator::child_has_update for the child on one side. The
    returned boolean is always true: the parents are always told. *)
Definition child_has_update (op : operator) (child : side) (left right : bool_value) (c : operands) : bool_value :=
  let c :=
    match child with
    | Left =>
      let vh := value_hard left in
      let vs := value_soft left in
      if neq (_left_hard c) vh || neq (_left_soft c) vs then
        Operands vh vs (_right_hard c) (_right_soft c) (_state_known c) (_in_downtime c)
      else c
    | Right =>
      let vh := value_hard right in
      let vs := value_soft right in
      if neq (_right_hard c) vh || Dbl.eqb (_right_soft c) vs then
        Operands (_left_hard c) (_left_soft c) vh vs (_state_known c) (_in_downtime c)
      else c
    end in
  let t := binary op left right c in
  binary op left right
    (Operands (_left_hard c) (_left_soft c) (_right_hard c) (_right_soft c) (state_known t) (in_downtime t)).

(** neb::service_status. *)
Record service_status : Type := Service_status {
  host_id : Z;
  service_id : Z;
  last_hard_state : Z;
  current_state : Z;
  downtime_depth : Z
}.

(** bool_service::service_update: None when the status is for another service. *)
Definition service_update (s : bool_service) (status : service_status) : option bool_service :=
  if (host_id status =? _host_id s) && (service_id status =? _service_id s) then
    Some (Bool_service (_host_id s) (_service_id s) (last_hard_state status) (current_state status)
            true (0 <? downtime_depth status))
  else None.

(** The update of one service of the tree, found at the end of a path, and its
    propagation to the parents; None when nothing is propagated. *)
Fixpoint update_at (path : list side) (status : service_status) (t : bool_value) : option bool_value :=
  match t with
  | bool_constant _ => None
  | service s => service <$> service_update s status
  | bool_not v => bool_not <$> update_at path status v
  | binary op l r c =>
    match path with
    | Left :: path' => (fun l' => child_has_update op Left l' r c) <$> update_at path' status l
    | Right :: path' => (fun r' => child_has_update op Right l r' c) <$> update_at path' status r
    | [] => None
    end
  end.

Definition update (path : list side) (status : service_status) (t : bool_value) : bool_value :=
  default t (update_at path status t).

(** The services of an expression, in the order exp_builder registers them. *)
Fixpoint paths (t : bool_value) : list (list side) :=
  match t with
  | bool_constant _ => []
  | service _ => [[]]
  | bool_not v => paths v
  | binary _ l r _ => (cons Left <$> paths l) ++ (cons Right <$> paths r)
  end.

(** service_book::update, as far as one expression goes: each of its services
    is given the status, and answers when the status is its own. *)
Definition book_update (t : bool_value) (status : service_status) : bool_value :=
  fold_left (fun t path => update path status t) (paths t) t.

(** ** bool_expression *)

Record bool_expression : Type := Bool_expression {
  _id : Z;
  _impact_if : bool;
  _expression : bool_value
}.

(** impact_values::state. *)
Inductive state : Type := state_ok | state_warning | state_critical | state_unknown.

Definition get_state (e : bool_expression) : state :=
  if Dbl.eqb (value_hard (_expression e)) (of_bool (_impact_if e)) then state_critical else state_ok.

(** ** What a tree denotes *)

Fixpoint denote (leaf : bool_service -> Z) (t : bool_value) : double :=
  match t with
  | bool_constant v => v
  | service s => Dbl.of_Z (leaf s)
  | bool_not v => of_bool (negb (truth (denote leaf v)))
  | binary op l r _ => apply op (denote leaf l) (denote leaf r)
  end.

(** Equality of doubles up to the sign of zero. *)
Definition is_zero (d : double) : bool := match d with S754_zero _ => true | _ => false end.
Definition deq (a b : double) : Prop := a = b \/ (is_zero a = true /\ is_zero b = true).

#[global] Instance deq_equiv : Equivalence deq.
Proof.
  split.
  - by left.
  - intros a b [->|[]]; [by left|by right].
  - intros a b c [->|[H1 H2]] [->|[H3 H4]]; [by left|by right|by right|by right].
Qed.

Lemma deq_cases a b : deq a b -> a = b \/ exists s t, a = S754_zero s /\ b = S754_zero t.
Proof. intros [->|[Ha Hb]]; [by left|right]. destruct a, b; try done. eauto. Qed.

Lemma deq_zero s t : deq (S754_zero s) (S754_zero t).
Proof. by right. Qed.

Lemma eqb_deq a b : Dbl.eqb a b = true -> deq a b.
Proof.
  unfold Dbl.eqb, SFeqb, SFcompare. intros H.
  destruct a as [s|s| |s m e], b as [t|t| |t n f]; try done;
    repeat match goal with b : bool |- _ => destruct b end; try done; try (by left); try (by right);
    destruct (Z.compare_spec e f) as [->|?|?]; try done;
    destruct (Pos.compare_cont Eq m n) eqn:E; try done;
    apply Pos.compare_eq in E as ->; by left.
Qed.

Ltac deq_solve :=
  repeat match goal with
  | H : deq ?a ?b |- _ => apply deq_cases in H as [->|(? & ? & -> & ->)]
  end.

Ltac deq_zeros :=
  try (by left);
  repeat match goal with s : bool |- _ => destruct s end;
  try (by left); try (by right);
  repeat match goal with d : spec_float |- _ => destruct d | d : double |- _ => destruct d end;
  repeat match goal with s : bool |- _ => destruct s end;
  cbn; try (by left); try (by right).

#[global] Instance eqb_proper : Proper (deq ==> deq ==> eq) Dbl.eqb.
Proof. intros a b H c d H'. by deq_solve. Qed.
#[global] Instance ltb_proper : Proper (deq ==> deq ==> eq) Dbl.ltb.
Proof. intros a b H c d H'. by deq_solve. Qed.
#[global] Instance leb_proper : Proper (deq ==> deq ==> eq) Dbl.leb.
Proof. intros a b H c d H'. by deq_solve. Qed.
#[global] Instance truth_proper : Proper (deq ==> eq) truth.
Proof. intros a b H. unfold truth. by rewrite H. Qed.
#[global] Instance abs_proper : Proper (deq ==> deq) SFabs.
Proof. intros a b H. deq_solve; [done|by right]. Qed.
#[global] Instance add_proper : Proper (deq ==> deq ==> deq) Dbl.add.
Proof. intros a b H c d H'. unfold Dbl.add. deq_solve; deq_zeros. Qed.
#[global] Instance sub_proper : Proper (deq ==> deq ==> deq) Dbl.sub.
Proof. intros a b H c d H'. unfold Dbl.sub. deq_solve; deq_zeros. Qed.
#[global] Instance mul_proper : Proper (deq ==> deq ==> deq) Dbl.mul.
Proof. intros a b H c d H'. unfold Dbl.mul. deq_solve; deq_zeros. Qed.

Lemma operate_proper type a b c d : deq a b -> deq c d -> deq (operate type a c) (operate type b d).
Proof.
  intros H H'. destruct type; cbn [operate]; [by rewrite H, H'..| |].
  - rewrite (abs_proper _ _ H'). destruct (Dbl.ltb (SFabs d) COMPARE_EPSILON) eqn:E; [done|].
    apply deq_cases in H' as [->|(s & t & -> & ->)]; [|by vm_compute in E].
    apply deq_cases in H as [->|(s & t & -> & ->)]; [done|].
    unfold Dbl.div. destruct d; cbn; try done; by right.
  - assert (L : forall x y, deq x y -> long_long x = long_long y).
    { intros x y Hxy. by apply deq_cases in Hxy as [->|(s & t & -> & ->)]. }
    by rewrite (L _ _ H), (L _ _ H').
Qed.

#[global] Instance apply_proper op : Proper (deq ==> deq ==> deq) (apply op).
Proof.
  intros a b H c d H'. destruct op; cbn [apply];
    unfold and_value, or_value, xor_value, equal_value, not_equal_value, more_than_value, less_than_value;
    try (rewrite H, H'; done).
  - destruct strict; by rewrite H, H'.
  - destruct strict; by rewrite H, H'.
  - by apply operate_proper.
Qed.

(** ** Coherence of the caches *)

(** The cached hard values are those of the operands, all the way down. *)
Fixpoint hard_ok (t : bool_value) : Prop :=
  match t with
  | bool_constant _ | service _ => True
  | bool_not v => hard_ok v
  | binary _ l r c =>
    hard_ok l /\ hard_ok r /\ deq (_left_hard c) (value_hard l) /\ deq (_right_hard c) (value_hard r)
  end.

Lemma value_hard_denotes t : hard_ok t -> deq (value_hard t) (denote _state_hard t).
Proof.
  induction t as [v|s|v IH|op l IHl r IHr c]; cbn [hard_ok value_hard denote]; intros H; try done.
  - by rewrite (IH H).
  - destruct H as (Hl & Hr & El & Er). by rewrite El, Er, (IHl Hl), (IHr Hr).
Qed.

Lemma neq_false a b : neq a b = false -> deq a b.
Proof. unfold neq. intros H. apply negb_false_iff in H. by apply eqb_deq. Qed.

Lemma child_has_update_hard op child l r c :
  hard_ok l -> hard_ok r ->
  match child with
  | Left => deq (_right_hard c) (value_hard r)
  | Right => deq (_left_hard c) (value_hard l)
  end ->
  hard_ok (child_has_update op child l r c).
Proof.
  intros Hl Hr Hc. unfold child_has_update. destruct child; cbn [hard_ok _left_hard _right_hard].
  - destruct (neq (_left_hard c) (value_hard l)) eqn:E1; cbn [orb].
    + repeat split; done.
    + apply neq_false in E1. case_if; repeat split; done.
  - destruct (neq (_right_hard c) (value_hard r)) eqn:E1; cbn [orb].
    + repeat split; done.
    + apply neq_false in E1. case_if; repeat split; done.
Qed.

Lemma update_at_hard t : forall path status t', hard_ok t -> update_at path status t = Some t' -> hard_ok t'.
Proof.
  induction t as [v|s|v IH|op l IHl r IHr c]; intros path status t' H Hu; cbn [update_at] in Hu.
  - done.
  - by apply fmap_Some in Hu as (? & _ & ->).
  - apply fmap_Some in Hu as (v' & Hv & ->). exact (IH _ _ _ H Hv).
  - destruct H as (Hl & Hr & El & Er).
    destruct path as [|[] path]; [done|apply fmap_Some in Hu as (x & Hx & ->)..].
    + apply child_has_update_hard; [by eapply IHl|done|done].
    + apply child_has_update_hard; [done|by eapply IHr|done].
Qed.

Lemma set_operands_hard op l r : hard_ok l -> hard_ok r -> hard_ok (set_operands op l r).
Proof. intros. repeat split; done. Qed.

Lemma updates_hard us : forall t, hard_ok t -> hard_ok (fold_left (fun t '(path, status) => update path status t) us t).
Proof.
  induction us as [|[path status] us IH]; intros t H; [done|]. cbn [fold_left]. apply IH.
  unfold update. destruct (update_at path status t) eqn:E; [|done]. by eapply update_at_hard.
Qed.

Lemma book_update_hard ss : forall t, hard_ok t -> hard_ok (fold_left book_update ss t).
Proof.
  intros t H. apply (fold_left_inv hard_ok); [|done]. intros t' status H'. unfold book_update.
  apply (fold_left_inv hard_ok); [|done]. intros t1 path H1. unfold update.
  destruct (update_at path status t1) eqn:E; [|done]. by eapply update_at_hard.
Qed.

(** The tree without its caches, and the tree with other services. *)
Definition no_cache : operands := Operands zero zero zero zero false false.

Fixpoint map_services (f : bool_service -> bool_service) (t : bool_value) : bool_value :=
  match t with
  | bool_constant v => bool_constant v
  | service s => service (f s)
  | bool_not v => bool_not (map_services f v)
  | binary op l r _ => binary op (map_services f l) (map_services f r) no_cache
  end.

Lemma denote_map_services leaf f t : denote leaf (map_services f t) = denote (fun s => leaf (f s)) t.
Proof. induction t as [v|s|v IH|op l IHl r IHr c]; cbn; congruence. Qed.

Lemma denote_same_services leaf t t' : map_services id t = map_services id t' -> denote leaf t = denote leaf t'.
Proof.
  assert (E : forall u, denote leaf u = denote leaf (map_services id u))
    by (intros u; symmetry; apply (denote_map_services leaf id u)).
  intros H. by rewrite E, H, <-E.
Qed.

Lemma map_services_compose f g t : map_services f (map_services g t) = map_services (fun s => f (g s)) t.
Proof. induction t as [v|s|v IH|op l IHl r IHr c]; cbn; congruence. Qed.

Lemma map_services_ext f g t : (forall s, f s = g s) -> map_services f t = map_services g t.
Proof. intros H. induction t as [v|s|v IH|op l IHl r IHr c]; cbn; congruence. Qed.

Definition receive (status : service_status) (s : bool_service) : bool_service := default s (service_update s status).

Lemma updates_not ps status v :
  map_services id (fold_left (fun t path => update path status t) ps (bool_not v))
  = map_services id (bool_not (fold_left (fun t path => update path status t) ps v)).
Proof.
  revert v. induction ps as [|p ps IH]; intros v; [done|]. cbn [fold_left]. rewrite <-IH. f_equal.
  unfold update. cbn [update_at]. by destruct (update_at p status v).
Qed.

Lemma updates_left ps status op l r : forall c, exists c',
  fold_left (fun t path => update path status t) (cons Left <$> ps) (binary op l r c)
  = binary op (fold_left (fun t path => update path status t) ps l) r c'.
Proof.
  revert l. induction ps as [|p ps IH]; intros l c; [by exists c|]. rewrite fmap_cons. cbn [fold_left].
  unfold update at 2 4. cbn [update_at]. destruct (update_at p status l); apply IH.
Qed.

Lemma updates_right ps status op l r : forall c, exists c',
  fold_left (fun t path => update path status t) (cons Right <$> ps) (binary op l r c)
  = binary op l (fold_left (fun t path => update path status t) ps r) c'.
Proof.
  revert r. induction ps as [|p ps IH]; intros r c; [by exists c|]. rewrite fmap_cons. cbn [fold_left].
  unfold update at 2 4. cbn [update_at]. destruct (update_at p status r); apply IH.
Qed.

Lemma book_update_services status t :
  map_services id (book_update t status) = map_services (receive status) t.
Proof.
  unfold book_update. induction t as [v|s|v IH|op l IHl r IHr c]; cbn [paths].
  - done.
  - cbn [fold_left map_services]. unfold update, receive. cbn [update_at]. destruct (service_update s status); reflexivity.
  - rewrite updates_not. cbn [map_services]. by rewrite IH.
  - rewrite fold_left_app. destruct (updates_left (paths l) status op l r c) as [c' ->].
    destruct (updates_right (paths r) status op (fold_left (fun t path => update path status t) (paths l) l) r c')
      as [c'' ->]. cbn [map_services]. rewrite IHl, IHr. done.
Qed.

Definition received (ss : list service_status) (s : bool_service) : bool_service :=
  fold_left (fun s status => receive status s) ss s.

Lemma book_updates_services ss : forall t,
  map_services id (fold_left book_update ss t) = map_services (received ss) t.
Proof.
  induction ss as [|status ss IH] using rev_ind; intros t; [done|].
  rewrite !fold_left_app. cbn [fold_left]. rewrite book_update_services.
  transitivity (map_services (receive status) (map_services id (fold_left book_update ss t))).
  { rewrite map_services_compose. by apply map_services_ext. }
  rewrite IH, map_services_compose. apply map_services_ext. intros s. unfold received. by rewrite fold_left_app.
Qed.

(** However the services of an expression are updated, the hard value of the
    expression stays the value its operators give on the hard states of the
    services at that time, and the state of the expression follows. *)
Theorem updates_keep_hard_value us t :
  hard_ok t ->
  let t' := fold_left (fun t '(path, status) => update path status t) us t in
  deq (value_hard t') (denote _state_hard t')
  /\ forall id impact_if, get_state (Bool_expression id impact_if t')
       = if Dbl.eqb (denote _state_hard t') (of_bool impact_if) then state_critical else state_ok.
Proof.
  intros H t'. pose proof (value_hard_denotes t' (updates_hard us t H)) as Hd. split; [done|].
  intros id b. unfold get_state. cbn [_expression _impact_if]. by rewrite Hd.
Qed.

(** The soft value of the right operand is refreshed when it did NOT change:
    a soft state that changes alone is not seen. *)
Definition demo : bool_value :=
  set_operands bool_or (service (new_service 1 2)) (service (new_service 1 3)).

Lemma right_soft_value_is_stale :
  let t := update [Right] (Service_status 1 3 0 2 0) demo in
  value_soft t = of_bool false /\ denote _state_soft t = of_bool true
  /\ value_soft (update [Left] (Service_status 1 2 0 2 0) demo) = of_bool true.
Proof. vm_compute. repeat split. Qed.

Lemma updates_keep_hard_value_witness :
  let t' := fold_left (fun t '(path, status) => update path status t)
              [([Right], Service_status 1 3 2 2 0); ([Left], Service_status 1 2 0 1 1)] demo in
  deq (value_hard t') (denote _state_hard t')
  /\ forall id impact_if, get_state (Bool_expression id impact_if t')
       = if Dbl.eqb (denote _state_hard t') (of_bool impact_if) then state_critical else state_ok.
Proof. apply (updates_keep_hard_value _ demo). apply set_operands_hard; exact I. Defined.

End BoolValue.
