(* ===== verification/HstSvcMapping.v ===== *)
(** * Names of hosts, services and metrics (bam/src/hst_svc_mapping.cc)

    The maps that give the identifiers of the names found in a boolean
    expression: std::map is gmap, std::multimap the list of its pairs. *)

From Stdlib Require Import ZArith Lia Strings.Byte.
From stdpp Require Import base option list numbers strings gmap sets.
From S2P Require Import Prelude.

Module HstSvcMapping.

Record hst_svc_mapping : Type := Hst_svc_mapping {
  _mapping : gmap (cstring * cstring) (Z * Z);
  _activated_mapping : gmap (Z * Z) bool;
  _metrics : gmap (Z * Z) (gmap cstring Z);
  _metric_by_name : list (cstring * Z)
}.

Definition new_mapping : hst_svc_mapping := Hst_svc_mapping ∅ ∅ ∅ [].

Definition set_service (m : hst_svc_mapping) (hst svc : cstring) (host_id service_id : Z) (activated : bool)
  : hst_svc_mapping :=
  Hst_svc_mapping (<[(hst, svc) := (host_id, service_id)]> (_mapping m))
    (<[(host_id, service_id) := activated]> (_activated_mapping m)) (_metrics m) (_metric_by_name m).

Definition set_host (m : hst_svc_mapping) (hst : cstring) (host_id : Z) : hst_svc_mapping :=
  set_service m hst [] host_id 0 true.

Definition get_service_id (m : hst_svc_mapping) (hst svc : cstring) : Z * Z :=
  default (0, 0) (_mapping m !! (hst, svc)).

Definition get_host_id (m : hst_svc_mapping) (hst : cstring) : Z := (get_service_id m hst []).1.

Definition get_activated (m : hst_svc_mapping) (hst_id service_id : Z) : bool :=
  default true (_activated_mapping m !! (hst_id, service_id)).

Definition register_metric (m : hst_svc_mapping) (metric_id : Z) (metric_name : cstring) (host_id service_id : Z)
  : hst_svc_mapping :=
  Hst_svc_mapping (_mapping m) (_activated_mapping m)
    (<[(host_id, service_id) := <[metric_name := metric_id]> (default ∅ (_metrics m !! (host_id, service_id)))]>
       (_metrics m))
    (_metric_by_name m ++ [(metric_name, metric_id)]).

Definition get_metric_ids (m : hst_svc_mapping) (metric_name : cstring) (host_id service_id : Z) : gset Z :=
  if negb (host_id =? 0) || negb (service_id =? 0) then
    match _metrics m !! (host_id, service_id) with
    | None => ∅
    | Some metrics =>
      match metrics !! metric_name with
      | Some id => {[ id ]}
      | None => ∅
      end
    end
  else list_to_set (snd <$> filter (fun p => fst p = metric_name) (_metric_by_name m)).

(** ** What the calls made it hold *)

Inductive call : Type :=
  | Set_service (hst svc : cstring) (host_id service_id : Z) (activated : bool)
  | Register_metric (metric_id : Z) (metric_name : cstring) (host_id service_id : Z).

Definition do_call (m : hst_svc_mapping) (c : call) : hst_svc_mapping :=
  match c with
  | Set_service hst svc host_id service_id activated => set_service m hst svc host_id service_id activated
  | Register_metric id name host_id service_id => register_metric m id name host_id service_id
  end.

Definition after (calls : list call) : hst_svc_mapping := fold_left do_call calls new_mapping.

Lemma after_snoc cs c : after (cs ++ [c]) = do_call (after cs) c.
Proof. unfold after. by rewrite fold_left_app. Qed.

(** The last pair registered under a key. *)
Definition last_of {A B} (f : A -> option B) (l : list A) : option B := last (omap f l).

Lemma last_of_snoc {A B} (f : A -> option B) l x :
  last_of f (l ++ [x]) = match f x with Some b => Some b | None => last_of f l end.
Proof.
  unfold last_of. rewrite omap_app. cbn. destruct (f x); [apply last_snoc|by rewrite app_nil_r].
Qed.

Definition service_call (hst svc : cstring) (c : call) : option (Z * Z) :=
  match c with
  | Set_service h s host_id service_id _ => if bool_decide ((h, s) = (hst, svc)) then Some (host_id, service_id) else None
  | Register_metric _ _ _ _ => None
  end.

Definition metric_call (name : cstring) (host_id service_id : Z) (c : call) : option Z :=
  match c with
  | Register_metric id n h s => if bool_decide ((h, s, n) = (host_id, service_id, name)) then Some id else None
  | Set_service _ _ _ _ _ => None
  end.

Lemma mapping_after cs hst svc : _mapping (after cs) !! (hst, svc) = last_of (service_call hst svc) cs.
Proof.
  induction cs as [|c cs IH] using rev_ind; [done|]. rewrite after_snoc, last_of_snoc.
  destruct c as [h s hid sid a|id n h s]; cbn [do_call set_service register_metric _mapping service_call]; [|done].
  case_bool_decide as E.
  - rewrite E. by rewrite lookup_insert_eq.
  - by rewrite lookup_insert_ne.
Qed.

Lemma metrics_after cs name host_id service_id :
  (_metrics (after cs) !! (host_id, service_id)) ≫= (.!! name) = last_of (metric_call name host_id service_id) cs.
Proof.
  induction cs as [|c cs IH] using rev_ind; [done|]. rewrite after_snoc, last_of_snoc.
  destruct c as [h s hid sid a|id n h s]; cbn [do_call set_service register_metric _metrics metric_call]; [done|].
  case_bool_decide as E.
  - injection E as -> -> ->. rewrite lookup_insert_eq. cbn [mbind option_bind]. by rewrite lookup_insert_eq.
  - rewrite <-IH. destruct (decide ((h, s) = (host_id, service_id))) as [Ek|Ek].
    + rewrite Ek, lookup_insert_eq. cbn [mbind option_bind]. rewrite lookup_insert_ne by congruence.
      injection Ek as -> ->. by destruct (_metrics (after cs) !! (host_id, service_id)).
    + by rewrite lookup_insert_ne.
Qed.

Lemma metric_by_name_after cs name id :
  (name, id) ∈ _metric_by_name (after cs) <-> exists h s, Register_metric id name h s ∈ cs.
Proof.
  induction cs as [|c cs IH] using rev_ind; [cbn; split; [intros H; inversion H|intros (? & ? & H); inversion H]|].
  rewrite after_snoc. setoid_rewrite elem_of_app. setoid_rewrite list_elem_of_singleton.
  destruct c as [h s hid sid a|id' n h s]; cbn [do_call set_service register_metric _metric_by_name].
  - rewrite IH. split; intros (h' & s' & H); eauto. destruct H; [eauto|done].
  - rewrite elem_of_app, list_elem_of_singleton, IH. split.
    + intros [(? & ? & ?)|[= -> ->]]; eauto.
    + intros (h' & s' & [?|[= -> -> -> ->]]); eauto.
Qed.

(** A service or a host is found under the identifiers it was last given, a
    metric of a service under the last identifier registered, and a name
    without service stands for every metric of that name. *)
Theorem lookups_after cs hst svc name :
  get_service_id (after cs) hst svc = default (0, 0) (last_of (service_call hst svc) cs)
  /\ (forall host_id service_id, (host_id, service_id) <> (0, 0) ->
      get_metric_ids (after cs) name host_id service_id
        = match last_of (metric_call name host_id service_id) cs with Some id => {[ id ]} | None => ∅ end)
  /\ forall id, id ∈ get_metric_ids (after cs) name 0 0 <-> exists h s, Register_metric id name h s ∈ cs.
Proof.
  split; [|split].
  - unfold get_service_id. by rewrite mapping_after.
  - intros host_id service_id H. unfold get_metric_ids. rewrite <-metrics_after.
    assert (negb (host_id =? 0) || negb (service_id =? 0) = true) as ->.
    { destruct (Z.eqb_spec host_id 0), (Z.eqb_spec service_id 0); cbn; congruence. }
    by destruct (_metrics (after cs) !! (host_id, service_id)).
  - intros id. unfold get_metric_ids. cbn [Z.eqb negb orb]. rewrite elem_of_list_to_set, list_elem_of_fmap.
    rewrite <-metric_by_name_after. split.
    + intros ([n i] & -> & H). apply list_elem_of_filter in H as [<- H]. done.
    + intros H. exists (name, id). split; [done|]. by apply list_elem_of_filter.
Qed.

End HstSvcMapping.
