(* ===== verification/ExpBuilder.v ===== *)
(** * Building an expression (bam/src/exp_builder.cc)

    From postfix notation to the tree of values of BoolValue, with a stack of
    operands, and the whole path from the text of a boolean expression of the
    configuration to the value it takes as the services change. *)

From Stdlib Require Import ZArith Lia ZifyNat ZifyBool Strings.Byte Floats.SpecFloat.
From stdpp Require Import base option list numbers strings gmap.
From S2P Require Import Prelude Double ExpTokenizer ExpParser BoolValue HstSvcMapping.

Module ExpBuilder.
Import BoolValue.

(** An operand is a tree or a text that is read when it is popped. *)
Inductive any_operand : Type :=
  | Tree (t : bool_value)
  | Text (w : cstring).

(** The operand stack, top first, and the services met. *)
Record builder : Type := Builder {
  _operands : list any_operand;
  _services : list bool_service
}.

Definition constant_words : list (string * Z) :=
  [("OK", 0); ("WARNING", 1); ("CRITICAL", 2); ("UNKNOWN", 3); ("UP", 0); ("DOWN", 1); ("UNREACHABLE", 2)]%string.

(** The number a text stands for. *)
Definition value_of (w : cstring) : double :=
  match List.find (fun p => cstring_eqb w (str (fst p))) constant_words with
  | Some (_, n) => Dbl.of_Z n
  | None => fst (Dbl.strtod w)
  end.

Definition _pop_operand (l : list any_operand) : outcome (bool_value * list any_operand) :=
  match l with
  | [] => Throws Exn_msg
  | Text w :: l => Returns (bool_constant (value_of w), l)
  | Tree t :: l => Returns (t, l)
  end.

Definition _pop_string (l : list any_operand) : outcome (cstring * list any_operand) :=
  match l with
  | Text (c :: w) :: l => Returns (c :: w, l)
  | _ => Throws Exn_msg
  end.

Definition static_words : list string := ["HOSTSTATUS"; "SERVICESTATUS"; "METRICS"; "METRIC"; "CALL"]%string.
Definition _is_static_function (w : cstring) : bool := ExpParser.one_of static_words w.
Arguments _is_static_function w : simpl never.

Definition _check_arity (expected given : Z) : outcome unit :=
  if expected =? given then Returns tt else Throws Exn_msg.

(** std::strtol with base 0, then the conversion to int. *)
Definition is_octal (b : byte) : bool := (48 <=? Z_of_byte b) && (Z_of_byte b <=? 55).
Definition octal_val (l : cstring) : Z := fold_left (fun a b => a * 8 + (Z_of_byte b - 48)) l 0.
Definition magnitude (l : cstring) : Z :=
  match l with
  | z :: x :: h :: _ =>
    if byte_eqb z x30 && byte_eqb (Dbl.lower x) x78 && Dbl.isxdigit h
    then Dbl.hex_val (fst (Dbl.span Dbl.isxdigit (drop 2 l)))
    else if byte_eqb z x30 then octal_val (fst (Dbl.span is_octal l))
    else Dbl.dec_val (fst (Dbl.span isdigit l))
  | z :: _ => if byte_eqb z x30 then octal_val (fst (Dbl.span is_octal l)) else Dbl.dec_val (fst (Dbl.span isdigit l))
  | [] => 0
  end.
Definition strtol (l : cstring) : Z :=
  let '(s, l) := Dbl.after_sign (snd (Dbl.span isspace l)) in
  Z.max (- 2 ^ 63) (Z.min (2 ^ 63 - 1) (if s then - magnitude l else magnitude l)).
Definition arity_of (w : cstring) : Z := i32 (strtol w).
Arguments arity_of w : simpl never.

(** The binary operator a token names. *)
Definition operators : list (list string * operator) :=
  [(["&&"; "AND"], bool_and); (["||"; "OR"], bool_or); (["^"; "XOR"], bool_xor);
   (["=="; "IS"], bool_equal); (["!="; "NOT"], bool_not_equal);
   ([">"], bool_more_than true); ([">="], bool_more_than false);
   (["<"], bool_less_than true); (["<="], bool_less_than false);
   (["+"], bool_operation addition); (["-"], bool_operation substraction);
   (["*"], bool_operation multiplication); (["/"], bool_operation division);
   (["%"], bool_operation modulo)]%string.

Definition binary_operator (w : cstring) : option operator :=
  snd <$> List.find (fun p => ExpParser.one_of (fst p) w) operators.
Arguments binary_operator w : simpl never.

Definition build_operator (b : builder) (w : cstring) : outcome builder :=
  if cstring_eqb w (str "-u") then Returns b
  else if cstring_eqb w (str "!") then
    '(arg, ops) ← _pop_operand (_operands b);
    Returns (Builder (Tree (bool_not arg) :: ops) (_services b))
  else
    match binary_operator w with
    | None => Throws Exn_msg
    | Some op =>
      '(r, ops) ← _pop_operand (_operands b);
      '(l, ops) ← _pop_operand ops;
      Returns (Builder (Tree (set_operands op l r) :: ops) (_services b))
    end.

Definition build_function (mapping : HstSvcMapping.hst_svc_mapping) (b : builder) (func : cstring) (arity : Z)
  : outcome builder :=
  if cstring_eqb func (str "HOSTSTATUS") then
    _ ← _check_arity 1 arity;
    '(_, ops) ← _pop_string (_operands b);
    Returns (Builder ops (_services b))
  else if cstring_eqb func (str "SERVICESTATUS") then
    _ ← _check_arity 2 arity;
    '(svc, ops) ← _pop_string (_operands b);
    '(hst, ops) ← _pop_string ops;
    let ids := HstSvcMapping.get_service_id mapping hst svc in
    if (fst ids =? 0) || (snd ids =? 0) then Throws Exn_msg
    else
      let obj := new_service (fst ids) (snd ids) in
      Returns (Builder (Tree (service obj) :: ops) (_services b ++ [obj]))
  else if cstring_eqb func (str "METRIC") then
    _ ← _check_arity 3 arity;
    '(_, ops) ← _pop_string (_operands b);
    '(_, ops) ← _pop_string ops;
    '(_, ops) ← _pop_string ops;
    Returns (Builder ops (_services b))
  else if cstring_eqb func (str "METRICS") then
    _ ← _check_arity 1 arity;
    '(_, ops) ← _pop_string (_operands b);
    Returns (Builder ops (_services b))
  else if cstring_eqb func (str "CALL") then
    _ ← _check_arity 1 arity;
    '(_, ops) ← _pop_string (_operands b);
    Returns (Builder ops (_services b))
  else Throws Exn_msg.

Fixpoint build (mapping : HstSvcMapping.hst_svc_mapping) (b : builder) (postfix : list cstring) : outcome builder :=
  match postfix with
  | [] => Returns b
  | w :: rest =>
    if ExpParser.is_operator w then b ← build_operator b w; build mapping b rest
    else if _is_static_function w then
      match rest with
      | [] => Throws Exn_msg
      | a :: rest => b ← build_function mapping b w (arity_of a); build mapping b rest
      end
    else if ExpParser.is_function w then
      match rest with
      | [] => Throws Exn_msg
      | _ :: rest => build mapping b rest
      end
    else build mapping (Builder (Text w :: _operands b) (_services b)) rest
  end.

Record exp_builder : Type := Exp_builder { _tree : bool_value; get_services : list bool_service }.

Definition new_builder (postfix : list cstring) (mapping : HstSvcMapping.hst_svc_mapping) : outcome exp_builder :=
  b ← build mapping (Builder [] []) postfix;
  '(tree, ops) ← _pop_operand (_operands b);
  match ops with
  | [] => Returns (Exp_builder tree (_services b))
  | _ :: _ => Throws Exn_msg
  end.

(** applier::bool_expression::apply on the text of one expression. *)
Definition compile (fuel : nat) (mapping : HstSvcMapping.hst_svc_mapping) (expression : cstring) : outcome exp_builder :=
  '(_, postfix) ← ExpParser.get_postfix fuel (ExpParser.new_parser expression);
  new_builder postfix mapping.

(** ** Every text is read to its end *)

Definition ends {A} : outcome A -> Prop := ExpTokenizer.never_diverges (fun _ => True).

Lemma ends_bind {A B} (r : outcome A) (f : A -> outcome B) : ends r -> (forall a, ends (f a)) -> ends (a ← r; f a).
Proof. intros Hr Hf. apply (ExpTokenizer.never_diverges_bind (fun _ => True)); [done|]. intros a _. apply Hf. Qed.

Lemma pop_operand_ends l : ends (_pop_operand l).
Proof. by destruct l as [|[]]. Qed.

Lemma pop_string_ends l : ends (_pop_string l).
Proof. by destruct l as [|[|[]]]. Qed.

Lemma check_arity_ends a b : ends (_check_arity a b).
Proof. unfold _check_arity. by destruct (a =? b). Qed.

#[local] Hint Resolve pop_operand_ends pop_string_ends check_arity_ends : core.

(** The steps of an outcome, one after the other. *)
Local Ltac step_ends :=
  repeat first [ apply ends_bind; [by auto|intros ?] | case_match; subst | done ].

Lemma build_operator_ends b w : ends (build_operator b w).
Proof. unfold build_operator. step_ends. Qed.

Lemma build_function_ends mapping b func arity : ends (build_function mapping b func arity).
Proof. unfold build_function. step_ends. Qed.

Lemma build_ends mapping n : forall postfix b, (length postfix <= n)%nat -> ends (build mapping b postfix).
Proof.
  induction n as [|n IH]; intros [|w l] b Hn; cbn [build]; cbn [length] in *; try done; [lia|].
  case_match; [apply ends_bind; [apply build_operator_ends|intros ?; apply IH; lia]|].
  case_match; [|case_match; [|apply IH; lia]]; destruct l as [|a l]; cbn [length] in *; try done; [|apply IH; lia].
  apply ends_bind; [apply build_function_ends|intros ?; apply IH; lia].
Qed.

Lemma compile_ends fuel mapping expression :
  (ExpTokenizer.text_fuel expression <= fuel)%nat -> compile fuel mapping expression <> Diverges.
Proof.
  intros Hf. assert (H : ends (compile fuel mapping expression)); [|by destruct (compile _ _ _)].
  unfold compile. apply ends_bind.
  - pose proof (ExpParser.get_postfix_ends fuel (ExpParser.new_parser expression) Hf) as Hp.
    by destruct (ExpParser.get_postfix _ _).
  - intros [_ postfix]. unfold new_builder. apply ends_bind; [by apply (build_ends _ (length postfix))|].
    intros b. step_ends.
Qed.

(** ** Any postfix notation *)

(** The services at the leaves, from left to right. *)
Fixpoint leaves (t : bool_value) : list bool_service :=
  match t with
  | bool_constant _ => []
  | service s => [s]
  | bool_not v => leaves v
  | binary _ l r _ => leaves l ++ leaves r
  end.

Definition operand_leaves (o : any_operand) : list bool_service :=
  match o with Tree t => leaves t | Text _ => [] end.

Definition operand_ok (o : any_operand) : Prop := match o with Tree t => hard_ok t | Text _ => True end.

(** The operands, from the bottom of the stack, hold the services registered. *)
Definition builder_ok (b : builder) : Prop :=
  Forall operand_ok (_operands b) /\ rev (_operands b) ≫= operand_leaves = _services b.

Lemma pop_operand_spec l t ops : _pop_operand l = Returns (t, ops) -> Forall operand_ok l ->
  hard_ok t /\ Forall operand_ok ops /\ rev l ≫= operand_leaves = (rev ops ≫= operand_leaves) ++ leaves t.
Proof.
  destruct l as [|[t'|w] l]; cbn [_pop_operand]; [done|..]; intros [= <- <-] H; inversion_clear H.
  - split; [done|split; [done|]]. cbn [rev]. rewrite bind_app. cbn. by rewrite app_nil_r.
  - split; [done|split; [done|]]. cbn [rev]. rewrite bind_app. cbn. done.
Qed.

Lemma pop_string_spec l w ops : _pop_string l = Returns (w, ops) -> Forall operand_ok l ->
  Forall operand_ok ops /\ rev l ≫= operand_leaves = rev ops ≫= operand_leaves.
Proof.
  destruct l as [|[t'|[|c w']] l]; cbn [_pop_string]; try done. intros [= <- <-] H. inversion_clear H.
  split; [done|]. cbn [rev]. rewrite bind_app. cbn. by rewrite app_nil_r.
Qed.

Lemma builder_ok_push ops ss o : builder_ok (Builder ops ss) -> operand_ok o ->
  builder_ok (Builder (o :: ops) (ss ++ operand_leaves o)).
Proof.
  intros [H1 H2] Ho. split; cbn [_operands _services] in *; [by constructor|].
  cbn [rev]. rewrite bind_app, H2. cbn. by rewrite app_nil_r.
Qed.

Ltac pops :=
  repeat match goal with
  | H : mbind _ ?o = Returns _ |- _ => apply bind_Returns in H as (? & ? & H)
  | p : (_ * _)%type |- _ => destruct p
  | H : _pop_operand _ = Returns _ |- _ =>
    apply pop_operand_spec in H; [destruct H as (? & ? & ?)|assumption]
  | H : _pop_string _ = Returns _ |- _ => apply pop_string_spec in H; [destruct H as (? & ?)|assumption]
  end.

Lemma build_operator_ok b w b' : builder_ok b -> build_operator b w = Returns b' -> builder_ok b'.
Proof.
  intros [H1 H2] H. unfold build_operator in H.
  case_if; [by injection H as <-|]. case_if.
  - pops. injection H as <-. split; cbn [_operands _services]; [by constructor|].
    rewrite <-H2. cbn [rev]. rewrite bind_app. cbn. rewrite app_nil_r. congruence.
  - destruct (binary_operator w) as [op|]; [|done]. pops. injection H as <-.
    split; cbn [_operands _services]; [constructor; [by apply set_operands_hard|done]|].
    rewrite <-H2. cbn [rev]. rewrite bind_app. cbn. rewrite app_nil_r, app_assoc. congruence.
Qed.

Lemma build_function_ok m b func n b' : builder_ok b -> build_function m b func n = Returns b' -> builder_ok b'.
Proof.
  intros [H1 H2] H. unfold build_function in H.
  case_if. { pops. injection H as <-. split; cbn [_operands _services]; congruence. }
  case_if. { pops. destruct (_ || _); [done|]. injection H as <-.
    apply (builder_ok_push _ _ (Tree (service _))); [|done]. split; cbn [_operands _services]; congruence. }
  repeat (case_if; [pops; injection H as <-; split; cbn [_operands _services]; congruence|]). done.
Qed.


Lemma build_ok m n : forall postfix b b', (length postfix <= n)%nat ->
  builder_ok b -> build m b postfix = Returns b' -> builder_ok b'.
Proof.
  induction n as [|n IH]; intros [|w rest] b b' Hn Hb; cbn [length] in Hn; try lia;
    [by intros [= <-]..|]. cbn [build].
  case_if. { intros H. apply bind_Returns in H as (b1 & H1 & H). apply (IH rest b1); [lia| |done]. by eapply build_operator_ok. }
  case_if. { destruct rest as [|a rest]; [done|]. intros H. apply bind_Returns in H as (b1 & H1 & H).
    cbn [length] in Hn. apply (IH rest b1); [lia| |done]. by eapply build_function_ok. }
  case_if. { destruct rest as [|a rest]; [done|]. cbn [length] in Hn. apply IH; [lia|done]. }
  apply IH; [lia|]. destruct b as [ops ss]. cbn [_operands _services].
  rewrite <-(app_nil_r ss). by apply (builder_ok_push ops ss (Text w)).
Qed.

(** Whatever postfix notation is accepted, the caches of the tree agree with
    its operands, and get_services lists exactly its services, from left to
    right and one for each place where a service appears: none of them misses
    the statuses. *)
Theorem new_builder_services postfix m b :
  new_builder postfix m = Returns b -> hard_ok (_tree b) /\ get_services b = leaves (_tree b).
Proof.
  unfold new_builder. intros H. apply bind_Returns in H as (b1 & Hb & H). apply bind_Returns in H as ([tree ops] & Hp & H).
  destruct ops; [|done]. injection H as <-. cbn [_tree get_services].
  destruct (build_ok m _ postfix (Builder [] []) b1 (le_n _)) as [H1 H2]; [by split|done|].
  apply pop_operand_spec in Hp as (? & ? & E); [|done]. split; [done|]. by rewrite <-H2, E.
Qed.

(** ** Boolean expressions

    The infix expressions that the builder gives the value meant: words, statuses of
    services, the operators NOT and !, binary operators and parentheses. *)

Import ExpParser.

Inductive bexpr : Type :=
  | Constant (w : cstring)
  | Service_status (h s : cstring)
  | Negation (op : cstring) (e : bexpr)
  | Group (e : bexpr)
  | Binary (op : cstring) (l r : bexpr).

Fixpoint expr_of (e : bexpr) : expr :=
  match e with
  | Constant w => Atom w
  | Service_status h s => Call (str "SERVICESTATUS") [Atom h; Atom s]
  | Negation op e => Unary op (expr_of e)
  | Group e => Paren (expr_of e)
  | Binary op l r => Bin op (expr_of l) (expr_of r)
  end.

(** Unary minus is not one of the operators of a negation. *)
Fixpoint negations_ok (e : bexpr) : bool :=
  match e with
  | Constant _ | Service_status _ _ => true
  | Negation op e => negb (cstring_eqb op minus) && negations_ok e
  | Group e => negations_ok e
  | Binary _ l r => negations_ok l && negations_ok r
  end.

Definition well_formed (e : bexpr) : bool := wf (expr_of e) && negations_ok e.

Fixpoint tree_of (m : HstSvcMapping.hst_svc_mapping) (e : bexpr) : bool_value :=
  match e with
  | Constant w => bool_constant (value_of w)
  | Service_status h s =>
    let ids := HstSvcMapping.get_service_id m h s in service (new_service (fst ids) (snd ids))
  | Negation _ e => bool_not (tree_of m e)
  | Group e => tree_of m e
  | Binary op l r => set_operands (default bool_and (binary_operator op)) (tree_of m l) (tree_of m r)
  end.

(** The value meant, for a status of the services. *)
Fixpoint eval (m : HstSvcMapping.hst_svc_mapping) (status : Z * Z -> Z) (e : bexpr) : double :=
  match e with
  | Constant w => value_of w
  | Service_status h s => Dbl.of_Z (status (HstSvcMapping.get_service_id m h s))
  | Negation _ e => of_bool (negb (truth (eval m status e)))
  | Group e => eval m status e
  | Binary op l r => apply (default bool_and (binary_operator op)) (eval m status l) (eval m status r)
  end.

(** Its services have names and identifiers. *)
Fixpoint known (m : HstSvcMapping.hst_svc_mapping) (e : bexpr) : bool :=
  match e with
  | Constant _ => true
  | Service_status h s =>
    let ids := HstSvcMapping.get_service_id m h s in
    ExpTokenizer.nonempty h && ExpTokenizer.nonempty s && negb (fst ids =? 0) && negb (snd ids =? 0)
  | Negation _ e | Group e => known m e
  | Binary _ l r => known m l && known m r
  end.

Fixpoint operand_of (m : HstSvcMapping.hst_svc_mapping) (e : bexpr) : any_operand :=
  match e with
  | Constant w => Text w
  | Group e => operand_of m e
  | Service_status _ _ | Negation _ _ | Binary _ _ _ => Tree (tree_of m e)
  end.

Lemma pop_operand_of m e ops : _pop_operand (operand_of m e :: ops) = Returns (tree_of m e, ops).
Proof. induction e; done. Qed.

Lemma is_operand_static w : is_operand w = true -> _is_static_function w = false.
Proof.
  intros H. destruct (_is_static_function w) eqn:E; [|done].
  pose proof (one_of_all is_function static_words w ltac:(vm_compute; reflexivity) E) as F.
  apply is_operand_facts in H as (? & _). congruence.
Qed.

Lemma build_text m w ops ss rest : is_operand w = true ->
  build m (Builder ops ss) (w :: rest) = build m (Builder (Text w :: ops) ss) rest.
Proof.
  intros H. destruct (is_operand_facts w H) as (Hf & Ho & _). cbn [build].
  by rewrite Ho, (is_operand_static w H), Hf.
Qed.

Lemma binary_operator_some op : is_binary op = true ->
  is_operator op = true /\ cstring_eqb op (str "-u") = false /\ cstring_eqb op (str "!") = false
  /\ exists o, binary_operator op = Some o.
Proof.
  intros H. destruct (is_binary_facts op H) as (_ & _ & Ho & _). split; [done|].
  pose proof (one_of_all (fun op => implb (is_binary op) (match binary_operator op with Some _ => true | None => false end)) operator_words op
    ltac:(vm_compute; reflexivity) Ho) as F. cbv beta in F. rewrite H in F. cbn [implb] in F.
  unfold is_binary in H. zbool. repeat split; try done. destruct (binary_operator op); [eauto|done].
Qed.

Lemma build_service m h s ops ss rest : is_operand h = true -> is_operand s = true -> known m (Service_status h s) = true ->
  build m (Builder ops ss) ([h; s; str "SERVICESTATUS"; str "2"] ++ rest)
  = build m (Builder (operand_of m (Service_status h s) :: ops) (ss ++ leaves (tree_of m (Service_status h s)))) rest.
Proof.
  intros Hh Hs Hk. cbn [known] in Hk. cbv zeta in Hk. zbool. cbn [app]. rewrite !build_text by done. cbn [build].
  change (is_operator (str "SERVICESTATUS")) with false.
  change (_is_static_function (str "SERVICESTATUS")) with true. cbv iota.
  change (arity_of (str "2")) with 2. unfold build_function.
  change (cstring_eqb (str "SERVICESTATUS") (str "HOSTSTATUS")) with false.
  change (cstring_eqb (str "SERVICESTATUS") (str "SERVICESTATUS")) with true. cbv iota.
  destruct h as [|ch h]; [done|]. destruct s as [|cs s]; [done|].
  cbn [mbind outcome_bind _check_arity Z.eqb Pos.eqb _pop_string _operands _services].
  rewrite !(proj2 (Z.eqb_neq _ _)) by done. done.
Qed.

Lemma well_formed_inv e : well_formed e = true ->
  match e with
  | Constant w => is_operand w = true
  | Service_status h s => is_operand h = true /\ is_operand s = true
  | Negation op e => well_formed e = true /\ unary_operator op = str "!"
  | Group e => well_formed e = true
  | Binary op l r => well_formed l = true /\ well_formed r = true /\ is_binary op = true
  end.
Proof.
  unfold well_formed. destruct e; cbn [expr_of wf negations_ok forallb]; intros H; rewrite !andb_true_iff in *;
    unfold unary_operator; intuition (try done). by destruct (cstring_eqb op minus).
Qed.

Lemma build_infix m e : forall ops ss rest, well_formed e = true -> known m e = true ->
  build m (Builder ops ss) (rpn (expr_of e) ++ rest)
  = build m (Builder (operand_of m e :: ops) (ss ++ leaves (tree_of m e))) rest.
Proof.
  induction e as [w|h s|uo e IH|e IH|op l IHl r IHr]; intros ops ss rest Hw%well_formed_inv Hk;
    cbn [known rpn expr_of operand_of tree_of leaves set_operands] in *.
  - cbn [app]. rewrite build_text, app_nil_r by done. done.
  - destruct Hw. by apply build_service.
  - destruct Hw as [Hw ->]. rewrite <-app_assoc, IH by done. cbn [app build].
    change (is_operator (str "!")) with true. cbv iota. unfold build_operator.
    change (cstring_eqb (str "!") (str "-u")) with false. change (cstring_eqb (str "!") (str "!")) with true.
    cbv iota. cbn [_operands _services]. by rewrite pop_operand_of.
  - by apply IH.
  - destruct Hw as (Hl & Hr & Hop). zbool. rewrite <-!app_assoc, IHl, IHr by done. cbn [app build].
    destruct (binary_operator_some op) as (Ho & Hu & Hn & o & E); [done|].
    rewrite Ho. unfold build_operator. rewrite Hu, Hn, E. cbn [_operands _services].
    rewrite pop_operand_of. cbn [mbind outcome_bind]. rewrite pop_operand_of. cbn [mbind outcome_bind].
    by rewrite <-app_assoc.
Qed.

Lemma new_builder_infix m e : well_formed e = true -> known m e = true ->
  new_builder (rpn (expr_of e)) m = Returns (Exp_builder (tree_of m e) (leaves (tree_of m e))).
Proof.
  intros Hw Hk. unfold new_builder. rewrite <-(app_nil_r (rpn (expr_of e))), build_infix by done.
  cbn [build mbind outcome_bind _operands _services app]. by rewrite pop_operand_of.
Qed.

(** ** The text of an expression *)

Import ExpTokenizer.

Definition operator_piece (op : cstring) : piece :=
  if existsb (cstring_eqb op) special_words then Special op else Word op.

Fixpoint pieces (e : bexpr) : list piece :=
  match e with
  | Constant w => [Word w]
  | Service_status h s => [Brace_service h s]
  | Negation op e => operator_piece op :: pieces e
  | Group e => [Special lparen] ++ pieces e ++ [Special rparen]
  | Binary op l r => pieces l ++ [operator_piece op] ++ pieces r
  end.

Definition source (e : bexpr) : cstring := text_of (pieces e).

Lemma operator_piece_tokens op : piece_tokens (operator_piece op) = [op].
Proof. unfold operator_piece. by case_if. Qed.

Lemma pieces_tokens e : pieces e ≫= piece_tokens = infix (expr_of e).
Proof.
  induction e as [w|h s|op e IH|e IH|op l IHl r IHr]; cbn [pieces expr_of infix]; try done.
  - rewrite bind_cons, IH. by rewrite operator_piece_tokens.
  - rewrite !bind_app, IH. done.
  - rewrite !bind_app, IHl, IHr. cbn. by rewrite operator_piece_tokens.
Qed.

Lemma get_postfix_infix e fuel : wf (expr_of e) = true -> forallb piece_ok (pieces e) = true ->
  (length (infix (expr_of e)) < fuel)%nat ->
  exists p, get_postfix fuel (new_parser (source e)) = Returns (p, rpn (expr_of e)).
Proof.
  intros Hw Hp Hf. unfold get_postfix, new_parser, source. cbn [_exp _postfix]. unfold new_tokenizer.
  rewrite (tokens_more _ fuel _ _ (tokens_text _ Hp)) by (rewrite pieces_tokens; lia).
  rewrite pieces_tokens. cbn [mbind outcome_bind]. rewrite postfix_of_infix by done. cbn [mbind outcome_bind]. eauto.
Qed.

(** ** Services over time *)

(** The last hard state received for a service, 0 before any. *)
Definition hard_state (ss : list service_status) (ids : Z * Z) : Z :=
  match last (filter (fun st => (host_id st, service_id st) = ids) ss) with
  | Some st => last_hard_state st
  | None => 0
  end.

Lemma received_ids ss s : _host_id (received ss s) = _host_id s /\ _service_id (received ss s) = _service_id s.
Proof.
  unfold received. revert s. induction ss as [|st ss IH]; intros s; [done|]. cbn [fold_left].
  destruct (IH (receive st s)) as [-> ->]. unfold receive, service_update. by case_if.
Qed.

Lemma received_hard ss h s : _state_hard (received ss (new_service h s)) = hard_state ss (h, s).
Proof.
  induction ss as [|st ss IH] using rev_ind; [done|].
  pose proof (received_ids ss (new_service h s)) as [H1 H2].
  unfold received in *. rewrite fold_left_app. cbn [fold_left]. unfold receive at 1, service_update.
  rewrite H1, H2. cbn [new_service _host_id _service_id].
  unfold hard_state in *. rewrite filter_app, filter_cons, filter_nil.
  destruct (decide ((host_id st, service_id st) = (h, s))) as [E|E].
  - injection E as -> ->. rewrite !Z.eqb_refl. cbn [andb default _state_hard]. by rewrite last_snoc.
  - rewrite app_nil_r.
    destruct (Z.eqb_spec (host_id st) h); [|exact IH]. destruct (Z.eqb_spec (service_id st) s); [congruence|exact IH].
Qed.

Lemma denote_tree_of m f g e :
  (forall h s, f (new_service h s) = g (h, s)) -> denote f (tree_of m e) = eval m g e.
Proof.
  intros H. induction e as [w|h s|op e IH|e IH|op l IHl r IHr]; cbn [tree_of eval denote set_operands]; try done.
  - cbv zeta. rewrite H. by destruct (HstSvcMapping.get_service_id m h s).
  - by rewrite IH.
  - by rewrite IHl, IHr.
Qed.

Lemma tree_of_hard m e : hard_ok (tree_of m e).
Proof. induction e; cbn [tree_of]; try done; by apply set_operands_hard. Qed.

(** C36. A boolean expression made of words, statuses of known services, NOT or !,
    binary operators and parentheses compiles, from its text, with one listener for
    each service it names, and from then on its hard value is the value of the
    expression on the last hard state received for each service. *)
Theorem expression_follows_services m e fuel :
  well_formed e = true -> forallb piece_ok (pieces e) = true -> known m e = true -> (length (infix (expr_of e)) < fuel)%nat ->
  exists b, compile fuel m (source e) = Returns b /\ get_services b = leaves (_tree b)
    /\ forall ss, deq (value_hard (fold_left book_update ss (_tree b))) (eval m (hard_state ss) e).
Proof.
  intros Hw Hp Hk Hf. destruct (get_postfix_infix e fuel) as [p E]; [by apply andb_true_iff in Hw as [? _]|done..|].
  exists (Exp_builder (tree_of m e) (leaves (tree_of m e))). split; [|split; [done|]].
  - unfold compile. rewrite E. cbn [mbind outcome_bind]. by apply new_builder_infix.
  - intros ss. cbn [_tree].
    rewrite (value_hard_denotes _ (book_update_hard ss _ (tree_of_hard m e))).
    rewrite (denote_same_services _ _ (map_services (received ss) (tree_of m e))).
    + rewrite denote_map_services. by rewrite (denote_tree_of m _ (hard_state ss)) by (intros; apply received_hard).
    + rewrite book_updates_services, map_services_compose. done.
Qed.

(** ** On an example *)

Definition demo_mapping : HstSvcMapping.hst_svc_mapping :=
  HstSvcMapping.after
    [HstSvcMapping.Set_service (str "web") (str "http") 1 10 true;
     HstSvcMapping.Set_service (str "web") (str "disk /") 1 11 true].

(** {web http} IS CRITICAL OR NOT ( {web disk /} < 1 + 1 ) *)
Definition demo_expr : bexpr :=
  Binary (str "OR") (Binary (str "IS") (Service_status (str "web") (str "http")) (Constant (str "CRITICAL")))
    (Negation (str "NOT") (Group (Binary (str "<") (Service_status (str "web") (str "disk /"))
                   (Binary (str "+") (Constant (str "1")) (Constant (str "1")))))).

Lemma expression_follows_services_witness :
  exists b, compile 40 demo_mapping (source demo_expr) = Returns b /\ get_services b = leaves (_tree b)
    /\ forall ss, deq (value_hard (fold_left book_update ss (_tree b))) (eval demo_mapping (hard_state ss) demo_expr).
Proof.
  apply expression_follows_services.
  - vm_compute. reflexivity.
  - vm_compute. reflexivity.
  - vm_compute. reflexivity.
  - apply Nat.ltb_lt. vm_compute. reflexivity.
Defined.

(** The parser tells a unary minus apart, and the builder drops it. *)
Lemma unary_minus_ignored :
  (b ← compile 9 demo_mapping (str "- 1"); Returns (value_hard (_tree b))) = Returns (Dbl.of_Z 1).
Proof. vm_compute. reflexivity. Qed.

(** The status of a host, a metric or a call to another expression leave nothing
    on the stack: no expression that uses one is accepted. *)
Lemma host_status_never_accepted :
  compile 9 demo_mapping (str "{web}") = Throws Exn_msg
  /\ compile 9 demo_mapping (str "{web} IS UP") = Throws Exn_msg.
Proof. split; vm_compute; reflexivity. Qed.

Definition demo_postfix : list cstring :=
  [str "web"; str "http"; str "SERVICESTATUS"; str "2"; str "OK"; str "IS"].

Definition demo_built : exp_builder :=
  Exp_builder (set_operands bool_equal (service (new_service 1 10)) (bool_constant (value_of (str "OK"))))
    [new_service 1 10].

Lemma new_builder_services_witness :
  new_builder demo_postfix demo_mapping = Returns demo_built
  /\ hard_ok (_tree demo_built) /\ get_services demo_built = leaves (_tree demo_built).
Proof.
  assert (H : new_builder demo_postfix demo_mapping = Returns demo_built) by (vm_compute; reflexivity).
  split; [exact H|]. exact (new_builder_services demo_postfix demo_mapping demo_built H).
Defined.

End ExpBuilder.
