(* ===== verification/Kpi.v ===== *)
(** * Impacts and events of business activities (bam/inc/com/centreon/broker/bam)

    What key performance indicators and business activities exchange: the
    impact a KPI has, the class Kpi of the indicators themselves, and the events
    they write to the stream that visits them. *)

From Stdlib Require Import ZArith Lia ZifyNat ZifyBool Strings.Byte Floats.SpecFloat.
From stdpp Require Import base option list numbers strings.
From S2P Require Import Prelude Double.

Module Kpi.

(** ** impact_values *)

(** impact_values::state, as the integer it is stored as. *)
Definition state_ok : Z := 0.
Definition state_warning : Z := 1.
Definition state_critical : Z := 2.
Definition state_unknown : Z := 3.

Record impact_values : Type := Impact_values {
  _acknowledgement : double;
  _downtime : double;
  _nominal : double;
  _state : Z
}.

Definition no_impact : impact_values := Impact_values (Dbl.of_Z 0) (Dbl.of_Z 0) (Dbl.of_Z 0) state_ok.

(** operator==, where NaN differs from itself. *)
Definition impact_eqb (a b : impact_values) : bool :=
  Dbl.eqb (_acknowledgement a) (_acknowledgement b) && Dbl.eqb (_downtime a) (_downtime b)
  && Dbl.eqb (_nominal a) (_nominal b) && (_state a =? _state b).

(** The integral part of a double, and static_cast<int>: out of range, the
    x86 conversion. *)
Definition trunc (d : double) : Z :=
  match d with
  | S754_finite s m e =>
    let a := if 0 <=? e then Z.pos m * 2 ^ e else Z.pos m / 2 ^ (- e) in if s then - a else a
  | _ => 0
  end.

Definition int_of_double (d : double) : Z :=
  match d with
  | S754_zero _ | S754_finite _ _ _ =>
    let z := trunc d in if (- 2 ^ 31 <=? z) && (z <? 2 ^ 31) then z else - 2 ^ 31
  | _ => - 2 ^ 31
  end.

Lemma trunc_canon z : Z.abs z < 2 ^ 53 -> trunc (Dbl.canon z) = z.
Proof.
  intros Hz. destruct (Dbl.canon_cases z Hz) as [[-> ->]|(m & e & -> & He & Hm & Hz0 & _)]; [done|].
  cbn [trunc]. destruct (Z.leb_spec 0 e).
  - replace e with 0 in * by lia. rewrite Z.pow_0_r, Z.mul_1_r in *. destruct (Z.ltb_spec z 0); lia.
  - rewrite Hm, Z.div_mul by lia. destruct (Z.ltb_spec z 0); lia.
Qed.

(** ** Events *)

(** timestamp::is_null. *)
Definition is_null (t : Z) : bool := (t =? -1) || (t =? 0).

Record kpi_event : Type := Kpi_event {
  kpi_id : Z;
  ke_ba_id : Z;
  impact_level : Z;
  ke_in_downtime : bool;
  output : cstring;
  perfdata : cstring;
  ke_start_time : Z;
  ke_end_time : Z;
  ke_status : Z
}.

Record kpi_status : Type := Kpi_status {
  ks_kpi_id : Z;
  ks_in_downtime : bool;
  level_acknowledgement_hard : double;
  level_acknowledgement_soft : double;
  level_downtime_hard : double;
  level_downtime_soft : double;
  level_nominal_hard : double;
  level_nominal_soft : double;
  state_hard : Z;
  state_soft : Z;
  ks_last_state_change : Z;
  last_impact : double
}.

Record ba_event : Type := Ba_event {
  be_ba_id : Z;
  first_level : double;
  be_in_downtime : bool;
  be_start_time : Z;
  be_end_time : Z;
  be_status : Z
}.

Record ba_status : Type := Ba_status {
  bs_ba_id : Z;
  bs_in_downtime : bool;
  bs_last_state_change : Z;
  level_acknowledgement : double;
  level_downtime : double;
  level_nominal : double;
  bs_state : Z;
  state_changed : bool
}.

(** The members of neb::service_status that a business activity sets from its
    own state; the others it sets to constants. *)
Record virtual_status : Type := Virtual_status {
  vs_host_id : Z;
  vs_service_id : Z;
  vs_current_state : Z;
  vs_last_hard_state : Z;
  vs_last_check : Z;
  vs_last_hard_state_change : Z;
  vs_last_state_change : Z;
  vs_last_update : Z;
  vs_output : cstring;
  vs_perf_data : cstring
}.

Record inherited_downtime : Type := Inherited_downtime { id_ba_id : Z; id_in_downtime : bool }.

(** What a visitor is given. *)
Inductive event : Type :=
  | E_kpi_event (e : kpi_event)
  | E_kpi_status (s : kpi_status)
  | E_ba_event (e : ba_event)
  | E_ba_status (s : ba_status)
  | E_service_status (s : virtual_status)
  | E_inherited_downtime (d : inherited_downtime).

(** ** The class kpi *)

(** The virtual methods a business activity calls. impact_hard and impact_soft
    throw on a state that is none of the service states. *)
Class Kpi (K : Type) : Type := {
  impact_hard : K -> outcome impact_values;
  impact_soft : K -> outcome impact_values;
  in_downtime : K -> bool;
  ok_state : K -> bool;
  get_last_state_change : Z -> K -> Z  (** at some time *)
}.

(** ** Timelines

    KPI and BA events are periods: one is written when it opens, without end,
    and once more with its end when it closes. *)

Section Timeline.
Context {P : Type} (start_of end_of : P -> Z) (later : Z -> Z -> bool) (same : P -> P -> bool).

(** Where the history is: nothing yet, a period open, a period closed. *)
Inductive history : Type := Nothing | Open (p : P) | Closed (t : Z) | Broken.

(** The next period written: what was open closes, at a later time, and the
    next one opens when the last one closed. *)
Definition record (h : history) (p : P) : history :=
  match h with
  | Nothing => Open p
  | Open o => if same o p && later (end_of p) (start_of o) then Closed (end_of p) else Broken
  | Closed t => if start_of p =? t then Open p else Broken
  | Broken => Broken
  end.

Definition recorded (h : history) (l : list P) : history := fold_left record l h.

Lemma recorded_app h a b : recorded h (a ++ b) = recorded (recorded h a) b.
Proof. apply fold_left_app. Qed.
End Timeline.
Arguments Nothing {P}.
Arguments Broken {P}.
Arguments Closed {P} t.
Arguments Open {P} p.

End Kpi.
