(* ===== verification/KpiService.v ===== *)
(** * A service as an indicator (bam/src/kpi_service.cc, kpi.cc)

    The KPI of a service: it receives statuses, acknowledgements and downtimes,
    knows its impact and writes the periods spent in each state. *)

From Stdlib Require Import ZArith Lia ZifyNat ZifyBool Strings.Byte Floats.SpecFloat.
From stdpp Require Import base option list numbers strings.
From S2P Require Import Prelude Double Kpi.

Module KpiService.
Import Kpi.

Record kpi_service : Type := Kpi_service {
  _id : Z;
  _ba_id : Z;
  _event : option kpi_event;
  _initial_events : list kpi_event;
  _acknowledged : bool;
  _downtimed : bool;
  _host_id : Z;
  _impacts : list double;
  _last_check : Z;
  _output : cstring;
  _perfdata : cstring;
  _service_id : Z;
  _state_hard : Z;
  _state_soft : Z;
  _state_type : Z
}.
Implicit Types k : kpi_service.

Definition new_kpi_service : kpi_service :=
  Kpi_service 0 0 None [] false false 0 (replicate 5 (Dbl.of_Z 0)) 0 [] [] 0 state_ok state_ok 0.

Definition with_event k e :=
  Kpi_service (_id k) (_ba_id k) e (_initial_events k) (_acknowledged k) (_downtimed k) (_host_id k) (_impacts k)
    (_last_check k) (_output k) (_perfdata k) (_service_id k) (_state_hard k) (_state_soft k) (_state_type k).
Definition with_initial_events k l :=
  Kpi_service (_id k) (_ba_id k) (_event k) l (_acknowledged k) (_downtimed k) (_host_id k) (_impacts k)
    (_last_check k) (_output k) (_perfdata k) (_service_id k) (_state_hard k) (_state_soft k) (_state_type k).
Definition with_impacts k l :=
  Kpi_service (_id k) (_ba_id k) (_event k) (_initial_events k) (_acknowledged k) (_downtimed k) (_host_id k) l
    (_last_check k) (_output k) (_perfdata k) (_service_id k) (_state_hard k) (_state_soft k) (_state_type k).
Definition set_acknowledged k b :=
  Kpi_service (_id k) (_ba_id k) (_event k) (_initial_events k) b (_downtimed k) (_host_id k) (_impacts k)
    (_last_check k) (_output k) (_perfdata k) (_service_id k) (_state_hard k) (_state_soft k) (_state_type k).
Definition set_downtimed k b :=
  Kpi_service (_id k) (_ba_id k) (_event k) (_initial_events k) (_acknowledged k) b (_host_id k) (_impacts k)
    (_last_check k) (_output k) (_perfdata k) (_service_id k) (_state_hard k) (_state_soft k) (_state_type k).
Definition with_last_check k t :=
  Kpi_service (_id k) (_ba_id k) (_event k) (_initial_events k) (_acknowledged k) (_downtimed k) (_host_id k)
    (_impacts k) t (_output k) (_perfdata k) (_service_id k) (_state_hard k) (_state_soft k) (_state_type k).

Definition set_impact_warning k (impact : double) := with_impacts k (<[1%nat := impact]> (_impacts k)).
Definition set_impact_critical k (impact : double) := with_impacts k (<[2%nat := impact]> (_impacts k)).
Definition set_impact_unknown k (impact : double) := with_impacts k (<[3%nat := impact]> (_impacts k)).

(** ** Impacts *)

Definition _fill_impact k (state : Z) : outcome impact_values :=
  if (state <? 0) || (Z.of_nat (length (_impacts k)) <=? state) then Throws Exn_msg
  else
    let nominal := nth (Z.to_nat state) (_impacts k) (Dbl.of_Z 0) in
    Returns (Impact_values (if _acknowledged k then nominal else Dbl.of_Z 0)
               (if _downtimed k then nominal else Dbl.of_Z 0) nominal state).

Definition last_state_change (now : Z) k : Z :=
  match _event k with Some e => ke_start_time e | None => now end.

#[global] Instance service_kpi : Kpi kpi_service := {
  impact_hard k := _fill_impact k (_state_hard k);
  impact_soft k := _fill_impact k (_state_soft k);
  in_downtime k := _downtimed k;
  ok_state k := _state_hard k =? 0;
  get_last_state_change := last_state_change
}.

(** ** Visits *)

(** The downtime flag of the event is not set yet when its impact is chosen. *)
Definition _open_new_event k (impacts : impact_values) : kpi_service * list event :=
  let blank_in_downtime := false in
  let e := Kpi_event (_id k) (_ba_id k)
             (int_of_double (if blank_in_downtime then _downtime impacts else _nominal impacts))
             (_downtimed k) (_output k) (_perfdata k) (_last_check k) (-1) (_state_hard k) in
  (with_event k (Some e), [E_kpi_event e]).

Definition commit_initial_events k : kpi_service * list event :=
  (with_initial_events k [], E_kpi_event <$> _initial_events k).

Definition close (e : kpi_event) (t : Z) : kpi_event :=
  Kpi_event (kpi_id e) (ke_ba_id e) (impact_level e) (ke_in_downtime e) (output e) (perfdata e)
    (ke_start_time e) t (ke_status e).

(** The BI events of a visit. *)
Definition visit_event k (hard_values : impact_values) : kpi_service * list event :=
  match _event k with
  | None => if negb (is_null (_last_check k)) then _open_new_event k hard_values else (k, [])
  | Some e =>
    if (ke_start_time e <? _last_check k)
       && (negb (eqb (_downtimed k) (ke_in_downtime e)) || negb (_state_hard k =? ke_status e)) then
      let '(k, out) := _open_new_event (with_event k None) hard_values in
      (k, E_kpi_event (close e (_last_check k)) :: out)
    else (k, [])
  end.

Definition status_of (now : Z) k (hard_values soft_values : impact_values) : kpi_status :=
  Kpi_status (_id k) (_downtimed k) (_acknowledgement hard_values) (_acknowledgement soft_values)
    (_downtime hard_values) (_downtime soft_values) (_nominal hard_values) (_nominal soft_values)
    (_state_hard k) (_state_soft k) (last_state_change now k)
    (if _downtimed k then _downtime hard_values else _nominal hard_values).

(** [visitor] tells whether there is one. An exception loses nothing of what
    was done before it. *)
Definition visit (now : Z) (visitor : bool) k : kpi_service * list event * outcome unit :=
  if visitor then
    let '(k, initial) := commit_initial_events k in
    match impact_hard k, impact_soft k with
    | Returns hard_values, Returns soft_values =>
      let '(k, out) := visit_event k hard_values in
      (k, initial ++ out ++ [E_kpi_status (status_of now k hard_values soft_values)], Returns tt)
    | Throws e, _ | Returns _, Throws e => (k, initial, Throws e)
    | Diverges, _ | Returns _, Diverges => (k, initial, Diverges)
    end
  else (k, [], Returns tt).

(** ** Updates *)

(** Visit, then propagate to the parents unless the visit threw. *)
Definition visit_and_propagate (now : Z) (visitor : bool) k : kpi_service * list event * outcome bool :=
  match visit now visitor k with
  | (k, out, Returns _) => (k, out, Returns true)
  | (k, out, Throws e) => (k, out, Throws e)
  | (k, out, Diverges) => (k, out, Diverges)
  end.

Record service_status : Type := Service_status {
  st_host_id : Z;
  st_service_id : Z;
  last_check : Z;
  last_update : Z;
  st_output : cstring;
  perf_data : cstring;
  last_hard_state : Z;
  current_state : Z;
  state_type : Z
}.
Record acknowledgement : Type := Acknowledgement { ack_host_id : Z; ack_service_id : Z; deletion_time : Z }.
Record downtime : Type := Downtime {
  dt_host_id : Z; dt_service_id : Z; was_started : bool; actual_end_time : Z
}.

Definition apply_status k (status : service_status) : kpi_service :=
  let last :=
    if is_null (last_check status) then
      if is_null (_last_check k) then last_update status else _last_check k
    else last_check status in
  Kpi_service (_id k) (_ba_id k) (_event k) (_initial_events k) (_acknowledged k) (_downtimed k) (_host_id k)
    (_impacts k) last (st_output status) (perf_data status) (_service_id k)
    (last_hard_state status) (current_state status) (state_type status).

(** The boolean returned tells whether the parents were notified. *)
Definition service_update (now : Z) (visitor : bool) k (status : service_status)
  : kpi_service * list event * outcome bool :=
  if (st_host_id status =? _host_id k) && (st_service_id status =? _service_id k)
  then visit_and_propagate now visitor (apply_status k status)
  else (k, [], Returns false).

Definition service_acknowledged (now : Z) (visitor : bool) k (ack : acknowledgement)
  : kpi_service * list event * outcome bool :=
  if (ack_host_id ack =? _host_id k) && (ack_service_id ack =? _service_id k)
  then visit_and_propagate now visitor (set_acknowledged k (negb (deletion_time ack =? -1)))
  else (k, [], Returns false).

Definition service_downtimed (now : Z) (visitor : bool) k (dt : downtime)
  : kpi_service * list event * outcome bool :=
  if (dt_host_id dt =? _host_id k) && (dt_service_id dt =? _service_id k)
  then visit_and_propagate now visitor (set_downtimed k (was_started dt && is_null (actual_end_time dt)))
  else (k, [], Returns false).

(** kpi::set_initial_event. The event pushed to _initial_events is the one
    _event points to, so that it gets the new impact level too. *)
Definition with_level (e : kpi_event) (start level : Z) : kpi_event :=
  Kpi_event (kpi_id e) (ke_ba_id e) level (ke_in_downtime e) (output e) (perfdata e) start (ke_end_time e) (ke_status e).

Definition kpi_set_initial_event (now : Z) k (e : kpi_event) : kpi_service * outcome unit :=
  match _event k with
  | Some _ => (k, Returns tt)
  | None =>
    match impact_hard (with_event k (Some e)) with
    | Returns impacts =>
      let new_impact_level := if ke_in_downtime e then _downtime impacts else _nominal impacts in
      if negb (Dbl.eqb new_impact_level (Dbl.of_Z (impact_level e))) && negb (impact_level e =? -1) then
        let new_event := with_level e now (int_of_double new_impact_level) in
        (with_initial_events (with_event k (Some new_event)) (_initial_events k ++ [close e now; new_event]),
         Returns tt)
      else
        let e := with_level e (ke_start_time e) (int_of_double new_impact_level) in
        (with_initial_events (with_event k (Some e)) (_initial_events k ++ [e]), Returns tt)
    | Throws x => (with_event k (Some e), Throws x)
    | Diverges => (with_event k (Some e), Diverges)
    end
  end.

Definition set_initial_event (now : Z) k (e : kpi_event) : kpi_service * outcome unit :=
  match kpi_set_initial_event now k e with
  | (k, Returns _) =>
    match _event k with
    | Some e => (set_downtimed (with_last_check k (ke_start_time e)) (ke_in_downtime e), Returns tt)
    | None => (k, Returns tt)
    end
  | r => r
  end.

(** ** The history of a KPI *)

#[global] Instance kpi_event_eq_dec : EqDecision kpi_event.
Proof. solve_decision. Defined.

Inductive input : Type :=
  | Status (s : service_status)
  | Acknowledged (a : acknowledgement)
  | Downtimed (d : downtime).

Definition receive (now : Z) k (i : input) : kpi_service * list event * outcome bool :=
  match i with
  | Status s => service_update now true k s
  | Acknowledged a => service_acknowledged now true k a
  | Downtimed d => service_downtimed now true k d
  end.

Fixpoint receive_all k (l : list (Z * input)) : kpi_service * list event :=
  match l with
  | [] => (k, [])
  | (now, i) :: l =>
    let '(k, out, _) := receive now k i in
    let '(k, out') := receive_all k l in (k, out ++ out')
  end.

Definition kpi_events (l : list event) : list kpi_event :=
  omap (fun e => match e with E_kpi_event e => Some e | _ => None end) l.

(** The same period, end apart. *)
Definition same_period (a b : kpi_event) : bool := bool_decide (close a (ke_end_time b) = b).

Definition kpi_recorded : history -> list kpi_event -> history :=
  recorded ke_start_time ke_end_time (fun a b => b <? a) same_period.

Definition current k : history := match _event k with Some e => Open e | None => Nothing end.

(** The open period is the present one, once time has passed since it opened. *)
Definition up_to_date k : Prop :=
  match _event k with
  | Some e => ke_start_time e < _last_check k -> ke_status e = _state_hard k /\ ke_in_downtime e = _downtimed k
  | None => is_null (_last_check k) = true
  end.

Lemma same_period_close e t : same_period e (close e t) = true.
Proof. apply bool_decide_eq_true. by destruct e. Qed.

Lemma visit_event_spec k v k' out : visit_event k v = (k', out) ->
  kpi_recorded (current k) (kpi_events out) = current k' /\ up_to_date k'
  /\ _initial_events k' = _initial_events k.
Proof.
  unfold visit_event, current, up_to_date. destruct (_event k) as [e|] eqn:He.
  - case_if.
    + intros [= <- <-]. cbn [kpi_events omap list_omap _event with_event].
      unfold kpi_recorded, recorded. cbn [fold_left record ke_end_time close]. rewrite same_period_close.
      cbn [andb]. zbool. rewrite (proj2 (Z.ltb_lt _ _)) by done. cbn. rewrite Z.eqb_refl. done.
    + intros [= <- <-]. rewrite He. split; [done|]. split; [|done]. intros Hlt.
      rewrite (proj2 (Z.ltb_lt _ _) Hlt) in *. zbool.
      destruct (eqb_spec (_downtimed k) (ke_in_downtime e)); cbn in *; [|done].
      destruct (Z.eqb_spec (_state_hard k) (ke_status e)); cbn in *; done.
  - case_if.
    + intros [= <- <-]. done.
    + intros [= <- <-]. rewrite He. split; [done|]. split; [|done].
      destruct (is_null (_last_check k)); done.
Qed.

Lemma visit_timeline now k k' out r : _initial_events k = [] -> visit now true k = (k', out, r) ->
  kpi_recorded (current k) (kpi_events out) = current k' /\ _initial_events k' = []
  /\ (r = Returns tt -> up_to_date k').
Proof.
  intros Hi. unfold visit, commit_initial_events. rewrite Hi. cbn [fmap list_fmap].
  assert (E : with_initial_events k [] = k) by (destruct k; cbn in Hi; by subst). rewrite E.
  destruct (impact_hard k) as [hv|x|]; [|by intros [= <- <- <-]..].
  destruct (impact_soft k) as [sv|x|]; [|by intros [= <- <- <-]..].
  destruct (visit_event k hv) as [k1 out1] eqn:Hv. apply visit_event_spec in Hv as (H1 & H2 & H3).
  intros [= <- <- <-]. unfold kpi_events in *. rewrite ?app_nil_l, omap_app. cbn. rewrite app_nil_r.
  rewrite H3. done.
Qed.

(** Updates that do not open or close periods themselves. *)
Lemma visit_and_propagate_timeline now k k' out r : _initial_events k = [] ->
  visit_and_propagate now true k = (k', out, r) ->
  kpi_recorded (current k) (kpi_events out) = current k' /\ _initial_events k' = []
  /\ (r = Returns true -> up_to_date k').
Proof.
  intros Hi. unfold visit_and_propagate. destruct (visit now true k) as [[k1 out1] r1] eqn:Hv.
  apply visit_timeline in Hv as (H1 & H2 & H3); [|done].
  destruct r1 as [[]|x|]; intros [= <- <- <-]; repeat split; try done. intros _. by apply H3.
Qed.

Lemma receive_timeline now k i k' out r : _initial_events k = [] -> receive now k i = (k', out, r) ->
  kpi_recorded (current k) (kpi_events out) = current k' /\ _initial_events k' = []
  /\ (r = Returns true -> up_to_date k').
Proof.
  intros Hi. destruct i as [s|a|d]; cbn [receive];
    [unfold service_update|unfold service_acknowledged|unfold service_downtimed];
    (case_if; [|intros [= <- <- <-]; done]).
  - apply (visit_and_propagate_timeline now (apply_status k s)). done.
  - apply (visit_and_propagate_timeline now (set_acknowledged k _)). done.
  - apply (visit_and_propagate_timeline now (set_downtimed k _)). done.
Qed.

Lemma receive_all_timeline l : forall k k' out, _initial_events k = [] -> receive_all k l = (k', out) ->
  kpi_recorded (current k) (kpi_events out) = current k'.
Proof.
  induction l as [|[now i] l IH]; intros k k' out Hi; cbn [receive_all]; [by intros [= <- <-]|].
  destruct (receive now k i) as [[k1 out1] r] eqn:Hr. destruct (receive_all k1 l) as [k2 out2] eqn:Hl.
  intros [= <- <-]. apply receive_timeline in Hr as (H1 & H2 & _); [|done]. apply IH in Hl; [|done].
  unfold kpi_events, kpi_recorded in *. rewrite omap_app, recorded_app. by rewrite H1.
Qed.

(** The periods a KPI writes make a history without gap nor overlap: each
    one that opens is closed, unchanged, at a later time, and the next one
    opens at that time; the last one is the one the KPI holds. Whatever
    statuses, acknowledgements and downtimes come, in whatever order. *)
Theorem kpi_history_contiguous k l :
  _initial_events k = [] ->
  let '(k', out) := receive_all k l in
  kpi_recorded (current k) (kpi_events out) = current k'.
Proof. intros H. destruct (receive_all k l) as [k' out] eqn:E. by eapply receive_all_timeline. Qed.

(** An update of a service with valid states is written, propagated to the
    business activity and gives the impact configured for the hard state; with
    a state that is none of the five it throws, the state being stored all the
    same, and the open period follows the state as soon as time has passed. *)
Theorem service_update_spec now k s :
  st_host_id s = _host_id k -> st_service_id s = _service_id k ->
  length (_impacts k) = 5%nat -> _initial_events k = [] ->
  let '(k', out, r) := service_update now true k s in
  let valid z := (0 <=? z) && (z <? 5) in
  _state_hard k' = last_hard_state s /\ _state_soft k' = current_state s
  /\ (if valid (last_hard_state s) && valid (current_state s) then
        r = Returns true /\ up_to_date k'
        /\ (v ← impact_hard k'; Returns (_nominal v))
           = Returns (nth (Z.to_nat (last_hard_state s)) (_impacts k) (Dbl.of_Z 0))
      else r = Throws Exn_msg /\ out = []).
Proof.
  intros Hh Hs Hl Hi. destruct (service_update now true k s) as [[k' out] r] eqn:E.
  pose proof E as E'. unfold service_update in E'. rewrite Hh, Hs, !Z.eqb_refl in E'. cbn [andb] in E'.
  unfold visit_and_propagate, visit, commit_initial_events in E'.
  cbn [apply_status _initial_events with_initial_events] in E'. rewrite Hi in E'. cbn [fmap list_fmap app] in E'.
  cbn [impact_hard impact_soft service_kpi] in E'. unfold _fill_impact in E' at 1 2.
  cbn [with_initial_events apply_status _state_hard _state_soft _impacts] in E'. rewrite Hl in E'.
  cbv zeta.
  assert (Hcase : forall z, (z <? 0) || (Z.of_nat 5 <=? z) = negb ((0 <=? z) && (z <? 5))) by (intros z; lia).
  rewrite !Hcase in E'.
  destruct ((0 <=? last_hard_state s) && (last_hard_state s <? 5)) eqn:Vh; cbn [negb andb] in *.
  2:{ injection E' as <- <- <-. done. }
  destruct ((0 <=? current_state s) && (current_state s <? 5)) eqn:Vs; cbn [negb] in *.
  2:{ injection E' as <- <- <-. done. }
  match type of E' with context [visit_event ?a ?b] => destruct (visit_event a b) as [k1 out1] eqn:Hv end.
  pose proof Hv as Hv'. apply visit_event_spec in Hv' as (_ & Hu & _).
  injection E' as <- <- <-.
  assert (Hk : _state_hard k1 = last_hard_state s /\ _state_soft k1 = current_state s /\ _impacts k1 = _impacts k).
  { unfold visit_event in Hv. destruct (_event _); case_if; injection Hv as <- <-; done. }
  destruct Hk as (K1 & K2 & K3). repeat split; try done.
  cbn [impact_hard service_kpi]. unfold _fill_impact. rewrite K1, K3, Hl, Hcase, Vh. done.
Qed.

(** ** On an example *)

Definition demo : kpi_service :=
  Kpi_service 3 1 None [] false false 10 (Dbl.of_Z <$> [0; 30; 80; 50; 0]) 0 [] [] 20 0 0 0.
Definition demo_status (t state : Z) : service_status := Service_status 10 20 t t (str "out") [] state state 1.

Lemma kpi_history_contiguous_witness :
  let '(k', out) := receive_all demo
    [(100, Status (demo_status 100 0)); (160, Status (demo_status 160 2));
     (170, Downtimed (Downtime 10 20 true 0)); (220, Status (demo_status 220 2))] in
  kpi_recorded (current demo) (kpi_events out) = current k'.
Proof. apply (kpi_history_contiguous demo). reflexivity. Defined.

Lemma service_update_spec_witness :
  let '(k', out, r) := service_update 100 true demo (demo_status 100 2) in
  let valid z := (0 <=? z) && (z <? 5) in
  _state_hard k' = 2 /\ _state_soft k' = 2
  /\ (if valid 2 && valid 2 then
        r = Returns true /\ up_to_date k'
        /\ (v ← impact_hard k'; Returns (_nominal v)) = Returns (nth 2 (_impacts demo) (Dbl.of_Z 0))
      else r = Throws Exn_msg /\ out = []).
Proof. apply (service_update_spec 100 demo (demo_status 100 2)); reflexivity. Defined.

(** A period that opens during a downtime has the impact of the state out of
    downtime: the flag of the event is read before it is set. *)
Lemma impact_level_ignores_downtime :
  let k := set_acknowledged (set_downtimed (with_last_check demo 100) false) true in
  let v := Impact_values (Dbl.of_Z 0) (Dbl.of_Z 7) (Dbl.of_Z 30) 1 in
  _event (fst (_open_new_event (set_downtimed k true) v))
  = Some (Kpi_event 3 1 30 true [] [] 100 (-1) 0).
Proof. vm_compute. reflexivity. Qed.

End KpiService.
