(* ===== verification/Ba.v ===== *)
(** * Business activities (bam/src/ba.cc)

    A business activity keeps the impacts of its indicators and, incrementally,
    its level, its acknowledged and downtimed levels and its aggregated state.
    The theorems say that what is kept incrementally is what the present
    impacts give, and that the periods it writes follow its state. *)

From Stdlib Require Import ZArith Lia ZifyNat ZifyBool Strings.Byte Floats.SpecFloat.
From stdpp Require Import base option list numbers strings.
From S2P Require Import Prelude Double Kpi KpiService.

(** Single precision. *)
Module Flt.
Definition of_Z (z : Z) : spec_float := binary_normalize 24 128 z 0 false.
Definition of_double (d : double) : spec_float :=
  match d with
  | S754_finite s m e => binary_normalize 24 128 (if s then Zneg m else Zpos m) e s
  | d => d
  end.
Definition mul : spec_float -> spec_float -> spec_float := SFmul 24 128.
Definition div : spec_float -> spec_float -> spec_float := SFdiv 24 128.
Definition leb : spec_float -> spec_float -> bool := SFleb.
End Flt.

Module Ba.
Import Kpi.

Inductive state_source : Type :=
  | state_source_impact | state_source_best | state_source_worst
  | state_source_ratio_percent | state_source_ratio_number.

Inductive downtime_behaviour : Type := dt_ignore | dt_inherit | dt_ignore_kpi.

#[global] Instance state_source_eq_dec : EqDecision state_source.
Proof. solve_decision. Defined.
#[global] Instance downtime_behaviour_eq_dec : EqDecision downtime_behaviour.
Proof. solve_decision. Defined.

(** The indicator an impact comes from is its key in [_impacts]. *)
Record impact_info : Type := Impact_info {
  hard_impact : impact_values;
  soft_impact : impact_values;
  ii_in_downtime : bool
}.

(** The members that follow the impacts. The two counters are floats that are
    only reset and incremented: integers, up to 2^24. *)
Record accumulators : Type := Accumulators {
  _computed_soft_state : Z;
  _computed_hard_state : Z;
  _num_soft_critical_childs : Z;
  _num_hard_critical_childs : Z;
  _acknowledgement_hard : double;
  _acknowledgement_soft : double;
  _downtime_hard : double;
  _downtime_soft : double;
  _level_hard : double;
  _level_soft : double
}.

(** [_impacts] is in the order std::unordered_map iterates, which nothing
    below depends on. *)
Record ba : Type := Mk_ba {
  _state_source : state_source;
  _dt_behaviour : downtime_behaviour;
  _level_critical : double;
  _level_warning : double;
  _valid : bool;
  _id : Z;
  _host_id : Z;
  _service_id : Z;
  _generate_virtual_status : bool;
  _acc : accumulators;
  _impacts : list (Z * impact_info);
  _recompute_count : Z;
  _event : option ba_event;
  _initial_events : list ba_event;
  _in_downtime : bool;
  _inherited_downtime : option inherited_downtime;
  _last_kpi_update : Z
}.
Implicit Types b : ba.

Definition with_acc b a r :=
  Mk_ba (_state_source b) (_dt_behaviour b) (_level_critical b) (_level_warning b) (_valid b) (_id b) (_host_id b)
    (_service_id b) (_generate_virtual_status b) a (_impacts b) r (_event b) (_initial_events b)
    (_in_downtime b) (_inherited_downtime b) (_last_kpi_update b).
Definition with_impacts b l :=
  Mk_ba (_state_source b) (_dt_behaviour b) (_level_critical b) (_level_warning b) (_valid b) (_id b) (_host_id b)
    (_service_id b) (_generate_virtual_status b) (_acc b) l (_recompute_count b) (_event b) (_initial_events b)
    (_in_downtime b) (_inherited_downtime b) (_last_kpi_update b).
Definition with_event b e l t :=
  Mk_ba (_state_source b) (_dt_behaviour b) (_level_critical b) (_level_warning b) (_valid b) (_id b) (_host_id b)
    (_service_id b) (_generate_virtual_status b) (_acc b) (_impacts b) (_recompute_count b) e l
    (_in_downtime b) (_inherited_downtime b) t.
Definition with_downtime b d i :=
  Mk_ba (_state_source b) (_dt_behaviour b) (_level_critical b) (_level_warning b) (_valid b) (_id b) (_host_id b)
    (_service_id b) (_generate_virtual_status b) (_acc b) (_impacts b) (_recompute_count b) (_event b)
    (_initial_events b) d i (_last_kpi_update b).
Definition with_last_kpi_update b t := with_event b (_event b) (_initial_events b) t.

Definition fresh : accumulators :=
  Accumulators state_ok state_ok 0 0 (Dbl.of_Z 0) (Dbl.of_Z 0) (Dbl.of_Z 0) (Dbl.of_Z 0) (Dbl.of_Z 100) (Dbl.of_Z 100).

(** The constructor and the setters the configuration calls on a new object. *)
Definition new_ba (source : state_source) (dt : downtime_behaviour) (critical warning : double)
  (id host_id service_id : Z) (generate_virtual_status : bool) : ba :=
  Mk_ba source dt critical warning true id host_id service_id generate_virtual_status fresh [] 0 None [] false None 0.

Definition normalize (d : double) : double :=
  if Dbl.ltb (Dbl.of_Z 100) d then Dbl.of_Z 100 else if Dbl.ltb d (Dbl.of_Z 0) then Dbl.of_Z 0 else d.

(** ** Impacts *)

Definition is_state_worse (current_state new_state : Z) : bool :=
  if (current_state =? state_ok) && negb (new_state =? state_ok) then true
  else if (current_state =? state_warning) && (new_state =? state_critical) then true
  else (current_state =? state_unknown) && ((new_state =? state_warning) || (new_state =? state_critical)).

Definition is_state_better (current_state new_state : Z) : bool :=
  if (current_state =? state_critical) && negb (new_state =? state_critical) then true
  else if (current_state =? state_unknown) && (new_state =? state_ok) then true
  else (current_state =? state_warning) && ((new_state =? state_ok) || (new_state =? state_unknown)).

(** ++ on a float. *)
Definition float_incr (n : Z) : Z := if n <? 2 ^ 24 then n + 1 else n.

(** An impact that does not count, the indicator being in downtime. *)
Definition ignored (dt : downtime_behaviour) (impact : impact_info) : bool :=
  bool_decide (dt = dt_ignore_kpi) && ii_in_downtime impact.

Definition _apply_impact (source : state_source) (dt : downtime_behaviour) (a : accumulators) (impact : impact_info)
  : accumulators :=
  let hard := hard_impact impact in
  let soft := soft_impact impact in
  let ah := Dbl.add (_acknowledgement_hard a) (_acknowledgement hard) in
  let as_ := Dbl.add (_acknowledgement_soft a) (_acknowledgement soft) in
  let dh := Dbl.add (_downtime_hard a) (_downtime hard) in
  let ds := Dbl.add (_downtime_soft a) (_downtime soft) in
  if ignored dt impact then
    Accumulators (_computed_soft_state a) (_computed_hard_state a) (_num_soft_critical_childs a)
      (_num_hard_critical_childs a) ah as_ dh ds (_level_hard a) (_level_soft a)
  else
    let lh := Dbl.sub (_level_hard a) (_nominal hard) in
    let ls := Dbl.sub (_level_soft a) (_nominal soft) in
    let pick (better : Z -> Z -> bool) (current new : Z) := if better current new then new else current in
    match source with
    | state_source_best =>
      Accumulators (pick is_state_better (_computed_soft_state a) (_state soft))
        (pick is_state_better (_computed_hard_state a) (_state hard))
        (_num_soft_critical_childs a) (_num_hard_critical_childs a) ah as_ dh ds lh ls
    | state_source_worst =>
      Accumulators (pick is_state_worse (_computed_soft_state a) (_state soft))
        (pick is_state_worse (_computed_hard_state a) (_state hard))
        (_num_soft_critical_childs a) (_num_hard_critical_childs a) ah as_ dh ds lh ls
    | state_source_ratio_number | state_source_ratio_percent =>
      Accumulators (_computed_soft_state a) (_computed_hard_state a)
        (if _state soft =? state_critical then float_incr (_num_soft_critical_childs a)
         else _num_soft_critical_childs a)
        (if _state hard =? state_critical then float_incr (_num_hard_critical_childs a)
         else _num_hard_critical_childs a) ah as_ dh ds lh ls
    | state_source_impact =>
      Accumulators (_computed_soft_state a) (_computed_hard_state a) (_num_soft_critical_childs a)
        (_num_hard_critical_childs a) ah as_ dh ds lh ls
    end.

Definition apply_all (source : state_source) (dt : downtime_behaviour) (a : accumulators) (l : list (Z * impact_info))
  : accumulators := fold_left (fun a p => _apply_impact source dt a (snd p)) l a.

Definition _recompute_limit : Z := 100.

(** The states are not recomputed here. *)
Definition _recompute b : ba :=
  let a := _acc b in
  let a := Accumulators (_computed_soft_state a) (_computed_hard_state a) 0 0 (Dbl.of_Z 0) (Dbl.of_Z 0)
             (Dbl.of_Z 0) (Dbl.of_Z 0) (Dbl.of_Z 100) (Dbl.of_Z 100) in
  with_acc b (apply_all (_state_source b) (_dt_behaviour b) a (_impacts b)) 0.

Definition others (l : list (Z * impact_info)) (kpi_ptr : Z) : list (Z * impact_info) :=
  filter (fun p => fst p <> kpi_ptr) l.

(** Adjust values. *)
Definition withdraw (dt : downtime_behaviour) (a : accumulators) (impact : impact_info) : accumulators :=
  let hard := hard_impact impact in
  let soft := soft_impact impact in
  let ah := Dbl.sub (_acknowledgement_hard a) (_acknowledgement hard) in
  let as_ := Dbl.sub (_acknowledgement_soft a) (_acknowledgement soft) in
  let dh := Dbl.sub (_downtime_hard a) (_downtime hard) in
  let ds := Dbl.sub (_downtime_soft a) (_downtime soft) in
  let lh := if ignored dt impact then _level_hard a else Dbl.add (_level_hard a) (_nominal hard) in
  let ls := if ignored dt impact then _level_soft a else Dbl.add (_level_soft a) (_nominal soft) in
  Accumulators (_computed_soft_state a) (_computed_hard_state a) (_num_soft_critical_childs a)
    (_num_hard_critical_childs a) ah as_ dh ds lh ls.

Definition _unapply_impact b (kpi_ptr : Z) (impact : impact_info) : ba :=
  match _state_source b with
  | state_source_impact =>
    let b := with_acc b (_acc b) (_recompute_count b + 1) in
    let b := if _recompute_limit <=? _recompute_count b then _recompute b else b in
    with_acc b (withdraw (_dt_behaviour b) (_acc b) impact) (_recompute_count b)
  | source =>
    let a := _acc b in
    let reset cs ch ns nh :=
      Accumulators cs ch ns nh (_acknowledgement_hard a) (_acknowledgement_soft a) (_downtime_hard a)
        (_downtime_soft a) (_level_hard a) (_level_soft a) in
    let a :=
      match source with
      | state_source_best => reset state_critical state_critical (_num_soft_critical_childs a) (_num_hard_critical_childs a)
      | state_source_worst => reset state_ok state_ok (_num_soft_critical_childs a) (_num_hard_critical_childs a)
      | _ => reset (_computed_soft_state a) (_computed_hard_state a) 0 0
      end in
    with_acc b (apply_all source (_dt_behaviour b) a (others (_impacts b) kpi_ptr)) (_recompute_count b)
  end.

(** ** States *)

Definition every_kpi_in_dt (kpis_in_downtime : list bool) : bool :=
  match kpis_in_downtime with [] => false | l => forallb id l end.

Definition update_state (num_critical : spec_float) (level_crit level_warning : double) : Z :=
  if Flt.leb (Flt.of_double level_crit) num_critical then state_critical
  else if Flt.leb (Flt.of_double level_warning) num_critical then state_warning
  else state_ok.

Definition level_state b (level : double) : Z :=
  if negb (_valid b) then state_unknown
  else if Dbl.leb level (_level_critical b) then state_critical
  else if Dbl.leb level (_level_warning b) then state_warning
  else state_ok.

Definition ratio b (num_critical : Z) : spec_float :=
  Flt.mul (Flt.div (Flt.of_Z num_critical) (Flt.of_Z (Z.of_nat (length (_impacts b))))) (Flt.of_Z 100).

Definition get_state_soft b : Z :=
  match _state_source b with
  | state_source_impact => level_state b (_level_soft (_acc b))
  | state_source_best | state_source_worst => _computed_soft_state (_acc b)
  | state_source_ratio_number =>
    update_state (Flt.of_Z (_num_soft_critical_childs (_acc b))) (_level_critical b) (_level_warning b)
  | state_source_ratio_percent =>
    update_state (ratio b (_num_soft_critical_childs (_acc b))) (_level_critical b) (_level_warning b)
  end.

(** ** With the indicators *)

Section WithKpis.
Context {K : Type} `{!Kpi K}.
(** The objects the keys of [_impacts] point to, at the time of a call. *)
Implicit Types kpis : Z -> K.

Definition get_state_hard kpis b : Z :=
  match _state_source b with
  | state_source_impact => level_state b (_level_hard (_acc b))
  | state_source_best | state_source_worst =>
    if bool_decide (_dt_behaviour b = dt_ignore_kpi)
       && every_kpi_in_dt ((fun p => in_downtime (kpis (fst p))) <$> _impacts b) then state_ok
    else _computed_hard_state (_acc b)
  | state_source_ratio_number =>
    update_state (Flt.of_Z (_num_hard_critical_childs (_acc b))) (_level_critical b) (_level_warning b)
  | state_source_ratio_percent =>
    update_state (ratio b (_num_hard_critical_childs (_acc b))) (_level_critical b) (_level_warning b)
  end.

(** ** Visits *)

Definition _open_new_event b (service_hard_state : Z) : ba * list event :=
  let e := Ba_event (_id b) (if Dbl.ltb (_level_hard (_acc b)) (Dbl.of_Z 0) then Dbl.of_Z 0 else _level_hard (_acc b))
             (_in_downtime b) (_last_kpi_update b) (-1) service_hard_state in
  (with_event b (Some e) (_initial_events b) (_last_kpi_update b), [E_ba_event e]).

Definition close (e : ba_event) (t : Z) : ba_event :=
  Ba_event (be_ba_id e) (first_level e) (be_in_downtime e) (be_start_time e) t (be_status e).

Definition _commit_initial_events b : ba * list event :=
  (with_event b (_event b) [] (_last_kpi_update b), E_ba_event <$> _initial_events b).

(** The event part of a visit, and whether the state changed. *)
Definition visit_event (now : Z) b (hard_state : Z) : ba * list event * bool :=
  match _event b with
  | None =>
    let b := if is_null (_last_kpi_update b) then with_last_kpi_update b now else b in
    (_open_new_event b hard_state, false)
  | Some e =>
    if negb (eqb (_in_downtime b) (be_in_downtime e)) || negb (hard_state =? be_status e) then
      let '(b', out) := _open_new_event (with_event b None (_initial_events b) (_last_kpi_update b)) hard_state in
      (b', E_ba_event (close e (_last_kpi_update b)) :: out, true)
    else (b, [], false)
  end.

Definition event_time b : Z :=
  match _event b with Some e => be_start_time e | None => _last_kpi_update b end.

Definition status_of b (hard_state : Z) (state_changed : bool) : ba_status :=
  Ba_status (_id b) (_in_downtime b) (event_time b) (normalize (_acknowledgement_hard (_acc b)))
    (normalize (_downtime_hard (_acc b))) (normalize (_level_hard (_acc b))) hard_state state_changed.

(** operator<< of an int. *)
Definition int_text (z : Z) : cstring := if z <? 0 then str "-" ++ Dbl.dec (- z) else Dbl.dec z.

Definition virtual_output b : cstring :=
  str "BA : Business Activity " ++ Dbl.dec (_id b) ++ str " - current_level = "
  ++ int_text (int_of_double (normalize (_level_hard (_acc b)))) ++ str "%".
Definition virtual_perfdata b : cstring :=
  str "BA_Level=" ++ int_text (int_of_double (normalize (_level_hard (_acc b)))) ++ str "%;"
  ++ int_text (int_of_double (_level_warning b)) ++ str ";"
  ++ int_text (int_of_double (_level_critical b)) ++ str ";0;100".

Definition virtual_of (now : Z) b (hard_state : Z) : virtual_status :=
  Virtual_status (_host_id b) (_service_id b) hard_state hard_state (event_time b) (event_time b) (event_time b)
    now (virtual_output b) (virtual_perfdata b).

Definition visit (now : Z) kpis (visitor : bool) b : ba * list event :=
  if visitor then
    let '(b, initial) := _commit_initial_events b in
    let hard_state := get_state_hard kpis b in
    let '(b, out, changed) := visit_event now b hard_state in
    (b, initial ++ out ++ [E_ba_status (status_of b hard_state changed)]
        ++ (if _generate_virtual_status b then [E_service_status (virtual_of now b hard_state)] else []))
  else (b, []).

(** ** Inherited downtimes *)

Definition _compute_inherited_downtime kpis (visitor : bool) b : ba * list event :=
  if bool_decide (_dt_behaviour b = dt_inherit) then
    let every_kpi_in_downtime :=
      match _impacts b with
      | [] => false
      | l => forallb (fun p => ok_state (kpis (fst p)) || in_downtime (kpis (fst p))) l
      end in
    let ok := get_state_hard kpis b =? state_ok in
    match _inherited_downtime b with
    | None =>
      if negb ok && every_kpi_in_downtime then
        let d := Inherited_downtime (_id b) true in
        (with_downtime b true (Some d), if visitor then [E_inherited_downtime d] else [])
      else (b, [])
    | Some _ =>
      if ok || negb every_kpi_in_downtime then
        (with_downtime b (_in_downtime b) None,
         if visitor then [E_inherited_downtime (Inherited_downtime (_id b) false)] else [])
      else (b, [])
    end
  else (b, []).

(** ** Operations *)

Definition find_impact (l : list (Z * impact_info)) (kpi_ptr : Z) : option impact_info :=
  snd <$> List.find (fun p => fst p =? kpi_ptr) l.
Definition set_impact (l : list (Z * impact_info)) (kpi_ptr : Z) (impact : impact_info) : list (Z * impact_info) :=
  (fun p => if fst p =? kpi_ptr then (kpi_ptr, impact) else p) <$> l.

Definition update_time (now : Z) (k : K) b : ba :=
  let last_state_change := get_last_state_change now k in
  if negb (last_state_change =? -1) then with_last_kpi_update b (Z.max (_last_kpi_update b) last_state_change) else b.

Definition apply_new b (impact : impact_info) : ba :=
  with_acc b (_apply_impact (_state_source b) (_dt_behaviour b) (_acc b) impact) (_recompute_count b).

(** The entry is in the map before the indicator is asked for its impact. *)
Definition add_impact (now : Z) kpis b (impact : Z) : ba * outcome unit :=
  match find_impact (_impacts b) impact with
  | Some _ => (b, Returns tt)
  | None =>
    let k := kpis impact in
    let insert ii := with_impacts b (_impacts b ++ [(impact, ii)]) in
    match impact_hard k with
    | Returns hard =>
      match impact_soft k with
      | Returns soft =>
        let ii := Impact_info hard soft (in_downtime k) in
        (update_time now k (apply_new (insert ii) ii), Returns tt)
      | Throws e => (insert (Impact_info hard no_impact false), Throws e)
      | Diverges => (b, Diverges)
      end
    | Throws e => (insert (Impact_info no_impact no_impact false), Throws e)
    | Diverges => (b, Diverges)
    end
  end.

Definition remove_impact b (impact : Z) : ba :=
  match find_impact (_impacts b) impact with
  | Some ii =>
    let b := _unapply_impact b impact ii in
    with_impacts b (others (_impacts b) impact)
  | None => b
  end.

Definition child_has_update (now : Z) kpis (visitor : bool) b (child : Z) : ba * list event * outcome bool :=
  match find_impact (_impacts b) child with
  | None => (b, [], Returns true)
  | Some old =>
    let k := kpis child in
    match impact_hard k, impact_soft k with
    | Returns new_hard_impact, Returns new_soft_impact =>
      let kpi_in_downtime := in_downtime k in
      if impact_eqb (hard_impact old) new_hard_impact && impact_eqb (soft_impact old) new_soft_impact
         && eqb (ii_in_downtime old) kpi_in_downtime then (b, [], Returns false)
      else
        let new := Impact_info new_hard_impact new_soft_impact kpi_in_downtime in
        let b := update_time now k b in
        let b := _unapply_impact b child old in
        let b := apply_new (with_impacts b (set_impact (_impacts b) child new)) new in
        let '(b, out1) := _compute_inherited_downtime kpis visitor b in
        let '(b, out2) := visit now kpis visitor b in
        (b, out1 ++ out2, Returns true)
    | Throws e, _ | Returns _, Throws e => (b, [], Throws e)
    | Diverges, _ | Returns _, Diverges => (b, [], Diverges)
    end
  end.

(** neb::downtime, and whether the change is propagated to the parents. *)
Record downtime : Type := Downtime {
  dt_host_id : Z; dt_service_id : Z; was_started : bool; actual_end_time : Z
}.

Definition service_update (now : Z) kpis (visitor : bool) b (dt : downtime) : ba * list event * bool :=
  if (dt_host_id dt =? _host_id b) && (dt_service_id dt =? _service_id b) then
    let in_downtime := was_started dt && ((actual_end_time dt =? -1) || (actual_end_time dt =? 0)) in
    if negb (eqb (_in_downtime b) in_downtime) then
      (visit now kpis visitor (with_downtime b in_downtime (_inherited_downtime b)), true)
    else (b, [], false)
  else (b, [], false).

Definition set_initial_event b (e : ba_event) : ba :=
  match _event b with
  | Some _ => b
  | None =>
    with_event (with_downtime b (be_in_downtime e) (_inherited_downtime b)) (Some e) (_initial_events b ++ [e])
      (be_start_time e)
  end.

End WithKpis.

(** ** What the present impacts give *)

(** Impacts of services: states from OK to UNKNOWN and, when the state comes from
    the levels, whole levels, whose sums are exact. *)
Definition whole (d : double) : bool := bool_decide (d = Dbl.canon (trunc d)) && (Z.abs (trunc d) <=? 2 ^ 20).
Definition whole_levels (v : impact_values) : bool :=
  whole (_nominal v) && whole (_acknowledgement v) && whole (_downtime v).
Definition valid_values (source : state_source) (v : impact_values) : bool :=
  (if bool_decide (source = state_source_impact) then whole_levels v else true) && (0 <=? _state v) && (_state v <=? 3).
Definition valid_impact (source : state_source) (i : impact_info) : bool :=
  valid_values source (hard_impact i) && valid_values source (soft_impact i).

Definition total (f : impact_info -> Z) (l : list (Z * impact_info)) : Z :=
  foldr (fun p n => f (snd p) + n) 0 l.

Definition counted (dt : downtime_behaviour) (f : impact_info -> Z) (i : impact_info) : Z :=
  if ignored dt i then 0 else f i.

Definition critical (v : impact_values) : Z := if _state v =? state_critical then 1 else 0.

(** Severity: OK, UNKNOWN, WARNING, CRITICAL. *)
Definition severity (s : Z) : Z := if s =? 3 then 1 else if s =? 1 then 2 else if s =? 2 then 3 else 0.

(** The states that count. *)
Definition states (dt : downtime_behaviour) (f : impact_info -> Z) (l : list (Z * impact_info)) : list Z :=
  f <$> filter (fun i => ignored dt i = false) (snd <$> l).

(** The most and the least severe of a list of states and a default one. *)
Definition is_worst (s : Z) (l : list Z) : Prop :=
  (s = state_ok \/ s ∈ l) /\ forall t, t ∈ l -> severity t <= severity s.
Definition is_best (s : Z) (l : list Z) : Prop :=
  (s = state_critical \/ s ∈ l) /\ forall t, t ∈ l -> severity s <= severity t.

(** The levels, from the totals of the impacts. *)
Definition levels_at (dt : downtime_behaviour) (a : accumulators) (T : (impact_info -> Z) -> Z) : Prop :=
  _acknowledgement_hard a = Dbl.canon (T (fun i => trunc (_acknowledgement (hard_impact i))))
  /\ _acknowledgement_soft a = Dbl.canon (T (fun i => trunc (_acknowledgement (soft_impact i))))
  /\ _downtime_hard a = Dbl.canon (T (fun i => trunc (_downtime (hard_impact i))))
  /\ _downtime_soft a = Dbl.canon (T (fun i => trunc (_downtime (soft_impact i))))
  /\ _level_hard a = Dbl.canon (100 - T (counted dt (fun i => trunc (_nominal (hard_impact i)))))
  /\ _level_soft a = Dbl.canon (100 - T (counted dt (fun i => trunc (_nominal (soft_impact i))))).

Definition levels_ok (dt : downtime_behaviour) (a : accumulators) (l : list (Z * impact_info)) : Prop :=
  levels_at dt a (fun f => total f l).

Definition hard_of (i : impact_info) : Z := _state (hard_impact i).
Definition soft_of (i : impact_info) : Z := _state (soft_impact i).

Definition aggregates_ok (source : state_source) (dt : downtime_behaviour) (a : accumulators)
  (l : list (Z * impact_info)) : Prop :=
  match source with
  | state_source_impact => levels_ok dt a l
  | state_source_best =>
    is_best (_computed_hard_state a) (states dt hard_of l) /\ is_best (_computed_soft_state a) (states dt soft_of l)
  | state_source_worst =>
    is_worst (_computed_hard_state a) (states dt hard_of l) /\ is_worst (_computed_soft_state a) (states dt soft_of l)
  | state_source_ratio_number | state_source_ratio_percent =>
    _num_hard_critical_childs a = total (counted dt (fun i => critical (hard_impact i))) l
    /\ _num_soft_critical_childs a = total (counted dt (fun i => critical (soft_impact i))) l
  end.

(** A map of valid impacts. *)
Record impacts_ok (source : state_source) (l : list (Z * impact_info)) : Prop := {
  keys : NoDup (fst <$> l);
  valid : forall k i, (k, i) ∈ l -> valid_impact source i = true;
  few : Z.of_nat (length l) <= 2 ^ 20
}.

(** ** Lists of impacts *)

Lemma total_app f l1 l2 : total f (l1 ++ l2) = total f l1 + total f l2.
Proof.
  induction l1 as [|p l1 IH]; [done|].
  change (f p.2 + total f (l1 ++ l2) = f p.2 + total f l1 + total f l2). lia.
Qed.

Lemma find_impact_elem l k i : find_impact l k = Some i -> (k, i) ∈ l.
Proof.
  unfold find_impact. intros H. apply fmap_Some in H as ([k' i'] & H & ->).
  apply List.find_some in H as [H He]. apply Z.eqb_eq in He. cbn [fst] in He. subst k'. by apply list_elem_of_In.
Qed.

Lemma find_impact_none l k i : find_impact l k = None -> (k, i) ∉ l.
Proof.
  unfold find_impact. intros H He. destruct (List.find _ l) eqn:E; [done|].
  apply list_elem_of_In in He. pose proof (List.find_none _ _ E _ He) as F.
  apply Z.eqb_neq in F. by apply F.
Qed.

Lemma others_cons l k i k' : others ((k', i) :: l) k = if decide (k' = k) then others l k else (k', i) :: others l k.
Proof. unfold others. rewrite filter_cons. cbn [fst]. destruct (decide (k' = k)); by case_decide. Qed.

Lemma others_absent l k : (forall i, (k, i) ∉ l) -> others l k = l.
Proof.
  induction l as [|[k' i] l IH]; intros H; [done|]. rewrite others_cons.
  destruct (decide (k' = k)) as [->|]; [by destruct (H i); left|].
  rewrite IH; [done|]. intros j Hj. apply (H j). by right.
Qed.

Lemma set_absent l k new : (forall i, (k, i) ∉ l) -> set_impact l k new = l.
Proof.
  induction l as [|[k' i] l IH]; intros H; [done|]. unfold set_impact in *. rewrite fmap_cons. cbn [fst].
  destruct (Z.eqb_spec k' k) as [->|]; [by destruct (H i); left|].
  f_equal. apply IH. intros j Hj. apply (H j). by right.
Qed.

Lemma set_impact_cons k i l k' new :
  set_impact ((k, i) :: l) k' new = (if k =? k' then (k', new) else (k, i)) :: set_impact l k' new.
Proof. done. Qed.

Lemma key_absent (l : list (Z * impact_info)) k : k ∉ l.*1 -> forall i, (k, i) ∉ l.
Proof. intros H i Hi. apply H. apply list_elem_of_fmap. by exists (k, i). Qed.

(** Around one key: what is there, what remains without it, with another value. *)
Lemma split_impacts l k old : NoDup l.*1 -> (k, old) ∈ l ->
  exists l1 l2, l = l1 ++ (k, old) :: l2 /\ others l k = l1 ++ l2
    /\ forall new, set_impact l k new = l1 ++ (k, new) :: l2.
Proof.
  intros Hn. induction l as [|[k' i] l IH]; [by intros H%not_elem_of_nil|].
  rewrite fmap_cons in Hn. apply NoDup_cons in Hn as [Hk Hn]. cbn [fst] in Hk.
  intros [[= -> ->]|H]%elem_of_cons.
  - exists [], l. split; [done|]. split.
    + rewrite others_cons, decide_True by done. by rewrite others_absent by by apply key_absent.
    + intros new. rewrite set_impact_cons, Z.eqb_refl. by rewrite set_absent by by apply key_absent.
  - destruct (IH Hn H) as (l1 & l2 & -> & Ho & Hs).
    assert (k' <> k).
    { intros ->. apply Hk. rewrite fmap_app, fmap_cons. apply elem_of_app. right. left. }
    exists ((k', i) :: l1), l2. split; [done|]. split.
    + rewrite others_cons, decide_False by done. by rewrite Ho.
    + intros new. rewrite set_impact_cons, (proj2 (Z.eqb_neq _ _)) by done. by rewrite Hs.
Qed.

Lemma total_split f l1 k i l2 : total f (l1 ++ (k, i) :: l2) = total f (l1 ++ l2) + f i.
Proof.
  rewrite !total_app. change (total f ((k, i) :: l2)) with (f i + total f l2). lia.
Qed.

Lemma states_split dt f l1 k i l2 s :
  s ∈ states dt f (l1 ++ (k, i) :: l2) <-> s ∈ states dt f (l1 ++ l2) \/ (ignored dt i = false /\ s = f i).
Proof.
  unfold states. rewrite !fmap_app, fmap_cons, !filter_app, filter_cons, !fmap_app, !elem_of_app. cbn [snd].
  destruct (decide (ignored dt i = false)) as [E|E].
  - rewrite fmap_cons, elem_of_cons. tauto.
  - tauto.
Qed.

(** ** Levels *)

Lemma whole_canon d : whole d = true -> d = Dbl.canon (trunc d) /\ Z.abs (trunc d) <= 2 ^ 20.
Proof. unfold whole. intros H. apply andb_true_iff in H as [H1 H2]. apply bool_decide_eq_true in H1. split; [done|lia]. Qed.

Lemma valid_values_spec v : valid_values state_source_impact v = true ->
  whole (_nominal v) = true /\ whole (_acknowledgement v) = true /\ whole (_downtime v) = true /\ 0 <= _state v <= 3.
Proof. unfold valid_values, whole_levels. rewrite bool_decide_eq_true_2 by done. intros H. zbool. repeat split; try done; lia. Qed.

Lemma valid_values_state source v : valid_values source v = true -> 0 <= _state v <= 3.
Proof. unfold valid_values. intros H. zbool. lia. Qed.

(** The functions whose totals the levels are. *)
Definition parts (dt : downtime_behaviour) : list (impact_info -> Z) :=
  [fun i => trunc (_acknowledgement (hard_impact i)); fun i => trunc (_acknowledgement (soft_impact i));
   fun i => trunc (_downtime (hard_impact i)); fun i => trunc (_downtime (soft_impact i));
   counted dt (fun i => trunc (_nominal (hard_impact i))); counted dt (fun i => trunc (_nominal (soft_impact i)))].

Definition within (dt : downtime_behaviour) (T : (impact_info -> Z) -> Z) (m : Z) : Prop :=
  Forall (fun f => Z.abs (T f) <= m) (parts dt).

Lemma parts_small dt i : valid_impact state_source_impact i = true -> Forall (fun f => Z.abs (f i) <= 2 ^ 20) (parts dt).
Proof.
  unfold valid_impact. intros H. apply andb_true_iff in H as [Hh Hs].
  apply valid_values_spec in Hh as (H1 & H2 & H3 & _). apply valid_values_spec in Hs as (S1 & S2 & S3 & _).
  repeat match goal with H : whole _ = true |- _ => apply whole_canon in H as [_ H] end.
  repeat constructor; try done; unfold counted; case_if; try done; lia.
Qed.

(** Exact sums and differences of levels. *)
Lemma add_whole x d : Z.abs x <= 2 ^ 51 -> whole d = true -> Dbl.add (Dbl.canon x) d = Dbl.canon (x + trunc d).
Proof. intros Hx Hd. apply whole_canon in Hd as [Hd Hb]. rewrite Hd at 1. apply Dbl.add_canon; lia. Qed.
Lemma sub_whole x d : Z.abs x <= 2 ^ 51 -> whole d = true -> Dbl.sub (Dbl.canon x) d = Dbl.canon (x - trunc d).
Proof. intros Hx Hd. apply whole_canon in Hd as [Hd Hb]. rewrite Hd at 1. apply Dbl.sub_canon; lia. Qed.

(** The levels do not depend on the source of the state. *)
Lemma apply_impact_levels source dt a i : exists cs ch ns nh,
  _apply_impact source dt a i
  = Accumulators cs ch ns nh
      (Dbl.add (_acknowledgement_hard a) (_acknowledgement (hard_impact i)))
      (Dbl.add (_acknowledgement_soft a) (_acknowledgement (soft_impact i)))
      (Dbl.add (_downtime_hard a) (_downtime (hard_impact i)))
      (Dbl.add (_downtime_soft a) (_downtime (soft_impact i)))
      (if ignored dt i then _level_hard a else Dbl.sub (_level_hard a) (_nominal (hard_impact i)))
      (if ignored dt i then _level_soft a else Dbl.sub (_level_soft a) (_nominal (soft_impact i))).
Proof. unfold _apply_impact. destruct (ignored dt i); [|destruct source]; repeat eexists. Qed.

Lemma apply_levels source dt a i T :
  levels_at dt a T -> within dt T (2 ^ 50) -> valid_impact state_source_impact i = true ->
  levels_at dt (_apply_impact source dt a i) (fun f => T f + f i).
Proof.
  intros (A1 & A2 & A3 & A4 & A5 & A6) Hw Hv.
  unfold within, parts in Hw. rewrite !Forall_cons in Hw. destruct Hw as (B1 & B2 & B3 & B4 & B5 & B6 & _).
  unfold valid_impact in Hv. apply andb_true_iff in Hv as [Hh Hs].
  apply valid_values_spec in Hh as (H1 & H2 & H3 & _). apply valid_values_spec in Hs as (S1 & S2 & S3 & _).
  destruct (apply_impact_levels source dt a i) as (cs & ch & ns & nh & ->).
  unfold levels_at, counted in *. destruct (ignored dt i);
    cbn [_acknowledgement_hard _acknowledgement_soft _downtime_hard _downtime_soft _level_hard _level_soft];
    rewrite A1, A2, A3, A4, A5, A6, !add_whole, ?sub_whole by (assumption || lia);
    repeat apply conj; f_equal; lia.
Qed.

Lemma withdraw_levels dt a i T :
  levels_at dt a T -> within dt T (2 ^ 50) -> valid_impact state_source_impact i = true ->
  levels_at dt (withdraw dt a i) (fun f => T f - f i).
Proof.
  intros (A1 & A2 & A3 & A4 & A5 & A6) Hw Hv.
  unfold within, parts in Hw. rewrite !Forall_cons in Hw. destruct Hw as (B1 & B2 & B3 & B4 & B5 & B6 & _).
  unfold valid_impact in Hv. apply andb_true_iff in Hv as [Hh Hs].
  apply valid_values_spec in Hh as (H1 & H2 & H3 & _). apply valid_values_spec in Hs as (S1 & S2 & S3 & _).
  unfold levels_at, withdraw, counted in *.
  destruct (ignored dt i);
    cbn [_acknowledgement_hard _acknowledgement_soft _downtime_hard _downtime_soft _level_hard _level_soft];
    rewrite A1, A2, A3, A4, A5, A6, !sub_whole, ?add_whole by (assumption || lia);
    repeat apply conj; f_equal; lia.
Qed.

Lemma total_small f l m : (forall k i, (k, i) ∈ l -> Z.abs (f i) <= m) -> 0 <= m ->
  Z.abs (total f l) <= m * Z.of_nat (length l).
Proof.
  intros H Hm. induction l as [|[k i] l IH]; [cbn; lia|].
  change (total f ((k, i) :: l)) with (f i + total f l). cbn [length].
  pose proof (H k i ltac:(by left)). specialize (IH ltac:(intros k' i' Hi; apply (H k'); by right)). lia.
Qed.

Lemma within_total dt l : (forall k i, (k, i) ∈ l -> valid_impact state_source_impact i = true) ->
  within dt (fun f => total f l) (2 ^ 20 * Z.of_nat (length l)).
Proof.
  intros H. unfold within. rewrite Forall_forall. intros f Hf. apply total_small; [|lia].
  intros k i Hi. pose proof (parts_small dt i (H k i Hi)) as F. rewrite Forall_forall in F. by apply F.
Qed.

Lemma levels_at_ext dt a T U : (forall f, T f = U f) -> levels_at dt a T -> levels_at dt a U.
Proof. intros H. unfold levels_at. by rewrite !H. Qed.

Lemma fresh_levels dt a : levels_at dt
  (Accumulators (_computed_soft_state a) (_computed_hard_state a) 0 0 (Dbl.of_Z 0) (Dbl.of_Z 0)
     (Dbl.of_Z 0) (Dbl.of_Z 0) (Dbl.of_Z 100) (Dbl.of_Z 100)) (fun f => total f []).
Proof. repeat split. Qed.

(** ** One more impact *)

Definition adds (l : list (Z * impact_info)) (i : impact_info) (l' : list (Z * impact_info)) : Prop :=
  (forall f, total f l' = total f l + f i)
  /\ (forall dt f s, s ∈ states dt f l' <-> s ∈ states dt f l \/ (ignored dt i = false /\ s = f i))
  /\ length l' = S (length l).

Lemma adds_middle l1 k i l2 : adds (l1 ++ l2) i (l1 ++ (k, i) :: l2).
Proof.
  split; [intros f; by rewrite total_split|]. split; [intros dt f s; by rewrite states_split|].
  rewrite !length_app. cbn [length]. lia.
Qed.

Lemma adds_end l k i : adds l i (l ++ [(k, i)]).
Proof. pose proof (adds_middle l k i []) as H. by rewrite app_nil_r in H. Qed.

Lemma severity_pick (cur new : Z) : 0 <= cur <= 3 -> 0 <= new <= 3 ->
  is_state_worse cur new = (severity cur <? severity new)
  /\ is_state_better cur new = (severity new <? severity cur).
Proof.
  intros Hc Hn. assert (Hc' : cur = 0 \/ cur = 1 \/ cur = 2 \/ cur = 3) by lia.
  assert (Hn' : new = 0 \/ new = 1 \/ new = 2 \/ new = 3) by lia.
  by destruct Hc' as [->|[->|[->| ->]]], Hn' as [->|[->|[->| ->]]].
Qed.

Lemma is_worst_range s l : is_worst s l -> (forall t, t ∈ l -> 0 <= t <= 3) -> 0 <= s <= 3.
Proof. intros [[->|H] _] Hl; [done|by apply Hl]. Qed.
Lemma is_best_range s l : is_best s l -> (forall t, t ∈ l -> 0 <= t <= 3) -> 0 <= s <= 3.
Proof. intros [[->|H] _] Hl; [done|by apply Hl]. Qed.

Lemma worst_one cur new l l' : is_worst cur l -> (forall t, t ∈ l -> 0 <= t <= 3) -> 0 <= new <= 3 ->
  (forall s, s ∈ l' <-> s ∈ l \/ s = new) -> is_worst (if is_state_worse cur new then new else cur) l'.
Proof.
  intros H Hl Hn Hl'. pose proof (is_worst_range _ _ H Hl) as Hc. rewrite (proj1 (severity_pick cur new Hc Hn)).
  destruct H as [H1 H2]. split.
  - case_if; [right; apply Hl'; by right|]. destruct H1; [by left|right; apply Hl'; by left].
  - intros t Ht. apply Hl' in Ht as [Ht| ->]; [apply H2 in Ht|]; case_if; lia.
Qed.

Lemma best_one cur new l l' : is_best cur l -> (forall t, t ∈ l -> 0 <= t <= 3) -> 0 <= new <= 3 ->
  (forall s, s ∈ l' <-> s ∈ l \/ s = new) -> is_best (if is_state_better cur new then new else cur) l'.
Proof.
  intros H Hl Hn Hl'. pose proof (is_best_range _ _ H Hl) as Hc. rewrite (proj2 (severity_pick cur new Hc Hn)).
  destruct H as [H1 H2]. split.
  - case_if; [right; apply Hl'; by right|]. destruct H1; [by left|right; apply Hl'; by left].
  - intros t Ht. apply Hl' in Ht as [Ht| ->]; [apply H2 in Ht|]; case_if; lia.
Qed.

Lemma same_worst s l l' : is_worst s l -> (forall t, t ∈ l' <-> t ∈ l) -> is_worst s l'.
Proof. unfold is_worst. intros H Hl. setoid_rewrite Hl. done. Qed.
Lemma same_best s l l' : is_best s l -> (forall t, t ∈ l' <-> t ∈ l) -> is_best s l'.
Proof. unfold is_best. intros H Hl. setoid_rewrite Hl. done. Qed.

Lemma valid_state source i : valid_impact source i = true -> 0 <= hard_of i <= 3 /\ 0 <= soft_of i <= 3.
Proof. unfold valid_impact. intros H. apply andb_true_iff in H as [Hh Hs]. split; by eapply valid_values_state. Qed.

Lemma states_range source dt l : (forall k i, (k, i) ∈ l -> valid_impact source i = true) ->
  (forall t, t ∈ states dt hard_of l -> 0 <= t <= 3) /\ (forall t, t ∈ states dt soft_of l -> 0 <= t <= 3).
Proof.
  intros H. unfold states. split; intros t Ht; apply list_elem_of_fmap in Ht as (i & -> & Hi);
    apply list_elem_of_filter in Hi as [_ Hi]; apply list_elem_of_fmap in Hi as ([k i'] & -> & Hi);
    by apply H, valid_state in Hi as [??].
Qed.

Lemma count_range dt f l : (forall i, 0 <= f i <= 1) -> 0 <= total (counted dt f) l <= Z.of_nat (length l).
Proof.
  intros Hf. induction l as [|[k i] l IH]; [cbn; lia|].
  change (total (counted dt f) ((k, i) :: l)) with (counted dt f i + total (counted dt f) l).
  cbn [length]. unfold counted at 1 3. pose proof (Hf i). destruct (ignored dt i); lia.
Qed.

Lemma critical_range v : 0 <= critical v <= 1.
Proof. unfold critical. case_if; lia. Qed.

Lemma count_one (n : Z) v : n < 2 ^ 24 -> (if _state v =? state_critical then float_incr n else n) = n + critical v.
Proof. intros H. unfold critical, float_incr. case_if; [|lia]. rewrite (proj2 (Z.ltb_lt _ _)) by done. lia. Qed.

Lemma apply_aggregates source dt a i l l' :
  aggregates_ok source dt a l -> (forall k i, (k, i) ∈ l -> valid_impact source i = true) ->
  Z.of_nat (length l) <= 2 ^ 20 -> valid_impact source i = true -> adds l i l' ->
  aggregates_ok source dt (_apply_impact source dt a i) l'.
Proof.
  intros Ha Hv Hl Hi (Ht & Hs & _). pose proof (valid_state source i Hi) as [Vh Vs].
  pose proof (states_range source dt l Hv) as [Rh Rs]. unfold aggregates_ok in *.
  assert (Hnum : source = state_source_ratio_number \/ source = state_source_ratio_percent ->
    _num_hard_critical_childs a = total (counted dt (fun i => critical (hard_impact i))) l
    /\ _num_soft_critical_childs a = total (counted dt (fun i => critical (soft_impact i))) l ->
    _num_hard_critical_childs (_apply_impact source dt a i) = total (counted dt (fun i => critical (hard_impact i))) l'
    /\ _num_soft_critical_childs (_apply_impact source dt a i) = total (counted dt (fun i => critical (soft_impact i))) l').
  { intros Hsrc [H1 H2]. rewrite !Ht. unfold counted at 2 4.
    pose proof (count_range dt (fun i => critical (hard_impact i)) l ltac:(intros; apply critical_range)).
    pose proof (count_range dt (fun i => critical (soft_impact i)) l ltac:(intros; apply critical_range)).
    unfold _apply_impact. destruct (ignored dt i).
    - cbn [_num_hard_critical_childs _num_soft_critical_childs]. lia.
    - destruct Hsrc as [-> | ->]; cbn [_num_hard_critical_childs _num_soft_critical_childs];
        rewrite H1, H2, !count_one by lia; done. }
  destruct source.
  - apply (levels_at_ext _ _ (fun f => total f l + f i)); [done|]. apply apply_levels; [done| |done].
    pose proof (within_total dt l Hv) as Hw. unfold within in *. eapply Forall_impl; [exact Hw|]. cbn beta. lia.
  - destruct Ha as [H1 H2]. unfold _apply_impact. destruct (ignored dt i) eqn:Ei.
    + split; [eapply same_best; [exact H1|]|eapply same_best; [exact H2|]]; intros t; rewrite Hs, Ei; intuition congruence.
    + cbn [_computed_hard_state _computed_soft_state].
      split; (eapply best_one; [eassumption..|]); intros t; rewrite Hs, Ei; intuition congruence.
  - destruct Ha as [H1 H2]. unfold _apply_impact. destruct (ignored dt i) eqn:Ei.
    + split; [eapply same_worst; [exact H1|]|eapply same_worst; [exact H2|]]; intros t; rewrite Hs, Ei; intuition congruence.
    + cbn [_computed_hard_state _computed_soft_state].
      split; (eapply worst_one; [eassumption..|]); intros t; rewrite Hs, Ei; intuition congruence.
  - by apply Hnum; [right|].
  - by apply Hnum; [left|].
Qed.

Lemma apply_all_aggregates source dt a l :
  aggregates_ok source dt a [] -> (forall k i, (k, i) ∈ l -> valid_impact source i = true) ->
  Z.of_nat (length l) <= 2 ^ 20 -> aggregates_ok source dt (apply_all source dt a l) l.
Proof.
  intros Ha. induction l as [|[k i] l IH] using rev_ind; intros Hv Hl; [done|].
  rewrite length_app in Hl. cbn [length] in Hl.
  unfold apply_all in *. rewrite fold_left_app. cbn [fold_left snd].
  eapply apply_aggregates; [apply IH| | | |apply adds_end].
  - intros k' i' H. apply (Hv k'). apply elem_of_app. by left.
  - lia.
  - intros k' i' H. apply (Hv k'). apply elem_of_app. by left.
  - lia.
  - apply (Hv k). apply elem_of_app. right. left.
Qed.

Lemma others_ok source l k : impacts_ok source l -> impacts_ok source (others l k).
Proof.
  intros [Hk Hv Hf]. destruct (list_find (fun p => fst p = k) l) as [[n [k' i]]|] eqn:E.
  - apply list_find_Some in E as (E & Hk' & _). cbn in Hk'. subst k'. apply list_elem_of_lookup_2 in E.
    destruct (split_impacts l k i Hk E) as (l1 & l2 & -> & -> & _). split.
    + rewrite fmap_app in *. rewrite fmap_cons in Hk. apply NoDup_app in Hk as (H1 & H2 & H3).
      apply NoDup_cons in H3 as [_ H3]. apply NoDup_app. split; [done|]. split; [|done].
      intros x Hx Hx'. apply (H2 x Hx). by right.
    + intros k' i' H. apply (Hv k'). apply elem_of_app in H as [H|H]; apply elem_of_app; [by left|right; by right].
    + rewrite !length_app in *. cbn [length] in Hf. lia.
  - apply list_find_None in E. rewrite others_absent; [done|]. intros i Hi.
    rewrite Forall_forall in E. by apply (E _ Hi).
Qed.

Lemma with_acc_fields b a r :
  _impacts (with_acc b a r) = _impacts b /\ _state_source (with_acc b a r) = _state_source b
  /\ _dt_behaviour (with_acc b a r) = _dt_behaviour b.
Proof. done. Qed.

Lemma recompute_levels b : impacts_ok (_state_source b) (_impacts b) -> levels_ok (_dt_behaviour b) (_acc (_recompute b)) (_impacts b)
  \/ _state_source b <> state_source_impact.
Proof.
  intros [Hk Hv Hf]. destruct (decide (_state_source b = state_source_impact)) as [E|E]; [left|by right].
  rewrite E in Hv. unfold _recompute. cbn [_acc with_acc]. rewrite E.
  apply (apply_all_aggregates state_source_impact); [apply fresh_levels|done|done].
Qed.

(** Withdrawing an impact, in all modes: what is kept is what the others give. *)
Lemma unapply_aggregates b k old :
  impacts_ok (_state_source b) (_impacts b) -> (k, old) ∈ _impacts b ->
  (_state_source b = state_source_impact -> levels_ok (_dt_behaviour b) (_acc b) (_impacts b)) ->
  exists a r, _unapply_impact b k old = with_acc b a r
    /\ aggregates_ok (_state_source b) (_dt_behaviour b) a (others (_impacts b) k).
Proof.
  intros Hi Hk Hl. pose proof (others_ok _ _ k Hi) as Ho.
  unfold _unapply_impact. destruct (_state_source b) eqn:Es.
  - specialize (Hl eq_refl). set (b1 := with_acc b (_acc b) (_recompute_count b + 1)).
    assert (exists a r, (if _recompute_limit <=? _recompute_count b1 then _recompute b1 else b1) = with_acc b a r
              /\ levels_ok (_dt_behaviour b) a (_impacts b)) as (a & r & -> & Ha).
    { case_if; [|by eexists _, _]. assert (Hi1 : impacts_ok (_state_source b1) (_impacts b1)) by (unfold b1; cbn [with_acc _state_source _impacts]; by rewrite Es).
      destruct (recompute_levels b1 Hi1) as [H|H]; [|by destruct H].
      unfold _recompute in *. eexists _, _. split; [reflexivity|exact H]. }
    destruct (split_impacts (_impacts b) k old (keys _ _ Hi) Hk) as (l1 & l2 & El & -> & _).
    eexists _, _. split; [reflexivity|]. cbn [aggregates_ok _acc with_acc _dt_behaviour].
    apply (levels_at_ext _ _ (fun f => total f (_impacts b) - f old)).
    { intros f. rewrite El, total_split. lia. }
    apply withdraw_levels; [done| |by apply (valid _ _ Hi k)].
    pose proof (within_total (_dt_behaviour b) (_impacts b) (valid _ _ Hi)) as Hw. pose proof (few _ _ Hi).
    unfold within in *. eapply Forall_impl; [exact Hw|]. cbn beta. lia.
  - eexists _, _. split; [reflexivity|].
    apply apply_all_aggregates; [|apply (valid _ _ Ho)|apply (few _ _ Ho)].
    repeat split; try (by left); intros t Ht; by apply not_elem_of_nil in Ht.
  - eexists _, _. split; [reflexivity|].
    apply apply_all_aggregates; [|apply (valid _ _ Ho)|apply (few _ _ Ho)].
    repeat split; try (by left); intros t Ht; by apply not_elem_of_nil in Ht.
  - eexists _, _. split; [reflexivity|].
    apply apply_all_aggregates; [done|apply (valid _ _ Ho)|apply (few _ _ Ho)].
  - eexists _, _. split; [reflexivity|].
    apply apply_all_aggregates; [done|apply (valid _ _ Ho)|apply (few _ _ Ho)].
Qed.

(** ** Operations *)

Section Operations.
Context {K : Type} `{!Kpi K}.
Implicit Types kpis : Z -> K.

Definition ba_ok b : Prop :=
  impacts_ok (_state_source b) (_impacts b) /\ aggregates_ok (_state_source b) (_dt_behaviour b) (_acc b) (_impacts b).

Lemma compute_inherited_downtime_fields kpis v b b' out : _compute_inherited_downtime kpis v b = (b', out) ->
  _impacts b' = _impacts b /\ _state_source b' = _state_source b /\ _dt_behaviour b' = _dt_behaviour b
  /\ _acc b' = _acc b.
Proof.
  unfold _compute_inherited_downtime. case_if; [|by intros [= <- <-]].
  destruct (_inherited_downtime b); case_if; by intros [= <- <-].
Qed.

Lemma visit_fields now kpis v b b' out : visit now kpis v b = (b', out) ->
  _impacts b' = _impacts b /\ _state_source b' = _state_source b /\ _dt_behaviour b' = _dt_behaviour b
  /\ _acc b' = _acc b.
Proof.
  unfold visit, _commit_initial_events, visit_event, _open_new_event. destruct v; [|by intros [= <- <-]].
  cbn [_event with_event]. destruct (_event b) as [e|]; case_if; by intros [= <- <-].
Qed.

Lemma update_time_fields now k b :
  _impacts (update_time now k b) = _impacts b /\ _state_source (update_time now k b) = _state_source b
  /\ _dt_behaviour (update_time now k b) = _dt_behaviour b /\ _acc (update_time now k b) = _acc b.
Proof. unfold update_time. by case_if. Qed.

Lemma set_impact_ok source l k old new : impacts_ok source l -> (k, old) ∈ l -> valid_impact source new = true ->
  impacts_ok source (set_impact l k new) /\ adds (others l k) new (set_impact l k new) /\ (k, new) ∈ set_impact l k new.
Proof.
  intros Hi Hk Hn. destruct (split_impacts l k old (keys _ _ Hi) Hk) as (l1 & l2 & -> & -> & ->).
  destruct Hi as [H1 H2 H3]. split; [split|split].
  - by rewrite fmap_app, fmap_cons in *.
  - intros k' i' H. apply elem_of_app in H as [H|[[= -> ->]|H]%elem_of_cons]; [|done|];
      apply (H2 k'); apply elem_of_app; [by left|right; by right].
  - by rewrite length_app in *.
  - apply adds_middle.
  - apply elem_of_app. right. left.
Qed.

Lemma child_has_update_ok now kpis visitor b child old h s :
  impacts_ok (_state_source b) (_impacts b) -> find_impact (_impacts b) child = Some old ->
  (_state_source b = state_source_impact -> ba_ok b) ->
  impact_hard (kpis child) = Returns h -> impact_soft (kpis child) = Returns s ->
  valid_values (_state_source b) h = true -> valid_values (_state_source b) s = true ->
  forall b' out, child_has_update now kpis visitor b child = (b', out, Returns true) ->
  ba_ok b' /\ (child, Impact_info h s (in_downtime (kpis child))) ∈ _impacts b'.
Proof.
  intros Hi Hf Hok Hh Hs Vh Vs b' out. unfold child_has_update. rewrite Hf, Hh, Hs.
  case_if; [done|]. set (new := Impact_info h s _).
  assert (Hn : valid_impact (_state_source b) new = true) by (unfold valid_impact, new; cbn [hard_impact soft_impact]; by rewrite Vh, Vs).
  destruct (update_time_fields now (kpis child) b) as (U1 & U2 & U3 & U4).
  pose proof (find_impact_elem _ _ _ Hf) as Hk.
  destruct (unapply_aggregates (update_time now (kpis child) b) child old) as (a & r & -> & Ha).
  { by rewrite U1, U2. } { by rewrite U1. } { rewrite U1, U2, U3, U4. intros E. destruct (Hok E) as [_ H]. by rewrite E in H. }
  rewrite U1, U2, U3 in Ha. cbn [_impacts with_acc]. rewrite U1.
  destruct (set_impact_ok _ _ child old new Hi Hk Hn) as (S1 & S2 & S3).
  destruct (_compute_inherited_downtime _ _ _) as [b2 out2] eqn:E2.
  apply compute_inherited_downtime_fields in E2 as (C1 & C2 & C3 & C4).
  destruct (visit _ _ _ _) as [b3 out3] eqn:E3. apply visit_fields in E3 as (V1 & V2 & V3 & V4).
  intros [= <- <-]. unfold ba_ok. rewrite V1, V2, V3, V4, C1, C2, C3, C4.
  cbn [apply_new with_acc with_impacts _impacts _state_source _dt_behaviour _acc]. rewrite U2, U3.
  split; [|done]. split; [done|]. eapply apply_aggregates; [exact Ha|apply (valid _ _ (others_ok _ _ child Hi))
    |apply (few _ _ (others_ok _ _ child Hi))|done|done].
Qed.

(** When an indicator changes, whatever the business activity had kept
    before for the worst, best and ratio sources, the state or the count it
    then keeps is the one of the present impacts; for the impact source the
    levels stay 100 minus the total of the impacts. *)
Theorem child_update_aggregates now kpis visitor b child old h s :
  impacts_ok (_state_source b) (_impacts b) -> find_impact (_impacts b) child = Some old ->
  (_state_source b = state_source_impact -> ba_ok b) ->
  impact_hard (kpis child) = Returns h -> impact_soft (kpis child) = Returns s ->
  valid_values (_state_source b) h = true -> valid_values (_state_source b) s = true ->
  let '(b', out, r) := child_has_update now kpis visitor b child in
  r = Returns true ->
  ba_ok b' /\ (child, Impact_info h s (in_downtime (kpis child))) ∈ _impacts b'.
Proof.
  intros Hi Hf Hok Hh Hs Vh Vs. destruct (child_has_update now kpis visitor b child) as [[b' out] r] eqn:E.
  intros ->. by eapply child_has_update_ok.
Qed.

(** ** Runs *)

Inductive call : Type :=
  | Add (impact : Z)
  | Remove (impact : Z)
  | Update (child : Z)
  | Downtimed (dt : downtime).

(** One call, at some time, with the indicators as they are then. *)
Definition do_call (b : ba) (c : Z * (Z -> K) * call) : ba :=
  let '(now, kpis, c) := c in
  match c with
  | Add impact => (add_impact now kpis b impact).1
  | Remove impact => remove_impact b impact
  | Update child => (child_has_update now kpis true b child).1.1
  | Downtimed dt => (service_update now kpis true b dt).1.1
  end.

Definition call_key (c : call) : Z :=
  match c with Add k | Remove k | Update k => k | Downtimed _ => 0 end.

(** Indicators with valid states and, for the impact source, whole impacts. *)
Definition sound_kpis (source : state_source) kpis : Prop :=
  forall id, exists h s, impact_hard (kpis id) = Returns h /\ impact_soft (kpis id) = Returns s
    /\ valid_values source h = true /\ valid_values source s = true.

Lemma range_few (l : list (Z * impact_info)) :
  NoDup l.*1 -> (forall k i, (k, i) ∈ l -> 0 <= k < 2 ^ 20) -> Z.of_nat (length l) <= 2 ^ 20.
Proof.
  intros Hn Hr. rewrite <-(length_fmap fst l).
  assert (H : l.*1 ⊆+ seqZ 0 (2 ^ 20)).
  { apply NoDup_submseteq; [done|]. intros k Hk. apply list_elem_of_fmap in Hk as ([k' i] & -> & Hk).
    apply elem_of_seqZ. apply Hr in Hk. cbn. lia. }
  apply submseteq_length in H. rewrite length_seqZ in H. lia.
Qed.

(** What every run keeps: the keys stay in their range too. *)
Definition run_ok (source : state_source) b : Prop :=
  _state_source b = source /\ ba_ok b /\ forall k i, (k, i) ∈ _impacts b -> 0 <= k < 2 ^ 20.

Lemma unapply_fields b k old : _impacts (_unapply_impact b k old) = _impacts b
  /\ _state_source (_unapply_impact b k old) = _state_source b.
Proof.
  unfold _unapply_impact. destruct (_state_source b) eqn:E; try (split; [done|exact E]).
  cbn [with_acc _impacts _state_source]. case_if; (split; [done|exact E]).
Qed.

Lemma child_has_update_source now kpis visitor b child b' out r :
  child_has_update now kpis visitor b child = (b', out, r) -> _state_source b' = _state_source b.
Proof.
  unfold child_has_update. destruct (find_impact _ _) as [old|]; [|by intros [= <- <- <-]].
  destruct (impact_hard _) as [h|e|]; [|by intros [= <- <- <-]..].
  destruct (impact_soft _) as [sf|e|]; [|by intros [= <- <- <-]..].
  case_if; [by intros [= <- <- <-]|]. destruct (_compute_inherited_downtime _ _ _) as [b2 out2] eqn:E2.
  apply compute_inherited_downtime_fields in E2 as (_ & C2 & _). destruct (visit _ _ _ _) as [b3 out3] eqn:E3.
  apply visit_fields in E3 as (_ & V2 & _). intros [= <- <- <-]. rewrite V2, C2.
  cbn [apply_new with_acc with_impacts _state_source]. destruct (update_time_fields now (kpis child) b) as (_ & <- & _).
  apply unapply_fields.
Qed.

Lemma add_impact_ok source now kpis b k : run_ok source b -> sound_kpis source kpis -> 0 <= k < 2 ^ 20 ->
  run_ok source (add_impact now kpis b k).1.
Proof.
  intros Hb Hs Hk. pose proof Hb as (Es & [Hi Ha] & Hr). rewrite <-Es in Hs. unfold add_impact. destruct (find_impact (_impacts b) k) eqn:Hf; [exact Hb|].
  destruct (Hs k) as (h & s & -> & -> & Vh & Vs). set (new := Impact_info h s _).
  assert (Hn : valid_impact (_state_source b) new = true) by (unfold valid_impact, new; cbn [hard_impact soft_impact]; by rewrite Vh, Vs).
  match goal with |- run_ok source (fst (update_time ?n ?kk ?bb, _)) =>
    destruct (update_time_fields n kk bb) as (U1 & U2 & U3 & U4); cbn [fst]; generalize dependent (update_time n kk bb)
  end.
  intros b' U1 U2 U3 U4. cbn [apply_new with_acc with_impacts _impacts _state_source _dt_behaviour _acc] in *.
  assert (Hl : NoDup (_impacts b ++ [(k, new)]).*1).
  { rewrite fmap_app. apply NoDup_app. split; [apply Hi|]. split; [|apply NoDup_singleton].
    intros x Hx Hx'. apply list_elem_of_singleton in Hx' as ->. apply list_elem_of_fmap in Hx as ([k' i] & E & Hx).
    cbn in E. subst k'. by apply (find_impact_none _ _ i Hf). }
  assert (Hrange : forall k' i, (k', i) ∈ _impacts b ++ [(k, new)] -> 0 <= k' < 2 ^ 20).
  { intros k' i [H|[= -> ->]%list_elem_of_singleton]%elem_of_app; [by eapply Hr|done]. }
  unfold run_ok, ba_ok. rewrite U1, U2, U3, U4. split; [done|]. split; [split|done].
  - split; [done| |by apply range_few].
    intros k' i [H|[= -> ->]%list_elem_of_singleton]%elem_of_app; [by eapply (valid _ _ Hi)|done].
  - eapply apply_aggregates; [exact Ha|apply (valid _ _ Hi)|apply (few _ _ Hi)|done|apply adds_end].
Qed.

Lemma others_elem l k k' i : (k', i) ∈ others l k -> (k', i) ∈ l.
Proof. unfold others. intros H. by apply list_elem_of_filter in H as [_ H]. Qed.

Lemma remove_impact_ok source b k : run_ok source b -> run_ok source (remove_impact b k).
Proof.
  intros Hb. pose proof Hb as (Es & [Hi Ha] & Hr). unfold remove_impact. destruct (find_impact (_impacts b) k) as [old|] eqn:Hf; [|exact Hb].
  destruct (unapply_aggregates b k old Hi (find_impact_elem _ _ _ Hf)) as (a & r & -> & Ho).
  { intros E. by rewrite E in Ha. }
  split; [exact Es|]. split; [split; [apply others_ok, Hi|exact Ho]|]. cbn [with_impacts with_acc _impacts].
  intros k' i H. by apply others_elem, Hr in H.
Qed.

Lemma update_ok source now kpis b k : run_ok source b -> sound_kpis source kpis -> run_ok source (child_has_update now kpis true b k).1.1.
Proof.
  intros Hrun Hs. pose proof Hrun as (Es & Hb & Hr). rewrite <-Es in Hs. destruct (child_has_update now kpis true b k) as [[b' out] r] eqn:E. cbn [fst].
  destruct (find_impact (_impacts b) k) as [old|] eqn:Hf.
  2:{ unfold child_has_update in E. rewrite Hf in E. by injection E as <- <- <-. }
  assert (Es' : _state_source b' = _state_source b) by exact (child_has_update_source now kpis true b k b' out r E).
  destruct (Hs k) as (h & s & Hh & Hsf & Vh & Vs).
  assert (Hcase : b' = b \/ (r = Returns true /\ exists new, _impacts b' = set_impact (_impacts b) k new)).
  { unfold child_has_update in E. rewrite Hf, Hh, Hsf in E. case_if; [injection E as <- <- <-; by left|].
    destruct (_compute_inherited_downtime _ _ _) as [b2 out2] eqn:E2.
    apply compute_inherited_downtime_fields in E2 as (C1 & _).
    destruct (visit _ _ _ _) as [b3 out3] eqn:E3. apply visit_fields in E3 as (V1 & _).
    injection E as <- <- <-. right. split; [done|]. eexists. rewrite V1, C1. cbn [apply_new with_acc with_impacts _impacts].
    destruct (update_time_fields now (kpis k) b) as (U1 & _).
    f_equal. destruct (unapply_fields (update_time now (kpis k) b) k old) as [-> _]. exact U1. }
  destruct Hcase as [->|[-> [new Hnew]]]; [exact Hrun|]. split; [congruence|]. split.
  - by apply (child_has_update_ok now kpis true b k old h s (proj1 Hb) Hf (fun _ => Hb) Hh Hsf Vh Vs b' out).
  - rewrite Hnew. unfold set_impact. intros k' i Hin. apply list_elem_of_fmap in Hin as ([k1 i1] & E1 & Hin).
    cbn [fst] in E1. destruct (Z.eqb_spec k1 k) as [->|]; injection E1 as -> ->; by eapply Hr.
Qed.

Lemma downtimed_ok source now kpis b dt : run_ok source b -> run_ok source (service_update now kpis true b dt).1.1.
Proof.
  intros H. unfold service_update. case_if; [|done]. case_if; [|done].
  destruct (visit _ _ _ _) as [b' out] eqn:E. cbn [fst]. apply visit_fields in E as (V1 & V2 & V3 & V4).
  unfold run_ok, ba_ok in *. rewrite V1, V2, V3, V4. exact H.
Qed.

Lemma do_call_ok source b now kpis c : run_ok source b -> sound_kpis source kpis -> 0 <= call_key c < 2 ^ 20 ->
  run_ok source (do_call b (now, kpis, c)).
Proof.
  intros Hb Hs Hk. destruct c; cbn [do_call call_key] in *.
  - by apply add_impact_ok.
  - by apply remove_impact_ok.
  - by apply update_ok.
  - by apply downtimed_ok.
Qed.

Lemma new_ba_ok source dt c w i h s g : source <> state_source_best -> run_ok source (new_ba source dt c w i h s g).
Proof.
  intros Hs. split; [done|]. split; [split; [split|]|]; cbn [new_ba _impacts _state_source _dt_behaviour _acc].
  - constructor.
  - intros k j H. by apply not_elem_of_nil in H.
  - done.
  - destruct source; try done; cbn [aggregates_ok]; repeat split; try (by left); intros t Ht; by apply not_elem_of_nil in Ht.
  - intros k j H. by apply not_elem_of_nil in H.
Qed.

(** The state that impacts give, hard or soft. *)
Definition state_given (f : impact_info -> impact_values) b (s : Z) : Prop :=
  match _state_source b with
  | state_source_impact =>
    s = level_state b (Dbl.canon (100 - total (counted (_dt_behaviour b) (fun i => trunc (_nominal (f i)))) (_impacts b)))
  | state_source_best => is_best s (states (_dt_behaviour b) (fun i => _state (f i)) (_impacts b))
  | state_source_worst => is_worst s (states (_dt_behaviour b) (fun i => _state (f i)) (_impacts b))
  | state_source_ratio_number =>
    s = update_state (Flt.of_Z (total (counted (_dt_behaviour b) (fun i => critical (f i))) (_impacts b)))
          (_level_critical b) (_level_warning b)
  | state_source_ratio_percent =>
    s = update_state (ratio b (total (counted (_dt_behaviour b) (fun i => critical (f i))) (_impacts b)))
          (_level_critical b) (_level_warning b)
  end.

(** Whether all the indicators are in downtime, of an activity that ignores those. *)
Definition all_ignored kpis b : bool :=
  bool_decide (_dt_behaviour b = dt_ignore_kpi) && every_kpi_in_dt ((fun p => in_downtime (kpis (fst p))) <$> _impacts b).

Lemma soft_given b : ba_ok b -> state_given soft_impact b (get_state_soft b).
Proof.
  intros [_ Ha]. unfold aggregates_ok in Ha. unfold state_given, get_state_soft. destruct (_state_source b).
  - by destruct Ha as (_ & _ & _ & _ & _ & ->).
  - exact (proj2 Ha).
  - exact (proj2 Ha).
  - by destruct Ha as [_ ->].
  - by destruct Ha as [_ ->].
Qed.

Lemma hard_given kpis b : ba_ok b -> state_given hard_impact b (get_state_hard kpis b)
  \/ all_ignored kpis b = true /\ get_state_hard kpis b = state_ok.
Proof.
  intros [_ Ha]. unfold aggregates_ok in Ha. unfold state_given, get_state_hard, all_ignored. destruct (_state_source b).
  - left. by destruct Ha as (_ & _ & _ & _ & -> & _).
  - case_if; [by right|left; exact (proj1 Ha)].
  - case_if; [by right|left; exact (proj1 Ha)].
  - left. by destruct Ha as [-> _].
  - left. by destruct Ha as [-> _].
Qed.

(** C37. Through any sequence of indicators added, removed and updated and of
    downtimes, the states of a new business activity whose source is not the best
    state, hard and soft, are those its present impacts give: from the level 100
    minus their sum for the impact source, the worst of their states, or the number
    or percentage of critical ones; the hard worst state is OK when all indicators
    are in downtime and these are ignored. What is kept for its source (levels,
    worst state or number) is exactly what the impacts give. For the impact source
    the impacts are whole numbers of at most 2^20; at most 2^20 indicators. The
    levels of the other sources, published too, drift. *)
Theorem ba_invariant source dt c w i h s g calls :
  source <> state_source_best ->
  Forall (fun x => sound_kpis source x.1.2 /\ 0 <= call_key x.2 < 2 ^ 20) calls ->
  let b := fold_left do_call calls (new_ba source dt c w i h s g) in
  ba_ok b /\ state_given soft_impact b (get_state_soft b)
  /\ forall kpis, state_given hard_impact b (get_state_hard kpis b)
       \/ all_ignored kpis b = true /\ get_state_hard kpis b = state_ok.
Proof.
  intros Hs Hc b. enough (run_ok source b) as (_ & Hb & _).
  { split; [exact Hb|]. split; [exact (soft_given b Hb)|]. intros kpis. exact (hard_given kpis b Hb). }
  unfold b. clear b. pose proof (new_ba_ok source dt c w i h s g Hs) as Hb. revert Hb. generalize (new_ba source dt c w i h s g).
  induction Hc as [|[[now kpis] x] calls [Hx1 Hx2] _ IH]; intros b Hb; [done|].
  cbn [fold_left]. apply IH. by apply do_call_ok.
Qed.

(** ** The history of a business activity *)

#[local] Instance ba_event_eq_dec : EqDecision ba_event.
Proof. solve_decision. Defined.

Definition call_out (b : ba) (c : Z * (Z -> K) * call) : list event :=
  let '(now, kpis, c) := c in
  match c with
  | Add _ | Remove _ => []
  | Update child => (child_has_update now kpis true b child).1.2
  | Downtimed dt => (service_update now kpis true b dt).1.2
  end.

Fixpoint run (b : ba) (calls : list (Z * (Z -> K) * call)) : ba * list event :=
  match calls with
  | [] => (b, [])
  | c :: calls => let '(b', out) := run (do_call b c) calls in (b', call_out b c ++ out)
  end.

Definition ba_events (l : list event) : list ba_event :=
  omap (fun e => match e with E_ba_event e => Some e | _ => None end) l.

Lemma ba_events_app l1 l2 : ba_events (l1 ++ l2) = ba_events l1 ++ ba_events l2.
Proof. apply omap_app. Qed.

(** The same period, end apart. *)
Definition same_period (a b : ba_event) : bool := bool_decide (close a (be_end_time b) = b).

Lemma same_close e t : same_period e (close e t) = true.
Proof. apply bool_decide_eq_true. by destruct e. Qed.

(** One period after the other, ends not before starts. *)
Definition ba_recorded : history -> list ba_event -> history :=
  recorded be_start_time be_end_time (fun e s => s <=? e) same_period.

Definition current b : history := match _event b with Some e => Open e | None => Nothing end.

Record history_ok b : Prop := {
  no_initial : _initial_events b = [];
  started : match _event b with Some e => be_start_time e <= _last_kpi_update b | None => True end
}.

(** The open period is that of the present state. *)
Definition in_sync kpis b : Prop :=
  match _event b with
  | Some e => be_status e = get_state_hard kpis b /\ be_in_downtime e = _in_downtime b
  | None => False
  end.

Lemma get_state_hard_event kpis b e l t : get_state_hard kpis (with_event b e l t) = get_state_hard kpis b.
Proof. done. Qed.

Lemma visit_history now kpis b b' out : history_ok b -> visit now kpis true b = (b', out) ->
  ba_recorded (current b) (ba_events out) = current b' /\ history_ok b' /\ in_sync kpis b'.
Proof.
  intros [Hi Ht]. unfold visit, _commit_initial_events. rewrite Hi. cbn [fmap list_fmap].
  set (b0 := with_event b (_event b) [] (_last_kpi_update b)).
  unfold visit_event. change (_event b0) with (_event b). unfold current.
  assert (Htail : forall x g s, ba_events (E_ba_status x :: (if g : bool then [E_service_status s] else [])) = [])
    by (intros ? [] ?; done).
  destruct (_event b) as [e|] eqn:He.
  - case_if.
    + unfold _open_new_event. cbn [_event with_event]. intros [= <- <-].
      cbn [app]. change (ba_events (?a :: ?b :: ?l)) with (ba_events [a; b] ++ ba_events l).
      rewrite (Htail _ _ _), app_nil_r. unfold ba_recorded, recorded. cbn [ba_events omap list_omap fold_left record].
      rewrite same_close. cbn [be_end_time close andb]. rewrite (proj2 (Z.leb_le _ _)) by done.
      cbn [record be_start_time]. cbn. rewrite Z.eqb_refl. split; [done|]. split; [split; cbn; [done|lia]|done].
    + intros [= <- <-]. cbn [app]. rewrite (Htail _ _ _).
      zbool. destruct (eqb_spec (_in_downtime b0) (be_in_downtime e)) as [E1|]; [|done].
      destruct (Z.eqb_spec (get_state_hard kpis b0) (be_status e)) as [E2|]; [|done].
      unfold in_sync. cbn [_event with_event b0]. split; [done|]. split; [split; done|]. rewrite <-E2. done.
  - unfold _open_new_event. intros [= <- <-]. cbn [app].
    change (ba_events (?a :: ?l)) with (ba_events [a] ++ ba_events l). rewrite (Htail _ _ _), app_nil_r.
    split; [done|]. case_if; (split; [split; [done|cbn; lia]|done]).
Qed.

Lemma inherited_history kpis v b b' out : history_ok b -> _compute_inherited_downtime kpis v b = (b', out) ->
  ba_events out = [] /\ history_ok b' /\ current b' = current b.
Proof.
  intros [Hi Ht]. unfold _compute_inherited_downtime. case_if; [|by intros [= <- <-]].
  destruct (_inherited_downtime b); case_if; intros [= <- <-]; by destruct v.
Qed.

Lemma update_time_history now k b : history_ok b -> history_ok (update_time now k b) /\ current (update_time now k b) = current b.
Proof.
  intros [Hi Ht]. unfold update_time. case_if; [|done]. split; [split; [done|]|done]. cbn.
  destruct (_event b); [lia|done].
Qed.

Lemma unapply_history b k i : history_ok b ->
  history_ok (_unapply_impact b k i) /\ current (_unapply_impact b k i) = current b.
Proof.
  intros [Hi Ht]. unfold _unapply_impact. destruct (_state_source b); try done.
  case_if; done.
Qed.

Lemma update_history now kpis b k : history_ok b ->
  let '(b', out, r) := child_has_update now kpis true b k in
  ba_recorded (current b) (ba_events out) = current b' /\ history_ok b'
  /\ (r = Returns true -> find_impact (_impacts b) k <> None -> in_sync kpis b').
Proof.
  intros Hb. unfold child_has_update. destruct (find_impact (_impacts b) k) as [old|]; [|done].
  destruct (impact_hard (kpis k)); [|done..]. destruct (impact_soft (kpis k)); [|done..]. case_if; [done|].
  destruct (update_time_history now (kpis k) b Hb) as [H1 E1].
  destruct (unapply_history _ k old H1) as [H2 E2].
  match goal with |- context [_compute_inherited_downtime kpis true ?x] => set (b3 := x) end.
  assert (H3 : history_ok b3) by (destruct H2; by split).
  assert (E3 : current b3 = current b) by (rewrite <-E1, <-E2; done).
  destruct (_compute_inherited_downtime kpis true b3) as [b4 out1] eqn:C.
  apply inherited_history in C as (O1 & H4 & E4); [|done].
  destruct (visit now kpis true b4) as [b5 out2] eqn:V. apply visit_history in V as (R & H5 & S5); [|done].
  rewrite ba_events_app, O1. cbn [app]. rewrite <-E3, <-E4. done.
Qed.

Lemma do_call_history b c : history_ok b ->
  ba_recorded (current b) (ba_events (call_out b c)) = current (do_call b c) /\ history_ok (do_call b c).
Proof.
  intros Hb. destruct c as [[now kpis] [k|k|k|dt]]; cbn [do_call call_out].
  - unfold add_impact. destruct (find_impact (_impacts b) k); [done|].
    destruct (impact_hard (kpis k)); [|destruct Hb; done..]. destruct (impact_soft (kpis k)); [|destruct Hb; done..].
    cbn [fst]. match goal with |- context [update_time now (kpis k) ?x] => destruct (update_time_history now (kpis k) x) as [H E] end.
    { destruct Hb; by split. } rewrite E. done.
  - unfold remove_impact. destruct (find_impact (_impacts b) k) as [old|]; [|done].
    destruct (unapply_history b k old Hb) as [[H1 H2] E]. split; [by rewrite <-E|by split].
  - pose proof (update_history now kpis b k Hb) as H.
    destruct (child_has_update now kpis true b k) as [[b' out] r]. cbn [fst snd]. by destruct H as (? & ? & _).
  - unfold service_update. case_if; [|done]. case_if; [|done].
    destruct (visit _ _ _ _) as [b' out] eqn:V. cbn [fst snd]. apply visit_history in V as (R & H & _); [done|].
    destruct Hb; by split.
Qed.

(** The periods a business activity writes make a history without gap: each
    one that opens is closed, unchanged, not before it started, and the next
    one opens at that very time; the last one is the one it holds. *)
Theorem ba_history_contiguous b calls : history_ok b ->
  let '(b', out) := run b calls in ba_recorded (current b) (ba_events out) = current b'.
Proof.
  revert b. induction calls as [|c calls IH]; intros b Hb; cbn [run]; [done|].
  destruct (do_call_history b c Hb) as [E H]. specialize (IH (do_call b c) H).
  destruct (run (do_call b c) calls) as [b' out]. rewrite ba_events_app.
  unfold ba_recorded in *. by rewrite recorded_app, E.
Qed.

(** After an indicator changed, the open period and the status written are
    those of the present state and downtime of the business activity. *)
Theorem child_update_in_sync now kpis b child : history_ok b -> find_impact (_impacts b) child <> None ->
  let '(b', out, r) := child_has_update now kpis true b child in
  r = Returns true -> in_sync kpis b'.
Proof.
  intros Hb Hf. pose proof (update_history now kpis b child Hb) as H.
  destruct (child_has_update now kpis true b child) as [[b' out] r]. intros ->. by apply H.
Qed.

End Operations.

(** ** On an example *)

(** Three services: a warning, a critical one, a critical one in downtime. *)
Definition demo_kpi (state : Z) (dt : bool) : KpiService.kpi_service :=
  KpiService.Kpi_service 1 1 None [] false dt 1 (Dbl.of_Z <$> [0; 30; 80; 50; 0]) 100 [] [] 1 state state 1.
Definition demo_kpis (s1 s2 s3 : Z) (id : Z) : KpiService.kpi_service :=
  if id =? 1 then demo_kpi s1 false else if id =? 2 then demo_kpi s2 false else demo_kpi s3 true.

Definition demo_calls : list (Z * (Z -> KpiService.kpi_service) * call) :=
  [(100, demo_kpis 0 0 0, Add 1); (100, demo_kpis 0 0 0, Add 2); (100, demo_kpis 0 0 0, Add 3);
   (200, demo_kpis 1 0 0, Update 1); (300, demo_kpis 1 2 0, Update 2); (400, demo_kpis 1 2 2, Update 3);
   (500, demo_kpis 1 2 2, Downtimed (Downtime 5 6 true 0)); (600, demo_kpis 1 0 2, Update 2);
   (700, demo_kpis 1 0 2, Remove 1)].

Definition demo_ba (source : state_source) : ba := new_ba source dt_inherit (Dbl.of_Z 10) (Dbl.of_Z 50) 4 5 6 true.

Lemma demo_kpi_sound source s dt : 0 <= s <= 3 -> exists h t, impact_hard (demo_kpi s dt) = Returns h
  /\ impact_soft (demo_kpi s dt) = Returns t /\ valid_values source h = true /\ valid_values source t = true.
Proof.
  intros H. assert (Hs : s = 0 \/ s = 1 \/ s = 2 \/ s = 3) by lia.
  destruct Hs as [->|[->|[->| ->]]], dt, source; eexists _, _; repeat split; vm_compute; reflexivity.
Qed.

Lemma demo_kpis_sound source s1 s2 s3 : 0 <= s1 <= 3 -> 0 <= s2 <= 3 -> 0 <= s3 <= 3 -> sound_kpis source (demo_kpis s1 s2 s3).
Proof. intros H1 H2 H3 id. unfold demo_kpis. case_if; [|case_if]; by apply demo_kpi_sound. Qed.

Lemma ba_invariant_witness :
  let b := fold_left do_call demo_calls (demo_ba state_source_impact) in
  ba_ok b /\ state_given soft_impact b (get_state_soft b)
  /\ forall kpis : Z -> KpiService.kpi_service, state_given hard_impact b (get_state_hard kpis b)
       \/ all_ignored kpis b = true /\ get_state_hard kpis b = state_ok.
Proof.
  apply ba_invariant; [discriminate|].
  repeat constructor; cbn [fst snd]; try (apply demo_kpis_sound; lia); cbn [call_key]; lia.
Defined.

Lemma ba_history_contiguous_witness :
  let '(b', out) := run (demo_ba state_source_worst) demo_calls in
  ba_recorded (current (demo_ba state_source_worst)) (ba_events out) = current b'.
Proof. apply ba_history_contiguous. split; reflexivity. Defined.

Definition demo_three (source : state_source) : ba := fold_left do_call (take 3 demo_calls) (demo_ba source).

Lemma child_update_in_sync_witness :
  let '(b', out, r) := child_has_update 200 (demo_kpis 1 0 0) true (demo_three state_source_worst) 1 in
  r = Returns true -> in_sync (demo_kpis 1 0 0) b'.
Proof.
  apply child_update_in_sync; [|vm_compute; discriminate].
  split; vm_compute; [reflexivity|exact I].
Defined.

Definition demo_impact (s : Z) (dt : bool) : impact_info :=
  match impact_hard (demo_kpi s dt) with
  | Returns v => Impact_info v v dt
  | _ => Impact_info no_impact no_impact false
  end.

Lemma demo_three_ok source : impacts_ok source (_impacts (demo_three source)).
Proof.
  assert (E : _impacts (demo_three source)
            = [(1, demo_impact 0 false); (2, demo_impact 0 false); (3, demo_impact 0 true)])
    by (destruct source; vm_compute; reflexivity).
  rewrite E. split; [|intros k i Hk|vm_compute; discriminate].
  - repeat constructor; cbn; rewrite ?elem_of_cons, ?elem_of_nil; intuition discriminate.
  - rewrite !elem_of_cons, elem_of_nil in Hk.
    destruct Hk as [[= -> ->]|[[= -> ->]|[[= -> ->]|[]]]]; destruct source; vm_compute; reflexivity.
Qed.

(** The best source, which the constructor does not initialise. *)
Definition demo_values : impact_values := hard_impact (demo_impact 1 false).

Lemma child_update_aggregates_witness :
  let '(b', out, r) := child_has_update 200 (demo_kpis 1 0 0) true (demo_three state_source_best) 1 in
  r = Returns true ->
  ba_ok b' /\ (1, Impact_info demo_values demo_values (in_downtime (demo_kpis 1 0 0 1))) ∈ _impacts b'.
Proof.
  refine (child_update_aggregates 200 (demo_kpis 1 0 0) true (demo_three state_source_best) 1 (demo_impact 0 false)
    demo_values demo_values (demo_three_ok _) _ _ _ _ _ _).
  - vm_compute. reflexivity.
  - discriminate.
  - vm_compute. reflexivity.
  - vm_compute. reflexivity.
  - vm_compute. reflexivity.
  - vm_compute. reflexivity.
Defined.

(** With the best source, indicators that are added never degrade the state
    until one of them changes: it starts at OK. *)
Lemma best_ignores_added_impacts :
  let b := fold_left do_call [(100, demo_kpis 2 2 0, Add 1); (100, demo_kpis 2 2 0, Add 2)] (demo_ba state_source_best) in
  get_state_hard (demo_kpis 2 2 0) b = state_ok
  /\ get_state_hard (demo_kpis 1 2 0) (do_call b (200, demo_kpis 1 2 0, Update 1)) = state_warning.
Proof. split; vm_compute; reflexivity. Qed.

(** Out of the impact source, every change withdraws all the impacts from the
    level once more: it drifts, and is written in the status. *)
Lemma level_drifts :
  let b := fold_left do_call [(100, demo_kpis 1 1 0, Add 1); (100, demo_kpis 1 1 0, Add 2)] (demo_ba state_source_worst) in
  let b' := fold_left do_call [(200, demo_kpis 0 1 0, Update 1); (300, demo_kpis 1 1 0, Update 1)] b in
  trunc (_level_hard (_acc b)) = 40 /\ trunc (_level_hard (_acc b')) = -50.
Proof. split; vm_compute; reflexivity. Qed.

(** An inherited downtime that ends leaves the business activity in downtime. *)
Lemma inherited_downtime_stays :
  let b := fold_left do_call [(100, demo_kpis 0 0 0, Add 3); (200, demo_kpis 0 0 2, Update 3);
             (300, demo_kpis 0 0 0, Update 3)] (demo_ba state_source_worst) in
  _inherited_downtime b = None /\ _in_downtime b = true.
Proof. split; vm_compute; reflexivity. Qed.

End Ba.
