(* ===== verification/FileSystem.v ===== *)
(** * Files and directories (core/src/misc/filesystem.cc and the C library below it)

    What the file layer asks of the system: names in directories, files that
    outlive their last name while they are open, fopen in the modes the code
    uses, fread and fwrite at an offset (the code always seeks first), remove.
    On top of it, the directory listings of misc::filesystem. *)

From Stdlib Require Import ZArith Lia ZifyNat ZifyBool Strings.Byte.
From stdpp Require Import base option list numbers strings gmap sets.
From S2P Require Import Prelude.

Module FileSystem.

Definition slash : byte := x2f.

(** A name in a directory. *)
Abbreviation entry := (cstring * cstring)%type.

(** Regular files only. [refused]: the entries that fopen cannot open, for
    another reason than their absence. [short_writes]: how many bytes the next
    calls of fwrite take, when they do not take all of them. *)
Record file_system : Type := File_system {
  names : gmap entry positive;
  files : gmap positive cstring;
  refused : gset entry;
  short_writes : list nat
}.

(** An open FILE: which file, and whether every write goes to its end. *)
Record handle : Type := Handle {
  inode : positive;
  append : bool
}.

#[global] Instance handle_eq_dec : EqDecision handle.
Proof. solve_decision. Defined.

(** fopen: errno is ENOENT for [No_entry]. *)
Inductive fopen_result : Type :=
  | Opened (h : handle)
  | No_entry
  | Refused.

Implicit Types fs : file_system.

(** The directory and the name of a path. *)
Definition entry_of (path : cstring) : entry :=
  match find_last_if (byte_eqb slash) path with
  | Some i => (take i path, drop (S i) path)
  | None => (str ".", path)
  end.

Definition contents fs (i : positive) : cstring := default [] (files fs !! i).

(** The bytes of the file at a path. *)
Definition file_at fs (path : cstring) : cstring :=
  match names fs !! entry_of path with Some i => contents fs i | None => [] end.

(** fopen(path, "r+"). *)
Definition fopen_update fs (path : cstring) : fopen_result :=
  if bool_decide (entry_of path ∈ refused fs) then Refused
  else match names fs !! entry_of path with
  | Some i => Opened (Handle i false)
  | None => No_entry
  end.

(** fopen(path, "a+"): the file is created when it does not exist. *)
Definition fopen_append fs (path : cstring) : file_system * fopen_result :=
  if bool_decide (entry_of path ∈ refused fs) then (fs, Refused)
  else match names fs !! entry_of path with
  | Some i => (fs, Opened (Handle i true))
  | None =>
    let i := fresh (dom (files fs)) in
    (File_system (<[entry_of path := i]> (names fs)) (<[i := []]> (files fs)) (refused fs) (short_writes fs),
     Opened (Handle i true))
  end.

(** fseek(h, offset, SEEK_SET) then fread of at most [n] bytes. *)
Definition fread fs (h : handle) (offset n : nat) : cstring :=
  take n (drop offset (contents fs (inode h))).

(** The bytes of a file after a write; a gap is filled with NULs. *)
Definition written_at (h : handle) (data : cstring) (offset : nat) (b : cstring) : cstring :=
  if append h then data ++ b
  else take offset data ++ replicate (offset - length data) x00 ++ b ++ drop (offset + length b) data.

(** fseek(h, offset, SEEK_SET) then fwrite, with the number of bytes taken. *)
Definition fwrite fs (h : handle) (offset : nat) (b : cstring) : file_system * nat :=
  let n := match short_writes fs with n :: _ => Nat.min n (length b) | [] => length b end in
  (File_system (names fs)
     (<[inode h := written_at h (contents fs (inode h)) offset (take n b)]> (files fs))
     (refused fs) (tail (short_writes fs)), n).

(** The name goes, the file stays for those who have it open. *)
Definition remove fs (path : cstring) : file_system :=
  File_system (delete (entry_of path) (names fs)) (files fs) (refused fs) (short_writes fs).

(** ** misc::filesystem *)

(** The directory opendir opens. *)
Definition directory_of (path : cstring) : option cstring :=
  match last path with
  | None => None
  | Some c => Some (if byte_eqb c slash then take (length path - 1) path else path)
  end.

Definition ends_with_slash (path : cstring) : bool :=
  match last path with Some c => byte_eqb c slash | None => false end.

(** Not recursive, as both callers want it; regular files only. *)
Definition dir_content fs (path : cstring) : list cstring :=
  match directory_of path with
  | None => []
  | Some dir =>
    (fun e : entry => path ++ (if ends_with_slash path then [] else [slash]) ++ snd e)
      <$> filter (fun e : entry => fst e = dir) (elements (dom (names fs)))
  end.

Section Filter.
(** fnmatch(pattern, text, FNM_PATHNAME | FNM_NOESCAPE | FNM_PERIOD) == 0. *)
Variable fnmatch : cstring -> cstring -> bool.

Definition dir_content_with_filter fs (path flt : cstring) : list cstring :=
  filter (fun f => fnmatch (path ++ (if ends_with_slash path then [] else [slash]) ++ flt) f = true)
    (dir_content fs path).
End Filter.

Definition file_exists fs (path : cstring) : bool := bool_decide (is_Some (names fs !! entry_of path)).

(** ** Lemmas on entries *)

Definition no_slash (l : cstring) : Prop := forallb (fun b => negb (byte_eqb slash b)) l = true.

Lemma find_last_if_app_r {A} (P : A -> bool) l1 l2 :
  forallb (fun y => negb (P y)) l2 = true -> find_last_if P (l1 ++ l2) = find_last_if P l1.
Proof.
  intros H. unfold find_last_if. rewrite reverse_app.
  assert (forall a b : list A, forallb (fun y => negb (P y)) a = true ->
            find_first_if P (a ++ b) = (fun i => (length a + i)%nat) <$> find_first_if P b) as Hf.
  { clear. intros a b Ha. induction a as [|x a IH]; cbn [app find_first_if length] in *.
    - by destruct (find_first_if P b).
    - cbn in Ha. zbool. rewrite H, IH by done. by destruct (find_first_if P b). }
  rewrite Hf.
  - rewrite <-option_fmap_compose. rewrite length_reverse, length_app.
    destruct (find_first_if P (reverse l1)); cbn; [|done]. f_equal. lia.
  - apply forallb_forall. intros x Hx. rewrite forallb_forall in H. apply H.
    rewrite <-list_elem_of_In, elem_of_reverse in Hx. by apply list_elem_of_In.
Qed.

(** A suffix without slash stays in the name. *)
Lemma entry_of_app path suffix : no_slash suffix ->
  entry_of (path ++ suffix) = (fst (entry_of path), snd (entry_of path) ++ suffix).
Proof.
  intros H. unfold entry_of. rewrite find_last_if_app_r by done.
  destruct (find_last_if _ path) as [i|] eqn:E; [|done]. cbn [fst snd].
  assert (Hi : (i < length path)%nat).
  { unfold find_last_if in E. apply fmap_Some in E as (k & Hk & ->).
    apply find_first_if_lt in Hk. rewrite length_reverse in Hk. lia. }
  rewrite take_app_le, drop_app_le by lia. done.
Qed.

Lemma entry_of_name path : no_slash (snd (entry_of path)).
Proof.
  unfold entry_of. destruct (find_last_if (byte_eqb slash) path) as [i|] eqn:E.
  - by apply find_last_if_split in E as (x & _ & _ & Hn).
  - by apply find_last_if_None in E.
Qed.

Lemma entry_of_listed dir name : no_slash name -> entry_of (dir ++ [slash] ++ name) = (dir, name).
Proof.
  intros H. rewrite app_assoc, entry_of_app by done.
  assert (E : entry_of (dir ++ [slash]) = (dir, [])).
  { unfold entry_of, find_last_if. rewrite reverse_snoc. cbn [find_first_if]. rewrite byte_eqb_refl.
    cbn [option_fmap option_map fmap]. rewrite length_app. cbn [length].
    replace (length dir + 1 - 1 - 0)%nat with (length dir) by lia.
    rewrite take_app_length, drop_ge; [done|]. rewrite length_app. cbn. lia. }
  by rewrite E.
Qed.

(** ** Lemmas on contents *)

(** Every name leads to a file, each to its own, and has no slash. *)
Definition sound fs : Prop :=
  (forall e i, names fs !! e = Some i -> is_Some (files fs !! i))
  /\ (forall e e' i, names fs !! e = Some i -> names fs !! e' = Some i -> e = e')
  /\ (forall e, is_Some (names fs !! e) -> no_slash (snd e)).

Lemma sound_remove fs path : sound fs -> sound (remove fs path).
Proof.
  intros (H1 & H2 & H3). split_and!.
  - intros e i. cbn. rewrite lookup_delete_Some. intros [_ ?]. eauto.
  - intros e e' i. cbn. rewrite !lookup_delete_Some. intros [_ ?] [_ ?]. eauto.
  - intros e [i Hi]. cbn in Hi. apply lookup_delete_Some in Hi as [_ ?]. by apply H3.
Qed.

Lemma sound_append fs path fs' r : sound fs -> fopen_append fs path = (fs', r) -> sound fs'.
Proof.
  intros (H1 & H2 & H3). unfold fopen_append. case_if; [by intros [= <- <-]|].
  destruct (names fs !! entry_of path) eqn:E; intros [= <- <-]; [done|].
  pose proof (is_fresh (dom (files fs))) as Hf. set (i := fresh _) in *. clearbody i.
  assert (Hn : forall e, names fs !! e <> Some i).
  { intros e He. apply H1 in He. by apply elem_of_dom in He. }
  split_and!; cbn.
  - intros e j. rewrite lookup_insert_Some. intros [[_ <-]|[_ ?%H1]].
    + rewrite lookup_insert_eq. done.
    + destruct (decide (i = j)) as [<-|]; [by rewrite lookup_insert_eq|by rewrite lookup_insert_ne].
  - intros e e' j. rewrite !lookup_insert_Some. intros [[<- <-]|[? ?]] [[<- ?]|[? ?]]; try done; subst; try by edestruct Hn.
    eauto.
  - intros e [j [[<- _]|[_ Hj]]%lookup_insert_Some]; [apply entry_of_name|]. apply H3. by exists j.
Qed.

Lemma sound_fwrite fs h off b : sound fs -> sound (fst (fwrite fs h off b)).
Proof.
  intros (H1 & H2 & H3). split; cbn; [|done]. intros e i Hi%H1.
  destruct (decide (inode h = i)) as [<-|]; [by rewrite lookup_insert_eq|by rewrite lookup_insert_ne].
Qed.

(** Opening for append leaves the other files as they are and the file at hand
    too, empty if it is new. *)
Lemma fopen_append_file_at fs path fs' h p :
  sound fs -> fopen_append fs path = (fs', Opened h) -> file_at fs' p = file_at fs p.
Proof.
  intros [H1 _]. unfold fopen_append. case_if; [done|].
  destruct (names fs !! entry_of path) eqn:E; intros [= <- <-]; [done|].
  pose proof (is_fresh (dom (files fs))) as Hf. set (i := fresh _) in *. clearbody i.
  unfold file_at, contents. cbn.
  destruct (decide (entry_of path = entry_of p)) as [<-|].
  { rewrite lookup_insert_eq, E. by rewrite lookup_insert_eq. }
  rewrite lookup_insert_ne by done. destruct (names fs !! entry_of p) as [j|] eqn:Ej; [|done].
  rewrite lookup_insert_ne; [done|]. intros <-. apply H1 in Ej. by apply elem_of_dom in Ej.
Qed.

Lemma fopen_append_opened fs path :
  entry_of path ∉ refused fs ->
  exists fs' h, fopen_append fs path = (fs', Opened h) /\ names fs' !! entry_of path = Some (inode h)
    /\ (forall e, e <> entry_of path -> names fs' !! e = names fs !! e)
    /\ refused fs' = refused fs /\ short_writes fs' = short_writes fs /\ append h = true.
Proof.
  intros H. unfold fopen_append. rewrite bool_decide_eq_false_2 by done.
  destruct (names fs !! entry_of path) eqn:E.
  - by eexists _, _.
  - eexists _, _. split; [done|]. cbn. rewrite lookup_insert_eq. repeat split; try done.
    intros e He. by rewrite lookup_insert_ne.
Qed.

Lemma fopen_update_opened fs path i :
  entry_of path ∉ refused fs -> names fs !! entry_of path = Some i ->
  fopen_update fs path = Opened (Handle i false).
Proof. intros H E. unfold fopen_update. by rewrite bool_decide_eq_false_2, E. Qed.

Lemma file_at_names fs path i : names fs !! entry_of path = Some i -> file_at fs path = contents fs i.
Proof. unfold file_at. by intros ->. Qed.

(** A write at the end of a file appends, in both modes. *)
Lemma written_at_end h data b : written_at h data (length data) b = data ++ b.
Proof.
  unfold written_at. destruct (append h); [done|].
  rewrite take_ge, Nat.sub_diag by lia. cbn. rewrite drop_ge by lia. by rewrite app_nil_r.
Qed.

Lemma fwrite_end fs h b :
  short_writes fs = [] ->
  fwrite fs h (length (contents fs (inode h))) b
  = (File_system (names fs) (<[inode h := contents fs (inode h) ++ b]> (files fs)) (refused fs) [], length b).
Proof. intros H. unfold fwrite. rewrite H, take_ge by lia. by rewrite written_at_end. Qed.

Lemma file_at_other fs path p (d : cstring) i :
  sound fs -> names fs !! entry_of path = Some i -> entry_of p <> entry_of path ->
  file_at (File_system (names fs) (<[i := d]> (files fs)) (refused fs) (short_writes fs)) p = file_at fs p.
Proof.
  intros (_ & H2 & _) Hi Hp. unfold file_at, contents. cbn.
  destruct (names fs !! entry_of p) as [j|] eqn:Ej; [|done].
  rewrite lookup_insert_ne; [done|]. intros <-. by eapply Hp, H2.
Qed.

(** ** Lemmas on listings *)

Lemma elem_of_dir_content fs path f :
  f ∈ dir_content fs path <->
  exists dir name, directory_of path = Some dir /\ is_Some (names fs !! (dir, name))
    /\ f = path ++ (if ends_with_slash path then [] else [slash]) ++ name.
Proof.
  unfold dir_content. destruct (directory_of path) as [dir|].
  - rewrite list_elem_of_fmap. setoid_rewrite list_elem_of_filter. setoid_rewrite elem_of_elements.
    setoid_rewrite elem_of_dom. split.
    + intros ([d n] & -> & <- & H). exists d, n. done.
    + intros (d & n & [= <-] & H & ->). exists (dir, n). done.
  - rewrite elem_of_nil. split; [done|]. by intros (? & ? & ? & ?).
Qed.

End FileSystem.
