(* ===== verification/Splitter.v ===== *)
(** * Split files (core/src/file/splitter.cc)

    A logical file cut into parts of bounded size: path, path1, path2, ... Bytes
    are written to the part [_wid] and read from the part [_rid], which may be
    the same; parts that have been read are removed. The theorems show that the
    parts together are one first-in first-out queue of bytes, that a new
    splitter on the same path finds again what was not read, and that the size
    of the parts is bounded. *)

From Stdlib Require Import ZArith Lia ZifyNat ZifyBool Strings.Byte.
From stdpp Require Import base option list numbers strings gmap sets.
From S2P Require Import Prelude Double FileSystem.

Module Splitter.
Import FileSystem.

Record splitter : Type := Mk_splitter {
  _auto_delete : bool;
  _base_path : cstring;
  _max_file_size : Z;
  _rfile : option handle;
  _rid : Z;
  _roffset : Z;
  _wfile : option handle;
  _wid : Z;
  _woffset : Z
}.

Implicit Types (fs : file_system) (s : splitter).

Definition with_read s f i o :=
  Mk_splitter (_auto_delete s) (_base_path s) (_max_file_size s) f i o (_wfile s) (_wid s) (_woffset s).
Definition with_write s f i o :=
  Mk_splitter (_auto_delete s) (_base_path s) (_max_file_size s) (_rfile s) (_rid s) (_roffset s) f i o.

(** fmt::format of an int. *)
Definition int_text (n : Z) : cstring := if n <? 0 then str "-" ++ Dbl.dec (- n) else Dbl.dec n.

Definition get_file_path s (id : Z) : cstring :=
  if negb (id =? 0) then _base_path s ++ int_text id else _base_path s.
Definition get_max_file_size := _max_file_size.
Definition get_rid := _rid.
Definition get_roffset := _roffset.
Definition get_wid := _wid.
Definition get_woffset := _woffset.

(** 2 * sizeof(uint32_t), and the header: 0 then htonl(8). *)
Definition header_size : nat := 8.
Definition header : cstring := be_bytes 4 0 ++ be_bytes 4 8.

Definition size_of fs (h : handle) : Z := Z.of_nat (length (contents fs (inode h))).

(** ** Opening *)

Definition _open_read_file fs s : splitter * outcome unit :=
  let opened :=
    match (if _rid s =? _wid s then _wfile s else None) with
    | Some w => Opened w
    | None => fopen_update fs (get_file_path s (_rid s))
    end in
  match opened with
  | Opened h => (with_read s (Some h) (_rid s) (Z.of_nat header_size), Returns tt)
  | No_entry => (with_read s None (_rid s) (_roffset s), Returns tt)
  | Refused => (with_read s None (_rid s) (_roffset s), Throws Exn_msg)
  end.

(** while (size < sizeof(header)) size += fwrite(header.bytes + size, ...) *)
Fixpoint header_loop (fuel : nat) fs (h : handle) (size : nat) : file_system * outcome unit :=
  if (header_size <=? size)%nat then (fs, Returns tt)
  else match fuel with
  | O => (fs, Diverges)
  | S fuel' =>
    let '(fs, n) := fwrite fs h size (drop size header) in header_loop fuel' fs h (size + n)
  end.

Definition _open_write_file (fuel : nat) fs s : file_system * splitter * outcome unit :=
  let '(fs, opened) :=
    match (if _wid s =? _rid s then _rfile s else None) with
    | Some r => (fs, Opened r)
    | None => fopen_append fs (get_file_path s (_wid s))
    end in
  match opened with
  | Opened h =>
    let size := size_of fs h in
    if size <? Z.of_nat header_size then
      let '(fs, r) := header_loop fuel fs h 0 in
      (fs, with_write s (Some h) (_wid s) (Z.of_nat header_size), r)
    else (fs, with_write s (Some h) (_wid s) size, Returns tt)
  | _ => (fs, with_write s None (_wid s) (_woffset s), Throws Exn_msg)
  end.

(** ** The constructor *)

(** std::strtol in base 10: the value and the text after the number, which is
    the whole text when there is no number. *)
Definition strtol (l : cstring) : Z * cstring :=
  let '(neg, l') := Dbl.after_sign (snd (Dbl.span isspace l)) in
  match Dbl.span isdigit l' with
  | ([], _) => (0, l)
  | (ds, rest) =>
    (Z.max (- 2 ^ 63) (Z.min (2 ^ 63 - 1) (if neg then - Dbl.dec_val ds else Dbl.dec_val ds)), rest)
  end.

Definition INT_MAX : Z := 2 ^ 31 - 1.
Definition LONG_MAX : Z := 2 ^ 63 - 1.
Definition min_file_size : Z := 10000.

Definition effective_max (max_file_size : Z) : Z :=
  if max_file_size =? 0 then LONG_MAX
  else if max_file_size <? min_file_size then min_file_size else max_file_size.

(** base_dir and base_name. *)
Definition base_of (path : cstring) : cstring * cstring :=
  match find_last_if (byte_eqb slash) path with
  | None => (str ".", path)
  | Some last_slash => (take last_slash path, drop (S last_slash) path)
  end.

(** One turn of the loop on the parts that exist. *)
Definition scan_part (offset : nat) (ids : Z * Z) (f : cstring) : Z * Z :=
  let ptr := drop offset f in
  let val :=
    match ptr with
    | [] => Some 0
    | _ :: _ => match strtol ptr with (v, []) => Some (i32 v) | _ => None end
    end in
  match val with
  | None => ids
  | Some val =>
    (if val <? fst ids then val else fst ids, if val >? snd ids then val else snd ids)
  end.

Section System.
Variable fnmatch : cstring -> cstring -> bool.

Definition parts fs (base_dir base_name : cstring) : list cstring :=
  dir_content_with_filter fnmatch fs base_dir (base_name ++ str "*").

Definition scan_parts fs (path : cstring) : Z * Z :=
  let '(base_dir, base_name) := base_of path in
  let offset := (length base_dir + length base_name + if ends_with_slash base_dir then 0 else 1)%nat in
  let '(rid, wid) := fold_left (scan_part offset) (parts fs base_dir base_name) (INT_MAX, 0) in
  (if (rid =? INT_MAX) || (rid <? 0) then 0 else rid, wid).

Definition new_splitter (fuel : nat) fs (path : cstring) (max_file_size : Z) (auto_delete : bool)
    : file_system * splitter * outcome unit :=
  let '(rid, wid) := scan_parts fs path in
  _open_write_file fuel fs
    (Mk_splitter auto_delete path (effective_max max_file_size) None rid 0 None wid 0).

(** ** Closing, reading, writing *)

Definition close s : splitter :=
  with_write (with_read s None (_rid s) (_roffset s)) None (_wid s) (_woffset s).

(** [max_size] is not 0: fread would return 0 without reaching the end. *)
Fixpoint read (fuel : nat) (max_size : positive) fs s : file_system * splitter * outcome cstring :=
  let '(s, opened) := match _rfile s with None => _open_read_file fs s | Some _ => (s, Returns tt) end in
  match opened with
  | Returns _ =>
    match _rfile s with
    | None => (fs, s, Returns [])
    | Some h =>
      let rb := fread fs h (Z.to_nat (_roffset s)) (Pos.to_nat max_size) in
      let s := with_read s (Some h) (_rid s) (_roffset s + Z.of_nat (length rb)) in
      match rb with
      | _ :: _ => (fs, s, Returns rb)
      | [] =>
        let fs := if _auto_delete s then remove fs (get_file_path s (_rid s)) else fs in
        if _rid s <? _wid s then
          match fuel with
          | O => (fs, s, Diverges)
          | S fuel' =>
            match _open_read_file fs (with_read s (Some h) (_rid s + 1) (_roffset s)) with
            | (s, Returns _) => read fuel' max_size fs s
            | (s, Throws e) => (fs, s, Throws e)
            | (s, Diverges) => (fs, s, Diverges)
            end
          end
        else (fs, s, Throws Exn_shutdown)
      end
    end
  | Throws e => (fs, s, Throws e)
  | Diverges => (fs, s, Diverges)
  end.

(** while (remaining > 0): the buffer is given from its beginning at every turn. *)
Fixpoint write_loop (fuel : nat) fs s (w : handle) (buffer : cstring) (remaining : nat)
    : file_system * splitter * outcome unit :=
  match remaining with
  | O => (fs, s, Returns tt)
  | _ =>
    match fuel with
    | O => (fs, s, Diverges)
    | S fuel' =>
      let '(fs, wb) := fwrite fs w (Z.to_nat (_woffset s)) (take remaining buffer) in
      write_loop fuel' fs (with_write s (Some w) (_wid s) (_woffset s + Z.of_nat wb)) w buffer (remaining - wb)
    end
  end.

Definition write (fuel : nat) fs s (buffer : cstring) : file_system * splitter * outcome Z :=
  let size := Z.of_nat (length buffer) in
  let '(fs, s, opened) :=
    match _wfile s with None => _open_write_file fuel fs s | Some _ => (fs, s, Returns tt) end in
  match opened with
  | Returns _ =>
    let '(fs, s, opened) :=
      if _woffset s + size >? _max_file_size s
      then _open_write_file fuel fs (with_write s (_wfile s) (_wid s + 1) (_woffset s))
      else (fs, s, Returns tt) in
    match opened, _wfile s with
    | Returns _, Some w =>
      match write_loop fuel fs s w buffer (length buffer) with
      | (fs, s, Returns _) => (fs, s, Returns size)
      | (fs, s, Throws e) => (fs, s, Throws e)
      | (fs, s, Diverges) => (fs, s, Diverges)
      end
    | Throws e, _ => (fs, s, Throws e)
    | _, _ => (fs, s, Diverges)
    end
  | Throws e => (fs, s, Throws e)
  | Diverges => (fs, s, Diverges)
  end.

(** A split file cannot be sought within. *)
Definition seek (offset whence : Z) s : outcome unit := Throws Exn_msg.
Definition tell s : Z := _roffset s.

Definition remove_all_files fs s : file_system * splitter :=
  let s := close s in
  let '(base_dir, base_name) :=
    match find_last_if (byte_eqb slash) (_base_path s) with
    | None => (str "./", _base_path s)
    | Some last_slash => (take (S last_slash) (_base_path s), drop (S last_slash) (_base_path s))
    end in
  (fold_left remove (parts fs base_dir base_name) fs, s).
End System.

(** ** Names of the parts *)

Definition part_suffix (id : Z) : cstring := if id =? 0 then [] else int_text id.

Lemma get_file_path_suffix s id : get_file_path s id = _base_path s ++ part_suffix id.
Proof. unfold get_file_path, part_suffix. destruct (id =? 0); cbn; by rewrite ?app_nil_r. Qed.

Lemma no_slash_digits l : forallb isdigit l = true -> no_slash l.
Proof.
  unfold no_slash. rewrite !forallb_forall. intros H x Hx%H. apply negb_true_iff, byte_eqb_neq.
  by intros <-.
Qed.

Lemma part_suffix_digits id : 0 <= id ->
  forallb isdigit (part_suffix id) = true /\ (id <> 0 -> part_suffix id <> [])
  /\ (id <> 0 -> Dbl.dec_val (part_suffix id) = id).
Proof.
  intros H. unfold part_suffix, int_text. destruct (Z.eqb_spec id 0) as [->|]; [done|].
  rewrite (proj2 (Z.ltb_ge id 0)) by done. destruct (Dbl.dec_spec id H) as (? & ? & ? & _). done.
Qed.

Lemma part_suffix_inj i j : 0 <= i -> 0 <= j -> part_suffix i = part_suffix j -> i = j.
Proof.
  intros Hi Hj E. destruct (part_suffix_digits i Hi) as (_ & Ni & Vi), (part_suffix_digits j Hj) as (_ & Nj & Vj).
  destruct (decide (i = 0)) as [->|], (decide (j = 0)) as [->|]; try done.
  - by destruct Nj.
  - by destruct Ni.
  - rewrite <-Vi, <-Vj by done. by rewrite E.
Qed.

(** The directory entry of a part. *)
Definition part_entry (path : cstring) (id : Z) : entry :=
  (fst (entry_of path), snd (entry_of path) ++ part_suffix id).

Lemma entry_of_part s id : 0 <= id -> entry_of (get_file_path s id) = part_entry (_base_path s) id.
Proof.
  intros H. rewrite get_file_path_suffix. apply entry_of_app, no_slash_digits, part_suffix_digits, H.
Qed.

Lemma part_entry_inj path i j : 0 <= i -> 0 <= j -> part_entry path i = part_entry path j -> i = j.
Proof. intros Hi Hj [= E%app_inv_head]. by apply part_suffix_inj. Qed.

(** ** The queue of bytes *)

(** The parts of a path on disk are those numbered from [lo] to [hi]. *)
Definition parts_of fs (path : cstring) (lo hi : Z) : Prop :=
  forall suffix, is_Some (names fs !! (fst (entry_of path), snd (entry_of path) ++ suffix))
    <-> exists j, lo <= j <= hi /\ suffix = part_suffix j.

Lemma parts_of_entry fs path lo hi j : parts_of fs path lo hi -> 0 <= lo -> 0 <= j ->
  is_Some (names fs !! part_entry path j) <-> lo <= j <= hi.
Proof.
  intros H Hlo Hj. unfold part_entry. rewrite (H (part_suffix j)). split.
  - intros (k & Hk & E). apply part_suffix_inj in E; lia.
  - intros. by exists j.
Qed.

(** Nothing stands in the way of opening and writing parts. *)
Definition unhindered fs (path : cstring) : Prop :=
  short_writes fs = [] /\ forall suffix, (fst (entry_of path), snd (entry_of path) ++ suffix) ∉ refused fs.

Definition part fs s (j : Z) : cstring := file_at fs (get_file_path s j).
Definition payload fs s (j : Z) : cstring := drop header_size (part fs s j).

(** Where the next read starts in its part. *)
Definition position s : nat :=
  match _rfile s with Some _ => Z.to_nat (_roffset s) | None => header_size end.

(** What remains to be read, over all parts. *)
Definition unread fs s : cstring :=
  drop (position s) (part fs s (_rid s))
  ++ concat (payload fs s <$> seqZ (_rid s + 1) (_wid s - _rid s)).

(** An open splitter whose parts, from [lo] on, are where they should be. *)
Record wf (lo : Z) fs s : Prop := Wf {
  wf_sound : sound fs;
  wf_free : unhindered fs (_base_path s);
  wf_ids : 0 <= lo <= _rid s /\ _rid s <= _wid s;
  wf_lo : _auto_delete s = true -> lo = _rid s;
  wf_parts : parts_of fs (_base_path s) lo (_wid s);
  wf_header : forall j, lo <= j <= _wid s -> (header_size <= length (part fs s j))%nat;
  wf_wfile : exists w, _wfile s = Some w /\ names fs !! part_entry (_base_path s) (_wid s) = Some (inode w)
                       /\ _woffset s = Z.of_nat (length (part fs s (_wid s)));
  wf_rfile : forall r, _rfile s = Some r ->
    names fs !! part_entry (_base_path s) (_rid s) = Some (inode r)
    /\ Z.of_nat header_size <= _roffset s <= Z.of_nat (length (part fs s (_rid s)))
}.

Lemma part_contents fs s j i : 0 <= j ->
  names fs !! part_entry (_base_path s) j = Some i -> part fs s j = contents fs i.
Proof. intros Hj H. unfold part. apply file_at_names. by rewrite entry_of_part. Qed.

(** *** Writing *)

(** The disk after appending to a part that has a file. *)
Definition appended fs (i : positive) (b : cstring) : file_system :=
  File_system (names fs) (<[i := contents fs i ++ b]> (files fs)) (refused fs) [].

Lemma sound_appended fs i b : sound fs -> sound (appended fs i b).
Proof.
  intros (H1 & H2 & H3). split; cbn; [|done]. intros e j Hj%H1.
  destruct (decide (i = j)) as [<-|]; [by rewrite lookup_insert_eq|by rewrite lookup_insert_ne].
Qed.

Lemma write_loop_appends fuel fs s w b :
  short_writes fs = [] -> _wfile s = Some w -> _woffset s = Z.of_nat (length (contents fs (inode w))) ->
  (0 < fuel)%nat ->
  write_loop fuel fs s w b (length b)
  = (match b with [] => fs | _ => appended fs (inode w) b end,
     with_write s (Some w) (_wid s) (_woffset s + Z.of_nat (length b)), Returns tt).
Proof.
  intros Hs Hw Ho Hf. destruct b as [|c b].
  - cbn. destruct fuel; cbn; rewrite Z.add_0_r; destruct s; cbn in *; by subst.
  - destruct fuel as [|fuel]; [lia|]. cbn [length write_loop].
    rewrite Ho, Nat2Z.id. change (S (length b)) with (length (c :: b)). rewrite take_ge by lia.
    rewrite fwrite_end by done. rewrite Nat.sub_diag. by destruct fuel.
Qed.

Lemma part_appended fs s i b j k :
  sound fs -> 0 <= j -> 0 <= k -> names fs !! part_entry (_base_path s) k = Some i ->
  part (appended fs i b) s j = if j =? k then part fs s k ++ b else part fs s j.
Proof.
  intros Hs Hj Hk Hi. destruct (Z.eqb_spec j k) as [->|Hjk].
  - rewrite (part_contents fs s k i) by done. rewrite (part_contents _ s k i) by done.
    unfold appended, contents. cbn. by rewrite lookup_insert_eq.
  - unfold part. rewrite <-(file_at_other fs (get_file_path s k) (get_file_path s j) (contents fs i ++ b) i).
    + done.
    + done.
    + by rewrite entry_of_part.
    + rewrite !entry_of_part by done. intros E. by apply Hjk, (part_entry_inj (_base_path s)).
Qed.

Lemma seqZ_1 n : seqZ n 1 = [n].
Proof. by destruct n. Qed.

(** The last part is the one written to. *)
Lemma unread_appended lo fs s i b o :
  wf lo fs s -> names fs !! part_entry (_base_path s) (_wid s) = Some i ->
  unread (appended fs i b) (with_write s (_wfile s) (_wid s) o) = unread fs s ++ b.
Proof.
  intros [Hs _ Hid _ _ Hh _ Hr] Hi. unfold unread, payload. cbn [_rid _wid with_write].
  change (position (with_write _ _ _ _)) with (position s).
  assert (Hp : forall j, 0 <= j -> part (appended fs i b) s j = if j =? _wid s then part fs s (_wid s) ++ b else part fs s j).
  { intros. apply part_appended; try done. lia. }
  change (part (appended fs i b) (with_write s (_wfile s) (_wid s) o)) with (part (appended fs i b) s).
  assert (Hd : (position s <= length (part fs s (_rid s)))%nat).
  { unfold position. specialize (Hr (default (Handle 1%positive true) (_rfile s))). destruct (_rfile s) as [r|]; cbn in Hr; [|apply Hh; lia].
    destruct Hr; [done|lia]. }
  rewrite Hp by lia. destruct (Z.eqb_spec (_rid s) (_wid s)) as [E|E].
  - rewrite E, Z.sub_diag in *. cbn. rewrite ?app_nil_r. by rewrite drop_app_le.
  - replace (_wid s - _rid s) with (Z.of_nat (Z.to_nat (_wid s - _rid s - 1)) + 1) by lia.
    rewrite seqZ_app by lia. rewrite !fmap_app, !concat_app, <-!app_assoc. f_equal. f_equal.
    + f_equal. apply list_fmap_ext. intros k j Hk. apply lookup_seqZ in Hk. rewrite Hp by lia.
      by rewrite (proj2 (Z.eqb_neq _ _)) by lia.
    + rewrite seqZ_1. cbn [fmap list_fmap concat]. rewrite !app_nil_r. rewrite Hp by lia. rewrite Z2Nat.id by lia.
      replace (_rid s + 1 + (_wid s - _rid s - 1)) with (_wid s) by lia. rewrite Z.eqb_refl.
      apply drop_app_le, Hh. lia.
Qed.

Lemma wf_appended lo fs s i b :
  wf lo fs s -> names fs !! part_entry (_base_path s) (_wid s) = Some i ->
  wf lo (appended fs i b) (with_write s (_wfile s) (_wid s) (_woffset s + Z.of_nat (length b))).
Proof.
  intros [Hs Hf Hid Ha Hp Hh Hw Hr] Hi.
  assert (Hq : forall j, 0 <= j -> part (appended fs i b) s j = if j =? _wid s then part fs s (_wid s) ++ b else part fs s j).
  { intros. apply part_appended; try done. lia. }
  split; cbn; try done.
  - by apply sound_appended.
  - split; [done|apply Hf].
  - intros j Hj. change (part _ (with_write _ _ _ _) j) with (part (appended fs i b) s j).
    rewrite Hq by lia. case_if; zbool; [subst j; rewrite length_app|]; specialize (Hh _ Hj); lia.
  - destruct Hw as (w & ? & ? & Ho). exists w. repeat split; try done.
    change (part _ (with_write _ _ _ _) (_wid s)) with (part (appended fs i b) s (_wid s)).
    rewrite Hq, Z.eqb_refl, length_app, Ho by lia. lia.
  - intros r Er. destruct (Hr r Er) as [? Hro]. split; [done|].
    change (part _ (with_write _ _ _ _) (_rid s)) with (part (appended fs i b) s (_rid s)).
    rewrite Hq by lia. case_if; zbool; [rewrite length_app|]; try lia.
    replace (_rid s) with (_wid s) in Hro by lia. lia.
Qed.

(** The header of a new part, written in one go. *)
Lemma header_loop_new fuel fs h :
  short_writes fs = [] -> contents fs (inode h) = [] -> (0 < fuel)%nat ->
  header_loop fuel fs h 0 = (appended fs (inode h) header, Returns tt).
Proof.
  intros Hs Hc Hf. destruct fuel as [|fuel]; [lia|]. cbn [header_loop].
  change (header_size <=? 0)%nat with false. cbv iota. rewrite drop_0.
  pose proof (fwrite_end fs h header Hs) as E. rewrite Hc in E. cbn [length] in E. rewrite E.
  change (0 + length header)%nat with header_size. unfold appended. rewrite Hc. by destruct fuel.
Qed.

Lemma parts_of_snoc fs fs' path lo hi :
  parts_of fs path lo hi -> 0 <= lo -> lo <= hi + 1 -> is_Some (names fs' !! part_entry path (hi + 1)) ->
  (forall e, e <> part_entry path (hi + 1) -> names fs' !! e = names fs !! e) ->
  parts_of fs' path lo (hi + 1).
Proof.
  intros Hp Hlo Hhi Hn Ho suffix. destruct (decide (suffix = part_suffix (hi + 1))) as [->|Hne].
  - split; [|done]. intros _. exists (hi + 1). split; [lia|done].
  - rewrite Ho. 2:{ unfold part_entry. intros [= E%app_inv_head]. done. }
    rewrite (Hp suffix). split; intros (j & Hj & ->); exists j; [split; [lia|done]|].
    split; [|done]. destruct (decide (j = hi + 1)) as [->|]; [done|lia].
Qed.

(** Opening a part that does not exist yet creates it with its header, and
    changes no other. *)
Lemma open_new_part fuel fs s :
  sound fs -> unhindered fs (_base_path s) -> 0 <= _wid s -> (0 < fuel)%nat ->
  (_wid s = _rid s -> _rfile s = None) ->
  names fs !! part_entry (_base_path s) (_wid s) = None ->
  exists fs' w, _open_write_file fuel fs s
      = (fs', with_write s (Some w) (_wid s) (Z.of_nat header_size), Returns tt)
    /\ sound fs' /\ unhindered fs' (_base_path s)
    /\ names fs' !! part_entry (_base_path s) (_wid s) = Some (inode w)
    /\ (forall e, e <> part_entry (_base_path s) (_wid s) -> names fs' !! e = names fs !! e)
    /\ part fs' s (_wid s) = header
    /\ (forall j, 0 <= j -> j <> _wid s -> part fs' s j = part fs s j).
Proof.
  intros Hs Hf Hw0 Hfuel Hr Hn. pose proof (entry_of_part s (_wid s) Hw0) as Ee.
  destruct (fopen_append_opened fs (get_file_path s (_wid s))) as (fs1 & w & Eo & Hw & Hoth & Hre & Hsh & _).
  { rewrite Ee. apply Hf. }
  rewrite Ee in Hw, Hoth.
  pose proof (sound_append _ _ _ _ Hs Eo) as Hs1.
  assert (Hp1 : forall j, part fs1 s j = part fs s j) by (intros; by eapply fopen_append_file_at).
  assert (Hc : contents fs1 (inode w) = []).
  { rewrite <-(part_contents fs1 s (_wid s)) by done. rewrite Hp1. unfold part, file_at. by rewrite Ee, Hn. }
  assert (Hsh1 : short_writes fs1 = []) by (rewrite Hsh; apply Hf).
  exists (appended fs1 (inode w) header), w. unfold _open_write_file.
  replace (if _wid s =? _rid s then _rfile s else None) with (@None handle).
  2:{ case_if; zbool; [|done]. symmetry. by apply Hr. }
  rewrite Eo. unfold size_of. rewrite Hc. cbn [length]. change (Z.of_nat 0 <? Z.of_nat header_size) with true.
  cbv iota. rewrite header_loop_new by done.
  assert (Hq : forall j, 0 <= j -> part (appended fs1 (inode w) header) s j
            = if j =? _wid s then part fs1 s (_wid s) ++ header else part fs1 s j).
  { intros. by apply part_appended. }
  split; [done|]. split; [by apply sound_appended|]. split; [split; [done|]|split; [done|split; [done|split]]].
  - intros suffix. cbn. rewrite Hre. apply Hf.
  - rewrite Hq, Z.eqb_refl, Hp1 by done. unfold part, file_at. by rewrite Ee, Hn.
  - intros j Hj Hne. rewrite Hq, (proj2 (Z.eqb_neq _ _)) by done. apply Hp1.
Qed.

(** What writing does not change. *)
Definition kept s s' : Prop :=
  _rid s' = _rid s /\ position s' = position s /\ _max_file_size s' = _max_file_size s
  /\ _auto_delete s' = _auto_delete s /\ _base_path s' = _base_path s.

(** Going on to the next part keeps what was to be read. *)
Lemma next_part fuel lo fs s :
  wf lo fs s -> (0 < fuel)%nat ->
  exists fs' s', _open_write_file fuel fs (with_write s (_wfile s) (_wid s + 1) (_woffset s)) = (fs', s', Returns tt)
    /\ wf lo fs' s' /\ unread fs' s' = unread fs s
    /\ _wid s' = _wid s + 1 /\ part fs' s' (_wid s') = header
    /\ (forall j, 0 <= j -> j <> _wid s' -> part fs' s' j = part fs s j) /\ kept s s'.
Proof.
  intros [Hs Hf Hid Ha Hp Hh Hw Hr] Hfuel.
  set (s1 := with_write s (_wfile s) (_wid s + 1) (_woffset s)).
  destruct (open_new_part fuel fs s1) as (fs' & w & E & Hs' & Hf' & Hw' & Hoth & Hhd & Hold); try done.
  { cbn. lia. } { cbn. lia. }
  { cbn. apply eq_None_not_Some. rewrite (parts_of_entry _ _ _ _ _ Hp) by lia. lia. }
  exists fs'. eexists. split; [exact E|].
  change (part fs' s1) with (part fs' s) in *. change (part fs s1) with (part fs s) in *. cbn in Hhd, Hold, Hw', Hoth.
  set (s2 := with_write _ _ _ _). change (part fs' s2) with (part fs' s).
  split; [|split; [|split; [done|split; [done|split; [exact Hold|done]]]]].
  - split; cbn; try done.
    + lia.
    + apply (parts_of_snoc fs); try done; lia.
    + intros j Hj. change (part fs' s2 j) with (part fs' s j). destruct (decide (j = _wid s + 1)) as [->|]; [by rewrite Hhd|].
      rewrite Hold by lia. apply Hh. lia.
    + exists w. repeat split; try done. change (part fs' s2 (_wid s + 1)) with (part fs' s (_wid s + 1)). by rewrite Hhd.
    + intros r Er. destruct (Hr r Er) as [Hn Ho]. change (part fs' s2 (_rid s)) with (part fs' s (_rid s)).
      rewrite Hoth, Hold by (lia || by intros E'; apply part_entry_inj in E'; lia). done.
  - unfold unread, payload. change (_rid s2) with (_rid s). change (_wid s2) with (_wid s + 1).
    change (part fs' s2) with (part fs' s).
    change (position s2) with (position s). rewrite Hold by lia. f_equal.
    replace (_wid s + 1 - _rid s) with (Z.of_nat (Z.to_nat (_wid s - _rid s)) + 1) by lia.
    rewrite seqZ_app by lia. rewrite fmap_app, concat_app, seqZ_1. cbn [fmap list_fmap concat].
    replace (_rid s + 1 + Z.of_nat (Z.to_nat (_wid s - _rid s))) with (_wid s + 1) by lia.
    rewrite Hhd. change (drop header_size header) with (@nil byte). rewrite !app_nil_r.
    rewrite Z2Nat.id by lia. f_equal. apply list_fmap_ext. intros k j Hk. apply lookup_seqZ in Hk. rewrite Hold by lia. done.
Qed.

(** Writing to the part at hand. *)
Lemma put fuel lo fs s b :
  wf lo fs s -> (0 < fuel)%nat ->
  exists fs' s' w, _wfile s = Some w /\ write_loop fuel fs s w b (length b) = (fs', s', Returns tt)
    /\ wf lo fs' s' /\ unread fs' s' = unread fs s ++ b
    /\ _wid s' = _wid s /\ part fs' s' (_wid s') = part fs s (_wid s) ++ b
    /\ (forall j, 0 <= j -> j <> _wid s' -> part fs' s' j = part fs s j) /\ kept s s'.
Proof.
  intros Hwf Hfuel. destruct (wf_wfile _ _ _ Hwf) as (w & Ew & Hn & Ho).
  pose proof (wf_ids _ _ _ Hwf) as Hid.
  eexists _, _, w. split; [done|]. rewrite write_loop_appends; try done.
  2: apply (wf_free _ _ _ Hwf). 2:{ rewrite Ho. f_equal. f_equal. apply part_contents; [lia|done]. }
  split; [done|]. destruct b as [|c b]. all: cycle 1.
  - assert (Hq : forall j, 0 <= j -> part (appended fs (inode w) (c :: b)) s j
              = if j =? _wid s then part fs s (_wid s) ++ c :: b else part fs s j).
    { intros. apply part_appended; try done; [apply Hwf|lia]. }
    split; [rewrite <-Ew; by apply wf_appended|]. split; [rewrite <-Ew; by eapply unread_appended|]. split; [done|].
    change (_wid (with_write _ _ _ _)) with (_wid s).
    change (part _ (with_write _ _ _ _)) with (part (appended fs (inode w) (c :: b)) s).
    split; [by rewrite Hq, Z.eqb_refl by lia|]. split; [|done].
    intros j Hj Hne. by rewrite Hq, (proj2 (Z.eqb_neq _ _)).
  - replace (with_write _ _ _ _) with s; [|destruct s; cbn in *; subst; f_equal; lia].
    rewrite !app_nil_r. done.
Qed.

(** Where the bytes written go: at the end of the last part, or to a new one. *)
Definition grown fs s fs' s' (b : cstring) : Prop :=
  (forall j, 0 <= j -> j <> _wid s' -> part fs' s' j = part fs s j)
  /\ (_wid s' = _wid s /\ part fs' s' (_wid s') = part fs s (_wid s) ++ b
      \/ _wid s' = _wid s + 1 /\ part fs' s' (_wid s') = header ++ b).

Lemma append_bytes fuel lo fs s b :
  wf lo fs s -> (0 < fuel)%nat ->
  exists fs' s', write fuel fs s b = (fs', s', Returns (Z.of_nat (length b)))
    /\ wf lo fs' s' /\ unread fs' s' = unread fs s ++ b
    /\ Z.of_nat (length (part fs' s' (_wid s')))
       <= Z.max (_max_file_size s') (Z.of_nat header_size + Z.of_nat (length b))
    /\ grown fs s fs' s' b /\ kept s s'.
Proof.
  intros Hwf Hfuel. unfold write. pose proof (wf_ids _ _ _ Hwf) as Hid.
  destruct (wf_wfile _ _ _ Hwf) as (w & Ew & _ & Ho). rewrite Ew. cbv beta iota.
  destruct (_woffset s + Z.of_nat (length b) >? _max_file_size s) eqn:E.
  - destruct (next_part fuel lo fs s Hwf Hfuel) as (fs1 & s1 & E1 & Hwf1 & Hu & Hw1 & Hh & Hold & Hk).
    rewrite E1. cbv beta iota.
    destruct (put fuel lo fs1 s1 b Hwf1 Hfuel) as (fs' & s' & w1 & -> & -> & ? & Hu' & Hw' & Hp & Hold' & Hk').
    exists fs', s'. rewrite Hu', Hu. split_and!; try done.
    + rewrite Hp, Hh, length_app. unfold header_size. change (length header) with 8%nat. lia.
    + split; [intros j Hj Hne; rewrite Hold', Hold by (rewrite <-?Hw'; lia); done|].
      right. rewrite Hp, Hh, Hw'. done.
    + unfold kept in *. destruct Hk as (<- & <- & <- & <- & <-). done.
  - cbv beta iota.
    destruct (put fuel lo fs s b Hwf Hfuel) as (fs' & s' & w1 & E1 & E2 & ? & Hu' & Hw' & Hp & Hold' & Hk').
    rewrite E1, E2. exists fs', s'. split_and!; try done.
    + rewrite Hp, length_app. destruct Hk' as (_ & _ & -> & _). lia.
    + split; [done|]. by left.
Qed.

(** C32. The bytes written go behind all that is still to be read, and no part
    outgrows the maximum unless a single write does. *)
Theorem write_appends fuel lo fs s b :
  wf lo fs s -> (0 < fuel)%nat ->
  exists fs' s', write fuel fs s b = (fs', s', Returns (Z.of_nat (length b)))
    /\ wf lo fs' s' /\ unread fs' s' = unread fs s ++ b
    /\ Z.of_nat (length (part fs' s' (_wid s')))
       <= Z.max (_max_file_size s') (Z.of_nat header_size + Z.of_nat (length b)).
Proof.
  intros Hwf Hfuel. destruct (append_bytes fuel lo fs s b Hwf Hfuel) as (fs' & s' & ? & ? & ? & ? & _).
  by exists fs', s'.
Qed.

(** *** Reading *)

(** Opening what is not open yet changes nothing to what is to be read. *)
Lemma read_opens lo fs s :
  wf lo fs s ->
  exists s1 r, match _rfile s with None => _open_read_file fs s | Some _ => (s, Returns tt) end = (s1, Returns tt)
    /\ wf lo fs s1 /\ _rfile s1 = Some r /\ unread fs s1 = unread fs s /\ _wid s1 = _wid s /\ kept s s1.
Proof.
  intros Hwf. destruct (_rfile s) as [r|] eqn:Er; [by exists s, r|].
  destruct Hwf as [Hs Hf Hid Ha Hp Hh Hw Hr].
  assert (Hex : exists r, _open_read_file fs s = (with_read s (Some r) (_rid s) (Z.of_nat header_size), Returns tt)
            /\ names fs !! part_entry (_base_path s) (_rid s) = Some (inode r)).
  { unfold _open_read_file. destruct Hw as (w & Ew & Hn & _).
    destruct (Z.eqb_spec (_rid s) (_wid s)) as [E|E].
    - rewrite Ew. exists w. by rewrite E.
    - destruct (proj2 (parts_of_entry _ _ _ _ (_rid s) Hp ltac:(lia) ltac:(lia)) ltac:(lia)) as [i Hi].
      rewrite (fopen_update_opened _ _ i); [by eexists|..]; rewrite entry_of_part by lia; [apply Hf|done]. }
  destruct Hex as (r & -> & Hr'). eexists _, r. split; [done|].
  assert (Hpos : position s = header_size) by (unfold position; by rewrite Er).
  split; [|split; [done|split; [|split; [done|unfold kept; by rewrite Hpos]]]].
  - split; cbn; try done. intros r' [= <-]. split; [done|].
    change (part fs (with_read _ _ _ _) (_rid s)) with (part fs s (_rid s)).
    specialize (Hh (_rid s) ltac:(lia)). lia.
  - unfold unread. by rewrite Hpos.
Qed.

Lemma fread_part lo fs s r n :
  wf lo fs s -> _rfile s = Some r ->
  fread fs r (Z.to_nat (_roffset s)) n = take n (drop (Z.to_nat (_roffset s)) (part fs s (_rid s))).
Proof.
  intros Hwf Er. destruct (wf_rfile _ _ _ Hwf r Er) as [Hn _]. unfold fread.
  rewrite (part_contents fs s (_rid s) (inode r)); [done| |done]. pose proof (wf_ids _ _ _ Hwf). lia.
Qed.

(** What was read is no longer to be read. *)
Lemma consumed lo fs s r n rb :
  wf lo fs s -> _rfile s = Some r -> fread fs r (Z.to_nat (_roffset s)) n = rb ->
  wf lo fs (with_read s (Some r) (_rid s) (_roffset s + Z.of_nat (length rb)))
  /\ unread fs s = rb ++ unread fs (with_read s (Some r) (_rid s) (_roffset s + Z.of_nat (length rb))).
Proof.
  intros Hwf Er <-. rewrite (fread_part _ _ _ _ _ Hwf Er).
  destruct (wf_rfile _ _ _ Hwf r Er) as [Hn Ho].
  set (rb := take n _). assert (Hl : (length rb <= length (part fs s (_rid s)) - Z.to_nat (_roffset s))%nat).
  { unfold rb. rewrite length_take, length_drop. lia. }
  split.
  - destruct Hwf as [Hs Hf Hid Ha Hp Hh Hw Hr]. split; cbn; try done.
    intros r' [= <-]. split; [done|].
    change (part fs (with_read _ _ _ _) (_rid s)) with (part fs s (_rid s)). lia.
  - unfold unread, position. cbn. rewrite Er. change (part fs (with_read _ _ _ _)) with (part fs s).
    rewrite app_assoc. f_equal. rewrite <-(take_drop n (drop (Z.to_nat (_roffset s)) (part fs s (_rid s)))) at 1.
    fold rb. f_equal. rewrite drop_drop. unfold rb. rewrite length_take, length_drop.
    destruct (decide (n <= length (part fs s (_rid s)) - Z.to_nat (_roffset s))%nat).
    + f_equal. lia.
    + rewrite !drop_ge by lia. done.
Qed.

Definition low_after (s : splitter) (lo : Z) : Z := if _auto_delete s then _rid s + 1 else lo.
Definition disk_after fs s : file_system :=
  if _auto_delete s then remove fs (get_file_path s (_rid s)) else fs.

Lemma disk_after_names lo fs s j :
  wf lo fs s -> 0 <= j -> j <> _rid s ->
  names (disk_after fs s) !! part_entry (_base_path s) j = names fs !! part_entry (_base_path s) j.
Proof.
  intros Hwf Hj Hne. pose proof (wf_ids _ _ _ Hwf). unfold disk_after. destruct (_auto_delete s); [|done].
  cbn. rewrite lookup_delete_ne; [done|]. rewrite entry_of_part by lia.
  intros E. apply part_entry_inj in E; lia.
Qed.

Lemma disk_after_part lo fs s j :
  wf lo fs s -> 0 <= j -> j <> _rid s -> part (disk_after fs s) s j = part fs s j.
Proof.
  intros Hwf Hj Hne. unfold part, file_at. rewrite entry_of_part by done.
  rewrite (disk_after_names lo) by done. unfold disk_after. by destruct (_auto_delete s).
Qed.

(** Reaching the end of a part that is not the last one. *)
Lemma disk_after_parts lo fs s :
  wf lo fs s -> parts_of (disk_after fs s) (_base_path s) (low_after s lo) (_wid s).
Proof.
  intros [Hs Hf Hid Ha Hp Hh Hw Hr]. unfold disk_after, low_after. destruct (_auto_delete s); [|done].
  intros suffix. cbn. rewrite entry_of_part by lia. unfold part_entry. rewrite (Ha eq_refl) in Hp.
  destruct (decide (suffix = part_suffix (_rid s))) as [->|Hne].
  - rewrite lookup_delete_eq. split; [by intros []|]. intros (j & Hj & E). apply part_suffix_inj in E; lia.
  - rewrite lookup_delete_ne by (intros [= E%app_inv_head]; done). rewrite (Hp suffix).
    split; intros (j & Hj & ->); exists j; (split; [|done]); [|lia].
    destruct (decide (j = _rid s)) as [->|]; [done|lia].
Qed.

Lemma turn lo fs s r :
  wf lo fs s -> _rfile s = Some r -> _rid s < _wid s ->
  _roffset s = Z.of_nat (length (part fs s (_rid s))) ->
  exists s', _open_read_file (disk_after fs s) (with_read s (Some r) (_rid s + 1) (_roffset s)) = (s', Returns tt)
    /\ wf (low_after s lo) (disk_after fs s) s' /\ unread (disk_after fs s) s' = unread fs s
    /\ _wid s' = _wid s /\ kept (with_read s None (_rid s + 1) (_roffset s)) s'.
Proof.
  intros Hwf Er Hlt Ho.
  pose proof (disk_after_parts _ _ _ Hwf) as Hp'.
  pose proof (fun j => disk_after_part lo fs s j Hwf) as Hpart.
  pose proof (fun j => disk_after_names lo fs s j Hwf) as Hname.
  destruct Hwf as [Hs Hf Hid Ha Hp Hh Hw Hr].
  set (s1 := with_read s None (_rid s + 1) (_roffset s)).
  assert (Hwf1 : wf (low_after s lo) (disk_after fs s) s1).
  { split; cbn; try done.
    - unfold disk_after. destruct (_auto_delete s); [by apply sound_remove|done].
    - unfold disk_after. by destruct (_auto_delete s).
    - unfold low_after. destruct (_auto_delete s); lia.
    - unfold low_after. by intros ->.
    - intros j Hj. change (part _ s1 j) with (part (disk_after fs s) s j).
      assert (Hj' : _rid s < j \/ _auto_delete s = false /\ lo <= j) by (unfold low_after in Hj; destruct (_auto_delete s); lia).
      destruct (decide (j = _rid s)) as [->|]; [|rewrite Hpart by lia; apply Hh; lia].
      unfold disk_after. destruct Hj' as [?|[-> ?]]; [lia|]. apply Hh. lia.
    - destruct Hw as (w & ? & ? & ?). exists w.
      change (part _ s1 (_wid s)) with (part (disk_after fs s) s (_wid s)).
      rewrite Hname, Hpart by lia. done. }
  destruct (read_opens _ _ _ Hwf1) as (s' & r' & E & Hwf' & Er' & Hu & Hwi & Hk).
  exists s'. split; [exact E|]. split; [done|]. split; [|done].
  rewrite Hu. unfold unread, payload. change (position s1) with header_size. unfold position. rewrite Er, Ho, Nat2Z.id, drop_all.
  change (_rid s1) with (_rid s + 1). change (_wid s1) with (_wid s). change (part _ s1) with (part (disk_after fs s) s).
  cbn [app]. rewrite Hpart by lia.
  rewrite (seqZ_cons (_rid s + 1)) by lia. cbn [fmap list_fmap concat]. f_equal. f_equal.
  replace (Z.succ (_rid s + 1)) with (_rid s + 1 + 1) by lia.
  replace (Z.pred (_wid s - _rid s)) with (_wid s - (_rid s + 1)) by lia.
  apply list_fmap_ext. intros k j Hk'. apply lookup_seqZ in Hk'. by rewrite Hpart by lia.
Qed.

(** What the disk is once everything was read: without any part when they are
    removed as they are read, as it was otherwise. *)
Definition emptied fs (path : cstring) : Prop :=
  sound fs /\ unhindered fs path /\ forall suffix, names fs !! (fst (entry_of path), snd (entry_of path) ++ suffix) = None.

Definition finished lo fs s : Prop :=
  if _auto_delete s then emptied fs (_base_path s) else wf lo fs s /\ unread fs s = [].

Lemma last_part_read lo fs s :
  wf lo fs s -> _rid s = _wid s -> unread fs s = [] -> finished lo (disk_after fs s) s.
Proof.
  intros Hwf E Hu. unfold finished. pose proof (disk_after_parts _ _ _ Hwf) as Hp.
  unfold disk_after, low_after in *. destruct (_auto_delete s); [|done].
  pose proof (wf_ids _ _ _ Hwf). split; [apply sound_remove, Hwf|]. split; [apply Hwf|].
  intros suffix. apply eq_None_not_Some. rewrite (Hp suffix). intros (j & ? & _). lia.
Qed.

(** What is left of the part being read. *)
Definition left_here fs s : cstring := drop (position s) (part fs s (_rid s)).

(** A read within the part. *)
Lemma read_within fuel max lo fs s :
  wf lo fs s -> left_here fs s <> [] ->
  exists s' c, read fuel max fs s = (fs, s', Returns c) /\ c <> [] /\ (length c <= Pos.to_nat max)%nat
    /\ left_here fs s = c ++ left_here fs s' /\ unread fs s = c ++ unread fs s' /\ wf lo fs s'
    /\ _rid s' = _rid s /\ _wid s' = _wid s /\ _auto_delete s' = _auto_delete s /\ _base_path s' = _base_path s
    /\ position s' = (position s + length c)%nat.
Proof.
  intros Hwf Hl. destruct (read_opens _ _ _ Hwf) as (s1 & r & E & Hwf1 & Er & Hu & Hw & Hi & Hp & _ & Ha & Hb).
  assert (Hl1 : left_here fs s1 = left_here fs s).
  { unfold left_here. rewrite Hp, Hi. unfold part. by rewrite !get_file_path_suffix, Hb. }
  assert (Hpo : position s1 = Z.to_nat (_roffset s1)) by (unfold position; by rewrite Er).
  pose proof (fread_part _ _ _ _ (Pos.to_nat max) Hwf1 Er) as Ef.
  rewrite <-Hpo in Ef. change (drop (position s1) (part fs s1 (_rid s1))) with (left_here fs s1) in Ef. rewrite Hl1 in Ef.
  set (c := take (Pos.to_nat max) (left_here fs s)) in Ef.
  assert (Hc : c <> []).
  { unfold c. destruct (left_here fs s); [done|]. by destruct (Pos2Nat.is_succ max) as [k ->]. }
  rewrite Hpo in Ef. destruct (consumed _ _ _ _ _ _ Hwf1 Er Ef) as [Hwf2 Hu2].
  set (s2 := with_read s1 _ _ _) in *.
  assert (Hp2 : position s2 = (position s + length c)%nat).
  { unfold position at 1. cbn. rewrite <-Hp, Hpo. pose proof (wf_rfile _ _ _ Hwf1 r Er). lia. }
  exists s2, c. split.
  - destruct fuel; cbn [read]; rewrite E; cbv beta iota; rewrite Er, Ef; cbv zeta; fold s2; by destruct c.
  - split_and!; try done.
    + unfold c. rewrite length_take. lia.
    + unfold left_here at 2. rewrite Hp2. change (_rid s2) with (_rid s1). change (part fs s2) with (part fs s1).
      rewrite <-drop_drop. rewrite <-Hp. change (drop (position s1) (part fs s1 (_rid s1))) with (left_here fs s1).
      rewrite Hl1. unfold c. rewrite <-(take_drop (Pos.to_nat max) (left_here fs s)) at 1. f_equal.
      rewrite length_take. destruct (decide (Pos.to_nat max <= length (left_here fs s))%nat).
      * f_equal. lia.
      * by rewrite !drop_ge by lia.
    + by rewrite <-Hu.
Qed.

(** A read at the end of a part reads the next one. *)
Lemma read_turns fuel max lo fs s :
  wf lo fs s -> left_here fs s = [] -> _rid s < _wid s ->
  exists s', read (S fuel) max fs s = read fuel max (disk_after fs s) s'
    /\ wf (low_after s lo) (disk_after fs s) s' /\ unread (disk_after fs s) s' = unread fs s
    /\ _wid s' = _wid s /\ kept (with_read s None (_rid s + 1) (_roffset s)) s'.
Proof.
  intros Hwf Hl Hlt. destruct (read_opens _ _ _ Hwf) as (s1 & r & E & Hwf1 & Er & Hu & Hw & Hi & Hp & Hm & Ha & Hb).
  assert (Hpo : position s1 = Z.to_nat (_roffset s1)) by (unfold position; by rewrite Er).
  assert (Hl1 : left_here fs s1 = []).
  { rewrite <-Hl. unfold left_here. rewrite Hp, Hi. unfold part. by rewrite !get_file_path_suffix, Hb. }
  pose proof (fread_part _ _ _ _ (Pos.to_nat max) Hwf1 Er) as Ef. rewrite <-Hpo in Ef.
  change (drop (position s1) (part fs s1 (_rid s1))) with (left_here fs s1) in Ef. rewrite Hl1, take_nil in Ef.
  assert (Ho : _roffset s1 = Z.of_nat (length (part fs s1 (_rid s1)))).
  { destruct (wf_rfile _ _ _ Hwf1 r Er) as [_ Hro]. apply (f_equal length) in Hl1. unfold left_here in Hl1.
    rewrite length_drop, Hpo in Hl1. cbn in Hl1. lia. }
  destruct (turn lo fs s1 r Hwf1 Er ltac:(lia) Ho) as (s' & E' & Hwf' & Hu' & Hw' & Hk).
  assert (Hd : disk_after fs s1 = disk_after fs s).
  { unfold disk_after. by rewrite Ha, !get_file_path_suffix, Hi, Hb. }
  assert (Hla : low_after s1 lo = low_after s lo) by (unfold low_after; by rewrite Ha, Hi).
  rewrite Hd, ?Hla in *. exists s'. split.
  - cbn [read]. rewrite E. cbv beta iota. rewrite Er, <-Hpo, Ef. cbv zeta. cbn [length]. rewrite Z.add_0_r.
    set (s2 := with_read s1 (Some r) (_rid s1) (_roffset s1)).
    change (if _auto_delete s2 then _ else fs) with (disk_after fs s1). rewrite Hd.
    change (_rid s2 <? _wid s2) with (_rid s1 <? _wid s1). replace (_rid s1 <? _wid s1) with true by lia.
    change (with_read s2 (Some r) (_rid s2 + 1) (_roffset s2)) with (with_read s1 (Some r) (_rid s1 + 1) (_roffset s1)).
    by rewrite E'.
  - split; [done|]. split; [by rewrite Hu', Hu|]. split; [lia|].
    unfold kept in *. cbn in *. rewrite <-Hm, <-Ha, <-Hb, <-Hi. done.
Qed.

(** A read at the end of the last part. *)
Lemma read_over fuel max lo fs s :
  wf lo fs s -> left_here fs s = [] -> _rid s = _wid s ->
  exists s', read fuel max fs s = (disk_after fs s, s', Throws Exn_shutdown)
    /\ finished lo (disk_after fs s) s' /\ _auto_delete s' = _auto_delete s /\ _base_path s' = _base_path s.
Proof.
  intros Hwf Hl Heq. destruct (read_opens _ _ _ Hwf) as (s1 & r & E & Hwf1 & Er & Hu & Hw & Hi & Hp & Hm & Ha & Hb).
  assert (Hpo : position s1 = Z.to_nat (_roffset s1)) by (unfold position; by rewrite Er).
  assert (Hl1 : left_here fs s1 = []).
  { rewrite <-Hl. unfold left_here. rewrite Hp, Hi. unfold part. by rewrite !get_file_path_suffix, Hb. }
  pose proof (fread_part _ _ _ _ (Pos.to_nat max) Hwf1 Er) as Ef. rewrite <-Hpo in Ef.
  change (drop (position s1) (part fs s1 (_rid s1))) with (left_here fs s1) in Ef. rewrite Hl1, take_nil in Ef.
  assert (Hd : disk_after fs s1 = disk_after fs s).
  { unfold disk_after. by rewrite Ha, !get_file_path_suffix, Hi, Hb. }
  assert (Hn : unread fs s1 = []).
  { unfold unread. fold (left_here fs s1). rewrite Hl1. replace (_wid s1 - _rid s1) with 0 by lia. done. }
  exists (with_read s1 (Some r) (_rid s1) (_roffset s1)). split; [|split; [|done]].
  - destruct fuel; cbn [read]; rewrite E; cbv beta iota; rewrite Er, <-Hpo, Ef; cbv zeta; cbn [length]; rewrite Z.add_0_r;
      set (s2 := with_read s1 (Some r) (_rid s1) (_roffset s1));
      change (if _auto_delete s2 then _ else fs) with (disk_after fs s1); rewrite Hd;
      change (_rid s2 <? _wid s2) with (_rid s1 <? _wid s1); by replace (_rid s1 <? _wid s1) with false by lia.
  - rewrite <-Hd. replace (with_read s1 (Some r) (_rid s1) (_roffset s1)) with s1 by (destruct s1; cbn in *; by subst).
    apply last_part_read; [done|lia|done].
Qed.

Lemma read_spec fuel max lo fs s :
  wf lo fs s -> (Z.to_nat (_wid s - _rid s) <= fuel)%nat ->
  exists lo' fs' s', _base_path s' = _base_path s /\ _auto_delete s' = _auto_delete s /\
    ((exists c, read fuel max fs s = (fs', s', Returns c) /\ c <> [] /\ (length c <= Pos.to_nat max)%nat
        /\ unread fs s = c ++ unread fs' s' /\ wf lo' fs' s')
     \/ (read fuel max fs s = (fs', s', Throws Exn_shutdown) /\ unread fs s = [] /\ finished lo' fs' s')).
Proof.
  revert lo fs s. induction fuel as [|fuel IH]; intros lo fs s Hwf Hfuel;
    (destruct (decide (left_here fs s = [])) as [Hl|Hl];
     [|match goal with |- context [read ?n max fs s] =>
         destruct (read_within n max lo fs s Hwf Hl) as (s' & c & E & H1 & H2 & _ & H3 & H4 & _ & _ & H5 & H6 & _) end;
       exists lo, fs, s'; split; [done|]; split; [done|]; left; by exists c]).
  all: assert (Hover : _rid s = _wid s -> unread fs s = [])
    by (intros Eq; unfold unread; fold (left_here fs s); rewrite Hl, Eq, Z.sub_diag; done).
  all: pose proof (wf_ids _ _ _ Hwf) as Hid.
  2: destruct (decide (_rid s < _wid s)) as [Hlt|Hge].
  2:{ destruct (read_turns fuel max lo fs s Hwf Hl Hlt) as (s1 & E & Hwf1 & Hu & Hw & Hi & _ & _ & Ha & Hb).
      rewrite E. destruct (IH _ _ _ Hwf1) as (lo' & fs' & s' & Hb' & Ha' & H); [cbn in Hi; lia|].
      exists lo', fs', s'. cbn in Ha, Hb. rewrite Hb', Ha', Hb, Ha, <-Hu. done. }
  all: match goal with |- context [read ?n ?m ?x ?y] =>
         destruct (read_over n m lo x y Hwf Hl ltac:(lia)) as (s' & E & Hf & Ha & Hb) end.
  all: exists lo, (disk_after fs s), s'; split; [done|]; split; [done|]; right; split; [exact E|]; split; [apply Hover; lia|done].
Qed.

(** Reading gives the oldest bytes that were not read, at least one and no
    more than asked for. *)
Theorem read_first fuel max lo fs s :
  wf lo fs s -> (Z.to_nat (_wid s - _rid s) <= fuel)%nat -> unread fs s <> [] ->
  exists lo' fs' s' c, read fuel max fs s = (fs', s', Returns c) /\ c <> []
    /\ (length c <= Pos.to_nat max)%nat /\ unread fs s = c ++ unread fs' s' /\ wf lo' fs' s'.
Proof.
  intros Hwf Hf Hu. destruct (read_spec fuel max lo fs s Hwf Hf) as (lo' & fs' & s' & _ & _ & [(c & H)|(_ & H & _)]); [|done].
  by exists lo', fs', s', c.
Qed.

(** Once everything was read, reading throws shutdown, and with automatic
    deletion no part is left on disk. *)
Theorem read_end fuel max lo fs s :
  wf lo fs s -> (Z.to_nat (_wid s - _rid s) <= fuel)%nat -> unread fs s = [] ->
  exists lo' fs' s', read fuel max fs s = (fs', s', Throws Exn_shutdown) /\ finished lo' fs' s'
    /\ _auto_delete s' = _auto_delete s /\ _base_path s' = _base_path s.
Proof.
  intros Hwf Hf Hu. destruct (read_spec fuel max lo fs s Hwf Hf) as (lo' & fs' & s' & ? & ? & [(c & _ & ? & _ & H & _)|(? & _ & ?)]).
  - rewrite Hu in H. by destruct c.
  - by exists lo', fs', s'.
Qed.

(** *** Starting again *)

(** fnmatch on the patterns of the constructor: a text without special
    character, then a star. *)
Definition plain (l : cstring) : Prop :=
  forallb (fun b => negb (existsb (byte_eqb b) [x2a; x3f; x5b])) l = true.

Definition matches_prefixes (fnmatch : cstring -> cstring -> bool) : Prop :=
  forall p f, plain p -> p <> [] -> ends_with_slash p = false ->
    fnmatch (p ++ str "*") f = true <-> exists suffix, f = p ++ suffix /\ no_slash suffix.

(** A path in a directory: not at the root, and no doubled slash. *)
Definition ordinary (path : cstring) : Prop :=
  plain path /\ fst (entry_of path) <> [] /\ ends_with_slash (fst (entry_of path)) = false
  /\ snd (entry_of path) <> [].

Lemma strtol_suffix j : 0 < j < 2 ^ 63 -> strtol (part_suffix j) = (j, []).
Proof.
  intros Hj. destruct (part_suffix_digits j ltac:(lia)) as (Hd & Hn & Hv).
  specialize (Hn ltac:(lia)). specialize (Hv ltac:(lia)). unfold strtol.
  assert (Hsp : Dbl.span isspace (part_suffix j) = ([], part_suffix j) /\ Dbl.after_sign (part_suffix j) = (false, part_suffix j)).
  { destruct (part_suffix j) as [|c l]; [done|]. cbn [forallb] in Hd. apply andb_true_iff in Hd as [Hc _].
    cbn [Dbl.span Dbl.after_sign]. revert Hc.
    enough (H : forallb (fun c => implb (isdigit c) (negb (isspace c) && negb (byte_eqb c x2d) && negb (byte_eqb c x2b))) all_bytes = true).
    { intros Hc. pose proof (forall_bytes _ H c) as H1. cbv beta in H1. rewrite Hc in H1. cbn [implb] in H1.
      apply andb_true_iff in H1 as [[H1 H2]%andb_true_iff H3]. apply negb_true_iff in H1, H2, H3.
      by rewrite H1, H2, H3. }
    by vm_compute. }
  destruct Hsp as [E1 E2]. rewrite E1. cbn [snd]. rewrite E2.
  rewrite <-(app_nil_r (part_suffix j)) at 1. rewrite Dbl.span_app by done.
  destruct (part_suffix j) as [|c l] eqn:E; [done|]. rewrite Hv. f_equal. lia.
Qed.

Lemma scan_part_suffix pre offset ids j :
  length pre = offset -> 0 <= j < INT_MAX ->
  scan_part offset ids (pre ++ part_suffix j)
  = (if j <? fst ids then j else fst ids, if j >? snd ids then j else snd ids).
Proof.
  intros <- Hj. unfold INT_MAX in Hj. unfold scan_part. rewrite drop_app_length.
  destruct (decide (j = 0)) as [->|Hne]; [done|].
  destruct (part_suffix_digits j ltac:(lia)) as (_ & Hn & _). specialize (Hn Hne).
  pose proof (strtol_suffix j ltac:(lia)) as Hs. destruct (part_suffix j); [done|].
  rewrite Hs. by rewrite i32_small by lia.
Qed.

Lemma scan_fold pre lo hi l : forall ids,
  0 <= lo -> hi < INT_MAX ->
  Forall (fun f => exists j, lo <= j <= hi /\ f = pre ++ part_suffix j) l ->
  let r := fold_left (scan_part (length pre)) l ids in
  (fst r = fst ids \/ lo <= fst r <= hi) /\ (snd r = snd ids \/ lo <= snd r <= hi)
  /\ fst r <= fst ids /\ snd ids <= snd r
  /\ forall j, 0 <= j -> pre ++ part_suffix j ∈ l -> fst r <= j <= snd r.
Proof.
  induction l as [|f l IH]; intros ids Hlo Hhi Hl; cbn [fold_left].
  { cbv zeta. split_and!; try lia. intros j _ H. by apply not_elem_of_nil in H. }
  apply Forall_cons in Hl as [(j & Hj & ->) Hl].
  rewrite (scan_part_suffix pre) by (done || lia).
  set (ids' := (_, _)). destruct (IH ids' Hlo Hhi Hl) as (H1 & H2 & H3 & H4 & H5). cbv zeta.
  assert (Hids : fst ids' = Z.min j (fst ids) /\ snd ids' = Z.max j (snd ids)).
  { unfold ids'. cbn [fst snd]. split; case_if; lia. }
  destruct Hids as [E1 E2]. rewrite E1 in H1, H3. rewrite E2 in H2, H4. split_and!; try lia.
  intros k Hk [E%app_inv_head|Hin]%elem_of_cons; [|by apply H5].
  apply part_suffix_inj in E; lia.
Qed.

Lemma entry_of_split path :
  no_slash (snd (entry_of path))
  /\ (plain path -> plain (fst (entry_of path) ++ [slash] ++ snd (entry_of path))).
Proof.
  unfold entry_of. destruct (find_last_if (byte_eqb slash) path) as [i|] eqn:E; cbn [fst snd].
  - apply find_last_if_split in E as (x & E & Hx & Hn). apply byte_eqb_eq in Hx. subst x.
    split; [done|]. cbn [app]. by rewrite <-E.
  - apply find_last_if_None in E. split; [done|]. unfold plain. by rewrite !forallb_app.
Qed.

Lemma no_slash_not_ending l : no_slash l -> ends_with_slash l = false.
Proof.
  unfold ends_with_slash, no_slash. intros H. destruct (last l) as [c|] eqn:E; [|done].
  apply last_Some in E as [l' ->]. rewrite forallb_app in H. cbn [forallb] in H.
  apply andb_true_iff in H as [_ [H%negb_true_iff _]%andb_true_iff].
  apply byte_eqb_neq in H. apply byte_eqb_neq. congruence.
Qed.

Lemma ends_with_slash_app a b : b <> [] -> ends_with_slash (a ++ b) = ends_with_slash b.
Proof. intros Hb. unfold ends_with_slash. rewrite last_app. destruct (last b) eqn:E; [done|]. by apply last_None in E. Qed.

Section Restart.
Variable fnmatch : cstring -> cstring -> bool.
Hypothesis Hglob : matches_prefixes fnmatch.

(** The base of the listed names. *)
Definition listed_base (path : cstring) : cstring := fst (entry_of path) ++ [slash] ++ snd (entry_of path).

Lemma elem_of_parts fs path lo hi f :
  ordinary path -> parts_of fs path lo hi -> 0 <= lo ->
  f ∈ parts fnmatch fs (fst (entry_of path)) (snd (entry_of path))
  <-> exists j, lo <= j <= hi /\ f = listed_base path ++ part_suffix j.
Proof.
  intros (Hpl & Hd & Hsl & Hn) Hp Hlo. unfold parts, dir_content_with_filter.
  destruct (entry_of_split path) as [Hns Hpl']. specialize (Hpl' Hpl).
  assert (Hdir : directory_of (fst (entry_of path)) = Some (fst (entry_of path))).
  { unfold directory_of. destruct (last (fst (entry_of path))) as [c|] eqn:E; [|by apply last_None in E].
    unfold ends_with_slash in Hsl. rewrite E in Hsl. by rewrite Hsl. }
  rewrite list_elem_of_filter, elem_of_dir_content, Hsl.
  rewrite (app_assoc [slash]), (app_assoc (fst (entry_of path))).
  pose proof Hglob as Hg. unfold matches_prefixes in Hg. rewrite Hg; [|done|by destruct (fst (entry_of path))|].
  2:{ rewrite ends_with_slash_app by done. rewrite ends_with_slash_app by done. by apply no_slash_not_ending. }
  split.
  - intros [(suffix & -> & Hs) (dir & name & E & Hi & Ef)]. rewrite Hdir in E. injection E as <-.
    unfold listed_base. rewrite <-!app_assoc in Ef. apply app_inv_head in Ef. injection Ef as <-.
    apply Hp in Hi as (j & Hj & ->). by exists j.
  - intros (j & Hj & ->). split.
    + exists (part_suffix j). split; [done|]. apply no_slash_digits, part_suffix_digits. lia.
    + exists (fst (entry_of path)), (snd (entry_of path) ++ part_suffix j). split; [done|]. split.
      * apply Hp. by exists j.
      * unfold listed_base. by rewrite <-!app_assoc.
Qed.

(** The constructor finds the first and the last part. *)
Lemma scan_parts_finds fs path lo hi :
  ordinary path -> parts_of fs path lo hi -> 0 <= lo <= hi -> hi < INT_MAX ->
  scan_parts fnmatch fs path = (lo, hi).
Proof.
  intros Ho Hp Hlo Hhi. unfold scan_parts. change (base_of path) with (entry_of path).
  pose proof (fun f => elem_of_parts fs path lo hi f Ho Hp ltac:(lia)) as Hel.
  destruct Ho as (_ & _ & Hsl & _).
  destruct (entry_of path) as [d n] eqn:E. cbn [fst snd] in Hsl, Hel. rewrite Hsl.
  assert (Hlen : (length d + length n + 1)%nat = length (listed_base path)).
  { unfold listed_base. rewrite E, !length_app. cbn. lia. }
  rewrite Hlen. cbv zeta.
  pose proof (scan_fold (listed_base path) lo hi (parts fnmatch fs d n) (INT_MAX, 0) ltac:(lia) Hhi) as Hs.
  destruct Hs as (H1 & H2 & H3 & H4 & H5).
  { apply Forall_forall. intros f Hf%Hel. done. }
  destruct (fold_left _ _ _) as [rid wid]. cbn [fst snd] in *.
  pose proof (H5 lo ltac:(lia) (proj2 (Hel _) ltac:(exists lo; split; [lia|done]))).
  pose proof (H5 hi ltac:(lia) (proj2 (Hel _) ltac:(exists hi; split; [lia|done]))).
  replace ((rid =? INT_MAX) || (rid <? 0)) with false by lia. f_equal; lia.
Qed.

Lemma scan_parts_none fs path :
  ordinary path -> parts_of fs path 1 0 -> scan_parts fnmatch fs path = (0, 0).
Proof.
  intros Ho Hp. unfold scan_parts. change (base_of path) with (entry_of path).
  pose proof (fun f => elem_of_parts fs path 1 0 f Ho Hp ltac:(lia)) as Hel.
  destruct (entry_of path) as [d n] eqn:E. cbn [fst snd] in Hel.
  destruct (parts fnmatch fs d n) as [|f l]; [done|].
  destruct (proj1 (Hel f) ltac:(left)) as (j & ? & _). lia.
Qed.

(** A splitter on parts that exist starts reading at the beginning of the first
    one and goes on writing at the end of the last one. *)
Lemma new_on_parts fuel fs path lo hi max auto :
  sound fs -> unhindered fs path -> ordinary path -> parts_of fs path lo hi -> 0 <= lo <= hi -> hi < INT_MAX ->
  (forall j, lo <= j <= hi -> (header_size <= length (file_at fs (path ++ part_suffix j)))%nat) ->
  exists s, new_splitter fnmatch fuel fs path max auto = (fs, s, Returns tt) /\ wf lo fs s
    /\ _rid s = lo /\ _wid s = hi /\ _rfile s = None /\ _base_path s = path
    /\ _auto_delete s = auto /\ _max_file_size s = effective_max max.
Proof.
  intros Hs Hf Ho Hp Hlo Hhi Hh. unfold new_splitter. rewrite (scan_parts_finds _ _ lo hi) by done.
  set (s0 := Mk_splitter _ _ _ _ _ _ _ _ _).
  pose proof (entry_of_part s0 hi ltac:(lia)) as Ee. change (_base_path s0) with path in Ee.
  destruct (proj2 (parts_of_entry _ _ _ _ hi Hp ltac:(lia) ltac:(lia)) ltac:(lia)) as [i Hi].
  assert (Hpart : forall j, part fs s0 j = file_at fs (path ++ part_suffix j)).
  { intros j. unfold part. by rewrite get_file_path_suffix. }
  assert (Hc : part fs s0 hi = contents fs i) by (apply part_contents; [lia|done]).
  assert (Hsz : (size_of fs (Handle i true) <? Z.of_nat header_size) = false).
  { unfold size_of. cbn [inode]. rewrite <-Hc, Hpart. specialize (Hh hi ltac:(lia)). lia. }
  unfold _open_write_file. change (_rfile s0) with (@None handle).
  replace (if _wid s0 =? _rid s0 then None else None) with (@None handle) by (by case_if).
  unfold fopen_append. change (_wid s0) with hi. rewrite bool_decide_eq_false_2 by (rewrite Ee; apply Hf).
  rewrite Ee, Hi. cbv beta iota zeta. rewrite Hsz.
  eexists. split; [done|]. split; [|done].
  split; cbn; try done.
  - lia.
  - intros j Hj. change (part fs _ j) with (part fs s0 j). rewrite Hpart. by apply Hh.
  - exists (Handle i true). split; [done|]. split; [done|]. change (part fs _ hi) with (part fs s0 hi). by rewrite Hc.
Qed.

Lemma new_on_nothing fuel fs path max auto :
  emptied fs path -> ordinary path -> (0 < fuel)%nat ->
  exists fs' s, new_splitter fnmatch fuel fs path max auto = (fs', s, Returns tt) /\ wf 0 fs' s
    /\ unread fs' s = [] /\ _base_path s = path /\ _auto_delete s = auto /\ _max_file_size s = effective_max max
    /\ _rid s = 0 /\ _wid s = 0 /\ _rfile s = None.
Proof.
  intros (Hs & Hf & Hn) Ho Hfuel. unfold new_splitter.
  assert (Hp : parts_of fs path 1 0).
  { intros suffix. rewrite Hn. split; [by intros []|]. intros (j & ? & _). lia. }
  rewrite scan_parts_none by done. set (s0 := Mk_splitter _ _ _ _ _ _ _ _ _).
  destruct (open_new_part fuel fs s0) as (fs' & w & -> & Hs' & Hf' & Hw' & Hoth & Hhd & _); try done.
  { apply (Hn (part_suffix 0)). }
  eexists fs', _. split; [done|]. cbn in Hw', Hoth, Hf', Hhd.
  split; [|split; [|done]].
  - split; cbn; try done.
    + apply (parts_of_snoc fs fs' path 0 (-1)); try done; try lia.
      intros suffix. rewrite Hn. split; [by intros []|]. intros (j & ? & _). lia.
    + intros j Hj. replace j with 0 by lia. change (part fs' _ 0) with (part fs' s0 0). by rewrite Hhd.
    + exists w. split; [done|]. split; [done|]. change (part fs' _ 0) with (part fs' s0 0). by rewrite Hhd.
  - unfold unread. cbn. change (part fs' _ 0) with (part fs' s0 0). by rewrite Hhd.
Qed.

(** Whenever a splitter stops, a new one on the same path reads again what
    was left unread, after what had been read of the parts still on disk: of
    the current part only, when parts are removed as they are read. *)
Theorem restart_rereads fuel lo fs s max auto :
  wf lo fs s -> ordinary (_base_path s) -> _wid s < INT_MAX ->
  exists s' already,
    new_splitter fnmatch fuel fs (_base_path s) max auto = (fs, s', Returns tt) /\ wf lo fs s'
    /\ unread fs s' = already ++ unread fs s
    /\ (_auto_delete s = true -> (length already <= length (part fs s (_rid s)))%nat).
Proof.
  intros Hwf Ho Hhi. pose proof (wf_ids _ _ _ Hwf) as Hid.
  destruct (new_on_parts fuel fs (_base_path s) lo (_wid s) max auto) as (s' & E & Hwf' & Hr & Hw & Hf & Hb & _);
    [apply Hwf|apply Hwf|done|apply Hwf|lia|done| |].
  { intros j Hj. rewrite <-get_file_path_suffix. by apply (wf_header _ _ _ Hwf). }
  exists s'. rewrite E.
  assert (Hpart : forall j, part fs s' j = part fs s j) by (intros; unfold part; by rewrite !get_file_path_suffix, Hb).
  assert (Hu' : unread fs s' = concat (payload fs s <$> seqZ lo (_wid s - lo + 1))).
  { unfold unread, position. rewrite Hf, Hr, Hw, (seqZ_cons lo) by lia. cbn [fmap list_fmap concat].
    rewrite Hpart. f_equal. replace (Z.succ lo) with (lo + 1) by lia.
    replace (Z.pred (_wid s - lo + 1)) with (_wid s - lo) by lia. f_equal. apply list_fmap_ext. intros. by unfold payload; rewrite Hpart. }
  set (o := position s).
  assert (Hpo : payload fs s (_rid s) = take (o - header_size) (payload fs s (_rid s)) ++ drop o (part fs s (_rid s))).
  { rewrite <-(take_drop (o - header_size) (payload fs s (_rid s))) at 1. f_equal. unfold payload. rewrite drop_drop. f_equal.
    unfold o, position. destruct (_rfile s) as [r|] eqn:Er; [|lia]. destruct (wf_rfile _ _ _ Hwf r Er) as [_ ?]. lia. }
  exists (concat (payload fs s <$> seqZ lo (_rid s - lo)) ++ take (o - header_size) (payload fs s (_rid s))).
  split; [done|]. split; [done|]. split.
  - rewrite Hu'. unfold unread. fold o.
    replace (_wid s - lo + 1) with (_rid s - lo + (_wid s - _rid s + 1)) by lia. rewrite seqZ_app by lia.
    rewrite fmap_app, concat_app, <-!app_assoc. f_equal. replace (lo + (_rid s - lo)) with (_rid s) by lia.
    rewrite (seqZ_cons (_rid s)) by lia. cbn [fmap list_fmap concat]. rewrite Hpo at 1. rewrite <-app_assoc. f_equal. f_equal.
    replace (Z.succ (_rid s)) with (_rid s + 1) by lia.
    by replace (Z.pred (_wid s - _rid s + 1)) with (_wid s - _rid s) by lia.
  - intros Ha. rewrite (wf_lo _ _ _ Hwf Ha), Z.sub_diag, length_app.
    change (length (concat (payload fs s <$> seqZ (_rid s) 0))) with 0%nat.
    unfold payload. rewrite length_take, length_drop. lia.
Qed.

(** Removing all the files leaves none of the parts. *)
Lemma fold_remove_names l : forall fs e,
  names (fold_left remove l fs) !! e = if bool_decide (e ∈ entry_of <$> l) then None else names fs !! e.
Proof.
  induction l as [|f l IH]; intros fs e; cbn [fold_left]; [done|].
  rewrite IH. cbn [names remove]. rewrite fmap_cons.
  destruct (decide (e = entry_of f)) as [->|Hne].
  - rewrite lookup_delete_eq. rewrite (bool_decide_eq_true_2 (_ ∈ _ :: _)) by left. by case_bool_decide.
  - rewrite lookup_delete_ne by done. rewrite (bool_decide_ext (e ∈ entry_of f :: _) (e ∈ entry_of <$> l)); [done|].
    rewrite elem_of_cons. intuition.
Qed.

Lemma sound_fold_remove l : forall fs, sound fs -> sound (fold_left remove l fs).
Proof. induction l; intros; cbn; [done|]. apply IHl. by apply sound_remove. Qed.

Lemma fold_remove_rest l : forall fs,
  short_writes (fold_left remove l fs) = short_writes fs /\ refused (fold_left remove l fs) = refused fs.
Proof. induction l as [|f l IH]; intros fs; cbn; [done|]. apply (IH (remove fs f)). Qed.

(** The listing remove_all_files asks for. *)
Lemma elem_of_listed fs path f :
  ordinary path ->
  f ∈ parts fnmatch fs (fst (entry_of path) ++ [slash]) (snd (entry_of path))
  <-> exists suffix, is_Some (names fs !! (fst (entry_of path), snd (entry_of path) ++ suffix))
      /\ no_slash suffix /\ f = fst (entry_of path) ++ [slash] ++ snd (entry_of path) ++ suffix.
Proof.
  intros (Hpl & Hd & Hsl & Hn). unfold parts, dir_content_with_filter.
  destruct (entry_of_split path) as [Hns Hpl']. specialize (Hpl' Hpl).
  assert (Hdir : directory_of (fst (entry_of path) ++ [slash]) = Some (fst (entry_of path))).
  { unfold directory_of. rewrite last_snoc, byte_eqb_refl, length_app. cbn [length].
    by rewrite Nat.add_sub, take_app_length. }
  assert (Hend : ends_with_slash (fst (entry_of path) ++ [slash]) = true).
  { unfold ends_with_slash. by rewrite last_snoc, byte_eqb_refl. }
  rewrite list_elem_of_filter, elem_of_dir_content, Hend. cbn [app].
  replace ((fst (entry_of path) ++ [slash]) ++ snd (entry_of path) ++ str "*")
    with ((fst (entry_of path) ++ [slash] ++ snd (entry_of path)) ++ str "*") by (by rewrite <-!app_assoc).
  pose proof Hglob as Hg. unfold matches_prefixes in Hg. rewrite Hg; [|done|by destruct (fst (entry_of path))|].
  2:{ rewrite ends_with_slash_app by done. rewrite ends_with_slash_app by done. by apply no_slash_not_ending. }
  rewrite Hdir. split.
  - intros [(suffix & -> & Hs) (dir & name & [= <-] & Hi & Ef)].
    rewrite <-!app_assoc in Ef. apply app_inv_head in Ef. injection Ef as Ef.
    exists suffix. rewrite Ef. split; [done|]. split; [done|]. rewrite <-!app_assoc. cbn. by rewrite Ef.
  - intros (suffix & Hi & Hs & ->). split.
    + exists suffix. by rewrite <-!app_assoc.
    + eexists _, _. split; [done|]. split; [done|]. by rewrite <-!app_assoc.
Qed.

(** remove_all_files closes the files and leaves no part on disk, even
    when other files of the directory have names that begin alike. *)
Theorem remove_all_files_removes fs s :
  sound fs -> unhindered fs (_base_path s) -> ordinary (_base_path s) ->
  let '(fs', s') := remove_all_files fnmatch fs s in
  emptied fs' (_base_path s) /\ _rfile s' = None /\ _wfile s' = None
  /\ forall e, fst e <> fst (entry_of (_base_path s)) -> names fs' !! e = names fs !! e.
Proof.
  intros Hs Hf (Hpl & Hd & Hsl & Hn). unfold remove_all_files. change (_base_path (close s)) with (_base_path s).
  set (path := _base_path s) in *. destruct (entry_of_split path) as [Hns Hpl']. specialize (Hpl' Hpl).
  set (dirs := match find_last_if (byte_eqb slash) path with None => _ | Some i => _ end).
  assert (Hdirs : dirs = (fst (entry_of path) ++ [slash], snd (entry_of path))).
  { unfold dirs, entry_of. destruct (find_last_if (byte_eqb slash) path) as [i|] eqn:E; [|done].
    apply find_last_if_split in E as (x & E & Hx & _). apply byte_eqb_eq in Hx. subst x. cbn [fst snd]. f_equal.
    rewrite E at 1. assert (length (take i path) = i).
    { apply (f_equal length) in E. rewrite length_app in E. cbn [length] in E. rewrite length_drop in E.
      rewrite length_take in *. lia. }
    rewrite take_app_ge by lia. rewrite H. by replace (S i - i)%nat with 1%nat by lia. }
  rewrite Hdirs. set (l := parts _ _ _ _).
  assert (Hl : forall f, f ∈ l <-> exists suffix, is_Some (names fs !! (fst (entry_of path), snd (entry_of path) ++ suffix))
            /\ no_slash suffix /\ f = fst (entry_of path) ++ [slash] ++ snd (entry_of path) ++ suffix).
  { intros f. apply elem_of_listed. split; done. }
  split; [|split; [done|split; [done|]]].
  - split; [by apply sound_fold_remove|]. destruct (fold_remove_rest l fs) as [E1 E2].
    split; [split; [rewrite E1|intros sfx; rewrite E2]; apply Hf|].
    intros suffix. rewrite fold_remove_names. case_bool_decide as Hin; [done|].
    apply eq_None_not_Some. intros Hi. apply Hin. apply list_elem_of_fmap.
    assert (Hnn : no_slash (snd (entry_of path) ++ suffix)) by (by apply Hs in Hi).
    exists (fst (entry_of path) ++ [slash] ++ snd (entry_of path) ++ suffix). rewrite entry_of_listed by done.
    split; [done|]. apply Hl. exists suffix. split; [done|].
    split; [|done]. unfold no_slash in Hnn. rewrite forallb_app in Hnn. by zbool.
  - intros e He. rewrite fold_remove_names. rewrite bool_decide_eq_false_2; [done|].
    intros (f & -> & (suffix & Hi & _ & ->)%Hl)%list_elem_of_fmap. apply He.
    rewrite entry_of_listed; [done|]. by apply Hs in Hi.
Qed.
End Restart.

(** assert(_rid <= _wid) of the constructor holds whatever the directory
    contains and whatever the pattern matches. *)
Theorem scan_parts_ordered fnmatch fs path :
  let '(rid, wid) := scan_parts fnmatch fs path in 0 <= rid <= wid.
Proof.
  unfold scan_parts. destruct (base_of path) as [dir name].
  set (P := fun ids : Z * Z => (fst ids = INT_MAX \/ fst ids <= snd ids) /\ 0 <= snd ids).
  assert (H : P (fold_left (scan_part (length dir + length name + if ends_with_slash dir then 0 else 1))
                  (parts fnmatch fs dir name) (INT_MAX, 0))).
  { apply fold_left_inv; [|split; cbn; [by left|done]].
    intros ids f [H1 H2]. unfold scan_part. destruct (match drop _ f with [] => _ | _ => _ end) as [v|]; [|done].
    unfold P. cbn [fst snd]. do 2 case_if; lia. }
  destruct (fold_left _ _ _) as [rid wid]. unfold P in H. cbn [fst snd] in H.
  destruct ((rid =? INT_MAX) || (rid <? 0)) eqn:E; zbool; lia.
Qed.

(** ** What the code does not do *)

(** A part missing between the one being read and the one being written is
    never passed: reading returns no byte, throws nothing and changes nothing. *)
Theorem missing_part_stalls fuel max fs s :
  _rfile s = None -> _rid s <> _wid s ->
  entry_of (get_file_path s (_rid s)) ∉ refused fs -> names fs !! entry_of (get_file_path s (_rid s)) = None ->
  read fuel max fs s = (fs, s, Returns []).
Proof.
  intros Hr Hid Hre Hn. assert (E : _open_read_file fs s = (s, Returns tt)).
  { unfold _open_read_file. rewrite (proj2 (Z.eqb_neq _ _)) by done. unfold fopen_update.
    rewrite bool_decide_eq_false_2, Hn by done. destruct s; cbn in *; by subst. }
  destruct fuel; cbn [read]; by rewrite Hr, E, Hr.
Qed.

(** ** The theorems on small disks *)

Definition blank : file_system := File_system ∅ ∅ ∅ [].

(** Patterns made of a prefix and a star. *)
Definition star_glob (pattern f : cstring) : bool :=
  match last pattern with
  | Some c =>
    let p := take (length pattern - 1) pattern in
    byte_eqb c x2a && cstring_eqb (take (length p) f) p
    && forallb (fun b => negb (byte_eqb slash b)) (drop (length p) f)
  | None => false
  end.

Lemma star_glob_prefixes : matches_prefixes star_glob.
Proof.
  intros p f _ _ _. unfold star_glob. change (str "*") with [x2a].
  rewrite last_snoc, length_app. cbn [length]. rewrite Nat.add_sub, take_app_length, byte_eqb_refl.
  cbn [andb]. unfold cstring_eqb. rewrite andb_true_iff, bool_decide_eq_true. split.
  - intros [H1 H2]. exists (drop (length p) f). split; [|done]. rewrite <-H1 at 1. by rewrite take_drop.
  - intros (suffix & -> & H). by rewrite take_app_length, drop_app_length.
Qed.

Definition demo_path : cstring := str "/var/lib/q".

Lemma demo_path_ordinary : ordinary demo_path.
Proof. by vm_compute. Qed.

Definition opened (fs : file_system) (max : Z) (auto : bool) : file_system * splitter * outcome unit :=
  new_splitter star_glob 5 fs demo_path max auto.
Definition demo_fs : file_system := fst (fst (opened blank 10000 true)).
Definition demo_splitter : splitter := snd (fst (opened blank 10000 true)).

Lemma blank_emptied : emptied blank demo_path.
Proof.
  assert (Hn : forall e, names blank !! e = None) by (intros; apply lookup_empty).
  split; [|split; [split; [done|]|]].
  - split_and!; [intros ? ? H|intros ? ? ? H|intros ? [? H]]; by rewrite Hn in H.
  - intros. apply not_elem_of_empty.
  - intros. apply Hn.
Qed.

Lemma demo_wf : wf 0 demo_fs demo_splitter.
Proof.
  destruct (new_on_nothing star_glob star_glob_prefixes 5 blank demo_path 10000 true)
    as (fs & s & E & H & _); [apply blank_emptied|apply demo_path_ordinary|lia|].
  fold (opened blank 10000 true) in E. unfold demo_fs, demo_splitter. by rewrite E.
Qed.

Lemma write_appends_witness :
  exists fs' s', write 5 demo_fs demo_splitter (str "abc") = (fs', s', Returns 3)
    /\ wf 0 fs' s' /\ unread fs' s' = unread demo_fs demo_splitter ++ str "abc"
    /\ Z.of_nat (length (part fs' s' (_wid s')))
       <= Z.max (_max_file_size s') (Z.of_nat header_size + 3).
Proof. apply (write_appends 5 0 demo_fs demo_splitter (str "abc")); [apply demo_wf|lia]. Defined.

(** The same disk once three bytes were written. *)
Definition demo_write : file_system * splitter * outcome Z := write 5 demo_fs demo_splitter (str "abc").
Definition full_fs : file_system := fst (fst demo_write).
Definition full_splitter : splitter := snd (fst demo_write).

Lemma full_wf : wf 0 full_fs full_splitter.
Proof.
  destruct (append_bytes 5 0 demo_fs demo_splitter (str "abc") demo_wf ltac:(lia)) as (fs & s & E & H & _).
  fold demo_write in E. unfold full_fs, full_splitter. by rewrite E.
Qed.

Lemma read_first_witness :
  exists lo' fs' s' c, read 5 2 full_fs full_splitter = (fs', s', Returns c) /\ c <> []
    /\ (length c <= 2)%nat /\ unread full_fs full_splitter = c ++ unread fs' s' /\ wf lo' fs' s'.
Proof.
  apply (read_first 5 2 0 full_fs full_splitter); [apply full_wf|apply Nat.leb_le; by vm_compute|by vm_compute].
Defined.

Lemma read_end_witness :
  exists lo' fs' s', read 5 2 demo_fs demo_splitter = (fs', s', Throws Exn_shutdown) /\ finished lo' fs' s'
    /\ _auto_delete s' = true /\ _base_path s' = demo_path.
Proof.
  apply (read_end 5 2 0 demo_fs demo_splitter); [apply demo_wf|apply Nat.leb_le; by vm_compute|by vm_compute].
Defined.

Lemma restart_rereads_witness :
  exists s' already,
    new_splitter star_glob 5 full_fs demo_path 10000 true = (full_fs, s', Returns tt) /\ wf 0 full_fs s'
    /\ unread full_fs s' = already ++ unread full_fs full_splitter
    /\ (true = true -> (length already <= length (part full_fs full_splitter 0))%nat).
Proof.
  apply (restart_rereads star_glob star_glob_prefixes 5 0 full_fs full_splitter 10000 true);
    [apply full_wf|apply demo_path_ordinary|by vm_compute].
Defined.

Lemma remove_all_files_removes_witness :
  let '(fs', s') := remove_all_files star_glob full_fs full_splitter in
  emptied fs' demo_path /\ _rfile s' = None /\ _wfile s' = None
  /\ forall e, fst e <> str "/var/lib" -> names fs' !! e = names full_fs !! e.
Proof.
  apply (remove_all_files_removes star_glob star_glob_prefixes full_fs full_splitter);
    [apply full_wf|apply full_wf|apply demo_path_ordinary].
Defined.

(** The disk of a queue named q and of another one, named q2. *)
Definition crowded : file_system :=
  File_system {[ (str "/var/lib", str "q") := 1%positive; (str "/var/lib", str "q2") := 2%positive ]}
    {[ 1%positive := header ++ str "one"; 2%positive := header ++ str "two" ]} ∅ [].
Definition crowded_splitter : splitter := snd (fst (opened crowded 10000 true)).
Definition stalled : file_system * splitter * outcome cstring :=
  let '(fs, s, _) := read 5 10 crowded crowded_splitter in read 5 10 fs s.

Lemma missing_part_stalls_witness :
  _wid crowded_splitter = 2
  /\ read 5 10 (fst (fst stalled)) (snd (fst stalled)) = (fst (fst stalled), snd (fst stalled), Returns []).
Proof.
  split; [by vm_compute|].
  apply (missing_part_stalls 5 10 (fst (fst stalled)) (snd (fst stalled)));
    [by vm_compute|by vm_compute| |by vm_compute].
  apply (bool_decide_unpack _). by vm_compute.
Defined.

(** The file of the other queue was taken for a part, and what is written goes
    into it. *)
Lemma other_queue_taken_for_a_part :
  let '(fs, _, _) := write 5 crowded crowded_splitter (str "!") in
  file_at fs (str "/var/lib/q2") = header ++ str "two!".
Proof. by vm_compute. Qed.

(** A write cut short starts its buffer again: its first byte is there twice and
    its last one never. *)
Lemma short_write_repeats :
  let fs := File_system (names demo_fs) (files demo_fs) ∅ [1%nat] in
  let '(fs, s, r) := write 5 fs demo_splitter (str "abc") in
  r = Returns 3 /\ unread fs s = str "aab".
Proof. by vm_compute. Qed.

(** Reaching the end removes the part that is still being written to: what is
    written next can be read by this splitter but not by the next one. *)
Lemma written_after_end_is_lost :
  let '(fs, s, r) := read 5 10 demo_fs demo_splitter in
  let '(fs, s, _) := write 5 fs s (str "abc") in
  r = Throws Exn_shutdown
  /\ snd (read 5 10 fs s) = Returns (str "abc")
  /\ let '(fs, s, _) := opened fs 10000 true in unread fs s = [].
Proof. by vm_compute. Qed.

(** The header of a part cut in its first bytes is not written over them but
    after them, and its last bytes are read as data. *)
Definition cut_header : file_system :=
  File_system {[ (str "/var/lib", str "q") := 1%positive ]} {[ 1%positive := take 3 header ]} ∅ [].
Lemma header_after_cut_header :
  let '(fs, s, _) := opened cut_header 10000 true in
  file_at fs demo_path = take 3 header ++ header
  /\ snd (read 5 10 fs s) = Returns [x00; x00; x08] /\ _woffset s = 8.
Proof. by vm_compute. Qed.

End Splitter.
