(* ===== verification/FileStream.v ===== *)
(** * File streams (core/src/file/stream.cc, core/src/file/opener.cc)

    The stream over a splitter that hands its bytes in chunks of BUFSIZ, with
    the disk it works on, its statistics, and the opener. It is an instance of
    [Substream], the interface the layers above are written against. *)

From Stdlib Require Import ZArith Lia ZifyNat ZifyBool Strings.Byte.
From stdpp Require Import base option list numbers strings gmap sets.
From S2P Require Import Prelude Double FileSystem Splitter Transport.

Module FileStream.
Import FileSystem Splitter Transport.

(** BUFSIZ of the C library. *)
Definition BUFSIZ : positive := 8192.

Record file_stream : Type := File_stream {
  disk : file_system;
  _file : splitter;
  _last_read_offset : Z;
  _last_time : Z;
  _last_write_offset : Z
}.

Implicit Types f : file_stream.

Definition with_file f fs s :=
  File_stream fs s (_last_read_offset f) (_last_time f) (_last_write_offset f).

Definition new_stream (fs : file_system) (s : splitter) : file_stream := File_stream fs s 0 0 0.

(** Enough turns for the recursion of splitter::read and for the loops of
    splitter::write. *)
Definition read_fuel f : nat := Z.to_nat (_wid (_file f) - _rid (_file f)).
Definition write_fuel (fs : file_system) : nat := S (length (short_writes fs)).

Definition peer f : cstring := str "file://" ++ get_file_path (_file f) 0.

(** A read always ends in time; nothing read gives no event. *)
Definition read f (deadline : Z) : file_stream * outcome (bool * option received) :=
  let '(fs, s, r) := Splitter.read (read_fuel f) BUFSIZ (disk f) (_file f) in
  (with_file f fs s,
   data ← r; Returns (true, match data with [] => None | _ => Some (Raw data) end)).

(** while (size > 0): what a call of splitter::write took is passed over. *)
Fixpoint write_loop (fuel : nat) f (memory : cstring) (size : Z) : file_stream * outcome unit :=
  if 0 <? size then
    match fuel with
    | O => (f, Diverges)
    | S fuel' =>
      let '(fs, s, r) := Splitter.write (write_fuel (disk f)) (disk f) (_file f) memory in
      match r with
      | Returns wb => write_loop fuel' (with_file f fs s) (drop (Z.to_nat wb) memory) (u32 (size - wb))
      | Throws e => (with_file f fs s, Throws e)
      | Diverges => (with_file f fs s, Diverges)
      end
    end
  else (f, Returns tt).

(** Raw data; anything else is acknowledged and ignored. *)
Definition write f (memory : cstring) : file_stream * outcome unit :=
  write_loop 1 f memory (u32 (Z.of_nat (length memory))).

Definition remove_all_files (fnmatch : cstring -> cstring -> bool) f : file_stream :=
  let '(fs, s) := Splitter.remove_all_files fnmatch (disk f) (_file f) in with_file f fs s.

(** ** statistics *)

Inductive json : Type :=
  | Number (x : Double.double)
  | Integer (n : Z)
  | Text (t : cstring).

(** [now]: time(nullptr). *)
Definition statistics (now : Z) f : file_stream * list (cstring * json) :=
  let s := _file f in
  let max_file_size := get_max_file_size s in
  let rid := get_rid s in
  let roffset := get_roffset s in
  let wid := get_wid s in
  let woffset := get_woffset s in
  let tree :=
    [(str "file_read_path", Integer rid); (str "file_read_offset", Number (Dbl.of_Z roffset));
     (str "file_write_path", Integer wid); (str "file_write_offset", Number (Dbl.of_Z woffset));
     (str "file_max_size", if negb (max_file_size =? LONG_MAX) then Number (Dbl.of_Z max_file_size)
                           else Text (str "unlimited"))] in
  let froffset := i64 (roffset + rid * max_file_size) in
  let fwoffset := i64 (woffset + wid * max_file_size) in
  if (negb (rid =? wid) && (max_file_size =? LONG_MAX)) || (fwoffset =? 0) then
    (f, tree ++ [(str "file_percent_processed", Text (str "unknown"))])
  else
    let tree := tree ++ [(str "file_percent_processed",
      Number (Dbl.div (Dbl.mul (Dbl.of_Z 100) (Dbl.of_Z froffset)) (Dbl.of_Z fwoffset)))] in
    let f' := File_stream (disk f) s froffset now fwoffset in
    if negb (_last_time f =? 0) && negb (now =? _last_time f) then
      let div := u64 (froffset + _last_write_offset f - _last_read_offset f - fwoffset) in
      let eta := if div =? 0 then 0
                 else i64 (now + u64 ((fwoffset - froffset) * (now - _last_time f)) / div) in
      let tree := tree ++ [(str "file_expected_terminated_at",
        if div =? 0 then Text (str "file not processed fast enough to terminate") else Number (Dbl.of_Z eta))] in
      if max_file_size =? LONG_MAX then
        (f', tree ++ [(str "file_expected_max_size",
          Number (Dbl.of_Z (i64 (fwoffset
            + Z.quot ((fwoffset - _last_write_offset f) * (eta - now)) (now - _last_time f)))))])
      else (f', tree)
    else (f', tree).

(** ** The opener *)

Record opener : Type := Opener {
  _auto_delete : bool;
  _filename : cstring;
  _max_size : Z
}.

Definition new_opener : opener := Opener true [] 100000000.
Definition set_auto_delete (o : opener) (b : bool) := Opener b (_filename o) (_max_size o).
Definition set_filename (o : opener) (filename : cstring) := Opener (_auto_delete o) filename (_max_size o).
Definition set_max_size (o : opener) (max : Z) := Opener (_auto_delete o) (_filename o) max.

(** The size goes from unsigned long long to long. *)
Definition open (fnmatch : cstring -> cstring -> bool) (fs : file_system) (o : opener)
    : file_system * outcome file_stream :=
  let '(fs, s, r) := new_splitter fnmatch (write_fuel fs) fs (_filename o) (i64 (_max_size o)) (_auto_delete o) in
  (fs, _ ← r; Returns (new_stream fs s)).

#[global] Instance file_substream : Substream file_stream := {
  sub_read := read;
  sub_write := write;
  sub_flush f := (f, Returns tt)
}.
#[global] Instance file_sized : Sized file_stream := fun f => length (unread (disk f) (_file f)).

(** ** Properties *)

Definition pending_bytes f : cstring := unread (disk f) (_file f).
Definition ok (lo : Z) f : Prop := wf lo (disk f) (_file f).

Lemma chunk_spec lo f dl :
  ok lo f -> exists lo' f',
  Splitter._auto_delete (_file f') = Splitter._auto_delete (_file f)
  /\ _base_path (_file f') = _base_path (_file f) /\
  ((exists c, read f dl = (f', Returns (true, Some (Raw c))) /\ c <> []
     /\ pending_bytes f = c ++ pending_bytes f' /\ ok lo' f')
   \/ (read f dl = (f', Throws Exn_shutdown) /\ pending_bytes f = []
      /\ finished lo' (disk f') (_file f'))).
Proof.
  intros Hok. destruct (Splitter.read_spec (read_fuel f) BUFSIZ lo (disk f) (_file f) Hok)
    as (lo' & fs' & s' & Hb & Ha & H); [done|].
  exists lo', (with_file f fs' s'). split; [done|]. split; [done|]. unfold read, pending_bytes, ok. cbn [disk _file with_file].
  destruct H as [(c & -> & Hc & _ & Hu & Hwf)|(-> & Hu & Hfin)]; [left; exists c|right; done].
  split_and!; try done. by destruct c.
Qed.

(** Writing takes everything. *)
Lemma write_spec lo f b :
  ok lo f -> Z.of_nat (length b) < 2 ^ 32 ->
  exists f', write f b = (f', Returns tt) /\ ok lo f' /\ pending_bytes f' = pending_bytes f ++ b
    /\ kept (_file f) (_file f')
    /\ (b <> [] -> grown (disk f) (_file f) (disk f') (_file f') b) /\ (b = [] -> f' = f).
Proof.
  intros Hok Hb. unfold write. rewrite u32_small by lia. cbn [write_loop].
  destruct (Z.ltb_spec 0 (Z.of_nat (length b))) as [Hlt|Hge].
  - destruct (append_bytes (write_fuel (disk f)) lo (disk f) (_file f) b Hok) as (fs' & s' & E & Hwf & Hu & _ & Hg & Hk).
    { unfold write_fuel. lia. }
    rewrite E, Z.sub_diag. cbn. exists (with_file f fs' s'). split_and!; try done. by intros ->.
  - exists f. destruct b; [|cbn in Hge; lia]. rewrite app_nil_r. split_and!; done.
Qed.

(** A disk on which a file stream was opened by the opener. *)
Lemma open_nothing fnmatch fs o :
  matches_prefixes fnmatch -> emptied fs (_filename o) -> ordinary (_filename o) ->
  exists fs' f, open fnmatch fs o = (fs', Returns f) /\ disk f = fs' /\ ok 0 f /\ pending_bytes f = []
    /\ Splitter._auto_delete (_file f) = _auto_delete o /\ _base_path (_file f) = _filename o.
Proof.
  intros Hg He Ho.
  destruct (new_on_nothing fnmatch Hg (write_fuel fs) fs (_filename o) (i64 (_max_size o)) (_auto_delete o) He Ho)
    as (fs' & s & E & Hwf & Hu & Hb & Ha & _); [unfold write_fuel; lia|].
  exists fs', (new_stream fs' s). unfold open. by rewrite E.
Qed.

(** ** The queue of records of a file stream *)

(** A stream on [path] that removes the parts it has read: each part of the file,
    from the one being read, is a segment. *)
Section Queue.
Variable path : cstring.

Definition file_located f (off : nat) (cur : segment) (rest : list segment) : Prop :=
  ok (_rid (_file f)) f /\ (Splitter._auto_delete (_file f) = true /\ _base_path (_file f) = path)
  /\ position (_file f) = (header_size + off)%nat /\ (off <= length (bytes_in cur))%nat
  /\ Forall2 (fun j seg => payload (disk f) (_file f) j = bytes_in seg)
       (seqZ (_rid (_file f)) (_wid (_file f) - _rid (_file f) + 1)) (cur :: rest).

Lemma payloads fs s fs' s' l (segs : list segment) :
  (forall j, j ∈ l -> part fs' s' j = part fs s j) ->
  Forall2 (fun j seg => payload fs s j = bytes_in seg) l segs ->
  Forall2 (fun j seg => payload fs' s' j = bytes_in seg) l segs.
Proof.
  intros H Hf. induction Hf as [|j seg l segs Hj _ IH]; constructor.
  - unfold payload in *. rewrite H; [done|left].
  - apply IH. intros. apply H. by right.
Qed.

Lemma located_here f off cur rest :
  file_located f off cur rest -> left_here (disk f) (_file f) = drop off (bytes_in cur).
Proof.
  intros (Hok & _ & Hp & _ & Hs). destruct f as [fs s ? ? ?]. unfold ok in Hok. cbn [disk _file] in *.
  unfold left_here. rewrite Hp, <-drop_drop. f_equal.
  rewrite seqZ_cons in Hs by (pose proof (wf_ids _ _ _ Hok); lia). by apply Forall2_cons in Hs as [H _].
Qed.
Lemma file_read_here f off cur rest dl :
  file_located f off cur rest -> (off < length (bytes_in cur))%nat ->
  exists f' c, read f dl = (f', Returns (true, Some (Raw c)))
    /\ c <> [] /\ Z.of_nat (length c) <= chunk_limit
    /\ (exists tail, drop off (bytes_in cur) = c ++ tail) /\ file_located f' (off + length c) cur rest.
Proof.
  intros Hl Hoff. pose proof (located_here _ _ _ _ Hl) as Hh.
  destruct Hl as (Hok & Ha & Hp & _ & Hs). unfold ok in Hok. unfold read.
  destruct (read_within (read_fuel f) BUFSIZ _ _ _ Hok) as (s' & c & E & Hc & Hn & Hlh & _ & Hwf & Hi & Hw & Ha' & Hb & Hp').
  { rewrite Hh. intros E. apply (f_equal length) in E. rewrite length_drop in E. cbn in E. lia. }
  rewrite Hh in Hlh. rewrite E. cbn [mbind outcome_bind].
  eexists _, c. split; [by destruct c|]. split; [done|]. split; [unfold chunk_limit; unfold BUFSIZ in Hn; lia|].
  split; [by eexists|]. unfold file_located, ok. cbn [disk _file with_file]. rewrite Hi, Hw, Ha', Hb, Hp', Hp.
  split; [done|]. split; [done|]. split; [lia|]. split.
  - apply (f_equal length) in Hlh. rewrite length_drop, length_app in Hlh. lia.
  - eapply payloads; [|exact Hs]. intros j _. unfold part. by rewrite !get_file_path_suffix, Hb.
Qed.

Lemma file_read_next f cur next rest dl :
  file_located f (length (bytes_in cur)) cur (next :: rest) ->
  exists f', file_located f' 0 next rest /\ (length (pending_bytes f') <= length (pending_bytes f))%nat
    /\ read f dl = read f' dl.
Proof.
  intros Hl. pose proof (located_here _ _ _ _ Hl) as Hh. rewrite drop_all in Hh.
  destruct Hl as (Hok & [Ha Hpath] & Hp & _ & Hs). unfold ok in Hok.
  pose proof (wf_ids _ _ _ Hok) as Hid.
  pose proof (Forall2_length _ _ _ Hs) as Hlen. rewrite length_seqZ in Hlen. cbn in Hlen.
  set (fs := disk f) in *. set (s := _file f) in *.
  destruct (read_turns (Z.to_nat (_wid s - _rid s - 1)) BUFSIZ _ fs s Hok Hh ltac:(lia))
    as (s' & E & Hwf & Hu & Hw & Hk).
  exists (with_file f (disk_after fs s) s'). destruct Hk as (Hi & Hp' & _ & Ha' & Hb). cbn in Hi, Ha', Hb.
  change (position (with_read s None _ _)) with header_size in Hp'.
  unfold low_after in Hwf. rewrite Ha in Hwf. split; [|split; [unfold pending_bytes; cbn [disk _file with_file]; by rewrite Hu|]].
  - unfold file_located, ok. cbn [disk _file with_file]. rewrite Hi, Hw, Ha', Hb, Hp'. split_and!; try done; try lia.
    rewrite (seqZ_cons (_rid s)) in Hs by lia. apply Forall2_cons in Hs as [_ Hs].
    replace (Z.succ (_rid s)) with (_rid s + 1) in Hs by lia.
    replace (Z.pred (_wid s - _rid s + 1)) with (_wid s - (_rid s + 1) + 1) in Hs by lia.
    eapply payloads; [|exact Hs]. intros j Hj. apply elem_of_seqZ in Hj.
    rewrite <-(disk_after_part _ _ _ j Hok) by lia. unfold part. by rewrite !get_file_path_suffix, Hb.
  - unfold read. replace (read_fuel f) with (S (Z.to_nat (_wid s - _rid s - 1))) by (unfold read_fuel; fold s; lia).
    fold fs s. rewrite E. unfold read_fuel. cbn [disk _file with_file]. rewrite Hw, Hi.
    by replace (Z.to_nat (_wid s - (_rid s + 1))) with (Z.to_nat (_wid s - _rid s - 1)) by lia.
Qed.

Lemma file_read_over f cur dl :
  file_located f (length (bytes_in cur)) cur [] ->
  exists f', read f dl = (f', Throws Exn_shutdown) /\ emptied (disk f') path.
Proof.
  intros Hl. pose proof (located_here _ _ _ _ Hl) as Hh. rewrite drop_all in Hh.
  destruct Hl as (Hok & [Ha Hpath] & Hp & _ & Hs). unfold ok in Hok.
  pose proof (wf_ids _ _ _ Hok) as Hid.
  pose proof (Forall2_length _ _ _ Hs) as Hlen. rewrite length_seqZ in Hlen. cbn in Hlen.
  destruct (Splitter.read_over (read_fuel f) BUFSIZ _ _ _ Hok Hh ltac:(lia)) as (s' & E & Hf & Ha' & Hb).
  unfold read. rewrite E. eexists. split; [done|]. cbn. unfold finished in Hf. by rewrite Ha', Ha, Hb, Hpath in Hf.
Qed.

Lemma file_write_last f off cur rest b :
  file_located f off cur rest -> Z.of_nat (length b) < 2 ^ 32 ->
  exists f' cur' rest', write f b = (f', Returns tt) /\ file_located f' off cur' rest'
    /\ extended (cur :: rest) (cur' :: rest') b /\ _wid (_file f') <= _wid (_file f) + 1.
Proof.
  intros Hl Hb. pose proof Hl as (Hok & [Ha Hpath] & Hp & Ho & Hs).
  destruct (write_spec _ f b Hok Hb) as (f' & E & Hok' & _ & (Hi & Hp' & _ & Ha' & Hb') & Hg & Hid).
  pose proof (wf_ids _ _ _ Hok) as Hids. set (n := _wid (_file f) - _rid (_file f)) in *.
  assert (Hsegs : exists segs', extended (cur :: rest) segs' b /\ _wid (_file f') <= _wid (_file f) + 1
    /\ Forall2 (fun j seg => payload (disk f') (_file f') j = bytes_in seg)
         (seqZ (_rid (_file f')) (_wid (_file f') - _rid (_file f') + 1)) segs').
  { assert (Hsame : _wid (_file f') = _wid (_file f) ->
        (forall j, 0 <= j -> j <> _wid (_file f') -> part (disk f') (_file f') j = part (disk f) (_file f) j) ->
        part (disk f') (_file f') (_wid (_file f')) = part (disk f) (_file f) (_wid (_file f)) ++ b ->
        exists segs', extended (cur :: rest) segs' b /\ _wid (_file f') <= _wid (_file f) + 1
          /\ Forall2 (fun j seg => payload (disk f') (_file f') j = bytes_in seg)
               (seqZ (_rid (_file f')) (_wid (_file f') - _rid (_file f') + 1)) segs').
    { intros Hw Hold Hnew. rewrite Hi, Hw. fold n.
      replace (n + 1) with (Z.of_nat (Z.to_nat n) + 1) in * by lia. rewrite seqZ_app in * by lia. rewrite seqZ_1 in *.
      apply Forall2_app_inv_l in Hs as (init & l2 & Hinit & Hl2 & E2).
      apply Forall2_cons_inv_l in Hl2 as (seg & l3 & Hseg & Hl3 & ->). apply Forall2_nil_inv_l in Hl3 as ->.
      exists (init ++ [seg ++ [b]]). split; [right; by exists init, seg|]. split; [lia|]. apply Forall2_app.
      - eapply payloads; [|exact Hinit]. intros j Hj. apply elem_of_seqZ in Hj. apply Hold; rewrite ?Hw; lia.
      - constructor; [|constructor]. rewrite bytes_in_snoc, <-Hseg.
        replace (_rid (_file f) + Z.of_nat (Z.to_nat n)) with (_wid (_file f)) by lia.
        unfold payload. rewrite <-Hw, Hnew, Hw. apply drop_app_le. apply (wf_header _ _ _ Hok). lia. }
    destruct (decide (b = [])) as [->|Hne].
    { specialize (Hid eq_refl). subst f'. apply Hsame; [done|done|by rewrite app_nil_r]. }
    destruct (Hg Hne) as [Hold [[Hw Hnew]|[Hw Hnew]]]; [by apply Hsame|].
    exists ((cur :: rest) ++ [[b]]). split; [by left|]. split; [lia|]. rewrite Hi, Hw.
    replace (_wid (_file f) + 1 - _rid (_file f) + 1) with (n + 1 + 1) by lia. rewrite (seqZ_app _ (n + 1)) by lia.
    rewrite seqZ_1. apply Forall2_app.
    - eapply payloads; [|exact Hs]. intros j Hj. apply elem_of_seqZ in Hj. apply Hold; rewrite ?Hw; lia.
    - constructor; [|constructor]. replace (_rid (_file f) + (n + 1)) with (_wid (_file f')) by lia.
      unfold payload. rewrite Hnew. change (drop header_size (header ++ b)) with b. by rewrite bytes_in_single. }
  destruct Hsegs as (segs' & Hext & Hwid & Hs'). destruct (extended_first _ _ _ _ Hext) as (cur' & rest' & -> & Hc).
  exists f', cur', rest'. split; [done|]. split; [|done].
  unfold file_located. rewrite Hi, Ha', Hb', Hp'. split_and!; try done.
  - destruct Hc as [->|(-> & _)]; [done|]. rewrite bytes_in_snoc, length_app. lia.
  - by rewrite Hi in Hs'.
Qed.

#[global] Instance file_queue : RecordQueue file_stream.
Proof.
  refine {| located := file_located; ended f := emptied (disk f) path;
            space f := Z.to_nat (INT_MAX - _wid (_file f)) |}.
  - by intros f off cur rest (_ & _ & _ & H & _).
  - intros f off cur rest Hl. pose proof (located_here _ _ _ _ Hl) as Hh. destruct Hl as (Hok & _ & _ & _ & Hs).
    pose proof (wf_ids _ _ _ Hok) as Hid.
    unfold remaining, file_sized, unread. fold (left_here (disk f) (_file f)). rewrite Hh, length_app, length_drop.
    rewrite seqZ_cons in Hs by lia. apply Forall2_cons in Hs as [_ Hs].
    replace (Z.pred (_wid (_file f) - _rid (_file f) + 1)) with (_wid (_file f) - _rid (_file f)) in Hs by lia.
    replace (Z.succ (_rid (_file f))) with (_rid (_file f) + 1) in Hs by lia.
    enough (E : payload (disk f) (_file f) <$> seqZ (_rid (_file f) + 1) (_wid (_file f) - _rid (_file f)) = bytes_in <$> rest)
      by (rewrite E; lia).
    clear -Hs. induction Hs as [|j seg l rest Hj _ IH]; [done|]. rewrite !fmap_cons. by rewrite Hj, IH.
  - intros. by eapply file_read_here.
  - intros. by eapply file_read_next.
  - intros. by eapply file_read_over.
  - intros f off cur rest b Hl Hb. destruct (file_write_last f off cur rest b Hl Hb) as (f' & cur' & rest' & H1 & H2 & H3 & H4).
    exists f', cur', rest'. split_and!; [done..|lia].
Defined.

(** A stream opened in the place of another reads the parts again from the
    beginning of the first one. *)
Lemma file_reopen fnmatch f off cur rest :
  matches_prefixes fnmatch -> ordinary path -> file_located f off cur rest -> _wid (_file f) < INT_MAX ->
  exists f', open fnmatch (disk f) (set_filename new_opener path) = (disk f, Returns f')
    /\ file_located f' 0 cur rest.
Proof.
  intros Hg Hord (Hok & [Ha Hpath] & Hp & Ho & Hs) Hw. unfold ok in Hok. pose proof (wf_ids _ _ _ Hok) as Hid.
  destruct (new_on_parts fnmatch Hg (write_fuel (disk f)) (disk f) path (_rid (_file f)) (_wid (_file f)) (i64 100000000) true)
    as (s & E & Hwf & Hr & Hwi & Hf & Hb & Hau & _);
    [apply Hok|rewrite <-Hpath; apply Hok|done|rewrite <-Hpath; apply Hok|lia|done| |].
  { intros j Hj. rewrite <-Hpath, <-get_file_path_suffix. by apply (wf_header _ _ _ Hok). }
  exists (new_stream (disk f) s). split; [unfold open; cbn [set_filename new_opener _filename _max_size _auto_delete]; by rewrite E|].
  unfold file_located, ok. cbn [disk _file new_stream]. rewrite Hr, Hwi. split_and!; try done; try lia.
  - unfold position. by rewrite Hf.
  - eapply payloads; [|exact Hs]. intros j _. unfold part. by rewrite !get_file_path_suffix, Hb, Hpath.
Qed.

(** A stream opened where there is nothing starts with an empty part. *)
Lemma file_fresh fnmatch fs :
  matches_prefixes fnmatch -> ordinary path -> emptied fs path ->
  exists fs' f', open fnmatch fs (set_filename new_opener path) = (fs', Returns f') /\ file_located f' 0 [] []
    /\ _wid (_file f') = 0.
Proof.
  intros Hg Ho He.
  destruct (new_on_nothing fnmatch Hg (write_fuel fs) fs path (i64 100000000) true He Ho)
    as (fs' & s & E & Hwf & Hu & Hb & Ha & Hm & Hr & Hw & Hf); [unfold write_fuel; lia|].
  exists fs', (new_stream fs' s). split; [unfold open; cbn [set_filename new_opener _filename _max_size _auto_delete]; by rewrite E|].
  split; [|done]. unfold file_located, ok. cbn [disk _file new_stream]. rewrite Hr, Hw.
  split_and!; try done; [unfold position; by rewrite Hf|].
  unfold unread, position in Hu. rewrite Hf, Hr, Hw in Hu. cbn in Hu. rewrite app_nil_r in Hu.
  constructor; [exact Hu|constructor].
Qed.
End Queue.


(** The estimate of the statistics: when the file grew by more than what was
    read of it since the last time, its reading is expected to end now (only
    equal progresses are told apart). *)
Theorem falling_behind_ends_now now f :
  let s := _file f in
  let froffset := _roffset s + _rid s * _max_file_size s in
  let fwoffset := _woffset s + _wid s * _max_file_size s in
  _max_file_size s < LONG_MAX -> 0 <= froffset <= fwoffset -> 0 < fwoffset < 2 ^ 62 ->
  0 < _last_time f < now -> now < 2 ^ 62 -> 0 <= _last_read_offset f <= _last_write_offset f -> _last_write_offset f < 2 ^ 62 ->
  froffset - _last_read_offset f < fwoffset - _last_write_offset f ->
  (fwoffset - froffset) * (now - _last_time f) < 2 ^ 62 ->
  last (snd (statistics now f)) = Some (str "file_expected_terminated_at", Number (Dbl.of_Z now)).
Proof.
  intros s froffset fwoffset Hm Hr Hw Ht Hn Hlr Hlw Hlt Hprod. unfold statistics.
  change (get_roffset (_file f) + get_rid (_file f) * get_max_file_size (_file f)) with froffset.
  change (get_woffset (_file f) + get_wid (_file f) * get_max_file_size (_file f)) with fwoffset.
  rewrite (i64_small froffset), (i64_small fwoffset) by lia.
  change (get_max_file_size (_file f)) with (_max_file_size s).
  replace (_max_file_size s =? LONG_MAX) with false by lia. rewrite andb_false_r.
  replace (fwoffset =? 0) with false by lia. cbn [orb].
  replace (negb (_last_time f =? 0) && negb (now =? _last_time f)) with true by lia.
  set (d := froffset + _last_write_offset f - _last_read_offset f - fwoffset).
  assert (Hd : u64 d = d + 2 ^ 64).
  { unfold u64. rewrite <-(Z_mod_plus_full d 1), Z.mod_small by (unfold d; lia). lia. }
  replace (u64 d =? 0) with false by (unfold d in *; lia).
  rewrite (u64_small ((fwoffset - froffset) * _)) by nia.
  rewrite (Z.div_small ((fwoffset - froffset) * _)) by (unfold d in *; nia).
  rewrite Z.add_0_r, i64_small by lia. cbv zeta. cbn [snd]. by rewrite last_snoc.
Qed.

Definition busy_stream : file_stream :=
  File_stream blank (Mk_splitter true demo_path 10000 None 0 100 None 0 5000) 50 10 100.

Lemma falling_behind_ends_now_witness :
  last (snd (statistics 20 busy_stream))
  = Some (str "file_expected_terminated_at", Number (Dbl.of_Z 20)).
Proof. apply (falling_behind_ends_now 20 busy_stream); cbn; unfold LONG_MAX; lia. Defined.
End FileStream.
