(* ===== verification/Compression.v ===== *)
(** * The compression layer (core/src/compression: stream.cc, zlib.cc, stack_array.cc)

    Each flush compresses what was written since the last one into a frame: the
    size of the frame, the size of the data, the data compressed by zlib.
    Reading looks for such frames, one byte further each time what it finds is
    not one. zlib is a parameter, the class [Zlib], with its documented laws. *)

From Stdlib Require Import ZArith Lia ZifyNat ZifyBool Strings.Byte.
From stdpp Require Import base option list numbers strings.
From S2P Require Import Prelude Transport.

Module Compression.
Import Transport.

(** ** zlib *)

(** The results of compress2 and uncompress, with what was put in the
    destination, or the size left in destLen when it is too small. *)
Inductive zresult : Type :=
  | Z_OK (dest : cstring)
  | Z_MEM_ERROR
  | Z_BUF_ERROR (len : Z)
  | Z_DATA_ERROR.

(** The sizes given are those of the destination buffer. *)
Class Zlib : Type := {
  compressBound : Z -> Z;
  compress2 : cstring -> Z -> Z -> zresult;
  uncompress_into : cstring -> Z -> zresult
}.

(** With memory at hand: a destination of compressBound bytes is enough at
    every level, and uncompress gives the data back in a destination of its
    size. *)
Class ZlibLaws `{!Zlib} : Prop := {
  compress_enough d len level :
    d <> [] -> -1 <= level <= 9 -> compressBound (Z.of_nat (length d)) <= len ->
    exists c, compress2 d len level = Z_OK c /\ c <> [] /\ Z.of_nat (length c) <= len
      /\ forall n, Z.of_nat (length d) <= n -> uncompress_into c n = Z_OK d
}.

(** ** stack_array *)

Record stack_array : Type := Stack_array {
  _sa_buffer : cstring;
  _offset : nat
}.

Definition empty_array : stack_array := Stack_array [] 0.
Definition data_of (a : stack_array) : cstring := drop (_offset a) (_sa_buffer a).
Definition pop (a : stack_array) (bytes : nat) : stack_array := Stack_array (_sa_buffer a) (_offset a + bytes).
Definition push (a : stack_array) (buffer : cstring) : stack_array :=
  let a := if (_offset a =? 0)%nat then a else Stack_array (drop (_offset a) (_sa_buffer a)) 0 in
  Stack_array (_sa_buffer a ++ buffer) (_offset a).
Definition array_size (a : stack_array) : Z :=
  i32 (Z.of_nat (length (_sa_buffer a)) - Z.of_nat (_offset a)).

Definition max_data_size : Z := 100000000.

Section Compress.
Context {zl : Zlib}.

(** ** The functions of zlib.cc *)

(** do ... while (res == Z_BUF_ERROR), doubling the buffer. *)
Fixpoint compress_loop (fuel : nat) (data : cstring) (len level : Z) : outcome cstring :=
  match fuel with
  | O => Diverges
  | S fuel' =>
    match compress2 data len level with
    | Z_OK c => Returns (be_bytes 4 (Z.of_nat (length data)) ++ c)
    | Z_MEM_ERROR => Throws Exn_msg
    | Z_BUF_ERROR len => compress_loop fuel' data (u64 (Z.shiftl len 1)) level
    | Z_DATA_ERROR => Returns (replicate (Z.to_nat (len + 4)) x00)
    end
  end.

Definition compress (fuel : nat) (data : cstring) (compression_level : Z) : outcome cstring :=
  match data with
  | [] => Returns [x00; x00; x00; x00]
  | _ =>
    let level := if (compression_level <? -1) || (9 <? compression_level) then -1 else compression_level in
    compress_loop fuel data (compressBound (Z.of_nat (length data))) level
  end.

(** (b0 << 24) | (b1 << 16) | (b2 << 8) | b3, computed on int. *)
Definition int_of_bytes (l : cstring) : Z :=
  i32 (Z.lor (Z.lor (Z.lor (Z.shiftl (char_at l 0) 24) (Z.shiftl (char_at l 1) 16))
                    (Z.shiftl (char_at l 2) 8)) (char_at l 3)).

(** On the [nbytes] bytes of [data]. *)
Definition uncompress (data : cstring) : outcome cstring :=
  let nbytes := Z.of_nat (length data) in
  if (nbytes <=? 4) && ((nbytes <? 4) || negb (cstring_eqb data [x00; x00; x00; x00])) then Throws Exn_corruption
  else
    let expected_size := u64 (int_of_bytes data) in
    let len := if 1 <? expected_size then expected_size else 1 in
    if max_data_size <? len then Throws Exn_corruption
    else
      match uncompress_into (drop 4 data) len with
      | Z_OK d => Returns d
      | Z_MEM_ERROR => Throws Exn_msg
      | Z_BUF_ERROR _ | Z_DATA_ERROR => Throws Exn_corruption
      end.

(** ** The stream *)

Context {S : Type} `{!Substream S}.

Record stream : Type := Stream {
  _level : Z;
  _rbuffer : stack_array;
  _shutdown : bool;
  _size : Z;
  _wbuffer : cstring;
  _substream : S
}.

Implicit Types st : stream.

Definition new_stream (level size : Z) (s : S) : stream := Stream level empty_array false size [] s.

Definition with_rbuffer st a := Stream (_level st) a (_shutdown st) (_size st) (_wbuffer st) (_substream st).
Definition with_shutdown st := Stream (_level st) (_rbuffer st) true (_size st) (_wbuffer st) (_substream st).
Definition with_wbuffer st b := Stream (_level st) (_rbuffer st) (_shutdown st) (_size st) b (_substream st).
Definition with_substream st s := Stream (_level st) (_rbuffer st) (_shutdown st) (_size st) (_wbuffer st) s.

(** The shutdown of the substream only shows in [_shutdown]. *)
Fixpoint _get_data (fuel : nat) (size : Z) (deadline : Z) st : stream * outcome unit :=
  if array_size (_rbuffer st) <? size then
    match fuel with
    | O => (st, Diverges)
    | Datatypes.S fuel' =>
      match sub_read (_substream st) deadline with
      | (s, Returns (false, _)) => (with_substream st s, Throws Exn_timeout)
      | (s, Returns (true, None)) => (with_substream st s, Throws Exn_interrupt)
      | (s, Returns (true, Some (Raw b))) =>
        _get_data fuel' size deadline (with_rbuffer (with_substream st s) (push (_rbuffer st) b))
      | (s, Returns (true, Some Other_data)) => _get_data fuel' size deadline (with_substream st s)
      | (s, Throws Exn_shutdown) => (with_shutdown (with_substream st s), Returns tt)
      | (s, Throws e) => (with_substream st s, Throws e)
      | (s, Diverges) => (with_substream st s, Diverges)
      end
    end
  else (st, Returns tt).

(** One turn of the loops of read: None to look one byte further. *)
Definition read_turn (fuel : nat) (deadline : Z) st : stream * outcome (option cstring) :=
  match _get_data fuel 4 deadline st with
  | (st, Returns _) =>
    if array_size (_rbuffer st) <? 4 then (st, Throws Exn_shutdown)
    else
      let size := int_of_bytes (data_of (_rbuffer st)) in
      if (size <=? 0) || (max_data_size <? size) then (with_rbuffer st (pop (_rbuffer st) 1), Returns None)
      else
        match _get_data fuel (size + 4) deadline st with
        | (st, Returns _) =>
          let r :=
            if size + 4 <=? array_size (_rbuffer st) then
              match uncompress (take (Z.to_nat size) (drop 4 (data_of (_rbuffer st)))) with
              | Throws Exn_corruption => Returns []
              | r => r
              end
            else Returns [] in
          match r with
          | Returns [] => (with_rbuffer st (pop (_rbuffer st) 1), Returns None)
          | Returns d => (with_rbuffer st (pop (_rbuffer st) (Z.to_nat (size + 4))), Returns (Some d))
          | Throws e => (st, Throws e)
          | Diverges => (st, Diverges)
          end
        | (st, Throws e) => (st, Throws e)
        | (st, Diverges) => (st, Diverges)
        end
  | (st, Throws e) => (st, Throws e)
  | (st, Diverges) => (st, Diverges)
  end.

Fixpoint read_loop (fuel rounds : nat) (deadline : Z) st : stream * outcome cstring :=
  match rounds with
  | O => (st, Diverges)
  | Datatypes.S rounds' =>
    match read_turn fuel deadline st with
    | (st, Returns None) => read_loop fuel rounds' deadline st
    | (st, Returns (Some d)) => (st, Returns d)
    | (st, Throws e) => (st, Throws e)
    | (st, Diverges) => (st, Diverges)
    end
  end.

Definition read (fuel : nat) (deadline : Z) st : stream * outcome (bool * option received) :=
  match read_loop fuel fuel deadline st with
  | (st, Returns d) => (st, Returns (true, Some (Raw d)))
  | (st, Throws Exn_interrupt) => (st, Returns (true, None))
  | (st, Throws Exn_timeout) => (st, Returns (false, None))
  | (st, Throws Exn_shutdown) =>
    let st := with_shutdown st in
    match _wbuffer st with
    | [] => (st, Throws Exn_shutdown)
    | b => (with_wbuffer st [], Returns (true, Some (Raw b)))
    end
  | (st, Throws e) => (st, Throws e)
  | (st, Diverges) => (st, Diverges)
  end.

Definition _flush (fuel : nat) st : stream * outcome unit :=
  if _shutdown st then (st, Throws Exn_shutdown)
  else match _wbuffer st with
  | [] => (st, Returns tt)
  | b =>
    match compress fuel b (_level st) with
    | Returns compressed =>
      let st := with_wbuffer st [] in
      let '(s, r) := sub_write (_substream st) (be_bytes 4 (u32 (Z.of_nat (length compressed))) ++ compressed) in
      (with_substream st s, r)
    | Throws e => (st, Throws e)
    | Diverges => (st, Diverges)
    end
  end.

Definition flush := _flush.

(** Raw data only. *)
Definition write (fuel : nat) st (r : cstring) : stream * outcome unit :=
  if _shutdown st then (st, Throws Exn_shutdown)
  else if max_data_size <? Z.of_nat (length r) then (st, Throws Exn_msg)
  else match r with
  | [] => (st, Returns tt)
  | _ =>
    let st := with_wbuffer st (_wbuffer st ++ r) in
    if _size st <=? Z.of_nat (length (_wbuffer st)) then _flush fuel st else (st, Returns tt)
  end.

(** The destructor flushes, whatever the error. *)
Definition destroy (fuel : nat) st : S := _substream (fst (_flush fuel st)).

End Compress.
Arguments stream S : clear implicits.

(** ** Properties of the functions of zlib.cc *)

Lemma int_of_bytes_be n l : 0 <= n < 2 ^ 31 -> int_of_bytes (be_bytes 4 n ++ l) = n.
Proof.
  intros Hn. pose proof (be_val_be_bytes 4 n) as Hv. rewrite Z.mod_small in Hv by (cbn; lia).
  unfold int_of_bytes, char_at. cbn [be_bytes] in *. cbn [app nth].
  revert Hv. generalize (byte_of_Z (Z.shiftr n (8 * Z.of_nat 3))) (byte_of_Z (Z.shiftr n (8 * Z.of_nat 2)))
    (byte_of_Z (Z.shiftr n (8 * Z.of_nat 1))) (byte_of_Z (Z.shiftr n (8 * Z.of_nat 0))).
  intros b0 b1 b2 b3 Hv.
  pose proof (Z_of_byte_range b0). pose proof (Z_of_byte_range b1).
  pose proof (Z_of_byte_range b2). pose proof (Z_of_byte_range b3).
  unfold be_val in Hv. cbn [fold_left] in Hv.
  rewrite !(Z.shiftl_mul_pow2 (Z_of_byte b1)), !(Z.shiftl_mul_pow2 (Z_of_byte b2)) by lia.
  rewrite (lor_shiftl_add _ (Z_of_byte b1 * 2 ^ 16)) by lia.
  replace (Z_of_byte b0 * 2 ^ 24 + Z_of_byte b1 * 2 ^ 16) with (Z.shiftl (Z_of_byte b0 * 256 + Z_of_byte b1) 16)
    by (rewrite Z.shiftl_mul_pow2; lia).
  rewrite (lor_shiftl_add _ (Z_of_byte b2 * 2 ^ 8)) by lia.
  replace ((Z_of_byte b0 * 256 + Z_of_byte b1) * 2 ^ 16 + Z_of_byte b2 * 2 ^ 8)
    with (Z.shiftl ((Z_of_byte b0 * 256 + Z_of_byte b1) * 256 + Z_of_byte b2) 8)
    by (rewrite Z.shiftl_mul_pow2; lia).
  rewrite lor_shiftl_add by lia. rewrite i32_small; lia.
Qed.

Section Roundtrip.
Context {zl : Zlib} {laws : ZlibLaws}.

Lemma compress_ok fuel d level :
  d <> [] -> Z.of_nat (length d) <= max_data_size -> (0 < fuel)%nat ->
  exists c, compress fuel d level = Returns (be_bytes 4 (Z.of_nat (length d)) ++ c) /\ c <> []
    /\ Z.of_nat (length c) <= compressBound (Z.of_nat (length d))
    /\ uncompress (be_bytes 4 (Z.of_nat (length d)) ++ c) = Returns d.
Proof.
  intros Hd Hl Hf. unfold max_data_size in Hl.
  set (lvl := if (level <? -1) || (9 <? level) then -1 else level).
  destruct (compress_enough d (compressBound (Z.of_nat (length d))) lvl) as (c & E & Hc & Hlen & Hu);
    [done|unfold lvl; case_if; lia|lia|].
  exists c. split_and!; try done.
  - unfold compress. fold lvl. destruct d; [done|]. destruct fuel; [lia|]. cbn [compress_loop]. by rewrite E.
  - assert (0 < length d)%nat by (destruct d; [done|cbn; lia]).
    assert (0 < length c)%nat by (destruct c; [done|cbn; lia]).
    unfold uncompress. rewrite length_app, length_be_bytes.
    replace (Z.of_nat (4 + length c) <=? 4) with false by lia. cbn [andb].
    rewrite int_of_bytes_be, u64_small by lia.
    set (len := if 1 <? _ then _ else 1). assert (Hlen' : len = Z.of_nat (length d)) by (unfold len; case_if; lia).
    rewrite Hlen'. unfold max_data_size. replace (100000000 <? Z.of_nat (length d)) with false by lia.
    change (drop 4 (be_bytes 4 _ ++ c)) with c. by rewrite Hu by lia.
Qed.

(** C33. What is compressed is what is uncompressed, up to the largest size the
    stream accepts. *)
Theorem zlib_roundtrip fuel d level :
  Z.of_nat (length d) <= max_data_size -> (0 < fuel)%nat -> d <> [] ->
  exists z, compress fuel d level = Returns z /\ uncompress z = Returns d.
Proof. intros Hl Hf Hd. destruct (compress_ok fuel d level Hd Hl Hf) as (c & ? & _ & _ & ?). by eexists. Qed.
End Roundtrip.

(** ** The stream over a queue of records *)

Section Queue.
Context {zl : Zlib} {laws : ZlibLaws} {S : Type} `{!Substream S} `{!Sized S} `{!RecordQueue S}.
Implicit Types st : stream S.

(** What the substream holds for some data: a frame. *)
Definition frame_of (d rec : cstring) : Prop :=
  exists z, rec = be_bytes 4 (Z.of_nat (length z)) ++ z /\ z <> [] /\ d <> []
    /\ Z.of_nat (length z) <= max_data_size /\ uncompress z = Returns d.

Definition frames_of (ds : list cstring) (seg : segment) : Prop := Forall2 frame_of ds seg.

(** The array holds no more than one frame and one chunk. *)
Definition array_ok (a : stack_array) : Prop :=
  (_offset a <= length (_sa_buffer a))%nat
  /\ Z.of_nat (length (data_of a)) <= max_data_size + 4 + chunk_limit.

(** A stream that flushes each write: of the data in the current segment of the
    file, [done] was given and [pend] was not; [rest] is in the next segments.
    What is in the read buffer was read from the file but not given. *)
Definition holds st (done pend : list cstring) (rest : list (list cstring)) : Prop :=
  _shutdown st = false /\ _wbuffer st = [] /\ _size st = 0 /\ array_ok (_rbuffer st)
  /\ exists off cur segs, located (_substream st) off cur segs
     /\ frames_of (done ++ pend) cur /\ Forall2 frames_of rest segs
     /\ bytes_in (take (length done) cur) ++ data_of (_rbuffer st) = take off (bytes_in cur).

Lemma array_size_ok a : array_ok a -> array_size a = Z.of_nat (length (data_of a)).
Proof.
  unfold array_ok, array_size, data_of, max_data_size, chunk_limit. rewrite length_drop. intros [? ?].
  rewrite i32_small; lia.
Qed.

Lemma data_of_push a b : (_offset a <= length (_sa_buffer a))%nat -> data_of (push a b) = data_of a ++ b.
Proof.
  intros H. unfold push, data_of. destruct (Nat.eqb_spec (_offset a) 0) as [E|E]; cbn.
  - rewrite E. done.
  - done.
Qed.

Lemma offset_push a b :
  (_offset a <= length (_sa_buffer a))%nat -> (_offset (push a b) <= length (_sa_buffer (push a b)))%nat.
Proof. intros H. unfold push. destruct (Nat.eqb_spec (_offset a) 0); cbn; rewrite length_app; lia. Qed.

Lemma data_of_pop a n : data_of (pop a n) = drop n (data_of a).
Proof. unfold pop, data_of. cbn. by rewrite drop_drop. Qed.

Lemma array_ok_pop a n : array_ok a -> (n <= length (data_of a))%nat -> array_ok (pop a n).
Proof.
  intros [H1 H2] Hn. split.
  - unfold data_of in Hn. rewrite length_drop in Hn. cbn. lia.
  - rewrite data_of_pop, length_drop. lia.
Qed.

(** Gathering bytes of the current segment. *)
Lemma get_data_gathers n dl cur segs : forall fuel st off,
  located (_substream st) off cur segs -> array_ok (_rbuffer st) ->
  0 <= n <= max_data_size + 4 ->
  n <= Z.of_nat (length (data_of (_rbuffer st))) + Z.of_nat (length (bytes_in cur) - off) ->
  (length (bytes_in cur) - off < fuel)%nat ->
  exists s a off', _get_data fuel n dl st = (with_rbuffer (with_substream st s) a, Returns tt)
    /\ located s off' cur segs /\ array_ok a /\ n <= Z.of_nat (length (data_of a))
    /\ (off <= off')%nat /\ data_of a ++ drop off' (bytes_in cur) = data_of (_rbuffer st) ++ drop off (bytes_in cur).
Proof.
  induction fuel as [|fuel IH]; intros st off Hl Ha Hn Hav Hf; [lia|].
  cbn [_get_data]. rewrite array_size_ok by done.
  destruct (Z.ltb_spec (Z.of_nat (length (data_of (_rbuffer st)))) n) as [Hlt|Hge].
  - destruct (read_here _ _ _ _ dl Hl ltac:(lia)) as (s' & c & E & Hc & Hcl & (tl & Hd) & Hl').
    rewrite E. set (st1 := with_rbuffer (with_substream st s') (push (_rbuffer st) c)).
    assert (Hlc : (0 < length c)%nat) by (destruct c; [done|cbn; lia]).
    pose proof (f_equal length Hd) as Hdl. rewrite length_drop, length_app in Hdl.
    assert (Hdp : data_of (_rbuffer st1) = data_of (_rbuffer st) ++ c) by (apply data_of_push, Ha).
    destruct (IH st1 (off + length c)%nat) as (s & a & off' & E' & H1 & H2 & H3 & H5 & H4); [done| |done| |lia|].
    { split; [apply offset_push, Ha|]. rewrite Hdp, length_app. lia. }
    { rewrite Hdp, length_app. lia. }
    exists s, a, off'. rewrite E'. split_and!; try done; [lia|].
    rewrite H4, Hdp, <-app_assoc. f_equal. rewrite Hd, <-drop_drop, Hd. by rewrite drop_app_length.
  - exists (_substream st), (_rbuffer st), off. split; [by destruct st|]. by split_and!.
Qed.

(** The bytes that follow what was given. *)
Lemma holds_ahead (a : stack_array) (done : list cstring) off (cur : segment) :
  bytes_in (take (length done) cur) ++ data_of a = take off (bytes_in cur) ->
  data_of a ++ drop off (bytes_in cur) = bytes_in (drop (length done) cur).
Proof.
  intros H. apply (app_inv_head (bytes_in (take (length done) cur))). rewrite app_assoc, H, take_drop.
  unfold bytes_in. by rewrite <-concat_app, take_drop.
Qed.

Lemma frames_drop done pend (cur : segment) :
  frames_of (done ++ pend) cur -> frames_of pend (drop (length done) cur).
Proof.
  intros Hf. apply Forall2_app_inv_l in Hf as (l1 & l2 & H1 & H2 & ->).
  apply Forall2_length in H1. by rewrite H1, drop_app_length.
Qed.

(** The next frame of the segment is given. *)
Lemma read_turn_frame fuel dl st done d pend rest :
  holds st done (d :: pend) rest -> (remaining (_substream st) < fuel)%nat ->
  exists st', read_turn fuel dl st = (st', Returns (Some d)) /\ holds st' (done ++ [d]) pend rest.
Proof.
  intros (Hsh & Hwb & Hsz & Ha & off & cur & segs & Hl & Hfr & Hrest & Hb) Hfuel.
  pose proof (holds_ahead _ _ _ _ Hb) as Hah. pose proof (remaining_enough _ _ _ _ Hl) as Hrem.
  pose proof (frames_drop _ _ _ Hfr) as Hfd. apply Forall2_cons_inv_l in Hfd as (rec & recs & Hrec & _ & Ecur).
  destruct Hrec as (z & Erec & Hz & Hd & Hzl & Hun). unfold max_data_size in Hzl.
  assert (Hzn : (0 < length z)%nat) by (destruct z; [done|cbn; lia]).
  rewrite Ecur in Hah. change (bytes_in (rec :: recs)) with (rec ++ bytes_in recs) in Hah.
  assert (Hlr : length rec = (4 + length z)%nat) by (by rewrite Erec, length_app, length_be_bytes).
  pose proof (f_equal length Hah) as Hlen. rewrite !length_app, length_drop in Hlen.
  unfold read_turn.
  destruct (get_data_gathers 4 dl cur segs fuel st off Hl Ha ltac:(unfold max_data_size; lia) ltac:(lia) ltac:(lia))
    as (s1 & a1 & off1 & E1 & Hl1 & Ha1 & Hn1 & Ho1 & Hd1).
  rewrite E1. set (st1 := with_rbuffer _ _). change (_rbuffer st1) with a1. rewrite array_size_ok by done.
  replace (Z.of_nat (length (data_of a1)) <? 4) with false by lia.
  rewrite Hah in Hd1.
  assert (Hint : int_of_bytes (data_of a1) = Z.of_nat (length z)).
  { assert (Hp : take 4 (data_of a1) = be_bytes 4 (Z.of_nat (length z))).
    { rewrite <-(take_app_le (data_of a1) (drop off1 (bytes_in cur))) by lia. rewrite Hd1, Erec, <-app_assoc.
      by rewrite take_app_length'. }
    rewrite <-(take_drop 4 (data_of a1)), Hp. apply int_of_bytes_be. lia. }
  rewrite Hint. cbv zeta. unfold max_data_size.
  replace ((Z.of_nat (length z) <=? 0) || (100000000 <? Z.of_nat (length z))) with false by lia.
  pose proof (remaining_enough _ _ _ _ Hl1) as Hrem1.
  pose proof (f_equal length Hd1) as Hlen1. rewrite !length_app, length_drop in Hlen1.
  destruct (get_data_gathers (Z.of_nat (length z) + 4) dl cur segs fuel st1 off1 Hl1 Ha1
              ltac:(unfold max_data_size; lia) ltac:(change (_rbuffer st1) with a1; lia) ltac:(lia))
    as (s2 & a2 & off2 & E2 & Hl2 & Ha2 & Hn2 & Ho2 & Hd2).
  rewrite E2. set (st2 := with_rbuffer _ _). change (_rbuffer st2) with a2. rewrite array_size_ok by done.
  replace (Z.of_nat (length z) + 4 <=? Z.of_nat (length (data_of a2))) with true by lia.
  change (_rbuffer st1) with a1 in Hd2. rewrite Hd1 in Hd2.
  assert (Hz2 : take (Z.to_nat (Z.of_nat (length z))) (drop 4 (data_of a2)) = z).
  { rewrite Nat2Z.id. rewrite <-(take_app_le (drop 4 (data_of a2)) (drop off2 (bytes_in cur))) by (rewrite length_drop; lia).
    rewrite <-drop_app_le by lia. rewrite Hd2, Erec, <-!app_assoc. rewrite drop_app_length' by done.
    by rewrite take_app_length. }
  rewrite Hz2, Hun. destruct d as [|b d]; [done|].
  eexists. split; [done|]. split; [done|]. split; [done|]. split; [done|].
  split; [apply array_ok_pop; [done|lia]|].
  exists off2, cur, segs. split; [done|]. split; [by rewrite <-app_assoc|]. split; [done|].
  change (_rbuffer (with_rbuffer _ ?x)) with x. rewrite data_of_pop.
  apply (app_inv_tail (drop off2 (bytes_in cur))). rewrite take_drop, <-app_assoc.
  rewrite <-drop_app_le by lia. rewrite Hd2.
  replace (Z.to_nat (Z.of_nat (length z) + 4)) with (length rec) by lia. rewrite drop_app_length.
  rewrite length_app. cbn [length].
  rewrite <-(take_drop (length done) cur) at 2. rewrite Ecur.
  assert (Hld : length (take (length done) cur) = length done).
  { pose proof Hfr as Hfl. apply Forall2_length in Hfl. rewrite length_app in Hfl. rewrite length_take. lia. }
  rewrite <-(take_drop (length done) cur) at 1. rewrite Ecur, take_app_ge by lia. rewrite Hld.
  replace (length done + 1 - length done)%nat with 1%nat by lia.
  unfold bytes_in. rewrite !concat_app. cbn [take concat]. rewrite app_nil_r, <-app_assoc. done.
Qed.

(** At the end of a segment, the stream is as over the next one. *)
Lemma holds_end st done rest :
  holds st done [] rest ->
  exists off cur segs, located (_substream st) off cur segs /\ off = length (bytes_in cur)
    /\ data_of (_rbuffer st) = [] /\ Forall2 frames_of rest segs.
Proof.
  intros (_ & _ & _ & _ & off & cur & segs & Hl & Hfr & Hrest & Hb).
  exists off, cur, segs. rewrite app_nil_r in Hfr. apply Forall2_length in Hfr.
  rewrite take_ge in Hb by lia. pose proof (located_offset _ _ _ _ Hl) as Ho.
  pose proof (f_equal length Hb) as Hlen. rewrite length_app, length_take in Hlen.
  split; [done|]. split; [lia|]. split; [|done]. apply nil_length_inv. lia.
Qed.

Lemma get_data_alike fuel n dl st s :
  0 < n -> array_ok (_rbuffer st) -> data_of (_rbuffer st) = [] -> sub_read (_substream st) dl = sub_read s dl ->
  (0 < fuel)%nat -> _get_data fuel n dl st = _get_data fuel n dl (with_substream st s).
Proof.
  intros Hn Ha Hd E Hf. destruct fuel as [|fuel]; [lia|]. cbn [_get_data].
  change (_rbuffer (with_substream st s)) with (_rbuffer st). rewrite array_size_ok, Hd by done.
  replace (Z.of_nat (length []) <? n) with true by (cbn; lia).
  change (_substream (with_substream st s)) with s. rewrite E. by destruct (sub_read s dl) as [s' [[[] [[]|]]|[]|]].
Qed.

Lemma read_turns_to fuel dl st done seg rest :
  holds st done [] (seg :: rest) -> (0 < fuel)%nat ->
  exists st', holds st' [] seg rest /\ (remaining (_substream st') <= remaining (_substream st))%nat
    /\ read fuel dl st = read fuel dl st'.
Proof.
  intros Hh Hf. destruct (holds_end _ _ _ Hh) as (off & cur & segs & Hl & -> & Hd & Hfr).
  destruct Hh as (Hsh & Hwb & Hsz & Ha & _).
  apply Forall2_cons_inv_l in Hfr as (nseg & segs' & Hseg & Hsegs & ->).
  destruct (read_next _ _ _ _ dl Hl) as (s' & Hl' & Hr & E).
  exists (with_substream st s'). split; [|split; [done|]].
  - split; [done|]. split; [done|]. split; [done|]. split; [done|].
    exists 0%nat, nseg, segs'. split; [done|]. split; [done|]. split; [done|]. cbn. by rewrite Hd.
  - unfold read. destruct fuel as [|fuel]; [lia|]. remember (Datatypes.S fuel) as n eqn:En. rewrite En at 2 4. cbn [read_loop].
    unfold read_turn. rewrite (get_data_alike n 4 dl st s') by (done || lia). done.
Qed.

(** Reading gives, in order, the data that was written and not given yet; what
    is kept of the file is the data of the current segment. *)
Lemma read_given fuel dl : forall rest st done pend d more,
  holds st done pend rest -> pend ++ concat rest = d :: more ->
  (remaining (_substream st) < fuel)%nat ->
  exists st' done' pend' rest', read fuel dl st = (st', Returns (true, Some (Raw d)))
    /\ holds st' done' pend' rest' /\ pend' ++ concat rest' = more
    /\ (done' = done ++ [d] \/ done' = [d]).
Proof.
  induction rest as [|seg rest IH]; intros st done pend d more Hh E Hf.
  all: destruct pend as [|d0 pend].
  1: done.
  2:{ destruct (read_turns_to fuel dl st done seg rest Hh ltac:(lia)) as (st1 & Hh1 & Hr1 & E1). rewrite E1.
      destruct (IH st1 [] seg d more Hh1 E ltac:(lia)) as (st' & done' & pend' & rest' & H1 & H2 & H3 & H4).
      exists st', done', pend', rest'. split_and!; try done. right. by destruct H4. }
  all: cbn [app] in E; injection E as -> E.
  all: destruct (read_turn_frame fuel dl st done d pend _ Hh Hf) as (st' & E1 & Hh').
  all: exists st', (done ++ [d]), pend; eexists; (split; [|split; [exact Hh'|split; [done|by left]]]).
  all: unfold read; destruct fuel as [|fuel]; [lia|]; remember (Datatypes.S fuel) as n eqn:En; rewrite En at 2;
    cbn [read_loop]; by rewrite E1.
Qed.

(** When everything was given, reading throws shutdown. *)
Lemma read_nothing fuel dl : forall rest st done,
  holds st done [] rest -> concat rest = [] -> (0 < fuel)%nat ->
  exists st', read fuel dl st = (st', Throws Exn_shutdown) /\ ended (_substream st') /\ _shutdown st' = true.
Proof.
  induction rest as [|seg rest IH]; intros st done Hh E Hf.
  - destruct (holds_end _ _ _ Hh) as (off & cur & segs & Hl & -> & Hd & Hfr).
    apply Forall2_nil_inv_l in Hfr as ->. destruct Hh as (Hsh & Hwb & Hsz & Ha & _).
    destruct (read_over _ _ dl Hl) as (s' & Er & He).
    exists (with_shutdown (with_shutdown (with_substream st s'))). split; [|done].
    unfold read. destruct fuel as [|fuel]; [lia|]. remember (Datatypes.S fuel) as n eqn:En. rewrite En at 2. cbn [read_loop].
    unfold read_turn.
    assert (Eg : _get_data n 4 dl st = (with_shutdown (with_substream st s'), Returns tt)).
    { rewrite En. cbn [_get_data]. rewrite array_size_ok, Hd by done. cbn [length]. change (Z.of_nat 0 <? 4) with true.
      by rewrite Er. }
    rewrite Eg. change (_rbuffer (with_shutdown _)) with (_rbuffer st). rewrite array_size_ok, Hd by done.
    change (Z.of_nat (length []) <? 4) with true. cbv iota. cbn. by rewrite Hwb.
  - cbn in E. apply app_eq_nil in E as [-> E].
    destruct (read_turns_to fuel dl st done [] rest Hh Hf) as (st1 & Hh1 & _ & E1). rewrite E1. by eapply IH.
Qed.

(** Data of that size goes into one frame, which the file accepts. *)
Definition fits (d : cstring) : Prop :=
  d <> [] /\ Z.of_nat (length d) <= max_data_size
  /\ compressBound (Z.of_nat (length d)) + 4 <= max_data_size.

(** Data written goes behind the rest, in the last segment or in a new one. *)
Lemma write_holds fuel st done pend rest d :
  holds st done pend rest -> fits d -> (0 < fuel)%nat ->
  exists st' pend' rest', write fuel st d = (st', Returns tt) /\ holds st' done pend' rest'
    /\ pend' ++ concat rest' = pend ++ concat rest ++ [d]
    /\ (space (_substream st) <= Datatypes.S (space (_substream st')))%nat.
Proof.
  intros (Hsh & Hwb & Hsz & Ha & off & cur & segs & Hl & Hfr & Hrest & Hb) (Hd & Hdl & Hdc) Hf.
  destruct (compress_ok fuel d (_level st) Hd Hdl Hf) as (c & Ec & Hc & Hcl & Hu).
  set (z := be_bytes 4 (Z.of_nat (length d)) ++ c) in *.
  assert (Hzl : Z.of_nat (length z) <= max_data_size) by (unfold z; rewrite length_app, length_be_bytes; lia).
  unfold max_data_size in *. set (rec := be_bytes 4 (Z.of_nat (length z)) ++ z).
  assert (Hrec : frame_of d rec).
  { by exists z. }
  destruct (write_last _ off cur segs rec Hl) as (s' & cur' & segs' & Ew & Hl' & Hext & Hsp).
  { unfold rec. rewrite length_app, length_be_bytes. lia. }
  set (st' := with_substream (with_wbuffer (with_wbuffer st d) []) s').
  assert (E : write fuel st d = (st', Returns tt)).
  { unfold write. rewrite Hsh. unfold max_data_size. replace (100000000 <? Z.of_nat (length d)) with false by lia.
    destruct d as [|b d]; [done|]. rewrite Hwb. cbn [app]. change (_size (with_wbuffer st _)) with (_size st). rewrite Hsz.
    change (_wbuffer (with_wbuffer st ?x)) with x. replace (0 <=? _) with true by lia. unfold _flush.
    change (_shutdown (with_wbuffer st _)) with (_shutdown st). rewrite Hsh. cbn [_wbuffer with_wbuffer].
    change (_level (with_wbuffer st _)) with (_level st). rewrite Ec. rewrite u32_small by lia.
    change (_substream _) with (_substream st). fold rec. by rewrite Ew. }
  pose proof (located_offset _ _ _ _ Hl) as Hoff.
  assert (Hfl : length cur = (length done + length pend)%nat) by (pose proof Hfr as Hfl; apply Forall2_length in Hfl; by rewrite length_app in Hfl).
  assert (Hholds : forall pend' rest', frames_of (done ++ pend') cur' -> Forall2 frames_of rest' segs' ->
    (cur' = cur \/ cur' = cur ++ [rec]) -> holds st' done pend' rest').
  { intros pend' rest' H1 H2 H3. do 4 (split; [done|]). exists off, cur', segs'. do 3 (split; [done|]).
    change (_rbuffer st') with (_rbuffer st). destruct H3 as [->| ->]; [done|].
    rewrite bytes_in_snoc, !take_app_le by lia. done. }
  assert (Hone : Forall2 frame_of [d] [rec]) by (by constructor).
  exists st'. destruct Hext as [[= -> ->]|([|x init] & seg & E1 & E2)].
  - exists pend, (rest ++ [[d]]). split; [done|]. split.
    + apply Hholds; [done| |by left]. apply Forall2_app; [done|]. by constructor.
    + split; [by rewrite concat_app|done].
  - cbn in E1, E2. injection E1 as <- ->. injection E2 as -> ->. apply Forall2_nil_inv_r in Hrest as ->.
    exists (pend ++ [d]), []. split; [done|]. split; [|split; [cbn; by rewrite app_nil_r|done]].
    apply Hholds; [|done|by right]. rewrite app_assoc. by apply Forall2_app.
  - cbn in E1, E2. injection E1 as <- ->. injection E2 as -> ->.
    apply Forall2_app_inv_r in Hrest as (ri & l2 & H1 & H2 & ->).
    apply Forall2_cons_inv_r in H2 as (r & l3 & H2 & H3 & ->). apply Forall2_nil_inv_r in H3 as ->.
    exists pend, (ri ++ [r ++ [d]]). split; [done|]. split.
    + apply Hholds; [done| |by left]. apply Forall2_app; [done|]. constructor; [|done]. by apply Forall2_app.
    + split; [|done]. rewrite !concat_app. cbn. by rewrite !app_nil_r, <-!app_assoc.
Qed.

(** A new stream in the place of one that held data has all the data of the
    current segment to give again. *)
Lemma new_holds st done pend rest :
  holds st done pend rest ->
  exists off cur segs, located (_substream st) off cur segs
    /\ forall level s, located s 0 cur segs -> holds (new_stream level 0 s) [] (done ++ pend) rest.
Proof.
  intros (_ & _ & _ & _ & off & cur & segs & Hl & Hfr & Hrest & _). exists off, cur, segs. split; [done|].
  intros level s Hs. do 3 (split; [done|]). split; [split; cbn; unfold max_data_size, chunk_limit; lia|].
  by exists 0%nat, cur, segs.
Qed.

Lemma fresh_holds level s : located s 0 [] [] -> holds (new_stream level 0 s) [] [] [].
Proof.
  intros Hs. do 3 (split; [done|]). split; [split; cbn; unfold max_data_size, chunk_limit; lia|].
  exists 0%nat, [], []. split_and!; try done; constructor.
Qed.
End Queue.

(** ** As a layer *)

(** A destination of compressBound bytes is enough for zlib, so that the loop of
    compress turns once; each turn of a read takes a byte at least, of the
    buffer or of the substream. *)
Definition compress_fuel : nat := 64.
Definition read_fuel {S} `{!Sized S} (st : stream S) : nat :=
  Datatypes.S (length (data_of (_rbuffer st)) + remaining (_substream st)).

#[global] Instance compression_substream {zl : Zlib} {S : Type} `{!Substream S} `{!Sized S} : Substream (stream S) := {
  sub_read st dl := read (read_fuel st) dl st;
  sub_write st b := write compress_fuel st b;
  sub_flush st := flush compress_fuel st
}.

(** ** zlib at level 0 *)

(** Data stored as it is, behind one byte. *)
#[global] Instance stored : Zlib := {
  compressBound n := n + 1;
  compress2 d len _ := if Z.of_nat (length d) + 1 <=? len then Z_OK (x78 :: d) else Z_BUF_ERROR len;
  uncompress_into c len :=
    match c with
    | x78 :: d => if Z.of_nat (length d) <=? len then Z_OK d else Z_BUF_ERROR len
    | _ => Z_DATA_ERROR
    end
}.

#[global] Instance stored_laws : ZlibLaws.
Proof.
  split. intros d len level Hd _ Hl. cbn [compressBound stored] in Hl. exists (x78 :: d). cbn [compress2 uncompress_into stored].
  replace (Z.of_nat (length d) + 1 <=? len) with true by lia. split; [done|]. split; [done|].
  split; [cbn; lia|]. intros n Hn. by replace (Z.of_nat (length d) <=? n) with true by lia.
Qed.

Lemma zlib_roundtrip_witness :
  exists z, compress 1 (str "abc") 12 = Returns z /\ uncompress z = Returns (str "abc").
Proof. apply (zlib_roundtrip 1 (str "abc") 12); [cbn; unfold max_data_size; lia|lia|done]. Defined.

End Compression.
