(* ===== verification/PersistentFile.v ===== *)
(** * Retention files (core/src/persistent_file.cc)

    A BBDO stream over a compression stream over a file stream: the retention
    files of the muxer. The theorems compose those of the three layers: each
    event written is one serialized datum, one compressed frame and one record
    of the split file, and comes back as such. A retention file is an instance
    of [Muxer.QueueFile] and of its laws. *)

From Stdlib Require Import ZArith Lia ZifyNat ZifyBool Strings.Byte.
From stdpp Require Import base option list numbers strings gmap sets.
From S2P Require Import Prelude Double Events Bbdo Transport BbdoStream FileSystem Splitter FileStream Compression Muxer.

Module PersistentFile.
Import Events Bbdo Transport FileSystem FileStream.

(** ** Filling a file and emptying it *)

Section Whole.
Context {E F : Type} `{!Muxer.QueueFile E F}.

Fixpoint write_all (q : F) (es : list E) : F * outcome unit :=
  match es with
  | [] => (q, Returns tt)
  | e :: es =>
    match Muxer.file_write q e with
    | (q, Returns _) => write_all q es
    | r => r
    end
  end.

(** The events read before an exception, and that exception. *)
Fixpoint read_all (n : nat) (q : F) : F * list (option E) * outcome unit :=
  match n with
  | O => (q, [], Diverges)
  | S n =>
    match Muxer.file_read q with
    | (q, Returns d) => let '(q, ds, r) := read_all n q in (q, d :: ds, r)
    | (q, Throws e) => (q, [], Throws e)
    | (q, Diverges) => (q, [], Diverges)
    end
  end.

Context `{!Muxer.QueueFileLaws E F}.

Lemma write_all_holds es : forall q again l,
  Muxer.holds q again l -> Forall Muxer.storable es ->
  exists q', write_all q es = (q', Returns tt) /\ Muxer.holds q' again (l ++ (Some <$> es))
    /\ (Muxer.room q <= length es + Muxer.room q')%nat.
Proof.
  induction es as [|e es IH]; intros q again l Hh Hs; cbn [write_all].
  - exists q. rewrite app_nil_r. split; [done|]. split; [done|]. cbn. lia.
  - apply Forall_cons in Hs as [He Hs].
    destruct (Muxer.file_write_last q again l e Hh He) as (q1 & -> & Hh1 & Hr1).
    destruct (IH q1 again _ Hh1 Hs) as (q2 & E2 & Hh2 & Hr2). exists q2. split; [done|].
    rewrite <-app_assoc in Hh2. split; [done|]. cbn [length]. lia.
Qed.

Lemma read_all_holds l : forall q again, Muxer.holds q again l ->
  exists q0 given q', Muxer.holds q0 given [] /\ Muxer.file_read q0 = (q', Throws Exn_shutdown)
    /\ read_all (S (length l)) q = (q', l, Throws Exn_shutdown).
Proof.
  induction l as [|r l IH]; intros q again Hh.
  - destruct (Muxer.file_read_end q again Hh) as (q' & E1 & Hh'). exists q, again, q'. split; [done|]. split; [done|].
    cbn [read_all length]. by rewrite E1.
  - destruct (Muxer.file_read_first q again r l Hh) as (q1 & again1 & E1 & Hh1 & _).
    destruct (IH q1 again1 Hh1) as (q0 & given & q' & Hq0 & Hr0 & E2). exists q0, given, q'. split; [done|]. split; [done|].
    change (read_all (S (length (r :: l))) q) with
      (match Muxer.file_read q with
       | (q, Returns d) => let '(q, ds, r) := read_all (S (length l)) q in (q, d :: ds, r)
       | (q, Throws e) => (q, [], Throws e)
       | (q, Diverges) => (q, [], Diverges)
       end).
    by rewrite E1, E2.
Qed.
End Whole.

(** ** The object *)

Section Model.
Context {zl : Compression.Zlib}.
Variable reg : registry.
Variable fnmatch : cstring -> cstring -> bool.
(** Enough turns for the loops of the BBDO layer. *)
Variable fuel : nat.

(** The layers: [_substream] is the BBDO stream, [_splitter] the file stream at
    the bottom of it. *)
Definition persistent_file : Type := BbdoStream.stream (Compression.stream file_stream).

Definition _splitter (p : persistent_file) : file_stream :=
  Compression._substream (BbdoStream._substream p).

Definition new_persistent_file (fs : file_system) (path : cstring) : file_system * outcome persistent_file :=
  let opnr := set_filename new_opener path in
  let '(fs, r) := open fnmatch fs opnr in
  (fs, f ← r;
   let cs := Compression.new_stream (-1) 0 f in
   Returns (BbdoStream.set_negotiate (BbdoStream.set_coarse (BbdoStream.new_stream cs) true) false ([], []))).

Definition read (p : persistent_file) (deadline : Z) : persistent_file * outcome (bool * option data) :=
  BbdoStream.read reg fuel deadline p.

Definition write (p : persistent_file) (d : data) : persistent_file * outcome Z :=
  BbdoStream.write reg p d.

(** The statistics of the BBDO layer, then those of the file. *)
Definition statistics (now : Z) (p : persistent_file) : persistent_file * list (cstring * json) :=
  let '(f, tree) := FileStream.statistics now (_splitter p) in
  (BbdoStream.with_substream p (Compression.with_substream (BbdoStream._substream p) f),
   ((fun kv => (fst kv, Number (Dbl.of_Z (snd kv)))) <$> BbdoStream.statistics p) ++ tree).

Definition remove_all_files (p : persistent_file) : persistent_file :=
  BbdoStream.with_substream p (Compression.with_substream (BbdoStream._substream p)
    (FileStream.remove_all_files fnmatch (_splitter p))).

(** The destruction of the layers: the compression stream flushes. *)
Definition destroy (p : persistent_file) : file_system :=
  disk (Compression.destroy Compression.compress_fuel (BbdoStream._substream p)).

(** ** As the muxer uses it *)

Variable path : cstring.

(** The retention file [path] of a muxer, open or not. *)
Inductive queue_file : Type :=
  | Closed (fs : file_system)
  | Opened (p : persistent_file).

Definition opened (q : queue_file) : queue_file * outcome persistent_file :=
  match q with
  | Opened p => (q, Returns p)
  | Closed fs =>
    let '(fs, r) := new_persistent_file fs path in
    (match r with Returns p => Opened p | _ => Closed fs end, r)
  end.

#[global] Instance persistent_queue : Muxer.QueueFile data queue_file := {
  file_read q :=
    let '(q, r) := opened q in
    match r with
    | Returns p => let '(p, r) := read p (-1) in (* files ignore the deadline *) (Opened p, snd <$> r)
    | Throws e => (q, Throws e)
    | Diverges => (q, Diverges)
    end;
  file_write q d :=
    let '(q, r) := opened q in
    match r with
    | Returns p => let '(p, r) := write p d in (Opened p, (fun _ => tt) <$> r)
    | Throws e => (q, Throws e)
    | Diverges => (q, Diverges)
    end;
  file_close q := match q with Closed fs => q | Opened p => Closed (destroy p) end
}.
End Model.

(** ** The queue of events *)

Section Queue.
Context {zl : Compression.Zlib} {laws : Compression.ZlibLaws}.
Variable reg : registry.
Variable fnmatch : cstring -> cstring -> bool.
Hypothesis Hglob : Splitter.matches_prefixes fnmatch.
Variable fuel : nat.
Variable path : cstring.
Hypothesis Hpath : Splitter.ordinary path.

#[local] Instance parts_queue : RecordQueue file_stream := file_queue path.

(** The bytes an event is written as: one datum for the compression layer, of a
    size the layers take, and that the fuel is enough to read. *)
Definition written_as (e : data) (wire : cstring) : Prop :=
  event_ok reg e /\ Z.shiftr (type e) 16 <> bbdo /\ serialize reg e = Returns (Some wire)
  /\ Compression.fits wire /\ (length wire + 1 < fuel)%nat.

Definition can_store (e : data) : Prop := exists wire, written_as e wire.

Definition record_of (r : option data) (wire : cstring) : Prop := exists e, r = Some e /\ written_as e wire.

(** The records of the current part that were read, and those to come. *)
Definition in_file (p : persistent_file) (again l : list (option data)) : Prop :=
  BbdoStream._packet p = [] /\ BbdoStream._buffer p = [] /\ BbdoStream._coarse p = true
  /\ exists done pend rest, Compression.holds (BbdoStream._substream p) done pend rest
     /\ Forall2 record_of again done /\ Forall2 record_of l (pend ++ concat rest).

(** The compression stream seen as a script: its data, then its end. *)
Definition deliveries (ds : list cstring) : list BbdoStream.delivery :=
  ((fun d => BbdoStream.Arrives (Some (Raw d))) <$> ds) ++ [BbdoStream.Fails Exn_shutdown].

(** After [k] reads of a stream that held [ds] and had given [given]. *)
Definition follows (given ds : list cstring) (s : Compression.stream file_stream) (c : BbdoStream.script) : Prop :=
  exists k done pend rest, Compression.holds s done pend rest /\ pend ++ concat rest = drop k ds
    /\ (k <= length ds)%nat /\ BbdoStream.incoming c = deliveries (drop k ds)
    /\ (k = 0%nat -> done = given)
    /\ (k = 1%nat -> exists d, head ds = Some d /\ (done = given ++ [d] \/ done = [d])).

Lemma follows_alike given ds s1 s2 dl : follows given ds s1 s2 -> exists s1' s2' r,
  sub_read s1 dl = (s1', r) /\ sub_read s2 dl = (s2', r) /\ (forall x, r = Returns x -> follows given ds s1' s2').
Proof.
  intros (k & done & pend & rest & Hh & E & Hk & Hi & H0 & H1). cbn [sub_read Compression.compression_substream BbdoStream.script_substream].
  set (n := Compression.read_fuel s1). unfold BbdoStream.script_read. rewrite Hi.
  destruct (drop k ds) as [|d more] eqn:Ed.
  - apply app_eq_nil in E as [-> E]. destruct (Compression.read_nothing n dl rest s1 done Hh E) as (s1' & Er & _ & _);
      [unfold n, Compression.read_fuel; lia|].
    eexists s1', _, (Throws Exn_shutdown). split; [done|]. split; [done|]. by intros ? [=].
  - destruct (Compression.read_given n dl rest s1 done pend d more Hh E) as (s1' & done' & pend' & rest' & Er & Hh' & E' & Hd');
      [unfold n, Compression.read_fuel; lia|].
    eexists s1', _, (Returns (true, Some (Raw d))). split; [done|]. split; [done|]. intros _ _.
    assert (Hlt : (k < length ds)%nat).
    { apply (f_equal length) in Ed. rewrite length_drop in Ed. cbn in Ed. lia. }
    assert (Ed' : drop (S k) ds = more) by (by rewrite <-Nat.add_1_r, <-drop_drop, Ed).
    exists (S k), done', pend', rest'. rewrite Ed'. split_and!; [done|done|lia|done|done|].
    intros [= ->]. rewrite H0 in Hd' by done. exists d. split; [by destruct ds; cbn in *; simplify_eq|done].
Qed.

(** Nothing of the result depends on what the BBDO layer counts. *)
Lemma read_of_any dl (p p1 : persistent_file) e :
  BbdoStream._read_any reg fuel dl p = (p1, Returns (true, Some e)) -> Z.shiftr (type e) 16 <> bbdo ->
  BbdoStream._coarse p1 = true -> (0 < fuel)%nat ->
  BbdoStream.read reg fuel dl p
  = (BbdoStream.with_received p1 (u32 (BbdoStream._events_received_since_last_ack p1 + 1)), Returns (true, Some e)).
Proof.
  intros E Hc Hco Hf.
  assert (Hl : BbdoStream.read_loop reg fuel fuel dl p = (p1, Returns (true, Some e))).
  { remember fuel as n eqn:En in |- * at 2. destruct n as [|n]; [lia|]. cbn [BbdoStream.read_loop].
    rewrite E. by rewrite (proj2 (Z.eqb_neq _ _) Hc). }
  unfold BbdoStream.read. rewrite Hl. cbv beta iota. case_if; [|done].
  unfold BbdoStream.send_event_acknowledgement.
  replace (BbdoStream._coarse (BbdoStream.with_received p1 _)) with true by (by destruct p1). done.
Qed.

(** Reading gives the first event of the file. *)
Lemma read_stored p again r l dl :
  in_file p again (r :: l) -> exists p' again',
  read reg fuel p dl = (p', Returns (true, r)) /\ in_file p' again' l
  /\ (again' = again ++ [r] \/ again' = [r]).
Proof.
  intros (Hpa & Hbu & Hco & given & pend & rest & Hh & Hag & Hl).
  apply Forall2_cons_inv_l in Hl as (wire & more & (e & -> & Hw) & Hl & Eds).
  pose proof Hw as (Hok & Hcat & Hser & Hfits & Hfuel).
  set (p2 := BbdoStream.over p (BbdoStream.Script (deliveries (wire :: more)) [] [])).
  assert (Hal : BbdoStream.alike (follows given (wire :: more)) p p2).
  { split; [by destruct p|]. exists 0%nat, given, pend, rest. rewrite drop_0. split_and!; try done; [cbn; lia|by destruct p]. }
  assert (E2 : BbdoStream._read_any reg fuel dl p2 = (BbdoStream.after_event p2 [] [] [] (deliveries more), Returns (true, Some e))).
  { apply (BbdoStream.read_any_whole reg fuel dl p2 e wire (deliveries more)); try done.
    - by destruct p.
    - by destruct p.
    - by destruct p. }
  destruct (BbdoStream.read_any_alike _ (follows_alike given (wire :: more)) reg fuel dl p p2 Hal) as (Hr & Ho & Hi).
  rewrite E2 in Hr, Ho, Hi. cbn [fst snd] in Hr, Ho, Hi.
  destruct (BbdoStream._read_any reg fuel dl p) as [p1 r1] eqn:E1. cbn [fst snd] in Hr, Ho, Hi. subst r1.
  destruct (Hi _ eq_refl) as [_ (k & done & pend' & rest' & Hh' & E' & Hk & Hinc & _ & H1)].
  assert (Hk1 : k = 1%nat).
  { assert (Hm : deliveries more = deliveries (drop k (wire :: more))) by (rewrite <-Hinc; by destruct p).
    unfold deliveries in Hm. apply app_inv_tail in Hm. apply (f_equal length) in Hm.
    rewrite !length_fmap, length_drop in Hm. cbn [length] in Hm, Hk. lia. }
  subst k. destruct (H1 eq_refl) as (d & [= <-] & Hd). cbn [drop] in E'.
  assert (Hp1 : BbdoStream._packet p1 = [] /\ BbdoStream._buffer p1 = [] /\ BbdoStream._coarse p1 = true).
  { rewrite Ho. destruct p. cbn in Hco |- *. done. }
  destruct Hp1 as (Hp1 & Hp2 & Hp3).
  exists (BbdoStream.with_received p1 (u32 (BbdoStream._events_received_since_last_ack p1 + 1))).
  exists (if decide (done = given ++ [wire]) then again ++ [Some e] else [Some e]).
  split; [apply read_of_any; try done; lia|]. split; [|case_decide; [by left|by right]].
  split; [by destruct p1|]. split; [by destruct p1|]. split; [by destruct p1|].
  exists done, pend', rest'. split; [by destruct p1|]. rewrite E'. split; [|done].
  assert (Hone : Forall2 record_of [Some e] [wire]) by (constructor; [by exists e|constructor]).
  case_decide as Hdd; [subst done; by apply Forall2_app|]. by destruct Hd as [->| ->].
Qed.

(** At the end of the file, shutdown is thrown and no part remains. *)
Lemma read_exhausted p again dl :
  in_file p again [] -> (0 < fuel)%nat -> exists p',
  read reg fuel p dl = (p', Throws Exn_shutdown) /\ Splitter.emptied (destroy p') path.
Proof.
  intros (Hpa & Hbu & Hco & given & pend & rest & Hh & Hag & Hl) Hf.
  apply Forall2_nil_inv_l, app_eq_nil in Hl as [-> Hr].
  destruct (Compression.read_nothing (Compression.read_fuel (BbdoStream._substream p)) dl rest _ given Hh Hr)
    as (s' & E & He & Hs'); [unfold Compression.read_fuel; lia|].
  exists (BbdoStream.with_substream p s').
  split; [|destruct p; unfold destroy, Compression.destroy, Compression._flush; cbn; by rewrite Hs'].
  destruct fuel as [|n]; [lia|]. unfold read, BbdoStream.read. cbn [BbdoStream.read_loop].
  unfold BbdoStream._read_any. cbn [BbdoStream.read_any_loop]. unfold BbdoStream.read_any_step. cbn [BbdoStream._read_packet].
  rewrite Hpa. change ((_ <=? length [])%nat) with false. cbn [sub_read Compression.compression_substream]. by rewrite E.
Qed.

(** Writing adds the event at the end of the file. *)
Lemma write_stored p again l e :
  in_file p again l -> can_store e -> exists p' n,
  write reg p e = (p', Returns n) /\ in_file p' again (l ++ [Some e])
  /\ (space (_splitter p) <= S (space (_splitter p')))%nat.
Proof.
  intros (Hpa & Hbu & Hco & given & pend & rest & Hh & Hag & Hl) (wire & Hw).
  pose proof Hw as (Hok & Hcat & Hser & Hfits & Hfuel).
  destruct (Compression.write_holds Compression.compress_fuel _ given pend rest wire Hh Hfits)
    as (s' & pend' & rest' & E & Hh' & E' & Hsp); [unfold Compression.compress_fuel; lia|].
  set (p1 := BbdoStream.with_substream p s').
  set (n := i32 (BbdoStream._acknowledged_events p1)).
  exists (BbdoStream.with_acknowledged p1 (u32 (BbdoStream._acknowledged_events p1 - n))), n.
  split; [|split].
  - unfold write, BbdoStream.write, BbdoStream._write. rewrite Hser. cbn [sub_write Compression.compression_substream]. by rewrite E.
  - split; [by destruct p|]. split; [by destruct p|]. split; [by destruct p|].
    exists given, pend', rest'. split; [by destruct p|]. split; [done|]. rewrite E', app_assoc. apply Forall2_app; [done|].
    constructor; [by exists e|constructor].
  - unfold _splitter. by destruct p.
Qed.

(** ** Closing and opening *)

Definition room_of (q : queue_file) : nat :=
  match opened fnmatch path q with (_, Returns p) => space (_splitter p) | _ => 0 end.

(** What a file holds is what its opening shows; the events to be given again
    are known of an open file only. *)
Definition contains (q : queue_file) (again l : list (option data)) : Prop :=
  exists q' p, opened fnmatch path q = (q', Returns p) /\ in_file p again l
  /\ (forall fs, q = Closed fs -> again = []).

Lemma new_in_file f off given pend rest again l :
  Compression.holds (Compression.new_stream (-1) 0 f) given pend rest ->
  Forall2 record_of again given -> Forall2 record_of l (pend ++ concat rest) -> off = f ->
  in_file (BbdoStream.set_negotiate (BbdoStream.set_coarse
    (BbdoStream.new_stream (Compression.new_stream (-1) 0 off)) true) false ([], [])) again l.
Proof. intros Hh Ha Hl ->. do 3 (split; [done|]). by exists given, pend, rest. Qed.

(** A file that does not exist is empty. *)
Lemma contains_nothing fs : Splitter.emptied fs path -> contains (Closed fs) [] [].
Proof.
  intros He. destruct (file_fresh path fnmatch fs Hglob Hpath He) as (fs' & f & E & Hl & _).
  eexists _, _. unfold opened, new_persistent_file. rewrite E. split; [done|]. split; [|done].
  apply (new_in_file f f [] [] []); [by apply Compression.fresh_holds|constructor|constructor|done].
Qed.

(** As many events fit in a new file as there are part numbers, at least. *)
Lemma room_of_nothing fs : Splitter.emptied fs path -> Z.of_nat (room_of (Closed fs)) = Splitter.INT_MAX.
Proof.
  intros He. destruct (file_fresh path fnmatch fs Hglob Hpath He) as (fs' & f & E & _ & Hw).
  unfold room_of, opened, new_persistent_file. rewrite E. cbn [mbind outcome_bind].
  change (space _) with (Z.to_nat (Splitter.INT_MAX - Splitter._wid (_file f))). rewrite Hw. unfold Splitter.INT_MAX. lia.
Qed.

(** A file closed and opened again gives what it held, after the events of the
    current part that were read. *)
Lemma closed_contains p again l :
  in_file p again l -> (0 < space (_splitter p))%nat -> contains (Closed (destroy p)) [] (again ++ l).
Proof.
  intros (Hpa & Hbu & Hco & given & pend & rest & Hh & Hag & Hl) Hsp.
  pose proof Hh as (Hsh & Hwb & _).
  assert (Ed : destroy p = disk (_splitter p)).
  { unfold destroy, Compression.destroy, Compression._flush. by rewrite Hsh, Hwb. }
  destruct (Compression.new_holds _ _ _ _ Hh) as (off & cur & segs & Hloc & Hnew).
  destruct (file_reopen path fnmatch (_splitter p) off cur segs Hglob Hpath Hloc) as (f' & E & Hl').
  { cbn in Hsp. lia. }
  eexists _, _. unfold opened, new_persistent_file. rewrite Ed, E. split; [done|]. split; [|done].
  eapply (new_in_file f' f' []); [by apply Hnew|constructor| |done].
  rewrite <-app_assoc. by apply Forall2_app.
Qed.

Hypothesis some_fuel : (0 < fuel)%nat.

(** A retention file has the laws the muxer relies on. *)
#[global] Instance persistent_laws : Muxer.QueueFileLaws data queue_file
  (QueueFile0 := persistent_queue reg fnmatch fuel path).
Proof using laws Hglob Hpath some_fuel.
  refine {| Muxer.holds := contains; Muxer.storable := can_store; Muxer.room := room_of |}.
  - intros q again (q' & p & E & Hin & Ha). cbn [Muxer.file_read persistent_queue]. rewrite E.
    destruct (read_exhausted p again (-1) Hin some_fuel) as (p' & Er & He). rewrite Er.
    exists (Opened p'). split; [done|]. cbn [Muxer.file_close persistent_queue].
    by apply contains_nothing.
  - intros q again r l (q' & p & E & Hin & Ha). cbn [Muxer.file_read persistent_queue]. rewrite E.
    destruct (read_stored p again r l (-1) Hin) as (p' & again' & Er & Hin' & Hag). rewrite Er.
    exists (Opened p'), again'. split; [done|]. split; [|done]. exists (Opened p'), p'. split; [done|]. by split.
  - intros q again l e (q' & p & E & Hin & Ha) He. cbn [Muxer.file_write persistent_queue].
    unfold room_of at 1. rewrite E.
    destruct (write_stored p again l e Hin He) as (p' & n & Ew & Hin' & Hsp). rewrite Ew.
    exists (Opened p'). split; [done|]. split; [|done]. exists (Opened p'), p'. split; [done|]. by split.
  - intros q again l (q' & p & E & Hin & Ha) Hr. unfold room_of in Hr. rewrite E in Hr.
    cbn [Muxer.file_close persistent_queue]. destruct q as [fs|p0]; cbn [opened] in E.
    + rewrite (Ha fs eq_refl) in *. exists q', p. split; [done|]. by split.
    + injection E as <- <-. by apply closed_contains.
  - intros q again l (q' & p & E & Hin & Ha). destruct Hin as (_ & _ & _ & given & pend & rest & _ & Hag & Hl).
    assert (Hs : forall l ws, Forall2 record_of l ws -> Forall can_store (omap id l)).
    { clear. induction 1 as [|r w l ws (e & -> & Hw) _ IH]; cbn; [constructor|]. constructor; [by exists w|done]. }
    eapply Hs. by apply Forall2_app.
Defined.

#[local] Instance this_queue : Muxer.QueueFile data queue_file := persistent_queue reg fnmatch fuel path.

(** C10. Whatever is written to a retention file that does not exist yet is read
    from it by a later run of the program, in the order it was written, and
    nothing else; once all is read, the reader is told so and no part of the
    file is left on disk. *)
Theorem retention_roundtrip fs es :
  Splitter.emptied fs path -> Forall can_store es -> Z.of_nat (length es) < Splitter.INT_MAX ->
  exists q1 q2 fs2, write_all (Closed fs) es = (q1, Returns tt)
    /\ read_all (S (length es)) (Muxer.file_close q1) = (q2, Some <$> es, Throws Exn_shutdown)
    /\ Muxer.file_close q2 = Closed fs2 /\ Splitter.emptied fs2 path.
Proof.
  intros He Hs Hr. rewrite <-(room_of_nothing fs He) in Hr.
  assert (Hh : Muxer.holds (Closed fs) [] []) by exact (contains_nothing fs He).
  destruct (write_all_holds es (Closed fs) [] [] Hh Hs) as (q1 & E1 & Hh1 & Hr1).
  change (Muxer.room (Closed fs)) with (room_of (Closed fs)) in Hr1.
  pose proof (Muxer.file_close_rereads q1 [] _ Hh1 ltac:(lia)) as Hc. cbn [app] in Hc.
  destruct (read_all_holds _ _ _ Hc) as (q0 & given & q2 & (q' & p & E & Hin & _) & Er & E2).
  rewrite length_fmap in E2. cbn [Muxer.file_read this_queue persistent_queue] in Er. rewrite E in Er.
  destruct (read_exhausted p given (-1) Hin some_fuel) as (p' & Ep & Hemp). rewrite Ep in Er. injection Er as <-.
  exists q1, (Opened p'), (destroy p'). by split_and!.
Qed.

(** C11. A muxer and its two retention files, down to the bytes of the parts on
    disk, are one queue with acknowledgement: publications, reads,
    acknowledgements and restarts are steps of a plain queue. *)
Theorem muxer_on_disk_refines_queue max (m m' : Muxer.muxer (E := data) (F := queue_file)) l ls :
  0 <= max < 2 ^ 32 -> Muxer.sound max m l -> Muxer.run type max m ls m' ->
  exists l', Muxer.sound max m' l' /\ Muxer.q_run (Muxer.abs m l) ls (Muxer.abs m' l').
Proof. intros Hm. by apply Muxer.run_sound. Qed.
End Queue.

(** ** The theorems on a small disk, zlib storing data as it is *)

Definition demo_reg : registry := BbdoStream.demo_registry.
Definition demo_glob := Splitter.star_glob.
Definition demo_file := queue_file.

#[local] Instance demo_queue : Muxer.QueueFile data queue_file :=
  persistent_queue (zl := Compression.stored) demo_reg demo_glob 100 Splitter.demo_path.

Lemma demo_storable : can_store (zl := Compression.stored) demo_reg 100 BbdoStream.demo_event.
Proof.
  exists (BbdoStream.wire_of BbdoStream.demo_event). split; [apply BbdoStream.demo_ok|].
  split; [vm_compute; discriminate|]. split; [vm_compute; reflexivity|].
  assert (Hl : length (BbdoStream.wire_of BbdoStream.demo_event) = 24%nat) by (vm_compute; reflexivity).
  unfold Compression.fits. rewrite Hl. split; [|unfold Compression.max_data_size; cbn; lia].
  split; [intros E; by rewrite E in Hl|]. unfold Compression.max_data_size. cbn. lia.
Qed.

Lemma retention_roundtrip_witness :
  exists q1 q2 fs2,
    write_all (Closed Splitter.blank) [BbdoStream.demo_event; BbdoStream.demo_event] = (q1, Returns tt)
    /\ read_all 3 (Muxer.file_close q1)
       = (q2, [Some BbdoStream.demo_event; Some BbdoStream.demo_event], Throws Exn_shutdown)
    /\ Muxer.file_close q2 = Closed fs2 /\ Splitter.emptied fs2 Splitter.demo_path.
Proof.
  apply (retention_roundtrip demo_reg demo_glob Splitter.star_glob_prefixes 100 Splitter.demo_path
    Splitter.demo_path_ordinary ltac:(lia) Splitter.blank [BbdoStream.demo_event; BbdoStream.demo_event]).
  - apply Splitter.blank_emptied.
  - constructor; [apply demo_storable|]. constructor; [apply demo_storable|constructor].
  - by vm_compute.
Defined.
#[local] Instance demo_laws : Muxer.QueueFileLaws data queue_file :=
  persistent_laws (zl := Compression.stored) demo_reg demo_glob Splitter.star_glob_prefixes 100
    Splitter.demo_path Splitter.demo_path_ordinary ltac:(lia).

(** A muxer created on a blank disk, with room for one event in memory. *)
Definition disk_muxer : Muxer.muxer :=
  Muxer.set_write_filters (fst (Muxer.new_muxer 1 3 true (Closed Splitter.blank) (Closed Splitter.blank)))
    {[ type BbdoStream.demo_event ]}.
Definition disk_publish (m : Muxer.muxer) := Muxer.publish type 1 m (Some BbdoStream.demo_event).
Definition disk_muxer1 := fst (disk_publish disk_muxer).
Definition disk_muxer2 := fst (disk_publish disk_muxer1).
Definition disk_muxer3 := fst (Muxer.read disk_muxer2 (fun m => (m, true))).

Lemma disk_muxer_sound : exists l, Muxer.sound 1 disk_muxer l /\ Muxer.waiting (Muxer.abs disk_muxer l) = [].
Proof.
  assert (Hh : Muxer.holds (Closed Splitter.blank) [] []).
  { exact (contains_nothing (zl := Compression.stored) demo_reg demo_glob Splitter.star_glob_prefixes 100
      Splitter.demo_path Splitter.demo_path_ordinary Splitter.blank Splitter.blank_emptied). }
  destruct (Muxer.new_muxer_spec type 1 ltac:(lia) 3 true _ _ _ _ _ _ Hh Hh)
    as (m & again & l & E & Hw & Ha & _ & Hm); [cbn; lia..|].
  unfold disk_muxer. rewrite E. exists l. split; [split; [exists again; by apply Muxer.wf_filters|by apply Hm]|].
  change (Muxer.waiting (Muxer.abs m l) = []). by rewrite Ha.
Qed.

Lemma disk_publish_step m :
  bool_decide (type BbdoStream.demo_event ∈ Muxer._write_filters m) = true ->
  snd (disk_publish m) = Returns tt ->
  Muxer.step type 1 m (Muxer.Publish BbdoStream.demo_event) (fst (disk_publish m)).
Proof.
  intros Hf Hr. apply Muxer.step_publish; [by apply bool_decide_eq_true in Hf|exact demo_storable|].
  fold (disk_publish m). by destruct (disk_publish m) as [m' r]; cbn in *; subst r.
Qed.

(** Two events, the second of which goes to the disk. *)
Lemma muxer_on_disk_refines_queue_witness :
  exists l, Muxer.sound 1 disk_muxer l /\ exists l', Muxer.sound 1 disk_muxer3 l'
  /\ Muxer.q_run (Muxer.abs disk_muxer l)
       [Muxer.Publish BbdoStream.demo_event; Muxer.Publish BbdoStream.demo_event; Muxer.Read BbdoStream.demo_event]
       (Muxer.abs disk_muxer3 l').
Proof.
  destruct disk_muxer_sound as (l & Hs & _). exists l. split; [exact Hs|].
  apply (muxer_on_disk_refines_queue demo_reg demo_glob Splitter.star_glob_prefixes 100 Splitter.demo_path
    Splitter.demo_path_ordinary ltac:(lia) 1 disk_muxer disk_muxer3 l); [lia|exact Hs|].
  eapply Muxer.run_cons; [apply disk_publish_step; vm_compute; reflexivity|].
  eapply Muxer.run_cons; [apply disk_publish_step; vm_compute; reflexivity|].
  eapply Muxer.run_cons; [|apply Muxer.run_nil].
  apply (Muxer.step_read _ _ _ 0 _ _ (fun m => (m, true))); vm_compute; reflexivity.
Defined.
End PersistentFile.
