(* ===== verification/Perfdata.v ===== *)
(** * Performance data (storage/src/perfdata.cc, storage/src/parser.cc)

    The metrics plugins print, [name=value][unit];warning;critical;min;max, and
    their parser. It works on a C string, here the list of its characters; a
    pointer into it is the list of the characters that remain. The theorems
    show that the parser always ends, what the metrics it gives satisfy, that
    it reads well-formed texts, and that it skips over malformed metrics. *)

From Stdlib Require Import ZArith Lia ZifyNat ZifyBool Strings.Byte Floats.SpecFloat.
From stdpp Require Import base option list numbers strings.
From S2P Require Import Prelude Double MiscString.

Module Perfdata.

(** ** perfdata *)

Inductive data_type : Type := gauge | counter | derive | absolute | automatic.

#[global] Instance data_type_eq_dec : EqDecision data_type.
Proof. solve_decision. Defined.

Definition data_type_name (t : data_type) : cstring :=
  match t with
  | gauge => str "GAUGE"
  | counter => str "COUNTER"
  | derive => str "DERIVE"
  | absolute => str "ABSOLUTE"
  | automatic => str "AUTOMATIC"
  end.

Record perfdata : Type := Perf {
  _critical : double;
  _critical_low : double;
  _critical_mode : bool;
  _max : double;
  _min : double;
  _name : cstring;
  _unit : cstring;
  _value : double;
  _value_type : data_type;
  _warning : double;
  _warning_low : double;
  _warning_mode : bool
}.

Definition NAN : double := S754_nan.
Definition INFINITY : double := S754_infinity false.

Definition isnan (x : double) : bool := match x with S754_nan => true | _ => false end.
Definition isinf (x : double) : bool := match x with S754_infinity _ => true | _ => false end.
Definition signbit (x : double) : bool :=
  match x with S754_zero s | S754_infinity s | S754_finite s _ _ => s | S754_nan => false end.
Definition isfinite (x : double) : bool := negb (isnan x) && negb (isinf x).

Definition new_perfdata : perfdata :=
  Perf NAN NAN false NAN NAN [] [] NAN gauge NAN NAN false.

(** 0.01 is the double nearest to it. *)
Definition double_equal (a b : double) : bool :=
  (isnan a && isnan b) || (isinf a && isinf b && eqb (signbit a) (signbit b))
  || (isfinite a && isfinite b
      && Dbl.leb (SFabs (Dbl.sub a b)) (Dbl.mul (Dbl.of_ratio false 1 100) (SFabs a))).

Definition perfdata_eqb (left right : perfdata) : bool :=
  double_equal (_critical left) (_critical right)
  && double_equal (_critical_low left) (_critical_low right)
  && eqb (_critical_mode left) (_critical_mode right)
  && double_equal (_max left) (_max right) && double_equal (_min left) (_min right)
  && cstring_eqb (_name left) (_name right) && cstring_eqb (_unit left) (_unit right)
  && double_equal (_value left) (_value right)
  && bool_decide (_value_type left = _value_type right)
  && double_equal (_warning left) (_warning right)
  && double_equal (_warning_low left) (_warning_low right)
  && eqb (_warning_mode left) (_warning_mode right).

(** ** Numbers and ranges *)

(** [" \t\n\r;"], where a field ends. *)
Definition ends_field (b : byte) : bool :=
  byte_eqb b x20 || byte_eqb b x09 || byte_eqb b x0a || byte_eqb b x0d || byte_eqb b x3b.

(** [" \n\r\t"]. *)
Definition is_blank (b : byte) : bool :=
  byte_eqb b x20 || byte_eqb b x0a || byte_eqb b x0d || byte_eqb b x09.

Definition head_is (c : byte) (l : cstring) : bool :=
  match l with d :: _ => byte_eqb d c | [] => false end.
Definition starts_space (l : cstring) : bool := match l with d :: _ => isspace d | [] => false end.

(** strtod at [l]: NaN when there is no number, and the characters taken. *)
Definition take_double (l : cstring) : double * nat :=
  let '(x, rest) := Dbl.strtod l in
  let n := (length l - length rest)%nat in
  (if (n =? 0)%nat then NAN else x, n).

(** With a decimal comma, a copy up to the end of the field is read instead. *)
Definition extract_double (l : cstring) (skip : bool) : double * cstring :=
  if starts_space l then (NAN, l)
  else
    let '(retval, n) :=
      match find_first_if (byte_eqb x2c) l with
      | Some comma =>
        let t := length (fst (Dbl.span (fun b => negb (ends_field b)) (drop comma l))) in
        take_double (take comma l ++ [x2e] ++ drop (S comma) (take (comma + t) l))
      | None => take_double l
      end in
    let l := drop n l in
    (retval, if skip && head_is x3b l then drop 1 l else l).

(** The low and high thresholds, whether they are inclusive, what follows. *)
Definition extract_range (l : cstring) : double * double * bool * cstring :=
  let '(inclusive, l) := if head_is x40 l then (true, drop 1 l) else (false, l) in
  let '(low_value, l) :=
    if head_is x7e l then (S754_infinity true, drop 1 l) else extract_double l true in
  if negb (head_is x3a l) then
    (if negb (isnan low_value) then S754_zero false else low_value, low_value, inclusive, l)
  else
    let ptr := drop 1 l in
    let '(high_value, l) := extract_double ptr true in
    let high_value :=
      if isnan high_value
         && ((length l =? length ptr)%nat || (S (length l) =? length ptr)%nat)
      then INFINITY else high_value in
    (low_value, high_value, inclusive, l).

(** ** Names *)

(** How far the name extends: to an equal sign or a space out of quotes. *)
Fixpoint name_length (in_quote : bool) (l : cstring) : nat :=
  match l with
  | [] => 0
  | c :: l' =>
    if in_quote || (negb (byte_eqb c x3d) && negb (isspace c)) || (128 <=? Z_of_byte c)
    then S (name_length (if byte_eqb c x27 then negb in_quote else in_quote) l')
    else 0
  end.

Definition last_is (c : byte) (l : cstring) : bool :=
  match last l with Some d => byte_eqb d c | None => false end.

Definition remove_last (l : cstring) : cstring := take (length l - 1) l.

(** The type of the metric and its name, from the text in front of the equal
    sign; an empty name is refused. (When the text is empty or a single quote,
    the code looks at the character before it, whatever it is, and finds an
    empty name.) *)
Definition label (s : cstring) : data_type * cstring :=
  let l := if head_is x27 s then drop 1 s else s in
  let l := if last_is x27 s then remove_last l else l in
  let l := snd (Dbl.span is_blank l) in
  let l := reverse (snd (Dbl.span is_blank (reverse l))) in
  if last_is x5d l then
    let name := remove_last l in
    if cstring_eqb (take 2 l) (str "a[") then (absolute, drop 2 name)
    else if cstring_eqb (take 2 l) (str "c[") then (counter, drop 2 name)
    else if cstring_eqb (take 2 l) (str "d[") then (derive, drop 2 name)
    else if cstring_eqb (take 2 l) (str "g[") then (gauge, drop 2 name)
    else (gauge, name)
  else (gauge, l).

(** ** The parser *)

Section Parser.
(** The sizes of the columns of the database (get_metrics_col_size). *)
Variables metric_name_size unit_name_size : nat.

(** The lambda skip: to the next word. *)
Definition skip (l : cstring) : cstring :=
  snd (Dbl.span isspace (snd (Dbl.span (fun b => negb (isspace b)) l))).

(** name.resize(adjust_size_utf8(...)): None when it reads out of the text. *)
Definition resize (l : cstring) (size : nat) : option cstring :=
  n ← Str.adjust_size_utf8 l size; Some (take n l).

(** One turn of the loop: the metric, if there is one, and where the next turn
    starts. None: the text is read out of its bounds. *)
Definition parse_metric (tmp : cstring) : option (option perfdata * cstring) :=
  let n := name_length false tmp in
  let '(value_type, name) := label (take n tmp) in
  let tmp := drop n tmp in
  match name with
  | [] => Some (None, skip (if head_is x3d tmp then drop 1 tmp else tmp))
  | _ =>
    name ← resize name metric_name_size;
    if negb (head_is x3d tmp) then Some (None, skip tmp)
    else
      let '(value, tmp) := extract_double (drop 1 tmp) false in
      if isnan value then Some (None, skip tmp)
      else
        let '(unit, tmp) := Dbl.span (fun b => negb (ends_field b)) tmp in
        unit ← resize unit unit_name_size;
        let tmp := if head_is x3b tmp then drop 1 tmp else tmp in
        let '(warning_low, warning_high, warning_mode, tmp) := extract_range tmp in
        let '(critical_low, critical_high, critical_mode, tmp) := extract_range tmp in
        let '(min, tmp) := extract_double tmp true in
        let '(max, tmp) := extract_double tmp true in
        Some (Some (Perf critical_high critical_low critical_mode max min name unit value value_type
                      warning_high warning_low warning_mode),
              snd (Dbl.span isspace tmp))
  end.

(** The loop over the text, appending to [pd]. *)
Fixpoint parse_loop (fuel : nat) (tmp : cstring) (pd : list perfdata) : outcome (option (list perfdata)) :=
  match tmp with
  | [] => Returns (Some pd)
  | _ =>
    match fuel with
    | O => Diverges
    | S fuel' =>
      match parse_metric tmp with
      | None => Returns None
      | Some (None, tmp) => parse_loop fuel' tmp pd
      | Some (Some p, tmp) => parse_loop fuel' tmp (pd ++ [p])
      end
    end
  end.

Definition parse_perfdata (text : cstring) (pd : list perfdata) : outcome (option (list perfdata)) :=
  let buf := snd (Dbl.span is_blank text) in
  parse_loop (length buf) buf pd.

End Parser.

(** ** The parser ends *)

Lemma length_span p (l : cstring) : (length (snd (Dbl.span p l)) <= length l)%nat.
Proof.
  induction l as [|c l IH]; cbn [Dbl.span]; [done|]. destruct (p c); [|done].
  destruct (Dbl.span p l) as [a b]. cbn in *. lia.
Qed.

Lemma length_skip l : (length (skip l) <= length l)%nat.
Proof. unfold skip. etrans; [apply length_span|apply length_span]. Qed.

Lemma length_drop_if (b : bool) n (l : cstring) : (length (if b then drop n l else l) <= length l)%nat.
Proof. destruct b; [|done]. rewrite length_drop. lia. Qed.

Lemma length_extract_double l sk : (length (snd (extract_double l sk)) <= length l)%nat.
Proof.
  unfold extract_double. destruct (starts_space l); [done|].
  destruct (match find_first_if _ l with Some _ => _ | None => _ end) as [x n]. cbn [snd].
  etrans; [apply length_drop_if|]. rewrite length_drop. lia.
Qed.

Lemma length_extract_range l : (length (snd (extract_range l)) <= length l)%nat.
Proof.
  unfold extract_range.
  destruct (if head_is x40 l then (true, drop 1 l) else (false, l)) as [incl l1] eqn:E1.
  assert (H1 : (length l1 <= length l)%nat).
  { destruct (head_is x40 l); simplify_eq; [rewrite length_drop; lia|done]. }
  destruct (if head_is x7e l1 then (S754_infinity true, drop 1 l1) else extract_double l1 true) as [lo l2] eqn:E2.
  assert (H2 : (length l2 <= length l1)%nat).
  { pose proof (length_extract_double l1 true). destruct (head_is x7e l1); simplify_eq; [rewrite length_drop; lia|].
    by rewrite E2 in H. }
  case_if; cbn [snd]; [lia|].
  pose proof (length_extract_double (drop 1 l2) true) as H3. destruct (extract_double (drop 1 l2) true) as [hi l3].
  cbn [snd] in *. rewrite length_drop in H3. lia.
Qed.

Lemma length_drop_S (l : cstring) c : head_is c l = true -> (length (drop 1 l) < length l)%nat.
Proof. destruct l; [done|]. cbn. rewrite drop_0. lia. Qed.

(** Skipping past what stopped a name makes progress. *)
Lemma skip_progress tmp :
  tmp <> [] -> (length (skip (let t := drop (name_length false tmp) tmp in if head_is x3d t then drop 1 t else t)) < length tmp)%nat.
Proof.
  intros Hne. cbv zeta. set (n := name_length false tmp).
  destruct (head_is x3d (drop n tmp)) eqn:Eh.
  - pose proof (length_skip (drop 1 (drop n tmp))). pose proof (length_drop_S _ _ Eh). rewrite !length_drop in *. lia.
  - remember n as k eqn:En. destruct k as [|k]; [symmetry in En; unfold n in En|].
    + rewrite drop_0 in *. destruct tmp as [|c tmp]; [done|]. cbn [name_length orb] in En.
      cbn [head_is] in Eh. rewrite Eh in En. cbn [negb andb] in En.
      destruct (isspace c) eqn:Es; [|done].
      unfold skip. cbn [Dbl.span]. rewrite Es. cbn [negb snd Dbl.span]. rewrite Es.
      pose proof (length_span isspace tmp). destruct (Dbl.span isspace tmp) as [a b]. cbn in *. lia.
    + pose proof (length_skip (drop (S k) tmp)). rewrite length_drop in *. destruct tmp; [done|]. cbn [length] in *. lia.
Qed.

Section Total.
Variables metric_name_size unit_name_size : nat.

Lemma parse_metric_progress tmp p rest :
  tmp <> [] -> parse_metric metric_name_size unit_name_size tmp = Some (p, rest) ->
  (length rest < length tmp)%nat.
Proof.
  intros Hne. unfold parse_metric. pose proof (skip_progress tmp Hne) as Hs. cbv zeta in Hs.
  destruct (label _) as [ty name]. set (t := drop (name_length false tmp) tmp) in *.
  assert (Ht : (length t <= length tmp)%nat) by (unfold t; rewrite length_drop; lia).
  destruct name as [|c name]; [intros [= <- <-]; exact Hs|].
  destruct (resize (c :: name) metric_name_size) as [name'|]; cbn [mbind option_bind]; [|done].
  destruct (head_is x3d t) eqn:Eh; cbn [negb]; [|intros [= <- <-]; exact Hs].
  pose proof (length_drop_S _ _ Eh) as Hd.
  pose proof (length_extract_double (drop 1 t) false) as H1. destruct (extract_double (drop 1 t) false) as [v t1].
  cbn [snd] in H1. destruct (isnan v).
  { intros [= <- <-]. pose proof (length_skip t1). lia. }
  pose proof (length_span (fun b => negb (ends_field b)) t1) as H2. destruct (Dbl.span _ t1) as [unit t2].
  destruct (resize unit unit_name_size) as [unit'|]; cbn [mbind option_bind]; [|done].
  set (t3 := if head_is x3b t2 then drop 1 t2 else t2).
  assert (H3 : (length t3 <= length t2)%nat) by apply length_drop_if.
  pose proof (length_extract_range t3) as H4. destruct (extract_range t3) as [[[wl wh] wm] t4].
  pose proof (length_extract_range t4) as H5. destruct (extract_range t4) as [[[cl ch] cm] t5].
  pose proof (length_extract_double t5 true) as H6. destruct (extract_double t5 true) as [mn t6].
  pose proof (length_extract_double t6 true) as H7. destruct (extract_double t6 true) as [mx t7].
  pose proof (length_span isspace t7) as H8. cbn [snd] in *. intros [= <- <-]. lia.
Qed.

Lemma parse_loop_ends fuel : forall tmp pd, (length tmp <= fuel)%nat ->
  exists r, parse_loop metric_name_size unit_name_size fuel tmp pd = Returns r.
Proof.
  induction fuel as [|fuel IH]; intros tmp pd Hf.
  - destruct tmp; [by eexists|cbn in Hf; lia].
  - destruct tmp as [|c tmp]; [by eexists|]. cbn [parse_loop].
    destruct (parse_metric _ _ (c :: tmp)) as [[[p|] rest]|] eqn:E; [..|by eexists];
      (apply parse_metric_progress in E; [|done]); apply IH; cbn [length] in *; lia.
Qed.

(** Whatever the plugin printed, parsing ends. *)
Theorem parse_ends text pd :
  exists r, parse_perfdata metric_name_size unit_name_size text pd = Returns r.
Proof. apply parse_loop_ends. done. Qed.
End Total.

(** ** What the metrics satisfy *)

Lemma resize_length l size r : resize l size = Some r -> (length r <= size)%nat.
Proof.
  unfold resize, Str.adjust_size_utf8. case_if; cbn [mbind option_bind].
  - intros [= <-]. rewrite length_take. zbool. lia.
  - case_if; cbn [mbind option_bind]; [intros [= <-]; rewrite length_take; lia|].
    destruct (Str.back_to_lead l size) as [m|] eqn:E; cbn [mbind option_bind]; [|done].
    apply Str.back_to_lead_le in E. intros [= <-]. rewrite length_take. lia.
Qed.

Section Sizes.
Variables metric_name_size unit_name_size : nat.

(** Names and units fit their columns; there is a value; a low threshold that is
    a number comes with a high threshold that is one, or was given by a range. *)
Definition storable (p : perfdata) : Prop :=
  (length (_name p) <= metric_name_size)%nat /\ (length (_unit p) <= unit_name_size)%nat
  /\ isnan (_value p) = false.

Lemma parse_metric_storable tmp p rest :
  parse_metric metric_name_size unit_name_size tmp = Some (Some p, rest) -> storable p.
Proof.
  unfold parse_metric. destruct (label _) as [ty name]. set (t := drop _ tmp).
  destruct name as [|c name]; [done|].
  destruct (resize (c :: name) metric_name_size) as [name'|] eqn:E1; cbn [mbind option_bind]; [|done].
  apply resize_length in E1. case_if; [done|].
  destruct (extract_double (drop 1 t) false) as [v t1]. destruct (isnan v) eqn:Ev; [done|].
  destruct (Dbl.span _ t1) as [unit t2].
  destruct (resize unit unit_name_size) as [unit'|] eqn:E2; cbn [mbind option_bind]; [|done].
  apply resize_length in E2.
  destruct (extract_range (if head_is x3b t2 then drop 1 t2 else t2)) as [[[wl wh] wm] t4].
  destruct (extract_range t4) as [[[cl ch] cm] t5].
  destruct (extract_double t5 true) as [mn t6]. destruct (extract_double t6 true) as [mx t7].
  intros [= <- _]. done.
Qed.

(** Every metric parsed has a value, and its name and its unit fit the
    columns of the database. *)
Theorem parse_storable text l :
  parse_perfdata metric_name_size unit_name_size text [] = Returns (Some l) -> Forall storable l.
Proof.
  unfold parse_perfdata. set (tmp := snd _). generalize (length tmp). intros fuel.
  enough (H : forall tmp pd, Forall storable pd ->
    parse_loop metric_name_size unit_name_size fuel tmp pd = Returns (Some l) -> Forall storable l) by (apply H; constructor).
  induction fuel as [|fuel IH]; intros t pd Hpd.
  - destruct t; [by intros [= <-]|done].
  - destruct t as [|c t]; [by intros [= <-]|]. cbn [parse_loop].
    destruct (parse_metric _ _ (c :: t)) as [[[p|] rest]|] eqn:E; [| |done]; apply IH; [|done].
    apply Forall_app. split; [done|]. constructor; [by eapply parse_metric_storable|constructor].
Qed.
End Sizes.

(** ** Reading integers *)

(** The decimal text of an integer. *)
Definition int_text (z : Z) : cstring := Dbl.sign_text (z <? 0) ++ Dbl.dec (Z.abs z).

(** What may follow a number: nothing that strtod would take for a part of it. *)
Definition stops_number (b : byte) : bool :=
  negb (Dbl.isdecimal b) && negb (byte_eqb (Dbl.lower b) x65) && negb (byte_eqb (Dbl.lower b) x78)
  && negb (byte_eqb b x2c).
Definition follows_number (l : cstring) : Prop := match l with c :: _ => stops_number c = true | [] => True end.

Lemma digit_facts c : isdigit c = true ->
  isspace c = false /\ byte_eqb c x2d = false /\ byte_eqb c x2b = false /\ Dbl.lower c = c
  /\ byte_eqb x69 c = false /\ byte_eqb x6e c = false /\ byte_eqb x78 c = false /\ byte_eqb c x2c = false.
Proof.
  intros Hc. pose proof (forall_bytes (fun c => implb (isdigit c)
    (negb (isspace c) && negb (byte_eqb c x2d) && negb (byte_eqb c x2b) && byte_eqb (Dbl.lower c) c
     && negb (byte_eqb x69 c) && negb (byte_eqb x6e c) && negb (byte_eqb x78 c) && negb (byte_eqb c x2c)))) as F.
  specialize (F ltac:(vm_compute; reflexivity) c). cbn beta in F. rewrite Hc in F. cbn [implb] in F. zbool.
  rewrite !byte_eqb_eq in *. done.
Qed.

Lemma strtod_int z rest :
  Z.abs z < 2 ^ 53 -> follows_number rest -> Dbl.strtod (int_text z ++ rest) = (Dbl.canon z, rest).
Proof.
  intros Hz Hr. destruct (Dbl.dec_spec (Z.abs z) ltac:(lia)) as (Hd & Hne & Hv & _).
  unfold int_text. set (ds := Dbl.dec (Z.abs z)) in *. rewrite <-app_assoc.
  assert (Hsg : Dbl.after_sign (snd (Dbl.span isspace (Dbl.sign_text (z <? 0) ++ ds ++ rest))) = (z <? 0, ds ++ rest)).
  { unfold Dbl.sign_text. destruct (z <? 0); [done|]. destruct ds as [|d ds']; [done|]. cbn [forallb] in Hd. zbool.
    destruct (digit_facts d) as (H1 & H2 & H3 & _); [done|]. cbn [app Dbl.span]. rewrite H1. cbn [snd Dbl.after_sign].
    by rewrite H2, H3. }
  assert (Hrest : match rest with
    | c :: _ => isdigit c = false /\ byte_eqb c x2e = false /\ byte_eqb x65 (Dbl.lower c) = false /\ byte_eqb x78 (Dbl.lower c) = false
    | [] => True end).
  { destruct rest as [|c rest]; [done|]. cbn in Hr. unfold stops_number, Dbl.isdecimal in Hr. zbool.
    repeat match goal with H : byte_eqb _ _ = false |- _ => apply byte_eqb_neq in H end. split_and!; try done;
      apply byte_eqb_neq; congruence. }
  unfold Dbl.strtod. rewrite Hsg.
  assert (Hw : forall w, byte_eqb x69 w = true \/ byte_eqb x6e w = true -> forall ws, Dbl.after_word (w :: ws) (ds ++ rest) = None).
  { intros w Hw ws. destruct ds as [|d ds']; [done|]. cbn [forallb] in Hd. zbool.
    destruct (digit_facts d) as (_ & _ & _ & H4 & H5 & H6 & _); [done|]. cbn [app Dbl.after_word]. rewrite H4.
    replace (byte_eqb w d) with false; [done|]. destruct Hw as [Hw|Hw]; apply byte_eqb_eq in Hw; by subst w. }
  change (str "infinity") with (x69 :: str "nfinity"). change (str "inf") with (x69 :: str "nf").
  change (str "nan") with (x6e :: str "an"). rewrite !Hw by (try (by left); by right).
  assert (Hx : Dbl.after_word (str "0x") (ds ++ rest) = None).
  { destruct ds as [|d ds']; [done|]. cbn [forallb] in Hd. change (str "0x") with [x30; x78]. cbn [app Dbl.after_word].
    case_if; [|done]. destruct ds' as [|d' ds']; cbn [app].
    - destruct rest as [|c rest]; [done|]. destruct Hrest as (_ & _ & _ & H). by rewrite H.
    - cbn [forallb] in Hd. zbool. destruct (digit_facts d') as (_ & _ & _ & H4 & _ & _ & H7 & _); [done|]. by rewrite H4, H7. }
  rewrite Hx.
  assert (Hm : Dbl.mantissa isdigit (ds ++ rest) = Some (ds, [], rest)).
  { unfold Dbl.mantissa. rewrite Dbl.span_app; [|done|destruct rest; [done|by destruct Hrest]].
    destruct rest as [|c rest].
    - rewrite app_nil_r. by destruct ds.
    - destruct Hrest as (_ & H & _). rewrite H, app_nil_r. by destruct ds. }
  unfold Dbl.number. rewrite Hm.
  assert (He : Dbl.exponent x65 rest = (0, rest)).
  { destruct rest as [|c rest]; [done|]. destruct Hrest as (_ & _ & H & _). cbn [Dbl.exponent]. by rewrite H. }
  rewrite He, app_nil_r, Hv. unfold Dbl.scaled. cbn [length]. change (0 - Z.of_nat 0) with 0. change (0 <=? 0) with true.
  cbv iota. change (10 ^ 0) with 1. f_equal. f_equal.
  destruct (Z.eqb_spec z 0) as [->|Hz0]; [done|]. rewrite Dbl.round_ratio_exact by lia. unfold Dbl.canon.
  by rewrite (proj2 (Z.eqb_neq _ _)) by lia.
Qed.

(** ** Reading fields *)

Lemma length_int_text z : (0 < length (int_text z))%nat.
Proof.
  unfold int_text. rewrite length_app. destruct (Dbl.dec_spec (Z.abs z) ltac:(lia)) as (_ & Hne & _).
  destruct (Dbl.dec (Z.abs z)); [done|]. cbn [length]. lia.
Qed.

Lemma int_text_head z rest : exists c l, int_text z ++ rest = c :: l /\ isspace c = false
  /\ byte_eqb c x40 = false /\ byte_eqb c x7e = false /\ byte_eqb c x3b = false.
Proof.
  destruct (Dbl.dec_spec (Z.abs z) ltac:(lia)) as (Hd & Hne & _). unfold int_text, Dbl.sign_text.
  destruct (z <? 0); [by eexists _, _|]. destruct (Dbl.dec (Z.abs z)) as [|d ds]; [done|].
  exists d, (ds ++ rest). cbn [forallb] in Hd. zbool.
  pose proof (forall_bytes (fun c => implb (isdigit c)
    (negb (isspace c) && negb (byte_eqb c x40) && negb (byte_eqb c x7e) && negb (byte_eqb c x3b)))) as F.
  specialize (F ltac:(vm_compute; reflexivity) d). cbn beta in F. rewrite H in F. cbn [implb] in F. zbool. done.
Qed.

Lemma int_text_no_comma z : forallb (fun c => negb (byte_eqb x2c c)) (int_text z) = true.
Proof.
  unfold int_text. rewrite forallb_app. apply andb_true_iff. split; [by destruct (z <? 0)|].
  destruct (Dbl.dec_spec (Z.abs z) ltac:(lia)) as (Hd & _). rewrite forallb_forall in *. intros c Hc%Hd.
  destruct (digit_facts c Hc) as (_ & _ & _ & _ & _ & _ & _ & H). apply byte_eqb_neq in H.
  apply negb_true_iff, byte_eqb_neq. congruence.
Qed.

(** A number is read whatever commas come later in the text. *)
Lemma extract_int z rest sk :
  Z.abs z < 2 ^ 53 -> follows_number rest ->
  extract_double (int_text z ++ rest) sk = (Dbl.canon z, if sk && head_is x3b rest then drop 1 rest else rest).
Proof.
  intros Hz Hr. unfold extract_double. destruct (int_text_head z rest) as (c & l & E & Hs & _).
  assert (Hsp : starts_space (int_text z ++ rest) = false) by (by rewrite E).
  rewrite Hsp. pose proof (length_int_text z) as Hl.
  assert (Ht : forall rest', follows_number rest' -> take_double (int_text z ++ rest') = (Dbl.canon z, length (int_text z))).
  { intros rest' Hr'. unfold take_double. rewrite strtod_int by done. rewrite length_app.
    replace (length (int_text z) + length rest' - length rest')%nat with (length (int_text z)) by lia.
    by destruct (length (int_text z)); [lia|]. }
  set (r := match find_first_if _ _ with Some _ => _ | None => _ end).
  assert (Er : r = (Dbl.canon z, length (int_text z))).
  { unfold r. destruct (find_first_if (byte_eqb x2c) (int_text z ++ rest)) as [comma|] eqn:Ec; [|by apply Ht].
    set (t := length _). destruct rest as [|b rest].
    { exfalso. rewrite app_nil_r in Ec. pose proof (int_text_no_comma z) as Hn. apply find_first_if_None in Hn. congruence. }
    assert (Hcm : (length (int_text z) < comma)%nat).
    { apply find_first_if_Some in Ec as (x & Hx & HP & _). apply byte_eqb_eq in HP. subst x.
      destruct (Nat.lt_trichotomy comma (length (int_text z))) as [H|[H|H]]; [| |done].
      - rewrite lookup_app_l in Hx by done. pose proof (int_text_no_comma z) as Hn. rewrite forallb_forall in Hn.
        specialize (Hn x2c). rewrite byte_eqb_refl in Hn. discriminate Hn. apply list_elem_of_In, list_elem_of_lookup. by exists comma.
      - rewrite H, lookup_app_r, Nat.sub_diag in Hx by lia. cbn in Hx. injection Hx as ->. by vm_compute in Hr. }
    rewrite take_app_ge by lia. rewrite <-app_assoc. apply Ht.
    destruct (comma - length (int_text z))%nat as [|k] eqn:Ek; [lia|]. cbn [take app]. exact Hr. }
  rewrite Er. by rewrite drop_app_length.
Qed.

(** An empty field has no number. *)
Lemma take_double_none c l : negb (isspace c) && stops_number c && negb (byte_eqb c x2d) && negb (byte_eqb c x2b)
  && negb (byte_eqb x69 (Dbl.lower c)) && negb (byte_eqb x6e (Dbl.lower c)) && negb (byte_eqb x30 (Dbl.lower c)) = true ->
  take_double (c :: l) = (NAN, 0%nat).
Proof.
  intros H. unfold stops_number, Dbl.isdecimal in H. zbool. unfold take_double, Dbl.strtod. cbn [Dbl.span].
  assert (Hspan : isspace c = false) by done. rewrite Hspan. cbn [snd Dbl.after_sign].
  repeat match goal with H : byte_eqb c _ = false |- _ => rewrite H end.
  change (str "infinity") with (x69 :: str "nfinity"). change (str "inf") with (x69 :: str "nf").
  change (str "nan") with (x6e :: str "an"). change (str "0x") with [x30; x78]. cbn [Dbl.after_word].
  repeat match goal with H : byte_eqb _ (Dbl.lower c) = false |- _ => rewrite H end.
  unfold Dbl.number, Dbl.mantissa. cbn [Dbl.span].
  repeat match goal with H : isdigit c = false |- _ => rewrite H end.
  repeat match goal with H : byte_eqb c _ = false |- _ => rewrite H end. cbn [app].
  by rewrite Nat.sub_diag.
Qed.

Lemma extract_nothing sk l :
  match l with c :: _ => c = x3b \/ c = x20 | [] => True end ->
  extract_double l sk = (NAN, if sk && head_is x3b l then drop 1 l else l).
Proof.
  intros Hl. destruct l as [|c l]; [by destruct sk|]. destruct Hl as [->| ->]; [|by destruct sk].
  unfold extract_double. change (starts_space (x3b :: l)) with false. cbv iota.
  assert (Ht : forall r, take_double (x3b :: r) = (NAN, 0%nat)) by (intros; by apply take_double_none).
  destruct (find_first_if (byte_eqb x2c) (x3b :: l)) as [comma|] eqn:Ec.
  - destruct comma as [|k]; [by apply find_first_if_Some in Ec as (x & [= <-] & HP & _)|].
    cbn [take app]. by rewrite Ht.
  - by rewrite Ht.
Qed.

(** ** Well-formed texts *)

(** A threshold: up to a value, or from a value or minus infinity to a value or
    infinity; inclusive ones start with an at sign. *)
Inductive range : Type :=
  | No_range
  | Upto (inclusive : bool) (high : Z)
  | Between (inclusive : bool) (low high : option Z).

Record metric : Type := Metric {
  m_type : data_type;
  m_name : cstring;
  m_value : Z;
  m_unit : cstring;
  m_warning : range;
  m_critical : range;
  m_min : option Z;
  m_max : option Z
}.

(** What a plugin prints: metrics, and words that are none. *)
Inductive item : Type :=
  | Item (m : metric)
  | Junk (w : cstring).

Definition option_text (o : option Z) : cstring := match o with Some z => int_text z | None => [] end.
Definition at_text (inclusive : bool) : cstring := if inclusive then [x40] else [].

Definition range_text (r : range) : cstring :=
  match r with
  | No_range => []
  | Upto i h => at_text i ++ int_text h
  | Between i l h => at_text i ++ (match l with Some z => int_text z | None => [x7e] end) ++ [x3a] ++ option_text h
  end.

Definition name_text (t : data_type) (name : cstring) : cstring :=
  match t with
  | absolute => str "a[" ++ name ++ [x5d]
  | counter => str "c[" ++ name ++ [x5d]
  | derive => str "d[" ++ name ++ [x5d]
  | gauge | automatic => name
  end.

Definition metric_text (m : metric) : cstring :=
  [x27] ++ name_text (m_type m) (m_name m) ++ [x27; x3d] ++ int_text (m_value m) ++ m_unit m
  ++ [x3b] ++ range_text (m_warning m) ++ [x3b] ++ range_text (m_critical m)
  ++ [x3b] ++ option_text (m_min m) ++ [x3b] ++ option_text (m_max m).

Definition item_text (i : item) : cstring :=
  match i with Item m => metric_text m | Junk w => w end ++ [x20].

(** What is read of it. *)
Definition option_value (o : option Z) : double := match o with Some z => Dbl.canon z | None => NAN end.

Definition range_low (r : range) : double :=
  match r with
  | No_range => NAN
  | Upto _ _ => S754_zero false
  | Between _ (Some z) _ => Dbl.canon z
  | Between _ None _ => S754_infinity true
  end.
Definition range_high (r : range) : double :=
  match r with
  | No_range => NAN
  | Upto _ z | Between _ _ (Some z) => Dbl.canon z
  | Between _ _ None => INFINITY
  end.
Definition range_mode (r : range) : bool :=
  match r with No_range => false | Upto i _ | Between i _ _ => i end.

Definition metric_value (m : metric) : perfdata :=
  Perf (range_high (m_critical m)) (range_low (m_critical m)) (range_mode (m_critical m))
    (option_value (m_max m)) (option_value (m_min m)) (m_name m) (m_unit m) (Dbl.canon (m_value m)) (m_type m)
    (range_high (m_warning m)) (range_low (m_warning m)) (range_mode (m_warning m)).

Definition metrics_of (l : list item) : list perfdata :=
  omap (fun i => match i with Item m => Some (metric_value m) | Junk _ => None end) l.

(** Integers that doubles represent exactly. *)
Definition exact (z : Z) : Prop := Z.abs z < 2 ^ 53.
Definition exact_option (o : option Z) : Prop := match o with Some z => exact z | None => True end.
Definition exact_range (r : range) : Prop :=
  match r with
  | No_range => True
  | Upto _ z => exact z
  | Between _ l h => exact_option l /\ exact_option h
  end.

(** A name has no quote, no blank at its ends and no closing bracket at its end. *)
Definition good_name (name : cstring) : bool :=
  forallb (fun b => negb (byte_eqb b x27)) name
  && match name with b :: _ => negb (is_blank b) | [] => false end
  && match last name with Some b => negb (is_blank b) && negb (byte_eqb b x5d) | None => false end.

(** A unit does not start like the end of a number and does not end the field. *)
Definition good_unit (unit : cstring) : bool :=
  forallb (fun b => negb (ends_field b)) unit && match unit with b :: _ => stops_number b | [] => true end.

Definition good_junk (w : cstring) : bool :=
  forallb (fun b => negb (isspace b) && negb (byte_eqb b x3d) && negb (byte_eqb b x27)) w
  && negb (match w with [] => true | _ => false end).

Section Items.
Variables metric_name_size unit_name_size : nat.

Definition item_ok (i : item) : Prop :=
  match i with
  | Item m =>
    good_name (m_name m) = true /\ (length (m_name m) <= metric_name_size)%nat /\ m_type m <> automatic
    /\ good_unit (m_unit m) = true /\ (length (m_unit m) <= unit_name_size)%nat
    /\ exact (m_value m) /\ exact_range (m_warning m) /\ exact_range (m_critical m)
    /\ exact_option (m_min m) /\ exact_option (m_max m)
  | Junk w => good_junk w = true /\ (length w <= metric_name_size)%nat
  end.
End Items.

(** A field ends with a semicolon, or the metric with a space. *)
Definition field_end (l : cstring) : Prop := match l with c :: _ => c = x3b \/ c = x20 | [] => False end.
Definition past (l : cstring) : cstring := if head_is x3b l then drop 1 l else l.

Lemma field_end_follows l : field_end l -> follows_number l.
Proof. destruct l as [|c l]; [done|]. by intros [->| ->]. Qed.

Lemma extract_option o rest :
  exact_option o -> field_end rest -> extract_double (option_text o ++ rest) true = (option_value o, past rest).
Proof.
  intros Ho Hr. destruct o as [z|]; cbn [option_text option_value].
  - by apply extract_int, field_end_follows.
  - apply extract_nothing. destruct rest; [done|]. exact Hr.
Qed.

Lemma canon_not_nan z : isnan (Dbl.canon z) = false.
Proof.
  unfold Dbl.canon. destruct (z =? 0); [done|]. unfold Dbl.canon_pos. by destruct (Z.abs z).
Qed.

(** What is behind the at sign. *)
Definition bounds_after (l : cstring) (inclusive : bool) : double * double * bool * cstring :=
  let '(low_value, l) :=
    if head_is x7e l then (S754_infinity true, drop 1 l) else extract_double l true in
  if negb (head_is x3a l) then
    (if negb (isnan low_value) then S754_zero false else low_value, low_value, inclusive, l)
  else
    let ptr := drop 1 l in
    let '(high_value, l) := extract_double ptr true in
    (low_value,
     if isnan high_value && ((length l =? length ptr)%nat || (S (length l) =? length ptr)%nat) then INFINITY else high_value,
     inclusive, l).

Lemma extract_range_at i l : head_is x40 l = false -> extract_range (at_text i ++ l) = bounds_after l i.
Proof.
  intros H. unfold extract_range. destruct i; cbn [at_text app].
  - change (head_is x40 (x40 :: l)) with true. cbv iota. change (drop 1 (x40 :: l)) with (drop 0 l). by rewrite drop_0.
  - by rewrite H.
Qed.

Lemma bounds_upto z rest i :
  exact z -> field_end rest -> head_is x3a (past rest) = false ->
  bounds_after (int_text z ++ rest) i = (S754_zero false, Dbl.canon z, i, past rest).
Proof.
  intros Hz Hr Hp. unfold bounds_after. destruct (int_text_head z rest) as (c & l & E & _ & _ & Ht & _).
  assert (Hh : head_is x7e (int_text z ++ rest) = false) by (by rewrite E).
  rewrite Hh, extract_int by (done || by apply field_end_follows). cbn [andb]. fold (past rest). rewrite Hp.
  cbn [negb]. by rewrite canon_not_nan.
Qed.

Lemma bounds_between l h rest i :
  exact_option l -> exact_option h -> field_end rest ->
  bounds_after ((match l with Some z => int_text z | None => [x7e] end) ++ [x3a] ++ option_text h ++ rest) i
  = (range_low (Between i l h), range_high (Between i l h), i, past rest).
Proof.
  intros Hl Hh Hr. unfold bounds_after. set (more := option_text h ++ rest).
  set (lo := range_low (Between i l h)).
  assert (Elo : (if head_is x7e ((match l with Some z => int_text z | None => [x7e] end) ++ [x3a] ++ more)
      then (S754_infinity true, drop 1 ((match l with Some z => int_text z | None => [x7e] end) ++ [x3a] ++ more))
      else extract_double ((match l with Some z => int_text z | None => [x7e] end) ++ [x3a] ++ more) true)
      = (lo, x3a :: more)).
  { destruct l as [z|]; [|done]. destruct (int_text_head z ([x3a] ++ more)) as (c & r & E & _ & _ & Ht & _).
    assert (Hc : head_is x7e (int_text z ++ [x3a] ++ more) = false) by (by rewrite E). rewrite Hc. by rewrite extract_int. }
  rewrite Elo. change (head_is x3a (x3a :: more)) with true. cbn [negb]. cbv iota.
  change (drop 1 (x3a :: more)) with (drop 0 more). rewrite drop_0. unfold more. rewrite extract_option by done.
  destruct h as [z|]; cbn [option_text option_value range_high app].
  - by rewrite canon_not_nan.
  - destruct rest as [|c rest]; [done|]. destruct Hr as [->| ->]; unfold past; cbn [head_is].
    + change (byte_eqb x3b x3b) with true. cbv iota. change (drop 1 (x3b :: rest)) with (drop 0 rest). rewrite drop_0.
      cbn [length]. rewrite Nat.eqb_refl, orb_true_r. done.
    + change (byte_eqb x20 x3b) with false. cbv iota. by rewrite Nat.eqb_refl.
Qed.

Lemma extract_range_text r rest :
  exact_range r -> field_end rest -> head_is x3a (past rest) = false ->
  extract_range (range_text r ++ rest) = (range_low r, range_high r, range_mode r, past rest).
Proof.
  intros He Hr Hp. destruct r as [|i z|i l h]; cbn [range_text range_low range_high range_mode].
  - pose proof (extract_nothing true rest) as Hn. unfold extract_range.
    destruct rest as [|c rest]; [done|]. cbn [app].
    assert (Hc : head_is x40 (c :: rest) = false /\ head_is x7e (c :: rest) = false) by (by destruct Hr as [->| ->]).
    destruct Hc as [-> ->]. rewrite Hn by exact Hr. cbn [andb]. fold (past (c :: rest)). by rewrite Hp.
  - rewrite <-app_assoc, extract_range_at; [by apply bounds_upto|].
    destruct (int_text_head z rest) as (c & l & E & _ & H & _). by rewrite E.
  - destruct He as [Hl Hh]. rewrite <-!app_assoc, extract_range_at; [by apply bounds_between|].
    destruct l as [z|]; [|done]. destruct (int_text_head z ([x3a] ++ option_text h ++ rest)) as (c & r & E & _ & H & _).
    by rewrite E.
Qed.

(** ** Reading names *)

Lemma name_length_quoted body rest :
  forallb (fun b => negb (byte_eqb b x27)) body = true ->
  name_length false ([x27] ++ body ++ [x27; x3d] ++ rest) = length ([x27] ++ body ++ [x27]).
Proof.
  intros Hb. cbn [app name_length]. change (byte_eqb x27 x3d) with false. change (isspace x27) with false.
  rewrite byte_eqb_refl. cbn [negb andb orb length]. f_equal.
  induction body as [|c body IH]; [done|]. cbn [forallb] in Hb. zbool. cbn [app name_length orb length].
  f_equal. rewrite H. by apply IH.
Qed.

Lemma last_app_one (l : cstring) c : last_is c (l ++ [c]) = true.
Proof. unfold last_is. rewrite last_snoc. apply byte_eqb_refl. Qed.

Lemma remove_last_app (l : cstring) c : remove_last (l ++ [c]) = l.
Proof. unfold remove_last. rewrite length_app. cbn [length]. by rewrite Nat.add_sub, take_app_length. Qed.

(** A body with no blank at its ends is all of the label. *)
Lemma label_quoted body :
  match body with b :: _ => negb (is_blank b) | [] => false end = true ->
  match last body with Some b => negb (is_blank b) | None => false end = true ->
  label ([x27] ++ body ++ [x27]) =
    if last_is x5d body then
      let name := remove_last body in
      if cstring_eqb (take 2 body) (str "a[") then (absolute, drop 2 name)
      else if cstring_eqb (take 2 body) (str "c[") then (counter, drop 2 name)
      else if cstring_eqb (take 2 body) (str "d[") then (derive, drop 2 name)
      else if cstring_eqb (take 2 body) (str "g[") then (gauge, drop 2 name)
      else (gauge, name)
    else (gauge, body).
Proof.
  intros Hf Hl. unfold label. rewrite app_assoc, last_app_one.
  change (head_is x27 (([x27] ++ body) ++ [x27])) with true. cbv iota.
  change (drop 1 (([x27] ++ body) ++ [x27])) with (drop 0 (body ++ [x27])). rewrite drop_0, remove_last_app.
  assert (E1 : snd (Dbl.span is_blank body) = body).
  { destruct body as [|c body]; [done|]. cbn [Dbl.span]. apply negb_true_iff in Hf. by rewrite Hf. }
  assert (E2 : reverse (snd (Dbl.span is_blank (reverse body))) = body).
  { destruct (last body) as [c|] eqn:E; [|done]. apply last_Some in E as [l ->]. rewrite reverse_snoc. cbn [Dbl.span].
    apply negb_true_iff in Hl. rewrite Hl. cbn [snd]. rewrite reverse_cons. by rewrite reverse_involutive. }
  cbv zeta. by rewrite E1, E2.
Qed.

Lemma label_name t name :
  good_name name = true -> t <> automatic ->
  label ([x27] ++ name_text t name ++ [x27]) = (t, name)
  /\ forallb (fun b => negb (byte_eqb b x27)) (name_text t name) = true.
Proof.
  intros Hn Ht. unfold good_name in Hn. zbool.
  assert (Hne : name <> []) by (by destruct name).
  destruct (last name) as [c|] eqn:El; [|done]. zbool.
  assert (Htyped : forall a, is_blank a = false -> byte_eqb a x27 = false ->
    label ([x27] ++ ([a; x5b] ++ name ++ [x5d]) ++ [x27])
    = (if cstring_eqb [a; x5b] (str "a[") then absolute else if cstring_eqb [a; x5b] (str "c[") then counter
       else if cstring_eqb [a; x5b] (str "d[") then derive else gauge,
       if cstring_eqb [a; x5b] (str "a[") || cstring_eqb [a; x5b] (str "c[") || cstring_eqb [a; x5b] (str "d[")
          || cstring_eqb [a; x5b] (str "g[") then name else [a; x5b] ++ name)
    /\ forallb (fun b => negb (byte_eqb b x27)) ([a; x5b] ++ name ++ [x5d]) = true).
  { intros a Ha Hq. split.
    - rewrite label_quoted; [|cbn; by rewrite Ha|rewrite app_assoc, last_snoc; done].
      rewrite (app_assoc [a; x5b]), last_app_one, remove_last_app.
      change (take 2 (([a; x5b] ++ name) ++ [x5d])) with (take 2 [a; x5b]). change (take 2 [a; x5b]) with [a; x5b].
      cbv zeta. change (drop 2 ([a; x5b] ++ name)) with (drop 0 name). rewrite drop_0.
      by destruct (cstring_eqb [a; x5b] (str "a[")), (cstring_eqb [a; x5b] (str "c[")),
        (cstring_eqb [a; x5b] (str "d[")), (cstring_eqb [a; x5b] (str "g[")).
    - rewrite forallb_app, forallb_app, H. cbn. by rewrite Hq. }
  destruct t; [|by destruct (Htyped x63 eq_refl eq_refl)|by destruct (Htyped x64 eq_refl eq_refl)|by destruct (Htyped x61 eq_refl eq_refl)|done].
  cbn [name_text]. split; [|done]. rewrite label_quoted; [|by destruct name; [done|]|rewrite El; by apply negb_true_iff].
  unfold last_is. rewrite El. match goal with H : byte_eqb c x5d = false |- _ => by rewrite H end.
Qed.

(** ** Reading metrics *)

Section Reading.
Variables metric_name_size unit_name_size : nat.

Abbreviation parse_metric := (parse_metric metric_name_size unit_name_size).
Abbreviation parse_loop := (parse_loop metric_name_size unit_name_size).
Abbreviation item_ok := (item_ok metric_name_size unit_name_size).

Lemma resize_fits l size : (length l <= size)%nat -> resize l size = Some l.
Proof.
  intros H. unfold resize, Str.adjust_size_utf8. rewrite (proj2 (Nat.leb_le _ _) H). cbn [mbind option_bind].
  by rewrite take_ge.
Qed.

Lemma range_head r rest : field_end rest -> head_is x3a (range_text r ++ rest) = false.
Proof.
  intros Hr. assert (Hi : forall z l, head_is x3a (int_text z ++ l) = false).
  { intros z l. unfold int_text, Dbl.sign_text. destruct (z <? 0); [done|]. cbn [app].
    destruct (Dbl.dec_spec (Z.abs z) ltac:(lia)) as (Hd & Hne & _). destruct (Dbl.dec (Z.abs z)) as [|d ds]; [done|].
    cbn [forallb] in Hd. zbool. cbn [app head_is].
    pose proof (forall_bytes (fun c => implb (isdigit c) (negb (byte_eqb c x3a)))) as F.
    specialize (F ltac:(vm_compute; reflexivity) d). cbn beta in F. rewrite H in F. by apply negb_true_iff. }
  destruct r as [|i z|i [l|] h]; cbn [range_text app]; try (by destruct i); [|destruct i; [done|]; apply Hi|].
  - destruct rest as [|c rest]; [done|]. by destruct Hr as [->| ->].
  - destruct i; [done|]. cbn [at_text app]. rewrite <-app_assoc. apply Hi.
Qed.

Lemma option_head o rest : field_end rest -> head_is x3a (option_text o ++ rest) = false.
Proof. intros Hr. destruct o as [z|]; [by apply (range_head (Upto false z))|by apply (range_head No_range)]. Qed.

Lemma past_semi l : past (x3b :: l) = l.
Proof. unfold past. cbn [head_is]. rewrite byte_eqb_refl. by cbn. Qed.

Lemma span_unit unit rest :
  forallb (fun b => negb (ends_field b)) unit = true ->
  Dbl.span (fun b => negb (ends_field b)) (unit ++ x3b :: rest) = (unit, x3b :: rest).
Proof. intros H. by apply Dbl.span_app. Qed.

Lemma parse_metric_text m rest :
  item_ok (Item m) ->
  parse_metric (metric_text m ++ x20 :: rest) = Some (Some (metric_value m), snd (Dbl.span isspace rest)).
Proof.
  intros (Hname & Hnl & Hty & Hunit & Hul & Hv & Hw & Hc & Hmin & Hmax).
  destruct (label_name (m_type m) (m_name m) Hname Hty) as [Hlab Hq].
  assert (Hne : m_name m <> []) by (intros E; by rewrite E in Hname).
  unfold metric_text. rewrite <-!app_assoc.
  set (t4 := option_text (m_max m) ++ x20 :: rest). set (t3 := option_text (m_min m) ++ [x3b] ++ t4).
  set (t2 := range_text (m_critical m) ++ [x3b] ++ t3). set (t1 := range_text (m_warning m) ++ [x3b] ++ t2).
  set (t0 := int_text (m_value m) ++ m_unit m ++ [x3b] ++ t1).
  unfold Perfdata.parse_metric.
  assert (En : name_length false ([x27] ++ name_text (m_type m) (m_name m) ++ [x27; x3d] ++ t0)
               = length ([x27] ++ name_text (m_type m) (m_name m) ++ [x27])) by (by apply name_length_quoted).
  rewrite En. clear En. set (lab := [x27] ++ name_text (m_type m) (m_name m) ++ [x27]) in *.
  replace ([x27] ++ name_text (m_type m) (m_name m) ++ [x27; x3d] ++ t0) with (lab ++ [x3d] ++ t0)
    by (unfold lab; by rewrite <-!app_assoc).
  rewrite take_app_length, drop_app_length, Hlab.
  cbv beta iota zeta. destruct (m_name m) as [|c0 name0] eqn:En; [done|]. rewrite resize_fits by done.
  cbn [mbind option_bind]. change (head_is x3d ([x3d] ++ t0)) with true. cbn [negb]. cbv iota.
  change (drop 1 ([x3d] ++ t0)) with (drop 0 t0). rewrite drop_0.
  unfold good_unit in Hunit. apply andb_true_iff in Hunit as [Hu1 Hu2].
  assert (Hfol : follows_number (m_unit m ++ [x3b] ++ t1)) by (by destruct (m_unit m)).
  unfold t0. rewrite extract_int by done. cbn [andb]. rewrite canon_not_nan.
  cbv iota. change ([x3b] ++ t1) with (x3b :: t1). rewrite span_unit by done.
  rewrite resize_fits by done. cbn [mbind option_bind].
  fold (past (x3b :: t1)). rewrite past_semi.
  unfold t1. rewrite extract_range_text; [|done|by left|cbn [app]; rewrite past_semi; unfold t2; apply range_head; by left].
  cbn [app]. rewrite past_semi.
  unfold t2. rewrite extract_range_text; [|done|by left|cbn [app]; rewrite past_semi; unfold t3; apply option_head; by left].
  cbn [app]. rewrite past_semi.
  unfold t3. rewrite extract_option; [|done|by left]. cbn [app]. rewrite past_semi.
  unfold t4. rewrite extract_option; [|done|by right].
  change (past (x20 :: rest)) with (x20 :: rest). cbn [Dbl.span]. change (isspace x20) with true. cbv iota.
  destruct (Dbl.span isspace rest) as [a b]. cbn [snd]. unfold metric_value. by rewrite En.
Qed.

Lemma length_label s : (length (snd (label s)) <= length s)%nat.
Proof.
  assert (H : forall l, (length (remove_last l) <= length l)%nat) by (intros; unfold remove_last; rewrite length_take; lia).
  unfold label. cbv zeta. set (l := reverse _).
  assert (Hl : (length l <= length s)%nat).
  { unfold l. rewrite length_reverse. etrans; [apply length_span|]. rewrite length_reverse. etrans; [apply length_span|].
    etrans; [|apply (length_drop_if (head_is x27 s) 1)]. case_match; [apply H|done]. }
  pose proof (H l). repeat case_match; cbn [snd]; rewrite ?length_drop; lia.
Qed.

Lemma parse_junk w rest :
  item_ok (Junk w) -> parse_metric (w ++ x20 :: rest) = Some (None, snd (Dbl.span isspace rest)).
Proof.
  intros [Hj Hl]. unfold good_junk in Hj. apply andb_true_iff in Hj as [Hw _].
  assert (Hn : name_length false (w ++ x20 :: rest) = length w).
  { clear Hl. induction w as [|c w IH]; [done|]. cbn [forallb] in Hw. apply andb_true_iff in Hw as [Hc Hw].
    apply andb_true_iff in Hc as [[H1%negb_true_iff H2%negb_true_iff]%andb_true_iff H3%negb_true_iff].
    cbn [app name_length length]. rewrite H1, H2, H3. cbn. f_equal. by apply IH. }
  assert (Hs : skip (x20 :: rest) = snd (Dbl.span isspace rest)).
  { unfold skip. cbn [Dbl.span]. change (isspace x20) with true. cbn [negb snd Dbl.span]. change (isspace x20) with true.
    cbv iota. by destruct (Dbl.span isspace rest). }
  unfold Perfdata.parse_metric. rewrite Hn, take_app_length, drop_app_length. pose proof (length_label w) as Hlab.
  destruct (label w) as [ty name]. cbn [snd] in Hlab. cbv beta iota zeta.
  change (head_is x3d (x20 :: rest)) with false. cbn [negb]. cbv iota. rewrite Hs. destruct name as [|c name]; [done|].
  by rewrite resize_fits by lia.
Qed.

Lemma item_text_head i rest : item_ok i -> exists c l, item_text i ++ rest = c :: l /\ isspace c = false /\ is_blank c = false.
Proof.
  destruct i as [m|w]; intros H; [by eexists _, _|]. destruct H as [H _]. unfold good_junk in H. apply andb_true_iff in H as [H Hne].
  destruct w as [|c w]; [done|]. cbn [forallb] in H. eexists _, _. split; [done|].
  pose proof (forall_bytes (fun c => implb (negb (isspace c)) (negb (is_blank c)))) as F.
  specialize (F ltac:(vm_compute; reflexivity) c). cbn beta in F. zbool. 
  match goal with H : isspace c = false |- _ => rewrite H in F end. by apply negb_true_iff in F.
Qed.

Lemma items_head l : Forall item_ok l ->
  snd (Dbl.span isspace (concat (item_text <$> l))) = concat (item_text <$> l)
  /\ snd (Dbl.span is_blank (concat (item_text <$> l))) = concat (item_text <$> l).
Proof.
  destruct 1 as [|i l Hi _]; [done|]. rewrite fmap_cons. cbn [concat].
  destruct (item_text_head i (concat (item_text <$> l)) Hi) as (c & r & E & H1 & H2). rewrite E. cbn [Dbl.span].
  by rewrite H1, H2.
Qed.

Lemma parse_items_loop l : forall fuel pd, Forall item_ok l -> (length (concat (item_text <$> l)) <= fuel)%nat ->
  parse_loop fuel (concat (item_text <$> l)) pd = Returns (Some (pd ++ metrics_of l)).
Proof.
  induction l as [|i l IH]; intros fuel pd Hl Hf.
  - cbn. destruct fuel; by rewrite app_nil_r.
  - apply Forall_cons in Hl as [Hi Hl]. rewrite fmap_cons in *. cbn [concat] in *.
    destruct (item_text_head i (concat (item_text <$> l)) Hi) as (c & r & E & _).
    rewrite length_app in Hf.
    destruct fuel as [|fuel]; [exfalso; apply (f_equal length) in E; rewrite length_app in E; cbn in E; lia|].
    assert (Ep : parse_loop (S fuel) (item_text i ++ concat (item_text <$> l)) pd
      = parse_loop fuel (concat (item_text <$> l)) (pd ++ metrics_of [i])).
    { rewrite E. cbn [Perfdata.parse_loop]. rewrite <-E. destruct (items_head l Hl) as [Hsp _].
      generalize dependent (concat (item_text <$> l)). intros more _ _ _ Hsp.
      unfold item_text. rewrite <-app_assoc. cbn [app].
      destruct i as [m|w].
      - rewrite parse_metric_text by done. by rewrite Hsp.
      - rewrite parse_junk by done.
        rewrite Hsp. cbn. by rewrite app_nil_r. }
    rewrite Ep, IH; [|done|].
    + f_equal. f_equal. rewrite <-app_assoc. f_equal. unfold metrics_of. by destruct i.
    + assert (0 < length (item_text i))%nat by (unfold item_text; rewrite length_app; cbn; lia). lia.
Qed.

(** From what plugins print, the parser reads every metric, its thresholds and
    its limits, in order, and skips over the words that are not metrics. *)
Theorem parse_reads_metrics l :
  Forall item_ok l ->
  parse_perfdata metric_name_size unit_name_size (concat (item_text <$> l)) [] = Returns (Some (metrics_of l)).
Proof.
  intros Hl. unfold parse_perfdata. rewrite (proj2 (items_head l Hl)). by rewrite parse_items_loop.
Qed.
End Reading.

(** ** The theorems on an example *)

Definition demo_metric : metric :=
  Metric counter (str "disk used") 18 (str "%") (Upto true 80) (Between false None (Some (-3))) (Some 0) None.
Definition demo_items : list item := [Item demo_metric; Junk (str "Warning:"); Item demo_metric].

Lemma demo_items_ok : Forall (item_ok 255 32) demo_items.
Proof.
  assert (Hm : item_ok 255 32 (Item demo_metric)).
  { cbn [item_ok demo_metric m_name m_type m_unit m_value m_warning m_critical m_min m_max exact_range exact_option].
    unfold exact. split_and!; try done; cbn; lia. }
  constructor; [exact Hm|]. constructor; [split; [reflexivity|apply Nat.leb_le; reflexivity]|].
  constructor; [exact Hm|constructor].
Qed.

Lemma parse_reads_metrics_witness :
  parse_perfdata 255 32
    (str "'c[disk used]'=18%;@80;~:-3;0; Warning: 'c[disk used]'=18%;@80;~:-3;0; ") []
  = Returns (Some [metric_value demo_metric; metric_value demo_metric]).
Proof. apply (parse_reads_metrics 255 32 demo_items demo_items_ok). Defined.

Lemma parse_storable_witness : Forall (storable 255 32) [metric_value demo_metric; metric_value demo_metric].
Proof.
  apply (parse_storable 255 32 (str "'c[disk used]'=18%;@80;~:-3;0; Warning: 'c[disk used]'=18%;@80;~:-3;0; ")).
  vm_compute. reflexivity.
Defined.

(** What is seen of the metrics of a text. *)
Definition seen {A} (f : perfdata -> A) (text : cstring) : option (list A) :=
  match parse_perfdata 255 32 text [] with Returns (Some l) => Some (f <$> l) | _ => None end.

(** A bracket at the end of a name is lost even without a type. *)
Lemma bracket_lost : seen _name (str "load[1]=3") = Some [str "load[1"].
Proof. vm_compute. reflexivity. Qed.

(** Equality of metrics is not symmetric: its tolerance is relative to the left
    one. *)
Lemma equality_not_symmetric :
  double_equal (Dbl.of_Z 100) (Dbl.of_Z 99) = true /\ double_equal (Dbl.of_Z 99) (Dbl.of_Z 100) = false.
Proof. split; vm_compute; reflexivity. Qed.

(** After the separator of a threshold, a colon is taken for the rest of it. *)
Lemma colon_joins_thresholds :
  seen (fun p => (_warning_low p, _warning p, _critical p)) (str "a=1;5;:10")
  = Some [(Dbl.of_Z 5, Dbl.of_Z 10, NAN)].
Proof. vm_compute. reflexivity. Qed.

(** A decimal comma is read as a point. *)
Lemma decimal_comma : seen _value (str "a=1,5;2,5") = Some [Dbl.of_ratio false 3 2].
Proof. vm_compute. reflexivity. Qed.

End Perfdata.
