(* ===== verification/Correlation.v ===== *)
(** * Correlation (correlation/src: node.cc, stream.cc, state.cc, issue.cc, ...)

    Hosts and services are nodes linked to their parents and dependencies. A
    node keeps its state and, while it has a problem, an issue; what happens to
    it is written as events: periods of state, issues, and the parentings of
    issues of linked nodes. Nodes live in one map, the store, and a pointer to
    a node is its key there. The theorems show that a node has an issue exactly
    when it has a problem, so that no null pointer is followed; that the states
    form a gapless history; that every parenting opened is closed once; that
    links are mirrored at both ends; and what a restart restores. *)

From Stdlib Require Import Sorting.Sorted ZArith Lia ZifyNat ZifyBool.
From stdpp Require Import base option list numbers gmap sets.
From S2P Require Import Prelude Kpi.

Module Correlation.

Abbreviation is_null := Kpi.is_null.

(** host_id and service_id; the service of a host is 0. *)
Abbreviation key := (Z * Z)%type.

(** ** Events *)

Record state : Type := State {
  ack_time : Z;
  current_state : Z;
  end_time : Z;
  host_id : Z;
  in_downtime : bool;
  poller_id : Z;
  service_id : Z;
  start_time : Z
}.

Definition new_state : state := State (-1) 3 (-1) 0 false 0 0 0.

Record issue : Type := Issue {
  i_ack_time : Z;
  i_end_time : Z;
  i_host_id : Z;
  i_service_id : Z;
  i_start_time : Z
}.

Definition new_issue : issue := Issue (-1) (-1) 0 0 0.

Record issue_parent : Type := Issue_parent {
  child_host_id : Z;
  child_service_id : Z;
  child_start_time : Z;
  ip_end_time : Z;
  parent_host_id : Z;
  parent_service_id : Z;
  parent_start_time : Z;
  ip_start_time : Z
}.

Record log_issue : Type := Log_issue {
  log_ctime : Z;
  li_host_id : Z;
  li_service_id : Z;
  issue_start_time : Z
}.

Record engine_state : Type := Engine_state { es_poller_id : Z; started : bool }.

(** neb::acknowledgement. *)
Record acknowledgement : Type := Acknowledgement {
  acknowledgement_type : Z;
  a_author : cstring;
  a_comment : cstring;
  deletion_time : Z;
  a_entry_time : Z;
  a_host_id : Z;
  is_sticky : bool;
  notify_contacts : bool;
  notify_only_if_not_already_acknowledged : bool;
  persistent_comment : bool;
  a_poller_id : Z;
  a_service_id : Z;
  a_state : Z
}.

(** neb::downtime. *)
Record downtime : Type := Downtime {
  actual_end_time : Z;
  actual_start_time : Z;
  d_author : cstring;
  d_comment : cstring;
  d_deletion_time : Z;
  downtime_type : Z;
  duration : Z;
  d_end_time : Z;
  d_entry_time : Z;
  fixed : bool;
  d_host_id : Z;
  internal_id : Z;
  d_poller_id : Z;
  d_service_id : Z;
  d_start_time : Z;
  triggered_by : Z;
  was_cancelled : bool;
  was_started : bool;
  is_recurring : bool;
  recurring_timeperiod : cstring;
  come_from : Z
}.

(** What is written to the publisher or to the cache. *)
Inductive event : Type :=
  | Ev_state (s : state)
  | Ev_issue (i : issue)
  | Ev_parent (p : issue_parent)
  | Ev_log (l : log_issue)
  | Ev_engine (e : engine_state)
  | Ev_downtime (d : downtime)
  | Ev_ack (a : acknowledgement).

(** ** Nodes *)

Record node : Type := Node {
  node_state : state;
  my_issue : option issue;
  _acknowledgement : option acknowledgement;
  downtimes : gmap Z downtime;
  _children : gset key;
  _depended_by : gset key;
  _depends_on : gset key;
  _parents : gset key
}.

Implicit Types (n : node) (nodes : gmap key node) (k : key).

(** The constructor, at time [now]. *)
Definition new_node (now : Z) : node :=
  Node (State (-1) 0 (-1) 0 false 0 0 now) None None ∅ ∅ ∅ ∅ ∅.

Definition with_state n st :=
  Node st (my_issue n) (_acknowledgement n) (downtimes n) (_children n) (_depended_by n) (_depends_on n) (_parents n).
Definition with_issue n i :=
  Node (node_state n) i (_acknowledgement n) (downtimes n) (_children n) (_depended_by n) (_depends_on n) (_parents n).
Definition with_ack n a :=
  Node (node_state n) (my_issue n) a (downtimes n) (_children n) (_depended_by n) (_depends_on n) (_parents n).
Definition with_downtimes n d :=
  Node (node_state n) (my_issue n) (_acknowledgement n) d (_children n) (_depended_by n) (_depends_on n) (_parents n).
Definition with_links n c db d p :=
  Node (node_state n) (my_issue n) (_acknowledgement n) (downtimes n) c db d p.

Definition set_ack_time (s : state) (t : Z) : state :=
  State t (current_state s) (end_time s) (host_id s) (in_downtime s) (poller_id s) (service_id s) (start_time s).
Definition set_end_time (s : state) (t : Z) : state :=
  State (ack_time s) (current_state s) t (host_id s) (in_downtime s) (poller_id s) (service_id s) (start_time s).
Definition set_status (s : state) (status : Z) (downtime : bool) : state :=
  State (ack_time s) status (end_time s) (host_id s) downtime (poller_id s) (service_id s) (start_time s).

Definition get_id n : key := (host_id (node_state n), service_id (node_state n)).

(** *** Links *)

Definition erase_child k n := with_links n (_children n ∖ {[k]}) (_depended_by n) (_depends_on n) (_parents n).
Definition erase_depended k n := with_links n (_children n) (_depended_by n ∖ {[k]}) (_depends_on n) (_parents n).
Definition erase_dependency k n := with_links n (_children n) (_depended_by n) (_depends_on n ∖ {[k]}) (_parents n).
Definition erase_parent k n := with_links n (_children n) (_depended_by n) (_depends_on n) (_parents n ∖ {[k]}).
Definition insert_child k n := with_links n (_children n ∪ {[k]}) (_depended_by n) (_depends_on n) (_parents n).
Definition insert_depended k n := with_links n (_children n) (_depended_by n ∪ {[k]}) (_depends_on n) (_parents n).
Definition insert_dependency k n := with_links n (_children n) (_depended_by n) (_depends_on n ∪ {[k]}) (_parents n).
Definition insert_parent k n := with_links n (_children n) (_depended_by n) (_depends_on n) (_parents n ∪ {[k]}).

(** The links of a node of the store. *)
Definition links (f : node -> gset key) nodes k : gset key := from_option f ∅ (nodes !! k).

(** [this] and [n] are the keys of the object and of the argument. *)
Definition add_child nodes (this n : key) : gmap key node * outcome unit :=
  if bool_decide (n ∈ links _parents nodes this) then (nodes, Throws Exn_msg)
  else (alter (insert_parent this) n (alter (insert_child n) this nodes), Returns tt).
Definition add_depended nodes (this n : key) : gmap key node * outcome unit :=
  if bool_decide (n ∈ links _depends_on nodes this) then (nodes, Throws Exn_msg)
  else (alter (insert_dependency this) n (alter (insert_depended n) this nodes), Returns tt).
Definition add_dependency nodes (this n : key) : gmap key node * outcome unit :=
  if bool_decide (n ∈ links _depended_by nodes this) then (nodes, Throws Exn_msg)
  else (alter (insert_depended this) n (alter (insert_dependency n) this nodes), Returns tt).
Definition add_parent nodes (this n : key) : gmap key node * outcome unit :=
  if bool_decide (n ∈ links _children nodes this) then (nodes, Throws Exn_msg)
  else (alter (insert_child this) n (alter (insert_parent n) this nodes), Returns tt).

Definition remove_child nodes (this n : key) := alter (erase_parent this) n (alter (erase_child n) this nodes).
Definition remove_depended nodes (this n : key) := alter (erase_dependency this) n (alter (erase_depended n) this nodes).
Definition remove_dependency nodes (this n : key) := alter (erase_depended this) n (alter (erase_dependency n) this nodes).
Definition remove_parent nodes (this n : key) := alter (erase_child this) n (alter (erase_parent n) this nodes).

(** The destructor: the node goes, and its key from the links of the others. *)
Definition destroy nodes (this : key) : gmap key node :=
  let each f l nodes := foldr (fun k nodes => alter (f this) k nodes) nodes (elements l) in
  let nodes := each erase_parent (links _children nodes this) nodes in
  let nodes := each erase_dependency (links _depended_by nodes this) nodes in
  let nodes := each erase_depended (links _depends_on nodes this) nodes in
  let nodes := each erase_child (links _parents nodes this) nodes in
  delete this nodes.

(** *** State events *)

Definition earliest (l : list downtime) : Z :=
  fold_left (fun t d => if is_null t || (d_start_time d <? t) then d_start_time d else t) l (-1).

Definition _open_state_event n (start : Z) : state :=
  let earliest_downtime := earliest (snd <$> map_to_list (downtimes n)) in
  State
    (match _acknowledgement n with
     | Some a => if start <? a_entry_time a then a_entry_time a else start
     | None => -1
     end)
    (current_state (node_state n)) (-1) (host_id (node_state n))
    (if is_null earliest_downtime then false else earliest_downtime <=? start)
    0 (service_id (node_state n)) start.

(** [stream]: whether there is a stream to write to. *)
Definition _generate_state_event (stream : bool) n (start new_status : Z) (new_in_downtime : bool) : node * list event :=
  let closing := if stream then [Ev_state (set_end_time (node_state n) start)] else [] in
  let n :=
    match _acknowledgement n with
    | Some a =>
      if negb (is_sticky a) && eqb (in_downtime (node_state n)) new_in_downtime then with_ack n None else n
    | None => n
    end in
  let n := with_state n (set_status (_open_state_event n start) new_status new_in_downtime) in
  (n, closing ++ if stream then [Ev_state (node_state n)] else []).

(** *** Parentings *)

Inductive link_type : Type := parent | children | depended_by | depends_on.

(** The issue of a node of the store. *)
Definition issue_of nodes k : option issue := n ← nodes !! k; my_issue n.

(** all_parents_with_issues_and_get_start_time, on a list of parents; None when
    one of them has no issue. *)
Fixpoint latest_issue nodes (l : list key) (start : Z) : option Z :=
  match l with
  | [] => Some start
  | k :: l =>
    match issue_of nodes k with
    | None => None
    | Some i => latest_issue nodes l (if is_null start || (start <? i_start_time i) then i_start_time i else start)
    end
  end.

Definition all_parents_with_issues_and_get_start_time nodes n (start : Z) : option Z :=
  latest_issue nodes (elements (_parents n)) start.

(** The record of a parenting, not ended. *)
Definition parenting (child : node) (ci : issue) (par : node) (pi : issue) (start : Z) : issue_parent :=
  Issue_parent (host_id (node_state child)) (service_id (node_state child)) (i_start_time ci) (-1)
    (host_id (node_state par)) (service_id (node_state par)) (i_start_time pi) start.

Definition ended (closed : bool) (t : Z) (ip : issue_parent) : issue_parent :=
  if closed then
    Issue_parent (child_host_id ip) (child_service_id ip) (child_start_time ip) t
      (parent_host_id ip) (parent_service_id ip) (parent_start_time ip) (ip_start_time ip)
  else ip.

(** What a dependency and a parent give, when there is a parenting. *)
Definition dependency_parenting (child par : node) : option issue_parent :=
  match my_issue child, my_issue par with
  | Some ci, Some pi =>
    Some (parenting child ci par pi
      (if i_start_time pi <? i_start_time ci then i_start_time ci else i_start_time pi))
  | _, _ => None
  end.

Definition parent_parenting nodes (child par : node) : option issue_parent :=
  match my_issue child, my_issue par with
  | Some ci, Some pi =>
    start ← all_parents_with_issues_and_get_start_time nodes child (i_start_time ci);
    Some (parenting child ci par pi start)
  | _, _ => None
  end.

(** [this] is the node that is told, [n] the one that was updated. *)
Definition linked_node_updated (stream : bool) nodes (this n : node) (start : Z) (closed : bool) (type : link_type)
    : list event :=
  let ip :=
    match type with
    | depended_by => dependency_parenting n this
    | depends_on => dependency_parenting this n
    | parent => parent_parenting nodes this n
    | children => parent_parenting nodes n this
    end in
  match ip with
  | Some ip => if stream then [Ev_parent (ended closed start ip)] else []
  | None => []
  end.

(** Telling the nodes of a list that [n] was updated. *)
Definition visit_each (stream : bool) nodes (l : list key) n (t : Z) (closed : bool) (type : link_type) : list event :=
  l ≫= fun k => match nodes !! k with
                | Some this => linked_node_updated stream nodes this n t closed type
                | None => []
                end.

Definition _visit_linked_nodes (stream : bool) nodes n (t : Z) (closed : bool) : list event :=
  visit_each stream nodes (elements (_parents n)) n t closed children
  ++ visit_each stream nodes (elements (_children n)) n t closed parent
  ++ visit_each stream nodes (elements (_depends_on n)) n t closed depended_by
  ++ visit_each stream nodes (elements (_depended_by n)) n t closed depends_on.

Definition _visit_parent_of_child_nodes (stream : bool) nodes k n (t : Z) (closed : bool) : list event :=
  elements (_children n) ≫= fun c =>
    match nodes !! c with
    | Some child =>
      visit_each stream nodes (filter (fun p => p <> k) (elements (_parents child))) child t closed children
    | None => []
    end.

(** *** What happens to a node

    None: a null pointer is followed. *)

Definition manage_status (stream : bool) nodes k (new_status last_state_change : Z)
    : option (gmap key node * list event) :=
  match nodes !! k with
  | None => Some (nodes, [])
  | Some n =>
    let old_status := current_state (node_state n) in
    if old_status =? new_status then Some (nodes, [])
    else
      let n :=
        if new_status =? 0 then with_ack n None
        else match _acknowledgement n with
             | Some a => if negb (is_sticky a) then with_ack n None else n
             | None => n
             end in
      let '(n, states) :=
        _generate_state_event stream n last_state_change new_status (in_downtime (node_state n)) in
      if negb (old_status =? 0) && (new_status =? 0) then
        match my_issue n with
        | None => None
        | Some i =>
          let i := Issue (i_ack_time i) last_state_change (i_host_id i) (i_service_id i) (i_start_time i) in
          let n := with_issue n (Some i) in
          let nodes := <[k := n]> nodes in
          let linked := _visit_linked_nodes stream nodes n last_state_change true in
          let siblings := _visit_parent_of_child_nodes stream nodes k n last_state_change true in
          Some (<[k := with_issue n None]> nodes,
                states ++ linked ++ siblings ++ if stream then [Ev_issue i] else [])
        end
      else if (old_status =? 0) && negb (new_status =? 0) then
        let i := Issue (match _acknowledgement n with Some _ => last_state_change | None => -1 end) (-1)
                   (host_id (node_state n)) (service_id (node_state n)) last_state_change in
        let n := with_issue n (Some i) in
        let nodes := <[k := n]> nodes in
        let linked := _visit_linked_nodes stream nodes n last_state_change false in
        let siblings := _visit_parent_of_child_nodes stream nodes k n last_state_change false in
        Some (nodes, states ++ (if stream then [Ev_issue i] else []) ++ linked ++ siblings)
      else Some (<[k := n]> nodes, states)
  end.

Definition manage_ack (stream : bool) n (ack : acknowledgement) : node * list event :=
  if is_null (deletion_time ack) then
    let n := with_ack n (Some ack) in
    let '(n, issues) :=
      match my_issue n with
      | Some i =>
        let i := Issue (a_entry_time ack) (i_end_time i) (i_host_id i) (i_service_id i) (i_start_time i) in
        (with_issue n (Some i), if stream then [Ev_issue i] else [])
      | None => (n, [])
      end in
    let n := with_state n (set_ack_time (node_state n) (a_entry_time ack)) in
    (n, issues ++ if stream then [Ev_state (node_state n)] else [])
  else (with_ack n None, []).

Definition manage_downtime (stream : bool) n (dwn : downtime) : node * list event :=
  let started := negb (is_null (actual_start_time dwn)) in
  let finished := negb (is_null (actual_end_time dwn)) in
  if started then
    if negb finished then
      let n := with_downtimes n (<[internal_id dwn := dwn]> (downtimes n)) in
      if negb (in_downtime (node_state n)) then
        _generate_state_event stream n (actual_start_time dwn) (current_state (node_state n)) true
      else (n, [])
    else
      let n := with_downtimes n (delete (internal_id dwn) (downtimes n)) in
      if bool_decide (downtimes n = ∅) then
        _generate_state_event stream n (actual_end_time dwn) (current_state (node_state n)) false
      else (n, [])
  else (n, []).

Definition manage_log (stream : bool) n (c_time : Z) : list event :=
  match my_issue n with
  | Some i =>
    if stream then [Ev_log (Log_issue c_time (host_id (node_state n)) (service_id (node_state n)) (i_start_time i))]
    else []
  | None => []
  end.

Definition serialize n : list event :=
  match my_issue n with Some i => [Ev_issue i] | None => [] end
  ++ [Ev_state (node_state n)]
  ++ ((fun p => Ev_downtime (snd p)) <$> map_to_list (downtimes n))
  ++ match _acknowledgement n with Some a => [Ev_ack a] | None => [] end.

(** ** The stream *)

(** The events of the engine it is given, as far as it reads them. *)
Inductive message : Type :=
  | Host_status (host last_hard_state last_hard_state_change : Z)
  | Service_status (host service last_hard_state last_hard_state_change : Z)
  | Host (host : Z)
  | Service (host service : Z)
  | Ack (a : acknowledgement)
  | Dwn (d : downtime)
  | Log_entry (host service c_time : Z)
  | Other.

(** A change of the node of a key, if there is one. *)
Definition on_node nodes k (f : node -> node * list event) : gmap key node * list event :=
  match nodes !! k with
  | Some n => let '(n, evs) := f n in (<[k := n]> nodes, evs)
  | None => (nodes, [])
  end.

(** The declaration of a node. *)
Definition redeclared (stream : bool) nodes k : list event :=
  match nodes !! k with Some n => if stream then [Ev_state (node_state n)] else [] | None => [] end.

(** [stream] is false for a passive stream. *)
Definition write (stream : bool) nodes (d : message) : option (gmap key node * list event) :=
  match d with
  | Host_status h s t => manage_status stream nodes (h, 0) s t
  | Service_status h sv s t => manage_status stream nodes (h, sv) s t
  | Host h => Some (nodes, redeclared stream nodes (h, 0))
  | Service h sv => Some (nodes, redeclared stream nodes (h, sv))
  | Ack a => Some (on_node nodes (a_host_id a, a_service_id a) (fun n => manage_ack stream n a))
  | Dwn d => Some (on_node nodes (d_host_id d, d_service_id d) (fun n => manage_downtime stream n d))
  | Log_entry h sv t =>
    Some (nodes, match nodes !! (h, sv) with Some n => manage_log stream n t | None => [] end)
  | Other => Some (nodes, [])
  end.

(** The events of the start and the end of an active stream. *)
Definition constructed (poller : Z) : list event := [Ev_engine (Engine_state poller true)].
Definition destroyed (poller : Z) : list event := [Ev_engine (Engine_state poller false)].

Definition _load_correlation_event nodes (d : event) : gmap key node :=
  match d with
  | Ev_issue i => fst (on_node nodes (i_host_id i, i_service_id i) (fun n => (with_issue n (Some i), [])))
  | Ev_state s => fst (on_node nodes (host_id s, service_id s) (fun n => (with_state n s, [])))
  | Ev_downtime d => fst (on_node nodes (d_host_id d, d_service_id d) (fun n => manage_downtime false n d))
  | Ev_ack a => fst (on_node nodes (a_host_id a, a_service_id a) (fun n => manage_ack false n a))
  | _ => nodes
  end.

Definition _load_correlation nodes (cache : list event) : gmap key node :=
  fold_left _load_correlation_event cache nodes.

(** What the transaction on the cache writes. *)
Definition _save_persistent_cache nodes : list event :=
  map_to_list nodes ≫= fun p => serialize (snd p).

(** ** Issues and problems *)

Record node_ok k n : Prop := Node_ok {
  ok_id : get_id n = k;
  ok_open : end_time (node_state n) = -1;
  (** A node has an issue exactly when it has a problem. *)
  ok_issue : current_state (node_state n) = 0 <-> my_issue n = None;
  ok_issue_id : forall i, my_issue n = Some i -> (i_host_id i, i_service_id i) = k;
  ok_ack : forall a, _acknowledgement n = Some a -> is_null (deletion_time a) = true /\ (a_host_id a, a_service_id a) = k;
  ok_downtime : forall id d, downtimes n !! id = Some d ->
    internal_id d = id /\ (d_host_id d, d_service_id d) = k
    /\ is_null (actual_start_time d) = false /\ is_null (actual_end_time d) = true;
  ok_in_downtime : downtimes n <> ∅ -> in_downtime (node_state n) = true
}.

Definition nodes_ok nodes : Prop := map_Forall node_ok nodes.

(** What a state event changes. *)
Lemma generate_spec stream n t status dt n' evs :
  _generate_state_event stream n t status dt = (n', evs) ->
  my_issue n' = my_issue n /\ downtimes n' = downtimes n /\ _children n' = _children n
  /\ _depended_by n' = _depended_by n /\ _depends_on n' = _depends_on n /\ _parents n' = _parents n
  /\ get_id n' = get_id n /\ current_state (node_state n') = status /\ in_downtime (node_state n') = dt
  /\ start_time (node_state n') = t /\ end_time (node_state n') = -1
  /\ (_acknowledgement n' = _acknowledgement n \/ _acknowledgement n' = None)
  /\ evs = if stream then [Ev_state (set_end_time (node_state n) t); Ev_state (node_state n')] else [].
Proof.
  unfold _generate_state_event. set (n1 := match _acknowledgement n with Some _ => _ | None => _ end).
  assert (H : n1 = n \/ n1 = with_ack n None).
  { unfold n1. destruct (_acknowledgement n); [|by left]. case_if; [by right|by left]. }
  intros [= <- <-]. destruct stream, H as [H|H]; rewrite H; split_and!; try done; (by left) || (by right).
Qed.

Lemma generate_ok stream k n t status n' evs dt :
  _generate_state_event stream n t status dt = (n', evs) ->
  node_ok k n -> (status = 0 <-> my_issue n = None) -> (downtimes n <> ∅ -> dt = true) -> node_ok k n'.
Proof.
  intros E Hok Hs Hd. apply generate_spec in E as (Ei & Ed & _ & _ & _ & _ & Eid & Es & Edt & _ & Eend & Ea & _).
  destruct Hok as [H1 H2 H3 H4 H5 H6 H7]. constructor.
  - by rewrite Eid.
  - done.
  - by rewrite Es, Ei.
  - by rewrite Ei.
  - destruct Ea as [->| ->]; [done|by intros].
  - by rewrite Ed.
  - rewrite Ed, Edt. done.
Qed.

Lemma insert_ok nodes k n : nodes_ok nodes -> node_ok k n -> nodes_ok (<[k:=n]> nodes).
Proof. intros H Hn. by apply map_Forall_insert_2. Qed.

(** A problem of another severity keeps the issue; without the acknowledgement,
    the rest is as it was. *)
Lemma ok_with_ack k n : node_ok k n -> node_ok k (with_ack n None).
Proof. by intros [H1 H2 H3 H4 H5 H6 H7]. Qed.

(** The node once its acknowledgement was dropped, if it had to. *)
Definition acknowledged_for (new_status : Z) n : node :=
  if new_status =? 0 then with_ack n None
  else match _acknowledgement n with
       | Some a => if negb (is_sticky a) then with_ack n None else n
       | None => n
       end.

Lemma acknowledged_for_cases s n : acknowledged_for s n = n \/ acknowledged_for s n = with_ack n None.
Proof.
  unfold acknowledged_for. case_if; [by right|]. destruct (_acknowledgement n); [|by left]. case_if; [by right|by left].
Qed.

Lemma manage_status_ok stream nodes k s t :
  nodes_ok nodes -> exists nodes' evs, manage_status stream nodes k s t = Some (nodes', evs) /\ nodes_ok nodes'.
Proof.
  intros Hok. unfold manage_status. destruct (nodes !! k) as [n|] eqn:Ek; [|by eexists _, _].
  pose proof (Hok k n Ek) as Hn. destruct (Z.eqb_spec (current_state (node_state n)) s) as [Es|Es]; [by eexists _, _|].
  fold (acknowledged_for s n). set (n0 := acknowledged_for s n).
  assert (Hn0 : node_ok k n0 /\ node_state n0 = node_state n /\ my_issue n0 = my_issue n /\ downtimes n0 = downtimes n).
  { unfold n0. destruct (acknowledged_for_cases s n) as [->| ->]; [done|]. split; [by apply ok_with_ack|done]. }
  destruct Hn0 as (Hn0 & Est & Eis & Ed).
  destruct (_generate_state_event stream n0 t s (in_downtime (node_state n0))) as [n1 evs] eqn:Eg.
  pose proof (generate_spec _ _ _ _ _ _ _ Eg) as (Ei & Edw & _ & _ & _ & _ & Eid & Ecs & Edt & _ & Eend & Ea & _).
  rewrite Est in *.
  destruct (Z.eqb_spec (current_state (node_state n)) 0) as [E0|E0]; cbn [negb andb].
  - destruct (Z.eqb_spec s 0) as [->|Hs]; [congruence|]. cbn [negb].
    eexists _, _. split; [done|]. apply insert_ok; [done|].
    destruct Hn0 as [H1 H2 H3 H4 H5 H6 H7]. constructor; cbn [node_state my_issue _acknowledgement downtimes with_issue].
    + change (get_id n1 = k). by rewrite Eid.
    + done.
    + by rewrite Ecs.
    + intros i [= <-]. change (get_id n1 = k). by rewrite Eid.
    + destruct Ea as [->| ->]; [done|by intros].
    + by rewrite Edw.
    + rewrite Edw, Edt. rewrite Est in H7. done.
  - destruct (Z.eqb_spec s 0) as [->|Hs]; cbn [negb].
    + rewrite Ei, Eis. destruct (my_issue n) as [i|] eqn:Emi.
      * eexists _, _. split; [done|]. rewrite insert_insert_eq. apply insert_ok; [done|].
        destruct Hn0 as [H1 H2 H3 H4 H5 H6 H7]. constructor; cbn [node_state my_issue _acknowledgement downtimes with_issue].
        -- change (get_id n1 = k). by rewrite Eid.
        -- done.
        -- by rewrite Ecs.
        -- done.
        -- destruct Ea as [->| ->]; [done|by intros].
        -- by rewrite Edw.
        -- rewrite Edw, Edt. rewrite Est in H7. done.
      * exfalso. apply E0, (ok_issue _ _ Hn), Emi.
    + eexists _, _. split; [done|]. apply insert_ok; [done|].
      apply (generate_ok _ _ _ _ _ _ _ _ Eg); [done| |].
      * rewrite Eis. split; [done|]. intros H. by apply (ok_issue _ _ Hn) in H.
      * rewrite Ed. apply (ok_in_downtime _ _ Hn).
Qed.

Lemma on_node_ok nodes k f :
  nodes_ok nodes -> (forall n, node_ok k n -> node_ok k (fst (f n))) -> nodes_ok (fst (on_node nodes k f)).
Proof.
  intros H Hf. unfold on_node. destruct (nodes !! k) as [n|] eqn:E; [|done].
  specialize (Hf n (H k n E)). destruct (f n) as [n' evs]. by apply insert_ok.
Qed.

Lemma manage_ack_ok stream k n a : (a_host_id a, a_service_id a) = k -> node_ok k n -> node_ok k (fst (manage_ack stream n a)).
Proof.
  intros Ha [H1 H2 H3 H4 H5 H6 H7]. unfold manage_ack. destruct (is_null (deletion_time a)) eqn:Ed; [|by constructor].
  change (my_issue (with_ack n (Some a))) with (my_issue n).
  destruct (my_issue n) as [i|] eqn:Ei; cbn [fst]; constructor; cbn; try done;
    try (by intros a' [= <-]); try (by rewrite ?Ei in *).
  - split; intros E; [by apply H3 in E|done].
  - intros i' [= <-]. cbn. by apply H4.
Qed.

Lemma manage_downtime_ok stream k n d :
  (d_host_id d, d_service_id d) = k -> node_ok k n -> node_ok k (fst (manage_downtime stream n d)).
Proof.
  intros Hd Hok. pose proof Hok as [H1 H2 H3 H4 H5 H6 H7]. unfold manage_downtime.
  destruct (is_null (actual_start_time d)) eqn:Es; cbn [negb]; [done|].
  destruct (is_null (actual_end_time d)) eqn:Ee; cbn [negb].
  - set (n1 := with_downtimes n _).
    assert (Hdt : forall id x, downtimes n1 !! id = Some x ->
      internal_id x = id /\ (d_host_id x, d_service_id x) = k
      /\ is_null (actual_start_time x) = false /\ is_null (actual_end_time x) = true).
    { intros id x. cbn. intros [[<- <-]|[_ Hx]]%lookup_insert_Some; [done|]. by apply H6. }
    change (node_state n1) with (node_state n). destruct (in_downtime (node_state n)) eqn:Ein; cbn [negb fst].
    + by constructor.
    + destruct (_generate_state_event stream n1 _ _ true) as [n' evs] eqn:Eg.
      pose proof (generate_spec _ _ _ _ _ _ _ Eg) as (Ei & Edw & _ & _ & _ & _ & Eid & Ecs & Edt & _ & Eend & Ea & _).
      cbn [fst]. constructor; rewrite ?Ei, ?Edw, ?Ecs; try done.
      * by rewrite Eid.
      * destruct Ea as [->| ->]; [done|by intros].
  - set (n1 := with_downtimes n _).
    assert (Hdt : forall id x, downtimes n1 !! id = Some x ->
      internal_id x = id /\ (d_host_id x, d_service_id x) = k
      /\ is_null (actual_start_time x) = false /\ is_null (actual_end_time x) = true).
    { intros id x. cbn. intros [_ Hx]%lookup_delete_Some. by apply H6. }
    case_bool_decide as Hem; cbn [fst].
    + destruct (_generate_state_event stream n1 _ _ false) as [n' evs] eqn:Eg.
      pose proof (generate_spec _ _ _ _ _ _ _ Eg) as (Ei & Edw & _ & _ & _ & _ & Eid & Ecs & Edt & _ & Eend & Ea & _).
      cbn [fst]. constructor; rewrite ?Ei, ?Edw, ?Ecs; try done.
      * by rewrite Eid.
      * destruct Ea as [->| ->]; [done|by intros].
    + constructor; try done. intros _. apply H7. intros E. apply Hem. cbn. by rewrite E, delete_empty.
Qed.

Lemma write_ok stream nodes d :
  nodes_ok nodes -> exists nodes' evs, write stream nodes d = Some (nodes', evs) /\ nodes_ok nodes'.
Proof.
  intros Hok. destruct d as [h s t|h sv s t|h|h sv|a|dn|h sv t|]; cbn [write];
    try (by apply manage_status_ok); try (by eexists _, _).
  - eexists _, _. split; [by rewrite <-surjective_pairing|]. apply on_node_ok; [done|]. intros n. by apply manage_ack_ok.
  - eexists _, _. split; [by rewrite <-surjective_pairing|]. apply on_node_ok; [done|]. intros n. by apply manage_downtime_ok.
Qed.

(** A sequence of writes. *)
Fixpoint write_all (stream : bool) nodes (ds : list message) : option (gmap key node * list event) :=
  match ds with
  | [] => Some (nodes, [])
  | d :: ds =>
    '(nodes, evs) ← write stream nodes d;
    '(nodes, evs') ← write_all stream nodes ds;
    Some (nodes, evs ++ evs')
  end.

(** Whatever events come, in any order and about any nodes, the stream
    follows no null pointer, and a node keeps an issue exactly while it is not
    OK. *)
Theorem writes_keep_issues stream nodes ds :
  nodes_ok nodes -> exists nodes' evs, write_all stream nodes ds = Some (nodes', evs) /\ nodes_ok nodes'.
Proof.
  revert nodes. induction ds as [|d ds IH]; intros nodes Hok; cbn [write_all]; [by eexists _, _|].
  destruct (write_ok stream nodes d Hok) as (nodes1 & evs1 & -> & Hok1).
  destruct (IH nodes1 Hok1) as (nodes2 & evs2 & E2 & Hok2). cbn [mbind option_bind]. rewrite E2. by eexists _, _.
Qed.

(** ** Parentings *)

(** The two kinds of links between a child and a parent. *)
Inductive kind : Type := Dependency | Parent.

#[global] Instance kind_eq_dec : EqDecision kind.
Proof. solve_decision. Defined.

Abbreviation pair := (kind * key * key)%type.

Definition uplinks (kd : kind) n : gset key := match kd with Dependency => _depends_on n | Parent => _parents n end.
Definition downlinks (kd : kind) n : gset key := match kd with Dependency => _depended_by n | Parent => _children n end.

(** The parenting of a child and a parent, when there is one. *)
Definition record_of nodes (x : pair) : option issue_parent :=
  let '(kd, c, p) := x in
  child ← nodes !! c; par ← nodes !! p;
  match kd with Dependency => dependency_parenting child par | Parent => parent_parenting nodes child par end.

(** All pairs of linked nodes. *)
Definition pairs nodes : list pair :=
  map_to_list nodes ≫= fun '(c, n) =>
    ((fun p => (Dependency, c, p)) <$> elements (_depends_on n)) ++ ((fun p => (Parent, c, p)) <$> elements (_parents n)).

(** The parentings that hold. *)
Definition active nodes : list issue_parent := omap (record_of nodes) (pairs nodes).

(** The parentings opened and closed by some events; those closed without the
    time of their end. *)
Definition parents_in (evs : list event) : list issue_parent :=
  omap (fun e => match e with Ev_parent p => Some p | _ => None end) evs.
Definition opened (evs : list event) : list issue_parent :=
  filter (fun p => ip_end_time p = -1) (parents_in evs).
Definition closed (evs : list event) : list issue_parent :=
  ended true (-1) <$> filter (fun p => ip_end_time p <> -1) (parents_in evs).

(** Links are mirrored at their other end, and no node is linked to itself. *)
Definition links_ok nodes : Prop :=
  (forall kd a b, b ∈ links (downlinks kd) nodes a <-> a ∈ links (uplinks kd) nodes b)
  /\ (forall kd a, a ∉ links (uplinks kd) nodes a).

Lemma elem_of_pairs nodes kd c p : (kd, c, p) ∈ pairs nodes <-> p ∈ links (uplinks kd) nodes c.
Proof.
  unfold pairs, links. rewrite list_elem_of_bind. split.
  - intros ([c' n] & Hin & Hn%elem_of_map_to_list). apply elem_of_app in Hin as [Hin|Hin];
      apply list_elem_of_fmap in Hin as (p' & [= -> -> ->] & Hp); rewrite elem_of_elements in Hp; by rewrite Hn.
  - destruct (nodes !! c) as [n|] eqn:E; cbn; [|set_solver]. intros Hp. exists (c, n).
    split; [|by apply elem_of_map_to_list]. apply elem_of_app.
    destruct kd; [left|right]; apply list_elem_of_fmap; exists p; by rewrite elem_of_elements.
Qed.

Lemma NoDup_pairs nodes : NoDup (pairs nodes).
Proof.
  unfold pairs. apply NoDup_bind.
  - intros [c1 n1] [c2 n2] [[kd c] p] H1 H2 Hi1 Hi2. apply elem_of_map_to_list in H1, H2.
    assert (c1 = c /\ c2 = c) as [-> ->].
    { apply elem_of_app in Hi1, Hi2. split; [destruct Hi1 as [H|H]|destruct Hi2 as [H|H]];
        apply list_elem_of_fmap in H as (? & [= -> -> ->] & _); done. }
    by simplify_eq.
  - intros [c n] _. apply NoDup_app. split; [|split].
    + apply NoDup_fmap_2; [by intros ? ? [=]|apply NoDup_elements].
    + intros x Hx1 Hx2. apply list_elem_of_fmap in Hx1 as (? & -> & _), Hx2 as (? & [=] & _).
    + apply NoDup_fmap_2; [by intros ? ? [=]|apply NoDup_elements].
  - apply NoDup_map_to_list.
Qed.

(** What parentings depend on. *)
Definition core n : key * option Z * (gset key * gset key) * (gset key * gset key) :=
  (get_id n, i_start_time <$> my_issue n, (_children n, _depended_by n), (_depends_on n, _parents n)).

Definition alike nodes nodes' : Prop := forall k, core <$> nodes !! k = core <$> nodes' !! k.

Lemma alike_links nodes nodes' kd k : alike nodes nodes' ->
  links (uplinks kd) nodes k = links (uplinks kd) nodes' k /\ links (downlinks kd) nodes k = links (downlinks kd) nodes' k.
Proof.
  intros H. specialize (H k). unfold links. destruct (nodes !! k) as [n|], (nodes' !! k) as [n'|]; try done.
  cbn in H. unfold core in H. injection H as _ _ _ H1 H2 H3 H4. by destruct kd; cbn; rewrite ?H1, ?H2, ?H3, ?H4.
Qed.

(** A parenting depends on its two nodes and, for a parent, on the other
    parents of the child. *)
Lemma latest_local nodes nodes' l : (forall j, j ∈ l -> core <$> nodes !! j = core <$> nodes' !! j) ->
  forall start, latest_issue nodes l start = latest_issue nodes' l start.
Proof.
  induction l as [|k l IH]; intros H start; [done|]. cbn [latest_issue].
  assert (IH' := IH (fun j Hj => H j (list_elem_of_further _ _ _ Hj))).
  specialize (H k (list_elem_of_here _ _)). unfold issue_of.
  destruct (nodes !! k) as [n|], (nodes' !! k) as [n'|]; try done; cbn in H |- *. unfold core in H.
  injection H as _ _ Hi _ _ _ _. destruct (my_issue n), (my_issue n'); try done. cbn in Hi. injection Hi as ->. apply IH'.
Qed.

Lemma record_local nodes nodes' kd c p :
  core <$> nodes !! c = core <$> nodes' !! c -> core <$> nodes !! p = core <$> nodes' !! p ->
  (kd = Parent -> forall j, j ∈ links (uplinks Parent) nodes c -> core <$> nodes !! j = core <$> nodes' !! j) ->
  record_of nodes (kd, c, p) = record_of nodes' (kd, c, p).
Proof.
  intros Hc Hp Ho. unfold record_of, links in *.
  destruct (nodes !! c) as [n|], (nodes' !! c) as [n'|]; try done; cbn in Hc, Ho |- *.
  destruct (nodes !! p) as [m|], (nodes' !! p) as [m'|]; try done; cbn in Hp |- *.
  unfold core, get_id in Hc, Hp. injection Hc as Hc1 Hc2 Hc3 _ _ _ Hc4. injection Hp as Hp1 Hp2 Hp3 _ _ _ _.
  unfold dependency_parenting, parent_parenting, all_parents_with_issues_and_get_start_time, parenting.
  destruct (my_issue n) as [ci|], (my_issue n') as [ci'|], (my_issue m) as [pi|], (my_issue m') as [pi'|];
    try (by destruct kd); try done. cbn in Hc3, Hp3. injection Hc3 as Hc3. injection Hp3 as Hp3.
  rewrite Hc1, Hc2, Hp1, Hp2, Hc3, Hp3. destruct kd; [done|].
  rewrite (latest_local nodes nodes'); [by rewrite Hc4|]. intros j Hj. rewrite elem_of_elements in Hj. by apply Ho.
Qed.

Lemma alike_record nodes nodes' x : alike nodes nodes' -> record_of nodes x = record_of nodes' x.
Proof. destruct x as [[kd c] p]. intros H. by apply record_local. Qed.

Lemma alike_pairs nodes nodes' : alike nodes nodes' -> pairs nodes ≡ₚ pairs nodes'.
Proof.
  intros H. apply NoDup_Permutation; [apply NoDup_pairs..|]. intros [[kd c] p]. rewrite !elem_of_pairs.
  by rewrite (proj1 (alike_links _ _ kd c H)).
Qed.

Lemma omap_ext_in {A B} (f g : A -> option B) (l : list A) : (forall x, x ∈ l -> f x = g x) -> omap f l = omap g l.
Proof.
  induction l as [|x l IH]; intros H; [done|]. cbn. rewrite H by left. rewrite IH; [done|]. intros. apply H. by right.
Qed.

Lemma alike_active nodes nodes' : alike nodes nodes' -> active nodes ≡ₚ active nodes'.
Proof.
  intros H. unfold active. rewrite (omap_ext_in (record_of nodes) (record_of nodes')) by (intros; by apply alike_record).
  by apply omap_Permutation, alike_pairs.
Qed.

Lemma alike_links_ok nodes nodes' : alike nodes nodes' -> links_ok nodes -> links_ok nodes'.
Proof.
  intros H [H1 H2]. split.
  - intros kd a b. by rewrite <-(proj2 (alike_links _ _ kd a H)), <-(proj1 (alike_links _ _ kd b H)).
  - intros kd a. by rewrite <-(proj1 (alike_links _ _ kd a H)).
Qed.

Lemma alike_insert nodes k n n' : nodes !! k = Some n -> core n = core n' -> alike nodes (<[k:=n']> nodes).
Proof.
  intros Hn Hc j. destruct (decide (k = j)) as [<-|Hne].
  - rewrite lookup_insert_eq, Hn. cbn. by rewrite Hc.
  - by rewrite lookup_insert_ne.
Qed.

(** *** The nodes visited are those whose parentings may change *)

Definition relevant nodes k (x : pair) : Prop :=
  let '(kd, c, p) := x in c = k \/ p = k \/ (kd = Parent /\ k ∈ links (uplinks Parent) nodes c).

#[global] Instance relevant_dec nodes k x : Decision (relevant nodes k x).
Proof. destruct x as [[kd c] p]. apply _. Defined.

Definition visited nodes k n : list pair :=
  ((fun p => (Parent, k, p)) <$> elements (_parents n)) ++ ((fun c => (Parent, c, k)) <$> elements (_children n))
  ++ ((fun p => (Dependency, k, p)) <$> elements (_depends_on n))
  ++ ((fun c => (Dependency, c, k)) <$> elements (_depended_by n))
  ++ (elements (_children n) ≫= fun c =>
        (fun p => (Parent, c, p)) <$> filter (fun p => p <> k) (elements (links (uplinks Parent) nodes c))).

Lemma visit_each_records nodes l n t cl ty (f : key -> pair) :
  (forall x, record_of nodes (f x) = this ← nodes !! x;
     match ty with
     | depended_by => dependency_parenting n this
     | depends_on => dependency_parenting this n
     | parent => parent_parenting nodes this n
     | children => parent_parenting nodes n this
     end) ->
  visit_each true nodes l n t cl ty
  = (fun ip => Ev_parent (ended cl t ip)) <$> omap (record_of nodes) (f <$> l).
Proof.
  intros Hf. induction l as [|x l IH]; [done|]. cbn [visit_each mbind list_bind fmap list_fmap omap list_omap].
  unfold visit_each in IH. rewrite Hf, IH. destruct (nodes !! x) as [this|]; [|done]. unfold linked_node_updated.
  cbn [mbind option_bind]. by destruct (match ty with parent => _ | _ => _ end).
Qed.

Lemma omap_bind {A B C D} (f : A -> list D) (g : C -> D) (h : B -> option C) (r : A -> list B) (l : list A) :
  (forall x, f x = g <$> omap h (r x)) -> l ≫= f = g <$> omap h (l ≫= r).
Proof.
  intros H. induction l as [|x l IH]; [done|]. rewrite !bind_cons, omap_app, fmap_app, <-IH. by rewrite H.
Qed.

Lemma visits_records nodes k n t cl :
  nodes !! k = Some n ->
  _visit_linked_nodes true nodes n t cl ++ _visit_parent_of_child_nodes true nodes k n t cl
  = (fun ip => Ev_parent (ended cl t ip)) <$> omap (record_of nodes) (visited nodes k n).
Proof.
  intros Hk. unfold _visit_linked_nodes, _visit_parent_of_child_nodes, visited.
  rewrite (visit_each_records nodes _ n t cl children (fun p => (Parent, k, p)));
    [|intros x; unfold record_of; rewrite Hk; by cbn].
  rewrite (visit_each_records nodes _ n t cl parent (fun c => (Parent, c, k)));
    [|intros x; unfold record_of; rewrite Hk; destruct (nodes !! x); by cbn].
  rewrite (visit_each_records nodes _ n t cl depended_by (fun p => (Dependency, k, p)));
    [|intros x; unfold record_of; rewrite Hk; by cbn].
  rewrite (visit_each_records nodes _ n t cl depends_on (fun c => (Dependency, c, k)));
    [|intros x; unfold record_of; rewrite Hk; destruct (nodes !! x); by cbn].
  rewrite !omap_app, !fmap_app, <-!app_assoc. do 4 f_equal.
  apply omap_bind. intros c. unfold links. destruct (nodes !! c) as [child|] eqn:Ec; [|done]. cbn [from_option].
  apply visit_each_records. intros x. unfold record_of. by rewrite Ec.
Qed.

Lemma elem_of_visited nodes k n kd c p : links_ok nodes -> nodes !! k = Some n ->
  (kd, c, p) ∈ visited nodes k n <-> relevant nodes k (kd, c, p) /\ p ∈ links (uplinks kd) nodes c.
Proof.
  intros [Hm _] Hk. assert (Hl : forall f, links f nodes k = f n) by (intros f; unfold links; by rewrite Hk).
  assert (Hdown : forall kd b, b ∈ downlinks kd n <-> k ∈ links (uplinks kd) nodes b).
  { intros kd' b. rewrite <-Hm. by rewrite Hl. }
  unfold visited, relevant. rewrite !elem_of_app, !list_elem_of_fmap, list_elem_of_bind. setoid_rewrite elem_of_elements.
  split.
  - intros [(p' & [= -> -> ->] & Hp)|[(c' & [= -> -> ->] & Hc)|[(p' & [= -> -> ->] & Hp)|[(c' & [= -> -> ->] & Hc)|(c' & Hin & Hc)]]]].
    + split; [by left|]. by rewrite Hl.
    + split; [by right; left|]. by apply (Hdown Parent).
    + split; [by left|]. by rewrite Hl.
    + split; [by right; left|]. by apply (Hdown Dependency).
    + apply list_elem_of_fmap in Hin as (p' & [= -> -> ->] & Hp). apply list_elem_of_filter in Hp as [Hne Hp].
      rewrite elem_of_elements in Hp. split; [|done]. right; right. split; [done|]. by apply (Hdown Parent).
  - intros [Hr Hp]. destruct (decide (c = k)) as [->|Hck].
    { rewrite Hl in Hp. destruct kd; [right; right; left|left]; by exists p. }
    destruct (decide (p = k)) as [->|Hpk].
    { apply Hdown in Hp. destruct kd; [right; right; right; left|right; left]; by exists c. }
    destruct Hr as [|[|[-> Hkc]]]; [done..|]. right; right; right; right. exists c.
    split; [|by apply (Hdown Parent)]. apply list_elem_of_fmap. exists p. split; [done|].
    apply list_elem_of_filter. by rewrite elem_of_elements.
Qed.

Lemma NoDup_visited nodes k n : links_ok nodes -> nodes !! k = Some n -> NoDup (visited nodes k n).
Proof.
  intros [Hm Hi] Hk. assert (Hl : forall f, links f nodes k = f n) by (intros f; unfold links; by rewrite Hk).
  assert (Hup : forall kd, k ∉ uplinks kd n) by (intros kd; rewrite <-Hl; apply Hi).
  assert (Hdown : forall kd, k ∉ downlinks kd n).
  { intros kd H. rewrite <-Hl, Hm in H. by apply Hi in H. }
  unfold visited.
  repeat (apply NoDup_app; split_and!).
  1,3,5,7: apply NoDup_fmap_2; [by intros ? ? [=]|apply NoDup_elements].
  - intros x Hx1 Hx2. apply list_elem_of_fmap in Hx1 as (p & -> & Hp). rewrite elem_of_elements in Hp.
    rewrite !elem_of_app, !list_elem_of_fmap, list_elem_of_bind in Hx2.
    destruct Hx2 as [(c & [= <- ->] & Hc)|[(? & [=] & _)|[(? & [=] & _)|(c & Hin & Hc)]]].
    + by apply (Hup Parent).
    + apply list_elem_of_fmap in Hin as (p' & [= <- <-] & _). rewrite elem_of_elements in Hc. by apply (Hdown Parent).
  - intros x Hx1 Hx2. apply list_elem_of_fmap in Hx1 as (c & -> & Hc).
    rewrite !elem_of_app, !list_elem_of_fmap, list_elem_of_bind in Hx2.
    destruct Hx2 as [(? & [=] & _)|[(? & [=] & _)|(c' & Hin & _)]].
    apply list_elem_of_fmap in Hin as (p' & [= <- <-] & Hp). by apply list_elem_of_filter in Hp as [? _].
  - intros x Hx1 Hx2. apply list_elem_of_fmap in Hx1 as (p & -> & Hp). rewrite elem_of_elements in Hp.
    rewrite !elem_of_app, !list_elem_of_fmap, list_elem_of_bind in Hx2.
    destruct Hx2 as [(c & [= <- ->] & Hc)|(c & Hin & Hc)].
    + by apply (Hup Dependency).
    + by apply list_elem_of_fmap in Hin as (p' & [=] & _).
  - intros x Hx1 Hx2. apply list_elem_of_fmap in Hx1 as (c & -> & _). apply list_elem_of_bind in Hx2 as (c' & Hin & _).
    by apply list_elem_of_fmap in Hin as (p' & [=] & _).
  - apply NoDup_bind.
    + intros c1 c2 x _ _ H1 H2. apply list_elem_of_fmap in H1 as (? & -> & _), H2 as (? & [=] & _). done.
    + intros c _. apply (NoDup_fmap_2_strong (fun p => (Parent, c, p))); [by intros ? ? _ _ [=]|].
      apply NoDup_filter, NoDup_elements.
    + apply NoDup_elements.
Qed.

Lemma visited_relevant nodes k n : links_ok nodes -> nodes !! k = Some n ->
  visited nodes k n ≡ₚ filter (relevant nodes k) (pairs nodes).
Proof.
  intros Hl Hk. apply NoDup_Permutation; [by apply NoDup_visited|apply NoDup_filter, NoDup_pairs|].
  intros [[kd c] p]. rewrite elem_of_visited by done. by rewrite list_elem_of_filter, elem_of_pairs.
Qed.

(** *** An issue that appears or disappears *)

Definition toggled k nodes nodes' : Prop :=
  (exists n n', nodes !! k = Some n /\ nodes' !! k = Some n' /\ my_issue n = None
    /\ core n' = core (with_issue n (my_issue n')))
  /\ forall j, j <> k -> core <$> nodes !! j = core <$> nodes' !! j.

Lemma toggled_links k nodes nodes' j kd : toggled k nodes nodes' ->
  links (uplinks kd) nodes j = links (uplinks kd) nodes' j /\ links (downlinks kd) nodes j = links (downlinks kd) nodes' j.
Proof.
  intros [(n & n' & Hn & Hn' & _ & Hc) Ho]. unfold links. destruct (decide (j = k)) as [->|Hj].
  - rewrite Hn, Hn'. unfold core in Hc. injection Hc as _ _ H1 H2 H3 H4. destruct kd; cbn in *; by rewrite ?H1, ?H2, ?H3, ?H4.
  - specialize (Ho j Hj). destruct (nodes !! j) as [m|], (nodes' !! j) as [m'|]; try done. cbn in Ho.
    unfold core in Ho. injection Ho as _ _ _ H1 H2 H3 H4. destruct kd; cbn in *; by rewrite ?H1, ?H2, ?H3, ?H4.
Qed.

Lemma toggled_links_ok k nodes nodes' : toggled k nodes nodes' -> links_ok nodes <-> links_ok nodes'.
Proof.
  intros H. pose proof (fun kd j => proj1 (toggled_links k nodes nodes' j kd H)) as Hu.
  pose proof (fun kd j => proj2 (toggled_links k nodes nodes' j kd H)) as Hd. unfold links_ok.
  split; intros [H1 H2]; (split; [intros kd a b|intros kd a]).
  - by rewrite <-Hu, <-Hd.
  - by rewrite <-Hu.
  - by rewrite Hu, Hd.
  - by rewrite Hu.
Qed.

Lemma latest_none nodes l k : k ∈ l -> issue_of nodes k = None -> forall start, latest_issue nodes l start = None.
Proof.
  intros Hk Hi. induction l as [|x l IH]; intros start; [by apply elem_of_nil in Hk|]. cbn [latest_issue].
  destruct (issue_of nodes x) eqn:Ex; [|done]. apply IH. apply elem_of_cons in Hk as [->|Hk]; [congruence|done].
Qed.

(** Without an issue, a node has no parenting, nor have its children. *)
Lemma relevant_none k nodes n x : nodes !! k = Some n -> my_issue n = None -> relevant nodes k x -> record_of nodes x = None.
Proof.
  intros Hn Hi. destruct x as [[kd c] p]. unfold relevant, record_of.
  intros [->|[->|[-> Hk]]].
  - rewrite Hn. cbn. destruct (nodes !! p); [|done]. cbn.
    unfold dependency_parenting, parent_parenting. rewrite Hi. by destruct kd.
  - rewrite Hn. destruct (nodes !! c) as [child|]; [|done]. cbn.
    unfold dependency_parenting, parent_parenting. rewrite Hi. by destruct kd, (my_issue child).
  - unfold links in Hk. destruct (nodes !! c) as [child|]; [|done]. cbn in Hk |- *.
    destruct (nodes !! p) as [par|]; [|done]. cbn.
    unfold parent_parenting, all_parents_with_issues_and_get_start_time.
    destruct (my_issue child); [|done]. destruct (my_issue par); [|done].
    rewrite (latest_none _ _ k); [done|by rewrite elem_of_elements|]. unfold issue_of. by rewrite Hn.
Qed.

Lemma omap_filter_split {A B} (P : A -> Prop) `{!forall x, Decision (P x)} (f : A -> option B) (l : list A) :
  omap f l ≡ₚ omap f (filter P l) ++ omap f (filter (fun x => ~ P x) l).
Proof.
  induction l as [|x l IH]; [done|]. rewrite !filter_cons. destruct (decide (P x)) as [Hx|Hx].
  - rewrite decide_False by tauto. cbn. destruct (f x); cbn; by rewrite IH.
  - rewrite decide_True by done. cbn. destruct (f x); cbn; [|done]. rewrite IH. apply Permutation_middle.
Qed.

Lemma omap_none {A B} (f : A -> option B) (l : list A) : (forall x, x ∈ l -> f x = None) -> omap f l = [].
Proof.
  induction l as [|x l IH]; intros H; [done|]. cbn. rewrite H by left. apply IH. intros. apply H. by right.
Qed.

Lemma toggled_relevant k nodes nodes' x : toggled k nodes nodes' -> relevant nodes k x <-> relevant nodes' k x.
Proof.
  intros H. destruct x as [[kd c] p]. unfold relevant. by rewrite (proj1 (toggled_links _ _ _ c Parent H)).
Qed.

(** The parentings of the nodes visited come and go with the issue. *)
Lemma toggled_active k nodes nodes' : toggled k nodes nodes' ->
  active nodes' ≡ₚ active nodes ++ omap (record_of nodes') (filter (relevant nodes' k) (pairs nodes')).
Proof.
  intros H. pose proof H as [(n & n' & Hn & Hn' & Hi & _) Ho]. unfold active.
  rewrite (omap_filter_split (relevant nodes' k) (record_of nodes')), Permutation_app_comm. apply Permutation_app_tail.
  rewrite (omap_filter_split (relevant nodes' k) (record_of nodes) (pairs nodes)).
  rewrite (omap_none (record_of nodes)); cbn [app].
  - rewrite (omap_ext_in (record_of nodes') (record_of nodes)).
    + apply omap_Permutation. apply NoDup_Permutation; [apply NoDup_filter, NoDup_pairs..|].
      intros [[kd c] p]. by rewrite !list_elem_of_filter, !elem_of_pairs, (proj1 (toggled_links _ _ _ c kd H)).
    + intros [[kd c] p] [Hr _]%list_elem_of_filter. symmetry. unfold relevant in Hr.
      apply record_local; [apply Ho; tauto..|]. intros -> j Hj. apply Ho. intros ->. apply Hr. right; right.
      by rewrite <-(proj1 (toggled_links _ _ _ c Parent H)).
  - intros x [Hr _]%list_elem_of_filter. apply (relevant_none k nodes n); [done..|]. by apply (toggled_relevant _ _ _ x H).
Qed.

(** *** Events and the parentings they open and close *)

Lemma opened_app l l' : opened (l ++ l') = opened l ++ opened l'.
Proof. unfold opened, parents_in. by rewrite omap_app, filter_app. Qed.

Lemma closed_app l l' : closed (l ++ l') = closed l ++ closed l'.
Proof. unfold closed, parents_in. by rewrite omap_app, filter_app, fmap_app. Qed.

Lemma record_not_ended nodes x ip : record_of nodes x = Some ip -> ip_end_time ip = -1.
Proof.
  destruct x as [[kd c] p]. unfold record_of. destruct (nodes !! c) as [n|]; [|done].
  destruct (nodes !! p) as [m|]; [|done]. cbn. unfold dependency_parenting, parent_parenting.
  destruct (my_issue n) as [ci|], (my_issue m) as [pi|]; try (by destruct kd). destruct kd; [by intros [= <-]|].
  destruct (all_parents_with_issues_and_get_start_time _ _ _); cbn; by intros [= <-].
Qed.

Lemma parents_in_fmap (f : issue_parent -> issue_parent) l : parents_in ((fun ip => Ev_parent (f ip)) <$> l) = f <$> l.
Proof.
  unfold parents_in. induction l as [|ip l IH]; [done|]. rewrite !fmap_cons. cbn [omap list_omap]. f_equal. apply IH.
Qed.

Lemma records_not_ended nodes (l : list pair) : Forall (fun ip => ip_end_time ip = -1) (omap (record_of nodes) l).
Proof.
  apply Forall_forall. intros ip (x & _ & Hx)%list_elem_of_omap. by apply record_not_ended in Hx.
Qed.

Lemma filter_all {A} (P : A -> Prop) `{!forall x, Decision (P x)} (l : list A) : Forall P l -> filter P l = l.
Proof. induction 1; [done|]. rewrite filter_cons, decide_True by done. congruence. Qed.

Lemma filter_none {A} (P : A -> Prop) `{!forall x, Decision (P x)} (l : list A) : Forall (fun x => ~ P x) l -> filter P l = [].
Proof. induction 1; [done|]. by rewrite filter_cons, decide_False. Qed.

Lemma visits_opened nodes (l : list pair) t :
  opened ((fun ip => Ev_parent (ended false t ip)) <$> omap (record_of nodes) l) = omap (record_of nodes) l
  /\ closed ((fun ip => Ev_parent (ended false t ip)) <$> omap (record_of nodes) l) = [].
Proof.
  unfold opened, closed. rewrite (parents_in_fmap (ended false t)). unfold ended. rewrite list_fmap_id.
  pose proof (records_not_ended nodes l) as H. split; [by apply filter_all|].
  rewrite filter_none; [done|]. apply (Forall_impl _ _ _ H). intros ip Hip Hne. by apply Hne.
Qed.

Lemma visits_closed nodes (l : list pair) t : t <> -1 ->
  closed ((fun ip => Ev_parent (ended true t ip)) <$> omap (record_of nodes) l) = omap (record_of nodes) l
  /\ opened ((fun ip => Ev_parent (ended true t ip)) <$> omap (record_of nodes) l) = [].
Proof.
  intros Ht. unfold opened, closed. rewrite (parents_in_fmap (ended true t)).
  pose proof (records_not_ended nodes l) as H. split.
  - rewrite filter_all; [|apply Forall_fmap, Forall_true; intros ip; by cbn].
    rewrite <-list_fmap_compose. induction H as [|ip ips Hip H IH]; [done|]. rewrite fmap_cons, IH. f_equal.
    destruct ip. cbn in *. by subst.
  - apply filter_none, Forall_fmap, Forall_true. intros ip. by cbn.
Qed.

Lemma no_parents l : (forall e, e ∈ l -> match e with Ev_parent _ => False | _ => True end) -> opened l = [] /\ closed l = [].
Proof.
  intros H. assert (parents_in l = []) as E.
  { apply omap_none. intros e He. specialize (H e He). by destruct e. }
  unfold opened, closed. by rewrite E.
Qed.

(** The events of a write turn the parentings of before into those of after. *)
Definition balanced nodes nodes' (evs : list event) : Prop :=
  active nodes' ++ closed evs ≡ₚ active nodes ++ opened evs.

Lemma alike_balanced nodes nodes' evs : alike nodes nodes' ->
  (forall e, e ∈ evs -> match e with Ev_parent _ => False | _ => True end) -> balanced nodes nodes' evs.
Proof.
  intros H He. unfold balanced. destruct (no_parents evs He) as [-> ->]. by rewrite (alike_active nodes nodes').
Qed.

Lemma generate_no_parents stream n t s dt n' evs e :
  _generate_state_event stream n t s dt = (n', evs) -> e ∈ evs -> match e with Ev_parent _ => False | _ => True end.
Proof.
  intros (_ & _ & _ & _ & _ & _ & _ & _ & _ & _ & _ & _ & ->)%generate_spec He. destruct stream; [|by apply elem_of_nil in He].
  by repeat (apply elem_of_cons in He as [->|He]; [done|]); apply elem_of_nil in He.
Qed.

Lemma generate_core stream n t s dt n' evs : _generate_state_event stream n t s dt = (n', evs) -> core n' = core n.
Proof. intros (H1 & _ & H3 & H4 & H5 & H6 & H7 & _)%generate_spec. unfold core. by rewrite H1, H3, H4, H5, H6, H7. Qed.

Lemma toggled_visits k nodes nodes' n : toggled k nodes nodes' -> links_ok nodes' -> nodes' !! k = Some n ->
  omap (record_of nodes') (visited nodes' k n) ++ active nodes ≡ₚ active nodes'.
Proof.
  intros H Hl Hn. rewrite (toggled_active k nodes nodes' H), Permutation_app_comm. apply Permutation_app_head.
  by apply omap_Permutation, visited_relevant.
Qed.

Lemma alike_links_iff nodes nodes' : alike nodes nodes' -> links_ok nodes <-> links_ok nodes'.
Proof. intros H. split; apply alike_links_ok; [done|]. intros j. by rewrite (H j). Qed.

Lemma issue_event i l : opened (Ev_issue i :: l) = opened l /\ closed (Ev_issue i :: l) = closed l.
Proof. done. Qed.

Lemma core_with_issue n n' i : core n' = core n -> core (with_issue n' i) = core (with_issue n i).
Proof. unfold core. intros [= H1 H2 H3 H4 H5 H6 H7]. cbn. unfold get_id in *. cbn in *. congruence. Qed.

Lemma manage_status_balanced nodes k s t nodes' evs : links_ok nodes -> nodes_ok nodes -> t <> -1 ->
  manage_status true nodes k s t = Some (nodes', evs) -> links_ok nodes' /\ balanced nodes nodes' evs.
Proof.
  intros Hl Hok Ht. unfold manage_status.
  assert (Hsame : links_ok nodes /\ balanced nodes nodes []).
  { split; [done|]. apply alike_balanced; [by intros j|]. intros e He. by apply elem_of_nil in He. }
  destruct (nodes !! k) as [n|] eqn:Ek; [|by intros [= <- <-]].
  destruct (Z.eqb_spec (current_state (node_state n)) s) as [Es|Es]; [by intros [= <- <-]|].
  fold (acknowledged_for s n). set (n0 := acknowledged_for s n).
  assert (Hn0 : core n0 = core n /\ node_state n0 = node_state n /\ my_issue n0 = my_issue n).
  { unfold n0. by destruct (acknowledged_for_cases s n) as [->| ->]. }
  destruct Hn0 as (Hc0 & Est & Ei0).
  destruct (_generate_state_event true n0 t s (in_downtime (node_state n0))) as [n1 sevs] eqn:Eg.
  destruct (no_parents sevs (fun e => generate_no_parents _ _ _ _ _ _ _ e Eg)) as [So Sc].
  assert (Hi1 : my_issue n1 = my_issue n) by (destruct (generate_spec _ _ _ _ _ _ _ Eg) as [-> _]; done).
  apply generate_core in Eg. rewrite Hc0 in Eg.
  destruct (Z.eqb_spec (current_state (node_state n)) 0) as [E0|E0]; cbn [negb andb].
  - destruct (Z.eqb_spec s 0) as [->|Hs]; [congruence|]. cbn [negb]. intros [= <- <-].
    set (i := Issue _ _ _ _ _). set (nodes1 := <[k:=with_issue n1 (Some i)]> nodes).
    assert (Htog : toggled k nodes nodes1).
    { split; [|intros j Hj; unfold nodes1; by rewrite lookup_insert_ne by congruence].
      exists n, (with_issue n1 (Some i)). split; [done|]. split; [by apply lookup_insert_eq|].
      split; [by apply (ok_issue _ _ (Hok k n Ek))|]. by apply core_with_issue. }
    assert (Hl1 : links_ok nodes1) by by apply (toggled_links_ok k nodes).
    split; [done|]. rewrite (visits_records nodes1 k _ t false) by apply lookup_insert_eq.
    unfold balanced. rewrite !closed_app, !opened_app, So, Sc.
    rewrite (fun l => proj1 (issue_event i l)), (fun l => proj2 (issue_event i l)).
    destruct (visits_opened nodes1 (visited nodes1 k (with_issue n1 (Some i))) t) as [-> ->].
    cbn [app]. rewrite app_nil_r, Permutation_app_comm.
    symmetry. apply toggled_visits; [done..|]. apply lookup_insert_eq.
  - destruct (Z.eqb_spec s 0) as [->|Hs]; cbn [negb].
    + rewrite Hi1. destruct (my_issue n) as [i|] eqn:Ei; [|done]. rewrite insert_insert_eq. intros [= <- <-].
      set (i' := Issue _ _ _ _ _). set (nodes1 := <[k:=with_issue n1 (Some i')]> nodes).
      set (nodes2 := <[k:=with_issue n1 None]> nodes).
      assert (Ha : alike nodes nodes1).
      { apply (alike_insert _ _ n); [done|]. rewrite <-Eg. unfold core. by rewrite Hi1. }
      assert (Htog : toggled k nodes2 nodes1).
      { split; [|intros j Hj; unfold nodes1, nodes2; by rewrite !lookup_insert_ne by congruence].
        exists (with_issue n1 None), (with_issue n1 (Some i')). repeat (split; [by apply lookup_insert_eq|]). by split. }
      assert (Hl1 : links_ok nodes1) by by apply (alike_links_iff nodes).
      split; [by apply (toggled_links_ok k nodes2 nodes1)|].
      rewrite (app_assoc (_visit_linked_nodes _ _ _ _ _)), (visits_records nodes1 k _ t true) by apply lookup_insert_eq.
      unfold balanced. rewrite !closed_app, !opened_app, So, Sc.
      destruct (visits_closed nodes1 (visited nodes1 k (with_issue n1 (Some i'))) t Ht) as [-> ->].
      cbn [app closed opened parents_in omap list_omap]. rewrite !app_nil_r, Permutation_app_comm.
      rewrite (alike_active nodes nodes1) by done. apply toggled_visits; [done..|]. apply lookup_insert_eq.
    + intros [= <- <-]. assert (Ha : alike nodes (<[k:=n1]> nodes)) by by apply (alike_insert _ _ n).
      split; [by apply (alike_links_iff nodes)|]. unfold balanced. rewrite So, Sc. by rewrite (alike_active _ _ Ha).
Qed.

Lemma on_node_balanced nodes k f :
  (forall n, core (fst (f n)) = core n) ->
  (forall n e, e ∈ snd (f n) -> match e with Ev_parent _ => False | _ => True end) ->
  alike nodes (fst (on_node nodes k f)) /\ balanced nodes (fst (on_node nodes k f)) (snd (on_node nodes k f)).
Proof.
  intros Hc He. assert (alike nodes (fst (on_node nodes k f))) as Ha.
  { unfold on_node. destruct (nodes !! k) as [n|] eqn:E; [|by intros j]. specialize (Hc n). destruct (f n).
    by apply (alike_insert _ _ n). }
  split; [done|]. apply alike_balanced; [done|]. unfold on_node.
  destruct (nodes !! k) as [n|]; [|intros e H; by apply elem_of_nil in H]. specialize (He n). by destruct (f n).
Qed.

Lemma manage_ack_core stream n a : core (fst (manage_ack stream n a)) = core n.
Proof.
  unfold manage_ack. case_if; [|done]. change (my_issue (with_ack n (Some a))) with (my_issue n).
  destruct (my_issue n) as [i|] eqn:E; unfold core; cbn; by rewrite E.
Qed.

Lemma manage_downtime_core stream n d : core (fst (manage_downtime stream n d)) = core n.
Proof.
  unfold manage_downtime. repeat case_if; try done;
    match goal with |- context [_generate_state_event ?a ?b ?c ?d ?e] =>
      destruct (_generate_state_event a b c d e) eqn:Eg end; by apply generate_core in Eg.
Qed.

Lemma manage_ack_no_parents stream n a e : e ∈ snd (manage_ack stream n a) -> match e with Ev_parent _ => False | _ => True end.
Proof.
  unfold manage_ack. case_if; [|by intros H%elem_of_nil]. change (my_issue (with_ack n (Some a))) with (my_issue n).
  destruct (my_issue n), stream; cbn; intros H;
    by repeat (apply elem_of_cons in H as [->|H]; [done|]); apply elem_of_nil in H.
Qed.

Lemma manage_downtime_no_parents stream n d e :
  e ∈ snd (manage_downtime stream n d) -> match e with Ev_parent _ => False | _ => True end.
Proof.
  unfold manage_downtime. repeat case_if; try (by intros H%elem_of_nil);
    match goal with |- context [_generate_state_event ?a ?b ?c ?d ?e] =>
      destruct (_generate_state_event a b c d e) eqn:Eg end; exact (generate_no_parents _ _ _ _ _ _ _ e Eg).
Qed.

(** Whether the state change of a status has a time. *)
Definition timed (d : message) : bool :=
  match d with Host_status _ _ t | Service_status _ _ _ t => negb (is_null t) | _ => true end.

Lemma write_balanced nodes d nodes' evs : links_ok nodes -> nodes_ok nodes -> timed d = true ->
  write true nodes d = Some (nodes', evs) -> links_ok nodes' /\ balanced nodes nodes' evs.
Proof.
  intros Hl Hok Ht.
  assert (Hn : forall t, negb (is_null t) = true -> t <> -1) by (intros t H ->; by vm_compute in H).
  assert (Hq : forall evs, (forall e, e ∈ evs -> match e with Ev_parent _ => False | _ => True end) ->
    links_ok nodes /\ balanced nodes nodes evs).
  { intros l H. split; [done|]. by apply alike_balanced; [intros j|]. }
  destruct d as [h s t|h sv s t|h|h sv|a|dn|h sv t|]; cbn [write timed] in *.
  - apply manage_status_balanced; auto.
  - apply manage_status_balanced; auto.
  - intros [= <- <-]. apply Hq. unfold redeclared. intros e He. destruct (nodes !! _); [|by apply elem_of_nil in He].
    by apply list_elem_of_singleton in He as ->.
  - intros [= <- <-]. apply Hq. unfold redeclared. intros e He. destruct (nodes !! _); [|by apply elem_of_nil in He].
    by apply list_elem_of_singleton in He as ->.
  - destruct (on_node_balanced nodes (a_host_id a, a_service_id a) (fun n => manage_ack true n a)) as [Ha Hb];
      [intros; apply manage_ack_core|intros n e; apply manage_ack_no_parents|].
    destruct (on_node _ _ _). intros [= <- <-]. split; [by apply (alike_links_iff nodes)|done].
  - destruct (on_node_balanced nodes (d_host_id dn, d_service_id dn) (fun n => manage_downtime true n dn)) as [Ha Hb];
      [intros; apply manage_downtime_core|intros n e; apply manage_downtime_no_parents|].
    destruct (on_node _ _ _). intros [= <- <-]. split; [by apply (alike_links_iff nodes)|done].
  - intros [= <- <-]. apply Hq. intros e He. destruct (nodes !! _) as [n|]; [|by apply elem_of_nil in He].
    unfold manage_log in He. destruct (my_issue n); [|by apply elem_of_nil in He].
    by apply list_elem_of_singleton in He as ->.
  - intros [= <- <-]. apply Hq. intros e He. by apply elem_of_nil in He.
Qed.

Lemma balanced_trans nodes1 nodes2 nodes3 evs1 evs2 :
  balanced nodes1 nodes2 evs1 -> balanced nodes2 nodes3 evs2 -> balanced nodes1 nodes3 (evs1 ++ evs2).
Proof.
  unfold balanced. intros H1 H2. rewrite closed_app, opened_app.
  rewrite (Permutation_app_comm (closed evs1)), app_assoc, H2, <-app_assoc, (Permutation_app_comm (opened evs2)), app_assoc, H1.
  by rewrite app_assoc.
Qed.

(** C34. When statuses have times, every parenting the stream opens it closes once, when the child or one
    of its parents gets better, and it reports all that hold in between:
    whatever statuses, acknowledgements, downtimes and logs come, the
    parentings that hold at the end and those closed are those that held at the
    start and those opened, each as many times. *)
Theorem parentings_balanced nodes ds :
  nodes_ok nodes -> links_ok nodes -> forallb timed ds = true ->
  exists nodes' evs, write_all true nodes ds = Some (nodes', evs)
    /\ active nodes' ++ closed evs ≡ₚ active nodes ++ opened evs.
Proof.
  intros Hok Hl Ht.
  enough (exists nodes' evs, write_all true nodes ds = Some (nodes', evs) /\ balanced nodes nodes' evs) by done.
  revert nodes Hok Hl. induction ds as [|d ds IH]; intros nodes Hok Hl; cbn [write_all forallb] in *.
  { eexists _, _. split; [done|]. apply alike_balanced; [by intros j|]. intros e He. by apply elem_of_nil in He. }
  apply andb_prop in Ht as [Ht Hts]. destruct (write_ok true nodes d Hok) as (nodes1 & evs1 & E1 & Hok1).
  rewrite E1. cbn [mbind option_bind]. apply write_balanced in E1 as [Hl1 Hb1]; [|done..].
  destruct (IH Hts nodes1 Hok1 Hl1) as (nodes2 & evs2 & -> & Hb2). cbn [mbind option_bind].
  eexists _, _. split; [done|]. by apply (balanced_trans _ nodes1).
Qed.

(** ** The history of a node

    What a reader of the state events of a node knows: its open period, or
    that the last one ended at [t]. *)
Inductive period : Type := Open (s : state) | Closed (t : Z).

#[global] Instance state_eq_dec : EqDecision state.
Proof. solve_decision. Defined.

(** None: a record that is not the next one. The record of the open period may be
    written again, with another time of acknowledgement or its end, everything else
    being as it was opened; the next period starts at the end of the last one. *)
Definition next_period (p : period) (x : state) : option period :=
  match p with
  | Open s =>
    if is_null (end_time x) then (if bool_decide (x = set_ack_time s (ack_time x)) then Some (Open x) else None)
    else if bool_decide (x = set_end_time s (end_time x)) then Some (Closed (end_time x)) else None
  | Closed t => if is_null (end_time x) && (start_time x =? t) then Some (Open x) else None
  end.

(** A period does not end before it starts. *)
Definition forward (x : state) : Prop := is_null (end_time x) = true \/ start_time x <= end_time x.

(** The time at which a message may change the state of its node. *)
Definition change_time (d : message) : option (key * Z) :=
  match d with
  | Host_status h _ t => Some ((h, 0), t)
  | Service_status h sv _ t => Some ((h, sv), t)
  | Dwn d =>
    if is_null (actual_start_time d) then None
    else Some ((d_host_id d, d_service_id d), if is_null (actual_end_time d) then actual_start_time d else actual_end_time d)
  | _ => None
  end.
Definition time_at k (d : message) : option Z :=
  '(j, t) ← change_time d; if decide (j = k) then Some t else None.

(** The times that come for a node do not go back, from the start of its state. *)
Definition in_order nodes (ds : list message) : Prop :=
  forall k n, nodes !! k = Some n -> StronglySorted Z.le (start_time (node_state n) :: omap (time_at k) ds).

Definition states_in (evs : list event) : list state :=
  omap (fun e => match e with Ev_state s => Some s | _ => None end) evs.

Fixpoint replay k (p : period) (l : list state) : option period :=
  match l with
  | [] => Some p
  | x :: l => if bool_decide ((host_id x, service_id x) = k) then p ← next_period p x; replay k p l else replay k p l
  end.

Definition history k (p : period) (evs : list event) : option period := replay k p (states_in evs).

Lemma states_in_app l l' : states_in (l ++ l') = states_in l ++ states_in l'.
Proof. apply omap_app. Qed.

Lemma replay_app k p l l' : replay k p (l ++ l') = p ← replay k p l; replay k p l'.
Proof.
  revert p. induction l as [|x l IH]; intros p; [done|]. cbn [replay app]. case_bool_decide; [|apply IH].
  destruct (next_period p x); cbn; [apply IH|done].
Qed.

Lemma replay_other k p l : (forall x, x ∈ l -> (host_id x, service_id x) <> k) -> replay k p l = Some p.
Proof.
  induction l as [|x l IH]; intros H; [done|]. cbn [replay]. rewrite bool_decide_eq_false_2 by (apply H; left).
  apply IH. intros. apply H. by right.
Qed.

Lemma visit_each_states stream nodes l n t cl ty : states_in (visit_each stream nodes l n t cl ty) = [].
Proof.
  apply omap_none. intros e (x & He & _)%list_elem_of_bind. destruct (nodes !! x); [|by apply elem_of_nil in He].
  unfold linked_node_updated in He. destruct (match ty with parent => _ | _ => _ end), stream;
    [|by apply elem_of_nil in He..]. by apply list_elem_of_singleton in He as ->.
Qed.

Lemma visits_states stream nodes k n t cl :
  states_in (_visit_linked_nodes stream nodes n t cl) = [] /\ states_in (_visit_parent_of_child_nodes stream nodes k n t cl) = [].
Proof.
  unfold _visit_linked_nodes, _visit_parent_of_child_nodes. rewrite !states_in_app, !visit_each_states. split; [done|].
  induction (elements (_children n)) as [|c l IH]; [done|]. rewrite bind_cons, states_in_app, IH.
  destruct (nodes !! c); [by rewrite visit_each_states|done].
Qed.

(** The writes of a node's states: its key, the time that came if any, the state
    before and after. *)
Record continues k (t : option Z) (s s' : state) (evs : list event) : Prop := Continues {
  co_key : forall x, x ∈ states_in evs -> (host_id x, service_id x) = k;
  co_history : history k (Open s) evs = Some (Open s');
  co_start : start_time s' = start_time s \/ t = Some (start_time s');
  co_forward : (forall u, t = Some u -> start_time s <= u) -> Forall forward (states_in evs)
}.

Lemma continues_none k t s evs : states_in evs = [] -> continues k t s s evs.
Proof.
  intros H. split; unfold history; rewrite ?H; [|done|by left|constructor]. intros x Hx. by apply elem_of_nil in Hx.
Qed.

(** The open record written again. *)
Lemma continues_again k t s s' : (host_id s, service_id s) = k -> end_time s = -1 -> s' = set_ack_time s (ack_time s') ->
  continues k t s s' [Ev_state s'].
Proof.
  intros Hk He Hs.
  assert (E : end_time s' = -1 /\ start_time s' = start_time s /\ (host_id s', service_id s') = k) by (rewrite Hs; done).
  destruct E as (E1 & E2 & E3). split.
  - intros x Hx. cbn in Hx. by apply list_elem_of_singleton in Hx as ->.
  - unfold history. cbn [states_in omap list_omap replay]. rewrite bool_decide_eq_true_2 by done.
    cbn [next_period]. rewrite E1. cbn [is_null Z.eqb Pos.eqb]. by rewrite bool_decide_eq_true_2 by done.
  - by left.
  - intros _. constructor; [|constructor]. left. by rewrite E1.
Qed.

Lemma continues_app k t s s' evs l : states_in l = [] -> continues k t s s' evs -> continues k t s s' (evs ++ l).
Proof. intros Hl [H1 H2 H3 H4]. split; unfold history in *; by rewrite ?states_in_app, ?Hl, ?app_nil_r. Qed.

Lemma continues_prefix k t s s' evs l : states_in l = [] -> continues k t s s' evs -> continues k t s s' (l ++ evs).
Proof. intros Hl [H1 H2 H3 H4]. split; unfold history in *; by rewrite ?states_in_app, ?Hl. Qed.

Lemma generate_continues k n t s dt n' evs : get_id n = k -> is_null t = false ->
  _generate_state_event true n t s dt = (n', evs) -> continues k (Some t) (node_state n) (node_state n') evs.
Proof.
  intros Hk Ht (_ & _ & _ & _ & _ & _ & Eid & _ & _ & Est & Eend & _ & ->)%generate_spec.
  rewrite Hk in Eid. unfold get_id in *. split.
  - intros x Hx. cbn in Hx. by repeat (apply elem_of_cons in Hx as [->|Hx]; [done|]); apply elem_of_nil in Hx.
  - unfold history. cbn [states_in omap list_omap replay]. rewrite !(bool_decide_eq_true_2 (_ = k)) by done.
    cbn [next_period set_end_time end_time]. rewrite Ht, bool_decide_eq_true_2 by done.
    cbn [mbind option_bind next_period]. rewrite Est, Eend. by rewrite Z.eqb_refl.
  - right. by rewrite Est.
  - intros Hu. constructor; [|constructor; [|constructor]].
    + right. cbn. by apply Hu.
    + left. by rewrite Eend.
Qed.

Lemma manage_status_continues nodes k s t nodes' evs : nodes_ok nodes -> is_null t = false ->
  manage_status true nodes k s t = Some (nodes', evs) ->
  (nodes !! k = None /\ nodes' = nodes /\ evs = [])
  \/ exists n n', nodes !! k = Some n /\ nodes' = <[k:=n']> nodes /\ continues k (Some t) (node_state n) (node_state n') evs.
Proof.
  intros Hok Ht. unfold manage_status. destruct (nodes !! k) as [n|] eqn:Ek; [|intros [= <- <-]; by left].
  intros E. right. exists n. pose proof (ok_id _ _ (Hok k n Ek)) as Hk.
  destruct (Z.eqb_spec (current_state (node_state n)) s) as [Es|Es].
  { injection E as <- <-. exists n. rewrite insert_id by done. do 2 (split; [done|]). by apply continues_none. }
  fold (acknowledged_for s n) in E. set (n0 := acknowledged_for s n) in E.
  assert (Hn0 : node_state n0 = node_state n) by (unfold n0; by destruct (acknowledged_for_cases s n) as [->| ->]).
  destruct (_generate_state_event true n0 t s (in_downtime (node_state n0))) as [n1 sevs] eqn:Eg.
  apply (generate_continues k) in Eg; [|unfold get_id; by rewrite Hn0|done]. rewrite Hn0 in Eg.
  destruct (Z.eqb_spec (current_state (node_state n)) 0) as [E0|E0], (Z.eqb_spec s 0) as [Hs|Hs]; cbn [negb andb] in E;
    [congruence|injection E as <- <-| |injection E as <- <-; by exists n1].
  - eexists. split; [done|]. split; [done|]. apply continues_app; [|done].
    change (Ev_issue ?i :: ?l) with ([Ev_issue i] ++ l).
    rewrite !states_in_app. by destruct (visits_states true (<[k:=with_issue n1 (Some (Issue
       (match _acknowledgement n1 with Some _ => t | None => -1 end) (-1) (host_id (node_state n1))
       (service_id (node_state n1)) t))]> nodes) k (with_issue n1 (Some (Issue
       (match _acknowledgement n1 with Some _ => t | None => -1 end) (-1) (host_id (node_state n1))
       (service_id (node_state n1)) t))) t false) as [-> ->].
  - destruct (my_issue n1) as [i|]; [|done]. rewrite insert_insert_eq in E. injection E as <- <-.
    eexists. split; [done|]. split; [done|]. apply continues_app; [|done]. rewrite !states_in_app.
    by rewrite (proj1 (visits_states _ _ k _ _ _)), (proj2 (visits_states _ _ k _ _ _)).
Qed.

Lemma manage_ack_continues k n a : get_id n = k -> end_time (node_state n) = -1 ->
  continues k None (node_state n) (node_state (fst (manage_ack true n a))) (snd (manage_ack true n a)).
Proof.
  intros Hk He. unfold manage_ack. case_if; [|by apply continues_none].
  change (my_issue (with_ack n (Some a))) with (my_issue n).
  assert (continues k None (node_state n) (set_ack_time (node_state n) (a_entry_time a)) [Ev_state (set_ack_time (node_state n) (a_entry_time a))])
    by by apply continues_again.
  destruct (my_issue n); [|done]. by apply (continues_prefix _ _ _ _ _ [Ev_issue _]).
Qed.

Lemma manage_downtime_continues k n d : get_id n = k -> (d_host_id d, d_service_id d) = k ->
  continues k (time_at k (Dwn d)) (node_state n) (node_state (fst (manage_downtime true n d))) (snd (manage_downtime true n d)).
Proof.
  intros Hk Hd. unfold manage_downtime, time_at. cbn [change_time].
  destruct (is_null (actual_start_time d)) eqn:Hs; cbn [negb]; [by apply continues_none|].
  cbn [mbind option_bind]. rewrite decide_True by done.
  destruct (is_null (actual_end_time d)) eqn:He; cbn [negb];
    (case_if; [match goal with |- context [_generate_state_event ?a ?b ?c ?d ?e] =>
      destruct (_generate_state_event a b c d e) eqn:Eg end; by apply (generate_continues k) in Eg|by apply continues_none]).
Qed.

(** What a write does to the states: those of one node go on. *)
Definition goes_on nodes (d : message) nodes' evs : Prop :=
  (nodes' = nodes /\ states_in evs = [])
  \/ exists k n n', nodes !! k = Some n /\ nodes' = <[k:=n']> nodes /\ continues k (time_at k d) (node_state n) (node_state n') evs.

Lemma write_continues nodes d nodes' evs : nodes_ok nodes -> timed d = true -> write true nodes d = Some (nodes', evs) ->
  goes_on nodes d nodes' evs.
Proof.
  intros Hok Ht.
  assert (Hstatus : forall k s t, time_at k d = Some t -> negb (is_null t) = true ->
    manage_status true nodes k s t = Some (nodes', evs) -> goes_on nodes d nodes' evs).
  { intros k s t Hd Hn%negb_true_iff [(_ & -> & ->)|(n & n' & H)]%manage_status_continues; [by left| |done..].
    right. exists k, n, n'. by rewrite Hd. }
  assert (Hre : forall k, Some (nodes, redeclared true nodes k) = Some (nodes', evs) -> goes_on nodes d nodes' evs).
  { intros k [= <- <-]. unfold redeclared. destruct (nodes !! k) as [n|] eqn:Ek; [|by left]. right. exists k, n, n.
    rewrite insert_id by done. do 2 (split; [done|]). destruct (Hok k n Ek) as [Hk He _ _ _ _ _].
    apply continues_again; [done|done|by destruct (node_state n)]. }
  assert (Hnode : forall k f, (forall n, nodes !! k = Some n ->
      continues k (time_at k d) (node_state n) (node_state (fst (f n))) (snd (f n))) ->
    Some (on_node nodes k f) = Some (nodes', evs) -> goes_on nodes d nodes' evs).
  { intros k f Hf [= E]. unfold on_node in E. destruct (nodes !! k) as [n|] eqn:Ek; [|injection E as <- <-; by left].
    right. specialize (Hf n eq_refl). destruct (f n) as [n' l]. injection E as <- <-. by exists k, n, n'. }
  assert (Hat : forall k t, change_time d = Some (k, t) -> time_at k d = Some t).
  { intros k t E. unfold time_at. rewrite E. cbn. by rewrite decide_True. }
  destruct d as [h s t|h sv s t|h|h sv|a|dn|h sv t|]; cbn [write timed] in *; eauto.
  - apply Hnode. intros n Hn. destruct (Hok _ _ Hn). by apply manage_ack_continues.
  - apply Hnode. intros n Hn. destruct (Hok _ _ Hn). by apply manage_downtime_continues.
  - intros [= <- <-]. left. split; [done|]. destruct (nodes !! _) as [n|]; [|done]. unfold manage_log. by destruct (my_issue n).
  - intros [= <- <-]. by left.
Qed.

(** What is left of the times is in order too, and the periods go forward. *)
Lemma goes_on_in_order nodes d ds nodes' evs : goes_on nodes d nodes' evs -> in_order nodes (d :: ds) ->
  in_order nodes' ds /\ Forall forward (states_in evs).
Proof.
  assert (Hcons : forall k, omap (time_at k) (d :: ds) = match time_at k d with Some t => t :: omap (time_at k) ds | None => omap (time_at k) ds end)
    by done.
  assert (Hless : forall k s, StronglySorted Z.le (s :: omap (time_at k) (d :: ds)) ->
    StronglySorted Z.le (s :: omap (time_at k) ds) /\ forall t, time_at k d = Some t ->
      s <= t /\ StronglySorted Z.le (t :: omap (time_at k) ds)).
  { intros k s. rewrite Hcons. destruct (time_at k d) as [t|]; [|by intros H].
    intros [H1 H2]%StronglySorted_inv. apply Forall_cons in H2 as [H2 H3]. split.
    - constructor; [by destruct (StronglySorted_inv H1)|done].
    - intros ? [= <-]. done. }
  intros [[-> Hn]|(k & n & n' & Hk & -> & [_ _ Hs Hf])] Ho.
  { rewrite Hn. split; [|constructor]. intros j m Hm. by apply (Hless j), Ho. }
  destruct (Hless k _ (Ho k n Hk)) as [H1 H2]. split.
  - intros j m [[<- <-]|[Hne Hm]]%lookup_insert_Some; [|by apply (Hless j), Ho].
    destruct Hs as [->|Ht]; [exact H1|exact (proj2 (H2 _ Ht))].
  - apply Hf. intros u Hu. exact (proj1 (H2 _ Hu)).
Qed.

(** C35. The states written for a node form its history, when statuses have times:
    each record says the open period again, with a time of acknowledgement or its
    end and everything else as it was opened, or opens a period where the last one
    ended, and the period left open is the state of the node. When the times that
    come for each node do not go back, no period ends before it starts, so that
    periods do not overlap. *)
Theorem history_gapless nodes ds :
  nodes_ok nodes -> forallb timed ds = true ->
  exists nodes' evs, write_all true nodes ds = Some (nodes', evs)
    /\ (forall k n, nodes !! k = Some n ->
       exists n', nodes' !! k = Some n' /\ history k (Open (node_state n)) evs = Some (Open (node_state n')))
    /\ (in_order nodes ds -> Forall forward (states_in evs)).
Proof.
  revert nodes. induction ds as [|d ds IH]; intros nodes Hok Ht; cbn [write_all forallb] in *.
  { eexists _, _. split; [done|]. split; [intros k n Hn; by exists n|]. intros _. constructor. }
  apply andb_prop in Ht as [Ht Hts]. destruct (write_ok true nodes d Hok) as (nodes1 & evs1 & E1 & Hok1).
  rewrite E1. cbn [mbind option_bind]. destruct (IH nodes1 Hok1 Hts) as (nodes2 & evs2 & -> & H2 & H3). cbn [mbind option_bind].
  pose proof (write_continues nodes d nodes1 evs1 Hok Ht E1) as Hg.
  eexists _, _. split; [done|]. split.
  - intros k n Hn. unfold history in *. rewrite states_in_app, replay_app.
    destruct Hg as [[-> ->]|(j & m & m' & Hm & -> & [Hj H1 _ _])]; [by apply H2|].
    unfold history in H1. destruct (decide (j = k)) as [<-|Hne].
    + rewrite Hm in Hn. injection Hn as ->. rewrite H1. cbn. apply H2, lookup_insert_eq.
    + rewrite replay_other by (intros x Hx; by rewrite (Hj x Hx)). cbn. apply H2. by rewrite lookup_insert_ne.
  - intros Ho. rewrite states_in_app. destruct (goes_on_in_order _ _ _ _ _ Hg Ho) as [Ho1 Hf].
    apply Forall_app. split; [done|]. by apply H3.
Qed.

(** ** Restarts *)

(** What a node is after it was saved and loaded again: it has its issue, its
    state and its downtimes, and the time of its acknowledgement is that of the
    entry of the acknowledgement. *)
Definition reloaded n : node :=
  match _acknowledgement n with
  | Some a =>
    with_state
      (with_issue n ((fun i => Issue (a_entry_time a) (i_end_time i) (i_host_id i) (i_service_id i) (i_start_time i)) <$> my_issue n))
      (set_ack_time (node_state n) (a_entry_time a))
  | None => n
  end.

(** A node that has the links of [n], and nothing else that [n] has not. *)
Record restores (m n : node) : Prop := Restores {
  restores_links : _children m = _children n
    /\ _depended_by m = _depended_by n /\ _depends_on m = _depends_on n /\ _parents m = _parents n;
  restores_issue : my_issue m = None \/ my_issue m = my_issue n;
  restores_ack : _acknowledgement m = None \/ _acknowledgement m = _acknowledgement n;
  restores_downtimes : downtimes m = ∅ \/ downtimes m = downtimes n
}.

Lemma inserts_union {V} (l : list (Z * V)) (m : gmap Z V) : NoDup l.*1 ->
  fold_left (fun m p => <[fst p := snd p]> m) l m = list_to_map l ∪ m.
Proof.
  revert m. induction l as [|[i x] l IH]; intros m H; cbn [fold_left list_to_map foldr fst snd].
  - by rewrite (left_id_L ∅ (∪)).
  - rewrite fmap_cons in H. apply NoDup_cons in H as [Hi H]. rewrite IH by done.
    rewrite <-insert_union_r by by apply not_elem_of_list_to_map_1. apply insert_union_l.
Qed.

Lemma on_node_at nodes k m f : nodes !! k = Some m -> fst (on_node nodes k f) = <[k := fst (f m)]> nodes.
Proof. intros E. unfold on_node. rewrite E. by destruct (f m). Qed.

(** Loading the downtimes of a node that knows it is in downtime. *)
Lemma load_downtimes st k m (l : list (Z * downtime)) :
  st !! k = Some m -> NoDup l.*1 -> (l <> [] -> in_downtime (node_state m) = true) ->
  (forall id d, (id, d) ∈ l -> internal_id d = id /\ (d_host_id d, d_service_id d) = k
    /\ is_null (actual_start_time d) = false /\ is_null (actual_end_time d) = true) ->
  fold_left _load_correlation_event ((fun p => Ev_downtime (snd p)) <$> l) st
  = <[k := with_downtimes m (list_to_map l ∪ downtimes m)]> st.
Proof.
  intros Hk Hnd Hin Hd. rewrite <-inserts_union by done. clear Hnd. revert st m Hk Hin.
  induction l as [|[id d] l IH]; intros st m Hk Hin; cbn [fold_left fmap list_fmap fst snd].
  - rewrite insert_id; [done|]. rewrite Hk. f_equal. by destruct m.
  - destruct (Hd id d ltac:(left)) as (Hid & Hdk & Hs & He).
    assert (_load_correlation_event st (Ev_downtime d) = <[k := with_downtimes m (<[id:=d]> (downtimes m))]> st) as ->.
    { unfold _load_correlation_event. rewrite (on_node_at _ _ m) by by rewrite Hdk. rewrite Hdk. f_equal.
      unfold manage_downtime. rewrite Hs, He, Hid. cbn [negb]. change (node_state (with_downtimes _ _)) with (node_state m).
      by rewrite Hin. }
    rewrite (IH (fun i x H => Hd i x (list_elem_of_further _ _ _ H)) _ (with_downtimes m (<[id:=d]> (downtimes m))));
      [by rewrite insert_insert_eq|apply lookup_insert_eq|]. intros _. by apply Hin.
Qed.

Lemma union_restored {V} (m : gmap Z V) (m' : gmap Z V) : m' = ∅ \/ m' = m -> m ∪ m' = m.
Proof. intros [->| ->]; [apply (right_id_L ∅ (∪))|apply (idemp_L (∪))]. Qed.

(** Loading what one node saved. *)
Lemma load_node st k m n : node_ok k n -> restores m n -> st !! k = Some m ->
  fold_left _load_correlation_event (serialize n) st = <[k := reloaded n]> st.
Proof.
  intros [H1 H2 H3 H4 H5 H6 H7] [(L1 & L2 & L3 & L4) Ri Ra Rd] Hk. unfold serialize. rewrite !fold_left_app.
  assert (exists st1, fold_left _load_correlation_event (match my_issue n with Some i => [Ev_issue i] | None => [] end) st = st1
    /\ st1 = <[k := with_issue m (my_issue n)]> st) as (st1 & -> & Est1).
  { eexists. split; [done|]. destruct (my_issue n) as [i|] eqn:Ei; cbn [fold_left _load_correlation_event].
    - rewrite (on_node_at _ _ m) by by rewrite H4. by rewrite H4.
    - rewrite insert_id; [done|]. rewrite Hk. f_equal. assert (my_issue m = None) by by destruct Ri. destruct m. cbn in *. by subst. }
  cbn [fold_left _load_correlation_event]. unfold get_id in H1. rewrite H1.
  rewrite (on_node_at st1 k (with_issue m (my_issue n))) by (rewrite Est1; apply lookup_insert_eq). cbn [fst].
  set (m2 := with_state _ _). assert (E2 : <[k:=m2]> st1 = <[k:=m2]> st) by (rewrite Est1; apply insert_insert_eq).
  rewrite E2, (load_downtimes _ k m2); [|apply lookup_insert_eq|apply NoDup_fst_map_to_list| |].
  - rewrite list_to_map_to_list, insert_insert_eq. change (downtimes m2) with (downtimes m). rewrite union_restored by done.
    set (m3 := with_downtimes m2 (downtimes n)).
    unfold reloaded. destruct (_acknowledgement n) as [a|] eqn:Ea; cbn [fold_left _load_correlation_event].
    + destruct (H5 a eq_refl) as [Hn Ha]. rewrite Ha, (on_node_at _ _ m3) by apply lookup_insert_eq. rewrite insert_insert_eq. f_equal.
      unfold manage_ack. rewrite Hn. change (my_issue (with_ack m3 (Some a))) with (my_issue n).
      destruct (my_issue n) as [i|] eqn:Ei; cbn; unfold with_state, with_issue; cbn; by rewrite ?Ea, ?Ei, ?L1, ?L2, ?L3, ?L4.
    + f_equal. assert (_acknowledgement m = None) as Em by by destruct Ra.
      destruct n, m. cbn in *. by subst.
  - intros Hne. change (in_downtime (node_state n) = true). apply H7. intros E. rewrite E in Hne. by rewrite map_to_list_empty in Hne.
  - intros id d Hin%elem_of_map_to_list. by apply H6.
Qed.

(** Loading the nodes of a list. *)
Lemma load_nodes (l : list (key * node)) (st : gmap key node) :
  NoDup l.*1 -> (forall k n, (k, n) ∈ l -> node_ok k n /\ exists m, st !! k = Some m /\ restores m n) ->
  fold_left _load_correlation_event (l ≫= fun p => serialize (snd p)) st = list_to_map (prod_map id reloaded <$> l) ∪ st.
Proof.
  revert st. induction l as [|[k n] l IH]; intros st Hnd H.
  { cbn. by rewrite (left_id_L ∅ (∪)). }
  rewrite fmap_cons in Hnd. apply NoDup_cons in Hnd as [Hni Hnd]. rewrite bind_cons, fold_left_app. cbn [snd].
  destruct (H k n ltac:(left)) as (Hn & m & Hm & Hr). rewrite (load_node st k m n) by done. rewrite IH; [|done|].
  - cbn [fmap list_fmap prod_map list_to_map foldr fst snd id].
    rewrite <-insert_union_r; [by rewrite <-insert_union_l|]. apply not_elem_of_list_to_map_1.
    rewrite <-list_fmap_compose. intros Hin. apply Hni. apply list_elem_of_fmap in Hin as ([k' n'] & E & Hin).
    cbn in E. subst k'. apply list_elem_of_fmap. by exists (k, n').
  - intros j n' Hj. destruct (H j n' ltac:(by right)) as (Hn' & m' & Hm' & Hr'). split; [done|]. exists m'.
    rewrite lookup_insert_ne; [done|]. intros ->. apply Hni. apply list_elem_of_fmap. by exists (j, n').
Qed.

(** A stream over the same nodes and links, which have nothing else yet. *)
Definition restorable nodes (fresh : gmap key node) : Prop :=
  forall k, match nodes !! k, fresh !! k with Some n, Some m => restores m n | None, None => True | _, _ => False end.

Lemma load_saved nodes (fresh : gmap key node) : nodes_ok nodes -> restorable nodes fresh ->
  _load_correlation fresh (_save_persistent_cache nodes) = reloaded <$> nodes.
Proof.
  intros Hok Hr. unfold _load_correlation, _save_persistent_cache. rewrite load_nodes; [|apply NoDup_fst_map_to_list|].
  - rewrite list_to_map_fmap, list_to_map_to_list. apply map_eq. intros k. specialize (Hr k). rewrite lookup_union, lookup_fmap.
    destruct (nodes !! k) as [n|], (fresh !! k) as [m|]; done.
  - intros k n Hn%elem_of_map_to_list. split; [by apply Hok|]. specialize (Hr k). rewrite Hn in Hr.
    destruct (fresh !! k) as [m|]; [by exists m|done].
Qed.

Lemma reloaded_core n : core (reloaded n) = core n.
Proof. unfold reloaded. destruct (_acknowledgement n); [|done]. unfold core. cbn. by destruct (my_issue n). Qed.

Lemma reloaded_ok k n : node_ok k n -> node_ok k (reloaded n).
Proof.
  intros Hok. pose proof Hok as [H1 H2 H3 H4 H5 H6 H7]. unfold reloaded.
  destruct (_acknowledgement n) as [a|] eqn:Ea; [|done]. constructor; cbn; try done.
  - rewrite H3. by destruct (my_issue n).
  - intros i (i' & Hi & ->)%fmap_Some. cbn. by apply H4.
  - intros a' Ha. apply H5. by rewrite <-Ea.
Qed.

Lemma reloaded_alike nodes : alike nodes (reloaded <$> nodes).
Proof.
  intros k. rewrite lookup_fmap. destruct (nodes !! k) as [n|]; [|done]. cbn. by rewrite reloaded_core.
Qed.

(** A stream over the same nodes that loads what another saved takes up
    where it stopped: the nodes have their states, issues and downtimes, so
    that the same parentings hold; only the times of acknowledgements may
    differ. *)
Theorem restart_restores nodes (fresh : gmap key node) :
  nodes_ok nodes -> restorable nodes fresh ->
  let nodes' := _load_correlation fresh (_save_persistent_cache nodes) in
  nodes' = reloaded <$> nodes /\ nodes_ok nodes' /\ active nodes' ≡ₚ active nodes.
Proof.
  intros Hok Hr nodes'. unfold nodes'. rewrite load_saved by done. split; [done|]. split.
  - intros k n (m & <- & Hm)%lookup_fmap_Some. apply reloaded_ok. by apply Hok.
  - symmetry. apply alike_active, reloaded_alike.
Qed.

(** update: saving, and loading again over the nodes themselves. *)
Definition update nodes : gmap key node := _load_correlation nodes (_save_persistent_cache nodes).

Lemma restorable_self nodes : restorable nodes nodes.
Proof. intros k. destruct (nodes !! k) as [n|]; [|done]. constructor; auto. Qed.

(** An update leaves every node as it is, but for the times of the
    acknowledgements, which move to those of their entries. *)
Theorem update_reloads nodes : nodes_ok nodes -> update nodes = reloaded <$> nodes.
Proof. intros Hok. apply load_saved; [done|]. apply restorable_self. Qed.

(** A sticky acknowledgement entered before the period that is open: the period
    says it is acknowledged from its start, and after an update, from before
    its start. *)
Definition sticky_ack : acknowledgement := Acknowledgement 0 [] [] (-1) 50 1 true false false true 0 0 1.

Lemma update_moves_ack :
  let n := Node (State 100 1 (-1) 1 false 0 0 100) (Some (Issue 100 (-1) 1 0 100)) (Some sticky_ack) ∅ ∅ ∅ ∅ ∅ in
  ack_time (node_state n) = start_time (node_state n)
  /\ (fun m => ack_time (node_state m) <? start_time (node_state m)) <$> (update {[(1, 0) := n]} !! (1, 0)) = Some true.
Proof. split; [done|]. by vm_compute. Qed.

(** The constructor has no node when it loads: nothing is restored. *)
Lemma constructor_restores_nothing cache : _load_correlation ∅ cache = ∅.
Proof.
  unfold _load_correlation. induction cache as [|d cache IH]; [done|]. cbn [fold_left].
  assert (_load_correlation_event ∅ d = ∅) as -> by (destruct d; cbn; unfold on_node; by rewrite ?lookup_empty). done.
Qed.

(** ** Links *)

Inductive link_op : Type :=
  | Add_child | Add_depended | Add_dependency | Add_parent
  | Remove_child | Remove_depended | Remove_dependency | Remove_parent | Destroy.

#[global] Instance link_op_eq_dec : EqDecision link_op.
Proof. solve_decision. Defined.

(** An operation on the object [this], with the argument [n]. *)
Definition link_nodes (op : link_op) nodes (this n : key) : gmap key node * outcome unit :=
  match op with
  | Add_child => add_child nodes this n
  | Add_depended => add_depended nodes this n
  | Add_dependency => add_dependency nodes this n
  | Add_parent => add_parent nodes this n
  | Remove_child => (remove_child nodes this n, Returns tt)
  | Remove_depended => (remove_depended nodes this n, Returns tt)
  | Remove_dependency => (remove_dependency nodes this n, Returns tt)
  | Remove_parent => (remove_parent nodes this n, Returns tt)
  | Destroy => (destroy nodes this, Returns tt)
  end.

Lemma links_alter (f : node -> gset key) (g : node -> node) nodes k j :
  links f (alter g k nodes) j = if decide (j = k) then from_option (fun n => f (g n)) ∅ (nodes !! k) else links f nodes j.
Proof.
  unfold links. destruct (decide (j = k)) as [->|Hne]; [|by rewrite lookup_alter_ne].
  rewrite lookup_alter_eq. by destruct (nodes !! k).
Qed.

(** A link of kind [K] from the child [c] to the parent [p] that appears at
    both ends, or disappears. *)
Definition linked nodes nodes' (K : kind) (c p : key) : Prop :=
  forall kd j x,
    (x ∈ links (uplinks kd) nodes' j <-> x ∈ links (uplinks kd) nodes j \/ (kd = K /\ j = c /\ x = p))
    /\ (x ∈ links (downlinks kd) nodes' j <-> x ∈ links (downlinks kd) nodes j \/ (kd = K /\ j = p /\ x = c)).

Definition unlinked nodes nodes' (K : kind) (c p : key) : Prop :=
  forall kd j x,
    (x ∈ links (uplinks kd) nodes' j <-> x ∈ links (uplinks kd) nodes j /\ ~ (kd = K /\ j = c /\ x = p))
    /\ (x ∈ links (downlinks kd) nodes' j <-> x ∈ links (downlinks kd) nodes j /\ ~ (kd = K /\ j = p /\ x = c)).

Lemma linked_ok nodes nodes' K c p : linked nodes nodes' K c p -> c <> p -> links_ok nodes -> links_ok nodes'.
Proof.
  intros H Hne [H1 H2]. split.
  - intros kd a b. rewrite (proj1 (H kd b a)), (proj2 (H kd a b)), H1. tauto.
  - intros kd a. rewrite (proj1 (H kd a a)). intros [Ha|(_ & -> & ->)]; [by apply (H2 kd a)|done].
Qed.

Lemma unlinked_ok nodes nodes' K c p : unlinked nodes nodes' K c p -> links_ok nodes -> links_ok nodes'.
Proof.
  intros H [H1 H2]. split.
  - intros kd a b. rewrite (proj1 (H kd b a)), (proj2 (H kd a b)), H1. tauto.
  - intros kd a. rewrite (proj1 (H kd a a)). intros [Ha _]. by apply (H2 kd a).
Qed.

(** Two alterations, of a child and of a parent. *)
Ltac link_cases Ha Hb :=
  intros kd j x; unfold links in *;
  repeat (rewrite lookup_alter; repeat case_decide; try subst; try done);
  rewrite ?Ha, ?Hb in *; destruct kd; cbn in *; rewrite ?elem_of_union, ?elem_of_singleton; intuition congruence.

Lemma add_linked nodes (this n : key) a b : nodes !! this = Some a -> nodes !! n = Some b -> this <> n ->
  linked nodes (alter (insert_child this) n (alter (insert_parent n) this nodes)) Parent this n
  /\ linked nodes (alter (insert_parent this) n (alter (insert_child n) this nodes)) Parent n this
  /\ linked nodes (alter (insert_depended this) n (alter (insert_dependency n) this nodes)) Dependency this n
  /\ linked nodes (alter (insert_dependency this) n (alter (insert_depended n) this nodes)) Dependency n this.
Proof. intros Ha Hb Hne. split_and!; link_cases Ha Hb. Qed.

Lemma remove_unlinked nodes (this n : key) : this <> n ->
  unlinked nodes (remove_parent nodes this n) Parent this n /\ unlinked nodes (remove_child nodes this n) Parent n this
  /\ unlinked nodes (remove_dependency nodes this n) Dependency this n
  /\ unlinked nodes (remove_depended nodes this n) Dependency n this.
Proof.
  intros Hne. unfold remove_parent, remove_child, remove_dependency, remove_depended.
  split_and!; intros kd j x; unfold links; repeat (rewrite lookup_alter; repeat case_decide; try subst; try done);
    try (destruct (nodes !! _)); destruct kd; cbn; rewrite ?elem_of_difference, ?elem_of_singleton, ?elem_of_empty; intuition congruence.
Qed.

(** Telling the nodes of a set that one of their links goes. *)
Lemma erase_each (g : node -> node) (l : gset key) nodes j :
  foldr (fun k nodes => alter g k nodes) nodes (elements l) !! j = if decide (j ∈ l) then g <$> nodes !! j else nodes !! j.
Proof.
  rewrite (decide_ext _ (j ∈ elements l)) by by rewrite elem_of_elements.
  pose proof (NoDup_elements l) as H. induction H as [|k l' Hk H IH]; [by rewrite decide_False by apply not_elem_of_nil|].
  cbn [foldr]. rewrite lookup_alter. destruct (decide (k = j)) as [<-|Hj].
  - rewrite IH, decide_False by done. rewrite decide_True; [done|left].
  - rewrite IH. destruct (decide (j ∈ l')); [rewrite decide_True by by right|rewrite decide_False by (by apply not_elem_of_cons)]; done.
Qed.

Definition erased (b : bool) (f : node -> node) n : node := if b then f n else n.

Lemma destroy_lookup nodes (this : key) j : (forall kd, this ∉ links (uplinks kd) nodes this) ->
  (forall kd, this ∉ links (downlinks kd) nodes this) ->
  destroy nodes this !! j = if decide (j = this) then None else
    (fun m => erased (bool_decide (j ∈ links _parents nodes this)) (erase_child this)
      (erased (bool_decide (j ∈ links _depends_on nodes this)) (erase_depended this)
      (erased (bool_decide (j ∈ links _depended_by nodes this)) (erase_dependency this)
      (erased (bool_decide (j ∈ links _children nodes this)) (erase_parent this) m)))) <$> nodes !! j.
Proof.
  intros Hu Hd. unfold destroy. set (l1 := links _children nodes this).
  set (n1 := foldr _ nodes (elements l1)).
  assert (H1 : n1 !! this = nodes !! this) by (unfold n1; by rewrite erase_each, decide_False by apply (Hd Parent)).
  set (n2 := foldr _ n1 _).
  assert (E2 : links _depended_by n1 this = links _depended_by nodes this) by (unfold links; by rewrite H1).
  assert (H2 : n2 !! this = nodes !! this).
  { unfold n2. rewrite E2, erase_each, decide_False by apply (Hd Dependency). done. }
  set (n3 := foldr _ n2 _).
  assert (E3 : links _depends_on n2 this = links _depends_on nodes this) by (unfold links; by rewrite H2).
  assert (H3 : n3 !! this = nodes !! this).
  { unfold n3. rewrite E3, erase_each, decide_False by apply (Hu Dependency). done. }
  assert (E4 : links _parents n3 this = links _parents nodes this) by (unfold links; by rewrite H3).
  destruct (decide (j = this)) as [->|Hj]; [by rewrite lookup_delete_eq|]. rewrite lookup_delete_ne by congruence.
  rewrite E4, erase_each. unfold n3. rewrite E3, erase_each. unfold n2. rewrite E2, erase_each. unfold n1. rewrite erase_each.
  unfold erased. fold l1. destruct (nodes !! j) as [m|]; [|by repeat case_decide].
  repeat case_bool_decide; repeat case_decide; try done.
Qed.

Lemma erased_links b1 b2 b3 b4 this n :
  let n' := erased b4 (erase_child this) (erased b3 (erase_depended this)
              (erased b2 (erase_dependency this) (erased b1 (erase_parent this) n))) in
  forall kd, uplinks kd n' = (if match kd with Parent => b1 | Dependency => b2 end then uplinks kd n ∖ {[this]} else uplinks kd n)
    /\ downlinks kd n' = (if match kd with Parent => b4 | Dependency => b3 end then downlinks kd n ∖ {[this]} else downlinks kd n).
Proof. by destruct b1, b2, b3, b4, kd. Qed.

Lemma elem_of_erased (P : Prop) `{Decision P} (t x : key) (s : gset key) : (P <-> t ∈ s) ->
  x ∈ (if bool_decide P then s ∖ {[t]} else s) <-> x ∈ s /\ x <> t.
Proof.
  intros HP. case_bool_decide as Hb; rewrite ?elem_of_difference, ?elem_of_singleton; [done|].
  split; [|tauto]. intros Hx. split; [done|]. intros ->. tauto.
Qed.

(** Every link to a node that is destroyed goes. *)
Lemma destroy_unlinks nodes (this : key) : links_ok nodes ->
  forall kd j x,
    (x ∈ links (uplinks kd) (destroy nodes this) j <-> x ∈ links (uplinks kd) nodes j /\ j <> this /\ x <> this)
    /\ (x ∈ links (downlinks kd) (destroy nodes this) j <-> x ∈ links (downlinks kd) nodes j /\ j <> this /\ x <> this).
Proof.
  intros [Hm Hi] kd j x.
  assert (Hd : forall kd, this ∉ links (downlinks kd) nodes this) by (intros kd' H; by apply Hm, Hi in H).
  assert (E : forall f, links f (destroy nodes this) j = from_option f ∅ (destroy nodes this !! j)) by done.
  rewrite !E, destroy_lookup by auto. destruct (decide (j = this)) as [->|Hj]; [cbn; rewrite elem_of_empty; tauto|].
  assert (E' : forall f, links f nodes j = from_option f ∅ (nodes !! j)) by done.
  destruct (nodes !! j) as [m|] eqn:Em; cbn [fmap option_fmap option_map from_option] in *; [|rewrite !E', elem_of_empty; tauto].
  destruct (erased_links (bool_decide (j ∈ links _children nodes this)) (bool_decide (j ∈ links _depended_by nodes this))
    (bool_decide (j ∈ links _depends_on nodes this)) (bool_decide (j ∈ links _parents nodes this)) this m kd) as [-> ->].
  rewrite !E'. pose proof (Hm kd this j) as M1. pose proof (Hm kd j this) as M2. rewrite E' in M1, M2.
  destruct kd; split; (rewrite elem_of_erased; [tauto|]); (exact M1 || by symmetry).
Qed.

(** Whatever the operations on the links of distinct nodes, destructions
    included, every link is known at both ends, and no node is left with a link
    to a node that is gone. *)
Theorem links_mirrored op nodes (this n : key) :
  links_ok nodes -> is_Some (nodes !! this) -> is_Some (nodes !! n) -> this <> n ->
  let nodes' := fst (link_nodes op nodes this n) in
  links_ok nodes' /\ (op = Destroy -> nodes' !! this = None /\ (forall kd k, (this ∉ links (uplinks kd) nodes' k) /\ (this ∉ links (downlinks kd) nodes' k))).
Proof.
  intros Hl [a Ha] [b Hb] Hne nodes'.
  destruct (add_linked nodes this n a b Ha Hb Hne) as (A1 & A2 & A3 & A4).
  destruct (remove_unlinked nodes this n Hne) as (R1 & R2 & R3 & R4).
  assert (op <> Destroy -> links_ok nodes').
  { unfold nodes', link_nodes, add_child, add_depended, add_dependency, add_parent. intros Hop.
    destruct op; try (case_bool_decide; [done|]); cbn [fst]; try done; try (eapply linked_ok; [eassumption|congruence|done]);
      by eapply unlinked_ok. }
  assert (op = Destroy -> links_ok nodes' /\ nodes' !! this = None
    /\ (forall kd k, (this ∉ links (uplinks kd) nodes' k) /\ (this ∉ links (downlinks kd) nodes' k))).
  { intros E. unfold nodes', link_nodes. rewrite E. cbn [fst]. pose proof (destroy_unlinks nodes this Hl) as Hu. split_and!.
    - destruct Hl as [Hm Hi]. split.
      + intros kd x y. rewrite (proj1 (Hu kd y x)), (proj2 (Hu kd x y)), Hm. tauto.
      + intros kd x. rewrite (proj1 (Hu kd x x)). intros [Hx _]. by apply Hi in Hx.
    - unfold destroy. apply lookup_delete_eq.
    - intros kd k. rewrite (proj1 (Hu kd k this)), (proj2 (Hu kd k this)). tauto. }
  destruct (decide (op = Destroy)) as [->|Hop]; intuition.
Qed.

(** *** A small network

    Host 2 has the parent 1, and the service 7 of host 2 depends on its host. *)
Definition declared (host service now : Z) : node := with_state (new_node now) (State (-1) 0 (-1) host false 0 service now).

Definition example_hosts : gmap key node :=
  {[ (1, 0) := declared 1 0 100; (2, 0) := declared 2 0 100; (2, 7) := declared 2 7 100 ]}.

Definition example_nodes : gmap key node :=
  fst (add_dependency (fst (add_parent example_hosts (2, 0) (1, 0))) (2, 7) (2, 0)).

(** Host 1 goes down, then 2 and its service; they are up again, 1 first. *)
Definition example_writes : list message :=
  [Host_status 1 1 200; Host_status 2 1 210; Service_status 2 7 2 220; Ack sticky_ack;
   Host_status 1 0 300; Host_status 2 0 310; Service_status 2 7 0 320].

Lemma declared_ok host service now : node_ok (host, service) (declared host service now).
Proof. constructor; done. Qed.

Lemma with_links_ok k n c db d p : node_ok k n -> node_ok k (with_links n c db d p).
Proof. by intros [H1 H2 H3 H4 H5 H6 H7]. Qed.

Lemma alter_ok nodes k (g : node -> node) : (forall n, node_ok k n -> node_ok k (g n)) -> nodes_ok nodes -> nodes_ok (alter g k nodes).
Proof.
  intros Hg H j n [[-> (m & Hm & ->)]|[_ Hn]]%lookup_alter_Some; [by apply Hg, H|by apply H].
Qed.

Lemma example_hosts_ok : nodes_ok example_hosts /\ links_ok example_hosts.
Proof.
  split.
  - repeat (apply insert_ok; [|apply declared_ok]). apply map_Forall_empty.
  - assert (H : forall f k, (forall h sv, f (declared h sv 100) = ∅) -> links f example_hosts k = (∅ : gset key)).
    { intros f k Hf. unfold links. destruct (example_hosts !! k) as [n|] eqn:E; [|done]. unfold example_hosts in E.
      repeat (apply lookup_insert_Some in E as [[_ <-]|[_ E]]; [apply Hf|]). apply lookup_singleton_Some in E as [_ <-]. apply Hf. }
    split; [intros kd a b|intros kd a]; rewrite ?H by (by destruct kd); set_solver.
Qed.

Lemma example_ok : nodes_ok example_nodes /\ links_ok example_nodes.
Proof.
  destruct example_hosts_ok as [Hn Hl]. set (step := fst (add_parent example_hosts (2, 0) (1, 0))).
  assert (H1 : nodes_ok step /\ links_ok step).
  { split; [by repeat (apply alter_ok; [intros; by apply with_links_ok|])|].
    eapply linked_ok; [by eapply (add_linked example_hosts (2, 0) (1, 0))|done..]. }
  destruct H1 as [Hn1 Hl1]. unfold example_nodes. fold step. split.
  - unfold add_dependency. case_bool_decide; [done|]. by repeat (apply alter_ok; [intros; by apply with_links_ok|]).
  - unfold add_dependency. case_bool_decide; [done|]. cbn [fst].
    assert (is_Some (step !! (2, 7)) /\ is_Some (step !! (2, 0))) as [[a Ha] [b Hb]] by (split; by eexists).
    eapply linked_ok; [by eapply (add_linked step (2, 7) (2, 0))|done..].
Qed.

Lemma writes_keep_issues_witness :
  exists nodes' evs, write_all true example_nodes example_writes = Some (nodes', evs) /\ nodes_ok nodes'.
Proof. apply (writes_keep_issues true example_nodes example_writes). exact (proj1 example_ok). Defined.

Lemma parentings_balanced_witness :
  (fun p => length (opened (snd p))) <$> write_all true example_nodes example_writes = Some 2%nat
  /\ exists nodes' evs, write_all true example_nodes example_writes = Some (nodes', evs)
    /\ active nodes' ++ closed evs ≡ₚ active example_nodes ++ opened evs.
Proof.
  split; [by vm_compute|]. apply (parentings_balanced example_nodes example_writes); [|exact (proj2 example_ok)|done].
  exact (proj1 example_ok).
Defined.

Lemma example_in_order : in_order example_nodes example_writes.
Proof.
  intros k n Hn. assert (Hst : start_time (node_state n) = 100).
  { revert k n Hn. apply (map_Forall_to_list (fun k n => start_time (node_state n) = 100) example_nodes).
    apply (bool_decide_unpack _). vm_compute. reflexivity. }
  rewrite Hst. unfold example_writes. unfold time_at. cbn [omap list_omap change_time mbind option_bind].
  repeat case_decide; repeat (apply SSorted_cons || apply SSorted_nil || apply Forall_cons_2 || apply Forall_nil_2); lia.
Qed.

Lemma history_gapless_witness :
  exists nodes' evs, write_all true example_nodes example_writes = Some (nodes', evs)
    /\ (forall k n, example_nodes !! k = Some n ->
       exists n', nodes' !! k = Some n' /\ history k (Open (node_state n)) evs = Some (Open (node_state n')))
    /\ Forall forward (states_in evs).
Proof.
  destruct (history_gapless example_nodes example_writes) as (nodes' & evs & E & H & Hf); [exact (proj1 example_ok)|done|].
  exists nodes', evs. split; [exact E|]. split; [exact H|]. exact (Hf example_in_order).
Defined.

(** A time that goes back makes periods that overlap. *)
Example periods_overlap :
  (fun p => (fun x => (start_time x, end_time x)) <$> states_in p.2)
    <$> write_all true example_nodes [Host_status 1 1 200; Host_status 1 0 150]
  = Some [(100, 200); (200, -1); (200, 150); (150, -1)].
Proof. vm_compute. reflexivity. Qed.

Lemma restart_restores_witness :
  let nodes' := _load_correlation example_nodes (_save_persistent_cache example_nodes) in
  nodes' = reloaded <$> example_nodes /\ nodes_ok nodes' /\ active nodes' ≡ₚ active example_nodes.
Proof. apply (restart_restores example_nodes example_nodes); [exact (proj1 example_ok)|apply restorable_self]. Defined.

Lemma update_reloads_witness : update example_nodes = reloaded <$> example_nodes.
Proof. apply (update_reloads example_nodes). exact (proj1 example_ok). Defined.

Lemma links_mirrored_witness :
  let nodes' := fst (link_nodes Destroy example_nodes (2, 0) (1, 0)) in
  links_ok nodes' /\ (Destroy = Destroy -> nodes' !! (2, 0) = None
    /\ (forall kd k, ((2, 0) ∉ links (uplinks kd) nodes' k) /\ ((2, 0) ∉ links (downlinks kd) nodes' k))).
Proof.
  apply (links_mirrored Destroy example_nodes (2, 0) (1, 0)); [exact (proj2 example_ok)|by eexists|by eexists|done].
Defined.

End Correlation.
