(* ===== verification/CTime.v ===== *)
(** * Times of the C library

    What the code uses of <time.h>: broken-down times (struct tm), the proleptic
    Gregorian calendar, and the two conversions of a time zone, localtime_r and
    mktime. A zone is a record of these two functions, an argument of all code
    that uses them; [fixed] is the zone of a constant offset to UTC, for which
    they are defined completely. The tables of the time zone database are not
    modelled. *)

From Stdlib Require Import ZArith Lia.
From stdpp Require Import base numbers.

#[local] Open Scope Z_scope.

Module CTime.

(** struct tm, without the day of the year. *)
Record tm : Type := Tm {
  tm_sec : Z;
  tm_min : Z;
  tm_hour : Z;
  tm_mday : Z;
  tm_mon : Z;
  tm_year : Z;
  tm_wday : Z;
  tm_isdst : Z
}.

(** The clock of a broken-down time, replaced. *)
Definition at_clock (x : tm) (hour min sec : Z) : tm :=
  Tm sec min hour (tm_mday x) (tm_mon x) (tm_year x) (tm_wday x) (tm_isdst x).

Record zone : Type := Zone {
  localtime_r : Z -> tm;
  (** The time, and the argument once normalized. *)
  mktime : tm -> Z * tm
}.

(** ** The calendar

    Days are counted from 1970-01-01; years from March, in cycles of 400. *)

(** Days before a year of a cycle, and before a month from March. *)
Definition year_days (y : Z) : Z := 365 * y + y / 4 - y / 100.
Definition month_days (m : Z) : Z := (153 * m + 2) / 5.

(** The year, the month from 1 and the day of the month from 1. *)
Definition days_from_civil (y m d : Z) : Z :=
  let y := if m <=? 2 then y - 1 else y in
  y / 400 * 146097 + year_days (y mod 400) + month_days ((m + 9) mod 12) + d - 1 - 719468.

Definition civil_from_days (n : Z) : Z * Z * Z :=
  let n := n + 719468 in
  let doe := n mod 146097 in
  let yoe := (doe - doe / 1460 + doe / 36524 - doe / 146096) / 365 in
  let doy := doe - year_days yoe in
  let mp := (5 * doy + 2) / 153 in
  let m := if mp <? 10 then mp + 3 else mp - 9 in
  (n / 146097 * 400 + yoe + (if m <=? 2 then 1 else 0), m, doy - month_days mp + 1).

Definition leap (y : Z) : bool := (y mod 4 =? 0) && (negb (y mod 100 =? 0) || (y mod 400 =? 0)).

Definition days_in_month (y m : Z) : Z :=
  if m =? 2 then if leap y then 29 else 28
  else if (m =? 4) || (m =? 6) || (m =? 9) || (m =? 11) then 30 else 31.

(** 0 is Sunday. *)
Definition weekday (n : Z) : Z := (n + 4) mod 7.

(** The broken-down time of a number of seconds from 1970, without zone. *)
Definition civil (t : Z) : tm :=
  let n := t / 86400 in
  let '(y, m, d) := civil_from_days n in
  Tm (t mod 60) (t / 60 mod 60) (t / 3600 mod 24) d (m - 1) (y - 1900) (weekday n) 0.

(** And back, whatever the fields. *)
Definition seconds (x : tm) : Z :=
  (days_from_civil (tm_year x + 1900 + tm_mon x / 12) (tm_mon x mod 12 + 1) 1 + tm_mday x - 1) * 86400
  + tm_hour x * 3600 + tm_min x * 60 + tm_sec x.

(** The zone that is [off] seconds ahead of UTC. *)
Definition fixed (off : Z) : zone :=
  Zone (fun t => civil (t + off)) (fun x => (seconds x - off, civil (seconds x))).

(** ** The calendar is consistent *)

Ltac Zdiv := unfold year_days, month_days in *; Z.to_euclidean_division_equations; lia.

Lemma year_of_era doe : 0 <= doe < 146097 ->
  let yoe := (doe - doe / 1460 + doe / 36524 - doe / 146096) / 365 in
  0 <= yoe < 400 /\ year_days yoe <= doe /\ doe <= year_days yoe + 365.
Proof. intros H yoe. unfold yoe. Zdiv. Qed.

Lemma month_of_day doy : 0 <= doy <= 365 ->
  let mp := (5 * doy + 2) / 153 in 0 <= mp < 12 /\ month_days mp <= doy < month_days (mp + 1).
Proof. intros H mp. unfold mp. Zdiv. Qed.

(** The days of a date are those it was made from. *)
Lemma civil_days n : let '(y, m, d) := civil_from_days n in
  days_from_civil y m d = n /\ 1 <= m <= 12 /\ 1 <= d <= 31.
Proof.
  unfold civil_from_days. pose proof (Z.mod_pos_bound (n + 719468) 146097 eq_refl) as Hd.
  pose proof (Z.div_mod (n + 719468) 146097 ltac:(lia)) as Hn.
  set (doe := (n + 719468) mod 146097) in *. set (era := (n + 719468) / 146097) in *.
  destruct (year_of_era doe Hd) as (Hy & Hy1 & Hy2). set (yoe := (doe - _ + _ - _) / 365) in *.
  destruct (month_of_day (doe - year_days yoe)) as (Hm & Hm1 & Hm2); [lia|].
  set (mp := (5 * (doe - year_days yoe) + 2) / 153) in *.
  set (m := if mp <? 10 then mp + 3 else mp - 9).
  assert (Hmr : 1 <= m <= 12 /\ (m + 9) mod 12 = mp).
  { unfold m. destruct (Z.ltb_spec mp 10); [|Zdiv]. split; [lia|]. replace (mp + 3 + 9) with (mp + 1 * 12) by lia.
    rewrite Z.mod_add by lia. apply Z.mod_small. lia. }
  destruct Hmr as [Hmr Hmp]. split_and!; [|lia..|].
  - unfold days_from_civil. rewrite Hmp.
    assert (E : (if m <=? 2 then era * 400 + yoe + (if m <=? 2 then 1 else 0) - 1 else era * 400 + yoe + (if m <=? 2 then 1 else 0))
      = era * 400 + yoe) by (destruct (m <=? 2); lia).
    rewrite E, Z.div_add_l, (Z.div_small yoe), Z.add_0_r, (Z.add_comm (era * 400)), Z.mod_add, Z.mod_small by lia. lia.
  - revert Hm1 Hm2. clear -Hm. unfold month_days. intros. Z.to_euclidean_division_equations; lia.
Qed.

Lemma civil_seconds t : seconds (civil t) = t.
Proof.
  unfold civil, seconds. pose proof (civil_days (t / 86400)) as H. destruct (civil_from_days (t / 86400)) as [[y m] d].
  destruct H as (H & Hm & Hd). cbn [tm_year tm_mon tm_mday tm_hour tm_min tm_sec].
  rewrite Z.div_small, Z.mod_small by lia. replace (y - 1900 + 1900 + 0) with y by lia. replace (m - 1 + 1) with m by lia.
  assert (E : days_from_civil y m d = days_from_civil y m 1 + d - 1) by (unfold days_from_civil; lia).
  rewrite <-E, H. Z.to_euclidean_division_equations; lia.
Qed.

(** The clock of a broken-down time. *)
Definition clock (x : tm) : Z := tm_hour x * 3600 + tm_min x * 60 + tm_sec x.

Lemma clock_civil t : clock (civil t) = t mod 86400.
Proof.
  unfold clock, civil. destruct (civil_from_days (t / 86400)) as [[y m] d]. cbn [tm_hour tm_min tm_sec].
  Z.to_euclidean_division_equations; lia.
Qed.

Lemma seconds_at x hour min sec : seconds (at_clock x hour min sec) = seconds x - clock x + hour * 3600 + min * 60 + sec.
Proof. destruct x. unfold seconds, clock. cbn [at_clock tm_year tm_mon tm_mday tm_hour tm_min tm_sec]. lia. Qed.

(** Another clock on the same day. *)
Lemma seconds_at_clock t hour min sec :
  seconds (at_clock (civil t) hour min sec) = t / 86400 * 86400 + hour * 3600 + min * 60 + sec.
Proof. rewrite seconds_at, civil_seconds, clock_civil. Z.to_euclidean_division_equations; lia. Qed.

Lemma civil_wday t : tm_wday (civil t) = weekday (t / 86400).
Proof. unfold civil. by destruct (civil_from_days (t / 86400)) as [[y m] d]. Qed.

Lemma weekday_range n : 0 <= weekday n < 7.
Proof. unfold weekday. apply Z.mod_pos_bound. lia. Qed.

(** ** The length of months *)

Lemma era_days y : y / 400 * 146097 + year_days (y mod 400) = 365 * y + y / 4 - y / 100 + y / 400.
Proof.
  pose proof (Z.div_mod y 400 ltac:(lia)) as H. set (q := y / 400) in *. set (r := y mod 400) in *.
  assert (E4 : y / 4 = r / 4 + 100 * q) by (rewrite <-Z.div_add by lia; f_equal; lia).
  assert (E100 : y / 100 = r / 100 + 4 * q) by (rewrite <-Z.div_add by lia; f_equal; lia).
  unfold year_days. lia.
Qed.

Lemma days_from_civil_era y m d : let y' := if m <=? 2 then y - 1 else y in
  days_from_civil y m d = 365 * y' + y' / 4 - y' / 100 + y' / 400 + month_days ((m + 9) mod 12) + d - 1 - 719468.
Proof. cbv zeta. unfold days_from_civil. rewrite era_days. lia. Qed.

Lemma div_step y k : 0 < k -> y / k - (y - 1) / k = if y mod k =? 0 then 1 else 0.
Proof. intros Hk. destruct (Z.eqb_spec (y mod k) 0); Z.to_euclidean_division_equations; nia. Qed.

Lemma leap_days y : y / 4 - y / 100 + y / 400 - ((y - 1) / 4 - (y - 1) / 100 + (y - 1) / 400) = if leap y then 1 else 0.
Proof.
  pose proof (div_step y 4 eq_refl). pose proof (div_step y 100 eq_refl). pose proof (div_step y 400 eq_refl). unfold leap.
  destruct (Z.eqb_spec (y mod 4) 0), (Z.eqb_spec (y mod 100) 0), (Z.eqb_spec (y mod 400) 0); cbn [andb orb negb]; try lia;
    exfalso; Z.to_euclidean_division_equations; lia.
Qed.

Ltac compute_in_goal := repeat match goal with
  | |- context [month_days ?a] => let v := eval vm_compute in (month_days a) in change (month_days a) with v
  | |- context [Z.pos ?a / 12] => let v := eval vm_compute in (Z.pos a / 12) in change (Z.pos a / 12) with v
  | |- context [Z.pos ?a mod 12 + 1] => let v := eval vm_compute in (Z.pos a mod 12 + 1) in change (Z.pos a mod 12 + 1) with v
  end; cbn [Z.leb Z.eqb Z.compare Pos.compare Pos.compare_cont Pos.eqb orb].

Lemma days_next_month y m : 1 <= m <= 12 ->
  days_from_civil (y + m / 12) (m mod 12 + 1) 1 = days_from_civil y m 1 + days_in_month y m.
Proof.
  intros H. assert (m = 1 \/ m = 2 \/ m = 3 \/ m = 4 \/ m = 5 \/ m = 6 \/ m = 7 \/ m = 8 \/ m = 9 \/ m = 10 \/ m = 11 \/ m = 12)
    as C by lia. rewrite !days_from_civil_era. pose proof (leap_days y) as Hl. unfold days_in_month.
  destruct C as [->|[->|[->|[->|[->|[->|[->|[->|[->|[->|[->| ->]]]]]]]]]]]; compute_in_goal;
    rewrite ?Z.add_0_r; try lia.
  - destruct (leap y); lia.
  - replace (y + 1 - 1) with y by lia. lia.
Qed.

Lemma year_of_era_end doe : 0 <= doe < 146097 ->
  let yoe := (doe - doe / 1460 + doe / 36524 - doe / 146096) / 365 in
  doe - year_days yoe < 365 + (yoe + 1) / 4 - yoe / 4 - ((yoe + 1) / 100 - yoe / 100) + ((yoe + 1) / 400 - yoe / 400).
Proof.
  intros H yoe. destruct (Z.eq_dec doe 146096) as [->|Hne]; [unfold yoe; vm_compute; reflexivity|].
  assert (E : doe / 146096 = 0) by (apply Z.div_small; lia).
  assert (C : doe / 36524 = 0 \/ doe / 36524 = 1 \/ doe / 36524 = 2 \/ doe / 36524 = 3) by (Z.to_euclidean_division_equations; lia).
  unfold yoe. rewrite E.
  assert (Y : 0 <= (doe - doe / 1460 + doe / 36524 - 0) / 365 < 400) by (Z.to_euclidean_division_equations; lia).
  unfold year_days. destruct C as [C|[C|[C|C]]]; rewrite C in *; Z.to_euclidean_division_equations; lia.
Qed.

Lemma days_in_month_ge y m : 28 <= days_in_month y m <= 31.
Proof. unfold days_in_month. repeat case_match; lia. Qed.

Lemma leap_era q r : leap (q * 400 + r) = leap r.
Proof.
  unfold leap. replace ((q * 400 + r) mod 4) with (r mod 4) by (replace (q * 400 + r) with (r + 100 * q * 4) by lia; by rewrite Z.mod_add).
  replace ((q * 400 + r) mod 100) with (r mod 100) by (replace (q * 400 + r) with (r + 4 * q * 100) by lia; by rewrite Z.mod_add).
  replace ((q * 400 + r) mod 400) with (r mod 400) by (rewrite Z.add_comm; by rewrite Z.mod_add). done.
Qed.

Ltac compute_tests := repeat match goal with
  | |- context [if ?b then _ else _] =>
    let v := eval vm_compute in b in
    match v with true => change b with true | false => change b with false end; cbv iota
  end.

(** The day of a date is one of its month. *)
Lemma civil_day_of_month n : let '(y, m, d) := civil_from_days n in d <= days_in_month y m.
Proof.
  unfold civil_from_days. pose proof (Z.mod_pos_bound (n + 719468) 146097 eq_refl) as Hd.
  set (doe := (n + 719468) mod 146097) in *. set (era := (n + 719468) / 146097) in *.
  destruct (year_of_era doe Hd) as (Hy & Hy1 & Hy2). pose proof (year_of_era_end doe Hd) as He. cbv zeta in He.
  set (yoe := (doe - _ + _ - _) / 365) in *.
  destruct (month_of_day (doe - year_days yoe)) as (Hm & Hm1 & Hm2); [lia|].
  set (mp := (5 * (doe - year_days yoe) + 2) / 153) in *.
  pose proof (leap_days (yoe + 1)) as Hl. replace (yoe + 1 - 1) with yoe in Hl by lia.
  assert (C : mp = 0 \/ mp = 1 \/ mp = 2 \/ mp = 3 \/ mp = 4 \/ mp = 5 \/ mp = 6 \/ mp = 7 \/ mp = 8 \/ mp = 9 \/ mp = 10 \/ mp = 11) by lia.
  clearbody mp. clearbody yoe. clearbody era. clearbody doe. revert Hm1 Hm2. unfold days_in_month.
  destruct C as [->|[->|[->|[->|[->|[->|[->|[->|[->|[->|[->| ->]]]]]]]]]]];
    compute_tests; intros Hm1 Hm2;
    repeat match type of Hm2 with context [month_days ?a] => let v := eval vm_compute in (month_days a) in
      change (month_days a) with v in Hm2 end;
    compute_in_goal; try lia.
  rewrite <-Z.add_assoc, leap_era. destruct (leap (yoe + 1)); lia.
Qed.

(** Months in a row. *)
Definition first_day (k : Z) : Z := days_from_civil (k / 12) (k mod 12 + 1) 1.
Definition month_length (k : Z) : Z := days_in_month (k / 12) (k mod 12 + 1).

Lemma first_day_next k : first_day (k + 1) = first_day k + month_length k.
Proof.
  unfold first_day, month_length. pose proof (Z.mod_pos_bound k 12 eq_refl) as H.
  rewrite <-days_next_month by lia.
  replace ((k + 1) / 12) with (k / 12 + (k mod 12 + 1) / 12) by (rewrite <-Z.div_add_l by lia; f_equal; pose proof (Z.div_mod k 12); lia).
  by rewrite Z.add_mod_idemp_l.
Qed.

Lemma first_day_mono k k' : k <= k' -> first_day k + 28 * (k' - k) <= first_day k'.
Proof.
  intros H. assert (G : forall n : nat, first_day k + 28 * Z.of_nat n <= first_day (k + Z.of_nat n)).
  { induction n as [|n IH]; [rewrite !Z.add_0_r; lia|].
    replace (k + Z.of_nat (S n)) with (k + Z.of_nat n + 1) by lia. rewrite first_day_next.
    pose proof (days_in_month_ge ((k + Z.of_nat n) / 12) ((k + Z.of_nat n) mod 12 + 1)). unfold month_length. lia. }
  specialize (G (Z.to_nat (k' - k))). rewrite Z2Nat.id in G by lia. by replace (k + (k' - k)) with k' in G by lia.
Qed.

(** A day is in one month only. *)
Lemma month_unique k k' d d' : 1 <= d <= month_length k -> 1 <= d' <= month_length k' ->
  first_day k + d = first_day k' + d' -> k = k' /\ d = d'.
Proof.
  intros Hd Hd' E. assert (k = k') as ->; [|split; lia].
  destruct (Z.lt_trichotomy k k') as [H|[H|H]]; [|done|].
  - pose proof (first_day_mono (k + 1) k' ltac:(lia)). rewrite first_day_next in *. lia.
  - pose proof (first_day_mono (k' + 1) k ltac:(lia)). rewrite first_day_next in *. lia.
Qed.

(** A valid date is the one of its day. *)
Lemma date_of_days k d : 1 <= d <= month_length k ->
  civil_from_days (first_day k + d - 1) = (k / 12, k mod 12 + 1, d).
Proof.
  intros Hd. pose proof (civil_days (first_day k + d - 1)) as H1. pose proof (civil_day_of_month (first_day k + d - 1)) as H2.
  destruct (civil_from_days (first_day k + d - 1)) as [[y m] d']. destruct H1 as (E & Hm & Hd1).
  assert (Ek : (12 * y + (m - 1)) / 12 = y /\ (12 * y + (m - 1)) mod 12 + 1 = m) by (split; Z.to_euclidean_division_equations; lia).
  destruct Ek as [Ey Em].
  destruct (month_unique (12 * y + (m - 1)) k d' d) as [<- <-].
  - unfold month_length. rewrite Ey, Em. lia.
  - done.
  - unfold first_day at 1. rewrite Ey, Em. unfold days_from_civil in E |- *. lia.
  - by rewrite Ey, Em.
Qed.

End CTime.
