(* ===== verification/Scanf.v ===== *)
(** * sscanf

    The conversions of the C library that the parsers of dates use: %u, %d,
    %[a-z] and %n, white space and plain characters. A conversion stores into
    the variables of the caller, a record of type [V], and what was stored
    before a failure stays stored. *)

From Stdlib Require Import ZArith Lia ZifyNat ZifyBool Strings.Byte.
From stdpp Require Import base option list numbers.
From S2P Require Import Prelude Double.

Module Scanf.

Section Scanf.
Context {V : Type}.

Inductive directive : Type :=
  | Char (c : byte)
  | Space
  | Unsigned (width : option nat) (set : Z -> V -> V)
  | Decimal (set : Z -> V -> V)
  | Word (set : cstring -> V -> V)
  | Count (set : Z -> V -> V).

(** What a conversion gives: the end of the input, no match, or a result. *)
Inductive scanned (A : Type) : Type := End_of_input | No_match | Scanned (a : A).
#[global] Arguments End_of_input {A}.
#[global] Arguments No_match {A}.
#[global] Arguments Scanned {A} a.

Definition skip_space (s : cstring) : cstring := snd (Dbl.span isspace s).

(** A number of at most [width] characters: its sign and digits, what follows. *)
Definition scan_number (width : option nat) (s : cstring) : scanned (bool * Z * cstring) :=
  match skip_space s with
  | [] => End_of_input
  | s =>
    let head := match width with Some w => take w s | None => s end in
    let '(neg, digits) := Dbl.after_sign head in
    let '(ds, rest) := Dbl.span isdigit digits in
    match ds with
    | [] => No_match
    | _ =>
      Scanned (neg, Dbl.dec_val ds, drop (length head - length rest) s)
    end
  end.

(** strtoul and strtol saturate, and their result is cut to 32 bits. *)
Definition to_unsigned (neg : bool) (n : Z) : Z :=
  u32 (if 2 ^ 64 <=? n then 2 ^ 64 - 1 else if neg then - n else n).
Definition to_int (neg : bool) (n : Z) : Z :=
  i32 (if neg then Z.max (- 2 ^ 63) (- n) else Z.min (2 ^ 63 - 1) n).

Definition is_lower (c : byte) : bool := (97 <=? Z_of_byte c) && (Z_of_byte c <=? 122).

Definition scan_word (s : cstring) : scanned (cstring * cstring) :=
  match s with
  | [] => End_of_input
  | _ => let '(w, rest) := Dbl.span is_lower s in match w with [] => No_match | _ => Scanned (w, rest) end
  end.

(** The number of conversions stored, -1 when the input ends before the first
    one; [start] is the whole text. *)
Fixpoint scan (fmt : list directive) (start s : cstring) (stored : Z) (v : V) : Z * V :=
  let ended := if stored =? 0 then -1 else stored in
  match fmt with
  | [] => (stored, v)
  | Char c :: fmt =>
    match s with
    | [] => (ended, v)
    | d :: s => if byte_eqb c d then scan fmt start s stored v else (stored, v)
    end
  | Space :: fmt => scan fmt start (skip_space s) stored v
  | Unsigned width set :: fmt =>
    match scan_number width s with
    | End_of_input => (ended, v)
    | No_match => (stored, v)
    | Scanned (neg, n, s) => scan fmt start s (stored + 1) (set (to_unsigned neg n) v)
    end
  | Decimal set :: fmt =>
    match scan_number None s with
    | End_of_input => (ended, v)
    | No_match => (stored, v)
    | Scanned (neg, n, s) => scan fmt start s (stored + 1) (set (to_int neg n) v)
    end
  | Word set :: fmt =>
    match scan_word s with
    | End_of_input => (ended, v)
    | No_match => (stored, v)
    | Scanned (w, s) => scan fmt start s (stored + 1) (set w v)
    end
  | Count set :: fmt => scan fmt start s stored (set (Z.of_nat (length start - length s)) v)
  end.

Definition sscanf (s : cstring) (fmt : list directive) (v : V) : Z * V := scan fmt s s 0 v.

End Scanf.
#[global] Arguments directive : clear implicits.

End Scanf.
