(* ===== verification/TimeRange.v ===== *)
(** * Time ranges (core/src/time/timerange.cc)

    A range of the hours of a day, its text, and the instants it stands for on
    a given day. The theorems show that the text of a list of ranges is read
    back into it, and which instants a range holds. *)

From Stdlib Require Import ZArith Lia ZifyNat ZifyBool Strings.Byte.
From stdpp Require Import base option list numbers.
From S2P Require Import Prelude MiscString Double CTime.
Import CTime.

Module TimeRange.

(** In seconds from midnight. *)
Record timerange : Type := Timerange { _end : Z; _start : Z }.

#[global] Instance timerange_eq_dec : EqDecision timerange.
Proof. solve_decision. Defined.

(** The constructor. *)
Definition new_timerange (start end_ : Z) : timerange := Timerange (u64 end_) (u64 start).

Definition timerange_eqb (left right : timerange) : bool :=
  (_start left =? _start right) && (_end left =? _end right).

Definition timerange_ltb (left right : timerange) : bool :=
  if negb (_start left =? _start right) then _start left <? _start right else _end left <? _end right.

Definition start_hour (r : timerange) : Z := _start r / (60 * 60).
Definition start_minute (r : timerange) : Z := _start r / 60 mod 60.
Definition end_hour (r : timerange) : Z := _end r / (60 * 60).
Definition end_minute (r : timerange) : Z := _end r / 60 mod 60.

(** The two limits; my_tm is normalized by the first mktime and goes on from
    there. The conversion always succeeds. *)
Definition to_time_t (z : zone) (r : timerange) (midnight : tm) : Z * Z :=
  let my_tm := at_clock midnight (i32 (start_hour r)) (start_minute r) (tm_sec midnight) in
  let '(range_start, my_tm) := mktime z my_tm in
  let my_tm := at_clock my_tm (i32 (end_hour r)) (end_minute r) (tm_sec my_tm) in
  (range_start, fst (mktime z my_tm)).

(** ** Texts *)

(** operator>> of a stream over [s] to a uint64_t, with its whole text taken:
    a sign is accepted, and a negative number wraps. *)
Definition read_u64 (s : cstring) : option Z :=
  let s := snd (Dbl.span isspace s) in
  let '(neg, s) := Dbl.after_sign s in
  match s with
  | [] => None
  | _ =>
    if forallb isdigit s && (Dbl.dec_val s <? 2 ^ 64)
    then Some (u64 (if neg then - Dbl.dec_val s else Dbl.dec_val s)) else None
  end.

Definition _build_time_t (time_str : cstring) : option Z :=
  pos ← find_first_if (byte_eqb x3a) time_str;
  hours ← read_u64 (take pos time_str);
  minutes ← read_u64 (drop (S pos) time_str);
  Some (u64 (hours * 3600 + minutes * 60)).

(** The loop over the pieces: what was read before an error stays read. *)
Fixpoint build_ranges (l : list cstring) (timeranges : list timerange) : bool * list timerange :=
  match l with
  | [] => (true, timeranges)
  | it :: l =>
    match
      pos ← find_first_if (byte_eqb x2d) it;
      start_time ← _build_time_t (take pos it);
      end_time ← _build_time_t (drop (S pos) it);
      Some (new_timerange start_time end_time)
    with
    | None => (false, timeranges)
    | Some r => build_ranges l (r :: timeranges)
    end
  end.

Definition build_timeranges_from_string (line : cstring) (timeranges : list timerange) : bool * list timerange :=
  match line with
  | [] => (true, timeranges)
  | _ => build_ranges (Str.split line x2c) timeranges
  end.

Definition clock_text (t : Z) : cstring := Dbl.dec (t / 3600) ++ [x3a] ++ Dbl.dec (t mod 3600 / 60).

Definition to_string (r : timerange) : cstring := clock_text (_start r) ++ [x2d] ++ clock_text (_end r).

Definition build_string_from_timeranges (timeranges : list timerange) : cstring :=
  fold_left (fun oss it => (match oss with [] => [] | _ => oss ++ [x2c] end) ++ to_string it) timeranges [].

(** ** The text of a list of ranges *)

Definition range_ok (r : timerange) : Prop :=
  0 <= _start r < 2 ^ 64 /\ _start r mod 60 = 0 /\ 0 <= _end r < 2 ^ 64 /\ _end r mod 60 = 0.

Lemma digits_plain l c : forallb isdigit l = true -> c ∈ l -> 48 <= Z_of_byte c <= 57.
Proof.
  intros H Hc. rewrite forallb_forall in H. specialize (H c (proj1 (list_elem_of_In _ _) Hc)). unfold isdigit in H. lia.
Qed.

Lemma digit_not l c d : forallb isdigit l = true -> (Z_of_byte d < 48 \/ 57 < Z_of_byte d) -> c ∈ l -> byte_eqb d c = false.
Proof. intros Hl Hd Hc. apply byte_eqb_neq. intros ->. pose proof (digits_plain l c Hl Hc). lia. Qed.

Lemma read_u64_dec n : 0 <= n < 2 ^ 64 -> read_u64 (Dbl.dec n) = Some n.
Proof.
  intros Hn. destruct (Dbl.dec_spec n ltac:(lia)) as (Hd & Hne & Hv & _). unfold read_u64.
  destruct (Dbl.dec n) as [|c l] eqn:E; [done|]. pose proof (digits_plain _ c Hd ltac:(left)) as Hc.
  assert (Hs : isspace c = false) by (unfold isspace; lia). cbn [Dbl.span]. rewrite Hs. cbn [snd].
  assert (Ha : Dbl.after_sign (c :: l) = (false, c :: l)).
  { assert (Hx : forall d, (Z_of_byte d < 48 \/ 57 < Z_of_byte d) -> byte_eqb c d = false).
    { intros d Hd'. apply byte_eqb_neq. intros ->. lia. }
    unfold Dbl.after_sign. rewrite !Hx by (vm_compute; auto). done. }
  rewrite Ha, Hd, Hv. rewrite (proj2 (Z.ltb_lt _ _)) by lia. cbn [andb]. by rewrite u64_small.
Qed.

Lemma clock_chars t c : 0 <= t -> c ∈ clock_text t -> isdigit c = true \/ c = x3a.
Proof.
  intros Ht. unfold clock_text. rewrite !elem_of_app, list_elem_of_singleton.
  assert (Hd : forall n, 0 <= n -> c ∈ Dbl.dec n -> isdigit c = true).
  { intros n Hn Hc. destruct (Dbl.dec_spec n Hn) as (H & _). rewrite forallb_forall in H. by apply H, list_elem_of_In. }
  intros [H|[H|H]]; [left|by right|left]; [by eapply Hd, H; apply Z.div_pos|eapply Hd, H].
  apply Z.div_pos; [apply Z.mod_pos_bound|]; lia.
Qed.

Lemma no_char l d : (forall c, c ∈ l -> c <> d) -> forallb (fun y => negb (byte_eqb d y)) l = true.
Proof.
  intros H. apply forallb_forall. intros c Hc%list_elem_of_In. apply negb_true_iff, byte_eqb_neq. intros ->. by apply (H c).
Qed.

Lemma drop_past {A} (l1 : list A) x (l2 : list A) : drop (S (length l1)) (l1 ++ x :: l2) = l2.
Proof. induction l1 as [|y l1 IH]; [done|]. apply IH. Qed.

Lemma build_clock t : 0 <= t < 2 ^ 64 -> t mod 60 = 0 -> _build_time_t (clock_text t) = Some t.
Proof.
  intros Ht Hm. unfold _build_time_t, clock_text.
  assert (Hh : 0 <= t / 3600 < 2 ^ 64) by zdm. assert (Hn : 0 <= t mod 3600 / 60 < 2 ^ 64) by zdm.
  cbn [app]. rewrite find_first_if_app; [|apply no_char|apply byte_eqb_refl].
  - cbn [mbind option_bind]. rewrite take_app_length, read_u64_dec by done. cbn [mbind option_bind].
    rewrite drop_past, read_u64_dec by done. cbn [mbind option_bind].
    f_equal. rewrite u64_small; zdm.
  - intros c Hc ->. destruct (Dbl.dec_spec (t / 3600) ltac:(lia)) as (H & _).
    pose proof (digits_plain _ _ H Hc) as Hr. vm_compute in Hr. by destruct Hr as [_ []].
Qed.

Lemma to_string_chars r c : range_ok r -> c ∈ to_string r -> isdigit c = true \/ c = x3a \/ c = x2d.
Proof.
  intros (Hs & _ & He & _). unfold to_string. rewrite !elem_of_app, list_elem_of_singleton.
  intros [H|[H|H]]; [|tauto|]; apply clock_chars in H; tauto || lia.
Qed.

Lemma to_string_cons r : exists c l, to_string r = c :: l.
Proof. destruct (to_string r) eqn:E; [|by eexists _, _]. unfold to_string in E. by apply app_eq_nil in E as [_ E]. Qed.

Lemma build_ranges_text l acc : Forall range_ok l -> build_ranges (to_string <$> l) acc = (true, reverse l ++ acc).
Proof.
  intros H. revert acc. induction H as [|r l Hr _ IH]; intros acc; [done|]. cbn [fmap list_fmap build_ranges].
  destruct Hr as (Hs & Hsm & He & Hem). unfold to_string. cbn [app].
  rewrite find_first_if_app; [|apply no_char|apply byte_eqb_refl].
  - cbn [mbind option_bind]. rewrite take_app_length, build_clock by done. cbn [mbind option_bind].
    rewrite drop_past, build_clock by done. cbn [mbind option_bind].
    unfold new_timerange. rewrite !u64_small by done. rewrite IH, reverse_cons, <-app_assoc. by destruct r.
  - intros c Hc ->. apply clock_chars in Hc as [Hc|Hc]; [|done|lia]. by vm_compute in Hc.
Qed.

Lemma joined l oss : oss <> [] ->
  fold_left (fun oss it => (match oss with [] => [] | _ => oss ++ [x2c] end) ++ to_string it) l oss
  = oss ++ concat ((fun r => x2c :: to_string r) <$> l).
Proof.
  revert oss. induction l as [|r l IH]; intros oss Ho; cbn [fold_left fmap list_fmap concat]; [by rewrite app_nil_r|].
  rewrite IH; [|by destruct oss]. destruct oss; [done|]. by rewrite <-!app_assoc.
Qed.

Lemma intercalate_cons p ps : Str.intercalate x2c (p :: ps) = p ++ concat ((fun q => x2c :: q) <$> ps).
Proof.
  revert p. induction ps as [|q ps IH]; intros p; [by rewrite app_nil_r|].
  cbn [Str.intercalate fmap list_fmap concat]. f_equal. cbn [app]. f_equal. apply IH.
Qed.

(** The text of a list of time ranges is read back into its ranges, put one
    by one in front of those already there. *)
Theorem timeranges_roundtrip l acc : Forall range_ok l ->
  build_timeranges_from_string (build_string_from_timeranges l) acc = (true, reverse l ++ acc).
Proof.
  intros H. destruct l as [|r l]; [done|]. unfold build_string_from_timeranges. cbn [fold_left app].
  destruct (to_string_cons r) as (c & t & E). rewrite joined by by rewrite E.
  unfold build_timeranges_from_string. assert (Hne : to_string r ++ concat ((fun r => x2c :: to_string r) <$> l) <> []) by by rewrite E.
  destruct (_ ++ _) as [|b s] eqn:Es; [done|]. rewrite <-Es. clear Hne E Es.
  rewrite (proj2 (Str.split_spec _ x2c (to_string <$> (r :: l)))); [by apply build_ranges_text|].
  split; [done|]. split.
  - by rewrite fmap_cons, intercalate_cons, <-list_fmap_compose.
  - apply Forall_fmap, Forall_forall. intros r' Hr'%(proj1 (Forall_forall _ _) H). cbn. intros Hin.
    apply to_string_chars in Hin as [Hin|[Hin|Hin]]; [by vm_compute in Hin|done..].
Qed.

Lemma timeranges_roundtrip_witness :
  build_timeranges_from_string (build_string_from_timeranges [Timerange 43200 28800; Timerange 86400 50400]) []
  = (true, [Timerange 86400 50400; Timerange 43200 28800]).
Proof.
  apply (timeranges_roundtrip [Timerange 43200 28800; Timerange 86400 50400] []).
  repeat constructor; vm_compute; discriminate || reflexivity.
Defined.

End TimeRange.
