(* ===== verification/DateRange.v ===== *)
(** * Date ranges (core/src/time/daterange.cc)

    The exceptions of a time period: calendar dates, days of a month, the n-th
    weekday of a month, with their texts and the instants they stand for. *)

From Stdlib Require Import ZArith Lia ZifyNat ZifyBool Strings.Byte.
From stdpp Require Import base option list numbers strings.
From S2P Require Import Prelude Double CTime TimeRange Scanf.
Import CTime.

Module DateRange.

Inductive type_range : Type := none | calendar_date | month_date | month_day | month_week_day | week_day.

#[global] Instance type_range_eq_dec : EqDecision type_range.
Proof. solve_decision. Defined.

(** The values of the enumeration. *)
Definition type_value (t : type_range) : Z :=
  match t with
  | none => -1 | calendar_date => 0 | month_date => 1 | month_day => 2 | month_week_day => 3 | week_day => 4
  end.

Definition daterange_types : nat := 5.

Record daterange : Type := Daterange {
  _month_end : Z;
  _month_start : Z;
  _month_day_end : Z;
  _month_day_start : Z;
  _skip_interval : Z;
  _timeranges : list TimeRange.timerange;
  _type : type_range;
  _week_day_end : Z;
  _week_day_start : Z;
  _week_day_end_offset : Z;
  _week_day_start_offset : Z;
  _year_end : Z;
  _year_start : Z
}.

#[global] Instance daterange_eq_dec : EqDecision daterange.
Proof. solve_decision. Defined.

Definition new_daterange (type : type_range) : daterange := Daterange 0 0 0 0 0 [] type 0 0 0 0 0 0.

Fixpoint timeranges_eqb (l l' : list TimeRange.timerange) : bool :=
  match l, l' with
  | [], [] => true
  | r :: l, r' :: l' => TimeRange.timerange_eqb r r' && timeranges_eqb l l'
  | _, _ => false
  end.

(** operator< of std::list. *)
Fixpoint timeranges_ltb (l l' : list TimeRange.timerange) : bool :=
  match l, l' with
  | _, [] => false
  | [], _ => true
  | r :: l, r' :: l' =>
    if TimeRange.timerange_ltb r r' then true
    else if TimeRange.timerange_ltb r' r then false else timeranges_ltb l l'
  end.

Definition daterange_eqb (left right : daterange) : bool :=
  (_month_end left =? _month_end right) && (_month_start left =? _month_start right)
  && (_month_day_end left =? _month_day_end right) && (_month_day_start left =? _month_day_start right)
  && (_skip_interval left =? _skip_interval right) && timeranges_eqb (_timeranges left) (_timeranges right)
  && bool_decide (_type left = _type right)
  && (_week_day_end left =? _week_day_end right) && (_week_day_start left =? _week_day_start right)
  && (_week_day_end_offset left =? _week_day_end_offset right)
  && (_week_day_start_offset left =? _week_day_start_offset right)
  && (_year_end left =? _year_end right) && (_year_start left =? _year_start right).

Definition daterange_ltb (left right : daterange) : bool :=
  if negb (_month_end left =? _month_end right) then _month_end left <? _month_end right
  else if negb (_month_start left =? _month_start right) then _month_start left <? _month_start right
  else if negb (_month_day_end left =? _month_day_end right) then _month_day_end left <? _month_day_end right
  else if negb (_month_day_start left =? _month_day_start right) then _month_day_start left <? _month_day_start right
  else if negb (_skip_interval left =? _skip_interval right) then _skip_interval left <? _skip_interval right
  else if negb (type_value (_type left) =? type_value (_type right)) then type_value (_type left) <? type_value (_type right)
  else if negb (_week_day_end left =? _week_day_end right) then _week_day_end left <? _week_day_end right
  else if negb (_week_day_start left =? _week_day_start right) then _week_day_start left <? _week_day_start right
  else if negb (_week_day_end_offset left =? _week_day_end_offset right) then _week_day_end_offset left <? _week_day_end_offset right
  else if negb (_week_day_start_offset left =? _week_day_start_offset right) then _week_day_start_offset left <? _week_day_start_offset right
  else if negb (_year_end left =? _year_end right) then _year_end left <? _year_end right
  else if negb (_year_start left =? _year_start right) then _year_start left <? _year_start right
  else timeranges_ltb (_timeranges left) (_timeranges right).

(** ** Instants

    [uninit] is the content of the local variable [tm t] before it is
    assigned: in some branches not all of its fields are. *)

Section Instants.
Variables (z : zone) (uninit : tm).

Definition date (x : tm) (year month mday : Z) : tm :=
  Tm (tm_sec x) (tm_min x) (tm_hour x) mday month year (tm_wday x) (-1).

Definition _add_round_days_to_midnight (midnight skip : Z) : Z :=
  let next_day_time := midnight + skip in
  let next_day := localtime_r z next_day_time in
  if negb (tm_hour next_day =? 0) || negb (tm_min next_day =? 0) || negb (tm_sec next_day =? 0) then
    let next_day_time := next_day_time + (12 * 60 * 60 + skip) in
    fst (mktime z (at_clock (localtime_r z next_day_time) 0 0 0))
  else next_day_time.

(** Backing up from [day] by [step] days until the month is the one asked. *)
Fixpoint back_up (fuel : nat) (step year month day : Z) (t : tm) : outcome tm :=
  match fuel with
  | O => Diverges
  | S fuel =>
    let day := day - step in
    let '(midnight, t) := mktime z (date t year month day) in
    if (midnight =? -1) || negb (tm_mon t =? month) then back_up fuel step year month day t else Returns t
  end.

(** Turns allowed to the loops that look for a day. *)
Definition turns : nat := 64.

Definition calculate_time_from_day_of_month (year month monthday : Z) : outcome Z :=
  if 0 <? monthday then
    let '(midnight, t) := mktime z (date (at_clock uninit 0 0 0) year month monthday) in
    Returns (if negb (tm_mon t =? month) then -1 else midnight)
  else
    t ← back_up turns 1 year month 32 uninit;
    let mday := if tm_mday t <=? - monthday then 1 else tm_mday t + monthday + 1 in
    Returns (fst (mktime z (date t year month mday))).

Definition calculate_time_from_weekday_of_month (year month weekday weekday_offset : Z) : outcome Z :=
  let '(_, t) := mktime z (date (at_clock uninit 0 0 0) year month 1) in
  let days := weekday - tm_wday t in
  let days := if days <? 0 then days + 7 else days in
  if 0 <? weekday_offset then
    let weeks := if 5 <? weekday_offset then 5 else weekday_offset in
    let days := days + (weeks - 1) * 7 in
    let '(midnight, t) := mktime z (date t year month (days + 1)) in
    Returns (if negb (tm_mon t =? month) then -1 else midnight)
  else
    t ← back_up turns 7 year month (days + 5 * 7 + 1) t;
    let days := (weekday_offset + 1) * 7 in
    let mday := if tm_mday t <=? - days then Z.rem (tm_mday t) 7 else tm_mday t + days in
    Returns (fst (mktime z (date t year month mday))).

(** The conversions give the start and the end, or nothing. *)
Definition _calendar_date_to_time_t (r : daterange) : option (Z * Z) :=
  let t := Tm 0 0 0 (_month_day_start r) (i32 (_month_start r)) (i32 (u32 (_year_start r - 1900))) (tm_wday uninit) (-1) in
  let '(start, t) := mktime z t in
  if start =? -1 then None
  else if negb (_year_end r =? 0) then
    let t := Tm 59 59 23 (_month_day_end r) (i32 (_month_end r)) (i32 (u32 (_year_end r - 1900))) (tm_wday t) (tm_isdst t) in
    let end_ := fst (mktime z t) in
    if end_ =? -1 then None else Some (start, end_ + 1)
  else Some (start, -1).

Record time_info : Type := Time_info { midnight : Z; preferred_time : Z; preftime : tm }.

Definition _month_date_to_time_t (r : daterange) (ti : time_info) : outcome (option (Z * Z)) :=
  let year := tm_year (preftime ti) in
  start ← calculate_time_from_day_of_month year (i32 (_month_start r)) (_month_day_start r);
  if start =? 0 then Returns None
  else
    end_ ← calculate_time_from_day_of_month year (i32 (_month_end r)) (_month_day_end r);
    '(year, end_) ←
      (if end_ <? start then
         end_ ← calculate_time_from_day_of_month (year + 1) (i32 (_month_end r)) (_month_day_end r);
         Returns (year + 1, end_)
       else Returns (year, end_));
    if end_ =? 0 then
      if _month_day_end r <? 0 then Returns None
      else end_ ← calculate_time_from_day_of_month year (i32 (_month_end r)) (-1); Returns (Some (start, end_))
    else Returns (Some (start, end_)).

(** The month after, and its year. *)
Definition next_month (year month : Z) : Z * Z := if negb (month =? 11) then (year, month + 1) else (year + 1, 0).

Definition _month_day_to_time_t (r : daterange) (ti : time_info) : outcome (option (Z * Z)) :=
  let '(year, month) :=
    if _month_day_end r <? tm_mday (preftime ti) then next_month (tm_year (preftime ti)) (tm_mon (preftime ti))
    else (tm_year (preftime ti), tm_mon (preftime ti)) in
  start ← calculate_time_from_day_of_month year month (_month_day_start r);
  if start =? -1 then Returns None
  else
    end_ ← calculate_time_from_day_of_month year month (_month_day_end r);
    if end_ =? -1 then
      if _month_day_end r <? 0 then Returns None
      else
        let '(year, month) := next_month year month in
        end_ ← calculate_time_from_day_of_month year month 0; Returns (Some (start, end_))
    else Returns (Some (start, _add_round_days_to_midnight end_ (24 * 60 * 60))).

Fixpoint month_week_day_loop (fuel : nat) (r : daterange) (ti : time_info) (year : Z) : outcome (option (Z * Z)) :=
  match fuel with
  | O => Diverges
  | S fuel =>
    start ← calculate_time_from_weekday_of_month year (i32 (_month_start r)) (_week_day_start r) (_week_day_start_offset r);
    if start =? -1 then Returns None
    else
      end_ ← calculate_time_from_weekday_of_month year (i32 (_month_end r)) (_week_day_end r) (_week_day_end_offset r);
      end_ ←
        (if negb (end_ =? -1) && (end_ <? start)
         then calculate_time_from_weekday_of_month (year + 1) (i32 (_month_end r)) (_week_day_end r) (_week_day_end_offset r)
         else Returns end_);
      end_ ←
        (if end_ =? -1 then
           if _week_day_end_offset r <? 0 then Returns None
           else
             let '(end_year, end_month) := next_month year (_month_end r) in
             end_ ← calculate_time_from_day_of_month end_year (i32 end_month) 0;
             Returns (if end_ =? -1 then None else Some end_)
         else Returns (Some (_add_round_days_to_midnight end_ (24 * 60 * 60))));
      match end_ with
      | None => Returns None
      | Some end_ =>
        if preferred_time ti <? end_ then Returns (Some (start, end_))
        else month_week_day_loop fuel r ti (year + 1)
      end
  end.

Definition _month_week_day_to_time_t (r : daterange) (ti : time_info) : outcome (option (Z * Z)) :=
  month_week_day_loop turns r ti (tm_year (preftime ti)).

Fixpoint week_day_loop (fuel : nat) (r : daterange) (ti : time_info) (year month : Z) : outcome (option (Z * Z)) :=
  match fuel with
  | O => Diverges
  | S fuel =>
    start ← calculate_time_from_weekday_of_month year month (_week_day_start r) (_week_day_start_offset r);
    end_ ← calculate_time_from_weekday_of_month year month (_week_day_end r) (_week_day_end_offset r);
    if (end_ =? -1) && (_week_day_end_offset r <? 0) then Returns None
    else
      end_ ←
        (if end_ =? -1 then
           let '(end_year, end_month) := next_month year month in
           calculate_time_from_day_of_month end_year end_month 0
         else Returns (_add_round_days_to_midnight end_ (24 * 60 * 60)));
      if (start =? -1) || (end_ =? -1) || (end_ <? start) then Returns None
      else if preferred_time ti <? end_ then Returns (Some (start, end_))
      else
        let month := tm_mon (preftime ti) in
        let '(year, month) := next_month year month in week_day_loop fuel r ti year month
  end.

Definition _week_day_to_time_t (r : daterange) (ti : time_info) : outcome (option (Z * Z)) :=
  week_day_loop turns r ti (tm_year (preftime ti)) (tm_mon (preftime ti)).

Definition new_time_info (preferred_time : Z) : time_info :=
  let '(midnight, preftime) := mktime z (at_clock (localtime_r z preferred_time) 0 0 0) in
  Time_info midnight preferred_time preftime.

(** From the start, the next day that is not skipped. *)
Definition skip_days (r : daterange) (ti : time_info) (start : Z) : Z :=
  if (1 <? _skip_interval r) && (start <? preferred_time ti) then
    let days := u64 (midnight ti - start) / (3600 * 24) in
    if days mod _skip_interval r =? 0 then _add_round_days_to_midnight start (days * 24 * 60 * 60)
    else _add_round_days_to_midnight start ((days - days mod _skip_interval r + _skip_interval r) * 24 * 60 * 60)
  else start.

Definition to_time_t (r : daterange) (preferred_time : Z) : outcome (option (Z * Z)) :=
  let ti := new_time_info preferred_time in
  ret ← match _type r with
        | calendar_date => Returns (_calendar_date_to_time_t r)
        | month_date => _month_date_to_time_t r ti
        | month_day => _month_day_to_time_t r ti
        | month_week_day => _month_week_day_to_time_t r ti
        | week_day => _week_day_to_time_t r ti
        | none => Returns None
        end;
  Returns ('(start, end_) ← ret; Some (skip_days r ti start, end_)).

End Instants.

(** ** Texts *)

Definition months : list cstring :=
  [str "january"; str "february"; str "march"; str "april"; str "may"; str "june"; str "july"; str "august";
   str "september"; str "october"; str "november"; str "december"].
Definition days : list cstring :=
  [str "sunday"; str "monday"; str "tuesday"; str "wednesday"; str "thursday"; str "friday"; str "saturday"].

(** The index of a name, the number of names when there is none. *)
Fixpoint name_id (names : list cstring) (name : cstring) (id : Z) : bool * Z :=
  match names with
  | [] => (false, id)
  | n :: names => if cstring_eqb name n then (true, id) else name_id names name (id + 1)
  end.

Definition _get_month_id (name : cstring) : bool * Z := name_id months name 0.
Definition _get_day_id (name : cstring) : bool * Z := name_id days name 0.

(** The local variables of the two parsers. *)
Record vars : Type := Vars {
  v_pos : Z;
  v_month_start : Z;
  v_month_end : Z;
  v_month_day_start : Z;
  v_month_day_end : Z;
  v_year_start : Z;
  v_year_end : Z;
  v_skip_interval : Z;
  v_week_day_start : Z;
  v_week_day_end : Z;
  v_week_day_start_offset : Z;
  v_week_day_end_offset : Z;
  v_buffer0 : cstring;
  v_buffer1 : cstring;
  v_buffer2 : cstring;
  v_buffer3 : cstring
}.

Definition no_vars : vars := Vars 0 0 0 0 0 0 0 0 0 0 0 0 [] [] [] [].

Definition set_pos x '(Vars _ a b c d e f g h i j k l m n o) := Vars x a b c d e f g h i j k l m n o.
Definition set_month_start x '(Vars p _ b c d e f g h i j k l m n o) := Vars p x b c d e f g h i j k l m n o.
Definition set_month_end x '(Vars p a _ c d e f g h i j k l m n o) := Vars p a x c d e f g h i j k l m n o.
Definition set_month_day_start x '(Vars p a b _ d e f g h i j k l m n o) := Vars p a b x d e f g h i j k l m n o.
Definition set_month_day_end x '(Vars p a b c _ e f g h i j k l m n o) := Vars p a b c x e f g h i j k l m n o.
Definition set_year_start x '(Vars p a b c d _ f g h i j k l m n o) := Vars p a b c d x f g h i j k l m n o.
Definition set_year_end x '(Vars p a b c d e _ g h i j k l m n o) := Vars p a b c d e x g h i j k l m n o.
Definition set_skip_interval x '(Vars p a b c d e f _ h i j k l m n o) := Vars p a b c d e f x h i j k l m n o.
Definition set_week_day_start x '(Vars p a b c d e f g _ i j k l m n o) := Vars p a b c d e f g x i j k l m n o.
Definition set_week_day_end x '(Vars p a b c d e f g h _ j k l m n o) := Vars p a b c d e f g h x j k l m n o.
Definition set_week_day_start_offset x '(Vars p a b c d e f g h i _ k l m n o) := Vars p a b c d e f g h i x k l m n o.
Definition set_week_day_end_offset x '(Vars p a b c d e f g h i j _ l m n o) := Vars p a b c d e f g h i j x l m n o.
Definition set_buffer0 x '(Vars p a b c d e f g h i j k _ m n o) := Vars p a b c d e f g h i j k x m n o.
Definition set_buffer1 x '(Vars p a b c d e f g h i j k l _ n o) := Vars p a b c d e f g h i j k l x n o.
Definition set_buffer2 x '(Vars p a b c d e f g h i j k l m _ o) := Vars p a b c d e f g h i j k l m x o.
Definition set_buffer3 x '(Vars p a b c d e f g h i j k l m n _) := Vars p a b c d e f g h i j k l m n x.

Abbreviation format := (list (Scanf.directive vars)).

(** %4u-%2u-%2u into three variables, and the separators. *)
Definition ymd (year month mday : Z -> vars -> vars) : format :=
  [Scanf.Unsigned (Some 4%nat) year; Scanf.Char x2d; Scanf.Unsigned (Some 2%nat) month; Scanf.Char x2d;
   Scanf.Unsigned (Some 2%nat) mday].
Definition minus : format := [Scanf.Space; Scanf.Char x2d; Scanf.Space].
Definition slash : format := [Scanf.Space; Scanf.Char x2f; Scanf.Space; Scanf.Unsigned None set_skip_interval].
Definition end_pos : format := [Scanf.Space; Scanf.Count set_pos].

Definition start_date : format := ymd set_year_start set_month_start set_month_day_start.
Definition end_date : format := ymd set_year_end set_month_end set_month_day_end.

(** The exceptions of a time period: a list for each type. *)
Abbreviation exceptions := (list (list daterange)).

Definition push (type : type_range) (r : daterange) (l : exceptions) : exceptions :=
  alter (fun rs => r :: rs) (Z.to_nat (type_value type)) l.

Definition with_timeranges (r : daterange) (l : list TimeRange.timerange) : daterange :=
  Daterange (_month_end r) (_month_start r) (_month_day_end r) (_month_day_start r) (_skip_interval r) l (_type r)
    (_week_day_end r) (_week_day_start r) (_week_day_end_offset r) (_week_day_start_offset r) (_year_end r) (_year_start r).

Definition build_calendar_date (line : cstring) (l : exceptions) : bool * exceptions :=
  let '(ret, v) := Scanf.sscanf line (start_date ++ minus ++ end_date ++ slash ++ end_pos) no_vars in
  let '(ret, v) :=
    if ret =? 7 then (ret, v)
    else
      let '(ret, v) := Scanf.sscanf line (start_date ++ minus ++ end_date ++ end_pos) v in
      if ret =? 6 then (ret, v)
      else
        let '(ret, v) := Scanf.sscanf line (start_date ++ slash ++ end_pos) v in
        if ret =? 4 then (ret, set_year_end 0 (set_month_end 0 (set_month_day_end 0 v)))
        else
          let '(ret, v) := Scanf.sscanf line (start_date ++ end_pos) v in
          if ret =? 3 then
            (ret, set_year_end (v_year_start v) (set_month_end (v_month_start v) (set_month_day_end (v_month_day_start v) v)))
          else (ret, v) in
  if negb (ret =? 0) then
    match TimeRange.build_timeranges_from_string (drop (Z.to_nat (v_pos v)) line) [] with
    | (false, _) => (false, l)
    | (true, timeranges) =>
      let range := Daterange (u32 (v_month_end v - 1)) (u32 (v_month_start v - 1)) (i32 (v_month_day_end v))
                     (i32 (v_month_day_start v)) (v_skip_interval v) timeranges calendar_date 0 0 0 0
                     (v_year_end v) (v_year_start v) in
      (true, push calendar_date range l)
    end
  else (false, l).

(** %[a-z] %d into two variables. *)
Definition word_number (word : cstring -> vars -> vars) (number : Z -> vars -> vars) : format :=
  [Scanf.Word word; Scanf.Space; Scanf.Decimal number].
Definition then_word (word : cstring -> vars -> vars) : format := [Scanf.Space; Scanf.Word word].

Definition is_day (w : cstring) : bool := cstring_eqb w (str "day").

(** A pair of names: days, months, or the word day. *)
Definition two_names (v : vars) : type_range * vars :=
  let '(b0, d0) := _get_day_id (v_buffer0 v) in
  let v := set_week_day_start d0 v in
  let '(b1, v) := if b0 then let '(b, d) := _get_day_id (v_buffer1 v) in (b, set_week_day_end d v) else (false, v) in
  if b1 then
    (week_day, set_week_day_start_offset (v_month_day_start v) (set_week_day_end_offset (v_month_day_end v) v))
  else
    let '(b0, m0) := _get_month_id (v_buffer0 v) in
    let v := set_month_start m0 v in
    let '(b1, v) := if b0 then let '(b, m) := _get_month_id (v_buffer1 v) in (b, set_month_end m v) else (false, v) in
    if b1 then (month_date, v)
    else if is_day (v_buffer0 v) && is_day (v_buffer1 v) then (month_day, v) else (none, v).

(** One name, for both ends; [single] when there is one number too. *)
Definition one_name (single : bool) (v : vars) : type_range * vars :=
  let '(b, d) := _get_day_id (v_buffer0 v) in
  let v := set_week_day_start d v in
  if b then
    let v := set_week_day_start_offset (v_month_day_start v) v in
    let v := set_week_day_end (v_week_day_start v) v in
    (week_day, set_week_day_end_offset (if single then v_week_day_start_offset v else v_month_day_end v) v)
  else
    let '(b, m) := _get_month_id (v_buffer0 v) in
    let v := set_month_start m v in
    if b then
      let v := set_month_end (v_month_start v) v in
      (month_date, if single then set_month_day_end (v_month_day_start v) v else v)
    else if is_day (v_buffer0 v) then
      (month_day, if single then set_month_day_end (v_month_day_start v) v else v)
    else (none, v).

(** A weekday of a month to another. *)
Definition two_weekdays (v : vars) : type_range * vars :=
  let '(b, d) := _get_day_id (v_buffer0 v) in let v := set_week_day_start d v in
  if negb b then (none, v) else
  let '(b, m) := _get_month_id (v_buffer1 v) in let v := set_month_start m v in
  if negb b then (none, v) else
  let '(b, d) := _get_day_id (v_buffer2 v) in let v := set_week_day_end d v in
  if negb b then (none, v) else
  let '(b, m) := _get_month_id (v_buffer3 v) in let v := set_month_end m v in
  if negb b then (none, v) else (month_week_day, v).

Definition one_weekday (v : vars) : type_range * vars :=
  let '(b, d) := _get_day_id (v_buffer0 v) in let v := set_week_day_start d v in
  if negb b then (none, v) else
  let '(b, m) := _get_month_id (v_buffer1 v) in let v := set_month_start m v in
  if negb b then (none, v) else
  (month_week_day,
    set_week_day_end_offset (v_week_day_start_offset v) (set_week_day_end (v_week_day_start v) (set_month_end (v_month_start v) v))).

Definition weekday_month (b b' : cstring -> vars -> vars) (offset : Z -> vars -> vars) : format :=
  word_number b offset ++ then_word b'.

(** The formats in the order they are tried: the conversions a match stores,
    and what the names it read stand for. *)
Definition other_formats : list (format * Z * (vars -> type_range * vars)) :=
  [(weekday_month set_buffer0 set_buffer1 set_week_day_start_offset ++ minus
    ++ weekday_month set_buffer2 set_buffer3 set_week_day_end_offset ++ slash ++ end_pos, 7, two_weekdays);
   (word_number set_buffer0 set_month_day_start ++ minus ++ word_number set_buffer1 set_month_day_end ++ slash ++ end_pos,
    5, two_names);
   (word_number set_buffer0 set_month_day_start ++ minus ++ [Scanf.Decimal set_month_day_end] ++ slash ++ end_pos,
    4, one_name false);
   (weekday_month set_buffer0 set_buffer1 set_week_day_start_offset ++ minus
    ++ weekday_month set_buffer2 set_buffer3 set_week_day_end_offset ++ end_pos, 6, two_weekdays);
   (word_number set_buffer0 set_month_day_start ++ minus ++ [Scanf.Decimal set_month_day_end] ++ end_pos, 3, one_name false);
   (word_number set_buffer0 set_month_day_start ++ minus ++ word_number set_buffer1 set_month_day_end ++ end_pos,
    4, two_names);
   (weekday_month set_buffer0 set_buffer1 set_week_day_start_offset ++ end_pos, 3, one_weekday);
   (word_number set_buffer0 set_month_day_start ++ end_pos, 2, one_name true)].

Fixpoint try_formats (l : list (format * Z * (vars -> type_range * vars))) (line : cstring) (v : vars) : type_range * vars :=
  match l with
  | [] => (none, v)
  | (fmt, stored, f) :: l =>
    let '(ret, v) := Scanf.sscanf line fmt v in
    if ret =? stored then f v else try_formats l line v
  end.

Definition build_other_date (line : cstring) (l : exceptions) : bool * exceptions :=
  if (1024 <? length line)%nat then (false, l)
  else
    let '(type, v) := try_formats other_formats line no_vars in
    let skip := v_skip_interval v in
    let range :=
      match type with
      | month_day => Daterange 0 0 (v_month_day_end v) (v_month_day_start v) skip [] type 0 0 0 0 0 0
      | month_week_day =>
        Daterange (v_month_end v) (v_month_start v) 0 0 skip [] type (v_week_day_end v) (v_week_day_start v)
          (v_week_day_end_offset v) (v_week_day_start_offset v) 0 0
      | week_day =>
        Daterange 0 0 0 0 skip [] type (v_week_day_end v) (v_week_day_start v)
          (v_week_day_end_offset v) (v_week_day_start_offset v) 0 0
      | month_date =>
        Daterange (v_month_end v) (v_month_start v) (v_month_day_end v) (v_month_day_start v) skip [] type 0 0 0 0 0 0
      | _ => new_daterange type
      end in
    if bool_decide (type = none) then (false, l)
    else
      match TimeRange.build_timeranges_from_string (drop (Z.to_nat (v_pos v)) line) [] with
      | (false, _) => (false, l)
      | (true, timeranges) => (true, push type (with_timeranges range timeranges) l)
      end.

Definition build_dateranges_from_string (value : cstring) (l : exceptions) : bool * exceptions :=
  let '(b, l) := build_calendar_date value l in
  if b then (true, l) else build_other_date value l.

(** ** Examples of the texts *)

Definition no_exceptions : exceptions := replicate daterange_types [].

Definition parsed (s : String.string) : bool * exceptions := build_dateranges_from_string (str s) no_exceptions.

(** ** Days of a month

    In a zone of constant offset. A month is the number of months from year 0. *)

Section Fixed.
Variable off : Z.
Abbreviation z := (fixed off).

(** Midnight of the day [d] of a month. *)
Definition midnight_of (k d : Z) : Z := (first_day k + d - 1) * 86400 - off.

Lemma seconds_month x k d : tm_mon x = k mod 12 -> tm_year x = k / 12 - 1900 -> tm_mday x = d ->
  seconds x = (first_day k + d - 1) * 86400 + clock x.
Proof.
  intros Hm Hy Hd. unfold seconds, clock, first_day. rewrite Hm, Hy, Hd.
  pose proof (Z.mod_pos_bound k 12 eq_refl) as Hk. rewrite (Z.div_small (k mod 12)), (Z.mod_small (k mod 12)) by lia.
  replace (k / 12 - 1900 + 1900 + 0) with (k / 12) by lia. lia.
Qed.

(** A time in a month. *)
Lemma civil_month k d c : 1 <= d <= month_length k -> 0 <= c < 86400 ->
  let x := civil ((first_day k + d - 1) * 86400 + c) in
  tm_mon x = k mod 12 /\ tm_year x = k / 12 - 1900 /\ tm_mday x = d /\ clock x = c.
Proof.
  intros Hd Hc x. assert (E : ((first_day k + d - 1) * 86400 + c) / 86400 = first_day k + d - 1)
    by (rewrite Z.div_add_l, Z.div_small by lia; lia).
  assert (Ex : clock x = c).
  { unfold x. rewrite clock_civil. rewrite Z.add_comm, Z.mod_add, Z.mod_small by lia. done. }
  split_and!; [..|done]; unfold x, civil; rewrite E, date_of_days by done; cbn [tm_mon tm_year tm_mday]; lia.
Qed.

Lemma month_length_range k : 28 <= month_length k <= 31.
Proof. apply days_in_month_ge. Qed.

(** The months of a day that is past the end of one. *)
Lemma civil_overflow k d : month_length k < d <= 50 -> tm_mon (civil ((first_day k + d - 1) * 86400)) <> k mod 12.
Proof.
  intros Hd. pose proof (month_length_range k). pose proof (month_length_range (k + 1)).
  destruct (civil_month (k + 1) (d - month_length k) 0) as (E & _); [lia|lia|].
  rewrite Z.add_0_r, first_day_next in E. replace (first_day k + month_length k + (d - month_length k) - 1) with (first_day k + d - 1) in E by lia.
  rewrite E. Z.to_euclidean_division_equations; lia.
Qed.

Lemma seconds_date x k d : seconds (date (at_clock x 0 0 0) (k / 12 - 1900) (k mod 12) d) = (first_day k + d - 1) * 86400.
Proof. rewrite (seconds_month _ k d) by done. unfold clock. cbn. lia. Qed.

Lemma day_of_month_spec uninit k d : 0 < d <= 31 ->
  calculate_time_from_day_of_month z uninit (k / 12 - 1900) (k mod 12) d
  = Returns (if d <=? month_length k then midnight_of k d else -1).
Proof.
  intros Hd. unfold calculate_time_from_day_of_month. rewrite (proj2 (Z.ltb_lt 0 d)) by lia. cbn [mktime fixed].
  rewrite seconds_date. destruct (Z.leb_spec d (month_length k)) as [H|H].
  - destruct (civil_month k d 0) as (E & _); [lia..|]. rewrite Z.add_0_r in E. by rewrite E, Z.eqb_refl.
  - pose proof (civil_overflow k d ltac:(lia)) as E. by rewrite (proj2 (Z.eqb_neq _ _)).
Qed.

(** The zone is ahead by whole minutes, so that no midnight is the time -1. *)
Hypothesis whole : off mod 60 = 0.

Lemma midnight_not_error k d : midnight_of k d <> -1.
Proof. unfold midnight_of. intros E. Z.to_euclidean_division_equations; lia. Qed.

Lemma seconds_clock x k d : clock x = 0 -> seconds (date x (k / 12 - 1900) (k mod 12) d) = (first_day k + d - 1) * 86400.
Proof. intros Hx. rewrite (seconds_month _ k d) by done. unfold clock in *. cbn in *. lia. Qed.

Lemma clock_midnight n : clock (civil (n * 86400)) = 0.
Proof. rewrite clock_civil. apply Z.mod_mul. lia. Qed.

(** The last day, by steps of [step], that is in the month. *)
Lemma back_up_spec fuel step x k day d : 0 < step -> clock x = 0 -> day <= 50 ->
  1 <= d <= month_length k -> month_length k < d + step -> (day - d) mod step = 0 -> d < day ->
  day - d <= Z.of_nat fuel * step ->
  exists t, back_up z fuel step (k / 12 - 1900) (k mod 12) day x = Returns t /\ tm_mday t = d /\ clock t = 0.
Proof.
  intros Hs Hx Hday Hd Hlast Hmod Hlt Hf. revert x day Hx Hday Hmod Hlt Hf.
  induction fuel as [|fuel IH]; intros x day Hx Hday Hmod Hlt Hf; [lia|]. cbn [back_up mktime fixed].
  rewrite seconds_clock by done.
  assert (Hq : exists q, day - d = q * step /\ 1 <= q).
  { apply Z.mod_divide in Hmod as [q Hq]; [|lia]. exists q. split; [done|]. nia. }
  destruct Hq as (q & Hq & Hq1). destruct (Z.eq_dec q 1) as [->|Hne].
  - replace (day - step) with d by lia. destruct (civil_month k d 0) as (Em & _ & Ed & Ec); [lia..|]. rewrite Z.add_0_r in *.
    rewrite Em, Z.eqb_refl. fold (midnight_of k d). rewrite (proj2 (Z.eqb_neq _ _) (midnight_not_error k d)). cbn [orb negb].
    by eexists.
  - pose proof (civil_overflow k (day - step) ltac:(nia)) as E. apply Z.eqb_neq in E. rewrite E.
    rewrite orb_true_r. apply IH; [apply clock_midnight|lia| |nia|lia].
    replace (day - step - d) with ((q - 1) * step) by lia. by apply Z.mod_mul; lia.
Qed.

(** A day counted from the end of the month, kept in the month. *)
Lemma last_days_spec uninit k d : clock uninit = 0 -> d < 0 ->
  calculate_time_from_day_of_month z uninit (k / 12 - 1900) (k mod 12) d
  = Returns (midnight_of k (Z.max 1 (month_length k + 1 + d))).
Proof.
  intros Hu Hd. pose proof (month_length_range k) as Hl. unfold calculate_time_from_day_of_month.
  rewrite (proj2 (Z.ltb_ge 0 d)) by lia.
  destruct (back_up_spec turns 1 uninit k 32 (month_length k)) as (t & E & Et & Ec); [lia..| | | |].
  - apply Z.mod_1_r.
  - lia.
  - unfold turns. lia.
  - rewrite E. cbn [mbind outcome_bind mktime fixed fst]. f_equal. rewrite Et.
    unfold midnight_of. rewrite <-(seconds_clock t) by done. do 3 f_equal.
    destruct (Z.leb_spec (month_length k) (- d)); lia.
Qed.

(** Day 0, which the conversions ask for when they mean the end of the month
    before, is the first day of the month after. *)
Lemma day_zero uninit k : clock uninit = 0 ->
  calculate_time_from_day_of_month z uninit (k / 12 - 1900) (k mod 12) 0 = Returns (midnight_of (k + 1) 1).
Proof.
  intros Hu. pose proof (month_length_range k) as Hl. unfold calculate_time_from_day_of_month. cbn [Z.ltb Z.compare].
  destruct (back_up_spec turns 1 uninit k 32 (month_length k)) as (t & E & Et & Ec); [lia..| | | |].
  - apply Z.mod_1_r.
  - lia.
  - unfold turns. lia.
  - rewrite E. cbn [mbind outcome_bind mktime fixed fst]. f_equal. rewrite Et.
    rewrite (proj2 (Z.leb_gt _ _)) by lia. rewrite seconds_clock by done. unfold midnight_of. rewrite first_day_next. lia.
Qed.

(** ** Weekdays of a month *)

(** The first day of the month that is the weekday [w]. *)
Definition first_weekday (k w : Z) : Z := (w - weekday (first_day k)) mod 7 + 1.

Lemma first_weekday_spec k w : 0 <= w < 7 ->
  1 <= first_weekday k w <= 7 /\ weekday (first_day k + first_weekday k w - 1) = w.
Proof.
  intros Hw. unfold first_weekday. pose proof (Z.mod_pos_bound (w - weekday (first_day k)) 7 eq_refl). split; [lia|].
  unfold weekday. Z.to_euclidean_division_equations; lia.
Qed.

Lemma first_weekday_days k w : 0 <= w < 7 ->
  (if w - weekday (first_day k) <? 0 then w - weekday (first_day k) + 7 else w - weekday (first_day k)) = first_weekday k w - 1.
Proof.
  intros Hw. pose proof (weekday_range (first_day k)). unfold first_weekday.
  destruct (Z.ltb_spec (w - weekday (first_day k)) 0); Z.to_euclidean_division_equations; lia.
Qed.

Lemma weekday_of_month_first x k : clock x = 0 ->
  civil (seconds (date x (k / 12 - 1900) (k mod 12) 1)) = civil (first_day k * 86400)
  /\ tm_wday (civil (first_day k * 86400)) = weekday (first_day k).
Proof.
  intros Hx. rewrite seconds_clock by done. replace (first_day k + 1 - 1) with (first_day k) by lia.
  split; [done|]. rewrite civil_wday. by rewrite Z.div_mul.
Qed.

(** The [n]-th weekday [w] of the month, when there is one. *)
Lemma weekday_of_month_spec uninit k w n : 0 <= w < 7 -> 0 < n <= 5 ->
  let d := first_weekday k w + (n - 1) * 7 in
  calculate_time_from_weekday_of_month z uninit (k / 12 - 1900) (k mod 12) w n
  = Returns (if d <=? month_length k then midnight_of k d else -1).
Proof.
  intros Hw Hn d. subst d. set (d := first_weekday k w + (n - 1) * 7). unfold calculate_time_from_weekday_of_month. cbn [mktime fixed].
  destruct (weekday_of_month_first (at_clock uninit 0 0 0) k eq_refl) as [-> ->].
  cbv zeta. rewrite (first_weekday_days k w Hw). rewrite (proj2 (Z.ltb_lt 0 n)), (proj2 (Z.ltb_ge 5 n)) by lia.
  destruct (first_weekday_spec k w Hw) as [Hf _]. pose proof (month_length_range k).
  rewrite seconds_clock by apply clock_midnight. replace (first_weekday k w - 1 + (n - 1) * 7 + 1) with d by lia.
  destruct (Z.leb_spec d (month_length k)) as [Hd|Hd].
  - destruct (civil_month k d 0) as (E & _); [lia..|]. rewrite Z.add_0_r in E. by rewrite E, Z.eqb_refl.
  - pose proof (civil_overflow k d ltac:(lia)) as E. by rewrite (proj2 (Z.eqb_neq _ _)).
Qed.

(** Counted from the end: the last weekday [w] of the month. *)
Definition last_weekday (k w : Z) : Z := first_weekday k w + (month_length k - first_weekday k w) / 7 * 7.

Lemma last_weekday_spec uninit k w n : 0 <= w < 7 -> -4 <= n < 0 ->
  calculate_time_from_weekday_of_month z uninit (k / 12 - 1900) (k mod 12) w n
  = Returns (midnight_of k (last_weekday k w + (n + 1) * 7)).
Proof.
  intros Hw Hn. unfold calculate_time_from_weekday_of_month. cbn [mktime fixed].
  destruct (weekday_of_month_first (at_clock uninit 0 0 0) k eq_refl) as [-> ->].
  cbv zeta. rewrite (first_weekday_days k w Hw). rewrite (proj2 (Z.ltb_ge 0 n)) by lia.
  destruct (first_weekday_spec k w Hw) as [Hf _]. pose proof (month_length_range k) as Hl.
  assert (Hlast : 22 <= last_weekday k w <= month_length k /\ month_length k < last_weekday k w + 7)
    by (unfold last_weekday; Z.to_euclidean_division_equations; lia).
  destruct (back_up_spec turns 7 (civil (first_day k * 86400)) k (first_weekday k w - 1 + 5 * 7 + 1) (last_weekday k w))
    as (t & E & Et & Ec); [lia|apply clock_midnight|lia|lia|lia| |lia|unfold turns; lia|].
  - unfold last_weekday. replace (_ - _) with ((5 - (month_length k - first_weekday k w) / 7) * 7) by lia. by apply Z.mod_mul.
  - rewrite E. cbn [mbind outcome_bind mktime fixed fst]. f_equal. rewrite Et.
    rewrite (proj2 (Z.leb_gt _ _)) by lia. unfold midnight_of. by rewrite seconds_clock.
Qed.

(** *** The instants of a range *)

(** Any time is in a day of a month. *)
Lemma time_in_month t : exists k d c, t = (first_day k + d - 1) * 86400 + c /\ 1 <= d <= month_length k /\ 0 <= c < 86400.
Proof.
  pose proof (civil_days (t / 86400)) as H1. pose proof (civil_day_of_month (t / 86400)) as H2.
  destruct (civil_from_days (t / 86400)) as [[y m] d]. destruct H1 as (H1 & Hm & Hd).
  assert (Ek : (12 * y + (m - 1)) / 12 = y /\ (12 * y + (m - 1)) mod 12 + 1 = m) by (split; Z.to_euclidean_division_equations; lia).
  destruct Ek as [Ey Em]. exists (12 * y + (m - 1)), d, (t mod 86400). unfold first_day, month_length. rewrite Ey, Em.
  assert (E : days_from_civil y m d = days_from_civil y m 1 + d - 1) by (unfold days_from_civil; lia).
  rewrite <-E, H1. split; [|lia]. Z.to_euclidean_division_equations; lia.
Qed.

(** Where the time [p] is: in the day [d] of the month [k]. *)
Definition in_day (p k d : Z) : Prop := 1 <= d <= month_length k /\ midnight_of k d <= p < midnight_of k d + 86400.

Lemma some_day p : exists k d, in_day p k d.
Proof.
  destruct (time_in_month (p + off)) as (k & d & c & E & Hd & Hc). exists k, d. unfold in_day, midnight_of. lia.
Qed.

Lemma time_info_spec p k d : in_day p k d ->
  let ti := new_time_info z p in
  midnight ti = midnight_of k d /\ preferred_time ti = p
  /\ tm_year (preftime ti) = k / 12 - 1900 /\ tm_mon (preftime ti) = k mod 12 /\ tm_mday (preftime ti) = d.
Proof.
  intros [Hd Hp]. unfold new_time_info. cbn [mktime localtime_r fixed].
  assert (E : p + off = (first_day k + d - 1) * 86400 + (p - midnight_of k d)) by (unfold midnight_of; lia).
  rewrite seconds_at_clock, E, Z.div_add_l, Z.div_small by lia.
  replace ((first_day k + d - 1 + 0) * 86400 + 0 * 3600 + 0 * 60 + 0) with ((first_day k + d - 1) * 86400 + 0) by lia.
  destruct (civil_month k d 0) as (Em & Ey & Ed & _); [done|lia|]. cbn [midnight preferred_time preftime].
  rewrite Em, Ey, Ed. unfold midnight_of. split_and!; [lia|done..].
Qed.

Lemma next_month_spec k : next_month (k / 12 - 1900) (k mod 12) = ((k + 1) / 12 - 1900, (k + 1) mod 12).
Proof.
  unfold next_month. destruct (Z.eqb_spec (k mod 12) 11); cbn [negb]; f_equal; Z.to_euclidean_division_equations; lia.
Qed.

(** No shift in the zone: rounding is adding. *)
Lemma add_round_days_fixed n days : _add_round_days_to_midnight z (n * 86400 - off) (days * 86400) = (n + days) * 86400 - off.
Proof.
  unfold _add_round_days_to_midnight. cbn [localtime_r fixed].
  replace (n * 86400 - off + days * 86400 + off) with ((n + days) * 86400) by lia.
  pose proof (clock_midnight (n + days)) as H. unfold clock in H.
  assert (H' : 0 <= tm_hour (civil ((n + days) * 86400)) /\ 0 <= tm_min (civil ((n + days) * 86400)) /\ 0 <= tm_sec (civil ((n + days) * 86400))).
  { unfold civil. destruct (civil_from_days _) as [[y m] d]. cbn [tm_hour tm_min tm_sec]. split_and!; apply Z.mod_pos_bound; lia. }
  rewrite (proj2 (Z.eqb_eq (tm_hour _) 0)), (proj2 (Z.eqb_eq (tm_min _) 0)), (proj2 (Z.eqb_eq (tm_sec _) 0)) by lia. cbn [negb orb]. lia.
Qed.

Lemma next_midnight k d : _add_round_days_to_midnight z (midnight_of k d) (24 * 60 * 60) = midnight_of k (d + 1).
Proof.
  unfold midnight_of. change (24 * 60 * 60) with (1 * 86400). rewrite add_round_days_fixed. lia.
Qed.

Lemma midnight_order k d k' d' : 1 <= d <= month_length k -> 1 <= d' -> k < k' -> midnight_of k d + 86400 <= midnight_of k' d'.
Proof.
  intros Hd Hd' Hk. unfold midnight_of. pose proof (first_day_mono (k + 1) k' ltac:(lia)). rewrite first_day_next in *. nia.
Qed.

(** Days of the month: the range that is found is the one of this month, or
    of the next month when its last day is past; it ends after the preferred
    time, and has begun when that is one of its days. *)
Theorem month_day_to_time_t uninit r p k d :
  _type r = month_day -> _skip_interval r <= 1 -> 1 <= _month_day_start r <= 28 -> 1 <= _month_day_end r <= 28 ->
  in_day p k d ->
  let k' := if _month_day_end r <? d then k + 1 else k in
  let start := midnight_of k' (_month_day_start r) in
  let end_ := midnight_of k' (_month_day_end r + 1) in
  to_time_t z uninit r p = Returns (Some (start, end_))
  /\ p < end_ /\ (_month_day_start r <= d <= _month_day_end r -> start <= p).
Proof.
  intros Ht Hskip Hs He Hp k' start end_. destruct (time_info_spec p k d Hp) as (_ & Ep & Ey & Em & Ed).
  split.
  - unfold to_time_t. rewrite Ht. unfold _month_day_to_time_t. rewrite Ey, Em, Ed, next_month_spec.
    pose proof (month_length_range k') as Hl.
    assert (E : (if _month_day_end r <? d then ((k + 1) / 12 - 1900, (k + 1) mod 12) else (k / 12 - 1900, k mod 12))
      = (k' / 12 - 1900, k' mod 12)) by (unfold k'; by destruct (_month_day_end r <? d)).
    rewrite E, !day_of_month_spec by lia. cbn [mbind outcome_bind].
    rewrite !(proj2 (Z.leb_le _ (month_length k'))) by lia.
    rewrite !(proj2 (Z.eqb_neq _ _) (midnight_not_error _ _)). cbn [mbind outcome_bind option_bind].
    rewrite next_midnight. unfold skip_days. rewrite (proj2 (Z.ltb_ge 1 (_skip_interval r))) by lia. done.
  - destruct Hp as [Hd Hp]. unfold start, end_, k'. destruct (Z.ltb_spec (_month_day_end r) d) as [H|H].
    + pose proof (midnight_order k d (k + 1) 1 ltac:(lia) ltac:(lia) ltac:(lia)). unfold midnight_of in *. lia.
    + unfold midnight_of in *. lia.
Qed.

(** The range of weekdays in a month, by the days they fall on. *)
Definition weekday_day (k w n : Z) : Z := first_weekday k w + (n - 1) * 7.

Definition weekdays_in (r : daterange) (k : Z) : Z * Z :=
  (midnight_of k (weekday_day k (_week_day_start r) (_week_day_start_offset r)),
   midnight_of k (weekday_day k (_week_day_end r) (_week_day_end_offset r) + 1)).

(** Weekdays of the month: the loop ends at the range of this month, or of
    the next one when this one is past, and gives it unless it would end
    before it starts. *)
Theorem week_day_to_time_t uninit r p k d :
  _type r = week_day -> _skip_interval r <= 1 -> 0 <= _week_day_start r < 7 -> 0 <= _week_day_end r < 7 ->
  1 <= _week_day_start_offset r <= 4 -> 1 <= _week_day_end_offset r <= 4 -> in_day p k d ->
  let found k := if snd (weekdays_in r k) <? fst (weekdays_in r k) then None else Some (weekdays_in r k) in
  to_time_t z uninit r p
  = Returns (if (p <? snd (weekdays_in r k)) || (snd (weekdays_in r k) <? fst (weekdays_in r k)) then found k else found (k + 1)).
Proof.
  intros Ht Hskip Hws Hwe Hs He Hp found. destruct (time_info_spec p k d Hp) as (_ & Ep & Ey & Em & Ed).
  unfold to_time_t. rewrite Ht. unfold _week_day_to_time_t. rewrite Ey, Em.
  assert (Step : forall fuel k,
    week_day_loop z uninit (S fuel) r (new_time_info z p) (k / 12 - 1900) (k mod 12)
    = if snd (weekdays_in r k) <? fst (weekdays_in r k) then Returns None
      else if p <? snd (weekdays_in r k) then Returns (Some (weekdays_in r k))
      else let '(year, month) := next_month (k / 12 - 1900) (tm_mon (preftime (new_time_info z p))) in
           week_day_loop z uninit fuel r (new_time_info z p) year month).
  { intros fuel j. cbn [week_day_loop]. pose proof (month_length_range j).
    destruct (first_weekday_spec j (_week_day_start r) Hws) as [Hf1 _], (first_weekday_spec j (_week_day_end r) Hwe) as [Hf2 _].
    rewrite !weekday_of_month_spec by lia. cbv zeta. rewrite !(proj2 (Z.leb_le _ (month_length j))) by lia.
    cbn [mbind outcome_bind]. rewrite !(proj2 (Z.eqb_neq _ _) (midnight_not_error _ _)). cbn [andb orb mbind outcome_bind].
    rewrite next_midnight, !(proj2 (Z.eqb_neq _ _) (midnight_not_error _ _)), Ep. done. }
  unfold turns. rewrite Step. rewrite Em, next_month_spec, Step.
  assert (Hnext : p < snd (weekdays_in r (k + 1))).
  { destruct Hp as [Hd Hp]. unfold weekdays_in. cbn [snd].
    destruct (first_weekday_spec (k + 1) (_week_day_end r) Hwe) as [Hf _].
    pose proof (midnight_order k d (k + 1) 1 ltac:(lia) ltac:(lia) ltac:(lia)). unfold midnight_of, weekday_day in *. lia. }
  unfold found. apply Z.ltb_lt in Hnext. rewrite Hnext.
  destruct (snd (weekdays_in r k) <? fst (weekdays_in r k)), (p <? snd (weekdays_in r k)),
    (snd (weekdays_in r (k + 1)) <? fst (weekdays_in r (k + 1))); cbn [orb mbind outcome_bind option_bind];
    unfold skip_days; rewrite ?(proj2 (Z.ltb_ge 1 (_skip_interval r))) by lia; cbn [andb]; by rewrite <-?surjective_pairing.
Qed.

End Fixed.

(** ** Witnesses and defects *)

(** The days 10 to 15, and the second monday to the third tuesday. *)
Definition days_10_to_15 : daterange := Daterange 0 0 15 10 0 [] month_day 0 0 0 0 0 0.
Definition second_week : daterange := Daterange 0 0 0 0 0 [] week_day 2 1 3 2 0 0.

(** 2020-02-20, noon in a zone one hour ahead. *)
Definition some_noon : Z := 1582196400.

Lemma month_day_to_time_t_witness :
  let k' := if 15 <? 20 then 24241 + 1 else 24241 in
  let start := midnight_of 3600 k' 10 in
  let end_ := midnight_of 3600 k' (15 + 1) in
  to_time_t (fixed 3600) (civil 0) days_10_to_15 some_noon = Returns (Some (start, end_))
  /\ some_noon < end_ /\ (10 <= 20 <= 15 -> start <= some_noon).
Proof.
  apply (month_day_to_time_t 3600 eq_refl (civil 0) days_10_to_15 some_noon 24241 20);
    [done|done|done|done|]. vm_compute. repeat split; intros; discriminate.
Defined.

Lemma week_day_to_time_t_witness :
  let found k := if snd (weekdays_in 3600 second_week k) <? fst (weekdays_in 3600 second_week k) then None
                 else Some (weekdays_in 3600 second_week k) in
  to_time_t (fixed 3600) (civil 0) second_week some_noon
  = Returns (if (some_noon <? snd (weekdays_in 3600 second_week 24241))
                || (snd (weekdays_in 3600 second_week 24241) <? fst (weekdays_in 3600 second_week 24241))
             then found 24241 else found (24241 + 1)).
Proof.
  apply (week_day_to_time_t 3600 eq_refl (civil 0) second_week some_noon 24241 20);
    [done|done|done|done|done|done|]. vm_compute. repeat split; intros; discriminate.
Defined.

(** A text without date, or no text at all, is a calendar date of the year 10,
    or 0. *)
Lemma hours_taken_for_a_date :
  let years p : bool * list Z := (fst p, _year_start <$> concat (snd p)) in
  years (parsed "10:00-12:00") = (true, [10]) /\ years (parsed EmptyString) = (true, [0]).
Proof. split; by vm_compute. Qed.

(** The days 1 to 31, in February 2021: the end is the first of April. *)
Lemma short_month_ends_late :
  to_time_t (fixed 0) (civil 0) (Daterange 0 0 31 1 0 [] month_day 0 0 0 0 0 0) 1613000000
  = Returns (Some (midnight_of 0 (12 * 2021 + 1) 1, midnight_of 0 (12 * 2021 + 3) 1)).
Proof. by vm_compute. Qed.

(** The last day of a month is computed with hours, minutes and seconds that
    were never set: here 13:00. *)
Lemma last_day_without_clock :
  calculate_time_from_day_of_month (fixed 0) (at_clock (civil 0) 13 0 0) 121 1 (-1)
  = Returns (midnight_of 0 (12 * 2021 + 1) 28 + 13 * 3600).
Proof. by vm_compute. Qed.

(** A zone that is two hours ahead of UTC from [shift] on, and one before. *)
Definition shifting (shift : Z) : zone :=
  let off t := if t <? shift then 3600 else 7200 in
  Zone (fun t => civil (t + off t))
       (fun x => let t := seconds x - 3600 in
                 let t := if t <? shift then t else seconds x - 7200 in (t, civil (t + off t))).

(** Over a shift of the zone, 2021-03-28 at 1:00 UTC, three days are added twice. *)
Lemma days_added_twice :
  let z := shifting 1616893200 in
  let midnight := fst (mktime z (Tm 0 0 0 27 2 121 0 (-1))) in
  tm_mday (localtime_r z (_add_round_days_to_midnight z midnight (3 * 86400))) = 2.
Proof. by vm_compute. Qed.

End DateRange.
