(* ===== verification/TimePeriod.v ===== *)
(** * Time periods (core/src/time/timeperiod.cc, timezone_manager.cc)

    The hours of each day of the week during which something is done: the next
    instant in a period, the next one out of it, and how long a period and an
    interval have in common. The theorems compare them with the set of the
    instants of the period, in zones of constant offset. *)

From Stdlib Require Import ZArith Lia ZifyNat ZifyBool Strings.Byte.
From stdpp Require Import base option list numbers strings.
From S2P Require Import Prelude Double CTime TimeRange DateRange.
Import CTime.

Module TimePeriod.

(** [ptr] is the type of the pointers to the periods included and excluded. *)
Record timeperiod {ptr : Type} : Type := Timeperiod {
  _id : Z;
  _alias : cstring;
  _exceptions : DateRange.exceptions;
  _exclude : list ptr;
  _include : list ptr;
  _timeperiod_name : cstring;
  _timeranges : list (list TimeRange.timerange);
  _timezone : cstring
}.
Arguments timeperiod : clear implicits.

Section Operations.
Context {ptr : Type}.
Implicit Type tp : timeperiod ptr.

Definition new_timeperiod : timeperiod ptr :=
  Timeperiod ptr 0 [] (replicate DateRange.daterange_types []) [] [] [] (replicate 7 []) [].

Definition with_ranges tp (l : list (list TimeRange.timerange)) : timeperiod ptr :=
  Timeperiod ptr (_id tp) (_alias tp) (_exceptions tp) (_exclude tp) (_include tp) (_timeperiod_name tp) l (_timezone tp).
Definition with_exceptions tp (l : DateRange.exceptions) : timeperiod ptr :=
  Timeperiod ptr (_id tp) (_alias tp) l (_exclude tp) (_include tp) (_timeperiod_name tp) (_timeranges tp) (_timezone tp).
Definition set_id tp (id : Z) : timeperiod ptr :=
  Timeperiod ptr id (_alias tp) (_exceptions tp) (_exclude tp) (_include tp) (_timeperiod_name tp) (_timeranges tp) (_timezone tp).
Definition set_alias tp (value : cstring) : timeperiod ptr :=
  Timeperiod ptr (_id tp) value (_exceptions tp) (_exclude tp) (_include tp) (_timeperiod_name tp) (_timeranges tp) (_timezone tp).
Definition set_name tp (value : cstring) : timeperiod ptr :=
  Timeperiod ptr (_id tp) (_alias tp) (_exceptions tp) (_exclude tp) (_include tp) value (_timeranges tp) (_timezone tp).
Definition set_timezone tp (tz : cstring) : timeperiod ptr :=
  Timeperiod ptr (_id tp) (_alias tp) (_exceptions tp) (_exclude tp) (_include tp) (_timeperiod_name tp) (_timeranges tp) tz.
Definition add_included tp (val : ptr) : timeperiod ptr :=
  Timeperiod ptr (_id tp) (_alias tp) (_exceptions tp) (_exclude tp) (_include tp ++ [val]) (_timeperiod_name tp) (_timeranges tp) (_timezone tp).
Definition add_excluded tp (val : ptr) : timeperiod ptr :=
  Timeperiod ptr (_id tp) (_alias tp) (_exceptions tp) (_exclude tp ++ [val]) (_include tp) (_timeperiod_name tp) (_timeranges tp) (_timezone tp).
Definition add_exceptions tp (val : list DateRange.daterange) : timeperiod ptr :=
  with_exceptions tp (_exceptions tp ++ [val]).

(** None: the vector is read past its end. *)
Definition get_exceptions_from_type tp (type : Z) : outcome (option (list DateRange.daterange)) :=
  if (type <? 0) || (Z.of_nat DateRange.daterange_types <? type) then Throws Exn_out_of_range
  else Returns (_exceptions tp !! Z.to_nat type).

Definition add_exception tp (days range : cstring) : bool * timeperiod ptr :=
  let '(b, l) := DateRange.build_dateranges_from_string (days ++ [x20] ++ range) (_exceptions tp) in
  (b, with_exceptions tp l).

Definition get_timeranges_by_day tp (day : Z) : list TimeRange.timerange :=
  from_option id [] (_timeranges tp !! Z.to_nat day).

Definition set_timerange tp (timerange_text : cstring) (day : Z) : bool * timeperiod ptr :=
  let '(b, l) := TimeRange.build_timeranges_from_string timerange_text (get_timeranges_by_day tp day) in
  (b, with_ranges tp (<[Z.to_nat day := l]> (_timeranges tp))).

(** The seven texts from sunday, in turn. *)
Fixpoint set_timeranges tp (texts : list cstring) (day : Z) : outcome (timeperiod ptr) :=
  match texts with
  | [] => Returns tp
  | text :: texts =>
    let '(b, tp) := set_timerange tp text day in
    if b then set_timeranges tp texts (day + 1) else Throws Exn_msg
  end.

Definition new_timeperiod_of (id : Z) (name alias sunday monday tuesday wednesday thursday friday saturday : cstring)
    : outcome (timeperiod ptr) :=
  set_timeranges (set_name (set_alias (set_id new_timeperiod id) alias) name)
    [sunday; monday; tuesday; wednesday; thursday; friday; saturday] 0.

(** ** Instants *)

Section Zone.
(** The zone of the period, while its name is the time zone of the process. *)
Variable z : zone.

Definition add_round_days_to_midnight (midnight skip : Z) : Z :=
  let next_day_time := midnight + skip in
  let next_day := localtime_r z next_day_time in
  if negb (tm_hour next_day =? 0) || negb (tm_min next_day =? 0) || negb (tm_sec next_day =? 0) then
    fst (mktime z (at_clock (localtime_r z (next_day_time + 12 * 60 * 60)) 0 0 0))
  else next_day_time.

(** Midnight of the day of a time, and the day of the week. *)
Definition day_of (preferred_time : Z) : Z * Z :=
  let preftime := localtime_r z preferred_time in
  (fst (mktime z (at_clock preftime 0 0 0)), tm_wday preftime).

(** The loop over the ranges of a day: the earliest time found so far, or -1. *)
Fixpoint earliest_valid (ranges : list TimeRange.timerange) (day_midnight : tm) (preferred_time earliest_time : Z) : Z :=
  match ranges with
  | [] => earliest_time
  | trange :: ranges =>
    let '(range_start, range_end) := TimeRange.to_time_t z trange day_midnight in
    earliest_valid ranges day_midnight preferred_time
      (if preferred_time <? range_end then
         let potential_time := if preferred_time <=? range_start then range_start else preferred_time in
         if (earliest_time =? -1) || (potential_time <? earliest_time) then potential_time else earliest_time
       else earliest_time)
  end.

(** The days from [i], [n] of them. *)
Fixpoint next_valid_loop (n : nat) tp (midnight weekday i preferred_time : Z) : Z :=
  match n with
  | O => -1
  | S n =>
    let day_start := add_round_days_to_midnight midnight (i * 24 * 60 * 60) in
    let earliest_time :=
      earliest_valid (get_timeranges_by_day tp ((weekday + i) mod 7)) (localtime_r z day_start) preferred_time (-1) in
    if negb (earliest_time =? -1) then earliest_time else next_valid_loop n tp midnight weekday (i + 1) preferred_time
  end.

Definition get_next_valid tp (preferred_time : Z) : Z :=
  if negb (preferred_time =? -1) then
    let '(midnight, weekday) := day_of preferred_time in next_valid_loop 8 tp midnight weekday 0 preferred_time
  else -1.

Definition is_valid tp (preferred_time : Z) : bool :=
  negb (preferred_time =? -1) && (get_next_valid tp preferred_time =? preferred_time).

(** One pass over the ranges of a day: whether the time is in none of them, and
    the time once it was moved to the end of those it is in. *)
Fixpoint leave_ranges (ranges : list TimeRange.timerange) (day_midnight : tm) (earliest_time : Z) : bool * Z :=
  match ranges with
  | [] => (true, earliest_time)
  | trange :: ranges =>
    let '(range_start, range_end) := TimeRange.to_time_t z trange day_midnight in
    if (range_start <=? earliest_time) && (earliest_time <? range_end)
    then (false, snd (leave_ranges ranges day_midnight range_end))
    else leave_ranges ranges day_midnight earliest_time
  end.

(** The passes over a day that ends at [day_end]; None when all of it is valid. *)
Fixpoint invalid_in_day (fuel : nat) (ranges : list TimeRange.timerange) (day_midnight : tm) (earliest_time day_end : Z)
    : outcome (option Z) :=
  if earliest_time <? day_end then
    match fuel with
    | O => Diverges
    | S fuel =>
      let '(invalid_in_all_periods, t) := leave_ranges ranges day_midnight earliest_time in
      if invalid_in_all_periods then Returns (Some t) else invalid_in_day fuel ranges day_midnight t day_end
    end
  else Returns None.

Fixpoint next_invalid_loop (n : nat) tp (midnight weekday i preferred_time : Z) : outcome Z :=
  match n with
  | O => Returns (-1)
  | S n =>
    let day_start := add_round_days_to_midnight midnight (i * 24 * 60 * 60) in
    let day_end := add_round_days_to_midnight day_start (24 * 60 * 60) in
    let ranges := get_timeranges_by_day tp ((weekday + i) mod 7) in
    let earliest_time := if day_start <? preferred_time then preferred_time else day_start in
    t ← invalid_in_day (S (length ranges)) ranges (localtime_r z day_start) earliest_time day_end;
    match t with
    | Some t => Returns t
    | None => next_invalid_loop n tp midnight weekday (i + 1) preferred_time
    end
  end.

Definition get_next_invalid tp (preferred_time : Z) : outcome Z :=
  if negb (preferred_time =? -1) then
    let '(midnight, weekday) := day_of preferred_time in next_invalid_loop 8 tp midnight weekday 0 preferred_time
  else Returns (-1).

(** The alternation of valid and invalid times; duration is 32 bits wide. *)
Fixpoint intersect_loop (fuel : nat) tp (current_end_time end_time duration : Z) : outcome Z :=
  match fuel with
  | O => Diverges
  | S fuel =>
    let current_start_time := get_next_valid tp current_end_time in
    current_end_time ← get_next_invalid tp current_start_time;
    if (current_start_time =? -1) || (end_time <? current_start_time) then Returns duration
    else if (current_end_time =? -1) || (end_time <? current_end_time) then
      Returns (u32 (duration + (end_time - current_start_time)))
    else intersect_loop fuel tp current_end_time end_time (u32 (duration + (current_end_time - current_start_time)))
  end.

(** The times from the start to the end bound the turns of the loop. *)
Definition duration_intersect tp (start_time end_time : Z) : outcome Z :=
  if end_time <? start_time then Returns 0
  else intersect_loop (S (S (Z.to_nat (end_time - start_time)))) tp start_time end_time 0.

End Zone.
End Operations.

(** ** The instants of a period

    In a zone of constant offset, for periods made of weekly ranges within a
    day. The exceptions, inclusions and exclusions of a period are stored and
    never looked at (see [exceptions_ignored]): an instant is in the period when
    it is in a range of its day of the week. Where the clocks change the
    statements do not hold (see [range_shifts_with_clocks]). *)

Section Fixed.
Context {ptr : Type}.
Variables (off : Z) (tp : timeperiod ptr).
Abbreviation z := (fixed off).

Definition in_a_day (r : TimeRange.timerange) : Prop :=
  0 <= TimeRange._start r /\ TimeRange._start r < TimeRange._end r /\ TimeRange._end r <= 86400
  /\ TimeRange._start r mod 60 = 0 /\ TimeRange._end r mod 60 = 0.

Hypothesis ranges_ok : forall day, Forall in_a_day (get_timeranges_by_day tp day).

(** Midnight of the day [D], counted from 1970. *)
Definition day_start (D : Z) : Z := D * 86400 - off.
Definition the_day (t : Z) : Z := (t + off) / 86400.
Definition ranges_of (D : Z) : list TimeRange.timerange := get_timeranges_by_day tp (weekday D).

Definition holds (D t : Z) (r : TimeRange.timerange) : bool :=
  (day_start D + TimeRange._start r <=? t) && (t <? day_start D + TimeRange._end r).

(** The instants of the period. *)
Definition valid (t : Z) : bool := existsb (holds (the_day t) t) (ranges_of (the_day t)).

Lemma the_day_spec t D : the_day t = D <-> day_start D <= t < day_start (D + 1).
Proof. unfold the_day, day_start. split; intros; Z.to_euclidean_division_equations; lia. Qed.

Lemma range_in_day D r : r ∈ ranges_of D -> in_a_day r.
Proof. intros Hr. by apply (proj1 (Forall_forall _ _) (ranges_ok (weekday D))). Qed.

Lemma holds_day D t r : r ∈ ranges_of D -> holds D t r = true -> the_day t = D.
Proof.
  intros Hr%range_in_day Ht. destruct Hr as (H1 & H2 & H3 & _). apply the_day_spec. unfold holds, day_start in *. lia.
Qed.

Lemma valid_spec t : valid t = true <-> exists r, r ∈ ranges_of (the_day t) /\ holds (the_day t) t r = true.
Proof.
  unfold valid. rewrite existsb_exists. by setoid_rewrite <-list_elem_of_In.
Qed.

Lemma valid_in D t r : r ∈ ranges_of D -> holds D t r = true -> valid t = true.
Proof. intros Hr Ht. apply valid_spec. exists r. by rewrite (holds_day D t r). Qed.

Lemma invalid_in D t : the_day t = D -> (forall r, r ∈ ranges_of D -> holds D t r = false) -> valid t = false.
Proof.
  intros <- H. apply not_true_is_false. intros (r & Hr & Ht)%valid_spec. by rewrite H in Ht.
Qed.

(** *** The days in the zone *)

Lemma midnight_of_day D : localtime_r z (day_start D) = civil (D * 86400).
Proof. cbn [localtime_r fixed]. f_equal. unfold day_start. lia. Qed.

Lemma to_time_t_day D r : in_a_day r ->
  TimeRange.to_time_t z r (civil (D * 86400)) = (day_start D + TimeRange._start r, day_start D + TimeRange._end r).
Proof.
  intros (H1 & H2 & H3 & H4 & H5). unfold TimeRange.to_time_t. cbn [mktime fixed].
  assert (Hsec : forall n, n mod 60 = 0 -> tm_sec (civil n) = 0).
  { intros n Hn. unfold civil. by destruct (civil_from_days _) as [[y m] d]. }
  unfold TimeRange.start_hour, TimeRange.start_minute, TimeRange.end_hour, TimeRange.end_minute.
  rewrite (Hsec (D * 86400)) by zdm. rewrite seconds_at_clock, Z.div_mul, !i32_small by zdm.
  set (u := D * 86400 + _ * 3600 + _ * 60 + 0).
  assert (Eu : u = D * 86400 + TimeRange._start r) by (unfold u; zdm).
  rewrite (Hsec u), seconds_at_clock by zdm. cbn [fst].
  unfold day_start. f_equal; [lia|]. replace (u / 86400) with D by zdm. zdm.
Qed.

Lemma add_round_days D n : add_round_days_to_midnight z (day_start D) (n * 24 * 60 * 60) = day_start (D + n).
Proof.
  unfold add_round_days_to_midnight. cbn [localtime_r fixed]. unfold day_start.
  replace (D * 86400 - off + n * 24 * 60 * 60 + off) with ((D + n) * 86400) by lia.
  set (x := civil ((D + n) * 86400)).
  assert (H : tm_hour x = 0 /\ tm_min x = 0 /\ tm_sec x = 0).
  { unfold x, civil. destruct (civil_from_days _) as [[y m] d]. cbn [tm_hour tm_min tm_sec]. split_and!; zdm. }
  destruct H as (-> & -> & ->). cbn [Z.eqb negb orb]. lia.
Qed.

Lemma day_of_spec t : day_of z t = (day_start (the_day t), weekday (the_day t)).
Proof.
  unfold day_of. cbn [mktime localtime_r fixed fst]. rewrite seconds_at_clock, civil_wday. unfold day_start, the_day. f_equal. lia.
Qed.

Lemma weekday_add D i : (weekday D + i) mod 7 = weekday (D + i).
Proof. unfold weekday. zdm. Qed.

(** *** The next valid time *)

(** [e] is the first valid time from [t] on in the ranges of a day, if any. *)
Definition first_in (D t : Z) (l : list TimeRange.timerange) (e : Z) : Prop :=
  if e =? -1 then forall r, r ∈ l -> day_start D + TimeRange._end r <= t
  else t <= e /\ (exists r, r ∈ ranges_of D /\ holds D e r = true)
       /\ forall r t', r ∈ l -> holds D t' r = true -> t <= t' -> e <= t'.

Lemma earliest_valid_spec D t l e done : 0 <= t -> (forall r, r ∈ done ++ l -> r ∈ ranges_of D) ->
  first_in D t done e ->
  first_in D t (done ++ l) (earliest_valid z l (civil (D * 86400)) t e).
Proof.
  intros Ht. revert e done. induction l as [|r l IH]; intros e dn Hl He; cbn [earliest_valid]; [by rewrite app_nil_r|].
  assert (Hr : r ∈ ranges_of D) by (apply Hl, elem_of_app; right; left). pose proof (range_in_day D r Hr) as Hd.
  rewrite (to_time_t_day D r Hd). rewrite cons_middle, app_assoc. apply IH; [by rewrite <-app_assoc|].
  destruct Hd as (H1 & H2 & H3 & _). destruct (Z.ltb_spec t (day_start D + TimeRange._end r)) as [Hlt|Hge].
  - set (p := if t <=? day_start D + TimeRange._start r then day_start D + TimeRange._start r else t).
    assert (Hp : t <= p /\ holds D p r = true /\ forall t', holds D t' r = true -> t <= t' -> p <= t').
    { unfold p, holds. destruct (Z.leb_spec t (day_start D + TimeRange._start r)); (split; [lia|split; [lia|intros; lia]]). }
    destruct Hp as (Hp1 & Hp2 & Hp3). unfold first_in in *. destruct (Z.eqb_spec e (-1)) as [->|Hne]; cbn [orb].
    + rewrite (proj2 (Z.eqb_neq p (-1))) by lia. split; [done|]. split; [by exists r|].
      intros r' t' [Hr'|Hr'%list_elem_of_singleton]%elem_of_app Ht' Hge'; [|subst; auto].
      specialize (He r' Hr'). unfold holds in Ht'. lia.
    + destruct He as (He1 & He2 & He3). destruct (Z.ltb_spec p e) as [Hpe|Hpe].
      * rewrite (proj2 (Z.eqb_neq p (-1))) by lia. split; [done|]. split; [by exists r|].
        intros r' t' [Hr'|Hr'%list_elem_of_singleton]%elem_of_app Ht' Hge'; [|subst; auto]. specialize (He3 r' t' Hr' Ht' Hge'). lia.
      * rewrite (proj2 (Z.eqb_neq e (-1))) by lia. split; [done|]. split; [done|].
        intros r' t' [Hr'|Hr'%list_elem_of_singleton]%elem_of_app Ht' Hge'; [by eapply He3|]. subst. specialize (Hp3 t' Ht' Hge'). lia.
  - unfold first_in in *. destruct (Z.eqb_spec e (-1)) as [->|Hne].
    + intros r' [Hr'|Hr'%list_elem_of_singleton]%elem_of_app; [by apply He|by subst].
    + destruct He as (He1 & He2 & He3). split; [done|]. split; [done|].
      intros r' t' [Hr'|Hr'%list_elem_of_singleton]%elem_of_app Ht' Hge'; [by eapply He3|]. subst. unfold holds in Ht'. lia.
Qed.

(** No valid time from [t] on before the day [D]. *)
Definition none_before (t D : Z) : Prop := forall t', t <= t' -> the_day t' < D -> valid t' = false.

Definition next_valid (t r : Z) : Prop := t <= r /\ valid r = true /\ forall t', t <= t' < r -> valid t' = false.

Lemma the_day_mono t t' : t <= t' -> the_day t <= the_day t'.
Proof. intros. unfold the_day. apply Z.div_le_mono; lia. Qed.

Lemma next_valid_loop_spec n t i : 0 <= t -> 0 <= i -> none_before t (the_day t + i) ->
  let r := next_valid_loop z n tp (day_start (the_day t)) (weekday (the_day t)) i t in
  (r = -1 /\ none_before t (the_day t + i + Z.of_nat n)) \/ (0 <= r /\ next_valid t r).
Proof.
  intros Ht. revert i. induction n as [|n IH]; intros i Hi Hnone; cbn [next_valid_loop].
  { left. split; [done|]. by rewrite Z.add_0_r. }
  rewrite add_round_days, weekday_add, midnight_of_day. set (D := the_day t + i). fold (ranges_of D).
  pose proof (earliest_valid_spec D t (ranges_of D) (-1) [] Ht ltac:(done)) as He. cbn [app] in He.
  assert (H0 : first_in D t [] (-1)) by (intros r Hr; by apply elem_of_nil in Hr). specialize (He H0).
  set (e := earliest_valid _ _ _ _ _) in *. unfold first_in in He. destruct (Z.eqb_spec e (-1)) as [E|E]; cbn [negb].
  - replace (D + Z.of_nat (S n)) with (the_day t + (i + 1) + Z.of_nat n) by (unfold D; lia). apply IH; [lia|].
    intros t' Ht' HD. destruct (Z.eq_dec (the_day t') D) as [HD'|HD']; [|apply Hnone; unfold D in *; lia].
    apply (invalid_in D); [done|]. intros r Hr. specialize (He r Hr). unfold holds. lia.
  - right. destruct He as (He1 & (r & Hr & Hh) & He3). split; [lia|]. split; [done|]. split; [by apply (valid_in D e r)|].
    intros t' [Ht' Hlt]. pose proof (the_day_mono t' e ltac:(lia)) as Hm. rewrite (holds_day D e r Hr Hh) in Hm.
    destruct (Z.eq_dec (the_day t') D) as [HD'|HD']; [|apply Hnone; unfold D in *; lia].
    apply (invalid_in D); [done|]. intros r' Hr'. apply not_true_is_false. intros Hh'. specialize (He3 r' t' Hr' Hh' Ht'). lia.
Qed.

(** The week repeats. *)
Lemma valid_week t : valid (t + 7 * 86400) = valid t.
Proof.
  assert (E : the_day (t + 7 * 86400) = the_day t + 7).
  { unfold the_day. replace (t + 7 * 86400 + off) with (t + off + 7 * 86400) by lia. by rewrite Z.div_add. }
  unfold valid. rewrite E. unfold ranges_of. replace (weekday (the_day t + 7)) with (weekday (the_day t)) by (unfold weekday; zdm).
  induction (get_timeranges_by_day tp (weekday (the_day t))) as [|r l IH]; [done|]. cbn [existsb]. rewrite IH. f_equal.
  unfold holds, day_start. lia.
Qed.

Lemma week_repeats t (v : bool) : (forall t', t <= t' < t + 7 * 86400 -> valid t' = v) -> forall t', t <= t' -> valid t' = v.
Proof.
  intros H t' Ht'. assert (G : forall n : nat, t' - t < 7 * 86400 * (Z.of_nat n + 1) -> valid t' = v).
  { revert t' Ht'. intros t' Ht' n. revert t' Ht'. induction n as [|n IH]; intros t' Ht' Hn; [apply H; lia|].
    destruct (Z.lt_ge_cases t' (t + 7 * 86400)); [apply H; lia|].
    rewrite <-(IH (t' - 7 * 86400)) by lia. rewrite <-(valid_week (t' - 7 * 86400)). f_equal. lia. }
  apply (G (Z.to_nat (t' - t))). lia.
Qed.

Lemma get_next_valid_spec t : 0 <= t ->
  let r := get_next_valid z tp t in
  (r = -1 /\ forall t', t <= t' -> valid t' = false) \/ (0 <= r /\ next_valid t r).
Proof.
  intros Ht. unfold get_next_valid. rewrite (proj2 (Z.eqb_neq t (-1))) by lia. cbn [negb]. rewrite day_of_spec.
  destruct (next_valid_loop_spec 8 t 0 Ht ltac:(lia)) as [[Er H]|H]; [|left|by right].
  - intros t' Ht' HD. pose proof (the_day_mono t t' Ht'). lia.
  - split; [exact Er|]. apply week_repeats. intros t' Ht'. apply H; [lia|].
    pose proof (proj1 (the_day_spec t (the_day t)) eq_refl) as Hd. pose proof (proj1 (the_day_spec t' (the_day t')) eq_refl) as Hd'.
    unfold day_start in *. lia.
Qed.

(** C19. In a zone of constant offset, for a period whose weekly ranges are of
    whole minutes within a day, the next valid time is the first instant of the
    weekly ranges that is not before the time given; there is none (-1) when no
    later instant is in them. Exceptions, inclusions and exclusions of the period
    are looked at by no operation and have no part in it. *)
Theorem get_next_valid_is_next t : 0 <= t ->
  let r := get_next_valid z tp t in
  (r = -1 /\ forall t', t <= t' -> valid t' = false)
  \/ (t <= r /\ valid r = true /\ forall t', t <= t' < r -> valid t' = false).
Proof. intros Ht r. destruct (get_next_valid_spec t Ht) as [H|[_ H]]; [by left|by right]. Qed.

Theorem is_valid_spec t : 0 <= t -> is_valid z tp t = valid t.
Proof.
  intros Ht. unfold is_valid. rewrite (proj2 (Z.eqb_neq t (-1))) by lia. cbn [negb andb].
  destruct (get_next_valid_spec t Ht) as [[-> H]|(Hr & H1 & H2 & H3)].
  - rewrite H by lia. apply Z.eqb_neq. lia.
  - destruct (Z.eqb_spec (get_next_valid z tp t) t) as [E|E]; [by rewrite E in H2|]. symmetry. apply H3. lia.
Qed.

(** *** The next invalid time *)

Lemma leave_moves D l t : (forall r, r ∈ l -> r ∈ ranges_of D) ->
  let t' := snd (leave_ranges z l (civil (D * 86400)) t) in
  t <= t' /\ (t' = t \/ t' <= day_start (D + 1)) /\ forall x, t <= x < t' -> valid x = true.
Proof.
  revert t. induction l as [|r l IH]; intros t Hl; cbn [leave_ranges snd]; [split_and!; [lia|by left|intros; lia]|].
  assert (Hr : r ∈ ranges_of D) by (apply Hl; left). pose proof (range_in_day D r Hr) as Hd.
  rewrite (to_time_t_day D r Hd). destruct Hd as (H1 & H2 & H3 & _).
  assert (Hl' : forall r, r ∈ l -> r ∈ ranges_of D) by (intros; apply Hl; by right).
  destruct ((day_start D + TimeRange._start r <=? t) && (t <? day_start D + TimeRange._end r)) eqn:Eh; [|by apply IH].
  cbn [snd]. destruct (IH (day_start D + TimeRange._end r) Hl') as (G1 & G2 & G3). split_and!.
  - lia.
  - right. unfold day_start in *. lia.
  - intros x Hx. destruct (Z.lt_ge_cases x (day_start D + TimeRange._end r)); [|apply G3; lia].
    apply (valid_in D x r Hr). unfold holds. lia.
Qed.

Lemma leave_ranges_spec D l t : (forall r, r ∈ l -> r ∈ ranges_of D) ->
  let '(b, t') := leave_ranges z l (civil (D * 86400)) t in
  if b then t' = t /\ forall r, r ∈ l -> holds D t r = false
  else t < t' /\ t' <= day_start (D + 1) /\ (forall x, t <= x < t' -> valid x = true)
       /\ exists r, r ∈ l /\ t < day_start D + TimeRange._end r /\ day_start D + TimeRange._end r <= t'.
Proof.
  induction l as [|r l IH]; intros Hl; cbn [leave_ranges]; [split; [done|]; intros r Hr; by apply elem_of_nil in Hr|].
  assert (Hr : r ∈ ranges_of D) by (apply Hl; left). pose proof (range_in_day D r Hr) as Hd.
  rewrite (to_time_t_day D r Hd). destruct Hd as (H1 & H2 & H3 & _).
  assert (Hl' : forall r, r ∈ l -> r ∈ ranges_of D) by (intros; apply Hl; by right).
  destruct ((day_start D + TimeRange._start r <=? t) && (t <? day_start D + TimeRange._end r)) eqn:Eh.
  - destruct (leave_moves D l (day_start D + TimeRange._end r) Hl') as (G1 & G2 & G3).
    split_and!; [lia|unfold day_start in *; lia| |exists r; split; [left|lia]].
    intros x Hx. destruct (Z.lt_ge_cases x (day_start D + TimeRange._end r)); [|apply G3; lia].
    apply (valid_in D x r Hr). unfold holds. lia.
  - specialize (IH Hl'). destruct (leave_ranges z l (civil (D * 86400)) t) as [[] t'].
    + destruct IH as [-> IH]. split; [done|]. intros r' [->|Hr']%elem_of_cons; [exact Eh|by apply IH].
    + destruct IH as (G1 & G2 & G3 & r' & Hr' & G4). split_and!; [done..|]. exists r'. split; [by right|done].
Qed.

Lemma length_filter_lt {A} (P Q : A -> bool) (l : list A) x : (forall y, Q y = true -> P y = true) ->
  x ∈ l -> P x = true -> Q x = false -> (length (List.filter Q l) < length (List.filter P l))%nat.
Proof.
  intros HPQ. assert (Hle : forall l : list A, (length (List.filter Q l) <= length (List.filter P l))%nat).
  { intros l'. induction l' as [|y l' IH]; [done|]. cbn [List.filter]. destruct (Q y) eqn:Ey; [rewrite (HPQ y Ey)|destruct (P y)]; cbn [length]; lia. }
  induction l as [|y l IH]; intros Hx Hp Hq; [by apply elem_of_nil in Hx|]. cbn [List.filter].
  apply elem_of_cons in Hx as [<-|Hx].
  - rewrite Hp, Hq. cbn [length]. specialize (Hle l). lia.
  - specialize (IH Hx Hp Hq). destruct (Q y) eqn:Ey; [rewrite (HPQ y Ey)|destruct (P y)]; cbn [length]; lia.
Qed.

(** The ranges that are not left behind. *)
Definition pending (D t : Z) : list TimeRange.timerange := List.filter (fun r => t <? day_start D + TimeRange._end r) (ranges_of D).

Lemma invalid_in_day_spec D fuel t : (length (pending D t) < fuel)%nat -> day_start D <= t ->
  exists o, invalid_in_day z fuel (ranges_of D) (civil (D * 86400)) t (day_start (D + 1)) = Returns o
  /\ match o with
     | Some t' => t <= t' /\ valid t' = false /\ forall x, t <= x < t' -> valid x = true
     | None => forall x, t <= x < day_start (D + 1) -> valid x = true
     end.
Proof.
  revert t. induction fuel as [|fuel IH]; intros t Hf HD; [lia|]. cbn [invalid_in_day].
  destruct (Z.ltb_spec t (day_start (D + 1))) as [Hlt|Hge]; [|exists None; split; [done|]; cbv iota; intros; lia].
  pose proof (leave_ranges_spec D (ranges_of D) t ltac:(done)) as H.
  destruct (leave_ranges z (ranges_of D) (civil (D * 86400)) t) as [[] t'].
  - destruct H as [-> H]. eexists. split; [done|]. split; [lia|]. split; [|intros; lia].
    apply (invalid_in D); [by apply the_day_spec|done].
  - destruct H as (G1 & G2 & G3 & r & Hr & G4 & G5). destruct (IH t') as (o & E & Ho); [|lia|].
    + assert (length (pending D t') < length (pending D t))%nat; [|lia].
      apply (length_filter_lt _ _ _ r); [intros y Hy|done|..]; lia.
    + exists o. split; [done|]. destruct o as [u|].
      * destruct Ho as (O1 & O2 & O3). split; [lia|]. split; [done|]. intros x Hx.
        destruct (Z.lt_ge_cases x t'); [apply G3|apply O3]; lia.
      * intros x Hx. destruct (Z.lt_ge_cases x t'); [apply G3|apply Ho]; lia.
Qed.

Lemma invalid_in_day_ends fuel l m t e : (1 <= fuel)%nat -> (e <= t) -> invalid_in_day z fuel l m t e = Returns None.
Proof. intros Hf He. destruct fuel; [lia|]. cbn [invalid_in_day]. by rewrite (proj2 (Z.ltb_ge t e)). Qed.

Lemma next_invalid_loop_spec n t i : 0 <= i -> (forall x, t <= x < day_start (the_day t + i) -> valid x = true) ->
  exists r, next_invalid_loop z n tp (day_start (the_day t)) (weekday (the_day t)) i t = Returns r
  /\ ((r = -1 /\ forall x, t <= x < day_start (the_day t + i + Z.of_nat n) -> valid x = true)
      \/ (t <= r /\ valid r = false /\ forall x, t <= x < r -> valid x = true)).
Proof.
  revert i. induction n as [|n IH]; intros i Hi Hbefore; cbn [next_invalid_loop].
  { eexists. split; [done|]. left. split; [done|]. intros x Hx. apply Hbefore. by rewrite Z.add_0_r in Hx. }
  rewrite add_round_days, weekday_add, midnight_of_day. change (24 * 60 * 60) with (1 * 24 * 60 * 60). rewrite add_round_days.
  set (D := the_day t + i). fold (ranges_of D).
  pose proof (proj1 (the_day_spec t (the_day t)) eq_refl) as Ht.
  set (s := if day_start D <? t then t else day_start D).
  assert (Hs : day_start D <= s /\ t <= s /\ forall x, t <= x < s -> valid x = true).
  { unfold s. destruct (Z.ltb_spec (day_start D) t).
    - split_and!; [lia|lia|intros; lia].
    - split_and!; [lia|lia|]. intros x Hx. apply Hbefore. fold D. lia. }
  destruct Hs as (Hs1 & Hs2 & Hs3).
  destruct (invalid_in_day_spec D (S (length (ranges_of D))) s) as (o & -> & Ho); [|done|].
  { unfold pending. apply Nat.lt_succ_r. apply List.filter_length_le. }
  cbn [mbind outcome_bind]. destruct o as [t'|].
  - eexists. split; [done|]. right. destruct Ho as (O1 & O2 & O3). split; [lia|]. split; [done|].
    intros x Hx. destruct (Z.lt_ge_cases x s); [apply Hs3|apply O3]; lia.
  - replace (D + Z.of_nat (S n)) with (the_day t + (i + 1) + Z.of_nat n) by (unfold D; lia). apply IH; [lia|].
    intros x Hx. destruct (Z.lt_ge_cases x s); [apply Hs3; lia|]. apply Ho. unfold D, day_start in *. lia.
Qed.

Lemma get_next_invalid_spec t : 0 <= t ->
  exists r, get_next_invalid z tp t = Returns r
  /\ ((r = -1 /\ forall x, t <= x -> valid x = true)
      \/ (t <= r /\ valid r = false /\ forall x, t <= x < r -> valid x = true)).
Proof.
  intros Ht. unfold get_next_invalid. rewrite (proj2 (Z.eqb_neq t (-1))) by lia. cbn [negb]. rewrite day_of_spec.
  pose proof (proj1 (the_day_spec t (the_day t)) eq_refl) as Hd.
  destruct (next_invalid_loop_spec 8 t 0) as (r & E & H); [lia|intros; rewrite Z.add_0_r in *; lia|].
  exists r. split; [done|]. destruct H as [[Er H]|H]; [left|by right]. split; [done|]. apply week_repeats.
  intros x Hx. apply H. unfold day_start in *. lia.
Qed.

(** The next invalid time is found, and is the first instant out of the
    period that is not before the time given; there is none (-1) when all
    later instants are in the period. *)
Theorem get_next_invalid_is_next t : 0 <= t ->
  exists r, get_next_invalid z tp t = Returns r
  /\ ((r = -1 /\ forall x, t <= x -> valid x = true)
      \/ (t <= r /\ valid r = false /\ forall x, t <= x < r -> valid x = true)).
Proof. exact (get_next_invalid_spec t). Qed.

(** *** The intersection with an interval *)

(** The instants of the period from [s] on, before [e]. *)
Definition common (s e : Z) : Z := Z.of_nat (length (List.filter valid (seqZ s (e - s)))).

Lemma common_split s m e : s <= m <= e -> common s e = common s m + common m e.
Proof.
  intros H. unfold common. replace (e - s) with ((m - s) + (e - m)) by lia. rewrite seqZ_app by lia.
  rewrite List.filter_app, length_app. replace (s + (m - s)) with m by lia. lia.
Qed.

Lemma common_none s e : (forall x, s <= x < e -> valid x = false) -> common s e = 0.
Proof.
  intros H. unfold common. assert (G : forall l, (forall x, x ∈ l -> valid x = false) -> List.filter valid l = []).
  { intros l. induction l as [|x l IH]; intros Hl; [done|]. cbn [List.filter]. rewrite Hl by left. apply IH. intros. apply Hl. by right. }
  rewrite G; [done|]. intros x Hx%elem_of_seqZ. apply H. lia.
Qed.

Lemma common_all s e : s <= e -> (forall x, s <= x < e -> valid x = true) -> common s e = e - s.
Proof.
  intros Hse H. unfold common. assert (G : forall l, (forall x, x ∈ l -> valid x = true) -> List.filter valid l = l).
  { intros l. induction l as [|x l IH]; intros Hl; [done|]. cbn [List.filter]. rewrite Hl by left. f_equal. apply IH. intros. apply Hl. by right. }
  rewrite G; [rewrite length_seqZ; lia|]. intros x Hx%elem_of_seqZ. apply H. lia.
Qed.

Lemma intersect_loop_spec fuel cur e d : 0 <= cur -> cur <= e -> (Z.to_nat (e - cur) < fuel)%nat ->
  u32 d = d -> intersect_loop z fuel tp cur e d = Returns (u32 (d + common cur e)).
Proof.
  intros Hc. revert cur d Hc. induction fuel as [|fuel IH]; intros cur d Hc Hle Hf Hd; [lia|]. cbn [intersect_loop].
  destruct (get_next_valid_spec cur Hc) as [[-> Hnone]|(Hr & H1 & H2 & H3)].
  - unfold get_next_invalid at 1. cbn [Z.eqb Z.compare Pos.compare Pos.compare_cont Pos.eqb negb mbind outcome_bind orb].
    rewrite common_none by (intros; apply Hnone; lia). by rewrite Z.add_0_r, Hd.
  - set (s := get_next_valid z tp cur) in *. destruct (get_next_invalid_spec s Hr) as (t & -> & Ht). cbn [mbind outcome_bind].
    rewrite (proj2 (Z.eqb_neq s (-1))) by lia. cbn [orb]. destruct (Z.ltb_spec e s) as [Hes|Hes].
    { rewrite common_none by (intros; apply H3; lia). by rewrite Z.add_0_r, Hd. }
    rewrite (common_split cur s e), (common_none cur s) by (try lia; intros; apply H3; lia).
    destruct Ht as [[-> Hall]|(T1 & T2 & T3)].
    { cbn [Z.eqb Pos.eqb orb]. rewrite common_all by (try lia; intros; apply Hall; lia). by rewrite Z.add_0_l. }
    assert (Hst : s < t).
    { destruct (Z.eq_dec s t) as [E|E]; [|lia]. rewrite E in H2. congruence. }
    rewrite (proj2 (Z.eqb_neq t (-1))) by lia. cbn [orb]. destruct (Z.ltb_spec e t) as [Het|Het].
    { rewrite common_all by (try lia; intros; apply T3; lia). by rewrite Z.add_0_l. }
    rewrite IH; [|lia|lia|lia|unfold u32; by rewrite Z.mod_mod].
    rewrite (common_split s t e), (common_all s t) by (try lia; intros; apply T3; lia).
    unfold u32. rewrite Zplus_mod_idemp_l. do 2 f_equal. lia.
Qed.

Lemma duration_intersect_spec s e : 0 <= s -> duration_intersect z tp s e = Returns (u32 (common s e)).
Proof.
  intros Hs. unfold duration_intersect. destruct (Z.ltb_spec e s) as [H|H].
  - rewrite common_none by (intros; lia). done.
  - rewrite intersect_loop_spec by (try done; lia). done.
Qed.

(** C20. In a zone of constant offset, for a period whose weekly ranges are of
    whole minutes within a day, the loop ends and the duration of the
    intersection is the number of the instants of the weekly ranges in the
    interval, on 32 bits. Exceptions, inclusions and exclusions of the period
    have no part in it. *)
Theorem duration_intersect_counts s e : 0 <= s -> duration_intersect z tp s e = Returns (u32 (common s e)).
Proof. exact (duration_intersect_spec s e). Qed.

End Fixed.

(** Two periods with the same weekly ranges are the same periods, whatever their
    exceptions, inclusions and exclusions are. *)
Section Ignored.
Context {ptr : Type} (z : zone) (tp tp' : timeperiod ptr).
Hypothesis same_ranges : _timeranges tp' = _timeranges tp.

Lemma same_by_day day : get_timeranges_by_day tp' day = get_timeranges_by_day tp day.
Proof. unfold get_timeranges_by_day. by rewrite same_ranges. Qed.

Lemma same_next_valid t : get_next_valid z tp' t = get_next_valid z tp t.
Proof.
  assert (H : forall n midnight weekday i, next_valid_loop z n tp' midnight weekday i t = next_valid_loop z n tp midnight weekday i t).
  { induction n as [|n IH]; intros; cbn [next_valid_loop]; [done|]. by rewrite same_by_day, IH. }
  unfold get_next_valid. destruct (day_of z t). by rewrite H.
Qed.

Lemma same_next_invalid t : get_next_invalid z tp' t = get_next_invalid z tp t.
Proof.
  assert (H : forall n midnight weekday i, next_invalid_loop z n tp' midnight weekday i t = next_invalid_loop z n tp midnight weekday i t).
  { induction n as [|n IH]; intros; cbn [next_invalid_loop]; [done|]. rewrite same_by_day.
    destruct (invalid_in_day _ _ _ _ _ _) as [[]|e|]; cbn [mbind outcome_bind]; [done|apply IH|done..]. }
  unfold get_next_invalid. destruct (day_of z t). by rewrite H.
Qed.

Lemma exceptions_ignored t e : get_next_valid z tp' t = get_next_valid z tp t
  /\ get_next_invalid z tp' t = get_next_invalid z tp t /\ duration_intersect z tp' t e = duration_intersect z tp t e.
Proof.
  split; [apply same_next_valid|]. split; [apply same_next_invalid|].
  assert (H : forall fuel cur d, intersect_loop z fuel tp' cur e d = intersect_loop z fuel tp cur e d).
  { induction fuel as [|fuel IH]; intros; cbn [intersect_loop]; [done|]. rewrite same_next_valid, same_next_invalid.
    destruct (get_next_invalid z tp (get_next_valid z tp cur)) as [t'|x|]; cbn [mbind outcome_bind]; [|done..].
    by rewrite IH. }
  unfold duration_intersect. by rewrite H.
Qed.

End Ignored.

(** ** Days that are not 24 hours long

    A zone whose days begin at the instants [m D], where clocks show midnight
    and nowhere else, and last 23 hours at least. *)
Record zone_days (z : zone) (m : Z -> Z) : Prop := Zone_days {
  days_length : forall D, m D + 23 * 3600 <= m (D + 1);
  days_clock : forall D t, m D <= t < m (D + 1) -> (clock (localtime_r z t) = 0 <-> t = m D);
  days_clock_nonneg : forall t, 0 <= tm_hour (localtime_r z t) /\ 0 <= tm_min (localtime_r z t) /\ 0 <= tm_sec (localtime_r z t);
  days_midnight : forall D t, m D <= t < m (D + 1) -> fst (mktime z (at_clock (localtime_r z t) 0 0 0)) = m D
}.

(** Adding days to a midnight gives the midnight of the day meant, when the
    shifts of the zone in between make less than an hour in all, as at the
    change to or from daylight saving time. *)
Theorem add_days_gives_midnight z m D n : zone_days z m -> Z.abs (m D + n * 86400 - m (D + n)) <= 3600 ->
  add_round_days_to_midnight z (m D) (n * 86400) = m (D + n).
Proof.
  intros [Hl Hc Hn Hm] Hd. unfold add_round_days_to_midnight. set (t := m D + n * 86400) in *.
  pose proof (Hl (D + n)) as L1. pose proof (Hl (D + n - 1)) as L2. replace (D + n - 1 + 1) with (D + n) in L2 by lia.
  destruct (Hn t) as (Hh & Hmi & Hs).
  destruct (negb (tm_hour (localtime_r z t) =? 0) || negb (tm_min (localtime_r z t) =? 0) || negb (tm_sec (localtime_r z t) =? 0)) eqn:E.
  - apply Hm. lia.
  - assert (Hz : clock (localtime_r z t) = 0) by (unfold clock; lia).
    destruct (Z.lt_ge_cases t (m (D + n))) as [Hlt|Hge].
    + assert (Hday : m (D + n - 1) <= t < m (D + n - 1 + 1)) by (replace (D + n - 1 + 1) with (D + n) by lia; lia).
      apply (Hc _ _ Hday) in Hz. lia.
    + assert (Hday : m (D + n) <= t < m (D + n + 1)) by lia. by apply (Hc _ _ Hday) in Hz.
Qed.

Lemma fixed_days off : zone_days (fixed off) (day_start off).
Proof.
  assert (Hclock : forall t, clock (localtime_r (fixed off) t) = (t + off) mod 86400) by (intros; apply clock_civil).
  constructor.
  - intros D. unfold day_start. lia.
  - intros D t Ht. rewrite Hclock. unfold day_start in *. split; intros; zdm.
  - intros t. cbn [localtime_r fixed]. unfold civil. destruct (civil_from_days _) as [[y m] d]. cbn [tm_hour tm_min tm_sec].
    split_and!; apply Z.mod_pos_bound; lia.
  - intros D t Ht. cbn [mktime localtime_r fixed fst]. rewrite seconds_at_clock. unfold day_start in *. zdm.
Qed.

Lemma add_days_gives_midnight_witness :
  Z.abs (day_start 3600 18700 + 3 * 86400 - day_start 3600 (18700 + 3)) <= 3600
  /\ add_round_days_to_midnight (fixed 3600) (day_start 3600 18700) (3 * 86400) = day_start 3600 (18700 + 3).
Proof.
  split; [by apply Z.leb_le|].
  apply (add_days_gives_midnight (fixed 3600) (day_start 3600) 18700 3); [apply fixed_days|by apply Z.leb_le].
Defined.

(** A zone with daylight saving time from [shift] on: two hours ahead of UTC,
    and one before. A broken-down time that says which of the two it is in is
    read so. *)
Definition daylight (shift : Z) : zone :=
  let local t := let x := civil (t + (if t <? shift then 3600 else 7200)) in
    Tm (tm_sec x) (tm_min x) (tm_hour x) (tm_mday x) (tm_mon x) (tm_year x) (tm_wday x) (if t <? shift then 0 else 1) in
  Zone local
    (fun x => let t := if tm_isdst x =? 0 then seconds x - 3600
                       else if tm_isdst x =? 1 then seconds x - 7200
                       else if seconds x - 3600 <? shift then seconds x - 3600 else seconds x - 7200 in (t, local t)).

(** On sundays from 10:00 to 12:00. *)
Definition sunday_morning : timeperiod unit :=
  with_ranges new_timeperiod ([TimeRange.Timerange 43200 36000] :: replicate 6 []).

(** On 2021-03-28, when the clocks are put forward at 1:00 UTC: seen from before
    the change the period begins at 11:00 (9:00 UTC), an hour late, for the range
    is laid on a midnight that was in winter time; at 10:30 (8:30 UTC) the
    midnight computed for the day is an hour before it, hence in the day before,
    and the period is missed until the sunday after. *)
Lemma range_shifts_with_clocks :
  let z := daylight 1616893200 in
  (tm_wday (localtime_r z 1616920200), tm_hour (localtime_r z 1616920200), tm_min (localtime_r z 1616920200)) = (0, 10, 30)
  /\ get_next_valid z sunday_morning 1616889600 = 1616893200 + 8 * 3600
  /\ tm_hour (localtime_r z (1616893200 + 8 * 3600)) = 11
  /\ get_next_valid z sunday_morning 1616920200 = 1616893200 + 7 * 3600 + 7 * 86400.
Proof. cbv zeta. split_and!; vm_compute; reflexivity. Qed.

(** ** Time zones of the process

    The manager keeps the zones to come back to, and the environment variable
    TZ is the current one (None when it is not set). *)
Record timezone_manager : Type := Timezone_manager {
  TZ : option cstring;
  _base : option cstring;
  _tz : list (option cstring)
}.

Definition new_timezone_manager (env : option cstring) : timezone_manager := Timezone_manager env env [].

Definition top (m : timezone_manager) : option cstring := match _tz m with [] => _base m | tz :: _ => tz end.

(** setenv or unsetenv, unless nothing changes. *)
Definition _set_timezone (env from to : option cstring) : option cstring := if decide (from = to) then env else to.

Definition push_timezone (m : timezone_manager) (tz : option cstring) : timezone_manager :=
  Timezone_manager (_set_timezone (TZ m) (top m) tz) (_base m) (tz :: _tz m).

Definition pop_timezone (m : timezone_manager) : timezone_manager :=
  match _tz m with
  | [] => m
  | current :: l =>
    Timezone_manager (_set_timezone (TZ m) current (top (Timezone_manager (TZ m) (_base m) l))) (_base m) l
  end.

(** What the constructors and destructors of lockers do, one inside another. *)
Inductive tz_op : Type := Lock (tz : option cstring) | Unlock.

Definition tz_step (m : timezone_manager) (op : tz_op) : timezone_manager :=
  match op with Lock tz => push_timezone m tz | Unlock => pop_timezone m end.

Inductive scoped : list tz_op -> Prop :=
  | scoped_nil : scoped []
  | scoped_locker tz l l' : scoped l -> scoped l' -> scoped (Lock tz :: l ++ Unlock :: l').

(** The process is in the zone on top. *)
Definition manager_ok (m : timezone_manager) : Prop := TZ m = top m.

Lemma set_timezone_spec (env from to : option cstring) : env = from -> _set_timezone env from to = to.
Proof. intros ->. unfold _set_timezone. by case_decide. Qed.

Lemma push_spec m tz : manager_ok m -> TZ (push_timezone m tz) = tz /\ manager_ok (push_timezone m tz) /\ pop_timezone (push_timezone m tz) = m.
Proof.
  intros H. assert (E : TZ (push_timezone m tz) = tz) by by apply set_timezone_spec.
  split_and!; [done|exact E|]. unfold pop_timezone. cbn [_tz push_timezone _base]. rewrite set_timezone_spec by exact E.
  destruct m as [env base l]. unfold manager_ok in H. cbn in H. by rewrite H.
Qed.

(** However lockers are nested, the process is in the zone of a locker once
    it is constructed, and when the outermost one is destructed in the zone it
    was in, whatever the zones set in between. *)
Theorem lockers_restore m l : manager_ok m -> scoped l ->
  fold_left tz_step l m = m /\ forall tz, TZ (tz_step m (Lock tz)) = tz.
Proof.
  intros Hm Hl. split; [|intros tz; by apply push_spec]. revert m Hm.
  induction Hl as [|tz l l' _ IH _ IH']; intros m Hm; [done|]. destruct (push_spec m tz Hm) as (_ & Hp & Epop).
  cbn [fold_left tz_step]. rewrite fold_left_app, IH by done. cbn [fold_left tz_step]. rewrite Epop. by apply IH'.
Qed.

Lemma lockers_restore_witness :
  let m := new_timezone_manager None in
  let l := [Lock (Some (str "Europe/Paris")); Lock None; Unlock; Unlock] in
  fold_left tz_step l m = m /\ forall tz, TZ (tz_step m (Lock tz)) = tz.
Proof.
  apply (lockers_restore (new_timezone_manager None)); [done|].
  apply (scoped_locker _ [Lock None; Unlock] []); [|constructor]. apply (scoped_locker None [] []); constructor.
Defined.

(** ** Witnesses *)

Lemma sunday_morning_ok day : Forall in_a_day (get_timeranges_by_day sunday_morning day).
Proof.
  unfold get_timeranges_by_day, sunday_morning. cbn [_timeranges with_ranges].
  assert (H : Forall (Forall in_a_day) ([TimeRange.Timerange 43200 36000] :: replicate 6 [])).
  { repeat constructor; vm_compute; discriminate || reflexivity. }
  destruct (_ !! Z.to_nat day) as [l|] eqn:E; [|constructor]. by eapply Forall_lookup_1 in E.
Qed.

Lemma get_next_valid_is_next_witness :
  let r := get_next_valid (fixed 3600) sunday_morning 1616920200 in
  (r = -1 /\ forall t', 1616920200 <= t' -> valid 3600 sunday_morning t' = false)
  \/ (1616920200 <= r /\ valid 3600 sunday_morning r = true
      /\ forall t', 1616920200 <= t' < r -> valid 3600 sunday_morning t' = false).
Proof. apply (get_next_valid_is_next 3600 sunday_morning sunday_morning_ok). vm_compute. discriminate. Defined.

Lemma get_next_invalid_is_next_witness :
  exists r, get_next_invalid (fixed 3600) sunday_morning 1616925600 = Returns r
  /\ ((r = -1 /\ forall x, 1616925600 <= x -> valid 3600 sunday_morning x = true)
      \/ (1616925600 <= r /\ valid 3600 sunday_morning r = false
          /\ forall x, 1616925600 <= x < r -> valid 3600 sunday_morning x = true)).
Proof. apply (get_next_invalid_is_next 3600 sunday_morning sunday_morning_ok). vm_compute. discriminate. Defined.

(** An hour and a half of a sunday morning, from 10:30 to 13:00. *)
Lemma duration_intersect_counts_witness :
  duration_intersect (fixed 3600) sunday_morning 1616923800 1616932800 = Returns 5400
  /\ duration_intersect (fixed 3600) sunday_morning 1616923800 1616932800
     = Returns (u32 (common 3600 sunday_morning 1616923800 1616932800)).
Proof.
  split; [by vm_compute|].
  apply (duration_intersect_counts 3600 sunday_morning sunday_morning_ok). vm_compute. discriminate.
Defined.

End TimePeriod.
