(* ===== verification/Availability.v ===== *)
(** * Availability of business activities (bam/src/timeperiod_map.cc,
    availability_builder.cc, availability_thread.cc, and the durations of
    reporting_stream.cc)

    The reporting of BAM keeps the periods a business activity spent in each
    state, and for each day and each time period of the activity how long it was
    available, degraded, unavailable, unknown or in downtime. The tables of the
    database are lists of rows, the queries are the filters of their WHERE
    clauses; the time zones of the system are a parameter. *)

From Stdlib Require Import ZArith Lia ZifyNat ZifyBool Strings.Byte.
From stdpp Require Import base option list numbers strings gmap.
From S2P Require Import Prelude Double CTime TimeRange DateRange TimePeriod.
Import CTime.

Module Availability.

Section Model.
Context {ptr : Type}.
Abbreviation timeperiod := (TimePeriod.timeperiod ptr).

(** The zone of a name, None being the base zone of the process. *)
Variable zones : option cstring -> zone.

Definition zone_of (tp : timeperiod) : zone :=
  zones (match TimePeriod._timezone tp with [] => None | tz => Some tz end).

(** ** The periods of business activities

    A multimap gives the values of a key in the order they were inserted. *)
Record timeperiod_map : Type := Timeperiod_map {
  _map : gmap Z timeperiod;
  _timeperiod_relations : gmap Z (list (Z * bool))
}.

Definition new_timeperiod_map : timeperiod_map := Timeperiod_map ∅ ∅.

Definition get_timeperiod (m : timeperiod_map) (id : Z) : option timeperiod := _map m !! id.

Definition add_timeperiod (m : timeperiod_map) (id : Z) (tp : timeperiod) : timeperiod_map :=
  Timeperiod_map (<[id := tp]> (_map m)) (_timeperiod_relations m).

Definition clear (m : timeperiod_map) : timeperiod_map := new_timeperiod_map.

Definition relations (m : timeperiod_map) (ba_id : Z) : list (Z * bool) := default [] (_timeperiod_relations m !! ba_id).

Definition add_relation (m : timeperiod_map) (ba_id timeperiod_id : Z) (is_default : bool) : timeperiod_map :=
  Timeperiod_map (_map m) (<[ba_id := relations m ba_id ++ [(timeperiod_id, is_default)]]> (_timeperiod_relations m)).

Fixpoint find_timeperiods (m : timeperiod_map) (l : list (Z * bool)) : outcome (list (timeperiod * bool)) :=
  match l with
  | [] => Returns []
  | (tp_id, is_default) :: l =>
    match get_timeperiod m tp_id with
    | None => Throws Exn_msg
    | Some tp => res ← find_timeperiods m l; Returns ((tp, is_default) :: res)
    end
  end.

Definition get_timeperiods_by_ba_id (m : timeperiod_map) (ba_id : Z) : outcome (list (timeperiod * bool)) :=
  find_timeperiods m (relations m ba_id).

(** ** Builders *)

Record availability_builder : Type := Availability_builder {
  _start : Z;
  _end : Z;
  _available : Z;
  _unavailable : Z;
  _degraded : Z;
  _unknown : Z;
  _downtime : Z;
  _alert_unavailable_opened : Z;
  _alert_degraded_opened : Z;
  _alert_unknown_opened : Z;
  _nb_downtime : Z;
  _timeperiods_is_default : bool
}.

Definition new_availability_builder (ending_point starting_point : Z) : availability_builder :=
  Availability_builder starting_point ending_point 0 0 0 0 0 0 0 0 0 false.

Definition set_timeperiod_is_default (b : availability_builder) (val : bool) : availability_builder :=
  let '(Availability_builder s e a u d k dt ou od ok nb _) := b in Availability_builder s e a u d k dt ou od ok nb val.

(** The counters of an event that takes [sla_duration] of the day. *)
Definition count_event (b : availability_builder) (status sla_duration : Z) (was_in_downtime opened_today : bool)
    : availability_builder :=
  let '(Availability_builder s e a u d k dt ou od ok nb def) := b in
  let opened n := if opened_today then i32 (n + 1) else n in
  if was_in_downtime then Availability_builder s e a u d k (i32 (dt + sla_duration)) ou od ok (opened nb) def
  else if status =? 0 then Availability_builder s e (i32 (a + sla_duration)) u d k dt ou od ok nb def
  else if status =? 1 then Availability_builder s e a u (i32 (d + sla_duration)) k dt ou (opened od) ok nb def
  else if status =? 2 then Availability_builder s e a (i32 (u + sla_duration)) d k dt (opened ou) od ok nb def
  else Availability_builder s e a u d (i32 (k + sla_duration)) dt ou od (opened ok) nb def.

Definition add_event (b : availability_builder) (status start end_ : Z) (was_in_downtime : bool) (tp : timeperiod)
    : outcome availability_builder :=
  let end_ := if end_ =? 0 then _end b else end_ in
  if end_ <? _start b then Returns b
  else
    let opened_today := (_start b <=? start) && (start <? _end b) in
    let start := if start <? _start b then _start b else start in
    let end_ := if _end b <? end_ then _end b else end_ in
    sla_duration ← TimePeriod.duration_intersect (zone_of tp) tp start end_;
    if sla_duration =? u32 (-1) then Returns b
    else Returns (count_event b status sla_duration was_in_downtime opened_today).

(** ** Tables *)

(** mod_bam_reporting_ba_events *)
Record ba_event : Type := Ba_event {
  ba_event_id : Z;
  ba_id : Z;
  start_time : Z;
  end_time : option Z;
  status : Z;
  in_downtime : bool
}.

(** mod_bam_reporting_ba_events_durations *)
Record ba_duration_event : Type := Ba_duration_event {
  d_event_id : Z;
  d_start_time : Z;
  d_end_time : Z;
  duration : Z;
  sla_duration : Z;
  timeperiod_id : Z;
  timeperiod_is_default : bool
}.

(** mod_bam_reporting_ba_availabilities *)
Record availability : Type := Availability {
  a_ba_id : Z;
  time_id : Z;
  a_timeperiod_id : Z;
  builder : availability_builder
}.

(** The durations of an event that ended, for the periods of its activity. *)
Fixpoint event_durations (ev : ba_event) (end_ : Z) (timeperiods : list (timeperiod * bool)) : outcome (list ba_duration_event) :=
  match timeperiods with
  | [] => Returns []
  | (tp, is_default) :: timeperiods =>
    let start := TimePeriod.get_next_valid (zone_of tp) tp (start_time ev) in
    l ← (if negb (start =? -1) && negb (end_ =? -1) && (start <? end_) then
           sla ← TimePeriod.duration_intersect (zone_of tp) tp start end_;
           Returns [Ba_duration_event (ba_event_id ev) start end_ (u32 (end_ - start)) sla (TimePeriod._id tp) is_default]
         else Returns []);
    r ← event_durations ev end_ timeperiods;
    Returns (l ++ r)
  end.

Definition _compute_event_durations (m : timeperiod_map) (ev : ba_event) (end_ : Z) : outcome (list ba_duration_event) :=
  timeperiods ← get_timeperiods_by_ba_id m (ba_id ev);
  event_durations ev end_ timeperiods.

(** ** The availabilities of a day *)

(** The activities to rebuild; None when all of them are built. *)
Definition wanted (rebuild : option (list Z)) (id : Z) : bool :=
  match rebuild with None => true | Some l => bool_decide (id ∈ l) end.

(** SELECT ... FROM mod_bam_reporting_ba_events_durations AS a INNER JOIN
    mod_bam_reporting_ba_events AS b ON a.ba_event_id=b.ba_event_id AND
    b.end_time IS NOT NULL WHERE a.start_time<{} AND a.end_time>={} *)
Definition select_durations (rebuild : option (list Z)) (events : list ba_event) (durations : list ba_duration_event)
    (day_start day_end : Z) : list (ba_duration_event * ba_event) :=
  List.filter (fun '(a, b) =>
    (d_event_id a =? ba_event_id b) && bool_decide (is_Some (end_time b))
    && (d_start_time a <? day_end) && (day_start <=? d_end_time a) && wanted rebuild (ba_id b))
    (a ← durations; b ← events; [(a, b)]).

(** SELECT ... FROM mod_bam_reporting_ba_events WHERE start_time<{} AND
    end_time IS NULL *)
Definition select_open (rebuild : option (list Z)) (events : list ba_event) (day_end : Z) : list ba_event :=
  List.filter (fun b => (start_time b <? day_end) && bool_decide (end_time b = None) && wanted rebuild (ba_id b)) events.

Abbreviation builders := (gmap (Z * Z) availability_builder).

(** An event for the builder of a key, made when there is none. *)
Definition give (bs : builders) (key : Z * Z) (day_start day_end status start end_ : Z) (was_in_downtime : bool)
    (tp : timeperiod) (is_default : bool) : outcome builders :=
  let found := default (new_availability_builder day_end day_start) (bs !! key) in
  b ← add_event found (i16 status) start end_ was_in_downtime tp;
  Returns (<[key := set_timeperiod_is_default b is_default]> bs).

Fixpoint closed_events (m : timeperiod_map) (day_start day_end : Z) (rows : list (ba_duration_event * ba_event)) (bs : builders)
    : outcome builders :=
  match rows with
  | [] => Returns bs
  | (a, b) :: rows =>
    bs ← match get_timeperiod m (timeperiod_id a) with
         | None => Returns bs
         | Some tp =>
           give bs (ba_id b, timeperiod_id a) day_start day_end (status b) (d_start_time a) (d_end_time a) (in_downtime b) tp
             (timeperiod_is_default a)
         end;
    closed_events m day_start day_end rows bs
  end.

Fixpoint open_event (b : ba_event) (day_start day_end : Z) (tps : list (timeperiod * bool)) (bs : builders) : outcome builders :=
  match tps with
  | [] => Returns bs
  | (tp, is_default) :: tps =>
    bs ← give bs (ba_id b, TimePeriod._id tp) day_start day_end (status b) (start_time b) 0 (in_downtime b) tp is_default;
    open_event b day_start day_end tps bs
  end.

Fixpoint open_events (m : timeperiod_map) (day_start day_end : Z) (rows : list ba_event) (bs : builders) : outcome builders :=
  match rows with
  | [] => Returns bs
  | b :: rows =>
    tps ← get_timeperiods_by_ba_id m (ba_id b);
    bs ← open_event b day_start day_end tps bs;
    open_events m day_start day_end rows bs
  end.

Definition _build_daily_availabilities (m : timeperiod_map) (rebuild : option (list Z)) (events : list ba_event)
    (durations : list ba_duration_event) (day_start day_end : Z) : outcome builders :=
  bs ← closed_events m day_start day_end (select_durations rebuild events durations day_start day_end) ∅;
  open_events m day_start day_end (select_open rebuild events day_end) bs.
(** ** The thread *)

Record database : Type := Database {
  ba_events : list ba_event;
  ba_events_durations : list ba_duration_event;
  ba_availabilities : list availability
}.

Record availability_thread : Type := Availability_thread {
  _should_exit : bool;
  _should_rebuild_all : bool;
  _bas_to_rebuild : list Z
}.

Definition new_availability_thread : availability_thread := Availability_thread false false [].

Definition terminate (th : availability_thread) : availability_thread :=
  Availability_thread true (_should_rebuild_all th) (_bas_to_rebuild th).

Definition rebuild_availabilities (th : availability_thread) (bas_to_rebuild : list Z) : availability_thread :=
  match bas_to_rebuild with
  | [] => th
  | _ => Availability_thread (_should_exit th) true bas_to_rebuild
  end.

(** The base zone of the process. *)
Definition local : zone := zones None.

Definition _compute_start_of_day (when : Z) : Z := fst (mktime local (at_clock (localtime_r local when) 0 0 0)).

Definition _compute_next_midnight (now : Z) : Z :=
  TimePeriod.add_round_days_to_midnight local (_compute_start_of_day now) (3600 * 24).

(** The rows inserted for a day, in no particular order. *)
Definition _write_availabilities (day_start : Z) (bs : builders) : list availability :=
  (fun '((ba_id, timeperiod_id), b) => Availability ba_id day_start timeperiod_id b) <$> map_to_list bs.

(** Day after day. The rows written before an error stay. *)
Fixpoint build_days (fuel : nat) (m : timeperiod_map) (rebuild : option (list Z)) (db : database) (first_day last_day : Z)
    : database * outcome unit :=
  match fuel with
  | O => (db, Diverges)
  | S fuel =>
    if first_day <? last_day then
      let next_day := TimePeriod.add_round_days_to_midnight local first_day (3600 * 24) in
      match _build_daily_availabilities m rebuild (ba_events db) (ba_events_durations db) first_day next_day with
      | Returns bs =>
        let db := Database (ba_events db) (ba_events_durations db)
                    (ba_availabilities db ++ _write_availabilities first_day bs) in
        build_days fuel m rebuild db next_day last_day
      | Throws e => (db, Throws e)
      | Diverges => (db, Diverges)
      end
    else (db, Returns tt)
  end.

Definition _delete_all_availabilities (db : database) (bas_to_rebuild : list Z) : database :=
  Database (ba_events db) (ba_events_durations db)
    (List.filter (fun a => negb (wanted (Some bas_to_rebuild) (a_ba_id a))) (ba_availabilities db)).

(** MIN and MAX; what is read from NULL is 0. *)
Definition sql_min (l : list Z) : Z := match l with [] => 0 | x :: l => fold_left Z.min l x end.
Definition sql_max (l : list Z) : Z := match l with [] => 0 | x :: l => fold_left Z.max l x end.

(** The first day to build, the last one (excluded), and the tables, from which
    the days to build again are removed. *)
Definition days_to_build (th : availability_thread) (db : database) (midnight : Z) : Z * Z * database :=
  if _should_rebuild_all th then
    let rows := List.filter (fun e => wanted (Some (_bas_to_rebuild th)) (ba_id e)) (ba_events db) in
    let first_day := _compute_start_of_day (i32 (sql_min (start_time <$> rows))) in
    let last_day :=
      if negb (i32 (sql_min (default 0 ∘ end_time <$> rows)) =? 0) then _compute_start_of_day (sql_max (omap end_time rows))
      else midnight in
    (first_day, last_day, _delete_all_availabilities db (_bas_to_rebuild th))
  else
    (TimePeriod.add_round_days_to_midnight local (i32 (sql_max (time_id <$> ba_availabilities db))) (3600 * 24), midnight, db).

Definition _build_availabilities (fuel : nat) (th : availability_thread) (m : timeperiod_map) (db : database) (midnight : Z)
    : database * outcome unit :=
  let '(first_day, last_day, db) := days_to_build th db midnight in
  build_days fuel m (if _should_rebuild_all th then Some (_bas_to_rebuild th) else None) db first_day last_day.

(** A turn of the loop of the thread, woken up at [now]. What was asked is
    forgotten once it is done, and tried again next time after an error. *)
Definition run_turn (fuel : nat) (th : availability_thread) (m : timeperiod_map) (db : database) (now : Z)
    : availability_thread * database :=
  if _should_exit th then (th, db)
  else
    let '(db, r) := _build_availabilities fuel th m db (_compute_start_of_day now) in
    match r with
    | Returns _ => (Availability_thread (_should_exit th) false [], db)
    | _ => (th, db)
    end.

End Model.

(** ** What builders count

    In a zone of constant offset, for periods made of ranges within a day and a
    day of less than 2^31 seconds. *)

(** Where an event is counted. *)
Inductive kind : Type := Available | Degraded | Unavailable | Unknown | Downtime.

#[global] Instance kind_eq_dec : EqDecision kind.
Proof. solve_decision. Defined.

Definition kinds : list kind := [Available; Degraded; Unavailable; Unknown; Downtime].

Definition kind_of (status : Z) (was_in_downtime : bool) : kind :=
  if was_in_downtime then Downtime
  else if status =? 0 then Available else if status =? 1 then Degraded else if status =? 2 then Unavailable else Unknown.

Definition amount (k : kind) (b : availability_builder) : Z :=
  match k with
  | Available => _available b | Degraded => _degraded b | Unavailable => _unavailable b | Unknown => _unknown b
  | Downtime => _downtime b
  end.

(** The events begun in the day; available ones are not counted. *)
Definition begun (k : kind) (b : availability_builder) : Z :=
  match k with
  | Available => 0 | Degraded => _alert_degraded_opened b | Unavailable => _alert_unavailable_opened b
  | Unknown => _alert_unknown_opened b | Downtime => _nb_downtime b
  end.

Definition in_int (z : Z) : Prop := i32 z = z.

Definition builder_ok (b : availability_builder) : Prop := forall k, in_int (amount k b) /\ in_int (begun k b).

Lemma count_event_spec b status sla (dt opened : bool) : builder_ok b ->
  let b' := count_event b status sla dt opened in
  _start b' = _start b /\ _end b' = _end b /\ _timeperiods_is_default b' = _timeperiods_is_default b /\
  forall k, amount k b' = i32 (amount k b + (if decide (kind_of status dt = k) then sla else 0))
  /\ begun k b' = i32 (begun k b + (if decide (kind_of status dt = k /\ k <> Available /\ opened = true) then 1 else 0)).
Proof.
  intros Hb b'. unfold b', count_event. unfold builder_ok, in_int in Hb. destruct b as [s e a u d kn dn ou od ok nb def].
  unfold kind_of. repeat case_if; (split; [done|]); (split; [done|]); (split; [done|]); intros k; specialize (Hb k);
    destruct k; cbn [amount begun _available _unavailable _degraded _unknown _downtime _alert_unavailable_opened
      _alert_degraded_opened _alert_unknown_opened _nb_downtime] in *; repeat case_decide; intuition (try congruence);
    rewrite ?Z.add_0_r; congruence.
Qed.

(** An event as a builder is given it. *)
Record event : Type := Event { e_status : Z; e_start : Z; e_end : Z; e_downtime : bool; e_default : bool }.

Section Fixed.
Context {ptr : Type}.
Variable off : Z.
Abbreviation timeperiod := (TimePeriod.timeperiod ptr).
Abbreviation zones := (fun _ : option cstring => fixed off).

Definition period_ok (tp : timeperiod) : Prop := forall day, Forall TimePeriod.in_a_day (TimePeriod.get_timeranges_by_day tp day).

(** The instants of the period in an interval. *)
Abbreviation common := (@TimePeriod.common ptr off).

Lemma common_bounds tp s e : 0 <= common tp s e <= Z.max 0 (e - s).
Proof.
  unfold TimePeriod.common. pose proof (List.filter_length_le (TimePeriod.valid off tp) (seqZ s (e - s))) as H.
  rewrite length_seqZ in H. lia.
Qed.

Lemma common_empty tp s e : e <= s -> common tp s e = 0.
Proof. intros. pose proof (common_bounds tp s e). lia. Qed.

Abbreviation builders := (gmap (Z * Z) availability_builder).

Section Day.
Variables ds de : Z.
Hypothesis day_ok : 0 <= ds <= de /\ de - ds < 2 ^ 31.

Definition closing (e : Z) : Z := if e =? 0 then de else e.

(** The part of an event in the period and in the day. *)
Definition share (tp : timeperiod) (s e : Z) : Z := common tp (Z.max s ds) (Z.min (closing e) de).

Lemma share_bounds tp s e : 0 <= share tp s e <= de - ds.
Proof. unfold share. pose proof (common_bounds tp (Z.max s ds) (Z.min (closing e) de)). lia. Qed.

Definition begins (s e : Z) : bool := (ds <=? s) && (s <? de) && (ds <=? closing e).

Lemma i32_add_0 z : in_int z -> i32 (z + 0) = z.
Proof. unfold in_int. by rewrite Z.add_0_r. Qed.

Lemma add_event_spec b st s e dt tp : period_ok tp -> builder_ok b -> _start b = ds -> _end b = de ->
  exists b', add_event zones b st s e dt tp = Returns b' /\ _start b' = ds /\ _end b' = de
  /\ forall k, amount k b' = i32 (amount k b + (if decide (kind_of st dt = k) then share tp s e else 0))
  /\ begun k b' = i32 (begun k b + (if decide (kind_of st dt = k /\ k <> Available /\ begins s e = true) then 1 else 0)).
Proof.
  intros Htp Hb Hs He. unfold add_event, share, begins. rewrite Hs, He. fold (closing e). destruct (Z.ltb_spec (closing e) ds) as [Hlt|Hge].
  { exists b. split_and!; [done..|]. intros k. destruct (Hb k) as [H1 H2]. rewrite common_empty by lia.
    rewrite (proj2 (Z.leb_gt ds (closing e))), andb_false_r by lia. rewrite (decide_False (P := _ /\ _)) by intuition congruence.
    case_decide; by rewrite !i32_add_0. }
  rewrite (proj2 (Z.leb_le ds (closing e))), andb_true_r by lia.
  replace (if s <? ds then ds else s) with (Z.max s ds) by (case_if; lia).
  replace (if de <? closing e then de else closing e) with (Z.min (closing e) de) by (case_if; lia).
  unfold zone_of. rewrite TimePeriod.duration_intersect_spec by (try done; lia). cbn [mbind outcome_bind].
  pose proof (share_bounds tp s e) as Hsh. unfold share in Hsh. rewrite u32_small by lia.
  change (u32 (-1)) with (2 ^ 32 - 1). rewrite (proj2 (Z.eqb_neq _ _)) by lia.
  set (o := (ds <=? s) && (s <? de)). set (c := common _ _ _).
  destruct (count_event_spec b st c dt o Hb) as (E1 & E2 & _ & E3). eexists. split; [done|]. rewrite E1, E2. split_and!; done.
Qed.

(** Several events of a period, in order. *)
Fixpoint add_all (tp : timeperiod) (es : list event) (b : availability_builder) : outcome availability_builder :=
  match es with
  | [] => Returns b
  | e :: es =>
    b ← add_event zones b (e_status e) (e_start e) (e_end e) (e_downtime e) tp;
    add_all tp es (set_timeperiod_is_default b (e_default e))
  end.

Definition sum (l : list Z) : Z := foldr Z.add 0 l.

Definition of_kind (k : kind) (es : list event) : list event :=
  List.filter (fun e => bool_decide (kind_of (e_status e) (e_downtime e) = k)) es.

Definition shares (tp : timeperiod) (es : list event) : Z := sum ((fun e => share tp (e_start e) (e_end e)) <$> es).

Definition beginnings (k : kind) (es : list event) : Z :=
  if decide (k = Available) then 0
  else Z.of_nat (length (List.filter (fun e => begins (e_start e) (e_end e)) (of_kind k es))).

Lemma i32_i32 z : in_int (i32 z).
Proof. unfold in_int. pose proof (i32_add_l z 0) as H. by rewrite !Z.add_0_r in H. Qed.

Lemma set_default_views b v k : amount k (set_timeperiod_is_default b v) = amount k b
  /\ begun k (set_timeperiod_is_default b v) = begun k b.
Proof. by destruct b, k. Qed.

Lemma shares_cons tp k e es : shares tp (of_kind k (e :: es))
  = (if decide (kind_of (e_status e) (e_downtime e) = k) then share tp (e_start e) (e_end e) else 0) + shares tp (of_kind k es).
Proof. unfold of_kind. cbn [List.filter]. case_decide; [rewrite bool_decide_true by done|rewrite bool_decide_false by done]; done. Qed.

Lemma beginnings_cons k e es : beginnings k (e :: es)
  = (if decide (kind_of (e_status e) (e_downtime e) = k /\ k <> Available /\ begins (e_start e) (e_end e) = true) then 1 else 0)
    + beginnings k es.
Proof.
  unfold beginnings. destruct (decide (k = Available)) as [->|Hk].
  - rewrite decide_False by intuition congruence. done.
  - unfold of_kind. cbn [List.filter]. destruct (decide (kind_of (e_status e) (e_downtime e) = k)) as [E|E].
    + rewrite bool_decide_true by done. cbn [List.filter]. destruct (begins _ _).
      * rewrite decide_True by done. cbn [length]. lia.
      * rewrite decide_False by intuition congruence. done.
    + rewrite bool_decide_false by done. rewrite decide_False by intuition congruence. done.
Qed.

Lemma day_add_all_spec tp es b : period_ok tp -> builder_ok b -> _start b = ds -> _end b = de ->
  exists b', add_all tp es b = Returns b' /\ forall k, amount k b' = i32 (amount k b + shares tp (of_kind k es))
    /\ begun k b' = i32 (begun k b + beginnings k es).
Proof.
  intros Htp. revert b. induction es as [|e es IH]; intros b Hb Hs He.
  { exists b. split; [done|]. intros k. destruct (Hb k). unfold shares, beginnings. cbn. split; [by rewrite i32_add_0|].
    case_decide; cbn; by rewrite i32_add_0. }
  cbn [add_all]. destruct (add_event_spec b (e_status e) (e_start e) (e_end e) (e_downtime e) tp Htp Hb Hs He)
    as (b1 & -> & H1 & H2 & H3). cbn [mbind outcome_bind].
  destruct (IH (set_timeperiod_is_default b1 (e_default e))) as (b2 & -> & H4).
  { intros k. destruct (set_default_views b1 (e_default e) k) as [-> ->]. destruct (H3 k) as [-> ->]. split; apply i32_i32. }
  { by destruct b1. } { by destruct b1. }
  exists b2. split; [done|]. intros k. destruct (H4 k) as [-> ->]. destruct (set_default_views b1 (e_default e) k) as [-> ->].
  destruct (H3 k) as [-> ->]. rewrite !i32_add_l, shares_cons, beginnings_cons, !Z.add_assoc. done.
Qed.

(** Events that follow each other from [s] to [e]. *)
Fixpoint follow (s : Z) (es : list event) (e : Z) : Prop :=
  match es with
  | [] => s = e
  | ev :: es => e_start ev = s /\ s <= closing (e_end ev) /\ follow (closing (e_end ev)) es e
  end.

Lemma follow_le s es e : follow s es e -> s <= e.
Proof. revert s. induction es as [|ev es IH]; intros s; cbn [follow]; [lia|]. intros (_ & H & H'%IH). lia. Qed.

Lemma shares_follow tp s es e : follow s es e -> shares tp es = common tp (Z.max s ds) (Z.min e de).
Proof.
  revert s. induction es as [|ev es IH]; intros s.
  { intros <-. unfold shares. cbn. rewrite common_empty by lia. done. }
  cbn [follow]. intros (<- & H & Hf). pose proof (follow_le _ _ _ Hf) as Hle. change (shares tp (ev :: es))
    with (share tp (e_start ev) (e_end ev) + shares tp es). rewrite (IH _ Hf). unfold share. set (c := closing (e_end ev)) in *.
  destruct (Z.le_gt_cases c ds); [|destruct (Z.le_gt_cases de c)].
  - rewrite (common_empty tp (Z.max (e_start ev) ds)) by lia. rewrite Z.add_0_l. f_equal; lia.
  - rewrite (common_empty tp (Z.max c ds)) by lia. rewrite Z.add_0_r. f_equal; lia.
  - replace (Z.max c ds) with c by lia. replace (Z.min c de) with c by lia.
    destruct (Z.le_gt_cases (Z.min e de) (Z.max (e_start ev) ds)) as [Hx|Hx].
    + rewrite !common_empty by lia. done.
    + rewrite <-(TimePeriod.common_split off tp (Z.max (e_start ev) ds) c (Z.min e de)) by lia. done.
Qed.

Lemma shares_nonneg tp es : 0 <= shares tp es.
Proof.
  induction es as [|e es IH]; [done|].
  change (shares tp (e :: es)) with (share tp (e_start e) (e_end e) + shares tp es).
  pose proof (share_bounds tp (e_start e) (e_end e)). lia.
Qed.

Lemma shares_kinds tp es : sum ((fun k => shares tp (of_kind k es)) <$> kinds) = shares tp es.
Proof.
  induction es as [|e es IH]; [done|]. change (shares tp (e :: es)) with (share tp (e_start e) (e_end e) + shares tp es).
  rewrite <-IH. unfold kinds. cbn [fmap list_fmap sum foldr]. rewrite !shares_cons.
  destruct (kind_of _ _); repeat case_decide; try congruence; unfold sum; cbn [foldr]; lia.
Qed.

Lemma shares_by_kind tp es es' : (forall k, shares tp (of_kind k es) = shares tp (of_kind k es')) -> shares tp es = shares tp es'.
Proof.
  intros H. rewrite <-(shares_kinds tp es), <-(shares_kinds tp es'). f_equal. apply list_fmap_ext. intros ? k _. apply H.
Qed.

Lemma shares_kind_le tp k es : 0 <= shares tp (of_kind k es) <= shares tp es.
Proof.
  split; [apply shares_nonneg|]. rewrite <-(shares_kinds tp es). unfold kinds. cbn [fmap list_fmap sum foldr]. unfold sum. cbn [foldr].
  pose proof (fun k => shares_nonneg tp (of_kind k es)) as H.
  pose proof (H Available). pose proof (H Degraded). pose proof (H Unavailable). pose proof (H Unknown). pose proof (H Downtime).
  destruct k; lia.
Qed.

Definition total (b : availability_builder) : Z := sum ((fun k => amount k b) <$> kinds).

Lemma new_builder_ok : builder_ok (new_availability_builder de ds).
Proof. intros k. by destruct k. Qed.

Lemma add_all_counts tp es : period_ok tp -> shares tp es < 2 ^ 31 ->
  exists b, add_all tp es (new_availability_builder de ds) = Returns b
  /\ (forall k, amount k b = shares tp (of_kind k es)) /\ total b = shares tp es.
Proof.
  intros Htp Hs. destruct (day_add_all_spec tp es _ Htp new_builder_ok eq_refl eq_refl) as (b & E & Hb).
  assert (Ha : forall k, amount k b = shares tp (of_kind k es)).
  { intros k. destruct (Hb k) as [-> _]. pose proof (shares_kind_le tp k es).
    replace (amount k _) with 0 by by destruct k. apply i32_small. lia. }
  exists b. split; [done|]. split; [done|]. unfold total. rewrite <-(shares_kinds tp es). f_equal.
  apply list_fmap_ext. intros ? k _. apply Ha.
Qed.

(** The events of a history without gap, that covers the day, share out all
    the instants of the period in the day: each is counted once, in the state of
    its event. *)
Theorem day_accounted tp s es e : period_ok tp -> follow s es e -> s <= ds -> de <= e ->
  exists b, add_all tp es (new_availability_builder de ds) = Returns b
  /\ (forall k, amount k b = shares tp (of_kind k es)) /\ total b = common tp ds de.
Proof.
  intros Htp Hf Hs He. assert (E : shares tp es = common tp ds de) by (rewrite (shares_follow tp s es e) by done; f_equal; lia).
  rewrite <-E. apply add_all_counts; [done|]. rewrite E. pose proof (common_bounds tp ds de). lia.
Qed.

(** *** The builders of a day *)

Variable m : timeperiod_map (ptr := ptr).

Record map_ok : Prop := Map_ok {
  map_periods : forall id tp, _map m !! id = Some tp -> period_ok tp /\ TimePeriod._id tp = id;
  map_known : forall ba id def, (id, def) ∈ relations m ba -> is_Some (_map m !! id)
}.
Hypothesis m_ok : map_ok.

(** The events a query gives for an activity and a period, in the order of its
    rows. *)
Definition closed_for (ba id : Z) (rows : list (ba_duration_event * ba_event)) : list event :=
  (fun '(a, b) => Event (i16 (status b)) (d_start_time a) (d_end_time a) (in_downtime b) (timeperiod_is_default a))
    <$> List.filter (fun '(a, b) => (ba_id b =? ba) && (timeperiod_id a =? id)) rows.

Definition related (b : ba_event) (id : Z) : list event :=
  (fun '(_, def) => Event (i16 (status b)) (start_time b) 0 (in_downtime b) def)
    <$> List.filter (fun '(i, _) => i =? id) (relations m (ba_id b)).

Definition open_for (ba id : Z) (rows : list ba_event) : list event :=
  b ← List.filter (fun b => ba_id b =? ba) rows; related b id.

(** The builder of a key was given these events, if any. *)
Definition given (bs : builders) (ba id : Z) (tp : timeperiod) (es : list event) : Prop :=
  match es with
  | [] => bs !! (ba, id) = None
  | _ => exists b, bs !! (ba, id) = Some b /\ add_all tp es (new_availability_builder de ds) = Returns b
  end.

Definition all_given (bs : builders) (f : Z -> Z -> list event) : Prop :=
  forall ba id tp, _map m !! id = Some tp -> given bs ba id tp (f ba id).

Lemma add_all_snoc tp es e b : add_all tp (es ++ [e]) b =
  (b ← add_all tp es b; b ← add_event zones b (e_status e) (e_start e) (e_end e) (e_downtime e) tp;
   Returns (set_timeperiod_is_default b (e_default e))).
Proof.
  revert b. induction es as [|e' es IH]; intros b; cbn [add_all app]; [done|].
  destruct (add_event _ _ _ _ _ _ _); cbn [mbind outcome_bind]; [apply IH|done|done].
Qed.

Lemma given_default bs ba id tp es : given bs ba id tp es ->
  add_all tp es (new_availability_builder de ds) = Returns (default (new_availability_builder de ds) (bs !! (ba, id))).
Proof. destruct es as [|e es]; cbn [given]; [by intros ->|by intros (b & -> & ->)]. Qed.

Lemma add_all_ends tp es : period_ok tp -> exists b, add_all tp es (new_availability_builder de ds) = Returns b.
Proof. intros H. destruct (day_add_all_spec tp es _ H new_builder_ok eq_refl eq_refl) as (b & -> & _). eauto. Qed.

(** One more event for a key. *)
Lemma give_spec bs f ba id tp st s e dt def : all_given bs f -> _map m !! id = Some tp ->
  exists bs', give zones bs (ba, id) ds de st s e dt tp def = Returns bs'
  /\ all_given bs' (fun ba' id' => f ba' id' ++ if decide ((ba', id') = (ba, id)) then [Event (i16 st) s e dt def] else []).
Proof.
  intros Hf Htp. unfold give. pose proof (given_default _ _ _ _ _ (Hf ba id tp Htp)) as Eb.
  destruct (add_all_ends tp (f ba id ++ [Event (i16 st) s e dt def])) as (b & Ea); [by apply (map_periods m_ok id)|].
  rewrite add_all_snoc, Eb in Ea. cbn [mbind outcome_bind e_status e_start e_end e_downtime e_default] in Ea.
  destruct (add_event _ _ _ _ _ _ _) as [b1| |] eqn:E1; cbn [mbind outcome_bind] in *; [|done..].
  eexists. split; [done|]. intros ba' id' tp' Htp'. destruct (decide ((ba', id') = (ba, id))) as [[= -> ->]|Hne].
  - simplify_eq. assert (G : exists b, <[(ba, id) := set_timeperiod_is_default b1 def]> bs !! (ba, id) = Some b
      /\ add_all tp (f ba id ++ [Event (i16 st) s e dt def]) (new_availability_builder de ds) = Returns b).
    { eexists. split; [by rewrite lookup_insert_eq|]. rewrite add_all_snoc, Eb. cbn [mbind outcome_bind e_status e_start e_end e_downtime e_default].
      rewrite E1. done. }
    destruct (f ba id ++ _) eqn:En; [by apply app_nil in En as [_ ?]|]. exact G.
  - rewrite app_nil_r. specialize (Hf ba' id' tp' Htp'). unfold given in *. by rewrite lookup_insert_ne by congruence.
Qed.

Lemma all_given_ext bs f g : (forall ba id, f ba id = g ba id) -> all_given bs f -> all_given bs g.
Proof. intros E H ba id tp Hm. rewrite <-E. by apply H. Qed.

Lemma closed_events_spec rows bs f : all_given bs f ->
  exists bs', closed_events zones m ds de rows bs = Returns bs' /\ all_given bs' (fun ba id => f ba id ++ closed_for ba id rows).
Proof.
  revert bs f. induction rows as [|[a b] rows IH]; intros bs f Hf; cbn [closed_events].
  { exists bs. split; [done|]. revert Hf. apply all_given_ext. intros. by rewrite app_nil_r. }
  unfold get_timeperiod. destruct (_map m !! timeperiod_id a) as [tp|] eqn:Htp.
  - destruct (give_spec bs f (ba_id b) (timeperiod_id a) tp (status b) (d_start_time a) (d_end_time a) (in_downtime b)
      (timeperiod_is_default a) Hf Htp) as (bs1 & -> & H1). cbn [mbind outcome_bind].
    destruct (IH _ _ H1) as (bs2 & -> & H2). exists bs2. split; [done|]. revert H2. apply all_given_ext. intros ba id.
    rewrite <-app_assoc. f_equal. unfold closed_for. cbn [List.filter].
    destruct (decide ((ba, id) = (ba_id b, timeperiod_id a))) as [E|Hne]; [simplify_eq; by rewrite !Z.eqb_refl|].
    replace (_ && _) with false; [done|]. symmetry. apply not_true_is_false. intros H%andb_prop. destruct H. apply Hne. f_equal; lia.
  - cbn [mbind outcome_bind]. destruct (IH _ _ Hf) as (bs2 & -> & H2). exists bs2. split; [done|]. intros ba id tp Hm.
    specialize (H2 ba id tp Hm). unfold closed_for. cbn [List.filter]. replace (timeperiod_id a =? id) with false; [by rewrite andb_false_r|].
    symmetry. apply Z.eqb_neq. congruence.
Qed.

Lemma find_timeperiods_spec l : (forall id def, (id, def) ∈ l -> is_Some (_map m !! id)) ->
  exists tps, find_timeperiods m l = Returns tps /\ Forall2 (fun p q => _map m !! p.1 = Some q.1 /\ p.2 = q.2) l tps.
Proof.
  induction l as [|[id def] l IH]; intros H; cbn [find_timeperiods].
  { exists []. split; [done|constructor]. }
  destruct (H id def) as [tp Htp]; [by left|]. unfold get_timeperiod. rewrite Htp. destruct IH as (tps & -> & Hl).
  { intros. apply (H _ def0). by right. }
  exists ((tp, def) :: tps). split; [done|]. by constructor.
Qed.

Lemma open_event_spec b l tps bs f : Forall2 (fun p q => _map m !! p.1 = Some q.1 /\ p.2 = q.2) l tps -> all_given bs f ->
  exists bs', open_event zones b ds de tps bs = Returns bs'
  /\ all_given bs' (fun ba id => f ba id ++ if ba_id b =? ba then
       (fun '(_, def) => Event (i16 (status b)) (start_time b) 0 (in_downtime b) def) <$> List.filter (fun '(i, _) => i =? id) l
     else []).
Proof.
  intros Hl. revert bs f. induction Hl as [|[id def] [tp def'] l tps [Hm E] _ IH]; intros bs f Hf; cbn [open_event].
  { exists bs. split; [done|]. revert Hf. apply all_given_ext. intros. cbn. case_if; by rewrite app_nil_r. }
  cbn [fst snd] in *. subst def'. destruct (map_periods m_ok id tp Hm) as [_ Hid]. rewrite Hid.
  destruct (give_spec bs f (ba_id b) id tp (status b) (start_time b) 0 (in_downtime b) def Hf Hm) as (bs1 & -> & H1).
  cbn [mbind outcome_bind]. destruct (IH _ _ H1) as (bs2 & -> & H2). exists bs2. split; [done|]. revert H2. apply all_given_ext.
  intros ba id'. rewrite <-app_assoc. f_equal. cbn [List.filter]. destruct (Z.eqb_spec (ba_id b) ba) as [<-|Hne].
  - destruct (Z.eqb_spec id id') as [<-|Hne]; [by rewrite decide_True|]. rewrite decide_False by congruence. done.
  - rewrite decide_False by congruence. done.
Qed.

Lemma open_events_spec rows bs f : all_given bs f ->
  exists bs', open_events zones m ds de rows bs = Returns bs' /\ all_given bs' (fun ba id => f ba id ++ open_for ba id rows).
Proof.
  revert bs f. induction rows as [|b rows IH]; intros bs f Hf; cbn [open_events].
  { exists bs. split; [done|]. revert Hf. apply all_given_ext. intros. by rewrite app_nil_r. }
  unfold get_timeperiods_by_ba_id. destruct (find_timeperiods_spec (relations m (ba_id b)) (map_known m_ok (ba_id b))) as (tps & -> & Hl).
  cbn [mbind outcome_bind]. destruct (open_event_spec b _ _ bs f Hl Hf) as (bs1 & -> & H1). cbn [mbind outcome_bind].
  destruct (IH _ _ H1) as (bs2 & -> & H2). exists bs2. split; [done|]. revert H2. apply all_given_ext. intros ba id.
  rewrite <-app_assoc. f_equal. unfold open_for. cbn [List.filter]. case_if; done.
Qed.

(** The builders of a day: for each activity and each known period, the events
    of the rows selected, closed ones first, or no builder when there is none. *)
Lemma daily_builders rebuild events durations :
  exists bs, _build_daily_availabilities zones m rebuild events durations ds de = Returns bs
  /\ all_given bs (fun ba id => closed_for ba id (select_durations rebuild events durations ds de)
                                ++ open_for ba id (select_open rebuild events de)).
Proof.
  unfold _build_daily_availabilities.
  destruct (closed_events_spec (select_durations rebuild events durations ds de) ∅ (fun _ _ => [])) as (bs & -> & H).
  { intros ba id tp _. apply lookup_empty. }
  cbn [mbind outcome_bind]. destruct (open_events_spec (select_open rebuild events de) bs _ H) as (bs' & E & H').
  exists bs'. split; [done|]. exact H'.
Qed.

(** *** From the history of an activity to its builders *)

Variable tp : timeperiod.
Variables (ba id : Z) (def : bool) (events : list ba_event).
Hypothesis tp_known : _map m !! id = Some tp.
(** The period is one of those of the activity, once. *)
Hypothesis related_once : List.filter (fun '(i, _) => i =? id) (relations m ba) = [(id, def)].

(** The durations reporting computed for the events of the table that ended. *)
Fixpoint durations_of (evs : list ba_event) (durations : list ba_duration_event) : Prop :=
  match evs with
  | [] => durations = []
  | ev :: evs => exists l r, durations = l ++ r /\ durations_of evs r /\
    match end_time ev with
    | None => l = []
    | Some e => if start_time ev =? e then l = [] else _compute_event_durations zones m ev e = Returns l
    end
  end.

Definition event_ok (b : ba_event) : Prop := 0 <= start_time b /\ forall e, end_time b = Some e -> 0 < e.

Definition as_event (b : ba_event) : event :=
  Event (i16 (status b)) (start_time b) (default 0 (end_time b)) (in_downtime b) false.

Lemma of_kind_app k es es' : of_kind k (es ++ es') = of_kind k es ++ of_kind k es'.
Proof. apply List.filter_app. Qed.

Lemma shares_app es es' : shares tp (es ++ es') = shares tp es + shares tp es'.
Proof.
  induction es as [|e es IH]; [done|]. change (shares tp ((e :: es) ++ es')) with (share tp (e_start e) (e_end e) + shares tp (es ++ es')).
  rewrite IH. change (shares tp (e :: es)) with (share tp (e_start e) (e_end e) + shares tp es). lia.
Qed.

Lemma share_none s e : (forall x, Z.max s ds <= x < Z.min (closing e) de -> TimePeriod.valid off tp x = false) -> share tp s e = 0.
Proof. intros H. unfold share. by apply TimePeriod.common_none. Qed.

(** An event has the same share from its first instant in the period on. *)
Lemma share_next s e : 0 <= s -> e <> 0 -> let ns := TimePeriod.get_next_valid (fixed off) tp s in
  share tp s e = if negb (ns =? -1) && (ns <? e) then share tp ns e else 0.
Proof.
  intros Hs He ns. destruct (map_periods m_ok id tp tp_known) as [Hok _].
  assert (Hc : closing e = e) by (unfold closing; case_if; lia).
  destruct (TimePeriod.get_next_valid_spec off tp Hok s Hs) as [[E Hnone]|(Hr & H1 & _ & H3)].
  { fold ns in E. rewrite E. cbn [Z.eqb Pos.eqb negb andb]. apply share_none. intros x Hx. apply Hnone. lia. }
  fold ns in Hr, H1, H3. rewrite (proj2 (Z.eqb_neq ns (-1))) by lia. cbn [negb andb]. destruct (Z.ltb_spec ns e) as [Hlt|Hge].
  - unfold share. rewrite Hc. destruct (Z.le_gt_cases (Z.min e de) (Z.max ns ds)) as [Hx|Hx].
    + rewrite (common_empty tp (Z.max ns ds)) by done. apply TimePeriod.common_none. intros x Hx'. apply H3. lia.
    + rewrite (TimePeriod.common_split off tp (Z.max s ds) (Z.max ns ds)) by lia.
      rewrite (TimePeriod.common_none off tp (Z.max s ds)); [lia|]. intros x Hx'. apply H3. lia.
  - apply share_none. rewrite Hc. intros x Hx. apply H3. lia.
Qed.

Definition sum_on {A} (f : A -> Z) (l : list A) : Z := sum (f <$> l).

Lemma sum_on_app {A} (f : A -> Z) l l' : sum_on f (l ++ l') = sum_on f l + sum_on f l'.
Proof. unfold sum_on. rewrite fmap_app. unfold sum. induction (f <$> l) as [|x k IH]; cbn [app foldr]; lia. Qed.

Lemma sum_on_ext {A} (f g : A -> Z) l : (forall x, x ∈ l -> f x = g x) -> sum_on f l = sum_on g l.
Proof.
  induction l as [|x l IH]; intros H; [done|]. change (f x + sum_on f l = g x + sum_on g l). rewrite H by left.
  rewrite IH; [done|]. intros y Hy. apply H. by right.
Qed.

(** *** One state *)

Section Kind.
Variable k : kind.

Definition event_kind (ev : ba_event) : kind := kind_of (i16 (status ev)) (in_downtime ev).
(** An event of the activity, in this state. *)
Definition own (ev : ba_event) : bool := (ba_id ev =? ba) && bool_decide (event_kind ev = k).

(** What a row of durations of the event [ev] brings to the key, in this state. *)
Definition brings (ev : ba_event) (a : ba_duration_event) : Z :=
  if own ev && (timeperiod_id a =? id) then share tp (d_start_time a) (d_end_time a) else 0.

Definition row_ok (ev : ba_event) (a : ba_duration_event) : Prop := d_event_id a = ba_event_id ev /\ d_end_time a <> 0.

Definition rows_of (a : ba_duration_event) (evs : list ba_event) : Z :=
  shares tp (of_kind k (closed_for ba id (List.filter (fun '(a, b) =>
    (d_event_id a =? ba_event_id b) && bool_decide (is_Some (end_time b))
    && (d_start_time a <? de) && (ds <=? d_end_time a) && wanted None (ba_id b)) ((fun b => (a, b)) <$> evs)))).

Lemma rows_of_cons a b evs : rows_of a (b :: evs)
  = (if (d_event_id a =? ba_event_id b) && bool_decide (is_Some (end_time b)) && (d_start_time a <? de) && (ds <=? d_end_time a)
     then brings b a else 0) + rows_of a evs.
Proof.
  unfold rows_of at 1. cbn [fmap list_fmap List.filter wanted]. rewrite andb_true_r. set (R := List.filter _ _).
  change (rows_of a evs) with (shares tp (of_kind k (closed_for ba id R))). case_if; [|done].
  unfold closed_for. cbn [List.filter]. unfold brings, own. clearbody R.
  destruct (ba_id b =? ba), (timeperiod_id a =? id); cbn [andb]; rewrite ?andb_false_r; try done.
  rewrite fmap_cons, shares_cons, andb_true_r. unfold event_kind. cbn [e_status e_downtime e_start e_end].
  case_decide; [by rewrite bool_decide_true|by rewrite bool_decide_false].
Qed.

Lemma rows_of_others a evs : Forall (fun b => ba_event_id b <> d_event_id a) evs -> rows_of a evs = 0.
Proof.
  induction 1 as [|b evs Hb _ IH]; [done|]. rewrite rows_of_cons, IH.
  by rewrite (proj2 (Z.eqb_neq (d_event_id a) (ba_event_id b))) by congruence.
Qed.

(** A row out of the day brings nothing. *)
Lemma brings_nothing ev a : d_end_time a <> 0 -> de <= d_start_time a \/ d_end_time a < ds -> brings ev a = 0.
Proof.
  intros Hz H. unfold brings. case_if; [|done]. apply share_none. unfold closing. rewrite (proj2 (Z.eqb_neq _ 0)) by done. lia.
Qed.

Lemma rows_of_event a ev evs : NoDup (ba_event_id <$> evs) -> ev ∈ evs -> is_Some (end_time ev) -> row_ok ev a ->
  rows_of a evs = brings ev a.
Proof.
  intros Hnd Hin Hend [Ha Hz]. induction evs as [|b evs IH]; [by apply elem_of_nil in Hin|].
  apply NoDup_cons in Hnd as [Hb Hnd]. rewrite rows_of_cons. apply elem_of_cons in Hin as [->|Hin].
  - rewrite rows_of_others, Z.add_0_r.
    2: { apply Forall_forall. intros b' Hb' E. apply Hb. rewrite <-Ha, <-E. by apply list_elem_of_fmap_2. }
    rewrite Ha, Z.eqb_refl, bool_decide_true by done. cbn [andb].
    destruct (Z.ltb_spec (d_start_time a) de); [destruct (Z.leb_spec ds (d_end_time a))|]; cbn [andb]; [done|..];
      rewrite brings_nothing by (done || lia); done.
  - rewrite IH by done. rewrite (proj2 (Z.eqb_neq (d_event_id a) (ba_event_id b))); [done|]. rewrite Ha. intros E. apply Hb. rewrite <-E.
    by apply list_elem_of_fmap_2.
Qed.

Lemma bind_pairs {A B} (a : A) (l : list B) : (b ← l; [(a, b)]) = (fun b => (a, b)) <$> l.
Proof. induction l as [|b l IH]; [done|]. rewrite bind_cons, fmap_cons, IH. done. Qed.

Lemma closed_for_app rows rows' : closed_for ba id (rows ++ rows') = closed_for ba id rows ++ closed_for ba id rows'.
Proof. unfold closed_for. by rewrite List.filter_app, fmap_app. Qed.

Lemma select_durations_sum durations : shares tp (of_kind k (closed_for ba id (select_durations None events durations ds de)))
  = sum_on (fun a => rows_of a events) durations.
Proof.
  unfold select_durations. induction durations as [|a durations IH]; [done|]. rewrite bind_cons, bind_pairs.
  rewrite List.filter_app, closed_for_app, of_kind_app, shares_app, IH. done.
Qed.

(** The rows computed for an event bring it its share, once. *)
Lemma event_durations_share ev e l tps rows : 0 <= start_time ev -> 0 < e ->
  Forall2 (fun p q => _map m !! p.1 = Some q.1 /\ p.2 = q.2) l tps ->
  event_durations zones ev e tps = Returns rows ->
  Forall (row_ok ev) rows /\ sum_on (brings ev) rows
    = if own ev then Z.of_nat (length (List.filter (fun '(i, _) => i =? id) l)) * share tp (start_time ev) e else 0.
Proof.
  intros Hs He Hl. revert rows. induction Hl as [|[i d] [tp' d'] l tps [Hm E] _ IH]; intros rows; cbn [event_durations].
  { intros [= <-]. split; [constructor|]. cbn. by case_if. }
  cbn [fst snd] in *. subst d'. destruct (map_periods m_ok i tp' Hm) as [Hok Hid]. unfold zone_of.
  set (ns := TimePeriod.get_next_valid _ tp' _). rewrite (proj2 (Z.eqb_neq e (-1))) by lia. cbn [negb]. rewrite andb_true_r.
  intros Hrows. assert (Hnew : exists new, (if negb (ns =? -1) && (ns <? e) then
      sla ← TimePeriod.duration_intersect (fixed off) tp' ns e;
      Returns [Ba_duration_event (ba_event_id ev) ns e (u32 (e - ns)) sla (TimePeriod._id tp') d] else Returns []) = Returns new
      /\ Forall (row_ok ev) new
      /\ sum_on (brings ev) new = if (own ev) && (i =? id) then share tp (start_time ev) e else 0).
  { destruct (negb (ns =? -1) && (ns <? e)) eqn:En.
    - rewrite TimePeriod.duration_intersect_spec; [|done|].
      2: { destruct (TimePeriod.get_next_valid_spec off tp' Hok (start_time ev) Hs) as [[E _]|(Hr & _)]; [|exact Hr].
           fold ns in E. rewrite E in En. done. }
      eexists. split; [done|]. split. { constructor; [|constructor]. split; cbn; [done|lia]. }
      unfold sum_on. cbn [fmap list_fmap sum foldr]. unfold sum. cbn [foldr]. rewrite Z.add_0_r. unfold brings. cbn [timeperiod_id d_start_time d_end_time].
      rewrite Hid. destruct (own ev); [|done]. destruct (Z.eqb_spec i id) as [->|]; [|done]. cbn [andb].
      simplify_eq. pose proof (share_next (start_time ev) e Hs ltac:(lia)) as Hn. cbv zeta in Hn. fold ns in Hn. by rewrite En in Hn.
    - exists []. split_and!; [done|constructor|]. cbn. destruct (own ev); [|done]. destruct (Z.eqb_spec i id) as [->|]; [|done].
      cbn [andb]. simplify_eq. pose proof (share_next (start_time ev) e Hs ltac:(lia)) as Hn. cbv zeta in Hn. fold ns in Hn. by rewrite En in Hn. }
  destruct Hnew as (new & Enew & Hr1 & Hs1). rewrite Enew in Hrows. cbn [mbind outcome_bind] in Hrows.
  destruct (event_durations _ ev e tps) as [r| |]; [|done..]. injection Hrows as <-. destruct (IH r eq_refl) as [Hr2 Hs2].
  split; [by apply Forall_app|]. rewrite sum_on_app, Hs1, Hs2. cbn [List.filter].
  destruct (own ev); cbn [andb]; [|done]. destruct (i =? id); cbn [length]; lia.
Qed.

Definition share_of (ev : ba_event) : Z := share tp (start_time ev) (default 0 (end_time ev)).

Lemma closed_shares evs durations : NoDup (ba_event_id <$> events) -> Forall event_ok events -> (forall ev, ev ∈ evs -> ev ∈ events) ->
  durations_of evs durations ->
  sum_on (fun a => rows_of a events) durations
  = sum_on (fun ev => if (own ev) && bool_decide (is_Some (end_time ev)) then share_of ev else 0) evs.
Proof.
  intros Hnd Hok. revert durations. induction evs as [|ev evs IH]; intros durations Hin; cbn [durations_of]; [by intros ->|].
  intros (l & r & -> & Hr & Hl). rewrite sum_on_app. rewrite (IH r) by (done || (intros; apply Hin; by right)).
  change (sum_on ?f (ev :: evs)) with (f ev + sum_on f evs). f_equal. cbn beta.
  assert (Hev : ev ∈ events) by (apply Hin; by left). destruct (proj1 (Forall_forall _ _) Hok ev Hev) as [Hs He].
  unfold share_of. destruct (end_time ev) as [e|] eqn:Ee.
  2: { rewrite bool_decide_false, andb_false_r by (intros [? ?]; done). by subst l. }
  rewrite bool_decide_true, andb_true_r by by eexists. cbn [from_option Datatypes.id]. specialize (He e eq_refl).
  destruct (Z.eqb_spec (start_time ev) e) as [E|E].
  { subst l. unfold sum_on. cbn. case_if; [|done]. symmetry. apply share_none. unfold closing. case_if; lia. }
  unfold _compute_event_durations, get_timeperiods_by_ba_id in Hl.
  destruct (find_timeperiods_spec (relations m (ba_id ev)) (map_known m_ok (ba_id ev))) as (tps & E1 & Htps).
  rewrite E1 in Hl. cbn [mbind outcome_bind] in Hl.
  destruct (event_durations_share ev e _ _ _ Hs He Htps Hl) as [Hrows Hsum].
  rewrite (sum_on_ext _ (brings ev)).
  - rewrite Hsum. destruct (own ev) eqn:Eo; [|done]. apply andb_prop in Eo as [->%Z.eqb_eq _]. rewrite related_once. cbn [length]. lia.
  - intros a Ha. apply rows_of_event; [done|done|by rewrite Ee; eexists|]. by apply (proj1 (Forall_forall _ _) Hrows).
Qed.

Lemma open_shares evs : Forall event_ok evs ->
  shares tp (of_kind k (open_for ba id (select_open None evs de)))
  = sum_on (fun ev => if (own ev) && negb (bool_decide (is_Some (end_time ev))) then share_of ev else 0) evs.
Proof.
  induction 1 as [|ev evs Hev _ IH]; [done|]. change (sum_on ?f (ev :: evs)) with (f ev + sum_on f evs). cbn beta. rewrite <-IH. clear IH.
  unfold select_open, open_for. cbn [List.filter wanted]. rewrite andb_true_r. set (R := List.filter _ evs). clearbody R.
  unfold share_of. destruct (end_time ev) as [e|].
  { rewrite bool_decide_false, andb_false_r, bool_decide_true, andb_false_r by (done || by eexists). done. }
  rewrite bool_decide_true, andb_true_r by done. rewrite bool_decide_false, andb_true_r by (intros [? ?]; done). cbn [from_option Datatypes.id].
  destruct (Z.ltb_spec (start_time ev) de) as [H|H]; cbn [List.filter].
  - unfold own. destruct (Z.eqb_spec (ba_id ev) ba) as [E|E]; [|done]. rewrite bind_cons, of_kind_app, shares_app. f_equal.
    unfold related. rewrite E, related_once. cbn [fmap list_fmap andb]. rewrite shares_cons. unfold event_kind.
    cbn [e_status e_downtime e_start e_end]. case_decide; [rewrite bool_decide_true by done|rewrite bool_decide_false by done]; cbn; lia.
  - case_if; [|done]. rewrite share_none; [done|]. intros x Hx. lia.
Qed.

Lemma history_shares evs : shares tp (of_kind k (as_event <$> List.filter (fun b => ba_id b =? ba) evs))
  = sum_on (fun ev => if (own ev) && bool_decide (is_Some (end_time ev)) then share_of ev else 0) evs
    + sum_on (fun ev => if (own ev) && negb (bool_decide (is_Some (end_time ev))) then share_of ev else 0) evs.
Proof.
  induction evs as [|ev evs IH]; [done|]. change (sum_on ?f (ev :: evs)) with (f ev + sum_on f evs). cbn beta. cbn [List.filter].
  unfold own at 1 3. destruct (ba_id ev =? ba); cbn [andb]; [|rewrite IH; lia].
  rewrite fmap_cons, shares_cons, IH.
  change (kind_of (e_status (as_event ev)) (e_downtime (as_event ev))) with (event_kind ev).
  change (share tp (e_start (as_event ev)) (e_end (as_event ev))) with (share_of ev).
  destruct (decide (event_kind ev = k)) as [E|E];
    [rewrite (proj2 (bool_decide_eq_true _) E)|rewrite (proj2 (bool_decide_eq_false _) E)];
    cbn [andb]; [destruct (bool_decide _); cbn [negb]|]; lia.
Qed.

(** The events given to the builder of the key share out, in each state, what
    the events of the history of the activity in this state do. *)
Lemma given_shares durations : NoDup (ba_event_id <$> events) -> Forall event_ok events -> durations_of events durations ->
  shares tp (of_kind k (closed_for ba id (select_durations None events durations ds de)
                        ++ open_for ba id (select_open None events de)))
  = shares tp (of_kind k (as_event <$> List.filter (fun b => ba_id b =? ba) events)).
Proof.
  intros Hnd Hok Hdur.
  by rewrite of_kind_app, shares_app, select_durations_sum, (closed_shares events), open_shares, <-history_shares by done.
Qed.
End Kind.

(** C18. The availabilities of a day are those of the history of the activity,
    state by state: when the events of an activity follow each other over the
    day, and their durations were computed for the periods of the activity, the
    time written for a period in a state (available, degraded, unavailable,
    unknown, in downtime) is the number of instants of the period in the day
    that the events of this state cover, and these times make all the instants
    of the period in the day, each once, whatever other activities and periods
    are in the tables. The periods are made of weekly ranges, in a zone of
    constant offset, and the day is shorter than 2^31 seconds. *)
Theorem daily_availability s e durations : NoDup (ba_event_id <$> events) -> Forall event_ok events ->
  durations_of events durations -> follow s (as_event <$> List.filter (fun b => ba_id b =? ba) events) e -> s <= ds -> de <= e ->
  exists bs, _build_daily_availabilities zones m None events durations ds de = Returns bs
  /\ let b := default (new_availability_builder de ds) (bs !! (ba, id)) in
     (forall k, amount k b = shares tp (of_kind k (as_event <$> List.filter (fun b => ba_id b =? ba) events)))
     /\ total b = common tp ds de.
Proof.
  intros Hnd Hok Hdur Hf Hs He. destruct (daily_builders None events durations) as (bs & E & Hbs). exists bs. split; [done|].
  specialize (Hbs ba id tp tp_known). apply given_default in Hbs. set (es := closed_for _ _ _ ++ _) in Hbs.
  pose proof (fun k => given_shares k durations Hnd Hok Hdur) as Hk. fold es in Hk.
  assert (Esh : shares tp es = common tp ds de).
  { by rewrite (shares_by_kind tp es _ Hk), (shares_follow tp s _ e), Z.max_r, Z.min_r. }
  destruct (add_all_counts tp es) as (b & Eb & Ha & Ht).
  - by apply (map_periods m_ok id).
  - rewrite Esh. pose proof (common_bounds tp ds de). lia.
  - rewrite Eb in Hbs. injection Hbs as <-. cbn zeta. split; [intros k; by rewrite Ha, Hk|by rewrite Ht].
Qed.

End Day.
End Fixed.

(** ** Day after day *)

Section Days.
Context {ptr : Type}.
Variables (off : Z) (m : timeperiod_map (ptr := ptr)).
Hypothesis m_ok : map_ok m.
Abbreviation zones := (fun _ : option cstring => fixed off).
Abbreviation midnight := (TimePeriod.day_start off).

Lemma midnight_after_midnight D : TimePeriod.add_round_days_to_midnight (fixed off) (midnight D) (3600 * 24) = midnight (D + 1).
Proof. exact (TimePeriod.add_round_days off D 1). Qed.

(** The rows of the days from [D] on, [n] of them. *)
Fixpoint rows_of_days (rebuild : option (list Z)) (events : list ba_event) (durations : list ba_duration_event) (D : Z) (n : nat)
    (rows : list availability) : Prop :=
  match n with
  | O => rows = []
  | S n => exists bs rows',
      _build_daily_availabilities zones m rebuild events durations (midnight D) (midnight (D + 1)) = Returns bs
      /\ rows = _write_availabilities (midnight D) bs ++ rows' /\ rows_of_days rebuild events durations (D + 1) n rows'
  end.

(** The loop over the days ends without error; it writes the rows of each
    day from the first to the last, excluded, and nothing else changes. *)
Theorem build_days_ends fuel rebuild db D n : 0 <= midnight D -> (n < fuel)%nat ->
  exists rows, rows_of_days rebuild (ba_events db) (ba_events_durations db) D n rows
  /\ build_days zones fuel m rebuild db (midnight D) (midnight (D + Z.of_nat n))
     = (Database (ba_events db) (ba_events_durations db) (ba_availabilities db ++ rows), Returns tt).
Proof.
  revert db D n. induction fuel as [|fuel IH]; intros db D n HD Hn; [lia|]. cbn [build_days]. unfold local.
  destruct n as [|n].
  - exists []. split; [done|]. rewrite Z.add_0_r, Z.ltb_irrefl, app_nil_r. by destruct db.
  - rewrite (proj2 (Z.ltb_lt _ _)) by (unfold TimePeriod.day_start; lia). rewrite midnight_after_midnight.
    assert (Hday : 0 <= midnight D <= midnight (D + 1) /\ midnight (D + 1) - midnight D < 2 ^ 31)
      by (unfold TimePeriod.day_start in *; lia).
    destruct (daily_builders off _ _ Hday m m_ok rebuild (ba_events db) (ba_events_durations db)) as (bs & Ebs & _).
    rewrite Ebs. set (db' := Database _ _ _).
    destruct (IH db' (D + 1) n) as (rows & Hrows & Eb); [unfold TimePeriod.day_start in *; lia|lia|].
    exists (_write_availabilities (midnight D) bs ++ rows). split; [by exists bs, rows|].
    replace (D + Z.of_nat (S n)) with (D + 1 + Z.of_nat n) by lia. rewrite Eb. cbn. by rewrite app_assoc.
Qed.

End Days.

(** ** Witnesses and examples *)

Abbreviation sunday := (TimePeriod.set_id TimePeriod.sunday_morning 7).

Definition sundays : timeperiod_map (ptr := unit) := add_relation (add_timeperiod new_timeperiod_map 7 sunday) 3 7 true.

Lemma sundays_ok : map_ok sundays.
Proof.
  split.
  - intros id tp. unfold sundays, add_relation, add_timeperiod. cbn [_map new_timeperiod_map].
    intros [[<- <-]|[_ H]]%lookup_insert_Some; [|by rewrite lookup_empty in H]. split; [|done].
    intros day. exact (TimePeriod.sunday_morning_ok day).
  - intros ba id def. unfold sundays, relations, add_relation at 1. cbn [_timeperiod_relations].
    destruct (decide (ba = 3)) as [->|Hne].
    + rewrite lookup_insert_eq. cbn. intros [= -> ->]%list_elem_of_singleton. by eexists.
    + rewrite lookup_insert_ne by done. cbn. by intros ?%elem_of_nil.
Qed.

(** On sunday 2021-03-14, in UTC+1: available from the day before to 10:30, then
    unavailable to 11:00, then degraded and not ended. *)
Definition sunday_start : Z := 1615676400.
Definition history : list ba_event :=
  [Ba_event 1 3 (sunday_start - 5000) (Some (sunday_start + 37800)) 0 false;
   Ba_event 2 3 (sunday_start + 37800) (Some (sunday_start + 39600)) 2 false;
   Ba_event 3 3 (sunday_start + 39600) None 1 false].

Definition history_durations : list ba_duration_event :=
  [Ba_duration_event 1 (sunday_start + 36000) (sunday_start + 37800) 1800 1800 7 true;
   Ba_duration_event 2 (sunday_start + 37800) (sunday_start + 39600) 1800 1800 7 true].

Lemma day_accounted_witness :
  exists b, add_all 3600 sunday (as_event <$> history) (new_availability_builder (sunday_start + 86400) sunday_start) = Returns b
  /\ (forall k, amount k b = shares 3600 sunday_start (sunday_start + 86400) sunday (of_kind k (as_event <$> history)))
  /\ total b = TimePeriod.common 3600 sunday sunday_start (sunday_start + 86400).
Proof.
  apply (day_accounted 3600 sunday_start (sunday_start + 86400) ltac:(unfold sunday_start; lia) sunday
    (sunday_start - 5000) (as_event <$> history) (sunday_start + 86400)).
  - exact TimePeriod.sunday_morning_ok.
  - repeat split; apply Z.leb_le; reflexivity.
  - lia.
  - lia.
Defined.

Lemma daily_availability_witness :
  exists bs, _build_daily_availabilities (fun _ => fixed 3600) sundays None history history_durations sunday_start (sunday_start + 86400)
    = Returns bs
  /\ let b := default (new_availability_builder (sunday_start + 86400) sunday_start) (bs !! (3, 7)) in
     (forall k, amount k b = shares 3600 sunday_start (sunday_start + 86400) sunday
        (of_kind k (as_event <$> List.filter (fun b => ba_id b =? 3) history)))
     /\ total b = TimePeriod.common 3600 sunday sunday_start (sunday_start + 86400).
Proof.
  apply (daily_availability 3600 sunday_start (sunday_start + 86400) ltac:(unfold sunday_start; lia) sundays sundays_ok
    sunday 3 7 true history ltac:(reflexivity) ltac:(reflexivity) (sunday_start - 5000) (sunday_start + 86400) history_durations).
  - apply (bool_decide_unpack _). vm_compute. reflexivity.
  - repeat constructor; try (apply Z.leb_le; reflexivity); cbn; intros; simplify_eq; apply Z.ltb_lt; reflexivity.
  - exists (take 1 history_durations), (drop 1 history_durations). split; [done|]. split; [|vm_compute; reflexivity].
    exists (drop 1 history_durations), []. split; [done|]. split; [|vm_compute; reflexivity].
    exists [], []. done.
  - repeat split; apply Z.leb_le; reflexivity.
  - lia.
  - lia.
Defined.

(** Half an hour available, half an hour unavailable and an hour degraded. *)
Lemma sunday_availability :
  (fun bs => (fun b => (amount Available b, amount Unavailable b, amount Degraded b)) <$> bs !! (3, 7))
    <$> _build_daily_availabilities (fun _ => fixed 3600) sundays None history history_durations sunday_start (sunday_start + 86400)
  = Returns (Some (1800, 1800, 3600)).
Proof. vm_compute. reflexivity. Qed.

Lemma build_days_ends_witness :
  exists rows, rows_of_days 3600 sundays None history history_durations 18700 2 rows
  /\ build_days (fun _ => fixed 3600) 3 sundays None (Database history history_durations []) (TimePeriod.day_start 3600 18700)
       (TimePeriod.day_start 3600 (18700 + Z.of_nat 2))
     = (Database history history_durations ([] ++ rows), Returns tt).
Proof.
  apply (build_days_ends 3600 sundays sundays_ok 3 None (Database history history_durations []) 18700 2); [|lia].
  apply Z.leb_le. reflexivity.
Defined.

(** When all events ended, the day of the last one is not built again although
    its availabilities are removed: here those of sunday, asked for on the
    tuesday after. *)
Lemma last_day_not_rebuilt :
  let db := Database (take 2 history) history_durations
              [Availability 3 sunday_start 7 (new_availability_builder (sunday_start + 86400) sunday_start)] in
  let th := rebuild_availabilities new_availability_thread [3] in
  let '(th', db') := run_turn (fun _ => fixed 3600) 9 th sundays db (sunday_start + 2 * 86400 + 100) in
  _should_rebuild_all th' = false /\ ba_availabilities db' = [].
Proof. vm_compute. split; reflexivity. Qed.

(** Asked for twice before it wakes up, the thread forgets the first request. *)
Lemma second_request_replaces_first :
  rebuild_availabilities (rebuild_availabilities new_availability_thread [3]) [4] = rebuild_availabilities new_availability_thread [4].
Proof. reflexivity. Qed.

End Availability.
