(* ===== verification/KpiDerived.v ===== *)
(** * Indicators computed by the broker (bam/src/kpi_ba.cc, kpi_boolexp.cc,
    kpi_meta.cc, kpi.cc)

    The indicators of a business activity that are not services: another
    business activity, a boolean expression, a meta-service. They hold no state
    but the period they are in: at each visit they look at the object they are
    linked to, whose interface is a class, and write what changed. *)

From Stdlib Require Import ZArith Lia ZifyNat ZifyBool Strings.Byte Floats.SpecFloat.
From stdpp Require Import base option list numbers strings.
From S2P Require Import Prelude Double Kpi KpiService BoolValue Ba.

Module KpiDerived.
Import Kpi.

(** ** The class kpi *)

Record kpi : Type := Mk_kpi {
  _id : Z;
  _ba_id : Z;
  _event : option kpi_event;
  _initial_events : list kpi_event
}.

Definition new_kpi (id ba_id : Z) : kpi := Mk_kpi id ba_id None [].

Definition with_event (k : kpi) (e : option kpi_event) : kpi := Mk_kpi (_id k) (_ba_id k) e (_initial_events k).
Definition with_initial_events (k : kpi) (l : list kpi_event) : kpi := Mk_kpi (_id k) (_ba_id k) (_event k) l.

Definition last_state_change (now : Z) (k : kpi) : Z :=
  match _event k with Some e => ke_start_time e | None => now end.

Definition commit_initial_events (k : kpi) : kpi * list event := (with_initial_events k [], E_kpi_event <$> _initial_events k).

(** [impact_hard] is the virtual method, that may look at the event held. *)
Definition set_initial_event (impact_hard : kpi -> impact_values) (now : Z) (k : kpi) (e : kpi_event) : kpi :=
  match _event k with
  | Some _ => k
  | None =>
    let impacts := impact_hard (with_event k (Some e)) in
    let new_impact_level := if ke_in_downtime e then _downtime impacts else _nominal impacts in
    if negb (Dbl.eqb new_impact_level (Dbl.of_Z (impact_level e))) && negb (impact_level e =? -1) then
      let new_event := KpiService.with_level e now (int_of_double new_impact_level) in
      with_initial_events (with_event k (Some new_event)) (_initial_events k ++ [KpiService.close e now; new_event])
    else
      let e := KpiService.with_level e (ke_start_time e) (int_of_double new_impact_level) in
      with_initial_events (with_event k (Some e)) (_initial_events k ++ [e])
  end.

(** Open the period [new], after the one that is open was closed at [end_time]. *)
Definition _open_new_event (k : kpi) (new : kpi_event) : kpi * list event := (with_event k (Some new), [E_kpi_event new]).

Definition replace_event (k : kpi) (e : kpi_event) (end_time : Z) (new : kpi_event) : kpi * list event :=
  let '(k, out) := _open_new_event (with_event k None) new in (k, E_kpi_event (KpiService.close e end_time) :: out).

(** ** Histories *)

(** As those of services, but a period may end when it began. *)
Definition kpi_recorded : history -> list kpi_event -> history :=
  recorded ke_start_time ke_end_time (fun a b => b <=? a) KpiService.same_period.

Definition current (k : kpi) : history := match _event k with Some e => Open e | None => Nothing end.

Lemma open_recorded (k : kpi) new : _event k = None ->
  kpi_recorded (current k) (KpiService.kpi_events (_open_new_event k new).2) = current (_open_new_event k new).1.
Proof. intros H. unfold current. by rewrite H. Qed.

Lemma replace_recorded (k : kpi) e t new : _event k = Some e -> ke_start_time e <= t -> ke_start_time new = t ->
  kpi_recorded (current k) (KpiService.kpi_events (replace_event k e t new).2) = current (replace_event k e t new).1.
Proof.
  intros H Hle Hnew. unfold current. rewrite H. cbn. rewrite KpiService.same_period_close. cbn [andb].
  rewrite (proj2 (Z.leb_le _ _)) by done. cbn. by rewrite Hnew, Z.eqb_refl.
Qed.

Lemma commit_nothing (k : kpi) : _initial_events k = [] -> commit_initial_events k = (k, []).
Proof. intros H. unfold commit_initial_events. rewrite H. destruct k. cbn in *. by subst. Qed.

(** ** Indicators that are business activities *)

(** What the indicator reads of the business activity it is linked to. *)
Class Activity (B : Type) : Type := {
  get_state_hard : B -> Z;
  get_state_soft : B -> Z;
  get_ack_impact_hard : B -> double;
  get_ack_impact_soft : B -> double;
  get_downtime_impact_hard : B -> double;
  get_downtime_impact_soft : B -> double;
  get_ba_event : B -> option ba_event;
  get_in_downtime : B -> bool;
  get_output : B -> cstring;
  get_perfdata : B -> cstring
}.

Definition ba_output (name : cstring) (b : Ba.ba) : cstring :=
  str "BA : " ++ name ++ str " - current_level = "
  ++ Ba.int_text (int_of_double (Ba.normalize (Ba._level_hard (Ba._acc b)))) ++ str "%".

Definition ba_perfdata (b : Ba.ba) : cstring :=
  str "BA_Level=" ++ Ba.int_text (int_of_double (Ba.normalize (Ba._level_hard (Ba._acc b)))) ++ str "%;"
  ++ Ba.int_text (int_of_double (Ba._level_warning b)) ++ str ";"
  ++ Ba.int_text (int_of_double (Ba._level_critical b)) ++ str ";0;100 BA_Downtime="
  ++ Ba.int_text (int_of_double (Ba.normalize (Ba._downtime_hard (Ba._acc b)))).

(** A business activity with its name and the indicators it points to. *)
#[global] Instance ba_activity {K} `{!Kpi K} : Activity (cstring * (Z -> K) * Ba.ba) := {
  get_state_hard := fun '(_, kpis, b) => Ba.get_state_hard kpis b;
  get_state_soft := fun '(_, _, b) => Ba.get_state_soft b;
  get_ack_impact_hard := fun '(_, _, b) => Ba._acknowledgement_hard (Ba._acc b);
  get_ack_impact_soft := fun '(_, _, b) => Ba._acknowledgement_soft (Ba._acc b);
  get_downtime_impact_hard := fun '(_, _, b) => Ba._downtime_hard (Ba._acc b);
  get_downtime_impact_soft := fun '(_, _, b) => Ba._downtime_soft (Ba._acc b);
  get_ba_event := fun '(_, _, b) => Ba._event b;
  get_in_downtime := fun '(_, _, b) => Ba._in_downtime b;
  get_output := fun '(name, _, b) => ba_output name b;
  get_perfdata := fun '(_, _, b) => ba_perfdata b
}.

Record kpi_ba : Type := Kpi_ba { ba_kpi : kpi; ba_impact_critical : double; ba_impact_warning : double }.

Definition percent (d : double) : double :=
  if Dbl.ltb d (Dbl.of_Z 0) then Dbl.of_Z 0 else if Dbl.ltb (Dbl.of_Z 100) d then Dbl.of_Z 100 else d.

Section KpiBa.
Context {B : Type} `{!Activity B}.
Implicit Types (b : B) (k : kpi_ba).

Definition ba_fill_impact k (state : Z) (acknowledgement downtime : double) : impact_values :=
  let nominal := if 0 =? state then Dbl.of_Z 0 else if 1 =? state then ba_impact_warning k else ba_impact_critical k in
  Impact_values (Dbl.div (Dbl.mul (percent acknowledgement) nominal) (Dbl.of_Z 100))
    (Dbl.div (Dbl.mul (percent downtime) nominal) (Dbl.of_Z 100)) nominal state.

Definition ba_impact_hard b k : impact_values :=
  ba_fill_impact k (get_state_hard b) (get_ack_impact_hard b) (get_downtime_impact_hard b).
Definition ba_impact_soft b k : impact_values :=
  ba_fill_impact k (get_state_soft b) (get_ack_impact_soft b) (get_downtime_impact_soft b).

Definition with_ba_kpi k (base : kpi) : kpi_ba := Kpi_ba base (ba_impact_critical k) (ba_impact_warning k).

Definition ba_new_event b k (impact ba_state event_start_time : Z) : kpi_event :=
  Kpi_event (_id (ba_kpi k)) (_ba_id (ba_kpi k)) impact (get_in_downtime b) (get_output b) (get_perfdata b) event_start_time (-1)
    ba_state.

(** The state of the event of the activity, and when it began. *)
Definition ba_state_of (now : Z) b : Z * Z :=
  match get_ba_event b with Some bae => (be_status bae, be_start_time bae) | None => (state_ok, now) end.

Definition ba_visit_event (now : Z) b k : kpi * list event :=
  let '(ba_state, last_ba_update) := ba_state_of now b in
  let new := ba_new_event b k (int_of_double (_nominal (ba_impact_hard b k))) ba_state last_ba_update in
  match _event (ba_kpi k) with
  | None =>
    if negb (last_ba_update =? -1) && negb (last_ba_update =? 0) then _open_new_event (ba_kpi k) new else (ba_kpi k, [])
  | Some e =>
    if negb (eqb (get_in_downtime b) (ke_in_downtime e)) || negb (ba_state =? ke_status e) then
      replace_event (ba_kpi k) e last_ba_update new
    else (ba_kpi k, [])
  end.

(** The downtime of the status is not set. *)
Definition ba_status_of (now : Z) b k : kpi_status :=
  let hard_values := ba_impact_hard b k in
  let soft_values := ba_impact_soft b k in
  Kpi_status (_id (ba_kpi k)) false (_acknowledgement hard_values) (_acknowledgement soft_values)
    (_downtime hard_values) (_downtime soft_values) (_nominal hard_values) (_nominal soft_values)
    (get_state_hard b) (get_state_soft b) (last_state_change now (ba_kpi k)) (_nominal hard_values).

Definition ba_visit (now : Z) b (visitor : bool) k : kpi_ba * list event :=
  if visitor then
    let '(base, initial) := commit_initial_events (ba_kpi k) in
    let k := with_ba_kpi k base in
    let '(base, out) := ba_visit_event now b k in
    let k := with_ba_kpi k base in
    (k, initial ++ out ++ [E_kpi_status (ba_status_of now b k)])
  else (k, []).

(** child_has_update, for a child that is the activity or not. *)
Definition ba_child_has_update (now : Z) b (visitor : bool) k (is_child : bool) : kpi_ba * list event :=
  if is_child then ba_visit now b visitor k else (k, []).

(** The indicator with the activity it is linked to is an indicator as
    business activities see them. *)
#[global] Instance kpi_of_ba : Kpi (B * kpi_ba) := {
  impact_hard := fun '(b, k) => Returns (ba_impact_hard b k);
  impact_soft := fun '(b, k) => Returns (ba_impact_soft b k);
  in_downtime := fun '(b, _) => get_in_downtime b;
  ok_state := fun '(b, _) => get_state_hard b =? 0;
  get_last_state_change := fun now '(_, k) => last_state_change now (ba_kpi k)
}.

End KpiBa.

(** ** Indicators that are boolean expressions

    The clock is read once to close a period and once more to open the next. *)

Record clock : Type := Clock { now_end : Z; now_start : Z }.

Record kpi_boolexp : Type := Kpi_boolexp { boolexp_kpi : kpi; _impact : double }.

Section KpiBoolexp.
Implicit Types (x : BoolValue.bool_expression) (k : kpi_boolexp).

Definition state_value (s : BoolValue.state) : Z :=
  match s with
  | BoolValue.state_ok => state_ok
  | BoolValue.state_warning => state_warning
  | BoolValue.state_critical => state_critical
  | BoolValue.state_unknown => state_unknown
  end.

(** Until all of its services are known, the state is the one of the period. *)
Definition _get_state x (base : kpi) : Z :=
  if BoolValue.state_known (BoolValue._expression x) then state_value (BoolValue.get_state x)
  else match _event base with Some e => ke_status e | None => state_value (BoolValue.get_state x) end.

Definition boolexp_fill_impact x k : impact_values :=
  let state := _get_state x (boolexp_kpi k) in
  Impact_values (Dbl.of_Z 0) (Dbl.of_Z 0) (if 0 =? state then Dbl.of_Z 0 else _impact k) state.

Definition boolexp_in_downtime x : bool := BoolValue.in_downtime (BoolValue._expression x).

Definition boolexp_new_event k (impact state start_time : Z) : kpi_event :=
  Kpi_event (_id (boolexp_kpi k)) (_ba_id (boolexp_kpi k)) impact false
    (str "BAM boolean expression computed by Centreon Broker") [] start_time (-1) state.

Definition boolexp_visit_event (c : clock) (state impact : Z) k : kpi * list event :=
  let new := boolexp_new_event k impact state (now_start c) in
  match _event (boolexp_kpi k) with
  | None => _open_new_event (boolexp_kpi k) new
  | Some e => if negb (state =? ke_status e) then replace_event (boolexp_kpi k) e (now_end c) new else (boolexp_kpi k, [])
  end.

Definition boolexp_visit (c : clock) x (visitor : bool) k : kpi_boolexp * list event :=
  if visitor then
    let '(base, initial) := commit_initial_events (boolexp_kpi k) in
    let k := Kpi_boolexp base (_impact k) in
    let values := boolexp_fill_impact x k in
    let state := _get_state x base in
    let '(base, out) := boolexp_visit_event c state (int_of_double (_nominal values)) k in
    let k := Kpi_boolexp base (_impact k) in
    (k, initial ++ out ++
       [E_kpi_status (Kpi_status (_id base) (boolexp_in_downtime x) (_acknowledgement values) (_acknowledgement values)
          (_downtime values) (_downtime values) (_nominal values) (_nominal values) state state
          (last_state_change (now_start c) base) (_nominal values))])
  else (k, []).

Definition boolexp_child_has_update (c : clock) x (visitor : bool) k (is_child : bool) : kpi_boolexp * list event :=
  if is_child then boolexp_visit c x visitor k else (k, []).

#[global] Instance kpi_of_boolexp : Kpi (BoolValue.bool_expression * kpi_boolexp) := {
  impact_hard := fun '(x, k) => Returns (boolexp_fill_impact x k);
  impact_soft := fun '(x, k) => Returns (boolexp_fill_impact x k);
  in_downtime := fun '(x, _) => boolexp_in_downtime x;
  ok_state := fun '(x, k) => _get_state x (boolexp_kpi k) =? 0;
  get_last_state_change := fun now '(_, k) => last_state_change now (boolexp_kpi k)
}.

End KpiBoolexp.

(** ** Indicators that are meta-services *)

Class Meta (M : Type) : Type := {
  get_state : M -> Z;
  meta_output : M -> cstring;
  meta_perfdata : M -> cstring
}.

Record kpi_meta : Type := Kpi_meta { meta_kpi : kpi; meta_impact_critical : double; meta_impact_warning : double }.

Section KpiMeta.
Context {M : Type} `{!Meta M}.
Implicit Types (m : M) (k : kpi_meta).

Definition meta_fill_impact m k : impact_values :=
  let state := get_state m in
  Impact_values (Dbl.of_Z 0) (Dbl.of_Z 0)
    (if 0 =? state then Dbl.of_Z 0 else if 1 =? state then meta_impact_warning k else meta_impact_critical k) state.

Definition meta_new_event m k (impact state start_time : Z) : kpi_event :=
  Kpi_event (_id (meta_kpi k)) (_ba_id (meta_kpi k)) impact false (meta_output m) (meta_perfdata m) start_time (-1) state.

Definition meta_visit_event (c : clock) m (impact : Z) k : kpi * list event :=
  let state := get_state m in
  let new := meta_new_event m k impact state (now_start c) in
  match _event (meta_kpi k) with
  | None => _open_new_event (meta_kpi k) new
  | Some e => if negb (state =? ke_status e) then replace_event (meta_kpi k) e (now_end c) new else (meta_kpi k, [])
  end.

Definition meta_visit (c : clock) m (visitor : bool) k : kpi_meta * list event :=
  if visitor then
    let '(base, initial) := commit_initial_events (meta_kpi k) in
    let k := Kpi_meta base (meta_impact_critical k) (meta_impact_warning k) in
    let values := meta_fill_impact m k in
    let '(base, out) := meta_visit_event c m (int_of_double (_nominal values)) k in
    let k := Kpi_meta base (meta_impact_critical k) (meta_impact_warning k) in
    (k, initial ++ out ++
       [E_kpi_status (Kpi_status (_id base) false (_acknowledgement values) (_acknowledgement values)
          (_downtime values) (_downtime values) (_nominal values) (_nominal values) (get_state m) (get_state m)
          (last_state_change (now_start c) base) (_nominal values))])
  else (k, []).

Definition meta_child_has_update (c : clock) m (visitor : bool) k (is_child : bool) : kpi_meta * list event :=
  if is_child then meta_visit c m visitor k else (k, []).

#[global] Instance kpi_of_meta : Kpi (M * kpi_meta) := {
  impact_hard := fun '(m, k) => Returns (meta_fill_impact m k);
  impact_soft := fun '(m, k) => Returns (meta_fill_impact m k);
  in_downtime := fun _ => false;
  ok_state := fun '(m, _) => get_state m =? 0;
  get_last_state_change := fun now '(_, k) => last_state_change now (meta_kpi k)
}.

End KpiMeta.

(** ** Histories of the three *)

Lemma kpi_events_status out s : KpiService.kpi_events (out ++ [E_kpi_status s]) = KpiService.kpi_events out.
Proof. unfold KpiService.kpi_events. rewrite omap_app. cbn. by rewrite app_nil_r. Qed.

(** The three visits, as far as periods go: a first one is opened, one that
    does not tell the state is replaced. *)
Definition renew (base : kpi) (changed : kpi_event -> bool) (end_time : Z) (new : kpi_event) : kpi * list event :=
  match _event base with
  | None => _open_new_event base new
  | Some e => if changed e then replace_event base e end_time new else (base, [])
  end.

(** The history goes on, and the period is the new one or one that was kept. *)
Lemma renew_follows (base : kpi) changed t new : _initial_events base = [] ->
  (forall e, _event base = Some e -> ke_start_time e <= t) -> ke_start_time new = t ->
  let '(base', out) := renew base changed t new in
  kpi_recorded (current base) (KpiService.kpi_events out) = current base' /\ _initial_events base' = []
  /\ exists e, _event base' = Some e /\ ke_start_time e <= t /\ (e = new \/ changed e = false).
Proof.
  intros Hi Hle Hnew. unfold renew. destruct (_event base) as [e|] eqn:He.
  - specialize (Hle e eq_refl). destruct (changed e) eqn:Hc.
    + pose proof (replace_recorded base e t new He Hle Hnew) as Hr. destruct (replace_event _ _ _ _) as [base' out] eqn:E.
      split; [done|]. injection E as <- _. split; [done|]. exists new. split_and!; [done|lia|by left].
    + split; [done|]. split; [done|]. exists e. split_and!; [done|done|by right].
  - pose proof (open_recorded base new He) as Hr. destruct (_open_new_event _ _) as [base' out] eqn:E.
    split; [done|]. injection E as <- _. split; [done|]. exists new. split_and!; [done|lia|by left].
Qed.

(** Visits one after the other, at times that do not go back. *)
Section Visits.
Context {K I : Type} (base : K -> kpi) (step : I -> K -> K * list event) (time : I -> Z) (tells : I -> K -> Prop).

Fixpoint visits (k : K) (l : list I) : K * list event :=
  match l with
  | [] => (k, [])
  | i :: l => let '(k, out) := step i k in let '(k, out') := visits k l in (k, out ++ out')
  end.

Fixpoint increasing (t : Z) (l : list I) : Prop :=
  match l with [] => True | i :: l => t <= time i /\ increasing (time i) l end.

Definition began_by (k : K) (t : Z) : Prop := forall e, _event (base k) = Some e -> ke_start_time e <= t.

Hypothesis step_ok : forall i k, 0 < time i -> _initial_events (base k) = [] -> began_by k (time i) -> let '(k', out) := step i k in
  kpi_recorded (current (base k)) (KpiService.kpi_events out) = current (base k') /\ _initial_events (base k') = []
  /\ tells i k' /\ began_by k' (time i).

Lemma visits_history l : forall k t, 0 < t -> _initial_events (base k) = [] -> began_by k t -> increasing t l ->
  let '(k', out) := visits k l in
  kpi_recorded (current (base k)) (KpiService.kpi_events out) = current (base k')
  /\ match last l with Some i => tells i k' | None => True end.
Proof.
  induction l as [|i l IH]; intros k t Hpos Hi Ht Hl; cbn [visits]; [done|]. destruct Hl as [Hle Hl].
  assert (Hb : began_by k (time i)) by (intros e He; specialize (Ht e He); lia).
  assert (Hpos' : 0 < time i) by lia. specialize (step_ok i k Hpos' Hi Hb). destruct (step i k) as [k1 out1]. destruct step_ok as (H1 & H2 & H3 & H4).
  specialize (IH k1 (time i) Hpos' H2 H4 Hl). destruct l as [|i' l].
  - cbn [visits last]. by rewrite app_nil_r.
  - destruct (visits k1 (i' :: l)) as [k2 out2]. destruct IH as [H5 H6]. split; [|exact H6].
    unfold KpiService.kpi_events, kpi_recorded in *. rewrite omap_app, recorded_app. by rewrite H1.
Qed.

End Visits.


Section BaHistory.
Context {B : Type} `{!Activity B}.

Definition ba_step (i : Z * B) (k : kpi_ba) : kpi_ba * list event := ba_visit i.1 i.2 true k.
Definition ba_time (i : Z * B) : Z := (ba_state_of i.1 i.2).2.

(** The period of the indicator has the state and the downtime of the activity. *)
Definition ba_tells (i : Z * B) (k : kpi_ba) : Prop :=
  exists e, _event (ba_kpi k) = Some e /\ ke_status e = (ba_state_of i.1 i.2).1 /\ ke_in_downtime e = get_in_downtime i.2.

Lemma ba_step_ok (i : Z * B) k : 0 < ba_time i -> _initial_events (ba_kpi k) = [] -> began_by ba_kpi k (ba_time i) ->
  let '(k', out) := ba_step i k in
  kpi_recorded (current (ba_kpi k)) (KpiService.kpi_events out) = current (ba_kpi k') /\ _initial_events (ba_kpi k') = []
  /\ ba_tells i k' /\ began_by ba_kpi k' (ba_time i).
Proof.
  destruct i as [now b]. unfold ba_step, ba_tells, ba_time, ba_visit. cbn [fst snd]. intros Hpos Hi Hb. rewrite (commit_nothing _ Hi).
  destruct k as [base c w]. unfold with_ba_kpi. cbn [ba_kpi ba_impact_critical ba_impact_warning fmap list_fmap app] in *.
  unfold ba_visit_event. destruct (ba_state_of now b) as [st t]. cbn [fst snd ba_kpi] in *.
  rewrite (proj2 (Z.eqb_neq t (-1))), (proj2 (Z.eqb_neq t 0)) by lia. cbn [negb andb]. set (new := ba_new_event b _ _ st t).
  set (changed := fun e => negb (eqb (get_in_downtime b) (ke_in_downtime e)) || negb (st =? ke_status e)).
  pose proof (renew_follows base changed t new Hi Hb eq_refl) as H. unfold renew in H.
  change (match _event base with None => _open_new_event base new | Some e => if negb (eqb (get_in_downtime b) (ke_in_downtime e))
    || negb (st =? ke_status e) then replace_event base e t new else (base, []) end)
    with (match _event base with None => _open_new_event base new | Some e => if changed e then replace_event base e t new else (base, []) end).
  destruct (match _event base with None => _ | Some _ => _ end) as [base' out]. destruct H as (H1 & H2 & e & He & Hle & Hor).
  cbn [ba_kpi ba_impact_critical ba_impact_warning]. rewrite kpi_events_status. split_and!; [done|done| |].
  - exists e. split; [done|]. destruct Hor as [->|Hc]; [done|]. apply orb_false_iff in Hc as [Ha Hc].
    apply negb_false_iff in Ha, Hc. apply eqb_prop in Ha. zbool. done.
  - intros e' He'. cbn in He' |- *. simplify_eq. exact Hle.
Qed.

(** The periods of an indicator that is a business activity make a history
    without gap, as long as the periods of the activity follow each other, and
    the last one has the state and the downtime of the activity at the last
    visit. *)
Theorem ba_kpi_history (k : kpi_ba) (l : list (Z * B)) t : 0 < t -> _initial_events (ba_kpi k) = [] -> began_by ba_kpi k t ->
  increasing ba_time t l ->
  let '(k', out) := visits ba_step k l in
  kpi_recorded (current (ba_kpi k)) (KpiService.kpi_events out) = current (ba_kpi k')
  /\ match last l with Some i => ba_tells i k' | None => True end.
Proof. exact (visits_history ba_kpi ba_step ba_time ba_tells ba_step_ok l k t). Qed.

End BaHistory.

(** The other two read the clock; here it does not tick during a visit. *)
Section BoolexpHistory.

Definition boolexp_step (i : Z * BoolValue.bool_expression) (k : kpi_boolexp) : kpi_boolexp * list event :=
  boolexp_visit (Clock i.1 i.1) i.2 true k.
Definition boolexp_tells (i : Z * BoolValue.bool_expression) (k : kpi_boolexp) : Prop :=
  exists e, _event (boolexp_kpi k) = Some e /\ ke_status e = _get_state i.2 (boolexp_kpi k).

Lemma boolexp_step_ok (i : Z * BoolValue.bool_expression) k : 0 < i.1 -> _initial_events (boolexp_kpi k) = [] ->
  began_by boolexp_kpi k i.1 -> let '(k', out) := boolexp_step i k in
  kpi_recorded (current (boolexp_kpi k)) (KpiService.kpi_events out) = current (boolexp_kpi k')
  /\ _initial_events (boolexp_kpi k') = [] /\ boolexp_tells i k' /\ began_by boolexp_kpi k' i.1.
Proof.
  destruct i as [now x], k as [base imp]. unfold boolexp_step, boolexp_tells, boolexp_visit. cbn [fst snd boolexp_kpi _impact].
  intros _ Hi Hb. rewrite (commit_nothing _ Hi). cbn [boolexp_kpi _impact fmap list_fmap app].
  unfold boolexp_visit_event. cbn [boolexp_kpi now_start now_end]. set (st := _get_state x base). set (new := boolexp_new_event _ _ st now).
  pose proof (renew_follows base (fun e => negb (st =? ke_status e)) now new Hi Hb eq_refl) as H. unfold renew in H.
  destruct (match _event base with None => _ | Some _ => _ end) as [base' out]. destruct H as (H1 & H2 & e & He & Hle & Hor).
  cbn [boolexp_kpi _impact]. rewrite kpi_events_status. split_and!; [done|done| |].
  - exists e. split; [done|]. assert (Hst : ke_status e = st) by (destruct Hor as [->|Hc]; [done|]; zbool; done).
    rewrite Hst. unfold _get_state. rewrite He, Hst. unfold st, _get_state. by destruct (BoolValue.state_known _).
  - intros e' He'. cbn in He' |- *. simplify_eq. exact Hle.
Qed.

(** The periods of an indicator that is a boolean expression make a history
    without gap when the clock does not go back, and the last one has the state
    of the expression. *)
Theorem boolexp_kpi_history (k : kpi_boolexp) (l : list (Z * BoolValue.bool_expression)) t : 0 < t ->
  _initial_events (boolexp_kpi k) = [] -> began_by boolexp_kpi k t -> increasing fst t l ->
  let '(k', out) := visits boolexp_step k l in
  kpi_recorded (current (boolexp_kpi k)) (KpiService.kpi_events out) = current (boolexp_kpi k')
  /\ match last l with Some i => boolexp_tells i k' | None => True end.
Proof. exact (visits_history boolexp_kpi boolexp_step fst boolexp_tells boolexp_step_ok l k t). Qed.

End BoolexpHistory.

Section MetaHistory.
Context {M : Type} `{!Meta M}.

Definition meta_step (i : Z * M) (k : kpi_meta) : kpi_meta * list event := meta_visit (Clock i.1 i.1) i.2 true k.
Definition meta_tells (i : Z * M) (k : kpi_meta) : Prop :=
  exists e, _event (meta_kpi k) = Some e /\ ke_status e = get_state i.2.

Lemma meta_step_ok (i : Z * M) k : 0 < i.1 -> _initial_events (meta_kpi k) = [] ->
  began_by meta_kpi k i.1 -> let '(k', out) := meta_step i k in
  kpi_recorded (current (meta_kpi k)) (KpiService.kpi_events out) = current (meta_kpi k')
  /\ _initial_events (meta_kpi k') = [] /\ meta_tells i k' /\ began_by meta_kpi k' i.1.
Proof.
  destruct i as [now m], k as [base c w]. unfold meta_step, meta_tells, meta_visit. cbn [fst snd meta_kpi meta_impact_critical meta_impact_warning].
  intros _ Hi Hb. rewrite (commit_nothing _ Hi). cbn [meta_kpi meta_impact_critical meta_impact_warning fmap list_fmap app].
  unfold meta_visit_event. cbn [meta_kpi now_start now_end]. set (new := meta_new_event m _ _ (get_state m) now).
  pose proof (renew_follows base (fun e => negb (get_state m =? ke_status e)) now new Hi Hb eq_refl) as H. unfold renew in H.
  destruct (match _event base with None => _ | Some _ => _ end) as [base' out]. destruct H as (H1 & H2 & e & He & Hle & Hor).
  cbn [meta_kpi meta_impact_critical meta_impact_warning]. rewrite kpi_events_status. split_and!; [done|done| |].
  - exists e. split; [done|]. destruct Hor as [->|Hc]; [done|]. zbool. done.
  - intros e' He'. cbn in He' |- *. simplify_eq. exact Hle.
Qed.

(** So do those of an indicator that is a meta-service. *)
Theorem meta_kpi_history (k : kpi_meta) (l : list (Z * M)) t : 0 < t -> _initial_events (meta_kpi k) = [] ->
  began_by meta_kpi k t -> increasing fst t l ->
  let '(k', out) := visits meta_step k l in
  kpi_recorded (current (meta_kpi k)) (KpiService.kpi_events out) = current (meta_kpi k')
  /\ match last l with Some i => meta_tells i k' | None => True end.
Proof. exact (visits_history meta_kpi meta_step fst meta_tells meta_step_ok l k t). Qed.

End MetaHistory.

(** ** Examples and witnesses *)

Definition always (v : bool) : BoolValue.bool_expression :=
  BoolValue.Bool_expression 1 true (BoolValue.bool_constant (BoolValue.of_bool v)).

Definition demo_boolexp : kpi_boolexp := Kpi_boolexp (new_kpi 5 6) (Dbl.of_Z 40).

Lemma boolexp_kpi_history_witness :
  let '(k', out) := visits boolexp_step demo_boolexp [(100, always false); (200, always true); (300, always true)] in
  kpi_recorded (current (boolexp_kpi demo_boolexp)) (KpiService.kpi_events out) = current (boolexp_kpi k')
  /\ boolexp_tells (300, always true) k'.
Proof.
  apply (boolexp_kpi_history demo_boolexp [(100, always false); (200, always true); (300, always true)] 100);
    [lia|done|by intros e|cbn; lia].
Defined.

(** When the clock ticks between its two readings, the history has a gap. *)
Lemma tick_leaves_gap :
  let '(k1, _) := boolexp_visit (Clock 100 100) (always false) true demo_boolexp in
  let '(k2, out) := boolexp_visit (Clock 199 200) (always true) true k1 in
  (fun e => (ke_start_time e, ke_end_time e)) <$> KpiService.kpi_events out = [(100, 199); (200, -1)].
Proof. vm_compute. reflexivity. Qed.

(** A business activity over a business activity: the one below has a service
    that is critical and in downtime. *)
Definition below (state : Z) (dt : bool) : Ba.ba :=
  (Ba.child_has_update 100 (fun _ => Ba.demo_kpi state dt) true
     (Ba.add_impact 100 (fun _ => Ba.demo_kpi 0 false) (Ba.demo_ba Ba.state_source_impact) 1).1 1).1.1.

Definition view (state : Z) (dt : bool) : cstring * (Z -> KpiService.kpi_service) * Ba.ba :=
  (str "below", fun _ => Ba.demo_kpi state dt, below state dt).

Definition demo_above : kpi_ba := Kpi_ba (new_kpi 7 8) (Dbl.of_Z 60) (Dbl.of_Z 30).

Lemma ba_kpi_history_witness :
  let l := [(90, view 0 false); (95, view 2 false)] in
  let '(k', out) := visits ba_step demo_above l in
  kpi_recorded (current (ba_kpi demo_above)) (KpiService.kpi_events out) = current (ba_kpi k')
  /\ ba_tells (95, view 2 false) k'.
Proof.
  apply (ba_kpi_history demo_above [(90, view 0 false); (95, view 2 false)] 50); [lia|done|by intros e|].
  cbn [increasing]. split_and!; [by apply Z.leb_le; vm_compute..|exact I].
Defined.

(** The status of the indicator never says that the activity is in downtime. *)
Lemma ba_downtime_not_in_status now b (visitor : bool) (k : kpi_ba) s :
  E_kpi_status s ∈ (ba_visit (B := cstring * (Z -> KpiService.kpi_service) * Ba.ba) now b visitor k).2 -> ks_in_downtime s = false.
Proof.
  unfold ba_visit. destruct visitor; [|by intros ?%elem_of_nil]. destruct (commit_initial_events (ba_kpi k)) as [base initial] eqn:E.
  injection E as _ <-. destruct (ba_visit_event now b _) as [base' out] eqn:Ev. cbn [snd].
  rewrite !elem_of_app, list_elem_of_singleton. intros [H|[H|[= ->]]]; [|exfalso|done].
  - apply list_elem_of_fmap in H as (e & [=] & _).
  - unfold ba_visit_event, replace_event, _open_new_event in Ev. destruct (ba_state_of now b).
    destruct (_event _); repeat case_if; injection Ev as _ <-; repeat (apply elem_of_cons in H as [H|H]; [done|]); by apply elem_of_nil in H.
Qed.

End KpiDerived.
