(* ===== verification/Gprint.v ===== *)
(** * Doubles as operator<< of streams writes them

    This is the C library, not code of the repository: %g with six significant
    digits, the default of std::ostream. *)

From Stdlib Require Import ZArith Lia Strings.Byte Floats.SpecFloat.
From stdpp Require Import base list numbers strings.
From S2P Require Import Prelude Double.

Module Gprint.

(** Whether num / den is at least 10 to the [k]. *)
Definition at_least (num den k : Z) : bool :=
  if 0 <=? k then 10 ^ k * den <=? num else den <=? num * 10 ^ (- k).

(** The decimal exponent of num / den, from an estimate that is off by one at
    most. *)
Definition decimal_exponent (num den log : Z) : Z :=
  let x := log * 30103 / 100000 in
  if at_least num den (x + 1) then x + 1 else if at_least num den x then x else x - 1.

Fixpoint strip_zeros (l : cstring) : cstring :=
  match l with
  | [] => []
  | c :: l => match strip_zeros l with [] => if byte_eqb c x30 then [] else [c] | l => c :: l end
  end.

Definition fraction (digits : cstring) : cstring :=
  match strip_zeros digits with [] => [] | l => str "." ++ l end.

Definition print_finite (num den log : Z) : cstring :=
  let x := decimal_exponent num den log in
  let d := Dbl.div_round_even (num * 10 ^ Z.max 0 (5 - x)) (den * 10 ^ Z.max 0 (x - 5)) in
  let '(d, x) := if d =? 10 ^ 6 then (10 ^ 5, x + 1) else (d, x) in
  if (x <? -4) || (6 <=? x) then
    Dbl.dec (d / 10 ^ 5) ++ fraction (Dbl.dec_pad 5 (d mod 10 ^ 5)) ++ str "e" ++ str (if x <? 0 then "-" else "+")
    ++ (if Z.abs x <? 10 then str "0" else []) ++ Dbl.dec (Z.abs x)
  else if 0 <=? x then
    Dbl.dec (d / 10 ^ (5 - x)) ++ fraction (Dbl.dec_pad (Z.to_nat (5 - x)) (d mod 10 ^ (5 - x)))
  else str "0" ++ fraction (replicate (Z.to_nat (- x - 1)) x30 ++ Dbl.dec_pad 6 d).

Definition print_g (v : double) : cstring :=
  match v with
  | S754_nan => str "nan"
  | S754_infinity s => Dbl.sign_text s ++ str "inf"
  | S754_zero s => Dbl.sign_text s ++ str "0"
  | S754_finite s m e =>
    Dbl.sign_text s ++ print_finite (Z.pos m * 2 ^ Z.max 0 e) (2 ^ Z.max 0 (- e)) (Z.log2 (Z.pos m) + e)
  end.

Lemma print_g_examples :
  print_g (Dbl.of_ratio false 1 10) = str "0.1" /\ print_g (Dbl.of_Z 1000000) = str "1e+06"
  /\ print_g (Dbl.of_Z 123456) = str "123456" /\ print_g (Dbl.of_Z 1234567) = str "1.23457e+06"
  /\ print_g (Dbl.of_ratio true 5 2) = str "-2.5" /\ print_g (Dbl.of_ratio false 9999999 10) = str "1e+06"
  /\ print_g (Dbl.of_ratio false 1 10000) = str "0.0001" /\ print_g (Dbl.of_ratio false 12 1000000) = str "1.2e-05"
  /\ print_g (Dbl.of_ratio false 314159265 100000000) = str "3.14159" /\ print_g (Dbl.of_Z 100) = str "100".
Proof. vm_compute. repeat split. Qed.

End Gprint.
