(* ===== verification/MetaService.v ===== *)
(** * Meta-services (bam/src/meta_service.cc, metric_book.cc)

    A meta-service aggregates the last values of metrics: their average, least,
    greatest value or sum. It updates its value with each metric and computes it
    again from all of them now and then. *)

From Stdlib Require Import ZArith Lia ZifyNat ZifyBool Strings.Byte Floats.SpecFloat.
From stdpp Require Import base option list numbers strings gmap.
From S2P Require Import Prelude Double Kpi KpiService BoolValue Ba KpiDerived Gprint.

Module MetaService.
Import Kpi.

Inductive computation_type : Type := average | min | max | sum.

#[global] Instance computation_type_eq_dec : EqDecision computation_type.
Proof. solve_decision. Defined.

Record meta_service : Type := Meta_service {
  _computation : computation_type;
  _id : Z;
  _host_id : Z;
  _service_id : Z;
  _last_state : Z;
  _level_critical : double;
  _level_warning : double;
  _metrics : gmap Z double;
  _recompute_count : Z;
  _value : double;
  _last_service_status_sent : Z
}.
Implicit Type s : meta_service.

Definition _recompute_limit : Z := 100.

Definition new_meta_service : meta_service :=
  Meta_service average 0 0 0 state_unknown (Dbl.of_Z 0) (Dbl.of_Z 0) ∅ 0 S754_nan (-1).

Definition with_metrics s (m : gmap Z double) (count : Z) : meta_service :=
  Meta_service (_computation s) (_id s) (_host_id s) (_service_id s) (_last_state s) (_level_critical s) (_level_warning s) m count
    (_value s) (_last_service_status_sent s).
Definition with_value s (v : double) (count : Z) : meta_service :=
  Meta_service (_computation s) (_id s) (_host_id s) (_service_id s) (_last_state s) (_level_critical s) (_level_warning s)
    (_metrics s) count v (_last_service_status_sent s).
Definition with_last_state s (state : Z) : meta_service :=
  Meta_service (_computation s) (_id s) (_host_id s) (_service_id s) state (_level_critical s) (_level_warning s) (_metrics s)
    (_recompute_count s) (_value s) (_last_service_status_sent s).
Definition with_status_sent s (now : Z) : meta_service :=
  Meta_service (_computation s) (_id s) (_host_id s) (_service_id s) (_last_state s) (_level_critical s) (_level_warning s)
    (_metrics s) (_recompute_count s) (_value s) now.

Definition set_computation s (type : computation_type) : meta_service :=
  Meta_service type (_id s) (_host_id s) (_service_id s) (_last_state s) (_level_critical s) (_level_warning s) (_metrics s)
    _recompute_limit (_value s) (_last_service_status_sent s).
Definition set_ids s (id host_id service_id : Z) : meta_service :=
  Meta_service (_computation s) id host_id service_id (_last_state s) (_level_critical s) (_level_warning s) (_metrics s)
    (_recompute_count s) (_value s) (_last_service_status_sent s).
Definition set_levels s (warning critical : double) : meta_service :=
  Meta_service (_computation s) (_id s) (_host_id s) (_service_id s) (_last_state s) critical warning (_metrics s)
    (_recompute_count s) (_value s) (_last_service_status_sent s).

Definition add_metric s (metric_id : Z) : meta_service :=
  with_metrics s (<[metric_id := Dbl.of_Z 0]> (_metrics s)) _recompute_limit.
Definition remove_metric s (metric_id : Z) : meta_service :=
  with_metrics s (delete metric_id (_metrics s)) _recompute_limit.

(** ** Computation *)

(** The values, in the order of the container. *)
Definition values (m : gmap Z double) : list double := (map_to_list m).*2.

Definition keep (better : double -> double -> bool) (v x : double) : double := if better x v then x else v.

Definition extreme (better : double -> double -> bool) (l : list double) : double :=
  match l with [] => S754_nan | x :: l => fold_left (keep better) l x end.

Definition sum_of (l : list double) : double := fold_left Dbl.add l (Dbl.of_Z 0).

Definition computed (type : computation_type) (l : list double) : double :=
  match type with
  | min => extreme Dbl.ltb l
  | max => extreme (fun x v => Dbl.ltb v x) l
  | sum => sum_of l
  | average => Dbl.div (sum_of l) (Dbl.of_Z (Z.of_nat (length l)))
  end.

Definition recompute s : meta_service := with_value s (computed (_computation s) (values (_metrics s))) 0.

Definition _recompute_partial s (new_value old_value : double) : meta_service :=
  match _computation s with
  | min => if Dbl.leb new_value (_value s) then with_value s new_value (_recompute_count s)
           else if Dbl.eqb (_value s) old_value then recompute s else s
  | max => if Dbl.leb (_value s) new_value then with_value s new_value (_recompute_count s)
           else if Dbl.eqb (_value s) old_value then recompute s else s
  | sum => with_value s (Dbl.add (Dbl.sub (_value s) old_value) new_value) (_recompute_count s)
  | average =>
    with_value s (Dbl.add (_value s) (Dbl.div (Dbl.sub new_value old_value) (Dbl.of_Z (Z.of_nat (size (_metrics s))))))
      (_recompute_count s)
  end.

Definition get_state s : Z :=
  let less_than := Dbl.ltb (_level_warning s) (_level_critical s) in
  let reaches level := if less_than then Dbl.leb level (_value s) else Dbl.leb (_value s) level in
  if reaches (_level_critical s) then state_critical
  else if reaches (_level_warning s) then state_warning
  else if negb (Dbl.eqb (_value s) (_value s)) then state_unknown
  else state_ok.

Definition get_output s : cstring := str "Meta-Service " ++ Dbl.dec (_id s).
Definition get_perfdata s : cstring :=
  str "g[rta]=" ++ Gprint.print_g (_value s) ++ str ";" ++ Gprint.print_g (_level_warning s) ++ str ";"
  ++ Gprint.print_g (_level_critical s).

#[global] Instance meta_service_meta : KpiDerived.Meta meta_service := {
  KpiDerived.get_state := get_state;
  KpiDerived.meta_output := get_output;
  KpiDerived.meta_perfdata := get_perfdata
}.

(** ** Updates *)

Record metric : Type := Metric { metric_id : Z; value : double }.

Inductive out_event : Type :=
  | Meta_service_status (meta_service_id : Z) (value : double) (state_changed : bool)
  | Service_status (host_id service_id current_state last_check : Z) (output perf_data : cstring).

Definition visit s (visitor : bool) : meta_service * bool * list out_event :=
  if visitor then
    let s := if _recompute_limit <=? _recompute_count s then recompute s else s in
    let new_state := get_state s in
    let changed_state := negb (_last_state s =? new_state) in
    (with_last_state s new_state, changed_state, [Meta_service_status (_id s) (_value s) changed_state])
  else (s, false, []).

(** The difference is that of the last status to now. *)
Definition _send_service_status (now : Z) (visitor : bool) s (state_has_changed : bool) : meta_service * list out_event :=
  if visitor then
    if state_has_changed || is_null (_last_service_status_sent s) || (60 <=? _last_service_status_sent s - now) then
      (with_status_sent s now, [Service_status (_host_id s) (_service_id s) (get_state s) now (get_output s) (get_perfdata s)])
    else (s, [])
  else (s, []).

Definition take_value s (m : metric) (old_value : double) : meta_service :=
  let s := with_metrics s (<[metric_id m := value m]> (_metrics s)) (_recompute_count s + 1) in
  if _recompute_limit <=? _recompute_count s then recompute s else _recompute_partial s (value m) old_value.

Definition metric_update (now : Z) (visitor : bool) s (m : metric) : meta_service * list out_event :=
  match _metrics s !! metric_id m with
  | None => (s, [])
  | Some old_value =>
    let '(s, state_has_changed, out) :=
      if negb (Dbl.eqb old_value (value m)) then visit (take_value s m old_value) visitor else (s, false, []) in
    let '(s, out') := _send_service_status now visitor s state_has_changed in
    (s, out ++ out')
  end.

(** ** The book of listeners

    A multimap of the identifiers of meta-services; the objects are kept aside. *)

Abbreviation book := (gmap Z (list Z)).

Definition listeners (b : book) (metric_id : Z) : list Z := default [] (b !! metric_id).

Definition listen (b : book) (metric_id listnr : Z) : book := <[metric_id := listeners b metric_id ++ [listnr]]> b.

Fixpoint erase_first (l : list Z) (listnr : Z) : list Z :=
  match l with [] => [] | x :: l => if x =? listnr then l else x :: erase_first l listnr end.

Definition unlisten (b : book) (metric_id listnr : Z) : book :=
  <[metric_id := erase_first (listeners b metric_id) listnr]> b.

Fixpoint update_listeners (now : Z) (visitor : bool) (l : list Z) (m : metric) (services : gmap Z meta_service)
    : gmap Z meta_service * list out_event :=
  match l with
  | [] => (services, [])
  | x :: l =>
    match services !! x with
    | None => update_listeners now visitor l m services
    | Some s =>
      let '(s, out) := metric_update now visitor s m in
      let '(services, out') := update_listeners now visitor l m (<[x := s]> services) in
      (services, out ++ out')
    end
  end.

Definition update (b : book) (now : Z) (visitor : bool) (m : metric) (services : gmap Z meta_service)
    : gmap Z meta_service * list out_event :=
  update_listeners now visitor (listeners b (metric_id m)) m services.

(** ** The value of whole metrics

    When the metrics are whole numbers of at most 2^20 in magnitude, fewer than
    2^20 of them, the value kept is exactly the least, the greatest or the sum
    of the last values, however it was updated. *)

Abbreviation canon := Dbl.canon.

Definition small (x : Z) : Prop := Z.abs x <= 2 ^ 20.

Definition total (zs : gmap Z Z) : Z := foldr Z.add 0 (map_to_list zs).*2.

Definition aggregate (type : computation_type) (zs : gmap Z Z) (v : Z) : Prop :=
  match type with
  | min => (exists k, zs !! k = Some v) /\ forall k x, zs !! k = Some x -> v <= x
  | max => (exists k, zs !! k = Some v) /\ forall k x, zs !! k = Some x -> x <= v
  | sum => v = total zs
  | average => False
  end.

Record whole s (zs : gmap Z Z) : Prop := Whole {
  whole_metrics : _metrics s = canon <$> zs;
  whole_small : map_Forall (fun _ => small) zs;
  whole_few : Z.of_nat (size zs) <= 2 ^ 20;
  whole_type : _computation s <> average;
  whole_some : _computation s <> sum -> zs <> ∅ \/ _recompute_limit <= _recompute_count s;
  whole_count : 0 <= _recompute_count s
}.

(** The value is the one of the metrics, unless it has to be computed again. *)
Definition up_to_date s (zs : gmap Z Z) : Prop :=
  _recompute_count s < _recompute_limit -> exists v, _value s = canon v /\ aggregate (_computation s) zs v.

Lemma keep_min l v : Forall small (v :: l) -> fold_left (keep Dbl.ltb) (canon <$> l) (canon v) = canon (fold_left Z.min l v).
Proof.
  revert v. induction l as [|x l IH]; intros v; [done|]. intros [Hv [Hx Hl]%Forall_cons]%Forall_cons. cbn [fmap list_fmap fold_left].
  unfold keep at 2. unfold small in *. rewrite Dbl.ltb_canon by lia. rewrite <-IH by (constructor; [unfold small; lia|done]).
  f_equal. destruct (Z.ltb_spec x v); f_equal; lia.
Qed.

Lemma keep_max l v : Forall small (v :: l) ->
  fold_left (keep (fun x v => Dbl.ltb v x)) (canon <$> l) (canon v) = canon (fold_left Z.max l v).
Proof.
  revert v. induction l as [|x l IH]; intros v; [done|]. intros [Hv [Hx Hl]%Forall_cons]%Forall_cons. cbn [fmap list_fmap fold_left].
  unfold keep at 2. unfold small in *. rewrite Dbl.ltb_canon by lia. rewrite <-IH by (constructor; [unfold small; lia|done]).
  f_equal. destruct (Z.ltb_spec v x); f_equal; lia.
Qed.

Lemma sum_whole l a : Forall small l -> Z.abs a + Z.of_nat (length l) * 2 ^ 20 < 2 ^ 53 ->
  fold_left Dbl.add (canon <$> l) (canon a) = canon (a + foldr Z.add 0 l).
Proof.
  revert a. induction l as [|x l IH]; intros a Hl Ha; [by rewrite Z.add_0_r|]. apply Forall_cons in Hl as [Hx Hl].
  cbn [fmap list_fmap fold_left foldr length] in *. unfold small in Hx. rewrite Dbl.add_canon by lia.
  rewrite IH by (done || lia). f_equal. lia.
Qed.

Lemma fold_min l v : (fold_left Z.min l v ∈ v :: l) /\ forall x, x ∈ v :: l -> fold_left Z.min l v <= x.
Proof.
  revert v. induction l as [|y l IH]; intros v; cbn [fold_left].
  - split; [by left|]. intros x [->|H%elem_of_nil]%elem_of_cons; [lia|done].
  - destruct (IH (Z.min v y)) as [H1 H2]. split.
    + apply elem_of_cons in H1 as [->|H1]; [|by right; right]. destruct (Z.min_spec v y) as [[_ ->]|[_ ->]]; [left|right; left].
    + intros x [->|[->|H]%elem_of_cons]%elem_of_cons; [pose proof (H2 _ (list_elem_of_here _ _)); lia..|].
      apply H2. by right.
Qed.

Lemma fold_max l v : (fold_left Z.max l v ∈ v :: l) /\ forall x, x ∈ v :: l -> x <= fold_left Z.max l v.
Proof.
  revert v. induction l as [|y l IH]; intros v; cbn [fold_left].
  - split; [by left|]. intros x [->|H%elem_of_nil]%elem_of_cons; [lia|done].
  - destruct (IH (Z.max v y)) as [H1 H2]. split.
    + apply elem_of_cons in H1 as [->|H1]; [|by right; right]. destruct (Z.max_spec v y) as [[_ ->]|[_ ->]]; [right; left|left].
    + intros x [->|[->|H]%elem_of_cons]%elem_of_cons; [pose proof (H2 _ (list_elem_of_here _ _)); lia..|].
      apply H2. by right.
Qed.

Lemma foldr_perm (l l' : list Z) : l ≡ₚ l' -> foldr Z.add 0 l = foldr Z.add 0 l'.
Proof. induction 1; cbn [foldr]; lia. Qed.

(** The order of the container does not matter. *)
Lemma values_whole (zs : gmap Z Z) : exists zl, values (canon <$> zs) = canon <$> zl /\ zl ≡ₚ (map_to_list zs).*2.
Proof.
  assert (H : values (canon <$> zs) ≡ₚ map canon (map_to_list zs).*2).
  { unfold values. rewrite map_to_list_fmap. induction (map_to_list zs) as [|[k x] l IH]; cbn; [done|by constructor]. }
  apply Permutation_map_inv in H as (zl & -> & Hp). by exists zl.
Qed.

Lemma elem_of_values (zs : gmap Z Z) zl x : zl ≡ₚ (map_to_list zs).*2 -> x ∈ zl <-> exists k, zs !! k = Some x.
Proof.
  intros ->. rewrite list_elem_of_fmap. split.
  - intros ([k y] & -> & H%elem_of_map_to_list). by exists k.
  - intros [k H]. exists (k, x). split; [done|]. by apply elem_of_map_to_list.
Qed.

Lemma computed_whole type (zs : gmap Z Z) : type <> average -> map_Forall (fun _ => small) zs -> Z.of_nat (size zs) <= 2 ^ 20 ->
  (type <> sum -> zs <> ∅) -> exists v, computed type (values (canon <$> zs)) = canon v /\ aggregate type zs v.
Proof.
  intros Ht Hs Hn Hne. destruct (values_whole zs) as (zl & -> & Hp).
  assert (Hl : Forall small zl).
  { apply Forall_forall. intros x Hx. apply (elem_of_values zs zl x Hp) in Hx as [k Hk]. exact (Hs k x Hk). }
  assert (Hlen : length zl = size zs) by (rewrite Hp, length_fmap; by rewrite length_map_to_list).
  assert (Hcons : zs <> ∅ -> exists v l, zl = v :: l).
  { intros H. destruct zl as [|v l]; [|by exists v, l]. destruct H. apply map_size_empty_iff. by rewrite <-Hlen. }
  destruct type; [done|..].
  - destruct (Hcons (Hne ltac:(done))) as (v & l & ->). exists (fold_left Z.min l v). cbn [computed extreme fmap list_fmap aggregate].
    rewrite keep_min by done. destruct (fold_min l v) as [H1 H2]. split; [done|]. split; [by apply (elem_of_values zs (v :: l))|].
    intros k x Hk. apply H2. apply (elem_of_values zs (v :: l) x Hp). eauto.
  - destruct (Hcons (Hne ltac:(done))) as (v & l & ->). exists (fold_left Z.max l v). cbn [computed extreme fmap list_fmap aggregate].
    rewrite keep_max by done. destruct (fold_max l v) as [H1 H2]. split; [done|]. split; [by apply (elem_of_values zs (v :: l))|].
    intros k x Hk. apply H2. apply (elem_of_values zs (v :: l) x Hp). eauto.
  - exists (total zs). split; [|done]. cbn [computed]. unfold sum_of. change (Dbl.of_Z 0) with (canon 0).
    rewrite sum_whole by (done || lia). f_equal. rewrite Z.add_0_l. by apply foldr_perm.
Qed.


Lemma total_insert (zs : gmap Z Z) k o v : zs !! k = Some o -> total (<[k := v]> zs) = total zs - o + v.
Proof.
  intros Hk. assert (H : forall u, total (<[k := u]> zs) = u + total (delete k zs)).
  { intros u. unfold total. rewrite <-insert_delete_eq.
    assert (P : map_to_list (<[k := u]> (delete k zs)) ≡ₚ (k, u) :: map_to_list (delete k zs)) by (apply map_to_list_insert, lookup_delete_eq).
    assert (Q : (map_to_list (<[k := u]> (delete k zs))).*2 ≡ₚ u :: (map_to_list (delete k zs)).*2) by by rewrite P.
    rewrite (foldr_perm _ _ Q). done. }
  rewrite H. replace zs with (<[k := o]> zs) at 2 by by apply insert_id. rewrite H. lia.
Qed.

Lemma metrics_total_small zs : map_Forall (fun _ => small) zs -> Z.abs (total zs) <= Z.of_nat (size zs) * 2 ^ 20.
Proof.
  intros H. unfold total. rewrite <-length_map_to_list.
  assert (Hl : forall p, p ∈ map_to_list zs -> small p.2) by (intros [k x] Hx%elem_of_map_to_list; exact (H k x Hx)).
  induction (map_to_list zs) as [|[k x] l IH]; cbn [fmap list_fmap foldr length snd]; [lia|].
  pose proof (Hl (k, x) (list_elem_of_here _ _)) as Hx. unfold small in Hx. cbn [snd] in Hx.
  specialize (IH (fun p Hp => Hl p (list_elem_of_further _ _ _ Hp))). lia.
Qed.

Lemma aggregate_small type zs a : type <> average -> map_Forall (fun _ => small) zs -> Z.of_nat (size zs) <= 2 ^ 20 ->
  aggregate type zs a -> Z.abs a <= 2 ^ 40.
Proof.
  intros Ht Hs Hn. destruct type; [done|..]; cbn [aggregate].
  - intros [[k Hk] _]. specialize (Hs k a Hk). unfold small in Hs. cbn in Hs. lia.
  - intros [[k Hk] _]. specialize (Hs k a Hk). unfold small in Hs. cbn in Hs. lia.
  - intros ->. pose proof (metrics_total_small zs Hs). lia.
Qed.

(** Computing from all the metrics gives a value that is up to date. *)
Lemma recompute_ok s zs : whole s zs -> (_computation s <> sum -> zs <> ∅) ->
  whole (recompute s) zs /\ up_to_date (recompute s) zs /\ _recompute_count (recompute s) < _recompute_limit.
Proof.
  intros [H1 H2 H3 H4 H5 H6] Hne. unfold recompute. rewrite H1. destruct (computed_whole (_computation s) zs H4 H2 H3 Hne) as (v & E & Hv).
  rewrite E. split; [|split; [|done]].
  - split; try done. intros Hs. left. by apply Hne.
  - intros _. by exists v.
Qed.

Lemma partial_ok s zs k o v : whole s (<[k := v]> zs) -> zs !! k = Some o -> small o -> small v -> v <> o ->
  map_Forall (fun _ => small) zs -> _recompute_count s < _recompute_limit ->
  (exists a, _value s = canon a /\ aggregate (_computation s) zs a) ->
  let s' := _recompute_partial s (canon v) (canon o) in
  whole s' (<[k := v]> zs) /\ up_to_date s' (<[k := v]> zs) /\ _recompute_count s' < _recompute_limit.
Proof.
  intros Hw Hk Ho Hv Hne Hs Hc (a & Ea & Ha) s'. pose proof (whole_type _ _ Hw) as Ht.
  assert (Hne' : <[k := v]> zs <> ∅) by apply insert_non_empty.
  assert (Hsz : Z.of_nat (size zs) <= 2 ^ 20) by (pose proof (whole_few _ _ Hw) as H; by rewrite map_size_insert_Some in H by (by eexists)).
  pose proof (aggregate_small _ _ _ Ht Hs Hsz Ha) as Has. unfold small in *.
  assert (Hkeep : forall u, aggregate (_computation s) (<[k := v]> zs) u ->
    whole (with_value s (canon u) (_recompute_count s)) (<[k := v]> zs)
    /\ up_to_date (with_value s (canon u) (_recompute_count s)) (<[k := v]> zs)
    /\ _recompute_count (with_value s (canon u) (_recompute_count s)) < _recompute_limit).
  { intros u Hu. destruct Hw. split; [by split|]. split; [|done]. intros _. by exists u. }
  assert (Hsame : with_value s (canon a) (_recompute_count s) = s) by (rewrite <-Ea; by destruct s).
  unfold s', _recompute_partial. destruct (_computation s) eqn:E; [done|..]; cbn [aggregate] in *; rewrite Ea.
  - destruct Ha as [[j Hj] Hmin]. rewrite Dbl.leb_canon, Dbl.eqb_canon by lia. destruct (Z.leb_spec v a) as [Hva|Hva]; [|destruct (Z.eqb_spec a o) as [->|Hao]].
    + apply Hkeep. split; [exists k; by rewrite lookup_insert_eq|]. intros i x [[<- <-]|[Hi Hx]]%lookup_insert_Some; [lia|].
      specialize (Hmin i x Hx). lia.
    + by apply recompute_ok.
    + rewrite <-Hsame. apply Hkeep. split.
      * exists j. rewrite lookup_insert_ne; [done|]. intros ->. congruence.
      * intros i x [[<- <-]|[Hi Hx]]%lookup_insert_Some; [lia|]. by apply (Hmin i x).
  - destruct Ha as [[j Hj] Hmax]. rewrite Dbl.leb_canon, Dbl.eqb_canon by lia. destruct (Z.leb_spec a v) as [Hva|Hva]; [|destruct (Z.eqb_spec a o) as [->|Hao]].
    + apply Hkeep. split; [exists k; by rewrite lookup_insert_eq|]. intros i x [[<- <-]|[Hi Hx]]%lookup_insert_Some; [lia|].
      specialize (Hmax i x Hx). lia.
    + by apply recompute_ok.
    + rewrite <-Hsame. apply Hkeep. split.
      * exists j. rewrite lookup_insert_ne; [done|]. intros ->. congruence.
      * intros i x [[<- <-]|[Hi Hx]]%lookup_insert_Some; [lia|]. by apply (Hmax i x).
  - rewrite Dbl.sub_canon, Dbl.add_canon by lia. apply Hkeep. rewrite (total_insert zs k o v Hk). lia.
Qed.

Lemma take_value_ok s zs k o v : whole s zs -> up_to_date s zs -> zs !! k = Some o -> small v -> v <> o ->
  let s' := take_value s (Metric k (canon v)) (canon o) in
  whole s' (<[k := v]> zs) /\ up_to_date s' (<[k := v]> zs) /\ _recompute_count s' < _recompute_limit.
Proof.
  intros Hw Hu Hk Hv Hne. unfold take_value. cbn [metric_id value]. set (s1 := with_metrics s _ _).
  assert (Ho : small o) by exact (whole_small _ _ Hw k o Hk).
  assert (Hw1 : whole s1 (<[k := v]> zs)).
  { destruct Hw as [H1 H2 H3 H4 H5 H6]. split; cbn; try done.
    - rewrite H1. symmetry. apply fmap_insert.
    - by apply map_Forall_insert_2.
    - by rewrite map_size_insert_Some by (by eexists).
    - intros _. left. apply insert_non_empty.
    - lia. }
  cbv zeta. destruct (Z.leb_spec _recompute_limit (_recompute_count s1)) as [H|H].
  - apply recompute_ok; [done|]. intros _. apply insert_non_empty.
  - apply (partial_ok s1 zs k o v); try done; [by apply (whole_small _ _ Hw)|]. apply Hu. cbn in H. lia.
Qed.


(** *** Any sequence of operations *)

Inductive op : Type := Add (id : Z) | Remove (id : Z) | Update (now : Z) (visitor : bool) (id v : Z).

Definition do_op (p : meta_service * list out_event) (o : op) : meta_service * list out_event :=
  match o with
  | Add id => (add_metric p.1 id, [])
  | Remove id => (remove_metric p.1 id, [])
  | Update now visitor id v => metric_update now visitor p.1 (Metric id (canon v))
  end.

(** The last values of the metrics. *)
Definition do_values (zs : gmap Z Z) (o : op) : gmap Z Z :=
  match o with
  | Add id => <[id := 0]> zs
  | Remove id => delete id zs
  | Update _ _ id v => match zs !! id with None => zs | Some _ => <[id := v]> zs end
  end.

Definition op_small (o : op) : Prop := match o with Update _ _ _ v => small v | _ => True end.

(** The value a status carries is exact. *)
Definition exact_status (type : computation_type) (zs : gmap Z Z) (e : out_event) : Prop :=
  match e with
  | Meta_service_status _ v _ => exists x, v = canon x /\ aggregate type zs x
  | _ => True
  end.

Lemma send_ok now visitor s changed zs : whole s zs -> up_to_date s zs ->
  whole (_send_service_status now visitor s changed).1 zs /\ up_to_date (_send_service_status now visitor s changed).1 zs
  /\ Forall (exact_status (_computation s) zs) (_send_service_status now visitor s changed).2.
Proof.
  intros Hw Hu. unfold _send_service_status. destruct visitor; [|by split]. case_if; [|by split].
  split; [|split; [exact Hu|by repeat constructor]]. destruct Hw. by split.
Qed.

Lemma visit_ok s visitor zs : whole s zs -> up_to_date s zs -> _recompute_count s < _recompute_limit ->
  let '(s', _, out) := visit s visitor in
  whole s' zs /\ up_to_date s' zs /\ _computation s' = _computation s /\ Forall (exact_status (_computation s) zs) out.
Proof.
  intros Hw Hu Hc. unfold visit. destruct visitor; [|by split_and!]. rewrite (proj2 (Z.leb_gt _ _)) by done.
  split; [destruct Hw; by split|]. split; [exact Hu|]. split; [done|]. repeat constructor. by apply Hu.
Qed.

Lemma do_op_ok s zs o out : whole s zs -> up_to_date s zs -> op_small o ->
  Z.of_nat (size (do_values zs o)) <= 2 ^ 20 ->
  let s' := (do_op (s, out) o).1 in
  whole s' (do_values zs o) /\ up_to_date s' (do_values zs o) /\ _computation s' = _computation s
  /\ Forall (exact_status (_computation s) (do_values zs o)) (do_op (s, out) o).2.
Proof.
  intros Hw Hu Ho Hsz. destruct o as [id|id|now visitor id v]; cbn [do_op do_values fst snd] in *.
  - split_and!; [|done|done|done]. destruct Hw as [H1 H2 H3 H4 H5 H6]. split; cbn; try done.
    + rewrite H1. symmetry. apply (fmap_insert canon zs id 0).
    + apply map_Forall_insert_2; [unfold small; lia|done].
    + right. done.
  - split_and!; [|done|done|done]. destruct Hw as [H1 H2 H3 H4 H5 H6]. split; cbn; try done.
    + rewrite H1. symmetry. apply fmap_delete.
    + by apply map_Forall_delete.
    + right. done.
  - unfold metric_update. cbn [metric_id value]. rewrite (whole_metrics _ _ Hw), lookup_fmap.
    destruct (zs !! id) as [old|] eqn:Hk; cbn [fmap option_fmap option_map]; [|by split_and!].
    assert (Hold : small old) by exact (whole_small _ _ Hw id old Hk). cbn in Ho. unfold small in Hold, Ho.
    rewrite Dbl.eqb_canon by lia. destruct (Z.eqb_spec old v) as [->|Hne]; cbn [negb].
    + rewrite insert_id by done. pose proof (send_ok now visitor s false zs Hw Hu) as (S1 & S2 & S3).
      assert (Sc : _computation (_send_service_status now visitor s false).1 = _computation s).
      { unfold _send_service_status. destruct visitor; [|done]. by case_if. }
      destruct (_send_service_status _ _ _ _) as [s' out']. by split_and!.
    + assert (Hne' : v <> old) by congruence. destruct (take_value_ok s zs id old v Hw Hu Hk Ho Hne') as (T1 & T2 & T3).
      set (s1 := take_value _ _ _) in *. assert (Tc : _computation s1 = _computation s).
      { unfold s1, take_value, _recompute_partial, recompute. cbv zeta. destruct (_ <=? _); [done|]. cbn [_computation with_metrics].
        destruct (_computation s) eqn:E; repeat case_if; done. }
      pose proof (visit_ok s1 visitor _ T1 T2 T3) as V. destruct (visit s1 visitor) as [[s2 ch] out1]. destruct V as (V1 & V2 & V3 & V4).
      pose proof (send_ok now visitor s2 ch _ V1 V2) as (S1 & S2 & S3).
      assert (Sc : _computation (_send_service_status now visitor s2 ch).1 = _computation s2).
      { unfold _send_service_status. destruct visitor; [|done]. by case_if. }
      destruct (_send_service_status _ _ _ _) as [s3 out2]. cbn [fst snd] in *. rewrite V3, Tc in *.
      split_and!; [done..|]. by apply Forall_app.
Qed.

Lemma size_do_values zs o : (size (do_values zs o) <= S (size zs))%nat.
Proof.
  destruct o as [id|id|now visitor id v]; cbn [do_values].
  - rewrite map_size_insert. destruct (zs !! id); simpl; lia.
  - rewrite map_size_delete. destruct (zs !! id); simpl; lia.
  - destruct (zs !! id) as [old|] eqn:E; [|lia]. rewrite map_size_insert, E. simpl. lia.
Qed.

Definition start (type : computation_type) : meta_service := set_computation new_meta_service type.

Lemma run_ok type ops : type <> average -> Forall op_small ops -> Z.of_nat (length ops) <= 2 ^ 20 ->
  let '(s, out) := fold_left do_op ops (start type, []) in
  let zs := fold_left do_values ops ∅ in
  whole s zs /\ up_to_date s zs /\ _computation s = type /\ Forall (exact_status type zs) out
  /\ (size zs <= length ops)%nat.
Proof.
  intros Ht. induction ops as [|o ops IH] using rev_ind; intros Ho Hl.
  { cbn. split_and!; [|done|done|done|done].
    split; cbn; [by rewrite fmap_empty|apply map_Forall_empty|by rewrite map_size_empty|done|by right|done]. }
  apply Forall_app in Ho as [Ho Ho1]. rewrite length_app in *. cbn [length] in *. rewrite !fold_left_app. cbn [fold_left].
  specialize (IH Ho ltac:(lia)). destruct (fold_left do_op ops (start type, [])) as [s out]. cbv zeta in IH.
  set (zs := fold_left do_values ops ∅) in *. destruct IH as (H1 & H2 & H3 & _ & H5).
  pose proof (size_do_values zs o) as Hsz. apply (Forall_singleton op_small o) in Ho1.
  destruct (do_op_ok s zs o out H1 H2 Ho1 ltac:(lia)) as (D1 & D2 & D3 & D4).
  destruct (do_op (s, out) o) as [s' out']. cbn [fst snd] in *. rewrite H3 in *. split_and!; try done. lia.
Qed.

(** Whatever metrics are added, removed and updated, the value of a
    meta-service that is a sum, a least or a greatest value is exactly that of
    the last values of its metrics, unless a change of its metrics is still to
    be taken into account; and the value its statuses give is always exact. *)
Theorem meta_value_exact type ops : type <> average -> Forall op_small ops -> Z.of_nat (length ops) <= 2 ^ 20 ->
  let '(s, out) := fold_left do_op ops (start type, []) in
  let zs := fold_left do_values ops ∅ in
  _metrics s = canon <$> zs
  /\ (_recompute_count s < _recompute_limit -> exists v, _value s = canon v /\ aggregate type zs v)
  /\ Forall (exact_status type zs) out.
Proof.
  intros Ht Ho Hl. pose proof (run_ok type ops Ht Ho Hl) as H. destruct (fold_left do_op ops _) as [s out]. cbv zeta in *.
  destruct H as (H1 & H2 & H3 & H4 & _). split; [by apply whole_metrics|]. split; [|done]. intros Hc. rewrite <-H3. by apply H2.
Qed.

Definition demo_ops : list op :=
  [Add 1; Add 2; Update 10 true 1 7; Update 20 true 2 3; Update 30 true 2 9; Update 40 true 1 5].

Lemma meta_value_exact_witness :
  let '(s, out) := fold_left do_op demo_ops (start min, []) in
  let zs := fold_left do_values demo_ops ∅ in
  _metrics s = canon <$> zs
  /\ (_recompute_count s < _recompute_limit -> exists v, _value s = canon v /\ aggregate min zs v)
  /\ Forall (exact_status min zs) out.
Proof.
  apply (meta_value_exact min demo_ops); [done| |cbn; lia]. repeat constructor; cbn; unfold small; lia.
Defined.

Lemma demo_values : (fun type => _value (fold_left do_op demo_ops (start type, [])).1) <$> [min; max; sum; average]
  = [canon 5; canon 9; canon 14; canon 7].
Proof. vm_compute. reflexivity. Qed.

(** A service status is meant to be sent once a minute; after the first one,
    none is until the state changes. *)
Lemma no_periodic_status s now visitor : 0 < _last_service_status_sent s <= now ->
  _send_service_status now visitor s false = (s, []).
Proof.
  intros H. unfold _send_service_status. destruct visitor; [|done].
  unfold is_null. rewrite (proj2 (Z.eqb_neq _ _)), (proj2 (Z.eqb_neq _ _)), (proj2 (Z.leb_gt _ _)) by lia. done.
Qed.

(** ** The book *)

(** A metric updates exactly the meta-services that listen to it, each as
    many times as it listens, and no other. *)
Theorem book_updates_listeners b now visitor m services x :
  NoDup (listeners b (metric_id m)) ->
  (update b now visitor m services).1 !! x
  = if bool_decide (x ∈ listeners b (metric_id m)) then (fun s => (metric_update now visitor s m).1) <$> services !! x
    else services !! x.
Proof.
  unfold update. generalize (listeners b (metric_id m)). intros l. revert services.
  induction l as [|y l IH]; intros services Hnd; cbn [update_listeners]; [done|]. apply NoDup_cons in Hnd as [Hy Hnd].
  destruct (services !! y) as [s|] eqn:E.
  - destruct (metric_update now visitor s m) as [s' out] eqn:Em. specialize (IH (<[y := s']> services) Hnd).
    destruct (update_listeners _ _ _ _ _) as [services' out']. cbn [fst] in *. rewrite IH. destruct (decide (x = y)) as [->|Hne].
    + rewrite bool_decide_false, bool_decide_true by (done || by left). rewrite lookup_insert_eq, E. cbn. by rewrite Em.
    + rewrite lookup_insert_ne by congruence. rewrite (bool_decide_ext (x ∈ y :: l) (x ∈ l)); [done|]. rewrite elem_of_cons. tauto.
  - rewrite IH by done. destruct (decide (x = y)) as [->|Hne].
    + rewrite bool_decide_false, bool_decide_true by (done || by left). by rewrite E.
    + rewrite (bool_decide_ext (x ∈ y :: l) (x ∈ l)); [done|]. rewrite elem_of_cons. tauto.
Qed.

Lemma unlisten_once b k x : NoDup (listeners b k) ->
  forall y, y ∈ listeners (unlisten b k x) k <-> y ∈ listeners b k /\ y <> x.
Proof.
  intros Hnd y. unfold unlisten, listeners at 1. rewrite lookup_insert_eq. cbn [from_option id].
  induction (listeners b k) as [|z l IH]; cbn [erase_first]; [rewrite elem_of_nil; tauto|].
  apply NoDup_cons in Hnd as [Hz Hnd]. destruct (Z.eqb_spec z x) as [->|Hne].
  - rewrite elem_of_cons. split; [intros H; split; [by right|by intros ->]|tauto].
  - rewrite !elem_of_cons, IH by done. split; [intros [->|[? ?]]; tauto|tauto].
Qed.

Lemma book_updates_listeners_witness :
  let b := listen (listen ∅ 1 10) 1 11 in
  let services := <[10 := add_metric (start sum) 1]> (<[12 := add_metric (start sum) 1]> (∅ : gmap Z meta_service)) in
  (update b 5 true (Metric 1 (canon 4)) services).1 !! 10
  = if bool_decide (10 ∈ listeners b 1) then (fun s => (metric_update 5 true s (Metric 1 (canon 4))).1) <$> services !! 10
    else services !! 10.
Proof.
  cbv zeta. apply (book_updates_listeners (listen (listen ∅ 1 10) 1 11) 5 true (Metric 1 (canon 4))).
  apply (bool_decide_unpack _). vm_compute. exact I.
Defined.

End MetaService.
