(* ===== verification/Ceof.v ===== *)
(** * Object files (core/src/ceof)

    The text format of the objects of the monitoring engine:

    define type {
    key value
    ...
    }

    A writer, a parser into tokens, the iterator over the tokens of an object,
    and the visitors that write and read the members of objects. *)

From Stdlib Require Import ZArith Lia ZifyNat ZifyBool Strings.Byte.
From stdpp Require Import base option list numbers strings gmap.
From S2P Require Import Prelude.

Module Ceof.

(** ** Tokens *)

Inductive token_type : Type := object | key | value.

#[global] Instance token_type_eq_dec : EqDecision token_type.
Proof. solve_decision. Defined.

Record ceof_token : Type := Ceof_token {
  _type : token_type;
  _value : cstring;
  _token_number : Z;
  _parent_token : Z
}.

#[global] Instance ceof_token_eq_dec : EqDecision ceof_token.
Proof. solve_decision. Defined.

(** ** The writer *)

Definition open_object (s : cstring) (object_type : cstring) : cstring := s ++ str "define " ++ object_type ++ str " {" ++ [x0a].
Definition add_key (s key : cstring) : cstring := s ++ key ++ [x20].
Definition add_value (s value : cstring) : cstring := s ++ value ++ [x0a].
Definition close_object (s : cstring) : cstring := s ++ str "}" ++ [x0a].

(** ** The parser *)

Definition is_blank (b : byte) : bool := byte_eqb b x20 || byte_eqb b x09.
Definition is_space (b : byte) : bool := is_blank b || byte_eqb b x0a.

(** Skip some characters, and comments to the end of their lines. The text
    left, the empty one standing for npos. *)
Fixpoint skip (in_comment : bool) (characters : byte -> bool) (l : cstring) : cstring :=
  match l with
  | [] => []
  | c :: l' =>
    if in_comment then skip (negb (byte_eqb c x0a)) characters l'
    else if characters c then skip false characters l'
    else if byte_eqb c x23 then skip true characters l'
    else l
  end.

Fixpoint take_until (stop : byte -> bool) (l : cstring) : cstring * cstring :=
  match l with
  | [] => ([], [])
  | c :: l' => if stop c then ([], l) else let '(a, b) := take_until stop l' in (c :: a, b)
  end.

Fixpoint trim_end (l : cstring) : cstring :=
  match l with
  | [] => []
  | c :: l => match trim_end l with [] => if is_blank c then [] else [c] | l => c :: l end
  end.

(** When all is blank nothing is removed. *)
Definition trimmed (l : cstring) : cstring := match trim_end l with [] => l | l => l end.

Inductive parser_state : Type :=
  | waiting_for_define
  | waiting_for_object_name
  | waiting_for_object_opening
  | in_object_waiting_for_key
  | in_object_waiting_for_value.

#[global] Instance parser_state_eq_dec : EqDecision parser_state.
Proof. solve_decision. Defined.

Definition in_value (st : parser_state) : bool := bool_decide (st = in_object_waiting_for_value).

Record parser : Type := Parser { state : parser_state; parent_token : Z; _tokens : list ceof_token }.

Definition push_token (p : parser) (st : parser_state) (type : token_type) (substr : cstring) (number parent : Z) : parser :=
  Parser st parent (_tokens p ++ [Ceof_token type substr number (if bool_decide (type = object) then -1 else parent)]).

(** A token of the text, in each state. *)
Definition take_token (p : parser) (substr : cstring) : outcome parser :=
  let n := Z.of_nat (length (_tokens p)) in
  match state p with
  | waiting_for_define =>
    if cstring_eqb substr (str "define") then Returns (Parser waiting_for_object_name (parent_token p) (_tokens p))
    else Throws Exn_msg
  | waiting_for_object_name => Returns (push_token p waiting_for_object_opening object substr n n)
  | waiting_for_object_opening =>
    if cstring_eqb substr (str "{") then Returns (Parser in_object_waiting_for_key (parent_token p) (_tokens p))
    else Throws Exn_msg
  | in_object_waiting_for_key =>
    if cstring_eqb substr (str "}") then Returns (Parser waiting_for_define (parent_token p) (_tokens p))
    else Returns (push_token p in_object_waiting_for_value key substr n (parent_token p))
  | in_object_waiting_for_value =>
    if cstring_eqb substr (str "}") then Throws Exn_msg
    else Returns (push_token p in_object_waiting_for_key value (trimmed substr) n (parent_token p))
  end.

Fixpoint parse_loop (fuel : nat) (p : parser) (l : cstring) : outcome (list ceof_token) :=
  match fuel with
  | O => Diverges
  | S fuel =>
    match l with
    | [] => Returns (_tokens p)
    | _ =>
      let '(substr, l) := take_until (if in_value (state p) then fun b => byte_eqb b x0a else is_space) l in
      p ← take_token p substr;
      parse_loop fuel p (skip false (if in_value (state p) then is_blank else is_space) l)
    end
  end.

Definition parse (s : cstring) : outcome (list ceof_token) :=
  parse_loop (S (length s)) (Parser waiting_for_define (-1) []) (skip false is_space s).

(** ** Iterators

    The tokens from the one pointed at to the end. *)

Abbreviation ceof_iterator := (list ceof_token).

Fixpoint skip_others (parent : Z) (it : ceof_iterator) : ceof_iterator :=
  match it with
  | [] => []
  | t :: it' => if _parent_token t =? parent then it else skip_others parent it'
  end.

(** ++; None when the end is stepped over. *)
Definition next (it : ceof_iterator) : option ceof_iterator :=
  match it with [] => None | t :: it => Some (skip_others (_parent_token t) it) end.

Definition has_children (it : ceof_iterator) : bool :=
  match it with t :: t' :: _ => _parent_token t' =? _token_number t | _ => false end.

Definition enter_children (it : ceof_iterator) : ceof_iterator := if has_children it then tail it else [].

(** ** Visitors *)

(** The constructor of the deserializer: the pairs of keys and values. None: the
    end is stepped over, after a key without value. *)
Fixpoint read_pairs (fuel : nat) (it : ceof_iterator) (values : gmap cstring cstring) : option (gmap cstring cstring) :=
  match fuel with
  | O => None
  | S fuel =>
    match it with
    | [] => Some values
    | k :: _ =>
      match next it with
      | Some ((v :: _) as it) =>
        match next it with
        | Some it => read_pairs fuel it (<[_value k := _value v]> values)
        | None => None
        end
      | _ => None
      end
    end
  end.

Definition new_ceof_deserializer (it : ceof_iterator) : option (gmap cstring cstring) := read_pairs (S (length it)) it ∅.

Definition deserialize (values : gmap cstring cstring) (name : cstring) : cstring := default [] (values !! name).

Definition serialize (writer : cstring) (name value : cstring) : cstring := add_value (add_key writer name) value.

(** A class whose objects are visited: its members with the functions that give
    and take their texts. *)
Class ceof_serializable (T : Type) : Type := {
  members : list (cstring * (T -> cstring) * (cstring -> T -> outcome T))
}.

Section Visitors.
Context {T : Type} `{!ceof_serializable T}.

Definition serialize_visit (writer : cstring) (x : T) : cstring :=
  fold_left (fun w '(name, get, _) => serialize w name (get x)) members writer.

Fixpoint deserialize_members (l : list (cstring * (T -> cstring) * (cstring -> T -> outcome T))) (values : gmap cstring cstring) (x : T)
    : outcome T :=
  match l with
  | [] => Returns x
  | (name, _, set) :: l => x ← set (deserialize values name) x; deserialize_members l values x
  end.

Definition deserialize_visit (values : gmap cstring cstring) (x : T) : outcome T := deserialize_members members values x.

(** An object in a file. *)
Definition write_object (object_type : cstring) (x : T) (s : cstring) : cstring :=
  close_object (serialize_visit (open_object s object_type) x).

End Visitors.

(** ** Every text is parsed or refused *)

Lemma skip_length (P : byte -> bool) l : forall b, (length (skip b P l) <= length l)%nat.
Proof.
  induction l as [|c l IH]; intros b; cbn; [done|].
  destruct b; [specialize (IH (negb (byte_eqb c x0a))); lia|].
  destruct (P c); [specialize (IH false); lia|]. destruct (byte_eqb c x23); [specialize (IH true); lia|]. cbn. lia.
Qed.

Lemma skip_head (P : byte -> bool) l c l' : forall b, skip b P l = c :: l' -> P c = false /\ c <> x23.
Proof.
  induction l as [|d l IH]; intros b; cbn; [done|].
  destruct b; [apply IH|]. destruct (P d) eqn:HP; [apply IH|].
  destruct (byte_eqb d x23) eqn:Hd; [apply IH|]. intros [= -> ->]. split; [done|]. by apply byte_eqb_neq.
Qed.

Lemma skip_stops (P : byte -> bool) c l : P c = false -> c <> x23 -> skip false P (c :: l) = c :: l.
Proof. intros HP Hc. cbn. rewrite HP. by rewrite (proj2 (byte_eqb_neq _ _) Hc). Qed.

Lemma take_until_app (stop : byte -> bool) w c l :
  Forall (fun b => stop b = false) w -> stop c = true -> take_until stop (w ++ c :: l) = (w, c :: l).
Proof. intros Hw Hc. induction Hw as [|b w Hb Hw IH]; cbn; [by rewrite Hc|]. rewrite Hb. by setoid_rewrite IH. Qed.

Lemma take_until_length (stop : byte -> bool) l a b : take_until stop l = (a, b) -> length l = (length a + length b)%nat.
Proof.
  revert a b. induction l as [|c l IH]; cbn; intros a b; [by intros [= <- <-]|].
  case_if; [by intros [= <- <-]|]. destruct (take_until stop l) as [a' b']. intros [= <- <-].
  cbn. by rewrite (IH _ _ eq_refl).
Qed.

Lemma take_until_head (stop : byte -> bool) c l a b : stop c = false -> take_until stop (c :: l) = (a, b) -> (0 < length a)%nat.
Proof. cbn. intros ->. destruct (take_until stop l). intros [= <- <-]. cbn. lia. Qed.

Lemma take_until_rest (stop : byte -> bool) l a c b : take_until stop l = (a, c :: b) -> stop c = true.
Proof.
  revert a. induction l as [|d l IH]; cbn; intros a; [done|].
  destruct (stop d) eqn:Hd; [by intros [= <- <- <-]|]. destruct (take_until stop l). intros [= <- ->]. by eapply IH.
Qed.

(** The characters skipped before a token, and those that end it. *)
Definition separator (st : parser_state) : byte -> bool := if in_value st then is_blank else is_space.
Definition stop (st : parser_state) : byte -> bool := if in_value st then fun b => byte_eqb b x0a else is_space.

Definition ready (st : parser_state) (l : cstring) : Prop := match l with [] => True | c :: _ => separator st c = false end.

Lemma skip_ready st b l : ready st (skip b (separator st) l).
Proof. unfold ready. destruct (skip _ _ _) eqn:Hs; [done|]. by eapply skip_head. Qed.

Lemma take_token_state p substr p' : take_token p substr = Returns p' -> in_value (state p) = true -> in_value (state p') = false.
Proof. unfold take_token, push_token, in_value. destruct (state p); repeat case_if; intros [= <-]; cbn; done. Qed.

(** A turn of the loop takes at least a character. *)
Lemma turn_shortens p p' c l a b :
  ready (state p) (c :: l) -> take_until (stop (state p)) (c :: l) = (a, b) -> take_token p a = Returns p' ->
  (length (skip false (separator (state p')) b) < length (c :: l))%nat.
Proof.
  unfold ready. intros Hc Ht Hp. pose proof (take_until_length _ _ _ _ Ht) as Hl.
  pose proof (skip_length (separator (state p')) b false) as Hs.
  destruct (stop (state p) c) eqn:Hstop.
  - revert Hc Hstop. unfold separator at 1, stop. destruct (in_value (state p)) eqn:Hv; [|intros ->; done].
    intros Hc Hstop. revert Ht. unfold stop. rewrite Hv. cbn. rewrite Hstop. intros [= <- <-].
    unfold separator. rewrite (take_token_state _ _ _ Hp Hv). cbn. unfold is_space at 1. rewrite Hstop, orb_true_r.
    pose proof (skip_length is_space l false). lia.
  - pose proof (take_until_head _ _ _ _ _ Hstop Ht). lia.
Qed.

Lemma objects_loop_ends fuel : forall p l, (length l < fuel)%nat -> ready (state p) l -> parse_loop fuel p l <> Diverges.
Proof.
  induction fuel as [|fuel IH]; intros p l Hf Hr; [lia|]. destruct l as [|c l]; [done|].
  change (parse_loop (S fuel) p (c :: l)) with
    (let '(substr, l) := take_until (stop (state p)) (c :: l) in
     p ← take_token p substr; parse_loop fuel p (skip false (separator (state p)) l)).
  destruct (take_until (stop (state p)) (c :: l)) as [a b] eqn:Ht.
  destruct (take_token p a) as [p'|e|] eqn:Hp; cbn; [|done|].
  - apply IH; [|apply skip_ready]. pose proof (turn_shortens _ _ _ _ _ _ Hr Ht Hp). lia.
  - revert Hp. unfold take_token. destruct (state p); repeat case_if; done.
Qed.

(** The parser ends on every text: it returns tokens, or refuses the text
    with an error; it never runs for ever. *)
Theorem objects_parse_ends s : parse s <> Diverges.
Proof.
  apply objects_loop_ends; [pose proof (skip_length is_space s false); lia|]. apply (skip_ready waiting_for_define).
Qed.

(** ** What is written is read back *)

Definition word (w : cstring) : Prop := Forall (fun b => is_space b = false) w /\ w <> [] /\ head w <> Some x23.

(** The names of the members, and the values that the format can hold. *)
Definition key_ok (w : cstring) : Prop := word w /\ w <> str "}".
Definition value_ok (v : cstring) : Prop :=
  Forall (fun b => byte_eqb b x0a = false) v /\ v <> str "}"
  /\ match v with [] => True | c :: _ => is_blank c = false /\ c <> x23 /\ is_blank (List.last v c) = false end.

#[global] Instance value_ok_dec v : Decision (value_ok v).
Proof. unfold value_ok. destruct v; apply _. Defined.
#[global] Instance word_dec w : Decision (word w).
Proof. unfold word. apply _. Defined.
#[global] Instance key_ok_dec w : Decision (key_ok w).
Proof. unfold key_ok. apply _. Defined.

Abbreviation cpairs := (list (cstring * cstring)).

Definition pairs_text (kvs : cpairs) : cstring := concat (map (fun '(k, v) => k ++ [x20] ++ v ++ [x0a]) kvs).
Definition object_text (o : cstring * cpairs) : cstring :=
  str "define" ++ [x20] ++ o.1 ++ [x20] ++ str "{" ++ [x0a] ++ pairs_text o.2 ++ str "}" ++ [x0a].

Fixpoint pairs_tokens (n parent : Z) (kvs : cpairs) : list ceof_token :=
  match kvs with
  | [] => []
  | (k, v) :: kvs => Ceof_token key k n parent :: Ceof_token value v (n + 1) parent :: pairs_tokens (n + 2) parent kvs
  end.
Definition object_tokens (n : Z) (o : cstring * cpairs) : list ceof_token :=
  Ceof_token object o.1 n (-1) :: pairs_tokens (n + 1) n o.2.
Fixpoint objects_tokens (n : Z) (os : list (cstring * cpairs)) : list ceof_token :=
  match os with
  | [] => []
  | o :: os => let toks := object_tokens n o in toks ++ objects_tokens (n + Z.of_nat (length toks)) os
  end.

Definition object_ok (o : cstring * cpairs) : Prop :=
  word o.1 /\ Forall (fun '(k, v) => key_ok k /\ value_ok v) o.2.

Lemma trim_end_last v c : v <> [] -> is_blank (List.last v c) = false -> trim_end v = v.
Proof.
  induction v as [|b v IH]; [done|]. intros _ Hl. destruct v as [|b' v].
  - cbn in *. by rewrite Hl.
  - assert (Hv : trim_end (b' :: v) = b' :: v) by (apply IH; [done|exact Hl]).
    change (match trim_end (b' :: v) with [] => if is_blank b then [] else [b] | l => b :: l end = b :: b' :: v). by rewrite Hv.
Qed.

Lemma trimmed_value v : value_ok v -> trimmed v = v.
Proof.
  intros (_ & _ & Hv). unfold trimmed. destruct v as [|c v]; [done|]. destruct Hv as (_ & _ & Hl).
  by rewrite (trim_end_last _ c).
Qed.

Lemma parse_loop_step fuel p c l :
  parse_loop (S fuel) p (c :: l) =
  (let '(substr, l) := take_until (stop (state p)) (c :: l) in
   p ← take_token p substr; parse_loop fuel p (skip false (separator (state p)) l)).
Proof. done. Qed.

(** A turn on a word, outside of the values. *)
Lemma parse_word fuel p w c l :
  word w -> in_value (state p) = false -> is_space c = true ->
  parse_loop (S fuel) p (w ++ c :: l) =
  (p ← take_token p w; parse_loop fuel p (skip false (separator (state p)) (c :: l))).
Proof.
  intros (Hw & Hn & _) Hp Hc. destruct w as [|b w]; [done|].
  change ((b :: w) ++ c :: l) with (b :: (w ++ c :: l)). rewrite parse_loop_step.
  change (b :: (w ++ c :: l)) with ((b :: w) ++ c :: l).
  rewrite take_until_app; [done| |by unfold stop; rewrite Hp]. unfold stop. by rewrite Hp.
Qed.

Lemma parse_value fuel p v l :
  value_ok v -> state p = in_object_waiting_for_value ->
  parse_loop (S fuel) p (v ++ x0a :: l) =
  parse_loop fuel (push_token p in_object_waiting_for_key value v (Z.of_nat (length (_tokens p))) (parent_token p))
    (skip false is_space l).
Proof.
  intros Hv Hp. pose proof Hv as (Hn & Hb & _).
  assert (Ht : take_until (stop (state p)) (v ++ x0a :: l) = (v, x0a :: l)).
  { rewrite Hp. by apply take_until_app. }
  assert (Htok : take_token p v
    = Returns (push_token p in_object_waiting_for_key value v (Z.of_nat (length (_tokens p))) (parent_token p))).
  { unfold take_token. rewrite Hp. unfold cstring_eqb. by rewrite bool_decide_eq_false_2, trimmed_value. }
  destruct (v ++ x0a :: l) as [|c t] eqn:Hvl; [by destruct v|]. rewrite parse_loop_step.
  setoid_rewrite Ht. cbn [mbind]. rewrite Htok. done.
Qed.

Lemma skip_word P w l : word w -> (forall b, is_space b = false -> P b = false) -> skip false P (w ++ l) = w ++ l.
Proof.
  intros (Hw & Hn & Hh) HP. destruct w as [|b w]; [done|]. inversion_clear Hw as [|? ? Hb Hbs].
  apply skip_stops; [by apply HP|]. intros ->. by apply Hh.
Qed.

Lemma skip_value v l : value_ok v -> skip false is_blank (v ++ x0a :: l) = v ++ x0a :: l.
Proof.
  intros (_ & _ & Hv). destruct v as [|c v]; [done|]. destruct Hv as (Hb & Hc & _). by apply skip_stops.
Qed.

Lemma is_space_blank b : is_space b = false -> is_blank b = false.
Proof. unfold is_space. by intros [? _]%orb_false_iff. Qed.

Lemma key_ok_word k : key_ok k -> word k.
Proof. by intros []. Qed.
#[local] Hint Resolve is_space_blank key_ok_word : core.


(** Enough turns give the result. *)
Definition run (p : parser) (l : cstring) : outcome (list ceof_token) := parse_loop (S (length l)) p l.

Lemma parse_loop_enough f1 : forall f2 p l,
  (length l < f1)%nat -> (length l < f2)%nat -> ready (state p) l -> parse_loop f1 p l = parse_loop f2 p l.
Proof.
  induction f1 as [|f1 IH]; intros f2 p l H1 H2 Hr; [lia|]. destruct f2 as [|f2]; [lia|]. destruct l as [|c l]; [done|].
  rewrite !parse_loop_step. destruct (take_until (stop (state p)) (c :: l)) as [a b] eqn:Ht.
  destruct (take_token p a) as [p'|e|] eqn:Hp; cbn; [|done..].
  pose proof (turn_shortens _ _ _ _ _ _ Hr Ht Hp). apply IH; [lia..|]. apply skip_ready.
Qed.

Lemma word_ready p w l : word w -> ready (state p) (w ++ l).
Proof.
  intros (Hw & Hn & _). destruct w; [done|]. inversion_clear Hw. unfold ready, separator. cbn. case_if; eauto.
Qed.

Lemma value_ready p v l : value_ok v -> state p = in_object_waiting_for_value -> ready (state p) (v ++ x0a :: l).
Proof. intros (_ & _ & Hv) ->. by destruct v as [|c v]; [|destruct Hv]. Qed.

Lemma run_word p p' w c l :
  word w -> in_value (state p) = false -> is_space c = true -> take_token p w = Returns p' ->
  run p (w ++ c :: l) = run p' (skip false (separator (state p')) (c :: l)).
Proof.
  intros Hw Hp Hc Ht. unfold run. rewrite parse_word by done. rewrite Ht. cbn [mbind].
  cbn -[parse_loop skip].
  apply parse_loop_enough; [| |apply skip_ready].
  - rewrite length_app. pose proof (skip_length (separator (state p')) (c :: l) false). cbn in *. destruct Hw as (_ & Hn & _).
    destruct w; [done|]. cbn. lia.
  - lia.
Qed.

Lemma run_value p v l :
  value_ok v -> state p = in_object_waiting_for_value ->
  run p (v ++ x0a :: l) =
  run (push_token p in_object_waiting_for_key value v (Z.of_nat (length (_tokens p))) (parent_token p)) (skip false is_space l).
Proof.
  intros Hv Hp. unfold run. rewrite parse_value by done. apply parse_loop_enough; [| |apply (skip_ready in_object_waiting_for_key)].
  - rewrite length_app. pose proof (skip_length is_space l false). cbn. lia.
  - lia.
Qed.

Lemma skip_blank P b l : P b = true -> skip false P (b :: l) = skip false P l.
Proof. cbn. by intros ->. Qed.

Lemma take_key par toks k :
  key_ok k ->
  take_token (Parser in_object_waiting_for_key par toks) k =
  Returns (push_token (Parser in_object_waiting_for_key par toks) in_object_waiting_for_value key k (Z.of_nat (length toks)) par).
Proof. intros [_ Hk]. unfold take_token, cstring_eqb. cbn [state]. by rewrite bool_decide_eq_false_2. Qed.

Lemma run_pairs kvs : forall par toks l,
  Forall (fun '(k, v) => key_ok k /\ value_ok v) kvs ->
  run (Parser in_object_waiting_for_key par toks) (skip false is_space (pairs_text kvs ++ l)) =
  run (Parser in_object_waiting_for_key par (toks ++ pairs_tokens (Z.of_nat (length toks)) par kvs)) (skip false is_space l).
Proof.
  induction kvs as [|[k v] kvs IH]; intros par toks l Hok; [by rewrite app_nil_r|].
  apply Forall_cons in Hok as [[Hk Hv] Hoks]. specialize (IH par).
  change (pairs_text ((k, v) :: kvs)) with ((k ++ [x20] ++ v ++ [x0a]) ++ pairs_text kvs). rewrite <- !app_assoc. cbn [app].
  rewrite skip_word by auto.
  erewrite (run_word _ _ k x20); [|by auto|done|done|by apply take_key].
  cbn [push_token state]. rewrite skip_blank by done. change (separator in_object_waiting_for_value) with is_blank.
  rewrite skip_value, run_value by done. unfold push_token. cbn [_tokens parent_token].
  rewrite !bool_decide_eq_false_2 by done. rewrite IH by done.
  rewrite <- !app_assoc. cbn [app pairs_tokens]. rewrite !length_app. cbn [length]. do 6 (f_equal; try lia).
Qed.

Lemma run_take p p' w c l :
  word w -> in_value (state p) = false -> in_value (state p') = false -> is_space c = true -> take_token p w = Returns p' ->
  run p (skip false is_space (w ++ c :: l)) = run p' (skip false is_space l).
Proof.
  intros Hw Hp Hp' Hc Ht. rewrite skip_word by auto. rewrite (run_word p p') by done.
  unfold separator. rewrite Hp'. by rewrite skip_blank.
Qed.

Lemma run_object o : forall par toks l,
  object_ok o ->
  run (Parser waiting_for_define par toks) (skip false is_space (object_text o ++ l)) =
  run (Parser waiting_for_define (Z.of_nat (length toks)) (toks ++ object_tokens (Z.of_nat (length toks)) o)) (skip false is_space l).
Proof.
  destruct o as [ty kvs]. intros par toks l [Hty Hkvs]. cbn [fst snd] in *.
  unfold object_text. cbn [fst snd]. rewrite <- !app_assoc. cbn [app].
  rewrite (run_take _ (Parser waiting_for_object_name par toks)); [|by apply (bool_decide_unpack _)|done..].
  rewrite (run_take _ (push_token (Parser waiting_for_object_name par toks) waiting_for_object_opening object ty
    (Z.of_nat (length toks)) (Z.of_nat (length toks)))); [|done..].
  unfold push_token. cbn [_tokens]. rewrite bool_decide_eq_true_2 by done.
  erewrite (run_take _ (Parser in_object_waiting_for_key _ _)); [|by apply (bool_decide_unpack _)|done..].
  rewrite run_pairs by done. erewrite (run_take _ (Parser waiting_for_define _ _)); [|by apply (bool_decide_unpack _)|done..].
  cbn [parent_token _tokens]. rewrite length_app, <- app_assoc. cbn [length app]. unfold object_tokens. cbn [fst snd].
  repeat (f_equal; try lia).
Qed.

Lemma run_objects os : forall par toks,
  Forall object_ok os ->
  run (Parser waiting_for_define par toks) (skip false is_space (concat (map object_text os)))
  = Returns (toks ++ objects_tokens (Z.of_nat (length toks)) os).
Proof.
  induction os as [|o os IH]; intros par toks Hos; cbn [map concat objects_tokens].
  - by rewrite app_nil_r.
  - apply Forall_cons in Hos as [Ho Hos]. rewrite run_object, IH by done.
    rewrite length_app, <- app_assoc, Nat2Z.inj_add. done.
Qed.

Lemma parse_objects os : Forall object_ok os -> parse (concat (map object_text os)) = Returns (objects_tokens 0 os).
Proof.
  intros Hos. unfold parse. rewrite <- (run_objects os (-1) [] Hos) at 1. apply parse_loop_enough; [|lia|].
  - pose proof (skip_length is_space (concat (map object_text os)) false). lia.
  - apply (skip_ready waiting_for_define).
Qed.

(** The writer. *)
Section Written.
Context {T : Type} `{!ceof_serializable T}.

(** The names and the texts of the members of an object. *)
Definition pairs_of (x : T) : cpairs := map (fun '(name, get, _) => (name, get x)) members.

Lemma serialize_visit_text writer (x : T) : serialize_visit writer x = writer ++ pairs_text (pairs_of x).
Proof.
  unfold serialize_visit, pairs_of, pairs_text. generalize members as ms. intros ms. revert writer.
  induction ms as [|[[name get] set] ms IH]; intros writer; cbn; [by rewrite app_nil_r|].
  setoid_rewrite IH. unfold serialize, add_value, add_key. rewrite <- !app_assoc. cbn. by rewrite <- !app_assoc.
Qed.

Lemma write_object_text ty (x : T) s : write_object ty x s = s ++ object_text (ty, pairs_of x).
Proof.
  unfold write_object, close_object, open_object. rewrite serialize_visit_text. unfold object_text. by rewrite <- !app_assoc.
Qed.

Lemma write_objects_text (os : list (cstring * T)) s :
  fold_left (fun s '(ty, x) => write_object ty x s) os s = s ++ concat (map (fun '(ty, x) => object_text (ty, pairs_of x)) os).
Proof.
  revert s. induction os as [|[ty x] os IH]; intros s; cbn; [by rewrite app_nil_r|].
  by rewrite IH, write_object_text, <- app_assoc.
Qed.
End Written.

(** The pairs that the deserializer reads from the tokens of an object, the last
    one for a key that is there many times. *)
Definition pairs_map (kvs : cpairs) (m : gmap cstring cstring) : gmap cstring cstring :=
  fold_left (fun m '(k, v) => <[k := v]> m) kvs m.

Lemma skip_others_here parent t it : _parent_token t = parent -> skip_others parent (t :: it) = t :: it.
Proof. intros <-. cbn. by rewrite Z.eqb_refl. Qed.

Lemma skip_others_pairs parent n kvs rest :
  skip_others parent (pairs_tokens n parent kvs ++ rest) =
  match kvs with [] => skip_others parent rest | _ => pairs_tokens n parent kvs ++ rest end.
Proof. destruct kvs as [|[k v] kvs]; [done|]. by apply skip_others_here. Qed.

Lemma read_pairs_tokens parent rest kvs : forall fuel n m,
  skip_others parent rest = [] -> (length kvs < fuel)%nat -> kvs <> [] ->
  read_pairs fuel (pairs_tokens n parent kvs ++ rest) m = Some (pairs_map kvs m).
Proof.
  induction kvs as [|[k v] kvs IH]; intros fuel n m Hr Hf Hn; [done|]. destruct fuel as [|fuel]; cbn in Hf; [lia|].
  cbn [pairs_tokens app read_pairs next _parent_token _value]. rewrite skip_others_here by done. cbn [next _parent_token _value].
  rewrite skip_others_pairs. destruct kvs as [|kv kvs].
  - rewrite Hr. destruct fuel; [lia|]. done.
  - rewrite IH; [done|done|lia|done].
Qed.

(** No token of the objects that follow is a child of an earlier object. *)
Lemma skip_objects parent os : forall n, 0 <= parent < n -> skip_others parent (objects_tokens n os) = [].
Proof.
  assert (Hp : forall kvs n par rest, par <> parent ->
    skip_others parent (pairs_tokens n par kvs ++ rest) = skip_others parent rest).
  { induction kvs as [|[k v] kvs IH]; intros n par rest Hpar; [done|].
    cbn [pairs_tokens app skip_others _parent_token]. rewrite !(proj2 (Z.eqb_neq _ _) Hpar). by apply IH. }
  induction os as [|[ty kvs] os IH]; intros n Hn; [done|]. cbn [objects_tokens object_tokens app skip_others _parent_token fst snd].
  rewrite (proj2 (Z.eqb_neq _ _)) by lia. rewrite Hp by lia. apply IH. lia.
Qed.

(** What a reader of a file does: the type of each object with the pairs of its
    children. *)
Fixpoint read_objects (fuel : nat) (it : ceof_iterator) : option (list (cstring * gmap cstring cstring)) :=
  match fuel with
  | O => None
  | S fuel =>
    match it with
    | [] => Some []
    | t :: _ => values ← new_ceof_deserializer (enter_children it); it ← next it; os ← read_objects fuel it; Some ((_value t, values) :: os)
    end
  end.

Lemma length_pairs_tokens n parent kvs : length (pairs_tokens n parent kvs) = (2 * length kvs)%nat.
Proof. revert n. induction kvs as [|[k v] kvs IH]; intros n; cbn; [done|]. rewrite IH. lia. Qed.

Lemma enter_object n kvs ty os m :
  0 <= n -> m = n + Z.of_nat (length (object_tokens n (ty, kvs))) ->
  new_ceof_deserializer (enter_children (object_tokens n (ty, kvs) ++ objects_tokens m os)) = Some (pairs_map kvs ∅).
Proof.
  intros Hn Hm. assert (Hr : skip_others n (objects_tokens m os) = []).
  { apply skip_objects. rewrite Hm. cbn. lia. }
  unfold new_ceof_deserializer, enter_children, object_tokens. cbn [fst snd app has_children].
  destruct kvs as [|[k v] kvs].
  - cbn [pairs_tokens app]. destruct os as [|o os]; [done|]. cbn [objects_tokens]. unfold object_tokens.
    cbn [app _parent_token _token_number]. rewrite (proj2 (Z.eqb_neq _ _)) by lia. done.
  - cbn [pairs_tokens app has_children _parent_token _token_number tail]. rewrite Z.eqb_refl.
    apply (read_pairs_tokens n (objects_tokens m os) ((k, v) :: kvs)); [done| |done].
    cbn. rewrite length_app, length_pairs_tokens. lia.
Qed.

Lemma next_object n o os m :
  0 <= n -> next (object_tokens n o ++ objects_tokens m os) = Some (objects_tokens m os).
Proof.
  intros Hn. destruct o as [ty kvs]. unfold object_tokens. cbn. f_equal.
  assert (Hp : forall kvs k rest, skip_others (-1) (pairs_tokens k n kvs ++ rest) = skip_others (-1) rest).
  { clear kvs. induction kvs as [|[k v] kvs IH]; intros j rest; [done|].
    cbn [pairs_tokens app skip_others _parent_token]. rewrite !(proj2 (Z.eqb_neq _ _)) by lia. apply IH. }
  rewrite Hp. by destruct os.
Qed.

Lemma read_objects_tokens os : forall n fuel,
  0 <= n -> (length os < fuel)%nat ->
  read_objects fuel (objects_tokens n os) = Some (map (fun '(ty, kvs) => (ty, pairs_map kvs ∅)) os).
Proof.
  induction os as [|[ty kvs] os IH]; intros n fuel Hn Hf; (destruct fuel as [|fuel]; cbn in Hf; [lia|]); [done|].
  cbn [objects_tokens]. change (read_objects (S fuel) (object_tokens n (ty, kvs) ++ ?l)) with
    (values ← new_ceof_deserializer (enter_children (object_tokens n (ty, kvs) ++ l));
     it ← next (object_tokens n (ty, kvs) ++ l); os ← read_objects fuel it; Some ((ty, values) :: os)).
  rewrite enter_object, next_object by done. cbn [mbind option_bind]. rewrite IH by lia. done.
Qed.

Lemma length_objects_tokens n os : (length os <= length (objects_tokens n os))%nat.
Proof. revert n. induction os as [|o os IH]; intros n; cbn; [lia|]. rewrite length_app. specialize (IH (n + Z.of_nat (S (length (pairs_tokens (n + 1) n o.2))))). lia. Qed.

Section Read_back.
Context {T : Type} `{!ceof_serializable T}.

Definition storable (o : cstring * T) : Prop := object_ok (o.1, pairs_of o.2).

Definition names : list cstring := map (fun '(name, _, _) => name) members.

Lemma pairs_map_other kvs : forall m name,
  name ∉ map fst kvs -> pairs_map kvs m !! name = m !! name.
Proof.
  induction kvs as [|[k v] kvs IH]; intros m name Hn; [done|]. cbn in Hn.
  apply not_elem_of_cons in Hn as [Hk Hn]. cbn. setoid_rewrite IH; [|done]. by rewrite lookup_insert_ne.
Qed.

Lemma pairs_map_here kvs : forall m k v, NoDup (map fst kvs) -> (k, v) ∈ kvs -> pairs_map kvs m !! k = Some v.
Proof.
  induction kvs as [|[k' v'] kvs IH]; intros m k v Hn Hin; [by apply not_elem_of_nil in Hin|].
  cbn in Hn. apply NoDup_cons in Hn as [Hk Hn]. apply elem_of_cons in Hin as [[= -> ->]|Hin].
  - cbn. setoid_rewrite pairs_map_other; [|done]. apply lookup_insert_eq.
  - cbn. by apply IH.
Qed.

(** The members of an object, as the deserializer of its pairs gives them. *)
Lemma deserialize_member (x : T) name get set :
  NoDup names -> (name, get, set) ∈ members -> deserialize (pairs_map (pairs_of x) ∅) name = get x.
Proof.
  intros Hn Hin. unfold deserialize. erewrite pairs_map_here; [done| |].
  - unfold pairs_of. rewrite map_map. erewrite map_ext; [exact Hn|]. by intros [[] ].
  - unfold pairs_of. apply list_elem_of_fmap. by exists (name, get, set).
Qed.

Lemma written_objects_read_spec (os : list (cstring * T)) :
  NoDup names -> Forall storable os ->
  exists toks read, parse (fold_left (fun s '(ty, x) => write_object ty x s) os []) = Returns toks
  /\ read_objects (S (length toks)) toks = Some read
  /\ Forall2 (fun '(ty, x) '(ty', values) => ty' = ty /\ forall name get set,
       (name, get, set) ∈ members -> deserialize values name = get x) os read.
Proof.
  intros Hn Hos. rewrite write_objects_text. set (os' := map (fun '(ty, x) => (ty, pairs_of x)) os).
  assert (Hmap : map (fun '(ty, x) => object_text (ty, pairs_of x)) os = map object_text os').
  { unfold os'. rewrite map_map. apply map_ext. by intros []. }
  assert (Hok : Forall object_ok os') by (unfold os'; apply Forall_map; eapply Forall_impl; [exact Hos|]; by intros []).
  exists (objects_tokens 0 os'), (map (fun '(ty, kvs) => (ty, pairs_map kvs ∅)) os'). rewrite Hmap.
  pose proof (length_objects_tokens 0 os'). split_and!; [by apply parse_objects|by rewrite read_objects_tokens by lia|].
  unfold os'. rewrite map_map. apply Forall2_fmap_r, Forall_Forall2_diag, Forall_true. intros [ty x].
  split; [done|]. intros name get set. by apply deserialize_member.
Qed.

(** Objects that are written one after the other, with the visitor, are read
    back: the parser gives the tokens, and the iteration over them gives in order
    the type of each object with the value of each of its members. The names of the
    members are distinct words; values hold no newline, neither start nor end with
    a blank, do not start with '#', and are not the closing brace. *)
Theorem written_objects_read (os : list (cstring * T)) :
  NoDup names -> Forall storable os ->
  exists toks read, parse (fold_left (fun s '(ty, x) => write_object ty x s) os []) = Returns toks
  /\ read_objects (S (length toks)) toks = Some read
  /\ Forall2 (fun '(ty, x) '(ty', values) => ty' = ty /\ forall name get set,
       (name, get, set) ∈ members -> deserialize values name = get x) os read.
Proof. exact (written_objects_read_spec os). Qed.

End Read_back.

(** ** What the format cannot hold *)

(** A value that starts with '#' is taken for a comment, and the next line for
    the value. *)
Example hash_value_lost :
  parse (close_object (serialize (serialize (open_object [] (str "t")) (str "k") (str "#1")) (str "l") (str "2")))
  = Returns [Ceof_token object (str "t") 0 (-1); Ceof_token key (str "k") 1 0; Ceof_token value (str "l 2") 2 0].
Proof. reflexivity. Qed.

(** A text cut in the middle of an object is accepted. *)
Example cut_text_accepted :
  parse (str "define t") = Returns [Ceof_token object (str "t") 0 (-1)]
  /\ parse (str "define t { a 1") = Returns [Ceof_token object (str "t") 0 (-1); Ceof_token key (str "a") 1 0; Ceof_token value (str "1") 2 0].
Proof. split; reflexivity. Qed.

(** A key at the end of the text has no value: the deserializer steps over the
    end of the tokens. *)
Example key_without_value :
  (toks ← parse (str "define t { a"); Returns (new_ceof_deserializer (enter_children toks))) = Returns None.
Proof. reflexivity. Qed.

(** ** Commands, as in the tests *)

#[local] Instance command : ceof_serializable (cstring * cstring) := {
  members := [(str "command_name", fst, fun v '(_, l) => Returns (v, l)); (str "command_line", snd, fun v '(n, _) => Returns (n, v))]
}.

Definition commands : list (cstring * (cstring * cstring)) :=
  [(str "command", (str "centreon-discovery-nmap", str "perl plugins.pl --plugin=discovery")); (str "command", (str "c", []))].

Lemma written_objects_read_witness :
  (NoDup names /\ Forall storable commands) /\
  exists toks read, parse (fold_left (fun s '(ty, x) => write_object ty x s) commands []) = Returns toks
  /\ read_objects (S (length toks)) toks = Some read
  /\ Forall2 (fun '(ty, x) '(ty', values) => ty' = ty /\ forall name get set,
       (name, get, set) ∈ members -> deserialize values name = get x) commands read.
Proof.
  assert (H : NoDup names /\ Forall storable commands).
  { split; [by apply (bool_decide_unpack _)|]. unfold storable, object_ok.
    repeat constructor; cbn; try done; by apply (bool_decide_unpack _). }
  split; [exact H|]. exact (written_objects_read commands (proj1 H) (proj2 H)).
Defined.

End Ceof.
