(* ===== verification/Failover.v ===== *)
(** * Failovers (core/src/processing/failover.cc)

    The thread of an output: it opens its endpoint, reads the events of the muxer
    and writes them to the stream, acknowledges to the muxer what the stream
    acknowledges, gives the events read from the stream to the engine, and starts
    again after any error. Endpoints, streams and the muxer are interfaces. The
    theorems show that an output without a backup loses no event and overtakes none
    whatever the errors, and that a stream that works gets all events; and that
    events are lost once a backup thread shares the muxer. *)

From Stdlib Require Import ZArith Lia ZifyNat ZifyBool.
From stdpp Require Import base option list numbers gmap sets.
From S2P Require Import Prelude Muxer.
Import Muxer (queue, Mk_queue, unacked, waiting, q_publish, q_read, q_ack, q_nack).

Module Failover.

(** ** Interfaces *)

(** io::stream. Reading gets the variable that receives the event, with its
    value before the call: the event is there even when an exception is thrown.
    Writing and flushing give the number of events acknowledged. *)
Class Stream (E S : Type) : Type := {
  st_read : S -> option E -> S * (option E * outcome bool);
  st_write : S -> E -> S * outcome Z;
  st_flush : S -> S * outcome Z;
  st_update : S -> S * outcome unit
}.

(** io::endpoint. *)
Class Endpoint (S P : Type) : Type := {
  ep_open : P -> P * outcome (option S);
  ep_is_ready : P -> bool
}.

(** multiplexing::muxer, as its subscriber uses it; [mux_published m e m'], what
    the engine does from other threads. *)
Class EventMuxer (E M : Type) : Type := {
  mux_read : M -> M * outcome (bool * option E);
  mux_write : M -> E -> option E;
  mux_ack : nat -> M -> Z -> M * outcome unit;
  mux_nack : M -> M;
  mux_published : M -> E -> M -> Prop
}.

(** A stream acknowledges, in order, events that were written to it. *)
Class StreamLaws (E S : Type) `{!Stream E S} : Type := {
  acked : S -> list E;
  pending : S -> list E;
  st_write_acks s e s' n : st_write s e = (s', Returns n) ->
    0 <= n /\ exists a, acked s' = acked s ++ a /\ pending s ++ [e] = a ++ pending s' /\ length a = Z.to_nat n;
  st_write_throws s e s' x : st_write s e = (s', Throws x) -> acked s' = acked s /\ (x = Exn_shutdown -> pending s' = pending s);
  st_flush_acks s s' n : st_flush s = (s', Returns n) ->
    0 <= n /\ exists a, acked s' = acked s ++ a /\ pending s = a ++ pending s' /\ length a = Z.to_nat n;
  st_flush_throws s s' x : st_flush s = (s', Throws x) -> acked s' = acked s;
  st_read_keeps s d s' r : st_read s d = (s', r) -> acked s' = acked s /\ pending s' = pending s;
  st_update_keeps s s' r : st_update s = (s', r) -> acked s' = acked s /\ pending s' = pending s
}.

Class EndpointLaws (E S P : Type) `{Stream E S} `{!StreamLaws E S} `{!Endpoint S P} : Prop :=
  ep_open_new p p' s : ep_open p = (p', Returns (Some s)) -> acked s = [] /\ pending s = [].

(** The muxer is a queue with acknowledgement. *)
Class MuxerLaws (E M : Type) `{!EventMuxer E M} : Type := {
  stands : M -> queue (E := E) -> Prop;
  mux_read_queue m q : stands m q -> exists m' b o, mux_read m = (m', Returns (b, o)) /\
    match o with
    | Some e => b = true /\ exists q', q_read q = Some (e, q') /\ stands m' q'
    | None => b = false /\ stands m' q /\ (waiting q = [] \/ unacked q <> [])
    end;
  mux_ack_queue m q n fuel m' r : stands m q -> 0 <= n -> mux_ack fuel m n = (m', r) ->
    r = Diverges \/ r = Returns tt /\ stands m' (q_ack (Z.to_nat n) q);
  mux_ack_ends m q n : stands m q -> 0 <= n -> exists enough, forall fuel, (enough <= fuel)%nat -> snd (mux_ack fuel m n) <> Diverges;
  mux_nack_queue m q : stands m q -> stands (mux_nack m) (q_nack q);
  mux_published_queue m q e m' : stands m q -> mux_published m e m' -> stands m' (q_publish q e)
}.

(** ** The thread *)

Section Failover.
Context {E S P M : Type} `{!Stream E S} `{!Endpoint S P} `{!EventMuxer E M}.

Record failover : Type := Mk_failover {
  _should_exit : bool;
  _buffering_timeout : Z;
  _endpoint : option P;
  _secondary_endpoints : list P;
  _has_failover : bool;
  _failover_launched : bool;
  _initialized : bool;
  _next_timeout : Z;
  _retry_interval : Z;
  _update : bool;
  _stream : option S;
  _connected : bool
}.

(** The variables of the event processing loop. *)
Record locals : Type := Locals {
  stream_can_read : bool;
  muxer_can_read : bool;
  should_commit : bool;
  secondaries : list S
}.

(** The thread, the muxer it shares, and the events given to the engine. *)
Record state : Type := State { fo : failover; lo : locals; mux : M; engine : list E }.

Definition io (A : Type) : Type := state -> state * outcome A.
#[local] Instance io_ret : MRet io := fun A a st => (st, Returns a).
#[local] Instance io_bind : MBind io := fun A B f x st =>
  match x st with
  | (st, Returns a) => f a st
  | (st, Throws e) => (st, Throws e)
  | (st, Diverges) => (st, Diverges)
  end.

Definition new_failover (endp : option P) : failover :=
  Mk_failover false 0 endp [] false false false 0 30 false None false.

Definition add_secondary_endpoint (f : failover) (endp : P) : failover :=
  Mk_failover (_should_exit f) (_buffering_timeout f) (_endpoint f) (_secondary_endpoints f ++ [endp]) (_has_failover f)
    (_failover_launched f) (_initialized f) (_next_timeout f) (_retry_interval f) (_update f) (_stream f) (_connected f).
Definition set_buffering_timeout (f : failover) (secs : Z) : failover :=
  Mk_failover (_should_exit f) secs (_endpoint f) (_secondary_endpoints f) (_has_failover f)
    (_failover_launched f) (_initialized f) (_next_timeout f) (_retry_interval f) (_update f) (_stream f) (_connected f).
Definition set_retry_interval (f : failover) (retry_interval : Z) : failover :=
  Mk_failover (_should_exit f) (_buffering_timeout f) (_endpoint f) (_secondary_endpoints f) (_has_failover f)
    (_failover_launched f) (_initialized f) (_next_timeout f) retry_interval (_update f) (_stream f) (_connected f).
Definition set_failover (f : failover) (fo : bool) : failover :=
  Mk_failover (_should_exit f) (_buffering_timeout f) (_endpoint f) (_secondary_endpoints f) fo
    (_failover_launched f) (_initialized f) (_next_timeout f) (_retry_interval f) (_update f) (_stream f) (_connected f).
Definition set_update (f : failover) (b : bool) : failover :=
  Mk_failover (_should_exit f) (_buffering_timeout f) (_endpoint f) (_secondary_endpoints f) (_has_failover f)
    (_failover_launched f) (_initialized f) (_next_timeout f) (_retry_interval f) b (_stream f) (_connected f).
Definition update (f : failover) : failover := set_update f true.
Definition set_exit (f : failover) (b : bool) : failover :=
  Mk_failover b (_buffering_timeout f) (_endpoint f) (_secondary_endpoints f) (_has_failover f)
    (_failover_launched f) (_initialized f) (_next_timeout f) (_retry_interval f) (_update f) (_stream f) (_connected f).
Definition set_endpoint (f : failover) (p : P) : failover :=
  Mk_failover (_should_exit f) (_buffering_timeout f) (Some p) (_secondary_endpoints f) (_has_failover f)
    (_failover_launched f) (_initialized f) (_next_timeout f) (_retry_interval f) (_update f) (_stream f) (_connected f).
Definition set_secondary_endpoints (f : failover) (l : list P) : failover :=
  Mk_failover (_should_exit f) (_buffering_timeout f) (_endpoint f) l (_has_failover f)
    (_failover_launched f) (_initialized f) (_next_timeout f) (_retry_interval f) (_update f) (_stream f) (_connected f).
Definition set_launched (f : failover) (b : bool) : failover :=
  Mk_failover (_should_exit f) (_buffering_timeout f) (_endpoint f) (_secondary_endpoints f) (_has_failover f)
    b (_initialized f) (_next_timeout f) (_retry_interval f) (_update f) (_stream f) (_connected f).
Definition set_initialized (f : failover) : failover :=
  Mk_failover (_should_exit f) (_buffering_timeout f) (_endpoint f) (_secondary_endpoints f) (_has_failover f)
    (_failover_launched f) true (_next_timeout f) (_retry_interval f) (_update f) (_stream f) (_connected f).
Definition set_next_timeout (f : failover) (t : Z) : failover :=
  Mk_failover (_should_exit f) (_buffering_timeout f) (_endpoint f) (_secondary_endpoints f) (_has_failover f)
    (_failover_launched f) (_initialized f) t (_retry_interval f) (_update f) (_stream f) (_connected f).
(** The stream, with the state that is shown: "connected" or "connecting". *)
Definition set_stream (f : failover) (s : option S) : failover :=
  Mk_failover (_should_exit f) (_buffering_timeout f) (_endpoint f) (_secondary_endpoints f) (_has_failover f)
    (_failover_launched f) (_initialized f) (_next_timeout f) (_retry_interval f) (_update f) s (bool_decide (is_Some s)).

Definition with_fo (st : state) (f : failover) : state := State f (lo st) (mux st) (engine st).
Definition with_mux (st : state) (m : M) : state := State (fo st) (lo st) m (engine st).

Definition modify (f : failover -> failover) : io unit := fun st => (with_fo st (f (fo st)), Returns tt).
Definition modify_locals (f : locals -> locals) : io unit :=
  fun st => (State (fo st) (f (lo st)) (mux st) (engine st), Returns tt).
Definition gets {A} (f : state -> A) : io A := fun st => (st, Returns (f st)).
Definition throw {A} (e : exn) : io A := fun st => (st, Throws e).
Definition run_outcome {A} (o : outcome A) : io A := fun st => (st, o).

(** A call of the current stream; the loop always has one. *)
Definition on_stream {A} (f : S -> S * A) : io A := fun st =>
  match _stream (fo st) with
  | Some s => let '(s, r) := f s in (with_fo st (set_stream (fo st) (Some s)), Returns r)
  | None => (st, Diverges)
  end.
Definition on_mux {A} (f : M -> M * outcome A) : io A :=
  fun st => let '(m, r) := f (mux st) in (with_mux st m, r).

Definition ack_events (fuel : nat) (n : Z) : io unit := on_mux (fun m => mux_ack fuel m n).

(** muxer::write: the events that pass its filters go to the engine. *)
Definition give_engine (e : E) : io unit := fun st =>
  (State (fo st) (lo st) (mux st) (engine st ++ option_list (mux_write (mux st) e)), Returns tt).

Definition set_stream_can_read (b : bool) (l : locals) : locals := Locals b (muxer_can_read l) (should_commit l) (secondaries l).
Definition set_muxer_can_read (b : bool) (l : locals) : locals := Locals (stream_can_read l) b (should_commit l) (secondaries l).
Definition set_should_commit (b : bool) (l : locals) : locals := Locals (stream_can_read l) (muxer_can_read l) b (secondaries l).
Definition set_secondaries (s : list S) (l : locals) : locals := Locals (stream_can_read l) (muxer_can_read l) (should_commit l) s.

(** Writing to the secondaries: those that fail are removed. *)
Definition write_secondaries (d : E) (l : list S) : list S :=
  omap (fun s => match st_write s d with (s, Returns _) => Some s | _ => None end) l.

Definition check_update : io unit :=
  b ← gets (fun st => _update (fo st));
  if (b : bool) then r ← on_stream st_update; _ ← run_outcome r; modify (fun f => set_update f false) else mret tt.

(** The event read from the stream, and whether the read timed out. *)
Definition read_stream : io (option E * bool) :=
  can ← gets (fun st => stream_can_read (lo st));
  if (can : bool) then
    '(d, r) ← on_stream (fun s => st_read s None);
    match r with
    | Returns b => mret (d, negb b)
    | Throws Exn_shutdown => _ ← modify_locals (set_stream_can_read false); mret (d, true)
    | Throws e => throw e
    | Diverges => run_outcome Diverges
    end
  else mret (None, true).

(** The event read from the muxer is written; whether the read timed out. *)
Definition forward_event (fuel : nat) : io bool :=
  can ← gets (fun st => muxer_can_read (lo st));
  if (can : bool) then
    r ← on_mux (fun m => let '(m, r) := mux_read m in (m, Returns r));
    '(b, d) ← match r with
              | Returns (b, d) => _ ← modify_locals (fun l => set_should_commit (should_commit l || bool_decide (is_Some d)) l); mret (b, d)
              | Throws Exn_shutdown => _ ← modify_locals (set_muxer_can_read false); mret (false, None)
              | r => run_outcome r
              end;
    match d with
    | Some e =>
      r ← on_stream (fun s => st_write s e);
      we ← match r with
           | Throws Exn_shutdown => _ ← modify_locals (set_muxer_can_read false); mret 0
           | r => run_outcome r
           end;
      _ ← ack_events fuel we;
      _ ← modify_locals (fun l => set_secondaries (write_secondaries e (secondaries l)) l);
      mret (negb b)
    | None => mret (negb b)
    end
  else mret true.

(** What happens when both reads timed out. *)
Definition commit (fuel : nat) (now : Z) : io unit :=
  should ← gets (fun st => should_commit (lo st));
  next ← gets (fun st => _next_timeout (fo st));
  we ← (if (should : bool) || (next <=? now) then
          _ ← modify_locals (set_should_commit false);
          _ ← modify (fun f => set_next_timeout f (now + 1));
          r ← on_stream st_flush; run_outcome r
        else mret 0);
  ack_events fuel we.

(** A turn of the event processing loop. *)
Definition turn (fuel : nat) (now : Z) : io unit :=
  _ ← check_update;
  '(d, timed_out_stream) ← read_stream;
  match d with
  | Some e => give_engine e
  | None =>
    timed_out_muxer ← forward_event fuel;
    if (timed_out_stream : bool) && (timed_out_muxer : bool) then commit fuel now else mret tt
  end.

(** Opening the endpoint. *)
Definition connect : io unit := fun st =>
  match _endpoint (fo st) with
  | None => (st, Diverges)
  | Some p =>
    let '(p, r) := ep_open p in
    let st := with_fo st (set_endpoint (fo st) p) in
    match r with
    | Returns (Some s) => (with_fo st (update (set_initialized (set_stream (fo st) (Some s)))), Returns tt)
    | Returns None => (st, Throws Exn_msg)
    | Throws e => (st, Throws e)
    | Diverges => (st, Diverges)
    end
  end.

(** The secondaries that open; those that fail are left out. *)
Fixpoint open_secondaries (l : list P) : list P * list S :=
  match l with
  | [] => ([], [])
  | p :: l =>
    let '(p, r) := ep_open p in
    let '(l, ss) := open_secondaries l in
    (p :: l, match r with Returns (Some s) => s :: ss | _ => ss end)
  end.

(** From the opened stream to the loop: the backup is stopped, and all that was
    not acknowledged is offered again. *)
Definition enter_loop : io unit := fun st =>
  let '(ps, ss) := open_secondaries (_secondary_endpoints (fo st)) in
  let f := set_launched (set_secondary_endpoints (fo st) ps) false in
  (State f (Locals true true false ss) (mux_nack (mux st)) (engine st), Returns tt).

(** What the handlers of errors do; the backup is started if there is one. *)
Definition _launch_failover (st : state) : state :=
  let st := with_mux st (mux_nack (mux st)) in
  if _has_failover (fo st) && negb (_failover_launched (fo st)) then with_fo st (set_launched (fo st) true) else st.

Definition on_error (st : state) : state :=
  let st := _launch_failover (with_fo st (set_stream (fo st) None)) in
  with_fo st (set_initialized (fo st)).

(** ** The thread as a transition system

    With what other threads do: the engine publishes to the muxer, an exit or an
    update is asked for, and the backup, once it is launched, reads and
    acknowledges the same muxer. [past], the events that the streams closed so far had
    acknowledged; [others], those that the engine published. *)

Inductive phase : Type := Opening | Starting | Looping | Sleeping | Stopped.

Record config : Type := Config { ph : phase; st : state; past : list E; others : list E }.

Context `{!StreamLaws E S}.

(** What the thread of a backup does to the muxer: it is a failover too. *)
Inductive backup_does (m : M) : M -> Prop :=
  | backup_reads m' r : mux_read m = (m', r) -> backup_does m m'
  | backup_acks fuel n m' r : 0 <= n -> mux_ack fuel m n = (m', r) -> backup_does m m'
  | backup_nacks : backup_does m (mux_nack m).

Definition stream_acked (x : state) : list E := from_option acked [] (_stream (fo x)).

(** The stream is dropped. *)
Definition closed (c : config) (p : phase) (x x' : state) : config := Config p x' (past c ++ stream_acked x) (others c).

Inductive step : config -> config -> Prop :=
  | step_publish c e m : mux_published (mux (st c)) e m ->
      step c (Config (ph c) (with_mux (st c) m) (past c) (others c ++ [e]))
  | step_exit c : step c (Config (ph c) (with_fo (st c) (set_exit (fo (st c)) true)) (past c) (others c))
  | step_update c : step c (Config (ph c) (with_fo (st c) (update (fo (st c)))) (past c) (others c))
  | step_backup c m : _has_failover (fo (st c)) = true -> _failover_launched (fo (st c)) = true ->
      backup_does (mux (st c)) m -> step c (Config (ph c) (with_mux (st c) m) (past c) (others c))
  | step_connect c x : ph c = Opening -> connect (st c) = (x, Returns tt) -> step c (Config Starting x (past c) (others c))
  | step_connect_fails c x e : ph c = Opening -> connect (st c) = (x, Throws e) ->
      step c (Config Sleeping (on_error x) (past c) (others c))
  | step_start c x : ph c = Starting -> enter_loop (st c) = (x, Returns tt) -> step c (Config Looping x (past c) (others c))
  | step_turn c fuel now x : ph c = Looping -> _should_exit (fo (st c)) = false -> turn fuel now (st c) = (x, Returns tt) ->
      step c (Config Looping x (past c) (others c))
  | step_turn_fails c fuel now x e : ph c = Looping -> _should_exit (fo (st c)) = false -> turn fuel now (st c) = (x, Throws e) ->
      step c (closed c Sleeping x (on_error x))
  | step_leave c : ph c = Looping -> _should_exit (fo (st c)) = true ->
      step c (closed c Sleeping (st c) (with_fo (st c) (set_stream (fo (st c)) None)))
  | step_wake c : ph c = Sleeping ->
      step c (Config (if _should_exit (fo (st c)) then Stopped else Opening) (st c) (past c) (others c)).

(** ** No event is lost

    A small logic for the operations of a turn: what holds after they return, and
    after they throw. *)

Context `{!MuxerLaws E M}.

Definition triple {A} (Pre : state -> Prop) (c : io A) (Post : A -> state -> Prop) (Err : state -> Prop) : Prop :=
  forall x x' r, Pre x -> c x = (x', r) ->
    match r with Returns a => Post a x' | Throws _ => Err x' | Diverges => True end.

Lemma triple_ret {A} (a : A) (Pre : state -> Prop) (Post : A -> state -> Prop) Err :
  (forall x, Pre x -> Post a x) -> triple Pre (mret a) Post Err.
Proof. intros Hp x x' r H [= <- <-]. by apply Hp. Qed.

Lemma bind_returns {A B} (c : io A) (f : A -> io B) x x' a : c x = (x', Returns a) -> (c ≫= f) x = f a x'.
Proof. unfold mbind, io_bind. by intros ->. Qed.

Lemma q_read_Some (q : queue (E := E)) e q' : q_read q = Some (e, q') -> waiting q = e :: waiting q' /\ unacked q' = unacked q ++ [e].
Proof. unfold q_read. destruct (waiting q); [done|]. by intros [= -> <-]. Qed.

Lemma triple_bind {A B} Pre (c : io A) Mid (f : A -> io B) Post Err :
  triple Pre c Mid Err -> (forall a, triple (Mid a) (f a) Post Err) -> triple Pre (c ≫= f) Post Err.
Proof.
  intros Hc Hf x x' r Hx. unfold mbind, io_bind. destruct (c x) as [x1 r1] eqn:E1. specialize (Hc _ _ _ Hx E1).
  destruct r1 as [a|e|]; [by apply Hf|by intros [= <- <-]..].
Qed.

Lemma triple_weaken {A} (Pre Pre' : state -> Prop) (c : io A) (Post Post' : A -> state -> Prop) (Err : state -> Prop) :
  (forall x, Pre' x -> Pre x) -> (forall a x, Post a x -> Post' a x) -> triple Pre c Post Err -> triple Pre' c Post' Err.
Proof. intros H1 H2 Hc x x' r Hx Hr. specialize (Hc x x' r (H1 _ Hx) Hr). destruct r; auto. Qed.

Lemma triple_gets {A} (f : state -> A) (Pre : state -> Prop) Err : triple Pre (gets f) (fun a x => Pre x /\ a = f x) Err.
Proof. intros x x' r H [= <- <-]. done. Qed.

Section History.
(** All events, from the first one. *)
Variable hist : list E.

(** The stream acknowledged [n] events more than the muxer knows; it has not
    acknowledged the other events that the muxer gave, except perhaps the last one
    when its writing was refused. *)
Definition good_but (n : Z) (x : state) : Prop :=
  exists q s before a extra,
    stands (mux x) q /\ _stream (fo x) = Some s /\ acked s = before ++ a /\ Z.of_nat (length a) = n
    /\ unacked q = a ++ pending s ++ extra /\ (extra = [] \/ muxer_can_read (lo x) = false)
    /\ before ++ unacked q ++ waiting q = hist.

Definition good : state -> Prop := good_but 0.

(** All events are acknowledged by the stream, or in the muxer. *)
Definition accounted (x : state) : Prop :=
  exists q, stands (mux x) q /\ stream_acked x ++ unacked q ++ waiting q = hist.

Lemma good_accounted x : good x -> accounted x.
Proof.
  intros (q & s & before & a & extra & Hm & Hs & Ha & Hn & Hu & He & Hh). destruct a; [|done].
  exists q. split; [done|]. unfold stream_acked. rewrite Hs. cbn. by rewrite Ha, app_nil_r.
Qed.

Lemma good_same n x x' :
  good_but n x -> mux x' = mux x -> _stream (fo x') = _stream (fo x) ->
  (muxer_can_read (lo x) = false -> muxer_can_read (lo x') = false) -> good_but n x'.
Proof.
  intros (q & s & before & a & extra & Hm & Hs & Ha & Hn & Hu & He & Hh) Hmux Hst Hl.
  exists q, s, before, a, extra. rewrite Hmux, Hst. split_and!; try done. destruct He; auto.
Qed.

Lemma triple_modify n (f : failover -> failover) :
  (forall x, _stream (f x) = _stream x) -> triple (good_but n) (modify f) (fun _ => good_but n) accounted.
Proof. intros Hf x x' r H [= <- <-]. eapply good_same; [exact H|done|apply Hf|done]. Qed.

Lemma triple_locals n (f : locals -> locals) :
  (forall l, muxer_can_read l = false -> muxer_can_read (f l) = false) ->
  triple (good_but n) (modify_locals f) (fun _ => good_but n) accounted.
Proof. intros Hf x x' r H [= <- <-]. eapply good_same; [exact H|done..|apply Hf]. Qed.

Lemma triple_outcome {A} n (o : outcome A) : triple (fun x => good_but n x /\ (n = 0 \/ exists a, o = Returns a)) (run_outcome o) (fun a x => good_but n x /\ o = Returns a) accounted.
Proof.
  intros x x' r [H Hn] [= <- <-]. destruct o as [a|e|]; [done| |done].
  destruct Hn as [->|[a ?]]; [by apply good_accounted|done].
Qed.

(** An acknowledgement to the muxer. *)
Lemma triple_ack fuel n : triple (good_but n) (ack_events fuel n) (fun _ => good) accounted.
Proof.
  intros x x' r (q & s & before & a & extra & Hm & Hs & Ha & Hn & Hu & He & Hh). unfold ack_events, on_mux.
  destruct (mux_ack fuel (mux x) n) as [m o] eqn:Ho. intros [= <- <-].
  assert (0 <= n) as H0 by lia. destruct (mux_ack_queue _ _ _ _ _ _ Hm H0 Ho) as [->|[-> Hm']]; [done|].
  exists (q_ack (Z.to_nat n) q), s, (before ++ a), [], extra. cbn [with_mux mux fo lo q_ack unacked waiting].
  assert (Hd : drop (Z.to_nat n) (unacked q) = pending s ++ extra) by (rewrite Hu, drop_app_length' by lia; done).
  split_and!; try done; [by rewrite app_nil_r|]. rewrite Hd, <- Hh, Hu, <- !app_assoc. done.
Qed.

Lemma on_stream_keeps {A} n (f : S -> S * A) :
  (forall s s' r, f s = (s', r) -> acked s' = acked s /\ pending s' = pending s) ->
  triple (good_but n) (on_stream f) (fun _ => good_but n) accounted.
Proof.
  intros Hf x x' r (q & s & before & a & extra & Hm & Hs & Ha & Hn & Hu & He & Hh). unfold on_stream. rewrite Hs.
  destruct (f s) as [s' o] eqn:Ho. intros [= <- <-]. destruct (Hf _ _ _ Ho) as [H1 H2].
  exists q, s', before, a, extra. rewrite H1, H2. done.
Qed.

Lemma triple_throw {A} e : triple good (throw (A := A) e) (fun _ => good) accounted.
Proof. intros x x' r H [= <- <-]. by apply good_accounted. Qed.

Lemma triple_run {A} (o : outcome A) : triple good (run_outcome o) (fun _ => good) accounted.
Proof. intros x x' r H [= <- <-]. destruct o; [done|by apply good_accounted|done]. Qed.

Lemma triple_get {A} (f : state -> A) n : triple (good_but n) (gets f) (fun _ => good_but n) accounted.
Proof. intros x x' r H [= <- <-]. done. Qed.

Ltac next_call := eapply triple_bind; [|let r := fresh "r" in intros r].

Lemma check_update_good : triple good check_update (fun _ => good) accounted.
Proof.
  unfold check_update. next_call; [apply triple_get|]. destruct r; [|by apply triple_ret].
  next_call; [apply on_stream_keeps; intros ???; apply st_update_keeps|]. next_call; [apply triple_run|].
  by apply triple_modify.
Qed.

Lemma read_stream_good : triple good read_stream (fun _ => good) accounted.
Proof.
  unfold read_stream. next_call; [apply triple_get|]. destruct r; [|by apply triple_ret].
  next_call; [apply on_stream_keeps; intros ???; apply st_read_keeps|]. destruct r as [d [b|e|]].
  - by apply triple_ret.
  - destruct e; try apply triple_throw. next_call; [by apply triple_locals|by apply triple_ret].
  - apply triple_run.
Qed.

(** Reading the muxer: the event is the muxer's to remember, and was not written. *)
Definition given (e : E) (x : state) : Prop :=
  exists q s, stands (mux x) q /\ _stream (fo x) = Some s /\ unacked q = pending s ++ [e]
    /\ acked s ++ unacked q ++ waiting q = hist.

Definition after_read (r : outcome (bool * option E)) (x : state) : Prop :=
  match r with Returns (_, Some e) => given e x | Returns (_, None) => good x | _ => False end.

Lemma mux_read_good :
  triple (fun x => good x /\ muxer_can_read (lo x) = true) (on_mux (fun m => let '(m, r) := mux_read m in (m, Returns r)))
    after_read accounted.
Proof.
  intros x x' r [(q & s & before & a & extra & Hm & Hs & Ha & Hn & Hu & He & Hh) Hcan]. destruct a; [|done].
  unfold on_mux. destruct (mux_read_queue _ _ Hm) as (m' & b & o & Hr & Ho). rewrite Hr. intros [= <- <-].
  destruct o as [e|]; cbn.
  - destruct Ho as (_ & q' & Hq & Hm'). exists q', s. unfold q_read in Hq.
    destruct (waiting q) as [|e' w] eqn:Hw; [done|]. injection Hq as -> <-. cbn.
    rewrite Hcan in He. destruct He as [->|?]; [|done]. rewrite app_nil_r in Hu, Ha. cbn in Hu.
    split_and!; try done; [by rewrite Hu|]. by rewrite Ha, <- Hh, <- app_assoc.
  - exists q, s, before, [], extra. by destruct Ho as (_ & ? & _).
Qed.

Lemma given_locals e (f : locals -> locals) : triple (given e) (modify_locals f) (fun _ => given e) accounted.
Proof. intros x x' r H [= <- <-]. exact H. Qed.

Definition after_write (r : outcome Z) (x : state) : Prop :=
  match r with
  | Returns n => good_but n x
  | Throws Exn_shutdown => good (State (fo x) (set_muxer_can_read false (lo x)) (mux x) (engine x))
  | Throws _ => accounted x
  | Diverges => True
  end.

Lemma write_given e : triple (given e) (on_stream (fun s => st_write s e)) after_write accounted.
Proof.
  intros x x' r (q & s & Hm & Hs & Hu & Hh). unfold on_stream. rewrite Hs.
  destruct (st_write s e) as [s' [n|y|]] eqn:Hw; intros [= <- <-]; cbn; [| |done].
  - destruct (st_write_acks _ _ _ _ Hw) as (Hn & a & Ha & Hp & Hl).
    exists q, s', (acked s), a, []. rewrite app_nil_r. split_and!; try done; [lia|by rewrite Hu|by left].
  - destruct (st_write_throws _ _ _ _ Hw) as [Ha Hp].
    assert (Hacc : accounted (with_fo x (set_stream (fo x) (Some s')))).
    { exists q. split; [done|]. unfold stream_acked. cbn. by rewrite Ha. }
    destruct y; try exact Hacc.
    exists q, s', (acked s), [], [e]. cbn. rewrite (Hp eq_refl), app_nil_r. split_and!; try done. by right.
Qed.

Lemma triple_false {A} (c : io A) Post Err : triple (fun _ => False) c Post Err.
Proof. by intros ????. Qed.

Lemma forward_event_good fuel : triple good (forward_event fuel) (fun _ => good) accounted.
Proof.
  unfold forward_event. next_call; [apply triple_gets|]. destruct r; [|by apply triple_ret; intros x []].
  next_call; [eapply triple_weaken; [|intros ?? H; exact H|apply mux_read_good]; by intros x [H ->]|].
  eapply (triple_bind _ _ (fun p => match snd p with Some e => given e | None => good end)).
  - destruct r as [[b [e|]]|y|]; cbn [after_read]; [| |apply triple_false..].
    + next_call; [apply given_locals|by apply triple_ret].
    + next_call; [by apply triple_locals|by apply triple_ret].
  - intros [b [e|]]; cbn [snd]; [|by apply triple_ret].
    next_call; [apply write_given|]. next_call; [|next_call; [apply triple_ack|next_call; [by apply triple_locals|by apply triple_ret]]].
    destruct r0 as [n|y|]; cbn [after_write].
    + by intros x x' o H [= <- <-].
    + destruct y; by intros x x' o H [= <- <-].
    + by intros x x' o H [= <- <-].
Qed.

Lemma commit_good fuel now : triple good (commit fuel now) (fun _ => good) accounted.
Proof.
  unfold commit. next_call; [apply triple_get|]. next_call; [apply triple_get|].
  next_call; [|apply triple_ack]. case_if; [|by apply (triple_ret 0 good)].
  next_call; [by apply triple_locals|]. next_call; [by apply triple_modify|].
  eapply (triple_bind _ _ (fun r x => match r with Returns n => good_but n x | Throws _ => accounted x | Diverges => True end)).
  - intros x x' o (q & s & before & a & extra & Hm & Hs & Ha & Hn & Hu & He & Hh). destruct a; [|done].
    unfold on_stream. rewrite Hs. destruct (st_flush s) as [s' [n|y|]] eqn:Hf; intros [= <- <-]; [| |done].
    + destruct (st_flush_acks _ _ _ Hf) as (Hn' & a & Ha' & Hp & Hl). rewrite app_nil_r in Ha.
      exists q, s', before, a, extra. split_and!; try done; [by rewrite Ha', Ha|lia|]. cbn in Hu. by rewrite Hu, Hp, <- app_assoc.
    + exists q. split; [done|]. unfold stream_acked. cbn. by rewrite (st_flush_throws _ _ _ Hf), Ha, app_nil_r.
  - intros [n|y|]; by intros x x' o' H [= <- <-].
Qed.

(** A turn of the loop, whatever it ends with. *)
Lemma turn_good fuel now : triple good (turn fuel now) (fun _ => good) accounted.
Proof.
  unfold turn. next_call; [apply check_update_good|]. next_call; [apply read_stream_good|].
  destruct r0 as [[e|] t].
  - intros x x' o H [= <- <-]. by eapply good_same.
  - next_call; [apply forward_event_good|]. case_if; [apply commit_good|by apply triple_ret].
Qed.


End History.

(** ** Reachable states *)

Section Reachable.
Context `{!EndpointLaws E S P}.
(** The events of the muxer at first. *)
Variable initial : list E.

(** No thread shares the muxer. *)
Definition no_backup (x : state) : Prop := _has_failover (fo x) = false.

Definition starts (c : config) : Prop :=
  ph c = Opening /\ _stream (fo (st c)) = None /\ past c = [] /\ others c = []
  /\ exists q, stands (mux (st c)) q /\ unacked q ++ waiting q = initial.

Definition inv (c : config) : Prop :=
  exists hist, past c ++ hist = initial ++ others c /\
  match ph c with
  | Looping => good hist (st c)
  | Starting => accounted hist (st c) /\ exists s, _stream (fo (st c)) = Some s /\ acked s = [] /\ pending s = []
  | _ => accounted hist (st c) /\ _stream (fo (st c)) = None
  end.

Lemma good_publish hist n x e m : good_but hist n x -> mux_published (mux x) e m -> good_but (hist ++ [e]) n (with_mux x m).
Proof.
  intros (q & s & before & a & extra & Hm & Hs & Ha & Hn & Hu & He & Hh) Hp.
  exists (q_publish q e), s, before, a, extra. split_and!; try done; [by eapply mux_published_queue|]. cbn. by rewrite <- Hh, <- !app_assoc.
Qed.

Lemma accounted_publish hist x e m : accounted hist x -> mux_published (mux x) e m -> accounted (hist ++ [e]) (with_mux x m).
Proof.
  intros (q & Hm & Hh) Hp. exists (q_publish q e). split; [by eapply mux_published_queue|].
  cbn. rewrite <- Hh, <- !app_assoc. done.
Qed.

Lemma accounted_closed hist x x' :
  accounted hist x -> _stream (fo x') = None -> mux x' = mux x \/ mux x' = mux_nack (mux x) ->
  exists hist', stream_acked x ++ hist' = hist /\ accounted hist' x'.
Proof.
  intros (q & Hm & Hh) Hs Hmux. exists (unacked q ++ waiting q). split; [done|]. unfold accounted, stream_acked. rewrite Hs.
  destruct Hmux as [->| ->]; [by exists q|]. exists (q_nack q). split; [by apply mux_nack_queue|done].
Qed.

Lemma on_error_stream x : _stream (fo (on_error x)) = None /\ mux (on_error x) = mux_nack (mux x).
Proof. unfold on_error, _launch_failover. by case_if. Qed.

Lemma connect_spec x x' r : connect x = (x', r) ->
  mux x' = mux x /\ match r with
    | Returns _ => exists s, _stream (fo x') = Some s /\ acked s = [] /\ pending s = []
    | _ => _stream (fo x') = _stream (fo x)
    end.
Proof.
  unfold connect. destruct (_endpoint (fo x)) as [p|]; [|by intros [= <- <-]].
  destruct (ep_open p) as [p' [[s|]|e|]] eqn:Ho; intros [= <- <-]; split; try done.
  exists s. split; [done|]. by eapply ep_open_new.
Qed.

(** No operation gives the thread a backup. *)
Definition keeps_backup {A} (c : io A) : Prop := forall x x' r, c x = (x', r) -> _has_failover (fo x') = _has_failover (fo x).

Lemma keeps_bind {A B} (c : io A) (f : A -> io B) : keeps_backup c -> (forall a, keeps_backup (f a)) -> keeps_backup (c ≫= f).
Proof.
  intros Hc Hf x x' r. unfold mbind, io_bind. destruct (c x) as [x1 [a|e|]] eqn:E1; intros H.
  - rewrite (Hf a _ _ _ H). by apply Hc in E1.
  - injection H as <- <-. by apply Hc in E1.
  - injection H as <- <-. by apply Hc in E1.
Qed.

Lemma keeps_ret {A} (a : A) : keeps_backup (mret a).
Proof. by intros x x' r [= <- <-]. Qed.
Lemma keeps_run {A} (o : outcome A) : keeps_backup (run_outcome o).
Proof. by intros x x' r [= <- <-]. Qed.
Lemma keeps_throw {A} e : keeps_backup (throw (A := A) e).
Proof. by intros x x' r [= <- <-]. Qed.
Lemma keeps_gets {A} (f : state -> A) : keeps_backup (gets f).
Proof. by intros x x' r [= <- <-]. Qed.
Lemma keeps_modify (f : failover -> failover) : (forall x, _has_failover (f x) = _has_failover x) -> keeps_backup (modify f).
Proof. intros Hf x x' r [= <- <-]. apply Hf. Qed.
Lemma keeps_locals (f : locals -> locals) : keeps_backup (modify_locals f).
Proof. by intros x x' r [= <- <-]. Qed.
Lemma keeps_stream {A} (f : S -> S * A) : keeps_backup (on_stream f).
Proof. intros x x' r. unfold on_stream. destruct (_stream (fo x)); [destruct (f _)|]; by intros [= <- <-]. Qed.
Lemma keeps_mux {A} (f : M -> M * outcome A) : keeps_backup (on_mux f).
Proof. intros x x' r. unfold on_mux. destruct (f (mux x)). by intros [= <- <-]. Qed.
Lemma keeps_engine e : keeps_backup (give_engine e).
Proof. by intros x x' r [= <- <-]. Qed.

Ltac keeps := repeat first
  [apply keeps_bind; [|intros ?]|apply keeps_ret|apply keeps_run|apply keeps_throw|apply keeps_gets|apply keeps_locals
  |apply keeps_stream|apply keeps_mux|apply keeps_engine|apply keeps_modify; done
  |match goal with |- keeps_backup (match ?a with _ => _ end) => destruct a end].

Lemma turn_keeps_backup fuel now : keeps_backup (turn fuel now).
Proof. unfold turn, check_update, read_stream, forward_event, commit, ack_events. keeps. Qed.

Lemma step_backup_kept c c' : step c c' -> _has_failover (fo (st c')) = _has_failover (fo (st c)).
Proof.
  intros [ ]; try done; cbn [st].
  - revert H0. unfold connect. destruct (_endpoint _) as [p|]; [|done]. destruct (ep_open p) as [p' [[s|]|e|]]; by intros [= <-].
  - revert H0. unfold connect. destruct (_endpoint _) as [p|]; [|done].
    destruct (ep_open p) as [p' [[s|]|e'|]]; intros [= <- <-]; unfold on_error, _launch_failover; by case_if.
  - revert H0. unfold enter_loop. destruct (open_secondaries _). by intros [= <-].
  - by eapply turn_keeps_backup.
  - apply turn_keeps_backup in H1. rewrite <-H1. unfold on_error, _launch_failover. by case_if.
Qed.

Lemma step_inv c c' : no_backup (st c) -> inv c -> step c c' -> inv c'.
Proof.
  intros Hb (hist & Hh & Hc) Hs. destruct Hs as [c e m Hp|c|c|c m Hb'|c x Hph Hx|c x e Hph Hx|c x Hph Hx|c fuel now x Hph _ Hx|c fuel now x e Hph _ Hx|c Hph _|c Hph];
    try rewrite Hph in Hc.
  - exists (hist ++ [e]). cbn [ph st past others]. rewrite !app_assoc, Hh. split; [done|].
    destruct (ph c); first [by apply good_publish|destruct Hc; split; [by apply accounted_publish|done]].
  - exists hist. split; [done|]. cbn [ph st]. by destruct (ph c).
  - exists hist. split; [done|]. cbn [ph st]. by destruct (ph c).
  - unfold no_backup in Hb. congruence.
  - destruct Hc as [(q & Hm & Hq) Hn]. destruct (connect_spec _ _ _ Hx) as (Hmux & s & Hs & Ha & Hp).
    exists hist. split; [done|]. split; [|by exists s]. exists q. unfold stream_acked in *.
    cbn [st]. rewrite Hmux, Hs. cbn. rewrite Hn in Hq. by rewrite Ha.
  - destruct Hc as [Ha Hn]. destruct (connect_spec _ _ _ Hx) as (Hmux & Hs). cbn in Hs.
    destruct (on_error_stream x) as [H1 H2]. destruct (accounted_closed hist (st c) (on_error x) Ha H1) as (h & Hh' & Hacc).
    { right. by rewrite H2, Hmux. }
    unfold stream_acked in Hh'. rewrite Hn in Hh'. cbn in Hh'. subst h. by exists hist.
  - destruct Hc as [(q & Hm & Hq) (s & Hs & Ha & Hp)]. exists hist. split; [done|]. cbn [ph st].
    revert Hx. unfold enter_loop. destruct (open_secondaries _) as [ps ss]. intros [= <-].
    unfold stream_acked in Hq. rewrite Hs in Hq. cbn in Hq. rewrite Ha in Hq.
    exists (q_nack q), s, [], [], []. cbn. rewrite Hp. split_and!; try done; [by apply mux_nack_queue|by left].
  - exists hist. split; [done|]. exact (turn_good hist fuel now _ _ _ Hc Hx).
  - destruct (on_error_stream x) as [H1 H2]. pose proof (turn_good hist fuel now _ _ _ Hc Hx) as Ha. cbn in Ha.
    destruct (accounted_closed hist x (on_error x) Ha H1 ltac:(by right)) as (h & Hh' & Hacc).
    exists h. cbn. by rewrite <- app_assoc, Hh'.
  - apply good_accounted in Hc. destruct (accounted_closed hist (st c) (with_fo (st c) (set_stream (fo (st c)) None)) Hc) as (h & Hh' & Hacc);
      [done|by left|]. exists h. cbn. by rewrite <- app_assoc, Hh'.
  - exists hist. split; [done|]. cbn [ph st]. by case_if.
Qed.

Lemma starts_inv c : starts c -> inv c.
Proof.
  intros (Hph & Hs & Hp & Ho & q & Hm & Hq). exists initial. rewrite Hp, Ho, app_nil_r. split; [done|]. rewrite Hph.
  split; [|done]. exists q. split; [done|]. unfold stream_acked. by rewrite Hs.
Qed.

Lemma reachable_inv c c' : starts c -> no_backup (st c) -> rtc step c c' -> inv c'.
Proof.
  intros Hs Hb Hr. apply starts_inv in Hs. induction Hr as [|c c1 c2 H1 _ IH]; [done|]. apply IH.
  - by eapply step_inv.
  - unfold no_backup in *. by rewrite (step_backup_kept _ _ H1).
Qed.

Lemma inv_accounted c : inv c -> exists hist, past c ++ hist = initial ++ others c /\ accounted hist (st c).
Proof.
  intros (hist & Hh & Hc). exists hist. split; [done|]. destruct (ph c); try by destruct Hc. by apply good_accounted.
Qed.

(** C3. Whatever the endpoint and its streams do (failures to open, exceptions at
    any call, acknowledgements late or many at a time), an output that has no
    backup loses no event and lets none overtake another: at any time the events
    that the streams acknowledged, one stream after the other, then those that the
    muxer keeps, are all the events that it had at first and those that were
    published since, in their order. With a backup, whose thread acknowledges to the
    same muxer, this is false ([shared_backup_loses]). *)
Theorem no_event_lost c c' :
  starts c -> no_backup (st c) -> rtc step c c' ->
  exists q, stands (mux (st c')) q /\
    past c' ++ stream_acked (st c') ++ unacked q ++ waiting q = initial ++ others c'.
Proof.
  intros Hs Hb Hr. destruct (inv_accounted _ (reachable_inv _ _ Hs Hb Hr)) as (hist & Hh & q & Hm & Hq).
  exists q. by rewrite Hq.
Qed.

End Reachable.

(** ** A stream that works gets everything *)

Section Working.
(** What a stream that works keeps: it takes updates and events, has nothing to
    read, and a flush acknowledges all it was given. *)
Variable ok : S -> Prop.
Hypothesis ok_update : forall s, ok s -> exists s', st_update s = (s', Returns tt) /\ ok s'.
Hypothesis ok_read : forall s, ok s -> exists s', st_read s None = (s', (None, Returns false)) /\ ok s'.
Hypothesis ok_write : forall s e, ok s -> exists s' n, st_write s e = (s', Returns n) /\ ok s'.
Hypothesis ok_flush : forall s, ok s -> exists s' n, st_flush s = (s', Returns n) /\ ok s' /\ pending s' = [].

(** [n] turns, the first one at [now], one each second. *)
Inductive turns : nat -> Z -> state -> state -> Prop :=
  | turns_0 now x : turns 0 now x x
  | turns_S n fuel now x x1 x2 :
      _should_exit (fo x) = false -> turn fuel now x = (x1, Returns tt) -> turns n (now + 1) x1 x2 ->
      turns (Datatypes.S n) now x x2.

(** The loop works on stream [s], for the queue [q]. *)
Definition working (x : state) (q : queue) (s : S) : Prop :=
  stands (mux x) q /\ _stream (fo x) = Some s /\ ok s /\ unacked q = pending s
  /\ muxer_can_read (lo x) = true /\ _should_exit (fo x) = false.

Lemma check_update_works x q s : working x q s ->
  exists x' s', check_update x = (x', Returns tt) /\ working x' q s' /\ acked s' = acked s /\ pending s' = pending s
    /\ _next_timeout (fo x') = _next_timeout (fo x).
Proof.
  intros (Hm & Hs & Hok & Hu & Hr & He). unfold check_update, mbind, io_bind, gets, on_stream, run_outcome, modify.
  destruct (_update (fo x)); [|by exists x, s]. rewrite Hs.
  destruct (ok_update s Hok) as (s' & Hus & Hok'). rewrite Hus. destruct (st_update_keeps _ _ _ Hus) as [Ha Hp].
  eexists _, s'. split; [done|]. split; [|done]. unfold working. cbn. by rewrite Hp.
Qed.

Lemma read_stream_works x q s : working x q s ->
  exists x' s', read_stream x = (x', Returns (None, true)) /\ working x' q s' /\ acked s' = acked s /\ pending s' = pending s
    /\ _next_timeout (fo x') = _next_timeout (fo x).
Proof.
  intros (Hm & Hs & Hok & Hu & Hr & He). unfold read_stream, mbind, io_bind, gets, on_stream.
  destruct (stream_can_read (lo x)); [|by exists x, s]. rewrite Hs.
  destruct (ok_read s Hok) as (s' & Hrs & Hok'). rewrite Hrs. destruct (st_read_keeps _ _ _ _ Hrs) as [Ha Hp].
  eexists _, s'. split; [done|]. split; [|done]. unfold working. cbn. by rewrite Hp.
Qed.

Lemma ack_works x q n : stands (mux x) q -> 0 <= n ->
  exists fuel m, ack_events fuel n x = (with_mux x m, Returns tt) /\ stands m (q_ack (Z.to_nat n) q).
Proof.
  intros Hm Hn. destruct (mux_ack_ends _ _ _ Hm Hn) as [fuel Hf]. exists fuel. specialize (Hf fuel (le_n _)).
  unfold ack_events, on_mux. destruct (mux_ack fuel (mux x) n) as [m r] eqn:Hr. exists m.
  destruct (mux_ack_queue _ _ _ _ _ _ Hm Hn Hr) as [->|[-> Hm']]; [by destruct Hf|done].
Qed.

Definition total (x : state) (q : queue (E := E)) (s : S) : list E := acked s ++ unacked q ++ waiting q.

(** Nothing to read in the muxer: the stream is flushed. *)
Lemma commit_works x q s now : working x q s -> _next_timeout (fo x) <= now ->
  exists fuel x' q' s', commit fuel now x = (x', Returns tt) /\ working x' q' s' /\ _next_timeout (fo x') <= now + 1
    /\ total x' q' s' = total x q s /\ waiting q' = waiting q /\ unacked q' = [].
Proof.
  intros (Hm & Hs & Hok & Hu & Hr & He) Hnow. destruct (ok_flush s Hok) as (s' & n & Hf & Hok' & Hp').
  destruct (st_flush_acks _ _ _ Hf) as (Hn & a & Ha & Hp & Hl). rewrite Hp', app_nil_r in Hp.
  set (f := set_stream (set_next_timeout (fo x) (now + 1)) (Some s')).
  set (x1 := State f (set_should_commit false (lo x)) (mux x) (engine x)).
  destruct (ack_works x1 q n Hm Hn) as (fuel & m & Hack & Hm'). exists fuel, (with_mux x1 m), (q_ack (Z.to_nat n) q), s'.
  assert (Hd : drop (Z.to_nat n) (unacked q) = []) by (apply drop_ge; rewrite Hu, Hp; lia).
  split_and!.
  - unfold commit, mbind, io_bind, gets, on_stream, run_outcome, modify, modify_locals.
    rewrite (proj2 (Z.leb_le _ _) Hnow), orb_true_r. cbn. rewrite Hs, Hf. exact Hack.
  - unfold working. cbn. rewrite Hd, Hp'. done.
  - cbn. lia.
  - unfold total. cbn. rewrite Hd, Ha, Hu, Hp. by rewrite <- app_assoc.
  - done.
  - exact Hd.
Qed.

(** A turn forwards an event; or it flushes the stream, when there is none or when
    the muxer waits for acknowledgements to give it. *)
Lemma turn_works x q s now : working x q s -> _next_timeout (fo x) <= now ->
  exists fuel x' q' s', turn fuel now x = (x', Returns tt) /\ working x' q' s' /\ _next_timeout (fo x') <= now + 1
    /\ total x' q' s' = total x q s
    /\ ((exists e, waiting q = e :: waiting q')
        \/ waiting q' = waiting q /\ unacked q' = [] /\ (waiting q = [] \/ unacked q <> [])).
Proof.
  intros Hw Hnow. destruct (check_update_works _ _ _ Hw) as (x1 & s1 & E1 & Hw1 & Ha1 & Hp1 & Hn1).
  destruct (read_stream_works _ _ _ Hw1) as (x2 & s2 & E2 & Hw2 & Ha2 & Hp2 & Hn2).
  assert (Ht : forall y, total y q s2 = total x q s) by (intros y; unfold total; by rewrite Ha2, Ha1).
  pose proof Hw2 as (Hm & Hs & Hok & Hu & Hr & He).
  destruct (mux_read_queue _ _ Hm) as (m & b & o & Hmr & Ho). destruct o as [e|].
  - destruct Ho as (-> & q1 & Hq1 & Hm1). destruct (q_read_Some _ _ _ Hq1) as [Hwq Huq].
    destruct (ok_write s2 e Hok) as (s3 & n & Hwr & Hok3). destruct (st_write_acks _ _ _ _ Hwr) as (Hn & a & Ha & Hp & Hl).
    set (x3 := State (set_stream (fo x2) (Some s3)) (set_should_commit (should_commit (lo x2) || true) (lo x2)) m (engine x2)).
    destruct (ack_works x3 q1 n Hm1 Hn) as (fuel & m3 & Hack & Hm3).
    exists fuel, (State (fo x3) (set_secondaries (write_secondaries e (secondaries (lo x3))) (lo x3)) m3 (engine x3)),
      (q_ack (Z.to_nat n) q1), s3.
    assert (Hd : drop (Z.to_nat n) (unacked q1) = pending s3) by (rewrite Huq, Hu, Hp, drop_app_length' by lia; done).
    split_and!.
    + unfold turn. rewrite (bind_returns _ _ _ _ _ E1), (bind_returns _ _ _ _ _ E2). cbn [fst snd].
      unfold forward_event, mbind, io_bind, gets, on_stream, on_mux, run_outcome, modify_locals.
      rewrite Hr. cbn. rewrite Hmr. cbn. rewrite Hs, Hwr. cbn.
      match goal with |- context [ack_events fuel n ?y] => change y with x3 end. by rewrite Hack.
    + unfold working. cbn. by rewrite Hd.
    + cbn. lia.
    + rewrite <- (Ht x). unfold total. cbn. rewrite Hd, Ha, Hu, Hwq. rewrite <- !app_assoc. f_equal.
      rewrite (app_assoc a), <- Hp. by rewrite <- app_assoc.
    + left. by exists e.
  - destruct Ho as (-> & Hm1 & Hempty).
    set (x3 := State (fo x2) (set_should_commit (should_commit (lo x2) || false) (lo x2)) m (engine x2)).
    destruct (commit_works x3 q s2 now) as (fuel & x4 & q4 & s4 & Hc & Hw4 & Hn4 & Ht4 & Hwq & Huq); [done|cbn; lia|].
    exists fuel, x4, q4, s4. split_and!; try done.
    + unfold turn. rewrite (bind_returns _ _ _ _ _ E1), (bind_returns _ _ _ _ _ E2). cbn [fst snd].
      unfold forward_event, mbind, io_bind, gets, on_mux, modify_locals. rewrite Hr. cbn. rewrite Hmr. exact Hc.
    + by rewrite Ht4.
    + right. done.
Qed.

(** The turns that give everything to the stream. *)
Lemma turns_work n : forall x q s now, length (waiting q) = n -> working x q s -> _next_timeout (fo x) <= now ->
  exists k x' s', (k <= 2 * n + 1)%nat /\ turns k now x x' /\ working x' (Mk_queue [] []) s' /\ acked s' = total x q s.
Proof.
  induction n as [|n IH]; intros x q s now Hl Hw Hnow.
  - destruct (turn_works x q s now Hw Hnow) as (fuel & x' & q' & s' & Hx & Hw' & Hn' & Ht & [[e He]|(Hq & Hu & _)]); [by rewrite He in Hl|].
    exists 1%nat, x', s'. apply nil_length_inv in Hl. destruct q' as [u w]. cbn in Hq, Hu. subst u w. rewrite Hl in Hw'.
    split_and!; [lia| |done|]. { eapply turns_S; [apply Hw|done|constructor]. }
    rewrite <- Ht. unfold total. cbn. by rewrite Hl, app_nil_r.
  - assert (Hfwd : forall x q s now, length (waiting q) = Datatypes.S n -> working x q s -> _next_timeout (fo x) <= now -> unacked q = [] ->
      exists k x' s', (k <= 2 * n + 2)%nat /\ turns k now x x' /\ working x' (Mk_queue [] []) s' /\ acked s' = total x q s).
    { clear x q s now Hl Hw Hnow. intros x q s now Hl Hw Hnow Hu.
      destruct (turn_works x q s now Hw Hnow) as (fuel & x' & q' & s' & Hx & Hw' & Hn' & Ht & [[e He]|(_ & _ & [Hq|?])]); [|by rewrite Hq in Hl|done].
      rewrite He in Hl. cbn in Hl. destruct (IH x' q' s' (now + 1) ltac:(lia) Hw' Hn') as (k & x2 & s2 & Hk & Hr & Hw2 & Ha).
      exists (Datatypes.S k), x2, s2. split_and!; [lia| |done|by rewrite Ha]. eapply turns_S; [apply Hw|done..]. }
    destruct (turn_works x q s now Hw Hnow) as (fuel & x' & q' & s' & Hx & Hw' & Hn' & Ht & [[e He]|(Hq & Hu & _)]).
    + rewrite He in Hl. cbn in Hl. destruct (IH x' q' s' (now + 1) ltac:(lia) Hw' Hn') as (k & x2 & s2 & Hk & Hr & Hw2 & Ha).
      exists (Datatypes.S k), x2, s2. split_and!; [lia| |done|by rewrite Ha]. eapply turns_S; [apply Hw|done..].
    + rewrite <- Hq in Hl. destruct (Hfwd x' q' s' (now + 1) Hl Hw' Hn' Hu) as (k & x2 & s2 & Hk & Hr & Hw2 & Ha).
      exists (Datatypes.S k), x2, s2. split_and!; [lia| |done|by rewrite Ha]. eapply turns_S; [apply Hw|done..].
Qed.

(** C4. A stream that works gets everything: from a loop that works, with [n]
    events waiting, at most [2 n + 1] turns of the thread later nothing waits any
    more and the stream has acknowledged, in order, all that was waiting, even when
    the muxer holds events back until earlier ones are acknowledged. *)
Theorem working_stream_gets_all x q s now :
  working x q s -> _next_timeout (fo x) <= now ->
  exists k x' s', (k <= 2 * length (waiting q) + 1)%nat /\ turns k now x x'
    /\ working x' (Mk_queue [] []) s' /\ acked s' = acked s ++ unacked q ++ waiting q.
Proof. intros Hw Hn. exact (turns_work _ x q s now eq_refl Hw Hn). Qed.

End Working.

(** The steps of the thread alone, computed. *)
Definition advance (fuel : nat) (now : Z) (c : config) : option config :=
  match ph c with
  | Opening =>
    match connect (st c) with
    | (x, Returns _) => Some (Config Starting x (past c) (others c))
    | (x, Throws _) => Some (Config Sleeping (on_error x) (past c) (others c))
    | _ => None
    end
  | Starting => Some (Config Looping (fst (enter_loop (st c))) (past c) (others c))
  | Looping =>
    if _should_exit (fo (st c)) then Some (closed c Sleeping (st c) (with_fo (st c) (set_stream (fo (st c)) None)))
    else match turn fuel now (st c) with
         | (x, Returns _) => Some (Config Looping x (past c) (others c))
         | (x, Throws _) => Some (closed c Sleeping x (on_error x))
         | _ => None
         end
  | Sleeping => Some (Config (if _should_exit (fo (st c)) then Stopped else Opening) (st c) (past c) (others c))
  | Stopped => None
  end.

Lemma advance_step fuel now c c' : advance fuel now c = Some c' -> step c c'.
Proof.
  unfold advance. destruct (ph c) eqn:Hph; [..|done].
  - destruct (connect (st c)) as [x [[]|e|]] eqn:Hx; intros [= <-]; by econstructor.
  - intros [= <-]. apply step_start; [done|]. unfold enter_loop. by destruct (open_secondaries _).
  - destruct (_should_exit (fo (st c))) eqn:He; [intros [= <-]; by constructor|].
    destruct (turn fuel now (st c)) as [x [[]|e|]] eqn:Hx; intros [= <-]; by econstructor.
  - intros [= <-]. by constructor.
Qed.

Fixpoint advance_n (n : nat) (fuel : nat) (now : Z) (c : config) : option config :=
  match n with
  | O => Some c
  | Datatypes.S n => c ← advance fuel now c; advance_n n fuel (now + 1) c
  end.

Lemma advance_n_steps n fuel : forall now c c', advance_n n fuel now c = Some c' -> rtc step c c'.
Proof.
  induction n as [|n IH]; cbn; intros now c c'; [by intros [= <-]|].
  destruct (advance fuel now c) as [c1|] eqn:H1; [|done]. cbn. intros H2.
  eapply rtc_l; [by eapply advance_step|by eapply IH].
Qed.

End Failover.
#[global] Arguments failover : clear implicits.
#[global] Arguments locals : clear implicits.
#[global] Arguments state : clear implicits.
#[global] Arguments io : clear implicits.

(** ** The muxer of the program *)

Section Over_muxer.
Context {E F : Type} `{!Muxer.QueueFile E F} `{!Muxer.QueueFileLaws E F}.
Variable type_of : E -> Z.
Variable max : Z.
Hypothesis max_range : 0 <= max < 2 ^ 32.

(** No other thread publishes while the read waits: that is a step before or
    after it. *)
Definition muxer_events : EventMuxer E (Muxer.muxer (E := E) (F := F)) := {|
  mux_read m := let '(m, r) := Muxer.read m (fun m => (m, true)) in (m, Returns r);
  mux_write m e := Muxer.write type_of m (Some e);
  mux_ack fuel m n := Muxer.ack_events max fuel m n;
  mux_nack := Muxer.nack_events;
  mux_published m e m' := Muxer.step type_of max m (Muxer.Publish e) m'
|}.

Definition muxer_stands (m : Muxer.muxer (E := E) (F := F)) (q : queue (E := E)) : Prop :=
  exists l, Muxer.sound max m l /\ Muxer.abs m l = q.

Lemma muxer_read_queue (m : Muxer.muxer (E := E) (F := F)) q : muxer_stands m q ->
  exists m' b o, Muxer.read m (fun m => (m, true)) = (m', (b, o)) /\
    match o with
    | Some e => b = true /\ exists q', q_read q = Some (e, q') /\ muxer_stands m' q'
    | None => b = false /\ muxer_stands m' q /\ (waiting q = [] \/ unacked q <> [])
    end.
Proof.
  intros (l & [[again Hw] Hmem] & <-). destruct (Muxer.read m (fun m => (m, true))) as [m' [b o]] eqn:Hr.
  pose proof (Muxer.read_refines type_of max max_range m again l (fun m => (m, true)) m' b o) as Hrd. cbn [fst] in Hrd.
  replace (if bool_decide (Muxer._pos m = Muxer.End) then m else m) with m in Hrd by (by case_if).
  destruct (Hrd Hw Hr) as [Hw' Ho]. exists m', b, o. split; [done|].
  assert (Hk : Muxer._memory_file m' = Muxer._memory_file m).
  { revert Hr. unfold Muxer.read. case_bool_decide; cbn [negb]; [|by intros [= <- _ _]]. by intros [= <- _ _]. }
  destruct o as [e|].
  - destruct Ho as [-> Hq]. split; [done|]. eexists. split; [exact Hq|]. exists l. split; [|done].
    split; [by exists again|by rewrite Hk].
  - destruct Ho as [-> Hpos]. split.
    { revert Hr. unfold Muxer.read. rewrite !Hpos, bool_decide_eq_true_2 by done. cbn. congruence. }
    split; [exists l; split; [split; [by exists again|done]|done]|].
    destruct Hw as [[Hs Hb Hp _ _ _] [->|Hf]]; unfold Muxer.abs, Muxer.unacknowledged; rewrite Hpos; cbn [waiting unacked].
    + left. by rewrite drop_ge.
    + right. rewrite firstn_all. pose proof (Muxer.limit_range max max_range). intros E0. rewrite E0 in Hs. cbn in Hs. lia.
Qed.

(** With less fuel, the same result or none. *)
Lemma read_file_loop_fuel f1 : forall f2 (m : Muxer.muxer (E := E) (F := F)), (f1 <= f2)%nat ->
  snd (Muxer.read_file_loop f1 m) <> Diverges -> Muxer.read_file_loop f2 m = Muxer.read_file_loop f1 m.
Proof.
  induction f1 as [|f1 IH]; intros f2 m Hf Hd; [done|]. destruct f2 as [|f2]; [lia|]. cbn in *.
  destruct (Muxer.file_read _) as [f [[e|]|[]|]]; try done. apply IH; [lia|done].
Qed.

Lemma get_event_fuel f1 f2 (m : Muxer.muxer (E := E) (F := F)) : (f1 <= f2)%nat ->
  snd (Muxer._get_event_from_file f1 m) <> Diverges -> Muxer._get_event_from_file f2 m = Muxer._get_event_from_file f1 m.
Proof. unfold Muxer._get_event_from_file. case_if; [apply read_file_loop_fuel|done]. Qed.

Lemma refill_fuel f1 : forall f2 (m : Muxer.muxer (E := E) (F := F)), (f1 <= f2)%nat ->
  snd (Muxer.refill max f1 m) <> Diverges -> Muxer.refill max f2 m = Muxer.refill max f1 m.
Proof.
  induction f1 as [|f1 IH]; intros f2 m Hf Hd.
  - revert Hd. cbn. case_if; [done|]. intros _. destruct f2; cbn; by case_if.
  - destruct f2 as [|f2]; [lia|]. revert Hd. cbn [Muxer.refill]. case_if; [|done]. intros Hd.
    assert (Hg : snd (Muxer._get_event_from_file (S f1) m) <> Diverges).
    { intros Hg. destruct (Muxer._get_event_from_file (S f1) m) as [m1 r]. cbn in Hg. by subst r. }
    rewrite (get_event_fuel (S f1) (S f2)) by (done || lia).
    destruct (Muxer._get_event_from_file (S f1) m) as [m1 [[e|]|y|]]; try done. apply IH; [lia|done].
Qed.

Lemma ack_fuel f1 f2 (m : Muxer.muxer (E := E) (F := F)) n : (f1 <= f2)%nat ->
  snd (Muxer.ack_events max f1 m n) <> Diverges -> Muxer.ack_events max f2 m n = Muxer.ack_events max f1 m n.
Proof. unfold Muxer.ack_events. case_if; [done|]. apply refill_fuel. Qed.

Lemma muxer_ack_queue (m : Muxer.muxer (E := E) (F := F)) q n : muxer_stands m q -> 0 <= n ->
  exists enough m', muxer_stands m' (q_ack (Z.to_nat n) q)
  /\ forall fuel, (enough <= fuel)%nat -> Muxer.ack_events max fuel m n = (m', Returns tt).
Proof.
  intros (l & [[again Hw] Hmem] & <-) Hn.
  destruct (Muxer.ack_refines type_of max max_range (S (length l)) m again l n Hw Hn ltac:(lia)) as (m' & again' & l' & Ha & Hw' & Hq).
  exists (S (length l)), m'. split.
  - exists l'. split; [|done]. split; [by exists again'|]. revert Ha. unfold Muxer.ack_events.
    case_if; [by intros [= <-]|]. intros Ha%Muxer.refill_keeps. by rewrite Ha, Muxer.ack_loop_keeps.
  - intros fuel Hf. rewrite <- Ha. apply ack_fuel; [done|by rewrite Ha].
Qed.

Definition muxer_laws : @MuxerLaws E (Muxer.muxer (E := E) (F := F)) muxer_events.
Proof.
  refine (Build_MuxerLaws _ _ muxer_events muxer_stands _ _ _ _ _).
  - intros m q Hm. destruct (muxer_read_queue m q Hm) as (m' & b & o & Hr & Ho). exists m', b, o. split; [|done].
    cbn. by rewrite Hr.
  - intros m q n fuel m' r Hm Hn Hr. destruct (muxer_ack_queue m q n Hm Hn) as (enough & m2 & Hs & Hf). cbn in Hr.
    destruct (decide (r = Diverges)) as [|Hd]; [by left|right].
    destruct (decide (fuel <= enough)%nat).
    + assert (Hk := ack_fuel fuel enough m n ltac:(lia)). rewrite Hr in Hk. specialize (Hk Hd). rewrite (Hf enough) in Hk by lia.
      by injection Hk as <- <-.
    + rewrite (Hf fuel) in Hr by lia. by injection Hr as <- <-.
  - intros m q n Hm Hn. destruct (muxer_ack_queue m q n Hm Hn) as (enough & m2 & Hs & Hf). exists enough.
    intros fuel Hle. cbn. by rewrite (Hf fuel Hle).
  - intros m q (l & [[again Hw] Hmem] & <-). destruct (Muxer.nack_refines type_of max max_range m again l Hw) as [Hw' Ha]. exists l.
    split; [|done]. split; [by exists again|done].
  - intros m q e m' (l & Hs & <-) Hp. destruct (Muxer.step_refines type_of max max_range _ _ _ _ Hs Hp) as (l' & Hs' & Hq).
    exists l'. split; [done|]. remember (Muxer.abs m l) as q0. remember (Muxer.abs m' l') as q1. clear - Hq. by inversion Hq.
Defined.

End Over_muxer.

(** ** A stream that follows a script *)

(** How many events each write acknowledges, None for a failure. A flush
    acknowledges everything, unless a failure comes. *)
Record scripted : Type := Scripted { s_acked : list Z; s_pending : list Z; script : list (option nat) }.

Definition s_ack (n : nat) (pending : list Z) (s : scripted) (script : list (option nat)) : scripted * outcome Z :=
  (Scripted (s_acked s ++ take n pending) (drop n pending) script, Returns (Z.of_nat (length (take n pending)))).

#[export] Instance scripted_stream : Stream Z scripted := {|
  st_read s _ := (s, (None, Returns false));
  st_write s e :=
    match script s with
    | None :: _ => (s, Throws Exn_msg)
    | Some n :: l => s_ack n (s_pending s ++ [e]) s l
    | [] => s_ack 0 (s_pending s ++ [e]) s []
    end;
  st_flush s :=
    match script s with
    | None :: _ => (s, Throws Exn_msg)
    | l => s_ack (length (s_pending s)) (s_pending s) s l
    end;
  st_update s := (s, Returns tt)
|}.

Lemma s_ack_acks n pending s l s' k : s_ack n pending s l = (s', Returns k) ->
  0 <= k /\ exists a, s_acked s' = s_acked s ++ a /\ pending = a ++ s_pending s' /\ length a = Z.to_nat k.
Proof.
  intros [= <- <-]. split; [lia|]. exists (take n pending). cbn. rewrite take_drop. split_and!; [done..|lia].
Qed.

#[export] Instance scripted_laws : StreamLaws Z scripted.
Proof.
  refine {| acked := s_acked; pending := s_pending |}; cbn.
  - intros s e s' n. destruct (script s) as [|[k|] l]; [apply s_ack_acks|apply s_ack_acks|done].
  - intros s e s' x. destruct (script s) as [|[k|] l]; [done|done|]. by intros [= <- <-].
  - intros s s' n. destruct (script s) as [|[k|] l]; [apply s_ack_acks|apply s_ack_acks|done].
  - intros s s' x. destruct (script s) as [|[k|] l]; [done|done|]. by intros [= <- <-].
  - by intros s d s' r [= <- <-].
  - by intros s s' r [= <- <-].
Defined.

(** Its endpoint: the scripts of the streams to open, None when opening fails. *)
#[export] Instance scripted_endpoint : Endpoint scripted (list (option (list (option nat)))) := {|
  ep_open p :=
    match p with
    | Some l :: p => (p, Returns (Some (Scripted [] [] l)))
    | None :: p => (p, Throws Exn_msg)
    | [] => ([], Returns None)
    end;
  ep_is_ready _ := false
|}.

#[export] Instance scripted_endpoint_laws : EndpointLaws Z scripted (list (option (list (option nat)))).
Proof. intros p p' s. cbn. destruct p as [|[l|] p]; [done| |done]. by intros [= <- <-]. Qed.

Definition demo_muxer_events : EventMuxer Z Muxer.demo_muxer := muxer_events (fun _ => 0) 2.
#[export] Existing Instance demo_muxer_events.
#[export] Instance demo_muxer_laws : MuxerLaws Z Muxer.demo_muxer := muxer_laws (fun _ => 0) 2 Muxer.demo_range.

Definition demo_state (p : list (option (list (option nat)))) (m : Muxer.demo_muxer) : state Z scripted _ _ :=
  State (new_failover (Some p)) (Locals true true false []) m [].

(** Three events wait, the third one in the retention file. The first attempt to
    open fails; the first stream fails at its second write. *)
Definition demo_config := Config Opening (demo_state [None; Some [Some 0%nat; None]; Some [Some 0%nat; Some 2%nat]] Muxer.demo3) [] [].
Definition demo_end := default demo_config (advance_n 15 9 100 demo_config).

Lemma demo_starts : starts [1; 2; 3] demo_config.
Proof.
  split_and!; try done. exists (Muxer.abs Muxer.demo3 [Some 3]). split; [|reflexivity].
  change (muxer_stands 2 Muxer.demo3 (Muxer.abs Muxer.demo3 [Some 3])). exists [Some 3]. split; [|reflexivity].
  split; [exists []; exact Muxer.demo3_wf|reflexivity].
Defined.

Lemma no_event_lost_witness :
  (starts [1; 2; 3] demo_config /\ no_backup (st demo_config) /\ rtc step demo_config demo_end) /\
  exists q, stands (mux (st demo_end)) q /\
    past demo_end ++ stream_acked (st demo_end) ++ unacked q ++ waiting q = [1; 2; 3] ++ others demo_end.
Proof.
  assert (H : rtc step demo_config demo_end) by (apply (advance_n_steps 15 9 100); vm_compute; reflexivity).
  split; [split; [exact demo_starts|split; [reflexivity|exact H]]|]. exact (no_event_lost [1; 2; 3] demo_config demo_end demo_starts eq_refl H).
Defined.

(** And all three are acknowledged in the end. *)
Example demo_end_acked : stream_acked (st demo_end) = [1; 2; 3] /\ Muxer._events (mux (st demo_end)) = [].
Proof. split; vm_compute; reflexivity. Qed.

Definition demo_queue : queue (E := Z) := Muxer.abs (F := Muxer.list_file_state (E := Z)) Muxer.demo3 [Some 3].

(** A stream that works, in the loop. *)
Definition able (s : scripted) : Prop := script s = [].

Definition demo_working : state Z scripted _ _ :=
  fst (enter_loop (fst (connect (demo_state [Some []] Muxer.demo3)))).

Lemma working_stream_gets_all_witness :
  (working able demo_working demo_queue (Scripted [] [] []) /\ _next_timeout (fo demo_working) <= 100) /\
  exists k x' s', (k <= 2 * length (waiting demo_queue) + 1)%nat /\ turns k 100 demo_working x'
    /\ working able x' (Mk_queue [] []) s'
    /\ acked s' = acked (Scripted [] [] []) ++ unacked demo_queue ++ waiting demo_queue.
Proof.
  assert (H : working able demo_working demo_queue (Scripted [] [] [])).
  { split_and!; try reflexivity. exists [Some 3]. split; [|reflexivity]. split; [exists []; exact Muxer.demo3_wf|reflexivity]. }
  split; [split; [exact H|by apply Z.leb_le]|].
  apply (working_stream_gets_all able); [by intros s Hs; exists s|by intros s Hs; exists s| | |exact H|by apply Z.leb_le].
  - intros s e Hs. unfold able in Hs. cbn. rewrite Hs. by eexists _, _.
  - intros s Hs. unfold able in Hs. cbn. rewrite Hs. eexists _, _. split; [done|]. split; [done|]. cbn. by rewrite drop_ge.
Defined.

(** ** A backup on the same muxer

    The thread of a backup shares the muxer of the thread that started it, which
    goes on trying to open its endpoint: each failure offers the events that the
    backup has not acknowledged again, while its stream still has the first copies
    to acknowledge. *)

Definition turn_at (now : Z) (x : state Z scripted (list (option (list (option nat)))) Muxer.demo_muxer) := fst (turn 9 now x).

Definition three_waiting : Muxer.demo_muxer :=
  Muxer.demo_publish 5 (Muxer.demo_publish 5 (Muxer.demo_publish 5 Muxer.demo 1) 2) 3.

(** The backup has written two events; the primary fails to open; the backup
    writes three; its stream acknowledges the first four and fails. *)
Definition backup_written := turn_at 1 (turn_at 0 (fst (enter_loop (fst (connect
  (demo_state [Some [Some 0; Some 0; Some 0; Some 0; Some 4; None]%nat] three_waiting)))))).
Definition primary_failed := on_error (fst (connect (demo_state [] (mux backup_written)))).
Definition backup_went_on := turn_at 4 (turn_at 3 (turn_at 2 (with_mux backup_written (mux primary_failed)))).

(** The third event was not acknowledged by the stream, and is no longer in the
    muxer: it is lost when the stream fails, in the next turn. *)
Example shared_backup_loses :
  stream_acked backup_went_on = [1; 2; 1; 2] /\ Muxer._events (mux backup_went_on) = []
  /\ snd (turn 9 5 backup_went_on) = Throws Exn_msg.
Proof. split_and!; vm_compute; reflexivity. Qed.

(** A write that throws shutdown ends the forwarding for as long as the loop runs:
    no turn gives an event to the stream any more, and no error makes the thread
    open its endpoint again. *)
Lemma shutdown_stops_forwarding {E S P M : Type} `{!Stream E S} `{!Endpoint S P} `{!EventMuxer E M}
    fuel (x : state E S P M) :
  muxer_can_read (lo x) = false -> forward_event fuel x = (x, Returns true).
Proof. intros H. unfold forward_event, mbind, io_bind, gets. by rewrite H. Qed.

End Failover.
