(* ===== verification/Feeder.v ===== *)
(** * Feeders and acceptors (core/src/processing/feeder.cc, acceptor.cc)

    The thread of a client that connected to an acceptor: it gives the events of
    the client to the engine, and those of its muxer to the client, acknowledged
    at once. The acceptor keeps a feeder for each client. *)

From Stdlib Require Import ZArith Lia ZifyNat ZifyBool.
From stdpp Require Import base option list numbers strings gmap sets.
From S2P Require Import Prelude Double Muxer Failover.
Import Muxer (queue, Mk_queue, unacked, waiting, q_publish, q_read, q_ack, q_nack).
Import Failover.

Module Feeder.

Inductive thread_state : Type := stopped | running | finished.

#[global] Instance thread_state_eq_dec : EqDecision thread_state.
Proof. solve_decision. Defined.

Section Feeder.
Context {E S M : Type} `{!Stream E S} `{!EventMuxer E M}.

(** The thread's object, and the variables of its loop; [d] is the variable that
    receives the events. [engine]: the events given to the engine. *)
Record feeder : Type := Mk_feeder {
  _state : thread_state;
  _should_exit : bool;
  _client : option S;
  _muxer : M;
  stream_can_read : bool;
  muxer_can_read : bool;
  d : option E;
  engine : list E
}.

(** The constructor, once the thread runs. *)
Definition new_feeder (client : option S) (m : M) : outcome feeder :=
  match client with
  | None => Throws Exn_msg
  | Some s => Returns (Mk_feeder running false (Some s) m true true None [])
  end.

Definition is_finished (f : feeder) : bool := bool_decide (_state f = finished) && _should_exit f.

Definition with_d (f : feeder) (o : option E) : feeder :=
  Mk_feeder (_state f) (_should_exit f) (_client f) (_muxer f) (stream_can_read f) (muxer_can_read f) o (engine f).
Definition with_client (f : feeder) (s : option S) : feeder :=
  Mk_feeder (_state f) (_should_exit f) s (_muxer f) (stream_can_read f) (muxer_can_read f) (d f) (engine f).
Definition with_muxer (f : feeder) (m : M) : feeder :=
  Mk_feeder (_state f) (_should_exit f) (_client f) m (stream_can_read f) (muxer_can_read f) (d f) (engine f).
Definition with_can_read (f : feeder) (stream muxer : bool) : feeder :=
  Mk_feeder (_state f) (_should_exit f) (_client f) (_muxer f) stream muxer (d f) (engine f).
Definition with_state (f : feeder) (st : thread_state) (exit : bool) : feeder :=
  Mk_feeder st exit (_client f) (_muxer f) (stream_can_read f) (muxer_can_read f) (d f) (engine f).

(** The engine gets the event, if it passes the filters of the muxer. *)
Definition give_engine (f : feeder) (e : E) : feeder :=
  Mk_feeder (_state f) (_should_exit f) (_client f) (_muxer f) (stream_can_read f) (muxer_can_read f) (d f)
    (engine f ++ option_list (mux_write (_muxer f) e)).

(** Reading the client [s]: into [d] as it is. *)
Definition read_client (f : feeder) (s : S) : feeder * outcome unit :=
  if stream_can_read f then
    let '(s, (o, r)) := st_read s (d f) in
    let f := with_client (with_d f o) (Some s) in
    match r with
    | Returns _ => (f, Returns tt)
    | Throws Exn_shutdown => (with_can_read f false (muxer_can_read f), Returns tt)
    | Throws e => (f, Throws e)
    | Diverges => (f, Diverges)
    end
  else (f, Returns tt).

(** Reading the muxer. *)
Definition read_muxer (f : feeder) : feeder * outcome unit :=
  let f := with_d f None in
  if muxer_can_read f then
    match mux_read (_muxer f) with
    | (m, Returns (_, o)) => (with_d (with_muxer f m) o, Returns tt)
    | (m, Throws Exn_shutdown) => (with_can_read (with_muxer f m) (stream_can_read f) false, Returns tt)
    | (m, Throws e) => (with_muxer f m, Throws e)
    | (m, Diverges) => (with_muxer f m, Diverges)
    end
  else (f, Returns tt).

(** The event is written to the client and acknowledged, whatever the client
    tells. *)
Definition write_client (fuel : nat) (f : feeder) (s : S) (e : E) : feeder * outcome unit :=
  match st_write s e with
  | (s, Returns _) => let '(m, r) := mux_ack fuel (_muxer f) 1 in (with_muxer (with_client f (Some s)) m, r)
  | (s, Throws x) => (with_client f (Some s), Throws x)
  | (s, Diverges) => (with_client f (Some s), Diverges)
  end.

(** A turn of the loop. *)
Definition turn (fuel : nat) (f : feeder) : feeder * outcome unit :=
  match _client f with
  | None => (f, Diverges)
  | Some s =>
    match read_client f s with
    | (f1, Returns _) =>
      match (if stream_can_read f then d f1 else None) with
      | Some e => (give_engine f1 e, Returns tt)
      | None =>
        match read_muxer f1 with
        | (f2, Returns _) =>
          match d f2, _client f2 with
          | Some e, Some s =>
            match write_client fuel f2 s e with
            | (f3, Returns _) => (with_d f3 None, Returns tt)
            | r => r
            end
          | _, _ => (with_d f2 None, Returns tt)
          end
        | r => r
        end
      end
    | r => r
    end
  end.

(** After the loop, ended by a request or by any exception; the queue files of the
    muxer are removed then. *)
Definition finish (f : feeder) : feeder := with_client (with_state f finished true) None.

(** The destructor, until the thread is joined: a running thread is asked to exit
    and waited for. *)
Definition request_exit (f : feeder) : feeder :=
  match _state f with
  | stopped => with_state f finished (_should_exit f)
  | running => with_state f running true
  | finished => f
  end.

(** ** The events of the muxer *)

Context `{!StreamLaws E S} `{!MuxerLaws E M}.

(** With the engine that publishes; [others], what it published. *)
Inductive step : feeder * list E -> feeder * list E -> Prop :=
  | step_publish f l e m : mux_published (_muxer f) e m -> step (f, l) (with_muxer f m, l ++ [e])
  | step_exit f l : step (f, l) (request_exit f, l)
  | step_turn f l fuel f' : _state f = running -> _should_exit f = false -> turn fuel f = (f', Returns tt) -> step (f, l) (f', l)
  | step_fails f l fuel f' e : _state f = running -> _should_exit f = false -> turn fuel f = (f', Throws e) -> step (f, l) (finish f', l)
  | step_leave f l : _state f = running -> _should_exit f = true -> step (f, l) (finish f, l).

(** What the client was given. *)
Definition given (s : S) : list E := acked s ++ pending s.

Lemma client_write_given s e s' n : st_write s e = (s', Returns n) -> given s' = given s ++ [e].
Proof.
  intros Hw. destruct (st_write_acks _ _ _ _ Hw) as (_ & a & Ha & Hp & _). unfold given. rewrite Ha, <- !app_assoc.
  f_equal. by rewrite Hp.
Qed.

(** While the thread runs, the client was given all the events that the muxer no
    longer has, once and in order; none is remembered. *)
Definition inv (all : list E) (f : feeder) : Prop :=
  _state f = running -> exists q s, stands (_muxer f) q /\ _client f = Some s /\ unacked q = []
    /\ given s ++ waiting q = all.

Definition same_but_d (f f' : feeder) : Prop :=
  _state f' = _state f /\ _muxer f' = _muxer f /\
  forall s, _client f = Some s -> exists s', _client f' = Some s' /\ given s' = given s.

Lemma read_client_keeps f s f' r : _client f = Some s -> read_client f s = (f', r) -> same_but_d f f'.
Proof.
  intros Hs. unfold read_client. case_if; [|intros [= <- <-]; split_and!; [done..|by intros s' ?; exists s']].
  destruct (st_read s (d f)) as [s1 [o r1]] eqn:Hr. destruct (st_read_keeps _ _ _ _ Hr) as [Ha Hp].
  assert (same_but_d f (with_client (with_d f o) (Some s1))).
  { split_and!; [done..|]. intros s' Hs'. exists s1. rewrite Hs in Hs'. injection Hs' as <-. unfold given. by rewrite Ha, Hp. }
  destruct r1 as [b|[]|]; intros [= <- <-]; try done.
Qed.

Lemma turn_inv all fuel f f' : inv all f -> turn fuel f = (f', Returns tt) -> inv all f'.
Proof.
  intros Hi. unfold turn. destruct (_client f) as [s|] eqn:Hs; [|done].
  destruct (read_client f s) as [f1 r1] eqn:H1. destruct (read_client_keeps _ _ _ _ Hs H1) as (Hst & Hm & Hc).
  assert (Hi1 : inv all f1).
  { intros Hr. rewrite Hst in Hr. destruct (Hi Hr) as (q & s0 & Hq & Hs0 & Hu & Ha). destruct (Hc _ Hs0) as (s' & Hs' & Hg).
    exists q, s'. by rewrite Hm, Hg. }
  clear Hi Hs H1 Hst Hm Hc. destruct r1 as [[]|e|]; [|done..].
  destruct (if stream_can_read f then d f1 else None) as [e|]; [by intros [= <-]|].
  unfold read_muxer. cbn [muxer_can_read with_d]. destruct (muxer_can_read f1); [|by intros [= <-]].
  destruct (decide (_state f1 = running)) as [Hr|Hr].
  2:{ assert (Hk : forall g, _state g = _state f1 -> inv all g) by (intros g Hg ?; congruence).
      destruct (mux_read _) as [m [[b o]|[]|]]; try done; cbn.
      - destruct o as [e|]; [|by intros [= <-]; apply Hk]. destruct (_client f1); [|by intros [= <-]; apply Hk].
        unfold write_client. cbn. destruct (st_write s0 e) as [s1 [n|x|]]; try done.
        destruct (mux_ack fuel m 1) as [m1 [[]|x|]]; try done. intros [= <-]. by apply Hk.
      - intros [= <-]. by apply Hk. }
  destruct (Hi1 Hr) as (q & s1 & Hq & Hs1 & Hu & Ha). destruct (mux_read_queue _ _ Hq) as (m & b & o & Hm & Ho). cbn [_muxer with_d].
  rewrite Hm. cbn. destruct o as [e|].
  - destruct Ho as (_ & q' & Hq' & Hm'). rewrite Hs1. unfold write_client. cbn.
    destruct (st_write s1 e) as [s2 [n|x|]] eqn:Hw; try done.
    destruct (mux_ack fuel m 1) as [m1 r] eqn:Hk. destruct (mux_ack_queue _ _ 1 _ _ _ Hm' ltac:(lia) Hk) as [->|[-> Hm1]]; [done|].
    intros [= <-]. intros _. destruct (q_read_Some _ _ _ Hq') as [Hwq Huq].
    exists (q_ack (Z.to_nat 1) q'), s2. cbn. split_and!; try done; [by rewrite Huq, Hu|].
    rewrite (client_write_given _ _ _ _ Hw), <- Ha, Hwq, <- app_assoc. done.
  - intros [= <-]. intros _. destruct Ho as (_ & Hm' & _). by exists q, s1.
Qed.

Lemma feeder_step_inv initial x y : inv (initial ++ snd x) (fst x) -> step x y -> inv (initial ++ snd y) (fst y).
Proof.
  intros Hi Hs. destruct Hs as [f l e m Hp|f l|f l fuel f' _ _ Ht|f l fuel f' e _ _ Ht|f l _ _]; cbn [fst snd] in *; try done.
  - intros Hr. destruct (Hi Hr) as (q & s & Hq & Hs & Hu & Ha). exists (q_publish q e), s. cbn.
    split_and!; try done; [by eapply mux_published_queue|]. by rewrite !app_assoc, Ha.
  - unfold request_exit. destruct (_state f) eqn:Hst; [done| |done]. intros _. exact (Hi Hst).
  - by eapply turn_inv.
Qed.

Lemma client_gets_each_once_spec (initial : list E) f f' l : inv initial f -> rtc step (f, []) (f', l) -> _state f' = running ->
  exists q s, stands (_muxer f') q /\ _client f' = Some s /\ unacked q = [] /\ given s ++ waiting q = initial ++ l.
Proof.
  intros Hi Hr. assert (H : forall x y, rtc step x y -> inv (initial ++ snd x) (fst x) -> inv (initial ++ snd y) (fst y)).
  { induction 1; [done|]. eauto using feeder_step_inv. }
  apply (H _ _ Hr). cbn. by rewrite app_nil_r.
Qed.

(** C16. While its thread runs, a client was given, in order and each once, all the
    events published that its muxer no longer holds; the muxer forgets an event as
    soon as the client got it, whatever the client acknowledges. *)
Theorem client_gets_each_once (initial : list E) f f' l : inv initial f -> rtc step (f, []) (f', l) -> _state f' = running ->
  exists q s, stands (_muxer f') q /\ _client f' = Some s /\ unacked q = [] /\ given s ++ waiting q = initial ++ l.
Proof. exact (client_gets_each_once_spec initial f f' l). Qed.

(** ** Acceptors *)

Section Acceptor.
Context {P : Type} `{!Endpoint S P}.
(** subscriber(name, false), with its read and write filters. *)
Variable subscribe : cstring -> gset Z -> gset Z -> M.

Record acceptor : Type := Mk_acceptor {
  a_name : cstring;
  a_state : thread_state;
  a_should_exit : bool;
  _endp : P;
  _read_filters : gset Z;
  _write_filters : gset Z;
  a_retry_interval : Z;
  _listening : bool;
  (** Each one with its name. *)
  _feeders : list (cstring * feeder)
}.

Definition new_acceptor (endp : P) (name : cstring) : acceptor := Mk_acceptor name stopped false endp ∅ ∅ 30 false [].

Definition set_read_filters (a : acceptor) (filters : gset Z) : acceptor :=
  Mk_acceptor (a_name a) (a_state a) (a_should_exit a) (_endp a) filters (_write_filters a) (a_retry_interval a) (_listening a) (_feeders a).
Definition set_write_filters (a : acceptor) (filters : gset Z) : acceptor :=
  Mk_acceptor (a_name a) (a_state a) (a_should_exit a) (_endp a) (_read_filters a) filters (a_retry_interval a) (_listening a) (_feeders a).
Definition set_retry_interval (a : acceptor) (retry_interval : Z) : acceptor :=
  Mk_acceptor (a_name a) (a_state a) (a_should_exit a) (_endp a) (_read_filters a) (_write_filters a) retry_interval (_listening a) (_feeders a).
Definition _set_listening (a : acceptor) (listening : bool) : acceptor :=
  Mk_acceptor (a_name a) (a_state a) (a_should_exit a) (_endp a) (_read_filters a) (_write_filters a) (a_retry_interval a) listening (_feeders a).
Definition with_feeders (a : acceptor) (p : P) (l : list (cstring * feeder)) : acceptor :=
  Mk_acceptor (a_name a) (a_state a) (a_should_exit a) p (_read_filters a) (_write_filters a) (a_retry_interval a) (_listening a) l.

Definition start (a : acceptor) : acceptor :=
  match a_state a with
  | stopped => Mk_acceptor (a_name a) running false (_endp a) (_read_filters a) (_write_filters a) (a_retry_interval a) (_listening a) (_feeders a)
  | _ => a
  end.

(** A thread that runs is asked to exit and waited for. *)
Definition exit (a : acceptor) : acceptor :=
  match a_state a with
  | stopped => Mk_acceptor (a_name a) finished (a_should_exit a) (_endp a) (_read_filters a) (_write_filters a) (a_retry_interval a) (_listening a) (_feeders a)
  | running => Mk_acceptor (a_name a) running true (_endp a) (_read_filters a) (_write_filters a) (a_retry_interval a) (_listening a) (_feeders a)
  | finished => a
  end.

(** [connection_id] is a static variable, shared by all acceptors. *)
Definition accept (connection_id : Z) (a : acceptor) : Z * acceptor * outcome unit :=
  match ep_open (_endp a) with
  | (p, Returns (Some s)) =>
    let connection_id := u32 (connection_id + 1) in
    let name := a_name a ++ str "-" ++ Dbl.dec connection_id in
    let m := subscribe name (_read_filters a) (_write_filters a) in
    (connection_id,
     with_feeders a p (_feeders a ++ [(name, Mk_feeder running false (Some s) m true true None [])]), Returns tt)
  | (p, Returns None) => (connection_id, with_feeders a p (_feeders a), Returns tt)
  | (p, Throws e) => (connection_id, with_feeders a p (_feeders a), Throws e)
  | (p, Diverges) => (connection_id, with_feeders a p (_feeders a), Diverges)
  end.

(** The feeders whose thread ended are dropped. *)
Definition check_terminated (a : acceptor) : acceptor :=
  with_feeders a (_endp a) (List.filter (fun '(_, f) => negb (is_finished f)) (_feeders a)).

(** A turn of the loop; what the feeders did while the acceptor waited, after an
    error, is [meanwhile]. None: the endpoint does not return. *)
Definition acceptor_turn (meanwhile : list (cstring * feeder) -> list (cstring * feeder)) (connection_id : Z) (a : acceptor)
    : option (Z * acceptor) :=
  match accept connection_id (_set_listening a true) with
  | (id, a, Returns _) => Some (id, check_terminated a)
  | (id, a, Throws _) =>
    let a := _set_listening a false in
    Some (id, check_terminated (with_feeders a (_endp a) (meanwhile (_feeders a))))
  | (_, _, Diverges) => None
  end.

(** The end of the thread. *)
Definition acceptor_end (a : acceptor) : acceptor :=
  let a := _set_listening a false in
  Mk_acceptor (a_name a) finished (a_should_exit a) (_endp a) (_read_filters a) (_write_filters a) (a_retry_interval a) (_listening a) (_feeders a).

(** A feeder that ended is dropped by the next turn, and no other one. *)
Lemma check_terminated_spec (a : acceptor) x :
  x ∈ _feeders (check_terminated a) <-> x ∈ _feeders a /\ is_finished (snd x) = false.
Proof.
  cbn. rewrite !list_elem_of_In, filter_In. destruct x as [n f]. cbn. by rewrite negb_true_iff.
Qed.

End Acceptor.

End Feeder.

(** ** An example: a client gets three events *)

Abbreviation demo_type := (feeder (E := Z) (S := scripted) (M := Muxer.demo_muxer)).
Definition demo_feeder : demo_type := Mk_feeder running false (Some (Scripted [] [] [])) Muxer.demo3 true true None [].

Definition demo_turn (f : demo_type) : demo_type := fst (turn 9 f).

Lemma client_gets_each_once_witness :
  (inv [1; 2; 3] demo_feeder /\ rtc step (demo_feeder, []) (demo_turn (demo_turn demo_feeder), [])
   /\ _state (demo_turn (demo_turn demo_feeder)) = running) /\
  exists q s, stands (_muxer (demo_turn (demo_turn demo_feeder))) q /\ _client (demo_turn (demo_turn demo_feeder)) = Some s
    /\ unacked q = [] /\ given s ++ waiting q = [1; 2; 3] ++ [].
Proof.
  assert (Hi : inv [1; 2; 3] demo_feeder).
  { intros _. exists demo_queue, (Scripted [] [] []). split_and!; try reflexivity.
    change (muxer_stands 2 Muxer.demo3 demo_queue). exists [Some 3]. split; [|reflexivity]. split; [exists []; exact Muxer.demo3_wf|reflexivity]. }
  assert (Hr : rtc step (demo_feeder, []) (demo_turn (demo_turn demo_feeder), [])).
  { eapply rtc_l; [apply (step_turn _ _ 9); vm_compute; reflexivity|]. eapply rtc_l; [apply (step_turn _ _ 9); vm_compute; reflexivity|].
    apply rtc_refl. }
  assert (Hs : _state (demo_turn (demo_turn demo_feeder)) = running) by (vm_compute; reflexivity).
  split; [split_and!; [exact Hi|exact Hr|exact Hs]|]. exact (client_gets_each_once [1; 2; 3] _ _ [] Hi Hr Hs).
Defined.

(** The client acknowledged nothing: were the connection lost now, the two events
    would not be sent again. *)
Example acknowledged_at_once :
  from_option acked [] (_client (demo_turn (demo_turn demo_feeder))) = []
  /\ Muxer._events (_muxer (demo_turn (demo_turn demo_feeder))) = [3].
Proof. split; vm_compute; reflexivity. Qed.

End Feeder.
