(* ===== verification/Endpoints.v ===== *)
(** * Endpoints of a configuration (core/src/config/endpoint.cc,
    config/applier/endpoint.cc)

    The configuration of the endpoints, its order, which is that of the keys of
    the running endpoints, and the applier: what is stopped, kept and created when
    a configuration replaces another. The theorems show that the order is a total
    order, and that after a configuration was applied exactly its root endpoints
    run. *)

From Stdlib Require Import ZArith Lia ZifyNat ZifyBool Strings.Byte.
From stdpp Require Import base option list numbers strings gmap sets sorting.
From S2P Require Import Prelude Events.

Module Endpoints.

(** ** Orders *)

(** The < of the members, where a member that is different decides. *)
Class Order (A : Type) : Type := lt : A -> A -> bool.

Class OrderLaws (A : Type) `{!Order A} : Prop := {
  lt_irrefl a : lt a a = false;
  lt_trans a b c : lt a b = true -> lt b c = true -> lt a c = true;
  lt_total a b : lt a b = false -> lt b a = false -> a = b
}.

#[export] Instance Z_order : Order Z := Z.ltb.
#[export] Instance bool_order : Order bool := fun a b => negb a && b.
#[export] Instance byte_order : Order byte := fun a b => Z_of_byte a <? Z_of_byte b.

(** Lists, strings among them, in lexicographic order. *)
#[export] Instance list_order {A} `{!EqDecision A} `{!Order A} : Order (list A) :=
  fix go l1 l2 :=
    match l1, l2 with
    | _, [] => false
    | [], _ :: _ => true
    | a :: l1, b :: l2 => if bool_decide (a = b) then go l1 l2 else lt a b
    end.

#[export] Instance pair_order {A B} `{!EqDecision A} `{!Order A} `{!Order B} : Order (A * B) :=
  fun p q => if bool_decide (p.1 = q.1) then lt p.2 q.2 else lt p.1 q.1.

#[export] Instance Z_order_laws : OrderLaws Z.
Proof. unfold Z_order. split; unfold lt; lia. Qed.
#[export] Instance bool_order_laws : OrderLaws bool.
Proof. split; unfold lt, bool_order; [by intros []|by intros [] [] []|by intros [] []]. Qed.
#[export] Instance byte_order_laws : OrderLaws byte.
Proof.
  split; unfold lt, byte_order; [lia..|]. intros a b H1 H2. apply Z_of_byte_inj. lia.
Qed.

#[export] Instance pair_order_laws {A B} `{!EqDecision A} `{!Order A} `{!Order B} `{!OrderLaws A} `{!OrderLaws B} : OrderLaws (A * B).
Proof.
  split; unfold lt, pair_order.
  - intros [a b]. cbn. rewrite bool_decide_eq_true_2 by done. apply lt_irrefl.
  - intros [a1 b1] [a2 b2] [a3 b3]. cbn. repeat case_bool_decide; subst; try done; eauto using lt_trans.
    intros H1 H2. pose proof (lt_trans _ _ _ H1 H2) as H3. by rewrite lt_irrefl in H3.
  - intros [a1 b1] [a2 b2]. cbn. repeat case_bool_decide; subst; try done; intros H1 H2; f_equal; eauto using lt_total.
    by pose proof (lt_total _ _ H1 H2).
Qed.

#[export] Instance list_order_laws {A} `{!EqDecision A} `{!Order A} `{!OrderLaws A} : OrderLaws (list A).
Proof.
  split; unfold lt.
  - induction a as [|a l IH]; cbn; [done|]. by rewrite bool_decide_eq_true_2.
  - induction a as [|a l1 IH]; intros [|b l2] [|c l3]; cbn; try done.
    repeat case_bool_decide; subst; try done; eauto using lt_trans.
    intros H1 H2. pose proof (lt_trans _ _ _ H1 H2) as H3. by rewrite lt_irrefl in H3.
  - induction a as [|a l1 IH]; intros [|b l2]; cbn; try done.
    repeat case_bool_decide; subst; try done; intros H1 H2; [f_equal; by apply IH|].
    by pose proof (lt_total _ _ H1 H2).
Qed.

(** ** The configuration of an endpoint *)

Inductive io_type : Type := input | output.

#[export] Instance io_type_eq_dec : EqDecision io_type.
Proof. solve_decision. Defined.

Section Endpoints.
(** json11::Json, with its order. *)
Context {Json : Type} `{!EqDecision Json} `{!Order Json}.

(** A std::set or std::map is the list of its elements, in order. *)
Record endpoint : Type := Endpoint {
  _type : io_type;
  buffering_timeout : Z;
  failovers : list cstring;
  name : cstring;
  params : list (cstring * cstring);
  read_filters : list cstring;
  read_timeout : Z;
  retry_interval : Z;
  type : cstring;
  write_filters : list cstring;
  cache_enabled : bool;
  cfg : Json
}.

Definition new_endpoint (way : io_type) (null : Json) : endpoint :=
  Endpoint way 0 [] [] [] [] (-1) 30 [] [] false null.

#[export] Instance endpoint_eq_dec : EqDecision endpoint.
Proof. solve_decision. Defined.

(** operator==; the direction is not compared. *)
Definition endpoint_eqb (e other : endpoint) : bool :=
  bool_decide (type e = type other) && (buffering_timeout e =? buffering_timeout other)
  && (read_timeout e =? read_timeout other) && (retry_interval e =? retry_interval other)
  && bool_decide (name e = name other) && bool_decide (failovers e = failovers other)
  && bool_decide (read_filters e = read_filters other) && bool_decide (write_filters e = write_filters other)
  && bool_decide (params e = params other) && bool_decide (cache_enabled e = cache_enabled other)
  && bool_decide (cfg e = cfg other).

(** The parameters are compared at last, one by one. *)
Fixpoint params_lt (p1 p2 : list (cstring * cstring)) : bool :=
  match p1, p2 with
  | (k1, v1) :: p1, (k2, v2) :: p2 =>
    if negb (bool_decide (k1 = k2)) then lt k1 k2
    else if negb (bool_decide (v1 = v2)) then lt v1 v2
    else params_lt p1 p2
  | [], _ :: _ => true
  | _, _ => false
  end.

Definition endpoint_lt (e other : endpoint) : bool :=
  if negb (bool_decide (type e = type other)) then lt (type e) (type other)
  else if negb (buffering_timeout e =? buffering_timeout other) then buffering_timeout e <? buffering_timeout other
  else if negb (read_timeout e =? read_timeout other) then read_timeout e <? read_timeout other
  else if negb (retry_interval e =? retry_interval other) then retry_interval e <? retry_interval other
  else if negb (bool_decide (name e = name other)) then lt (name e) (name other)
  else if negb (bool_decide (failovers e = failovers other)) then lt (failovers e) (failovers other)
  else if negb (bool_decide (read_filters e = read_filters other)) then lt (read_filters e) (read_filters other)
  else if negb (bool_decide (write_filters e = write_filters other)) then lt (write_filters e) (write_filters other)
  else if negb (bool_decide (cache_enabled e = cache_enabled other)) then lt (cache_enabled e) (cache_enabled other)
  else if negb (bool_decide (cfg e = cfg other)) then lt (cfg e) (cfg other)
  else params_lt (params e) (params other).

(** The members as a tuple: its order is that of the endpoints. *)
Definition key (e : endpoint) :=
  (type e, (buffering_timeout e, (read_timeout e, (retry_interval e, (name e, (failovers e, (read_filters e,
    (write_filters e, (cache_enabled e, (cfg e, params e)))))))))).

Lemma lt_pair {A B} `{!EqDecision A} `{!Order A} `{!Order B} (a a' : A) (b b' : B) :
  lt (a, b) (a', b') = if negb (bool_decide (a = a')) then lt a a' else lt b b'.
Proof. unfold lt at 1, pair_order. cbn. by case_bool_decide. Qed.

Lemma lt_cons {A} `{!EqDecision A} `{!Order A} (a b : A) l1 l2 :
  lt (a :: l1) (b :: l2) = if bool_decide (a = b) then lt l1 l2 else lt a b.
Proof. done. Qed.

Lemma params_lt_list p1 : forall p2, params_lt p1 p2 = lt p1 p2.
Proof.
  induction p1 as [|[k1 v1] p1 IH]; intros [|[k2 v2] p2]; try done. cbn [params_lt]. rewrite lt_cons, lt_pair, IH.
  repeat case_bool_decide; cbn; simplify_eq; done.
Qed.

Lemma endpoint_lt_key e other : endpoint_lt e other = lt (key e) (key other).
Proof.
  unfold endpoint_lt, key. rewrite params_lt_list, !lt_pair.
  assert (Hz : forall a b : Z, (a =? b) = bool_decide (a = b)) by (intros; case_bool_decide; lia).
  by rewrite !Hz.
Qed.

Lemma endpoint_eqb_key e other : endpoint_eqb e other = true <-> key e = key other.
Proof.
  unfold endpoint_eqb, key. rewrite !andb_true_iff, !bool_decide_eq_true, !Z.eqb_eq. split.
  - intros H. destruct_and! H. congruence.
  - intros H. simplify_eq. by split_and!.
Qed.

Context `{!OrderLaws Json}.

(** operator< is a strict total order of the configurations of endpoints, for
    which two of them are equivalent exactly when operator== tells that they are
    equal: a map with such keys finds an endpoint when nothing of it changed. *)
Theorem endpoint_order :
  (forall e, endpoint_lt e e = false)
  /\ (forall a b c, endpoint_lt a b = true -> endpoint_lt b c = true -> endpoint_lt a c = true)
  /\ (forall a b, endpoint_lt a b = false /\ endpoint_lt b a = false <-> endpoint_eqb a b = true).
Proof.
  split_and!.
  - intros e. rewrite endpoint_lt_key. apply lt_irrefl.
  - intros a b c. rewrite !endpoint_lt_key. apply lt_trans.
  - intros a b. rewrite !endpoint_lt_key, endpoint_eqb_key. split; [intros []; by apply lt_total|].
    intros ->. by rewrite lt_irrefl.
Qed.

End Endpoints.
#[global] Arguments endpoint : clear implicits.

(** ** The applier *)

Section Applier.
Context {Json : Type} `{!EqDecision Json}.
Abbreviation cfg_endpoint := (endpoint Json).

Definition failover_match_name (fo : cstring) (endp : cfg_endpoint) : bool := bool_decide (fo = name endp).
Definition name_match_failover (nm : cstring) (endp : cfg_endpoint) : bool := bool_decide (nm ∈ failovers endp).

(** std::find_if and erase: the first element that satisfies [P], and the others. *)
Fixpoint find_erase {A} (P : A -> bool) (l : list A) : option (A * list A) :=
  match l with
  | [] => None
  | x :: l => if P x then Some (x, l) else '(y, l) ← find_erase P l; Some (y, x :: l)
  end.

(** A root entry: its name is no failover of the entries that are left. *)
Definition is_root (l : list cfg_endpoint) (e : cfg_endpoint) : bool :=
  bool_decide (name e = []) || negb (existsb (name_match_failover (name e)) l).

Fixpoint take_failovers (fos : list cstring) (new_ep : list cfg_endpoint) : outcome (list cfg_endpoint * list cfg_endpoint) :=
  match fos with
  | [] => Returns ([], new_ep)
  | fo :: fos =>
    match find_erase (failover_match_name fo) new_ep with
    | None => Throws Exn_msg
    | Some (e, new_ep) => '(es, new_ep) ← take_failovers fos new_ep; Returns (e :: es, new_ep)
    end
  end.

(** The subentries of the entries, which are themselves looked at in turn. *)
Fixpoint collect (fuel : nat) (seen entries new_ep : list cfg_endpoint) : outcome (list cfg_endpoint * list cfg_endpoint) :=
  match fuel with
  | O => Diverges
  | S fuel =>
    match entries with
    | [] => Returns (seen, new_ep)
    | e :: entries =>
      '(es, new_ep) ← take_failovers (failovers e) new_ep;
      collect fuel (seen ++ [e]) (entries ++ es) new_ep
    end
  end.

Definition same (e : cfg_endpoint) : cfg_endpoint -> bool := endpoint_eqb e.

(** The loop over the new configuration: the entries to create and to delete. *)
Fixpoint diff_loop (fuel : nat) (current : list cfg_endpoint) (new_ep to_create to_delete : list cfg_endpoint)
    : outcome (list cfg_endpoint * list cfg_endpoint) :=
  match fuel with
  | O => Diverges
  | S fuel =>
    match new_ep with
    | [] => Returns (to_create, to_delete)
    | _ =>
      match find_erase (is_root new_ep) new_ep with
      | None => Throws Exn_msg
      | Some (root, new_ep) =>
        '(entries, new_ep) ← collect (S (S (length new_ep))) [] [root] new_ep;
        if existsb (same root) current then
          diff_loop fuel current new_ep to_create (List.filter (fun k => negb (same root k)) to_delete)
        else diff_loop fuel current new_ep (to_create ++ entries) to_delete
      end
    end
  end.

Definition _diff_endpoints (current new_endpoints : list cfg_endpoint) : outcome (list cfg_endpoint * list cfg_endpoint) :=
  diff_loop (S (length new_endpoints)) current new_endpoints [] current.

(** ** Creation *)

(** What the protocols build from a configuration, or an exception; and whether it
    accepts connections. *)
Context {Ep : Type}.
Variable _create_endpoint : cfg_endpoint -> outcome (Ep * bool).
Variable r : Events.registry.

(** A thread with its backup; the secondaries are those of the backup. *)
#[warnings="-register-all"]
Inductive failover_thread : Type :=
  Failover_thread (nm : cstring) (buffering retry : Z) (e : Ep) (backup : option failover_thread) (secondary_endpoints : list Ep).

Inductive thread : Type :=
  | Acceptor (nm : cstring) (e : Ep) (reads writes : gset Z)
  | Failover (fo : failover_thread) (reads writes : gset Z).

Fixpoint _filters (str_filters : list cstring) : outcome (gset Z) :=
  match str_filters with
  | [] => Returns ∅
  | s :: l =>
    evs ← Events.get_matching_events r s;
    rest ← _filters l;
    Returns (dom evs ∪ rest)
  end.

Definition add_secondary (fo : failover_thread) (e : Ep) : failover_thread :=
  let '(Failover_thread nm b t ep backup l) := fo in Failover_thread nm b t ep backup (l ++ [e]).

Fixpoint add_secondaries (l : list cfg_endpoint) (names : list cstring) (fo : failover_thread) : outcome failover_thread :=
  match names with
  | [] => Returns fo
  | n :: names =>
    match List.find (failover_match_name n) l with
    | None => Throws Exn_msg
    | Some c => '(e, _) ← _create_endpoint c; add_secondaries l names (add_secondary fo e)
    end
  end.

Fixpoint _create_failover (fuel : nat) (c : cfg_endpoint) (endp : Ep) (l : list cfg_endpoint) : outcome failover_thread :=
  match fuel with
  | O => Diverges
  | S fuel =>
    backup ←
      (match failovers c with
       | [] => Returns None
       | front :: others =>
         match List.find (failover_match_name front) l with
         | None => Throws Exn_msg
         | Some it =>
           '(e, is_acceptor) ← _create_endpoint it;
           if (is_acceptor : bool) then Throws Exn_msg
           else
             fo ← _create_failover fuel it e l;
             fo ← add_secondaries l others fo;
             Returns (Some fo)
         end
       end);
    Returns (Failover_thread (name c) (buffering_timeout c) (retry_interval c) endp backup [])
  end.

(** The subscriber with its filters, the endpoint, and the thread. *)
Definition create (fuel : nat) (c : cfg_endpoint) (l : list cfg_endpoint) : outcome thread :=
  reads ← _filters (read_filters c);
  writes ← _filters (write_filters c);
  '(e, is_acceptor) ← _create_endpoint c;
  if (is_acceptor : bool) then Returns (Acceptor (name c) e reads writes)
  else fo ← _create_failover fuel c e l; Returns (Failover fo reads writes).

(** ** The running endpoints

    The map from the configurations to the threads. [updates]: how often a thread
    was asked to update. *)

Record running : Type := Running { key_of : cfg_endpoint; thread_of : thread; updates : nat }.

Definition lookup (l : list running) (c : cfg_endpoint) : option running := List.find (fun x => same c (key_of x)) l.
Definition erase (l : list running) (c : cfg_endpoint) : list running := List.filter (fun x => negb (same c (key_of x))) l.

Fixpoint create_loop (fuel : nat) (to_create l : list cfg_endpoint) (threads : list running) : list running * outcome unit :=
  match to_create with
  | [] => (threads, Returns tt)
  | ep :: to_create =>
    if is_root l ep then
      match create fuel ep l with
      | Returns t => create_loop fuel to_create l (erase threads ep ++ [Running ep t 0])
      | Throws e => (threads, Throws e)
      | Diverges => (threads, Diverges)
      end
    else create_loop fuel to_create l threads
  end.

Definition apply (fuel : nat) (threads : list running) (endpoints : list cfg_endpoint) : list running * outcome unit :=
  match _diff_endpoints (map key_of threads) endpoints with
  | Returns (to_create, to_delete) =>
    let threads := fold_left erase to_delete threads in
    let threads := map (fun x => Running (key_of x) (thread_of x) (S (updates x))) threads in
    create_loop fuel to_create to_create threads
  | Throws e => (threads, Throws e)
  | Diverges => (threads, Diverges)
  end.

End Applier.

(** ** The roots of a configuration *)

Lemma find_erase_spec {A} (P : A -> bool) l x rest :
  find_erase P l = Some (x, rest) -> P x = true /\ l ≡ₚ x :: rest.
Proof.
  revert x rest. induction l as [|y l IH]; intros x rest; cbn; [done|]. destruct (P y) eqn:HP; [by intros [= <- <-]|].
  destruct (find_erase P l) as [[z l']|]; [|done]. intros [= <- <-]. destruct (IH z l' eq_refl) as [Hz Hl].
  split; [done|]. rewrite Hl. constructor.
Qed.

Lemma find_erase_None {A} (P : A -> bool) l : find_erase P l = None -> forall x, x ∈ l -> P x = false.
Proof.
  induction l as [|y l IH]; cbn; intros Hn x Hx; [by apply not_elem_of_nil in Hx|]. destruct (P y) eqn:HP; [done|].
  destruct (find_erase P l) as [[]|]; [done|]. apply elem_of_cons in Hx as [->|Hx]; [done|by apply IH].
Qed.

Section Roots.
Context {Json : Type} `{!EqDecision Json}.
Abbreviation cfg_endpoint := (endpoint Json).

(** [e] names [x] among its failovers. *)
Definition refers (e x : cfg_endpoint) : Prop := name x ∈ failovers e.

Lemma name_match_refers x e : name_match_failover (name x) e = true <-> refers e x.
Proof. apply bool_decide_eq_true. Qed.

Lemma take_failovers_spec fos : forall (new_ep es rest : list cfg_endpoint), take_failovers fos new_ep = Returns (es, rest) ->
  new_ep ≡ₚ es ++ rest /\ map name es = fos.
Proof.
  induction fos as [|fo fos IH]; intros new_ep es rest; cbn; [by intros [= <- <-]|].
  destruct (find_erase _ new_ep) as [[e l]|] eqn:Hf; [|done]. apply find_erase_spec in Hf as [He Hl].
  destruct (take_failovers fos l) as [[es' rest']|x|] eqn:Ht; cbn; intros [= <- <-].
  destruct (IH _ _ _ Ht) as [Hp Hn]. split; [by rewrite Hl, Hp|]. cbn. apply bool_decide_eq_true in He. by rewrite He, Hn.
Qed.

(** The entries of a tree: all that they refer to is among them, and all of them
    but those it started from are referred to. *)
Lemma collect_spec fuel : forall seen entries new_ep res rest,
  collect fuel seen entries new_ep = Returns (res, rest) ->
  (forall y f, y ∈ seen -> f ∈ failovers y -> exists x, x ∈ seen ++ entries /\ name x = f) ->
  exists more, res = seen ++ entries ++ more /\ new_ep ≡ₚ more ++ rest
    /\ (forall y f, y ∈ res -> f ∈ failovers y -> exists x, x ∈ res /\ name x = f)
    /\ (forall x, x ∈ more -> exists y, y ∈ res /\ refers y x).
Proof.
  induction fuel as [|fuel IH]; intros seen entries new_ep res rest; [done|]. cbn [collect].
  destruct entries as [|e entries]; intros Hc Hs.
  - injection Hc as <- <-. exists []. rewrite !app_nil_r in *. split_and!; try done. by intros x Hx%not_elem_of_nil.
  - destruct (take_failovers (failovers e) new_ep) as [[es new_ep']|x|] eqn:Ht; [|done..].
    apply take_failovers_spec in Ht as [Hp Hn]. cbn in Hc.
    destruct (IH _ _ _ _ _ Hc) as (more & -> & Hp' & Hall & Href).
    { intros y f Hy Hf. apply elem_of_app in Hy as [Hy|Hy].
      - destruct (Hs y f Hy Hf) as (x & Hx & Hxf). exists x. split; [|done]. set_solver.
      - apply list_elem_of_singleton in Hy as ->. rewrite <- Hn in Hf.
        apply list_elem_of_fmap in Hf as (x & -> & Hx). exists x. split; [|done]. set_solver. }
    exists (es ++ more). split_and!.
    + by rewrite <- !app_assoc.
    + by rewrite Hp, Hp', app_assoc.
    + exact Hall.
    + intros x Hx. apply elem_of_app in Hx as [Hx|Hx]; [|by apply Href]. exists e. split; [set_solver|].
      unfold refers. rewrite <- Hn. by apply list_elem_of_fmap_2.
Qed.

(** The entries that no entry names as a failover. *)
Definition root_of (new : list cfg_endpoint) (e : cfg_endpoint) : Prop := e ∈ new /\ forall x, x ∈ new -> ~ refers x e.

Lemma names_inj (l : list cfg_endpoint) x y : NoDup (map name l) -> x ∈ l -> y ∈ l -> name x = name y -> x = y.
Proof.
  induction l as [|z l IH]; cbn; [by intros _ Hx%not_elem_of_nil|]. rewrite NoDup_cons. intros [Hz Hl] Hx Hy Hn.
  apply elem_of_cons in Hx as [->|Hx]; apply elem_of_cons in Hy as [->|Hy]; try done.
  - destruct Hz. rewrite Hn. by apply list_elem_of_fmap_2.
  - destruct Hz. rewrite <- Hn. by apply list_elem_of_fmap_2.
  - by apply IH.
Qed.

(** What the loop knows: the entries it dealt with, with their roots. *)
Record diff_inv (new current new_ep dealt roots to_create to_delete : list cfg_endpoint) : Prop := {
  di_split : new ≡ₚ dealt ++ new_ep;
  di_closed y f : y ∈ dealt -> f ∈ failovers y -> exists x, x ∈ dealt /\ name x = f;
  di_roots e : e ∈ roots -> e ∈ dealt /\ root_of new e;
  di_others x : x ∈ dealt -> x ∈ roots \/ exists y, y ∈ dealt /\ refers y x;
  di_create x : x ∈ to_create -> x ∈ dealt /\ (x ∈ roots /\ existsb (same x) current = false \/ exists y, y ∈ to_create /\ refers y x);
  di_created e : e ∈ roots -> e ∈ to_create \/ existsb (same e) current = true;
  di_delete k : k ∈ to_delete <-> k ∈ current /\ forall e, e ∈ roots -> same e k = false
}.
Section Dealing.
Variables new current : list cfg_endpoint.
Hypothesis names_distinct : NoDup (map name new).
Hypothesis names_set : Forall (fun e => name e <> []) new.

(** The root that is taken is a root of the whole configuration. *)
Lemma taken_root new_ep dealt roots to_create to_delete root rest :
  diff_inv new current new_ep dealt roots to_create to_delete ->
  find_erase (is_root new_ep) new_ep = Some (root, rest) -> root_of new root.
Proof.
  intros [H1 H2 _ _ _ _ _] [Hroot Hrest]%find_erase_spec.
  assert (Hin : forall x, x ∈ dealt \/ x = root -> x ∈ new) by (intros x Hx; rewrite H1, Hrest; set_solver).
  split; [by apply Hin; right|]. intros y Hy Hyr. rewrite H1 in Hy. apply elem_of_app in Hy as [Hy|Hy].
  - destruct (H2 y (name root) Hy Hyr) as (x & Hx & Hxn).
    assert (x = root) as -> by (apply (names_inj new); auto).
    assert (Hnd' : NoDup new) by (by eapply NoDup_fmap_1). rewrite H1, Hrest in Hnd'.
    apply NoDup_app in Hnd' as (_ & Hd & _). apply (Hd root Hx). by left.
  - unfold is_root in Hroot. apply orb_true_iff in Hroot as [Hn%bool_decide_eq_true|Hn%negb_true_iff].
    + revert Hn. apply (proj1 (Forall_forall _ _) names_set). by apply Hin; right.
    + apply not_true_iff_false in Hn. apply Hn, existsb_exists. exists y. split; [by apply list_elem_of_In|by apply name_match_refers].
Qed.

(** One more tree was dealt with. *)
Lemma deal_tree new_ep dealt roots to_create to_delete root more left to_create' to_delete' :
  diff_inv new current new_ep dealt roots to_create to_delete -> root_of new root ->
  new_ep ≡ₚ root :: more ++ left ->
  (forall y f, y ∈ root :: more -> f ∈ failovers y -> exists x, x ∈ root :: more /\ name x = f) ->
  (forall x, x ∈ more -> exists y, y ∈ root :: more /\ refers y x) ->
  (forall x, x ∈ to_create' -> x ∈ dealt ++ root :: more
    /\ (x ∈ roots ++ [root] /\ existsb (same x) current = false \/ exists y, y ∈ to_create' /\ refers y x)) ->
  (forall e, e ∈ roots ++ [root] -> e ∈ to_create' \/ existsb (same e) current = true) ->
  (forall k, k ∈ to_delete' <-> k ∈ current /\ forall e, e ∈ roots ++ [root] -> same e k = false) ->
  diff_inv new current left (dealt ++ root :: more) (roots ++ [root]) to_create' to_delete'.
Proof.
  intros [H1 H2 H3 H4 _ _ _] Hr Hep Hclosed Href Hcreate Hcreated Hdelete. split; try done.
  - by rewrite H1, Hep, <- app_assoc.
  - intros y f Hy Hyf. apply elem_of_app in Hy as [Hy|Hy].
    + destruct (H2 y f Hy Hyf) as (x & Hx & Hxf). exists x. split; [set_solver|done].
    + destruct (Hclosed y f Hy Hyf) as (x & Hx & Hxf). exists x. split; [set_solver|done].
  - intros e He. apply elem_of_app in He as [He|He]; [destruct (H3 e He); split; [set_solver|done]|].
    apply list_elem_of_singleton in He as ->. split; [set_solver|done].
  - intros x Hx. apply elem_of_app in Hx as [Hx|Hx].
    + destruct (H4 x Hx) as [?|(y & Hy & Hyx)]; [left; set_solver|right; exists y; split; [set_solver|done]].
    + apply elem_of_cons in Hx as [->|Hx]; [left; set_solver|]. destruct (Href x Hx) as (y & Hy & Hyx).
      right. exists y. split; [set_solver|done].
Qed.

Lemma existsb_same (e : cfg_endpoint) l : existsb (same e) l = true <-> exists k, k ∈ l /\ same e k = true.
Proof. rewrite existsb_exists. by setoid_rewrite list_elem_of_In. Qed.

Lemma elem_of_List_filter {A} (P : A -> bool) l x : x ∈ List.filter P l <-> x ∈ l /\ P x = true.
Proof. by rewrite !list_elem_of_In, filter_In. Qed.

(** Its root runs: nothing to create, and it is not to be deleted. *)
Lemma deal_running new_ep dealt roots to_create to_delete root more left :
  diff_inv new current new_ep dealt roots to_create to_delete -> root_of new root ->
  new_ep ≡ₚ root :: more ++ left ->
  (forall y f, y ∈ root :: more -> f ∈ failovers y -> exists x, x ∈ root :: more /\ name x = f) ->
  (forall x, x ∈ more -> exists y, y ∈ root :: more /\ refers y x) ->
  existsb (same root) current = true ->
  diff_inv new current left (dealt ++ root :: more) (roots ++ [root]) to_create (List.filter (fun k => negb (same root k)) to_delete).
Proof.
  intros Hi Hr Hep Hclosed Href He. pose proof Hi as [_ _ _ _ H5 H6 H7]. eapply deal_tree; try done.
  - intros x Hx. destruct (H5 x Hx) as [Hd [[Hxr Hxc]|Hxy]]; split; try set_solver.
  - intros e He'. apply elem_of_app in He' as [He'|He']; [by apply H6|]. apply list_elem_of_singleton in He' as ->. by right.
  - intros k. rewrite elem_of_List_filter, H7, negb_true_iff. split.
    + intros [[Hk Hall] Hs]. split; [done|]. intros e He'. apply elem_of_app in He' as [He'|He']; [by apply Hall|].
      by apply list_elem_of_singleton in He' as ->.
    + intros [Hk Hall]. split_and!; [done| |apply Hall; set_solver]. intros e He'. apply Hall. set_solver.
Qed.

(** It does not: its entries are to be created. *)
Lemma deal_new new_ep dealt roots to_create to_delete root more left :
  diff_inv new current new_ep dealt roots to_create to_delete -> root_of new root ->
  new_ep ≡ₚ root :: more ++ left ->
  (forall y f, y ∈ root :: more -> f ∈ failovers y -> exists x, x ∈ root :: more /\ name x = f) ->
  (forall x, x ∈ more -> exists y, y ∈ root :: more /\ refers y x) ->
  existsb (same root) current = false ->
  diff_inv new current left (dealt ++ root :: more) (roots ++ [root]) (to_create ++ root :: more) to_delete.
Proof.
  intros Hi Hr Hep Hclosed Href He. pose proof Hi as [_ _ _ _ H5 H6 H7]. eapply deal_tree; try done.
  - intros x Hx. apply elem_of_app in Hx as [Hx|Hx].
    + destruct (H5 x Hx) as [Hd [[Hxr Hxc]|(y & Hy & Hyx)]]; (split; [set_solver|]); [left; split; [set_solver|done]|].
      right. exists y. split; [set_solver|done].
    + split; [set_solver|]. apply elem_of_cons in Hx as [->|Hx]; [left; split; [set_solver|done]|].
      destruct (Href x Hx) as (y & Hy & Hyx). right. exists y. split; [set_solver|done].
  - intros e He'. apply elem_of_app in He' as [He'|He'].
    + destruct (H6 e He'); [left; set_solver|by right].
    + apply list_elem_of_singleton in He' as ->. left. set_solver.
  - intros k. rewrite H7. split.
    + intros [Hk Hall]. split; [done|]. intros e He'. apply elem_of_app in He' as [He'|He']; [by apply Hall|].
      apply list_elem_of_singleton in He' as ->. apply not_true_iff_false in He. apply not_true_iff_false. intros Hs.
      apply He, existsb_same. by exists k.
    + intros [Hk Hall]. split; [done|]. intros e He'. apply Hall. set_solver.
Qed.

Lemma diff_loop_inv fuel : forall new_ep dealt roots to_create to_delete c d,
  diff_inv new current new_ep dealt roots to_create to_delete ->
  diff_loop fuel current new_ep to_create to_delete = Returns (c, d) ->
  exists dealt' roots', diff_inv new current [] dealt' roots' c d.
Proof.
  induction fuel as [|fuel IH]; intros new_ep dealt roots to_create to_delete c d Hi; [done|]. cbn [diff_loop].
  destruct new_ep as [|e0 new_ep'] eqn:Hnew; [intros [= <- <-]; by exists dealt, roots|].
  rewrite <- Hnew in *. clear e0 new_ep' Hnew.
  destruct (find_erase (is_root new_ep) new_ep) as [[root rest]|] eqn:Hf; [|done].
  pose proof (taken_root _ _ _ _ _ _ _ Hi Hf) as Hr. apply find_erase_spec in Hf as [_ Hrest].
  destruct (collect _ [] [root] rest) as [[entries left]|x|] eqn:Hc; [|done..]. cbn [mbind outcome_bind].
  apply collect_spec in Hc as (more & -> & Hmore & Hclosed & Href); [|by intros y f Hy%not_elem_of_nil].
  cbn [app] in *. rewrite Hmore in Hrest. destruct (existsb (same root) current) eqn:He; apply IH with (dealt ++ root :: more) (roots ++ [root]).
  - by eapply deal_running.
  - by eapply deal_new.
Qed.

(** What is created and deleted, when the configuration is accepted. *)
Lemma diff_spec c d : _diff_endpoints current new = Returns (c, d) ->
  (forall e, root_of new e -> e ∈ c \/ existsb (same e) current = true)
  /\ (forall x, x ∈ c -> x ∈ new /\ (root_of new x /\ existsb (same x) current = false \/ exists y, y ∈ c /\ refers y x))
  /\ (forall k, k ∈ d <-> k ∈ current /\ forall e, root_of new e -> same e k = false).
Proof.
  intros Hd. assert (Hi : diff_inv new current new [] [] [] current).
  { split; [done|by intros y f Hy%not_elem_of_nil|by intros e He%not_elem_of_nil..|].
    intros k. split; [intros Hk; split; [done|by intros e He%not_elem_of_nil]|by intros []]. }
  destruct (diff_loop_inv _ _ _ _ _ _ _ _ Hi Hd) as (dealt & roots & [H1 H2 H3 H4 H5 H6 H7]).
  rewrite app_nil_r in H1.
  assert (Hroots : forall e, root_of new e <-> e ∈ roots).
  { intros e. split; [|by intros He; apply H3]. intros [He Hno]. rewrite H1 in He. destruct (H4 e He) as [?|(y & Hy & Hye)]; [done|].
    destruct (Hno y); [by rewrite H1|done]. }
  split_and!.
  - intros e He%Hroots. by apply H6.
  - intros x Hx. destruct (H5 x Hx) as [Hd' Hr]. rewrite <- H1 in Hd'. split; [done|]. destruct Hr as [[? ?]|?]; [left; split; [by apply Hroots|done]|by right].
  - intros k. rewrite H7. split; intros [Hk Hall]; (split; [done|]); intros e He; apply Hall; by apply Hroots.
Qed.

End Dealing.

Lemma existsb_true {A} (P : A -> bool) l : existsb P l = true <-> exists x, x ∈ l /\ P x = true.
Proof. rewrite existsb_exists. by setoid_rewrite list_elem_of_In. Qed.

Lemma existsb_false {A} (P : A -> bool) l : existsb P l = false <-> forall x, x ∈ l -> P x = false.
Proof.
  rewrite <- not_true_iff_false, existsb_true. split.
  - intros Hno x Hx. apply not_true_iff_false. intros HP. apply Hno. by exists x.
  - intros Hall (x & Hx & HP). by rewrite Hall in HP.
Qed.

(** ** The comparison of configurations ends *)

Lemma collect_ends fuel : forall seen entries (new_ep : list cfg_endpoint),
  (length entries + length new_ep < fuel)%nat -> collect fuel seen entries new_ep <> Diverges.
Proof.
  induction fuel as [|fuel IH]; intros seen entries new_ep Hf; [lia|]. cbn [collect].
  destruct entries as [|e entries]; [done|]. destruct (take_failovers _ new_ep) as [[es rest]|x|] eqn:Ht; cbn; [|done|].
  - apply take_failovers_spec in Ht as [Hp _]. apply Permutation_length in Hp. rewrite length_app in Hp. cbn in Hf.
    apply IH. rewrite length_app. lia.
  - exfalso. revert Ht. generalize (failovers e), new_ep. clear. intros fos. induction fos as [|fo fos IH]; intros new_ep; cbn; [done|].
    destruct (find_erase _ new_ep) as [[y l]|]; [|done]. specialize (IH l). by destruct (take_failovers fos l) as [[]|x|].
Qed.

Lemma diff_loop_ends current fuel : forall (new_ep to_create to_delete : list cfg_endpoint),
  (length new_ep < fuel)%nat -> diff_loop fuel current new_ep to_create to_delete <> Diverges.
Proof.
  induction fuel as [|fuel IH]; intros new_ep to_create to_delete Hf; [lia|]. cbn [diff_loop].
  destruct new_ep as [|e0 new_ep'] eqn:Hnew; [done|]. rewrite <- Hnew in *. clear e0 new_ep' Hnew.
  destruct (find_erase _ new_ep) as [[root rest]|] eqn:Hfe; [|done]. apply find_erase_spec in Hfe as [_ Hp].
  apply Permutation_length in Hp. cbn in Hp. destruct (collect _ [] [root] rest) as [[entries left]|x|] eqn:Hc; cbn; [|done|].
  - apply collect_spec in Hc as (more & _ & Hmore & _); [|by intros y f Hy%not_elem_of_nil].
    apply Permutation_length in Hmore. rewrite length_app in Hmore. case_if; apply IH; lia.
  - intros _. revert Hc. refine (collect_ends _ _ _ _ _). cbn. lia.
Qed.

(** ** The running endpoints *)

Section Running.
Context {Ep : Type}.
Abbreviation running := (running (Json := Json) (Ep := Ep)).

Lemma same_key (a b : cfg_endpoint) : same a b = true <-> key a = key b.
Proof. apply endpoint_eqb_key. Qed.

Lemma same_congr (a b c : cfg_endpoint) : same a b = true -> same a c = same b c.
Proof. intros H%same_key. apply eq_iff_eq_true. rewrite !same_key, H. done. Qed.

Lemma same_sym (a b : cfg_endpoint) : same a b = same b a.
Proof. apply eq_iff_eq_true. rewrite !same_key. done. Qed.

Lemma same_name (a b : cfg_endpoint) : same a b = true -> name a = name b.
Proof. intros H%same_key. unfold key in H. by simplify_eq. Qed.

Lemma find_ext {A} (P Q : A -> bool) l : (forall x, P x = Q x) -> List.find P l = List.find Q l.
Proof. intros H. induction l as [|x l IH]; cbn; [done|]. by rewrite H, IH. Qed.

Lemma lookup_erase (l : list running) d c : lookup (erase l d) c = if same d c then None else lookup l c.
Proof.
  unfold lookup, erase. induction l as [|x l IH]; cbn; [by case_if|].
  destruct (same d (key_of x)) eqn:Hd; cbn; rewrite IH.
  - rewrite (same_sym c), <- (same_congr _ _ _ Hd). by destruct (same d c).
  - destruct (same c (key_of x)) eqn:Hc; [|done]. by rewrite (same_sym d), (same_congr _ _ _ Hc), (same_sym (key_of x)), Hd.
Qed.

Lemma lookup_snoc (l : list running) x c : lookup (l ++ [x]) c = match lookup l c with Some y => Some y | None => if same c (key_of x) then Some x else None end.
Proof. unfold lookup. induction l as [|y l IH]; cbn; [done|]. by destruct (same c (key_of y)). Qed.

Lemma lookup_erase_all d (l : list running) c :
  lookup (fold_left erase d l) c = if existsb (fun k => same k c) d then None else lookup l c.
Proof.
  revert l. induction d as [|k d IH]; intros l; cbn [fold_left existsb]; [done|]. rewrite IH, lookup_erase.
  destruct (same k c), (existsb _ d); done.
Qed.

Lemma lookup_update (l : list running) c :
  lookup (map (fun x => Running (key_of x) (thread_of x) (S (updates x))) l) c
  = (fun x => Running (key_of x) (thread_of x) (S (updates x))) <$> lookup l c.
Proof. unfold lookup. induction l as [|x l IH]; cbn; [done|]. by destruct (same c (key_of x)). Qed.

Lemma lookup_current (l : list running) c : existsb (same c) (map key_of l) = true <-> is_Some (lookup l c).
Proof.
  unfold lookup. induction l as [|x l IH]; cbn; [split; [done|by intros []]|].
  destruct (same c (key_of x)); cbn; [split; [by intros _; exists x|done]|exact IH].
Qed.

Variable _create_endpoint : cfg_endpoint -> outcome (Ep * bool).
Variable r : Events.registry.

Lemma create_loop_spec fuel l tc : forall (th th' : list running),
  create_loop _create_endpoint r fuel tc l th = (th', Returns tt) ->
  (forall k, (forall e, e ∈ tc -> is_root l e = true -> same e k = false) -> lookup th' k = lookup th k)
  /\ (forall e, e ∈ tc -> is_root l e = true -> is_Some (lookup th' e)).
Proof.
  induction tc as [|ep tc IH]; intros th th'; cbn [create_loop].
  { intros [= <-]. split; [done|by intros e He%not_elem_of_nil]. }
  destruct (is_root l ep) eqn:Hr.
  - destruct (create _ r fuel ep l) as [t|x|]; [|done..]. intros H. apply IH in H as [H1 H2]. split.
    + intros k Hk. rewrite H1 by (intros e He; apply Hk; by right). rewrite lookup_snoc, lookup_erase. cbn [key_of].
      rewrite (same_sym k). rewrite (Hk ep (list_elem_of_here _ _) Hr). by destruct (lookup th k).
    + intros e He Her. apply elem_of_cons in He as [->|He]; [|by apply H2].
      destruct (existsb (fun x => is_root l x && same x ep) tc) eqn:Hno.
      * apply existsb_true in Hno as (x & Hx & [Hxr Hxs]%andb_true_iff). destruct (H2 x Hx Hxr) as [y Hy].
        exists y. rewrite <- Hy. unfold lookup. apply find_ext. intros z. by rewrite (same_congr _ _ _ Hxs).
      * rewrite H1.
        -- rewrite lookup_snoc, lookup_erase. cbn [key_of]. rewrite !(proj2 (same_key ep ep)) by done. by eexists.
        -- intros x Hx Hxr. rewrite existsb_false in Hno. specialize (Hno x Hx). by rewrite Hxr in Hno.
  - intros H. apply IH in H as [H1 H2]. split.
    + intros k Hk. apply H1. intros e He. apply Hk. by right.
    + intros e He Her. apply elem_of_cons in He as [->|He]; [congruence|by apply H2].
Qed.

(** A subentry is no root, and no root is a subentry. *)
Lemma is_root_created (new c : list cfg_endpoint) x current :
  Forall (fun e => name e <> []) new ->
  (forall x, x ∈ c -> x ∈ new /\ (root_of new x /\ existsb (same x) current = false \/ exists y, y ∈ c /\ refers y x)) ->
  x ∈ c -> is_root c x = true <-> root_of new x.
Proof.
  intros Hne Hc Hx. unfold is_root. destruct (Hc x Hx) as [Hxn Hr].
  rewrite bool_decide_eq_false_2 by exact (proj1 (Forall_forall _ _) Hne x Hxn). cbn [orb]. rewrite negb_true_iff. split.
  - intros Hno. destruct Hr as [[? _]|(y & Hy & Hyx)]; [done|]. apply not_true_iff_false in Hno. destruct Hno.
    apply existsb_exists. exists y. split; [by apply list_elem_of_In|by apply name_match_refers].
  - intros [_ Hno]. apply not_true_iff_false. intros (y & Hy & Hyx)%existsb_exists.
    apply (Hno y); [apply Hc; by apply list_elem_of_In|by apply name_match_refers].
Qed.

Lemma apply_spec fuel (threads threads' : list running) new :
  NoDup (map name new) -> Forall (fun e => name e <> []) new ->
  apply _create_endpoint r fuel threads new = (threads', Returns tt) ->
  (forall e, root_of new e -> exists t, lookup threads' e = Some t /\
     forall t0, lookup threads e = Some t0 -> thread_of t = thread_of t0 /\ updates t = S (updates t0))
  /\ (forall k t, lookup threads' k = Some t -> exists e, root_of new e /\ same e k = true).
Proof.
  intros Hnd Hne. unfold apply. destruct (_diff_endpoints _ new) as [[c d]|x|] eqn:Hdiff; [|done..].
  destruct (diff_spec new _ Hnd Hne c d Hdiff) as (D1 & D2 & D3). intros [L1 L2]%create_loop_spec.
  assert (Hroot : forall x, x ∈ c -> is_root c x = true <-> root_of new x) by (intros x Hx; by eapply is_root_created).
  assert (Hkeep : forall k, lookup (map (fun x => Running (key_of x) (thread_of x) (S (updates x))) (fold_left erase d threads)) k
    = if existsb (fun y => same y k) d then None else (fun x => Running (key_of x) (thread_of x) (S (updates x))) <$> lookup threads k).
  { intros k. rewrite lookup_update, lookup_erase_all. by case_if. }
  split.
  - intros e He. destruct (existsb (same e) (map key_of threads)) eqn:Hcur.
    + destruct (proj1 (lookup_current _ _) Hcur) as [t0 Ht0].
      exists (Running (key_of t0) (thread_of t0) (S (updates t0))). rewrite Ht0. split; [|by intros t1 [= <-]].
      rewrite L1, Hkeep, Ht0.
      * destruct (existsb (fun y => same y e) d) eqn:Hd; [|done]. apply existsb_exists in Hd as (k & Hk & Hke).
        apply list_elem_of_In, D3 in Hk as [_ Hk]. specialize (Hk e He). by rewrite same_sym, Hke in Hk.
      * intros x Hx Hxr. apply not_true_iff_false. intros Hxe. assert (x = e) as ->.
        { apply (names_inj new); [done|apply D2, Hx|apply He|by apply same_name]. }
        destruct (D2 e Hx) as [_ [[_ Hno]|(y & Hy & Hye)]]; [congruence|]. destruct He as [_ He]. apply (He y); [|done]. by apply D2.
    + destruct (D1 e He) as [Hec|?]; [|congruence]. destruct (L2 e Hec) as [t Ht]; [by apply Hroot|].
      exists t. split; [done|]. intros t0 Ht0. assert (is_Some (lookup threads e)) as Hs by by eexists.
      apply lookup_current in Hs. congruence.
  - intros k t Hk. destruct (existsb (fun e => is_root c e && same e k) c) eqn:He.
    + apply existsb_true in He as (e & Hec & [Hr Hs]%andb_true_iff). exists e. split; [by apply Hroot|done].
    + rewrite existsb_false in He. rewrite L1, Hkeep in Hk.
      2:{ intros e Hec Hr. specialize (He e Hec). by rewrite Hr in He. }
      destruct (existsb (fun y => same y k) d) eqn:Hd; [done|]. destruct (lookup threads k) as [t0|] eqn:Ht0; [|done].
      assert (Hcur : existsb (same k) (map key_of threads) = true) by (apply lookup_current; by exists t0).
      apply existsb_true in Hcur as (k' & Hk' & Hs). rewrite existsb_false in Hd.
      destruct (existsb (fun e => negb (existsb (name_match_failover (name e)) new) && same e k) new) eqn:Hex.
      * apply existsb_true in Hex as (e & Hen & [Hr%negb_true_iff Hes]%andb_true_iff). exists e. split; [|done].
        split; [done|]. intros x Hx Hxe%name_match_refers. rewrite existsb_false in Hr. by rewrite Hr in Hxe.
      * exfalso. rewrite existsb_false in Hex. assert (k' ∈ d) as Hkd.
        { apply D3. split; [done|]. intros e [Hen Hno]. specialize (Hex e Hen).
          rewrite (proj2 (existsb_false _ _)) in Hex; [|intros x Hx; apply not_true_iff_false; intros Hxe%name_match_refers; by apply (Hno x)].
          cbn in Hex. by rewrite (same_sym e k'), <- (same_congr _ _ _ Hs), same_sym. }
        specialize (Hd k' Hkd). by rewrite same_sym, Hs in Hd.
Qed.

(** C17. After a configuration was applied without error, its names being set and
    distinct, exactly its root endpoints run, those that no other one names as a
    failover; each one that was running already still has the same thread, which
    was asked once to update. *)
Theorem apply_runs_roots fuel (threads threads' : list running) new :
  NoDup (map name new) -> Forall (fun e => name e <> []) new ->
  apply _create_endpoint r fuel threads new = (threads', Returns tt) ->
  (forall e, root_of new e -> exists t, lookup threads' e = Some t /\
     forall t0, lookup threads e = Some t0 -> thread_of t = thread_of t0 /\ updates t = S (updates t0))
  /\ (forall k t, lookup threads' k = Some t -> exists e, root_of new e /\ same e k = true).
Proof. exact (apply_spec fuel threads threads' new). Qed.

(** The comparison of two configurations ends, whatever they are: with a
    cycle of failovers, or one that is named twice or missing, it is an error. *)
Theorem diff_ends (current new : list cfg_endpoint) : _diff_endpoints current new <> Diverges.
Proof. apply diff_loop_ends. lia. Qed.

End Running.

End Roots.
(** ** Examples

    Documents are numbers here, and every endpoint connects. *)

Definition named (n : string) (fos : list string) (retry : Z) : endpoint Z :=
  Endpoint output 0 (str <$> fos) (str n) [] [] (-1) retry (str "tcp") [] false 0.

Lemma endpoint_order_witness :
  (forall e : endpoint Z, endpoint_lt e e = false)
  /\ (forall a b c : endpoint Z, endpoint_lt a b = true -> endpoint_lt b c = true -> endpoint_lt a c = true)
  /\ (forall a b : endpoint Z, endpoint_lt a b = false /\ endpoint_lt b a = false <-> endpoint_eqb a b = true).
Proof. apply (endpoint_order (Json := Z)). Defined.

Definition connects (c : endpoint Z) : outcome (cstring * bool) := Returns (name c, false).

Definition demo_apply := apply (Ep := cstring) connects Events.load 9.

Definition first_cfg : list (endpoint Z) := [named "sql" ["backup"] 30; named "backup" [] 30; named "rrd" [] 30].
Definition second_cfg : list (endpoint Z) := [named "sql" ["backup"] 30; named "perfdata" [] 30; named "backup" [] 30].

Lemma apply_runs_roots_witness :
  (NoDup (map name second_cfg) /\ Forall (fun e => name e <> []) second_cfg
   /\ demo_apply (fst (demo_apply [] first_cfg)) second_cfg = (fst (demo_apply (fst (demo_apply [] first_cfg)) second_cfg), Returns tt)) /\
  (forall e, root_of second_cfg e -> exists t, lookup (fst (demo_apply (fst (demo_apply [] first_cfg)) second_cfg)) e = Some t /\
     forall t0, lookup (fst (demo_apply [] first_cfg)) e = Some t0 -> thread_of t = thread_of t0 /\ updates t = S (updates t0))
  /\ (forall k t, lookup (fst (demo_apply (fst (demo_apply [] first_cfg)) second_cfg)) k = Some t -> exists e, root_of second_cfg e /\ same e k = true).
Proof.
  assert (H1 : NoDup (map name second_cfg)) by (apply (bool_decide_unpack _); vm_compute; exact I).
  assert (H2 : Forall (fun e => name e <> []) second_cfg) by (by repeat constructor).
  assert (H3 : demo_apply (fst (demo_apply [] first_cfg)) second_cfg
    = (fst (demo_apply (fst (demo_apply [] first_cfg)) second_cfg), Returns tt)) by (vm_compute; reflexivity).
  split; [split_and!; [exact H1|exact H2|exact H3]|]. exact (apply_runs_roots connects Events.load 9 _ _ second_cfg H1 H2 H3).
Defined.

Example demo_names :
  map (fun t => (name (key_of t), updates t)) (fst (demo_apply (fst (demo_apply [] first_cfg)) second_cfg))
  = [(str "sql", 1%nat); (str "perfdata", 0%nat)].
Proof. vm_compute. reflexivity. Qed.

(** Only the roots are compared: a new configuration of a failover, here another
    retry interval, is ignored as long as the endpoint that names it is the same. *)
Example failover_change_ignored :
  map thread_of (fst (demo_apply (fst (demo_apply [] [named "sql" ["backup"] 30; named "backup" [] 30]))
    [named "sql" ["backup"] 30; named "backup" [] 5]))
  = map thread_of (fst (demo_apply [] [named "sql" ["backup"] 30; named "backup" [] 30])).
Proof. vm_compute. reflexivity. Qed.

(** The secondaries of an endpoint are given to its backup, and to nothing when
    they are the only failovers of an endpoint that works. *)
Example secondaries_of_the_backup :
  map thread_of (fst (demo_apply [] [named "sql" ["backup"; "copy"] 30; named "backup" [] 30; named "copy" [] 30]))
  = [Failover (Failover_thread (str "sql") 0 30 (str "sql")
       (Some (Failover_thread (str "backup") 0 30 (str "backup") None [str "copy"])) []) ∅ ∅].
Proof. vm_compute. reflexivity. Qed.

(** A cycle of failovers is refused. *)
Example cycle_refused : _diff_endpoints [] [named "a" ["b"] 30; named "b" ["a"] 30] = Throws Exn_msg.
Proof. vm_compute. reflexivity. Qed.

End Endpoints.
