(* ===== verification/Mapping.v ===== *)
(** * Mappings of classes (core/inc/com/centreon/broker/mapping)

    An event class is what its constructor leaves in its members, and the table of
    the entries that point to some of them. From both comes what the registry
    keeps: the entries without their pointers, and the values of the members they
    point to, in the same order. *)

From Stdlib Require Import ZArith Lia ZifyNat ZifyBool Strings.Byte Strings.String.
From stdpp Require Import base option list numbers strings gmap.
From S2P Require Import Prelude Double Events.

Module Mapping.
Import Events.

(** The members of a class, with the value its constructor gives to each; one
    that comes first hides another of the same name. *)
Abbreviation members := (list (string * value)).

(** The entries[] of a class: pointers to members with their entries. *)
Abbreviation table := (list (string * entry)).

(** Following a pointer to a member. *)
Fixpoint get (m : members) (name : string) : option value :=
  match m with
  | [] => None
  | (n, v) :: m => if String.eqb n name then Some v else get m name
  end.

(** A member of an object, by the entry that points to it. *)
Fixpoint member (entries : table) (fields : list value) (name : string) : option value :=
  match entries, fields with
  | (n, _) :: entries, v :: fields => if String.eqb n name then Some v else member entries fields name
  | _, _ => None
  end.

Definition number (entries : table) (fields : list value) (name : string) : Z :=
  match member entries fields name with Some (VUint z | VInt z | VShort z | VTime z) => z | _ => 0 end.
Definition flag (entries : table) (fields : list value) (name : string) : bool :=
  match member entries fields name with Some (VBool b) => b | _ => false end.
Definition text (entries : table) (fields : list value) (name : string) : cstring :=
  match member entries fields name with Some (VString s) => s | _ => [] end.

(** The mapped members of an object with these members. *)
Definition object (m : members) (entries : table) : list value := omap (fun p => get m p.1) entries.

(** What register_event is given. *)
Definition event (name : string) (m : members) (entries : table) (table_v2 : string) : event_info :=
  Event_info (str name) (mapM (fun p => get m p.1) entries) entries.*2 (str table_v2).

(** The columns an event has in its table. *)
Definition columns (mapping : list entry) : list cstring :=
  omap (fun e => match get_name_v2 e with Some [] | None => None | n => n end) mapping.

(** A value of the type of a member. *)
Definition has_typeb (t : source_type) (v : value) : bool :=
  match t, v with
  | BOOL, VBool _ | DOUBLE, VDouble _ | STRING, VString _ => true
  | INT, VInt z => (- 2 ^ 31 <=? z) && (z <? 2 ^ 31)
  | SHORT, VShort z => (- 2 ^ 15 <=? z) && (z <? 2 ^ 15)
  | TIME, VTime z => (- 2 ^ 63 <=? z) && (z <? 2 ^ 63)
  | UINT, VUint z => (0 <=? z) && (z <? 2 ^ 32)
  | _, _ => false
  end.

Definition has_type (t : source_type) (v : value) : Prop := has_typeb t v = true.

(** The registrations of a module, one after the other. *)
Fixpoint register_events (r : registry) (category_id : Z) (l : list (Z * event_info)) : registry * outcome unit :=
  match l with
  | [] => (r, Returns tt)
  | (event_id, info) :: l =>
    match register_event r category_id event_id info with
    | Returns (r, _) => register_events r category_id l
    | Throws e => (r, Throws e)
    | Diverges => (r, Diverges)
    end
  end.

(** broker_module_init: the category must get its own number. *)
Definition module_init (fuel : nat) (r : registry) (name : string) (category_id : Z) (l : list (Z * event_info))
    : registry * outcome unit :=
  match register_category fuel r (str name) category_id with
  | Returns (r, id) =>
    if negb (id =? category_id) then (unregister_category r id, Throws Exn_msg) else register_events r category_id l
  | Throws e => (r, Throws e)
  | Diverges => (r, Diverges)
  end.

End Mapping.
