(* ===== verification/NebEvents.v ===== *)
(** * The events of the engine (neb/src)

    For each class of neb/src, what its constructor (those of its bases
    first) leaves in its members, and its mapping, entry by entry: the member, its
    type, the name of its column, the size of the column for texts, the
    value that means NULL. Members of other types than those of mappings, and
    those a constructor leaves uninitialised, have no entry. The sizes of the
    columns are generated from the schema at build time
    (get_<table>_col_size): they are a parameter. *)

From Stdlib Require Import ZArith Lia Strings.Byte Strings.String Floats.SpecFloat.
From stdpp Require Import base option list numbers strings gmap.
From S2P Require Import Prelude Double Events Mapping.

Module NebEvents.
Import Events Mapping Dbl.
#[local] Open Scope string_scope.
#[local] Open Scope list_scope.

Section Tables.
Context (col_size : string -> string -> Z).

(** The elements of the category. *)
Inductive data_element : Type :=
  | de_acknowledgement
  | de_comment
  | de_custom_variable
  | de_custom_variable_status
  | de_downtime
  | de_event_handler
  | de_flapping_status
  | de_host_check
  | de_host_dependency
  | de_host_group
  | de_host_group_member
  | de_host
  | de_host_parent
  | de_host_status
  | de_instance
  | de_instance_status
  | de_log_entry
  | de_module
  | de_service_check
  | de_service_dependency
  | de_service_group
  | de_service_group_member
  | de_service
  | de_service_status
  | de_instance_configuration
  | de_responsive_instance.

Definition element (de : data_element) : Z :=
  match de with
  | de_acknowledgement => 1
  | de_comment => 2
  | de_custom_variable => 3
  | de_custom_variable_status => 4
  | de_downtime => 5
  | de_event_handler => 6
  | de_flapping_status => 7
  | de_host_check => 8
  | de_host_dependency => 9
  | de_host_group => 10
  | de_host_group_member => 11
  | de_host => 12
  | de_host_parent => 13
  | de_host_status => 14
  | de_instance => 15
  | de_instance_status => 16
  | de_log_entry => 17
  | de_module => 18
  | de_service_check => 19
  | de_service_dependency => 20
  | de_service_group => 21
  | de_service_group_member => 22
  | de_service => 23
  | de_service_status => 24
  | de_instance_configuration => 25
  | de_responsive_instance => 26
  end.

(** acknowledgement. *)
Definition acknowledgement_members : members := [
    ("acknowledgement_type", VShort 0); ("author", VString []); ("comment", VString []);
    ("deletion_time", VTime (-1)); ("entry_time", VTime (-1)); ("host_id", VUint 0);
    ("is_sticky", VBool false); ("notify_contacts", VBool false);
    ("notify_only_if_not_already_acknowledged", VBool false); ("persistent_comment", VBool false);
    ("poller_id", VUint 0); ("service_id", VUint 0); ("state", VShort 0) ].

Definition acknowledgement_entries : table := [
    ("acknowledgement_type", mapped SHORT "type" always_valid);
    ("author", mapped_string "author" (col_size "acknowledgements" "acknowledgements_author") always_valid);
    ("comment", mapped_string "comment_data" (col_size "acknowledgements" "acknowledgements_comment_data") always_valid);
    ("deletion_time", mapped TIME "deletion_time" invalid_on_minus_one);
    ("entry_time", mapped TIME "entry_time" invalid_on_minus_one);
    ("host_id", mapped UINT "host_id" invalid_on_zero);
    ("poller_id", mapped UINT "instance_id" invalid_on_zero);
    ("is_sticky", mapped BOOL "sticky" always_valid);
    ("notify_contacts", mapped BOOL "notify_contacts" always_valid);
    ("persistent_comment", mapped BOOL "persistent_comment" always_valid);
    ("service_id", mapped UINT "service_id" invalid_on_zero);
    ("state", mapped SHORT "state" always_valid);
    ("notify_only_if_not_already_acknowledged", mapped BOOL "" always_valid) ].

(** comment. *)
Definition comment_members : members := [
    ("author", VString []); ("comment_type", VShort 0); ("data", VString []); ("deletion_time", VTime 0);
    ("entry_time", VTime 0); ("entry_type", VShort 0); ("expire_time", VTime 0);
    ("expires", VBool false); ("host_id", VUint 0); ("internal_id", VUint 0);
    ("persistent", VBool false); ("poller_id", VUint 0); ("service_id", VUint 0); ("source", VShort 0) ].

Definition comment_entries : table := [
    ("author", mapped_string "author" (col_size "comments" "comments_author") always_valid);
    ("comment_type", mapped SHORT "type" always_valid);
    ("data", mapped_string "data" (col_size "comments" "comments_data") always_valid);
    ("deletion_time", mapped TIME "deletion_time" invalid_on_zero);
    ("entry_time", mapped TIME "entry_time" invalid_on_minus_one);
    ("entry_type", mapped SHORT "entry_type" always_valid);
    ("expire_time", mapped TIME "expire_time" invalid_on_zero);
    ("expires", mapped BOOL "expires" always_valid);
    ("host_id", mapped UINT "host_id" invalid_on_zero);
    ("internal_id", mapped UINT "internal_id" always_valid);
    ("persistent", mapped BOOL "persistent" always_valid);
    ("poller_id", mapped UINT "instance_id" invalid_on_zero);
    ("service_id", mapped UINT "service_id" invalid_on_zero);
    ("source", mapped SHORT "source" always_valid) ].

(** custom_variable_status. *)
Definition custom_variable_status_members : members := [
    ("host_id", VUint 0); ("modified", VBool true); ("name", VString []); ("service_id", VUint 0);
    ("update_time", VTime 0); ("value", VString []) ].

(** custom_variable. *)
Definition custom_variable_members : members := [
    ("modified", VBool false) ] ++ custom_variable_status_members ++ [
    ("default_value", VString []); ("enabled", VBool true); ("var_type", VShort 0) ].

Definition custom_variable_entries : table := [
    ("enabled", Entry BOOL true None always_valid 0);
    ("host_id", mapped UINT "host_id" invalid_on_zero);
    ("modified", mapped BOOL "modified" always_valid);
    ("name", mapped_string "name" (col_size "customvariables" "customvariables_name") always_valid);
    ("service_id", mapped UINT "service_id" invalid_on_zero);
    ("update_time", mapped TIME "update_time" invalid_on_minus_one);
    ("var_type", mapped SHORT "type" always_valid);
    ("value", mapped_string "value" (col_size "customvariables" "customvariables_value") always_valid);
    ("default_value", mapped_string "default_value" (col_size "customvariables" "customvariables_default_value") always_valid) ].

Definition custom_variable_status_entries : table := [
    ("host_id", mapped UINT "host_id" invalid_on_zero);
    ("modified", mapped BOOL "modified" always_valid);
    ("name", mapped_string "name" (col_size "customvariables" "customvariables_name") always_valid);
    ("service_id", mapped UINT "service_id" invalid_on_zero);
    ("update_time", mapped TIME "update_time" invalid_on_minus_one);
    ("value", mapped_string "value" (col_size "customvariables" "customvariables_value") always_valid) ].

(** downtime. *)
Definition downtime_members : members := [
    ("actual_end_time", VTime (-1)); ("actual_start_time", VTime (-1)); ("author", VString []);
    ("comment", VString []); ("deletion_time", VTime (-1)); ("downtime_type", VShort 0);
    ("duration", VTime (-1)); ("end_time", VTime (-1)); ("entry_time", VTime (-1));
    ("fixed", VBool true); ("host_id", VUint 0); ("internal_id", VUint 0); ("poller_id", VUint 0);
    ("service_id", VUint 0); ("start_time", VTime (-1)); ("triggered_by", VUint 0);
    ("was_cancelled", VBool false); ("was_started", VBool false); ("is_recurring", VBool false);
    ("recurring_timeperiod", VString []); ("come_from", VShort 0) ].

Definition downtime_entries : table := [
    ("actual_end_time", mapped TIME "actual_end_time" invalid_on_minus_one);
    ("actual_start_time", mapped TIME "actual_start_time" invalid_on_minus_one);
    ("author", mapped_string "author" (col_size "downtimes" "downtimes_author") always_valid);
    ("downtime_type", mapped SHORT "type" always_valid);
    ("deletion_time", mapped TIME "deletion_time" invalid_on_minus_one);
    ("duration", mapped TIME "duration" always_valid);
    ("end_time", mapped TIME "end_time" invalid_on_minus_one);
    ("entry_time", mapped TIME "entry_time" invalid_on_minus_one);
    ("fixed", mapped BOOL "fixed" always_valid);
    ("host_id", mapped UINT "host_id" invalid_on_zero);
    ("poller_id", mapped UINT "instance_id" invalid_on_zero);
    ("internal_id", mapped UINT "internal_id" always_valid);
    ("service_id", mapped UINT "service_id" invalid_on_zero);
    ("start_time", mapped TIME "start_time" invalid_on_minus_one);
    ("triggered_by", mapped UINT "triggered_by" invalid_on_zero);
    ("was_cancelled", mapped BOOL "cancelled" always_valid);
    ("was_started", mapped BOOL "started" always_valid);
    ("comment", mapped_string "comment_data" (col_size "downtimes" "downtimes_comment_data") always_valid);
    ("come_from", mapped SHORT "" always_valid) ].

(** event_handler. *)
Definition event_handler_members : members := [
    ("command_args", VString []); ("command_line", VString []); ("early_timeout", VBool false);
    ("end_time", VTime 0); ("execution_time", VDouble (of_Z 0)); ("handler_type", VShort 0);
    ("host_id", VUint 0); ("output", VString []); ("return_code", VShort 0); ("service_id", VUint 0);
    ("start_time", VTime 0); ("state", VShort 0); ("state_type", VShort 0); ("timeout", VShort 0) ].

Definition event_handler_entries : table := [
    ("early_timeout", mapped BOOL "early_timeout" always_valid);
    ("end_time", mapped TIME "end_time" invalid_on_minus_one);
    ("execution_time", mapped DOUBLE "execution_time" always_valid);
    ("handler_type", mapped SHORT "type" always_valid);
    ("host_id", mapped UINT "host_id" invalid_on_zero);
    ("return_code", mapped SHORT "return_code" always_valid);
    ("service_id", mapped UINT "service_id" invalid_on_zero);
    ("start_time", mapped TIME "start_time" invalid_on_minus_one);
    ("state", mapped SHORT "state" always_valid);
    ("state_type", mapped SHORT "state_type" always_valid);
    ("timeout", mapped SHORT "timeout" always_valid);
    ("command_args", mapped_string "command_args" (col_size "eventhandlers" "eventhandlers_command_args") always_valid);
    ("command_line", mapped_string "command_line" (col_size "eventhandlers" "eventhandlers_command_line") always_valid);
    ("output", mapped_string "output" (col_size "eventhandlers" "eventhandlers_output") always_valid) ].

(** flapping_status. *)
Definition flapping_status_members : members := [
    ("event_time", VTime 0); ("event_type", VInt 0); ("flapping_type", VShort 0);
    ("high_threshold", VDouble (of_Z 0)); ("host_id", VUint 0); ("low_threshold", VDouble (of_Z 0));
    ("percent_state_change", VDouble (of_Z 0)); ("reason_type", VShort 0); ("service_id", VUint 0) ].

Definition flapping_status_entries : table := [
    ("event_time", mapped TIME "event_time" always_valid);
    ("event_type", mapped INT "event_type" always_valid);
    ("flapping_type", mapped SHORT "type" always_valid);
    ("high_threshold", mapped DOUBLE "high_threshold" always_valid);
    ("host_id", mapped UINT "host_id" invalid_on_zero);
    ("low_threshold", mapped DOUBLE "low_threshold" always_valid);
    ("percent_state_change", mapped DOUBLE "percent_state_change" always_valid);
    ("reason_type", mapped SHORT "reason_type" always_valid);
    ("service_id", mapped UINT "service_id" invalid_on_zero) ].

(** check. *)
Definition check_members : members := [
    ("active_checks_enabled", VBool false); ("check_type", VShort 0); ("command_line", VString []);
    ("host_id", VUint 0); ("next_check", VTime 0) ].

(** host_check. *)
Definition host_check_members : members := check_members.

Definition host_check_entries : table := [
    ("active_checks_enabled", mapped BOOL "" always_valid);
    ("check_type", mapped SHORT "" always_valid);
    ("host_id", mapped UINT "host_id" invalid_on_zero);
    ("next_check", mapped TIME "" always_valid);
    ("command_line", mapped_string "command_line" (col_size "hosts" "hosts_command_line") always_valid) ].

(** dependency. *)
Definition dependency_members : members := [
    ("dependency_period", VString []); ("dependent_host_id", VUint 0); ("enabled", VBool true);
    ("execution_failure_options", VString []); ("host_id", VUint 0); ("inherits_parent", VBool false);
    ("notification_failure_options", VString []) ].

(** host_dependency. *)
Definition host_dependency_members : members := dependency_members.

Definition host_dependency_entries : table := [
    ("dependency_period", mapped_string "dependency_period" (col_size "hosts_hosts_dependencies" "hosts_hosts_dependencies_dependency_period") always_valid);
    ("dependent_host_id", mapped UINT "dependent_host_id" invalid_on_zero);
    ("enabled", mapped BOOL "" always_valid);
    ("execution_failure_options", mapped_string "execution_failure_options" (col_size "hosts_hosts_dependencies" "hosts_hosts_dependencies_execution_failure_options") always_valid);
    ("inherits_parent", mapped BOOL "inherits_parent" always_valid);
    ("host_id", mapped UINT "host_id" invalid_on_zero);
    ("notification_failure_options", mapped_string "notification_failure_options" (col_size "hosts_hosts_dependencies" "hosts_hosts_dependencies_notification_failure_options") always_valid) ].

(** host_service. *)
Definition host_service_members : members := [
    ("action_url", VString []); ("check_freshness", VBool false);
    ("default_active_checks_enabled", VBool false); ("default_event_handler_enabled", VBool false);
    ("default_flap_detection_enabled", VBool false); ("default_notifications_enabled", VBool false);
    ("default_passive_checks_enabled", VBool false); ("display_name", VString []);
    ("first_notification_delay", VDouble (of_Z 0)); ("freshness_threshold", VDouble (of_Z 0));
    ("high_flap_threshold", VDouble (of_Z 0)); ("icon_image", VString []);
    ("icon_image_alt", VString []); ("low_flap_threshold", VDouble (of_Z 0)); ("notes", VString []);
    ("notes_url", VString []); ("notification_interval", VDouble (of_Z 0));
    ("notification_period", VString []); ("notify_on_downtime", VBool false);
    ("notify_on_flapping", VBool false); ("notify_on_recovery", VBool false);
    ("retain_nonstatus_information", VBool false); ("retain_status_information", VBool false) ].

(** status. *)
Definition status_members : members := [
    ("event_handler_enabled", VBool false); ("flap_detection_enabled", VBool false);
    ("notifications_enabled", VBool false) ].

(** host_service_status. *)
Definition host_service_status_members : members := status_members ++ [
    ("acknowledged", VBool false); ("acknowledgement_type", VShort 0);
    ("active_checks_enabled", VBool false); ("check_command", VString []);
    ("check_interval", VDouble (of_Z 0)); ("check_period", VString []); ("check_type", VShort 0);
    ("current_check_attempt", VShort 0); ("current_state", VShort 4); ("downtime_depth", VShort 0);
    ("enabled", VBool true); ("event_handler", VString []); ("execution_time", VDouble (of_Z 0));
    ("has_been_checked", VBool false); ("host_id", VUint 0); ("is_flapping", VBool false);
    ("last_check", VTime 0); ("last_hard_state", VShort 4); ("last_hard_state_change", VTime 0);
    ("last_notification", VTime 0); ("last_state_change", VTime 0); ("last_update", VTime 0);
    ("latency", VDouble (of_Z 0)); ("max_check_attempts", VShort 0); ("next_check", VTime 0);
    ("next_notification", VTime 0); ("no_more_notifications", VBool false);
    ("notification_number", VShort 0); ("obsess_over", VBool false); ("output", VString []);
    ("passive_checks_enabled", VBool false); ("percent_state_change", VDouble (of_Z 0));
    ("perf_data", VString []); ("retry_interval", VDouble (of_Z 0));
    ("should_be_scheduled", VBool false); ("state_type", VShort 0) ].

(** host_status. *)
Definition host_status_members : members := host_service_status_members ++ [
    ("last_time_down", VTime 0); ("last_time_unreachable", VTime 0); ("last_time_up", VTime 0) ].

(** host. *)
Definition host_members : members := host_service_members ++ host_status_members ++ [
    ("address", VString []); ("alias", VString []); ("flap_detection_on_down", VBool false);
    ("flap_detection_on_unreachable", VBool false); ("flap_detection_on_up", VBool false);
    ("host_name", VString []); ("notify_on_down", VBool false); ("notify_on_unreachable", VBool false);
    ("poller_id", VUint 0); ("stalk_on_down", VBool false); ("stalk_on_unreachable", VBool false);
    ("stalk_on_up", VBool false); ("statusmap_image", VString []); ("timezone", VString []) ].

Definition host_entries : table := [
    ("acknowledged", mapped BOOL "acknowledged" always_valid);
    ("acknowledgement_type", mapped SHORT "acknowledgement_type" always_valid);
    ("action_url", mapped_string "action_url" (col_size "hosts" "hosts_action_url") always_valid);
    ("active_checks_enabled", mapped BOOL "active_checks" always_valid);
    ("address", mapped_string "address" (col_size "hosts" "hosts_address") always_valid);
    ("alias", mapped_string "alias" (col_size "hosts" "hosts_alias") always_valid);
    ("check_freshness", mapped BOOL "check_freshness" always_valid);
    ("check_interval", mapped DOUBLE "check_interval" always_valid);
    ("check_period", mapped_string "check_period" (col_size "hosts" "hosts_check_period") always_valid);
    ("check_type", mapped SHORT "check_type" always_valid);
    ("current_check_attempt", mapped SHORT "check_attempt" always_valid);
    ("current_state", mapped SHORT "state" always_valid);
    ("default_active_checks_enabled", mapped BOOL "default_active_checks" always_valid);
    ("default_event_handler_enabled", mapped BOOL "default_event_handler_enabled" always_valid);
    ("default_flap_detection_enabled", mapped BOOL "default_flap_detection" always_valid);
    ("default_notifications_enabled", mapped BOOL "default_notify" always_valid);
    ("default_passive_checks_enabled", mapped BOOL "default_passive_checks" always_valid);
    ("downtime_depth", mapped SHORT "scheduled_downtime_depth" always_valid);
    ("display_name", mapped_string "display_name" (col_size "hosts" "hosts_display_name") always_valid);
    ("enabled", mapped BOOL "enabled" always_valid);
    ("event_handler", mapped_string "event_handler" (col_size "hosts" "hosts_event_handler") always_valid);
    ("event_handler_enabled", mapped BOOL "event_handler_enabled" always_valid);
    ("execution_time", mapped DOUBLE "execution_time" always_valid);
    ("first_notification_delay", mapped DOUBLE "first_notification_delay" always_valid);
    ("flap_detection_enabled", mapped BOOL "flap_detection" always_valid);
    ("flap_detection_on_down", mapped BOOL "flap_detection_on_down" always_valid);
    ("flap_detection_on_unreachable", mapped BOOL "flap_detection_on_unreachable" always_valid);
    ("flap_detection_on_up", mapped BOOL "flap_detection_on_up" always_valid);
    ("freshness_threshold", mapped DOUBLE "freshness_threshold" always_valid);
    ("has_been_checked", mapped BOOL "checked" always_valid);
    ("high_flap_threshold", mapped DOUBLE "high_flap_threshold" always_valid);
    ("host_name", mapped_string "name" (col_size "hosts" "hosts_name") always_valid);
    ("host_id", mapped UINT "host_id" invalid_on_zero);
    ("icon_image", mapped_string "icon_image" (col_size "hosts" "hosts_icon_image") always_valid);
    ("icon_image_alt", mapped_string "icon_image_alt" (col_size "hosts" "hosts_icon_image_alt") always_valid);
    ("poller_id", mapped UINT "instance_id" invalid_on_zero);
    ("is_flapping", mapped BOOL "flapping" always_valid);
    ("last_check", mapped TIME "last_check" invalid_on_zero);
    ("last_hard_state", mapped SHORT "last_hard_state" always_valid);
    ("last_hard_state_change", mapped TIME "last_hard_state_change" invalid_on_zero);
    ("last_notification", mapped TIME "last_notification" invalid_on_zero);
    ("last_state_change", mapped TIME "last_state_change" invalid_on_zero);
    ("last_time_down", mapped TIME "last_time_down" invalid_on_zero);
    ("last_time_unreachable", mapped TIME "last_time_unreachable" invalid_on_zero);
    ("last_time_up", mapped TIME "last_time_up" invalid_on_zero);
    ("last_update", mapped TIME "last_update" invalid_on_zero);
    ("latency", mapped DOUBLE "latency" always_valid);
    ("low_flap_threshold", mapped DOUBLE "low_flap_threshold" always_valid);
    ("max_check_attempts", mapped SHORT "max_check_attempts" always_valid);
    ("next_check", mapped TIME "next_check" invalid_on_zero);
    ("next_notification", mapped TIME "next_host_notification" invalid_on_zero);
    ("no_more_notifications", mapped BOOL "no_more_notifications" always_valid);
    ("notes", mapped_string "notes" (col_size "hosts" "hosts_notes") always_valid);
    ("notes_url", mapped_string "notes_url" (col_size "hosts" "hosts_notes_url") always_valid);
    ("notification_interval", mapped DOUBLE "notification_interval" always_valid);
    ("notification_number", mapped SHORT "notification_number" always_valid);
    ("notification_period", mapped_string "notification_period" (col_size "hosts" "hosts_notification_period") always_valid);
    ("notifications_enabled", mapped BOOL "notify" always_valid);
    ("notify_on_down", mapped BOOL "notify_on_down" always_valid);
    ("notify_on_downtime", mapped BOOL "notify_on_downtime" always_valid);
    ("notify_on_flapping", mapped BOOL "notify_on_flapping" always_valid);
    ("notify_on_recovery", mapped BOOL "notify_on_recovery" always_valid);
    ("notify_on_unreachable", mapped BOOL "notify_on_unreachable" always_valid);
    ("obsess_over", mapped BOOL "obsess_over_host" always_valid);
    ("passive_checks_enabled", mapped BOOL "passive_checks" always_valid);
    ("percent_state_change", mapped DOUBLE "percent_state_change" always_valid);
    ("retry_interval", mapped DOUBLE "retry_interval" always_valid);
    ("should_be_scheduled", mapped BOOL "should_be_scheduled" always_valid);
    ("stalk_on_down", mapped BOOL "stalk_on_down" always_valid);
    ("stalk_on_unreachable", mapped BOOL "stalk_on_unreachable" always_valid);
    ("stalk_on_up", mapped BOOL "stalk_on_up" always_valid);
    ("statusmap_image", mapped_string "statusmap_image" (col_size "hosts" "hosts_statusmap_image") always_valid);
    ("state_type", mapped SHORT "state_type" always_valid);
    ("check_command", mapped_string "check_command" (col_size "hosts" "hosts_check_command") always_valid);
    ("output", mapped_string "output" (col_size "hosts" "hosts_output") always_valid);
    ("perf_data", mapped_string "perfdata" (col_size "hosts" "hosts_perfdata") always_valid);
    ("retain_nonstatus_information", mapped BOOL "retain_nonstatus_information" always_valid);
    ("retain_status_information", mapped BOOL "retain_status_information" always_valid);
    ("timezone", mapped_string "timezone" (col_size "hosts" "hosts_timezone") always_valid) ].

(** group. *)
Definition group_members : members := [
    ("enabled", VBool true); ("id", VUint 0); ("name", VString []); ("poller_id", VUint 0) ].

(** host_group. *)
Definition host_group_members : members := group_members.

Definition host_group_entries : table := [
    ("id", mapped UINT "hostgroup_id" invalid_on_zero);
    ("name", mapped_string "name" (col_size "hostgroups" "hostgroups_name") always_valid);
    ("enabled", Entry BOOL true None always_valid 0);
    ("poller_id", Entry UINT true None invalid_on_zero 0) ].

(** group_member. *)
Definition group_member_members : members := [
    ("enabled", VBool true); ("group_id", VUint 0); ("group_name", VString []); ("host_id", VUint 0);
    ("poller_id", VUint 0) ].

(** host_group_member. *)
Definition host_group_member_members : members := group_member_members.

Definition host_group_member_entries : table := [
    ("group_id", mapped UINT "hostgroup_id" invalid_on_zero);
    ("host_id", mapped UINT "host_id" invalid_on_zero);
    ("enabled", Entry BOOL true None always_valid 0);
    ("group_name", Entry STRING true None always_valid 0);
    ("poller_id", Entry UINT true None invalid_on_zero 0) ].

(** host_parent. *)
Definition host_parent_members : members := [
    ("enabled", VBool true); ("host_id", VUint 0); ("parent_id", VUint 0) ].

Definition host_parent_entries : table := [
    ("enabled", mapped BOOL "" always_valid);
    ("host_id", mapped UINT "child_id" invalid_on_zero);
    ("parent_id", mapped UINT "parent_id" invalid_on_zero) ].

Definition host_status_entries : table := [
    ("acknowledged", mapped BOOL "acknowledged" always_valid);
    ("acknowledgement_type", mapped SHORT "acknowledgement_type" always_valid);
    ("active_checks_enabled", mapped BOOL "active_checks" always_valid);
    ("check_interval", mapped DOUBLE "check_interval" always_valid);
    ("check_period", mapped_string "check_period" (col_size "hosts" "hosts_check_period") always_valid);
    ("check_type", mapped SHORT "check_type" always_valid);
    ("current_check_attempt", mapped SHORT "check_attempt" always_valid);
    ("current_state", mapped SHORT "state" always_valid);
    ("downtime_depth", mapped SHORT "scheduled_downtime_depth" always_valid);
    ("enabled", mapped BOOL "enabled" always_valid);
    ("event_handler", mapped_string "event_handler" (col_size "hosts" "hosts_event_handler") always_valid);
    ("event_handler_enabled", mapped BOOL "event_handler_enabled" always_valid);
    ("execution_time", mapped DOUBLE "execution_time" always_valid);
    ("flap_detection_enabled", mapped BOOL "flap_detection" always_valid);
    ("has_been_checked", mapped BOOL "checked" always_valid);
    ("host_id", mapped UINT "host_id" invalid_on_zero);
    ("is_flapping", mapped BOOL "flapping" always_valid);
    ("last_check", mapped TIME "last_check" invalid_on_zero);
    ("last_hard_state", mapped SHORT "last_hard_state" always_valid);
    ("last_hard_state_change", mapped TIME "last_hard_state_change" invalid_on_zero);
    ("last_notification", mapped TIME "last_notification" invalid_on_zero);
    ("last_state_change", mapped TIME "last_state_change" invalid_on_zero);
    ("last_time_down", mapped TIME "last_time_down" invalid_on_zero);
    ("last_time_unreachable", mapped TIME "last_time_unreachable" invalid_on_zero);
    ("last_time_up", mapped TIME "last_time_up" invalid_on_zero);
    ("last_update", mapped TIME "last_update" invalid_on_zero);
    ("latency", mapped DOUBLE "latency" always_valid);
    ("max_check_attempts", mapped SHORT "max_check_attempts" always_valid);
    ("next_check", mapped TIME "next_check" invalid_on_zero);
    ("next_notification", Entry TIME false (Some (str "next_host_notification")) invalid_on_zero 0);
    ("no_more_notifications", mapped BOOL "no_more_notifications" always_valid);
    ("notification_number", mapped SHORT "notification_number" always_valid);
    ("notifications_enabled", mapped BOOL "notify" always_valid);
    ("obsess_over", mapped BOOL "obsess_over_host" always_valid);
    ("passive_checks_enabled", mapped BOOL "passive_checks" always_valid);
    ("percent_state_change", mapped DOUBLE "percent_state_change" always_valid);
    ("retry_interval", mapped DOUBLE "retry_interval" always_valid);
    ("should_be_scheduled", mapped BOOL "should_be_scheduled" always_valid);
    ("state_type", mapped SHORT "state_type" always_valid);
    ("check_command", mapped_string "check_command" (col_size "hosts" "hosts_check_command") always_valid);
    ("output", mapped_string "output" (col_size "hosts" "hosts_output") always_valid);
    ("perf_data", mapped_string "perfdata" (col_size "hosts" "hosts_perfdata") always_valid) ].

(** instance. *)
Definition instance_members : members := [
    ("engine", VString []); ("is_running", VBool true); ("name", VString []); ("pid", VUint 0);
    ("poller_id", VUint 0); ("program_end", VTime (-1)); ("program_start", VTime (-1));
    ("version", VString []) ].

Definition instance_entries : table := [
    ("engine", mapped_string "engine" (col_size "instances" "instances_engine") always_valid);
    ("poller_id", mapped UINT "instance_id" invalid_on_zero);
    ("name", mapped_string "name" (col_size "instances" "instances_name") always_valid);
    ("is_running", mapped BOOL "running" always_valid);
    ("pid", mapped UINT "pid" always_valid);
    ("program_end", mapped TIME "end_time" invalid_on_minus_one);
    ("program_start", mapped TIME "start_time" invalid_on_minus_one);
    ("version", mapped_string "version" (col_size "instances" "instances_version") always_valid) ].

(** instance_status. *)
Definition instance_status_members : members := status_members ++ [
    ("active_host_checks_enabled", VBool false); ("active_service_checks_enabled", VBool false);
    ("check_hosts_freshness", VBool false); ("check_services_freshness", VBool false);
    ("global_host_event_handler", VString []); ("global_service_event_handler", VString []);
    ("last_alive", VTime (-1)); ("last_command_check", VTime (-1)); ("obsess_over_hosts", VBool false);
    ("obsess_over_services", VBool false); ("passive_host_checks_enabled", VBool false);
    ("passive_service_checks_enabled", VBool false); ("poller_id", VUint 0) ].

Definition instance_status_entries : table := [
    ("active_host_checks_enabled", mapped BOOL "active_host_checks" always_valid);
    ("active_service_checks_enabled", mapped BOOL "active_service_checks" always_valid);
    ("check_hosts_freshness", mapped BOOL "check_hosts_freshness" always_valid);
    ("check_services_freshness", mapped BOOL "check_services_freshness" always_valid);
    ("event_handler_enabled", mapped BOOL "event_handlers" always_valid);
    ("flap_detection_enabled", mapped BOOL "flap_detection" always_valid);
    ("poller_id", mapped UINT "instance_id" invalid_on_zero);
    ("last_alive", mapped TIME "last_alive" invalid_on_minus_one);
    ("last_command_check", mapped TIME "last_command_check" invalid_on_minus_one);
    ("notifications_enabled", mapped BOOL "notifications" always_valid);
    ("obsess_over_hosts", mapped BOOL "obsess_over_hosts" always_valid);
    ("obsess_over_services", mapped BOOL "obsess_over_services" always_valid);
    ("passive_host_checks_enabled", mapped BOOL "passive_host_checks" always_valid);
    ("passive_service_checks_enabled", mapped BOOL "passive_service_checks" always_valid);
    ("global_host_event_handler", mapped_string "global_host_event_handler" (col_size "instances" "instances_global_host_event_handler") always_valid);
    ("global_service_event_handler", mapped_string "global_service_event_handler" (col_size "instances" "instances_global_service_event_handler") always_valid) ].

(** log_entry. *)
Definition log_entry_members : members := [
    ("c_time", VTime 0); ("host_id", VUint 0); ("host_name", VString []); ("issue_start_time", VTime 0);
    ("log_type", VShort 0); ("msg_type", VShort 5); ("notification_cmd", VString []);
    ("notification_contact", VString []); ("output", VString []); ("poller_name", VString []);
    ("retry", VInt 0); ("service_description", VString []); ("service_id", VUint 0); ("status", VShort 0) ].

Definition log_entry_entries : table := [
    ("c_time", mapped TIME "ctime" always_valid);
    ("host_id", mapped UINT "host_id" invalid_on_zero);
    ("host_name", mapped_string "host_name" (col_size "logs" "logs_host_name") always_valid);
    ("poller_name", mapped_string "instance_name" (col_size "logs" "logs_instance_name") always_valid);
    ("issue_start_time", mapped TIME "" invalid_on_minus_one);
    ("log_type", mapped SHORT "type" always_valid);
    ("msg_type", mapped SHORT "msg_type" always_valid);
    ("notification_cmd", mapped_string "notification_cmd" (col_size "logs" "logs_notification_cmd") always_valid);
    ("notification_contact", mapped_string "notification_contact" (col_size "logs" "logs_notification_contact") always_valid);
    ("retry", mapped INT "retry" always_valid);
    ("service_description", mapped_string "service_description" (col_size "logs" "logs_service_description") invalid_on_zero);
    ("service_id", mapped UINT "service_id" invalid_on_zero);
    ("status", mapped SHORT "status" always_valid);
    ("output", mapped_string "output" (col_size "logs" "logs_output") always_valid) ].

(** module. *)
Definition module_members : members := [
    ("args", VString []); ("enabled", VBool true); ("filename", VString []); ("loaded", VBool false);
    ("poller_id", VUint 0); ("should_be_loaded", VBool false) ].

Definition module_entries : table := [
    ("args", mapped_string "args" (col_size "modules" "modules_args") always_valid);
    ("enabled", mapped BOOL "" always_valid);
    ("filename", mapped_string "filename" (col_size "modules" "modules_filename") always_valid);
    ("poller_id", mapped UINT "instance_id" invalid_on_zero);
    ("loaded", mapped BOOL "loaded" always_valid);
    ("should_be_loaded", mapped BOOL "should_be_loaded" always_valid) ].

(** service_check. *)
Definition service_check_members : members := check_members ++ [
    ("service_id", VUint 0) ].

Definition service_check_entries : table := [
    ("active_checks_enabled", mapped BOOL "" always_valid);
    ("check_type", mapped SHORT "" always_valid);
    ("host_id", mapped UINT "host_id" invalid_on_zero);
    ("next_check", mapped TIME "" always_valid);
    ("service_id", mapped UINT "service_id" invalid_on_zero);
    ("command_line", mapped_string "command_line" (col_size "services" "services_command_line") always_valid) ].

(** service_dependency. *)
Definition service_dependency_members : members := dependency_members ++ [
    ("dependent_service_id", VUint 0); ("service_id", VUint 0) ].

Definition service_dependency_entries : table := [
    ("dependency_period", mapped_string "dependency_period" (col_size "services_services_dependencies" "services_services_dependencies_dependency_period") always_valid);
    ("dependent_host_id", mapped UINT "dependent_host_id" invalid_on_zero);
    ("dependent_service_id", mapped UINT "dependent_service_id" invalid_on_zero);
    ("enabled", mapped BOOL "" always_valid);
    ("execution_failure_options", mapped_string "execution_failure_options" (col_size "services_services_dependencies" "services_services_dependencies_execution_failure_options") always_valid);
    ("host_id", mapped UINT "host_id" invalid_on_zero);
    ("inherits_parent", mapped BOOL "inherits_parent" always_valid);
    ("notification_failure_options", mapped_string "notification_failure_options" (col_size "services_services_dependencies" "services_services_dependencies_notification_failure_options") always_valid);
    ("service_id", mapped UINT "service_id" invalid_on_zero) ].

(** service_status. *)
Definition service_status_members : members := host_service_status_members ++ [
    ("host_name", VString []); ("last_time_critical", VTime 0); ("last_time_ok", VTime 0);
    ("last_time_unknown", VTime 0); ("last_time_warning", VTime 0); ("service_description", VString []);
    ("service_id", VUint 0) ].

(** service. *)
Definition service_members : members := host_service_members ++ service_status_members ++ [
    ("flap_detection_on_critical", VBool false); ("flap_detection_on_ok", VBool false);
    ("flap_detection_on_unknown", VBool false); ("flap_detection_on_warning", VBool false);
    ("is_volatile", VBool false); ("notify_on_critical", VBool false);
    ("notify_on_unknown", VBool false); ("notify_on_warning", VBool false);
    ("stalk_on_critical", VBool false); ("stalk_on_ok", VBool false); ("stalk_on_unknown", VBool false);
    ("stalk_on_warning", VBool false) ].

Definition service_entries : table := [
    ("acknowledged", mapped BOOL "acknowledged" always_valid);
    ("acknowledgement_type", mapped SHORT "acknowledgement_type" always_valid);
    ("action_url", mapped_string "action_url" (col_size "services" "services_action_url") always_valid);
    ("active_checks_enabled", mapped BOOL "active_checks" always_valid);
    ("check_freshness", mapped BOOL "check_freshness" always_valid);
    ("check_interval", mapped DOUBLE "check_interval" always_valid);
    ("check_period", mapped_string "check_period" (col_size "services" "services_check_period") always_valid);
    ("check_type", mapped SHORT "check_type" always_valid);
    ("current_check_attempt", mapped SHORT "check_attempt" always_valid);
    ("current_state", mapped SHORT "state" always_valid);
    ("default_active_checks_enabled", mapped BOOL "default_active_checks" always_valid);
    ("default_event_handler_enabled", mapped BOOL "default_event_handler_enabled" always_valid);
    ("default_flap_detection_enabled", mapped BOOL "default_flap_detection" always_valid);
    ("default_notifications_enabled", mapped BOOL "default_notify" always_valid);
    ("default_passive_checks_enabled", mapped BOOL "default_passive_checks" always_valid);
    ("downtime_depth", mapped SHORT "scheduled_downtime_depth" always_valid);
    ("display_name", mapped_string "display_name" (col_size "services" "services_display_name") always_valid);
    ("enabled", mapped BOOL "enabled" always_valid);
    ("event_handler", mapped_string "event_handler" (col_size "services" "services_event_handler") always_valid);
    ("event_handler_enabled", mapped BOOL "event_handler_enabled" always_valid);
    ("execution_time", mapped DOUBLE "execution_time" always_valid);
    ("first_notification_delay", mapped DOUBLE "first_notification_delay" always_valid);
    ("flap_detection_enabled", mapped BOOL "flap_detection" always_valid);
    ("flap_detection_on_critical", mapped BOOL "flap_detection_on_critical" always_valid);
    ("flap_detection_on_ok", mapped BOOL "flap_detection_on_ok" always_valid);
    ("flap_detection_on_unknown", mapped BOOL "flap_detection_on_unknown" always_valid);
    ("flap_detection_on_warning", mapped BOOL "flap_detection_on_warning" always_valid);
    ("freshness_threshold", mapped DOUBLE "freshness_threshold" always_valid);
    ("has_been_checked", mapped BOOL "checked" always_valid);
    ("high_flap_threshold", mapped DOUBLE "high_flap_threshold" always_valid);
    ("host_id", mapped UINT "host_id" invalid_on_zero);
    ("host_name", Entry STRING true None always_valid 0);
    ("icon_image", mapped_string "icon_image" (col_size "services" "services_icon_image") always_valid);
    ("icon_image_alt", mapped_string "icon_image_alt" (col_size "services" "services_icon_image_alt") always_valid);
    ("service_id", mapped UINT "service_id" invalid_on_zero);
    ("is_flapping", mapped BOOL "flapping" always_valid);
    ("is_volatile", mapped BOOL "volatile" always_valid);
    ("last_check", mapped TIME "last_check" invalid_on_zero);
    ("last_hard_state", mapped SHORT "last_hard_state" always_valid);
    ("last_hard_state_change", mapped TIME "last_hard_state_change" invalid_on_zero);
    ("last_notification", mapped TIME "last_notification" invalid_on_zero);
    ("last_state_change", mapped TIME "last_state_change" invalid_on_zero);
    ("last_time_critical", mapped TIME "last_time_critical" invalid_on_zero);
    ("last_time_ok", mapped TIME "last_time_ok" invalid_on_zero);
    ("last_time_unknown", mapped TIME "last_time_unknown" invalid_on_zero);
    ("last_time_warning", mapped TIME "last_time_warning" invalid_on_zero);
    ("last_update", mapped TIME "last_update" invalid_on_zero);
    ("latency", mapped DOUBLE "latency" always_valid);
    ("low_flap_threshold", mapped DOUBLE "low_flap_threshold" always_valid);
    ("max_check_attempts", mapped SHORT "max_check_attempts" always_valid);
    ("next_check", mapped TIME "next_check" invalid_on_zero);
    ("next_notification", mapped TIME "next_notification" invalid_on_zero);
    ("no_more_notifications", mapped BOOL "no_more_notifications" always_valid);
    ("notes", mapped_string "notes" (col_size "services" "services_notes") always_valid);
    ("notes_url", mapped_string "notes_url" (col_size "services" "services_notes_url") always_valid);
    ("notification_interval", mapped DOUBLE "notification_interval" always_valid);
    ("notification_number", mapped SHORT "notification_number" always_valid);
    ("notification_period", mapped_string "notification_period" (col_size "services" "services_notification_period") always_valid);
    ("notifications_enabled", mapped BOOL "notify" always_valid);
    ("notify_on_critical", mapped BOOL "notify_on_critical" always_valid);
    ("notify_on_downtime", mapped BOOL "notify_on_downtime" always_valid);
    ("notify_on_flapping", mapped BOOL "notify_on_flapping" always_valid);
    ("notify_on_recovery", mapped BOOL "notify_on_recovery" always_valid);
    ("notify_on_unknown", mapped BOOL "notify_on_unknown" always_valid);
    ("notify_on_warning", mapped BOOL "notify_on_warning" always_valid);
    ("obsess_over", mapped BOOL "obsess_over_service" always_valid);
    ("passive_checks_enabled", mapped BOOL "passive_checks" always_valid);
    ("percent_state_change", mapped DOUBLE "percent_state_change" always_valid);
    ("retry_interval", mapped DOUBLE "retry_interval" always_valid);
    ("service_description", mapped_string "description" (col_size "services" "services_description") always_valid);
    ("should_be_scheduled", mapped BOOL "should_be_scheduled" always_valid);
    ("stalk_on_critical", mapped BOOL "stalk_on_critical" always_valid);
    ("stalk_on_ok", mapped BOOL "stalk_on_ok" always_valid);
    ("stalk_on_unknown", mapped BOOL "stalk_on_unknown" always_valid);
    ("stalk_on_warning", mapped BOOL "stalk_on_warning" always_valid);
    ("state_type", mapped SHORT "state_type" always_valid);
    ("check_command", mapped_string "check_command" (col_size "services" "services_check_command") always_valid);
    ("output", mapped_string "output" (col_size "services" "services_output") always_valid);
    ("perf_data", mapped_string "perfdata" (col_size "services" "services_perfdata") always_valid);
    ("retain_nonstatus_information", mapped BOOL "retain_nonstatus_information" always_valid);
    ("retain_status_information", mapped BOOL "retain_status_information" always_valid) ].

(** service_group. *)
Definition service_group_members : members := group_members.

Definition service_group_entries : table := [
    ("id", mapped UINT "servicegroup_id" invalid_on_zero);
    ("name", mapped_string "name" (col_size "servicegroups" "servicegroups_name") always_valid);
    ("enabled", Entry BOOL true None always_valid 0);
    ("poller_id", Entry UINT true None invalid_on_zero 0) ].

(** service_group_member. *)
Definition service_group_member_members : members := group_member_members ++ [
    ("service_id", VUint 0) ].

Definition service_group_member_entries : table := [
    ("group_id", mapped UINT "servicegroup_id" invalid_on_zero);
    ("host_id", mapped UINT "host_id" invalid_on_zero);
    ("service_id", mapped UINT "service_id" invalid_on_zero);
    ("enabled", Entry BOOL true None always_valid 0);
    ("group_name", Entry STRING true None always_valid 0);
    ("poller_id", Entry UINT true None invalid_on_zero 0) ].

Definition service_status_entries : table := [
    ("acknowledged", mapped BOOL "acknowledged" always_valid);
    ("acknowledgement_type", mapped SHORT "acknowledgement_type" always_valid);
    ("active_checks_enabled", mapped BOOL "active_checks" always_valid);
    ("check_interval", mapped DOUBLE "check_interval" always_valid);
    ("check_period", mapped_string "check_period" (col_size "services" "services_check_period") always_valid);
    ("check_type", mapped SHORT "check_type" always_valid);
    ("current_check_attempt", mapped SHORT "check_attempt" always_valid);
    ("current_state", mapped SHORT "state" always_valid);
    ("downtime_depth", mapped SHORT "scheduled_downtime_depth" always_valid);
    ("enabled", mapped BOOL "enabled" always_valid);
    ("event_handler", mapped_string "event_handler" (col_size "services" "services_event_handler") always_valid);
    ("event_handler_enabled", mapped BOOL "event_handler_enabled" always_valid);
    ("execution_time", mapped DOUBLE "execution_time" always_valid);
    ("flap_detection_enabled", mapped BOOL "flap_detection" always_valid);
    ("has_been_checked", mapped BOOL "checked" always_valid);
    ("host_id", mapped UINT "host_id" invalid_on_zero);
    ("host_name", Entry STRING true None always_valid 0);
    ("is_flapping", mapped BOOL "flapping" always_valid);
    ("last_check", mapped TIME "last_check" invalid_on_zero);
    ("last_hard_state", mapped SHORT "last_hard_state" always_valid);
    ("last_hard_state_change", mapped TIME "last_hard_state_change" invalid_on_zero);
    ("last_notification", mapped TIME "last_notification" invalid_on_zero);
    ("last_state_change", mapped TIME "last_state_change" invalid_on_zero);
    ("last_time_critical", mapped TIME "last_time_critical" invalid_on_zero);
    ("last_time_ok", mapped TIME "last_time_ok" invalid_on_zero);
    ("last_time_unknown", mapped TIME "last_time_unknown" invalid_on_zero);
    ("last_time_warning", mapped TIME "last_time_warning" invalid_on_zero);
    ("last_update", mapped TIME "last_update" invalid_on_zero);
    ("latency", mapped DOUBLE "latency" always_valid);
    ("max_check_attempts", mapped SHORT "max_check_attempts" always_valid);
    ("next_check", mapped TIME "next_check" invalid_on_zero);
    ("next_notification", mapped TIME "next_notification" invalid_on_zero);
    ("no_more_notifications", mapped BOOL "no_more_notifications" always_valid);
    ("notification_number", mapped SHORT "notification_number" always_valid);
    ("notifications_enabled", mapped BOOL "notify" always_valid);
    ("obsess_over", mapped BOOL "obsess_over_service" always_valid);
    ("passive_checks_enabled", mapped BOOL "passive_checks" always_valid);
    ("percent_state_change", mapped DOUBLE "percent_state_change" always_valid);
    ("retry_interval", mapped DOUBLE "retry_interval" always_valid);
    ("service_description", Entry STRING true None always_valid 0);
    ("service_id", mapped UINT "service_id" invalid_on_zero);
    ("should_be_scheduled", mapped BOOL "should_be_scheduled" always_valid);
    ("state_type", mapped SHORT "state_type" always_valid);
    ("check_command", mapped_string "check_command" (col_size "services" "services_check_command") always_valid);
    ("output", mapped_string "output" (col_size "services" "services_output") always_valid);
    ("perf_data", mapped_string "perfdata" (col_size "services" "services_perfdata") always_valid) ].

(** instance_configuration. *)
Definition instance_configuration_members : members := [
    ("loaded", VBool false); ("poller_id", VUint 0) ].

Definition instance_configuration_entries : table := [
    ("loaded", mapped BOOL "loaded" always_valid);
    ("poller_id", mapped UINT "poller_id" always_valid) ].

(** responsive_instance. *)
Definition responsive_instance_members : members := [
    ("poller_id", VUint 0); ("responsive", VBool true) ].

Definition responsive_instance_entries : table := [
    ("poller_id", mapped UINT "poller_id" always_valid);
    ("responsive", mapped BOOL "responsive" always_valid) ].

(** The events that are registered, in this order. *)
Definition neb_events : list (Z * event_info) := [
    (element de_acknowledgement, event "acknowledgement" acknowledgement_members acknowledgement_entries "acknowledgements");
    (element de_comment, event "comment" comment_members comment_entries "comments");
    (element de_custom_variable, event "custom_variable" custom_variable_members custom_variable_entries "customvariables");
    (element de_custom_variable_status, event "custom_variable_status" custom_variable_status_members custom_variable_status_entries "customvariables");
    (element de_downtime, event "downtime" downtime_members downtime_entries "downtimes");
    (element de_event_handler, event "event_handler" event_handler_members event_handler_entries "eventhandlers");
    (element de_flapping_status, event "flapping_status" flapping_status_members flapping_status_entries "flappingstatuses");
    (element de_host_check, event "host_check" host_check_members host_check_entries "hosts");
    (element de_host_dependency, event "host_dependency" host_dependency_members host_dependency_entries "hosts_hosts_dependencies");
    (element de_host, event "host" host_members host_entries "hosts");
    (element de_host_group, event "host_group" host_group_members host_group_entries "hostgroups");
    (element de_host_group_member, event "host_group_member" host_group_member_members host_group_member_entries "hosts_hostgroups");
    (element de_host_parent, event "host_parent" host_parent_members host_parent_entries "hosts_hosts_parents");
    (element de_host_status, event "host_status" host_status_members host_status_entries "hosts");
    (element de_instance, event "instance" instance_members instance_entries "instances");
    (element de_instance_status, event "instance_status" instance_status_members instance_status_entries "instances");
    (element de_log_entry, event "log_entry" log_entry_members log_entry_entries "logs");
    (element de_module, event "module" module_members module_entries "modules");
    (element de_service_check, event "service_check" service_check_members service_check_entries "services");
    (element de_service_dependency, event "service_dependency" service_dependency_members service_dependency_entries "services_services_dependencies");
    (element de_service, event "service" service_members service_entries "services");
    (element de_service_group, event "service_group" service_group_members service_group_entries "servicegroups");
    (element de_service_group_member, event "service_group_member" service_group_member_members service_group_member_entries "services_servicegroups");
    (element de_service_status, event "service_status" service_status_members service_status_entries "services");
    (element de_instance_configuration, event "instance_configuration" instance_configuration_members instance_configuration_entries "");
    (element de_responsive_instance, event "responsive_instance" responsive_instance_members responsive_instance_entries "") ].
End Tables.
End NebEvents.
