(* ===== verification/BamEvents.v ===== *)
(** * The events of business activities (bam/src)

    For each class of bam/src, what its constructor (those of its bases
    first) leaves in its members, and its mapping, entry by entry: the member, its
    type, the name of its column, the size of the column for texts, the
    value that means NULL. Members of other types than those of mappings, and
    those a constructor leaves uninitialised, have no entry. The sizes of the
    columns are generated from the schema at build time
    (get_<table>_col_size): they are a parameter. *)

From Stdlib Require Import ZArith Lia Strings.Byte Strings.String Floats.SpecFloat.
From stdpp Require Import base option list numbers strings gmap.
From S2P Require Import Prelude Double Events Mapping.

Module BamEvents.
Import Events Mapping Dbl.
#[local] Open Scope string_scope.
#[local] Open Scope list_scope.

Section Tables.
Context (col_size : string -> string -> Z).

(** The elements of the category. *)
Inductive data_element : Type :=
  | de_ba_status
  | de_kpi_status
  | de_meta_service_status
  | de_ba_event
  | de_kpi_event
  | de_ba_duration_event
  | de_dimension_ba_event
  | de_dimension_kpi_event
  | de_dimension_ba_bv_relation_event
  | de_dimension_bv_event
  | de_dimension_truncate_table_signal
  | de_rebuild
  | de_dimension_timeperiod
  | de_dimension_ba_timeperiod_relation
  | de_dimension_timeperiod_exception
  | de_dimension_timeperiod_exclusion
  | de_inherited_downtime.

Definition element (de : data_element) : Z :=
  match de with
  | de_ba_status => 1
  | de_kpi_status => 2
  | de_meta_service_status => 3
  | de_ba_event => 4
  | de_kpi_event => 5
  | de_ba_duration_event => 6
  | de_dimension_ba_event => 7
  | de_dimension_kpi_event => 8
  | de_dimension_ba_bv_relation_event => 9
  | de_dimension_bv_event => 10
  | de_dimension_truncate_table_signal => 11
  | de_rebuild => 12
  | de_dimension_timeperiod => 13
  | de_dimension_ba_timeperiod_relation => 14
  | de_dimension_timeperiod_exception => 15
  | de_dimension_timeperiod_exclusion => 16
  | de_inherited_downtime => 17
  end.

(** ba_status. *)
Definition ba_status_members : members := [
    ("ba_id", VUint 0); ("in_downtime", VBool false); ("last_state_change", VTime (-1));
    ("level_acknowledgement", VDouble (of_Z 0)); ("level_downtime", VDouble (of_Z 0));
    ("level_nominal", VDouble (of_Z 100)); ("state", VShort 0); ("state_changed", VBool false) ].

Definition ba_status_entries : table := [
    ("ba_id", mapped UINT "ba_id" invalid_on_zero);
    ("in_downtime", mapped BOOL "in_downtime" always_valid);
    ("last_state_change", mapped TIME "last_state_change" always_valid);
    ("level_acknowledgement", mapped DOUBLE "level_acknowledgement" always_valid);
    ("level_downtime", mapped DOUBLE "level_downtime" always_valid);
    ("level_nominal", mapped DOUBLE "level_nominal" always_valid);
    ("state", mapped SHORT "state" always_valid);
    ("state_changed", mapped BOOL "state_changed" always_valid) ].

(** kpi_status. *)
Definition kpi_status_members : members := [
    ("kpi_id", VUint 0); ("in_downtime", VBool false); ("level_acknowledgement_hard", VDouble (of_Z 0));
    ("level_acknowledgement_soft", VDouble (of_Z 0)); ("level_downtime_hard", VDouble (of_Z 0));
    ("level_downtime_soft", VDouble (of_Z 0)); ("level_nominal_hard", VDouble (of_Z 100));
    ("level_nominal_soft", VDouble (of_Z 100)); ("state_hard", VShort 0); ("state_soft", VShort 0);
    ("last_state_change", VTime 0); ("last_impact", VDouble (of_Z 0)); ("valid", VBool true) ].

Definition kpi_status_entries : table := [
    ("kpi_id", mapped UINT "kpi_id" invalid_on_zero);
    ("in_downtime", mapped BOOL "in_downtime" always_valid);
    ("level_acknowledgement_hard", mapped DOUBLE "level_acknowledgement_hard" always_valid);
    ("level_acknowledgement_soft", mapped DOUBLE "level_acknowledgement_soft" always_valid);
    ("level_downtime_hard", mapped DOUBLE "level_downtime_hard" always_valid);
    ("level_downtime_soft", mapped DOUBLE "level_downtime_soft" always_valid);
    ("level_nominal_hard", mapped DOUBLE "level_nominal_hard" always_valid);
    ("level_nominal_soft", mapped DOUBLE "level_nominal_soft" always_valid);
    ("state_hard", mapped SHORT "state_hard" always_valid);
    ("state_soft", mapped SHORT "state_soft" always_valid);
    ("last_state_change", mapped TIME "last_state_change" always_valid);
    ("last_impact", mapped DOUBLE "last_impact" always_valid);
    ("valid", mapped BOOL "valid" always_valid) ].

(** meta_service_status. *)
Definition meta_service_status_members : members := [
    ("meta_service_id", VUint 0); ("state_changed", VBool false); ("value", VDouble S754_nan) ].

Definition meta_service_status_entries : table := [
    ("meta_service_id", mapped UINT "meta_service_id" invalid_on_zero);
    ("value", mapped DOUBLE "value" always_valid);
    ("state_changed", mapped BOOL "" always_valid) ].

(** ba_event. *)
Definition ba_event_members : members := [
    ("ba_id", VUint 0); ("first_level", VDouble (of_Z 0)); ("end_time", VTime (-1));
    ("in_downtime", VBool false); ("start_time", VTime (-1)); ("status", VShort 3) ].

Definition ba_event_entries : table := [
    ("ba_id", mapped UINT "ba_id" invalid_on_zero);
    ("first_level", mapped DOUBLE "first_level" always_valid);
    ("end_time", mapped TIME "end_time" always_valid);
    ("in_downtime", mapped BOOL "in_downtime" always_valid);
    ("start_time", mapped TIME "start_time" always_valid);
    ("status", mapped SHORT "status" always_valid) ].

(** kpi_event. *)
Definition kpi_event_members : members := [
    ("end_time", VTime (-1)); ("kpi_id", VUint 0); ("impact_level", VInt 0);
    ("in_downtime", VBool false); ("output", VString []); ("perfdata", VString []);
    ("start_time", VTime (-1)); ("status", VShort 3); ("ba_id", VUint 0) ].

Definition kpi_event_entries : table := [
    ("kpi_id", mapped UINT "kpi_id" invalid_on_zero);
    ("end_time", mapped TIME "end_time" always_valid);
    ("impact_level", mapped INT "impact_level" always_valid);
    ("in_downtime", mapped BOOL "in_downtime" always_valid);
    ("output", mapped_string "first_output" (col_size "mod_bam_reporting_kpi_events" "mod_bam_reporting_kpi_events_first_output") always_valid);
    ("perfdata", mapped_string "first_perfdata" (col_size "mod_bam_reporting_kpi_events" "mod_bam_reporting_kpi_events_first_perfdata") always_valid);
    ("start_time", mapped TIME "start_time" always_valid);
    ("status", mapped SHORT "status" always_valid) ].

(** ba_duration_event. *)
Definition ba_duration_event_members : members := [
    ("ba_id", VUint 0); ("real_start_time", VTime (-1)); ("end_time", VTime (-1));
    ("start_time", VTime (-1)); ("duration", VUint 0); ("sla_duration", VUint 0);
    ("timeperiod_id", VUint 0); ("timeperiod_is_default", VBool false) ].

Definition ba_duration_event_entries : table := [
    ("ba_id", mapped UINT "ba_id" invalid_on_zero);
    ("real_start_time", mapped TIME "real_start_time" always_valid);
    ("end_time", mapped TIME "end_time" always_valid);
    ("start_time", mapped TIME "start_time" always_valid);
    ("duration", mapped UINT "duration" always_valid);
    ("sla_duration", mapped UINT "sla_duration" always_valid);
    ("timeperiod_id", mapped UINT "timeperiod_id" invalid_on_zero);
    ("timeperiod_is_default", mapped BOOL "timeperiod_is_default" always_valid) ].

(** dimension_ba_event. *)
Definition dimension_ba_event_members : members := [
    ("ba_id", VUint 0); ("ba_name", VString []); ("ba_description", VString []);
    ("sla_month_percent_crit", VDouble (of_Z 0)); ("sla_month_percent_warn", VDouble (of_Z 0));
    ("sla_duration_crit", VUint 0); ("sla_duration_warn", VUint 0) ].

Definition dimension_ba_event_entries : table := [
    ("ba_id", mapped UINT "ba_id" invalid_on_zero);
    ("ba_name", mapped_string "ba_name" (col_size "mod_bam_reporting_ba" "mod_bam_reporting_ba_ba_name") always_valid);
    ("ba_description", mapped_string "ba_description" (col_size "mod_bam_reporting_ba" "mod_bam_reporting_ba_ba_description") always_valid);
    ("sla_month_percent_crit", mapped DOUBLE "sla_month_percent_crit" always_valid);
    ("sla_month_percent_warn", mapped DOUBLE "sla_month_percent_warn" always_valid);
    ("sla_duration_crit", mapped UINT "sla_month_duration_crit" always_valid);
    ("sla_duration_warn", mapped UINT "sla_month_duration_warn" always_valid) ].

(** dimension_kpi_event. *)
Definition dimension_kpi_event_members : members := [
    ("kpi_id", VUint 0); ("ba_id", VUint 0); ("ba_name", VString []); ("host_id", VUint 0);
    ("host_name", VString []); ("service_id", VUint 0); ("service_description", VString []);
    ("kpi_ba_id", VUint 0); ("kpi_ba_name", VString []); ("meta_service_id", VUint 0);
    ("meta_service_name", VString []); ("boolean_id", VUint 0); ("boolean_name", VString []);
    ("impact_warning", VDouble (of_Z 0)); ("impact_critical", VDouble (of_Z 0));
    ("impact_unknown", VDouble (of_Z 0)) ].

Definition dimension_kpi_event_entries : table := [
    ("kpi_id", mapped UINT "kpi_id" invalid_on_zero);
    ("ba_id", mapped UINT "ba_id" invalid_on_zero);
    ("ba_name", mapped_string "ba_name" (col_size "mod_bam_reporting_kpi" "mod_bam_reporting_kpi_ba_name") always_valid);
    ("host_id", mapped UINT "host_id" invalid_on_zero);
    ("host_name", mapped_string "host_name" (col_size "mod_bam_reporting_kpi" "mod_bam_reporting_kpi_host_name") always_valid);
    ("service_id", mapped UINT "service_id" invalid_on_zero);
    ("service_description", mapped_string "service_description" (col_size "mod_bam_reporting_kpi" "mod_bam_reporting_kpi_service_description") always_valid);
    ("kpi_ba_id", mapped UINT "kpi_ba_id" invalid_on_zero);
    ("kpi_ba_name", mapped_string "kpi_ba_name" (col_size "mod_bam_reporting_kpi" "mod_bam_reporting_kpi_kpi_ba_name") always_valid);
    ("meta_service_id", mapped UINT "meta_service_id" invalid_on_zero);
    ("meta_service_name", mapped_string "meta_service_name" (col_size "mod_bam_reporting_kpi" "mod_bam_reporting_kpi_meta_service_name") invalid_on_zero);
    ("boolean_id", mapped UINT "boolean_id" invalid_on_zero);
    ("boolean_name", mapped_string "boolean_name" (col_size "mod_bam_reporting_kpi" "mod_bam_reporting_kpi_boolean_name") invalid_on_zero);
    ("impact_warning", mapped DOUBLE "impact_warning" always_valid);
    ("impact_critical", mapped DOUBLE "impact_critical" always_valid);
    ("impact_unknown", mapped DOUBLE "impact_unknown" always_valid) ].

(** dimension_ba_bv_relation_event. *)
Definition dimension_ba_bv_relation_event_members : members := [
    ("ba_id", VUint 0); ("bv_id", VUint 0) ].

Definition dimension_ba_bv_relation_event_entries : table := [
    ("ba_id", mapped UINT "ba_id" invalid_on_zero);
    ("bv_id", mapped UINT "bv_id" invalid_on_zero) ].

(** dimension_bv_event. *)
Definition dimension_bv_event_members : members := [
    ("bv_id", VUint 0); ("bv_name", VString []); ("bv_description", VString []) ].

Definition dimension_bv_event_entries : table := [
    ("bv_id", mapped UINT "bv_id" invalid_on_zero);
    ("bv_name", mapped_string "bv_name" (col_size "mod_bam_reporting_bv" "mod_bam_reporting_bv_bv_name") always_valid);
    ("bv_description", mapped_string "bv_description" (col_size "mod_bam_reporting_bv" "mod_bam_reporting_bv_bv_description") always_valid) ].

(** dimension_truncate_table_signal. *)
Definition dimension_truncate_table_signal_members : members := [
    ("update_started", VBool true) ].

Definition dimension_truncate_table_signal_entries : table := [
    ("update_started", mapped BOOL "update_started" always_valid) ].

(** rebuild. *)
Definition bam_rebuild_members : members := [
    ("bas_to_rebuild", VString []) ].

Definition bam_rebuild_entries : table := [
    ("bas_to_rebuild", mapped_string "bas_to_rebuild" 0 always_valid) ].

(** dimension_timeperiod. *)
Definition dimension_timeperiod_members : members := [
    ("id", VUint 0); ("name", VString []); ("monday", VString []); ("tuesday", VString []);
    ("wednesday", VString []); ("thursday", VString []); ("friday", VString []);
    ("saturday", VString []); ("sunday", VString []) ].

Definition dimension_timeperiod_entries : table := [
    ("id", mapped UINT "tp_id" invalid_on_zero);
    ("name", mapped_string "name" (col_size "mod_bam_reporting_timeperiods" "mod_bam_reporting_timeperiods_name") always_valid);
    ("monday", mapped_string "monday" (col_size "mod_bam_reporting_timeperiods" "mod_bam_reporting_timeperiods_monday") always_valid);
    ("tuesday", mapped_string "tuesday" (col_size "mod_bam_reporting_timeperiods" "mod_bam_reporting_timeperiods_tuesday") always_valid);
    ("wednesday", mapped_string "wednesday" (col_size "mod_bam_reporting_timeperiods" "mod_bam_reporting_timeperiods_wednesday") always_valid);
    ("thursday", mapped_string "thursday" (col_size "mod_bam_reporting_timeperiods" "mod_bam_reporting_timeperiods_thursday") always_valid);
    ("friday", mapped_string "friday" (col_size "mod_bam_reporting_timeperiods" "mod_bam_reporting_timeperiods_friday") always_valid);
    ("saturday", mapped_string "saturday" (col_size "mod_bam_reporting_timeperiods" "mod_bam_reporting_timeperiods_saturday") always_valid);
    ("sunday", mapped_string "sunday" (col_size "mod_bam_reporting_timeperiods" "mod_bam_reporting_timeperiods_sunday") always_valid) ].

(** dimension_ba_timeperiod_relation. *)
Definition dimension_ba_timeperiod_relation_members : members := [
    ("ba_id", VUint 0); ("timeperiod_id", VUint 0); ("is_default", VBool false) ].

Definition dimension_ba_timeperiod_relation_entries : table := [
    ("ba_id", mapped UINT "ba_id" invalid_on_zero);
    ("timeperiod_id", mapped UINT "timeperiod_id" invalid_on_zero);
    ("is_default", mapped BOOL "is_default" always_valid) ].

(** dimension_timeperiod_exception. *)
Definition dimension_timeperiod_exception_members : members := [
    ("daterange", VString []); ("timerange", VString []); ("timeperiod_id", VUint 0) ].

Definition dimension_timeperiod_exception_entries : table := [
    ("timeperiod_id", mapped UINT "timeperiod_id" invalid_on_zero);
    ("daterange", mapped_string "daterange" (col_size "mod_bam_reporting_timeperiods_exceptions" "mod_bam_reporting_timeperiods_exceptions_daterange") always_valid);
    ("timerange", mapped_string "timerange" (col_size "mod_bam_reporting_timeperiods_exceptions" "mod_bam_reporting_timeperiods_exceptions_timerange") always_valid) ].

(** dimension_timeperiod_exclusion. *)
Definition dimension_timeperiod_exclusion_members : members := [
    ("excluded_timeperiod_id", VUint 0); ("timeperiod_id", VUint 0) ].

Definition dimension_timeperiod_exclusion_entries : table := [
    ("timeperiod_id", mapped UINT "timeperiod_id" invalid_on_zero);
    ("excluded_timeperiod_id", mapped UINT "excluded_timeperiod_id" invalid_on_zero) ].

(** inherited_downtime. *)
Definition inherited_downtime_members : members := [
    ("ba_id", VUint 0); ("in_downtime", VBool false) ].

Definition inherited_downtime_entries : table := [
    ("ba_id", mapped UINT "ba_id" invalid_on_zero);
    ("in_downtime", mapped BOOL "in_downtime" always_valid) ].

(** The events that are registered, in this order. *)
Definition bam_events : list (Z * event_info) := [
    (element de_ba_status, event "ba_status" ba_status_members ba_status_entries "");
    (element de_kpi_status, event "kpi_status" kpi_status_members kpi_status_entries "");
    (element de_meta_service_status, event "meta_service_status" meta_service_status_members meta_service_status_entries "");
    (element de_ba_event, event "ba_event" ba_event_members ba_event_entries "");
    (element de_kpi_event, event "kpi_event" kpi_event_members kpi_event_entries "");
    (element de_ba_duration_event, event "ba_duration_event" ba_duration_event_members ba_duration_event_entries "");
    (element de_dimension_ba_event, event "dimension_ba_event" dimension_ba_event_members dimension_ba_event_entries "");
    (element de_dimension_kpi_event, event "dimension_kpi_event" dimension_kpi_event_members dimension_kpi_event_entries "");
    (element de_dimension_ba_bv_relation_event, event "dimension_ba_bv_relation_event" dimension_ba_bv_relation_event_members dimension_ba_bv_relation_event_entries "");
    (element de_dimension_bv_event, event "dimension_bv_event" dimension_bv_event_members dimension_bv_event_entries "");
    (element de_dimension_truncate_table_signal, event "dimension_truncate_table_signal" dimension_truncate_table_signal_members dimension_truncate_table_signal_entries "");
    (element de_rebuild, event "rebuild" bam_rebuild_members bam_rebuild_entries "");
    (element de_dimension_timeperiod, event "dimension_timeperiod" dimension_timeperiod_members dimension_timeperiod_entries "");
    (element de_dimension_ba_timeperiod_relation, event "dimension_ba_timeperiod_relation" dimension_ba_timeperiod_relation_members dimension_ba_timeperiod_relation_entries "");
    (element de_dimension_timeperiod_exception, event "dimension_ba_timeperiod_exception" dimension_timeperiod_exception_members dimension_timeperiod_exception_entries "");
    (element de_dimension_timeperiod_exclusion, event "dimension_timeperiod_exclusion" dimension_timeperiod_exclusion_members dimension_timeperiod_exclusion_entries "");
    (element de_inherited_downtime, event "inherited_downtime" inherited_downtime_members inherited_downtime_entries "") ].
End Tables.
End BamEvents.
