(* ===== verification/StorageEvents.v ===== *)
(** * The events of performance data (storage/src)

    For each class of storage/src, what its constructor (those of its bases
    first) leaves in its members, and its mapping, entry by entry: the member, its
    type, the name of its column, the size of the column for texts, the
    value that means NULL. Members of other types than those of mappings, and
    those a constructor leaves uninitialised, have no entry. The sizes of the
    columns are generated from the schema at build time
    (get_<table>_col_size): they are a parameter. *)

From Stdlib Require Import ZArith Lia Strings.Byte Strings.String Floats.SpecFloat.
From stdpp Require Import base option list numbers strings gmap.
From S2P Require Import Prelude Double Events Mapping.

Module StorageEvents.
Import Events Mapping Dbl.
#[local] Open Scope string_scope.
#[local] Open Scope list_scope.

Section Tables.
Context (col_size : string -> string -> Z).

(** The elements of the category. *)
Inductive data_element : Type :=
  | de_metric
  | de_rebuild
  | de_remove_graph
  | de_status
  | de_index_mapping
  | de_metric_mapping.

Definition element (de : data_element) : Z :=
  match de with
  | de_metric => 1
  | de_rebuild => 2
  | de_remove_graph => 3
  | de_status => 4
  | de_index_mapping => 5
  | de_metric_mapping => 6
  end.

(** metric. *)
Definition metric_members : members := [
    ("ctime", VTime 0); ("interval", VUint 0); ("is_for_rebuild", VBool false); ("metric_id", VUint 0);
    ("name", VString []); ("rrd_len", VInt 0); ("value", VDouble S754_nan); ("value_type", VShort 0);
    ("host_id", VUint 0); ("service_id", VUint 0) ].

Definition metric_entries : table := [
    ("ctime", mapped TIME "ctime" invalid_on_minus_one);
    ("interval", mapped UINT "interval" always_valid);
    ("metric_id", mapped UINT "metric_id" invalid_on_zero);
    ("name", mapped_string "name" (col_size "metrics" "metrics_metric_name") always_valid);
    ("rrd_len", mapped INT "rrd_len" always_valid);
    ("value", mapped DOUBLE "value" always_valid);
    ("value_type", mapped SHORT "value_type" always_valid);
    ("is_for_rebuild", mapped BOOL "is_for_rebuild" always_valid);
    ("host_id", mapped UINT "host_id" invalid_on_zero);
    ("service_id", mapped UINT "service_id" always_valid) ].

(** rebuild. *)
Definition storage_rebuild_members : members := [
    ("end", VBool true); ("id", VUint 0); ("is_index", VBool false) ].

Definition storage_rebuild_entries : table := [
    ("end", mapped BOOL "end" always_valid);
    ("id", mapped UINT "id" invalid_on_zero);
    ("is_index", mapped BOOL "is_index" always_valid) ].

(** remove_graph. *)
Definition remove_graph_members : members := [
    ("id", VUint 0); ("is_index", VBool false) ].

Definition remove_graph_entries : table := [
    ("id", mapped UINT "id" invalid_on_zero);
    ("is_index", mapped BOOL "is_end" always_valid) ].

(** status. *)
Definition storage_status_members : members := [
    ("ctime", VTime 0); ("index_id", VUint 0); ("interval", VUint 0); ("is_for_rebuild", VBool false);
    ("rrd_len", VTime 0); ("state", VShort 0) ].

Definition storage_status_entries : table := [
    ("ctime", mapped TIME "ctime" invalid_on_minus_one);
    ("index_id", mapped UINT "index_id" invalid_on_zero);
    ("interval", mapped UINT "interval" always_valid);
    ("rrd_len", mapped TIME "rrd_len" always_valid);
    ("state", mapped SHORT "state" always_valid);
    ("is_for_rebuild", mapped BOOL "is_for_rebuild" always_valid) ].

(** index_mapping. *)
Definition index_mapping_members : members := [
    ("index_id", VUint 0); ("host_id", VUint 0); ("service_id", VUint 0) ].

Definition index_mapping_entries : table := [
    ("index_id", mapped UINT "index_id" invalid_on_zero);
    ("host_id", mapped UINT "host_id" invalid_on_zero);
    ("service_id", mapped UINT "service_id" invalid_on_zero) ].

(** metric_mapping. *)
Definition metric_mapping_members : members := [
    ("index_id", VUint 0); ("metric_id", VUint 0) ].

Definition metric_mapping_entries : table := [
    ("index_id", mapped UINT "index_id" invalid_on_zero);
    ("metric_id", mapped UINT "metric_id" invalid_on_zero) ].

(** The events that are registered, in this order. *)
Definition storage_events : list (Z * event_info) := [
    (element de_metric, event "metric" metric_members metric_entries "rt_metrics");
    (element de_rebuild, event "rebuild" storage_rebuild_members storage_rebuild_entries "");
    (element de_remove_graph, event "remove_graph" remove_graph_members remove_graph_entries "");
    (element de_status, event "status" storage_status_members storage_status_entries "");
    (element de_index_mapping, event "index_mapping" index_mapping_members index_mapping_entries "");
    (element de_metric_mapping, event "metric_mapping" metric_mapping_members metric_mapping_entries "") ].
End Tables.
End StorageEvents.
