(* ===== verification/CorrelationEvents.v ===== *)
(** * The events of correlation (correlation/src)

    For each class of correlation/src, what its constructor (those of its bases
    first) leaves in its members, and its mapping, entry by entry: the member, its
    type, the name of its column, the size of the column for texts, the
    value that means NULL. Members of other types than those of mappings, and
    those a constructor leaves uninitialised, have no entry. *)

From Stdlib Require Import ZArith Lia Strings.Byte Strings.String Floats.SpecFloat.
From stdpp Require Import base option list numbers strings gmap.
From S2P Require Import Prelude Double Events Mapping.

Module CorrelationEvents.
Import Events Mapping Dbl.
#[local] Open Scope string_scope.
#[local] Open Scope list_scope.

(** The elements of the category. *)
Inductive data_element : Type :=
  | de_engine_state
  | de_issue
  | de_issue_parent
  | de_state
  | de_log_issue.

Definition element (de : data_element) : Z :=
  match de with
  | de_engine_state => 1
  | de_issue => 2
  | de_issue_parent => 3
  | de_state => 4
  | de_log_issue => 5
  end.

(** engine_state. *)
Definition engine_state_members : members := [
    ("started", VBool false) ].

Definition engine_state_entries : table := [
    ("started", mapped BOOL "started" always_valid) ].

(** state. *)
Definition correlation_state_members : members := [
    ("ack_time", VTime (-1)); ("current_state", VInt 3); ("end_time", VTime (-1)); ("host_id", VUint 0);
    ("in_downtime", VBool false); ("poller_id", VUint 0); ("service_id", VUint 0);
    ("start_time", VTime 0) ].

Definition correlation_state_entries : table := [
    ("ack_time", mapped TIME "ack_time" invalid_on_minus_one);
    ("current_state", mapped INT "state" always_valid);
    ("end_time", mapped TIME "end_time" invalid_on_minus_one);
    ("host_id", mapped UINT "host_id" invalid_on_zero);
    ("in_downtime", mapped BOOL "in_downtime" always_valid);
    ("service_id", mapped UINT "service_id" invalid_on_zero);
    ("start_time", mapped TIME "start_time" invalid_on_minus_one) ].

(** issue. *)
Definition issue_members : members := [
    ("ack_time", VTime (-1)); ("end_time", VTime (-1)); ("host_id", VUint 0); ("service_id", VUint 0);
    ("start_time", VTime 0) ].

Definition issue_entries : table := [
    ("ack_time", mapped TIME "ack_time" invalid_on_minus_one);
    ("end_time", mapped TIME "end_time" invalid_on_minus_one);
    ("host_id", mapped UINT "host_id" invalid_on_zero);
    ("service_id", mapped UINT "service_id" invalid_on_zero);
    ("start_time", mapped TIME "start_time" invalid_on_minus_one) ].

(** issue_parent. *)
Definition issue_parent_members : members := [
    ("child_host_id", VUint 0); ("child_service_id", VUint 0); ("child_start_time", VTime 0);
    ("end_time", VTime (-1)); ("parent_host_id", VUint 0); ("parent_service_id", VUint 0);
    ("parent_start_time", VTime 0); ("start_time", VTime 0) ].

Definition issue_parent_entries : table := [
    ("child_host_id", mapped UINT "child_host_id" invalid_on_zero);
    ("child_service_id", mapped UINT "child_service_id" invalid_on_zero);
    ("child_start_time", mapped TIME "child_start_time" invalid_on_minus_one);
    ("end_time", mapped TIME "end_time" invalid_on_minus_one);
    ("parent_host_id", mapped UINT "parent_host_id" invalid_on_zero);
    ("parent_service_id", mapped UINT "parent_service_id" invalid_on_zero);
    ("parent_start_time", mapped TIME "parent_start_time" invalid_on_minus_one);
    ("start_time", mapped TIME "start_time" invalid_on_minus_one) ].

(** log_issue. *)
Definition log_issue_members : members := [
    ("log_ctime", VTime (-1)); ("host_id", VUint 0); ("service_id", VUint 0);
    ("issue_start_time", VTime (-1)) ].

Definition log_issue_entries : table := [
    ("log_ctime", mapped TIME "log_ctime" invalid_on_minus_one);
    ("host_id", mapped UINT "host_id" invalid_on_zero);
    ("service_id", mapped UINT "service_id" invalid_on_zero);
    ("issue_start_time", mapped TIME "issue_start_time" invalid_on_minus_one) ].

(** The events that are registered, in this order. *)
Definition correlation_events : list (Z * event_info) := [
    (element de_engine_state, event "engine_state" engine_state_members engine_state_entries "");
    (element de_state, event "state" correlation_state_members correlation_state_entries "");
    (element de_issue, event "issue" issue_members issue_entries "issues");
    (element de_issue_parent, event "issue_parent" issue_parent_members issue_parent_entries "issues_issues_parents");
    (element de_log_issue, event "log_issue" log_issue_members log_issue_entries "logs") ].
End CorrelationEvents.
