(* ===== verification/BroadcastEvents.v ===== *)
(** * The internal event of the core (core/src/instance_broadcast.cc)

    For each class of core/src/instance_broadcast.cc, what its constructor (those of its bases
    first) leaves in its members, and its mapping, entry by entry: the member, its
    type, the name of its column, the size of the column for texts, the
    value that means NULL. Members of other types than those of mappings, and
    those a constructor leaves uninitialised, have no entry. *)

From Stdlib Require Import ZArith Lia Strings.Byte Strings.String Floats.SpecFloat.
From stdpp Require Import base option list numbers strings gmap.
From S2P Require Import Prelude Double Events Mapping.

Module BroadcastEvents.
Import Events Mapping Dbl.
#[local] Open Scope string_scope.
#[local] Open Scope list_scope.

(** The elements of the category. *)
Inductive data_element : Type :=
  | de_raw
  | de_instance_broadcast
  | de_buffer.

Definition element (de : data_element) : Z :=
  match de with
  | de_raw => 1
  | de_instance_broadcast => 2
  | de_buffer => 3
  end.

(** instance_broadcast. *)
Definition instance_broadcast_members : members := [
    ("broker_id", VUint 0); ("broker_name", VString []); ("enabled", VBool true); ("poller_id", VUint 0);
    ("poller_name", VString []) ].

Definition instance_broadcast_entries : table := [
    ("broker_id", mapped UINT "broker_id" invalid_on_zero);
    ("broker_name", mapped_string "broker_name" 0 always_valid);
    ("enabled", mapped BOOL "enabled" always_valid);
    ("poller_id", mapped UINT "poller_id" invalid_on_zero);
    ("poller_name", mapped_string "poller_name" 0 always_valid) ].

(** The events that are registered, in this order. *)
Definition broadcast_events : list (Z * event_info) := [
    (element de_instance_broadcast, event "instance_broadcast" instance_broadcast_members instance_broadcast_entries "") ].
End BroadcastEvents.
