(* ===== verification/Registry.v ===== *)
(** * The registry as the modules fill it

    The registry of Events starts with the internal category of the core; each
    module that is loaded adds its category and its events (neb/src/broker.cc,
    storage, bam and correlation/src/main.cc, core/src/bbdo/internal.cc,
    core/src/instance_broadcast.cc), each one that is unloaded removes its
    category. Whatever is loaded, in whatever order, an event that is found in
    the registry is one that the codec and the statements can carry. *)

From Stdlib Require Import ZArith Lia ZifyNat ZifyBool Strings.Byte Strings.String Floats.SpecFloat.
From stdpp Require Import base option list numbers strings gmap.
From S2P Require Import Prelude Double Events Bbdo Mapping NebEvents BamEvents StorageEvents CorrelationEvents BroadcastEvents.

Module Registry.
Import Events Mapping.

(** An event whose constructor gives each entry a value of its type, and
    whose columns are distinct and are not those of another one followed by 1 or
    2, with which statements name the two places of a column. *)
Definition infob (info : event_info) : bool :=
  match constructor info with
  | Some t => (length t =? length (get_mapping info))%nat
      && forallb (fun '(e, v) => has_typeb (get_type e) v) (zip (get_mapping info) t)
  | None => false
  end
  && let names := columns (get_mapping info) in
     bool_decide (NoDup names)
     && forallb (fun n => negb (existsb (cstring_eqb (n ++ [x31])) names) && negb (existsb (cstring_eqb (n ++ [x32])) names)) names.

Record sound (info : event_info) : Prop := Sound {
  sound_types : exists t, constructor info = Some t /\ Forall2 (fun e v => has_type (get_type e) v) (get_mapping info) t;
  sound_names : NoDup (columns (get_mapping info));
  sound_places : forall n c, n ∈ columns (get_mapping info) -> c = x31 \/ c = x32 -> n ++ [c] ∉ columns (get_mapping info)
}.

Section Modules.
Context (col_size : string -> string -> Z).

Inductive broker_module : Type :=
  | broadcast_module | bbdo_module | neb_module | storage_module | correlation_module | bam_module.

Definition load_module (fuel : nat) (r : registry) (m : broker_module) : registry * outcome unit :=
  match m with
  | broadcast_module => register_events r internal BroadcastEvents.broadcast_events
  | bbdo_module =>
    match Bbdo.load fuel r with Returns r => (r, Returns tt) | Throws e => (r, Throws e) | Diverges => (r, Diverges) end
  | neb_module => module_init fuel r "neb" neb (NebEvents.neb_events col_size)
  | storage_module => module_init fuel r "storage" storage (StorageEvents.storage_events col_size)
  | correlation_module => module_init fuel r "correlation" correlation CorrelationEvents.correlation_events
  | bam_module => module_init fuel r "bam" bam (BamEvents.bam_events col_size)
  end.

Definition category_of (m : broker_module) : option Z :=
  match m with
  | broadcast_module => None
  | bbdo_module => Some bbdo
  | neb_module => Some neb
  | storage_module => Some storage
  | correlation_module => Some correlation
  | bam_module => Some bam
  end.

(** broker_module_deinit. *)
Definition unload_module (r : registry) (m : broker_module) : registry :=
  match category_of m with Some c => unregister_category r c | None => r end.

(** The registries a run of the program goes through. *)
Inductive reached : registry -> Prop :=
  | reached_start : reached Events.load
  | reached_load fuel r m : reached r -> reached (load_module fuel r m).1
  | reached_unload r m : reached r -> reached (unload_module r m).

End Modules.

(** ** What the modules register is sound *)

Lemma infob_sound info : infob info = true -> sound info.
Proof.
  unfold infob. destruct info as [nm [t|] mapping tab]; cbn [constructor get_mapping]; [|done].
  rewrite !andb_true_iff, Nat.eqb_eq, bool_decide_eq_true, !forallb_forall.
  intros [[Hl Ht] [Hn Hp]]. constructor; cbn [constructor get_mapping]; [|done|].
  - exists t. split; [done|]. apply Forall2_same_length_lookup_2; [done|]. intros i e v He Hv.
    apply (Ht (e, v)), list_elem_of_In, (list_elem_of_lookup_2 _ i).
    by rewrite lookup_zip_with, He, Hv.
  - intros n c Hin Hc Hbad. pose proof (Hp n ltac:(by apply list_elem_of_In)) as H.
    rewrite andb_true_iff, !negb_true_iff in H. destruct H as [H1 H2].
    assert (Hex : forall x, n ++ [x] ∈ columns mapping -> existsb (cstring_eqb (n ++ [x])) (columns mapping) = true).
    { intros x Hx. apply existsb_exists. exists (n ++ [x]). split; [by apply list_elem_of_In|].
      unfold cstring_eqb. by rewrite bool_decide_eq_true_2. }
    destruct Hc as [->| ->]; rewrite (Hex _ Hbad) in *; done.
Qed.

Definition all_sound (r : registry) : Prop := forall c ci t info, r !! c = Some ci -> Events.events ci !! t = Some info -> sound info.

Lemma unregister_sound r c : all_sound r -> all_sound (unregister_category r c).
Proof.
  intros Hr. unfold unregister_category. case_match; [|done]. intros c' ci t info Hc.
  apply lookup_delete_Some in Hc as [_ Hc]. by eapply Hr.
Qed.

Lemma register_event_sound r c id info r' t : all_sound r -> sound info -> register_event r c id info = Returns (r', t) -> all_sound r'.
Proof.
  intros Hr Hi. unfold register_event. destruct (r !! c) as [ci|] eqn:Hc; [|done]. intros [= <- <-].
  intros c' ci' t' info' Hl Ht. apply lookup_insert_Some in Hl as [[<- <-]|[_ Hl]]; [|by eapply Hr].
  cbn in Ht. case_match; [by eapply Hr|]. apply lookup_insert_Some in Ht as [[_ <-]|[_ Ht]]; [done|by eapply Hr].
Qed.

Lemma register_events_sound l r c : all_sound r -> Forall (fun p => sound p.2) l -> all_sound (register_events r c l).1.
Proof.
  revert r. induction l as [|[id info] l IH]; intros r Hr Hl; [done|]. apply Forall_cons in Hl as [Hi Hl]. cbn.
  destruct (register_event r c id info) as [[r' t]|e|] eqn:E; [|done..].
  apply IH; [by eapply register_event_sound|done].
Qed.

Lemma register_category_sound fuel r nm c r' id : all_sound r -> register_category fuel r nm c = Returns (r', id) -> all_sound r'.
Proof.
  intros Hr. unfold register_category. intros H. apply bind_Returns in H as (i & _ & H). simplify_eq.
  intros c' ci t info Hl Ht. apply lookup_insert_Some in Hl as [[_ <-]|[_ Hl]]; [done|by eapply Hr].
Qed.

Lemma module_init_sound fuel r nm c l : all_sound r -> Forall (fun p => sound p.2) l -> all_sound (module_init fuel r nm c l).1.
Proof.
  intros Hr Hl. unfold module_init. destruct (register_category fuel r (str nm) c) as [[r' id]|e|] eqn:E; [|done..].
  apply register_category_sound in E; [|done]. case_match; [by apply unregister_sound|by apply register_events_sound].
Qed.

Lemma events_sound (l : list (Z * event_info)) : forallb (fun p => infob p.2) l = true -> Forall (fun p => sound p.2) l.
Proof. rewrite forallb_forall. intros H. apply Forall_forall. intros p Hp. apply infob_sound, H. by apply list_elem_of_In. Qed.

Lemma bbdo_load_sound fuel r r' : all_sound r -> Bbdo.load fuel r = Returns r' -> all_sound r'.
Proof.
  intros Hr H. unfold Bbdo.load in H. apply bind_Returns in H as ([r1 id] & E & H).
  apply register_category_sound in E; [|done]. case_match; [done|].
  apply bind_Returns in H as ([r2 t] & E2 & H). apply bind_Returns in H as ([r3 t3] & E3 & H). simplify_eq.
  apply register_event_sound in E2; [|done|by apply infob_sound]. apply register_event_sound in E3; [done|done|by apply infob_sound].
Qed.

Section Sound.
Context (col_size : string -> string -> Z).

Lemma load_module_sound fuel r m : all_sound r -> all_sound (load_module col_size fuel r m).1.
Proof.
  intros Hr. destruct m; cbn [load_module].
  - apply register_events_sound; [done|]. apply events_sound. vm_compute. reflexivity.
  - destruct (Bbdo.load fuel r) eqn:E; [|done..]. by eapply bbdo_load_sound.
  - apply module_init_sound; [done|]. apply events_sound. vm_compute. reflexivity.
  - apply module_init_sound; [done|]. apply events_sound. vm_compute. reflexivity.
  - apply module_init_sound; [done|]. apply events_sound. vm_compute. reflexivity.
  - apply module_init_sound; [done|]. apply events_sound. vm_compute. reflexivity.
Qed.

Lemma reached_sound r : reached col_size r -> all_sound r.
Proof.
  induction 1 as [|fuel r m _ IH|r m _ IH].
  - intros c ci t info Hl Ht. unfold Events.load in Hl. apply lookup_singleton_Some in Hl as [_ <-]. done.
  - by apply load_module_sound.
  - unfold unload_module. case_match; [by apply unregister_sound|done].
Qed.

Lemma reached_info r t info : reached col_size r -> get_event_info r t = Some info -> sound info.
Proof. intros Hr. unfold get_event_info. case_match eqn:E; [|done]. by apply (reached_sound r Hr _ _ _ _ E). Qed.

(** C8. Whatever modules are loaded and unloaded, in any order, an event of the
    registry can be constructed, each of its entries points to a member of its
    own type, which the codec and the statements know, and its columns are
    distinct, none being the name of another one followed by 1 or 2, with which
    statements name the two places of a column. *)
Theorem registered_types r t info : reached col_size r -> get_event_info r t = Some info ->
  (exists t0, constructor info = Some t0 /\ Forall2 (fun e v => has_type (get_type e) v) (get_mapping info) t0)
  /\ NoDup (columns (get_mapping info))
  /\ forall n c, n ∈ columns (get_mapping info) -> c = x31 \/ c = x32 -> n ++ [c] ∉ columns (get_mapping info).
Proof. intros Hr Hi. destruct (reached_info r t info Hr Hi) as [H1 H2 H3]. done. Qed.

(** C9. Whatever modules are loaded, an event of the registry whose members are of
    their types, with texts without NUL, crosses a connection: what unserialize makes
    of the bytes of serialize is the event with its doubles rounded to six decimals
    ([Bbdo.arrived]: those from 10^23 on may lose more) and, for the members that are
    not serialized, the values its constructor gives; integers below 2^53 in doubles
    are not changed by this. *)
Theorem registered_events_cross r e info : reached col_size r -> get_event_info r (Bbdo.type e) = Some info ->
  Bbdo.members_sendable (get_mapping info) (Bbdo.fields e) ->
  exists bytes t0, constructor info = Some t0
    /\ Bbdo.serialize r e = Returns (Some (Bbdo.frame e bytes))
    /\ Bbdo.unserialize r (Bbdo.type e) (Bbdo.source_id e) (Bbdo.destination_id e) bytes
       = Returns (Some (Bbdo.received_event e info t0))
    /\ forall t v, Bbdo.value_ok t v -> Bbdo.arrived v = v.
Proof.
  intros Hr Hi Hc. destruct (reached_info _ _ _ Hr Hi) as [(t0 & Ht & H2) _ _].
  destruct (Bbdo.members_arrive _ _ _ [] (eq_sym (Forall2_length _ _ _ H2)) Hc) as (bytes & Hs & Hu). rewrite app_nil_r in Hu.
  exists bytes, t0. split; [done|]. split; [by apply (Bbdo.serialize_frame r e info)|]. split.
  - unfold Bbdo.unserialize. by rewrite Hi, Ht, Hu.
  - by intros t v [_ H]%Bbdo.arrived_ok.
Qed.

(** The members of a host status that do not cross: the time of the next
    notification is not serialized, and yet has a column. *)
Lemma next_notification_not_sent :
  exists e, In ("next_notification", e)%string (NebEvents.host_status_entries col_size)
    /\ get_serialize e = false /\ get_name_v2 e = Some (str "next_host_notification").
Proof. eexists. split; [repeat (try (left; reflexivity); right)|done]. Qed.

End Sound.

(** ** A run *)

Definition demo_registry : registry :=
  (load_module (fun _ _ => 0) 3 (load_module (fun _ _ => 0) 3 Events.load bbdo_module).1 neb_module).1.

Lemma demo_reached : reached (fun _ _ => 0) demo_registry.
Proof. apply reached_load, reached_load, reached_start. Qed.

Definition demo_type : Z := make_type neb (NebEvents.element NebEvents.de_host_parent).

Lemma registered_types_witness :
  exists info, get_event_info demo_registry demo_type = Some info
  /\ (exists t0, constructor info = Some t0 /\ Forall2 (fun e v => has_type (get_type e) v) (get_mapping info) t0)
  /\ NoDup (columns (get_mapping info))
  /\ forall n c, n ∈ columns (get_mapping info) -> c = x31 \/ c = x32 -> n ++ [c] ∉ columns (get_mapping info).
Proof.
  eexists. split; [vm_compute; reflexivity|].
  apply (registered_types (fun _ _ => 0) demo_registry demo_type); [exact demo_reached|vm_compute; reflexivity].
Defined.

(** Two hosts, and a business activity with thresholds that are no integers. *)
Definition demo_event : Bbdo.data := Bbdo.Data demo_type 0 0 [VBool true; VUint 12; VUint 5].

Definition demo_level : Z := make_type bam (BamEvents.element BamEvents.de_dimension_ba_event).
Definition demo_bam : registry := (load_module (fun _ _ => 0) 3 demo_registry bam_module).1.

Lemma demo_bam_reached : reached (fun _ _ => 0) demo_bam.
Proof. apply reached_load, demo_reached. Qed.

Definition demo_ba : Bbdo.data :=
  Bbdo.Data demo_level 0 0 [VUint 12; VString (str "shop"); VString []; VDouble (Dbl.of_ratio false 199 2);
    VDouble (Dbl.of_ratio false 1 3); VUint 5; VUint 6].

Lemma registered_events_cross_witness :
  exists info, get_event_info demo_bam demo_level = Some info /\
  exists bytes t0, constructor info = Some t0
    /\ Bbdo.serialize demo_bam demo_ba = Returns (Some (Bbdo.frame demo_ba bytes))
    /\ Bbdo.unserialize demo_bam demo_level 0 0 bytes = Returns (Some (Bbdo.received_event demo_ba info t0))
    /\ forall t v, Bbdo.value_ok t v -> Bbdo.arrived v = v.
Proof.
  eexists. split; [vm_compute; reflexivity|].
  apply (registered_events_cross (fun _ _ => 0) demo_bam demo_ba); [exact demo_bam_reached|vm_compute; reflexivity|].
  repeat constructor; done.
Defined.

End Registry.
