(* ===== verification/MysqlStmt.v ===== *)
(** * Prepared statements (core/src/database/mysql_stmt.cc, mysql_bind.cc, mysql_column.cc)

    A statement is a query with places for values, and a mapping that gives the
    places of the names that are bound to. Binding an event binds each member
    that has a column to the places of that column. The buffers of mysql_bind and
    mysql_column, which the client library reads when the statement is executed,
    are modelled by the value they hold; a failed assertion is the exception
    Exn_out_of_range. *)

From Stdlib Require Import ZArith Lia ZifyNat ZifyBool Strings.Byte Floats.SpecFloat.
From stdpp Require Import base option list numbers strings gmap.
From S2P Require Import Prelude MiscString Double Events Mapping Bbdo.

Module MysqlStmt.
Import Events Mapping.

(** ** The places of a statement *)

Inductive field_type : Type :=
  | MYSQL_TYPE_NULL | MYSQL_TYPE_TINY | MYSQL_TYPE_LONG | MYSQL_TYPE_LONGLONG | MYSQL_TYPE_FLOAT | MYSQL_TYPE_DOUBLE | MYSQL_TYPE_STRING.

#[global] Instance field_type_eq_dec : EqDecision field_type.
Proof. solve_decision. Defined.

(** What the buffer of a place holds; calloc leaves it empty. *)
Inductive cell : Type :=
  | Empty
  | Integer (z : Z)
  | Real (d : double)
  | Text (s : cstring).

(** An element of _bind, with its _typed and its mysql_column. *)
Record column : Type := Column {
  typed : bool;
  buffer_type : field_type;
  is_unsigned : bool;
  content : cell
}.

(** The state of a place that was never bound. *)
Definition new_column : column := Column false MYSQL_TYPE_NULL false Empty.

Abbreviation mysql_bind := (list column).

Definition new_mysql_bind (size : nat) : mysql_bind := replicate size new_column.

Definition _prepare_type (c : column) (type : field_type) : column := Column true type (is_unsigned c) Empty.

(** The common part of the setters: a place keeps the type it got first. *)
Definition prepared_as (type : field_type) (c : column) : column := if typed c then c else _prepare_type c type.

Definition with_content (c : column) (unsigned : bool) (x : cell) : column := Column (typed c) (buffer_type c) unsigned x.

(** mysql_column::set_value of a text asserts the type of the place. *)
Definition set_value_as_str (value : cstring) (c : column) : outcome column :=
  let c := prepared_as MYSQL_TYPE_STRING c in
  if bool_decide (buffer_type c = MYSQL_TYPE_STRING) then Returns (with_content c (is_unsigned c) (Text value))
  else Throws Exn_out_of_range.

Definition set_value_as_tiny (value : Z) (c : column) : outcome column :=
  let c := prepared_as MYSQL_TYPE_TINY c in Returns (with_content c (is_unsigned c) (Integer value)).

Definition set_value_as_bool (value : bool) (c : column) : outcome column :=
  set_value_as_tiny (if value then 1 else 0) c.

Definition set_value_as_i32 (value : Z) (c : column) : outcome column :=
  let c := prepared_as MYSQL_TYPE_LONG c in Returns (with_content c false (Integer value)).

Definition set_value_as_u32 (value : Z) (c : column) : outcome column :=
  let c := prepared_as MYSQL_TYPE_LONG c in Returns (with_content c true (Integer value)).

Definition set_value_as_u64 (value : Z) (c : column) : outcome column :=
  let c := prepared_as MYSQL_TYPE_LONGLONG c in Returns (with_content c true (Integer value)).

Definition set_value_as_null (c : column) : outcome column := Returns (prepared_as MYSQL_TYPE_NULL c).

(** std::isinf or std::isnan. *)
Definition not_finite (value : double) : bool :=
  match value with S754_nan | S754_infinity _ => true | _ => false end.

Definition set_value_as_f32 (value : double) (c : column) : outcome column :=
  if not_finite value then set_value_as_null c
  else let c := prepared_as MYSQL_TYPE_FLOAT c in Returns (with_content c (is_unsigned c) (Real value)).

Definition set_value_as_f64 (value : double) (c : column) : outcome column :=
  if not_finite value then set_value_as_null c
  else let c := prepared_as MYSQL_TYPE_DOUBLE c in Returns (with_content c (is_unsigned c) (Real value)).

(** ** Statements *)

Abbreviation mysql_bind_mapping := (gmap cstring nat).

(** std::map::insert keeps the value of a key that is there. *)
Definition insert_new (m : mysql_bind_mapping) (key : cstring) (place : nat) : mysql_bind_mapping :=
  match m !! key with Some _ => m | None => <[key := place]> m end.

Record mysql_stmt : Type := Mysql_stmt {
  _id : Z;
  _param_count : nat;
  _query : cstring;
  _bind : option mysql_bind;
  _bind_mapping : mysql_bind_mapping
}.

(** The number of '?' that are in no text. Any quote closes a text. *)
Fixpoint param_count_loop (in_string jocker : bool) (query : cstring) : nat :=
  match query with
  | [] => 0
  | c :: query =>
    if negb in_string then
      if byte_eqb c x3f then S (param_count_loop false jocker query)
      else param_count_loop (byte_eqb c x27 || byte_eqb c x22) jocker query
    else if jocker then param_count_loop true false query
    else if byte_eqb c x5c then param_count_loop true true query
    else param_count_loop (negb (byte_eqb c x27 || byte_eqb c x22)) false query
  end.

Definition _compute_param_count (query : cstring) : nat := param_count_loop false false query.

(** isalnum(c) || c == '_', in the C locale. *)
Definition is_name (c : byte) : bool :=
  let z := Z_of_byte c in
  isdigit c || ((65 <=? z) && (z <=? 90)) || ((97 <=? z) && (z <=? 122)) || (z =? 95).

Fixpoint span_name (l : cstring) : cstring * cstring :=
  match l with
  | [] => ([], [])
  | c :: l' => if is_name c then let '(a, b) := span_name l' in (c :: a, b) else ([], l)
  end.

(** A name seen again leaves its place to two names, with 1 and 2 behind. *)
Definition add_place (bind_mapping : mysql_bind_mapping) (key : cstring) (size : nat) : mysql_bind_mapping :=
  match bind_mapping !! key with
  | Some value =>
    insert_new (insert_new (delete key bind_mapping) (key ++ [x31]) value) (key ++ [x32]) size
  | None => insert_new bind_mapping key size
  end.

(** The loop over a query whose places are names after a colon. A text that a
    backslash ends is read out of its bounds. *)
Fixpoint named_loop (fuel : nat) (query q : cstring) (open : option byte) (size : nat) (bind_mapping : mysql_bind_mapping)
    : outcome (cstring * mysql_bind_mapping) :=
  match fuel with
  | O => Diverges
  | S fuel =>
    match query with
    | [] => Returns (q, bind_mapping)
    | c :: query =>
      match open with
      | Some o =>
        if byte_eqb c x5c then
          match query with
          | [] => Throws Exn_out_of_range
          | c' :: query => named_loop fuel query (q ++ [c; c']) open size bind_mapping
          end
        else named_loop fuel query (q ++ [c]) (if byte_eqb c o then None else open) size bind_mapping
      | None =>
        if byte_eqb c x3a then
          let '(key, query) := span_name query in
          named_loop fuel query (q ++ [x3f]) None (S size) (add_place bind_mapping (c :: key) size)
        else named_loop fuel query (q ++ [c]) (if byte_eqb c x27 || byte_eqb c x22 then Some c else None) size bind_mapping
      end
    end
  end.

Section Statements.
(** std::hash of a text. *)
Context (hash : cstring -> Z).

Definition mysql_stmt_named (query : cstring) (named : bool) : outcome mysql_stmt :=
  if named then
    '(q, bind_mapping) ← named_loop (S (length query)) query [] None 0 ∅;
    Returns (Mysql_stmt (i32 (hash q)) (size bind_mapping) q None bind_mapping)
  else Returns (Mysql_stmt (i32 (hash query)) (_compute_param_count query) query None ∅).

Definition new_mysql_stmt (query : cstring) (bind_mapping : mysql_bind_mapping) : mysql_stmt :=
  Mysql_stmt (i32 (hash query))
    (if bool_decide (bind_mapping = ∅) then _compute_param_count query else size bind_mapping) query None bind_mapping.

Definition prepared (s : mysql_stmt) : bool := negb (_id s =? 0).

(** The binding leaves the statement, which is ready for the next values. *)
Definition get_bind (s : mysql_stmt) : mysql_stmt * option mysql_bind :=
  (Mysql_stmt (_id s) (_param_count s) (_query s) None (_bind_mapping s), _bind s).

(** bind_value_as_*, by place. *)
Definition bind_value (s : mysql_stmt) (range : nat) (set : column -> outcome column) : outcome mysql_stmt :=
  let b := match _bind s with Some b => b | None => new_mysql_bind (_param_count s) end in
  match b !! range with
  | Some c =>
    c ← set c;
    Returns (Mysql_stmt (_id s) (_param_count s) (_query s) (Some (<[range := c]> b)) (_bind_mapping s))
  | None => Throws Exn_out_of_range
  end.

(** bind_value_as_*, by name: the place of that name, or those of the name
    followed by 1 and by 2. A name without a place is logged. *)
Definition bind_value_named (s : mysql_stmt) (name : cstring) (set : column -> outcome column) : outcome mysql_stmt :=
  match _bind_mapping s !! name with
  | Some range => bind_value s range set
  | None =>
    match _bind_mapping s !! (name ++ [x31]) with
    | Some range =>
      s ← bind_value s range set;
      match _bind_mapping s !! (name ++ [x32]) with Some range => bind_value s range set | None => Returns s end
    | None => Returns s
    end
  end.

(** The setter for a member: its value, or NULL for the value its attribute
    tells; a text is cut to the size of its column. *)
Definition setter (e : entry) (v : value) (c : column) : outcome column :=
  let null_or (is_null : bool) (set : column -> outcome column) := if is_null then set_value_as_null c else set c in
  match get_type e, v with
  | BOOL, VBool b => set_value_as_bool b c
  | DOUBLE, VDouble d => set_value_as_f64 d c
  | INT, VInt z =>
    null_or (((get_attribute e =? invalid_on_zero) && (z =? 0)) || ((get_attribute e =? invalid_on_minus_one) && (z =? -1)))
      (set_value_as_i32 z)
  | SHORT, VShort z => set_value_as_i32 z c
  | STRING, VString s =>
    sv ← (if (0 <? get_max_len e) && (get_max_len e <? Z.of_nat (length s)) then
            match Str.adjust_size_utf8 s (Z.to_nat (get_max_len e)) with
            | Some max_len => Returns (take max_len s)
            | None => Throws Exn_out_of_range
            end
          else Returns s);
    null_or ((get_attribute e =? invalid_on_zero) && match sv with [] => true | _ => false end) (set_value_as_str sv)
  | TIME, VTime z =>
    null_or (((get_attribute e =? invalid_on_zero) && (z =? 0)) || ((get_attribute e =? invalid_on_minus_one) && (z =? -1)))
      (set_value_as_u32 (u32 z))
  | UINT, VUint z => null_or ((get_attribute e =? invalid_on_minus_one) && (z =? 0xffffffff)) (set_value_as_u32 z)
  | _, _ => Throws Exn_msg
  end.

(** operator<<: the loop over the entries. *)
Fixpoint bind_members (s : mysql_stmt) (mapping : list entry) (fields : list value) : outcome mysql_stmt :=
  match mapping, fields with
  | e :: mapping, v :: fields =>
    s ← match get_name_v2 e with
        | Some ((_ :: _) as entry_name) => bind_value_named s (x3a :: entry_name) (setter e v)
        | _ => Returns s
        end;
    bind_members s mapping fields
  | _, _ => Returns s
  end.

Definition bind_event (reg : registry) (s : mysql_stmt) (d : Bbdo.data) : outcome mysql_stmt :=
  match get_event_info reg (Bbdo.type d) with
  | Some info => bind_members s (get_mapping info) (Bbdo.fields d)
  | None => Throws Exn_msg
  end.

End Statements.

(** ** What binding does *)

(** The buffers of a statement, and the places of a name. *)
Definition binds (s : mysql_stmt) : mysql_bind :=
  match _bind s with Some b => b | None => new_mysql_bind (_param_count s) end.

Definition places (m : mysql_bind_mapping) (name : cstring) : list nat :=
  match m !! name with
  | Some i => [i]
  | None =>
    match m !! (name ++ [x31]) with
    | Some i => i :: match m !! (name ++ [x32]) with Some j => [j] | None => [] end
    | None => []
    end
  end.

(** Values that a statement takes: of the type of the entry, texts being in
    UTF-8 (neb checks those of the engine, with check_string_utf8). *)
Definition storable (e : entry) (v : value) : Prop :=
  has_type (get_type e) v /\ match v with VString s => Str.utf8_wf s | _ => True end.

Lemma setter_new e v : storable e v -> exists c, setter e v new_column = Returns c.
Proof.
  unfold storable, has_type, setter. intros [Ht Hu]. destruct (get_type e), v; try done; try (by eexists);
    try (case_match; by eexists).
  - unfold set_value_as_f64. case_match; by eexists.
  - destruct (Str.adjust_size_utf8_spec s (Z.to_nat (get_max_len e)) Hu) as (n & -> & _).
    case_match; cbn [mbind outcome_bind]; case_match; by eexists.
Qed.

(** The statement with other buffers. *)
Definition rebound (s : mysql_stmt) (b : mysql_bind) : mysql_stmt :=
  Mysql_stmt (_id s) (_param_count s) (_query s) (Some b) (_bind_mapping s).

Lemma bind_value_spec s i set c c' : binds s !! i = Some c -> set c = Returns c' ->
  bind_value s i set = Returns (rebound s (<[i := c']> (binds s))).
Proof. unfold bind_value. fold (binds s). intros H Hs. by rewrite H, Hs. Qed.

Lemma binds_rebound s b : binds (rebound s b) = b.
Proof. done. Qed.

Fixpoint put_all (is_ : list nat) (c : column) (b : mysql_bind) : mysql_bind :=
  match is_ with [] => b | i :: is_ => put_all is_ c (<[i := c]> b) end.

Lemma put_all_length l c b : length (put_all l c b) = length b.
Proof. revert b. induction l as [|i l IH]; intros b; cbn; [done|]. rewrite IH. apply length_insert. Qed.

Lemma put_all_other l c b i : i ∉ l -> put_all l c b !! i = b !! i.
Proof.
  revert b. induction l as [|j l IH]; intros b Hi; cbn; [done|].
  rewrite not_elem_of_cons in Hi. destruct Hi as [Hne Hi]. rewrite IH by done. by rewrite list_lookup_insert_ne.
Qed.

Lemma put_all_here l c b i : i ∈ l -> (i < length b)%nat -> put_all l c b !! i = Some c.
Proof.
  revert b. induction l as [|j l IH]; intros b Hi Hl; [by apply not_elem_of_nil in Hi|]. cbn.
  destruct (decide (i ∈ l)) as [Hin|Hin]; [apply IH; [done|by rewrite length_insert]|].
  apply elem_of_cons in Hi as [->|]; [|done]. rewrite put_all_other by done. by apply list_lookup_insert_eq.
Qed.

(** Nothing but the buffers differs. *)
Definition alike (s s' : mysql_stmt) : Prop :=
  _param_count s' = _param_count s /\ _query s' = _query s /\ _bind_mapping s' = _bind_mapping s.

Lemma bind_binds s : is_Some (_bind s) -> _bind s = Some (binds s).
Proof. unfold binds. by intros [b ->]. Qed.

(** Binding a name sets all its places, when they are different places that
    were never bound. *)
Lemma bind_value_named_spec s name set c :
  NoDup (places (_bind_mapping s) name) -> Forall (fun i => binds s !! i = Some new_column) (places (_bind_mapping s) name) ->
  set new_column = Returns c ->
  exists s', bind_value_named s name set = Returns s' /\ binds s' = put_all (places (_bind_mapping s) name) c (binds s)
    /\ alike s s' /\ (is_Some (_bind s) \/ places (_bind_mapping s) name <> [] -> is_Some (_bind s')).
Proof.
  unfold places, bind_value_named. intros Hn Hf Hs.
  destruct (_bind_mapping s !! name) as [i|]; [|destruct (_bind_mapping s !! (name ++ [x31])) as [i|]].
  - apply Forall_cons in Hf as [Hi _]. eexists. by rewrite (bind_value_spec s i set new_column c Hi Hs).
  - apply Forall_cons in Hf as [Hi Hf]. rewrite (bind_value_spec s i set new_column c Hi Hs). cbn [mbind outcome_bind rebound _bind_mapping].
    fold (rebound s (<[i:=c]> (binds s))).
    destruct (_bind_mapping s !! (name ++ [x32])) as [j|]; [|by eexists].
    apply Forall_cons in Hf as [Hj _]. apply NoDup_cons in Hn as [Hij _]. rewrite list_elem_of_singleton in Hij.
    rewrite (bind_value_spec _ j set new_column c); [|rewrite binds_rebound, list_lookup_insert_ne by done; done|done].
    by eexists.
  - exists s. split_and!; try done. by intros [H|H].
Qed.

(** The columns [names] have the places of their occurrences in [T], and each
    place was never bound. *)
Definition assigned (s : mysql_stmt) (T names : list cstring) : Prop :=
  forall n, n ∈ names -> NoDup (places (_bind_mapping s) (x3a :: n))
    /\ forall i, i ∈ places (_bind_mapping s) (x3a :: n) <-> T !! i = Some n.

(** What is in the place of a column: the value of the member that has it. *)
Definition column_of (mapping : list entry) (fields : list value) (n : cstring) (c : column) : Prop :=
  exists i e v, mapping !! i = Some e /\ fields !! i = Some v /\ get_name_v2 e = Some n /\ setter e v new_column = Returns c.

Lemma columns_cons e mapping : columns (e :: mapping) = match get_name_v2 e with Some ((_ :: _) as n) => n :: columns mapping | _ => columns mapping end.
Proof. unfold columns. cbn. by destruct (get_name_v2 e) as [[|? ?]|]. Qed.

Lemma column_of_cons e v mapping fields n c : column_of mapping fields n c -> column_of (e :: mapping) (v :: fields) n c.
Proof. intros (i & e' & v' & H). by exists (S i), e', v'. Qed.

Lemma bind_members_spec mapping fields s T :
  Forall2 storable mapping fields -> NoDup (columns mapping) -> assigned s T (columns mapping) ->
  (forall i n, T !! i = Some n -> n ∈ columns mapping -> binds s !! i = Some new_column) ->
  exists s', bind_members s mapping fields = Returns s' /\ alike s s'
    /\ (is_Some (_bind s) \/ (exists n, n ∈ T /\ n ∈ columns mapping) -> is_Some (_bind s'))
    /\ length (binds s') = length (binds s)
    /\ (forall i n, T !! i = Some n -> n ∈ columns mapping -> exists c, binds s' !! i = Some c /\ column_of mapping fields n c)
    /\ (forall i, (forall n, T !! i = Some n -> n ∉ columns mapping) -> binds s' !! i = binds s !! i).
Proof.
  intros Hf. revert s. induction Hf as [|e v mapping fields Hev Hf IH]; intros s Hn Ha Hfresh.
  { exists s. split_and!; try done. { intros [H|(n & _ & H)]; [done|by apply not_elem_of_nil in H]. }
    intros i n _ H. by apply not_elem_of_nil in H. }
  rewrite columns_cons in *. cbn [bind_members].
  destruct (get_name_v2 e) as [[|b n]|] eqn:En.
  1, 3: destruct (IH s Hn Ha Hfresh) as (s' & Hs & Hal & Hsome & Hlen & Hin & Hout); exists s';
    split_and!; try done; intros i m Hi Hm; destruct (Hin i m Hi Hm) as (c & Hc & Hcol); exists c;
    split; [done|by apply column_of_cons].
  apply NoDup_cons in Hn as [Hnew Hn]. destruct (Ha (b :: n)) as [Hnd Hpl]; [by left|].
  destruct (setter_new e v Hev) as [c Hc].
  destruct (bind_value_named_spec s (x3a :: b :: n) (setter e v) c) as (s1 & Hs1 & Hb1 & (Hp1 & Hq1 & Hm1) & Hsome1); [done| |done|].
  { apply Forall_forall. intros i Hi. apply (Hfresh i (b :: n)); [by apply Hpl|by left]. }
  rewrite Hs1. cbn [mbind outcome_bind].
  destruct (IH s1) as (s' & Hs & (Hp & Hq & Hm) & Hsome & Hlen & Hin & Hout); [done| | |].
  { intros m Hm'. rewrite Hm1. apply Ha. by right. }
  { intros i m Hi Hm'. rewrite Hb1, put_all_other; [by apply (Hfresh i m); [|right]|].
    rewrite Hpl. intros H. assert (m = b :: n) by congruence. by subst m. }
  exists s'. split; [done|]. split; [by unfold alike; rewrite Hp, Hq, Hm|]. split; [|split; [|split]].
  - intros H. apply Hsome. destruct H as [H|(m & Hm1' & Hm2)]; [left; by apply Hsome1; left|].
    apply elem_of_cons in Hm2 as [->|Hm2]; [|right; by exists m].
    left. apply Hsome1. right. apply list_elem_of_lookup_1 in Hm1' as [i Hi]. apply Hpl in Hi. intros H. rewrite H in Hi.
    by apply not_elem_of_nil in Hi.
  - rewrite Hlen, Hb1. apply put_all_length.
  - intros i m Hi Hm'. apply elem_of_cons in Hm' as [->|Hm'].
    + exists c. split; [|by exists 0%nat, e, v]. rewrite Hout by (intros m Hm'; assert (m = b :: n) by congruence; by subst m).
      rewrite Hb1. apply put_all_here; [by apply Hpl|]. apply lookup_lt_is_Some. exists new_column. apply (Hfresh i (b :: n)); [done|by left].
    + destruct (Hin i m Hi Hm') as (c' & Hc' & Hcol). exists c'. split; [done|by apply column_of_cons].
  - intros i Hi. rewrite Hout by (intros m Hm'; specialize (Hi m Hm'); rewrite not_elem_of_cons in Hi; by destruct Hi).
    rewrite Hb1. apply put_all_other. rewrite Hpl. intros H. apply (Hi _ H). by left.
Qed.


(** A statement all of whose places are columns of the event gets in each the
    value of the member of its column. *)
Lemma bind_all_places mapping fields s T :
  Forall2 storable mapping fields -> NoDup (columns mapping) -> assigned s T (columns mapping) ->
  _bind s = None -> _param_count s = length T -> T <> [] -> (forall n, n ∈ T -> n ∈ columns mapping) ->
  exists s' b, bind_members s mapping fields = Returns s' /\ alike s s' /\ _bind s' = Some b
    /\ Forall2 (column_of mapping fields) T b.
Proof.
  intros Hf Hn Ha Hnone Hp Hne Hin.
  assert (Hb : binds s = replicate (length T) new_column) by (unfold binds; by rewrite Hnone, Hp).
  destruct (bind_members_spec mapping fields s T Hf Hn Ha) as (s' & Hs & Hal & Hsome & Hlen & Hall & _).
  { intros i n Hi _. rewrite Hb. apply lookup_replicate. split; [done|]. by apply lookup_lt_is_Some; eexists. }
  exists s', (binds s'). split; [done|]. split; [done|]. split.
  - apply bind_binds, Hsome. right. destruct T as [|n T]; [done|]. exists n. split; [by left|apply Hin; by left].
  - apply Forall2_same_length_lookup_2; [by rewrite Hlen, Hb, length_replicate|]. intros i n c Hi Hc.
    destruct (Hall i n Hi (Hin n (list_elem_of_lookup_2 _ _ _ Hi))) as (c' & Hc' & Hcol). by simplify_eq.
Qed.


(** ** Examples *)

Definition named_places (query : cstring) : outcome (cstring * list nat) :=
  s ← mysql_stmt_named (fun _ => 0) query true; Returns (_query s, places (_bind_mapping s) (str ":a")).

Lemma name_twice : named_places (str "SET b=:a WHERE a=:a") = Returns (str "SET b=? WHERE a=?", [0; 1]%nat).
Proof. vm_compute. reflexivity. Qed.

(** A name that is there three times only gets its last place: the first two
    are never bound. *)
Lemma third_use_hides : named_places (str ":a :a :a") = Returns (str "? ? ?", [2]%nat).
Proof. vm_compute. reflexivity. Qed.

(** A colon in a text is no place, but any quote ends a text for the count of
    the places of other queries. *)
Lemma quote_in_text : named_places (str "t=':a' AND a=:a") = Returns (str "t=':a' AND a=?", [0]%nat)
  /\ _compute_param_count (str "t='?' AND a=?") = 1%nat
  /\ _compute_param_count [x27; x22; x3f; x27] = 1%nat.
Proof. vm_compute. repeat split; reflexivity. Qed.

(** A place that has a type keeps its value when it is set to NULL, and one
    that was NULL stays so. *)
Lemma null_after_value c : typed c = true -> set_value_as_null c = Returns c.
Proof. intros H. unfold set_value_as_null, prepared_as. by rewrite H. Qed.

Lemma value_after_null z : exists c, set_value_as_null new_column = Returns c
  /\ exists c', set_value_as_i32 z c = Returns c' /\ buffer_type c' = MYSQL_TYPE_NULL.
Proof. repeat eexists. Qed.

(** An unsigned identifier that is not valid when it is 0 is bound as 0,
    where a signed one or a time is bound as NULL. *)
Lemma unsigned_zero_not_null :
  setter (mapped UINT "host_id" invalid_on_zero) (VUint 0) new_column = Returns (Column true MYSQL_TYPE_LONG true (Integer 0))
  /\ setter (mapped INT "host_id" invalid_on_zero) (VInt 0) new_column = Returns (Column true MYSQL_TYPE_NULL false Empty).
Proof. by split. Qed.

End MysqlStmt.
