(* ===== verification/QueryPreparator.v ===== *)
(** * Queries for events (core/src/query_preparator.cc)

    The statements that insert, update or delete the row of an event, made
    from the columns of its mapping. Preparing a statement on the connections
    (mysql::prepare_query) is left out: it hands the statement over. *)

From Stdlib Require Import ZArith Lia ZifyNat ZifyBool Strings.Byte Strings.String Floats.SpecFloat.
From stdpp Require Import base option list numbers strings gmap.
From S2P Require Import Prelude MiscString Double Events Mapping Bbdo NebEvents Registry MysqlStmt.

Module QueryPreparator.
Import Events Mapping MysqlStmt.

(** Sets of texts are the lists of their elements, in order. *)
Record query_preparator : Type := Query_preparator {
  _event_id : Z;
  _excluded : list cstring;
  _unique : list cstring
}.

Definition find (l : list cstring) (name : cstring) : bool := existsb (cstring_eqb name) l.

(** The columns over which the loops go. *)
Definition kept (q : query_preparator) (mapping : list entry) : list cstring :=
  List.filter (fun n => negb (find (_excluded q) n)) (columns mapping).

(** query.resize(query.size() - n). *)
Definition shortened (n : nat) (l : cstring) : cstring := take (length l - n) l.

(** insert(make_pair(key, size++)). *)
Definition number (m : mysql_bind_mapping * nat) (key : cstring) : mysql_bind_mapping * nat := (insert_new m.1 key m.2, S m.2).

(** insert(make_pair(it->first, it->second + size)) for a whole map. *)
Definition add_all (m : mysql_bind_mapping) (size : nat) (other : mysql_bind_mapping) : mysql_bind_mapping :=
  fold_left (fun m '(key, place) => insert_new m key (place + size)%nat) (map_to_list other) m.

Definition key (name : cstring) : cstring := x3a :: name.

Section Prepare.
Context (hash : cstring -> Z) (reg : registry).

Definition prepare_insert (q : query_preparator) (ignore : bool) : outcome mysql_stmt :=
  match get_event_info reg (_event_id q) with
  | None => Throws Exn_msg
  | Some info =>
    let names := kept q (get_mapping info) in
    let query := (if ignore then str "INSERT IGNORE INTO " else str "INSERT INTO ") ++ get_table_v2 info ++ str " (" in
    let query := shortened 2 (fold_left (fun query n => query ++ n ++ str ", ") names query) ++ str ") VALUES(" in
    let '(query, (bind_mapping, _)) :=
      fold_left (fun '(query, m) n => (query ++ str "?,", number m (key n))) names (query, (∅, 0%nat)) in
    Returns (new_mysql_stmt hash (shortened 1 query ++ str ")") bind_mapping)
  end.

(** One turn of the second loop of prepare_insert_or_update. *)
Definition insert_or_update_turn (q : query_preparator)
    (x : (cstring * (mysql_bind_mapping * nat)) * (cstring * (mysql_bind_mapping * nat))) (n : cstring)
    : (cstring * (mysql_bind_mapping * nat)) * (cstring * (mysql_bind_mapping * nat)) :=
  let '((insert, i), (update, u)) := x in
  if negb (find (_unique q) n) then
    ((insert ++ str "?,", number i (key n ++ [x31])), (update ++ n ++ str "=?,", number u (key n ++ [x32])))
  else ((insert ++ str "?,", number i (key n)), (update, u)).

Definition prepare_insert_or_update (q : query_preparator) : outcome mysql_stmt :=
  match get_event_info reg (_event_id q) with
  | None => Throws Exn_msg
  | Some info =>
    let names := kept q (get_mapping info) in
    let insert := str "INSERT INTO " ++ get_table_v2 info ++ str " (" in
    let insert := shortened 1 (fold_left (fun insert n => insert ++ n ++ str ",") names insert) ++ str ") VALUES(" in
    let '((insert, (insert_bind_mapping, insert_size)), (update, (update_bind_mapping, _))) :=
      fold_left (insert_or_update_turn q) names ((insert, (∅, 0%nat)), (str " ON DUPLICATE KEY UPDATE ", (∅, 0%nat))) in
    Returns (new_mysql_stmt hash (shortened 1 insert ++ str ") " ++ shortened 1 update)
               (add_all insert_bind_mapping insert_size update_bind_mapping))
  end.

(** One turn of the loop of prepare_update. *)
Definition update_turn (q : query_preparator)
    (x : (cstring * (mysql_bind_mapping * nat)) * (cstring * (mysql_bind_mapping * nat))) (n : cstring)
    : (cstring * (mysql_bind_mapping * nat)) * (cstring * (mysql_bind_mapping * nat)) :=
  let '((query, m), (where_, w)) := x in
  if negb (find (_unique q) n) then ((query ++ n ++ str "=?,", number m (key n)), (where_, w))
  else ((query, m), (where_ ++ n ++ str "=? AND ", number w (key n))).

Definition prepare_update (q : query_preparator) : outcome mysql_stmt :=
  match get_event_info reg (_event_id q) with
  | None => Throws Exn_msg
  | Some info =>
    let query := str "UPDATE " ++ get_table_v2 info ++ str " SET " in
    let '((query, (query_bind_mapping, query_size)), (where_, (where_bind_mapping, _))) :=
      fold_left (update_turn q) (kept q (get_mapping info)) ((query, (∅, 0%nat)), (str " WHERE ", (∅, 0%nat))) in
    Returns (new_mysql_stmt hash (shortened 1 query ++ shortened 5 where_)
               (add_all query_bind_mapping query_size where_bind_mapping))
  end.

Definition prepare_delete (q : query_preparator) : outcome mysql_stmt :=
  match get_event_info reg (_event_id q) with
  | None => Throws Exn_msg
  | Some info =>
    let query := str "DELETE FROM " ++ get_table_v2 info ++ str " WHERE " in
    let '(query, (bind_mapping, _)) :=
      fold_left (fun '(query, m) n => (query ++ str "(" ++ n ++ str "=?" ++ str ") AND ", number m (key n)))
        (_unique q) (query, (∅, 0%nat)) in
    Returns (new_mysql_stmt hash (shortened 5 query) bind_mapping)
  end.

End Prepare.

(** ** The places of the names *)

Lemma insert_new_fresh m k i : m !! k = None -> insert_new m k i = <[k := i]> m.
Proof. unfold insert_new. by intros ->. Qed.

Lemma number_fresh keys m k : NoDup keys -> (forall x, x ∈ keys -> m !! x = None) ->
  let r := fold_left number keys (m, k) in
  r.2 = (k + length keys)%nat /\ size r.1 = (size m + length keys)%nat
  /\ forall x i, r.1 !! x = Some i <-> m !! x = Some i \/ exists j, keys !! j = Some x /\ i = (k + j)%nat.
Proof.
  revert m k. induction keys as [|y keys IH]; intros m k Hn Hm; cbn [fold_left].
  { cbn. split_and!; [lia|lia|]. intros x i. split; [by left|]. by intros [H|(j & H & _)]. }
  apply NoDup_cons in Hn as [Hy Hn]. unfold number at 2 4 6. cbn [fst snd].
  assert (Hfy : m !! y = None) by (apply Hm; by left). rewrite (insert_new_fresh _ _ _ Hfy).
  destruct (IH (<[y := k]> m) (S k)) as (H2 & Hs & Hl); [done| |].
  { intros x Hx. rewrite lookup_insert_ne by (intros ->; done). apply Hm. by right. }
  split; [rewrite H2; cbn; lia|]. split; [rewrite Hs, map_size_insert_None by done; cbn; lia|].
  intros x i. rewrite Hl. split.
  - intros [H|(j & H & ->)]; [|right; exists (S j); cbn; split; [done|lia]].
    apply lookup_insert_Some in H as [[<- <-]|[_ H]]; [right; exists 0%nat; split; [done|lia]|by left].
  - intros [H|([|j] & H & ->)].
    + left. rewrite lookup_insert_ne; [done|]. intros ->. congruence.
    + left. cbn in H. simplify_eq. rewrite lookup_insert_eq. f_equal. lia.
    + right. exists j. cbn in H. split; [done|lia].
Qed.

Lemma number_keys {A} (f : A -> cstring) l m k :
  fold_left number (f <$> l) (∅, 0%nat) = (m, k) -> NoDup (f <$> l) ->
  k = length l /\ size m = length l /\ forall x i, m !! x = Some i <-> exists a, l !! i = Some a /\ x = f a.
Proof.
  intros E Hn. destruct (number_fresh (f <$> l) ∅ 0 Hn ltac:(done)) as (H2 & Hs & Hl). rewrite E in *. cbn [fst snd] in *.
  rewrite length_fmap in *. split; [by rewrite H2|]. split; [by rewrite Hs, map_size_empty|].
  intros x i. rewrite Hl, lookup_empty. setoid_rewrite list_lookup_fmap_Some. naive_solver.
Qed.

Lemma add_all_lookup m k other : (forall x, is_Some (other !! x) -> m !! x = None) ->
  size (add_all m k other) = (size m + size other)%nat
  /\ forall x i, add_all m k other !! x = Some i <-> m !! x = Some i \/ exists j, other !! x = Some j /\ i = (j + k)%nat.
Proof.
  intros Hd. unfold add_all.
  assert (H : forall l m0, NoDup l.*1 -> (forall x j, (x, j) ∈ l -> m0 !! x = None) ->
    let r := fold_left (fun m '(key, place) => insert_new m key (place + k)%nat) l m0 in
    size r = (size m0 + length l)%nat
    /\ forall x i, r !! x = Some i <-> m0 !! x = Some i \/ exists j, (x, j) ∈ l /\ i = (j + k)%nat).
  { induction l as [|[y p] l IH]; intros m0 Hn Hm; cbn [fold_left].
    - cbn. split; [lia|]. intros x i. split; [by left|]. intros [H|(j & H & _)]; [done|by apply not_elem_of_nil in H].
    - cbn in Hn. apply NoDup_cons in Hn as [Hy Hn].
      assert (Hfy : m0 !! y = None) by (apply (Hm y p); by left). rewrite (insert_new_fresh _ _ _ Hfy).
      destruct (IH (<[y := (p + k)%nat]> m0) Hn) as [Hs Hl].
      { intros x j Hx. rewrite lookup_insert_ne; [apply (Hm x j); by right|]. intros ->. apply Hy.
        apply list_elem_of_fmap. by exists (x, j). }
      split; [rewrite Hs, map_size_insert_None by done; cbn; lia|]. intros x i. rewrite Hl. split.
      + intros [H|(j & H & ->)]; [|right; exists j; split; [by right|done]].
        apply lookup_insert_Some in H as [[<- <-]|[_ H]]; [right; exists p; split; [by left|done]|by left].
      + intros [H|(j & H & ->)].
        * left. rewrite lookup_insert_ne; [done|]. intros ->. congruence.
        * apply elem_of_cons in H as [[= -> ->]|H]; [left; by rewrite lookup_insert_eq|right; by exists j]. }
  destruct (H (map_to_list other) m (NoDup_fst_map_to_list other)) as [Hs Hl].
  { intros x j Hx%elem_of_map_to_list. apply Hd. by eexists. }
  split; [by rewrite Hs, length_map_to_list|]. intros x i. rewrite Hl. by setoid_rewrite elem_of_map_to_list.
Qed.

(** ** The texts *)

Fixpoint join (sep : cstring) (l : list cstring) : cstring :=
  match l with [] => [] | [x] => x | x :: l => x ++ sep ++ join sep l end.

Lemma fold_text {A} (f : A -> cstring) l q : fold_left (fun q n => q ++ f n) l q = q ++ concat (f <$> l).
Proof. revert q. induction l as [|x l IH]; intros q; cbn; [by rewrite app_nil_r|]. by rewrite IH, app_assoc. Qed.

Lemma concat_join sep l : l <> [] -> concat ((fun n => n ++ sep) <$> l) = join sep l ++ sep.
Proof.
  induction l as [|x l IH]; [done|]. intros _. cbn [fmap list_fmap concat]. destruct l as [|y l].
  - cbn. by rewrite app_nil_r.
  - rewrite IH by done. cbn [join]. by rewrite <-!app_assoc.
Qed.

Lemma shortened_app a b : shortened (length b) (a ++ b) = a.
Proof. unfold shortened. rewrite length_app. replace (_ - _)%nat with (length a) by lia. apply take_app_length. Qed.

Lemma shortened_join pre sep l : l <> [] ->
  shortened (length sep) (pre ++ concat ((fun n => n ++ sep) <$> l)) = pre ++ join sep l.
Proof. intros Hl. rewrite concat_join by done. rewrite app_assoc. apply shortened_app. Qed.

Lemma join_map {A} sep (f : A -> cstring) l : l <> [] ->
  concat ((fun n => f n ++ sep) <$> l) = join sep (f <$> l) ++ sep.
Proof. intros Hl. rewrite <-concat_join by (by destruct l). by rewrite <-list_fmap_compose. Qed.

(** ** The loops, text by text *)

Definition standard (q : query_preparator) (names : list cstring) : list cstring :=
  List.filter (fun n => negb (find (_unique q) n)) names.
Definition identifying (q : query_preparator) (names : list cstring) : list cstring :=
  List.filter (find (_unique q)) names.

(** The name of the place of a column in the values. *)
Definition insert_key (q : query_preparator) (n : cstring) : cstring :=
  if negb (find (_unique q) n) then key n ++ [x31] else key n.

Lemma insert_fold names query m :
  fold_left (fun '(query, m) n => (query ++ str "?,", number m (key n))) names (query, m)
  = (query ++ concat ((fun _ => str "?,") <$> names), fold_left number (key <$> names) m).
Proof.
  revert query m. induction names as [|n names IH]; intros query m; cbn [fold_left fmap list_fmap concat]; [by rewrite app_nil_r|].
  rewrite IH. by rewrite <-app_assoc.
Qed.

Lemma insert_or_update_fold q names ins i upd u :
  fold_left (insert_or_update_turn q) names ((ins, i), (upd, u))
  = ((ins ++ concat ((fun _ => str "?,") <$> names), fold_left number (insert_key q <$> names) i),
     (upd ++ concat ((fun n => n ++ str "=?,") <$> standard q names), fold_left number ((fun n => key n ++ [x32]) <$> standard q names) u)).
Proof.
  revert ins i upd u. induction names as [|n names IH]; intros ins i upd u; cbn [fold_left fmap list_fmap concat standard List.filter].
  { by rewrite !app_nil_r. }
  unfold insert_or_update_turn at 2, insert_key at 2. destruct (find (_unique q) n); cbn [negb]; rewrite IH; cbn [fmap list_fmap concat fold_left];
    by rewrite <-?app_assoc.
Qed.

Lemma update_fold q names query m where_ w :
  fold_left (update_turn q) names ((query, m), (where_, w))
  = ((query ++ concat ((fun n => n ++ str "=?,") <$> standard q names), fold_left number (key <$> standard q names) m),
     (where_ ++ concat ((fun n => n ++ str "=? AND ") <$> identifying q names), fold_left number (key <$> identifying q names) w)).
Proof.
  revert query m where_ w. induction names as [|n names IH]; intros query m where_ w; cbn [fold_left fmap list_fmap concat standard identifying List.filter].
  { by rewrite !app_nil_r. }
  unfold update_turn at 2. destruct (find (_unique q) n); cbn [negb]; rewrite IH; cbn [fmap list_fmap concat fold_left];
    by rewrite <-?app_assoc.
Qed.

(** ** The places of the columns of an event *)

Section Places.
Context (C : list cstring).
Context (distinct : NoDup C) (places_apart : forall n c, n ∈ C -> c = x31 \/ c = x32 -> n ++ [c] ∉ C).

Lemma key_apart a b c : a ∈ C -> b ∈ C -> c = x31 \/ c = x32 -> key a <> key b ++ [c].
Proof. intros Ha Hb Hc [= ->]. by destruct (places_apart b c Hb Hc). Qed.

Lemma key_inj a b : key a = key b -> a = b.
Proof. by intros [= ->]. Qed.

Lemma key_snoc a b (c d : byte) : key a ++ [c] = key b ++ [d] -> a = b /\ c = d.
Proof. intros H. apply app_inj_2 in H as [H1 H2]; [|done]. by simplify_eq. Qed.

Lemma one_place (m : mysql_bind_mapping) n (T : list cstring) i : m !! key n = Some i -> (forall j, T !! j = Some n <-> j = i) ->
  NoDup (places m (key n)) /\ forall j, j ∈ places m (key n) <-> T !! j = Some n.
Proof.
  intros Hi HT. unfold places. rewrite Hi. split; [apply NoDup_singleton|]. intros j. by rewrite list_elem_of_singleton, HT.
Qed.

Lemma no_place (m : mysql_bind_mapping) n (T : list cstring) : m !! key n = None -> m !! (key n ++ [x31]) = None -> n ∉ T ->
  NoDup (places m (key n)) /\ forall j, j ∈ places m (key n) <-> T !! j = Some n.
Proof.
  intros H1 H2 HT. unfold places. rewrite H1, H2. split; [apply NoDup_nil_2|]. intros j. split; [by intros ?%not_elem_of_nil|].
  intros H. by apply list_elem_of_lookup_2 in H.
Qed.

Lemma NoDup_at (T : list cstring) i n : NoDup T -> T !! i = Some n -> forall j, T !! j = Some n <-> j = i.
Proof. intros Hn Hi j. split; [|by intros ->]. intros Hj. by apply (NoDup_lookup _ _ _ _ Hn Hj Hi). Qed.

(** Each name of [T] has its place in it, as in prepare_insert and
    prepare_update. *)
Lemma plain_assigned (m : mysql_bind_mapping) T : NoDup T -> T ⊆ C ->
  (forall x i, m !! x = Some i <-> exists a, T !! i = Some a /\ x = key a) ->
  forall n, n ∈ C -> NoDup (places m (key n)) /\ forall i, i ∈ places m (key n) <-> T !! i = Some n.
Proof.
  intros HT HC Hm n Hn. destruct (decide (n ∈ T)) as [Hin|Hin].
  - apply list_elem_of_lookup_1 in Hin as [i Hi]. apply (one_place m n T i).
    + apply Hm. by exists n.
    + by apply NoDup_at.
  - apply no_place; [| |done]; apply eq_None_not_Some; intros [i (a & Ha & He)%Hm].
    + apply key_inj in He as ->. apply Hin. by apply list_elem_of_lookup_2 in Ha.
    + apply (key_apart a n x31); [apply HC; by apply list_elem_of_lookup_2 in Ha|done|by left|done].
Qed.

Context (q : query_preparator) (names : list cstring) (names_distinct : NoDup names) (names_columns : names ⊆ C).

Lemma elem_of_standard n : n ∈ standard q names <-> n ∈ names /\ find (_unique q) n = false.
Proof. unfold standard. by rewrite list_elem_of_In, filter_In, <-list_elem_of_In, negb_true_iff. Qed.

Lemma elem_of_identifying n : n ∈ identifying q names <-> n ∈ names /\ find (_unique q) n = true.
Proof. unfold identifying. by rewrite list_elem_of_In, filter_In, <-list_elem_of_In. Qed.

Lemma filtered_distinct (f : cstring -> bool) : NoDup (List.filter f names).
Proof. apply NoDup_ListNoDup, List.NoDup_filter, NoDup_ListNoDup, names_distinct. Qed.

(** The values, then the columns to update, as in prepare_insert_or_update. *)
Lemma insert_or_update_assigned (m : mysql_bind_mapping) :
  (forall x i, m !! x = Some i <-> (exists a, names !! i = Some a /\ x = insert_key q a)
    \/ exists j a, standard q names !! j = Some a /\ x = key a ++ [x32] /\ i = (length names + j)%nat) ->
  forall n, n ∈ C -> NoDup (places m (key n))
    /\ forall i, i ∈ places m (key n) <-> (names ++ standard q names) !! i = Some n.
Proof.
  intros Hm n Hn.
  assert (Hin : forall i a, names !! i = Some a -> a ∈ C).
  { intros i a Ha. apply names_columns. by apply list_elem_of_lookup_2 in Ha. }
  assert (Hst : forall j a, standard q names !! j = Some a -> a ∈ C /\ a ∈ names /\ find (_unique q) a = false).
  { intros j a Ha. apply list_elem_of_lookup_2, elem_of_standard in Ha as [Ha Hf]. split; [by apply names_columns|done]. }
  assert (Hplain : forall i, m !! key n = Some i -> names !! i = Some n /\ find (_unique q) n = true).
  { intros i [(a & Ha & He)|(j & a & Ha & He & _)]%Hm; [|by apply Hst in Ha as (Ha & _); apply key_apart in He; try done; right].
    unfold insert_key in He. destruct (find (_unique q) a) eqn:Hf; cbn in He; [by apply key_inj in He as ->|].
    apply key_apart in He; [done..| |by left]. by apply Hin in Ha. }
  assert (Hone : forall i, m !! (key n ++ [x31]) = Some i -> names !! i = Some n /\ find (_unique q) n = false).
  { intros i [(a & Ha & He)|(j & a & Ha & He & _)]%Hm; [|by apply key_snoc in He as [_ [=]]].
    unfold insert_key in He. destruct (find (_unique q) a) eqn:Hf; cbn in He; [|by apply key_snoc in He as [-> _]].
    symmetry in He. apply key_apart in He; [done| |done|by left]. by apply Hin in Ha. }
  destruct (decide (n ∈ names)) as [Hnn|Hnn].
  2: { apply no_place.
    - apply eq_None_not_Some. intros [i [H _]%Hplain]. by apply list_elem_of_lookup_2 in H.
    - apply eq_None_not_Some. intros [i [H _]%Hone]. by apply list_elem_of_lookup_2 in H.
    - rewrite elem_of_app, elem_of_standard. tauto. }
  pose proof Hnn as [i Hi]%list_elem_of_lookup_1. destruct (find (_unique q) n) eqn:Hu.
  - apply (one_place m n _ i); [apply Hm; left; exists n; split; [done|]; unfold insert_key; by rewrite Hu|].
    intros j. rewrite lookup_app_Some, (NoDup_at names i n names_distinct Hi j). split; [|by left].
    intros [H|[_ H]]; [done|]. apply Hst in H as (_ & _ & H). congruence.
  - assert (Hs : n ∈ standard q names) by (by apply elem_of_standard). apply list_elem_of_lookup_1 in Hs as [j Hj].
    unfold places. replace (m !! key n) with (@None nat) by (symmetry; apply eq_None_not_Some; intros [k [_ H]%Hplain]; congruence).
    rewrite (proj2 (Hm (key n ++ [x31]) i)) by (left; exists n; split; [done|]; unfold insert_key; by rewrite Hu).
    rewrite (proj2 (Hm (key n ++ [x32]) (length names + j)%nat)) by (right; by exists j, n).
    pose proof (lookup_lt_Some _ _ _ Hi) as Hlt. split.
    { apply NoDup_cons. split; [rewrite list_elem_of_singleton; lia|apply NoDup_singleton]. }
    intros k. rewrite lookup_app_Some, (NoDup_at names i n names_distinct Hi k), elem_of_cons, list_elem_of_singleton.
    split; [intros [->| ->]; [by left|right; split; [lia|]; by replace (_ - _)%nat with j by lia]|].
    intros [->|[Hle Hk]]; [by left|right]. pose proof (proj1 (NoDup_at _ j n (filtered_distinct _) Hj _) Hk). lia.
Qed.


End Places.

(** ** The statements *)

(** Every place of the statement gets the value of the member of its column. *)
Definition fills (reg : registry) (s : mysql_stmt) (d : Bbdo.data) (info : event_info) (T : list cstring) : Prop :=
  _param_count s = length T /\
  exists s' b, bind_event reg s d = Returns s' /\ _bind s' = Some b /\ Forall2 (column_of (get_mapping info) (Bbdo.fields d)) T b.

Lemma fills_spec hash reg d info T query m :
  Registry.sound info -> get_event_info reg (Bbdo.type d) = Some info -> Forall2 storable (get_mapping info) (Bbdo.fields d) ->
  T <> [] -> T ⊆ columns (get_mapping info) -> size m = length T ->
  (forall n, n ∈ columns (get_mapping info) -> NoDup (places m (key n)) /\ forall i, i ∈ places m (key n) <-> T !! i = Some n) ->
  fills reg (new_mysql_stmt hash query m) d info T.
Proof.
  intros [_ Hn _] Hi Hf Hne HT Hs Ha.
  assert (Hp : _param_count (new_mysql_stmt hash query m) = length T).
  { unfold new_mysql_stmt. cbn. rewrite bool_decide_eq_false_2; [done|]. intros ->. destruct T; done. }
  split; [done|]. destruct (bind_all_places (get_mapping info) (Bbdo.fields d) (new_mysql_stmt hash query m) T) as (s' & b & Hb & _ & H); [try done..|].
  exists s', b. split; [|done]. unfold bind_event. by rewrite Hi.
Qed.

Lemma kept_distinct q info : Registry.sound info -> NoDup (kept q (get_mapping info)).
Proof. intros [_ H _]. by apply filtered_distinct. Qed.

Lemma kept_columns q mapping : kept q mapping ⊆ columns mapping.
Proof. intros n Hn. unfold kept in Hn. by rewrite list_elem_of_In, filter_In, <-list_elem_of_In in Hn; destruct Hn. Qed.

Definition question : cstring -> cstring := fun _ => str "?".
Definition assignment (n : cstring) : cstring := n ++ str "=?".

Section Statements.
Context (hash : cstring -> Z) (reg : registry) (q : query_preparator) (d : Bbdo.data) (info : event_info).
Context (registered : get_event_info reg (Bbdo.type d) = Some info) (info_sound : Registry.sound info).
Context (same_event : _event_id q = Bbdo.type d) (values_ok : Forall2 storable (get_mapping info) (Bbdo.fields d)).
Context (some_column : kept q (get_mapping info) <> []).

#[local] Abbreviation names := (kept q (get_mapping info)).

Lemma insert_fills ignore : exists s, prepare_insert hash reg q ignore = Returns s
  /\ _query s = (if ignore then str "INSERT IGNORE INTO " else str "INSERT INTO ") ++ get_table_v2 info
                ++ str " (" ++ join (str ", ") names ++ str ") VALUES(" ++ join (str ",") (question <$> names) ++ str ")"
  /\ fills reg s d info names.
Proof.
  unfold prepare_insert. rewrite same_event, registered, fold_text, insert_fold.
  destruct (fold_left number (key <$> names) (∅, 0%nat)) as [m k] eqn:E. eexists. split; [done|].
  destruct info_sound as [_ Hc Hp].
  destruct (number_keys key names m k E) as (_ & Hs & Hl); [by apply NoDup_fmap_2_strong; [intros ?? _ _; apply key_inj|apply kept_distinct]|].
  split.
  - cbn [_query new_mysql_stmt]. rewrite (shortened_join _ (str ", ")) by done.
    rewrite (list_fmap_ext _ (fun n => question n ++ str ",") names) by done.
    rewrite join_map by done. rewrite !app_assoc, (shortened_app _ (str ",")). by rewrite <-!app_assoc.
  - apply fills_spec; try done; [apply kept_columns|].
    apply (plain_assigned (columns (get_mapping info))); [done|by apply kept_distinct|apply kept_columns|done].
Qed.

#[local] Abbreviation others := (standard q names).

Lemma others_columns : others ⊆ columns (get_mapping info).
Proof. intros n [Hn _]%elem_of_standard. by apply kept_columns in Hn. Qed.

Lemma insert_keys_distinct : NoDup (insert_key q <$> names).
Proof.
  destruct info_sound as [_ Hc Hp]. apply NoDup_fmap_2_strong; [|by apply kept_distinct].
  intros a b Ha%kept_columns Hb%kept_columns. unfold insert_key.
  destruct (find (_unique q) a), (find (_unique q) b); cbn; intros He.
  - by apply key_inj.
  - exfalso. apply (key_apart (columns (get_mapping info)) Hp) in He; [done..|by left].
  - exfalso. symmetry in He. apply (key_apart (columns (get_mapping info)) Hp) in He; [done..|by left].
  - by apply key_snoc in He as [? _].
Qed.

Lemma insert_or_update_fills : others <> [] -> exists s, prepare_insert_or_update hash reg q = Returns s
  /\ _query s = str "INSERT INTO " ++ get_table_v2 info ++ str " (" ++ join (str ",") names
                ++ str ") VALUES(" ++ join (str ",") (question <$> names) ++ str ") "
                ++ str " ON DUPLICATE KEY UPDATE " ++ join (str ",") (assignment <$> others)
  /\ fills reg s d info (names ++ others).
Proof.
  intros Ho. unfold prepare_insert_or_update. rewrite same_event, registered, fold_text, insert_or_update_fold.
  destruct (fold_left number (insert_key q <$> names) (∅, 0%nat)) as [m k] eqn:E.
  destruct (fold_left number ((fun n => key n ++ [x32]) <$> others) (∅, 0%nat)) as [u k'] eqn:Eu.
  destruct (number_keys _ names m k E insert_keys_distinct) as (-> & Hs & Hl). destruct info_sound as [_ Hc Hp].
  destruct (number_keys _ others u k' Eu) as (_ & Hsu & Hlu).
  { apply NoDup_fmap_2_strong; [|by apply filtered_distinct, kept_distinct]. by intros a b _ _ [? _]%key_snoc. }
  destruct (add_all_lookup m (length names) u) as [Hsz Hall].
  { intros x [j (a & Ha & ->)%Hlu]. apply eq_None_not_Some. intros [i (b & Hb & He)%Hl].
    apply list_elem_of_lookup_2, others_columns in Ha. apply list_elem_of_lookup_2, kept_columns in Hb. unfold insert_key in He.
    destruct (find (_unique q) b); cbn in He; [|by apply key_snoc in He as [_ [=]]].
    symmetry in He. apply (key_apart (columns (get_mapping info)) Hp) in He; [done..|by right]. }
  eexists. split; [done|]. split.
  - cbn [_query new_mysql_stmt]. rewrite (shortened_join _ (str ",")) by done.
    rewrite (list_fmap_ext _ (fun n => question n ++ str ",") names) by done.
    rewrite (list_fmap_ext (fun n => n ++ str "=?,") (fun n => assignment n ++ str ",") others)
      by (intros; unfold assignment; by rewrite <-app_assoc).
    rewrite !join_map by done. rewrite !app_assoc, !(shortened_app _ (str ",")). by rewrite <-!app_assoc.
  - apply fills_spec; try done.
    + by destruct names.
    + intros n [Hn|Hn]%elem_of_app; [by apply kept_columns in Hn|by apply others_columns].
    + by rewrite Hsz, Hs, Hsu, length_app.
    + apply (insert_or_update_assigned (columns (get_mapping info))); [done|by apply kept_distinct|apply kept_columns|].
      intros x i. rewrite Hall, Hl. setoid_rewrite Hlu. split.
      * intros [H|(j & (a & Ha & ->) & ->)]; [by left|right]. exists j, a. split_and!; [done|done|lia].
      * intros [H|(j & a & Ha & -> & ->)]; [by left|right]. exists j. split; [by exists a|lia].
Qed.

Lemma update_fills : others <> [] -> identifying q names <> [] -> exists s, prepare_update hash reg q = Returns s
  /\ _query s = str "UPDATE " ++ get_table_v2 info ++ str " SET " ++ join (str ",") (assignment <$> others)
                ++ str " WHERE " ++ join (str " AND ") (assignment <$> identifying q names)
  /\ fills reg s d info (others ++ identifying q names).
Proof.
  intros Ho Hi. unfold prepare_update. rewrite same_event, registered, update_fold.
  destruct (fold_left number (key <$> others) (∅, 0%nat)) as [m k] eqn:E.
  destruct (fold_left number (key <$> identifying q names) (∅, 0%nat)) as [w k'] eqn:Ew.
  assert (Hkeys : forall f, NoDup (key <$> List.filter f names)).
  { intros f. apply NoDup_fmap_2_strong; [intros ?? _ _; apply key_inj|by apply filtered_distinct, kept_distinct]. }
  destruct (number_keys key others m k E (Hkeys _)) as (-> & Hs & Hl).
  destruct (number_keys key (identifying q names) w k' Ew (Hkeys _)) as (_ & Hsw & Hlw). destruct info_sound as [_ Hc Hp].
  assert (Hno : forall n, n ∈ others -> n ∈ identifying q names -> False).
  { intros n. rewrite elem_of_standard, elem_of_identifying. intros [_ H1] [_ H2]. congruence. }
  destruct (add_all_lookup m (length others) w) as [Hsz Hall].
  { intros x [j (a & Ha & ->)%Hlw]. apply eq_None_not_Some. intros [i (b & Hb & He%key_inj)%Hl]. subst b.
    apply (Hno a); by eapply list_elem_of_lookup_2. }
  eexists. split; [done|]. split.
  - cbn [_query new_mysql_stmt].
    rewrite (list_fmap_ext (fun n => n ++ str "=?,") (fun n => assignment n ++ str ",") others)
      by (intros; unfold assignment; by rewrite <-app_assoc).
    rewrite (list_fmap_ext (fun n => n ++ str "=? AND ") (fun n => assignment n ++ str " AND ") (identifying q names))
      by (intros; unfold assignment; by rewrite <-app_assoc).
    rewrite !join_map by done. rewrite !app_assoc, (shortened_app _ (str ",")), (shortened_app _ (str " AND ")). by rewrite <-!app_assoc.
  - apply fills_spec; try done.
    + by destruct others.
    + intros n [Hn|Hn]%elem_of_app; [by apply others_columns|]. apply elem_of_identifying in Hn as [Hn _]. by apply kept_columns in Hn.
    + by rewrite Hsz, Hs, Hsw, length_app.
    + apply (plain_assigned (columns (get_mapping info))); [done| | |].
      * apply NoDup_app. split_and!; [by apply filtered_distinct, kept_distinct| |by apply filtered_distinct, kept_distinct].
        intros x H1 H2. by apply (Hno x).
      * intros n [Hn|Hn]%elem_of_app; [by apply others_columns|]. apply elem_of_identifying in Hn as [Hn _]. by apply kept_columns in Hn.
      * intros x i. rewrite Hall, Hl. setoid_rewrite Hlw. setoid_rewrite lookup_app_Some. split.
        -- intros [(a & Ha & ->)|(j & (a & Ha & ->) & ->)]; exists a; (split; [|done]); [by left|right; split; [lia|]].
           by replace (_ - _)%nat with j by lia.
        -- intros (a & [Ha|[Hle Ha]] & ->); [left; by exists a|right]. exists (i - length others)%nat. split; [by exists a|lia].
Qed.
End Statements.

Lemma delete_fold names query m :
  fold_left (fun '(query, m) n => (query ++ str "(" ++ n ++ str "=?" ++ str ") AND ", number m (key n))) names (query, m)
  = (query ++ concat ((fun n => (str "(" ++ assignment n ++ str ")") ++ str " AND ") <$> names), fold_left number (key <$> names) m).
Proof.
  revert query m. induction names as [|n names IH]; intros query m; cbn [fold_left fmap list_fmap concat]; [by rewrite app_nil_r|].
  rewrite IH. unfold assignment. by rewrite <-!app_assoc.
Qed.

Lemma delete_fills hash reg q d info : get_event_info reg (Bbdo.type d) = Some info -> Registry.sound info ->
  _event_id q = Bbdo.type d -> Forall2 storable (get_mapping info) (Bbdo.fields d) ->
  NoDup (_unique q) -> _unique q <> [] -> _unique q ⊆ columns (get_mapping info) ->
  exists s, prepare_delete hash reg q = Returns s
  /\ _query s = str "DELETE FROM " ++ get_table_v2 info ++ str " WHERE "
                ++ join (str " AND ") ((fun n => str "(" ++ assignment n ++ str ")") <$> _unique q)
  /\ fills reg s d info (_unique q).
Proof.
  intros Hr Hsound He Hv Hn Hne HC. unfold prepare_delete. rewrite He, Hr, delete_fold.
  destruct (fold_left number (key <$> _unique q) (∅, 0%nat)) as [m k] eqn:E.
  destruct (number_keys key (_unique q) m k E) as (_ & Hs & Hl); [by apply NoDup_fmap_2_strong; [intros ?? _ _; apply key_inj|]|].
  pose proof Hsound as [_ Hc Hp]. eexists. split; [done|]. split.
  - cbn [_query new_mysql_stmt]. rewrite join_map by done. rewrite !app_assoc, (shortened_app _ (str " AND ")). by rewrite <-!app_assoc.
  - apply fills_spec; try done. by apply (plain_assigned (columns (get_mapping info))).
Qed.

(** ** The statements of the events of the program *)

Section Program.
Context (col_size : string -> string -> Z) (hash : cstring -> Z) (reg : registry) (d : Bbdo.data) (info : event_info).

(** C7. Whatever modules are loaded, and whatever the columns excluded and
    those of the identity, when an event of the registry is bound to a statement
    prepared for its type, each '?' of the query, from the first to the last,
    gets the value of the member whose column it stands for: those of the
    list of values then those that are assigned, or those that are assigned
    then those of the condition. *)
Theorem statements_bind_columns q : Registry.reached col_size reg -> get_event_info reg (Bbdo.type d) = Some info ->
  Forall2 storable (get_mapping info) (Bbdo.fields d) -> _event_id q = Bbdo.type d ->
  let names := kept q (get_mapping info) in
  let others := standard q names in
  others <> [] ->
  (forall ignore, exists s, prepare_insert hash reg q ignore = Returns s
     /\ _query s = (if ignore then str "INSERT IGNORE INTO " else str "INSERT INTO ") ++ get_table_v2 info
          ++ str " (" ++ join (str ", ") names ++ str ") VALUES(" ++ join (str ",") (question <$> names) ++ str ")"
     /\ fills reg s d info names)
  /\ (exists s, prepare_insert_or_update hash reg q = Returns s
     /\ _query s = str "INSERT INTO " ++ get_table_v2 info ++ str " (" ++ join (str ",") names
          ++ str ") VALUES(" ++ join (str ",") (question <$> names) ++ str ") "
          ++ str " ON DUPLICATE KEY UPDATE " ++ join (str ",") (assignment <$> others)
     /\ fills reg s d info (names ++ others))
  /\ (identifying q names <> [] -> exists s, prepare_update hash reg q = Returns s
     /\ _query s = str "UPDATE " ++ get_table_v2 info ++ str " SET " ++ join (str ",") (assignment <$> others)
          ++ str " WHERE " ++ join (str " AND ") (assignment <$> identifying q names)
     /\ fills reg s d info (others ++ identifying q names)).
Proof.
  intros Hr Hi Hv He names others Ho. pose proof (Registry.reached_info _ _ _ _ Hr Hi) as Hs.
  assert (Hne : names <> []) by (intros E; apply Ho; unfold others; by rewrite E).
  split_and!; [intros ignore; by apply insert_fills|by apply insert_or_update_fills|intros; by apply update_fills].
Qed.

End Program.

(** ** Examples *)

Definition host_parent_query : query_preparator := Query_preparator Registry.demo_type [] [str "child_id"].

Definition host_parent_info : event_info :=
  event "host_parent" NebEvents.host_parent_members NebEvents.host_parent_entries "hosts_hosts_parents".

Lemma statements_bind_columns_witness :
  exists s, prepare_insert_or_update (fun _ => 0) Registry.demo_registry host_parent_query = Returns s
  /\ _query s = str "INSERT INTO hosts_hosts_parents (child_id,parent_id) VALUES(?,?)  ON DUPLICATE KEY UPDATE parent_id=?"
  /\ fills Registry.demo_registry s Registry.demo_event host_parent_info [str "child_id"; str "parent_id"; str "parent_id"].
Proof.
  apply (statements_bind_columns (fun _ _ => 0) (fun _ => 0) Registry.demo_registry Registry.demo_event host_parent_info host_parent_query).
  - exact Registry.demo_reached.
  - vm_compute. reflexivity.
  - repeat constructor.
  - reflexivity.
  - discriminate.
Defined.
End QueryPreparator.
