(* ===== verification/Mfifo.v ===== *)
(** * The queue of several sources (core/inc/com/centreon/broker/misc/mfifo.hh)

    Elements of several sources are handled in the order of their arrival, and
    acknowledged to each source in the order it gave them. The bool pointers to the
    elements of the timelines are a source and a number: the element of that
    number since the start. An element that left its timeline has no place any
    more, and a write through a pointer to it has no effect here (it is not
    defined in the code). *)

From Stdlib Require Import ZArith Lia ZifyNat ZifyBool.
From stdpp Require Import base option list numbers.
From S2P Require Import Prelude.

Module Mfifo.

Record pointer : Type := Pointer { source : nat; place : nat }.

#[global] Instance pointer_eq_dec : EqDecision pointer.
Proof. solve_decision. Defined.

(** Writing to an element of an array. *)
Definition set_at {A} (f : nat -> A) (idx : nat) (x : A) : nat -> A := fun i => if (i =? idx)%nat then x else f i.

Lemma set_at_here {A} (f : nat -> A) i x : set_at f i x i = x.
Proof. unfold set_at. by rewrite Nat.eqb_refl. Qed.

Lemma set_at_other {A} (f : nat -> A) i j x : j <> i -> set_at f i x j = f j.
Proof. intros H. unfold set_at. by rewrite (proj2 (Nat.eqb_neq j i) H). Qed.

Section Fifo.
Context {T : Type}.

(** [popped] is the number of elements that left each timeline. *)
Record mfifo : Type := Mk_mfifo {
  _events : list (T * pointer);
  _timeline : nat -> list bool;
  _ack : nat -> Z;
  _pending_elements : Z;
  popped : nat -> nat
}.

Definition new_mfifo : mfifo := Mk_mfifo [] (fun _ => []) (fun _ => 0) 0 (fun _ => 0%nat).

(** Swaps the waiting elements with an empty list. *)
Definition first_events (f : mfifo) : mfifo * list (T * pointer) :=
  (Mk_mfifo [] (_timeline f) (_ack f) (_pending_elements f) (popped f), _events f).

(** A pointer to the last element of a timeline. *)
Definition back (f : mfifo) (idx : nat) : pointer := Pointer idx (popped f idx + length (_timeline f idx) - 1).

Definition get_acks (f : mfifo) (idx : nat) : mfifo * Z :=
  (Mk_mfifo (_events f) (_timeline f) (set_at (_ack f) idx 0) (_pending_elements f) (popped f), _ack f idx).

Definition push (f : mfifo) (idx : nat) (e : T) : mfifo * Z :=
  let f := Mk_mfifo (_events f) (set_at (_timeline f) idx (_timeline f idx ++ [false])) (_ack f) (_pending_elements f + 1) (popped f) in
  let f := Mk_mfifo (_events f ++ [(e, back f idx)]) (_timeline f) (_ack f) (_pending_elements f) (popped f) in
  get_acks f idx.

(** The elements that are true at the front. *)
Fixpoint ready (timeline : list bool) : nat :=
  match timeline with true :: timeline => S (ready timeline) | _ => 0 end.

Definition clean (f : mfifo) (idx : nat) : mfifo :=
  let count := ready (_timeline f idx) in
  Mk_mfifo (_events f) (set_at (_timeline f) idx (drop count (_timeline f idx))) (set_at (_ack f) idx (_ack f idx + Z.of_nat count))
    (_pending_elements f - Z.of_nat count) (set_at (popped f) idx (popped f idx + count)%nat).

Definition get_events (f : mfifo) : list (T * pointer) := _events f.
Definition get_timeline (f : mfifo) (idx : nat) : list bool := _timeline f idx.
Definition get_pending_elements (f : mfifo) : Z := _pending_elements f.

(** *p = true. *)
Definition set_true (f : mfifo) (p : pointer) : mfifo :=
  if (place p <? popped f (source p))%nat then f
  else Mk_mfifo (_events f) (set_at (_timeline f) (source p) (<[(place p - popped f (source p))%nat := true]> (_timeline f (source p))))
         (_ack f) (_pending_elements f) (popped f).

(** ** What the timelines say *)

(** The number of elements a source gave, and what is known of one. *)
Definition given (f : mfifo) (idx : nat) : nat := (popped f idx + length (_timeline f idx))%nat.

(** An element was acknowledged to its source, or is ready to be. *)
Definition flagged (f : mfifo) (p : pointer) : Prop :=
  (place p < popped f (source p))%nat
  \/ ((popped f (source p) <= place p)%nat /\ _timeline f (source p) !! (place p - popped f (source p))%nat = Some true).

Lemma ready_le l : (ready l <= length l)%nat.
Proof. induction l as [|[] l IH]; cbn; lia. Qed.

Lemma ready_true l i : (i < ready l)%nat -> l !! i = Some true.
Proof. revert i. induction l as [|[] l IH]; intros i H; cbn in H; try lia. destruct i as [|i]; [done|]. apply IH. lia. Qed.

Lemma ready_stops l : l !! ready l <> Some true.
Proof. by induction l as [|[] l IH]. Qed.

Lemma given_clean f i j : given (clean f i) j = given f j.
Proof.
  unfold given, clean; cbn. destruct (decide (j = i)) as [->|H]; [|by rewrite !set_at_other].
  rewrite !set_at_here, length_drop. pose proof (ready_le (_timeline f i)). lia.
Qed.

Lemma popped_clean f i j : (popped f j <= popped (clean f i) j)%nat.
Proof. unfold clean; cbn. destruct (decide (j = i)) as [->|H]; [rewrite set_at_here; lia|by rewrite set_at_other]. Qed.

(** Cleaning acknowledges exactly elements that were flagged, and flags none. *)
Lemma flagged_clean f i p : flagged (clean f i) p <-> flagged f p.
Proof.
  destruct p as [s k]. unfold flagged, clean; cbn. destruct (decide (s = i)) as [->|H]; [|by rewrite !set_at_other].
  rewrite !set_at_here, lookup_drop. set (n := popped f i). set (l := _timeline f i). split.
  - intros [Hk|[Hk Hl]].
    + destruct (decide (k < n)%nat); [by left|right]. split; [lia|]. apply ready_true. lia.
    + right. split; [lia|]. by replace (k - n)%nat with (ready l + (k - (n + ready l)))%nat by lia.
  - intros [Hk|[Hk Hl]]; [left; lia|]. destruct (decide (k < n + ready l)%nat); [by left|right]. split; [lia|].
    by replace (ready l + (k - (n + ready l)))%nat with (k - n)%nat by lia.
Qed.

Lemma flagged_set_true f p q : flagged (set_true f p) q -> q = p \/ flagged f q.
Proof.
  destruct p as [s k], q as [s' k']. unfold set_true, flagged; cbn [source place]. destruct (Nat.ltb_spec k (popped f s)) as [E|E]; [by intros ?; right|]. cbn.
  destruct (decide (s' = s)) as [->|H]; [rewrite set_at_here|rewrite set_at_other by done; by intros ?; right].
  intros [Hk|[Hk Hl]]; [right; by left|]. destruct (decide (k' = k)) as [->|Hne]; [by left|right; right]. split; [done|].
  rewrite list_lookup_insert_ne in Hl by lia. done.
Qed.

Lemma flagged_set_true_keeps f p q : flagged f q -> flagged (set_true f p) q.
Proof.
  destruct p as [s k], q as [s' k']. unfold set_true, flagged; cbn [source place]. destruct (Nat.ltb_spec k (popped f s)) as [E|E]; [done|]. cbn.
  destruct (decide (s' = s)) as [->|H]; [rewrite set_at_here|by rewrite set_at_other].
  intros [Hk|[Hk Hl]]; [by left|right]. split; [done|]. destruct (decide (k' = k)) as [->|Hne].
  - apply list_lookup_insert_eq. by apply lookup_lt_is_Some; eexists.
  - rewrite list_lookup_insert_ne by lia. done.
Qed.

Lemma flagged_set_true_here f p : (place p < given f (source p))%nat -> flagged (set_true f p) p.
Proof.
  destruct p as [s k]. unfold set_true, flagged, given; cbn [source place]. intros Hk. destruct (Nat.ltb_spec k (popped f s)) as [E|E]; [by left|].
  cbn. right. rewrite set_at_here. split; [lia|]. apply list_lookup_insert_eq. lia.
Qed.

Lemma given_set_true f p i : given (set_true f p) i = given f i.
Proof.
  unfold set_true, given. case_match; [done|]. cbn. destruct (decide (i = source p)) as [->|Hne]; [|by rewrite set_at_other].
  by rewrite set_at_here, length_insert.
Qed.

Lemma popped_set_true f p : popped (set_true f p) = popped f.
Proof. unfold set_true. by case_match. Qed.

(** An element that is not flagged blocks the acknowledgement of those its
    source gave after it. *)
Lemma popped_blocked f p : ~ flagged f p -> (popped f (source p) <= place p)%nat.
Proof. unfold flagged. intros H. apply Nat.nlt_ge. intros Hk. apply H. by left. Qed.

End Fifo.
Arguments mfifo T : clear implicits.
End Mfifo.
