(* ===== verification/ConflictManager.v ===== *)
(** * The conflict manager (storage/src/conflict_manager.cc, stored_timestamp.cc)

    One thread writes the events of two streams (sql and storage) to a database,
    over several connections. It keeps, per connection, what was written since
    the last commit (the actions), and commits before writing what would
    wait for another connection. Events are acknowledged to their streams, in
    order, once all connections are committed.

    The database is what the thread sees of it: calls that succeed, or that throw
    an exception (maybe for an earlier query: connections work in the
    background), and results of queries. The log of the calls, and of the
    flags set in the timelines of the queue, is part of the state; what the
    database answers, the choice of a connection that has few tasks, and the clock
    are functions of it. This file holds the state and what all the handlers
    use; ConflictSql and ConflictStorage the handlers, ConflictLoop the main loop. *)

From Stdlib Require Import ZArith Lia ZifyNat ZifyBool Strings.Byte Strings.String Floats.SpecFloat.
From stdpp Require Import base option list numbers strings gmap.
From S2P Require Import Prelude MiscString Double Events Mapping Bbdo NebEvents Registry MysqlStmt QueryPreparator Mfifo.

Module ConflictManager.
Import Events Mapping MysqlStmt Mfifo.

(** The sources of the queue. *)
Definition sql : nat := 0.
Definition storage : nat := 1.

(** actions. *)
Definition none : Z := 0.
Definition acknowledgements : Z := Z.shiftl 1 0.
Definition comments : Z := Z.shiftl 1 1.
Definition custom_variables : Z := Z.shiftl 1 2.
Definition downtimes : Z := Z.shiftl 1 3.
Definition host_dependencies : Z := Z.shiftl 1 4.
Definition host_hostgroups : Z := Z.shiftl 1 5.
Definition host_parents : Z := Z.shiftl 1 6.
Definition hostgroups : Z := Z.shiftl 1 7.
Definition hosts : Z := Z.shiftl 1 8.
Definition instances : Z := Z.shiftl 1 9.
Definition modules : Z := Z.shiftl 1 10.
Definition service_dependencies : Z := Z.shiftl 1 11.
Definition service_servicegroups : Z := Z.shiftl 1 12.
Definition servicegroups : Z := Z.shiftl 1 13.
Definition services : Z := Z.shiftl 1 14.
Definition index_data : Z := Z.shiftl 1 15.
Definition metrics : Z := Z.shiftl 1 16.

(** a | b | ... *)
Definition any (l : list Z) : Z := fold_left Z.lor l 0.

Record index_info : Type := Index_info {
  ii_host_name : cstring;
  index_id : Z;
  locked : bool;
  rrd_retention : Z;
  ii_service_description : cstring;
  special : bool
}.

Record metric_info : Type := Metric_info {
  metric_locked : bool;
  metric_id : Z;
  metric_type : Z;
  metric_val : double;
  unit_name : cstring;
  warn : double;
  warn_low : double;
  warn_mode : bool;
  crit : double;
  crit_low : double;
  crit_mode : bool;
  metric_min : double;
  metric_max : double
}.

Record metric_value : Type := Metric_value {
  c_time : Z;
  mv_metric_id : Z;
  mv_status : Z;
  mv_value : double
}.

(** stored_timestamp: true is responsive. *)
Record stored_timestamp : Type := Stored_timestamp {
  _instance_id : Z;
  _ts : Z;
  _state : bool
}.

Definition new_stored_timestamp (now id : Z) (s : bool) : stored_timestamp := Stored_timestamp id now s.
Definition set_state (t : stored_timestamp) (state : bool) : stored_timestamp := Stored_timestamp (_instance_id t) (_ts t) state.
Definition set_timestamp (t : stored_timestamp) (ts : Z) : stored_timestamp := Stored_timestamp (_instance_id t) ts (_state t).
Definition timestamp_outdated (now : Z) (t : stored_timestamp) (timeout : Z) : bool := timeout <? now - _ts t.

(** The statements that are members of the class. *)
Inductive statement_id : Type :=
  | _acknowledgement_insupdate | _comment_insupdate | _custom_variable_delete | _custom_variable_status_insupdate
  | _downtime_insupdate | _event_handler_insupdate | _flapping_status_insupdate | _host_check_update | _host_dependency_insupdate
  | _host_group_insupdate | _host_group_member_delete | _host_group_member_insert | _host_insupdate | _host_parent_delete
  | _host_parent_insert | _host_status_update | _instance_insupdate | _instance_status_insupdate | _module_insert
  | _service_check_update | _service_dependency_insupdate | _service_group_insupdate | _service_group_member_delete
  | _service_group_member_insert | _service_insupdate | _service_status_update | _index_data_insert | _index_data_update
  | _index_data_query | _metrics_insert.

#[global] Instance statement_id_eq_dec : EqDecision statement_id.
Proof. solve_decision. Defined.

(** mysql_stmt(). *)
Definition no_statement : mysql_stmt := Mysql_stmt 0 0 [] None ∅.

(** What the thread does that others see: the calls to the database, those
    that failed, the events published, the flags set. *)
Inductive command : Type :=
  | Prepare (query : cstring)
  | Run_query (query : cstring) (fatal : bool) (conn : Z)
  | Run_statement (query : cstring) (bind : option mysql_bind) (fatal : bool) (conn : Z)
  | Ask_query (query : cstring) (conn : Z)
  | Ask_statement (query : cstring) (bind : option mysql_bind) (conn : Z)
  | Ask_insert_id (query : cstring) (bind : option mysql_bind) (conn : Z)
  | Fetch_row
  | Commit (conn : Z)
  | Commit_all
  | Publish (d : Bbdo.data)
  | Sleep
  | Set_flag (p : pointer)
  | Failed (c : command).

Record conflict_manager : Type := Conflict_manager {
  _fifo : mfifo Bbdo.data;
  _action : list Z;
  _exit : bool;
  _broken : bool;
  _cache_deleted_instance_id : gset Z;
  _cache_host_instance : gmap Z Z;
  _cache_hst_cmd : gmap Z Z;
  _cache_svc_cmd : gmap (Z * Z) Z;
  _index_cache : gmap (Z * Z) index_info;
  _metric_cache : gmap (Z * cstring) metric_info;
  _hostgroup_cache : gset Z;
  _servicegroup_cache : gset Z;
  _perfdata_queue : list metric_value;
  _metrics : gmap Z (Z * cstring);
  _cv_queue : list (pointer * cstring);
  _log_queue : list (pointer * cstring);
  _oldest_timestamp : Z;
  _stored_timestamps : gmap Z stored_timestamp;
  statement : statement_id -> mysql_stmt;
  log : list command
}.

Definition with_fifo (c : conflict_manager) (x : mfifo Bbdo.data) : conflict_manager :=
  Conflict_manager x (_action c) (_exit c) (_broken c) (_cache_deleted_instance_id c) (_cache_host_instance c)
    (_cache_hst_cmd c) (_cache_svc_cmd c) (_index_cache c) (_metric_cache c) (_hostgroup_cache c)
    (_servicegroup_cache c) (_perfdata_queue c) (_metrics c) (_cv_queue c) (_log_queue c) (_oldest_timestamp c)
    (_stored_timestamps c) (statement c) (log c).
Definition with_action (c : conflict_manager) (x : list Z) : conflict_manager :=
  Conflict_manager (_fifo c) x (_exit c) (_broken c) (_cache_deleted_instance_id c) (_cache_host_instance c)
    (_cache_hst_cmd c) (_cache_svc_cmd c) (_index_cache c) (_metric_cache c) (_hostgroup_cache c)
    (_servicegroup_cache c) (_perfdata_queue c) (_metrics c) (_cv_queue c) (_log_queue c) (_oldest_timestamp c)
    (_stored_timestamps c) (statement c) (log c).
Definition with_exit (c : conflict_manager) (x : bool) : conflict_manager :=
  Conflict_manager (_fifo c) (_action c) x (_broken c) (_cache_deleted_instance_id c) (_cache_host_instance c)
    (_cache_hst_cmd c) (_cache_svc_cmd c) (_index_cache c) (_metric_cache c) (_hostgroup_cache c)
    (_servicegroup_cache c) (_perfdata_queue c) (_metrics c) (_cv_queue c) (_log_queue c) (_oldest_timestamp c)
    (_stored_timestamps c) (statement c) (log c).
Definition with_broken (c : conflict_manager) (x : bool) : conflict_manager :=
  Conflict_manager (_fifo c) (_action c) (_exit c) x (_cache_deleted_instance_id c) (_cache_host_instance c)
    (_cache_hst_cmd c) (_cache_svc_cmd c) (_index_cache c) (_metric_cache c) (_hostgroup_cache c)
    (_servicegroup_cache c) (_perfdata_queue c) (_metrics c) (_cv_queue c) (_log_queue c) (_oldest_timestamp c)
    (_stored_timestamps c) (statement c) (log c).
Definition with_cache_deleted_instance_id (c : conflict_manager) (x : gset Z) : conflict_manager :=
  Conflict_manager (_fifo c) (_action c) (_exit c) (_broken c) x (_cache_host_instance c) (_cache_hst_cmd c)
    (_cache_svc_cmd c) (_index_cache c) (_metric_cache c) (_hostgroup_cache c) (_servicegroup_cache c)
    (_perfdata_queue c) (_metrics c) (_cv_queue c) (_log_queue c) (_oldest_timestamp c) (_stored_timestamps c)
    (statement c) (log c).
Definition with_cache_host_instance (c : conflict_manager) (x : gmap Z Z) : conflict_manager :=
  Conflict_manager (_fifo c) (_action c) (_exit c) (_broken c) (_cache_deleted_instance_id c) x (_cache_hst_cmd c)
    (_cache_svc_cmd c) (_index_cache c) (_metric_cache c) (_hostgroup_cache c) (_servicegroup_cache c)
    (_perfdata_queue c) (_metrics c) (_cv_queue c) (_log_queue c) (_oldest_timestamp c) (_stored_timestamps c)
    (statement c) (log c).
Definition with_cache_hst_cmd (c : conflict_manager) (x : gmap Z Z) : conflict_manager :=
  Conflict_manager (_fifo c) (_action c) (_exit c) (_broken c) (_cache_deleted_instance_id c)
    (_cache_host_instance c) x (_cache_svc_cmd c) (_index_cache c) (_metric_cache c) (_hostgroup_cache c)
    (_servicegroup_cache c) (_perfdata_queue c) (_metrics c) (_cv_queue c) (_log_queue c) (_oldest_timestamp c)
    (_stored_timestamps c) (statement c) (log c).
Definition with_cache_svc_cmd (c : conflict_manager) (x : gmap (Z * Z) Z) : conflict_manager :=
  Conflict_manager (_fifo c) (_action c) (_exit c) (_broken c) (_cache_deleted_instance_id c)
    (_cache_host_instance c) (_cache_hst_cmd c) x (_index_cache c) (_metric_cache c) (_hostgroup_cache c)
    (_servicegroup_cache c) (_perfdata_queue c) (_metrics c) (_cv_queue c) (_log_queue c) (_oldest_timestamp c)
    (_stored_timestamps c) (statement c) (log c).
Definition with_index_cache (c : conflict_manager) (x : gmap (Z * Z) index_info) : conflict_manager :=
  Conflict_manager (_fifo c) (_action c) (_exit c) (_broken c) (_cache_deleted_instance_id c)
    (_cache_host_instance c) (_cache_hst_cmd c) (_cache_svc_cmd c) x (_metric_cache c) (_hostgroup_cache c)
    (_servicegroup_cache c) (_perfdata_queue c) (_metrics c) (_cv_queue c) (_log_queue c) (_oldest_timestamp c)
    (_stored_timestamps c) (statement c) (log c).
Definition with_metric_cache (c : conflict_manager) (x : gmap (Z * cstring) metric_info) : conflict_manager :=
  Conflict_manager (_fifo c) (_action c) (_exit c) (_broken c) (_cache_deleted_instance_id c)
    (_cache_host_instance c) (_cache_hst_cmd c) (_cache_svc_cmd c) (_index_cache c) x (_hostgroup_cache c)
    (_servicegroup_cache c) (_perfdata_queue c) (_metrics c) (_cv_queue c) (_log_queue c) (_oldest_timestamp c)
    (_stored_timestamps c) (statement c) (log c).
Definition with_hostgroup_cache (c : conflict_manager) (x : gset Z) : conflict_manager :=
  Conflict_manager (_fifo c) (_action c) (_exit c) (_broken c) (_cache_deleted_instance_id c)
    (_cache_host_instance c) (_cache_hst_cmd c) (_cache_svc_cmd c) (_index_cache c) (_metric_cache c) x
    (_servicegroup_cache c) (_perfdata_queue c) (_metrics c) (_cv_queue c) (_log_queue c) (_oldest_timestamp c)
    (_stored_timestamps c) (statement c) (log c).
Definition with_servicegroup_cache (c : conflict_manager) (x : gset Z) : conflict_manager :=
  Conflict_manager (_fifo c) (_action c) (_exit c) (_broken c) (_cache_deleted_instance_id c)
    (_cache_host_instance c) (_cache_hst_cmd c) (_cache_svc_cmd c) (_index_cache c) (_metric_cache c)
    (_hostgroup_cache c) x (_perfdata_queue c) (_metrics c) (_cv_queue c) (_log_queue c) (_oldest_timestamp c)
    (_stored_timestamps c) (statement c) (log c).
Definition with_perfdata_queue (c : conflict_manager) (x : list metric_value) : conflict_manager :=
  Conflict_manager (_fifo c) (_action c) (_exit c) (_broken c) (_cache_deleted_instance_id c)
    (_cache_host_instance c) (_cache_hst_cmd c) (_cache_svc_cmd c) (_index_cache c) (_metric_cache c)
    (_hostgroup_cache c) (_servicegroup_cache c) x (_metrics c) (_cv_queue c) (_log_queue c) (_oldest_timestamp c)
    (_stored_timestamps c) (statement c) (log c).
Definition with_metrics (c : conflict_manager) (x : gmap Z (Z * cstring)) : conflict_manager :=
  Conflict_manager (_fifo c) (_action c) (_exit c) (_broken c) (_cache_deleted_instance_id c)
    (_cache_host_instance c) (_cache_hst_cmd c) (_cache_svc_cmd c) (_index_cache c) (_metric_cache c)
    (_hostgroup_cache c) (_servicegroup_cache c) (_perfdata_queue c) x (_cv_queue c) (_log_queue c)
    (_oldest_timestamp c) (_stored_timestamps c) (statement c) (log c).
Definition with_cv_queue (c : conflict_manager) (x : list (pointer * cstring)) : conflict_manager :=
  Conflict_manager (_fifo c) (_action c) (_exit c) (_broken c) (_cache_deleted_instance_id c)
    (_cache_host_instance c) (_cache_hst_cmd c) (_cache_svc_cmd c) (_index_cache c) (_metric_cache c)
    (_hostgroup_cache c) (_servicegroup_cache c) (_perfdata_queue c) (_metrics c) x (_log_queue c)
    (_oldest_timestamp c) (_stored_timestamps c) (statement c) (log c).
Definition with_log_queue (c : conflict_manager) (x : list (pointer * cstring)) : conflict_manager :=
  Conflict_manager (_fifo c) (_action c) (_exit c) (_broken c) (_cache_deleted_instance_id c)
    (_cache_host_instance c) (_cache_hst_cmd c) (_cache_svc_cmd c) (_index_cache c) (_metric_cache c)
    (_hostgroup_cache c) (_servicegroup_cache c) (_perfdata_queue c) (_metrics c) (_cv_queue c) x
    (_oldest_timestamp c) (_stored_timestamps c) (statement c) (log c).
Definition with_oldest_timestamp (c : conflict_manager) (x : Z) : conflict_manager :=
  Conflict_manager (_fifo c) (_action c) (_exit c) (_broken c) (_cache_deleted_instance_id c)
    (_cache_host_instance c) (_cache_hst_cmd c) (_cache_svc_cmd c) (_index_cache c) (_metric_cache c)
    (_hostgroup_cache c) (_servicegroup_cache c) (_perfdata_queue c) (_metrics c) (_cv_queue c) (_log_queue c) x
    (_stored_timestamps c) (statement c) (log c).
Definition with_stored_timestamps (c : conflict_manager) (x : gmap Z stored_timestamp) : conflict_manager :=
  Conflict_manager (_fifo c) (_action c) (_exit c) (_broken c) (_cache_deleted_instance_id c)
    (_cache_host_instance c) (_cache_hst_cmd c) (_cache_svc_cmd c) (_index_cache c) (_metric_cache c)
    (_hostgroup_cache c) (_servicegroup_cache c) (_perfdata_queue c) (_metrics c) (_cv_queue c) (_log_queue c)
    (_oldest_timestamp c) x (statement c) (log c).
Definition with_statement (c : conflict_manager) (x : statement_id -> mysql_stmt) : conflict_manager :=
  Conflict_manager (_fifo c) (_action c) (_exit c) (_broken c) (_cache_deleted_instance_id c)
    (_cache_host_instance c) (_cache_hst_cmd c) (_cache_svc_cmd c) (_index_cache c) (_metric_cache c)
    (_hostgroup_cache c) (_servicegroup_cache c) (_perfdata_queue c) (_metrics c) (_cv_queue c) (_log_queue c)
    (_oldest_timestamp c) (_stored_timestamps c) x (log c).
Definition with_log (c : conflict_manager) (x : list command) : conflict_manager :=
  Conflict_manager (_fifo c) (_action c) (_exit c) (_broken c) (_cache_deleted_instance_id c)
    (_cache_host_instance c) (_cache_hst_cmd c) (_cache_svc_cmd c) (_index_cache c) (_metric_cache c)
    (_hostgroup_cache c) (_servicegroup_cache c) (_perfdata_queue c) (_metrics c) (_cv_queue c) (_log_queue c)
    (_oldest_timestamp c) (_stored_timestamps c) (statement c) x.

(** What a call of the thread gives: a result, or an exception; which one only
    matters when its message says that the server has gone away. *)
Inductive res (A : Type) : Type :=
  | Ok (x : A)
  | Error (gone_away : bool).
Arguments Ok {A} x.
Arguments Error {A} gone_away.

Definition cm (A : Type) : Type := conflict_manager -> conflict_manager * res A.

#[global] Instance cm_ret : MRet cm := fun A x c => (c, Ok x).
#[global] Instance cm_bind : MBind cm := fun A B f m c =>
  match m c with (c, Ok x) => f x c | (c, Error g) => (c, Error g) end.

Definition gets {A} (f : conflict_manager -> A) : cm A := fun c => (c, Ok (f c)).
Definition modify (f : conflict_manager -> conflict_manager) : cm unit := fun c => (f c, Ok tt).
Definition raise {A} (gone_away : bool) : cm A := fun c => (c, Error gone_away).
Definition throw {A} : cm A := raise false.
Definition run_outcome {A} (o : outcome A) : cm A := match o with Returns x => mret x | _ => throw end.

(** try { m } catch (...) { h } *)
Definition try_catch {A} (m h : cm A) : cm A := fun c => match m c with (c, Ok x) => (c, Ok x) | (c, Error _) => h c end.

(** A row of a result: the texts of its columns, None for NULL. *)
Abbreviation row := (list (option cstring)).

(** The database as the thread sees it, and what the process depends on: the
    hash and the formats of the libraries, the registry of events, the sizes of
    columns, what is read through a pointer to a text that was freed and in a
    variable that was never assigned. *)
Class Database := {
  fails : list command -> command -> option bool;
  answer : list command -> command -> res (list row);
  answer_int : list command -> command -> res Z;
  choose_best_connection : list command -> Z -> nat;
  milliseconds : list command -> Z;
  hash : cstring -> Z;
  reg : registry;
  col_size : string -> string -> Z;
  format_double : double -> cstring;
  format_scientific : double -> cstring;
  freed : list command -> cstring;
  never_assigned : list command -> Z
}.

Record settings : Type := Settings {
  _loop_timeout : Z;
  _max_pending_queries : Z;
  _instance_timeout : Z;
  _store_in_db : bool;
  _rrd_len : Z;
  _interval_length : Z;
  _max_perfdata_queries : Z;
  _max_metrics_queries : Z;
  _max_cv_queries : Z;
  _max_log_queries : Z;
  connections_count : nat
}.

(** The conflict manager as init_sql leaves it. *)
Definition new_conflict_manager (s : settings) : conflict_manager :=
  Conflict_manager new_mfifo (replicate (connections_count s) none) false false ∅ ∅ ∅ ∅ ∅ ∅ ∅ ∅ [] ∅ [] [] (2 ^ 63 - 1) ∅
    (fun _ => no_statement) [].

Section Calls.
Context `{Database} (S : settings).

Definition record (x : command) : cm unit := modify (fun c => with_log c (log c ++ [x])).

(** A call to the database, which may throw. *)
Definition call (x : command) : cm unit :=
  l ← gets log;
  match fails l x with
  | None => record x
  | Some g => _ ← record (Failed x); raise g
  end.

(** A call whose result is waited for. *)
Definition ask (x : command) : cm (list row) :=
  _ ← call x;
  l ← gets log;
  match answer l x with Ok r => mret r | Error g => raise g end.

(** while (_mysql.fetch_row(res)) ... *)
Fixpoint each_row (rows : list row) (f : row -> cm unit) : cm unit :=
  _ ← call Fetch_row;
  match rows with [] => mret tt | r :: rows => _ ← f r; each_row rows f end.

(** time(nullptr), and the system clock in milliseconds. *)
Definition now : cm Z := l ← gets log; mret (milliseconds l / 1000).
Definition now_ms : cm Z := l ← gets log; mret (milliseconds l).

(** multiplexing::publisher().write(d). *)
Definition publish (d : Bbdo.data) : cm unit := record (Publish d).

(** *std::get<2>(t) = true. *)
Definition acknowledge (p : pointer) : cm unit :=
  _ ← modify (fun c => with_fifo c (set_true (_fifo c) p)); record (Set_flag p).

(** int32_t: a division in C has the sign of its dividend. *)
Definition choose_connection_by_instance (instance_id : Z) : Z := Z.rem (i32 instance_id) (Z.of_nat (connections_count S)).

Definition choose_best (type : Z) : cm Z := l ← gets log; mret (Z.of_nat (choose_best_connection l type)).

Definition run_query (query : cstring) (fatal : bool) (conn : Z) : cm unit := call (Run_query query fatal conn).

(** ** Actions *)

Definition with_action_at (c : conflict_manager) (conn : nat) (v : Z) : conflict_manager := with_action c (<[conn := v]> (_action c)).

(** A connection is committed when it did one of the actions. *)
Definition finish_on (conn : nat) (action : Z) : cm unit :=
  a ← gets _action;
  if negb (Z.land (default 0 (a !! conn)) action =? 0) then
    _ ← call (Commit (Z.of_nat conn)); modify (fun c => with_action_at c conn none)
  else mret tt.

Fixpoint finish_each (conns : list nat) (action : Z) : cm unit :=
  match conns with [] => mret tt | i :: conns => _ ← finish_on i action; finish_each conns action end.

Definition _finish_action (conn action : Z) : cm unit :=
  if conn <? 0 then a ← gets _action; finish_each (seq 0 (length a)) action
  else finish_on (Z.to_nat conn) action.

(** Commits everything, then counts what can be acknowledged. *)
Definition _finish_actions : cm unit :=
  _ ← call Commit_all;
  _ ← modify (fun c => with_action c ((fun _ => none) <$> _action c));
  modify (fun c => with_fifo c (clean (clean (_fifo c) sql) storage)).

Definition _add_action (conn action : Z) : cm unit :=
  modify (fun c =>
    if conn <? 0 then with_action c ((fun v => Z.lor v action) <$> _action c)
    else with_action c (alter (fun v => Z.lor v action) (Z.to_nat conn) (_action c))).

(** ** Statements *)

Definition set_statement (n : statement_id) (s : mysql_stmt) : cm unit :=
  modify (fun c => with_statement c (fun m => if decide (m = n) then s else statement c m)).

(** if (!_x.prepared()) { ...; _x = ...; _mysql.prepare_statement(_x); } *)
Definition prepare (n : statement_id) (make : outcome mysql_stmt) : cm unit :=
  s ← gets (fun c => statement c n);
  if prepared s then mret tt
  else
    s ← run_outcome make;
    _ ← call (Prepare (_query s));
    set_statement n s.

Definition query_on (de : NebEvents.data_element) (unique : list string) : QueryPreparator.query_preparator :=
  QueryPreparator.Query_preparator (make_type neb (NebEvents.element de)) [] (str <$> unique).

Definition insert_or_update (de : NebEvents.data_element) (unique : list string) : outcome mysql_stmt :=
  QueryPreparator.prepare_insert_or_update hash reg (query_on de unique).
Definition insert (de : NebEvents.data_element) (unique : list string) (ignore : bool) : outcome mysql_stmt :=
  QueryPreparator.prepare_insert hash reg (query_on de unique) ignore.
Definition update (de : NebEvents.data_element) (unique : list string) : outcome mysql_stmt :=
  QueryPreparator.prepare_update hash reg (query_on de unique).
Definition delete_by (de : NebEvents.data_element) (unique : list string) : outcome mysql_stmt :=
  QueryPreparator.prepare_delete hash reg (query_on de unique).

(** _x << d; what was bound by an exception in its middle stays. *)
Definition bind (n : statement_id) (d : Bbdo.data) : cm unit :=
  s ← gets (fun c => statement c n);
  s ← run_outcome (bind_event reg s d);
  set_statement n s.

(** run_statement: the binding goes with the statement. When an earlier query
    failed, it is not sent and keeps its binding. *)
Definition run_statement (n : statement_id) (fatal : bool) (conn : Z) : cm unit :=
  s ← gets (fun c => statement c n);
  let '(s', b) := get_bind s in
  _ ← call (Run_statement (_query s) b fatal conn);
  set_statement n s'.

Definition run_statement_and_get_int (n : statement_id) (conn : Z) : cm (res Z) :=
  s ← gets (fun c => statement c n);
  let '(s', b) := get_bind s in
  let x := Ask_insert_id (_query s) b conn in
  _ ← call x;
  _ ← set_statement n s';
  l ← gets log;
  mret (answer_int l x).

Definition run_statement_and_get_result (n : statement_id) (conn : Z) : cm (list row) :=
  s ← gets (fun c => statement c n);
  let '(s', b) := get_bind s in
  let x := Ask_statement (_query s) b conn in
  _ ← call x;
  _ ← set_statement n s';
  l ← gets log;
  match answer l x with Ok r => mret r | Error g => raise g end.

(** _x = _mysql.prepare_query(query). *)
Definition prepare_query (n : statement_id) (query : cstring) : cm unit :=
  prepare n (Returns (new_mysql_stmt hash query ∅)).

(** _x.bind_value_as_*(range, value). *)
Definition bind_at (n : statement_id) (range : nat) (set : column -> outcome column) : cm unit :=
  s ← gets (fun c => statement c n);
  s ← run_outcome (bind_value s range set);
  set_statement n s.

(** ** Commits before a conflict *)

(** What the actions of a connection become when some are finished. *)
Definition finished (mask v : Z) : Z := if Z.land v mask =? 0 then v else none.

Lemma bind_gets {A B} (f : conflict_manager -> A) (g : A -> cm B) c : (gets f ≫= g) c = g (f c) c.
Proof. done. Qed.

Lemma call_cases x c :
  call x c = (with_log c (log c ++ [x]), Ok tt) \/ exists g, call x c = (with_log c (log c ++ [Failed x]), Error g).
Proof. unfold call. rewrite bind_gets. destruct (fails (log c) x) as [g|]; [right; by exists g|by left]. Qed.

Lemma finish_on_spec i mask c c' : finish_on i mask c = (c', Ok tt) ->
  _action c' = alter (finished mask) i (_action c)
  /\ exists added, log c' = log c ++ added
     /\ forall v, _action c !! i = Some v -> Z.land v mask <> 0 -> Commit (Z.of_nat i) ∈ added.
Proof.
  unfold finish_on. rewrite bind_gets.
  destruct (_action c !! i) as [v|] eqn:Hv; [change (default 0 (Some v)) with v|change (default 0 None) with 0].
  - destruct (Z.land v mask =? 0) eqn:E; cbn [negb].
    + intros [= <-]. split; [|exists []; rewrite app_nil_r; split; [done|intros x [= <-]; by apply Z.eqb_eq in E]].
      apply list_eq. intros j. destruct (decide (j = i)) as [->|Hne]; [|by rewrite list_lookup_alter_ne].
      rewrite list_lookup_alter_eq, Hv. cbn. unfold finished. by rewrite E.
    + unfold mbind, cm_bind. destruct (call_cases (Commit (Z.of_nat i)) c) as [->|[g ->]]; [|done]. intros [= <-]. split.
      * cbn. apply list_eq. intros j. destruct (decide (j = i)) as [->|Hne]; [|by rewrite list_lookup_insert_ne, list_lookup_alter_ne].
        rewrite list_lookup_insert_eq by (by apply lookup_lt_Some in Hv). rewrite list_lookup_alter_eq, Hv. cbn. unfold finished. by rewrite E.
      * exists [Commit (Z.of_nat i)]. split; [done|]. intros _ _ _. by apply list_elem_of_singleton.
  - cbn. intros [= <-]. split; [|exists []; by rewrite app_nil_r].
    apply list_eq. intros j. destruct (decide (j = i)) as [->|Hne]; [by rewrite list_lookup_alter_eq, Hv|by rewrite list_lookup_alter_ne].
Qed.

Lemma finish_each_spec l mask : NoDup l -> forall c c', finish_each l mask c = (c', Ok tt) ->
  (forall i, _action c' !! i = if decide (i ∈ l) then finished mask <$> _action c !! i else _action c !! i)
  /\ exists added, log c' = log c ++ added
     /\ forall i v, i ∈ l -> _action c !! i = Some v -> Z.land v mask <> 0 -> Commit (Z.of_nat i) ∈ added.
Proof.
  induction 1 as [|i l Hi Hn IH]; intros c c'; cbn [finish_each].
  - intros [= <-]. split; [by intros i|]. exists []. rewrite app_nil_r. split; [done|]. intros i v Hi. by apply not_elem_of_nil in Hi.
  - unfold mbind, cm_bind. destruct (finish_on i mask c) as [c1 [[]|g]] eqn:E1; [|done]. intros E2.
    apply finish_on_spec in E1 as (A1 & l1 & L1 & C1). apply IH in E2 as (A2 & l2 & L2 & C2). split.
    + intros j. rewrite A2, A1. destruct (decide (j = i)) as [->|Hne].
      * rewrite list_lookup_alter_eq. rewrite decide_False by done. by rewrite decide_True by (by left).
      * rewrite list_lookup_alter_ne by done. apply decide_ext. rewrite elem_of_cons. by split; [right|intros [|]].
    + exists (l1 ++ l2). split; [by rewrite L2, L1, app_assoc|]. intros j v [->|Hj]%elem_of_cons Hv Hm; apply elem_of_app.
      * left. by apply (C1 v).
      * right. apply (C2 j v); [done| |done]. rewrite A1, list_lookup_alter_ne; [done|]. by intros ->.
Qed.

(** Finishing actions on all connections commits each connection that did
    one of them since its last commit, which then has no action any more, and
    leaves what the others did. *)
Theorem finish_action_commits mask c c' : _finish_action (-1) mask c = (c', Ok tt) ->
  _action c' = finished mask <$> _action c
  /\ exists added, log c' = log c ++ added
     /\ forall i v, _action c !! i = Some v -> Z.land v mask <> 0 -> Commit (Z.of_nat i) ∈ added.
Proof.
  change (_finish_action (-1) mask c) with (finish_each (seq 0 (length (_action c))) mask c). intros E.
  apply finish_each_spec in E as (A & l & Hl & C); [|apply NoDup_ListNoDup, List.seq_NoDup]. split.
  - apply list_eq. intros i. rewrite A, list_lookup_fmap. case_decide as Hi; [done|].
    rewrite lookup_ge_None_2; [done|]. apply Nat.nlt_ge. intros Hlt. apply Hi. apply elem_of_seq. lia.
  - exists l. split; [done|]. intros i v Hv. apply C; [|done]. apply elem_of_seq. apply lookup_lt_Some in Hv. lia.
Qed.

End Calls.

(** Three connections, two of which wrote hosts. *)
Definition plain_database : Database := {|
  fails _ _ := None; answer _ _ := Ok []; answer_int _ _ := Ok 1; choose_best_connection _ _ := 0%nat; milliseconds _ := 0; hash _ := 1;
  reg := Events.load; col_size _ _ := 0; format_double _ := []; format_scientific _ := []; freed _ := []; never_assigned _ := 0
|}.
Definition plain_settings : settings := Settings 10 1000 300 true 1 60 10 10 10 10 3.
Definition busy : conflict_manager := with_action (new_conflict_manager plain_settings) [hosts; comments; any [hosts; comments]].
Definition committed_hosts : conflict_manager := with_log (with_action busy [none; comments; none]) [Commit 0; Commit 2].

Lemma finish_action_commits_witness :
  _action committed_hosts = finished hosts <$> _action busy
  /\ exists added, log committed_hosts = log busy ++ added
     /\ forall i v, _action busy !! i = Some v -> Z.land v hosts <> 0 -> Commit (Z.of_nat i) ∈ added.
Proof. apply (@finish_action_commits plain_database). vm_compute. reflexivity. Defined.

End ConflictManager.
