(* ===== verification/ConflictSql.v ===== *)
(** * The events of the sql stream (storage/src/conflict_manager_sql.cc)

    One handler per type of event: it commits the actions that would conflict,
    prepares its statement the first time, binds the event, sends it on the
    connection of the poller (or on one that has few tasks), records the action,
    and sets the flag of the event. Custom variables and logs are queued, and
    written many at a time. *)

From Stdlib Require Import ZArith Lia ZifyNat ZifyBool Strings.Byte Strings.String Floats.SpecFloat.
From stdpp Require Import base option list numbers strings gmap.
From S2P Require Import Prelude MiscString Double Events Mapping Bbdo NebEvents Registry MysqlStmt QueryPreparator Mfifo ConflictManager.

Module ConflictSql.
Import Events Mapping Mfifo ConflictManager.

(** A number in a query. *)
Definition decimal (z : Z) : cstring := if z <? 0 then x2d :: Dbl.dec (- z) else Dbl.dec z.

Section Handlers.
Context `{Database} (S : settings).

#[local] Abbreviation by_instance := (choose_connection_by_instance S).

Definition type_of (de : NebEvents.data_element) : Z := make_type neb (NebEvents.element de).

(** misc::string::escape, with the size of a column. *)
Definition escaped (s : cstring) (size : Z) : cm cstring :=
  match Str.escape s (Z.to_nat size) with Some s => mret s | None => throw end.

(** ** Pollers *)

(** _clean_tables: the queries with the actions they are. *)
Definition clean_queries (instance_id : Z) : list (cstring * Z) := [
  (str "UPDATE hosts AS h LEFT JOIN services AS s ON h.host_id = s.host_id SET h.enabled=0, s.enabled=0 WHERE h.instance_id=" ++ decimal instance_id, hosts);
  (str "DELETE hosts_hostgroups FROM hosts_hostgroups LEFT JOIN hosts ON hosts_hostgroups.host_id=hosts.host_id WHERE hosts.instance_id=" ++ decimal instance_id, hostgroups);
  (str "DELETE services_servicegroups FROM services_servicegroups LEFT JOIN hosts ON services_servicegroups.host_id=hosts.host_id WHERE hosts.instance_id=" ++ decimal instance_id, servicegroups);
  (str "DELETE hg FROM hostgroups AS hg LEFT JOIN hosts_hostgroups AS hhg ON hg.hostgroup_id=hhg.hostgroup_id WHERE hhg.hostgroup_id IS NULL", hostgroups);
  (str "DELETE sg FROM servicegroups AS sg LEFT JOIN services_servicegroups as ssg ON sg.servicegroup_id=ssg.servicegroup_id WHERE ssg.servicegroup_id IS NULL", servicegroups);
  (str "DELETE hhd FROM hosts_hosts_dependencies AS hhd INNER JOIN hosts as h ON hhd.host_id=h.host_id OR hhd.dependent_host_id=h.host_id WHERE h.instance_id=" ++ decimal instance_id, host_dependencies);
  (str "DELETE hhp FROM hosts_hosts_parents AS hhp INNER JOIN hosts as h ON hhp.child_id=h.host_id OR hhp.parent_id=h.host_id WHERE h.instance_id=" ++ decimal instance_id, host_parents);
  (str "DELETE ssd FROM services_services_dependencies AS ssd INNER JOIN services as s ON ssd.service_id=s.service_id OR ssd.dependent_service_id=s.service_id INNER JOIN hosts as h ON s.host_id=h.host_id WHERE h.instance_id=" ++ decimal instance_id, service_dependencies);
  (str "DELETE FROM modules WHERE instance_id=" ++ decimal instance_id, modules);
  (str "UPDATE downtimes AS d INNER JOIN hosts AS h ON d.host_id=h.host_id SET d.cancelled=1 WHERE d.actual_end_time IS NULL AND d.cancelled=0 AND h.instance_id=" ++ decimal instance_id, downtimes) ].

Fixpoint run_queries (conn : Z) (l : list (cstring * Z)) : cm unit :=
  match l with
  | [] => mret tt
  | (query, action) :: l => _ ← run_query query false conn; _ ← _add_action conn action; run_queries conn l
  end.

Definition _clean_tables (instance_id : Z) : cm unit :=
  let conn := by_instance instance_id in
  _ ← run_queries conn (clean_queries instance_id);
  t ← now;
  _ ← run_query (str "UPDATE comments AS c JOIN hosts AS h ON c.host_id=h.host_id SET c.deletion_time=" ++ decimal t
        ++ str " WHERE h.instance_id=" ++ decimal instance_id
        ++ str " AND c.persistent=0 AND (c.deletion_time IS NULL OR c.deletion_time=0)") false conn;
  _ ← _add_action conn comments;
  _ ← _finish_action (-1) (any [custom_variables; hosts]);
  _ ← run_query (str "DELETE cv FROM customvariables AS cv INNER JOIN hosts AS h ON cv.host_id = h.host_id WHERE h.instance_id="
        ++ decimal instance_id) false conn;
  _add_action conn custom_variables.

(** neb::responsive_instance. *)
Definition responsive_instance (id : Z) (responsive : bool) : Bbdo.data :=
  Bbdo.Data (type_of NebEvents.de_responsive_instance) 0 0 [VUint id; VBool responsive].

Definition _update_hosts_and_services_of_instance (id : Z) (responsive : bool) : cm unit :=
  let conn := by_instance id in
  _ ← _finish_action conn hosts;
  _ ← _finish_action (-1) (any [acknowledgements; modules; downtimes; comments]);
  _ ← (if responsive then
         _ ← run_query (str "UPDATE instances SET outdated=FALSE WHERE instance_id=" ++ decimal id) false conn;
         _ ← _add_action conn instances;
         _ ← run_query (str "UPDATE hosts AS h LEFT JOIN services AS s ON h.host_id=s.host_id SET h.state=h.real_state,s.state=s.real_state WHERE h.instance_id=" ++ decimal id) false conn;
         _add_action conn hosts
       else
         _ ← run_query (str "UPDATE instances SET outdated=TRUE WHERE instance_id=" ++ decimal id) false conn;
         _ ← _add_action conn instances;
         _ ← run_query (str "UPDATE hosts AS h LEFT JOIN services AS s ON h.host_id=s.host_id SET h.real_state=h.state,s.real_state=s.state,h.state=" ++ decimal 2
               ++ str ",s.state=" ++ decimal 3 ++ str " WHERE h.instance_id=" ++ decimal id) false conn;
         _add_action conn hosts);
  publish (responsive_instance id responsive).

(** The responsive instances that were not heard of for too long. *)
Fixpoint update_outdated (l : list (Z * stored_timestamp)) : cm unit :=
  match l with
  | [] => mret tt
  | (id, ts) :: l =>
    t ← now;
    _ ← (if _state ts && timestamp_outdated t ts (_instance_timeout S) then
           _ ← modify (fun c => with_stored_timestamps c (<[id := set_state ts false]> (_stored_timestamps c)));
           _update_hosts_and_services_of_instance (_instance_id ts) false
         else mret tt);
    update_outdated l
  end.

Definition _update_hosts_and_services_of_unresponsive_instances : cm unit :=
  if _instance_timeout S =? 0 then mret tt
  else
    stored ← gets _stored_timestamps;
    oldest ← gets _oldest_timestamp;
    t ← now;
    if (size stored =? 0)%nat || (t - oldest <=? _instance_timeout S) then mret tt
    else
      _ ← update_outdated (map_to_list stored);
      modify (fun c => with_oldest_timestamp c
        (fold_left (fun o p => if _state (snd p) && (_ts (snd p) <? o) then _ts (snd p) else o)
           (map_to_list (_stored_timestamps c)) (2 ^ 63 - 1))).

Definition _update_timestamp (instance_id : Z) : cm unit :=
  stored ← gets _stored_timestamps;
  s ← match stored !! instance_id with
      | Some ts =>
        if negb (_state ts) then _ ← _update_hosts_and_services_of_instance instance_id true; mret true else mret (_state ts)
      | None => mret true
      end;
  t ← now;
  modify (fun c =>
    let timestamp := new_stored_timestamp t instance_id s in
    let c := with_stored_timestamps c (<[instance_id := timestamp]> (_stored_timestamps c)) in
    if _ts timestamp <? _oldest_timestamp c then with_oldest_timestamp c (_ts timestamp) else c).

Definition _is_valid_poller (instance_id : Z) : cm bool :=
  deleted ← gets _cache_deleted_instance_id;
  if bool_decide (instance_id ∈ deleted) then mret false
  else _ ← _update_timestamp instance_id; mret true.

(** operator[] of a map creates what it does not find. *)
Definition host_instance (host_id : Z) : cm Z :=
  cache ← gets _cache_host_instance;
  match cache !! host_id with
  | Some id => mret id
  | None => _ ← modify (fun c => with_cache_host_instance c (<[host_id := 0]> (_cache_host_instance c))); mret 0
  end.

Definition _prepare_hg_insupdate_statement : cm unit :=
  prepare _host_group_insupdate (insert_or_update NebEvents.de_host_group ["hostgroup_id"]).
Definition _prepare_sg_insupdate_statement : cm unit :=
  prepare _service_group_insupdate (insert_or_update NebEvents.de_service_group ["servicegroup_id"]).

(** ** Handlers *)

Definition _process_acknowledgement (d : Bbdo.data) (p : pointer) : cm unit :=
  let poller_id := number (NebEvents.acknowledgement_entries col_size) (Bbdo.fields d) "poller_id" in
  valid ← _is_valid_poller poller_id;
  _ ← (if (valid : bool) then
         _ ← prepare _acknowledgement_insupdate (insert_or_update NebEvents.de_acknowledgement ["entry_time"; "host_id"; "service_id"]);
         _ ← bind _acknowledgement_insupdate d;
         run_statement _acknowledgement_insupdate true (by_instance poller_id)
       else mret tt);
  acknowledge p.

Definition _process_comment (d : Bbdo.data) (p : pointer) : cm unit :=
  _ ← _finish_action (-1) (any [hosts; instances; host_parents; host_dependencies; service_dependencies; comments]);
  let conn := by_instance (number (NebEvents.comment_entries col_size) (Bbdo.fields d) "poller_id") in
  _ ← prepare _comment_insupdate
        (insert_or_update NebEvents.de_comment ["entry_time"; "host_id"; "instance_id"; "internal_id"; "service_id"]);
  _ ← bind _comment_insupdate d;
  _ ← run_statement _comment_insupdate true conn;
  _ ← _add_action conn comments;
  acknowledge p.

(** A custom variable is queued, or its statement is sent to forget it. *)
Definition _process_custom_variable (d : Bbdo.data) (p : pointer) : cm unit :=
  let entries := NebEvents.custom_variable_entries col_size in
  let num := number entries (Bbdo.fields d) in
  let txt := text entries (Bbdo.fields d) in
  _ ← prepare _custom_variable_delete (delete_by NebEvents.de_custom_variable ["host_id"; "name"; "service_id"]);
  if flag entries (Bbdo.fields d) "enabled" then
    name ← escaped (txt "name"%string) (col_size "customvariables" "customvariables_name");
    default_value ← escaped (txt "default_value"%string) (col_size "customvariables" "customvariables_default_value");
    value ← escaped (txt "value"%string) (col_size "customvariables" "customvariables_value");
    let row := str "('" ++ name ++ str "'," ++ decimal (num "host_id"%string) ++ str "," ++ decimal (num "service_id"%string)
      ++ str ",'" ++ default_value ++ str "'," ++ (if flag entries (Bbdo.fields d) "modified" then str "1" else str "0") ++ str ","
      ++ decimal (num "var_type"%string) ++ str "," ++ decimal (num "update_time"%string) ++ str ",'" ++ value ++ str "')" in
    modify (fun c => with_cv_queue c (_cv_queue c ++ [(p, row)]))
  else
    conn ← choose_best (type_of NebEvents.de_custom_variable);
    _ ← _finish_action (-1) custom_variables;
    s ← gets (fun c => statement c _custom_variable_delete);
    s ← run_outcome (MysqlStmt.bind_value_named s (str ":host_id") (MysqlStmt.set_value_as_i32 (i32 (num "host_id"%string))));
    s ← run_outcome (MysqlStmt.bind_value_named s (str ":service_id") (MysqlStmt.set_value_as_i32 (i32 (num "service_id"%string))));
    s ← run_outcome (MysqlStmt.bind_value_named s (str ":name") (MysqlStmt.set_value_as_str (txt "name"%string)));
    _ ← set_statement _custom_variable_delete s;
    _ ← run_statement _custom_variable_delete true conn;
    _ ← _add_action conn custom_variables;
    acknowledge p.

Definition _process_custom_variable_status (d : Bbdo.data) (p : pointer) : cm unit :=
  conn ← choose_best (type_of NebEvents.de_custom_variable_status);
  _ ← _finish_action (-1) custom_variables;
  _ ← prepare _custom_variable_status_insupdate
        (insert_or_update NebEvents.de_custom_variable_status ["host_id"; "name"; "service_id"]);
  _ ← bind _custom_variable_status_insupdate d;
  _ ← run_statement _custom_variable_status_insupdate true conn;
  _ ← _add_action conn custom_variables;
  acknowledge p.

Definition downtime_query : cstring :=
  str "INSERT INTO downtimes (actual_end_time,actual_start_time,author,type,deletion_time,duration,end_time,entry_time,fixed,host_id,instance_id,internal_id,service_id,start_time,triggered_by,cancelled,started,comment_data) VALUES(:actual_end_time,:actual_start_time,:author,:type,:deletion_time,:duration,:end_time,:entry_time,:fixed,:host_id,:instance_id,:internal_id,:service_id,:start_time,:triggered_by,:cancelled,:started,:comment_data) ON DUPLICATE KEY UPDATE actual_end_time=GREATEST(COALESCE(actual_end_time,-1),:actual_end_time),actual_start_time=COALESCE(actual_start_time,:actual_start_time),author=:author,cancelled=:cancelled,comment_data=:comment_data,deletion_time=:deletion_time,duration=:duration,end_time=:end_time,fixed=:fixed,host_id=:host_id,service_id=:service_id,start_time=:start_time,started=:started,triggered_by=:triggered_by, type=:type".

Definition _process_downtime (d : Bbdo.data) (p : pointer) : cm unit :=
  conn ← choose_best (type_of NebEvents.de_downtime);
  _ ← _finish_action (-1) (any [hosts; instances; downtimes; host_parents; host_dependencies; service_dependencies]);
  valid ← _is_valid_poller (number (NebEvents.downtime_entries col_size) (Bbdo.fields d) "poller_id");
  _ ← (if (valid : bool) then
         _ ← prepare _downtime_insupdate (MysqlStmt.mysql_stmt_named hash downtime_query true);
         _ ← bind _downtime_insupdate d;
         _ ← run_statement _downtime_insupdate true conn;
         _add_action conn downtimes
       else mret tt);
  acknowledge p.

Definition _process_event_handler (d : Bbdo.data) (p : pointer) : cm unit :=
  _ ← prepare _event_handler_insupdate (insert_or_update NebEvents.de_event_handler ["host_id"; "service_id"; "start_time"]);
  _ ← bind _event_handler_insupdate d;
  id ← host_instance (number (NebEvents.event_handler_entries col_size) (Bbdo.fields d) "host_id");
  _ ← run_statement _event_handler_insupdate true (by_instance id);
  acknowledge p.

Definition _process_flapping_status (d : Bbdo.data) (p : pointer) : cm unit :=
  _ ← prepare _flapping_status_insupdate (insert_or_update NebEvents.de_flapping_status ["event_time"; "host_id"; "service_id"]);
  _ ← bind _flapping_status_insupdate d;
  id ← host_instance (number NebEvents.flapping_status_entries (Bbdo.fields d) "host_id");
  let conn := by_instance id in
  _ ← run_statement _flapping_status_insupdate true conn;
  _ ← _add_action conn hosts;
  acknowledge p.

(** The events of checks and statuses that are stored: passive ones, those of
    objects without active checks, those that are not late, the initial ones. *)
Definition to_apply (t check_type : Z) (active_checks_enabled : bool) (next_check : Z) : bool :=
  negb (check_type =? 0) || negb active_checks_enabled || (t - 5 * 60 <=? next_check) || (next_check =? 0).

Definition _process_host_check (d : Bbdo.data) (p : pointer) : cm unit :=
  let entries := NebEvents.host_check_entries col_size in
  let num := number entries (Bbdo.fields d) in
  _ ← _finish_action (-1) (any [instances; downtimes; comments; host_dependencies; host_parents; service_dependencies]);
  t ← now;
  _ ← (if to_apply t (num "check_type"%string) (flag entries (Bbdo.fields d) "active_checks_enabled") (num "next_check"%string) then
         _ ← prepare _host_check_update (update NebEvents.de_host_check ["host_id"]);
         let host_id := num "host_id"%string in
         let str_hash := hash (text entries (Bbdo.fields d) "command_line") in
         cache ← gets _cache_hst_cmd;
         if negb (default 0 (cache !! host_id) =? str_hash) then
           _ ← modify (fun c => with_cache_hst_cmd c (<[host_id := str_hash]> (_cache_hst_cmd c)));
           id ← host_instance host_id;
           let conn := by_instance id in
           _ ← bind _host_check_update d;
           _ ← run_statement _host_check_update true conn;
           _add_action conn hosts
         else modify (fun c => with_cache_hst_cmd c (<[host_id := str_hash]> (_cache_hst_cmd c)))
       else mret tt);
  acknowledge p.

Definition _process_host_dependency (d : Bbdo.data) (p : pointer) : cm unit :=
  let entries := NebEvents.host_dependency_entries col_size in
  let num := number entries (Bbdo.fields d) in
  conn ← choose_best (type_of NebEvents.de_host_dependency);
  _ ← _finish_action (-1) (any [hosts; host_parents; comments; downtimes; host_dependencies; service_dependencies]);
  _ ← (if flag entries (Bbdo.fields d) "enabled" then
         _ ← prepare _host_dependency_insupdate (insert_or_update NebEvents.de_host_dependency ["dependent_host_id"; "host_id"]);
         _ ← bind _host_dependency_insupdate d;
         _ ← run_statement _host_dependency_insupdate true conn;
         _add_action conn host_dependencies
       else
         _ ← run_query (str "DELETE FROM hosts_hosts_dependencies WHERE dependent_host_id=" ++ decimal (num "dependent_host_id"%string)
               ++ str " AND host_id=" ++ decimal (num "host_id"%string)) true conn;
         _add_action conn host_dependencies);
  acknowledge p.

Definition _process_host_group (d : Bbdo.data) (p : pointer) : cm unit :=
  let entries := NebEvents.host_group_entries col_size in
  let num := number entries (Bbdo.fields d) in
  conn ← choose_best (type_of NebEvents.de_host_group);
  _ ← _finish_action (-1) hosts;
  _ ← (if flag entries (Bbdo.fields d) "enabled" then
         _ ← _prepare_hg_insupdate_statement;
         _ ← bind _host_group_insupdate d;
         _ ← run_statement _host_group_insupdate true conn;
         _ ← _add_action conn hostgroups;
         modify (fun c => with_hostgroup_cache c ({[ num "id"%string ]} ∪ _hostgroup_cache c))
       else
         _ ← run_query (str "DELETE hosts_hostgroups FROM hosts_hostgroups LEFT JOIN hosts ON hosts_hostgroups.host_id=hosts.host_id WHERE hosts_hostgroups.hostgroup_id="
               ++ decimal (num "id"%string) ++ str " AND hosts.instance_id=" ++ decimal (num "poller_id"%string)) false conn;
         modify (fun c => with_hostgroup_cache c (_hostgroup_cache c ∖ {[ num "id"%string ]})));
  acknowledge p.

Definition _process_host_group_member (d : Bbdo.data) (p : pointer) : cm unit :=
  let entries := NebEvents.host_group_member_entries in
  let num := number entries (Bbdo.fields d) in
  conn ← choose_best (type_of NebEvents.de_host_group_member);
  _ ← _finish_action (-1) (any [hostgroups; hosts]);
  _ ← (if flag entries (Bbdo.fields d) "enabled" then
         _ ← prepare _host_group_member_insert (insert NebEvents.de_host_group_member ["host_id"; "hostgroup_id"] false);
         id ← host_instance (num "host_id"%string);
         if negb (id =? 0) then
           cache ← gets _hostgroup_cache;
           _ ← (if negb (bool_decide (num "group_id"%string ∈ cache)) then
                  _ ← _prepare_hg_insupdate_statement;
                  let hg := [("id"%string, VUint (num "group_id"%string)); ("name"%string, VString (text entries (Bbdo.fields d) "group_name"));
                             ("enabled"%string, VBool true); ("poller_id"%string, VUint id)] in
                  _ ← bind _host_group_insupdate
                        (Bbdo.Data (type_of NebEvents.de_host_group) 0 0
                           (object (hg ++ NebEvents.host_group_members) (NebEvents.host_group_entries col_size)));
                  _ ← run_statement _host_group_insupdate false conn;
                  _add_action conn hostgroups
                else mret tt);
           _ ← bind _host_group_member_insert d;
           _ ← run_statement _host_group_member_insert false conn;
           _add_action conn hostgroups
         else mret tt
       else
         _ ← prepare _host_group_member_delete (delete_by NebEvents.de_host_group_member ["host_id"; "hostgroup_id"]);
         _ ← bind _host_group_member_delete d;
         _ ← run_statement _host_group_member_delete true conn;
         _add_action conn hostgroups);
  acknowledge p.

Definition _process_host (d : Bbdo.data) (p : pointer) : cm unit :=
  let entries := NebEvents.host_entries col_size in
  let num := number entries (Bbdo.fields d) in
  _ ← _finish_action (-1)
        (any [instances; hostgroups; host_dependencies; host_parents; custom_variables; downtimes; comments; service_dependencies]);
  valid ← _is_valid_poller (num "poller_id"%string);
  _ ← (if (valid : bool) && negb (num "host_id"%string =? 0) && negb (bool_decide (text entries (Bbdo.fields d) "alias" = [])) then
         let conn := by_instance (num "poller_id"%string) in
         _ ← prepare _host_insupdate (insert_or_update NebEvents.de_host ["host_id"]);
         _ ← bind _host_insupdate d;
         _ ← run_statement _host_insupdate true conn;
         _ ← _add_action conn hosts;
         modify (fun c => with_cache_host_instance c
           (if flag entries (Bbdo.fields d) "enabled" then <[num "host_id"%string := num "poller_id"%string]> (_cache_host_instance c)
            else delete (num "host_id"%string) (_cache_host_instance c)))
       else mret tt);
  acknowledge p.

Definition _process_host_parent (d : Bbdo.data) (p : pointer) : cm unit :=
  conn ← choose_best (type_of NebEvents.de_host_parent);
  _ ← _finish_action (-1) (any [hosts; host_dependencies; comments; downtimes]);
  _ ← (if flag NebEvents.host_parent_entries (Bbdo.fields d) "enabled" then
         _ ← prepare _host_parent_insert (insert NebEvents.de_host_parent [] true);
         _ ← bind _host_parent_insert d;
         _ ← run_statement _host_parent_insert false conn;
         _add_action conn host_parents
       else
         _ ← prepare _host_parent_delete (delete_by NebEvents.de_host_parent ["child_id"; "parent_id"]);
         _ ← bind _host_parent_delete d;
         _ ← run_statement _host_parent_delete false conn;
         _add_action conn host_parents);
  acknowledge p.

Definition _process_host_status (d : Bbdo.data) (p : pointer) : cm unit :=
  let entries := NebEvents.host_status_entries col_size in
  let num := number entries (Bbdo.fields d) in
  _ ← _finish_action (-1) (any [instances; downtimes; comments; custom_variables; hostgroups; host_dependencies; host_parents]);
  t ← now;
  _ ← (if to_apply t (num "check_type"%string) (flag entries (Bbdo.fields d) "active_checks_enabled") (num "next_check"%string) then
         _ ← prepare _host_status_update (update NebEvents.de_host_status ["host_id"]);
         _ ← bind _host_status_update d;
         id ← host_instance (num "host_id"%string);
         let conn := by_instance id in
         _ ← run_statement _host_status_update true conn;
         _add_action conn hosts
       else mret tt);
  acknowledge p.

Definition _process_instance (d : Bbdo.data) (p : pointer) : cm unit :=
  let poller_id := number (NebEvents.instance_entries col_size) (Bbdo.fields d) "poller_id" in
  let conn := by_instance poller_id in
  _ ← _finish_action (-1)
        (any [hosts; acknowledgements; modules; downtimes; comments; servicegroups; hostgroups; service_dependencies; host_dependencies]);
  _ ← _clean_tables poller_id;
  valid ← _is_valid_poller poller_id;
  _ ← (if (valid : bool) then
         _ ← prepare _instance_insupdate (insert_or_update NebEvents.de_instance ["instance_id"]);
         _ ← bind _instance_insupdate d;
         _ ← run_statement _instance_insupdate true conn;
         _add_action conn instances
       else mret tt);
  acknowledge p.

Definition _process_instance_status (d : Bbdo.data) (p : pointer) : cm unit :=
  let poller_id := number (NebEvents.instance_status_entries col_size) (Bbdo.fields d) "poller_id" in
  let conn := by_instance poller_id in
  _ ← _finish_action (-1) (any [hosts; acknowledgements; modules; downtimes; comments]);
  valid ← _is_valid_poller poller_id;
  _ ← (if (valid : bool) then
         _ ← prepare _instance_status_insupdate (insert_or_update NebEvents.de_instance_status ["instance_id"]);
         _ ← bind _instance_status_insupdate d;
         _ ← run_statement _instance_status_insupdate true conn;
         _add_action conn instances
       else mret tt);
  acknowledge p.

(** A log is queued. *)
Definition _process_log (d : Bbdo.data) (p : pointer) : cm unit :=
  let entries := NebEvents.log_entry_entries col_size in
  let num := number entries (Bbdo.fields d) in
  let txt (name column : string) := escaped (text entries (Bbdo.fields d) name) (col_size "logs" column) in
  host_name ← txt "host_name"%string "logs_host_name"%string;
  poller_name ← txt "poller_name"%string "logs_instance_name"%string;
  notification_cmd ← txt "notification_cmd"%string "logs_notification_cmd"%string;
  notification_contact ← txt "notification_contact"%string "logs_notification_contact"%string;
  service_description ← txt "service_description"%string "logs_service_description"%string;
  output ← txt "output"%string "logs_output"%string;
  let row := str "(" ++ decimal (num "c_time"%string) ++ str "," ++ decimal (num "host_id"%string) ++ str ","
    ++ decimal (num "service_id"%string) ++ str ",'" ++ host_name ++ str "','" ++ poller_name ++ str "',"
    ++ decimal (num "log_type"%string) ++ str "," ++ decimal (num "msg_type"%string) ++ str ",'" ++ notification_cmd ++ str "','"
    ++ notification_contact ++ str "'," ++ decimal (num "retry"%string) ++ str ",'" ++ service_description ++ str "',"
    ++ decimal (num "status"%string) ++ str ",'" ++ output ++ str "')" in
  modify (fun c => with_log_queue c (_log_queue c ++ [(p, row)])).

(** The name of a module that is too long is put in a text that is destroyed
    before the query is made. *)
Definition _process_module (d : Bbdo.data) (p : pointer) : cm unit :=
  let entries := NebEvents.module_entries col_size in
  let poller_id := number entries (Bbdo.fields d) "poller_id" in
  let conn := by_instance poller_id in
  valid ← _is_valid_poller poller_id;
  _ ← (if (valid : bool) then
         _ ← prepare _module_insert (insert NebEvents.de_module [] false);
         if flag entries (Bbdo.fields d) "enabled" then
           _ ← bind _module_insert d;
           _ ← run_statement _module_insert true conn;
           _add_action conn modules
         else
           l ← gets log;
           let filename := text entries (Bbdo.fields d) "filename" in
           let filename := if col_size "modules" "modules_filename" <? Z.of_nat (length filename) then freed l else filename in
           _ ← run_query (str "DELETE FROM modules WHERE instance_id=" ++ decimal poller_id ++ str " AND filename='" ++ filename ++ str "'") false conn;
           _add_action conn modules
       else mret tt);
  acknowledge p.

(** Nothing is recorded in the actions. *)
Definition _process_service_check (d : Bbdo.data) (p : pointer) : cm unit :=
  let entries := NebEvents.service_check_entries col_size in
  let num := number entries (Bbdo.fields d) in
  _ ← _finish_action (-1) (any [downtimes; comments; host_dependencies; host_parents; service_dependencies]);
  t ← now;
  _ ← (if to_apply t (num "check_type"%string) (flag entries (Bbdo.fields d) "active_checks_enabled") (num "next_check"%string) then
         _ ← prepare _service_check_update (update NebEvents.de_service_check ["host_id"; "service_id"]);
         let service := (num "host_id"%string, num "service_id"%string) in
         let str_hash := hash (text entries (Bbdo.fields d) "command_line") in
         cache ← gets _cache_svc_cmd;
         _ ← modify (fun c => with_cache_svc_cmd c (<[service := str_hash]> (_cache_svc_cmd c)));
         if negb (default 0 (cache !! service) =? str_hash) then
           id ← host_instance (num "host_id"%string);
           if negb (id =? 0) then
             _ ← bind _service_check_update d;
             run_statement _service_check_update false (by_instance id)
           else mret tt
         else mret tt
       else mret tt);
  acknowledge p.

(** The name of the table is wrong in the query that removes. *)
Definition _process_service_dependency (d : Bbdo.data) (p : pointer) : cm unit :=
  let entries := NebEvents.service_dependency_entries col_size in
  let num := number entries (Bbdo.fields d) in
  conn ← choose_best (type_of NebEvents.de_service_dependency);
  _ ← _finish_action (-1) (any [hosts; host_parents; downtimes; comments; host_dependencies; service_dependencies]);
  _ ← (if flag entries (Bbdo.fields d) "enabled" then
         _ ← prepare _service_dependency_insupdate
               (insert_or_update NebEvents.de_service_dependency ["dependent_host_id"; "dependent_service_id"; "host_id"; "service_id"]);
         _ ← bind _service_dependency_insupdate d;
         _ ← run_statement _service_dependency_insupdate true conn;
         _add_action conn service_dependencies
       else
         _ ← run_query (str "DELETE FROM serivces_services_dependencies WHERE dependent_host_id=" ++ decimal (num "dependent_host_id"%string)
               ++ str " AND dependent_service_id=" ++ decimal (num "dependent_service_id"%string)
               ++ str " AND host_id=" ++ decimal (num "host_id"%string) ++ str " AND service_id=" ++ decimal (num "service_id"%string)) false conn;
         _add_action conn service_dependencies);
  acknowledge p.

Definition _process_service_group (d : Bbdo.data) (p : pointer) : cm unit :=
  let entries := NebEvents.service_group_entries col_size in
  let num := number entries (Bbdo.fields d) in
  conn ← choose_best (type_of NebEvents.de_service_group);
  _ ← _finish_action (-1) (any [hosts; services]);
  _ ← (if flag entries (Bbdo.fields d) "enabled" then
         _ ← _prepare_sg_insupdate_statement;
         _ ← bind _service_group_insupdate d;
         _ ← run_statement _service_group_insupdate true conn;
         _ ← _add_action conn servicegroups;
         modify (fun c => with_servicegroup_cache c ({[ num "id"%string ]} ∪ _servicegroup_cache c))
       else
         _ ← run_query (str "DELETE services_servicegroups FROM services_servicegroups LEFT JOIN hosts ON services_servicegroups.host_id=hosts.host_id WHERE services_servicegroups.servicegroup_id="
               ++ decimal (num "id"%string) ++ str " AND hosts.instance_id=" ++ decimal (num "poller_id"%string)) false conn;
         _ ← _add_action conn servicegroups;
         modify (fun c => with_servicegroup_cache c (_servicegroup_cache c ∖ {[ num "id"%string ]})));
  acknowledge p.

Definition _process_service_group_member (d : Bbdo.data) (p : pointer) : cm unit :=
  let entries := NebEvents.service_group_member_entries in
  let num := number entries (Bbdo.fields d) in
  conn ← choose_best (type_of NebEvents.de_service_group_member);
  _ ← _finish_action (-1) (any [hosts; servicegroups; services]);
  _ ← (if flag entries (Bbdo.fields d) "enabled" then
         _ ← prepare _service_group_member_insert
               (insert NebEvents.de_service_group_member ["host_id"; "service_id"; "servicegroup_id"] false);
         cache ← gets _servicegroup_cache;
         _ ← (if negb (bool_decide (num "group_id"%string ∈ cache)) then
                _ ← _prepare_sg_insupdate_statement;
                let sg := [("id"%string, VUint (num "group_id"%string)); ("name"%string, VString (text entries (Bbdo.fields d) "group_name"));
                           ("enabled"%string, VBool true); ("poller_id"%string, VUint (num "poller_id"%string))] in
                _ ← bind _service_group_insupdate
                      (Bbdo.Data (type_of NebEvents.de_service_group) 0 0
                         (object (sg ++ NebEvents.service_group_members) (NebEvents.service_group_entries col_size)));
                _ ← run_statement _service_group_insupdate false conn;
                _add_action conn servicegroups
              else mret tt);
         _ ← bind _service_group_member_insert d;
         _ ← run_statement _service_group_member_insert false conn;
         _add_action conn servicegroups
       else
         _ ← prepare _service_group_member_delete
               (delete_by NebEvents.de_service_group_member ["host_id"; "service_id"; "servicegroup_id"]);
         _ ← bind _service_group_member_delete d;
         _ ← run_statement _service_group_member_delete false conn;
         _add_action conn servicegroups);
  acknowledge p.

Definition _process_service (d : Bbdo.data) (p : pointer) : cm unit :=
  let entries := NebEvents.service_entries col_size in
  let num := number entries (Bbdo.fields d) in
  _ ← _finish_action (-1) (any [host_parents; comments; downtimes; host_dependencies; service_dependencies]);
  id ← host_instance (num "host_id"%string);
  _ ← (if negb (id =? 0) && negb (num "host_id"%string =? 0) && negb (num "service_id"%string =? 0)
            && negb (bool_decide (text entries (Bbdo.fields d) "host_name" = [])) then
         let conn := by_instance id in
         _ ← prepare _service_insupdate (insert_or_update NebEvents.de_service ["host_id"; "service_id"]);
         _ ← bind _service_insupdate d;
         _ ← run_statement _service_insupdate true conn;
         _add_action conn services
       else mret tt);
  acknowledge p.

Definition _process_service_status (d : Bbdo.data) (p : pointer) : cm unit :=
  let entries := NebEvents.service_status_entries col_size in
  let num := number entries (Bbdo.fields d) in
  _ ← _finish_action (-1) (any [host_parents; comments; downtimes; host_dependencies; service_dependencies]);
  t ← now;
  _ ← (if to_apply t (num "check_type"%string) (flag entries (Bbdo.fields d) "active_checks_enabled") (num "next_check"%string) then
         _ ← prepare _service_status_update (update NebEvents.de_service_status ["host_id"; "service_id"]);
         _ ← bind _service_status_update d;
         id ← host_instance (num "host_id"%string);
         let conn := by_instance id in
         _ ← run_statement _service_status_update false conn;
         _add_action conn hosts
       else mret tt);
  acknowledge p.

Definition _process_instance_configuration (d : Bbdo.data) (p : pointer) : cm unit := acknowledge p.
Definition _process_responsive_instance (d : Bbdo.data) (p : pointer) : cm unit := acknowledge p.

(** ** Queries for many events *)

Fixpoint acknowledge_all (l : list (pointer * cstring)) : cm unit :=
  match l with [] => mret tt | (p, _) :: l => _ ← acknowledge p; acknowledge_all l end.

Definition rows (l : list (pointer * cstring)) : cstring := QueryPreparator.join (str ",") (snd <$> l).

(** The first event is acknowledged before the query is sent. *)
Definition _update_customvariables : cm unit :=
  queue ← gets _cv_queue;
  match queue with
  | [] => mret tt
  | (p, _) :: _ =>
    conn ← choose_best (type_of NebEvents.de_custom_variable);
    _ ← _finish_action (-1) custom_variables;
    _ ← acknowledge p;
    _ ← run_query (str "INSERT INTO customvariables (name,host_id,service_id,default_value,modified,type,update_time,value) VALUES "
          ++ rows queue
          ++ str " ON DUPLICATE KEY UPDATE default_value=VALUES(default_VALUE),modified=VALUES(modified),type=VALUES(type),update_time=VALUES(update_time),value=VALUES(value)") true conn;
    _ ← _add_action conn custom_variables;
    _ ← acknowledge_all queue;
    modify (fun c => with_cv_queue c [])
  end.

Definition _insert_logs : cm unit :=
  queue ← gets _log_queue;
  match queue with
  | [] => mret tt
  | (p, _) :: _ =>
    conn ← choose_best (type_of NebEvents.de_log_entry);
    _ ← acknowledge p;
    _ ← run_query (str "INSERT INTO logs (ctime,host_id,service_id,host_name,instance_name,type,msg_type,notification_cmd,notification_contact,retry,service_description,status,output) VALUES "
          ++ rows queue) true conn;
    _ ← acknowledge_all queue;
    modify (fun c => with_log_queue c [])
  end.

(** _neb_processing_table, by element. *)
Definition _neb_processing_table (elem : Z) : option (Bbdo.data -> pointer -> cm unit) :=
  if elem <=? 0 then None else nth_error [
    _process_acknowledgement; _process_comment; _process_custom_variable; _process_custom_variable_status; _process_downtime;
    _process_event_handler; _process_flapping_status; _process_host_check; _process_host_dependency; _process_host_group;
    _process_host_group_member; _process_host; _process_host_parent; _process_host_status; _process_instance;
    _process_instance_status; _process_log; _process_module; _process_service_check; _process_service_dependency;
    _process_service_group; _process_service_group_member; _process_service; _process_service_status;
    _process_instance_configuration; _process_responsive_instance ] (Z.to_nat elem - 1).

End Handlers.
End ConflictSql.
