(* ===== verification/ConflictStorage.v ===== *)
(** * The events of the storage stream (storage/src/conflict_manager_storage.cc)

    The statuses of services bring performance data: the index of the service and
    its metrics are found in caches or inserted, events for the graphs are
    published, and values are queued to be written many at a time. The caches are
    loaded from the database when the thread starts (_load_caches). *)

From Stdlib Require Import ZArith Lia ZifyNat ZifyBool Strings.Byte Strings.String Floats.SpecFloat.
From stdpp Require Import base option list numbers strings gmap.
From S2P Require Import Prelude MiscString Double Events Mapping Bbdo NebEvents StorageEvents Registry MysqlStmt QueryPreparator Ba Splitter Perfdata Mfifo ConflictManager ConflictSql.

Module ConflictStorage.
Import Events Mapping Mfifo ConflictManager ConflictSql.

(** ** Columns of results (core/src/database/mysql_result.cc) *)

Definition column_text (r : row) (idx : nat) : option cstring := default None (r !! idx).

(** strtol and strtoul saturate, then the value is cut to the type. *)
Definition strtol (s : cstring) : Z := fst (Splitter.strtol s).
Definition strtoul (s : cstring) : Z :=
  let '(neg, digits) := Dbl.after_sign (snd (Dbl.span isspace s)) in
  let n := Dbl.dec_val (fst (Dbl.span isdigit digits)) in
  if 2 ^ 64 <=? n then 2 ^ 64 - 1 else if neg then (- n) mod 2 ^ 64 else n.

Definition value_as_bool (r : row) (idx : nat) : bool :=
  match column_text r idx with Some s => negb (strtol s =? 0) | None => false end.
Definition value_as_str (r : row) (idx : nat) : cstring := default [] (column_text r idx).
Definition value_as_f32 (r : row) (idx : nat) : double :=
  match column_text r idx with Some s => Flt.of_double (fst (Dbl.strtod s)) | None => Flt.of_Z 0 end.
Definition value_as_i32 (r : row) (idx : nat) : Z :=
  match column_text r idx with Some s => i32 (strtol s) | None => 0 end.
Definition value_as_u32 (r : row) (idx : nat) : Z :=
  match column_text r idx with Some s => u32 (strtoul s) | None => 0 end.
Definition value_as_u64 (r : row) (idx : nat) : Z :=
  match column_text r idx with Some s => strtoul s | None => 0 end.

(** A float as the double it is converted to. *)
Definition widen (f : double) : double :=
  match f with S754_finite s m e => binary_normalize 53 1024 (if s then Zneg m else Zpos m) e s | f => f end.

(** static_cast<uint32_t> of a double: what is too large is what the processor
    makes of it, as for 64 bits. *)
Definition to_uint32 (d : double) : Z :=
  match d with
  | S754_finite s m e =>
    let z := if e <? 0 then Z.pos m / 2 ^ (- e) else Z.pos m * 2 ^ e in
    if 2 ^ 63 <=? z then 0 else u32 (if s then - z else z)
  | _ => 0
  end.

Definition FLT_MAX : double := Dbl.of_Z ((2 ^ 24 - 1) * 2 ^ 104).

(** std::to_string and the operators of double. *)
Definition isnan (d : double) : bool := Perfdata.isnan d.
Definition eps : double := Dbl.of_ratio false 1 1000000.

Definition check_equality (a b : double) : bool :=
  Dbl.eqb a b || (isnan a && isnan b) || Dbl.ltb (SFabs (Dbl.sub a b)) eps.

(** BAM_NAME: the services of BAM are those of hosts with such names. *)
Definition BAM_NAME : cstring := str "_Module_".
Definition is_special (host_name : cstring) : bool := bool_decide (take (length BAM_NAME) host_name = BAM_NAME).

(** c_str(): what comes before a NUL. *)
Definition c_str (s : cstring) : cstring := fst (Dbl.span (fun b => negb (byte_eqb b x00)) s).

Definition storage_event (de : StorageEvents.data_element) (fields : list value) : Bbdo.data :=
  Bbdo.Data (make_type Events.storage (StorageEvents.element de)) 0 0 fields.

Definition index_mapping_event (index_id host_id service_id : Z) : Bbdo.data :=
  storage_event StorageEvents.de_index_mapping [VUint index_id; VUint host_id; VUint service_id].
Definition metric_mapping_event (index_id metric_id : Z) : Bbdo.data :=
  storage_event StorageEvents.de_metric_mapping [VUint index_id; VUint metric_id].
Definition remove_graph_event (id : Z) (is_index : bool) : Bbdo.data :=
  storage_event StorageEvents.de_remove_graph [VUint id; VBool is_index].
Definition status_event (ctime index_id interval rrd_len state : Z) : Bbdo.data :=
  storage_event StorageEvents.de_status [VTime ctime; VUint index_id; VUint interval; VTime rrd_len; VShort state; VBool false].
Definition metric_event (host_id service_id : Z) (name : cstring) (ctime interval metric_id rrd_len : Z) (v : double) (value_type : Z)
    : Bbdo.data :=
  storage_event StorageEvents.de_metric
    [VTime ctime; VUint interval; VUint metric_id; VString name; VInt (i32 rrd_len); VDouble v; VShort (i16 value_type);
     VBool false; VUint host_id; VUint service_id].

Definition type_number (t : Perfdata.data_type) : Z :=
  match t with
  | Perfdata.gauge => 0 | Perfdata.counter => 1 | Perfdata.derive => 2 | Perfdata.absolute => 3 | Perfdata.automatic => 4
  end.

(** What a metric of performance data gives for the cache. *)
Definition info_of (metric_id type : Z) (locked : bool) (pd : Perfdata.perfdata) : metric_info :=
  Metric_info locked metric_id type (Perfdata._value pd) (Perfdata._unit pd) (Perfdata._warning pd) (Perfdata._warning_low pd)
    (Perfdata._warning_mode pd) (Perfdata._critical pd) (Perfdata._critical_low pd) (Perfdata._critical_mode pd) (Perfdata._min pd)
    (Perfdata._max pd).

(** Should we update metrics? *)
Definition changed (i : metric_info) (pd : Perfdata.perfdata) : bool :=
  negb (check_equality (metric_val i) (Perfdata._value pd)) || negb (cstring_eqb (unit_name i) (Perfdata._unit pd))
  || negb (check_equality (warn i) (Perfdata._warning pd)) || negb (check_equality (warn_low i) (Perfdata._warning_low pd))
  || negb (Bool.eqb (warn_mode i) (Perfdata._warning_mode pd)) || negb (check_equality (crit i) (Perfdata._critical pd))
  || negb (check_equality (crit_low i) (Perfdata._critical_low pd)) || negb (Bool.eqb (crit_mode i) (Perfdata._critical_mode pd))
  || negb (check_equality (metric_min i) (Perfdata._min pd)) || negb (check_equality (metric_max i) (Perfdata._max pd)).

Section Handlers.
Context `{Database} (S : settings).

#[local] Abbreviation by_instance := (choose_connection_by_instance S).

(** misc::string::truncate. *)
Definition truncate (s : cstring) (size : Z) : cm cstring :=
  match Str.adjust_size_utf8 s (Z.to_nat size) with Some n => mret (take n s) | None => throw end.

(** ** Statuses of services *)

(** The lambda of _storage_process_service_status: it gives rrd_len. *)
Definition add_metric_in_cache (index_id host_id service_id : Z) (host_name service_description : cstring) (index_locked special : bool)
    : cm Z :=
  if index_id =? 0 then throw
  else
    _ ← modify (fun c => with_index_cache c
      (<[(host_id, service_id) := Index_info host_name index_id index_locked (_rrd_len S) service_description special]> (_index_cache c)));
    _ ← publish (index_mapping_event index_id host_id service_id);
    mret (_rrd_len S).

(** When the index could not be inserted: it is there, and is updated. *)
Definition find_index (host_id service_id : Z) (host_name service_description hv sv : cstring) (special : bool) (conn : Z)
    : cm (Z * Z) :=
  _ ← prepare_query _index_data_query (str "SELECT id from index_data WHERE host_id=? AND service_id=?");
  _ ← bind_at _index_data_query 0 (MysqlStmt.set_value_as_i32 (i32 host_id));
  _ ← bind_at _index_data_query 1 (MysqlStmt.set_value_as_i32 (i32 service_id));
  rows ← run_statement_and_get_result _index_data_query conn;
  _ ← call Fetch_row;
  let index_id := match rows with r :: _ => value_as_u32 r 0 | [] => 0 end in
  if index_id =? 0 then throw
  else
    _ ← prepare_query _index_data_update
          (str "UPDATE index_data SET host_name=?, service_description=?, must_be_rebuild=?, special=? WHERE id=?");
    _ ← bind_at _index_data_update 0 (MysqlStmt.set_value_as_str hv);
    _ ← bind_at _index_data_update 1 (MysqlStmt.set_value_as_str sv);
    _ ← bind_at _index_data_update 2 (MysqlStmt.set_value_as_str (str "0"));
    _ ← bind_at _index_data_update 3 (MysqlStmt.set_value_as_str (if special then str "1" else str "0"));
    _ ← bind_at _index_data_update 4 (MysqlStmt.set_value_as_i32 (i32 index_id));
    _ ← run_statement_and_get_result _index_data_update conn;
    rrd_len ← add_metric_in_cache index_id host_id service_id host_name service_description false special;
    mret (index_id, rrd_len).

(** An index that is not in the cache: its identifier and rrd_len. *)
Definition new_index (host_id service_id : Z) (host_name service_description : cstring) (conn : Z) : cm (Z * Z) :=
  let special := is_special (c_str host_name) in
  _ ← _finish_action (-1) index_data;
  _ ← prepare_query _index_data_insert
        (str "INSERT INTO index_data (host_id,host_name,service_id,service_description,must_be_rebuild,special) VALUES (?,?,?,?,?,?)");
  hv ← truncate host_name (col_size "index_data" "index_data_host_name");
  sv ← truncate service_description (col_size "index_data" "index_data_service_description");
  _ ← bind_at _index_data_insert 0 (MysqlStmt.set_value_as_i32 (i32 host_id));
  _ ← bind_at _index_data_insert 1 (MysqlStmt.set_value_as_str hv);
  _ ← bind_at _index_data_insert 2 (MysqlStmt.set_value_as_i32 (i32 service_id));
  _ ← bind_at _index_data_insert 3 (MysqlStmt.set_value_as_str sv);
  _ ← bind_at _index_data_insert 4 (MysqlStmt.set_value_as_str (str "0"));
  _ ← bind_at _index_data_insert 5 (MysqlStmt.set_value_as_str (if special then str "1" else str "0"));
  inserted ← run_statement_and_get_int _index_data_insert conn;
  try_catch
    (match inserted with
     | Ok z =>
       let index_id := u32 z in
       rrd_len ← add_metric_in_cache index_id host_id service_id host_name service_description false special;
       mret (index_id, rrd_len)
     | Error g => raise g
     end)
    (find_index host_id service_id host_name service_description hv sv special conn).

(** A metric that is not in the cache is inserted. *)
Definition new_metric (index_id : Z) (pd : Perfdata.perfdata) (conn : Z) : cm Z :=
  let f32 (d : double) := MysqlStmt.set_value_as_f32 (Flt.of_double d) in
  let type := type_number (Perfdata._value_type pd) in
  _ ← bind_at _metrics_insert 0 (MysqlStmt.set_value_as_i32 (i32 index_id));
  _ ← bind_at _metrics_insert 1 (MysqlStmt.set_value_as_str (Perfdata._name pd));
  _ ← bind_at _metrics_insert 2 (MysqlStmt.set_value_as_str (Perfdata._unit pd));
  _ ← bind_at _metrics_insert 3 (f32 (Perfdata._warning pd));
  _ ← bind_at _metrics_insert 4 (f32 (Perfdata._warning_low pd));
  _ ← bind_at _metrics_insert 5 (MysqlStmt.set_value_as_bool (Perfdata._warning_mode pd));
  _ ← bind_at _metrics_insert 6 (f32 (Perfdata._critical pd));
  _ ← bind_at _metrics_insert 7 (f32 (Perfdata._critical_low pd));
  _ ← bind_at _metrics_insert 8 (MysqlStmt.set_value_as_bool (Perfdata._critical_mode pd));
  _ ← bind_at _metrics_insert 9 (f32 (Perfdata._min pd));
  _ ← bind_at _metrics_insert 10 (f32 (Perfdata._max pd));
  _ ← bind_at _metrics_insert 11 (f32 (Perfdata._value pd));
  _ ← bind_at _metrics_insert 12 (MysqlStmt.set_value_as_str [byte_of_Z (48 + type)]);
  inserted ← run_statement_and_get_int _metrics_insert conn;
  match inserted with
  | Ok z =>
    let metric_id := u32 z in
    _ ← modify (fun c => with_metric_cache c (<[(index_id, Perfdata._name pd) := info_of metric_id type false pd]> (_metric_cache c)));
    mret metric_id
  | Error g => raise g
  end.

(** The identifier and the type of a metric, inserted or updated. *)
Definition store_metric (index_id : Z) (pd : Perfdata.perfdata) (conn : Z) : cm (Z * Z) :=
  let key := (index_id, Perfdata._name pd) in
  cache ← gets _metric_cache;
  match cache !! key with
  | None => metric_id ← new_metric index_id pd conn; mret (metric_id, type_number (Perfdata._value_type pd))
  | Some i =>
    _ ← (if changed i pd then
           modify (fun c =>
             let c := with_metric_cache c (<[key := info_of (metric_id i) (metric_type i) (metric_locked i) pd]> (_metric_cache c)) in
             with_metrics c (<[i32 (metric_id i) := key]> (_metrics c)))
         else mret tt);
    mret (metric_id i, metric_type i)
  end.

(** What the status of a service brings to each of its metrics. *)
Record status_data : Type := Status_data {
  sd_host_id : Z;
  sd_service_id : Z;
  sd_last_check : Z;
  sd_current_state : Z;
  sd_interval : Z
}.

(** The loop over the metrics; it gives what to publish at the end. *)
Fixpoint process_metrics (ss : status_data) (index_id rrd_len : Z) (index_locked : bool) (conn : Z) (pds : list Perfdata.perfdata)
    : cm (list Bbdo.data) :=
  match pds with
  | [] => mret []
  | pd :: pds =>
    '(metric_id, value_type) ← store_metric index_id pd conn;
    _ ← (if _store_in_db S then
           modify (fun c => with_perfdata_queue c
             (_perfdata_queue c ++ [Metric_value (sd_last_check ss) metric_id (sd_current_state ss) (Perfdata._value pd)]))
         else mret tt);
    _ ← (if negb index_locked then
           publish (metric_event (sd_host_id ss) (sd_service_id ss) (Perfdata._name pd) (sd_last_check ss) (sd_interval ss) metric_id
             rrd_len (Perfdata._value pd) value_type)
         else mret tt);
    to_publish ← process_metrics ss index_id rrd_len index_locked conn pds;
    mret (metric_mapping_event index_id metric_id :: to_publish)
  end.

Fixpoint publish_all (l : list Bbdo.data) : cm unit :=
  match l with [] => mret tt | d :: l => _ ← publish d; publish_all l end.

Definition parse_perfdata (text : cstring) : cm (list Perfdata.perfdata) :=
  match Perfdata.parse_perfdata (Z.to_nat (col_size "metrics" "metrics_metric_name")) (Z.to_nat (col_size "metrics" "metrics_unit_name"))
          text [] with
  | Returns (Some pds) => mret pds
  | _ => throw
  end.

(** The identifier of the index, rrd_len and whether the index is locked. *)
Definition index_of (host_id service_id : Z) (host_name service_description : cstring) (conn : Z) : cm (Z * Z * bool) :=
  cache ← gets _index_cache;
  match cache !! (host_id, service_id) with
  | None => '(index_id, rrd_len) ← new_index host_id service_id host_name service_description conn; mret (index_id, rrd_len, false)
  | Some i => mret (index_id i, rrd_retention i, locked i)
  end.

(** The parser throws no exception of performance data. *)
Definition _storage_process_service_status (d : Bbdo.data) (p : pointer) : cm unit :=
  let entries := NebEvents.service_status_entries col_size in
  let num := number entries (Bbdo.fields d) in
  let host_id := num "host_id"%string in
  let service_id := num "service_id"%string in
  id ← host_instance host_id;
  let conn := by_instance id in
  '(index_id, rrd_len, index_locked) ← index_of host_id service_id (text entries (Bbdo.fields d) "host_name")
                                         (text entries (Bbdo.fields d) "service_description") conn;
  _ ← (if negb (index_id =? 0) then
         let check_interval := match member entries (Bbdo.fields d) "check_interval" with Some (VDouble x) => x | _ => Dbl.of_Z 0 end in
         let interval := to_uint32 (Dbl.mul check_interval (Dbl.of_Z (_interval_length S))) in
         _ ← publish (status_event (num "last_check"%string) index_id interval rrd_len (num "last_hard_state"%string));
         let perf_data := text entries (Bbdo.fields d) "perf_data" in
         if negb (bool_decide (perf_data = [])) then
           _ ← prepare_query _metrics_insert
                 (str "INSERT INTO metrics (index_id,metric_name,unit_name,warn,warn_low,warn_threshold_mode,crit,crit_low,crit_threshold_mode,min,max,current_value,data_source_type) VALUES (?,?,?,?,?,?,?,?,?,?,?,?,?)");
           _ ← _finish_action (-1) metrics;
           pds ← parse_perfdata (c_str perf_data);
           let ss := Status_data host_id service_id (num "last_check"%string) (num "current_state"%string) interval in
           to_publish ← process_metrics ss index_id rrd_len index_locked conn pds;
           publish_all to_publish
         else mret tt
       else mret tt);
  acknowledge p.

(** ** Queries for many values *)

Definition or_null (d : double) : cstring := if isnan d then str "NULL" else format_double d.
Definition mode_text (mode : bool) : cstring := if mode then str "1" else str "0".

Fixpoint metric_rows (l : list (Z * (Z * cstring))) : cm (list cstring) :=
  match l with
  | [] => mret []
  | (_, key) :: l =>
    cache ← gets _metric_cache;
    match cache !! key with
    | None => metric_rows l
    | Some i =>
      u ← escaped (unit_name i) (col_size "metrics" "metrics_unit_name");
      let row := str "(" ++ decimal (metric_id i) ++ str ",'" ++ u ++ str "'," ++ or_null (warn i) ++ str "," ++ or_null (warn_low i)
        ++ str ",'" ++ mode_text (warn_mode i) ++ str "'," ++ or_null (crit i) ++ str "," ++ or_null (crit_low i) ++ str ",'"
        ++ mode_text (crit_mode i) ++ str "'," ++ or_null (metric_min i) ++ str "," ++ or_null (metric_max i) ++ str ","
        ++ format_double (metric_val i) ++ str ")" in
      rows ← metric_rows l;
      mret (row :: rows)
    end
  end.

Definition _update_metrics : cm unit :=
  m ← gets _metrics;
  if bool_decide (m = ∅) then mret tt
  else
    rows ← metric_rows (map_to_list m);
    let query := str "INSERT INTO metrics (metric_id, unit_name, warn, warn_low, warn_threshold_mode, crit, crit_low, crit_threshold_mode, min, max, current_value) VALUES "
      ++ QueryPreparator.join (str ",") rows
      ++ str " ON DUPLICATE KEY UPDATE unit_name=VALUES(unit_name), warn=VALUES(warn), warn_low=VALUES(warn_low), warn_threshold_mode=VALUES(warn_threshold_mode), crit=VALUES(crit), crit_low=VALUES(crit_low), crit_threshold_mode=VALUES(crit_threshold_mode), min=VALUES(min), max=VALUES(max), current_value=VALUES(current_value)" in
    conn ← choose_best (-1);
    _ ← _finish_action (-1) metrics;
    _ ← run_query query false conn;
    _ ← _add_action conn metrics;
    modify (fun c => with_metrics c ∅).

Definition perfdata_row (v : metric_value) : cstring :=
  str "(" ++ decimal (mv_metric_id v) ++ str "," ++ decimal (c_time v) ++ str ",'" ++ decimal (mv_status v) ++ str "',"
  ++ (if Perfdata.isinf (mv_value v) then
        format_scientific (if Dbl.ltb (mv_value v) (Dbl.of_Z 0) then SFopp FLT_MAX else FLT_MAX)
      else if isnan (mv_value v) then str "NULL" else format_scientific (mv_value v))
  ++ str ")".

(** The queue is empty before the query is sent, on any connection. *)
Definition _insert_perfdatas : cm unit :=
  queue ← gets _perfdata_queue;
  match queue with
  | [] => mret tt
  | _ :: _ =>
    _ ← modify (fun c => with_perfdata_queue c []);
    conn ← choose_best (-1);
    run_query (str "INSERT INTO data_bin (id_metric,ctime,status,value) VALUES " ++ QueryPreparator.join (str ",") (perfdata_row <$> queue))
      false conn
  end.

(** ** Deleted indexes *)

Fixpoint delete_metrics (conn : Z) (l : list Z) : cm unit :=
  match l with
  | [] => mret tt
  | i :: l =>
    _ ← run_query (str "DELETE FROM metrics WHERE metric_id=" ++ decimal i) false conn;
    _ ← _add_action conn metrics;
    delete_metrics conn l
  end.

(** The graph that is removed is that of an identifier that was never
    assigned. *)
Fixpoint delete_indexes (conn : Z) (l : list Z) : cm unit :=
  match l with
  | [] => mret tt
  | i :: l =>
    _ ← run_query (str "DELETE FROM index_data WHERE id=" ++ decimal i) false conn;
    _ ← _add_action conn index_data;
    t ← gets log;
    _ ← publish (remove_graph_event (u32 (never_assigned t)) true);
    delete_indexes conn l
  end.

(** The rows of a query, fetched until there are none. *)
Fixpoint fetch_all (rows : list row) : cm (list row) :=
  _ ← call Fetch_row;
  match rows with [] => mret [] | r :: rows => l ← fetch_all rows; mret (r :: l) end.

Definition _check_deleted_index : cm unit :=
  conn ← choose_best (-1);
  rows ← ask (Ask_query (str "SELECT m.index_id,m.metric_id FROM metrics m LEFT JOIN index_data i ON i.id=m.index_id WHERE i.to_delete=1") conn);
  rows ← fetch_all rows;
  let index_to_delete : gset Z := list_to_set ((fun r => value_as_u64 r 0) <$> rows) in
  let metrics_to_delete := (fun r => value_as_u64 r 1) <$> rows in
  _ ← delete_metrics conn metrics_to_delete;
  delete_indexes conn (elements index_to_delete).

(** ** The caches (_load_caches) *)

Definition query_rows (query : cstring) (f : row -> cm unit) : cm unit :=
  conn ← choose_best (-1);
  rows ← ask (Ask_query query conn);
  each_row rows f.

Definition _load_deleted_instances : cm unit :=
  _ ← modify (fun c => with_cache_deleted_instance_id c ∅);
  query_rows (str "SELECT instance_id FROM instances WHERE deleted=1") (fun r =>
    modify (fun c => with_cache_deleted_instance_id c ({[ value_as_u32 r 0 ]} ∪ _cache_deleted_instance_id c))).

Definition load_outdated (r : row) : cm unit :=
  let instance_id := u32 (value_as_i32 r 0) in
  t ← now;
  modify (fun c => with_stored_timestamps c
    (<[instance_id := set_timestamp (default (new_stored_timestamp t instance_id false) (_stored_timestamps c !! instance_id)) (2 ^ 63 - 1)]>
      (_stored_timestamps c))).

Definition load_index (r : row) : cm unit :=
  let host_id := value_as_u32 r 1 in
  let service_id := value_as_u32 r 2 in
  let info := Index_info (value_as_str r 3) (value_as_u32 r 0) (value_as_bool r 7)
    (if negb (value_as_u32 r 4 =? 0) then value_as_u32 r 4 else _rrd_len S) (value_as_str r 5) (value_as_u32 r 6 =? 2) in
  _ ← modify (fun c => with_index_cache c (<[(host_id, service_id) := info]> (_index_cache c)));
  publish (index_mapping_event (index_id info) host_id service_id).

(** The first character of a text, NUL when there is none, from which the
    character 0 is subtracted: a char is signed. *)
Definition load_metric (r : row) : cm unit :=
  let first := match value_as_str r 13 with b :: _ => Z_of_byte b | [] => 0 end in
  let info := Metric_info false (value_as_u32 r 0) (u32 ((if 128 <=? first then first - 256 else first) - 48)) (widen (value_as_f32 r 12))
    (value_as_str r 3) (widen (value_as_f32 r 4)) (widen (value_as_f32 r 5)) (negb (value_as_i32 r 6 =? 0)) (widen (value_as_f32 r 7))
    (widen (value_as_f32 r 8)) (negb (value_as_i32 r 9 =? 0)) (widen (value_as_f32 r 10)) (widen (value_as_f32 r 11)) in
  modify (fun c => with_metric_cache c (<[(value_as_u32 r 1, value_as_str r 2) := info]> (_metric_cache c))).

Definition _load_caches : cm unit :=
  _ ← _load_deleted_instances;
  _ ← query_rows (str "SELECT instance_id FROM instances WHERE outdated=TRUE") load_outdated;
  _ ← query_rows (str "SELECT id,host_id,service_id,host_name,rrd_retention,service_description,special,locked FROM index_data") load_index;
  _ ← modify (fun c => with_cache_host_instance c ∅);
  _ ← query_rows (str "SELECT host_id,instance_id FROM hosts") (fun r =>
        modify (fun c => with_cache_host_instance c (<[value_as_u32 r 0 := value_as_u32 r 1]> (_cache_host_instance c))));
  _ ← modify (fun c => with_hostgroup_cache c ∅);
  _ ← query_rows (str "SELECT hostgroup_id FROM hostgroups") (fun r =>
        modify (fun c => with_hostgroup_cache c ({[ value_as_u32 r 0 ]} ∪ _hostgroup_cache c)));
  _ ← modify (fun c => with_servicegroup_cache c ∅);
  _ ← query_rows (str "SELECT servicegroup_id FROM servicegroups") (fun r =>
        modify (fun c => with_servicegroup_cache c ({[ value_as_u32 r 0 ]} ∪ _servicegroup_cache c)));
  _ ← modify (fun c => with_cache_hst_cmd (with_cache_svc_cmd c ∅) ∅);
  _ ← modify (fun c => with_metrics (with_metric_cache c ∅) ∅);
  query_rows (str "SELECT metric_id,index_id,metric_name,unit_name,warn,warn_low,warn_threshold_mode,crit,crit_low,crit_threshold_mode,min,max,current_value,data_source_type FROM metrics")
    load_metric.

End Handlers.

(** update_metric_info_cache, called by the storage stream. *)
Definition update_metric_info_cache (c : conflict_manager) (index_id new_id : Z) (metric_name : cstring) (new_type : Z) : conflict_manager :=
  match _metric_cache c !! (index_id, metric_name) with
  | Some i =>
    with_metric_cache c (<[(index_id, metric_name) :=
      Metric_info (metric_locked i) new_id (u32 new_type) (metric_val i) (unit_name i) (warn i) (warn_low i) (warn_mode i) (crit i)
        (crit_low i) (crit_mode i) (metric_min i) (metric_max i)]> (_metric_cache c))
  | None => c
  end.

End ConflictStorage.
