(* ===== verification/ConflictRules.v ===== *)
(** * What the handlers of the conflict manager may do

    A call is [within] a set of events when it leaves the queue of the
    events as it is, flags and queues no event but those of the set and the
    queued ones, and writes each flag it sets in the log. Every handler is within
    its own event, and leaves its flag unset when it throws; all the other
    calls of the thread but _finish_actions are within the queued events. *)

From Stdlib Require Import ZArith Lia ZifyNat ZifyBool Strings.Byte Strings.String Floats.SpecFloat.
From stdpp Require Import base option list numbers strings gmap.
From S2P Require Import Prelude Events Mapping Bbdo Mfifo ConflictManager ConflictSql ConflictStorage.

Module ConflictRules.
Import Mfifo ConflictManager ConflictSql ConflictStorage.

(** The events that wait to be written with others. *)
Definition queued (c : conflict_manager) (p : pointer) : Prop := p ∈ (_cv_queue c).*1 \/ p ∈ (_log_queue c).*1.

Record within (P : pointer -> Prop) (c c' : conflict_manager) : Prop := Within {
  within_events : _events (_fifo c') = _events (_fifo c);
  within_popped : popped (_fifo c') = popped (_fifo c);
  within_ack : _ack (_fifo c') = _ack (_fifo c);
  within_given : forall i, given (_fifo c') i = given (_fifo c) i;
  within_log : exists added, log c' = log c ++ added
    /\ forall q, flagged (_fifo c') q -> flagged (_fifo c) q \/ ((P q \/ queued c q) /\ Set_flag q ∈ added);
  within_queued : forall q, queued c' q -> queued c q \/ P q
}.

Definition nothing : pointer -> Prop := fun _ => False.

(** Whatever it gives, a call is within a set. *)
Definition stays {A} (P : pointer -> Prop) (m : cm A) : Prop := forall c, within P c (m c).1.

(** A call that throws is within no event. *)
Definition does {A} (P : pointer -> Prop) (m : cm A) : Prop :=
  forall c, match m c with (c', Ok _) => within P c c' | (c', Error _) => within nothing c c' end.

Abbreviation quiet := (stays nothing).

Lemma within_refl P c : within P c c.
Proof. constructor; try done; [|by left]. exists []. rewrite app_nil_r. split; [done|by left]. Qed.

Lemma within_trans P c c1 c2 : within P c c1 -> within P c1 c2 -> within P c c2.
Proof.
  intros [e1 p1 a1 g1 (l1 & L1 & F1) q1] [e2 p2 a2 g2 (l2 & L2 & F2) q2]. constructor; try congruence.
  - exists (l1 ++ l2). split; [by rewrite L2, L1, app_assoc|]. intros q H. destruct (F2 q H) as [H1|[H1 H2]].
    + destruct (F1 q H1) as [|[? ?]]; [by left|right]. split; [done|]. apply elem_of_app. by left.
    + right. split; [|apply elem_of_app; by right]. destruct H1 as [|H1]; [by left|]. destruct (q1 q H1); [by right|by left].
  - intros q H. destruct (q2 q H) as [H1|]; [apply (q1 q H1)|by right].
Qed.

Lemma within_mono (P Q : pointer -> Prop) c c' : (forall q, P q -> Q q \/ queued c q) -> within P c c' -> within Q c c'.
Proof.
  intros HQ [e p a g (l & L & F) q]. constructor; try done.
  - exists l. split; [done|]. intros x H. destruct (F x H) as [|[[H1|H1] H2]]; [by left| |right; split; [by right|done]].
    right. split; [|done]. by apply HQ.
  - intros x H. destruct (q x H) as [|H1]; [by left|]. destruct (HQ x H1); [by right|by left].
Qed.

Lemma within_nothing P c c' : within nothing c c' -> within P c c'.
Proof. apply within_mono. done. Qed.

Lemma stays_bind {A B} P (m : cm A) (f : A -> cm B) : stays P m -> (forall x, stays P (f x)) -> stays P (m ≫= f).
Proof.
  intros Hm Hf c. specialize (Hm c). unfold mbind, cm_bind. destruct (m c) as [c1 [x|g]]; [|done].
  eapply within_trans; [exact Hm|apply Hf].
Qed.

Lemma does_bind {A B} P (m : cm A) (f : A -> cm B) : quiet m -> (forall x, does P (f x)) -> does P (m ≫= f).
Proof.
  intros Hm Hf c. specialize (Hm c). unfold mbind, cm_bind. destruct (m c) as [c1 [x|g]]; cbn in Hm; [|done].
  specialize (Hf x c1). destruct (f x c1) as [c2 [y|g]]; (eapply within_trans; [|exact Hf]); [by apply within_nothing|done].
Qed.

Lemma does_quiet {A} P (m : cm A) : quiet m -> does P m.
Proof. intros Hm c. specialize (Hm c). destruct (m c) as [c' [x|g]]; [by apply within_nothing|done]. Qed.

Lemma does_stays {A} P (m : cm A) : does P m -> stays P m.
Proof. intros Hm c. specialize (Hm c). destruct (m c) as [c' [x|g]]; [done|by apply within_nothing]. Qed.

Lemma stays_quiet {A} P (m : cm A) : quiet m -> stays P m.
Proof. intros Hm c. by apply within_nothing. Qed.

Lemma stays_try {A} P (m h : cm A) : stays P m -> stays P h -> stays P (try_catch m h).
Proof.
  intros Hm Hh c. specialize (Hm c). unfold try_catch. destruct (m c) as [c1 [x|g]]; [done|]. eapply within_trans; [exact Hm|apply Hh].
Qed.

(** ** The calls of all handlers *)

Lemma stays_ret {A} P (x : A) : stays P (mret x).
Proof. intros c. apply within_refl. Qed.

Lemma stays_raise {A} P g : stays P (@raise A g).
Proof. intros c. apply within_refl. Qed.

Lemma stays_throw {A} P : stays P (@throw A).
Proof. apply stays_raise. Qed.

Lemma stays_gets {A} P (f : conflict_manager -> A) : stays P (gets f).
Proof. intros c. apply within_refl. Qed.

(** A change of a cache, of the actions or of the statements. *)
Lemma stays_modify P f :
  (forall c, _fifo (f c) = _fifo c /\ log (f c) = log c /\ _cv_queue (f c) = _cv_queue c /\ _log_queue (f c) = _log_queue c) ->
  stays P (modify f).
Proof.
  intros H c. destruct (H c) as (Hf & Hl & Hq & Hq'). cbn. constructor; try by rewrite Hf.
  - exists []. rewrite app_nil_r. split; [done|]. intros q. rewrite Hf. by left.
  - intros q. unfold queued. rewrite Hq, Hq'. by left.
Qed.

Section Calls.
Context `{Database} (S : settings).

Lemma stays_record P x : stays P (record x).
Proof.
  intros c. constructor; try done; [|by left]. exists [x]. split; [done|]. by left.
Qed.

Lemma stays_call P x : stays P (call x).
Proof.
  unfold call. apply stays_bind; [apply stays_gets|]. intros l. case_match; [|apply stays_record].
  apply stays_bind; [apply stays_record|]. intros _. apply stays_raise.
Qed.

Lemma stays_acknowledge (P : pointer -> Prop) p : P p -> stays P (acknowledge p).
Proof.
  intros Hp c. unfold acknowledge, mbind, cm_bind; cbn. constructor; cbn.
  - unfold set_true. by case_match.
  - apply popped_set_true.
  - unfold set_true. by case_match.
  - intros i. apply given_set_true.
  - exists [Set_flag p]. split; [done|]. intros q [->|Hq]%flagged_set_true; [right|by left].
    split; [by left|apply list_elem_of_singleton; done].
  - by left.
Qed.

Lemma does_acknowledge p : does (eq p) (acknowledge p).
Proof. intros c. apply (stays_acknowledge (eq p) p eq_refl c). Qed.
End Calls.

Create HintDb calls.
#[export] Hint Resolve stays_ret stays_raise stays_throw stays_gets stays_record stays_call : calls.

(** The structure of a call. *)
Ltac walk :=
  repeat first
    [ progress intros
    | solve [auto with calls nocore]
    | match goal with
      | |- stays _ (mret _) => apply stays_ret
      | |- stays _ (modify _) => apply stays_modify; intros; by repeat case_match
      | |- stays _ (try_catch _ _) => apply stays_try
      | |- stays _ (_ ≫= _) => apply stays_bind
      | |- stays _ (match ?x with _ => _ end) => destruct x eqn:?
      | |- stays _ (let _ := _ in _) => cbv zeta
      | |- does _ (acknowledge _) => apply does_acknowledge
      | |- does _ (_ ≫= _) => apply does_bind
      | |- does _ (match ?x with _ => _ end) => destruct x eqn:?
      | |- does _ (let _ := _ in _) => cbv zeta
      end ].

Section Handlers.
Context `{Database} (S : settings).

(** ** What handlers share *)

Lemma quiet_outcome {A} P (o : outcome A) : stays P (run_outcome o).
Proof. unfold run_outcome. case_match; walk. Qed.

Lemma quiet_run_query P query fatal conn : stays P (run_query query fatal conn).
Proof. apply stays_call. Qed.

Lemma quiet_finish_on P conn action : stays P (finish_on conn action).
Proof. unfold finish_on, with_action_at. walk. Qed.
#[local] Hint Resolve quiet_outcome quiet_run_query quiet_finish_on : calls.

Lemma quiet_finish_action P conn action : stays P (_finish_action conn action).
Proof.
  unfold _finish_action. walk. generalize (seq 0 (length x)). intros l. induction l as [|i l IH]; cbn; walk.
Qed.

Lemma quiet_add_action P conn action : stays P (_add_action conn action).
Proof. unfold _add_action. walk. Qed.

Lemma quiet_set_statement P n s : stays P (set_statement n s).
Proof. unfold set_statement. walk. Qed.
#[local] Hint Resolve quiet_finish_action quiet_add_action quiet_set_statement : calls.

Lemma quiet_prepare P n make : stays P (prepare n make).
Proof. unfold prepare. walk. Qed.

Lemma quiet_bind P n d : stays P (bind n d).
Proof. unfold bind. walk. Qed.

Lemma quiet_bind_at P n range set : stays P (bind_at n range set).
Proof. unfold bind_at. walk. Qed.

Lemma quiet_run_statement P n fatal conn : stays P (run_statement n fatal conn).
Proof. unfold run_statement. walk. Qed.

Lemma quiet_get_int P n conn : stays P (run_statement_and_get_int n conn).
Proof. unfold run_statement_and_get_int. walk. Qed.

Lemma quiet_get_result P n conn : stays P (run_statement_and_get_result n conn).
Proof. unfold run_statement_and_get_result. walk. Qed.

Lemma quiet_now P : stays P now.
Proof. unfold now. walk. Qed.

Lemma quiet_now_ms P : stays P now_ms.
Proof. unfold now_ms. walk. Qed.

Lemma quiet_choose_best P type : stays P (choose_best type).
Proof. unfold choose_best. walk. Qed.

Lemma quiet_publish P d : stays P (publish d).
Proof. apply stays_record. Qed.

Lemma quiet_escaped P s size : stays P (escaped s size).
Proof. unfold escaped. walk. Qed.

Lemma quiet_truncate P s size : stays P (truncate s size).
Proof. unfold truncate. walk. Qed.

Lemma quiet_host_instance P id : stays P (host_instance id).
Proof. unfold host_instance. walk. Qed.

Lemma quiet_ask P x : stays P (ask x).
Proof. unfold ask. walk. Qed.
#[local] Hint Resolve quiet_prepare quiet_bind quiet_bind_at quiet_run_statement quiet_get_int quiet_get_result quiet_now quiet_now_ms
  quiet_choose_best quiet_publish quiet_escaped quiet_truncate quiet_host_instance quiet_ask : calls.

Lemma quiet_update_instance P id responsive : stays P (_update_hosts_and_services_of_instance S id responsive).
Proof. unfold _update_hosts_and_services_of_instance. walk. Qed.
#[local] Hint Resolve quiet_update_instance : calls.

Lemma quiet_update_timestamp P id : stays P (_update_timestamp S id).
Proof. unfold _update_timestamp. walk. Qed.
#[local] Hint Resolve quiet_update_timestamp : calls.

Lemma quiet_is_valid_poller P id : stays P (_is_valid_poller S id).
Proof. unfold _is_valid_poller. walk. Qed.

Lemma quiet_run_queries P conn l : stays P (run_queries conn l).
Proof. induction l as [|[q a] l IH]; cbn [run_queries]; walk. Qed.
#[local] Hint Resolve quiet_is_valid_poller quiet_run_queries : calls.

Lemma quiet_clean_tables P id : stays P (_clean_tables S id).
Proof. unfold _clean_tables. walk. Qed.

Lemma quiet_hg P : stays P _prepare_hg_insupdate_statement.
Proof. unfold _prepare_hg_insupdate_statement. walk. Qed.

Lemma quiet_sg P : stays P _prepare_sg_insupdate_statement.
Proof. unfold _prepare_sg_insupdate_statement. walk. Qed.
#[local] Hint Resolve quiet_clean_tables quiet_hg quiet_sg : calls.

Lemma quiet_unresponsive P : stays P (_update_hosts_and_services_of_unresponsive_instances S).
Proof.
  unfold _update_hosts_and_services_of_unresponsive_instances. walk.
  generalize (map_to_list x). intros l. induction l as [|[id ts] l IH]; cbn [update_outdated]; walk.
Qed.

(** ** The handlers *)

(** Queueing an event is the last thing its handler does. *)
Lemma does_queue_cv p row : does (eq p) (modify (fun c => with_cv_queue c (_cv_queue c ++ [(p, row)]))).
Proof.
  intros c. cbn. constructor; try done.
  - exists []. rewrite app_nil_r. split; [done|by left].
  - intros q [Hq|Hq]; [|by left; right]. cbn in Hq. rewrite fmap_app, elem_of_app in Hq. destruct Hq as [Hq|Hq]; [by left; left|].
    right. cbn in Hq. by apply list_elem_of_singleton in Hq.
Qed.

Lemma does_queue_log p row : does (eq p) (modify (fun c => with_log_queue c (_log_queue c ++ [(p, row)]))).
Proof.
  intros c. cbn. constructor; try done.
  - exists []. rewrite app_nil_r. split; [done|by left].
  - intros q [Hq|Hq]; [by left; left|]. cbn in Hq. rewrite fmap_app, elem_of_app in Hq. destruct Hq as [Hq|Hq]; [by left; right|].
    right. cbn in Hq. by apply list_elem_of_singleton in Hq.
Qed.

Lemma does_handler elem h d p : _neb_processing_table S elem = Some h -> does (eq p) (h d p).
Proof.
  unfold _neb_processing_table. case_match; [done|]. intros Hh%nth_error_In.
  repeat (destruct Hh as [<-|Hh]; [|]); [..|done];
    [unfold _process_acknowledgement|unfold _process_comment|unfold _process_custom_variable|unfold _process_custom_variable_status
    |unfold _process_downtime|unfold _process_event_handler|unfold _process_flapping_status|unfold _process_host_check
    |unfold _process_host_dependency|unfold _process_host_group|unfold _process_host_group_member|unfold _process_host
    |unfold _process_host_parent|unfold _process_host_status|unfold _process_instance|unfold _process_instance_status
    |unfold _process_log|unfold _process_module|unfold _process_service_check|unfold _process_service_dependency
    |unfold _process_service_group|unfold _process_service_group_member|unfold _process_service|unfold _process_service_status
    |unfold _process_instance_configuration|unfold _process_responsive_instance]; walk;
    first [apply does_queue_cv|apply does_queue_log|idtac].
Qed.

(** ** The storage stream *)

Lemma quiet_add_metric P index_id h s hn sd l sp : stays P (add_metric_in_cache S index_id h s hn sd l sp).
Proof. unfold add_metric_in_cache. walk. Qed.

Lemma quiet_prepare_query P n query : stays P (prepare_query n query).
Proof. apply quiet_prepare. Qed.
#[local] Hint Resolve quiet_add_metric quiet_prepare_query : calls.

Lemma quiet_find_index P h s hn sd hv sv sp conn : stays P (find_index S h s hn sd hv sv sp conn).
Proof. unfold find_index. walk. Qed.
#[local] Hint Resolve quiet_find_index : calls.

Lemma quiet_new_index P h s hn sd conn : stays P (new_index S h s hn sd conn).
Proof. unfold new_index. walk. Qed.

Lemma quiet_new_metric P index_id pd conn : stays P (new_metric index_id pd conn).
Proof. unfold new_metric. walk. Qed.
#[local] Hint Resolve quiet_new_index quiet_new_metric : calls.

Lemma quiet_store_metric P index_id pd conn : stays P (store_metric index_id pd conn).
Proof. unfold store_metric. walk. Qed.

Lemma quiet_index_of P h s hn sd conn : stays P (index_of S h s hn sd conn).
Proof. unfold index_of. walk. Qed.
#[local] Hint Resolve quiet_store_metric quiet_index_of : calls.

Lemma quiet_process_metrics P ss index_id rrd_len il conn pds : stays P (process_metrics S ss index_id rrd_len il conn pds).
Proof. induction pds as [|pd pds IH]; cbn [process_metrics]; walk. Qed.

Lemma quiet_publish_all P l : stays P (publish_all l).
Proof. induction l as [|d l IH]; cbn [publish_all]; walk. Qed.

Lemma quiet_parse P text : stays P (parse_perfdata text).
Proof. unfold parse_perfdata. walk. Qed.
#[local] Hint Resolve quiet_process_metrics quiet_publish_all quiet_parse : calls.

Lemma does_service_status d p : does (eq p) (_storage_process_service_status S d p).
Proof. unfold _storage_process_service_status. walk. Qed.

(** ** Queries for many events *)

Lemma quiet_metric_rows P l : stays P (metric_rows l).
Proof. induction l as [|[i key] l IH]; cbn [metric_rows]; walk. Qed.
#[local] Hint Resolve quiet_metric_rows : calls.

Lemma quiet_update_metrics P : stays P _update_metrics.
Proof. unfold _update_metrics. walk. Qed.

Lemma quiet_insert_perfdatas P : stays P _insert_perfdatas.
Proof. unfold _insert_perfdatas. walk. Qed.

Lemma stays_acknowledge_all (P : pointer -> Prop) l : (forall p, p ∈ l.*1 -> P p) -> stays P (acknowledge_all l).
Proof.
  induction l as [|[p row] l IH]; intros Hl; cbn [acknowledge_all]; walk.
  - apply stays_acknowledge, Hl. by left.
  - apply IH. intros q Hq. apply Hl. by right.
Qed.

(** Emptying a queue whose events are in the set. *)
Lemma stays_clear P f :
  (forall c, _fifo (f c) = _fifo c /\ log (f c) = log c /\ forall q, queued (f c) q -> queued c q) -> stays P (modify f).
Proof.
  intros Hc c. destruct (Hc c) as (Hf & Hl & Hq). cbn. constructor; try by rewrite Hf.
  - exists []. rewrite app_nil_r. split; [done|]. intros q. rewrite Hf. by left.
  - intros q Hq'. left. by apply Hq.
Qed.

Lemma clear_cv P : stays P (modify (fun c => with_cv_queue c [])).
Proof. apply stays_clear. intros c. repeat split. intros q [Hq|Hq]; [by apply not_elem_of_nil in Hq|by right]. Qed.

Lemma clear_log P : stays P (modify (fun c => with_log_queue c [])).
Proof. apply stays_clear. intros c. repeat split. intros q [Hq|Hq]; [by left|by apply not_elem_of_nil in Hq]. Qed.
#[local] Hint Resolve quiet_update_metrics quiet_insert_perfdatas clear_cv clear_log stays_acknowledge stays_acknowledge_all : calls.

(** A call that first reads a queue may use what it finds there. *)
Lemma quiet_read {A} (f : conflict_manager -> list (pointer * cstring)) (g : list (pointer * cstring) -> cm A) :
  (forall c q, q ∈ (f c).*1 -> queued c q) -> (forall l, stays (fun q => q ∈ l.*1) (g l)) -> quiet (gets f ≫= g).
Proof.
  intros Hf Hg c. apply (within_mono (fun q => q ∈ (f c).*1)); [by right; apply Hf|]. apply (Hg (f c) c).
Qed.

Lemma quiet_customvariables : quiet _update_customvariables.
Proof.
  apply quiet_read; [by left|]. intros [|[p row] l]; walk. apply stays_acknowledge. by left.
Qed.

Lemma quiet_logs : quiet _insert_logs.
Proof.
  apply quiet_read; [by right|]. intros [|[p row] l]; walk. apply stays_acknowledge. by left.
Qed.

(** ** The database *)

Lemma quiet_each_row P rows f : (forall r, stays P (f r)) -> stays P (each_row rows f).
Proof. intros Hf. induction rows as [|r rows IH]; cbn [each_row]; walk; apply Hf. Qed.

Lemma quiet_query_rows P query f : (forall r, stays P (f r)) -> stays P (query_rows query f).
Proof. intros Hf. unfold query_rows. walk. by apply quiet_each_row. Qed.

Lemma quiet_load_caches P : stays P (_load_caches S).
Proof.
  unfold _load_caches, _load_deleted_instances, load_outdated, load_index, load_metric.
  walk; apply quiet_query_rows; walk.
Qed.

Lemma quiet_check_deleted P : stays P _check_deleted_index.
Proof.
  unfold _check_deleted_index. walk.
  - induction x0 as [|r l IH]; cbn [fetch_all]; walk.
  - match goal with |- context [delete_metrics _ ?l] => generalize l end. intros l. induction l as [|i l IH]; cbn [delete_metrics]; walk.
  - match goal with |- context [delete_indexes _ ?l] => generalize l end. intros l. induction l as [|i l IH]; cbn [delete_indexes]; walk.
Qed.

End Handlers.
End ConflictRules.
