(* ===== verification/ConflictLoop.v ===== *)
(** * The main loop of the conflict manager (storage/src/conflict_manager.cc)

    One step of the thread (_callback) is one handled event, one commit, or one
    wait; between two steps the streams push events and take acknowledgements, and
    the thread may be told to exit. An exception ends the round: the events
    that were taken from the queue and not handled are in a local variable, which
    is destroyed. *)

From Stdlib Require Import ZArith Lia ZifyNat ZifyBool Strings.Byte Strings.String Floats.SpecFloat.
From stdpp Require Import base option list numbers strings gmap.
From S2P Require Import Prelude Events Mapping Bbdo NebEvents Registry MysqlStmt QueryPreparator Mfifo ConflictManager ConflictSql ConflictStorage ConflictRules.

Module ConflictLoop.
Import Mfifo ConflictManager ConflictSql ConflictStorage ConflictRules.

(** The local variables of the loop that fills a transaction; those of the
    statistics are left out. *)
Record round : Type := Round {
  count : Z;
  timeout : Z;
  now0 : Z;
  next_insert_perfdatas : Z;
  next_update_metrics : Z;
  next_update_cv : Z;
  next_update_log : Z
}.

(** Where the thread is: before _load_caches, before _check_deleted_index, at
    the test of the loop of rounds, at the test of the loop of a round, in the loop
    over the events, before the commit, at the test of the outer loop, at the
    wait of the end, and ended. *)
Inductive phase : Type :=
  | Starting
  | Checking
  | Looping
  | Filling (r : round)
  | Draining (r : round)
  | Committing
  | Again
  | Broken_wait
  | Ended.

Definition _should_exit (c : conflict_manager) : bool :=
  _broken c || (_exit c && match get_events (_fifo c) with [] => true | _ => false end).

Section Loop.
Context `{Database} (S : settings).

Definition handle (e : Bbdo.data * pointer) : cm unit :=
  let '(d, p) := e in
  let type := Bbdo.type d in
  let cat := Events.category_of_type type in
  let elem := Events.element_of_type type in
  if (source p =? sql)%nat && (cat =? Events.neb) then
    match _neb_processing_table S elem with Some process => process d p | None => throw end
  else if (source p =? storage)%nat && (cat =? Events.neb) && (type =? type_of NebEvents.de_service_status) then
    _storage_process_service_status S d p
  else acknowledge p.

(** A queue that is too long is written, at most every ten seconds. *)
Definition write_if (t next : Z) (size : nat) (max_queries : Z) (write : cm unit) : cm Z :=
  if (next <=? t) && (max_queries <? Z.of_nat size) then _ ← write; mret (t + 10) else mret next.

(** What follows the handling of an event. *)
Definition rest_of_turn (r : round) : cm round :=
  now1 ← now_ms;
  let t := now1 / 1000 in
  perfdatas ← gets (fun c => length (_perfdata_queue c));
  next_insert_perfdatas ← write_if t (next_insert_perfdatas r) perfdatas (_max_perfdata_queries S) _insert_perfdatas;
  metrics ← gets (fun c => size (_metrics c));
  next_update_metrics ← write_if t (next_update_metrics r) metrics (_max_metrics_queries S) _update_metrics;
  cv ← gets (fun c => length (_cv_queue c));
  next_update_cv ← write_if t (next_update_cv r) cv (_max_cv_queries S) _update_customvariables;
  logs ← gets (fun c => length (_log_queue c));
  next_update_log ← write_if t (next_update_log r) logs (_max_log_queries S) _insert_logs;
  mret (Round (i32 (count r + 1)) (i32 (now1 - now0 r)) (now0 r) next_insert_perfdatas next_update_metrics next_update_cv next_update_log).

(** One turn of the loop over the events. *)
Definition drain_one (r : round) (e : Bbdo.data * pointer) : cm round := _ ← handle e; rest_of_turn r.

(** What a round starts with. *)
Definition start_round : cm round :=
  _ ← _insert_perfdatas;
  _ ← _update_metrics;
  _ ← _update_customvariables;
  _ ← _insert_logs;
  t0 ← now_ms;
  t ← now;
  mret (Round 0 0 t0 t t t t).

Definition end_round : cm unit :=
  _ ← _finish_actions;
  _update_hosts_and_services_of_unresponsive_instances S.

Definition timeout_limit : Z := i32 (_loop_timeout S * 1000).

(** The thread: where it is, the events it took from the queue. *)
Record thread : Type := Thread {
  at_ : phase;
  events : list (Bbdo.data * pointer)
}.

(** catch: the events are lost. *)
Definition caught (gone_away : bool) (c : conflict_manager) : thread * conflict_manager :=
  (Thread Again [], if gone_away then with_broken c true else c).

(** if (events.empty()) events = _fifo.first_events(). *)
Definition take_events (t : thread) (c : conflict_manager) : conflict_manager * list (Bbdo.data * pointer) :=
  match events t with
  | [] => let '(f, events) := first_events (_fifo c) in (with_fifo c f, events)
  | _ => (c, events t)
  end.

(** Without events the thread waits half a second, and the timeout of the round
    is what it was. *)
Definition go_on (r : round) (c : conflict_manager) (events : list (Bbdo.data * pointer)) : thread * conflict_manager :=
  match events with
  | [] => if _should_exit c then (Thread Committing [], c) else (Thread (Filling r) [], with_log c (log c ++ [Sleep]))
  | _ => (Thread (Draining r) events, c)
  end.

Definition fill (r : round) (t : thread) (c : conflict_manager) : thread * conflict_manager :=
  if (count r <? _max_pending_queries S) && (timeout r <? timeout_limit) then
    let '(c, events) := take_events t c in go_on r c events
  else (Thread Committing (events t), c).

Definition drain (r : round) (t : thread) (c : conflict_manager) : thread * conflict_manager :=
  match events t with
  | [] => (Thread (Filling r) [], c)
  | e :: events =>
    match drain_one r e c with
    | (c, Ok r) => (Thread (Draining r) events, c)
    | (c, Error g) => caught g c
    end
  end.

Definition run_thread (t : thread) (c : conflict_manager) : thread * conflict_manager :=
  match at_ t with
  | Starting => match _load_caches S c with (c, Ok _) => (Thread Checking [], c) | (c, Error _) => (Thread Checking [], with_broken c true) end
  | Checking =>
    match _check_deleted_index c with
    | (c, Ok _) => (Thread Looping [], c)
    | (c, Error _) => (Thread Broken_wait [], with_broken c true)
    end
  | Looping =>
    if _should_exit c then (Thread Again [], c)
    else match start_round c with (c, Ok r) => (Thread (Filling r) (events t), c) | (c, Error g) => caught g c end
  | Filling r => fill r t c
  | Draining r => drain r t c
  | Committing => match end_round c with (c, Ok _) => (Thread Looping (events t), c) | (c, Error g) => caught g c end
  | Again => (Thread (if _should_exit c then Broken_wait else Checking) [], c)
  | Broken_wait => (if _broken c && _exit c then t else Thread Ended [], c)
  | Ended => (t, c)
  end.

(** ** The system *)

(** The thread, and what each stream was told to acknowledge. *)
Record system : Type := System {
  manager : conflict_manager;
  worker : thread;
  acked : nat -> Z
}.

Definition new_system : system := System (new_conflict_manager S) (Thread Starting []) (fun _ => 0).

(** What may happen next: a step of the thread, calls of the streams and of the
    destruction, time that passes. *)
Inductive action : Type :=
  | Work
  | Send (s : nat) (d : Bbdo.data)
  | Ask_acks (s : nat)
  | Metric_info (index_id new_id : Z) (metric_name : cstring) (new_type : Z)
  | Exit
  | Elapse.

(** send_event and get_acks: None when the loop is broken (they throw). *)
Definition send_event (c : conflict_manager) (s : nat) (e : Bbdo.data) : option (conflict_manager * Z) :=
  if _broken c then None else let '(f, n) := push (_fifo c) s e in Some (with_fifo c f, n).

Definition get_acks (c : conflict_manager) (s : nat) : option (conflict_manager * Z) :=
  if _broken c then None else let '(f, n) := Mfifo.get_acks (_fifo c) s in Some (with_fifo c f, n).

(** What a stream was given is added to what it had. *)
Definition told (y : system) (s : nat) (r : option (conflict_manager * Z)) : system :=
  match r with
  | Some (c, n) => System c (worker y) (set_at (acked y) s (acked y s + n))
  | None => y
  end.

Definition exec (y : system) (a : action) : system :=
  match a with
  | Work => let '(t, c) := run_thread (worker y) (manager y) in System c t (acked y)
  | Send s d => told y s (send_event (manager y) s d)
  | Ask_acks s => told y s (get_acks (manager y) s)
  | Metric_info index_id new_id name type => System (update_metric_info_cache (manager y) index_id new_id name type) (worker y) (acked y)
  | Exit => System (with_exit (manager y) true) (worker y) (acked y)
  | Elapse => System (with_log (manager y) (log (manager y) ++ [Sleep])) (worker y) (acked y)
  end.

Inductive reached : system -> Prop :=
  | reached_new : reached new_system
  | reached_exec y a : reached y -> reached (exec y a).

Inductive later (y : system) : system -> Prop :=
  | later_now : later y y
  | later_exec z a : later y z -> later y (exec z a).

(** ** The events the thread holds *)

(** Those taken from the queue, then those in it. *)
Definition held (y : system) : list pointer := (events (worker y)).*2 ++ (_events (_fifo (manager y))).*2.

(** An event was flagged before a commit of all the connections that succeeded. *)
Definition committed (l : list command) (p : pointer) : Prop := exists l1 l2, l = l1 ++ Commit_all :: l2 /\ Set_flag p ∈ l1.

Definition known (c : conflict_manager) (p : pointer) : Prop := (place p < given (_fifo c) (source p))%nat.

(** An event that nothing will acknowledge. *)
Definition lost (y : system) (p : pointer) : Prop :=
  known (manager y) p /\ p ∉ held y /\ ~ flagged (_fifo (manager y)) p /\ ~ queued (manager y) p.

(** What always holds, for a set of events that are lost. *)
Record consistent (L : pointer -> Prop) (y : system) : Prop := Consistent {
  held_once : NoDup (held y);
  held_waits : forall p, p ∈ held y -> known (manager y) p /\ ~ flagged (_fifo (manager y)) p /\ ~ queued (manager y) p;
  queued_known : forall p, queued (manager y) p -> known (manager y) p;
  flag_logged : forall p, flagged (_fifo (manager y)) p -> Set_flag p ∈ log (manager y);
  popped_committed : forall p, (place p < popped (_fifo (manager y)) (source p))%nat -> committed (log (manager y)) p;
  acks_counted : forall s, 0 <= _ack (_fifo (manager y)) s /\ acked y s + _ack (_fifo (manager y)) s = Z.of_nat (popped (_fifo (manager y)) s);
  lost_stays : forall p, L p -> lost y p
}.

Section Invariant.
Context (L : pointer -> Prop).

Lemma committed_app l l' p : committed l p -> committed (l ++ l') p.
Proof. intros (l1 & l2 & -> & Hp). exists l1, (l2 ++ l'). by rewrite <- app_assoc. Qed.

(** A call that is within events the thread does not hold any more. *)
Lemma consistent_within P c t c' t' n : consistent L (System c t n) -> within P c c' ->
  (events t').*2 `sublist_of` (events t).*2 -> (forall p, P p -> known c p /\ ~ L p /\ p ∉ held (System c t' n)) ->
  consistent L (System c' t' n).
Proof.
  intros [Hn Hh Hq Hf Hp Ha Hl] [e po a g (l & Hlog & F) q] Hs HP. unfold held in *; cbn [manager worker] in *.
  assert (Hsub : (events t').*2 ++ (_events (_fifo c')).*2 `sublist_of` (events t).*2 ++ (_events (_fifo c)).*2).
  { rewrite e. by apply sublist_app. }
  assert (Hk : forall p, known c p -> known c' p) by (intros p; unfold known; by rewrite g).
  constructor; unfold held; cbn [manager worker acked].
  - by eapply sublist_NoDup.
  - intros p Hp'. assert (p ∈ (events t).*2 ++ (_events (_fifo c)).*2) as Hin by (by eapply elem_of_sublist).
    destruct (Hh p Hin) as (Hk1 & Hnf & Hnq). assert (~ P p) as HnP. { intros H1. destruct (HP p H1) as (_ & _ & H2). apply H2. by rewrite e in Hp'. }
    split; [by apply Hk|split].
    + intros [H1|[[H1|H1] _]]%F; done.
    + intros [H1|H1]%q; done.
  - intros p [H1|H1]%q; apply Hk; [by apply Hq|by apply HP].
  - intros p [H1|[_ H1]]%F; rewrite Hlog, elem_of_app; [left; by apply Hf|by right].
  - intros p Hlt. rewrite po in Hlt. rewrite Hlog. by apply committed_app, Hp.
  - intros s. rewrite a, po. apply Ha.
  - intros p HL. destruct (Hl p HL) as (Hk1 & Hnh & Hnf & Hnq). assert (~ P p) as HnP by (intros H1; destruct (HP p H1) as (_ & H2 & _); by apply H2).
    repeat split; [by apply Hk| | |].
    + intros H1. apply Hnh. by eapply elem_of_sublist.
    + by intros [H1|[[H1|H1] _]]%F.
    + by intros [H1|H1]%q.
Qed.

(** Cleaning a timeline acknowledges events that were flagged. *)
Lemma clean_counts {T} (f : mfifo T) i s : _ack (clean f i) s - _ack f s = Z.of_nat (popped (clean f i) s) - Z.of_nat (popped f s).
Proof. unfold clean; cbn. destruct (decide (s = i)) as [->|Hne]; [rewrite !set_at_here; lia|rewrite !set_at_other by done; lia]. Qed.

Lemma popped_flagged {T} (f : mfifo T) i p : (place p < popped (clean f i) (source p))%nat -> flagged f p.
Proof. intros Hp. apply (flagged_clean f i). by left. Qed.

(** The manager after a commit. *)
Definition commit_all (c : conflict_manager) : conflict_manager :=
  let c := with_action (with_log c (log c ++ [Commit_all])) ((fun _ => none) <$> _action c) in
  with_fifo c (clean (clean (_fifo c) sql) storage).

Lemma finish_actions_cases c : _finish_actions c = (commit_all c, Ok tt) \/ exists g, _finish_actions c = (with_log c (log c ++ [Failed Commit_all]), Error g).
Proof.
  unfold _finish_actions, call, record, mbind, cm_bind, gets, modify, raise. destruct (fails (log c) Commit_all) as [g|]; [right; by exists g|by left].
Qed.

Lemma fifo_commit c : _fifo (commit_all c) = clean (clean (_fifo c) sql) storage.
Proof. done. Qed.

Lemma log_commit c : log (commit_all c) = log c ++ [Commit_all].
Proof. done. Qed.

Lemma flagged_commit c p : flagged (_fifo (commit_all c)) p <-> flagged (_fifo c) p.
Proof. by rewrite fifo_commit, !flagged_clean. Qed.

Lemma known_commit c p : known (commit_all c) p <-> known c p.
Proof. unfold known. by rewrite fifo_commit, !given_clean. Qed.

Lemma consistent_commit c t n : consistent L (System c t n) -> consistent L (System (commit_all c) t n).
Proof.
  intros [Hn Hh Hq Hf Hp Ha Hl]. unfold held in *; cbn [manager worker acked] in *.
  constructor; unfold held; cbn [manager worker acked].
  - exact Hn.
  - intros p Hin. rewrite known_commit, flagged_commit. by apply Hh.
  - intros p Hin. rewrite known_commit. by apply Hq.
  - intros p. rewrite flagged_commit, log_commit. intros Hfl. apply elem_of_app. left. by apply Hf.
  - intros p Hlt. rewrite fifo_commit in Hlt. apply popped_flagged in Hlt. rewrite flagged_clean in Hlt.
    exists (log c), []. split; [done|]. by apply Hf.
  - intros s. specialize (Ha s). rewrite fifo_commit.
    pose proof (clean_counts (_fifo c) sql s). pose proof (clean_counts (clean (_fifo c) sql) storage s).
    pose proof (popped_clean (_fifo c) sql s). pose proof (popped_clean (clean (_fifo c) sql) storage s). lia.
  - intros p HL. destruct (Hl p HL) as (Hk & Hnh & Hnf & Hnq). split; [by apply known_commit|]. split; [done|]. split; [intros H1%(proj1 (flagged_commit c p)); by apply Hnf|done].
Qed.

(** ** Every step keeps it *)

Lemma consistent_stays {A} (m : cm A) c t t' n : stays nothing m -> consistent L (System c t n) -> (events t').*2 `sublist_of` (events t).*2 ->
  consistent L (System (m c).1 t' n).
Proof. intros Hm Hc Hs. by apply (consistent_within nothing c t). Qed.

Lemma consistent_moves c t t' n : consistent L (System c t n) -> (events t').*2 `sublist_of` (events t).*2 -> consistent L (System c t' n).
Proof. intros Hc Hs. by apply (consistent_within nothing c t); [|apply within_refl| |]. Qed.

Lemma consistent_drops c t a n : consistent L (System c t n) -> consistent L (System c (Thread a []) n).
Proof. intros Hc. by apply (consistent_moves c t); [|apply sublist_nil_l]. Qed.

Lemma consistent_keeps c t a n : consistent L (System c t n) -> consistent L (System c (Thread a (events t)) n).
Proof. intros Hc. by apply (consistent_moves c t). Qed.

Lemma consistent_broken c t t' n : consistent L (System c t n) -> (events t').*2 `sublist_of` (events t).*2 ->
  consistent L (System (with_broken c true) t' n).
Proof. apply (consistent_stays (modify (fun c => with_broken c true))). by apply stays_modify. Qed.

Lemma consistent_caught g c t n : consistent L (System c t n) -> consistent L (System (caught g c).2 (caught g c).1 n).
Proof.
  intros Hc. unfold caught; cbn. destruct g; [by apply (consistent_broken c t); [|apply sublist_nil_l]|].
  by apply (consistent_moves c t); [|apply sublist_nil_l].
Qed.

Lemma quiet_write_if t next size max write : stays nothing write -> stays nothing (write_if t next size max write).
Proof. intros Hw. unfold write_if. walk. Qed.

Lemma quiet_rest_of_turn r : stays nothing (rest_of_turn r).
Proof.
  unfold rest_of_turn. walk; first [apply quiet_now_ms|apply quiet_write_if].
  - apply quiet_insert_perfdatas.
  - apply quiet_update_metrics.
  - apply quiet_customvariables.
  - apply quiet_logs.
Qed.

Lemma quiet_start_round : stays nothing start_round.
Proof.
  unfold start_round. walk; [apply quiet_insert_perfdatas|apply quiet_update_metrics|apply quiet_customvariables|apply quiet_logs
    |apply quiet_now_ms|apply quiet_now].
Qed.

Lemma does_handle e : does (eq e.2) (handle e).
Proof.
  destruct e as [d p]. unfold handle. case_match.
  - case_match; [by eapply does_handler|]. apply does_quiet, stays_throw.
  - case_match; [apply does_service_status|apply does_acknowledge].
Qed.

(** The handled event is not held any more. *)
Lemma consistent_drain r e l c c' x t' n : consistent L (System c (Thread (Draining r) (e :: l)) n) -> drain_one r e c = (c', x) ->
  (events t').*2 `sublist_of` l.*2 -> consistent L (System c' t' n).
Proof.
  intros Hc He Hs. unfold drain_one, mbind, cm_bind in He. pose proof (does_handle e c) as Hw.
  assert (Hin : known c e.2 /\ ~ L e.2 /\ e.2 ∉ held (System c t' n)).
  { destruct Hc as [Hn Hh _ _ _ _ Hl]. split; [apply Hh; by left|]. split; [intros (_ & H1 & _)%Hl; apply H1; by left|].
    unfold held in *; cbn in *.
    apply NoDup_cons in Hn as [Hn _]. intros Hin. apply Hn. rewrite elem_of_app in Hin |- *. destruct Hin as [Hin|Hin]; [left|by right].
    by eapply elem_of_sublist. }
  destruct (handle e c) as [c1 [[]|g]].
  - assert (consistent L (System c1 t' n)) as Hc1.
    { eapply consistent_within; [exact Hc|exact Hw| |]; [by apply sublist_cons|]. by intros q <-. }
    replace c' with (rest_of_turn r c1).1 by (by rewrite He). eapply consistent_stays; [apply quiet_rest_of_turn|exact Hc1|done].
  - injection He as <- <-. eapply consistent_within; [exact Hc|exact Hw|by apply sublist_cons|done].
Qed.

Lemma consistent_end_round c t n : consistent L (System c t n) -> consistent L (System (end_round c).1 t n).
Proof.
  intros Hc. unfold end_round, mbind, cm_bind. destruct (finish_actions_cases c) as [->|[g ->]].
  - apply (consistent_stays _ _ t); [apply quiet_unresponsive|by apply consistent_commit|done].
  - apply (consistent_stays (record (Failed Commit_all)) c t); [apply stays_record|done|done].
Qed.

(** The queue moves to the local variable. *)
Lemma consistent_takes c t n : events t = [] -> consistent L (System c t n) ->
  consistent L (System (with_fifo c (first_events (_fifo c)).1) (Thread (at_ t) (first_events (_fifo c)).2) n).
Proof.
  intros E [Hn Hh Hq Hf Hp Ha Hl]. unfold lost, held in *; cbn [manager worker acked] in *. rewrite E in Hn, Hh, Hl. cbn in Hn, Hh, Hl.
  constructor; unfold lost, held; cbn; rewrite ?app_nil_r; done.
Qed.

Lemma consistent_go_on r c a events n : consistent L (System c (Thread a events) n) ->
  consistent L (System (go_on r c events).2 (go_on r c events).1 n).
Proof.
  intros Hc. unfold go_on. destruct events as [|e l]; [|by apply (consistent_keeps _ _ _ _ Hc)].
  case_match; [by apply (consistent_drops _ _ _ _ Hc)|].
  apply (consistent_stays (record Sleep) c _ _ n (stays_record nothing Sleep) Hc). done.
Qed.

Lemma consistent_fill r t c n : consistent L (System c t n) -> consistent L (System (fill r t c).2 (fill r t c).1 n).
Proof.
  intros Hc. unfold fill, take_events. case_match; [|by apply consistent_keeps]. destruct (events t) as [|e l] eqn:El.
  - apply consistent_takes in Hc; [|done]. apply (consistent_go_on r _ _ _ _ Hc).
  - apply (consistent_go_on r c (at_ t)). rewrite <- El. by apply consistent_keeps.
Qed.

Lemma consistent_run t c n : consistent L (System c t n) -> consistent L (System (run_thread t c).2 (run_thread t c).1 n).
Proof.
  intros Hc. unfold run_thread. destruct (at_ t) as [| | |r|r| | | |] eqn:Ea.
  - pose proof (consistent_stays _ c t t n (quiet_load_caches S nothing) Hc ltac:(done)) as H1.
    destruct (_load_caches S c) as [c' [x|g]]; [by apply (consistent_drops _ t)|]. by apply (consistent_broken _ t); [|apply sublist_nil_l].
  - pose proof (consistent_stays _ c t t n (quiet_check_deleted nothing) Hc ltac:(done)) as H1.
    destruct (_check_deleted_index c) as [c' [x|g]]; [by apply (consistent_drops _ t)|]. by apply (consistent_broken _ t); [|apply sublist_nil_l].
  - case_match; [by apply (consistent_drops _ t)|].
    pose proof (consistent_stays _ c t t n quiet_start_round Hc ltac:(done)) as H1.
    destruct (start_round c) as [c' [r|g]]; [by apply consistent_keeps|by apply consistent_caught with t].
  - by apply consistent_fill.
  - unfold drain. destruct (events t) as [|e l] eqn:El; [by apply (consistent_drops _ t)|].
    assert (Hc' : consistent L (System c (Thread (Draining r) (e :: l)) n)) by (rewrite <- El; by apply consistent_keeps).
    destruct (drain_one r e c) as [c' [r'|g]] eqn:Ed; [by eapply consistent_drain|].
    apply consistent_caught with (Thread Again []). by eapply consistent_drain; [..|apply sublist_nil_l].
  - pose proof (consistent_end_round c t n Hc) as H1.
    destruct (end_round c) as [c' [x|g]]; [by apply consistent_keeps|by apply consistent_caught with t].
  - by apply (consistent_drops _ t).
  - case_match; [done|]. by apply (consistent_drops _ t).
  - done.
Qed.

Lemma within_metric_info P c a b name k : within P c (update_metric_info_cache c a b name k).
Proof.
  unfold update_metric_info_cache. case_match; [|apply within_refl].
  apply (stays_modify P (fun c => with_metric_cache c _)). done.
Qed.

(** Taking acknowledgements moves them from the queue to the stream. *)
Lemma consistent_acks c t n s : consistent L (System c t n) ->
  consistent L (System (with_fifo c (Mfifo.get_acks (_fifo c) s).1) t (set_at n s (n s + (Mfifo.get_acks (_fifo c) s).2))).
Proof.
  intros [Hn Hh Hq Hf Hp Ha Hl]. constructor; unfold held in *; cbn in *; try done.
  intros i. specialize (Ha i). destruct (decide (i = s)) as [->|Hne]; [rewrite !set_at_here; lia|by rewrite !set_at_other].
Qed.

(** A pushed event is a new one. *)
Definition pushed (f : mfifo Bbdo.data) (s : nat) (e : Bbdo.data) : mfifo Bbdo.data :=
  Mk_mfifo (_events f ++ [(e, Pointer s (given f s))]) (set_at (_timeline f) s (_timeline f s ++ [false])) (_ack f) (_pending_elements f + 1)
    (popped f).

Lemma push_pushed f s e : push f s e = Mfifo.get_acks (pushed f s e) s.
Proof.
  unfold push, pushed, back, given; cbn. do 6 f_equal. rewrite set_at_here, length_app. cbn. lia.
Qed.

Lemma flagged_pushed f s e p : flagged (pushed f s e) p <-> flagged f p.
Proof.
  unfold flagged, pushed; cbn. destruct (decide (source p = s)) as [<-|Hne]; [rewrite set_at_here|by rewrite set_at_other].
  split; (intros [Hk|[Hk Hl]]; [by left|right; split; [done|]]).
  - apply lookup_app_Some in Hl as [Hl|[_ Hl]]; [done|]. by apply list_lookup_singleton_Some in Hl as [_ Hl].
  - by apply lookup_app_l_Some.
Qed.

Lemma given_pushed f s e i : (given f i <= given (pushed f s e) i)%nat.
Proof.
  unfold given, pushed; cbn. destruct (decide (i = s)) as [->|Hne]; [rewrite set_at_here, length_app; lia|by rewrite set_at_other].
Qed.

Lemma consistent_pushed c t n s e : consistent L (System c t n) -> consistent L (System (with_fifo c (pushed (_fifo c) s e)) t n).
Proof.
  intros [Hn Hh Hq Hf Hp Ha Hl].
  assert (Hk : forall p, known c p -> known (with_fifo c (pushed (_fifo c) s e)) p).
  { intros p Hp0. unfold known in *. eapply Nat.lt_le_trans; [exact Hp0|]. apply (given_pushed (_fifo c) s e). }
  assert (Hnew : ~ known c (Pointer s (given (_fifo c) s))) by (unfold known; cbn [source place]; lia).
  unfold held in *; cbn [manager worker acked] in *. constructor; unfold held; cbn [manager worker acked].
  - cbn [_fifo with_fifo pushed _events]. rewrite fmap_app, app_assoc. apply NoDup_app. repeat split; [done| |apply NoDup_singleton].
    intros p Hin ->%list_elem_of_singleton. by apply Hnew, Hh.
  - intros p. cbn [_fifo with_fifo pushed _events]. rewrite fmap_app, app_assoc, elem_of_app. intros [Hin|Hin].
    + destruct (Hh p Hin) as (H1 & H2 & H3). split; [by apply Hk|]. split; [|done]. by rewrite (flagged_pushed (_fifo c) s e).
    + apply list_elem_of_singleton in Hin as ->. cbn [snd]. repeat split.
      * unfold known. cbn. unfold given, pushed; cbn. rewrite set_at_here, length_app. cbn. lia.
      * intros H1%(flagged_pushed (_fifo c) s e). unfold flagged, given in H1; cbn in H1. destruct H1 as [H1|[_ H1]]; [lia|].
        apply lookup_lt_Some in H1. lia.
      * intros H1. by apply Hnew, Hq.
  - intros p Hin. apply Hk. by apply Hq.
  - intros p H1%(flagged_pushed (_fifo c) s e). by apply Hf.
  - exact Hp.
  - exact Ha.
  - intros p HL. destruct (Hl p HL) as (H1 & H2 & H3 & H4). split; [by apply Hk|]. split; [|split; [|exact H4]].
    + unfold held in *. cbn [manager worker _fifo with_fifo pushed _events] in *. rewrite fmap_app, app_assoc, elem_of_app.
      intros [Hin|Hin]; [done|]. apply list_elem_of_singleton in Hin as ->. by apply Hnew.
    + intros H5%(proj1 (flagged_pushed (_fifo c) s e p)). by apply H3.
Qed.

Lemma consistent_told y s r : consistent L y ->
  (forall c k, r = Some (c, k) -> consistent L (System c (worker y) (set_at (acked y) s (acked y s + k)))) -> consistent L (told y s r).
Proof. intros Hy Hr. unfold told. destruct r as [[c k]|]; [by apply Hr|done]. Qed.

Lemma consistent_exec y a : consistent L y -> consistent L (exec y a).
Proof.
  destruct y as [c t n]. intros Hc. destruct a as [|s d|s|a b name k| |].
  - cbn. pose proof (consistent_run t c n Hc) as H1. by destruct (run_thread t c).
  - apply consistent_told; [done..|]. cbn [manager worker acked]. unfold send_event. case_match; [done|]. rewrite push_pushed. intros c' k [= <- <-].
    apply (consistent_acks (with_fifo c (pushed (_fifo c) s d)) t n s). by apply consistent_pushed.
  - apply consistent_told; [done..|]. cbn [manager worker acked]. unfold get_acks. case_match; [done|]. intros c' k [= <- <-].
    by apply consistent_acks.
  - by apply (consistent_within nothing c t); [|apply within_metric_info| |].
  - apply (consistent_stays (modify (fun c => with_exit c true)) c t t n); [by apply stays_modify|done|done].
  - by apply (consistent_stays (record Sleep) c t t n (stays_record nothing Sleep) Hc).
Qed.

End Invariant.

Definition none_lost : pointer -> Prop := fun _ => False.

Lemma consistent_new : consistent none_lost new_system.
Proof.
  constructor; unfold held; cbn.
  - constructor.
  - intros p Hp. by apply not_elem_of_nil in Hp.
  - intros p [Hp|Hp]; by apply not_elem_of_nil in Hp.
  - intros p [Hp|[_ Hp]]; [cbn in Hp; lia|done].
  - intros p Hp. lia.
  - done.
  - done.
Qed.

Lemma consistent_reached y : reached y -> consistent none_lost y.
Proof. induction 1; [apply consistent_new|by apply consistent_exec]. Qed.

(** ** What the streams are told *)

(** C5. An event that a stream was told to acknowledge had its flag set
    before a commit of all the connections that succeeded, and the thread does
    not hold it any more; those that were acknowledged are the first the stream
    sent. *)
Theorem acknowledged_after_commit y s k : reached y -> Z.of_nat k < acked y s ->
  committed (log (manager y)) (Pointer s k) /\ Pointer s k ∉ held y.
Proof.
  intros Hr Hk. destruct (consistent_reached y Hr) as [_ Hh _ _ Hp Ha _]. specialize (Ha s).
  assert (Hlt : (k < popped (_fifo (manager y)) s)%nat) by lia. split; [by apply Hp|].
  intros Hin. destruct (Hh _ Hin) as (_ & Hnf & _). apply Hnf. by left.
Qed.

(** What a failed handling leaves: the handled event, and those taken with it. *)
Lemma failed_lost y r l g c' :
  consistent none_lost y -> worker y = Thread (Draining r) l ->
  match l with e :: _ => handle e (manager y) = (c', Error g) | [] => False end ->
  forall p, p ∈ l.*2 -> lost (exec y Work) p.
Proof.
  intros Hc Hw He p Hp. destruct y as [c t n]. cbn in Hw, He. subst t. destruct l as [|e l]; [done|].
  destruct Hc as [Hn Hh _ _ _ _ _]. unfold held in *; cbn [manager worker events] in *.
  destruct (Hh p) as (H1 & H2 & H3); [apply elem_of_app; by left|].
  pose proof (does_handle e c) as Hd. rewrite He in Hd. destruct Hd as [ev po a gi (add & _ & F) q].
  cbn [exec worker manager run_thread at_]. unfold drain, drain_one, mbind, cm_bind; cbn [events]. rewrite He. unfold caught.
  assert (Hfields : forall c1 : conflict_manager, _fifo c1 = _fifo c' -> (forall x, queued c1 x -> queued c' x) -> lost (System c1 (Thread Again []) n) p).
  { intros c1 E1 E2. unfold lost, held, known; cbn [manager worker events fmap list_fmap app]. rewrite E1. split; [by rewrite gi|]. split; [|split].
    - rewrite ev. apply NoDup_app in Hn as (_ & Hn & _). by apply Hn.
    - intros [H4|[[H4|H4] _]]%F; done.
    - intros [H4|H4]%E2%q; done. }
  destruct g; cbn; by apply Hfields.
Qed.

Lemma consistent_later L y z : consistent L y -> later y z -> consistent L z.
Proof. intros Hc. induction 1; [done|by apply consistent_exec]. Qed.

(** C6. When the handling of an event throws, that event and all those that
    were taken from the queue with it and not handled yet are never
    acknowledged, nor is any event their stream sent after them, whatever happens
    next. *)
Theorem failure_blocks_acknowledgements y r e l g c' z :
  reached y -> worker y = Thread (Draining r) (e :: l) -> handle e (manager y) = (c', Error g) -> later (exec y Work) z ->
  forall p, p ∈ (e :: l).*2 -> acked z (source p) <= Z.of_nat (place p).
Proof.
  intros Hr Hw He Hz p Hp. pose proof (consistent_reached y Hr) as Hc.
  assert (Hl : consistent (fun p => p ∈ (e :: l).*2) (exec y Work)).
  { destruct (consistent_exec none_lost y Work Hc) as [H1 H2 H3 H4 H5 H6 _]. constructor; try done.
    intros q Hq. by eapply (failed_lost y r (e :: l) g c'). }
  destruct (consistent_later _ _ z Hl Hz) as [_ _ _ _ _ Ha Hlost]. destruct (Hlost p Hp) as (_ & _ & Hnf & _).
  apply popped_blocked in Hnf. specialize (Ha (source p)). lia.
Qed.

(** ** Rounds that do not end *)

Lemma fifo_eta (f : mfifo Bbdo.data) : _events f = [] -> (first_events f).1 = f.
Proof. destruct f. cbn. by intros ->. Qed.

Lemma with_fifo_eta c : with_fifo c (_fifo c) = c.
Proof. by destruct c. Qed.

(** Without new events a round goes on for ever: the timeout it is
    compared with is only computed when an event is handled. Nothing is
    committed then, and what was handled is not acknowledged. *)
Theorem idle_round_never_commits k c r n :
  count r < _max_pending_queries S -> timeout r < timeout_limit -> _events (_fifo c) = [] -> _broken c = false -> _exit c = false ->
  Nat.iter k (fun y => exec y Work) (System c (Thread (Filling r) []) n)
  = System (with_log c (log c ++ replicate k Sleep)) (Thread (Filling r) []) n.
Proof.
  intros Hc Ht He Hb Hx. induction k as [|k IH].
  - cbn. rewrite app_nil_r. by destruct c.
  - change (Nat.iter (Datatypes.S k) ?f ?y) with (f (Nat.iter k f y)). rewrite IH. cbn [exec worker manager run_thread at_].
    unfold fill. rewrite (proj2 (Z.ltb_lt _ _) Hc), (proj2 (Z.ltb_lt _ _) Ht). cbn [andb]. unfold take_events. cbn [events].
    set (c1 := with_log c (log c ++ replicate k Sleep)).
    replace (first_events (_fifo c1)) with (_fifo c1, @nil (Bbdo.data * pointer)).
    + rewrite with_fifo_eta. unfold go_on, _should_exit, c1. cbn [_broken _exit with_log]. rewrite Hb, Hx. cbn.
      rewrite <- app_assoc, replicate_cons_app. done.
    + unfold c1. cbn. symmetry. rewrite (surjective_pairing (first_events _)), fifo_eta by done. cbn. by rewrite He.
Qed.

(** A thread that stops on an error after it was told to exit waits for ever,
    with what joins it: the condition of the wait is the opposite one. *)
Lemma broken_exit_waits k c n : _broken c = true -> _exit c = true ->
  Nat.iter k (fun y => exec y Work) (System c (Thread Broken_wait []) n) = System c (Thread Broken_wait []) n.
Proof.
  intros Hb Hx. induction k as [|k IH]; [done|]. change (Nat.iter (Datatypes.S k) ?f ?y) with (f (Nat.iter k f y)). rewrite IH.
  cbn. by rewrite Hb, Hx.
Qed.

End Loop.

(** ** Runs *)

Section Runs.
Context `{Database} (S : settings).

Definition run (l : list action) (y : system) : system := fold_left (exec S) l y.

Lemma reached_run l : reached S (run l (new_system S)).
Proof.
  unfold run. rewrite <- (rev_involutive l). induction (rev l) as [|a r IH]; [apply reached_new|].
  cbn [rev]. rewrite fold_left_app. by apply reached_exec.
Qed.

Lemma later_run l y : later S y (run l y).
Proof.
  unfold run. rewrite <- (rev_involutive l). induction (rev l) as [|a r IH]; [apply later_now|].
  cbn [rev]. rewrite fold_left_app. by apply later_exec.
Qed.

Lemma throws_with {A} (m : cm A) c g : (m c).2 = Error g -> m c = ((m c).1, Error g).
Proof. destruct (m c). by cbn; intros ->. Qed.
End Runs.

(** A database where the first [k] statements fail. *)
Definition is_failed (x : command) : bool := match x with Failed _ => true | _ => false end.

Definition demo_database (k : nat) : Database := {|
  fails l x := match x with Run_statement _ _ _ _ => if (length (List.filter is_failed l) <? k)%nat then Some false else None | _ => None end;
  answer _ _ := Ok [];
  answer_int _ _ := Ok 1;
  choose_best_connection _ _ := 0%nat;
  milliseconds l := Z.of_nat (length l);
  hash _ := 1;
  reg := Registry.demo_registry;
  col_size _ _ := 0;
  format_double _ := [];
  format_scientific _ := [];
  freed _ := [];
  never_assigned _ := 0
|}.

(** Rounds of one event, and one connection. *)
Definition demo_settings : settings := Settings 10 1 300 true 1 60 10 10 10 10 1.

(** A parent is sent, written, committed and acknowledged. *)
Definition demo_run : list action := [Work; Work; Send sql Registry.demo_event; Work; Work; Work; Work; Work; Work; Ask_acks sql].

Lemma acknowledged_after_commit_witness :
  let y := @run (demo_database 0) demo_settings demo_run (new_system demo_settings) in
  committed (log (manager y)) (Pointer sql 0) /\ Pointer sql 0 ∉ held y.
Proof.
  apply (@acknowledged_after_commit (demo_database 0) demo_settings); [apply reached_run|]. vm_compute. reflexivity.
Defined.

(** The first statement fails. A second parent is written and committed, and is
    not acknowledged. *)
Definition demo_taken : system :=
  @run (demo_database 1) demo_settings [Work; Work; Send sql Registry.demo_event; Work; Work] (new_system demo_settings).
Definition demo_blocked : system :=
  @run (demo_database 1) demo_settings [Work; Work; Send sql Registry.demo_event; Work; Work; Work; Work; Work; Work; Ask_acks sql]
    (@exec (demo_database 1) demo_settings demo_taken Work).

Lemma failure_blocks_acknowledgements_witness :
  existsb (fun x => match x with Set_flag (Pointer 0 1) => true | _ => false end) (log (manager demo_blocked)) = true
  /\ acked demo_blocked sql <= 0.
Proof.
  split; [vm_compute; reflexivity|].
  eapply (@failure_blocks_acknowledgements (demo_database 1) demo_settings demo_taken _ (Registry.demo_event, Pointer sql 0) [] false _
            demo_blocked) with (p := Pointer sql 0).
  - apply reached_run.
  - vm_compute. reflexivity.
  - apply throws_with. vm_compute. reflexivity.
  - apply later_run.
  - by left.
Defined.

Definition demo_idle : settings := Settings 10 1000 300 true 1 60 10 10 10 10 1.

Lemma idle_round_never_commits_witness :
  Nat.iter 3 (fun y => @exec (demo_database 0) demo_idle y Work)
    (System (new_conflict_manager demo_idle) (Thread (Filling (Round 1 0 0 0 0 0 0)) []) (fun _ => 0))
  = System (with_log (new_conflict_manager demo_idle) (log (new_conflict_manager demo_idle) ++ replicate 3 Sleep))
      (Thread (Filling (Round 1 0 0 0 0 0 0)) []) (fun _ => 0).
Proof. apply (@idle_round_never_commits (demo_database 0) demo_idle); reflexivity. Defined.

End ConflictLoop.
