(* ===== verification/MacroCache.v ===== *)
(** * The caches of macros (graphite/src/macro_cache.cc, influxdb/src/macro_cache.cc, lua/src/macro_cache.cc)

    The streams to Graphite, to InfluxDB and to scripts keep the last events on
    pollers, hosts, services, indexes and metrics, to give names to what they
    write. The cache is filled from a persistent cache when the stream starts
    and saved to it when it stops. Here: what a cache promises to its stream as a
    class, what a restart does to a cache with these laws, and the cache of
    Graphite, which that of InfluxDB repeats. *)

From Stdlib Require Import ZArith Lia ZifyNat ZifyBool Strings.Byte Strings.String.
From stdpp Require Import base option list numbers strings gmap.
From S2P Require Import Prelude Double Events Bbdo PersistentCache Mapping NebEvents StorageEvents.

Module MacroCache.
Import Events Mapping PersistentCache.

(** ** Caches *)

(** A cache: what an event changes, and what is saved, container by container.
    The order in which the elements of a container come is that of hash tables. *)
Class Cache (C : Type) := {
  empty : C;
  write : C -> Bbdo.data -> C;
  containers : C -> list (list Bbdo.data)
}.

Definition saved {C} `{Cache C} (c : C) (l : list Bbdo.data) : Prop :=
  exists ls, Forall2 Permutation ls (containers c) /\ l = concat ls.

(** Two caches that answer the same; the elements that came under one key may be
    in another order. What has been saved in any order gives the cache back. *)
Class CacheLaws (C : Type) `{Cache C} := {
  same : relation C;
  #[global] same_equiv :: Equivalence same;
  #[global] write_same :: Proper (same ==> eq ==> same) write;
  well_formed : C -> Prop;
  empty_well_formed : well_formed empty;
  write_well_formed c d : well_formed c -> well_formed (write c d);
  restores c l : well_formed c -> saved c l -> same (fold_left write l empty) c
}.

Section Persistence.
Context {C : Type} `{Cache C}.

(** The constructor: do get, write while there are events; the null event
    that ends the loop is ignored by write. *)
Fixpoint load (fuel : nat) (p : persistent_cache) (c : C) : outcome (persistent_cache * C) :=
  match fuel with
  | O => Diverges
  | S fuel =>
    match get p with
    | (p, Some d) => load fuel p (write c d)
    | (p, None) => Returns (p, c)
    end
  end.

(** _save_to_disk. *)
Definition _save_to_disk (p : persistent_cache) (l : list Bbdo.data) : outcome persistent_cache :=
  p ← transaction p; p ← add_all p l; let '(p, r) := commit p in _ ← r; Returns p.

(** A process: it loads the cache from the files, gets events and saves. *)
Inductive process (d : files) (events : list Bbdo.data) (c : C) (d' : files) : Prop :=
  | Process fuel p c0 l p' :
      load fuel (open d) empty = Returns (p, c0) -> c = fold_left write events c0 ->
      saved c l -> _save_to_disk p l = Returns p' -> d' = disk p' -> process d events c d'.

(** Processes one after the other: the events each got, the last cache. *)
Inductive processes : files -> list (list Bbdo.data) -> C -> files -> Prop :=
  | one_process d events c d' : process d events c d' -> processes d [events] c d'
  | next_process d runs c d' events c' d'' :
      processes d runs c d' -> process d' events c' d'' -> processes d (runs ++ [events]) c' d''.

(** Loading ends, and has read all the file. *)
Lemma load_reads l d nf ofl w c fuel :
  (length l < fuel)%nat ->
  load fuel (PersistentCache.Cache (Files d nf ofl) (Some l) w) c
  = Returns (PersistentCache.Cache (Files d nf ofl) (Some []) w, fold_left write l c).
Proof.
  revert c fuel. induction l as [|e l IH]; intros c [|fuel] Hf; cbn in Hf; [lia| |lia|].
  - done.
  - cbn [load get _read_file disk _write_file fold_left]. by rewrite IH by lia.
Qed.

Lemma load_fuel fuel fuel' p c r : load fuel p c = Returns r -> load fuel' p c <> Diverges -> load fuel' p c = Returns r.
Proof.
  revert fuel' p c. induction fuel as [|fuel IH]; intros [|fuel'] p c; cbn [load]; try done.
  destruct (get p) as [p' [e|]]; [apply IH|done].
Qed.

Lemma open_shape (d : @files Bbdo.data) : exists d' l, open d = PersistentCache.Cache (Files (Some l) (new_file d) d') (Some l) false
  /\ l = snd (_open d).
Proof. unfold open, _open. destruct d as [[] ? []]; cbn; by eexists _, _. Qed.

(** Loading what is on disk, whatever the fuel that was enough. *)
Lemma loads fuel d p c : load fuel (open d) empty = Returns (p, c) ->
  c = fold_left write (snd (_open d)) empty
  /\ exists ofl, p = PersistentCache.Cache (Files (Some (snd (_open d))) (new_file d) ofl) (Some []) false.
Proof.
  destruct (open_shape d) as (ofl & l & Ho & ->). rewrite Ho. intros E.
  apply (load_fuel _ (S (length (snd (_open d))))) in E; [|rewrite load_reads; [done|lia]].
  rewrite load_reads in E by lia. injection E as <- <-. split; [done|]. by eexists.
Qed.

Lemma load_ends d : exists p c, load (S (length (snd (_open d)))) (open d) empty = Returns (p, c).
Proof.
  destruct (open_shape d) as (ofl & l & Ho & ->). rewrite Ho. eexists _, _. apply load_reads. lia.
Qed.

(** Saving never fails, and the next process reads what was saved. *)
Lemma saves l0 ofl l : exists p',
  _save_to_disk (PersistentCache.Cache (Files (Some l0) None ofl) (Some []) false) l = Returns p'
  /\ new_file (disk p') = None /\ snd (_open (disk p')) = l.
Proof.
  unfold _save_to_disk. cbn [transaction _write_file mbind outcome_bind disk new_file cache_file old_file _read_file touch].
  rewrite add_all_spec by done. cbn [mbind outcome_bind].
  set (c1 := PersistentCache.Cache (Files (Some l0) (Some []) ofl) (Some []) true).
  destruct (commit_installs c1 l _ eq_refl (ex_intro _ l0 eq_refl) eq_refl (add_all_spec c1 l eq_refl))
    as (p' & Ec & Eo & Hn & _).
  exists p'. rewrite Ec. split; [done|]. split; [done|]. by rewrite Eo.
Qed.

Lemma saved_exists c : saved c (concat (containers c)).
Proof. exists (containers c). split; [|done]. by induction (containers c); constructor. Qed.
End Persistence.

Section Laws.
Context {C : Type} `{CacheLaws C}.

#[global] Instance fold_write_same : Proper (eq ==> same ==> same) (fold_left (@write C _)).
Proof. intros l ? <- c c' Hc. revert c c' Hc. induction l; intros c c' Hc; cbn; [done|]. apply IHl. by rewrite Hc. Qed.

Lemma fold_write_well_formed l (c : C) : well_formed c -> well_formed (fold_left write l c).
Proof. revert c. induction l; intros c Hc; cbn; [done|]. by apply IHl, write_well_formed. Qed.

(** What a process knows is what its files held and what it got. *)
Lemma process_cache d events c d' : process d events c d' -> new_file d = None ->
  c = fold_left write (snd (_open d) ++ events) empty
  /\ new_file d' = None /\ same (fold_left write (snd (_open d')) empty) c.
Proof.
  intros [fuel p c0 l p' Hl -> Hs Hd ->] Hn. destruct (loads _ _ _ _ Hl) as (-> & ofl & ->).
  rewrite fold_left_app. split; [done|]. rewrite Hn in Hd.
  destruct (saves (snd (_open d)) ofl l) as (p'' & Hd' & Hn' & Ho). rewrite Hd in Hd'. injection Hd' as <-.
  split; [done|]. rewrite Ho. apply restores; [|done].
  by apply fold_write_well_formed, fold_write_well_formed, empty_well_formed.
Qed.

(** Restarts do not show: what the last of any number of processes knows is what
    a single one that got all their events knows. *)
Lemma restarts d runs c d' : processes d runs c d' -> new_file d = None ->
  same c (fold_left write (snd (_open d) ++ concat runs) empty)
  /\ new_file d' = None /\ same (fold_left write (snd (_open d')) empty) c.
Proof.
  intros Hp Hn. induction Hp as [d events c d' Hp|d runs c d' events c' d'' _ IH Hp].
  - destruct (process_cache _ _ _ _ Hp Hn) as (-> & Hn' & Hs). cbn [concat]. by rewrite app_nil_r.
  - destruct (IH Hn) as (Hc & Hn' & Hs). destruct (process_cache _ _ _ _ Hp Hn') as (-> & Hn'' & Hs').
    split; [|done]. rewrite concat_app, app_assoc, fold_left_app. cbn [concat]. rewrite app_nil_r.
    rewrite (fold_left_app _ (_ ++ _)). by rewrite Hs, Hc.
Qed.

(** There is always such a process, whatever order the containers are saved
    in. *)
Lemma process_exists d events order : new_file d = None ->
  (forall c : C, saved c (order c)) ->
  exists c d', process d events c d'.
Proof.
  intros Hn Ho. destruct (load_ends (C := C) d) as (p & c0 & Hl). destruct (loads _ _ _ _ Hl) as (_ & ofl & ->).
  rewrite Hn in *. destruct (saves (snd (_open d)) ofl (order (fold_left write events c0))) as (p' & Hs & _).
  eexists _, _. by econstructor.
Qed.
End Laws.

(** ** Members of the events that are kept *)

Section Members.
Context (col_size : string -> string -> Z).

(** static_type of the classes. *)
Definition neb_type (de : NebEvents.data_element) : Z := make_type neb (NebEvents.element de).
Definition storage_type (de : StorageEvents.data_element) : Z := make_type storage (StorageEvents.element de).

(** Members of the events. *)
Definition poller_id (d : Bbdo.data) : Z := number (NebEvents.instance_entries col_size) (Bbdo.fields d) "poller_id".
Definition host_id (d : Bbdo.data) : Z := number (NebEvents.host_entries col_size) (Bbdo.fields d) "host_id".
Definition service_key (d : Bbdo.data) : Z * Z :=
  (number (NebEvents.service_entries col_size) (Bbdo.fields d) "host_id",
   number (NebEvents.service_entries col_size) (Bbdo.fields d) "service_id").
Definition index_id (d : Bbdo.data) : Z := number StorageEvents.index_mapping_entries (Bbdo.fields d) "index_id".
Definition index_host_id (d : Bbdo.data) : Z := number StorageEvents.index_mapping_entries (Bbdo.fields d) "host_id".
Definition index_service_id (d : Bbdo.data) : Z := number StorageEvents.index_mapping_entries (Bbdo.fields d) "service_id".
Definition metric_id (d : Bbdo.data) : Z := number StorageEvents.metric_mapping_entries (Bbdo.fields d) "metric_id".
Definition metric_index_id (d : Bbdo.data) : Z := number StorageEvents.metric_mapping_entries (Bbdo.fields d) "index_id".

Definition of_type (ty : Z) (d : Bbdo.data) : Prop := Bbdo.type d = ty.
End Members.

Definition find {K} `{Countable K} (m : gmap K Bbdo.data) (k : K) : outcome Bbdo.data :=
  match m !! k with None => Throws Exn_msg | Some d => Returns d end.

(** ** Containers *)

Section Containers.
Context {K : Type} `{Countable K}.

(** The elements of a map, each under its own key and of its own kind. *)
Definition keyed (kind : Bbdo.data -> Prop) (key : Bbdo.data -> K) (m : gmap K Bbdo.data) : Prop :=
  map_Forall (fun k d => kind d /\ key d = k) m.

Definition values_of (m : gmap K Bbdo.data) : list Bbdo.data := (map_to_list m).*2.

Lemma keyed_empty kind key : keyed kind key ∅.
Proof. apply map_Forall_empty. Qed.

Lemma keyed_insert kind (key : Bbdo.data -> K) (m : gmap K Bbdo.data) d : keyed kind key m -> kind d -> keyed kind key (<[key d := d]> m).
Proof. intros Hm Hd. by apply map_Forall_insert_2. Qed.

Lemma keyed_subset kind key m m' : keyed kind key m -> m' ⊆ m -> keyed kind key m'.
Proof. intros Hm Hs k d Hk. apply Hm. by eapply lookup_weaken. Qed.

Lemma keyed_filter kind key m (P : K * Bbdo.data -> Prop) `{forall p, Decision (P p)} :
  keyed kind key m -> keyed kind key (filter P m).
Proof. intros Hm. by apply (keyed_subset _ _ m), map_filter_subseteq. Qed.

Lemma keyed_delete kind key m k : keyed kind key m -> keyed kind key (delete k m).
Proof. intros Hm. by apply (keyed_subset _ _ m), delete_subseteq. Qed.

Lemma fold_insert_list (key : Bbdo.data -> K) (l : list (K * Bbdo.data)) (m : gmap K Bbdo.data) :
  Forall (fun p => key p.2 = p.1) l ->
  fold_left (fun m d => <[key d := d]> m) l.*2 m = list_to_map (rev l) ∪ m.
Proof.
  intros Hl. revert m. induction Hl as [|[k d] l Hk Hl IH]; intros m; cbn; [by rewrite map_empty_union|].
  rewrite IH. cbn in Hk. rewrite Hk. change (rev ((k, d) :: l)) with (rev l ++ [(k, d)]).
  rewrite list_to_map_app. cbn. rewrite <-map_union_assoc, insert_empty.
  by rewrite <-insert_union_singleton_l.
Qed.

(** The elements of a map, in any order, give the map back. *)
Lemma keyed_restores kind (key : Bbdo.data -> K) (m : gmap K Bbdo.data) l : keyed kind key m -> l ≡ₚ values_of m ->
  fold_left (fun m d => <[key d := d]> m) l ∅ = m.
Proof.
  intros Hm Hl. destruct (Permutation_map_inv _ _ Hl) as (l' & -> & Hp).
  change (map snd l') with (l'.*2). rewrite fold_insert_list.
  - rewrite map_union_empty, <-(list_to_map_to_list m). apply list_to_map_proper.
    + rewrite <-(Permutation_rev l'), <-Hp. apply NoDup_fst_map_to_list.
    + by rewrite <-(Permutation_rev l'), <-Hp.
  - apply Forall_forall. intros [k d] Hin. rewrite <-Hp in Hin. apply elem_of_map_to_list in Hin. by apply Hm in Hin as [_ ?].
Qed.

Lemma keyed_kind kind (key : Bbdo.data -> K) (m : gmap K Bbdo.data) l : keyed kind key m -> l ≡ₚ values_of m -> Forall kind l.
Proof.
  intros Hm Hl. rewrite Hl. unfold values_of. apply Forall_fmap, Forall_forall. intros [k d] Hin%elem_of_map_to_list.
  by apply Hm in Hin as [? _].
Qed.
End Containers.

(** Writing the elements of one container changes nothing else. *)
Lemma fold_container {C M : Type} (W : C -> Bbdo.data -> C) (kind : Bbdo.data -> Prop) (put : M -> C)
    (ins : M -> Bbdo.data -> M) l :
  (forall m d, kind d -> W (put m) d = put (ins m d)) ->
  Forall kind l -> forall m, fold_left W l (put m) = put (fold_left ins l m).
Proof. intros Hw Hl. induction Hl as [|d l Hd _ IH]; intros m; cbn; [done|]. by rewrite Hw. Qed.

Lemma restore_container {C K : Type} `{Countable K} (W : C -> Bbdo.data -> C) kind (key : Bbdo.data -> K)
    (put : gmap K Bbdo.data -> C) m l rest :
  keyed kind key m -> l ≡ₚ values_of m ->
  (forall m d, kind d -> W (put m) d = put (<[key d := d]> m)) ->
  fold_left W (l ++ rest) (put ∅) = fold_left W rest (put m).
Proof.
  intros Hm Hl Hw. rewrite fold_left_app, (fold_container W kind put _ l Hw (keyed_kind _ _ _ _ Hm Hl)).
  by rewrite (keyed_restores kind key m l Hm Hl).
Qed.

(** A test on closed types of events. *)
Ltac types :=
  repeat match goal with
  | |- context [Z.eqb ?a ?b] => let r := eval vm_compute in (Z.eqb a b) in
    match r with true => change (Z.eqb a b) with true | false => change (Z.eqb a b) with false end
  end.
End MacroCache.
