(* ===== verification/GraphiteCache.v ===== *)
(** * The cache of Graphite (graphite/src/macro_cache.cc)

    The cache of InfluxDB (influxdb/src/macro_cache.cc) is the same code with
    other messages, and is this model. *)

From Stdlib Require Import ZArith Lia ZifyNat ZifyBool Strings.Byte Strings.String.
From stdpp Require Import base option list numbers strings gmap.
From S2P Require Import Prelude Double Events Bbdo PersistentCache Mapping NebEvents StorageEvents MacroCache.

Module GraphiteCache.
Import Events Mapping PersistentCache MacroCache.
#[local] Open Scope Z_scope.

Section Cache.
Context (col_size : string -> string -> Z).

Record macro_cache : Type := Macro_cache {
  _instances : gmap Z Bbdo.data;
  _hosts : gmap Z Bbdo.data;
  _services : gmap (Z * Z) Bbdo.data;
  _index_mappings : gmap Z Bbdo.data;
  _metric_mappings : gmap Z Bbdo.data
}.

Definition no_event : macro_cache := Macro_cache ∅ ∅ ∅ ∅ ∅.

(** ** Lookups *)

Definition get_index_mapping (c : macro_cache) (id : Z) : outcome Bbdo.data := find (_index_mappings c) id.
Definition get_metric_mapping (c : macro_cache) (id : Z) : outcome Bbdo.data := find (_metric_mappings c) id.
Definition get_host_name (c : macro_cache) (id : Z) : outcome cstring :=
  found ← find (_hosts c) id; Returns (text (NebEvents.host_entries col_size) (Bbdo.fields found) "host_name").
Definition get_service_description (c : macro_cache) (host service : Z) : outcome cstring :=
  found ← find (_services c) (host, service);
  Returns (text (NebEvents.service_entries col_size) (Bbdo.fields found) "service_description").
Definition get_instance (c : macro_cache) (id : Z) : outcome cstring :=
  found ← find (_instances c) id; Returns (text (NebEvents.instance_entries col_size) (Bbdo.fields found) "name").

(** ** Events *)

Definition _process_instance (c : macro_cache) (d : Bbdo.data) : macro_cache :=
  Macro_cache (<[poller_id col_size d := d]> (_instances c)) (_hosts c) (_services c) (_index_mappings c) (_metric_mappings c).
Definition _process_host (c : macro_cache) (d : Bbdo.data) : macro_cache :=
  Macro_cache (_instances c) (<[host_id col_size d := d]> (_hosts c)) (_services c) (_index_mappings c) (_metric_mappings c).
Definition _process_service (c : macro_cache) (d : Bbdo.data) : macro_cache :=
  Macro_cache (_instances c) (_hosts c) (<[service_key col_size d := d]> (_services c)) (_index_mappings c) (_metric_mappings c).
Definition _process_index_mapping (c : macro_cache) (d : Bbdo.data) : macro_cache :=
  Macro_cache (_instances c) (_hosts c) (_services c) (<[index_id d := d]> (_index_mappings c)) (_metric_mappings c).
Definition _process_metric_mapping (c : macro_cache) (d : Bbdo.data) : macro_cache :=
  Macro_cache (_instances c) (_hosts c) (_services c) (_index_mappings c) (<[metric_id d := d]> (_metric_mappings c)).

Definition cache_write (c : macro_cache) (d : Bbdo.data) : macro_cache :=
  if Bbdo.type d =? neb_type NebEvents.de_instance then _process_instance c d
  else if Bbdo.type d =? neb_type NebEvents.de_host then _process_host c d
  else if Bbdo.type d =? neb_type NebEvents.de_service then _process_service c d
  else if Bbdo.type d =? storage_type StorageEvents.de_index_mapping then _process_index_mapping c d
  else if Bbdo.type d =? storage_type StorageEvents.de_metric_mapping then _process_metric_mapping c d
  else c.

(** The loops of _save_to_disk. *)
Definition cache_containers (c : macro_cache) : list (list Bbdo.data) :=
  [values_of (_instances c); values_of (_hosts c); values_of (_services c); values_of (_index_mappings c);
   values_of (_metric_mappings c)].

Instance macro_cache_ops : Cache macro_cache := {|
  empty := no_event; MacroCache.write := cache_write; containers := cache_containers
|}.

(** ** Its laws *)

Record cache_wf (c : macro_cache) : Prop := Cache_wf {
  wf_instances : keyed (of_type (neb_type NebEvents.de_instance)) (poller_id col_size) (_instances c);
  wf_hosts : keyed (of_type (neb_type NebEvents.de_host)) (host_id col_size) (_hosts c);
  wf_services : keyed (of_type (neb_type NebEvents.de_service)) (service_key col_size) (_services c);
  wf_index_mappings : keyed (of_type (storage_type StorageEvents.de_index_mapping)) index_id (_index_mappings c);
  wf_metric_mappings : keyed (of_type (storage_type StorageEvents.de_metric_mapping)) metric_id (_metric_mappings c)
}.

Lemma cache_write_wf c d : cache_wf c -> cache_wf (cache_write c d).
Proof.
  intros [Hi Hh Hs Hx Hm]. unfold cache_write.
  repeat match goal with |- context [if ?a =? ?b then _ else _] => destruct (Z.eqb_spec a b) end; split;
    cbn; auto using keyed_insert.
Qed.

Ltac writes := intros ? d Ht; unfold cache_write; rewrite (Ht : Bbdo.type d = _); types; reflexivity.

Lemma cache_restores c l : cache_wf c -> saved c l -> fold_left cache_write l no_event = c.
Proof.
  intros [Hi Hh Hs Hx Hm] (ls & Hp & ->). cbn [containers macro_cache_ops] in Hp. unfold cache_containers in Hp.
  repeat match goal with
  | H : Forall2 _ _ (_ :: _) |- _ => inversion H; clear H; subst
  | H : Forall2 _ _ [] |- _ => inversion H; clear H; subst
  end.
  cbn [concat]. unfold no_event.
  erewrite (restore_container _ _ _ (fun m => Macro_cache m ∅ ∅ ∅ ∅)); [|exact Hi|done|writes].
  erewrite (restore_container _ _ _ (fun m => Macro_cache _ m ∅ ∅ ∅)); [|exact Hh|done|writes].
  erewrite (restore_container _ _ _ (fun m => Macro_cache _ _ m ∅ ∅)); [|exact Hs|done|writes].
  erewrite (restore_container _ _ _ (fun m => Macro_cache _ _ _ m ∅)); [|exact Hx|done|writes].
  erewrite (restore_container _ _ _ (fun m => Macro_cache _ _ _ _ m)); [|exact Hm|done|writes].
  by destruct c.
Qed.

Instance macro_cache_laws : CacheLaws macro_cache.
Proof.
  refine {| same := eq; well_formed := cache_wf |}.
  - split; apply keyed_empty.
  - apply cache_write_wf.
  - apply cache_restores.
Defined.

(** Restarting the broker does not change what it knows. *)
Lemma cache_survives d runs c d' : processes d runs c d' -> new_file d = None ->
  c = fold_left cache_write (snd (_open d) ++ concat runs) no_event.
Proof. intros Hp Hn. by destruct (restarts d runs c d' Hp Hn). Qed.

(** ** Lines of events *)

(** The pollers, hosts and others that are known after these events; a null one
    brings nothing. *)
Definition known (c : macro_cache) (l : list (option Bbdo.data)) : macro_cache := fold_left cache_write (omap id l) c.

(** The line of each event, with what the cache knows when it comes. *)
Fixpoint event_lines (line : macro_cache -> Bbdo.data -> cstring) (c : macro_cache) (l : list (option Bbdo.data)) : list cstring :=
  match l with
  | [] => []
  | None :: l => [] :: event_lines line c l
  | Some d :: l => let c := cache_write c d in line c d :: event_lines line c l
  end.

Lemma known_snoc c l d : known c (l ++ [Some d]) = cache_write (known c l) d.
Proof. unfold known. by rewrite omap_app, fold_left_app. Qed.
Lemma known_null c l : known c (l ++ [None]) = known c l.
Proof. unfold known. rewrite omap_app. cbn. by rewrite app_nil_r. Qed.

Lemma event_lines_app line c a b : event_lines line c (a ++ b) = event_lines line c a ++ event_lines line (known c a) b.
Proof. revert c. induction a as [|[d|] a IH]; intros c; cbn; [done|by rewrite IH|by rewrite IH]. Qed.

Lemma length_event_lines line c l : length (event_lines line c l) = length l.
Proof. revert c. induction l as [|[d|] l IH]; intros c; cbn; by rewrite ?IH. Qed.

(** What is found is the last event on the object. *)
Lemma last_host_known c d : Bbdo.type d = neb_type NebEvents.de_host ->
  get_host_name (cache_write c d) (host_id col_size d) = Returns (text (NebEvents.host_entries col_size) (Bbdo.fields d) "host_name").
Proof. intros Ht. unfold cache_write. rewrite Ht. types. unfold get_host_name, find. cbn. by rewrite lookup_insert_eq. Qed.
End Cache.
End GraphiteCache.
