(* ===== verification/LuaCache.v ===== *)
(** * The cache of scripts (lua/src/macro_cache.cc)

    The cache behind the broker_cache object of Lua streams: besides what the
    cache of Graphite keeps, the groups and their members, the severities and the
    dimensions of business activities. An instance that starts again makes its
    hosts and services forgotten; when the cache is restored, the instances come
    first. *)

From Stdlib Require Import ZArith Lia ZifyNat ZifyBool Strings.Byte Strings.String.
From stdpp Require Import base option list numbers strings gmap.
From S2P Require Import Prelude Double Events Bbdo PersistentCache Splitter Mapping NebEvents BamEvents StorageEvents MacroCache.

Module LuaCache.
Import Events Mapping PersistentCache MacroCache.
#[local] Open Scope Z_scope.

(** atoi. *)
Definition atoi (s : cstring) : Z := i32 (Splitter.strtol s).1.

Section Cache.
Context (col_size : string -> string -> Z).

(** The multimap of relations is the list of its elements. *)
Record macro_cache : Type := Macro_cache {
  _instances : gmap Z Bbdo.data;
  _hosts : gmap Z Bbdo.data;
  _host_groups : gmap Z Bbdo.data;
  _host_group_members : gmap (Z * Z) Bbdo.data;
  _custom_vars : gmap (Z * Z) Bbdo.data;
  _services : gmap (Z * Z) Bbdo.data;
  _service_groups : gmap Z Bbdo.data;
  _service_group_members : gmap (Z * Z * Z) Bbdo.data;
  _index_mappings : gmap Z Bbdo.data;
  _metric_mappings : gmap Z Bbdo.data;
  _dimension_ba_events : gmap Z Bbdo.data;
  _dimension_ba_bv_relation_events : list Bbdo.data;
  _dimension_bv_events : gmap Z Bbdo.data
}.

Definition no_event : macro_cache := Macro_cache ∅ ∅ ∅ ∅ ∅ ∅ ∅ ∅ ∅ ∅ ∅ [] ∅.

Definition bam_type (de : BamEvents.data_element) : Z := make_type bam (BamEvents.element de).

(** Members of the events. *)
Definition host_poller_id (d : Bbdo.data) : Z := number (NebEvents.host_entries col_size) (Bbdo.fields d) "poller_id".
Definition host_group_id (d : Bbdo.data) : Z := number (NebEvents.host_group_entries col_size) (Bbdo.fields d) "id".
Definition host_group_enabled (d : Bbdo.data) : bool := flag (NebEvents.host_group_entries col_size) (Bbdo.fields d) "enabled".
Definition host_group_member_key (d : Bbdo.data) : Z * Z :=
  (number NebEvents.host_group_member_entries (Bbdo.fields d) "host_id",
   number NebEvents.host_group_member_entries (Bbdo.fields d) "group_id").
Definition host_group_member_enabled (d : Bbdo.data) : bool :=
  flag NebEvents.host_group_member_entries (Bbdo.fields d) "enabled".
Definition custom_variable_key (d : Bbdo.data) : Z * Z :=
  (number (NebEvents.custom_variable_entries col_size) (Bbdo.fields d) "host_id",
   number (NebEvents.custom_variable_entries col_size) (Bbdo.fields d) "service_id").
Definition custom_variable_name (d : Bbdo.data) : cstring :=
  text (NebEvents.custom_variable_entries col_size) (Bbdo.fields d) "name".
Definition custom_variable_value (d : Bbdo.data) : cstring :=
  text (NebEvents.custom_variable_entries col_size) (Bbdo.fields d) "value".
Definition service_group_id (d : Bbdo.data) : Z :=
  number (NebEvents.service_group_entries col_size) (Bbdo.fields d) "id".
Definition service_group_enabled (d : Bbdo.data) : bool :=
  flag (NebEvents.service_group_entries col_size) (Bbdo.fields d) "enabled".
Definition service_group_member_key (d : Bbdo.data) : Z * Z * Z :=
  (number NebEvents.service_group_member_entries (Bbdo.fields d) "host_id",
   number NebEvents.service_group_member_entries (Bbdo.fields d) "service_id",
   number NebEvents.service_group_member_entries (Bbdo.fields d) "group_id").
Definition service_group_member_enabled (d : Bbdo.data) : bool :=
  flag NebEvents.service_group_member_entries (Bbdo.fields d) "enabled".
Definition ba_id (d : Bbdo.data) : Z := number (BamEvents.dimension_ba_event_entries col_size) (Bbdo.fields d) "ba_id".
Definition bv_id (d : Bbdo.data) : Z := number (BamEvents.dimension_bv_event_entries col_size) (Bbdo.fields d) "bv_id".
Definition update_started (d : Bbdo.data) : bool :=
  flag BamEvents.dimension_truncate_table_signal_entries (Bbdo.fields d) "update_started".

(** ** Lookups *)

Definition get_index_mapping (c : macro_cache) (id : Z) : outcome Bbdo.data := find (_index_mappings c) id.
Definition get_metric_mapping (c : macro_cache) (id : Z) : outcome Bbdo.data := find (_metric_mappings c) id.
Definition get_service (c : macro_cache) (host service : Z) : outcome Bbdo.data := find (_services c) (host, service).
Definition get_host (c : macro_cache) (id : Z) : outcome Bbdo.data := find (_hosts c) id.
Definition get_host_name (c : macro_cache) (id : Z) : outcome cstring :=
  found ← find (_hosts c) id; Returns (text (NebEvents.host_entries col_size) (Bbdo.fields found) "host_name").
Definition get_severity (c : macro_cache) (host service : Z) : outcome Z :=
  found ← find (_custom_vars c) (host, service); Returns (atoi (custom_variable_value found)).

(** The same member of a service or, without service, of a host. *)
Definition service_or_host (c : macro_cache) (name : string) (host service : Z) : outcome cstring :=
  if negb (service =? 0) then
    found ← find (_services c) (host, service);
    Returns (text (NebEvents.service_entries col_size) (Bbdo.fields found) name)
  else
    found ← find (_hosts c) host;
    Returns (text (NebEvents.host_entries col_size) (Bbdo.fields found) name).
Definition get_notes_url (c : macro_cache) : Z -> Z -> outcome cstring := service_or_host c "notes_url".
Definition get_action_url (c : macro_cache) : Z -> Z -> outcome cstring := service_or_host c "action_url".
Definition get_notes (c : macro_cache) : Z -> Z -> outcome cstring := service_or_host c "notes".

Definition get_host_group_name (c : macro_cache) (id : Z) : outcome cstring :=
  found ← find (_host_groups c) id; Returns (text (NebEvents.host_group_entries col_size) (Bbdo.fields found) "name").
Definition get_service_description (c : macro_cache) (host service : Z) : outcome cstring :=
  found ← find (_services c) (host, service);
  Returns (text (NebEvents.service_entries col_size) (Bbdo.fields found) "service_description").
Definition get_service_group_name (c : macro_cache) (id : Z) : outcome cstring :=
  found ← find (_service_groups c) id;
  Returns (text (NebEvents.service_group_entries col_size) (Bbdo.fields found) "name").
Definition get_instance (c : macro_cache) (id : Z) : outcome cstring :=
  found ← find (_instances c) id; Returns (text (NebEvents.instance_entries col_size) (Bbdo.fields found) "name").
Definition get_dimension_ba_event (c : macro_cache) (id : Z) : outcome Bbdo.data := find (_dimension_ba_events c) id.
Definition get_dimension_bv_event (c : macro_cache) (id : Z) : outcome Bbdo.data := find (_dimension_bv_events c) id.

(** ** Events *)

Definition with_hosts (c : macro_cache) m : macro_cache :=
  Macro_cache (_instances c) m (_host_groups c) (_host_group_members c) (_custom_vars c) (_services c)
    (_service_groups c) (_service_group_members c) (_index_mappings c) (_metric_mappings c)
    (_dimension_ba_events c) (_dimension_ba_bv_relation_events c) (_dimension_bv_events c).
Definition with_host_groups (c : macro_cache) m : macro_cache :=
  Macro_cache (_instances c) (_hosts c) m (_host_group_members c) (_custom_vars c) (_services c)
    (_service_groups c) (_service_group_members c) (_index_mappings c) (_metric_mappings c)
    (_dimension_ba_events c) (_dimension_ba_bv_relation_events c) (_dimension_bv_events c).
Definition with_host_group_members (c : macro_cache) m : macro_cache :=
  Macro_cache (_instances c) (_hosts c) (_host_groups c) m (_custom_vars c) (_services c)
    (_service_groups c) (_service_group_members c) (_index_mappings c) (_metric_mappings c)
    (_dimension_ba_events c) (_dimension_ba_bv_relation_events c) (_dimension_bv_events c).
Definition with_custom_vars (c : macro_cache) m : macro_cache :=
  Macro_cache (_instances c) (_hosts c) (_host_groups c) (_host_group_members c) m (_services c)
    (_service_groups c) (_service_group_members c) (_index_mappings c) (_metric_mappings c)
    (_dimension_ba_events c) (_dimension_ba_bv_relation_events c) (_dimension_bv_events c).
Definition with_services (c : macro_cache) m : macro_cache :=
  Macro_cache (_instances c) (_hosts c) (_host_groups c) (_host_group_members c) (_custom_vars c) m
    (_service_groups c) (_service_group_members c) (_index_mappings c) (_metric_mappings c)
    (_dimension_ba_events c) (_dimension_ba_bv_relation_events c) (_dimension_bv_events c).
Definition with_service_groups (c : macro_cache) m : macro_cache :=
  Macro_cache (_instances c) (_hosts c) (_host_groups c) (_host_group_members c) (_custom_vars c) (_services c)
    m (_service_group_members c) (_index_mappings c) (_metric_mappings c)
    (_dimension_ba_events c) (_dimension_ba_bv_relation_events c) (_dimension_bv_events c).
Definition with_service_group_members (c : macro_cache) m : macro_cache :=
  Macro_cache (_instances c) (_hosts c) (_host_groups c) (_host_group_members c) (_custom_vars c) (_services c)
    (_service_groups c) m (_index_mappings c) (_metric_mappings c)
    (_dimension_ba_events c) (_dimension_ba_bv_relation_events c) (_dimension_bv_events c).
Definition with_index_mappings (c : macro_cache) m : macro_cache :=
  Macro_cache (_instances c) (_hosts c) (_host_groups c) (_host_group_members c) (_custom_vars c) (_services c)
    (_service_groups c) (_service_group_members c) m (_metric_mappings c)
    (_dimension_ba_events c) (_dimension_ba_bv_relation_events c) (_dimension_bv_events c).
Definition with_metric_mappings (c : macro_cache) m : macro_cache :=
  Macro_cache (_instances c) (_hosts c) (_host_groups c) (_host_group_members c) (_custom_vars c) (_services c)
    (_service_groups c) (_service_group_members c) (_index_mappings c) m
    (_dimension_ba_events c) (_dimension_ba_bv_relation_events c) (_dimension_bv_events c).
Definition with_instances (c : macro_cache) m : macro_cache :=
  Macro_cache m (_hosts c) (_host_groups c) (_host_group_members c) (_custom_vars c) (_services c)
    (_service_groups c) (_service_group_members c) (_index_mappings c) (_metric_mappings c)
    (_dimension_ba_events c) (_dimension_ba_bv_relation_events c) (_dimension_bv_events c).
Definition with_dimensions (c : macro_cache) bas relations bvs : macro_cache :=
  Macro_cache (_instances c) (_hosts c) (_host_groups c) (_host_group_members c) (_custom_vars c) (_services c)
    (_service_groups c) (_service_group_members c) (_index_mappings c) (_metric_mappings c)
    bas relations bvs.

(** The hosts of the poller are removed, then their places in groups and their
    services. *)
Definition _process_instance (c : macro_cache) (d : Bbdo.data) : macro_cache :=
  let poller := poller_id col_size d in
  let hosts_removed := host_id col_size <$> values_of (filter (fun p => host_poller_id p.2 = poller) (_hosts c)) in
  let c := with_hosts c (filter (fun p => host_poller_id p.2 <> poller) (_hosts c)) in
  let c := with_host_group_members c (filter (fun p => p.1.1 ∉ hosts_removed) (_host_group_members c)) in
  let c := with_services c (filter (fun p => (service_key col_size p.2).1 ∉ hosts_removed) (_services c)) in
  with_instances c (<[poller := d]> (_instances c)).

Definition _process_host (c : macro_cache) (d : Bbdo.data) : macro_cache :=
  with_hosts c (<[host_id col_size d := d]> (_hosts c)).
Definition _process_host_group (c : macro_cache) (d : Bbdo.data) : macro_cache :=
  if host_group_enabled d then with_host_groups c (<[host_group_id d := d]> (_host_groups c)) else c.
Definition _process_host_group_member (c : macro_cache) (d : Bbdo.data) : macro_cache :=
  if host_group_member_enabled d then
    with_host_group_members c (<[host_group_member_key d := d]> (_host_group_members c))
  else with_host_group_members c (delete (host_group_member_key d) (_host_group_members c)).
Definition _process_service (c : macro_cache) (d : Bbdo.data) : macro_cache :=
  with_services c (<[service_key col_size d := d]> (_services c)).
Definition _process_service_group (c : macro_cache) (d : Bbdo.data) : macro_cache :=
  if service_group_enabled d then with_service_groups c (<[service_group_id d := d]> (_service_groups c)) else c.
Definition _process_service_group_member (c : macro_cache) (d : Bbdo.data) : macro_cache :=
  if service_group_member_enabled d then
    with_service_group_members c (<[service_group_member_key d := d]> (_service_group_members c))
  else with_service_group_members c (delete (service_group_member_key d) (_service_group_members c)).
Definition _process_index_mapping (c : macro_cache) (d : Bbdo.data) : macro_cache :=
  with_index_mappings c (<[index_id d := d]> (_index_mappings c)).
Definition _process_metric_mapping (c : macro_cache) (d : Bbdo.data) : macro_cache :=
  with_metric_mappings c (<[metric_id d := d]> (_metric_mappings c)).
Definition _process_dimension_ba_event (c : macro_cache) (d : Bbdo.data) : macro_cache :=
  with_dimensions c (<[ba_id d := d]> (_dimension_ba_events c)) (_dimension_ba_bv_relation_events c) (_dimension_bv_events c).
Definition _process_dimension_ba_bv_relation_event (c : macro_cache) (d : Bbdo.data) : macro_cache :=
  with_dimensions c (_dimension_ba_events c) (_dimension_ba_bv_relation_events c ++ [d]) (_dimension_bv_events c).
Definition _process_dimension_bv_event (c : macro_cache) (d : Bbdo.data) : macro_cache :=
  with_dimensions c (_dimension_ba_events c) (_dimension_ba_bv_relation_events c) (<[bv_id d := d]> (_dimension_bv_events c)).
Definition _process_dimension_truncate_table_signal (c : macro_cache) (d : Bbdo.data) : macro_cache :=
  if update_started d then with_dimensions c ∅ [] ∅ else c.
Definition _process_custom_variable (c : macro_cache) (d : Bbdo.data) : macro_cache :=
  if cstring_eqb (custom_variable_name d) (str "CRITICALITY_LEVEL") then
    if negb (atoi (custom_variable_value d) =? 0) then
      with_custom_vars c (<[custom_variable_key d := d]> (_custom_vars c))
    else c
  else c.

Definition cache_write (c : macro_cache) (d : Bbdo.data) : macro_cache :=
  let ty := Bbdo.type d in
  if ty =? neb_type NebEvents.de_instance then _process_instance c d
  else if ty =? neb_type NebEvents.de_host then _process_host c d
  else if ty =? neb_type NebEvents.de_host_group then _process_host_group c d
  else if ty =? neb_type NebEvents.de_host_group_member then _process_host_group_member c d
  else if ty =? neb_type NebEvents.de_service then _process_service c d
  else if ty =? neb_type NebEvents.de_service_group then _process_service_group c d
  else if ty =? neb_type NebEvents.de_service_group_member then _process_service_group_member c d
  else if ty =? neb_type NebEvents.de_custom_variable then _process_custom_variable c d
  else if ty =? storage_type StorageEvents.de_index_mapping then _process_index_mapping c d
  else if ty =? storage_type StorageEvents.de_metric_mapping then _process_metric_mapping c d
  else if ty =? bam_type BamEvents.de_dimension_ba_event then _process_dimension_ba_event c d
  else if ty =? bam_type BamEvents.de_dimension_ba_bv_relation_event then _process_dimension_ba_bv_relation_event c d
  else if ty =? bam_type BamEvents.de_dimension_bv_event then _process_dimension_bv_event c d
  else if ty =? bam_type BamEvents.de_dimension_truncate_table_signal then _process_dimension_truncate_table_signal c d
  else c.

(** The loops of _save_to_disk. *)
Definition cache_containers (c : macro_cache) : list (list Bbdo.data) :=
  [values_of (_instances c); values_of (_hosts c); values_of (_host_groups c); values_of (_host_group_members c);
   values_of (_services c); values_of (_service_groups c); values_of (_service_group_members c);
   values_of (_index_mappings c); values_of (_metric_mappings c); values_of (_dimension_ba_events c);
   _dimension_ba_bv_relation_events c; values_of (_dimension_bv_events c); values_of (_custom_vars c)].

Instance macro_cache_ops : Cache macro_cache := {|
  empty := no_event; MacroCache.write := cache_write; containers := cache_containers
|}.

(** ** Its laws *)

Lemma fold_snoc {A} (l l' : list A) : fold_left (fun r d => r ++ [d]) l l' = l' ++ l.
Proof. revert l'. induction l as [|x l IH]; intros l'; cbn; [by rewrite app_nil_r|]. by rewrite IH, <-app_assoc. Qed.


Record cache_wf (c : macro_cache) : Prop := Cache_wf {
  wf_instances : keyed (of_type (neb_type NebEvents.de_instance)) (poller_id col_size) (_instances c);
  wf_hosts : keyed (of_type (neb_type NebEvents.de_host)) (host_id col_size) (_hosts c);
  wf_host_groups : keyed (fun d => of_type (neb_type NebEvents.de_host_group) d /\ host_group_enabled d = true)
    host_group_id (_host_groups c);
  wf_host_group_members :
    keyed (fun d => of_type (neb_type NebEvents.de_host_group_member) d /\ host_group_member_enabled d = true)
      host_group_member_key (_host_group_members c);
  wf_custom_vars :
    keyed (fun d => of_type (neb_type NebEvents.de_custom_variable) d
        /\ cstring_eqb (custom_variable_name d) (str "CRITICALITY_LEVEL") = true
        /\ negb (atoi (custom_variable_value d) =? 0) = true)
      custom_variable_key (_custom_vars c);
  wf_services : keyed (of_type (neb_type NebEvents.de_service)) (service_key col_size) (_services c);
  wf_service_groups : keyed (fun d => of_type (neb_type NebEvents.de_service_group) d /\ service_group_enabled d = true)
    service_group_id (_service_groups c);
  wf_service_group_members :
    keyed (fun d => of_type (neb_type NebEvents.de_service_group_member) d /\ service_group_member_enabled d = true)
      service_group_member_key (_service_group_members c);
  wf_index_mappings : keyed (of_type (storage_type StorageEvents.de_index_mapping)) index_id (_index_mappings c);
  wf_metric_mappings : keyed (of_type (storage_type StorageEvents.de_metric_mapping)) metric_id (_metric_mappings c);
  wf_dimension_ba_events : keyed (of_type (bam_type BamEvents.de_dimension_ba_event)) ba_id (_dimension_ba_events c);
  wf_relations : Forall (of_type (bam_type BamEvents.de_dimension_ba_bv_relation_event)) (_dimension_ba_bv_relation_events c);
  wf_dimension_bv_events : keyed (of_type (bam_type BamEvents.de_dimension_bv_event)) bv_id (_dimension_bv_events c)
}.

Lemma no_event_wf : cache_wf no_event.
Proof. split; try apply keyed_empty. constructor. Qed.

Lemma lua_write_wf c d : cache_wf c -> cache_wf (cache_write c d).
Proof.
  intros [? ? ? ? ? ? ? ? ? ? ? Hr ?]. unfold cache_write, _process_instance, _process_host_group, _process_host_group_member,
    _process_service_group, _process_service_group_member, _process_custom_variable, _process_dimension_truncate_table_signal.
  repeat match goal with
  | |- context [if ?a =? ?b then _ else _] => destruct (Z.eqb_spec a b)
  | |- context [if ?b then _ else _] => destruct b eqn:?
  end; split; cbn; try done;
    try (apply Forall_app; split; [done|by constructor]);
    eauto using keyed_insert, keyed_filter, keyed_delete, keyed_empty.
Qed.

Lemma fold_cache_wf events : cache_wf (fold_left cache_write events no_event).
Proof. apply fold_left_inv; [apply lua_write_wf|apply no_event_wf]. Qed.

(** Caches that differ by the order of the relations only. *)
Definition same_cache (c c' : macro_cache) : Prop :=
  c' = with_dimensions c (_dimension_ba_events c) (_dimension_ba_bv_relation_events c') (_dimension_bv_events c)
  /\ _dimension_ba_bv_relation_events c ≡ₚ _dimension_ba_bv_relation_events c'.

Instance same_cache_equiv : Equivalence same_cache.
Proof.
  split.
  - intros []. by split.
  - intros c c' [E Hp]. split; [|done]. rewrite E. by destruct c.
  - intros c c' c'' [E Hp] [E' Hp']. split; [|by etrans]. rewrite E', E. by destruct c.
Qed.

Instance cache_write_same : Proper (same_cache ==> eq ==> same_cache) cache_write.
Proof.
  intros c c' [-> Hp] d ? <-. cbn in Hp. set (r := _dimension_ba_bv_relation_events c') in *. clearbody r.
  unfold cache_write, _process_host_group, _process_host_group_member, _process_service_group,
    _process_service_group_member, _process_custom_variable, _process_dimension_truncate_table_signal.
  repeat match goal with |- context [if ?b then _ else _] => destruct b end; split; cbn; try done.
  by rewrite Hp.
Qed.

Ltac writes :=
  intros ? d Ht; cbv beta in Ht; repeat match goal with H : _ /\ _ |- _ => destruct H end;
  unfold cache_write; match goal with H : of_type _ d |- _ => rewrite (H : Bbdo.type d = _) end; types; cbv beta iota zeta;
  unfold _process_host_group, _process_host_group_member, _process_custom_variable, _process_service_group,
    _process_service_group_member;
  repeat match goal with H : _ = true |- _ => rewrite H; clear H end; reflexivity.

Lemma write_instance m d : of_type (neb_type NebEvents.de_instance) d ->
  cache_write (Macro_cache m ∅ ∅ ∅ ∅ ∅ ∅ ∅ ∅ ∅ ∅ [] ∅) d = Macro_cache (<[poller_id col_size d := d]> m) ∅ ∅ ∅ ∅ ∅ ∅ ∅ ∅ ∅ ∅ [] ∅.
Proof.
  intros Ht. unfold cache_write. rewrite (Ht : Bbdo.type d = _). types. cbv beta iota zeta.
  unfold _process_instance, with_instances, with_services, with_host_group_members, with_hosts. cbn. by rewrite !map_filter_empty.
Qed.

Lemma lua_restores c l : cache_wf c -> saved c l -> same_cache (fold_left cache_write l no_event) c.
Proof.
  intros [Hi Hh Hg Hgm Hv Hs Hsg Hsm Hx Hm Ha Hr Hb] (ls & Hp & ->). cbn [containers macro_cache_ops] in Hp. unfold cache_containers in Hp.
  repeat match goal with
  | H : Forall2 _ _ (_ :: _) |- _ => inversion H; clear H; subst
  | H : Forall2 _ _ [] |- _ => inversion H; clear H; subst
  end.
  cbn [concat]. unfold no_event.
  erewrite (restore_container _ _ _ (fun m => Macro_cache m ∅ ∅ ∅ ∅ ∅ ∅ ∅ ∅ ∅ ∅ [] ∅)); [|exact Hi|done|intros; by apply write_instance].
  erewrite (restore_container _ _ _ (fun m => Macro_cache _ m ∅ ∅ ∅ ∅ ∅ ∅ ∅ ∅ ∅ [] ∅)); [|exact Hh|done|writes].
  erewrite (restore_container _ _ _ (fun m => Macro_cache _ _ m ∅ ∅ ∅ ∅ ∅ ∅ ∅ ∅ [] ∅)); [|exact Hg|done|writes].
  erewrite (restore_container _ _ _ (fun m => Macro_cache _ _ _ m ∅ ∅ ∅ ∅ ∅ ∅ ∅ [] ∅)); [|exact Hgm|done|writes].
  erewrite (restore_container _ _ _ (fun m => Macro_cache _ _ _ _ ∅ m ∅ ∅ ∅ ∅ ∅ [] ∅)); [|exact Hs|done|writes].
  erewrite (restore_container _ _ _ (fun m => Macro_cache _ _ _ _ ∅ _ m ∅ ∅ ∅ ∅ [] ∅)); [|exact Hsg|done|writes].
  erewrite (restore_container _ _ _ (fun m => Macro_cache _ _ _ _ ∅ _ _ m ∅ ∅ ∅ [] ∅)); [|exact Hsm|done|writes].
  erewrite (restore_container _ _ _ (fun m => Macro_cache _ _ _ _ ∅ _ _ _ m ∅ ∅ [] ∅)); [|exact Hx|done|writes].
  erewrite (restore_container _ _ _ (fun m => Macro_cache _ _ _ _ ∅ _ _ _ _ m ∅ [] ∅)); [|exact Hm|done|writes].
  erewrite (restore_container _ _ _ (fun m => Macro_cache _ _ _ _ ∅ _ _ _ _ _ m [] ∅)); [|exact Ha|done|writes].
  match goal with H : ?x ≡ₚ _dimension_ba_bv_relation_events c |- _ => rename H into Hrel, x into relations end.
  rewrite fold_left_app.
  erewrite (fold_container cache_write (of_type (bam_type BamEvents.de_dimension_ba_bv_relation_event))
             (fun r => Macro_cache _ _ _ _ ∅ _ _ _ _ _ _ r ∅) (fun r d => r ++ [d])); [|writes|by rewrite Hrel].
  rewrite fold_snoc.
  erewrite (restore_container _ _ _ (fun m => Macro_cache _ _ _ _ ∅ _ _ _ _ _ _ _ m)); [|exact Hb|done|writes].
  erewrite (restore_container _ _ _ (fun m => Macro_cache _ _ _ _ m _ _ _ _ _ _ _ _)); [|exact Hv|done|writes].
  split; [by destruct c|done].
Qed.

Instance macro_cache_laws : CacheLaws macro_cache.
Proof.
  refine {| same := same_cache; well_formed := cache_wf |}.
  - apply no_event_wf.
  - apply lua_write_wf.
  - apply lua_restores.
Defined.

(** C31. Restarts of the broker do not change what scripts can ask: however many
    times the cache was saved, its containers in whatever order, and restored, it
    answers like one that got all the events of all the processes. *)
Theorem restarts_do_not_show d runs c d' : processes d runs c d' -> new_file d = None ->
  same_cache c (fold_left cache_write (snd (_open d) ++ concat runs) no_event).
Proof. intros Hp Hn. by destruct (restarts d runs c d' Hp Hn). Qed.

(** ** Hosts *)

(** The events after which the host of event [d] is not what it said. *)
Definition supersedes (d e : Bbdo.data) : Prop :=
  (of_type (neb_type NebEvents.de_host) e /\ host_id col_size e = host_id col_size d)
  \/ (of_type (neb_type NebEvents.de_instance) e /\ poller_id col_size e = host_poller_id d).

Lemma write_host_lookup c e id d : cache_wf c ->
  _hosts (cache_write c e) !! id = Some d <->
  (of_type (neb_type NebEvents.de_host) e /\ host_id col_size e = id /\ d = e)
  \/ (_hosts c !! id = Some d /\ ~ supersedes d e).
Proof.
  intros Hwf. unfold supersedes, of_type.
  destruct (decide (Bbdo.type e = neb_type NebEvents.de_host)) as [Hh|Hh].
  { unfold cache_write. rewrite Hh. types. cbn.
    destruct (decide (host_id col_size e = id)) as [<-|Hne].
    - rewrite lookup_insert_eq. split; [intros [= <-]; by left|].
      intros [(_ & _ & ->)|[Hd Hn]]; [done|]. destruct Hn. left. apply (wf_hosts _ Hwf) in Hd as [_ ?]. by split.
    - rewrite lookup_insert_ne by done. split.
      + intros Hd. right. split; [done|]. pose proof (wf_hosts _ Hwf _ _ Hd) as [_ Hk].
        intros [[_ He]|[He _]]; [congruence|done].
      + intros [(_ & ? & _)|[? _]]; done. }
  destruct (decide (Bbdo.type e = neb_type NebEvents.de_instance)) as [Hi|Hi].
  { unfold cache_write. rewrite Hi. types. cbn. rewrite map_lookup_filter_Some. split.
    - intros [Hd Hp]. right. split; [done|]. intros [[? _]|[_ He]]; [done|]. by destruct Hp.
    - intros [(? & _)|[Hd Hn]]; [done|]. split; [done|]. intros He. destruct Hn. right. by split. }
  assert (Hs : _hosts (cache_write c e) = _hosts c).
  { unfold cache_write, _process_host_group, _process_host_group_member, _process_service_group,
      _process_service_group_member, _process_custom_variable, _process_dimension_truncate_table_signal.
    rewrite !(proj2 (Z.eqb_neq _ _)) by done.
    repeat match goal with |- context [if ?b then _ else _] => destruct b end; done. }
  rewrite Hs. split; [intros Hd; right; split; [done|]; by intros [[? _]|[? _]]|by intros [(? & _)|[? _]]].
Qed.

Lemma find_Returns {K} `{Countable K} (m : gmap K Bbdo.data) k d : find m k = Returns d <-> m !! k = Some d.
Proof. unfold find. destruct (m !! k); split; congruence. Qed.

(** A host is known to scripts exactly when, since its last event, its poller
    has not started again: no instance of its poller came after, nor another
    event for it. *)
Theorem host_known events id d :
  get_host (fold_left cache_write events no_event) id = Returns d <->
  exists before after, events = before ++ d :: after /\ of_type (neb_type NebEvents.de_host) d
    /\ host_id col_size d = id /\ Forall (fun e => ~ supersedes d e) after.
Proof.
  unfold get_host. rewrite find_Returns. induction events as [|e events IH] using rev_ind.
  { split; [done|]. intros ([] & ? & ? & _); done. }
  rewrite fold_left_app. cbn [fold_left]. rewrite write_host_lookup by apply fold_cache_wf.
  rewrite IH. split.
  - intros [(Ht & Hk & ->)|[(before & after & -> & Ht & Hk & Hn) He]].
    + exists events, []. by rewrite Forall_nil.
    + exists before, (after ++ [e]). rewrite Forall_app, Forall_singleton, <-app_assoc. done.
  - intros (before & after & E & Ht & Hk & Hn). destruct after as [|e' after _] using rev_ind.
    + apply app_inj_tail in E as [-> ->]. by left.
    + apply Forall_app in Hn as [Hn He]. rewrite Forall_singleton in He. rewrite app_comm_cons, app_assoc in E.
      apply app_inj_tail in E as [-> ->]. right. split; [|done]. by exists before, after.
Qed.

(** Severities: a level that is set back to zero is still the one that is found. *)
Lemma severity_sticks c d : Bbdo.type d = neb_type NebEvents.de_custom_variable ->
  atoi (custom_variable_value d) = 0 -> cache_write c d = c.
Proof.
  intros Ht Hz. unfold cache_write. rewrite Ht. types. cbv beta iota zeta. unfold _process_custom_variable. rewrite Hz.
  by destruct (cstring_eqb _ _).
Qed.

(** A group that is disabled stays. *)
Lemma disabled_group_stays c d : Bbdo.type d = neb_type NebEvents.de_service_group ->
  service_group_enabled d = false -> cache_write c d = c.
Proof. intros Ht Hz. unfold cache_write. rewrite Ht. types. cbv beta iota zeta. unfold _process_service_group. by rewrite Hz. Qed.

(** When a poller starts again, its hosts are forgotten with their services and
    their places in host groups, but not the places of their services in service
    groups. *)
Lemma instance_forgets c d : Bbdo.type d = neb_type NebEvents.de_instance ->
  let c' := cache_write c d in
  (forall id h, cache_wf c -> _hosts c !! id = Some h -> host_poller_id h = poller_id col_size d ->
    _hosts c' !! id = None /\ (forall s, _services c' !! (id, s) = None)
    /\ (forall g, _host_group_members c' !! (id, g) = None))
  /\ _service_group_members c' = _service_group_members c.
Proof.
  intros Ht. unfold cache_write. rewrite Ht. types. cbn. split; [|done]. intros id h Hwf Hh Hp.
  assert (Hin : id ∈ host_id col_size <$> values_of (filter (fun p => host_poller_id p.2 = poller_id col_size d) (_hosts c))).
  { apply list_elem_of_fmap. exists h. split; [by apply (wf_hosts _ Hwf) in Hh as [_ <-]|].
    unfold values_of. apply list_elem_of_fmap. exists (id, h). split; [done|].
    by apply elem_of_map_to_list, map_lookup_filter_Some. }
  split; [|split].
  - apply map_lookup_filter_None. right. intros h' Hh'. rewrite Hh in Hh'. injection Hh' as <-. cbn. by intros [].
  - intros s. apply map_lookup_filter_None. right. intros e He Hn. apply Hn.
    apply (wf_services _ Hwf) in He as [_ Hk]. cbn [snd]. injection Hk as Hk _. cbn. by rewrite Hk.
  - intros g. apply map_lookup_filter_None. right. intros e _ Hn. by apply Hn.
Qed.
End Cache.

Lemma restarts_do_not_show_witness :
  let col_size := fun _ _ : string => 0 in
  let events := [Bbdo.Data (neb_type NebEvents.de_instance) 0 0 []; Bbdo.Data (neb_type NebEvents.de_host) 0 0 []] in
  exists c d', processes (H := macro_cache_ops col_size) (Files None None None) [events] c d'
    /\ same_cache c (fold_left (cache_write col_size) events no_event).
Proof.
  intros col_size events.
  destruct (process_exists (H := macro_cache_ops col_size) (Files None None None) events
    (fun c => concat (cache_containers c)) eq_refl saved_exists) as (c & d' & Hp).
  exists c, d'. split; [by apply one_process|].
  apply (restarts_do_not_show col_size (Files None None None) [events] c d'); [by apply one_process|done].
Defined.

End LuaCache.
