(* ===== verification/TextQuery.v ===== *)
(** * Texts of queries

    What the queries to Graphite (graphite/src/query.cc) and to InfluxDB
    (influxdb/src/line_protocol_query.cc) share: replacement in a text
    (core/inc/com/centreon/broker/misc/string.hh), and the loop that cuts a scheme
    in texts and macros between dollars, which both have. *)

From Stdlib Require Import ZArith Lia ZifyNat ZifyBool Strings.Byte Strings.String.
From stdpp Require Import base option list numbers strings.
From S2P Require Import Prelude.

Module TextQuery.

(** ** Replacement *)

(** std::string::find of a text. *)
Fixpoint find_str (old s : cstring) : option nat :=
  if cstring_eqb (take (length old) s) old then Some O
  else match s with [] => None | _ :: s => S <$> find_str old s end.

Definition find_str_from (old s : cstring) (pos : nat) : option nat :=
  if (pos <=? length s)%nat then (fun i => (pos + i)%nat) <$> find_str old (drop pos s) else None.

(** misc::string::replace; [fuel] bounds the number of occurrences. *)
Fixpoint replace_loop (fuel : nat) (str old_str new_str : cstring) (pos : nat) : outcome cstring :=
  match fuel with
  | O => Diverges
  | S fuel =>
    match find_str_from old_str str pos with
    | None => Returns str
    | Some pos =>
      replace_loop fuel (take pos str ++ new_str ++ drop (pos + length old_str) str) old_str new_str (pos + length new_str)
    end
  end.

Definition replace (str old_str new_str : cstring) : outcome cstring :=
  replace_loop (S (length str)) str old_str new_str 0.

(** Each occurrence of a character changed into a text, in one pass. *)
Definition subst (c : byte) (new s : cstring) : cstring :=
  concat ((fun x => if byte_eqb x c then new else [x]) <$> s).

Lemma subst_app c new a b : subst c new (a ++ b) = subst c new a ++ subst c new b.
Proof. unfold subst. by rewrite fmap_app, concat_app. Qed.

Lemma subst_plain c new s : forallb (fun x => negb (byte_eqb x c)) s = true -> subst c new s = s.
Proof.
  induction s as [|x s IH]; [done|]. cbn [forallb]. rewrite andb_true_iff, negb_true_iff. intros [Hx Hs].
  unfold subst in *. cbn. rewrite Hx. cbn. by rewrite IH.
Qed.

Lemma find_str_char c s : find_str [c] s = find_first_if (fun x => byte_eqb x c) s.
Proof.
  induction s as [|x s IH]; [done|]. cbn. rewrite <-IH. unfold cstring_eqb, byte_eqb.
  destruct (decide (x = c)) as [->|Hn].
  - by rewrite !bool_decide_true.
  - rewrite !bool_decide_false by congruence. done.
Qed.

Lemma replace_loop_spec fuel pre s c new :
  (length s < fuel)%nat ->
  replace_loop fuel (pre ++ s) [c] new (length pre) = Returns (pre ++ subst c new s).
Proof.
  revert pre s. induction fuel as [|fuel IH]; intros pre s Hf; [lia|]. cbn [replace_loop].
  unfold find_str_from. rewrite length_app, (proj2 (Nat.leb_le _ _)) by lia. rewrite drop_app_length, find_str_char.
  destruct (find_first_if _ s) as [i|] eqn:E; cbn [fmap option_fmap option_map].
  - destruct (find_first_if_split _ _ _ E) as (x & Hs & Hx & Hp). apply byte_eqb_eq in Hx as ->.
    pose proof (find_first_if_lt _ _ _ E) as Hi.
    change (length [c]) with 1%nat. rewrite <-(Nat.add_assoc (length pre) i 1), Nat.add_1_r, take_app_add, drop_app_add, app_assoc.
    replace (length pre + i + length new)%nat with (length ((pre ++ take i s) ++ new))
      by (rewrite !length_app, length_take; lia).
    rewrite IH by (rewrite length_drop; lia).
    rewrite Hs at 3. rewrite subst_app, (subst_plain c new (take i s)) by done.
    change (c :: drop (S i) s) with ([c] ++ drop (S i) s). rewrite subst_app.
    unfold subst at 3. cbn. rewrite byte_eqb_refl, app_nil_r, !app_assoc. done.
  - apply find_first_if_None in E. by rewrite subst_plain.
Qed.

(** Replacing a character ends, and changes each occurrence once. *)
Lemma replace_char s c new : replace s [c] new = Returns (subst c new s).
Proof. unfold replace. apply (replace_loop_spec _ [] s). lia. Qed.

(** ** Schemes *)

Definition dollar : byte := x24.

Section Scan.
Context {A : Type} (emit_string : A -> cstring -> A) (emit_macro : A -> cstring -> outcome A).

(** The loop of query::_compile_naming_scheme and of
    line_protocol_query::_compile_scheme, by positions in the scheme. *)
Fixpoint scan_loop (fuel : nat) (scheme : cstring) (found_macro end_macro : nat) (st : A) : outcome A :=
  match fuel with
  | O => Diverges
  | S fuel =>
    match find_from (byte_eqb dollar) scheme found_macro with
    | None =>
      let substr := drop end_macro scheme in
      Returns (if bool_decide (substr = []) then st else emit_string st substr)
    | Some found_macro =>
      let substr := substr scheme end_macro (found_macro - end_macro) in
      let st := if bool_decide (substr = []) then st else emit_string st substr in
      match find_from (byte_eqb dollar) scheme (found_macro + 1) with
      | None => Throws Exn_msg
      | Some end_macro =>
        st ← emit_macro st (Prelude.substr scheme found_macro (end_macro + 1 - found_macro));
        scan_loop fuel scheme (end_macro + 1) (end_macro + 1) st
      end
    end
  end.

Definition scan (scheme : cstring) (st : A) : outcome A := scan_loop (S (length scheme)) scheme 0 0 st.

(** The pieces of a scheme, in one pass: dollars open and close macros. *)
Inductive piece : Type := Literal (s : cstring) | Macro (name : cstring).

Fixpoint pieces (s cur : cstring) (in_macro : bool) : list piece * bool :=
  match s with
  | [] => if in_macro then ([], false) else ([Literal cur], true)
  | c :: s =>
    if byte_eqb dollar c then
      let '(l, closed) := pieces s [] (negb in_macro) in
      ((if in_macro then Macro cur else Literal cur) :: l, closed)
    else pieces s (cur ++ [c]) in_macro
  end.

Definition scheme_pieces (s : cstring) : list piece * bool := pieces s [] false.

Definition emit (st : A) (p : piece) : outcome A :=
  match p with
  | Literal s => Returns (if bool_decide (s = []) then st else emit_string st s)
  | Macro name => emit_macro st ([dollar] ++ name ++ [dollar])
  end.

Fixpoint emit_all (l : list piece) (st : A) : outcome A :=
  match l with [] => Returns st | p :: l => st ← emit st p; emit_all l st end.

Lemma pieces_run l s cur b : forallb (fun y => negb (byte_eqb dollar y)) l = true -> pieces (l ++ s) cur b = pieces s (cur ++ l) b.
Proof.
  revert cur. induction l as [|x l IH]; intros cur; [by rewrite app_nil_r|]. cbn [forallb app pieces].
  rewrite andb_true_iff, negb_true_iff. intros [-> Hl]. rewrite IH by done. by rewrite <-app_assoc.
Qed.

Lemma pieces_end l cur b : forallb (fun y => negb (byte_eqb dollar y)) l = true -> pieces l cur b = pieces [] (cur ++ l) b.
Proof. intros Hl. rewrite <-(pieces_run l [] cur b Hl). by rewrite app_nil_r. Qed.

Lemma take_drop_between {B} (a b c : list B) n k : k = length a -> n = length b -> take n (drop k (a ++ b ++ c)) = b.
Proof. intros -> ->. by rewrite drop_app_length, take_app_length. Qed.

Lemma find_from_app (P : byte -> bool) pre s : find_from P (pre ++ s) (length pre) = (fun i => (length pre + i)%nat) <$> find_first_if P s.
Proof. unfold find_from. by rewrite drop_app_length. Qed.

Lemma scan_loop_spec fuel pre s st :
  (length s < fuel)%nat ->
  scan_loop fuel (pre ++ s) (length pre) (length pre) st
  = (st ← emit_all (scheme_pieces s).1 st; if (scheme_pieces s).2 then Returns st else Throws Exn_msg).
Proof.
  revert pre s st. induction fuel as [|fuel IH]; intros pre s st Hf; [lia|]. cbn [scan_loop].
  unfold scheme_pieces. rewrite find_from_app. destruct (find_first_if _ s) as [i|] eqn:E; cbn [fmap option_fmap option_map].
  2: { apply find_first_if_None in E. rewrite drop_app_length.
       by rewrite (pieces_end s) by done. }
  destruct (find_first_if_split _ _ _ E) as (x & Hs & Hx & Hl). apply byte_eqb_eq in Hx as <-.
  pose proof (find_first_if_lt _ _ _ E) as Hi.
  replace (length pre + i - length pre)%nat with i by lia. unfold Prelude.substr. rewrite drop_app_length.
  set (l := take i s) in *. set (r := drop (S i) s) in *.
  assert (Hli : length l = i) by (unfold l; rewrite length_take; lia).
  assert (Hr : length s = (i + S (length r))%nat) by (rewrite Hs, length_app; cbn; lia).
  rewrite Hs. clearbody l r.
  rewrite (pieces_run l) by done. cbn [pieces app]. rewrite byte_eqb_refl. cbn [negb].
  replace (pre ++ l ++ dollar :: r) with ((pre ++ l ++ [dollar]) ++ r) by (by rewrite <-!app_assoc).
  replace (length pre + i + 1)%nat with (length (pre ++ l ++ [dollar])) by (rewrite !length_app; cbn; lia).
  rewrite find_from_app. destruct (find_first_if _ r) as [j|] eqn:E'; cbn [fmap option_fmap option_map].
  2: { apply find_first_if_None in E'. by rewrite (pieces_end r) by done. }
  destruct (find_first_if_split _ _ _ E') as (x & Hrs & Hx & Hm). apply byte_eqb_eq in Hx as <-.
  pose proof (find_first_if_lt _ _ _ E') as Hj.
  set (m := take j r) in *. set (r' := drop (S j) r) in *.
  assert (Hmj : length m = j) by (unfold m; rewrite length_take; lia).
  assert (Hr' : length r = (j + S (length r'))%nat) by (rewrite Hrs, length_app; cbn; lia).
  rewrite Hrs. clearbody m r'. rewrite (pieces_run m) by done. cbn [pieces app]. rewrite byte_eqb_refl. cbn [negb].
  destruct (pieces r' [] false) as [ps closed] eqn:Ep. cbn [fst snd emit_all emit mbind outcome_bind].
  set (pre' := pre ++ l ++ [dollar] ++ m ++ [dollar]).
  replace ((pre ++ l ++ [dollar]) ++ m ++ dollar :: r') with (pre' ++ r') by (unfold pre'; by rewrite <-!app_assoc).
  replace (length (pre ++ l ++ [dollar]) + j + 1)%nat with (length pre') by (unfold pre'; rewrite !length_app; cbn; lia).
  replace (take (length pre' - (length pre + i)) (drop (length pre + i) (pre' ++ r'))) with ([dollar] ++ m ++ [dollar]).
  2: { symmetry. replace (pre' ++ r') with ((pre ++ l) ++ ([dollar] ++ m ++ [dollar]) ++ r')
         by (unfold pre'; by rewrite <-!app_assoc).
       unfold pre'. apply take_drop_between; rewrite !length_app; cbn; lia. }
  destruct (emit_macro _ _) as [st'| |]; cbn [mbind outcome_bind]; [|done|done].
  rewrite IH by lia. unfold scheme_pieces. rewrite Ep. done.
Qed.

(** Scanning a scheme ends, and treats its pieces from left to right; an opened
    macro that is not closed is an error. *)
Lemma scan_spec s st :
  scan s st = (st ← emit_all (scheme_pieces s).1 st; if (scheme_pieces s).2 then Returns st else Throws Exn_msg).
Proof. unfold scan. apply (scan_loop_spec _ [] s). lia. Qed.

End Scan.
(** Analysis of a macro by its name. *)
Ltac macros :=
  repeat match goal with
  | |- context [cstring_eqb ?m (str ?n)] =>
    lazymatch m with
    | str _ => let r := eval vm_compute in (cstring_eqb m (str n)) in change (cstring_eqb m (str n)) with r
    | _ => let E := fresh "E" in destruct (cstring_eqb m (str n)) eqn:E; [apply bool_decide_eq_true in E; subst m|]
    end
  end.
End TextQuery.
