(* ===== verification/Graphite.v ===== *)
(** * Queries to Graphite (graphite/src/query.cc)

    The name of a metric comes from a scheme of texts and macros, compiled once
    into the list of the functions that write it. The names of hosts, services
    and pollers come from the cache of macros. *)

From Stdlib Require Import ZArith Lia ZifyNat ZifyBool Strings.Byte Strings.String Floats.SpecFloat.
From stdpp Require Import base option list numbers strings gmap.
From S2P Require Import Prelude Double Gprint Events Bbdo Ba Mapping StorageEvents MacroCache GraphiteCache TextQuery.

Module Graphite.
Import Events Mapping MacroCache GraphiteCache TextQuery.
#[local] Open Scope Z_scope.

Section Query.
Context (col_size : string -> string -> Z).

(** Members of storage::metric and storage::status. *)
Definition metric_number (d : Bbdo.data) (name : string) : Z :=
  number (StorageEvents.metric_entries col_size) (Bbdo.fields d) name.
Definition metric_name (d : Bbdo.data) : cstring := text (StorageEvents.metric_entries col_size) (Bbdo.fields d) "name".
Definition metric_value (d : Bbdo.data) : double :=
  match member (StorageEvents.metric_entries col_size) (Bbdo.fields d) "value" with Some (VDouble v) => v | _ => S754_nan end.
Definition status_number (d : Bbdo.data) (name : string) : Z := number StorageEvents.storage_status_entries (Bbdo.fields d) name.

Inductive data_type : Type := metric | status.
#[global] Instance data_type_eq_dec : EqDecision data_type.
Proof. solve_decision. Defined.

(** The members that write a part of the name; the first three are instances of
    the templates. *)
Inductive getter : Type :=
  | _get_metric_id | _get_source_id | _get_metric_name
  | _get_string | _get_dollar_sign | _get_index_id | _get_host | _get_host_id | _get_service | _get_service_id
  | _get_instance.

Record query : Type := Query {
  _compiled_naming_scheme : list cstring;
  _compiled_getters : list getter;
  _escape_string : cstring;
  _type : data_type
}.

(** ** Compilation *)

Definition push_getter (q : query) (g : getter) : query :=
  Query (_compiled_naming_scheme q) (_compiled_getters q ++ [g]) (_escape_string q) (_type q).

Definition push_string (q : query) (s : cstring) : query :=
  push_getter (Query (_compiled_naming_scheme q ++ [s]) (_compiled_getters q) (_escape_string q) (_type q)) _get_string.

Definition _throw_on_invalid (q : query) (macro_type : data_type) : outcome unit :=
  if bool_decide (macro_type <> _type q) then Throws Exn_msg else Returns tt.

Definition push_macro (q : query) (macro : cstring) : outcome query :=
  let this name := cstring_eqb macro (str name) in
  let q := if this "$$"%string then push_getter q _get_dollar_sign else q in
  if this "$METRICID$"%string then _ ← _throw_on_invalid q metric; Returns (push_getter q _get_metric_id)
  else if this "$INSTANCE$"%string then Returns (push_getter q _get_instance)
  else if this "$INSTANCEID$"%string then Returns (push_getter q _get_source_id)
  else if this "$HOST$"%string then Returns (push_getter q _get_host)
  else if this "$HOSTID$"%string then Returns (push_getter q _get_host_id)
  else if this "$SERVICE$"%string then Returns (push_getter q _get_service)
  else if this "$SERVICEID$"%string then Returns (push_getter q _get_service_id)
  else if this "$METRIC$"%string then _ ← _throw_on_invalid q metric; Returns (push_getter q _get_metric_name)
  else if this "$INDEXID$"%string then Returns (push_getter q _get_index_id)
  else Returns q.

Definition _compile_naming_scheme (q : query) (naming_scheme : cstring) : outcome query :=
  scan push_string push_macro naming_scheme q.

Definition new_query (naming_scheme escape_string : cstring) (type : data_type) : outcome query :=
  _compile_naming_scheme (Query [] [] escape_string type) naming_scheme.

(** ** Generation *)

(** The loop of _escape is that of misc::string::replace. *)
Definition _escape (q : query) (s : cstring) : outcome cstring := replace s [x2e] (_escape_string q).

Section Getters.
Context (q : query) (_cache : macro_cache) (d : Bbdo.data).

Definition index_of : outcome Z :=
  match _type q with
  | status => Returns (status_number d "index_id")
  | metric => found ← get_metric_mapping _cache (metric_number d "metric_id"); Returns (metric_index_id found)
  end.

Definition host_text : outcome cstring :=
  name ← match _type q with
         | status => index ← index_of; found ← get_index_mapping _cache index;
                     get_host_name col_size _cache (index_host_id found)
         | metric => get_host_name col_size _cache (metric_number d "host_id")
         end;
  _escape q name.

Definition host_id_text : outcome cstring :=
  match _type q with
  | status => index ← index_of; found ← get_index_mapping _cache index; Returns (Dbl.dec (index_host_id found))
  | metric => Returns (Dbl.dec (metric_number d "host_id"))
  end.

Definition service_text : outcome cstring :=
  name ← match _type q with
         | status => index ← index_of; stm ← get_index_mapping _cache index;
                     get_service_description col_size _cache (index_host_id stm) (index_service_id stm)
         | metric => get_service_description col_size _cache (metric_number d "host_id") (metric_number d "service_id")
         end;
  _escape q name.

Definition service_id_text : outcome cstring :=
  match _type q with
  | status => index ← index_of; found ← get_index_mapping _cache index; Returns (Dbl.dec (index_service_id found))
  | metric => Returns (Dbl.dec (metric_number d "service_id"))
  end.

Definition instance_text : outcome cstring :=
  name ← get_instance col_size _cache (Bbdo.source_id d); _escape q name.

(** What a getter writes, and _naming_scheme_index after it. *)
Definition call (g : getter) (index : nat) : outcome (cstring * nat) :=
  match g with
  | _get_metric_id => Returns (Dbl.dec (metric_number d "metric_id"), index)
  | _get_source_id => Returns (Dbl.dec (Bbdo.source_id d), index)
  | _get_metric_name => s ← _escape q (metric_name d); Returns (s, index)
  | _get_string =>
    match _compiled_naming_scheme q !! index with Some s => Returns (s, S index) | None => Diverges end
  | _get_dollar_sign => Returns (str "$", index)
  | _get_index_id => i ← index_of; Returns (Dbl.dec i, index)
  | _get_host => s ← host_text; Returns (s, index)
  | _get_host_id => s ← host_id_text; Returns (s, index)
  | _get_service => s ← service_text; Returns (s, index)
  | _get_service_id => s ← service_id_text; Returns (s, index)
  | _get_instance => s ← instance_text; Returns (s, index)
  end.

Fixpoint generate_loop (getters : list getter) (index : nat) (iss : cstring) : outcome cstring :=
  match getters with
  | [] => Returns iss
  | it :: getters =>
    r ← call it index; escaped ← replace r.1 [x20] (str "_"); generate_loop getters r.2 (iss ++ escaped)
  end.
End Getters.

(** An exception of a getter is logged, and nothing is generated. *)
Definition caught (o : outcome cstring) (rest : cstring) : outcome cstring :=
  match o with Returns iss => Returns (iss ++ rest) | Throws _ => Returns [] | Diverges => Diverges end.

Definition metric_rest (me : Bbdo.data) : cstring :=
  str " " ++ Gprint.print_g (metric_value me) ++ str " " ++ Ba.int_text (metric_number me "ctime") ++ [x0a].
Definition status_rest (st : Bbdo.data) : cstring :=
  str " " ++ Ba.int_text (status_number st "state") ++ str " " ++ Ba.int_text (status_number st "ctime") ++ [x0a].

Definition generate_metric (q : query) (_cache : macro_cache) (me : Bbdo.data) : outcome cstring :=
  if bool_decide (_type q <> metric) then Throws Exn_msg
  else caught (generate_loop q _cache me (_compiled_getters q) 0 []) (metric_rest me).

Definition generate_status (q : query) (_cache : macro_cache) (st : Bbdo.data) : outcome cstring :=
  if bool_decide (_type q <> status) then Throws Exn_msg
  else caught (generate_loop q _cache st (_compiled_getters q) 0 []) (status_rest st).

Definition generate (q : query) : macro_cache -> Bbdo.data -> outcome cstring :=
  match _type q with metric => generate_metric q | status => generate_status q end.

(** ** The text of a scheme *)

Definition escaped (esc s : cstring) : cstring := subst x2e esc s.

(** What a macro stands for, for a metric and for a status; an unknown one for
    nothing, one that has no sense for the type for [None]. *)
Definition metric_macro (esc : cstring) (c : macro_cache) (d : Bbdo.data) (macro : cstring) : option (outcome cstring) :=
  let this name := cstring_eqb macro (str name) in
  if this "$$"%string then Some (Returns (str "$"))
  else if this "$METRICID$"%string then Some (Returns (Dbl.dec (metric_number d "metric_id")))
  else if this "$INSTANCE$"%string then Some (escaped esc <$> get_instance col_size c (Bbdo.source_id d))
  else if this "$INSTANCEID$"%string then Some (Returns (Dbl.dec (Bbdo.source_id d)))
  else if this "$HOST$"%string then Some (escaped esc <$> get_host_name col_size c (metric_number d "host_id"))
  else if this "$HOSTID$"%string then Some (Returns (Dbl.dec (metric_number d "host_id")))
  else if this "$SERVICE$"%string then
    Some (escaped esc <$> get_service_description col_size c (metric_number d "host_id") (metric_number d "service_id"))
  else if this "$SERVICEID$"%string then Some (Returns (Dbl.dec (metric_number d "service_id")))
  else if this "$METRIC$"%string then Some (Returns (escaped esc (metric_name d)))
  else if this "$INDEXID$"%string then
    Some (Dbl.dec ∘ metric_index_id <$> get_metric_mapping c (metric_number d "metric_id"))
  else Some (Returns []).

Definition status_macro (esc : cstring) (c : macro_cache) (d : Bbdo.data) (macro : cstring) : option (outcome cstring) :=
  let this name := cstring_eqb macro (str name) in
  let index := get_index_mapping c (status_number d "index_id") in
  if this "$$"%string then Some (Returns (str "$"))
  else if this "$METRICID$"%string then None
  else if this "$INSTANCE$"%string then Some (escaped esc <$> get_instance col_size c (Bbdo.source_id d))
  else if this "$INSTANCEID$"%string then Some (Returns (Dbl.dec (Bbdo.source_id d)))
  else if this "$HOST$"%string then Some (escaped esc <$> (i ← index; get_host_name col_size c (index_host_id i)))
  else if this "$HOSTID$"%string then Some (Dbl.dec ∘ index_host_id <$> index)
  else if this "$SERVICE$"%string then
    Some (escaped esc <$> (i ← index; get_service_description col_size c (index_host_id i) (index_service_id i)))
  else if this "$SERVICEID$"%string then Some (Dbl.dec ∘ index_service_id <$> index)
  else if this "$METRIC$"%string then None
  else if this "$INDEXID$"%string then Some (Returns (Dbl.dec (status_number d "index_id")))
  else Some (Returns []).

Definition macro_text (t : data_type) : cstring -> macro_cache -> Bbdo.data -> cstring -> option (outcome cstring) :=
  match t with metric => metric_macro | status => status_macro end.

Definition piece_text (t : data_type) (esc : cstring) (c : macro_cache) (d : Bbdo.data) (p : piece) : option (outcome cstring) :=
  match p with
  | Literal s => Some (Returns s)
  | Macro name => macro_text t esc c d ([dollar] ++ name ++ [dollar])
  end.

(** The pieces one after the other; spaces become underscores in all of them. *)
Fixpoint expand (t : data_type) (esc : cstring) (c : macro_cache) (d : Bbdo.data) (l : list piece) : option (outcome cstring) :=
  match l with
  | [] => Some (Returns [])
  | p :: l =>
    o ← piece_text t esc c d p;
    rest ← expand t esc c d l;
    Some (s ← o; r ← rest; Returns (subst x20 (str "_") s ++ r))
  end.

Definition rest_of (t : data_type) : Bbdo.data -> cstring := match t with metric => metric_rest | status => status_rest end.

(** A scheme is an error when a macro is not closed or is not for this type;
    otherwise an event gives its line, or nothing when the cache lacks a name. *)
Definition reference (scheme esc : cstring) (t : data_type) (c : macro_cache) (d : Bbdo.data) : outcome cstring :=
  let '(l, closed) := scheme_pieces scheme in
  match expand t esc c d l with
  | Some o => if closed then Returns (match o with Returns s => s ++ rest_of t d | _ => [] end) else Throws Exn_msg
  | None => Throws Exn_msg
  end.

(** ** The compiled query writes the text of its scheme *)

Definition add (q : query) (strings : list cstring) (getters : list getter) : query :=
  Query (_compiled_naming_scheme q ++ strings) (_compiled_getters q ++ getters) (_escape_string q) (_type q).

Definition macro_getters (macro : cstring) : list getter :=
  let this name := cstring_eqb macro (str name) in
  if this "$$"%string then [_get_dollar_sign]
  else if this "$METRICID$"%string then [_get_metric_id]
  else if this "$INSTANCE$"%string then [_get_instance]
  else if this "$INSTANCEID$"%string then [_get_source_id]
  else if this "$HOST$"%string then [_get_host]
  else if this "$HOSTID$"%string then [_get_host_id]
  else if this "$SERVICE$"%string then [_get_service]
  else if this "$SERVICEID$"%string then [_get_service_id]
  else if this "$METRIC$"%string then [_get_metric_name]
  else if this "$INDEXID$"%string then [_get_index_id]
  else [].

Definition allowed (t : data_type) (macro : cstring) : bool :=
  match t with
  | metric => true
  | status => negb (cstring_eqb macro (str "$METRICID$")) && negb (cstring_eqb macro (str "$METRIC$"))
  end.

Lemma push_macro_spec q macro :
  push_macro q macro = if allowed (_type q) macro then Returns (add q [] (macro_getters macro)) else Throws Exn_msg.
Proof.
  assert (Ha : forall gs, add q [] gs = Query (_compiled_naming_scheme q) (_compiled_getters q ++ gs) (_escape_string q) (_type q)).
  { intros gs. unfold add. by rewrite app_nil_r. }
  unfold push_macro, macro_getters, allowed. rewrite Ha. unfold push_getter, _throw_on_invalid.
  macros; cbn [negb andb]; destruct q as [ss gs esc []]; cbn; by rewrite ?app_nil_r.
Qed.

Definition piece_getters (p : piece) : list getter :=
  match p with
  | Literal s => if bool_decide (s = []) then [] else [_get_string]
  | Macro name => macro_getters ([dollar] ++ name ++ [dollar])
  end.
Definition piece_strings (p : piece) : list cstring :=
  match p with Literal s => if bool_decide (s = []) then [] else [s] | Macro _ => [] end.
Definition piece_allowed (t : data_type) (p : piece) : bool :=
  match p with Literal _ => true | Macro name => allowed t ([dollar] ++ name ++ [dollar]) end.

Lemma emit_spec q p : emit push_string push_macro q p
  = if piece_allowed (_type q) p then Returns (add q (piece_strings p) (piece_getters p)) else Throws Exn_msg.
Proof.
  destruct p as [s|name]; cbn [emit]; [|apply push_macro_spec].
  cbn [piece_allowed piece_strings piece_getters]. unfold add. case_bool_decide; [|done]. destruct q. cbn. by rewrite !app_nil_r.
Qed.

Lemma emit_all_spec l q : emit_all push_string push_macro l q
  = if forallb (piece_allowed (_type q)) l then Returns (add q (l ≫= piece_strings) (l ≫= piece_getters)) else Throws Exn_msg.
Proof.
  revert q. induction l as [|p l IH]; intros q; cbn [emit_all forallb].
  - unfold add. destruct q. cbn. by rewrite !app_nil_r.
  - rewrite emit_spec. destruct (piece_allowed _ p); [|done]. cbn [mbind outcome_bind andb]. rewrite IH.
    rewrite !bind_cons. unfold add. cbn [_compiled_naming_scheme _compiled_getters _escape_string _type].
    by rewrite <-!app_assoc.
Qed.

Definition spaced : cstring -> cstring := subst x20 (str "_").

Lemma piece_allowed_text t esc c d p : piece_allowed t p = true <-> is_Some (piece_text t esc c d p).
Proof.
  destruct p as [s|name]; [split; [by eexists|done]|]. cbn [piece_allowed piece_text].
  generalize ([dollar] ++ name ++ [dollar]). intros macro. destruct t; cbn [allowed macro_text]; unfold metric_macro, status_macro; macros; cbn [negb andb];
    split; intros Hx; first [done | by eexists | by destruct Hx].
Qed.

Lemma expand_is_Some t esc c d l : is_Some (expand t esc c d l) <-> forallb (piece_allowed t) l = true.
Proof.
  induction l as [|p l IH]; cbn [expand forallb]; [split; [done|by eexists]|].
  rewrite andb_true_iff, <-IH, (piece_allowed_text t esc c d). split.
  - intros [x Hx]. destruct (piece_text t esc c d p); [|done]. cbn in Hx. destruct (expand t esc c d l); [|done]. by split; eexists.
  - intros [[x ->] [y ->]]. by eexists.
Qed.

Lemma escape_spec q s : _escape q s = Returns (escaped (_escape_string q) s).
Proof. apply replace_char. Qed.

(** Analysis of the innermost outcomes. *)
Ltac plain x := lazymatch x with mbind _ _ => fail | fmap _ _ => fail | Returns _ => fail | _ => idtac end.
Ltac outcomes :=
  repeat first [ rewrite escape_spec
               | progress cbn [mbind outcome_bind fmap outcome_fmap compose]
               | match goal with
                 | |- context [mbind _ ?x] => plain x; destruct x eqn:?
                 | |- context [fmap _ ?x] => plain x; destruct x eqn:?
                 end ].

(** The getter of a macro writes its text. *)
Lemma macro_calls q c d macro o : macro_text (_type q) (_escape_string q) c d macro = Some o ->
  (macro_getters macro = [] /\ o = Returns [])
  \/ exists g, macro_getters macro = [g] /\ forall index, call q c d g index = (fun s => (s, index)) <$> o.
Proof.
  intros Ho.
  destruct (decide (macro_getters macro = [])) as [Hg|Hg].
  { left. split; [done|]. revert Ho Hg. unfold macro_getters, macro_text.
    destruct (_type q); unfold metric_macro, status_macro; macros; try discriminate; by intros [= <-]. }
  right. revert Ho Hg. unfold macro_getters, macro_text.
  destruct (_type q) eqn:Et; unfold metric_macro, status_macro; macros; intros [= <-] Hg; try done; eexists; (split; [reflexivity|]);
    intros index; unfold call, host_text, host_id_text, service_text, service_id_text, instance_text, index_of; rewrite ?Et;
    outcomes; reflexivity.
Qed.

(** The getters of a piece write its text. *)
Lemma piece_calls q c d p o index gs iss :
  piece_text (_type q) (_escape_string q) c d p = Some o ->
  (forall s, piece_strings p = [s] -> _compiled_naming_scheme q !! index = Some s) ->
  generate_loop q c d (piece_getters p ++ gs) index iss
  = s ← o; generate_loop q c d gs (index + length (piece_strings p)) (iss ++ spaced s).
Proof.
  intros Ho Hs. destruct p as [s|name]; cbn [piece_getters piece_strings piece_text] in *.
  { injection Ho as <-. cbn [mbind outcome_bind]. case_bool_decide as Hd.
    - subst s. cbn [app length]. unfold spaced, subst. cbn. by rewrite app_nil_r, Nat.add_0_r.
    - cbn [app generate_loop call length]. rewrite (Hs s eq_refl). cbn [mbind outcome_bind fst snd].
      rewrite replace_char. cbn [mbind outcome_bind]. by rewrite Nat.add_1_r. }
  cbn [length]. rewrite Nat.add_0_r. destruct (macro_calls _ _ _ _ _ Ho) as [[-> ->]|(g & -> & Hg)].
  - cbn [app mbind outcome_bind]. unfold spaced, subst. cbn. by rewrite app_nil_r.
  - cbn [app generate_loop]. rewrite Hg. destruct o as [s| |]; cbn [fmap outcome_fmap mbind outcome_bind fst snd]; [|done|done].
    by rewrite replace_char.
Qed.

(** So do those of all pieces. *)
Lemma pieces_call q c d l o pre iss :
  expand (_type q) (_escape_string q) c d l = Some o ->
  _compiled_naming_scheme q = pre ++ (l ≫= piece_strings) ->
  generate_loop q c d (l ≫= piece_getters) (length pre) iss = s ← o; Returns (iss ++ s).
Proof.
  revert o pre iss. induction l as [|p l IH]; intros o pre iss Ho Hq; cbn [expand] in Ho.
  { injection Ho as <-. cbn. by rewrite app_nil_r. }
  destruct (piece_text _ _ c d p) as [o1|] eqn:E1; [|done]. cbn [mbind option_bind] in Ho.
  destruct (expand _ _ c d l) as [o2|] eqn:E2; [|done]. injection Ho as <-.
  rewrite !bind_cons in *. erewrite piece_calls; [|done|].
  2: { intros s Es. rewrite Hq, Es. by apply list_lookup_middle. }
  destruct o1 as [s| |]; cbn [mbind outcome_bind]; [|done|done].
  rewrite <-length_app. erewrite IH; [|done|by rewrite Hq, <-app_assoc].
  destruct o2; cbn [mbind outcome_bind]; [|done|done]. by rewrite <-app_assoc.
Qed.

Lemma fmap_ends {A B} (f : A -> B) o : o <> Diverges -> f <$> o <> Diverges.
Proof. by destruct o. Qed.
Lemma bind_ends {A B} (o : outcome A) (f : A -> outcome B) : o <> Diverges -> (forall a, f a <> Diverges) -> o ≫= f <> Diverges.
Proof. by destruct o; cbn; auto. Qed.

Lemma lookups_end c :
  (forall id, get_index_mapping c id <> Diverges) /\ (forall id, get_metric_mapping c id <> Diverges)
  /\ (forall id, get_host_name col_size c id <> Diverges) /\ (forall h s, get_service_description col_size c h s <> Diverges)
  /\ forall id, get_instance col_size c id <> Diverges.
Proof.
  unfold get_index_mapping, get_metric_mapping, get_host_name, get_service_description, get_instance, find.
  repeat split; intros; by destruct (_ !! _).
Qed.

Lemma expand_ends t esc c d l o : expand t esc c d l = Some o -> o <> Diverges.
Proof.
  destruct (lookups_end c) as (Hi & Hm & Hh & Hs & Hn).
  revert o. induction l as [|p l IH]; intros o; cbn [expand]; [by intros [= <-]|].
  destruct (piece_text t esc c d p) as [o1|] eqn:E1; [|done]. cbn [mbind option_bind].
  destruct (expand t esc c d l) as [o2|] eqn:E2; [|done]. intros [= <-].
  assert (H1 : o1 <> Diverges).
  { clear - E1 Hi Hm Hh Hs Hn. revert E1. destruct p as [s|name]; cbn [piece_text]; [by intros [= <-]|].
    generalize ([dollar] ++ name ++ [dollar]). intros macro. unfold macro_text.
    destruct t; unfold metric_macro, status_macro; macros; intros [= <-];
      repeat first [discriminate | apply Hi | apply Hm | apply Hh | apply Hs | apply Hn | apply fmap_ends | apply bind_ends; [|intros]]. }
  destruct o1 as [s| |]; cbn; [|done|done]. specialize (IH _ eq_refl). by destruct o2.
Qed.

(** The query of pieces. *)
Definition query_of (esc : cstring) (t : data_type) (l : list piece) : query :=
  Query (l ≫= piece_strings) (l ≫= piece_getters) esc t.

Lemma new_query_spec scheme esc t : new_query scheme esc t
  = if forallb (piece_allowed t) (scheme_pieces scheme).1 && (scheme_pieces scheme).2
    then Returns (query_of esc t (scheme_pieces scheme).1) else Throws Exn_msg.
Proof.
  unfold new_query, _compile_naming_scheme. rewrite scan_spec, emit_all_spec. cbn [_type].
  destruct (forallb _ _); [|done]. cbn [mbind outcome_bind andb]. by destruct (scheme_pieces scheme) as [l []].
Qed.

Lemma query_of_writes esc t l c d o : expand t esc c d l = Some o ->
  generate (query_of esc t l) c d = Returns (match o with Returns s => s ++ rest_of t d | _ => [] end).
Proof.
  intros Ho. unfold generate, query_of. cbn [_type]. set (q := Query _ _ _ _).
  assert (Hg : generate_loop q c d (_compiled_getters q) 0 [] = s ← o; Returns s) by by apply (pieces_call q c d l o []).
  apply expand_ends in Ho.
  destruct t; [unfold generate_metric|unfold generate_status]; cbn [_type]; rewrite bool_decide_false by (by intros []);
    rewrite Hg; by destruct o.
Qed.

(** A query that was made writes something for each event. *)
Lemma new_query_generates scheme esc t q : new_query scheme esc t = Returns q ->
  _type q = t /\ forall c d, exists s, generate q c d = Returns s.
Proof.
  rewrite new_query_spec. destruct (forallb _ _) eqn:Ha; [|done]. destruct (scheme_pieces scheme).2; [|done]. intros [= <-].
  split; [done|]. intros c d. destruct (proj2 (expand_is_Some t esc c d _) Ha) as [o Ho]. eexists. by apply query_of_writes.
Qed.

(** C28. Compiling a scheme once and writing each event with the compiled query
    is reading the scheme each time, piece by piece: the same line, the same
    missing names, the same errors. *)
Theorem compiled_query_writes_scheme scheme esc t c d :
  (q ← new_query scheme esc t; generate q c d) = reference scheme esc t c d.
Proof.
  rewrite new_query_spec. unfold reference. destruct (scheme_pieces scheme) as [l closed]. cbn [fst snd].
  destruct (forallb (piece_allowed t) l) eqn:Ha.
  2: { destruct (expand t esc c d l) eqn:E; [|done]. apply mk_is_Some, expand_is_Some in E. congruence. }
  apply (expand_is_Some t esc c d) in Ha as [o Ho]. rewrite Ho. destruct closed; [|done]. by apply query_of_writes.
Qed.
End Query.
End Graphite.
