(* ===== verification/GraphiteStream.v ===== *)
(** * The stream to Graphite (graphite/src/stream.cc)

    Lines are gathered and sent by transactions; an event is acknowledged when
    the transaction that has its line was sent. The socket is outside: whether a
    write to it succeeds is an argument, and what it took is a list of packets. *)

From Stdlib Require Import ZArith Lia ZifyNat ZifyBool Strings.Byte Strings.String.
From stdpp Require Import base option list numbers strings gmap.
From S2P Require Import Prelude Events MiscString Bbdo Mapping StorageEvents MacroCache GraphiteCache TextQuery Graphite.

Module GraphiteStream.
Import Events Mapping MacroCache GraphiteCache Graphite.
#[local] Open Scope Z_scope.

Section Stream.
Context (col_size : string -> string -> Z).

Record stream : Type := Stream {
  _queries_per_transaction : Z;
  _pending_queries : Z;
  _actual_query : Z;
  _commit_flag : bool;
  _cache : macro_cache;
  _metric_query : query;
  _status_query : query;
  _query : cstring;
  _auth_query : cstring;
  packets : list cstring
}.

Definition with_pending s n : stream :=
  Stream (_queries_per_transaction s) n (_actual_query s) (_commit_flag s) (_cache s) (_metric_query s) (_status_query s)
    (_query s) (_auth_query s) (packets s).
Definition with_cache s c : stream :=
  Stream (_queries_per_transaction s) (_pending_queries s) (_actual_query s) (_commit_flag s) c (_metric_query s)
    (_status_query s) (_query s) (_auth_query s) (packets s).
Definition with_query s n q : stream :=
  Stream (_queries_per_transaction s) (_pending_queries s) n (_commit_flag s) (_cache s) (_metric_query s)
    (_status_query s) q (_auth_query s) (packets s).
Definition with_flag s b : stream :=
  Stream (_queries_per_transaction s) (_pending_queries s) (_actual_query s) b (_cache s) (_metric_query s)
    (_status_query s) (_query s) (_auth_query s) (packets s).

(** The constructor; [cache] is the cache as loaded, [connected] whether one of the
    addresses of the host answered. *)
Definition auth_query (db_user db_password : cstring) : cstring :=
  if bool_decide (db_user <> []) && bool_decide (db_password <> []) then
    str "Authorization: Basic " ++ Str.base64_encode (db_user ++ str ":" ++ db_password) ++ [x0a]
  else [].

Definition new_stream (metric_naming status_naming escape_string db_user db_password : cstring)
    (queries_per_transaction : Z) (cache : macro_cache) (connected : bool) : outcome stream :=
  mq ← new_query metric_naming escape_string metric;
  sq ← new_query status_naming escape_string status;
  let auth := auth_query db_user db_password in
  if connected then
    Returns (Stream (if queries_per_transaction =? 0 then 1 else queries_per_transaction) 0 0 false cache mq sq auth auth [])
  else Throws Exn_msg.

Definition _commit (sends : bool) (s : stream) : stream * outcome unit :=
  if bool_decide (_query s <> []) then
    if sends then
      (Stream (_queries_per_transaction s) (_pending_queries s) (_actual_query s) (_commit_flag s) (_cache s)
         (_metric_query s) (_status_query s) (_auth_query s) (_auth_query s) (packets s ++ [_query s]), Returns tt)
    else (s, Throws Exn_msg)
  else (s, Returns tt).

Definition flush (sends : bool) (s : stream) : stream * outcome Z :=
  let ret := _pending_queries s in
  let '(s, o) := if negb (_actual_query s =? 0) then _commit sends s else (s, Returns tt) in
  match o with
  | Returns _ => (with_flag (with_pending (with_query s 0 (_query s)) 0) false, Returns ret)
  | Throws e => (s, Throws e)
  | Diverges => (s, Diverges)
  end.

(** _process_metric and _process_status: append the line of the event; the count
    is of the lines that are not empty. *)
Definition process (s : stream) (to_append : outcome cstring) : stream * outcome unit :=
  match to_append with
  | Returns t => (with_query s (if bool_decide (t <> []) then u32 (_actual_query s + 1) else _actual_query s) (_query s ++ t), Returns tt)
  | Throws e => (s, Throws e)
  | Diverges => (s, Diverges)
  end.
Definition _process_metric (s : stream) (me : Bbdo.data) : stream * outcome unit :=
  process s (generate_metric col_size (_metric_query s) (_cache s) me).
Definition _process_status (s : stream) (st : Bbdo.data) : stream * outcome unit :=
  process s (generate_status col_size (_status_query s) (_cache s) st).

(** None is a null event, which validate refuses. *)
Definition write (sends : bool) (s : stream) (data : option Bbdo.data) : stream * outcome Z :=
  let s := with_pending s (i32 (_pending_queries s + 1)) in
  match data with
  | None => (s, Returns 0)
  | Some d =>
    let s := with_cache s (cache_write col_size (_cache s) d) in
    let '(s, o) :=
      if Bbdo.type d =? storage_type StorageEvents.de_metric then _process_metric s d
      else if Bbdo.type d =? storage_type StorageEvents.de_status then _process_status s d
      else (s, Returns tt) in
    match o with
    | Returns _ =>
      let s := if _queries_per_transaction s <=? _actual_query s then with_flag s true else s in
      if _commit_flag s then flush sends s else (s, Returns 0)
    | Throws e => (s, Throws e)
    | Diverges => (s, Diverges)
    end
  end.

Definition read (s : stream) : stream * outcome bool := (s, Throws Exn_shutdown).

(** ** Runs *)

Inductive call : Type := Write (data : option Bbdo.data) (sends : bool) | Flush (sends : bool).

Definition run_call (s : stream) (c : call) : stream * outcome Z :=
  match c with Write d sends => write sends s d | Flush sends => flush sends s end.

(** Calls until one throws, and what was acknowledged. *)
Fixpoint run (s : stream) (acknowledged : Z) (l : list call) : stream * Z :=
  match l with
  | [] => (s, acknowledged)
  | c :: l =>
    match run_call s c with
    | (s, Returns n) => run s (acknowledged + n) l
    | (s, _) => (s, acknowledged)
    end
  end.

Definition events_of (l : list call) : list (option Bbdo.data) :=
  omap (fun c => match c with Write d _ => Some d | Flush _ => None end) l.

Definition text_of (o : outcome cstring) : cstring := match o with Returns t => t | _ => [] end.
Definition line (mq sq : query) (c : macro_cache) (d : Bbdo.data) : cstring :=
  if Bbdo.type d =? storage_type StorageEvents.de_metric then text_of (generate_metric col_size mq c d)
  else if Bbdo.type d =? storage_type StorageEvents.de_status then text_of (generate_status col_size sq c d)
  else [].
Definition lines (mq sq : query) : macro_cache -> list (option Bbdo.data) -> list cstring :=
  event_lines col_size (line mq sq).

#[local] Abbreviation known := (GraphiteCache.known col_size).

Lemma lines_app mq sq c a b : lines mq sq c (a ++ b) = lines mq sq c a ++ lines mq sq (known c a) b.
Proof. apply event_lines_app. Qed.
Lemma length_lines mq sq c l : length (lines mq sq c l) = length l.
Proof. apply length_event_lines. Qed.

(** Some lines are not empty. *)
Definition filled (l : list cstring) : Z := Z.of_nat (length (filter (fun t => t <> []) l)).

Lemma filled_snoc l t : filled (l ++ [t]) = filled l + (if bool_decide (t <> []) then 1 else 0).
Proof.
  unfold filled. rewrite filter_app, length_app. case_bool_decide as Ht.
  - rewrite filter_cons_True by done. cbn. lia.
  - rewrite filter_cons_False by naive_solver. cbn. lia.
Qed.

Lemma filled_none l : filled l = 0 -> concat l = [].
Proof.
  unfold filled. induction l as [|t l IH]; [done|]. destruct (decide (t = [])) as [->|Ht].
  - rewrite filter_cons_False by auto. cbn. done.
  - rewrite filter_cons_True by done. cbn. lia.
Qed.

(** The lines written and not sent, and what was sent: [l] are the events
    written so far, [n] how many were acknowledged. *)
Record gathered (mq sq : query) (auth : cstring) (c0 : macro_cache) (s : stream) (l : list (option Bbdo.data)) (n : Z) : Prop := Gathered {
  st_queries : _metric_query s = mq /\ _status_query s = sq /\ _auth_query s = auth;
  st_rate : 1 <= _queries_per_transaction s < 2 ^ 32;
  st_cache : _cache s = known c0 l;
  st_count : 0 <= n /\ 0 <= _pending_queries s /\ n + _pending_queries s = Z.of_nat (length l);
  st_waiting : _query s = auth ++ concat (drop (Z.to_nat n) (lines mq sq c0 l));
  st_actual : _actual_query s = filled (drop (Z.to_nat n) (lines mq sq c0 l));
  st_sent : exists batches, packets s = app auth <$> batches
    /\ concat batches = concat (take (Z.to_nat n) (lines mq sq c0 l))
}.

(** Between calls there are less lines waiting than a transaction has. *)
Record state mq sq auth c0 (s : stream) l n : Prop := State {
  st_gathered : gathered mq sq auth c0 s l n;
  st_flag : _commit_flag s = false;
  st_bound : _actual_query s < _queries_per_transaction s
}.

Section Calls.
Context (mq sq : query) (auth : cstring) (c0 : macro_cache).
Hypothesis Hmq : forall c d, exists t, generate_metric col_size mq c d = Returns t.
Hypothesis Hsq : forall c d, exists t, generate_status col_size sq c d = Returns t.

Lemma flush_gathered sends s l n : gathered mq sq auth c0 s l n ->
  match flush sends s with
  | (s', Returns k) => k = _pending_queries s /\ state mq sq auth c0 s' l (n + k)
  | (s', _) => packets s' = packets s
  end.
Proof.
  intros [(Hm & Hs & Hu) Hr Hc (Hn & Hp & Hl) Hq Ha (bs & Hb & Hcat)]. unfold flush.
  pose proof (length_lines mq sq c0 l) as Hll.
  assert (Hall : forall k, k = _pending_queries s -> Z.to_nat (n + k) = length (lines mq sq c0 l)) by lia.
  assert (Hsplit : concat (lines mq sq c0 l) = concat (take (Z.to_nat n) (lines mq sq c0 l)) ++ concat (drop (Z.to_nat n) (lines mq sq c0 l))).
  { by rewrite <-concat_app, take_drop. }
  destruct (Z.eqb_spec (_actual_query s) 0) as [H0|H0]; cbn [negb].
  - rewrite H0 in Ha. pose proof (filled_none _ (eq_sym Ha)) as He. split; [done|].
    split; cbn; [|done|lia]. split; cbn; rewrite ?Hall, ?drop_all, ?firstn_all by done; try done; try lia.
    + by rewrite Hq, He.
    + exists bs. split; [done|]. by rewrite Hsplit, He, app_nil_r.
  - unfold _commit. case_bool_decide as Hne.
    + destruct sends; [|done]. split; [done|].
      split; cbn; [|done|lia]. split; cbn; rewrite ?Hall, ?drop_all, ?firstn_all by done; try done; try lia.
      * by rewrite app_nil_r.
      * exists (bs ++ [concat (drop (Z.to_nat n) (lines mq sq c0 l))]). rewrite fmap_app, Hb, Hq. split; [done|].
        rewrite concat_app, Hcat, Hsplit. cbn. by rewrite app_nil_r.
    + assert (He : concat (drop (Z.to_nat n) (lines mq sq c0 l)) = []).
      { rewrite Hne in Hq. symmetry in Hq. by apply app_nil in Hq as [_ ?]. }
      split; [done|]. split; cbn; [|done|lia]. split; cbn; rewrite ?Hall, ?drop_all, ?firstn_all by done; try done; try lia.
      * by rewrite Hq, He.
      * exists bs. split; [done|]. by rewrite Hsplit, He, app_nil_r.
Qed.

(** An event joins those that wait. *)
Lemma gathered_snoc s l n d t : gathered mq sq auth c0 s l n ->
  Z.of_nat (length l) < 2 ^ 31 - 1 -> _actual_query s < _queries_per_transaction s ->
  lines mq sq (known c0 l) [d] = [t] ->
  gathered mq sq auth c0
    (with_query (with_cache (with_pending s (i32 (_pending_queries s + 1))) (known c0 (l ++ [d])))
       (if bool_decide (t <> []) then u32 (_actual_query s + 1) else _actual_query s) (_query s ++ t))
    (l ++ [d]) n.
Proof.
  intros [(Hm & Hs & Hu) Hr Hc (Hn & Hp & Hl) Hq Ha Hb] Hlen Hact Ht.
  pose proof (length_lines mq sq c0 l) as Hll.
  split; cbn; rewrite ?lines_app, ?Ht, ?drop_app_le, ?take_app_le by lia; try done.
  - rewrite i32_small by lia. rewrite length_app. cbn. lia.
  - rewrite Hq, concat_app. cbn. by rewrite app_nil_r, app_assoc.
  - rewrite filled_snoc. case_bool_decide; [|lia]. rewrite u32_small; [lia|].
    assert (0 <= _actual_query s) by (rewrite Ha; unfold filled; lia). lia.
Qed.

Lemma lines_one c d : exists t, lines mq sq c [d] = [t].
Proof. destruct d as [d|]; by eexists. Qed.

(** A write: nothing is lost, and what it acknowledges was sent. *)
Lemma write_state sends s l n d : state mq sq auth c0 s l n -> Z.of_nat (length l) < 2 ^ 31 - 1 ->
  match write sends s d with
  | (s', Returns k) => state mq sq auth c0 s' (l ++ [d]) (n + k)
  | (s', _) => packets s' = packets s
  end.
Proof.
  intros [Hg Hf Hb] Hlen. destruct (lines_one (known c0 l) d) as [t Ht].
  pose proof (gathered_snoc s l n d t Hg Hlen Hb Ht) as Hg'.
  unfold write. destruct d as [d|].
  2: { injection Ht as <-. rewrite Z.add_0_r. rewrite bool_decide_false, app_nil_r in Hg' by naive_solver.
       rewrite known_null in Hg'.
       split; [|done|done]. rewrite <-(st_cache _ _ _ _ _ _ _ Hg) in Hg'. by destruct s. }
  set (s1 := with_cache _ _).
  assert (Hs1 : s1 = with_cache (with_pending s (i32 (_pending_queries s + 1))) (known c0 (l ++ [Some d]))).
  { unfold s1. f_equal. cbn. by rewrite (st_cache _ _ _ _ _ _ _ Hg), known_snoc. }
  injection Ht as Ht. set (next := if Bbdo.type d =? _ then _ else _).
  assert (Hn : next = (with_query s1 (if bool_decide (t <> []) then u32 (_actual_query s1 + 1) else _actual_query s1) (_query s1 ++ t), Returns tt)).
  { destruct (st_queries _ _ _ _ _ _ _ Hg) as (Hm & Hs & _).
    assert (Hc : _cache s1 = cache_write col_size (known c0 l) d) by (unfold s1; cbn; by rewrite (st_cache _ _ _ _ _ _ _ Hg)).
    unfold next, _process_metric, _process_status, line in *. rewrite Hc.
    destruct (Bbdo.type d =? storage_type StorageEvents.de_metric).
    - change (_metric_query s1) with (_metric_query s). rewrite Hm. destruct (Hmq (cache_write col_size (known c0 l) d) d) as [t' E].
      rewrite E in *. cbn in Ht. by subst t'.
    - destruct (Bbdo.type d =? storage_type StorageEvents.de_status).
      + change (_status_query s1) with (_status_query s). rewrite Hs. destruct (Hsq (cache_write col_size (known c0 l) d) d) as [t' E].
        rewrite E in *. cbn in Ht. by subst t'.
      + subst t. rewrite bool_decide_false, app_nil_r by naive_solver. by destruct s1. }
  rewrite Hn. clear Hn next. rewrite Hs1. clearbody s1.
  set (s2 := with_query _ _ _) in *. change (with_query _ _ _) with s2 in Hg'.
  assert (Hf2 : _commit_flag s2 = false) by done. 
  destruct (Z.leb_spec (_queries_per_transaction s2) (_actual_query s2)) as [Hle|Hlt].
  - cbn [_commit_flag with_flag].
    assert (Hg2 : gathered mq sq auth c0 (with_flag s2 true) (l ++ [Some d]) n) by (destruct Hg'; by split).
    pose proof (flush_gathered sends _ _ _ Hg2) as Hfl. destruct (flush sends _) as [s' [k|e|]]; [by destruct Hfl|done|done].
  - rewrite Hf2, Z.add_0_r. by split.
Qed.

Lemma run_state calls s l n s' n' : state mq sq auth c0 s l n ->
  Z.of_nat (length l + length (events_of calls)) < 2 ^ 31 -> run s n calls = (s', n') ->
  0 <= n' <= Z.of_nat (length l + length (events_of calls))
  /\ exists batches, packets s' = app auth <$> batches
       /\ concat batches = concat (take (Z.to_nat n') (lines mq sq c0 (l ++ events_of calls))).
Proof.
  revert s l n. induction calls as [|call calls IH]; intros s l n Hs Hlen; cbn [run].
  { intros [= <- <-]. destruct (st_count _ _ _ _ _ _ _ (st_gathered _ _ _ _ _ _ _ Hs)) as (? & ? & ?). split; [cbn; lia|].
    cbn. rewrite app_nil_r. apply (st_sent _ _ _ _ _ _ _ (st_gathered _ _ _ _ _ _ _ Hs)). }
  assert (Hstop : forall s1, packets s1 = packets s -> (s1, n) = (s', n') ->
    0 <= n' <= Z.of_nat (length l + length (events_of (call :: calls)))
    /\ exists batches, packets s' = app auth <$> batches
       /\ concat batches = concat (take (Z.to_nat n') (lines mq sq c0 (l ++ events_of (call :: calls))))).
  { intros s1 Hp [= <- <-]. destruct (st_count _ _ _ _ _ _ _ (st_gathered _ _ _ _ _ _ _ Hs)) as (? & ? & ?). split; [lia|].
    destruct (st_sent _ _ _ _ _ _ _ (st_gathered _ _ _ _ _ _ _ Hs)) as (bs & Hb & Hc). exists bs. rewrite Hp. split; [done|].
    rewrite lines_app, take_app_le; [done|]. rewrite length_lines. lia. }
  destruct call as [d sends|sends]; cbn [run_call].
  - cbn [events_of omap list_omap] in *. fold (events_of calls) in *. cbn [length] in *.
    pose proof (write_state sends s l n d Hs ltac:(lia)) as Hw.
    destruct (write sends s d) as [s1 [k|e|]]; [|by apply Hstop|by apply Hstop].
    intros Hr. destruct (IH _ _ _ Hw ltac:(rewrite length_app; cbn; lia) Hr) as [Hn He]. rewrite length_app in Hn. cbn in Hn.
    rewrite <-app_assoc in He. cbn in He. split; [lia|done].
  - pose proof (flush_gathered sends s l n (st_gathered _ _ _ _ _ _ _ Hs)) as Hw.
    change (events_of (Flush sends :: calls)) with (events_of calls) in *.
    destruct (flush sends s) as [s1 [k|e|]]; [|by apply Hstop|by apply Hstop].
    destruct Hw as [_ Hw]. intros Hr. by apply (IH _ _ _ Hw).
Qed.
End Calls.

(** C29. An event that the stream to Graphite acknowledges has been sent: each time,
    the packets that the socket took hold, after the authentication header of
    each, the lines of the acknowledged events, all of them, in order and once.
    When a call throws nothing more is acknowledged. *)
Theorem acknowledged_lines_sent metric_naming status_naming esc user password rate c0 mq sq s0 calls s n :
  new_stream metric_naming status_naming esc user password rate c0 true = Returns s0 ->
  new_query metric_naming esc metric = Returns mq -> new_query status_naming esc status = Returns sq ->
  0 <= rate < 2 ^ 32 -> Z.of_nat (length (events_of calls)) < 2 ^ 31 ->
  run s0 0 calls = (s, n) ->
  0 <= n <= Z.of_nat (length (events_of calls))
  /\ exists batches, packets s = app (auth_query user password) <$> batches
       /\ concat batches = concat (take (Z.to_nat n) (lines mq sq c0 (events_of calls))).
Proof.
  intros Hn Hmq Hsq Hr Hlen Hrun. unfold new_stream in Hn. rewrite Hmq, Hsq in Hn. cbn in Hn. injection Hn as <-.
  destruct (new_query_generates col_size _ _ _ _ Hmq) as [Tm Gm]. destruct (new_query_generates col_size _ _ _ _ Hsq) as [Ts Gs].
  unfold generate in Gm, Gs. rewrite Tm in Gm. rewrite Ts in Gs.
  refine (run_state mq sq _ c0 Gm Gs calls _ [] 0 s n _ Hlen Hrun).
  split; [|done|cbn; case_if; lia]. split; cbn; try done; [case_if; lia|by rewrite app_nil_r|by exists []].
Qed.
End Stream.

Lemma acknowledged_lines_sent_witness :
  let cs := fun _ _ : string => 0 in
  let d := Bbdo.Data (storage_type StorageEvents.de_metric) 1 0
             (object StorageEvents.metric_members (StorageEvents.metric_entries cs)) in
  let calls := [Write None true; Write (Some d) true; Flush true; Write (Some d) false] in
  exists mq sq s0 s n,
    new_stream (str "a.$METRICID$") (str "$HOST$") (str "_") [] [] 1 no_event true = Returns s0
    /\ run cs s0 0 calls = (s, n) /\ n = 2 /\ packets s = [str "a.0 nan 0" ++ [x0a]]
    /\ exists batches, packets s = app (auth_query [] []) <$> batches
         /\ concat batches = concat (take (Z.to_nat n) (lines cs mq sq no_event (events_of calls))).
Proof.
  intros cs d calls. do 5 eexists. split; [vm_compute; reflexivity|]. split; [vm_compute; reflexivity|].
  split; [reflexivity|]. split; [reflexivity|].
  refine (proj2 (acknowledged_lines_sent cs (str "a.$METRICID$") (str "$HOST$") (str "_") [] [] 1 no_event _ _ _ calls _ _
    _ _ _ _ _ _)); [vm_compute; reflexivity|vm_compute; reflexivity|vm_compute; reflexivity|lia|vm_compute; reflexivity|vm_compute; reflexivity].
Defined.

End GraphiteStream.
