(* ===== verification/LineProtocol.v ===== *)
(** * Queries to InfluxDB (influxdb/src/line_protocol_query.cc, influxdb/src/column.cc)

    A line of the line protocol is a measurement, tags, fields and a time; their
    texts come from schemes of texts and macros, each part with an escaping of
    its own. A reader of lines, written from the protocol, gives back the texts
    of the columns. *)

From Stdlib Require Import ZArith Lia ZifyNat ZifyBool Strings.Byte Strings.String Floats.SpecFloat.
From stdpp Require Import base option list numbers strings gmap.
From S2P Require Import Prelude Double Gprint Events Bbdo Ba Mapping StorageEvents MacroCache GraphiteCache TextQuery Graphite.

Module LineProtocol.
Import Events Mapping MacroCache GraphiteCache TextQuery.
#[local] Open Scope Z_scope.

(** ** Columns *)

Inductive column_type : Type := number | string_column.

Record column : Type := Column {
  _name : cstring;
  _value : cstring;
  _is_flag : bool;
  _column_type : column_type
}.

Definition default_column : column := Column [] [] false number.

Definition parse_type (type : cstring) : outcome column_type :=
  if cstring_eqb type (str "string") then Returns string_column
  else if cstring_eqb type (str "number") then Returns number
  else Throws Exn_msg.

(** ** Escaping *)

Inductive data_escaper : Type := escape_key | escape_measurement | escape_value.

Definition escape_with (e : data_escaper) (s : cstring) : outcome cstring :=
  match e with
  | escape_key =>
    ret ← replace s (str ",") (str "\,"); ret ← replace ret (str "=") (str "\="); replace ret (str " ") (str "\ ")
  | escape_measurement => ret ← replace s (str ",") (str "\,"); replace ret (str " ") (str "\ ")
  | escape_value => ret ← replace s [x22] [x5c; x22]; Returns ([x22] ++ ret ++ [x22])
  end.

(** Each escaping in one pass. *)
Definition key_special (c : byte) : bool := byte_eqb c x2c || byte_eqb c x3d || byte_eqb c x20.
Definition measurement_special (c : byte) : bool := byte_eqb c x2c || byte_eqb c x20.
Definition quote_special (c : byte) : bool := byte_eqb c x22.

Definition escape_chars (special : byte -> bool) (s : cstring) : cstring :=
  concat ((fun c => if special c then [x5c; c] else [c]) <$> s).

Definition escaped (e : data_escaper) (s : cstring) : cstring :=
  match e with
  | escape_key => escape_chars key_special s
  | escape_measurement => escape_chars measurement_special s
  | escape_value => [x22] ++ escape_chars quote_special s ++ [x22]
  end.

Lemma escape_chars_app special a b : escape_chars special (a ++ b) = escape_chars special a ++ escape_chars special b.
Proof. unfold escape_chars. by rewrite fmap_app, concat_app. Qed.

Lemma subst_escape c special s : special c = false ->
  (forall x, special x = true -> x <> c) -> c <> x5c ->
  subst c [x5c; c] (escape_chars special s) = escape_chars (fun x => special x || byte_eqb x c) s.
Proof.
  intros Hc Hs Hb. induction s as [|x s IH]; [done|]. unfold escape_chars in *. cbn [fmap list_fmap concat].
  rewrite subst_app, IH. f_equal. destruct (special x) eqn:Ex; cbn [orb]; unfold subst; cbn.
  - rewrite !(proj2 (byte_eqb_neq _ _)) by auto. done.
  - destruct (byte_eqb x c) eqn:E; [|done]. by apply byte_eqb_eq in E as ->.
Qed.

Lemma subst_first c s : subst c [x5c; c] s = escape_chars (fun x => byte_eqb x c) s.
Proof.
  induction s as [|x s IH]; [done|]. unfold escape_chars, subst in *. cbn. rewrite IH.
  destruct (byte_eqb x c) eqn:E; [|done]. by apply byte_eqb_eq in E as ->.
Qed.

Lemma escape_chars_ext p q s : (forall x, p x = q x) -> escape_chars p s = escape_chars q s.
Proof. intros Hpq. unfold escape_chars. f_equal. apply list_fmap_ext. intros ? x _. by rewrite Hpq. Qed.

(** The passes of the code make the escaping in one pass. *)
Lemma escape_with_spec e s : escape_with e s = Returns (escaped e s).
Proof.
  destruct e; cbn [escape_with escaped].
  - change (str ",") with [x2c]. change (str "=") with [x3d]. change (str " ") with [x20].
    change (str "\,") with [x5c; x2c]. change (str "\=") with [x5c; x3d]. change (str "\ ") with [x5c; x20].
    do 3 (rewrite replace_char; cbn [mbind outcome_bind]). rewrite (subst_first x2c s).
    rewrite (subst_escape x3d); [rewrite (subst_escape x20)|..]; try done; intros x Hx ->; revert Hx; by vm_compute.
  - change (str ",") with [x2c]. change (str " ") with [x20].
    change (str "\,") with [x5c; x2c]. change (str "\ ") with [x5c; x20].
    do 2 (rewrite replace_char; cbn [mbind outcome_bind]). rewrite (subst_first x2c s).
    rewrite (subst_escape x20); try done; intros x Hx ->; revert Hx; by vm_compute.
  - rewrite replace_char. cbn [mbind outcome_bind]. by rewrite subst_first.
Qed.

(** ** Reading lines *)

Definition backslash : byte := x5c.
Definition newline : byte := x0a.
Definition quote : byte := x22.

(** A measurement, a key or the value of a tag: up to a character that must be
    escaped, where a backslash before such a character is dropped. *)
Fixpoint read_text (special : byte -> bool) (s : cstring) : cstring * cstring :=
  match s with
  | [] => ([], [])
  | c :: s =>
    if byte_eqb c backslash then
      match s with
      | x :: s' =>
        if special x then let '(w, r) := read_text special s' in (x :: w, r)
        else let '(w, r) := read_text special s in (c :: w, r)
      | [] => ([c], [])
      end
    else if special c || byte_eqb c newline then ([], c :: s)
    else let '(w, r) := read_text special s in (c :: w, r)
  end.

(** The value of a text field, after its opening quote. *)
Fixpoint read_string (s : cstring) : option (cstring * cstring) :=
  match s with
  | [] => None
  | c :: s =>
    if byte_eqb c quote then Some ([], s)
    else if byte_eqb c backslash then
      match s with
      | x :: s' =>
        if byte_eqb x quote || byte_eqb x backslash then '(w, r) ← read_string s'; Some (x :: w, r)
        else '(w, r) ← read_string s; Some (c :: w, r)
      | [] => None
      end
    else '(w, r) ← read_string s; Some (c :: w, r)
  end.

Definition ends_number (c : byte) : bool := byte_eqb c x2c || byte_eqb c x20 || byte_eqb c newline.

(** The rest of a text from its first character that satisfies [stop]. *)
Fixpoint read_until (stop : byte -> bool) (s : cstring) : cstring * cstring :=
  match s with
  | [] => ([], [])
  | c :: s => if stop c then ([], c :: s) else let '(w, r) := read_until stop s in (c :: w, r)
  end.

Inductive field : Type := Number_field (s : cstring) | String_field (s : cstring).

Definition read_value (s : cstring) : option (field * cstring) :=
  match s with
  | c :: s' =>
    if byte_eqb c quote then '(w, r) ← read_string s'; Some (String_field w, r)
    else let '(w, r) := read_until ends_number s in Some (Number_field w, r)
  | [] => Some (Number_field [], [])
  end.

(** A given character comes next. *)
Definition next (c : byte) (s : cstring) : option cstring :=
  match s with x :: s => if byte_eqb x c then Some s else None | [] => None end.

Fixpoint read_tags (fuel : nat) (s : cstring) : option (list (cstring * cstring) * cstring) :=
  match fuel with
  | O => None
  | S fuel =>
    match next x2c s with
    | None => Some ([], s)
    | Some s =>
      let '(k, r) := read_text key_special s in
      r ← next x3d r;
      let '(v, r) := read_text key_special r in
      '(l, r) ← read_tags fuel r; Some ((k, v) :: l, r)
    end
  end.

Fixpoint read_fields (fuel : nat) (s : cstring) : option (list (cstring * field) * cstring) :=
  match fuel with
  | O => None
  | S fuel =>
    let '(k, r) := read_text key_special s in
    r ← next x3d r;
    '(v, r) ← read_value r;
    match next x2c r with
    | None => Some ([(k, v)], r)
    | Some r => '(l, r) ← read_fields fuel r; Some ((k, v) :: l, r)
    end
  end.

(** A line: measurement, tags, fields and time. *)
Definition read_line (s : cstring) : option (cstring * list (cstring * cstring) * list (cstring * field) * cstring) :=
  let '(m, r) := read_text measurement_special s in
  '(tags, r) ← read_tags (S (length r)) r;
  r ← next x20 r;
  '(fields, r) ← read_fields (S (length r)) r;
  r ← next x20 r;
  let '(time, r) := read_until (byte_eqb newline) r in
  if bool_decide (r = [newline]) then Some (m, tags, fields, time) else None.

(** The line of these texts. *)
Definition field_text (f : field) : cstring :=
  match f with Number_field s => s | String_field s => escaped escape_value s end.
Definition tag_line (p : cstring * cstring) : cstring := [x2c] ++ escaped escape_key p.1 ++ [x3d] ++ escaped escape_key p.2.
Definition field_line (p : cstring * field) : cstring := escaped escape_key p.1 ++ [x3d] ++ field_text p.2.
Fixpoint fields_line (first : bool) (l : list (cstring * field)) : cstring :=
  match l with [] => [] | p :: l => (if first then [] else [x2c]) ++ field_line p ++ fields_line false l end.
Definition line_of (m : cstring) (tags : list (cstring * cstring)) (fields : list (cstring * field)) (time : cstring) : cstring :=
  escaped escape_measurement m ++ concat (tag_line <$> tags) ++ [x20] ++ fields_line true fields ++ [x20] ++ time ++ [newline].

(** Texts that lines can carry: without newline, and not ended by a backslash,
    which nothing escapes. *)
Definition carried (s : cstring) : Prop := newline ∉ s /\ last s <> Some backslash.
Definition carried_field (f : field) : Prop :=
  match f with
  | Number_field s => forallb (fun c => negb (ends_number c)) s = true /\ head s <> Some quote
  | String_field s => backslash ∉ s
  end.

Lemma carried_cons c s : carried (c :: s) -> c <> newline /\ (s = [] -> c <> backslash) /\ carried s.
Proof.
  intros [Hn Hl]. apply not_elem_of_cons in Hn as [Hc Hn]. split; [done|]. split.
  - intros -> ->. by apply Hl.
  - split; [done|]. intros E. apply Hl. destruct s; [done|]. by rewrite last_cons_cons.
Qed.

(** Reading what was escaped gives it back. *)
Lemma read_escaped special s stop rest :
  special backslash = false -> special newline = false -> carried s ->
  special stop || byte_eqb stop newline = true ->
  read_text special (escape_chars special s ++ stop :: rest) = (s, stop :: rest).
Proof.
  intros Hb Hn Hs Hst. induction s as [|c s IH].
  { cbn. rewrite Hst. destruct (byte_eqb stop backslash) eqn:E; [|done]. apply byte_eqb_eq in E as ->. by rewrite Hb in Hst. }
  apply carried_cons in Hs as (Hc & Hl & Hs). specialize (IH Hs).
  change (escape_chars special (c :: s)) with ((if special c then [x5c; c] else [c]) ++ escape_chars special s).
  rewrite <-app_assoc. destruct (special c) eqn:Ec.
  { cbn [app read_text]. rewrite byte_eqb_refl, Ec, IH. done. }
  cbn [app read_text]. destruct (byte_eqb c backslash) eqn:E.
  - apply byte_eqb_eq in E as ->. destruct s as [|y s]; [by destruct (Hl eq_refl)|].
    change (escape_chars special (y :: s)) with ((if special y then [x5c; y] else [y]) ++ escape_chars special s) in *.
    destruct (special y) eqn:Ey; cbn [app] in *.
    + change (special x5c) with (special backslash). rewrite Hb, IH. done.
    + rewrite Ey, IH. done.
  - rewrite Ec, (proj2 (byte_eqb_neq _ _) Hc). cbn [orb]. by rewrite IH.
Qed.

Lemma read_quoted s rest : backslash ∉ s -> read_string (escape_chars quote_special s ++ quote :: rest) = Some (s, rest).
Proof.
  induction s as [|c s IH]; intros Hs; [done|]. apply not_elem_of_cons in Hs as [Hc Hs]. specialize (IH Hs).
  change (escape_chars quote_special (c :: s)) with ((if quote_special c then [x5c; c] else [c]) ++ escape_chars quote_special s).
  rewrite <-app_assoc. unfold quote_special at 1. destruct (byte_eqb c x22) eqn:E.
  - apply byte_eqb_eq in E as ->. cbn [app read_string]. change (byte_eqb x5c quote) with false.
    change (byte_eqb x5c backslash) with true. change (byte_eqb x22 quote) with true. cbn [orb]. by rewrite IH.
  - cbn [app read_string]. change quote with x22 at 1. rewrite E. rewrite (proj2 (byte_eqb_neq c backslash)) by auto. by rewrite IH.
Qed.

Lemma read_until_app stop s c rest : forallb (fun x => negb (stop x)) s = true -> stop c = true ->
  read_until stop (s ++ c :: rest) = (s, c :: rest).
Proof.
  induction s as [|x s IH]; cbn; [by intros _ ->|]. rewrite andb_true_iff, negb_true_iff. intros [-> Hs] Hc. by rewrite IH.
Qed.

Lemma read_field_text f c rest : carried_field f -> c = x2c \/ c = x20 ->
  read_value (field_text f ++ c :: rest) = Some (f, c :: rest).
Proof.
  intros Hf Hc. destruct f as [s|s]; cbn [field_text carried_field] in *.
  - destruct Hf as [Hs Hh]. unfold read_value.
    assert (Hr : read_until ends_number (s ++ c :: rest) = (s, c :: rest)).
    { apply read_until_app; [done|]. by destruct Hc as [-> | ->]. }
    destruct s as [|x s]; cbn [app] in *.
    + rewrite Hr. by destruct Hc as [-> | ->].
    + rewrite (proj2 (byte_eqb_neq x quote)) by (intros ->; by apply Hh). by rewrite Hr.
  - cbn [escaped app read_value]. change (byte_eqb x22 quote) with true. cbv iota.
    rewrite <-app_assoc. change ([x22] ++ c :: rest) with (quote :: c :: rest). by rewrite read_quoted.
Qed.

Definition carried_tag (p : cstring * cstring) : Prop := carried p.1 /\ carried p.2.
Definition carried_value (p : cstring * field) : Prop := carried p.1 /\ carried_field p.2.

Lemma next_cons c s : next c (c :: s) = Some s.
Proof. unfold next. by rewrite byte_eqb_refl. Qed.

Lemma read_key s stop rest : carried s -> stop = x2c \/ stop = x3d \/ stop = x20 ->
  read_text key_special (escaped escape_key s ++ stop :: rest) = (s, stop :: rest).
Proof. intros Hs Hst. apply read_escaped; try done. by destruct Hst as [-> |[-> | ->]]. Qed.

Lemma tag_line_app p rest : tag_line p ++ rest = x2c :: escaped escape_key p.1 ++ x3d :: escaped escape_key p.2 ++ rest.
Proof. unfold tag_line. by rewrite <-!app_assoc. Qed.
Lemma field_line_app p rest : field_line p ++ rest = escaped escape_key p.1 ++ x3d :: field_text p.2 ++ rest.
Proof. unfold field_line. by rewrite <-!app_assoc. Qed.
Lemma tag_lines_cons p tags rest : concat (tag_line <$> p :: tags) ++ rest = tag_line p ++ concat (tag_line <$> tags) ++ rest.
Proof. rewrite fmap_cons, app_assoc. done. Qed.

Lemma read_tag_lines tags rest fuel : Forall carried_tag tags -> (length tags < fuel)%nat ->
  read_tags fuel (concat (tag_line <$> tags) ++ x20 :: rest) = Some (tags, x20 :: rest).
Proof.
  intros Ht. revert fuel. induction Ht as [|[k v] tags [Hk Hv] Ht IH]; intros [|fuel] Hf; cbn in Hf; try lia; [done|].
  rewrite tag_lines_cons, tag_line_app. cbn [fst snd read_tags] in *. rewrite next_cons, read_key by auto.
  rewrite next_cons. cbn [mbind option_bind].
  assert (Hs : exists c l, concat (tag_line <$> tags) ++ x20 :: rest = c :: l /\ (c = x2c \/ c = x3d \/ c = x20)).
  { destruct tags as [|p tags]; cbn; eexists _, _; (split; [reflexivity|]); auto. }
  destruct Hs as (c & l & Hs & Hc). rewrite Hs, read_key by done. rewrite <-Hs, IH by lia. done.
Qed.

Lemma read_field_lines fields rest fuel : fields <> [] -> Forall carried_value fields -> (length fields < fuel)%nat ->
  read_fields fuel (fields_line true fields ++ x20 :: rest) = Some (fields, x20 :: rest).
Proof.
  intros Hne Hv. revert fuel Hne. induction Hv as [|[k v] fields [Hk Hv] Hf IH]; intros [|fuel] Hne Hl; cbn in Hl; try lia; [done|].
  cbn [fields_line app]. rewrite <-app_assoc, field_line_app. cbn [fst snd read_fields] in *. rewrite read_key by auto.
  rewrite next_cons. cbn [mbind option_bind].
  destruct fields as [|p fields].
  - cbn [fields_line app]. rewrite read_field_text by auto. done.
  - specialize (IH fuel ltac:(done) ltac:(cbn in *; lia)). cbn [fields_line app] in *.
    rewrite read_field_text by auto. cbn [mbind option_bind]. rewrite next_cons, IH. done.
Qed.

Lemma length_tag_lines tags : (length tags <= length (concat (tag_line <$> tags)))%nat.
Proof. induction tags as [|p tags IH]; [done|]. cbn in *. rewrite !length_app in *. cbn. lia. Qed.
Lemma length_field_lines first fields : (length fields <= length (fields_line first fields))%nat.
Proof.
  revert first. induction fields as [|p fields IH]; intros first; [done|]. cbn [fields_line length]. rewrite !length_app.
  unfold field_line. rewrite !length_app. specialize (IH false). cbn. lia.
Qed.

(** The reader gives back the texts of a line. *)
Lemma read_line_of m tags fields time :
  carried m -> Forall carried_tag tags -> fields <> [] -> Forall carried_value fields ->
  newline ∉ time -> read_line (line_of m tags fields time) = Some (m, tags, fields, time).
Proof.
  intros Hm Ht Hne Hf Hti. unfold read_line, line_of.
  set (tail := fields_line true fields ++ [x20] ++ time ++ [newline]).
  assert (Hs : exists c l, concat (tag_line <$> tags) ++ [x20] ++ tail = c :: l /\ (c = x2c \/ c = x20)).
  { destruct tags as [|p tags]; cbn; eexists _, _; (split; [reflexivity|]); auto. }
  destruct Hs as (c & l & Hs & Hc). rewrite Hs. cbn [escaped]. rewrite (read_escaped measurement_special); [|done|done|done|by destruct Hc as [-> | ->]].
  rewrite <-Hs. change ([x20] ++ tail) with (x20 :: tail). rewrite read_tag_lines; [|done|].
  2: { rewrite length_app. pose proof (length_tag_lines tags). cbn. lia. }
  cbn [mbind option_bind]. rewrite next_cons. cbn [mbind option_bind]. unfold tail.
  change ([x20] ++ time ++ [newline]) with (x20 :: time ++ [newline]). rewrite read_field_lines; [|done|done|].
  2: { rewrite length_app. pose proof (length_field_lines true fields). cbn. lia. }
  cbn [mbind option_bind]. rewrite next_cons. cbn [mbind option_bind]. rewrite read_until_app; [|by apply forallb_forall; intros x Hx%list_elem_of_In; apply negb_true_iff, byte_eqb_neq; intros <-|by apply byte_eqb_refl].
  by rewrite bool_decide_true.
Qed.

Section Query.
Context (col_size : string -> string -> Z).

Inductive data_type : Type := unknown | metric | status.
#[global] Instance data_type_eq_dec : EqDecision data_type.
Proof. solve_decision. Defined.

Inductive data_getter : Type :=
  | _get_metric_id | _get_source_id | _get_metric_name | _get_value | _get_state | _get_metric_time | _get_status_time
  | _get_string | _get_dollar_sign | _get_index_id | _get_host | _get_host_id | _get_service | _get_service_id
  | _get_instance.

Record query : Type := Query {
  _compiled_getters : list (data_getter * option data_escaper);
  _compiled_strings : list cstring;
  _type : data_type
}.

(** ** Compilation *)

Definition _append_compiled_getter (q : query) (g : data_getter) (e : option data_escaper) : query :=
  Query (_compiled_getters q ++ [(g, e)]) (_compiled_strings q) (_type q).
Definition _append_compiled_string (q : query) (s : cstring) (e : option data_escaper) : query :=
  _append_compiled_getter (Query (_compiled_getters q) (_compiled_strings q ++ [s]) (_type q)) _get_string e.

Definition _throw_on_invalid (q : query) (macro_type : data_type) : outcome unit :=
  if bool_decide (macro_type <> _type q) then Throws Exn_msg else Returns tt.

Definition push_macro (escaper : option data_escaper) (q : query) (macro : cstring) : outcome query :=
  let this name := cstring_eqb macro (str name) in
  let push q g := Returns (_append_compiled_getter q g escaper) in
  let q := if this "$$"%string then _append_compiled_getter q _get_dollar_sign escaper else q in
  if this "$METRICID$"%string then _ ← _throw_on_invalid q metric; push q _get_metric_id
  else if this "$INSTANCE$"%string then push q _get_instance
  else if this "$INSTANCEID$"%string then push q _get_source_id
  else if this "$HOST$"%string then push q _get_host
  else if this "$HOSTID$"%string then push q _get_host_id
  else if this "$SERVICE$"%string then push q _get_service
  else if this "$SERVICEID$"%string then push q _get_service_id
  else if this "$METRIC$"%string then _ ← _throw_on_invalid q metric; push q _get_metric_name
  else if this "$INDEXID$"%string then push q _get_index_id
  else if this "$VALUE$"%string then
    match _type q with metric => push q _get_value | status => push q _get_state | unknown => Returns q end
  else if this "$TIME$"%string then
    match _type q with metric => push q _get_metric_time | status => push q _get_status_time | unknown => Returns q end
  else Returns q.

Definition _compile_scheme (q : query) (scheme : cstring) (escaper : option data_escaper) : outcome query :=
  scan (fun q s => _append_compiled_string q s escaper) (push_macro escaper) scheme q.

(** The loop on the tags. *)
Fixpoint compile_tags (q : query) (columns : list column) : outcome query :=
  match columns with
  | [] => Returns q
  | it :: columns =>
    q ← (if _is_flag it then
           let q := _append_compiled_string q (str ",") None in
           q ← _compile_scheme q (_name it) (Some escape_key);
           let q := _append_compiled_string q (str "=") None in
           _compile_scheme q (_value it) (Some escape_key)
         else Returns q);
    compile_tags q columns
  end.

(** The loop on the fields; the flag is [first]. *)
Fixpoint compile_fields (q : query) (first : bool) (columns : list column) : outcome (query * bool) :=
  match columns with
  | [] => Returns (q, first)
  | it :: columns =>
    if negb (_is_flag it) then
      let q := if first then q else _append_compiled_string q (str ",") None in
      q ← _compile_scheme q (_name it) (Some escape_key);
      let q := _append_compiled_string q (str "=") None in
      q ← match _column_type it with
          | number => _compile_scheme q (_value it) None
          | string_column => _compile_scheme q (_value it) (Some escape_value)
          end;
      compile_fields q false columns
    else compile_fields q first columns
  end.

Definition new_query (timeseries : cstring) (columns : list column) (type : data_type) : outcome query :=
  q ← _compile_scheme (Query [] [] type) timeseries (Some escape_measurement);
  q ← compile_tags q columns;
  let q := _append_compiled_string q (str " ") None in
  r ← compile_fields q true columns;
  let q := if negb r.2 then _append_compiled_string r.1 (str " ") None else r.1 in
  q ← _compile_scheme q (str "$TIME$") None;
  Returns (_append_compiled_string q [x0a] None).

(** ** Generation *)

Section Getters.
Context (q : query) (_cache : macro_cache) (d : Bbdo.data).

Definition metric_number : string -> Z := Graphite.metric_number col_size d.
Definition status_number : string -> Z := Graphite.status_number d.

Definition index_of : outcome Z :=
  if bool_decide (_type q = status) then Returns (status_number "index_id")
  else found ← get_metric_mapping _cache (metric_number "metric_id"); Returns (metric_index_id found).

Definition host_text : outcome cstring :=
  if bool_decide (_type q = status) then
    index ← index_of; found ← get_index_mapping _cache index; get_host_name col_size _cache (index_host_id found)
  else get_host_name col_size _cache (metric_number "host_id").

Definition host_id_text : outcome cstring :=
  if bool_decide (_type q = status) then
    index ← index_of; found ← get_index_mapping _cache index; Returns (Dbl.dec (index_host_id found))
  else Returns (Dbl.dec (metric_number "host_id")).

Definition service_text : outcome cstring :=
  if bool_decide (_type q = status) then
    index ← index_of; stm ← get_index_mapping _cache index;
    get_service_description col_size _cache (index_host_id stm) (index_service_id stm)
  else get_service_description col_size _cache (metric_number "host_id") (metric_number "service_id").

Definition service_id_text : outcome cstring :=
  if bool_decide (_type q = status) then
    index ← index_of; found ← get_index_mapping _cache index; Returns (Dbl.dec (index_service_id found))
  else Returns (Dbl.dec (metric_number "service_id")).

(** What a getter writes, and _string_index after it. *)
Definition call (g : data_getter) (index : nat) : outcome (cstring * nat) :=
  match g with
  | _get_metric_id => Returns (Dbl.dec (metric_number "metric_id"), index)
  | _get_source_id => Returns (Dbl.dec (Bbdo.source_id d), index)
  | _get_metric_name => Returns (Graphite.metric_name col_size d, index)
  | _get_value => Returns (Gprint.print_g (Graphite.metric_value col_size d), index)
  | _get_state => Returns (Ba.int_text (status_number "state"), index)
  | _get_metric_time => Returns (Ba.int_text (metric_number "ctime"), index)
  | _get_status_time => Returns (Ba.int_text (status_number "ctime"), index)
  | _get_string => match _compiled_strings q !! index with Some s => Returns (s, S index) | None => Diverges end
  | _get_dollar_sign => Returns (str "$", index)
  | _get_index_id => i ← index_of; Returns (Dbl.dec i, index)
  | _get_host => s ← host_text; Returns (s, index)
  | _get_host_id => s ← host_id_text; Returns (s, index)
  | _get_service => s ← service_text; Returns (s, index)
  | _get_service_id => s ← service_id_text; Returns (s, index)
  | _get_instance => s ← get_instance col_size _cache (Bbdo.source_id d); Returns (s, index)
  end.

Fixpoint generate_loop (getters : list (data_getter * option data_escaper)) (index : nat) (iss : cstring) : outcome cstring :=
  match getters with
  | [] => Returns iss
  | (it, e) :: getters =>
    r ← call it index;
    s ← match e with None => Returns r.1 | Some e => escape_with e r.1 end;
    generate_loop getters r.2 (iss ++ s)
  end.

Definition caught (o : outcome cstring) : outcome cstring :=
  match o with Returns iss => Returns iss | Throws _ => Returns [] | Diverges => Diverges end.
End Getters.

Definition generate_metric (q : query) (_cache : macro_cache) (me : Bbdo.data) : outcome cstring :=
  if bool_decide (_type q <> metric) then Throws Exn_msg else caught (generate_loop q _cache me (_compiled_getters q) 0 []).

Definition generate_status (q : query) (_cache : macro_cache) (st : Bbdo.data) : outcome cstring :=
  if bool_decide (_type q <> status) then Throws Exn_msg else caught (generate_loop q _cache st (_compiled_getters q) 0 []).

Definition generate (q : query) : macro_cache -> Bbdo.data -> outcome cstring :=
  match _type q with status => generate_status q | _ => generate_metric q end.

(** ** What a query is made of *)


Inductive item : Type := Text (s : cstring) | Getter (g : data_getter).

Definition item_getter (i : item) : data_getter := match i with Text _ => _get_string | Getter g => g end.
Definition item_strings (i : item) : list cstring := match i with Text s => [s] | Getter _ => [] end.

Definition macro_getter (t : data_type) (macro : cstring) : option data_getter :=
  let this name := cstring_eqb macro (str name) in
  if this "$$"%string then Some _get_dollar_sign
  else if this "$METRICID$"%string then Some _get_metric_id
  else if this "$INSTANCE$"%string then Some _get_instance
  else if this "$INSTANCEID$"%string then Some _get_source_id
  else if this "$HOST$"%string then Some _get_host
  else if this "$HOSTID$"%string then Some _get_host_id
  else if this "$SERVICE$"%string then Some _get_service
  else if this "$SERVICEID$"%string then Some _get_service_id
  else if this "$METRIC$"%string then Some _get_metric_name
  else if this "$INDEXID$"%string then Some _get_index_id
  else if this "$VALUE$"%string then
    match t with metric => Some _get_value | status => Some _get_state | unknown => None end
  else if this "$TIME$"%string then
    match t with metric => Some _get_metric_time | status => Some _get_status_time | unknown => None end
  else None.

Definition allowed (t : data_type) (macro : cstring) : bool :=
  match t with
  | metric => true
  | _ => negb (cstring_eqb macro (str "$METRICID$")) && negb (cstring_eqb macro (str "$METRIC$"))
  end.

Definition piece_items (t : data_type) (p : piece) : list item :=
  match p with
  | Literal s => if bool_decide (s = []) then [] else [Text s]
  | Macro name => option_list (Getter <$> macro_getter t ([dollar] ++ name ++ [dollar]))
  end.
Definition piece_allowed (t : data_type) (p : piece) : bool :=
  match p with Literal _ => true | Macro name => allowed t ([dollar] ++ name ++ [dollar]) end.

Definition scheme_items (t : data_type) (s : cstring) : list item := (scheme_pieces s).1 ≫= piece_items t.
Definition scheme_allowed (t : data_type) (s : cstring) : bool :=
  forallb (piece_allowed t) (scheme_pieces s).1 && (scheme_pieces s).2.

(** A query with more parts: items with their escaping. *)
Definition add (q : query) (l : list (item * option data_escaper)) : query :=
  Query (_compiled_getters q ++ ((fun p => (item_getter p.1, p.2)) <$> l)) (_compiled_strings q ++ (l.*1 ≫= item_strings)) (_type q).

Lemma add_nil q : add q [] = q.
Proof. destruct q. unfold add. cbn. by rewrite !app_nil_r. Qed.
Lemma add_app q a b : add (add q a) b = add q (a ++ b).
Proof. unfold add. cbn [_compiled_getters _compiled_strings _type]. by rewrite !fmap_app, bind_app, <-!app_assoc. Qed.

Lemma line_macro_spec e q macro : push_macro e q macro
  = if allowed (_type q) macro then Returns (add q ((., e) <$> option_list (Getter <$> macro_getter (_type q) macro)))
    else Throws Exn_msg.
Proof.
  assert (Ha : forall g, _append_compiled_getter q g e = add q [(Getter g, e)]).
  { intros g. unfold add, _append_compiled_getter. cbn. by rewrite app_nil_r. }
  unfold push_macro, macro_getter, allowed, _throw_on_invalid. rewrite !Ha. pose proof (add_nil q) as Hn.
  macros; cbn [negb andb]; destruct (_type q) eqn:Et; cbn; rewrite ?Et, ?Hn; cbn; rewrite ?Ha, ?Hn; done.
Qed.

Lemma append_string_add q s e : _append_compiled_string q s e = add q [(Text s, e)].
Proof. done. Qed.

Lemma line_emit_spec e l q :
  emit_all (fun q s => _append_compiled_string q s e) (push_macro e) l q
  = if forallb (piece_allowed (_type q)) l then Returns (add q ((., e) <$> (l ≫= piece_items (_type q)))) else Throws Exn_msg.
Proof.
  revert q. induction l as [|p l IH]; intros q; cbn [emit_all forallb]; [by rewrite add_nil|].
  assert (Hp : emit (fun q s => _append_compiled_string q s e) (push_macro e) q p
    = if piece_allowed (_type q) p then Returns (add q ((., e) <$> piece_items (_type q) p)) else Throws Exn_msg).
  { destruct p as [s|name]; cbn [emit piece_allowed piece_items]; [|apply line_macro_spec].
    case_bool_decide; [by rewrite add_nil|]. by rewrite append_string_add. }
  rewrite Hp. destruct (piece_allowed _ p); [|done]. cbn [mbind outcome_bind andb]. rewrite IH. cbn [_type add].
  destruct (forallb _ l); [|done]. by rewrite bind_cons, fmap_app, add_app.
Qed.

Lemma compile_scheme_spec q s e : _compile_scheme q s e
  = if scheme_allowed (_type q) s then Returns (add q ((., e) <$> scheme_items (_type q) s)) else Throws Exn_msg.
Proof.
  unfold _compile_scheme, scheme_allowed, scheme_items. rewrite scan_spec, line_emit_spec.
  destruct (forallb _ _); [|done]. cbn [mbind outcome_bind andb]. by destruct (scheme_pieces s).2.
Qed.

(** ** Texts of parts *)

Section Texts.
Context (t : data_type) (c : macro_cache) (d : Bbdo.data).

Definition getter_text (g : data_getter) : outcome cstring := fst <$> call (Query [] [] t) c d g 0.
Definition item_text (i : item) : outcome cstring := match i with Text s => Returns s | Getter g => getter_text g end.

Fixpoint items_text (l : list item) : outcome cstring :=
  match l with [] => Returns [] | i :: l => s ← item_text i; r ← items_text l; Returns (s ++ r) end.

(** The text of a scheme, without escaping. *)
Definition scheme_text (s : cstring) : outcome cstring := items_text (scheme_items t s).

Definition part_escape (e : option data_escaper) (s : cstring) : cstring :=
  match e with None => s | Some e => escaped e s end.

Fixpoint parts_text (l : list (item * option data_escaper)) : outcome cstring :=
  match l with
  | [] => Returns []
  | (i, e) :: l => s ← item_text i; r ← parts_text l; Returns (part_escape e s ++ r)
  end.

Lemma parts_text_app a b x y : parts_text a = Returns x -> parts_text b = Returns y -> parts_text (a ++ b) = Returns (x ++ y).
Proof.
  revert x. induction a as [|[i e] a IH]; intros x; cbn [parts_text app]; [by intros [= <-]|].
  destruct (item_text i) as [s| |]; cbn [mbind outcome_bind]; try done.
  destruct (parts_text a) as [r| |]; cbn [mbind outcome_bind]; try done. intros [= <-] Hb.
  rewrite (IH r eq_refl Hb). cbn. by rewrite <-app_assoc.
Qed.

(** Escaping by pieces is escaping the whole, except for values. *)
Lemma parts_text_scheme e l x : e <> Some escape_value -> items_text l = Returns x ->
  parts_text ((., e) <$> l) = Returns (part_escape e x).
Proof.
  intros He. revert x. induction l as [|i l IH]; intros x; cbn [items_text parts_text fmap list_fmap].
  - intros [= <-]. by destruct e as [[]|].
  - destruct (item_text i) as [s| |]; cbn [mbind outcome_bind]; try done.
    destruct (items_text l) as [r| |]; cbn [mbind outcome_bind]; try done. intros [= <-].
    fold ((., e) <$> l). rewrite (IH r eq_refl). cbn. do 2 f_equal. destruct e as [[]|]; cbn; rewrite ?escape_chars_app; done.
Qed.
End Texts.

Lemma call_getter q c d g index : g <> _get_string ->
  call q c d g index = (fun s => (s, index)) <$> getter_text (_type q) c d g.
Proof.
  intros Hg. unfold getter_text. destruct g; try done; unfold call.
  all: match goal with |- mbind _ ?o = _ => change o with o end.
  all: try reflexivity.
  all: match goal with |- mbind _ ?o = fmap _ (fmap _ (mbind _ ?o')) => change o' with o; by destruct o end.
Qed.

(** Items whose getter is not that of texts. *)
Definition item_ok (i : item) : Prop := match i with Text _ => True | Getter g => g <> _get_string end.

Lemma piece_items_ok t p : Forall item_ok (piece_items t p).
Proof.
  destruct p as [s|name]; cbn [piece_items]; [case_bool_decide; by repeat constructor|].
  generalize ([dollar] ++ name ++ [dollar]). intros macro. unfold macro_getter.
  macros; try destruct t; cbn; repeat constructor; discriminate.
Qed.

Lemma scheme_items_ok t s : Forall item_ok (scheme_items t s).
Proof.
  unfold scheme_items. induction (scheme_pieces s).1 as [|p l IH]; [constructor|]. rewrite bind_cons. apply Forall_app.
  split; [apply piece_items_ok|done].
Qed.

(** A query of parts writes their texts. *)
Lemma parts_generate q c d l o pre iss :
  Forall (fun p => item_ok p.1) l -> parts_text (_type q) c d l = o ->
  _compiled_strings q = pre ++ (l.*1 ≫= item_strings) ->
  generate_loop q c d ((fun p => (item_getter p.1, p.2)) <$> l) (length pre) iss = s ← o; Returns (iss ++ s).
Proof.
  intros Hl <-. revert pre iss. induction Hl as [|[i e] l Hi Hl IH]; intros pre iss Hq; cbn [fmap list_fmap generate_loop parts_text].
  { cbn. by rewrite app_nil_r. }
  assert (He : forall s, match e with None => Returns s | Some e => escape_with e s end = Returns (part_escape e s)).
  { intros s. destruct e; [apply escape_with_spec|done]. }
  change (((i, e) :: l).*1) with (i :: l.*1) in Hq. rewrite bind_cons in Hq. fold (fmap (M := list) (fun p : item * option data_escaper => (item_getter p.1, p.2)) l).
  destruct i as [s|g]; cbn [item_getter item_strings item_text fst snd] in *.
  - assert (Hlk : _compiled_strings q !! length pre = Some s) by (rewrite Hq; by apply list_lookup_middle).
    cbn [call]. rewrite Hlk. cbn [mbind outcome_bind fst snd]. rewrite He.
    cbn [mbind outcome_bind]. replace (S (length pre)) with (length (pre ++ [s])) by (rewrite length_app; cbn; lia).
    rewrite IH by (by rewrite Hq, <-app_assoc). destruct (parts_text _ c d l); cbn; try done. by rewrite <-app_assoc.
  - rewrite call_getter by done. destruct (getter_text _ c d g) as [s| |]; cbn [fmap outcome_fmap mbind outcome_bind fst snd]; try done.
    rewrite He. cbn [mbind outcome_bind]. rewrite IH by done. destruct (parts_text _ c d l); cbn; try done. by rewrite <-app_assoc.
Qed.

(** ** The parts of a line *)

Definition scheme_parts (t : data_type) (e : option data_escaper) (s : cstring) : list (item * option data_escaper) :=
  (., e) <$> scheme_items t s.
Definition text_part (s : string) : list (item * option data_escaper) := [(Text (str s), None)].

Definition value_escaper (it : column) : option data_escaper :=
  match _column_type it with number => None | string_column => Some escape_value end.
Definition tag_parts (t : data_type) (it : column) : list (item * option data_escaper) :=
  text_part "," ++ scheme_parts t (Some escape_key) (_name it) ++ text_part "=" ++ scheme_parts t (Some escape_key) (_value it).
Definition field_parts (t : data_type) (it : column) : list (item * option data_escaper) :=
  scheme_parts t (Some escape_key) (_name it) ++ text_part "=" ++ scheme_parts t (value_escaper it) (_value it).

Fixpoint fields_parts (t : data_type) (first : bool) (l : list column) : list (item * option data_escaper) :=
  match l with
  | [] => []
  | it :: l => (if first then [] else text_part ",") ++ field_parts t it ++ fields_parts t false l
  end.

Definition is_tag (it : column) : Prop := _is_flag it = true.
#[global] Instance is_tag_dec it : Decision (is_tag it).
Proof. unfold is_tag. apply _. Defined.

Definition tags_of (l : list column) : list column := filter is_tag l.
Definition fields_of (l : list column) : list column := filter (fun it => ~ is_tag it) l.

Lemma scheme_compiled q s e q' : _compile_scheme q s e = Returns q' -> q' = add q (scheme_parts (_type q) e s).
Proof. rewrite compile_scheme_spec. destruct (scheme_allowed _ s); [|done]. by intros [= <-]. Qed.

Lemma add_type q l : _type (add q l) = _type q.
Proof. done. Qed.

Ltac added := rewrite ?append_string_add, ?add_app, ?add_type, <-?app_assoc; reflexivity.

Lemma tag_compiled q it q' :
  (let q := _append_compiled_string q (str ",") None in
   q ← _compile_scheme q (_name it) (Some escape_key);
   let q := _append_compiled_string q (str "=") None in
   _compile_scheme q (_value it) (Some escape_key)) = Returns q' -> q' = add q (tag_parts (_type q) it).
Proof.
  cbv zeta. intros (q1 & H1 & H2)%bind_Returns. apply scheme_compiled in H1, H2. rewrite H2, H1. unfold tag_parts. added.
Qed.

Lemma tags_compiled q l q' : compile_tags q l = Returns q' -> q' = add q (mjoin (tag_parts (_type q) <$> tags_of l)).
Proof.
  revert q. induction l as [|it l IH]; intros q; cbn [compile_tags]; [intros [= <-]; by rewrite add_nil|].
  intros Hq. unfold tags_of. destruct (decide (is_tag it)) as [Ht|Ht].
  - rewrite filter_cons_True by done. rewrite Ht in Hq. apply bind_Returns in Hq as (q1 & H1%tag_compiled & H2%IH).
    rewrite H2, H1, fmap_cons. cbn [mjoin list_join]. added.
  - rewrite filter_cons_False by done. rewrite (not_true_is_false _ Ht) in Hq. by apply IH.
Qed.

Lemma field_compiled q it q' :
  (q ← _compile_scheme q (_name it) (Some escape_key);
   let q := _append_compiled_string q (str "=") None in
   match _column_type it with
   | number => _compile_scheme q (_value it) None
   | string_column => _compile_scheme q (_value it) (Some escape_value)
   end) = Returns q' -> q' = add q (field_parts (_type q) it).
Proof.
  cbv zeta. intros (q1 & H1 & H2)%bind_Returns. unfold field_parts, value_escaper.
  destruct (_column_type it); apply scheme_compiled in H1, H2; rewrite H2, H1; added.
Qed.

Lemma fields_compiled q first l r : compile_fields q first l = Returns r ->
  r.1 = add q (fields_parts (_type q) first (fields_of l)) /\ r.2 = (if fields_of l is [] then first else false).
Proof.
  revert q first. induction l as [|it l IH]; intros q first; cbn [compile_fields]; [intros [= <-]; by rewrite add_nil|].
  intros Hq. unfold fields_of. destruct (decide (is_tag it)) as [Ht|Ht].
  - rewrite filter_cons_False by auto. rewrite Ht in Hq. by apply IH.
  - rewrite filter_cons_True by done. rewrite (not_true_is_false _ Ht) in Hq. cbn [negb] in Hq. cbv zeta in Hq.
    set (q1 := if first then q else _) in Hq.
    assert (Hq1 : q1 = add q (if first then [] else text_part ",")) by (unfold q1; destruct first; [by rewrite add_nil|done]).
    clearbody q1. apply bind_Returns in Hq as (q2 & H2 & Hq). apply bind_Returns in Hq as (q3 & H3 & Hq).
    assert (Hf : q3 = add q1 (field_parts (_type q1) it)).
    { apply field_compiled. rewrite H2. exact H3. }
    apply IH in Hq as [Hr1 Hr2]. rewrite Hr1, Hr2, Hf, Hq1. fold (fields_of l). cbn [fields_parts]. split; [added|]. by destruct (fields_of l).
Qed.

(** The parts of a line. *)
Definition line_parts (t : data_type) (timeseries : cstring) (columns : list column) : list (item * option data_escaper) :=
  scheme_parts t (Some escape_measurement) timeseries ++ mjoin (tag_parts t <$> tags_of columns) ++ text_part " "
  ++ fields_parts t true (fields_of columns) ++ (if fields_of columns is [] then [] else text_part " ")
  ++ scheme_parts t None (str "$TIME$") ++ [(Text [x0a], None)].

Lemma line_compiled timeseries columns t q : new_query timeseries columns t = Returns q ->
  q = add (Query [] [] t) (line_parts t timeseries columns).
Proof.
  unfold new_query. intros (q1 & H1%scheme_compiled & Hq)%bind_Returns.
  apply bind_Returns in Hq as (q2 & H2%tags_compiled & Hq). apply bind_Returns in Hq as ([q3 b] & H3%fields_compiled & Hq).
  apply bind_Returns in Hq as (q4 & H4%scheme_compiled & [= <-]). destruct H3 as [H3 Hb]. cbn [fst snd] in *.
  rewrite H4. unfold line_parts. destruct (fields_of columns); subst b; cbn [negb]; rewrite H3, H2, H1; added.
Qed.
Lemma scheme_parts_ok t e s : Forall (fun p => item_ok p.1) (scheme_parts t e s).
Proof. unfold scheme_parts. apply Forall_fmap, (Forall_impl item_ok); [apply scheme_items_ok|done]. Qed.
Lemma text_part_ok s : Forall (fun p => item_ok p.1) (text_part s).
Proof. by repeat constructor. Qed.

Lemma line_parts_ok t timeseries columns : Forall (fun p => item_ok p.1) (line_parts t timeseries columns).
Proof.
  unfold line_parts. rewrite !Forall_app. split; [apply scheme_parts_ok|]. split.
  { induction (tags_of columns) as [|it l IH]; [constructor|]. rewrite fmap_cons. cbn [mjoin list_join]. apply Forall_app.
    split; [|done]. unfold tag_parts. rewrite !Forall_app. auto using scheme_parts_ok, text_part_ok. }
  split; [apply text_part_ok|]. split.
  { generalize true. induction (fields_of columns) as [|it l IH]; intros first; [constructor|]. cbn [fields_parts].
    unfold field_parts. rewrite !Forall_app. destruct first; auto 6 using scheme_parts_ok, text_part_ok. }
  split; [by destruct (fields_of columns); [constructor|apply text_part_ok]|].
  split; [apply scheme_parts_ok|by repeat constructor].
Qed.

(** ** What a line says *)

Definition time_text (t : data_type) (d : Bbdo.data) : cstring :=
  Ba.int_text (match t with status => status_number d "ctime" | _ => metric_number d "ctime" end).

(** The texts that the columns stand for when the event comes. *)
Section Says.
Context (t : data_type) (c : macro_cache) (d : Bbdo.data).

Definition says_tag (it : column) (p : cstring * cstring) : Prop :=
  scheme_text t c d (_name it) = Returns p.1 /\ scheme_text t c d (_value it) = Returns p.2.

Definition says_field (it : column) (p : cstring * field) : Prop :=
  scheme_text t c d (_name it) = Returns p.1
  /\ match p.2 with
     | Number_field s => _column_type it = number /\ scheme_text t c d (_value it) = Returns s
     | String_field s => _column_type it = string_column /\ scheme_text t c d (_value it) = Returns s
         /\ length (scheme_items t (_value it)) = 1%nat
     end.

Lemma scheme_parts_text e s x : e <> Some escape_value -> scheme_text t c d s = Returns x ->
  parts_text t c d (scheme_parts t e s) = Returns (part_escape e x).
Proof. intros He Hx. by apply parts_text_scheme. Qed.

Lemma text_part_text s : parts_text t c d (text_part s) = Returns (str s).
Proof. cbn. by rewrite app_nil_r. Qed.

Lemma tag_parts_text it p : says_tag it p -> parts_text t c d (tag_parts t it) = Returns (tag_line p).
Proof.
  intros [Hk Hv]. unfold tag_parts, tag_line.
  apply parts_text_app; [apply text_part_text|]. apply parts_text_app; [by apply (scheme_parts_text (Some escape_key))|].
  apply parts_text_app; [apply text_part_text|]. by apply (scheme_parts_text (Some escape_key)).
Qed.

Lemma tags_parts_text l ps : Forall2 says_tag l ps ->
  parts_text t c d (mjoin (tag_parts t <$> l)) = Returns (concat (tag_line <$> ps)).
Proof.
  induction 1 as [|it p l ps Hp _ IH]; [done|]. rewrite !fmap_cons. cbn [mjoin list_join concat].
  apply parts_text_app; [by apply tag_parts_text|done].
Qed.

Lemma field_parts_text it p : says_field it p -> parts_text t c d (field_parts t it) = Returns (field_line p).
Proof.
  intros [Hk Hv]. unfold field_parts, field_line. apply parts_text_app; [by apply (scheme_parts_text (Some escape_key))|].
  apply parts_text_app; [apply text_part_text|]. unfold value_escaper. destruct p.2 as [s|s].
  - destruct Hv as [-> Hv]. by apply (scheme_parts_text None).
  - destruct Hv as (-> & Hv & Hl). unfold scheme_text, scheme_parts in *. destruct (scheme_items t (_value it)) as [|i []]; try done.
    cbn in *. destruct (item_text t c d i); try done. cbn in *. injection Hv as <-. rewrite !app_nil_r. done.
Qed.

Lemma fields_parts_text first l ps : Forall2 says_field l ps ->
  parts_text t c d (fields_parts t first l) = Returns (fields_line first ps).
Proof.
  intros Hl. revert first. induction Hl as [|it p l ps Hp _ IH]; intros first; [done|]. cbn [fields_parts fields_line].
  apply parts_text_app; [destruct first; [done|apply text_part_text]|].
  apply parts_text_app; [by apply field_parts_text|apply IH].
Qed.

Lemma time_scheme_text : t <> unknown -> scheme_text t c d (str "$TIME$") = Returns (time_text t d).
Proof.
  intros Ht. unfold scheme_text, time_text.
  assert (Hi : scheme_items t (str "$TIME$") = [Getter (match t with status => _get_status_time | _ => _get_metric_time end)]).
  { by destruct t. }
  rewrite Hi. cbn [items_text item_text]. unfold getter_text.
  destruct t; cbn [call fmap outcome_fmap fst mbind outcome_bind]; [done|by rewrite app_nil_r..].
Qed.

Lemma line_parts_text timeseries columns m tags fields :
  t <> unknown -> scheme_text t c d timeseries = Returns m ->
  Forall2 says_tag (tags_of columns) tags -> Forall2 says_field (fields_of columns) fields -> fields <> [] ->
  parts_text t c d (line_parts t timeseries columns) = Returns (line_of m tags fields (time_text t d)).
Proof.
  intros Ht Hm Htags Hfields Hne. unfold line_parts, line_of.
  apply parts_text_app; [by apply (scheme_parts_text (Some escape_measurement))|].
  apply parts_text_app; [by apply tags_parts_text|]. apply parts_text_app; [apply text_part_text|].
  apply parts_text_app; [by apply fields_parts_text|].
  apply parts_text_app.
  { destruct Hfields; [done|]. apply text_part_text. }
  apply parts_text_app; [|done]. apply (scheme_parts_text None); [done|]. by apply time_scheme_text.
Qed.
End Says.

(** A query that was made writes something for each event: nothing loops. *)
Lemma getter_ends t c d g : g <> _get_string -> getter_text t c d g <> Diverges.
Proof.
  intros Hg. destruct (Graphite.lookups_end col_size c) as (Hi & Hm & Hh & Hs & Hn). unfold getter_text. apply Graphite.fmap_ends.
  assert (Hx : index_of (Query [] [] t) c d <> Diverges).
  { unfold index_of. case_bool_decide; [done|]. apply Graphite.bind_ends; [apply Hm|done]. }
  destruct g; try done; unfold call, host_text, host_id_text, service_text, service_id_text; repeat case_bool_decide;
    repeat first [discriminate | apply Hx | apply Hi | apply Hm | apply Hh | apply Hs | apply Hn | apply Graphite.bind_ends; [|intros]].
Qed.

Lemma parts_end t c d l : Forall (fun p => item_ok p.1) l -> parts_text t c d l <> Diverges.
Proof.
  induction 1 as [|[i e] l Hi _ IH]; [done|]. cbn [parts_text]. apply Graphite.bind_ends.
  - destruct i; [done|]. by apply getter_ends.
  - intros s. by apply Graphite.bind_ends.
Qed.

Lemma query_generates timeseries columns t q : new_query timeseries columns t = Returns q -> t <> unknown ->
  forall c d, exists s, generate q c d = Returns s.
Proof.
  intros ->%line_compiled Ht c d. set (q := add _ _).
  pose proof (parts_end t c d _ (line_parts_ok t timeseries columns)) as Hp.
  pose proof (parts_generate q c d (line_parts t timeseries columns) _ [] [] (line_parts_ok _ _ _) eq_refl eq_refl) as Hg.
  assert (Hc : generate q c d = caught (generate_loop q c d (_compiled_getters q) 0 [])) by (clear - Ht; unfold q; by destruct t).
  rewrite Hc. change (_type q) with t in Hg. destruct (parts_text t c d _) as [s|e|]; [| |done].
  - exists s. rewrite (Hg : generate_loop q c d (_compiled_getters q) 0 [] = _). done.
  - exists []. rewrite (Hg : generate_loop q c d (_compiled_getters q) 0 [] = _). done.
Qed.

Lemma int_text_plain z : newline ∉ Ba.int_text z.
Proof.
  assert (Hd : forall n, 0 <= n -> newline ∉ Dbl.dec n).
  { intros n Hn. destruct (Dbl.dec_spec n Hn) as (Hd & _). rewrite forallb_forall in Hd.
    intros Hin%list_elem_of_In%Hd. by vm_compute in Hin. }
  unfold Ba.int_text. destruct (Z.ltb_spec z 0); [|apply Hd; lia].
  apply not_elem_of_app. split; [|apply Hd; lia]. by apply (bool_decide_unpack _).
Qed.

(** C27. When the measurement, the names and values of the tags and the names of
    the fields have no newline and do not end with a backslash, text fields are
    of one piece of the scheme and have no backslash, and number fields are texts
    without comma, space nor newline that do not begin with a quote, a line with
    at least one field, read as the line protocol of InfluxDB says, gives back
    the texts of its scheme: the measurement, the name and value of each tag, the
    name and value of each field and the time of the event, whatever commas,
    equal signs and spaces they have. (Some other texts are not carried, see [unread_lines].) *)
Theorem line_reads_back timeseries columns t c d q m tags fields :
  new_query timeseries columns t = Returns q -> t <> unknown ->
  scheme_text t c d timeseries = Returns m ->
  Forall2 (says_tag t c d) (tags_of columns) tags -> Forall2 (says_field t c d) (fields_of columns) fields ->
  fields <> [] -> carried m -> Forall carried_tag tags -> Forall carried_value fields ->
  exists line, generate q c d = Returns line /\ read_line line = Some (m, tags, fields, time_text t d).
Proof.
  intros ->%line_compiled Ht Hm Htags Hfields Hne Hcm Hct Hcf.
  exists (line_of m tags fields (time_text t d)). split; [|by apply read_line_of; [..|apply int_text_plain]].
  set (q := add _ _).
  assert (Hg : generate_loop q c d (_compiled_getters q) 0 [] = Returns (line_of m tags fields (time_text t d))).
  { unfold q at 2. cbn [_compiled_getters add app].
    etrans; [apply (parts_generate q c d (line_parts t timeseries columns) (Returns (line_of m tags fields (time_text t d))) [] []);
      [apply line_parts_ok| |done]|done].
    change (_type q) with t. by apply line_parts_text. }
  assert (Hc : generate q c d = caught (generate_loop q c d (_compiled_getters q) 0 [])).
  { clear - Ht. unfold q. by destruct t. }
  by rewrite Hc, Hg.
Qed.

End Query.

Lemma line_reads_back_witness :
  let cs := fun _ _ : string => 0 in
  let columns := [Column (str "host") (str "$METRIC$ x") true number; Column (str "v,v") (str "$VALUE$") false number;
                  Column (str "s") (str "$METRIC$") false string_column] in
  let metric_fields := <[3%nat := VString [x61; x3d; x22; x2c]]> (object StorageEvents.metric_members (StorageEvents.metric_entries cs)) in
  let d := Bbdo.Data (storage_type StorageEvents.de_metric) 1 0 metric_fields in
  exists q line, new_query (str "met ric") columns metric = Returns q /\ generate cs q no_event d = Returns line
    /\ read_line line = Some (str "met ric", [(str "host", [x61; x3d; x22; x2c] ++ str " x")],
         [(str "v,v", Number_field (str "nan")); (str "s", String_field [x61; x3d; x22; x2c])], str "0").
Proof.
  intros cs columns metric_fields d.
  assert (Hq : exists q, new_query (str "met ric") columns metric = Returns q) by (eexists; vm_compute; reflexivity).
  destruct Hq as [q Hq].
  destruct (line_reads_back cs (str "met ric") columns metric no_event d q (str "met ric")
    [(str "host", [x61; x3d; x22; x2c] ++ str " x")]
    [(str "v,v", Number_field (str "nan")); (str "s", String_field [x61; x3d; x22; x2c])] Hq) as (line & Hg & Hr).
  - discriminate.
  - vm_compute. reflexivity.
  - repeat constructor; vm_compute; reflexivity.
  - repeat constructor; vm_compute; reflexivity.
  - discriminate.
  - by apply (bool_decide_unpack _).
  - by apply (bool_decide_unpack _).
  - repeat constructor; try (by apply (bool_decide_unpack _)); vm_compute; discriminate.
  - exists q, line. split; [done|]. split; [done|]. rewrite Hr. vm_compute. reflexivity.
Defined.

(** A text field whose scheme has two pieces gets quotes around each, and a tag
    whose value ends with a backslash swallows the space that follows: neither
    line is read back. *)
Lemma unread_lines :
  let cs := fun _ _ : string => 0 in
  let d := Bbdo.Data (storage_type StorageEvents.de_metric) 1 0
             (object StorageEvents.metric_members (StorageEvents.metric_entries cs)) in
  let written columns := q ← new_query (str "m") columns metric; generate cs q no_event d in
  (exists line, written [Column (str "s") (str "at $TIME$") false string_column] = Returns line /\ read_line line = None)
  /\ exists line, written [Column (str "t") (str "c:" ++ [backslash]) true number; Column (str "v") (str "1") false number]
       = Returns line /\ read_line line = None.
Proof. split; eexists; (split; [vm_compute; reflexivity|vm_compute; reflexivity]). Qed.
End LineProtocol.
