(* ===== verification/Influxdb.v ===== *)
(** * The stream to InfluxDB (influxdb/src/influxdb12.cc, influxdb/src/stream.cc)

    Lines are gathered in one query and posted over HTTP; the answer of the server
    decides. The network is outside: for each call, whether the connection and the
    sending succeed, and the pieces of the answer as read_some returns them. *)

From Stdlib Require Import ZArith Lia ZifyNat ZifyBool Strings.Byte Strings.String.
From stdpp Require Import base option list numbers strings gmap.
From S2P Require Import Prelude Double Events Bbdo Mapping StorageEvents MacroCache GraphiteCache TextQuery LineProtocol.

Module Influxdb.
Import Events Mapping MacroCache GraphiteCache TextQuery LineProtocol.
#[local] Open Scope Z_scope.

(** ** The answer of the server *)

(** Reading words of a stream. *)
Fixpoint words_loop (s cur : cstring) : list cstring :=
  match s with
  | [] => if bool_decide (cur = []) then [] else [cur]
  | c :: s =>
    if isspace c then (if bool_decide (cur = []) then [] else [cur]) ++ words_loop s []
    else words_loop s (cur ++ [c])
  end.
Definition words (s : cstring) : list cstring := words_loop s [].

Definition beyond_retention : cstring := str "partial write: points beyond retention policy dropped".

(** None is an access past the end of the words: the fourth is read when there
    are only three. *)
Definition _check_answer_string (ans : cstring) : option (outcome bool) :=
  match find_first_if (byte_eqb newline) ans with
  | None => Some (Returns false)
  | Some first_line =>
    let split := words (take first_line ans) in
    if (length split <? 3)%nat then Some (Throws Exn_msg)
    else
      let word i := default [] (split !! i) in
      let refused := if find_str beyond_retention ans is Some _ then Returns true else Throws Exn_msg in
      if cstring_eqb (word 0%nat) (str "HTTP/1.0") && cstring_eqb (word 1%nat) (str "204") && cstring_eqb (word 2%nat) (str "No") then
        w ← split !! 3%nat;
        Some (if cstring_eqb w (str "Content") then Returns true else refused)
      else Some refused
  end.

Definition read_size : nat := 2048.

(** std::string::resize. *)
Definition resize (n : nat) (s : cstring) : cstring := take n s ++ replicate (n - length s) x00.

(** The loop that receives the answer; the argument is what read_some returns: some
    bytes, of which it takes what fits, or an error. None is a write outside of
    the string; without more pieces the call waits. *)
Fixpoint receive (pieces : list (option cstring)) (answer : cstring) (total_read : nat) : option (outcome unit) :=
  match pieces with
  | [] => Some Diverges
  | piece :: pieces =>
    let answer := resize read_size answer in
    if (read_size <? total_read)%nat then None
    else
      let got := match piece with Some s => take (read_size - total_read) s | None => [] end in
      let answer := take total_read answer ++ got ++ drop (total_read + length got) answer in
      let total_read := (total_read + length got)%nat in
      let total_read := if (total_read =? read_size)%nat then (total_read + 2048)%nat else total_read in
      let answer := resize total_read answer in
      match piece with
      | None => Some (Throws Exn_msg)
      | Some _ =>
        match _check_answer_string answer with
        | Some (Returns true) => Some (Returns tt)
        | Some (Returns false) => receive pieces answer total_read
        | Some (Throws e) => Some (Throws e)
        | Some Diverges => Some Diverges
        | None => None
        end
      end
  end.

Lemma resize_app n a b : length a = n -> resize n (a ++ b) = a.
Proof. intros <-. unfold resize. rewrite take_app_length, length_app. replace (length a - _)%nat with 0%nat by lia. by rewrite app_nil_r. Qed.

Lemma resize_more n a : (length a <= n)%nat -> exists z, resize n a = a ++ z /\ length z = (n - length a)%nat.
Proof. intros Hn. exists (replicate (n - length a) x00). split; [by unfold resize; rewrite take_ge by lia|by rewrite length_replicate]. Qed.

(** As long as the answer fits, it grows by what is received. *)
Lemma receive_step p pieces answer :
  (length answer + length p < read_size)%nat ->
  receive (Some p :: pieces) answer (length answer)
  = match _check_answer_string (answer ++ p) with
    | Some (Returns true) => Some (Returns tt)
    | Some (Returns false) => receive pieces (answer ++ p) (length (answer ++ p))
    | Some (Throws e) => Some (Throws e)
    | Some Diverges => Some Diverges
    | None => None
    end.
Proof.
  intros Hn. cbn [receive]. rewrite (proj2 (Nat.ltb_ge _ _)) by lia.
  rewrite (take_ge p) by lia. rewrite (proj2 (Nat.eqb_neq _ _)) by lia.
  destruct (resize_more read_size answer ltac:(lia)) as (z & -> & Hz).
  rewrite take_app_length, <-length_app, app_assoc, resize_app by done. done.
Qed.

Lemma check_incomplete a : newline ∉ a -> _check_answer_string a = Some (Returns false).
Proof.
  intros Ha. unfold _check_answer_string. rewrite (proj2 (find_first_if_None _ _)); [done|].
  apply forallb_forall. intros x Hx%list_elem_of_In. apply negb_true_iff, byte_eqb_neq. by intros <-.
Qed.

Lemma check_success line more rest : newline ∉ line -> words line = str <$> ["HTTP/1.0"; "204"; "No"; "Content"]%string ++ more ->
  _check_answer_string (line ++ newline :: rest) = Some (Returns true).
Proof.
  intros Hl Hw. unfold _check_answer_string. rewrite find_first_if_app; [|by
    apply forallb_forall; intros x Hx%list_elem_of_In; apply negb_true_iff, byte_eqb_neq; intros <-|by apply byte_eqb_refl].
  rewrite take_app_length, Hw. done.
Qed.

Lemma first_of_prefix {A} (a b l r : list A) x : a ++ b = l ++ x :: r -> x ∉ l -> x ∈ a -> exists r', a = l ++ x :: r'.
Proof.
  intros H Hl Ha. apply app_eq_inv in H as [(k & -> & Hk)|(k & -> & _)].
  - destruct k as [|y k]; [by rewrite app_nil_r in Ha|]. injection Hk as <- _. by exists k.
  - destruct Hl. apply elem_of_app. by left.
Qed.

(** The answer with which the server accepts a request is recognised in
    whatever pieces it comes, as long as it is shorter than the buffer. *)
Theorem success_recognised pieces line more rest :
  newline ∉ line -> words line = str <$> ["HTTP/1.0"; "204"; "No"; "Content"]%string ++ more ->
  concat pieces = line ++ newline :: rest -> (length (concat pieces) < read_size)%nat ->
  receive (Some <$> pieces) [] 0 = Some (Returns tt).
Proof.
  intros Hl Hw Hc Hn.
  enough (Hg : forall answer, newline ∉ answer -> answer ++ concat pieces = line ++ newline :: rest ->
    (length (answer ++ concat pieces) < read_size)%nat -> receive (Some <$> pieces) answer (length answer) = Some (Returns tt)).
  { apply (Hg []); [by apply not_elem_of_nil|done|done]. }
  clear Hc Hn. induction pieces as [|p pieces IH]; intros answer Ha Hc Hn; cbn [concat] in *.
  { rewrite app_nil_r in Hc. destruct Ha. rewrite Hc. apply elem_of_app. right. by left. }
  rewrite fmap_cons, receive_step by (rewrite !length_app in Hn; lia).
  destruct (decide (newline ∈ answer ++ p)) as [Hi|Hi].
  - assert (Hp : exists rest', answer ++ p = line ++ newline :: rest').
    { rewrite app_assoc in Hc. by apply (first_of_prefix _ _ _ _ _ Hc). }
    destruct Hp as [rest' ->]. by rewrite (check_success _ more).
  - rewrite check_incomplete by done. apply IH; [done|by rewrite <-app_assoc|by rewrite <-app_assoc].
Qed.

Lemma drop_without (x : byte) n s : x ∉ s -> x ∉ drop n s.
Proof. intros Hs Hx. apply Hs. rewrite <-(take_drop n s). apply elem_of_app. by right. Qed.
Lemma resize_without (x : byte) n s : x <> x00 -> x ∉ s -> x ∉ resize n s.
Proof.
  intros H0 Hs [Hi|Hi]%elem_of_app.
  - apply Hs. rewrite <-(take_drop n s). apply elem_of_app. by left.
  - by apply elem_of_replicate in Hi as [-> _].
Qed.

(** An answer whose first 2048 bytes have no end of line makes the next bytes
    written outside of the buffer. *)
Lemma long_answer_overruns p q pieces : length p = read_size -> newline ∉ p -> receive (Some p :: q :: pieces) [] 0 = None.
Proof.
  intros Hp Hn. cbn [receive]. replace (read_size <? 0)%nat with false by done.
  rewrite Nat.sub_0_r, take_ge by lia. rewrite Nat.add_0_l, Hp, Nat.eqb_refl.
  set (a := resize (read_size + 2048) _).
  assert (Ha : newline ∉ a).
  { apply resize_without; [discriminate|]. change (take 0 _ ++ ?l) with l. intros [Hi|Hi]%elem_of_app; [by apply Hn|].
    revert Hi. apply drop_without, resize_without; [discriminate|apply not_elem_of_nil]. }
  rewrite check_incomplete by done. by rewrite (proj2 (Nat.ltb_lt _ _)) by lia.
Qed.

(** An answer whose first line stops after No makes the code read a word that is
    not there; HTTP/1.1 is an error whatever the status. *)
Lemma short_answers :
  _check_answer_string (str "HTTP/1.0 204 No" ++ [newline]) = None
  /\ _check_answer_string (str "HTTP/1.1 204 No Content" ++ [newline]) = Some (Throws Exn_msg).
Proof. by vm_compute. Qed.

(** *** What accepts a request, said of the whole answer *)

(** The bytes of an answer, until an error. *)
Fixpoint bytes_of (pieces : list (option cstring)) : cstring :=
  match pieces with Some p :: pieces => p ++ bytes_of pieces | _ => [] end.

Definition accepts (answer : cstring) : Prop :=
  (exists status rest more, answer = status ++ newline :: rest /\ newline ∉ status
     /\ words status = (str <$> ["HTTP/1.0"; "204"; "No"; "Content"]%string) ++ more)
  \/ exists before after, answer = before ++ beyond_retention ++ after.

Lemma accepts_more a b : accepts a -> accepts (a ++ b).
Proof.
  intros [(l & r & more & -> & H)|(x & y & ->)]; [left|right].
  - exists l, (r ++ b), more. by rewrite <-app_assoc.
  - exists x, (y ++ b). by rewrite <-!app_assoc.
Qed.

Lemma find_str_Some old s i : find_str old s = Some i -> exists a b, s = a ++ old ++ b.
Proof.
  revert i. induction s as [|c s IH]; intros i; cbn [find_str]; unfold cstring_eqb; case_bool_decide as Hp; intros H; simplify_eq.
  - rewrite take_nil in Hp. subst old. by exists [], [].
  - exists [], (drop (length old) (c :: s)). cbn [app]. rewrite <-Hp at 1. by rewrite take_drop.
  - apply fmap_Some in H as (j & Hj & _). destruct (IH j Hj) as (a & b & ->). by exists (c :: a), b.
Qed.

Lemma four_words (l : list cstring) a b c d : (3 <= length l)%nat -> default [] (l !! 0%nat) = a -> default [] (l !! 1%nat) = b ->
  default [] (l !! 2%nat) = c -> l !! 3%nat = Some d -> exists more, l = [a; b; c; d] ++ more.
Proof. intros Hl. destruct l as [|? [|? [|? [|? more]]]]; cbn in *; try lia; try done. intros -> -> -> [= ->]. by exists more. Qed.

(** The code takes no other answer for a success. *)
Lemma check_accepts ans : _check_answer_string ans = Some (Returns true) -> accepts ans.
Proof.
  unfold _check_answer_string. destruct (find_first_if _ ans) as [i|] eqn:Ei; [|done].
  destruct (find_first_if_split _ _ _ Ei) as (x & Hs & <-%byte_eqb_eq & Hn). set (l := words (take i ans)).
  destruct (Nat.ltb_spec (length l) 3) as [|Hl]; [done|].
  assert (Hr : Some (if find_str beyond_retention ans is Some _ then Returns true else Throws Exn_msg) = Some (Returns true) -> accepts ans).
  { destruct (find_str _ _) as [k|] eqn:Ek; [|done]. intros _. right. by apply find_str_Some in Ek. }
  destruct (cstring_eqb _ _ && _ && _) eqn:E; [|exact Hr]. destruct (l !! 3%nat) as [w|] eqn:Ew; [|done]. cbn [mbind option_bind].
  destruct (cstring_eqb w _) eqn:E4; [|exact Hr]. intros _. left. unfold cstring_eqb in *.
  apply andb_prop in E as [[E1 E2]%andb_prop E3]. apply bool_decide_eq_true in E1, E2, E3, E4.
  subst w. destruct (four_words _ _ _ _ _ Hl E1 E2 E3 Ew) as [more Hm].
  exists (take i ans), (drop (S i) ans), more. split; [done|]. split; [|done].
  intros Hi%list_elem_of_In. rewrite forallb_forall in Hn. specialize (Hn _ Hi). by rewrite byte_eqb_refl in Hn.
Qed.

Lemma accepts_padded a k : accepts (a ++ replicate k x00) -> accepts a.
Proof.
  intros [(l & r & more & E & Hl & Hw)|(x & y & E)].
  - assert (Hi : newline ∈ a).
    { assert (newline ∈ a ++ replicate k x00) as [Hi|Hi]%elem_of_app; [rewrite E; apply elem_of_app; right; by left|done|].
      by apply elem_of_replicate in Hi as [? _]. }
    destruct (first_of_prefix _ _ _ _ _ E Hl Hi) as [r' ->]. left. by exists l, r', more.
  - right. assert (Hz : forall l l', replicate k x00 = l ++ l' -> forall b, b ∈ l -> b = x00).
    { intros l l' El b Hb. assert (Hb' : b ∈ replicate k x00) by (rewrite El; apply elem_of_app; by left).
      by apply elem_of_replicate in Hb' as [? _]. }
    assert (Hr : forall z z', beyond_retention = z ++ z' -> z' <> [] -> (forall b, b ∈ z' -> b = x00) -> False).
    { intros z z' Er Hne H0. destruct z' as [|b z']; [done|]. specialize (H0 b ltac:(by left)). subst b.
      assert (Hin : x00 ∈ beyond_retention) by (rewrite Er; apply elem_of_app; right; by left).
      revert Hin. by apply (bool_decide_unpack _). }
    apply app_eq_inv in E as [(z & -> & E)|(z & -> & E)].
    + apply app_eq_inv in E as [(w & E1 & E2)|(w & -> & E)]; [|by exists x, w].
      destruct (decide (w = [])) as [->|Hne]; [rewrite app_nil_r in E1; subst z; exists x, []; by rewrite app_nil_r|].
      exfalso. exact (Hr _ _ E1 Hne (Hz _ _ E2)).
    + exfalso. apply (Hr [] beyond_retention); [done|done|]. intros b Hb. apply (Hz (z ++ beyond_retention) y);
        [by rewrite <-app_assoc|apply elem_of_app; by right].
Qed.

Lemma receive_accepted pieces answer : (length answer < read_size)%nat ->
  receive pieces answer (length answer) = Some (Returns tt) -> accepts (answer ++ bytes_of pieces).
Proof.
  revert answer. induction pieces as [|[p|] pieces IH]; intros answer Hn.
  - done.
  - destruct (decide (length answer + length p < read_size)%nat) as [Hp|Hp].
    + rewrite receive_step by done. cbn [bytes_of]. rewrite app_assoc.
      destruct (_check_answer_string _) as [[[]|e|]|] eqn:Ec; try done.
      * intros _. by apply accepts_more, check_accepts.
      * apply IH. by rewrite length_app.
    + cbn [receive bytes_of]. rewrite (proj2 (Nat.ltb_ge _ _)) by lia. set (got := take _ p).
      assert (Hg : (length answer + length got)%nat = read_size) by (unfold got; rewrite length_take; lia).
      rewrite Hg, Nat.eqb_refl. destruct (resize_more read_size answer ltac:(lia)) as (z & -> & Hz).
      rewrite take_app_length, (drop_ge (answer ++ z)), app_nil_r by (rewrite length_app; lia).
      unfold resize. rewrite take_ge by (rewrite length_app; lia). set (pad := replicate _ _).
      destruct (_check_answer_string _) as [[[]|e|]|] eqn:Ec; try done.
      * intros _. replace p with (got ++ drop (read_size - length answer) p) by apply take_drop.
        rewrite <-app_assoc, app_assoc. apply accepts_more, (accepts_padded _ (read_size + 2048 - length (answer ++ got))).
        by apply check_accepts.
      * destruct pieces as [|q pieces]; [done|]. cbn [receive]. by rewrite (proj2 (Nat.ltb_lt _ _)) by lia.
  - cbn [receive]. rewrite (proj2 (Nat.ltb_ge _ _)) by lia. done.
Qed.

(** ** The database *)

Record network : Type := Network { connects : bool; sends : bool; answers : list (option cstring) }.

Section Stream.
Context (col_size : string -> string -> Z).

(** [exchanges], which the code does not have, are the requests sent to the server
    with the pieces of its answers, whatever these are. *)
Record influxdb12 : Type := Influxdb12 {
  _query : cstring;
  _post_header : cstring;
  _status_query : query;
  _metric_query : query;
  exchanges : list (cstring * list (option cstring))
}.

Definition post_header (user passwd db : cstring) : cstring :=
  str "POST " ++ (str "/write?u=" ++ user ++ str "&p=" ++ passwd ++ str "&db=" ++ db ++ str "&precision=s") ++ str " HTTP/1.0"
  ++ [newline].

Definition new_influxdb12 (n : network) (user passwd db status_ts : cstring) (status_cols : list column) (metric_ts : cstring)
    (metric_cols : list column) : outcome influxdb12 :=
  _ ← (if connects n then Returns tt else Throws Exn_msg);
  sq ← new_query status_ts status_cols status;
  mq ← new_query metric_ts metric_cols metric;
  Returns (Influxdb12 [] (post_header user passwd db) sq mq []).

Definition with_query (b : influxdb12) (q : cstring) : influxdb12 :=
  Influxdb12 q (_post_header b) (_status_query b) (_metric_query b) (exchanges b).

Definition clear (b : influxdb12) : influxdb12 := with_query b [].

Definition append (b : influxdb12) (o : outcome cstring) : influxdb12 * outcome unit :=
  match o with
  | Returns s => (with_query b (_query b ++ s), Returns tt)
  | Throws e => (b, Throws e)
  | Diverges => (b, Diverges)
  end.
Definition write_metric (b : influxdb12) (c : macro_cache) (m : Bbdo.data) : influxdb12 * outcome unit :=
  append b (generate_metric col_size (_metric_query b) c m).
Definition write_status (b : influxdb12) (c : macro_cache) (s : Bbdo.data) : influxdb12 * outcome unit :=
  append b (generate_status col_size (_status_query b) c s).

Definition query_footer : cstring := [newline].

Definition final_query (b : influxdb12) : cstring :=
  let length := Z.of_nat (length (_query b) + length query_footer) in
  _post_header b ++ (str "Content-Length: " ++ Dbl.dec length ++ [newline]) ++ [newline] ++ _query b ++ query_footer.

Definition commit (n : network) (b : influxdb12) : influxdb12 * option (outcome unit) :=
  if bool_decide (_query b = []) then (b, Some (Returns tt))
  else if negb (connects n) then (b, Some (Throws Exn_msg))
  else if negb (sends n) then (b, Some (Throws Exn_msg))
  else
    let b := Influxdb12 (_query b) (_post_header b) (_status_query b) (_metric_query b)
               (exchanges b ++ [(final_query b, answers n)]) in
    match receive (answers n) [] 0 with
    | Some (Returns _) => (clear b, Some (Returns tt))
    | r => (b, r)
    end.

(** ** The stream *)

Record stream : Type := Stream {
  _queries_per_transaction : Z;
  _pending_queries : Z;
  _actual_query : Z;
  _commit : bool;
  _cache : macro_cache;
  _influx_db : influxdb12
}.

Definition new_stream (n : network) (user passwd db : cstring) (queries_per_transaction : Z) (status_ts : cstring)
    (status_cols : list column) (metric_ts : cstring) (metric_cols : list column) (cache : macro_cache) : outcome stream :=
  b ← new_influxdb12 n user passwd db status_ts status_cols metric_ts metric_cols;
  Returns (Stream (if queries_per_transaction =? 0 then 1 else queries_per_transaction) 0 0 false cache b).

Definition flush (n : network) (s : stream) : stream * option (outcome Z) :=
  let ret := _pending_queries s in
  match commit n (_influx_db s) with
  | (b, Some (Returns _)) => (Stream (_queries_per_transaction s) 0 0 false (_cache s) b, Some (Returns ret))
  | (b, Some (Throws e)) => (Stream (_queries_per_transaction s) 0 0 (_commit s) (_cache s) b, Some (Throws e))
  | (b, Some Diverges) => (Stream (_queries_per_transaction s) 0 0 (_commit s) (_cache s) b, Some Diverges)
  | (b, None) => (Stream (_queries_per_transaction s) 0 0 (_commit s) (_cache s) b, None)
  end.

(** None is a null event, which validate refuses. *)
Definition write (n : network) (s : stream) (data : option Bbdo.data) : stream * option (outcome Z) :=
  let pending := i32 (_pending_queries s + 1) in
  match data with
  | None => (Stream (_queries_per_transaction s) pending (_actual_query s) (_commit s) (_cache s) (_influx_db s), Some (Returns 0))
  | Some d =>
    let c := cache_write col_size (_cache s) d in
    let '(b, o, actual) :=
      if Bbdo.type d =? storage_type StorageEvents.de_metric then
        (write_metric (_influx_db s) c d, u32 (_actual_query s + 1))
      else if Bbdo.type d =? storage_type StorageEvents.de_status then
        (write_status (_influx_db s) c d, u32 (_actual_query s + 1))
      else (_influx_db s, Returns tt, _actual_query s) in
    match o with
    | Returns _ =>
      let s := Stream (_queries_per_transaction s) pending actual
                 (if _queries_per_transaction s <=? actual then true else _commit s) c b in
      if _commit s then flush n s else (s, Some (Returns 0))
    | Throws e => (Stream (_queries_per_transaction s) pending (_actual_query s) (_commit s) c b, Some (Throws e))
    | Diverges => (Stream (_queries_per_transaction s) pending (_actual_query s) (_commit s) c b, Some Diverges)
    end
  end.

Definition read (s : stream) : stream * outcome bool := (s, Throws Exn_shutdown).

(** ** Runs *)

Inductive call : Type := Write (data : option Bbdo.data) (n : network) | Flush (n : network).

Definition run_call (s : stream) (c : call) : stream * option (outcome Z) :=
  match c with Write d n => write n s d | Flush n => flush n s end.

(** Calls until one does not return, and what was acknowledged. *)
Fixpoint run (s : stream) (acknowledged : Z) (l : list call) : stream * Z :=
  match l with
  | [] => (s, acknowledged)
  | c :: l =>
    match run_call s c with
    | (s, Some (Returns n)) => run s (acknowledged + n) l
    | (s, _) => (s, acknowledged)
    end
  end.

Definition events_of (l : list call) : list (option Bbdo.data) :=
  omap (fun c => match c with Write d _ => Some d | Flush _ => None end) l.

Definition text_of (o : outcome cstring) : cstring := match o with Returns t => t | _ => [] end.
Definition line (mq sq : query) (c : macro_cache) (d : Bbdo.data) : cstring :=
  if Bbdo.type d =? storage_type StorageEvents.de_metric then text_of (generate_metric col_size mq c d)
  else if Bbdo.type d =? storage_type StorageEvents.de_status then text_of (generate_status col_size sq c d)
  else [].
Definition lines (mq sq : query) : macro_cache -> list (option Bbdo.data) -> list cstring := event_lines col_size (line mq sq).

#[local] Abbreviation known := (GraphiteCache.known col_size).

(** The lines are the bodies of some of the requests sent, those of a query [q] that
    the server accepted, in the order they were sent. *)
Definition accepted_in (b0 : influxdb12) (exs : list (cstring * list (option cstring))) (ls : list cstring) : Prop :=
  exists batches, ((fun '(q, a) => (final_query (with_query b0 q), a)) <$> batches) `sublist_of` exs
    /\ Forall (fun '(_, a) => accepts (bytes_of a)) batches /\ concat (fst <$> batches) = concat ls.

Lemma accepted_more b0 exs exs' ls : exs `prefix_of` exs' -> accepted_in b0 exs ls -> accepted_in b0 exs' ls.
Proof.
  intros [k ->] (bs & Hs & Ha). exists bs. split; [|done]. by apply sublist_inserts_r.
Qed.

Lemma accepted_one b0 exs ls q a l : accepted_in b0 exs ls -> accepts (bytes_of a) -> concat l = concat ls ++ q ->
  accepted_in b0 (exs ++ [(final_query (with_query b0 q), a)]) l.
Proof.
  intros (bs & Hs & Ha & Hc) Hq Hl. exists (bs ++ [(q, a)]). rewrite !fmap_app. split_and!.
  - by apply sublist_app.
  - apply Forall_app. split; [done|]. by constructor.
  - rewrite concat_app, Hc, Hl. cbn. by rewrite app_nil_r.
Qed.

(** What holds between calls: [l] are the events written so far, [n] how many were
    acknowledged; what was not is in the query. *)
Record state (mq sq : query) (c0 : macro_cache) (b0 : influxdb12) (s : stream) (l : list (option Bbdo.data)) (n : Z) : Prop := State {
  st_queries : _metric_query (_influx_db s) = mq /\ _status_query (_influx_db s) = sq
    /\ _post_header (_influx_db s) = _post_header b0;
  st_cache : _cache s = known c0 l;
  st_count : 0 <= n /\ 0 <= _pending_queries s /\ n + _pending_queries s = Z.of_nat (length l);
  st_waiting : _query (_influx_db s) = concat (drop (Z.to_nat n) (lines mq sq c0 l));
  st_sent : accepted_in b0 (exchanges (_influx_db s)) (take (Z.to_nat n) (lines mq sq c0 l))
}.

Section Calls.
Context (mq sq : query) (c0 : macro_cache) (b0 : influxdb12).

Lemma posted_app a b : lines mq sq c0 (a ++ b) = lines mq sq c0 a ++ lines mq sq (known c0 a) b.
Proof. apply event_lines_app. Qed.
Lemma posted_length l : length (lines mq sq c0 l) = length l.
Proof. apply length_event_lines. Qed.

Lemma flush_state net s l n : state mq sq c0 b0 s l n ->
  match flush net s with
  | (s', Some (Returns k)) => k = _pending_queries s /\ state mq sq c0 b0 s' l (n + k)
  | (s', _) => exchanges (_influx_db s) `prefix_of` exchanges (_influx_db s')
  end.
Proof.
  intros [(Hm & Hs & Hh) Hc (Hn & Hp & Hl) Hq Ha]. pose proof (posted_length l) as Hll.
  assert (Hall : forall k, k = _pending_queries s -> Z.to_nat (n + k) = length (lines mq sq c0 l)) by lia.
  assert (Hsplit : concat (lines mq sq c0 l) = concat (take (Z.to_nat n) (lines mq sq c0 l)) ++ _query (_influx_db s)).
  { by rewrite Hq, <-concat_app, take_drop. }
  unfold flush, commit. case_bool_decide as He.
  { split; [done|]. split; cbn; rewrite ?Hall, ?drop_all, ?firstn_all by done; try done; try lia.
    rewrite He, app_nil_r in Hsplit. destruct Ha as (bs & H1 & H2 & H3). exists bs. by rewrite Hsplit. }
  destruct (connects net); cbn [negb]; [|reflexivity]. destruct (sends net); cbn [negb]; [|reflexivity].
  destruct (receive (answers net) [] 0) as [[[]|e|]|] eqn:Hr; [|by eexists..]. split; [done|].
  split; cbn; rewrite ?Hall, ?drop_all, ?firstn_all by done; try done; try lia.
  replace (final_query (_influx_db s)) with (final_query (with_query b0 (_query (_influx_db s))))
    by (unfold final_query; cbn; by rewrite Hh).
  apply (accepted_one b0 _ _ _ _ _ Ha); [|done]. apply (receive_accepted _ []); [apply Nat.ltb_lt; reflexivity|done].
Qed.

Lemma influx_write net s l n d : state mq sq c0 b0 s l n -> Z.of_nat (length l) < 2 ^ 31 - 1 ->
  match write net s d with
  | (s', Some (Returns k)) => state mq sq c0 b0 s' (l ++ [d]) (n + k)
  | (s', _) => exchanges (_influx_db s) `prefix_of` exchanges (_influx_db s')
  end.
Proof.
  intros [(Hm & Hs & Hh) Hc (Hn & Hp & Hl) Hq Ha] Hlen. pose proof (posted_length l) as Hll. unfold write.
  destruct d as [d|].
  2: { rewrite Z.add_0_r. split; cbn; rewrite ?posted_app, ?drop_app_le, ?take_app_le by lia; try done.
       - by rewrite known_null.
       - rewrite i32_small, length_app by lia. cbn. lia.
       - rewrite concat_app, <-Hq. cbn. by rewrite app_nil_r.
       }
  set (c := cache_write _ _ _). assert (Hk : c = known c0 (l ++ [Some d])) by (by rewrite known_snoc, <-Hc).
  assert (Hline : forall t, line mq sq c d = t -> lines mq sq (known c0 l) [Some d] = [t]).
  { intros t <-. unfold lines. cbn. rewrite <-Hc. done. }
  match goal with |- context [if Bbdo.type d =? ?t then ?a else ?b] => set (r := if Bbdo.type d =? t then a else b) end.
  assert (Hr : (forall k, r.1.2 <> Returns k) /\ exchanges r.1.1 = exchanges (_influx_db s)
    \/ r.1 = (with_query (_influx_db s) (_query (_influx_db s) ++ line mq sq c d), Returns tt)).
  { unfold r, line, write_metric, write_status. rewrite Hm, Hs.
    destruct (Bbdo.type d =? _); [destruct (generate_metric _ mq c d); [by right|by left..]|].
    destruct (Bbdo.type d =? _); [destruct (generate_status _ sq c d); [by right|by left..]|].
    right. cbn. rewrite app_nil_r. by destruct (_influx_db s). }
  clearbody r. destruct r as [[b o] actual]. cbn [fst snd] in Hr. destruct Hr as [[Ho Hpo]|[= -> ->]].
  { destruct o as [[]|e|]; [by destruct (Ho tt)|cbn; by rewrite Hpo..]. }
  assert (Hst : forall flag, state mq sq c0 b0
    (Stream (_queries_per_transaction s) (i32 (_pending_queries s + 1)) actual flag c
       (with_query (_influx_db s) (_query (_influx_db s) ++ line mq sq c d))) (l ++ [Some d]) n).
  { intros flag. split; cbn; rewrite ?posted_app, ?(Hline _ eq_refl), ?drop_app_le, ?take_app_le by lia; try done.
    - rewrite i32_small, length_app by lia. cbn. lia.
    - rewrite concat_app, <-Hq. cbn. by rewrite app_nil_r.
    }
  cbn [_commit]. match goal with |- context [if ?a <=? ?b then true else ?e] => set (flag := if a <=? b then true else e) end. specialize (Hst flag). destruct flag.
  - pose proof (flush_state net _ _ _ Hst) as Hf. destruct (flush net _) as [s' [[k|e|]|]]; [|done..]. by destruct Hf.
  - by rewrite Z.add_0_r.
Qed.

Lemma influx_run calls s l n s' n' : state mq sq c0 b0 s l n ->
  Z.of_nat (length l + length (events_of calls)) < 2 ^ 31 -> run s n calls = (s', n') ->
  0 <= n' <= Z.of_nat (length l + length (events_of calls))
  /\ accepted_in b0 (exchanges (_influx_db s')) (take (Z.to_nat n') (lines mq sq c0 (l ++ events_of calls))).
Proof.
  revert s l n. induction calls as [|call calls IH]; intros s l n Hs Hlen; cbn [run].
  { intros [= <- <-]. destruct (st_count _ _ _ _ _ _ _ Hs) as (? & ? & ?). split; [cbn; lia|].
    cbn. rewrite app_nil_r. apply (st_sent _ _ _ _ _ _ _ Hs). }
  assert (Hstop : forall s1, exchanges (_influx_db s) `prefix_of` exchanges (_influx_db s1) -> (s1, n) = (s', n') ->
    0 <= n' <= Z.of_nat (length l + length (events_of (call :: calls)))
    /\ accepted_in b0 (exchanges (_influx_db s')) (take (Z.to_nat n') (lines mq sq c0 (l ++ events_of (call :: calls))))).
  { intros s1 Hp [= <- <-]. destruct (st_count _ _ _ _ _ _ _ Hs) as (? & ? & ?). split; [lia|].
    rewrite posted_app, take_app_le by (rewrite posted_length; lia).
    by apply (accepted_more _ _ _ _ Hp), (st_sent _ _ _ _ _ _ _ Hs). }
  destruct call as [d net|net]; cbn [run_call].
  - cbn [events_of omap list_omap] in *. fold (events_of calls) in *. cbn [length] in *.
    pose proof (influx_write net s l n d Hs ltac:(lia)) as Hw.
    destruct (write net s d) as [s1 [[k|e|]|]]; [|by apply Hstop..].
    intros Hr. destruct (IH _ _ _ Hw ltac:(rewrite length_app; cbn; lia) Hr) as [Hn He]. rewrite length_app in Hn. cbn in Hn.
    rewrite <-app_assoc in He. cbn in He. split; [lia|done].
  - pose proof (flush_state net s l n Hs) as Hw. change (events_of (Flush net :: calls)) with (events_of calls) in *.
    destruct (flush net s) as [s1 [[k|e|]|]]; [|by apply Hstop..].
    destruct Hw as [_ Hw]. intros Hr. by apply (IH _ _ _ Hw).
Qed.
End Calls.

(** C30. An event that the stream to InfluxDB acknowledges was in a request that the
    server accepted: among the requests that were sent, with the bytes that the
    server answered to each, are some whose answers accept them, either by a status
    line "HTTP/1.0 204 No Content" or by saying that points were beyond the retention
    policy, and the bodies of these hold the lines of the acknowledged events, all of
    them, in order and once. When a call fails nothing more is acknowledged. *)
Theorem acknowledged_lines_accepted net user passwd db rate sts scols mts mcols c0 s0 calls s n :
  new_stream net user passwd db rate sts scols mts mcols c0 = Returns s0 ->
  Z.of_nat (length (events_of calls)) < 2 ^ 31 -> run s0 0 calls = (s, n) ->
  0 <= n <= Z.of_nat (length (events_of calls))
  /\ exists batches,
       ((fun '(q, a) => (final_query (with_query (_influx_db s0) q), a)) <$> batches) `sublist_of` exchanges (_influx_db s)
       /\ Forall (fun '(_, a) => accepts (bytes_of a)) batches
       /\ concat (fst <$> batches) = concat (take (Z.to_nat n)
            (lines (_metric_query (_influx_db s0)) (_status_query (_influx_db s0)) c0 (events_of calls))).
Proof.
  intros Hn Hlen Hrun. unfold new_stream in Hn. apply bind_Returns in Hn as (b & Hb & [= <-]).
  unfold new_influxdb12 in Hb. apply bind_Returns in Hb as (_ & _ & Hb). apply bind_Returns in Hb as (sq & _ & Hb).
  apply bind_Returns in Hb as (mq & _ & [= <-]). cbn [_influx_db _metric_query _status_query] in *.
  refine (influx_run mq sq c0 _ calls _ [] 0 s n _ Hlen Hrun). split; cbn; try done. by exists [].
Qed.

(** ** Requests and answers *)

(** Content-Length is the length of the body, what follows the blank line. *)
Lemma content_length b :
  final_query b = _post_header b ++ str "Content-Length: " ++ Dbl.dec (Z.of_nat (length (_query b ++ query_footer)))
    ++ [newline; newline] ++ _query b ++ query_footer.
Proof. unfold final_query. by rewrite length_app, <-!app_assoc. Qed.
End Stream.

Lemma success_recognised_witness :
  let pieces := [str "HTTP/1.0 2"; str "04 No Content"; [newline]; str "X-Influxdb-Version: 1.2" ++ [newline]] in
  receive (Some <$> pieces) [] 0 = Some (Returns tt).
Proof.
  intros pieces.
  apply (success_recognised pieces (str "HTTP/1.0 204 No Content") [] (str "X-Influxdb-Version: 1.2" ++ [newline]));
    [by apply (bool_decide_unpack _)|vm_compute; reflexivity|vm_compute; reflexivity|].
  apply Nat.ltb_lt. vm_compute. reflexivity.
Defined.

Lemma acknowledged_lines_accepted_witness :
  let cs := fun _ _ : string => 0 in
  let d := Bbdo.Data (storage_type StorageEvents.de_metric) 1 0
             (object StorageEvents.metric_members (StorageEvents.metric_entries cs)) in
  let ok := Network true true [Some (str "HTTP/1.0 204 No Content" ++ [newline])] in
  let refused := Network true true [Some (str "HTTP/1.0 500 Error" ++ [newline])] in
  let calls := [Write (Some d) ok; Write (Some d) ok; Write None ok; Flush ok; Write (Some d) ok; Flush refused] in
  exists s0 s n,
    new_stream ok (str "u") (str "p") (str "db") 2 (str "st") [] (str "mt") [Column (str "v") (str "$VALUE$") false number] no_event
      = Returns s0 /\ run cs s0 0 calls = (s, n) /\ n = 3
    /\ exists batches,
       ((fun '(q, a) => (final_query (with_query (_influx_db s0) q), a)) <$> batches) `sublist_of` exchanges (_influx_db s)
       /\ Forall (fun '(_, a) => accepts (bytes_of a)) batches
       /\ concat (fst <$> batches) = concat (take (Z.to_nat n)
            (lines cs (_metric_query (_influx_db s0)) (_status_query (_influx_db s0)) no_event (events_of calls))).
Proof.
  intros cs d ok refused calls.
  assert (Hs : exists s0, new_stream ok (str "u") (str "p") (str "db") 2 (str "st") [] (str "mt")
    [Column (str "v") (str "$VALUE$") false number] no_event = Returns s0 /\ exists s, run cs s0 0 calls = (s, 3)).
  { eexists. split; [vm_compute; reflexivity|]. eexists. vm_compute. reflexivity. }
  destruct Hs as (s0 & Hs0 & s & Hs). exists s0, s, 3. split; [done|]. split; [done|]. split; [done|].
  apply (acknowledged_lines_accepted cs ok (str "u") (str "p") (str "db") 2 (str "st") [] (str "mt")
    [Column (str "v") (str "$VALUE$") false number] no_event s0 calls s 3 Hs0); [vm_compute; reflexivity|exact Hs].
Defined.
End Influxdb.
