(* ===== verification/BamConfig.v ===== *)
(** * The configuration of BAM (bam/src/configuration)

    What the database says the business activities, the indicators, the
    meta-services and the boolean expressions are, with the comparisons the
    appliers make between two configurations. A std::map is a gmap; its
    elements are visited in the order of their keys. *)

From Stdlib Require Import ZArith Lia ZifyNat ZifyBool Strings.Byte Floats.SpecFloat.
From stdpp Require Import base option list numbers strings gmap sets sorting.
From S2P Require Import Prelude Double Kpi Ba HstSvcMapping.

(** ** The elements of a std::map in the order of their keys *)

Module Ordered.

Definition key_le {A} (p q : Z * A) : Prop := p.1 <= q.1.
#[global] Instance key_le_dec {A} : RelDecision (@key_le A).
Proof. intros p q. unfold key_le. apply _. Defined.
#[global] Instance key_le_total {A} : Total (@key_le A).
Proof. intros p q. unfold key_le. lia. Qed.

Definition items {A} (m : gmap Z A) : list (Z * A) := merge_sort key_le (map_to_list m).

Lemma items_permutation {A} (m : gmap Z A) : items m ≡ₚ map_to_list m.
Proof. apply merge_sort_Permutation. Qed.

Lemma elem_of_items {A} (m : gmap Z A) k a : (k, a) ∈ items m <-> m !! k = Some a.
Proof. rewrite items_permutation. apply elem_of_map_to_list. Qed.

Lemma items_NoDup {A} (m : gmap Z A) : NoDup (items m).*1.
Proof. rewrite items_permutation. apply NoDup_fst_map_to_list. Qed.

Lemma items_length {A} (m : gmap Z A) : length (items m) = size m.
Proof. rewrite (Permutation_length (items_permutation m)). apply length_map_to_list. Qed.

(** In the order of the keys. *)
Lemma items_sorted {A} (m : gmap Z A) : StronglySorted (fun p q => p.1 < q.1) (items m).
Proof.
  assert (H : StronglySorted key_le (items m)).
  { unfold items. apply Sorted_StronglySorted; [intros [] [] []; unfold key_le; cbn; lia|].
    apply (Sorted_merge_sort key_le). }
  pose proof (items_NoDup m) as Hn. revert H Hn. generalize (items m) as l.
  induction l as [|p l IH]; intros H Hn; [constructor|]. cbn [fmap list_fmap] in Hn.
  apply StronglySorted_inv in H as [H Hp]. apply NoDup_cons in Hn as [Hk Hn]. constructor; [by apply IH|].
  apply Forall_forall. intros q Hq. rewrite Forall_forall in Hp. specialize (Hp q Hq). unfold key_le in Hp.
  assert (p.1 <> q.1); [|lia]. intros Heq. apply Hk. rewrite Heq. by apply list_elem_of_fmap_2.
Qed.

Lemma items_empty {A} : items (∅ : gmap Z A) = [].
Proof. done. Qed.

End Ordered.

(** ** The configuration objects *)

Module BamConfig.
Import Kpi.

(** operator== of the events kept in the database. *)
Definition ba_event_eqb (a b : ba_event) : bool :=
  (be_ba_id a =? be_ba_id b) && Dbl.eqb (first_level a) (first_level b) && (be_end_time a =? be_end_time b)
  && eqb (be_in_downtime a) (be_in_downtime b) && (be_start_time a =? be_start_time b)
  && (be_status a =? be_status b).

Definition kpi_event_eqb (a b : kpi_event) : bool :=
  (ke_end_time a =? ke_end_time b) && (kpi_id a =? kpi_id b) && (impact_level a =? impact_level b)
  && eqb (ke_in_downtime a) (ke_in_downtime b) && cstring_eqb (output a) (output b)
  && cstring_eqb (perfdata a) (perfdata b) && (ke_start_time a =? ke_start_time b)
  && (ke_status a =? ke_status b) && (ke_ba_id a =? ke_ba_id b).

(** The events of an object that has none. *)
Definition no_ba_event : ba_event := Ba_event 0 (Dbl.of_Z 0) false (-1) (-1) 3.
Definition no_kpi_event : kpi_event := Kpi_event 0 0 0 false [] [] (-1) (-1) 3.

Record ba : Type := Mk_ba {
  ba_id : Z;
  ba_host_id : Z;
  ba_service_id : Z;
  ba_name : cstring;
  ba_state_source : Ba.state_source;
  ba_warning_level : double;
  ba_critical_level : double;
  ba_opened_event : ba_event;
  ba_dt_behaviour : Ba.downtime_behaviour
}.

Definition ba_eqb (a b : ba) : bool :=
  (ba_id a =? ba_id b) && (ba_host_id a =? ba_host_id b) && (ba_service_id a =? ba_service_id b)
  && cstring_eqb (ba_name a) (ba_name b) && bool_decide (ba_state_source a = ba_state_source b)
  && Dbl.eqb (ba_warning_level a) (ba_warning_level b) && Dbl.eqb (ba_critical_level a) (ba_critical_level b)
  && ba_event_eqb (ba_opened_event a) (ba_opened_event b)
  && bool_decide (ba_dt_behaviour a = ba_dt_behaviour b).

Record kpi : Type := Mk_kpi {
  k_id : Z;
  k_state_type : Z;
  k_host_id : Z;
  k_service_id : Z;
  k_ba_id : Z;
  k_indicator_ba_id : Z;
  k_meta_id : Z;
  k_boolexp_id : Z;
  k_status : Z;
  k_last_level : Z;
  k_downtimed : bool;
  k_acknowledged : bool;
  k_ignore_downtime : bool;
  k_ignore_acknowledgement : bool;
  k_impact_warning : double;
  k_impact_critical : double;
  k_impact_unknown : double;
  k_event : kpi_event
}.

Definition kpi_eqb (a b : kpi) : bool :=
  (k_id a =? k_id b) && (k_state_type a =? k_state_type b) && (k_host_id a =? k_host_id b)
  && (k_service_id a =? k_service_id b) && (k_ba_id a =? k_ba_id b)
  && (k_indicator_ba_id a =? k_indicator_ba_id b) && (k_meta_id a =? k_meta_id b)
  && (k_boolexp_id a =? k_boolexp_id b) && (k_status a =? k_status b) && (k_last_level a =? k_last_level b)
  && eqb (k_downtimed a) (k_downtimed b) && eqb (k_acknowledged a) (k_acknowledged b)
  && eqb (k_ignore_downtime a) (k_ignore_downtime b)
  && eqb (k_ignore_acknowledgement a) (k_ignore_acknowledgement b)
  && Dbl.eqb (k_impact_warning a) (k_impact_warning b) && Dbl.eqb (k_impact_critical a) (k_impact_critical b)
  && Dbl.eqb (k_impact_unknown a) (k_impact_unknown b) && kpi_event_eqb (k_event a) (k_event b).

Definition is_service (k : kpi) : bool := negb (k_service_id k =? 0).
Definition is_ba (k : kpi) : bool := negb (k_indicator_ba_id k =? 0).
Definition is_meta (k : kpi) : bool := negb (k_meta_id k =? 0).
Definition is_boolexp (k : kpi) : bool := negb (k_boolexp_id k =? 0).

Record meta_service : Type := Mk_meta_service {
  m_computation : cstring;
  m_id : Z;
  m_host_id : Z;
  m_service_id : Z;
  m_level_critical : double;
  m_level_warning : double;
  m_metric_name : cstring;
  m_metrics : list Z;
  m_name : cstring;
  m_service_filter : cstring;
  m_services : gset (Z * Z)
}.

(** The default arguments of the constructor. *)
Definition default_meta_service : meta_service :=
  Mk_meta_service [] 0 0 0 (Dbl.of_Z 0) (Dbl.of_Z 0) [] [] [] [] ∅.

(** The services of the filter are not compared. *)
Definition meta_service_eqb (a b : meta_service) : bool :=
  (m_id a =? m_id b) && (m_host_id a =? m_host_id b) && (m_service_id a =? m_service_id b)
  && Dbl.eqb (m_level_critical a) (m_level_critical b) && Dbl.eqb (m_level_warning a) (m_level_warning b)
  && cstring_eqb (m_computation a) (m_computation b) && cstring_eqb (m_metric_name a) (m_metric_name b)
  && cstring_eqb (m_name a) (m_name b) && cstring_eqb (m_service_filter a) (m_service_filter b)
  && bool_decide (m_metrics a = m_metrics b).

Record bool_expression : Type := Mk_bool_expression {
  e_id : Z;
  e_name : cstring;
  e_expression : cstring;
  e_impact_if : bool
}.

Definition bool_expression_eqb (a b : bool_expression) : bool :=
  (e_id a =? e_id b) && cstring_eqb (e_name a) (e_name b) && cstring_eqb (e_expression a) (e_expression b)
  && eqb (e_impact_if a) (e_impact_if b).

Record state : Type := State {
  bas : gmap Z ba;
  kpis : gmap Z kpi;
  bool_exps : gmap Z bool_expression;
  meta_services : gmap Z meta_service;
  mapping : HstSvcMapping.hst_svc_mapping
}.

Definition clear (s : state) : state := State ∅ ∅ ∅ ∅ (mapping s).

(** ** What an equality found true says *)

Lemma cstring_eqb_true a b : cstring_eqb a b = true -> a = b.
Proof. unfold cstring_eqb. by rewrite bool_decide_eq_true. Qed.

(** A BA or an indicator found unchanged keeps its identity and its links. *)
Lemma ba_eqb_ids a b : ba_eqb a b = true ->
  ba_id a = ba_id b /\ ba_host_id a = ba_host_id b /\ ba_service_id a = ba_service_id b /\ ba_name a = ba_name b
  /\ ba_state_source a = ba_state_source b /\ ba_dt_behaviour a = ba_dt_behaviour b.
Proof.
  unfold ba_eqb. intros E. zbool.
  repeat match goal with H : cstring_eqb _ _ = true |- _ => apply cstring_eqb_true in H
                    | H : bool_decide _ = true |- _ => apply bool_decide_eq_true in H end. done.
Qed.

Lemma kpi_eqb_ids a b : kpi_eqb a b = true ->
  k_id a = k_id b /\ k_ba_id a = k_ba_id b /\ k_host_id a = k_host_id b /\ k_service_id a = k_service_id b
  /\ k_indicator_ba_id a = k_indicator_ba_id b /\ k_meta_id a = k_meta_id b /\ k_boolexp_id a = k_boolexp_id b.
Proof. unfold kpi_eqb. intros E. zbool. done. Qed.

End BamConfig.
