(* ===== verification/BamGraph.v ===== *)
(** * Loops in the configuration of BAM (bam/src/configuration/applier/state.cc)

    The objects of a configuration impact one another through services:
    an indicator impacts its business activity, which shows as a service, which
    may be the source of another indicator. Before anything is applied, a depth
    first search of that graph refuses a configuration with a loop, which would
    make updates propagate for ever. *)

From Stdlib Require Import ZArith Lia ZifyNat ZifyBool Strings.Byte Relations.
From stdpp Require Import base option list numbers strings gmap sets relations.
From S2P Require Import Prelude Double Ba HstSvcMapping BoolValue ExpTokenizer ExpParser ExpBuilder BamConfig.

Module BamGraph.
Import Ordered BamConfig.

(** ** Identifiers of the nodes *)

Definition ba_node_id (ba_id : Z) : cstring := str "BA " ++ Dbl.dec ba_id.
Definition boolexp_node_id (boolexp_id : Z) : cstring := str "boolean expression " ++ Dbl.dec boolexp_id.
Definition kpi_node_id (kpi_id : Z) : cstring := str "KPI " ++ Dbl.dec kpi_id.
Definition meta_node_id (meta_id : Z) : cstring := str "meta-service " ++ Dbl.dec meta_id.
Definition service_node_id (host_id service_id : Z) : cstring :=
  str "service (" ++ Dbl.dec host_id ++ str ", " ++ Dbl.dec service_id ++ str ")".

(** ** The graph *)

Record circular_check_node : Type := Circular_check_node {
  in_visit : bool;
  visited : bool;
  targets : gset cstring
}.

Definition new_node : circular_check_node := Circular_check_node false false ∅.

Abbreviation nodes := (gmap cstring circular_check_node).
Implicit Types g : nodes.

(** operator[] of the map of nodes. *)
Definition node_of g (id : cstring) : circular_check_node := default new_node (g !! id).
Definition touch g (id : cstring) : nodes := <[id := node_of g id]> g.

Definition insert_target g (id target : cstring) : nodes :=
  let n := node_of g id in <[id := Circular_check_node (in_visit n) (visited n) ({[target]} ∪ targets n)]> g.

Definition add_ba g (p : Z * ba) : nodes :=
  insert_target g (ba_node_id p.1) (service_node_id (ba_host_id p.2) (ba_service_id p.2)).

(** The loop over the services increments the iterator of the meta-services:
    when it is entered it does not end. *)
Definition add_meta g (p : Z * meta_service) : outcome nodes :=
  let g := insert_target g (meta_node_id p.1) (service_node_id (m_host_id p.2) (m_service_id p.2)) in
  if bool_decide (m_services p.2 = ∅) then Returns g else Diverges.

Fixpoint add_metas g (l : list (Z * meta_service)) : outcome nodes :=
  match l with
  | [] => Returns g
  | p :: l => g ← add_meta g p; add_metas g l
  end.

Section Graph.
(** The fuel of the tokenizer. *)
Context (fuel : nat).

(** The services of an expression; errors of the text are ignored. *)
Definition services_of (m : HstSvcMapping.hst_svc_mapping) (expression : cstring)
  : outcome (list BoolValue.bool_service) :=
  match ExpBuilder.compile fuel m expression with
  | Returns b => Returns (ExpBuilder.get_services b)
  | Throws _ => Returns []
  | Diverges => Diverges
  end.

Definition add_services (bool_id : cstring) (l : list BoolValue.bool_service) g : nodes :=
  fold_left (fun g s => insert_target g (service_node_id (BoolValue._host_id s) (BoolValue._service_id s)) bool_id) l g.

Definition add_bool_exp (m : HstSvcMapping.hst_svc_mapping) g (p : Z * bool_expression) : outcome nodes :=
  let bool_id := boolexp_node_id p.1 in
  l ← services_of m (e_expression p.2);
  Returns (add_services bool_id l (touch g bool_id)).

Fixpoint add_bool_exps (m : HstSvcMapping.hst_svc_mapping) g (l : list (Z * bool_expression)) : outcome nodes :=
  match l with
  | [] => Returns g
  | p :: l => g ← add_bool_exp m g p; add_bool_exps m g l
  end.

(** Where the state of an indicator comes from. *)
Definition source_node_id (k : kpi) : option cstring :=
  if is_ba k then Some (ba_node_id (k_indicator_ba_id k))
  else if is_meta k then Some (meta_node_id (k_meta_id k))
  else if is_boolexp k then Some (boolexp_node_id (k_boolexp_id k))
  else if is_service k then Some (service_node_id (k_host_id k) (k_service_id k))
  else None.

Definition add_kpi g (p : Z * kpi) : nodes :=
  let kpi_id := kpi_node_id p.1 in
  let g := insert_target g kpi_id (ba_node_id (k_ba_id p.2)) in
  match source_node_id p.2 with
  | Some node_id => insert_target g node_id kpi_id
  | None => g
  end.

Definition populate (my_state : state) : outcome nodes :=
  let g := fold_left add_ba (items (bas my_state)) ∅ in
  g ← add_metas g (items (meta_services my_state));
  g ← add_bool_exps (mapping my_state) g (items (bool_exps my_state));
  Returns (fold_left add_kpi (items (kpis my_state)) g).

(** ** The search *)

(** The orders in which std::set and std::unordered_map list their elements. *)
Context (targets_order : gset cstring -> list cstring) (nodes_order : nodes -> list cstring).

Definition mark g (id : cstring) (in_visit visited : bool) : nodes :=
  <[id := Circular_check_node in_visit visited (targets (node_of g id))]> g.

Fixpoint visit_targets (visit : nodes -> cstring -> outcome nodes) g (l : list cstring) : outcome nodes :=
  match l with
  | [] => Returns g
  | t :: l =>
    match g !! t with
    | Some _ => g ← visit g t; visit_targets visit g l
    | None => visit_targets visit g l
    end
  end.

(** _circular_check of a node; the depth of the calls is bounded. *)
Fixpoint check_node (depth : nat) g (id : cstring) : outcome nodes :=
  match depth with
  | O => Diverges
  | S depth =>
    let n := node_of g id in
    if in_visit n then Throws Exn_msg
    else if visited n then Returns g
    else
      g ← visit_targets (check_node depth) (mark g id true false) (targets_order (targets n));
      Returns (mark g id false true)
  end.

Fixpoint check_nodes (depth : nat) g (l : list cstring) : outcome nodes :=
  match l with
  | [] => Returns g
  | id :: l =>
    if visited (node_of g id) then check_nodes depth g l
    else g ← check_node depth g id; check_nodes depth g l
  end.

(** One call can be open per node. *)
Definition _circular_check (my_state : state) : outcome unit :=
  g ← populate my_state;
  _ ← check_nodes (S (size g)) g (nodes_order g);
  Returns tt.

(** ** Paths *)

(** The targets of each node, without the marks. *)
Definition shape g : gmap cstring (gset cstring) := targets <$> g.

Definition edge (t : gmap cstring (gset cstring)) (x y : cstring) : Prop := exists s, t !! x = Some s /\ y ∈ s.

(** No infinite path leaves the node. *)
Definition finite_from (t : gmap cstring (gset cstring)) : cstring -> Prop := Acc (flip (edge t)).

Definition visited_finite g : Prop := forall x, visited (node_of g x) = true -> finite_from (shape g) x.

(** What a call leaves: the same graph and the same open calls, more nodes visited. *)
Definition extends g g' : Prop :=
  shape g' = shape g
  /\ (forall x, in_visit (node_of g' x) = in_visit (node_of g x))
  /\ (forall x, visited (node_of g x) = true -> visited (node_of g' x) = true)
  /\ visited_finite g'.

(** The nodes that can still be opened. *)
Definition closed_nodes g : gset cstring := filter (fun x => in_visit (node_of g x) = false) (dom g).

Definition cyclic (t : gmap cstring (gset cstring)) : Prop := exists x, tc (edge t) x x.

(** What the search from a node says, when the nodes being visited lead to it. *)
Definition search_ok g (id : cstring) (depth : nat) (r : outcome nodes) : Prop :=
  match r with
  | Returns g' => extends g g' /\ visited (node_of g' id) = true
  | Throws e => e = Exn_msg /\ cyclic (shape g)
  | Diverges => (depth <= size (closed_nodes g))%nat
  end.

Lemma node_of_insert g id n x : node_of (<[id := n]> g) x = if decide (x = id) then n else node_of g x.
Proof. unfold node_of. destruct (decide (x = id)) as [->|]; [by rewrite lookup_insert_eq | by rewrite lookup_insert_ne]. Qed.

Lemma shape_lookup g x : shape g !! x = targets <$> g !! x.
Proof. apply lookup_fmap. Qed.

Lemma shape_mark g id a b : is_Some (g !! id) -> shape (mark g id a b) = shape g.
Proof.
  intros [n E]. unfold shape, mark. rewrite fmap_insert. cbn [targets].
  apply insert_id. unfold node_of. rewrite lookup_fmap, E. done.
Qed.

Lemma shape_dom g : dom (shape g) = dom g.
Proof. apply dom_fmap_L. Qed.

Lemma shape_is_Some g g' x : shape g' = shape g -> is_Some (g' !! x) <-> is_Some (g !! x).
Proof. intros E. rewrite <-!elem_of_dom, <-!shape_dom. by rewrite E. Qed.

Lemma shape_targets g g' x : shape g' = shape g -> targets (node_of g' x) = targets (node_of g x).
Proof.
  intros E. assert (H : shape g' !! x = shape g !! x) by by rewrite E. rewrite !shape_lookup in H.
  unfold node_of. destruct (g !! x), (g' !! x); simpl in *; by simplify_eq.
Qed.

Lemma edge_target g x y : edge (shape g) x y <-> y ∈ targets (node_of g x).
Proof.
  unfold edge, node_of. rewrite shape_lookup. destruct (g !! x) as [n|]; simpl.
  - split; [|by eauto]. intros (s & ? & ?). by simplify_eq.
  - split; [by intros (s & ? & _)|set_solver].
Qed.

Lemma edge_is_Some g x y : edge (shape g) x y -> is_Some (g !! x).
Proof. intros (s & E & _). rewrite shape_lookup in E. destruct (g !! x); [eauto|done]. Qed.

Lemma extends_refl g : visited_finite g -> extends g g.
Proof. intros. split; [done|]. split; [done|]. split; [auto|done]. Qed.

Lemma extends_trans g1 g2 g3 : extends g1 g2 -> extends g2 g3 -> extends g1 g3.
Proof.
  intros (S1 & I1 & V1 & _) (S2 & I2 & V2 & F). split; [congruence|]. split; [congruence|]. split; [auto|done].
Qed.

Lemma extends_closed g g' : extends g g' -> closed_nodes g' = closed_nodes g.
Proof.
  intros (S & I & _). unfold closed_nodes. apply set_eq. intros x. rewrite !elem_of_filter, I.
  rewrite <-!shape_dom, S. done.
Qed.

Lemma finite_no_cycle t x : finite_from t x -> ~ tc (edge t) x x.
Proof.
  intros A. induction A as [x _ IH]. intros C.
  assert (C' : exists y, edge t x y /\ rtc (edge t) y x) by (inversion C; subst; eauto using tc_rtc, rtc_refl).
  destruct C' as (y & E & P). apply (IH y); [done|]. eapply tc_rtc_l; [done|]. by apply tc_once.
Qed.

(** ** The search finds the loops *)

Section Search.
Context (targets_order_spec : forall s x, x ∈ targets_order s <-> x ∈ s).

Lemma visit_targets_ok (visit : nodes -> cstring -> outcome nodes) depth g0 (P : cstring -> Prop) :
  (forall g t, extends g0 g -> P t -> is_Some (g !! t) -> search_ok g t depth (visit g t)) ->
  forall l g, Forall P l -> extends g0 g ->
  match visit_targets visit g l with
  | Returns g' => extends g g' /\ forall t, t ∈ l -> is_Some (g0 !! t) -> visited (node_of g' t) = true
  | Throws e => e = Exn_msg /\ cyclic (shape g0)
  | Diverges => (depth <= size (closed_nodes g0))%nat
  end.
Proof.
  intros Hv. induction l as [|t l IH]; intros g Hl Hg; cbn [visit_targets].
  { split; [apply extends_refl, Hg|]. intros t []%elem_of_nil. }
  apply Forall_cons in Hl as [Ht Hl]. pose proof Hg as (Sg & _).
  destruct (g !! t) as [n|] eqn:E.
  - specialize (Hv g t Hg Ht (mk_is_Some _ _ E)).
    destruct (visit g t) as [g1|e|]; cbn [mbind outcome_bind]; cbn [search_ok] in Hv.
    + destruct Hv as [H1 V1]. pose proof (extends_trans _ _ _ Hg H1) as H01.
      specialize (IH g1 Hl H01). destruct (visit_targets visit g1 l) as [g'|e|] eqn:E'; [|done..].
      destruct IH as [H' V']. split; [by eapply extends_trans|].
      intros t' [->|Hin]%elem_of_cons Hs; [|by apply V']. by apply H'.
    + by rewrite Sg in Hv.
    + by rewrite (extends_closed _ _ Hg) in Hv.
  - specialize (IH g Hl Hg). destruct (visit_targets visit g l); [|done..].
    destruct IH as [H' V']. split; [done|]. intros t' [->|Hin]%elem_of_cons Hs; [|by apply V'].
    rewrite <-(shape_is_Some g0 g) in Hs by done. rewrite E in Hs. by destruct Hs.
Qed.

Lemma edge_order g id t : t ∈ targets_order (targets (node_of g id)) -> edge (shape g) id t.
Proof. intros Ht. apply edge_target. by apply targets_order_spec. Qed.

Lemma closed_mark g id : is_Some (g !! id) -> in_visit (node_of g id) = false ->
  (size (closed_nodes (mark g id true false)) < size (closed_nodes g))%nat.
Proof.
  intros Hs Hi. apply subset_size. split.
  - intros x. unfold closed_nodes. rewrite !elem_of_filter, <-!shape_dom, shape_mark by done.
    unfold mark. rewrite node_of_insert. case_decide; [by intros [? _]|done].
  - intros H. specialize (H id). unfold closed_nodes in H. rewrite !elem_of_filter in H.
    unfold mark in H. rewrite node_of_insert, decide_True in H by done. cbn [in_visit] in H.
    destruct H as [H _]; [|done]. split; [done|]. by apply elem_of_dom.
Qed.

Lemma node_of_mark g id a b x : x <> id -> node_of (mark g id a b) x = node_of g x.
Proof. intros. unfold mark. by rewrite node_of_insert, decide_False. Qed.
Lemma node_of_marked g id a b : node_of (mark g id a b) id = Circular_check_node a b (targets (node_of g id)).
Proof. unfold mark. by rewrite node_of_insert, decide_True. Qed.

Lemma close_node g id g' :
  is_Some (g !! id) -> in_visit (node_of g id) = false -> extends (mark g id true false) g' ->
  (forall t, t ∈ targets (node_of g id) -> is_Some (g !! t) -> visited (node_of g' t) = true) ->
  extends g (mark g' id false true).
Proof.
  intros Hs Hi (S' & I' & V' & F') Ht. rewrite shape_mark in S' by done.
  assert (Hs' : is_Some (g' !! id)) by by rewrite (shape_is_Some g g').
  split; [by rewrite shape_mark|]. split; [|split].
  - intros x. destruct (decide (x = id)) as [->|]; [by rewrite node_of_marked|].
    by rewrite node_of_mark, I', node_of_mark.
  - intros x Hx. destruct (decide (x = id)) as [->|]; [by rewrite node_of_marked|].
    rewrite node_of_mark by done. apply V'. by rewrite node_of_mark.
  - intros x Hx. rewrite shape_mark by done. destruct (decide (x = id)) as [->|].
    2:{ apply F'. by rewrite node_of_mark in Hx. }
    constructor. intros t He. unfold flip in He. destruct (decide (is_Some (g !! t))) as [E|E].
    + apply F', Ht; [|done]. apply edge_target. by rewrite <-S'.
    + constructor. intros y Hy%edge_is_Some. by rewrite (shape_is_Some g g') in Hy.
Qed.

Lemma open_finite g id : is_Some (g !! id) -> visited_finite g -> visited_finite (mark g id true false).
Proof.
  intros Hs Hf x. rewrite shape_mark by done. destruct (decide (x = id)) as [->|]; [by rewrite node_of_marked|].
  rewrite node_of_mark by done. apply Hf.
Qed.

Lemma check_node_ok depth : forall g id,
  is_Some (g !! id) -> visited_finite g ->
  (forall x, in_visit (node_of g x) = true -> tc (edge (shape g)) x id) ->
  search_ok g id depth (check_node depth g id).
Proof.
  induction depth as [|depth IH]; intros g id Hs Hf Hp; cbn [check_node]; [cbn; lia|].
  destruct (in_visit (node_of g id)) eqn:Hi.
  { split; [done|]. exists id. by apply Hp. }
  destruct (visited (node_of g id)) eqn:Hv.
  { split; [by apply extends_refl|done]. }
  pose proof (closed_mark g id Hs Hi) as Hc. pose proof (open_finite g id Hs Hf) as F0.
  pose proof (shape_mark g id true false Hs) as S0. set (g0 := mark g id true false) in *.
  assert (C : forall g1 t, extends g0 g1 -> edge (shape g) id t -> is_Some (g1 !! t) ->
    search_ok g1 t depth (check_node depth g1 t)).
  { intros g1 t H1 He Ht. apply IH; [done|apply H1|]. intros x Hx. destruct H1 as (S1 & I1 & _).
    rewrite S1, S0. rewrite I1 in Hx. unfold g0 in Hx. destruct (decide (x = id)) as [->|]; [by apply tc_once|].
    rewrite node_of_mark in Hx by done. eapply tc_r; [by apply Hp|done]. }
  pose proof (visit_targets_ok _ _ _ _ C (targets_order (targets (node_of g id))) g0) as H.
  specialize (H ltac:(apply Forall_forall; intros; by apply edge_order) (extends_refl _ F0)).
  destruct (visit_targets _ _ _) as [g'|e|]; cbn [mbind outcome_bind search_ok].
  - destruct H as [H Ht]. split; [|by rewrite node_of_marked].
    apply close_node; [done..|]. intros t Ht' E. apply Ht; [by apply targets_order_spec|].
    by rewrite (shape_is_Some g g0).
  - by rewrite S0 in H.
  - lia.
Qed.

(** From a graph nobody visited, the search throws when there is a loop and
    only then, and it always ends. *)
Lemma check_nodes_ok depth l : forall g,
  visited_finite g -> (forall x, in_visit (node_of g x) = false) -> (forall x, x ∈ l -> is_Some (g !! x)) ->
  (size (dom g) < depth)%nat ->
  match check_nodes depth g l with
  | Returns g' => extends g g' /\ forall x, x ∈ l -> visited (node_of g' x) = true
  | Throws e => e = Exn_msg /\ cyclic (shape g)
  | Diverges => False
  end.
Proof.
  induction l as [|id l IH]; intros g Hf Hi Hl Hd; cbn [check_nodes].
  { split; [by apply extends_refl|]. by intros x []%elem_of_nil. }
  assert (Hl' : forall x, x ∈ l -> is_Some (g !! x)) by (intros; apply Hl; by constructor).
  destruct (visited (node_of g id)) eqn:V.
  { specialize (IH g Hf Hi Hl' Hd). destruct (check_nodes depth g l); [|done..]. destruct IH as [H Hx].
    split; [done|]. intros x [->|]%elem_of_cons; [by apply H|by apply Hx]. }
  assert (Hp : forall x, in_visit (node_of g x) = true -> tc (edge (shape g)) x id).
  { intros x Hx. by rewrite Hi in Hx. }
  pose proof (check_node_ok depth g id (Hl id ltac:(by constructor)) Hf Hp) as H.
  destruct (check_node depth g id) as [g1|e|]; cbn [mbind outcome_bind]; cbn [search_ok] in H; [|done|].
  - destruct H as [H1 V1]. pose proof H1 as (S1 & I1 & _ & F1).
    specialize (IH g1 F1). specialize (IH ltac:(intros; by rewrite I1)).
    specialize (IH ltac:(intros; rewrite (shape_is_Some g g1) by done; by apply Hl')).
    rewrite <-(shape_dom g1), S1, shape_dom in IH. specialize (IH Hd).
    destruct (check_nodes depth g1 l) as [g'|e|]; [|done..].
    destruct IH as [H' Hx]. split; [by eapply extends_trans|].
    intros x [->|]%elem_of_cons; [by apply H'|by apply Hx].
  - assert (size (closed_nodes g) <= size (dom g))%nat; [|lia]. apply subseteq_size.
    unfold closed_nodes. intros x. rewrite elem_of_filter. tauto.
Qed.

Definition fresh_nodes g : Prop := forall x, in_visit (node_of g x) = false /\ visited (node_of g x) = false.

Lemma search_decides g l :
  fresh_nodes g -> (forall x, x ∈ l <-> is_Some (g !! x)) ->
  (cyclic (shape g) /\ check_nodes (S (size g)) g l = Throws Exn_msg)
  \/ (~ cyclic (shape g) /\ exists g', check_nodes (S (size g)) g l = Returns g').
Proof.
  intros Hg Hl. pose proof (check_nodes_ok (S (size g)) l g) as H.
  specialize (H ltac:(intros x Hx; by rewrite (proj2 (Hg x)) in Hx) ltac:(intros; apply Hg) ltac:(intros; by apply Hl)).
  specialize (H ltac:(rewrite size_dom; lia)).
  destruct (check_nodes _ _ _) as [g'|e|]; [right|left|done].
  - split; [|eauto]. intros [x Hx]. destruct H as [(S' & _ & _ & F') V'].
    assert (Hs : is_Some (g !! x)) by (inversion Hx; subst; by eapply edge_is_Some).
    revert Hx. rewrite <-S'. by apply finite_no_cycle, F', V', Hl.
  - by destruct H as [-> ?].
Qed.

(** ** The graph of a configuration *)

Inductive node : Type :=
  | N_ba (ba_id : Z)
  | N_boolexp (boolexp_id : Z)
  | N_kpi (kpi_id : Z)
  | N_meta (meta_id : Z)
  | N_service (host_id service_id : Z).

Definition key (n : node) : cstring :=
  match n with
  | N_ba i => ba_node_id i
  | N_boolexp i => boolexp_node_id i
  | N_kpi i => kpi_node_id i
  | N_meta i => meta_node_id i
  | N_service h s => service_node_id h s
  end.

(** Where the state of an indicator comes from. *)
Definition source (k : kpi) : option node :=
  if is_ba k then Some (N_ba (k_indicator_ba_id k))
  else if is_meta k then Some (N_meta (k_meta_id k))
  else if is_boolexp k then Some (N_boolexp (k_boolexp_id k))
  else if is_service k then Some (N_service (k_host_id k) (k_service_id k))
  else None.

(** An object whose changes another one follows. *)
Inductive impacts (s : state) : node -> node -> Prop :=
  | ba_shows i b : bas s !! i = Some b -> impacts s (N_ba i) (N_service (ba_host_id b) (ba_service_id b))
  | meta_shows i m : meta_services s !! i = Some m -> impacts s (N_meta i) (N_service (m_host_id m) (m_service_id m))
  | service_meta i m sv : meta_services s !! i = Some m -> sv ∈ m_services m ->
      impacts s (N_service sv.1 sv.2) (N_meta i)
  | service_boolexp i e l sv : bool_exps s !! i = Some e ->
      services_of (mapping s) (e_expression e) = Returns l -> sv ∈ l ->
      impacts s (N_service (BoolValue._host_id sv) (BoolValue._service_id sv)) (N_boolexp i)
  | kpi_impacts i k : kpis s !! i = Some k -> impacts s (N_kpi i) (N_ba (k_ba_id k))
  | source_impacts i k n : kpis s !! i = Some k -> source k = Some n -> impacts s n (N_kpi i).

(** Identifiers are unsigned. *)
Definition node_ok (n : node) : Prop :=
  match n with
  | N_ba i | N_boolexp i | N_kpi i | N_meta i => 0 <= i
  | N_service h s => 0 <= h /\ 0 <= s
  end.

Definition ids_unsigned (s : state) : Prop := forall x y, impacts s x y -> node_ok x /\ node_ok y.

Definition has_loop (s : state) : Prop := exists n, tc (impacts s) n n.

Lemma dec_inj a b : 0 <= a -> 0 <= b -> Dbl.dec a = Dbl.dec b -> a = b.
Proof.
  intros Ha Hb E. pose proof (Dbl.dec_spec a Ha) as (_ & _ & <- & _). rewrite E. by apply Dbl.dec_spec.
Qed.

Lemma graph_key_inj n m : node_ok n -> node_ok m -> key n = key m -> n = m.
Proof.
  intros Hn Hm E. destruct n, m; cbn [key node_ok] in *; try (by inversion E);
    try (f_equal; apply dec_inj; [done..|]; by eapply app_inv_head).
  apply app_inv_head in E. pose proof (f_equal (Dbl.span isdigit) E) as E'.
  destruct (Dbl.dec_spec host_id) as (D1 & _); [lia|]. destruct (Dbl.dec_spec host_id0) as (D2 & _); [lia|].
  rewrite !Dbl.span_app in E' by done. injection E' as E1 E2.
  apply app_inv_tail in E2. f_equal; apply dec_inj; (lia || done).
Qed.

Lemma source_node_key k : source_node_id k = key <$> source k.
Proof. unfold source_node_id, source. by repeat case_match. Qed.

Lemma edge_insert_target g id t x y :
  edge (shape (insert_target g id t)) x y <-> edge (shape g) x y \/ (x = id /\ y = t).
Proof.
  rewrite !edge_target. unfold insert_target. rewrite node_of_insert. case_decide; cbn [targets]; set_solver.
Qed.

Lemma edge_touch g id x y : edge (shape (touch g id)) x y <-> edge (shape g) x y.
Proof. rewrite !edge_target. unfold touch. rewrite node_of_insert. case_decide; by subst. Qed.

Lemma fresh_insert_target g id t : fresh_nodes g -> fresh_nodes (insert_target g id t).
Proof. intros H x. unfold insert_target. rewrite node_of_insert. case_decide; [apply (H id)|apply H]. Qed.
Lemma fresh_touch g id : fresh_nodes g -> fresh_nodes (touch g id).
Proof. intros H x. unfold touch. rewrite node_of_insert. case_decide; [apply (H id)|apply H]. Qed.

(** What a loop over a container adds to the graph. *)
Definition adds {A} (step : nodes -> A -> nodes) (R : A -> cstring -> cstring -> Prop) : Prop :=
  forall g a, (fresh_nodes g -> fresh_nodes (step g a))
    /\ forall x y, edge (shape (step g a)) x y <-> edge (shape g) x y \/ R a x y.

Lemma fold_adds {A} (step : nodes -> A -> nodes) R : adds step R ->
  adds (fun g l => fold_left step l g) (fun l x y => exists a, a ∈ l /\ R a x y).
Proof.
  intros H g l. revert g. induction l as [|a l IH]; intros g; cbn [fold_left].
  - split; [done|]. intros x y. setoid_rewrite elem_of_nil. naive_solver.
  - destruct (H g a) as [Hf He], (IH (step g a)) as [IHf IHe]. split; [auto|].
    intros x y. rewrite IHe, He. setoid_rewrite elem_of_cons. naive_solver.
Qed.

Lemma adds_ba : adds add_ba (fun p x y => x = ba_node_id p.1 /\ y = service_node_id (ba_host_id p.2) (ba_service_id p.2)).
Proof. intros g p. split; [apply fresh_insert_target|]. intros. apply edge_insert_target. Qed.

Definition no_service (l : list (Z * meta_service)) : Prop := forall p, p ∈ l -> m_services p.2 = ∅.

Lemma metas_added l : no_service l -> forall g, exists g', add_metas g l = Returns g' /\ (fresh_nodes g -> fresh_nodes g')
  /\ forall x y, edge (shape g') x y <-> edge (shape g) x y \/ exists p, p ∈ l
       /\ x = meta_node_id p.1 /\ y = service_node_id (m_host_id p.2) (m_service_id p.2).
Proof.
  induction l as [|p l IH]; intros Hl g; cbn [add_metas].
  { exists g. split; [done|]. split; [done|]. intros x y. setoid_rewrite elem_of_nil. naive_solver. }
  unfold add_meta. rewrite bool_decide_true by (apply Hl; constructor). cbn [mbind outcome_bind].
  edestruct (IH ltac:(intros q Hq; apply Hl; by constructor)) as (g' & -> & Hf & He). exists g'. split; [done|].
  split; [intros; by apply Hf, fresh_insert_target|].
  intros x y. rewrite He, edge_insert_target. setoid_rewrite elem_of_cons. naive_solver.
Qed.

(** The check of a configuration with a meta-service that has services does not end. *)
Lemma services_of_metas_never_end l : forall g, ~ no_service l -> add_metas g l = Diverges.
Proof.
  induction l as [|p l IH]; intros g Hl; cbn [add_metas].
  - destruct Hl. intros p H. by apply elem_of_nil in H.
  - unfold add_meta. case_bool_decide; [|done]. cbn [mbind outcome_bind]. apply IH. intros H'. apply Hl.
    intros q [->|Hq]%elem_of_cons; [done|by apply H'].
Qed.

Lemma adds_services id : adds (fun g l => add_services id l g) (fun l x y =>
  exists s, s ∈ l /\ x = service_node_id (BoolValue._host_id s) (BoolValue._service_id s) /\ y = id).
Proof.
  intros g l. apply (fold_adds (fun g s => insert_target g (service_node_id (BoolValue._host_id s) (BoolValue._service_id s)) id)).
  intros g' s. split; [apply fresh_insert_target|]. intros. apply edge_insert_target.
Qed.

Lemma adds_kpi : adds add_kpi (fun p x y =>
  (x = kpi_node_id p.1 /\ y = ba_node_id (k_ba_id p.2))
  \/ (source_node_id p.2 = Some x /\ y = kpi_node_id p.1)).
Proof.
  intros g p. unfold add_kpi. destruct (source_node_id p.2) as [n|].
  - split; [intros; by do 2 apply fresh_insert_target|].
    intros x y. rewrite !edge_insert_target. naive_solver.
  - split; [apply fresh_insert_target|]. intros x y. rewrite edge_insert_target. naive_solver.
Qed.

(** The fuel is in proportion to the longest text of an expression. *)
Definition enough_fuel (s : state) : Prop :=
  forall i e, bool_exps s !! i = Some e -> (ExpTokenizer.text_fuel (e_expression e) <= fuel)%nat.

(** Meta-services have no services: the reader gives them none. *)
Definition plain_metas (s : state) : Prop := forall i m, meta_services s !! i = Some m -> m_services m = ∅.

Lemma services_of_ends m expression : (ExpTokenizer.text_fuel expression <= fuel)%nat -> services_of m expression <> Diverges.
Proof. intros H%(ExpBuilder.compile_ends fuel m). unfold services_of. by destruct (ExpBuilder.compile _ _ _). Qed.

Lemma bool_exps_added m l : (forall p, p ∈ l -> services_of m (e_expression p.2) <> Diverges) ->
  forall g, exists g', add_bool_exps m g l = Returns g' /\ (fresh_nodes g -> fresh_nodes g')
  /\ forall x y, edge (shape g') x y <-> edge (shape g) x y \/ exists p ss s, p ∈ l
       /\ services_of m (e_expression p.2) = Returns ss /\ s ∈ ss
       /\ x = service_node_id (BoolValue._host_id s) (BoolValue._service_id s) /\ y = boolexp_node_id p.1.
Proof.
  induction l as [|p l IH]; intros Hl g; cbn [add_bool_exps].
  { exists g. split; [done|]. split; [done|]. intros x y. setoid_rewrite elem_of_nil. naive_solver. }
  assert (Hp : exists ss, services_of m (e_expression p.2) = Returns ss).
  { pose proof (Hl p ltac:(by constructor)) as H. unfold services_of in *. destruct (ExpBuilder.compile _ _ _); eauto; done. }
  destruct Hp as [ss Es]. unfold add_bool_exp. rewrite Es. cbn [mbind outcome_bind].
  destruct (adds_services (boolexp_node_id p.1) (touch g (boolexp_node_id p.1)) ss) as [Af Ae].
  destruct (IH ltac:(intros; apply Hl; by constructor) (add_services (boolexp_node_id p.1) ss (touch g (boolexp_node_id p.1))))
    as (g' & -> & Hf & He). exists g'. split; [done|]. split; [intros; by apply Hf, Af, fresh_touch|].
  intros x y. rewrite He, Ae, edge_touch. split.
  - intros [[H|(s & Hs & H)]|(p' & ss' & s & Hp & H)]; [by left|right..].
    + exists p, ss, s. split; [constructor|done].
    + exists p', ss', s. split; [by constructor|done].
  - intros [H|(p' & ss' & s & [->|Hp]%elem_of_cons & Ess & Hs & H)]; [by left; left| |].
    + left; right. exists s. rewrite Es in Ess. by simplify_eq.
    + right. by exists p', ss', s.
Qed.

(** The graph that is searched has the edges of the configuration. *)
Lemma populate_ok s : enough_fuel s -> plain_metas s ->
  exists g, populate s = Returns g /\ fresh_nodes g
  /\ forall x y, edge (shape g) x y <-> exists n m, x = key n /\ y = key m /\ impacts s n m.
Proof.
  intros Hf Hm. unfold populate.
  pose proof (fold_adds _ _ adds_ba ∅ (items (bas s))) as [F1 E1].
  set (g1 := fold_left add_ba _ _) in *.
  destruct (metas_added (items (meta_services s))) with (g := g1) as (g2 & -> & F2 & E2).
  { intros [i m] H%elem_of_items. by apply (Hm i). }
  cbn [mbind outcome_bind].
  destruct (bool_exps_added (mapping s) (items (bool_exps s))) with (g := g2) as (g3 & -> & F3 & E3).
  { intros [i e] H%elem_of_items. apply services_of_ends. by apply (Hf i). }
  cbn [mbind outcome_bind].
  pose proof (fold_adds _ _ adds_kpi g3 (items (kpis s))) as [F4 E4].
  eexists. split; [done|]. split; [apply F4, F3, F2, F1; by intros x|].
  intros x y. rewrite E4, E3, E2, E1. split.
  - intros [[[[H|([i b] & H & -> & ->)]|([i m] & H & -> & ->)]
      |([i e] & ss & sv & H & Hss & Hs & -> & ->)]|([i k] & H & [[-> ->]|[Hk ->]])].
    + apply edge_target in H. by apply elem_of_empty in H.
    + apply elem_of_items in H. exists (N_ba i), (N_service (ba_host_id b) (ba_service_id b)). eauto using impacts.
    + apply elem_of_items in H. exists (N_meta i), (N_service (m_host_id m) (m_service_id m)). eauto using impacts.
    + apply elem_of_items in H. exists (N_service (BoolValue._host_id sv) (BoolValue._service_id sv)), (N_boolexp i).
      eauto using impacts.
    + apply elem_of_items in H. exists (N_kpi i), (N_ba (k_ba_id k)). eauto using impacts.
    + apply elem_of_items in H. cbn [fst snd] in Hk. rewrite source_node_key in Hk.
      destruct (source k) as [n|] eqn:E; simpl in Hk; simplify_eq. exists n, (N_kpi i). eauto using impacts.
  - intros (n & m & -> & -> & Hi). destruct Hi as [i b H|i m H|i m sv H Hs|i e l sv H Hl Hs|i k H|i k n H Hk];
      [| |by rewrite (Hm i m H) in Hs| | |]; apply elem_of_items in H.
    + left; left; left; right. by exists (i, b).
    + left; left; right. exists (i, m). eauto.
    + left; right. exists (i, e), l, sv. eauto.
    + right. exists (i, k). eauto.
    + right. exists (i, k). split; [done|]. right. rewrite source_node_key. cbn. by rewrite Hk.
Qed.

Lemma tc_key s (E : cstring -> cstring -> Prop) : ids_unsigned s ->
  (forall x y, E x y <-> exists n m, x = key n /\ y = key m /\ impacts s n m) ->
  forall x y, tc E x y -> exists n m, x = key n /\ y = key m /\ tc (impacts s) n m /\ node_ok n /\ node_ok m.
Proof.
  intros Hu HE x y H. induction H as [x y H|x y z H _ IH].
  - apply HE in H as (n & m & -> & -> & H). exists n, m. destruct (Hu _ _ H). by repeat split; try apply tc_once.
  - apply HE in H as (n & m & -> & -> & H). destruct IH as (m' & p & Em & -> & IH & Hm & Hp).
    destruct (Hu _ _ H) as [Hn Hm']. apply graph_key_inj in Em as ->; [|done..]. exists n, p. by repeat split; try eapply tc_l.
Qed.

Lemma cyclic_has_loop s g : ids_unsigned s ->
  (forall x y, edge (shape g) x y <-> exists n m, x = key n /\ y = key m /\ impacts s n m) ->
  cyclic (shape g) <-> has_loop s.
Proof.
  intros Hu HE. split.
  - intros [x H]. destruct (tc_key s _ Hu HE _ _ H) as (n & m & -> & E & P & Hn & Hm).
    apply graph_key_inj in E as ->; [|done..]. by exists m.
  - intros [n H]. exists (key n). revert H. generalize n at 1 3 as m. intros m H.
    induction H as [a b H|a b c H _ IH]; [apply tc_once|eapply tc_l; [|exact IH]]; apply HE; eauto.
Qed.

Lemma circular_check_ok s
  (nodes_order_spec : forall g x, x ∈ nodes_order g <-> is_Some (g !! x)) :
  enough_fuel s -> plain_metas s -> ids_unsigned s ->
  (has_loop s -> _circular_check s = Throws Exn_msg) /\ (~ has_loop s -> _circular_check s = Returns tt).
Proof.
  intros Ht Hm Hu. destruct (populate_ok s Ht Hm) as (g & Ep & Hf & He).
  unfold _circular_check. rewrite Ep. cbn [mbind outcome_bind].
  rewrite <-(cyclic_has_loop s g Hu He).
  destruct (search_decides g (nodes_order g) Hf (nodes_order_spec g)) as [[Hc ->]|[Hc [g' ->]]]; by split.
Qed.

Lemma circular_check_never_ends s : ~ plain_metas s -> _circular_check s = Diverges.
Proof.
  intros Hm. unfold _circular_check, populate. rewrite services_of_metas_never_end; [done|].
  intros H. apply Hm. intros i m Hi. apply (H (i, m)). by apply elem_of_items.
Qed.

(** C22. The search of BAM throws exactly when an object of the configuration
    impacts itself, through the services of business activities and
    meta-services, the services expressions name and the indicators, and ends
    without an exception on every other configuration. This is so when no
    meta-service has services of its own, as in all the reader gives; when one
    has, the search never ends. The fuel of the reading of the texts is in
    proportion to the longest one, and identifiers are unsigned. *)
Theorem circular_check_refuses_loops s
  (nodes_order_spec : forall g x, x ∈ nodes_order g <-> is_Some (g !! x)) :
  enough_fuel s -> ids_unsigned s ->
  (plain_metas s -> (has_loop s -> _circular_check s = Throws Exn_msg) /\ (~ has_loop s -> _circular_check s = Returns tt))
  /\ (~ plain_metas s -> _circular_check s = Diverges).
Proof. intros Hf Hu. split; [intros Hm; by apply circular_check_ok|apply circular_check_never_ends]. Qed.

End Search.
End Graph.

(** ** On an example *)

(** Business activity 1 shows as the service http of web, that expression 7
    names; indicator 5 makes the expression impact the activity. *)
Definition demo_ba : ba :=
  Mk_ba 1 1 10 (str "shop") Ba.state_source_worst (Dbl.of_Z 80) (Dbl.of_Z 70) no_ba_event Ba.dt_ignore.
Definition demo_kpi (boolexp_id : Z) : kpi :=
  Mk_kpi 5 1 0 0 1 0 0 boolexp_id 0 0 false false false false (Dbl.of_Z 0) (Dbl.of_Z 0) (Dbl.of_Z 0) no_kpi_event.
Definition demo_expression (text : string) : bool_expression := Mk_bool_expression 7 (str "up") (str text) true.
Definition demo_state (text : string) : state :=
  State {[1 := demo_ba]} {[5 := demo_kpi 7]} {[7 := demo_expression text]} ∅ ExpBuilder.demo_mapping.

Definition all_nodes (g : nodes) : list cstring := (map_to_list g).*1.

Lemma all_nodes_spec (g : nodes) x : x ∈ all_nodes g <-> is_Some (g !! x).
Proof.
  unfold all_nodes. rewrite list_elem_of_fmap. split.
  - intros ([k n] & -> & H%elem_of_map_to_list). by eexists.
  - intros [n H]. exists (x, n). by rewrite elem_of_map_to_list.
Qed.

Lemma demo_services : services_of 200 ExpBuilder.demo_mapping (str "{web http} IS CRITICAL")
  = Returns [BoolValue.new_service 1 10].
Proof. by vm_compute. Qed.

Lemma demo_loop : has_loop 200 (demo_state "{web http} IS CRITICAL").
Proof.
  exists (N_ba 1). apply tc_l with (N_service 1 10); [by apply (ba_shows _ _ 1 demo_ba)|].
  apply tc_l with (N_boolexp 7).
  { eapply (service_boolexp 200 _ 7 _ _ (BoolValue.new_service 1 10)); [done|exact demo_services|by constructor]. }
  apply tc_l with (N_kpi 5); [by apply (source_impacts _ _ 5 (demo_kpi 7))|].
  apply tc_once. by apply (kpi_impacts _ _ 5 (demo_kpi 7)).
Qed.

Lemma demo_unsigned text service_id : 0 <= service_id ->
  services_of 200 ExpBuilder.demo_mapping (str text) = Returns [BoolValue.new_service 1 service_id] ->
  ids_unsigned 200 (demo_state text).
Proof.
  intros H0 Hsv x y [i b H|i m H|i m sv H Hs|i e l sv H Hl Hs|i k H|i k n H Hk];
    cbn [demo_state bas kpis bool_exps meta_services mapping] in *;
    try (apply lookup_singleton_Some in H as [<- <-]); try done.
  - cbn [e_expression demo_expression] in Hl. rewrite Hsv in Hl. simplify_eq.
    by apply list_elem_of_singleton in Hs as ->.
  - cbn in Hk. by simplify_eq.
Qed.

Lemma demo_enough text : (length (str text) <= 24)%nat -> enough_fuel 200 (demo_state text).
Proof.
  intros Hl i e H. cbn in H. apply lookup_singleton_Some in H as [<- <-]. cbn [e_expression demo_expression].
  unfold ExpTokenizer.text_fuel. lia.
Qed.

Lemma circular_check_refuses_loops_witness :
  has_loop 200 (demo_state "{web http} IS CRITICAL")
  /\ _circular_check 200 elements all_nodes (demo_state "{web http} IS CRITICAL") = Throws Exn_msg.
Proof.
  split; [exact demo_loop|].
  apply (circular_check_refuses_loops 200 elements all_nodes (fun s x => elem_of_elements s x)
    (demo_state "{web http} IS CRITICAL") all_nodes_spec (demo_enough "{web http} IS CRITICAL" ltac:(vm_compute; lia))
    (demo_unsigned _ 10 ltac:(done) demo_services)); [done|exact demo_loop].
Defined.

Example demo_no_loop :
  _circular_check 200 elements all_nodes (demo_state "{web disk /} IS CRITICAL") = Returns tt.
Proof. by vm_compute. Qed.

End BamGraph.
