(* ===== verification/BaApplier.v ===== *)
(** * Applying business activities (bam/src/configuration/applier/ba.cc)

    An applier keeps the objects it made from the last configuration. Given a
    new one it removes the objects that are no more in it, makes those that are
    new and changes those that differ. This file holds what the appliers share
    - the objects and their addresses, the book of services
    (bam/src/service_book.cc), the comparison of two configurations - and the
    applier of business activities. *)

From Stdlib Require Import ZArith Lia ZifyNat ZifyBool Strings.Byte.
From stdpp Require Import base option list numbers strings gmap sets.
From S2P Require Import Prelude Double Kpi Ba MetaService BamConfig.

(** ** The book of listeners of services

    A multimap of the listeners, by their addresses, in the order they came. *)

Module ServiceBook.

Abbreviation book := (gmap (Z * Z) (list Z)).
Implicit Types b : book.

Definition listeners b (service : Z * Z) : list Z := default [] (b !! service).

Definition listen b (host_id service_id listnr : Z) : book :=
  <[(host_id, service_id) := listeners b (host_id, service_id) ++ [listnr]]> b.

Definition unlisten b (host_id service_id listnr : Z) : book :=
  <[(host_id, service_id) := MetaService.erase_first (listeners b (host_id, service_id)) listnr]> b.

(** How many times an object listens to a service. *)
Definition occurs b (service : Z * Z) (x : Z) : nat := length (filter (fun y => y = x) (listeners b service)).

Lemma listeners_insert b k l k' : listeners (<[k := l]> b) k' = if decide (k' = k) then l else listeners b k'.
Proof.
  unfold listeners. destruct (decide (k' = k)) as [->|]; [by rewrite lookup_insert_eq|by rewrite lookup_insert_ne].
Qed.

Lemma occurs_listen b h s x k y :
  occurs (listen b h s x) k y = (occurs b k y + if decide (k = (h, s) /\ y = x) then 1 else 0)%nat.
Proof.
  unfold occurs, listen. rewrite listeners_insert. destruct (decide (k = (h, s))) as [->|].
  - rewrite filter_app, length_app. f_equal. rewrite filter_cons, filter_nil.
    destruct (decide (y = x)) as [->|]; [by rewrite !decide_True|]. rewrite !decide_False by naive_solver. done.
  - rewrite decide_False by tauto. lia.
Qed.

Lemma filter_erase_first (l : list Z) x y :
  length (filter (fun z => z = y) (MetaService.erase_first l x))
  = (length (filter (fun z => z = y) l) - if decide (y = x) then 1 else 0)%nat.
Proof.
  induction l as [|z l IH]; cbn [MetaService.erase_first]; [by rewrite filter_nil|].
  destruct (Z.eqb_spec z x) as [->|].
  - rewrite filter_cons. destruct (decide (y = x)) as [->|]; [rewrite decide_True by done; cbn; lia|].
    rewrite decide_False by done. lia.
  - rewrite !filter_cons. destruct (decide (z = y)) as [->|]; [|done]. cbn [length].
    rewrite IH. rewrite decide_False by done. lia.
Qed.

Lemma occurs_unlisten b h s x k y :
  occurs (unlisten b h s x) k y = (occurs b k y - if decide (k = (h, s) /\ y = x) then 1 else 0)%nat.
Proof.
  unfold occurs, unlisten. rewrite listeners_insert. destruct (decide (k = (h, s))) as [->|].
  - rewrite filter_erase_first. destruct (decide (y = x)); [by rewrite decide_True|by rewrite decide_False by tauto].
  - rewrite decide_False by tauto. lia.
Qed.

End ServiceBook.

(** ** Two configurations compared *)

Module Diff.
Import Ordered.

Section Diff.
Context {A C : Type} (cfg_of : A -> C) (neqb : C -> C -> bool).

(** Objects that differ are changed. *)
Definition modify_step (s : gmap Z A * gmap Z C * list C) (p : Z * C) : gmap Z A * gmap Z C * list C :=
  let '(to_delete, to_create, to_modify) := s in
  match to_delete !! p.1 with
  | Some a => (delete p.1 to_delete, delete p.1 to_create, if neqb (cfg_of a) p.2 then to_modify ++ [p.2] else to_modify)
  | None => s
  end.

Definition diff_modify (applied : gmap Z A) (mine : gmap Z C) : gmap Z A * gmap Z C * list C :=
  fold_left modify_step (items mine) (applied, mine, []).

(** Objects that differ are deleted and created. *)
Definition recreate_step (s : gmap Z A * gmap Z C) (p : Z * C) : gmap Z A * gmap Z C :=
  let '(to_delete, to_create) := s in
  match to_delete !! p.1 with
  | Some a => if neqb (cfg_of a) p.2 then s else (delete p.1 to_delete, delete p.1 to_create)
  | None => s
  end.

Definition diff_recreate (applied : gmap Z A) (mine : gmap Z C) : gmap Z A * gmap Z C :=
  fold_left recreate_step (items mine) (applied, mine).

(** A step is about its own key only. *)
Lemma modify_others l : forall s k, k ∉ l.*1 ->
  (fold_left modify_step l s).1.1 !! k = s.1.1 !! k /\ (fold_left modify_step l s).1.2 !! k = s.1.2 !! k.
Proof.
  induction l as [|[k' x] l IH]; intros [[d c] m] k Hk; cbn [fold_left]; [done|].
  cbn [fmap list_fmap fst] in Hk. apply not_elem_of_cons in Hk as [Hne Hk].
  destruct (IH (modify_step (d, c, m) (k', x)) k Hk) as [-> ->].
  unfold modify_step. cbn [fst snd]. destruct (d !! k'); [|done]. cbn [fst snd]. by rewrite !lookup_delete_ne.
Qed.

Lemma modify_own l k x : NoDup l.*1 -> (k, x) ∈ l -> forall s, s.1.2 !! k = Some x ->
  (fold_left modify_step l s).1.1 !! k = None
  /\ (fold_left modify_step l s).1.2 !! k = match s.1.1 !! k with Some _ => None | None => Some x end.
Proof.
  intros Hl Hin [[d c] m] Hc. cbn [fst snd] in *. apply list_elem_of_split in Hin as (l1 & l2 & ->).
  rewrite fmap_app in Hl. cbn [fmap list_fmap fst] in Hl.
  apply NoDup_app in Hl as (_ & H1 & Hl2). apply NoDup_cons in Hl2 as [Hk2 _].
  assert (Hk1 : k ∉ l1.*1) by (intros H; by apply (H1 k H); constructor).
  rewrite fold_left_app. cbn [fold_left]. destruct (modify_others l2 (modify_step (fold_left modify_step l1 (d, c, m)) (k, x)) k Hk2) as [-> ->].
  destruct (modify_others l1 (d, c, m) k Hk1) as [E1 E2]. cbn [fst snd] in E1, E2.
  destruct (fold_left modify_step l1 (d, c, m)) as [[d1 c1] m1]. cbn [fst snd modify_step] in *. rewrite E1.
  destruct (d !! k) eqn:E; cbn [fst snd]; [by rewrite !lookup_delete_eq|]. by rewrite E1, E2.
Qed.

Lemma modify_list l : NoDup l.*1 -> forall s x,
  x ∈ (fold_left modify_step l s).2
  <-> x ∈ s.2 \/ exists k a, (k, x) ∈ l /\ s.1.1 !! k = Some a /\ neqb (cfg_of a) x = true.
Proof.
  induction l as [|[k y] l IH]; intros Hl [[d c] m] x; cbn [fold_left fst snd].
  { setoid_rewrite elem_of_nil. naive_solver. }
  cbn [fmap list_fmap fst] in Hl. apply NoDup_cons in Hl as [Hk Hl]. rewrite IH by done.
  assert (Hrest : forall k' x', (k', x') ∈ l -> k' <> k).
  { intros k' x' H ->. apply Hk. by apply (list_elem_of_fmap_2 fst) in H. }
  assert (Hcons : (exists k' a, (k', x) ∈ (k, y) :: l /\ d !! k' = Some a /\ neqb (cfg_of a) x = true)
    <-> (x = y /\ exists a, d !! k = Some a /\ neqb (cfg_of a) y = true)
        \/ exists k' a, (k', x) ∈ l /\ d !! k' = Some a /\ neqb (cfg_of a) x = true).
  { split.
    - intros (k' & a & [E|H]%elem_of_cons & Hd); [simplify_eq; left; by split; [|exists a]|right; by exists k', a].
    - intros [[-> (a & H)]|(k' & a & H & H')]; [exists k, a|exists k', a]; by rewrite elem_of_cons; auto. }
  rewrite Hcons. clear Hcons. cbn [modify_step fst snd]. destruct (d !! k) as [a|] eqn:E; cbn [fst snd].
  - assert (Hs : (exists k' a', (k', x) ∈ l /\ delete k d !! k' = Some a' /\ neqb (cfg_of a') x = true)
      <-> exists k' a', (k', x) ∈ l /\ d !! k' = Some a' /\ neqb (cfg_of a') x = true).
    { split; intros (k' & a' & H & H'); exists k', a'; rewrite lookup_delete_ne in * by (intros ->; by apply (Hrest _ _ H)); done. }
    rewrite Hs. clear Hs. destruct (neqb (cfg_of a) y) eqn:N.
    + rewrite elem_of_app, list_elem_of_singleton. split; [intros [[H| ->]|H]; [by left|by right; left; eauto|by right; right]|].
      intros [H|[[-> _]|H]]; auto.
    + split; [intros [H|H]; auto|]. intros [H|[[-> (a' & E' & N')]|H]]; auto. simplify_eq. congruence.
  - split; [intros [H|H]; auto|]. intros [H|[[-> (a' & E' & _)]|H]]; auto. congruence.
Qed.

Lemma diff_modify_spec applied mine d c m : diff_modify applied mine = (d, c, m) ->
  (forall k, d !! k = match mine !! k with Some _ => None | None => applied !! k end)
  /\ (forall k, c !! k = match applied !! k with Some _ => None | None => mine !! k end)
  /\ (forall x, x ∈ m <-> exists k a, mine !! k = Some x /\ applied !! k = Some a /\ neqb (cfg_of a) x = true).
Proof.
  unfold diff_modify. intros E. pose proof (items_NoDup mine) as Hl.
  assert (Hout : forall k, mine !! k = None -> k ∉ (items mine).*1).
  { intros k Hk ([k' x] & -> & H)%list_elem_of_fmap. apply elem_of_items in H. cbn in Hk. congruence. }
  split; [|split].
  - intros k. destruct (mine !! k) as [x|] eqn:Ek.
    + destruct (modify_own (items mine) k x Hl) with (s := (applied, mine, @nil C)) as [H _]; [by apply elem_of_items|done|].
      by rewrite E in H.
    + destruct (modify_others (items mine) (applied, mine, []) k) as [H _]; [by apply Hout|]. by rewrite E in H.
  - intros k. destruct (mine !! k) as [x|] eqn:Ek.
    + destruct (modify_own (items mine) k x Hl) with (s := (applied, mine, @nil C)) as [_ H]; [by apply elem_of_items|done|].
      by rewrite E in H.
    + destruct (modify_others (items mine) (applied, mine, []) k) as [_ H]; [by apply Hout|]. rewrite E in H.
      cbn [fst snd] in H. rewrite Ek in H. by destruct (applied !! k).
  - intros x. pose proof (modify_list (items mine) Hl (applied, mine, []) x) as H. rewrite E in H. cbn [fst snd] in H.
    rewrite H. setoid_rewrite elem_of_items. setoid_rewrite elem_of_nil. naive_solver.
Qed.

Lemma recreate_others l : forall s k, k ∉ l.*1 ->
  (fold_left recreate_step l s).1 !! k = s.1 !! k /\ (fold_left recreate_step l s).2 !! k = s.2 !! k.
Proof.
  induction l as [|[k' x] l IH]; intros [d c] k Hk; cbn [fold_left]; [done|].
  cbn [fmap list_fmap fst] in Hk. apply not_elem_of_cons in Hk as [Hne Hk].
  destruct (IH (recreate_step (d, c) (k', x)) k Hk) as [-> ->].
  unfold recreate_step. cbn [fst snd]. destruct (d !! k'); [|done]. case_match; [done|]. cbn [fst snd].
  by rewrite !lookup_delete_ne.
Qed.

Definition unchanged (a : option A) (x : C) : bool := match a with Some a => negb (neqb (cfg_of a) x) | None => false end.

Lemma recreate_own l k x : NoDup l.*1 -> (k, x) ∈ l -> forall s, s.2 !! k = Some x ->
  (fold_left recreate_step l s).1 !! k = (if unchanged (s.1 !! k) x then None else s.1 !! k)
  /\ (fold_left recreate_step l s).2 !! k = (if unchanged (s.1 !! k) x then None else Some x).
Proof.
  intros Hl Hin [d c] Hc. cbn [fst snd] in *. apply list_elem_of_split in Hin as (l1 & l2 & ->).
  rewrite fmap_app in Hl. cbn [fmap list_fmap fst] in Hl.
  apply NoDup_app in Hl as (_ & H1 & Hl2). apply NoDup_cons in Hl2 as [Hk2 _].
  assert (Hk1 : k ∉ l1.*1) by (intros H; by apply (H1 k H); constructor).
  rewrite fold_left_app. cbn [fold_left].
  destruct (recreate_others l2 (recreate_step (fold_left recreate_step l1 (d, c)) (k, x)) k Hk2) as [-> ->].
  destruct (recreate_others l1 (d, c) k Hk1) as [E1 E2]. cbn [fst snd] in E1, E2.
  destruct (fold_left recreate_step l1 (d, c)) as [d1 c1]. cbn [fst snd recreate_step] in *. rewrite E1.
  destruct (d !! k) eqn:E; cbn [unchanged fst snd]; [|by rewrite E1, E2].
  destruct (neqb _ x); cbn [negb fst snd]; [by rewrite E1, E2|by rewrite !lookup_delete_eq].
Qed.

Lemma diff_recreate_spec applied mine d c : diff_recreate applied mine = (d, c) ->
  (forall k, d !! k = match mine !! k with
                     | Some x => if unchanged (applied !! k) x then None else applied !! k
                     | None => applied !! k end)
  /\ (forall k, c !! k = match mine !! k with
                        | Some x => if unchanged (applied !! k) x then None else Some x
                        | None => None end).
Proof.
  unfold diff_recreate. intros E. pose proof (items_NoDup mine) as Hl.
  assert (H : forall k, match mine !! k with
    | Some x => d !! k = (if unchanged (applied !! k) x then None else applied !! k)
                /\ c !! k = (if unchanged (applied !! k) x then None else Some x)
    | None => d !! k = applied !! k /\ c !! k = None end).
  { intros k. destruct (mine !! k) as [x|] eqn:Ek.
    - pose proof (recreate_own (items mine) k x Hl) as H. rewrite elem_of_items in H.
      specialize (H Ek (applied, mine) Ek). by rewrite E in H.
    - pose proof (recreate_others (items mine) (applied, mine) k) as H. rewrite E in H. cbn [fst snd] in H.
      rewrite Ek in H. apply H. intros ([k' x] & -> & H')%list_elem_of_fmap. apply elem_of_items in H'. cbn in Ek. congruence. }
  split; intros k; specialize (H k); destruct (mine !! k); apply H.
Qed.

End Diff.
End Diff.

(** ** The loops of an applier that changes its objects in place *)

Module Stages.
Import Ordered Diff.

Section Stages.
Context {W A C : Type} (applied : W -> gmap Z A) (cfg_of : A -> C) (obj_of : A -> Z) (id_of : C -> Z).
Context (neqb : C -> C -> bool) (compatible : C -> C -> Prop).
Context (remove : W -> Z * A -> W) (create : W -> Z * C -> W) (modify : W -> C -> W) (inv : W -> Prop).

Hypothesis compatible_euclidean : forall x y z, compatible x y -> compatible x z -> compatible y z.
Hypothesis remove_ok : forall w k a, inv w -> applied w !! k = Some a ->
  inv (remove w (k, a)) /\ applied (remove w (k, a)) = delete k (applied w).
Hypothesis create_ok : forall w k c, inv w -> applied w !! k = None -> id_of c = k ->
  inv (create w (k, c)) /\ exists a, cfg_of a = c /\ applied (create w (k, c)) = <[k := a]> (applied w).
Hypothesis modify_ok : forall w a c, inv w -> applied w !! id_of c = Some a -> compatible (cfg_of a) c ->
  inv (modify w c)
  /\ exists a', cfg_of a' = c /\ obj_of a' = obj_of a /\ applied (modify w c) = <[id_of c := a']> (applied w).

Definition update (w : W) (mine : gmap Z C) : W :=
  let '(to_delete, to_create, to_modify) := diff_modify cfg_of neqb (applied w) mine in
  fold_left modify to_modify (fold_left create (items to_create) (fold_left remove (items to_delete) w)).

Lemma stages_remove_all l : forall w, inv w -> NoDup l.*1 -> (forall k a, (k, a) ∈ l -> applied w !! k = Some a) ->
  let w' := fold_left remove l w in
  inv w' /\ forall k, applied w' !! k = if decide (k ∈ l.*1) then None else applied w !! k.
Proof.
  induction l as [|[k a] l IH]; intros w W0 Hl Hin; cbn [fold_left].
  { split; [done|]. intros k. rewrite decide_False; [done|]. apply not_elem_of_nil. }
  cbn [fmap list_fmap fst] in Hl. apply NoDup_cons in Hl as [Hk Hl].
  destruct (remove_ok w k a W0) as [W1 E1]; [apply Hin; by left|].
  destruct (IH (remove w (k, a)) W1 Hl) as [W' E].
  - intros k' a' H. rewrite E1, lookup_delete_ne; [apply Hin; by right|].
    intros ->. apply Hk. by apply (list_elem_of_fmap_2 fst) in H.
  - split; [done|]. intros k'. rewrite E, E1. cbn [fmap list_fmap fst]. destruct (decide (k' = k)) as [->|].
    + rewrite decide_False, decide_True by (done || by left). apply lookup_delete_eq.
    + rewrite lookup_delete_ne by done. destruct (decide (k' ∈ l.*1)).
      * by rewrite decide_True by by right.
      * rewrite decide_False; [done|]. by apply not_elem_of_cons.
Qed.

Lemma create_all l : forall w, inv w -> NoDup l.*1 -> (forall k c, (k, c) ∈ l -> applied w !! k = None /\ id_of c = k) ->
  let w' := fold_left create l w in
  inv w' /\ (forall k, k ∉ l.*1 -> applied w' !! k = applied w !! k)
  /\ (forall k c, (k, c) ∈ l -> cfg_of <$> applied w' !! k = Some c).
Proof.
  induction l as [|[k c] l IH]; intros w W0 Hl Hin; cbn [fold_left].
  { split; [done|]. split; [done|]. intros ? ? []%elem_of_nil. }
  cbn [fmap list_fmap fst] in Hl. apply NoDup_cons in Hl as [Hk Hl].
  destruct (Hin k c) as [Hn Hid]; [by left|]. destruct (create_ok w k c W0 Hn Hid) as (W1 & a & Hc & E).
  assert (Hne : forall k' c', (k', c') ∈ l -> k <> k').
  { intros k' c' H ->. apply Hk. by apply (list_elem_of_fmap_2 fst) in H. }
  destruct (IH (create w (k, c)) W1 Hl) as (W' & E1 & E2).
  - intros k' c' H. rewrite E, lookup_insert_ne by by eapply Hne. apply Hin. by right.
  - split; [done|]. split.
    + intros k' [Hk' Hl']%not_elem_of_cons. rewrite E1, E by done. by rewrite lookup_insert_ne.
    + intros k' c' [Heq|H]%elem_of_cons; [|by apply E2]. injection Heq as -> ->. rewrite E1, E by done.
      rewrite lookup_insert_eq. cbn. by rewrite Hc.
Qed.

(** A modification is found in the applier. *)
Definition modifiable w (c : C) : Prop := exists a, applied w !! id_of c = Some a /\ compatible (cfg_of a) c.

Lemma modify_all l : forall w, inv w -> Forall (modifiable w) l ->
  let w' := fold_left modify l w in
  inv w' /\ (forall k, obj_of <$> applied w' !! k = obj_of <$> applied w !! k)
  /\ (forall k, (forall c, c ∈ l -> id_of c <> k) -> applied w' !! k = applied w !! k)
  /\ (forall c, c ∈ l -> (forall c', c' ∈ l -> id_of c' = id_of c -> c' = c) -> cfg_of <$> applied w' !! id_of c = Some c).
Proof.
  induction l as [|c l IH]; intros w W0 Hl; cbn [fold_left].
  { split; [done|]. split; [done|]. split; [done|]. intros ? []%elem_of_nil. }
  apply Forall_cons in Hl as [(a & Ha & Hs) Hl]. destruct (modify_ok w a c W0 Ha Hs) as (W1 & a' & Hc & Ho & E).
  destruct (IH (modify w c) W1) as (W' & O' & E1 & E2).
  - eapply Forall_impl; [exact Hl|]. intros c' (b & Hb & Hs'). unfold modifiable. rewrite E.
    destruct (decide (id_of c = id_of c')) as [Heq|]; [|rewrite lookup_insert_ne by done; by exists b].
    rewrite Heq, lookup_insert_eq. exists a'. split; [done|]. rewrite Hc. rewrite Heq in Ha.
    assert (a = b) as -> by congruence. by eapply compatible_euclidean.
  - split; [done|]. split; [|split].
    + intros k. rewrite O', E. destruct (decide (id_of c = k)) as [<-|]; [|by rewrite lookup_insert_ne].
      rewrite lookup_insert_eq, Ha. cbn. by rewrite Ho.
    + intros k Hk. rewrite E1 by (intros; apply Hk; by right). rewrite E, lookup_insert_ne; [done|]. apply Hk. by left.
    + intros c' Hc' Huniq. destruct (decide (id_of c' ∈ id_of <$> l)) as [Hin|Hnot].
      { apply list_elem_of_fmap in Hin as (d & Hd & Hin). assert (d = c') as -> by (apply Huniq; [by right|done]).
        apply E2; [done|]. intros e He. apply Huniq. by right. }
      apply elem_of_cons in Hc' as [->|Hin]; [|by apply (list_elem_of_fmap_2 id_of) in Hin]. rewrite E1.
      * rewrite E, lookup_insert_eq. cbn. by rewrite Hc.
      * intros d Hd Heq. apply Hnot. rewrite <-Heq. by apply list_elem_of_fmap_2.
Qed.

(** What is applied once the objects to delete and to create are. *)
Lemma created_applied w mine d c m : inv w -> (forall k x, mine !! k = Some x -> id_of x = k) ->
  diff_modify cfg_of neqb (applied w) mine = (d, c, m) ->
  let w2 := fold_left create (items c) (fold_left remove (items d) w) in
  inv w2 /\ forall k, match mine !! k, applied w !! k with
    | Some _, Some a => applied w2 !! k = Some a
    | Some x, None => cfg_of <$> applied w2 !! k = Some x
    | None, _ => applied w2 !! k = None
    end.
Proof.
  intros W0 Hk (Hd & Hc & _)%diff_modify_spec.
  destruct (stages_remove_all (items d) w W0 (items_NoDup d)) as [W1 A1].
  { intros k a H%elem_of_items. rewrite Hd in H. by destruct (mine !! k). }
  set (w1 := fold_left remove (items d) w) in *.
  assert (E1 : forall k, applied w1 !! k = match mine !! k with Some _ => applied w !! k | None => None end).
  { intros k. rewrite A1. destruct (decide (k ∈ (items d).*1)) as [([k' a] & -> & H)%list_elem_of_fmap|Hn]; cbn [fst].
    - apply elem_of_items in H. rewrite Hd in H. by destruct (mine !! k').
    - destruct (mine !! k) eqn:Em; [done|]. destruct (applied w !! k) as [a|] eqn:Ea; [|done].
      exfalso. apply Hn. apply list_elem_of_fmap. exists (k, a). split; [done|]. apply elem_of_items. by rewrite Hd, Em. }
  destruct (create_all (items c) w1 W1 (items_NoDup c)) as (W2 & O2 & N2).
  { intros k x H%elem_of_items. rewrite Hc in H. rewrite E1. destruct (applied w !! k) eqn:Ea; [done|].
    split; [by destruct (mine !! k)|by apply Hk]. }
  split; [done|]. intros k. destruct (mine !! k) as [x|] eqn:Em; [destruct (applied w !! k) as [a|] eqn:Ea|].
  - rewrite O2, E1, Em; [done|]. intros ([k' y] & -> & H)%list_elem_of_fmap. apply elem_of_items in H.
    rewrite Hc in H. cbn in Ea. by rewrite Ea in H.
  - apply (N2 k x). apply elem_of_items. by rewrite Hc, Ea.
  - rewrite O2, E1, Em; [done|]. intros ([k' y] & -> & H)%list_elem_of_fmap. apply elem_of_items in H.
    rewrite Hc in H. cbn in Em. rewrite Em in H. by destruct (applied w !! k').
Qed.

(** Afterwards the applied configurations are those asked for, up to the
    comparison; an object that was applied before is the same one, and a new
    one has exactly the configuration asked for. *)
Lemma stages_update_ok w mine : inv w -> (forall k x, mine !! k = Some x -> id_of x = k) ->
  (forall k a x, applied w !! k = Some a -> mine !! k = Some x -> compatible (cfg_of a) x) ->
  inv (update w mine) /\ forall k, match mine !! k with
    | Some x => exists a, applied (update w mine) !! k = Some a /\ (cfg_of a = x \/ neqb (cfg_of a) x = false)
        /\ match applied w !! k with Some a0 => obj_of a = obj_of a0 | None => cfg_of a = x end
    | None => applied (update w mine) !! k = None
    end.
Proof.
  intros W0 Hk Hs. unfold update. destruct (diff_modify _ _ _ _) as [[d c] m] eqn:Ed.
  destruct (created_applied w mine d c m W0 Hk Ed) as [W2 A2].
  set (w2 := fold_left create _ _) in *. apply diff_modify_spec in Ed as (_ & _ & Hm).
  assert (Hkm : forall x, x ∈ m -> exists a, mine !! id_of x = Some x /\ applied w !! id_of x = Some a
    /\ applied w2 !! id_of x = Some a).
  { intros x (k & a & Hx & Ha & _)%Hm. rewrite (Hk k x Hx). exists a. specialize (A2 k). by rewrite Hx, Ha in A2. }
  destruct (modify_all m w2 W2) as (W3 & O3 & E3 & M3).
  { apply Forall_forall. intros x (a & Hx & Ha & Ha2)%Hkm. exists a. split; [done|]. by apply (Hs (id_of x)). }
  set (w3 := fold_left modify m w2) in *. split; [done|]. intros k. specialize (A2 k). specialize (O3 k).
  destruct (mine !! k) as [x|] eqn:Em.
  2:{ rewrite E3; [done|]. intros y (a & Hy & _)%Hkm Heq. rewrite Heq in Hy. congruence. }
  destruct (decide (k ∈ id_of <$> m)) as [(y & -> & Hy)%list_elem_of_fmap|Hn].
  - destruct (Hkm y Hy) as (a & Ey & Ea & Ea2). rewrite Em in Ey. injection Ey as ->.
    specialize (M3 y Hy). specialize (M3 ltac:(intros y' (_ & Ey' & _)%Hkm Heq; rewrite Heq in Ey'; congruence)).
    destruct (applied w3 !! id_of y) as [b|] eqn:Eb; [|done].
    injection M3 as M3. exists b. split; [done|]. split; [by left|]. rewrite Ea.
    rewrite Ea2 in O3. by injection O3 as ->.
  - assert (E : applied w3 !! k = applied w2 !! k).
    { apply E3. intros y Hy <-. apply Hn. by apply list_elem_of_fmap_2. }
    rewrite E. destruct (applied w !! k) as [a|] eqn:Ea.
    + exists a. split; [done|]. split; [|done]. right. destruct (neqb (cfg_of a) x) eqn:Eq; [|done]. exfalso.
      apply Hn. rewrite <-(Hk k x Em). apply list_elem_of_fmap_2, Hm. by exists k, a.
    + apply fmap_Some in A2 as (a & Ha & ->). exists a. by split; [|split; [left|]].
Qed.

End Stages.
End Stages.

(** ** Objects, addresses and events *)

Module BamHeap.
Import Kpi.

(** The part of the objects the appliers set. What an object computes from its
    impacts is in Ba, MetaService, KpiService and KpiDerived. *)
Record ba_object : Type := Ba_object {
  bo_id : Z;
  bo_host_id : Z;
  bo_service_id : Z;
  bo_name : cstring;
  bo_state_source : Ba.state_source;
  bo_level_warning : double;
  bo_level_critical : double;
  bo_dt_behaviour : Ba.downtime_behaviour;
  bo_initial_event : option ba_event;
  bo_valid : bool;
  bo_impacts : list Z  (** the indicators *)
}.

Inductive kpi_kind : Type :=
  | kpi_service (acknowledged downtimed : bool) (host_id service_id : Z)
      (impact_critical impact_unknown impact_warning : double) (state_hard state_type : Z)
  | kpi_ba (impact_critical impact_warning : double)
  | kpi_meta (impact_critical impact_warning : double)
  | kpi_boolexp (impact : double).

Record kpi_object : Type := Kpi_object {
  ko_id : Z;
  ko_ba_id : Z;
  ko_kind : kpi_kind;
  ko_link : option Z;  (** the business activity, meta-service or expression it follows *)
  ko_initial_event : option kpi_event
}.

(** Every object has an address of its own; [parents] is the member of
    computable. *)
Record heap : Type := Heap {
  next : Z;
  ba_objects : gmap Z ba_object;
  meta_objects : gmap Z MetaService.meta_service;
  kpi_objects : gmap Z kpi_object;
  parents : gmap Z (list Z)
}.
Implicit Types h : heap.

Definition with_bas h m : heap := Heap (next h) m (meta_objects h) (kpi_objects h) (parents h).
Definition with_metas h m : heap := Heap (next h) (ba_objects h) m (kpi_objects h) (parents h).
Definition with_kpis h m : heap := Heap (next h) (ba_objects h) (meta_objects h) m (parents h).
Definition add_parent h (child parent : Z) : heap :=
  Heap (next h) (ba_objects h) (meta_objects h) (kpi_objects h)
    (<[child := default [] (parents h !! child) ++ [parent]]> (parents h)).
Definition bump h : heap := Heap (next h + 1) (ba_objects h) (meta_objects h) (kpi_objects h) (parents h).

(** What is published of the virtual hosts and services and of invalid
    indicators; the other members are those of a new event. *)
Inductive published : Type :=
  | P_host (poller_id host_id : Z) (host_name : cstring) (last_update : Z)
  | P_service (host_id service_id : Z) (service_description : cstring) (enabled : bool) (last_update : Z)
  | P_kpi_status (kpi_id state_hard state_soft last_state_change : Z) (valid : bool).

End BamHeap.

(** ** The applier of business activities *)

Module BaApplier.
Import Ordered BamConfig BamHeap Diff.

Record applied : Type := Applied { cfg : ba; obj : Z }.

(** The applier with the book and the publisher its operations are given. *)
Record world : Type := World {
  w_heap : heap;
  w_applied : gmap Z applied;
  w_book : ServiceBook.book;
  w_published : list published
}.
Implicit Types w : world.

Section Apply.
(** The time and the identifier of the poller. *)
Context (now poller_id : Z).

Definition _ba_host (host_id : Z) : published :=
  P_host poller_id host_id (str "_Module_BAM_" ++ Dbl.dec poller_id) now.

Definition _ba_service (ba_id host_id service_id : Z) (enabled : bool) : published :=
  P_service host_id service_id (str "ba_" ++ Dbl.dec ba_id) enabled now.

Definition new_object (c : ba) : ba_object :=
  Ba_object (ba_id c) (ba_host_id c) (ba_service_id c) (ba_name c) (ba_state_source c) (ba_warning_level c)
    (ba_critical_level c) (ba_dt_behaviour c)
    (if Kpi.be_ba_id (ba_opened_event c) =? 0 then None else Some (ba_opened_event c)) true [].

Definition _new_ba w (c : ba) : Z * world :=
  let x := next (w_heap w) in
  (x, World (with_bas (bump (w_heap w)) (<[x := new_object c]> (ba_objects (w_heap w)))) (w_applied w)
        (ServiceBook.listen (w_book w) (ba_host_id c) (ba_service_id c) x) (w_published w)).

Definition remove_ba w (p : Z * applied) : world :=
  let c := cfg p.2 in
  World (w_heap w) (delete p.1 (w_applied w)) (ServiceBook.unlisten (w_book w) (ba_host_id c) (ba_service_id c) (obj p.2))
    (w_published w ++ [_ba_service p.1 (ba_host_id c) (ba_service_id c) false]).

Definition create_ba w (p : Z * ba) : world :=
  let '(x, w) := _new_ba w p.2 in
  World (w_heap w) (<[p.1 := Applied p.2 x]> (w_applied w)) (w_book w)
    (w_published w ++ [_ba_host (ba_host_id p.2); _ba_service p.1 (ba_host_id p.2) (ba_service_id p.2) true]).

(** set_name, set_state_source, set_level_warning and set_level_critical. *)
Definition set_object (c : ba) (o : ba_object) : ba_object :=
  Ba_object (bo_id o) (bo_host_id o) (bo_service_id o) (ba_name c) (ba_state_source c) (ba_warning_level c)
    (ba_critical_level c) (bo_dt_behaviour o) (bo_initial_event o) (bo_valid o) (bo_impacts o).

Definition modify_ba w (c : ba) : world :=
  match w_applied w !! ba_id c with
  | Some a =>
    World (with_bas (w_heap w) (alter (set_object c) (obj a) (ba_objects (w_heap w))))
      (<[ba_id c := Applied c (obj a)]> (w_applied w)) (w_book w) (w_published w)
  | None => w
  end.

Definition set_valid (valid : bool) (o : ba_object) : ba_object :=
  Ba_object (bo_id o) (bo_host_id o) (bo_service_id o) (bo_name o) (bo_state_source o) (bo_level_warning o)
    (bo_level_critical o) (bo_dt_behaviour o) (bo_initial_event o) valid (bo_impacts o).

Definition validate_ba w (p : Z * applied) : world :=
  World (with_bas (w_heap w) (alter (set_valid true) (obj p.2) (ba_objects (w_heap w)))) (w_applied w) (w_book w)
    (w_published w).

Definition apply w (my_bas : gmap Z ba) : world :=
  let '(to_delete, to_create, to_modify) := diff_modify cfg (fun a b => negb (ba_eqb a b)) (w_applied w) my_bas in
  let w := fold_left remove_ba (items to_delete) w in
  let w := fold_left create_ba (items to_create) w in
  let w := fold_left modify_ba to_modify w in
  fold_left validate_ba (items (w_applied w)) w.

Definition find_ba w (id : Z) : option Z := obj <$> w_applied w !! id.

(** ** What an applier keeps *)

(** What a configuration sets in an object at each change. *)
Definition shows (c : ba) (o : ba_object) : Prop :=
  bo_id o = ba_id c /\ bo_name o = ba_name c /\ bo_state_source o = ba_state_source c
  /\ bo_level_warning o = ba_warning_level c /\ bo_level_critical o = ba_critical_level c.

Definition service_of (c : ba) : Z * Z := (ba_host_id c, ba_service_id c).
Definition own_service (o : ba_object) : Z * Z := (bo_host_id o, bo_service_id o).

(** What is set when an object is made and by no change. *)
Definition made (c : ba) (o : ba_object) : Prop :=
  own_service o = service_of c /\ bo_dt_behaviour o = ba_dt_behaviour c
  /\ bo_initial_event o = (if Kpi.be_ba_id (ba_opened_event c) =? 0 then None else Some (ba_opened_event c)).

Record kept (o o' : ba_object) : Prop := Kept {
  k_id : bo_id o' = bo_id o;
  k_service : own_service o' = own_service o;
  k_dt_behaviour : bo_dt_behaviour o' = bo_dt_behaviour o;
  k_initial_event : bo_initial_event o' = bo_initial_event o
}.

(** Each applied object exists, is what its configuration says and listens once
    to its own service, the one it was made with; the removed ones listen to
    nothing else. *)
Record wf w : Prop := Wf {
  wf_object : forall id a, w_applied w !! id = Some a -> ba_id (cfg a) = id
    /\ exists o, ba_objects (w_heap w) !! obj a = Some o /\ shows (cfg a) o;
  wf_next : forall x, is_Some (ba_objects (w_heap w) !! x) -> x < next (w_heap w);
  wf_inj : forall i j a b, w_applied w !! i = Some a -> w_applied w !! j = Some b -> obj a = obj b -> i = j;
  wf_book_next : forall k x, next (w_heap w) <= x -> ServiceBook.occurs (w_book w) k x = 0%nat;
  wf_listens : forall id a o k, w_applied w !! id = Some a -> ba_objects (w_heap w) !! obj a = Some o ->
    ServiceBook.occurs (w_book w) k (obj a) = (if decide (k = own_service o) then 1 else 0)%nat;
  wf_removed : forall x o k, ba_objects (w_heap w) !! x = Some o -> k <> own_service o ->
    (forall id a, w_applied w !! id = Some a -> obj a <> x) -> ServiceBook.occurs (w_book w) k x = 0%nat
}.

Lemma ba_remove_wf w id a : wf w -> w_applied w !! id = Some a -> wf (remove_ba w (id, a)).
Proof.
  intros [W1 W2 W3 W4 W5 W6] E. unfold remove_ba. split; cbn [w_heap w_applied w_book fst snd].
  - intros j b [Hne Hb]%lookup_delete_Some. by apply W1.
  - done.
  - intros i j b c [_ Hb]%lookup_delete_Some [_ Hc]%lookup_delete_Some. by apply W3.
  - intros k x Hx. rewrite ServiceBook.occurs_unlisten, W4 by done. done.
  - intros j b o k [Hne Hb]%lookup_delete_Some Ho. rewrite ServiceBook.occurs_unlisten, (W5 j b o k Hb Ho).
    rewrite (decide_False (P := _ /\ _)) by (intros [_ H]; by apply Hne, (W3 id j a b)). lia.
  - intros x o k Hx Hk Hn. rewrite ServiceBook.occurs_unlisten. destruct (decide (x = obj a)) as [->|Hne].
    + rewrite (W5 id a o k E Hx). by rewrite (decide_False (P := k = _)) by done.
    + rewrite (W6 x o); [lia|done|done|]. intros j b Hb. destruct (decide (id = j)) as [<-|]; [congruence|].
      apply (Hn j b). by rewrite lookup_delete_ne.
Qed.

Lemma ba_create_wf w id c : wf w -> w_applied w !! id = None -> ba_id c = id -> wf (create_ba w (id, c)).
Proof.
  intros [W1 W2 W3 W4 W5 W6] E Hid. unfold create_ba, _new_ba. remember (next (w_heap w)) as x eqn:Hnext.
  assert (Hobj : forall j b, w_applied w !! j = Some b -> obj b < x).
  { intros j b Hb. destruct (W1 j b Hb) as (_ & o & Ho & _). apply W2. by eexists. }
  split; cbn [w_heap w_applied w_book fst snd ba_objects with_bas next bump].
  - intros j b Hb. destruct (decide (j = id)) as [->|].
    + rewrite lookup_insert_eq in Hb. simplify_eq. split; [done|]. exists (new_object c). by rewrite lookup_insert_eq.
    + rewrite lookup_insert_ne in Hb by done. destruct (W1 j b Hb) as (Hi & o & Ho & Hs). split; [done|]. exists o.
      rewrite lookup_insert_ne; [done|]. specialize (Hobj j b Hb). cbn [obj]. lia.
  - intros y Hy%lookup_insert_is_Some. rewrite <-Hnext. destruct Hy as [Hy|[_ Hy]]; [|specialize (W2 y Hy)]; lia.
  - intros i j a b Ha Hb Heq. destruct (decide (i = id)) as [->|], (decide (j = id)) as [->|]; [done| | |].
    + rewrite lookup_insert_eq in Ha. rewrite lookup_insert_ne in Hb by done. simplify_eq. cbn [obj] in *. specialize (Hobj j b Hb). lia.
    + rewrite lookup_insert_eq in Hb. rewrite lookup_insert_ne in Ha by done. simplify_eq. cbn [obj] in *. specialize (Hobj i a Ha). lia.
    + rewrite lookup_insert_ne in Ha, Hb by done. by apply (W3 i j a b).
  - intros k y Hy. rewrite <-Hnext in Hy. rewrite ServiceBook.occurs_listen, W4 by lia. rewrite decide_False; [done|].
    intros [_ Heq]. lia.
  - intros j b o k Hb Ho. rewrite ServiceBook.occurs_listen. destruct (decide (j = id)) as [->|].
    + rewrite lookup_insert_eq in Hb. simplify_eq. cbn [obj cfg] in *. rewrite lookup_insert_eq in Ho. injection Ho as <-.
      rewrite W4 by lia. unfold own_service. cbn [new_object bo_host_id bo_service_id].
      destruct (decide (k = (ba_host_id c, ba_service_id c))); [by rewrite decide_True|by rewrite decide_False by tauto].
    + rewrite lookup_insert_ne in Hb by done. specialize (Hobj j b Hb). rewrite lookup_insert_ne in Ho by lia.
      rewrite (W5 j b o k Hb Ho). rewrite (decide_False (P := _ /\ _)); [lia|]. intros [_ Heq]. lia.
  - intros y o k Hy Hk Hn. rewrite ServiceBook.occurs_listen.
    assert (Hyx : y <> x) by (intros ->; by apply (Hn id (Applied c x)); [rewrite lookup_insert_eq|]).
    rewrite (decide_False (P := _ /\ _)) by tauto. rewrite lookup_insert_ne in Hy by done. rewrite (W6 y o); [done..|].
    intros j b Hb. apply (Hn j b). rewrite lookup_insert_ne; [done|]. intros <-. congruence.
Qed.

(** Changing the object of a business activity in place. *)
Lemma alter_wf w id a (f : ba_object -> ba_object) c : wf w -> w_applied w !! id = Some a ->
  ba_id c = id -> (forall o, shows (cfg a) o -> shows c (f o)) -> (forall o, own_service (f o) = own_service o) ->
  wf (World (with_bas (w_heap w) (alter f (obj a) (ba_objects (w_heap w)))) (<[id := Applied c (obj a)]> (w_applied w))
        (w_book w) (w_published w)).
Proof.
  intros [W1 W2 W3 W4 W5 W6] E Hid Hf Hown.
  assert (Happ : forall j b, <[id := Applied c (obj a)]> (w_applied w) !! j = Some b ->
    exists b', w_applied w !! j = Some b' /\ obj b' = obj b).
  { intros j b [[<- <-]|[_ Hb]]%lookup_insert_Some; [by exists a|by exists b]. }
  assert (Hobj : forall y o, alter f (obj a) (ba_objects (w_heap w)) !! y = Some o ->
    exists o', ba_objects (w_heap w) !! y = Some o' /\ own_service o = own_service o').
  { intros y o Ho. destruct (decide (y = obj a)) as [->|]; [|rewrite lookup_alter_ne in Ho by done; by exists o].
    rewrite lookup_alter_eq in Ho. apply fmap_Some in Ho as (o' & Ho & ->). by exists o'. }
  split; cbn [w_heap w_applied w_book ba_objects with_bas next].
  - intros j b Hb. destruct (decide (j = id)) as [->|].
    + rewrite lookup_insert_eq in Hb. injection Hb as <-. cbn [cfg obj]. split; [done|]. destruct (W1 _ a E) as (_ & o & Ho & Hsh).
      exists (f o). rewrite lookup_alter_eq, Ho. split; [done|by apply Hf].
    + rewrite lookup_insert_ne in Hb by done. destruct (W1 j b Hb) as (Hi & o & Ho & Hsh). split; [done|]. exists o.
      rewrite lookup_alter_ne; [done|]. intros Heq. by apply (W3 _ _ _ _ E Hb) in Heq.
  - intros y. rewrite lookup_alter_is_Some. apply W2.
  - intros i j b b' Hb Hb' Heq. apply Happ in Hb as (p & Hp & Ep), Hb' as (q & Hq & Eq).
    apply (W3 i j p q); congruence.
  - done.
  - intros j b o k Hb Ho. apply Happ in Hb as (p & Hp & Heq). rewrite <-Heq in *. apply Hobj in Ho as (o0 & Ho & ->).
    by apply (W5 j).
  - intros y o k Hy Hk Hn. apply Hobj in Hy as (o' & Hy & Heq). apply (W6 y o'); [done|congruence|]. intros j b Hb.
    destruct (decide (j = id)) as [->|].
    + rewrite E in Hb. injection Hb as <-. apply (Hn id (Applied c (obj a))). by rewrite lookup_insert_eq.
    + apply (Hn j b). by rewrite lookup_insert_ne.
Qed.

Lemma ba_modify_wf w a c : wf w -> w_applied w !! ba_id c = Some a -> wf (modify_ba w c).
Proof.
  intros W E. unfold modify_ba. rewrite E. apply alter_wf; [done..| |done].
  intros o (H1 & _). destruct (wf_object w W _ _ E) as [Hid _].
  unfold shows, set_object. cbn. by rewrite H1, Hid.
Qed.

Lemma validate_wf w id a : wf w -> w_applied w !! id = Some a -> wf (validate_ba w (id, a)).
Proof.
  intros W E. destruct (wf_object w W _ _ E) as [Hid _].
  pose proof (alter_wf w id a (set_valid true) (cfg a) W E Hid) as H. unfold validate_ba. cbn [snd].
  assert (Hins : <[id := Applied (cfg a) (obj a)]> (w_applied w) = w_applied w).
  { apply insert_id. rewrite E. by destruct a. }
  rewrite Hins in H. by apply H.
Qed.

(** ** The loops *)

Definition valid_at w (x : Z) : Prop := bo_valid <$> ba_objects (w_heap w) !! x = Some true.

(** What applying activities leaves alone: the other objects, what a change does
    not set in an activity and the listeners that are not activities. *)
Record frame w w' : Prop := Frame {
  f_next : next (w_heap w) <= next (w_heap w');
  f_kpis : kpi_objects (w_heap w') = kpi_objects (w_heap w);
  f_metas : meta_objects (w_heap w') = meta_objects (w_heap w);
  f_ba : forall x o', ba_objects (w_heap w') !! x = Some o' ->
    (next (w_heap w) <= x /\ bo_impacts o' = [])
    \/ exists o, ba_objects (w_heap w) !! x = Some o /\ kept o o' /\ bo_impacts o' = bo_impacts o;
  f_quiet : forall k x, x < next (w_heap w) -> ba_objects (w_heap w) !! x = None ->
    ServiceBook.occurs (w_book w') k x = ServiceBook.occurs (w_book w) k x;
  f_applied : forall id a, w_applied w' !! id = Some a ->
    (exists a0, w_applied w !! id = Some a0 /\ obj a0 = obj a) \/ next (w_heap w) <= obj a
}.

Lemma kept_refl o : kept o o.
Proof. done. Qed.

Lemma kept_trans o1 o2 o3 : kept o1 o2 -> kept o2 o3 -> kept o1 o3.
Proof. intros [] []. split; congruence. Qed.

Hint Resolve kept_refl kept_trans : core.

Lemma ba_frame_refl w : frame w w.
Proof. split; eauto; lia. Qed.

Lemma ba_frame_trans w1 w2 w3 : frame w1 w2 -> frame w2 w3 -> frame w1 w3.
Proof.
  intros [A1 A2 A3 A4 A5 A6] [B1 B2 B3 B4 B5 B6]. split; [lia|congruence|congruence| | |].
  - intros x o3 [[Hx Hi]|(o2 & H2 & Hi)]%B4; [left; split; [lia|done]|].
    destruct Hi as [Hk Hi].
    apply A4 in H2 as [[Hx Hi']|(o1 & H1 & Hk' & Hi')]; [left; split; [done|congruence]|right; exists o1].
    split; [done|]. split; [by eauto|congruence].
  - intros k x Hx Hn. rewrite B5, A5; [done|done|done|lia|]. destruct (ba_objects (w_heap w2) !! x) as [o|] eqn:E; [|done].
    apply A4 in E as [[H _]|(o1 & H & _)]; [lia|congruence].
  - intros id a [(a2 & H2 & <-)|H]%B6; [|right; lia]. apply A6 in H2 as [(a1 & H1 & <-)|H]; [left; by exists a1|by right].
Qed.

Lemma ba_remove_frame w k a : wf w -> w_applied w !! k = Some a -> frame w (remove_ba w (k, a)).
Proof.
  intros W E. destruct (wf_object w W k a E) as (_ & o & Ho & _).
  split; cbn [remove_ba w_heap w_book w_applied fst snd]; eauto; [lia| |].
  - intros k' x _ Hn. rewrite ServiceBook.occurs_unlisten. rewrite decide_False; [lia|]. intros [_ ->]. congruence.
  - intros j b [_ H]%lookup_delete_Some. left. by exists b.
Qed.

Lemma ba_create_frame w k c : frame w (create_ba w (k, c)).
Proof.
  unfold create_ba, _new_ba. split; cbn [w_heap w_book w_applied fst snd with_bas bump next kpi_objects meta_objects ba_objects]; try done; [lia| | |].
  - intros x o [[<- <-]|[_ H]]%lookup_insert_Some; [by left|by right; eauto].
  - intros k' x Hx _. rewrite ServiceBook.occurs_listen. rewrite decide_False; lia.
  - intros j b [[<- <-]|[_ H]]%lookup_insert_Some; [by right|left; by exists b].
Qed.

Lemma ba_alter_frame w (f : ba_object -> ba_object) x applied pub : (forall o, kept o (f o) /\ bo_impacts (f o) = bo_impacts o) ->
  (forall id a, applied !! id = Some a -> exists a0, w_applied w !! id = Some a0 /\ obj a0 = obj a) ->
  frame w (World (with_bas (w_heap w) (alter f x (ba_objects (w_heap w)))) applied (w_book w) pub).
Proof.
  intros Hf Ha. split; cbn [w_heap w_book w_applied with_bas next kpi_objects meta_objects ba_objects]; try done; [|by left; apply Ha].
  intros y o' H. right. destruct (decide (x = y)) as [->|].
  - rewrite lookup_alter_eq in H. apply fmap_Some in H as (o & Ho & ->). by exists o.
  - rewrite lookup_alter_ne in H by done. by exists o'.
Qed.

Lemma modify_frame w c : frame w (modify_ba w c).
Proof.
  unfold modify_ba. destruct (w_applied w !! ba_id c) as [a|] eqn:E; [|apply ba_frame_refl]. apply ba_alter_frame; [done|].
  intros j b [[<- <-]|[_ H]]%lookup_insert_Some; [by exists a|by exists b].
Qed.

Lemma validate_all l : forall w, wf w -> (forall k a, (k, a) ∈ l -> w_applied w !! k = Some a) ->
  let w' := fold_left validate_ba l w in
  wf w' /\ frame w w' /\ w_applied w' = w_applied w /\ (forall x, valid_at w x -> valid_at w' x)
  /\ (forall k a, (k, a) ∈ l -> valid_at w' (obj a)).
Proof.
  induction l as [|[k a] l IH]; intros w W Hin; cbn [fold_left].
  { split; [done|]. split; [apply ba_frame_refl|]. split; [done|]. split; [done|]. intros ? ? []%elem_of_nil. }
  assert (E : w_applied w !! k = Some a) by (apply Hin; by left).
  destruct (IH (validate_ba w (k, a))) as (W' & F' & A' & V' & L').
  - by apply validate_wf.
  - intros k' a' H. cbn [validate_ba w_applied]. apply Hin. by right.
  - assert (V : forall x, valid_at w x \/ x = obj a -> valid_at (validate_ba w (k, a)) x).
    { intros x Hx. unfold valid_at, validate_ba. cbn [w_heap with_bas ba_objects snd].
      destruct (decide (x = obj a)) as [->|]; [|rewrite lookup_alter_ne by done; naive_solver].
      destruct (wf_object w W _ _ E) as (_ & o & Ho & _). by rewrite lookup_alter_eq, Ho. }
    split; [done|]. split; [eapply ba_frame_trans; [|exact F']; apply ba_alter_frame; [done|eauto]|]. split; [done|]. split; [intros; by apply V', V; left|].
    intros k' a' [Heq|H]%elem_of_cons; [|by apply (L' k')]. injection Heq as -> ->. by apply V', V; right.
Qed.

(** ** Applying a configuration *)

(** The database keys its business activities by their identifiers. *)
Definition keyed (my_bas : gmap Z ba) : Prop := forall id c, my_bas !! id = Some c -> ba_id c = id.

(** An object made since [w0] is as it was made. *)
Definition made_since w0 w : Prop := forall id a, w_applied w0 !! id = None -> w_applied w !! id = Some a ->
  exists o, ba_objects (w_heap w) !! obj a = Some o /\ made (cfg a) o /\ bo_impacts o = [].

Lemma create_made w0 w id c : wf w -> ba_id c = id -> w_applied w !! id = None -> made_since w0 w ->
  made_since w0 (create_ba w (id, c)).
Proof.
  intros W Hid E M j b Hn Hb. unfold create_ba, _new_ba in *. cbn [fst snd w_applied w_heap with_bas bump ba_objects next] in *.
  apply lookup_insert_Some in Hb as [[<- <-]|[Hne Hb]]; cbn [cfg obj].
  - exists (new_object c). by rewrite lookup_insert_eq.
  - destruct (M j b Hn Hb) as (o & Ho & Hm). exists o. rewrite lookup_insert_ne; [done|].
    pose proof (wf_next w W (obj b) ltac:(by eexists)). lia.
Qed.

Lemma modify_made w0 w c : wf w -> is_Some (w_applied w0 !! ba_id c) -> made_since w0 w -> made_since w0 (modify_ba w c).
Proof.
  intros W Hs M j b Hn Hb. unfold modify_ba in *. destruct (w_applied w !! ba_id c) as [a|] eqn:E; [|by apply (M j b)].
  cbn [w_applied w_heap with_bas ba_objects] in *.
  apply lookup_insert_Some in Hb as [[<- _]|[Hne Hb]]; [rewrite Hn in Hs; by destruct Hs|].
  destruct (M j b Hn Hb) as (o & Ho & Hm). exists o. rewrite lookup_alter_ne; [done|].
  intros Heq. by apply Hne, (wf_inj w W _ _ a b).
Qed.

(** A modification is one of an activity that was applied before. *)
Definition from w0 (x y : ba) : Prop := ba_id x = ba_id y /\ is_Some (w_applied w0 !! ba_id x).

Lemma updated w my_bas : wf w -> keyed my_bas ->
  let w3 := Stages.update w_applied cfg (fun a b => negb (ba_eqb a b)) remove_ba create_ba modify_ba w my_bas in
  (wf w3 /\ frame w w3 /\ made_since w w3) /\ forall k, match my_bas !! k with
    | Some x => exists a, w_applied w3 !! k = Some a /\ (cfg a = x \/ ba_eqb (cfg a) x = true)
        /\ match w_applied w !! k with Some a0 => obj a = obj a0 | None => cfg a = x end
    | None => w_applied w3 !! k = None
    end.
Proof.
  intros W Hk.
  destruct (Stages.stages_update_ok w_applied cfg obj ba_id (fun a b => negb (ba_eqb a b)) (from w)
    remove_ba create_ba modify_ba (fun w' => wf w' /\ frame w w' /\ made_since w w')) with (w := w) (mine := my_bas) as [W3 A3]; try done.
  - intros x y z [E1 S1] [E2 _]. split; [congruence|]. by rewrite <-E1.
  - intros w0 k a (W0 & F0 & M0) E. split; [|done]. split; [by apply ba_remove_wf|].
    split; [by eapply ba_frame_trans, ba_remove_frame|]. intros j b Hn Hb.
    cbn [remove_ba w_applied fst] in Hb. apply lookup_delete_Some in Hb as [_ Hb]. by apply (M0 j b).
  - intros w0 k c (W0 & F0 & M0) E Hid. split; [|by exists (Applied c (next (w_heap w0)))].
    split; [by apply ba_create_wf|]. split; [by eapply ba_frame_trans, ba_create_frame|by apply create_made].
  - intros w0 a c (W0 & F0 & M0) E [Heq Hs]. split; [|exists (Applied c (obj a)); unfold modify_ba; by rewrite E].
    split; [by apply (ba_modify_wf w0 a)|]. split; [by eapply ba_frame_trans, modify_frame|].
    apply modify_made; [done|by rewrite <-Heq|done].
  - split; [done|]. split; [apply ba_frame_refl|]. intros j b. by intros ->.
  - intros k a x Ha Hx. destruct (wf_object w W k a Ha) as [Hid _]. specialize (Hk k x Hx).
    split; [congruence|]. rewrite Hid. by eexists.
  - split; [done|]. intros k. specialize (A3 k). destruct (my_bas !! k); [|done].
    destruct A3 as (a & Ha & Hx & Ho). exists a. by rewrite negb_false_iff in Hx.
Qed.

(** No object that there is comes to listen to more. *)
Definition no_more w w' : Prop := next (w_heap w) <= next (w_heap w')
  /\ forall k x, x < next (w_heap w) -> (ServiceBook.occurs (w_book w') k x <= ServiceBook.occurs (w_book w) k x)%nat.

Lemma no_more_fold {P} (f : world -> P -> world) l : (forall w p, no_more w (f w p)) -> forall w, no_more w (fold_left f l w).
Proof.
  intros Hf. induction l as [|p l IH]; intros w; cbn [fold_left]; [by split|].
  destruct (Hf w p) as [N1 F1], (IH (f w p)) as [N2 F2]. split; [lia|]. intros k x Hx.
  specialize (F1 k x Hx). specialize (F2 k x ltac:(lia)). lia.
Qed.

Lemma remove_no_more w p : no_more w (remove_ba w p).
Proof. split; [done|]. intros k x _. unfold remove_ba. cbn [w_book]. rewrite ServiceBook.occurs_unlisten. lia. Qed.

Lemma create_no_more w p : no_more w (create_ba w p).
Proof.
  unfold create_ba, _new_ba. split; cbn [w_heap w_book with_bas bump next fst snd]; [lia|].
  intros k x Hx. rewrite ServiceBook.occurs_listen, decide_False; lia.
Qed.

Lemma modify_no_more w c : no_more w (modify_ba w c).
Proof. unfold modify_ba. by destruct (w_applied w !! ba_id c). Qed.

Lemma validate_no_more w p : no_more w (validate_ba w p).
Proof. done. Qed.

(** A removed activity that still has the service of its object listens to nothing. *)
Lemma remove_all_unlistens l w k a o : wf w -> w_applied w !! k = Some a -> ba_objects (w_heap w) !! obj a = Some o ->
  own_service o = service_of (cfg a) -> (k, a) ∈ l ->
  forall s, ServiceBook.occurs (w_book (fold_left remove_ba l w)) s (obj a) = 0%nat.
Proof.
  intros W E Ho Hs Hin s. apply list_elem_of_split in Hin as (l1 & l2 & ->). rewrite fold_left_app. cbn [fold_left].
  pose proof (wf_next w W (obj a) ltac:(by eexists)) as Hx.
  destruct (no_more_fold remove_ba l1 remove_no_more w) as [N1 F1]. set (w1 := fold_left remove_ba l1 w) in *.
  destruct (no_more_fold remove_ba l2 remove_no_more (remove_ba w1 (k, a))) as [_ F2]. specialize (F1 s (obj a) Hx).
  specialize (F2 s (obj a)). cbn [remove_ba w_heap w_book fst snd] in F2. rewrite ServiceBook.occurs_unlisten in F2.
  rewrite (wf_listens w W k a o s E Ho), Hs in F1. specialize (F2 ltac:(lia)). unfold service_of in F1.
  destruct (decide (s = (ba_host_id (cfg a), ba_service_id (cfg a)))) as [->|]; [|lia]. rewrite decide_True in F2 by done. lia.
Qed.

Lemma removed_unlisten w my_bas id a o : wf w -> w_applied w !! id = Some a -> ba_objects (w_heap w) !! obj a = Some o ->
  own_service o = service_of (cfg a) -> my_bas !! id = None ->
  forall s, ServiceBook.occurs (w_book (apply w my_bas)) s (obj a) = 0%nat.
Proof.
  intros W E Ho Hs Hn s. unfold apply. destruct (diff_modify _ _ _ _) as [[d c] m] eqn:Ed.
  apply diff_modify_spec in Ed as (Hd & _ & _). pose proof (wf_next w W (obj a) ltac:(by eexists)) as Hx.
  assert (H0 : ServiceBook.occurs (w_book (fold_left remove_ba (items d) w)) s (obj a) = 0%nat).
  { apply (remove_all_unlistens _ w id a o); [done..|]. apply elem_of_items. by rewrite Hd, Hn. }
  destruct (no_more_fold remove_ba (items d) remove_no_more w) as [N1 _]. set (w1 := fold_left remove_ba _ w) in *.
  destruct (no_more_fold create_ba (items c) create_no_more w1) as [N2 F2]. set (w2 := fold_left create_ba _ w1) in *.
  destruct (no_more_fold modify_ba m modify_no_more w2) as [N3 F3]. set (w3 := fold_left modify_ba m w2) in *.
  destruct (no_more_fold validate_ba (items (w_applied w3)) validate_no_more w3) as [_ F4].
  specialize (F2 s (obj a) ltac:(lia)). specialize (F3 s (obj a) ltac:(lia)). specialize (F4 s (obj a) ltac:(lia)). lia.
Qed.

(** The object of an activity of the configuration, once it is applied. *)
Record mirrors w w' (id : Z) (c : ba) (a : applied) (o : ba_object) : Prop := Mirrors {
  m_applied : w_applied w' !! id = Some a;
  m_same : cfg a = c \/ ba_eqb (cfg a) c = true;
  m_object : ba_objects (w_heap w') !! obj a = Some o;
  m_valid : bo_valid o = true;
  m_shows : shows (cfg a) o;
  m_listens : forall k, ServiceBook.occurs (w_book w') k (obj a) = (if decide (k = own_service o) then 1 else 0)%nat;
  m_before : match w_applied w !! id with
             | Some a0 => obj a = obj a0 /\ exists o0, ba_objects (w_heap w) !! obj a0 = Some o0 /\ kept o0 o
                          /\ bo_impacts o = bo_impacts o0
             | None => made c o /\ bo_impacts o = []
             end
}.

Lemma ba_apply_ok w my_bas : wf w -> keyed my_bas ->
  let w' := apply w my_bas in
  wf w' /\ frame w w' /\ forall id,
    match my_bas !! id with
    | Some c => exists a o, mirrors w w' id c a o
    | None => w_applied w' !! id = None
    end.
Proof.
  intros W Hk. destruct (updated w my_bas W Hk) as [(W3 & F3 & M3) A3]. unfold apply, Stages.update in *.
  destruct (diff_modify _ _ _ _) as [[d c] m]. set (w3 := fold_left modify_ba m _) in *.
  destruct (validate_all (items (w_applied w3)) w3 W3) as (W4 & F4 & A4 & _ & V4); [intros k a; by rewrite elem_of_items|].
  set (w4 := fold_left validate_ba _ w3) in *. assert (F : frame w w4) by by eapply ba_frame_trans.
  split; [done|]. split; [done|]. intros k. specialize (A3 k). rewrite <-A4 in A3. destruct (my_bas !! k) as [x|]; [|done].
  destruct A3 as (a & Ha & Hx & Hb). destruct (wf_object w4 W4 k a Ha) as (_ & o & Ho & Hs). exists a, o. split; [done..| | | |].
  - specialize (V4 k a). rewrite elem_of_items, <-A4 in V4. specialize (V4 Ha). unfold valid_at in V4. rewrite Ho in V4.
    by injection V4.
  - done.
  - intros s. by apply (wf_listens w4 W4 k).
  - destruct (w_applied w !! k) as [a0|] eqn:E0.
    + split; [done|]. destruct (wf_object w W k a0 E0) as (_ & o0 & Ho0 & _). rewrite <-Hb in *.
      pose proof (wf_next w W (obj a) ltac:(by eexists)) as Hlt. destruct (f_ba w w4 F _ _ Ho) as [[Hge _]|(o1 & Ho1 & Hk1)]; [lia|].
      by exists o1.
    + rewrite A4 in Ha. destruct (M3 k a E0 Ha) as (o3 & Ho3 & (Hm1 & Hm2 & Hm3) & Hm4). subst x.
      pose proof (wf_next w3 W3 (obj a) ltac:(by eexists)) as Hlt.
      destruct (f_ba w3 w4 F4 _ _ Ho) as [[Hge _]|(o1 & Ho1 & [K1 K2 K3 K4] & K5)]; [lia|].
      assert (o1 = o3) as -> by congruence. by repeat split; congruence.
Qed.

(** C24. After any configuration of business activities is applied, the applied
    objects are those of the configuration: each one is valid, bears its name,
    its state source and its levels and listens once to its own service and to
    nothing else. An activity that was applied before keeps its object, and
    with it the host and the service, the downtime behaviour, the initial event
    and the impacts the object has, whatever the new configuration says of
    them; an activity that was not gets a new object with those of the
    configuration and no impacts. A removed activity listens to nothing, unless
    a configuration had moved it to another service than the one its object was
    made with. *)
Theorem apply_bas_mirrors w my_bas :
  wf w -> keyed my_bas ->
  let w' := apply w my_bas in
  wf w' /\ forall id,
    match my_bas !! id with
    | Some c => exists a o, mirrors w w' id c a o
    | None => w_applied w' !! id = None
        /\ forall a0 o0, w_applied w !! id = Some a0 -> ba_objects (w_heap w) !! obj a0 = Some o0 ->
            own_service o0 = service_of (cfg a0) -> forall k, ServiceBook.occurs (w_book w') k (obj a0) = 0%nat
    end.
Proof.
  intros W Hk. destruct (ba_apply_ok w my_bas W Hk) as (W' & _ & A'). split; [done|]. intros id. specialize (A' id).
  destruct (my_bas !! id) as [c|] eqn:E; [done|]. split; [done|]. intros a0 o0 Ha Ho Hs. by apply (removed_unlisten w my_bas id a0 o0).
Qed.

(** The applier as the others leave it: with more addresses used and objects
    that show the same, but no listener of theirs moved. *)
Lemma ba_frame_wf w h b pub : wf w -> next (w_heap w) <= next h ->
  (forall x, is_Some (ba_objects h !! x) <-> is_Some (ba_objects (w_heap w) !! x)) ->
  (forall x o o', ba_objects (w_heap w) !! x = Some o -> ba_objects h !! x = Some o' ->
    own_service o' = own_service o /\ forall c, shows c o -> shows c o') ->
  (forall k x, is_Some (ba_objects (w_heap w) !! x) -> ServiceBook.occurs b k x = ServiceBook.occurs (w_book w) k x) ->
  (forall k x, next h <= x -> ServiceBook.occurs b k x = 0%nat) ->
  wf (World h (w_applied w) b pub).
Proof.
  intros [W1 W2 W3 W4 W5 W6] Hn Hd Hs Hb Hnb.
  assert (Hold : forall x o', ba_objects h !! x = Some o' ->
    exists o, ba_objects (w_heap w) !! x = Some o /\ own_service o' = own_service o).
  { intros x o' Ho. destruct (proj1 (Hd x) ltac:(by eexists)) as [o Ho']. exists o. split; [done|]. by apply (Hs x). }
  split; cbn [w_heap w_applied w_book].
  - intros id a Ha. destruct (W1 id a Ha) as (Hi & o & Ho & Hsh). split; [done|].
    destruct (proj2 (Hd (obj a)) ltac:(by eexists)) as [o' Ho']. exists o'. split; [done|]. by apply (Hs (obj a) o).
  - intros x Hx%Hd%W2. lia.
  - done.
  - done.
  - intros id a o k Ha Ho. apply Hold in Ho as (o0 & Ho & ->). rewrite Hb by by eexists. by apply (W5 id).
  - intros x o k Hx Hk Hr. apply Hold in Hx as (o0 & Hx & Heq). rewrite Hb by by eexists. apply (W6 x o0); [done|congruence|done].
Qed.

(** A configuration that adds and removes nothing publishes nothing. *)
Lemma same_bas_publish_nothing w my_bas :
  (forall id, is_Some (w_applied w !! id) <-> is_Some (my_bas !! id)) ->
  w_published (apply w my_bas) = w_published w.
Proof.
  intros Hs. unfold apply. destruct (diff_modify _ _ _ _) as [[d c] m] eqn:Ed.
  apply diff_modify_spec in Ed as (Hd & Hc & _).
  assert (d = ∅) as ->.
  { apply map_empty. intros k. rewrite Hd. specialize (Hs k). destruct (my_bas !! k); [done|].
    destruct (w_applied w !! k); [|done]. destruct Hs as [Hs _]. by destruct Hs. }
  assert (c = ∅) as ->.
  { apply map_empty. intros k. rewrite Hc. specialize (Hs k). destruct (w_applied w !! k); [done|].
    destruct (my_bas !! k); [|done]. destruct Hs as [_ Hs]. by destruct Hs. }
  rewrite !items_empty. cbn [fold_left].
  assert (Hm : forall w, w_published (fold_left modify_ba m w) = w_published w).
  { induction m as [|x m IH]; intros w0; cbn [fold_left]; [done|]. rewrite IH. unfold modify_ba. by case_match. }
  assert (Hv : forall l w, w_published (fold_left validate_ba l w) = w_published w).
  { induction l as [|x l IH]; intros w0; cbn [fold_left]; [done|]. by rewrite IH. }
  by rewrite Hv, Hm.
Qed.

(** A change of the downtime behaviour does not reach the object. *)
Lemma dt_behaviour_kept w c a o : w_applied w !! ba_id c = Some a -> ba_objects (w_heap w) !! obj a = Some o ->
  bo_dt_behaviour <$> ba_objects (w_heap (modify_ba w c)) !! obj a = Some (bo_dt_behaviour o).
Proof.
  intros E Ho. unfold modify_ba. rewrite E. cbn [w_heap with_bas ba_objects]. by rewrite lookup_alter_eq, Ho.
Qed.

(** Nothing applied. *)
Definition new_world : world := World (Heap 1 ∅ ∅ ∅ ∅) ∅ ∅ [].

Lemma ba_new_world_wf : wf new_world.
Proof. split; cbn [new_world w_heap w_applied w_book next ba_objects]; intros; try done; by destruct H. Qed.

End Apply.

(** ** On an example *)

Definition demo_ba (id service_id : Z) (name : string) (level : Z) : ba :=
  Mk_ba id 1 service_id (str name) Ba.state_source_worst (Dbl.of_Z level) (Dbl.of_Z 20) no_ba_event Ba.dt_ignore.

Definition demo_first : gmap Z ba := {[1 := demo_ba 1 10 "shop" 80; 2 := demo_ba 2 11 "mail" 80]}.
Definition demo_second : gmap Z ba := {[1 := demo_ba 1 10 "shop" 60; 3 := demo_ba 3 12 "web" 80]}.

Lemma apply_bas_mirrors_witness :
  let w := apply 5 7 new_world demo_first in
  wf w /\ wf (apply 5 7 w demo_second)
  /\ ServiceBook.listeners (w_book (apply 5 7 w demo_second)) (1, 11) = [].
Proof.
  assert (K1 : keyed demo_first).
  { intros id c H. unfold demo_first in H.
    apply lookup_insert_Some in H as [[<- <-]|[_ [<- <-]%lookup_singleton_Some]]; done. }
  assert (K2 : keyed demo_second).
  { intros id c H. unfold demo_second in H.
    apply lookup_insert_Some in H as [[<- <-]|[_ [<- <-]%lookup_singleton_Some]]; done. }
  destruct (apply_bas_mirrors 5 7 new_world demo_first ba_new_world_wf K1) as [W1 _].
  split; [exact W1|]. split; [|by vm_compute].
  apply (apply_bas_mirrors 5 7 (apply 5 7 new_world demo_first) demo_second W1 K2).
Defined.

(** An activity that came to show as another service and was then removed still
    listens, at the address of an object that is gone, to its first service. *)
Example moved_ba_stays_in_book :
  let w := apply 5 7 new_world {[1 := demo_ba 1 10 "shop" 80]} in
  let w := apply 5 7 w {[1 := demo_ba 1 12 "shop" 80]} in
  let w := apply 5 7 w ∅ in
  w_applied w = ∅ /\ ServiceBook.listeners (w_book w) (1, 10) = [1].
Proof. by vm_compute. Qed.

End BaApplier.
