(* ===== verification/MetaApplier.v ===== *)
(** * Applying meta-services (bam/src/configuration/applier/meta_service.cc)

    The applier of meta-services changes its objects in place: the metrics of
    the old configuration are withdrawn, those of the new one added. The theorem
    says which metrics a meta-service then follows; an example shows that a
    removed meta-service goes on listening to its metrics. *)

From Stdlib Require Import ZArith Lia ZifyNat ZifyBool Strings.Byte.
From stdpp Require Import base option list numbers strings gmap sets.
From S2P Require Import Prelude Double Kpi Ba MetaService BamConfig BaApplier.

Module MetaApplier.
Import Ordered BamConfig BamHeap Diff.

Record applied : Type := Applied { cfg : meta_service; obj : Z }.

Record world : Type := World {
  w_heap : heap;
  w_applied : gmap Z applied;
  w_book : MetaService.book;  (** of the metrics *)
  w_published : list published
}.
Implicit Types w : world.

Definition computation_of (computation_str : cstring) : MetaService.computation_type :=
  if cstring_eqb computation_str (str "MIN") then MetaService.min
  else if cstring_eqb computation_str (str "MAX") then MetaService.max
  else if cstring_eqb computation_str (str "SUM") || cstring_eqb computation_str (str "SOM") then MetaService.sum
  else MetaService.average.

Definition forget_metric (x : Z) (s : MetaService.book * MetaService.meta_service) (metric_id : Z)
  : MetaService.book * MetaService.meta_service :=
  (MetaService.unlisten s.1 metric_id x, MetaService.remove_metric s.2 metric_id).

Definition follow_metric (x : Z) (s : MetaService.book * MetaService.meta_service) (metric_id : Z)
  : MetaService.book * MetaService.meta_service :=
  (MetaService.listen s.1 metric_id x, MetaService.add_metric s.2 metric_id).

(** The setters that end _modify_meta. *)
Definition set_properties (c : meta_service) (o : MetaService.meta_service) : MetaService.meta_service :=
  let o := MetaService.set_computation o (computation_of (m_computation c)) in
  let o := MetaService.set_ids o (m_id c) (m_host_id c) (m_service_id c) in
  MetaService.set_levels o (m_level_warning c) (m_level_critical c).

(** [x] is the address of the object [o]. *)
Definition _modify_meta (x : Z) (o : MetaService.meta_service) (b : MetaService.book) (old_cfg new_cfg : meta_service)
  : MetaService.book * MetaService.meta_service :=
  let s := fold_left (forget_metric x) (m_metrics old_cfg) (b, o) in
  let '(b, o) := fold_left (follow_metric x) (m_metrics new_cfg) s in
  (b, set_properties new_cfg o).

Section Apply.
(** The time and the identifier of the poller. *)
Context (now poller_id : Z).

Definition _meta_host (host_id : Z) : published := P_host poller_id host_id (str "_Module_Meta") now.

Definition _meta_service (meta_id host_id service_id : Z) (enabled : bool) : published :=
  P_service host_id service_id (str "meta_" ++ Dbl.dec meta_id) enabled now.

Definition _new_meta w (c : meta_service) : Z * world :=
  let x := next (w_heap w) in
  let '(b, o) := _modify_meta x MetaService.new_meta_service (w_book w) default_meta_service c in
  (x, World (with_metas (bump (w_heap w)) (<[x := o]> (meta_objects (w_heap w)))) (w_applied w) b (w_published w)).

(** The book of the metrics is given the identifier of the meta-service. *)
Definition remove_meta w (p : Z * applied) : world :=
  let c := cfg p.2 in
  World (w_heap w) (delete p.1 (w_applied w)) (MetaService.unlisten (w_book w) (m_id c) (obj p.2))
    (w_published w ++ [_meta_service p.1 (m_host_id c) (m_service_id c) false]).

Definition create_meta w (p : Z * meta_service) : world :=
  let '(x, w) := _new_meta w p.2 in
  World (w_heap w) (<[p.1 := Applied p.2 x]> (w_applied w)) (w_book w)
    (w_published w ++ [_meta_host (m_host_id p.2); _meta_service p.1 (m_host_id p.2) (m_service_id p.2) true]).

Definition modify_meta w (c : meta_service) : world :=
  match w_applied w !! m_id c with
  | Some a =>
    match meta_objects (w_heap w) !! obj a with
    | Some o =>
      let '(b, o) := _modify_meta (obj a) o (w_book w) (cfg a) c in
      World (with_metas (w_heap w) (<[obj a := o]> (meta_objects (w_heap w))))
        (<[m_id c := Applied c (obj a)]> (w_applied w)) b (w_published w)
    | None => w
    end
  | None => w
  end.

Definition apply w (my_metas : gmap Z meta_service) : world :=
  let '(to_delete, to_create, to_modify) :=
    diff_modify cfg (fun a b => negb (meta_service_eqb a b)) (w_applied w) my_metas in
  let w := fold_left remove_meta (items to_delete) w in
  let w := fold_left create_meta (items to_create) w in
  fold_left modify_meta to_modify w.

Definition find_meta w (id : Z) : option Z := obj <$> w_applied w !! id.

(** ** What the applier keeps *)

Definition occurs (b : MetaService.book) (metric_id x : Z) : nat :=
  length (filter (fun y => y = x) (MetaService.listeners b metric_id)).

(** How many times a configuration names a metric. *)
Definition named (c : meta_service) (metric_id : Z) : nat := length (filter (fun y => y = metric_id) (m_metrics c)).

Definition shows (c : meta_service) (o : MetaService.meta_service) : Prop :=
  MetaService._id o = m_id c /\ MetaService._host_id o = m_host_id c /\ MetaService._service_id o = m_service_id c
  /\ MetaService._computation o = computation_of (m_computation c)
  /\ MetaService._level_warning o = m_level_warning c /\ MetaService._level_critical o = m_level_critical c
  /\ forall k, is_Some (MetaService._metrics o !! k) <-> k ∈ m_metrics c.

(** Each applied object is what its configuration says and listens to the
    metrics the configuration names. *)
Record wf w : Prop := Wf {
  wf_object : forall id a, w_applied w !! id = Some a -> m_id (cfg a) = id
    /\ exists o, meta_objects (w_heap w) !! obj a = Some o /\ shows (cfg a) o;
  wf_next : forall x, is_Some (meta_objects (w_heap w) !! x) -> x < next (w_heap w);
  wf_inj : forall i j a b, w_applied w !! i = Some a -> w_applied w !! j = Some b -> obj a = obj b -> i = j;
  wf_book_next : forall k x, next (w_heap w) <= x -> occurs (w_book w) k x = 0%nat;
  wf_listens : forall id a k, w_applied w !! id = Some a -> occurs (w_book w) k (obj a) = named (cfg a) k
}.

Lemma occurs_insert (b : MetaService.book) k l k' x :
  occurs (<[k := l]> b) k' x = if decide (k' = k) then length (filter (fun y => y = x) l) else occurs b k' x.
Proof.
  unfold occurs, MetaService.listeners. destruct (decide (k' = k)) as [->|]; [by rewrite lookup_insert_eq|by rewrite lookup_insert_ne].
Qed.

Lemma meta_occurs_listen b m x k y :
  occurs (MetaService.listen b m x) k y = (occurs b k y + if decide (k = m /\ y = x) then 1 else 0)%nat.
Proof.
  unfold MetaService.listen. rewrite occurs_insert. destruct (decide (k = m)) as [->|].
  - rewrite filter_app, length_app. unfold occurs. f_equal. rewrite filter_cons, filter_nil.
    destruct (decide (y = x)) as [->|]; [by rewrite !decide_True|]. rewrite !decide_False by naive_solver. done.
  - rewrite decide_False by tauto. lia.
Qed.

Lemma meta_occurs_unlisten b m x k y :
  occurs (MetaService.unlisten b m x) k y = (occurs b k y - if decide (k = m /\ y = x) then 1 else 0)%nat.
Proof.
  unfold MetaService.unlisten. rewrite occurs_insert. destruct (decide (k = m)) as [->|].
  - rewrite ServiceBook.filter_erase_first. unfold occurs. destruct (decide (y = x)); [by rewrite decide_True|by rewrite decide_False by tauto].
  - rewrite decide_False by tauto. lia.
Qed.

Definition count (l : list Z) (k : Z) : nat := length (filter (fun y => y = k) l).

Lemma count_cons m l k : count (m :: l) k = ((if decide (k = m) then 1 else 0) + count l k)%nat.
Proof.
  unfold count. rewrite filter_cons. destruct (decide (m = k)) as [->|]; [by rewrite decide_True|].
  by rewrite decide_False.
Qed.

Lemma forget_fold x l : forall s,
  let s' := fold_left (forget_metric x) l s in
  (forall k y, occurs s'.1 k y = (occurs s.1 k y - if decide (y = x) then count l k else 0)%nat)
  /\ forall k, is_Some (MetaService._metrics s'.2 !! k) <-> is_Some (MetaService._metrics s.2 !! k) /\ k ∉ l.
Proof.
  induction l as [|m l IH]; intros s; cbn [fold_left].
  { split; [intros; case_decide; cbn; lia|]. intros k. rewrite elem_of_nil. tauto. }
  destruct (IH (forget_metric x s m)) as [Ho Hm]. split.
  - intros k y. rewrite Ho. cbn [forget_metric fst]. rewrite meta_occurs_unlisten, count_cons. repeat case_decide; naive_solver lia.
  - intros k. rewrite Hm. unfold forget_metric, MetaService.remove_metric, MetaService.with_metrics. cbn [snd MetaService._metrics].
    rewrite lookup_delete_is_Some, not_elem_of_cons. naive_solver.
Qed.

Lemma follow_fold x l : forall s,
  let s' := fold_left (follow_metric x) l s in
  (forall k y, occurs s'.1 k y = (occurs s.1 k y + if decide (y = x) then count l k else 0)%nat)
  /\ forall k, is_Some (MetaService._metrics s'.2 !! k) <-> is_Some (MetaService._metrics s.2 !! k) \/ k ∈ l.
Proof.
  induction l as [|m l IH]; intros s; cbn [fold_left].
  { split; [intros; case_decide; cbn; lia|]. intros k. rewrite elem_of_nil. tauto. }
  destruct (IH (follow_metric x s m)) as [Ho Hm]. split.
  - intros k y. rewrite Ho. cbn [follow_metric fst]. rewrite meta_occurs_listen, count_cons. repeat case_decide; naive_solver lia.
  - intros k. rewrite Hm. unfold follow_metric, MetaService.add_metric, MetaService.with_metrics. cbn [snd MetaService._metrics].
    rewrite lookup_insert_is_Some, elem_of_cons. destruct (decide (k = m)) as [->|]; naive_solver.
Qed.

(** An object whose metrics are those of the old configuration. *)
Lemma modify_shows x o b old_cfg c b' o' : _modify_meta x o b old_cfg c = (b', o') ->
  (forall k, is_Some (MetaService._metrics o !! k) -> k ∈ m_metrics old_cfg) ->
  shows c o' /\ forall k y, occurs b' k y
    = (if decide (y = x) then occurs b k y - named old_cfg k + named c k else occurs b k y)%nat.
Proof.
  unfold _modify_meta. intros E Ho. destruct (forget_fold x (m_metrics old_cfg) (b, o)) as [F1 F2].
  destruct (follow_fold x (m_metrics c) (fold_left (forget_metric x) (m_metrics old_cfg) (b, o))) as [G1 G2].
  destruct (fold_left (follow_metric x) _ _) as [b1 o1]. injection E as <- <-. cbn [fst snd] in *. split.
  - do 6 (split; [done|]). intros k. unfold set_properties. cbn [MetaService.set_levels MetaService.set_ids MetaService.set_computation MetaService._metrics].
    rewrite G2, F2. split; [intros [[H Hn]|H]; [|done]; by destruct Hn; apply Ho|by right].
  - intros k y. rewrite G1, F1. fold (count (m_metrics old_cfg) k) (count (m_metrics c) k). case_decide; [done|lia].
Qed.

Lemma meta_remove_wf w id a : wf w -> w_applied w !! id = Some a -> wf (remove_meta w (id, a)).
Proof.
  intros [W1 W2 W3 W4 W5] E. unfold remove_meta. split; cbn [w_heap w_applied w_book fst snd].
  - intros j b [Hne Hb]%lookup_delete_Some. by apply W1.
  - done.
  - intros i j b c [_ Hb]%lookup_delete_Some [_ Hc]%lookup_delete_Some. by apply W3.
  - intros k x Hx. by rewrite meta_occurs_unlisten, W4 by done.
  - intros j b k [Hne Hb]%lookup_delete_Some. rewrite meta_occurs_unlisten, (W5 j b k Hb).
    rewrite decide_False; [lia|]. intros [_ H]. by apply Hne, (W3 id j a b).
Qed.

Lemma meta_create_wf w id c : wf w -> w_applied w !! id = None -> m_id c = id ->
  wf (create_meta w (id, c)) /\ w_applied (create_meta w (id, c)) = <[id := Applied c (next (w_heap w))]> (w_applied w).
Proof.
  intros [W1 W2 W3 W4 W5] E Hid. unfold create_meta, _new_meta. cbn [fst snd]. remember (next (w_heap w)) as x eqn:Hx.
  assert (Hobj : forall j b, w_applied w !! j = Some b -> obj b < x).
  { intros j b Hb. destruct (W1 j b Hb) as (_ & o & Ho & _). apply W2. by eexists. }
  destruct (_modify_meta x _ _ _ c) as [b' o'] eqn:Em. apply modify_shows in Em as [Hs Ho]; [|by intros k []].
  split; [|done]. split; cbn [w_heap w_applied w_book with_metas bump next meta_objects].
  - intros j b Hb. destruct (decide (j = id)) as [->|].
    + rewrite lookup_insert_eq in Hb. injection Hb as <-. split; [done|]. exists o'. by rewrite lookup_insert_eq.
    + rewrite lookup_insert_ne in Hb by done. destruct (W1 j b Hb) as (Hi & o & Hob & Hsh). split; [done|]. exists o.
      rewrite lookup_insert_ne; [done|]. specialize (Hobj j b Hb). cbn [obj]. lia.
  - intros y Hy%lookup_insert_is_Some. destruct Hy as [Hy|[_ Hy]]; [|specialize (W2 y Hy)]; lia.
  - intros i j a b Ha Hb Heq. destruct (decide (i = id)) as [->|], (decide (j = id)) as [->|]; [done| | |].
    + rewrite lookup_insert_eq in Ha. rewrite lookup_insert_ne in Hb by done. injection Ha as <-. cbn [obj] in *. specialize (Hobj j b Hb). lia.
    + rewrite lookup_insert_eq in Hb. rewrite lookup_insert_ne in Ha by done. injection Hb as <-. cbn [obj] in *. specialize (Hobj i a Ha). lia.
    + rewrite lookup_insert_ne in Ha, Hb by done. by apply (W3 i j a b).
  - intros k y Hy. rewrite Ho, decide_False by lia. apply W4. lia.
  - intros j b k Hb. rewrite Ho. destruct (decide (j = id)) as [->|].
    + rewrite lookup_insert_eq in Hb. injection Hb as <-. cbn [obj cfg]. rewrite decide_True, W4 by (done || lia). done.
    + rewrite lookup_insert_ne in Hb by done. specialize (Hobj j b Hb). rewrite decide_False by lia. by apply (W5 j).
Qed.

Lemma meta_modify_wf w a c : wf w -> w_applied w !! m_id c = Some a ->
  wf (modify_meta w c) /\ w_applied (modify_meta w c) = <[m_id c := Applied c (obj a)]> (w_applied w).
Proof.
  intros [W1 W2 W3 W4 W5] E. unfold modify_meta. rewrite E. destruct (W1 _ a E) as (Hid & o & Ho & Hs). rewrite Ho.
  destruct (_modify_meta (obj a) o _ (cfg a) c) as [b' o'] eqn:Em.
  apply modify_shows in Em as [Hs' Hocc]; [|by intros k Hk; apply Hs].
  split; [|done]. split; cbn [w_heap w_applied w_book with_metas next meta_objects].
  - intros j b Hb. destruct (decide (j = m_id c)) as [->|].
    + rewrite lookup_insert_eq in Hb. injection Hb as <-. split; [done|]. exists o'. by rewrite lookup_insert_eq.
    + rewrite lookup_insert_ne in Hb by done. destruct (W1 j b Hb) as (Hi & ob & Hob & Hsh). split; [done|]. exists ob.
      rewrite lookup_insert_ne; [done|]. intros Heq. by apply (W3 _ _ _ _ E Hb) in Heq.
  - intros y Hy%lookup_insert_is_Some. apply W2. destruct Hy as [<-|[_ Hy]]; [by eexists|done].
  - assert (Happ : forall j b, <[m_id c := Applied c (obj a)]> (w_applied w) !! j = Some b ->
      exists b', w_applied w !! j = Some b' /\ obj b' = obj b).
    { intros j b Hb. destruct (decide (j = m_id c)) as [->|].
      - rewrite lookup_insert_eq in Hb. injection Hb as <-. by exists a.
      - rewrite lookup_insert_ne in Hb by done. by exists b. }
    intros i j b1 b2 H1 H2 Heq. apply Happ in H1 as (p & Hp & Ep), H2 as (q & Hq & Eq). apply (W3 i j p q); congruence.
  - intros k y Hy. rewrite Hocc, decide_False; [by apply W4|]. intros ->.
    specialize (W2 (obj a) ltac:(by eexists)). lia.
  - intros j b k Hb. rewrite Hocc. destruct (decide (j = m_id c)) as [->|].
    + rewrite lookup_insert_eq in Hb. injection Hb as <-. cbn [obj cfg]. rewrite decide_True, (W5 _ a k E) by done. lia.
    + rewrite lookup_insert_ne in Hb by done. rewrite decide_False; [by apply (W5 j)|].
      intros Heq. symmetry in Heq. by apply (W3 _ _ _ _ E Hb) in Heq.
Qed.

Definition keyed (my_metas : gmap Z meta_service) : Prop := forall id c, my_metas !! id = Some c -> m_id c = id.

Lemma meta_apply_ok w my_metas : wf w -> keyed my_metas ->
  let w' := apply w my_metas in
  wf w' /\ forall id,
    match my_metas !! id with
    | Some c => exists a o, w_applied w' !! id = Some a /\ (cfg a = c \/ meta_service_eqb (cfg a) c = true)
        /\ meta_objects (w_heap w') !! obj a = Some o /\ shows (cfg a) o
        /\ (forall k, occurs (w_book w') k (obj a) = named (cfg a) k)
        /\ (forall a0, w_applied w !! id = Some a0 -> obj a = obj a0)
    | None => w_applied w' !! id = None
    end.
Proof.
  intros W Hk.
  destruct (Stages.stages_update_ok w_applied cfg obj m_id (fun a b => negb (meta_service_eqb a b)) (fun _ _ => True)
    remove_meta create_meta modify_meta wf) with (w := w) (mine := my_metas) as [W' A']; try done.
  - intros w0 k a W0 E. by split; [apply meta_remove_wf|].
  - intros w0 k c W0 E Hid. destruct (meta_create_wf w0 k c W0 E Hid) as [? ?]. split; [done|]. by exists (Applied c (next (w_heap w0))).
  - intros w0 a c W0 E _. destruct (meta_modify_wf w0 a c W0 E) as [? ?]. split; [done|]. by exists (Applied c (obj a)).
  - change (Stages.update _ _ _ _ _ _ _ _) with (apply w my_metas) in *. split; [done|]. intros id. specialize (A' id).
    destruct (my_metas !! id); [|done]. destruct A' as (a & Ha & Hx & Ho). destruct (wf_object _ W' id a Ha) as (_ & o & Hob & Hs).
    exists a, o. rewrite negb_false_iff in Hx. split; [done|]. split; [done|]. split; [done|]. split; [done|].
    split; [intros k; by apply (wf_listens _ W' id)|]. intros a0 E. by rewrite E in Ho.
Qed.

(** C25. After a configuration of meta-services is applied, the applied objects
    are those of the configuration, the same ones for those that were applied
    before; each one computes what its configuration says and follows, in the
    book as in its own list, exactly the metrics its configuration names. *)
Theorem apply_metas_follow w my_metas : wf w -> keyed my_metas ->
  let w' := apply w my_metas in
  wf w' /\ forall id,
    match my_metas !! id with
    | Some c => exists a o, w_applied w' !! id = Some a /\ (cfg a = c \/ meta_service_eqb (cfg a) c = true)
        /\ meta_objects (w_heap w') !! obj a = Some o /\ shows (cfg a) o
        /\ (forall k, occurs (w_book w') k (obj a) = named (cfg a) k)
        /\ (forall a0, w_applied w !! id = Some a0 -> obj a = obj a0)
    | None => w_applied w' !! id = None
    end.
Proof. apply meta_apply_ok. Qed.

(** The objects of the other appliers are left alone. *)
Definition others_kept w w' : Prop :=
  next (w_heap w) <= next (w_heap w') /\ ba_objects (w_heap w') = ba_objects (w_heap w)
  /\ kpi_objects (w_heap w') = kpi_objects (w_heap w).

Lemma apply_keeps_others w my_metas : others_kept w (apply w my_metas).
Proof.
  unfold apply. destruct (diff_modify _ _ _ _) as [[d c] m].
  assert (Hr : forall l w0, others_kept w0 (fold_left remove_meta l w0)).
  { induction l as [|p l IH]; intros w0; [done|]. apply (IH (remove_meta w0 p)). }
  assert (Hc : forall l w0, others_kept w0 (fold_left create_meta l w0)).
  { induction l as [|p l IH]; intros w0; [done|]. destruct (IH (create_meta w0 p)) as (H1 & H2 & H3).
    cbn [fold_left]. unfold others_kept. rewrite H2, H3. revert H1. unfold create_meta, _new_meta.
    destruct (_modify_meta _ _ _ _ _). cbn [w_heap with_metas bump next ba_objects kpi_objects]. intros. split; [lia|done]. }
  assert (Hm : forall l w0, others_kept w0 (fold_left modify_meta l w0)).
  { induction l as [|x l IH]; intros w0; [done|]. destruct (IH (modify_meta w0 x)) as (H1 & H2 & H3).
    cbn [fold_left]. unfold others_kept. rewrite H2, H3. revert H1. unfold modify_meta.
    destruct (w_applied w0 !! m_id x); [|done]. destruct (meta_objects (w_heap w0) !! obj a); [|done].
    by destruct (_modify_meta _ _ _ _ _). }
  destruct (Hr (items d) w) as (A1 & A2 & A3). destruct (Hc (items c) (fold_left remove_meta (items d) w)) as (B1 & B2 & B3).
  destruct (Hm m (fold_left create_meta (items c) (fold_left remove_meta (items d) w))) as (C1 & C2 & C3).
  split; [lia|]. split; congruence.
Qed.

Lemma meta_frame_wf w h pub : wf w -> next (w_heap w) <= next h -> meta_objects h = meta_objects (w_heap w) ->
  wf (World h (w_applied w) (w_book w) pub).
Proof.
  intros [W1 W2 W3 W4 W5] Hn Hm. split; cbn [w_heap w_applied w_book]; try done.
  - intros id a Ha. rewrite Hm. by apply W1.
  - intros x. rewrite Hm. intros Hx%W2. lia.
  - intros k x Hx. apply W4. lia.
Qed.

Definition new_world : world := World (Heap 1 ∅ ∅ ∅ ∅) ∅ ∅ [].

Lemma meta_new_world_wf : wf new_world.
Proof. split; cbn [new_world w_heap w_applied w_book next meta_objects]; intros; try done; by destruct H. Qed.

End Apply.

(** ** On an example *)

Definition demo_meta (id : Z) (computation : string) (metrics : list Z) : meta_service :=
  Mk_meta_service (str computation) id 1 (id + 20) (Dbl.of_Z 90) (Dbl.of_Z 80) [] metrics (str "load") [] ∅.

Lemma apply_metas_follow_witness :
  let w := apply 5 7 new_world {[1 := demo_meta 1 "MIN" [100; 101]]} in
  wf w /\ wf (apply 5 7 w {[1 := demo_meta 1 "SOM" [101; 102]]})
  /\ w_book (apply 5 7 w {[1 := demo_meta 1 "SOM" [101; 102]]}) !! 102 = Some [1].
Proof.
  assert (K : forall c, m_id c = 1 -> keyed {[1 := c]}) by (intros c Hc id x [<- <-]%lookup_singleton_Some; done).
  destruct (apply_metas_follow 5 7 new_world {[1 := demo_meta 1 "MIN" [100; 101]]} meta_new_world_wf) as [W1 _]; [by apply K|].
  split; [exact W1|]. split; [|by vm_compute].
  apply (apply_metas_follow 5 7 _ {[1 := demo_meta 1 "SOM" [101; 102]]} W1). by apply K.
Defined.

(** A removed meta-service stays in the book of its metrics. *)
Example removed_meta_stays_in_book :
  let w := apply 5 7 new_world {[1 := demo_meta 1 "MIN" [100; 101]]} in
  let w := apply 5 7 w ∅ in
  w_applied w = ∅ /\ MetaService.listeners (w_book w) 100 = [1] /\ MetaService.listeners (w_book w) 101 = [1].
Proof. by vm_compute. Qed.

(** A new name is a change of all the metrics: their values are forgotten. *)
Example renamed_meta_forgets_values :
  let o := set_properties (demo_meta 1 "SUM" [100]) (MetaService.with_metrics MetaService.new_meta_service {[100 := Dbl.of_Z 9]} 0) in
  MetaService._metrics (_modify_meta 1 o {[100 := [1]]} (demo_meta 1 "SUM" [100]) (demo_meta 1 "SUM" [100])).2
  = {[100 := Dbl.of_Z 0]}.
Proof. by vm_compute. Qed.

End MetaApplier.
