(* ===== verification/KpiApplier.v ===== *)
(** * Applying indicators (bam/src/configuration/applier/kpi.cc)

    Indicators are made, then resolved: linked with the business activity they
    impact and with what they follow. An indicator that cannot be resolved makes
    its business activity invalid, and all the indicators of the activity are
    removed. The theorems say that the resolution ends, which indicators are left
    and that the impacts of an activity are then exactly its indicators. *)

From Stdlib Require Import ZArith Lia ZifyNat ZifyBool Strings.Byte.
From stdpp Require Import base option list numbers strings gmap sets sorting.
From S2P Require Import Prelude Double Kpi Ba MetaService HstSvcMapping BamConfig BaApplier.

Module KpiApplier.
Import Ordered BamConfig BamHeap Diff.

Record applied : Type := Applied { cfg : kpi; obj : Z }.

Record world : Type := World {
  w_heap : heap;
  w_applied : gmap Z applied;
  w_book : ServiceBook.book;
  w_published : list published
}.
Implicit Types w : world.

Definition with_heap w h : world := World h (w_applied w) (w_book w) (w_published w).

(** ba::add_impact, remove_impact, as far as the list of indicators goes. *)
Definition with_impacts (l : list Z) (o : ba_object) : ba_object :=
  Ba_object (bo_id o) (bo_host_id o) (bo_service_id o) (bo_name o) (bo_state_source o) (bo_level_warning o)
    (bo_level_critical o) (bo_dt_behaviour o) (bo_initial_event o) (bo_valid o) l.
Definition add_impact (x : Z) (o : ba_object) : ba_object :=
  if decide (x ∈ bo_impacts o) then o else with_impacts (bo_impacts o ++ [x]) o.
Definition remove_impact (x : Z) (o : ba_object) : ba_object :=
  with_impacts (filter (fun y => y <> x) (bo_impacts o)) o.

(** link_ba, link_meta and link_boolexp. *)
Definition set_link (target : Z) (k : kpi_object) : kpi_object :=
  Kpi_object (ko_id k) (ko_ba_id k) (ko_kind k) (Some target) (ko_initial_event k).
Definition set_initial_event (e : Kpi.kpi_event) (k : kpi_object) : kpi_object :=
  match ko_initial_event k with
  | None => Kpi_object (ko_id k) (ko_ba_id k) (ko_kind k) (ko_link k) (Some e)
  | Some _ => k
  end.

Section Apply.
(** The time, the appliers of the other objects and the mapping of services. *)
Context (now : Z) (find_ba find_meta find_boolexp : Z -> option Z) (mapping : HstSvcMapping.hst_svc_mapping).

Definition kind_of (c : kpi) : option kpi_kind :=
  if is_service c then
    Some (kpi_service (k_acknowledged c) (k_downtimed c) (k_host_id c) (k_service_id c) (k_impact_critical c)
            (k_impact_unknown c) (k_impact_warning c) (k_status c) (k_state_type c))
  else if is_ba c then Some (kpi_ba (k_impact_critical c) (k_impact_warning c))
  else if is_meta c then Some (kpi_meta (k_impact_critical c) (k_impact_warning c))
  else if is_boolexp c then Some (kpi_boolexp (k_impact_critical c))
  else None.

(** None is exceptions::config. *)
Definition _new_kpi w (c : kpi) : option (Z * world) :=
  match kind_of c with
  | None => None
  | Some kind =>
    let x := next (w_heap w) in
    let h := with_kpis (bump (w_heap w)) (<[x := Kpi_object (k_id c) (k_ba_id c) kind None None]> (kpi_objects (w_heap w))) in
    let b := if is_service c then ServiceBook.listen (w_book w) (k_host_id c) (k_service_id c) x else w_book w in
    Some (x, World h (w_applied w) b (w_published w))
  end.

Definition _remove_kpi w (id : Z) : world :=
  match w_applied w !! id with
  | None => w
  | Some a =>
    let c := cfg a in
    let b := if is_service c then ServiceBook.unlisten (w_book w) (k_host_id c) (k_service_id c) (obj a) else w_book w in
    let h :=
      match find_ba (k_ba_id c) with
      | Some my_ba => with_bas (w_heap w) (alter (remove_impact (obj a)) my_ba (ba_objects (w_heap w)))
      | None => w_heap w
      end in
    World h (delete id (w_applied w)) b (w_published w)
  end.

(** The loop on the indicators of one activity. *)
Definition remove_kpi_of (ba_id : Z) w (p : Z * applied) : world :=
  if k_ba_id (cfg p.2) =? ba_id then _remove_kpi w p.1 else w.

Definition _invalidate_ba w (c : kpi) : world :=
  let w := World (w_heap w) (w_applied w) (w_book w) (w_published w ++ [P_kpi_status (k_id c) 3 3 now false]) in
  let w := fold_left (remove_kpi_of (k_ba_id c)) (items (w_applied w)) w in
  match find_ba (k_ba_id c) with
  | Some my_ba =>
    with_heap w (with_bas (w_heap w) (alter (BaApplier.set_valid false) my_ba (ba_objects (w_heap w))))
  | None => w
  end.

(** What an indicator follows: nothing to find for a service; None when it is
    not found. *)
Definition source_of (c : kpi) : option (option Z) :=
  if is_ba c then Some <$> find_ba (k_indicator_ba_id c)
  else if is_meta c then Some <$> find_meta (k_meta_id c)
  else if is_boolexp c then Some <$> find_boolexp (k_boolexp_id c)
  else Some None.

Definition _resolve_kpi (h : heap) (c : kpi) (x : Z) : option heap :=
  match find_ba (k_ba_id c), source_of c with
  | Some my_ba, Some source =>
    let h :=
      match source with
      | Some target => add_parent (with_kpis h (alter (set_link target) x (kpi_objects h))) target x
      | None => h
      end in
    let h :=
      if Kpi.kpi_id (k_event c) =? 0 then h
      else with_kpis h (alter (set_initial_event (k_event c)) x (kpi_objects h)) in
    let h := with_bas h (alter (add_impact x) my_ba (ba_objects h)) in
    Some (add_parent h x my_ba)
  | _, _ => None
  end.

(** An indicator that has a service is made as one of a service; when it follows
    something else too, static_pointer_cast takes it for an object of another
    class, and what follows is not defined. *)
Definition miscast (c : kpi) : bool := is_service c && (is_ba c || is_meta c || is_boolexp c).

Definition create_kpi w (p : Z * kpi) : world :=
  if HstSvcMapping.get_activated mapping (k_host_id p.2) (k_service_id p.2) then
    match _new_kpi w p.2 with
    | Some (x, w) => World (w_heap w) (<[p.1 := Applied p.2 x]> (w_applied w)) (w_book w) (w_published w)
    | None => _invalidate_ba w p.2
    end
  else w.

(** The loop of the resolution, on the indicators that are left to resolve. An
    indicator that cannot be resolved makes it start again; nothing is returned
    once a cast is wrong. *)
Fixpoint resolve_loop (fuel : nat) w (todo : list Z) : outcome world :=
  match fuel with
  | O => Diverges
  | S fuel =>
    match todo with
    | [] => Returns w
    | id :: rest =>
      match w_applied w !! id with
      | None => resolve_loop fuel w rest
      | Some a =>
        if bool_decide (is_Some (find_ba (k_ba_id (cfg a)))) && miscast (cfg a) then Diverges
        else
          match _resolve_kpi (w_heap w) (cfg a) (obj a) with
          | Some h => resolve_loop fuel (with_heap w h) rest
          | None => let w := _invalidate_ba w (cfg a) in resolve_loop fuel w (items (w_applied w)).*1
          end
      end
    end
  end.

(** Each start resolves at most all the indicators, one less each time. *)
Definition resolution_fuel (n : nat) : nat := S (n * S n + n).

Definition resolve_all w : outcome world :=
  resolve_loop (resolution_fuel (size (w_applied w))) w (items (w_applied w)).*1.

(** Before the resolution. *)
Definition create_all w (my_kpis : gmap Z kpi) : world :=
  let '(to_delete, to_create) := diff_recreate cfg (fun a b => negb (kpi_eqb a b)) (w_applied w) my_kpis in
  fold_left create_kpi (items to_create) (fold_left _remove_kpi (items to_delete).*1 w).

Definition apply w (my_kpis : gmap Z kpi) : outcome world := resolve_all (create_all w my_kpis).

(** ** What the applier keeps *)

Definition resolvable (c : kpi) : bool := bool_decide (is_Some (find_ba (k_ba_id c)) /\ is_Some (source_of c)).

Definition listens_to (c : kpi) (k : Z * Z) : bool := is_service c && bool_decide (k = (k_host_id c, k_service_id c)).

(** An indicator listens once to its service, and impacts no other activity than
    its own. *)
Record wf w : Prop := Wf {
  wf_object : forall id a, w_applied w !! id = Some a -> is_Some (kpi_objects (w_heap w) !! obj a);
  wf_next : forall x, is_Some (kpi_objects (w_heap w) !! x) -> x < next (w_heap w);
  wf_inj : forall i j a b, w_applied w !! i = Some a -> w_applied w !! j = Some b -> obj a = obj b -> i = j;
  wf_book_next : forall k x, next (w_heap w) <= x -> ServiceBook.occurs (w_book w) k x = 0%nat;
  wf_listens : forall id a k, w_applied w !! id = Some a ->
    ServiceBook.occurs (w_book w) k (obj a) = (if listens_to (cfg a) k then 1 else 0)%nat;
  wf_removed : forall x k, is_Some (kpi_objects (w_heap w) !! x) ->
    (forall id a, w_applied w !! id = Some a -> obj a <> x) -> ServiceBook.occurs (w_book w) k x = 0%nat;
  wf_bas : forall i b, find_ba i = Some b -> is_Some (ba_objects (w_heap w) !! b);
  wf_impacts : forall i b o x, find_ba i = Some b -> ba_objects (w_heap w) !! b = Some o -> x ∈ bo_impacts o ->
    exists id a, w_applied w !! id = Some a /\ obj a = x /\ k_ba_id (cfg a) = i;
  wf_cast : forall id a, w_applied w !! id = Some a -> miscast (cfg a) = false
}.

(** An activity that no error made invalid. *)
Definition valid w (ba_id : Z) : Prop :=
  forall b o, find_ba ba_id = Some b -> ba_objects (w_heap w) !! b = Some o -> bo_valid o = true.

(** An indicator is among the impacts of its activity. *)
Definition linked w (a : applied) : Prop :=
  exists b o, find_ba (k_ba_id (cfg a)) = Some b /\ ba_objects (w_heap w) !! b = Some o /\ obj a ∈ bo_impacts o.

Section Proofs.
(** Two activities are two objects. *)
Context (find_ba_inj : forall i j b, find_ba i = Some b -> find_ba j = Some b -> i = j).

Lemma alter_lookup_Some {V} (f : V -> V) (m : gmap Z V) i j v :
  alter f i m !! j = Some v <-> exists v', m !! j = Some v' /\ v = (if decide (i = j) then f v' else v').
Proof.
  destruct (decide (i = j)) as [->|].
  - rewrite lookup_alter_eq, fmap_Some. done.
  - rewrite lookup_alter_ne by done. naive_solver.
Qed.

Lemma elem_of_remove_impact x y o : y ∈ bo_impacts (remove_impact x o) <-> y ∈ bo_impacts o /\ y <> x.
Proof. unfold remove_impact. cbn [with_impacts bo_impacts]. rewrite list_elem_of_filter. tauto. Qed.

Lemma elem_of_add_impact x y o : y ∈ bo_impacts (add_impact x o) <-> y ∈ bo_impacts o \/ y = x.
Proof.
  unfold add_impact. case_decide; cbn [with_impacts bo_impacts]; [naive_solver|].
  rewrite elem_of_app, list_elem_of_singleton. done.
Qed.

Lemma remove_applied w id : w_applied (_remove_kpi w id) = delete id (w_applied w).
Proof. unfold _remove_kpi. destruct (w_applied w !! id) eqn:E; [done|]. by rewrite delete_id. Qed.

Lemma remove_wf_objects w id : wf w ->
  let w' := _remove_kpi w id in
  next (w_heap w') = next (w_heap w) /\ kpi_objects (w_heap w') = kpi_objects (w_heap w)
  /\ (forall b, is_Some (ba_objects (w_heap w') !! b) <-> is_Some (ba_objects (w_heap w) !! b)).
Proof.
  intros _. unfold _remove_kpi. destruct (w_applied w !! id) as [a|]; [|done]. cbn [w_heap].
  destruct (find_ba (k_ba_id (cfg a))); [|done]. cbn [with_bas next kpi_objects ba_objects].
  split; [done|]. split; [done|]. intros b. apply lookup_alter_is_Some.
Qed.

Lemma remove_impacts w id i b o x : wf w -> find_ba i = Some b ->
  ba_objects (w_heap (_remove_kpi w id)) !! b = Some o -> x ∈ bo_impacts o ->
  exists j a, w_applied (_remove_kpi w id) !! j = Some a /\ obj a = x /\ k_ba_id (cfg a) = i.
Proof.
  intros W Hi Ho Hx. rewrite remove_applied. unfold _remove_kpi in Ho.
  destruct (w_applied w !! id) as [a|] eqn:E.
  2:{ destruct (wf_impacts w W i b o x Hi Ho Hx) as (j & a' & Ha & H). exists j, a'. split; [|done].
      rewrite lookup_delete_ne; [done|congruence]. }
  assert (Hold : exists o', ba_objects (w_heap w) !! b = Some o' /\ x ∈ bo_impacts o'
    /\ (find_ba (k_ba_id (cfg a)) = Some b -> x <> obj a)).
  { cbn [w_heap] in Ho. destruct (find_ba (k_ba_id (cfg a))) as [my_ba|]; [|by exists o].
    cbn [with_bas ba_objects] in Ho. apply alter_lookup_Some in Ho as (o' & Ho' & ->). exists o'.
    destruct (decide (my_ba = b)) as [->|]; [apply elem_of_remove_impact in Hx as [? ?]; done|].
    split; [done|]. split; [done|]. congruence. }
  destruct Hold as (o' & Ho' & Hx' & Hne). destruct (wf_impacts w W i b o' x Hi Ho' Hx') as (j & a' & Ha & Hobj & Hk).
  exists j, a'. split; [|done]. rewrite lookup_delete_ne; [done|]. intros <-. rewrite E in Ha. injection Ha as <-.
  rewrite Hk in Hne. by apply Hne.
Qed.

Lemma kpi_remove_wf w id : wf w -> wf (_remove_kpi w id).
Proof.
  intros W. destruct (remove_wf_objects w id W) as (En & Ek & Eb). pose proof (remove_impacts w id) as Hi.
  pose proof (remove_applied w id) as Ea. pose proof W as [W1 W2 W3 W4 W5 W6 W7 W8 W9].
  split; [|intros x; rewrite Ek, En; apply W2| | | | | |intros i b o x; by apply Hi
    |intros j a; rewrite Ea; intros [_ Ha]%lookup_delete_Some; by apply (W9 j)].
  - intros j a. rewrite Ea, Ek. intros [_ Ha]%lookup_delete_Some. by apply (W1 j).
  - intros i j a b. rewrite Ea. intros [_ Ha]%lookup_delete_Some [_ Hb]%lookup_delete_Some. by apply W3.
  - intros k x. rewrite En. intros Hx. rewrite <-(W4 k x Hx) at 1. unfold _remove_kpi. destruct (w_applied w !! id) as [a|]; [|done].
    cbn [w_book]. destruct (is_service (cfg a)); [|done]. rewrite ServiceBook.occurs_unlisten, W4 by done. done.
  - intros j a k. rewrite Ea. intros [Hne Ha]%lookup_delete_Some. rewrite <-(W5 j a k Ha). unfold _remove_kpi.
    destruct (w_applied w !! id) as [b|] eqn:E; [|done]. cbn [w_book]. destruct (is_service (cfg b)); [|done].
    rewrite ServiceBook.occurs_unlisten. rewrite decide_False; [lia|]. intros [_ Heq]. by apply Hne, (W3 id j b a).
  - intros x k. rewrite Ek, Ea. intros Hx Hn. unfold _remove_kpi. destruct (w_applied w !! id) as [b|] eqn:E.
    2:{ apply W6; [done|]. intros j a Ha. apply (Hn j a). rewrite lookup_delete_ne; [done|congruence]. }
    cbn [w_book]. destruct (decide (x = obj b)) as [->|Hne].
    + destruct (is_service (cfg b)) eqn:Es.
      * rewrite ServiceBook.occurs_unlisten, (W5 id b k E). unfold listens_to. rewrite Es. cbn [andb].
        destruct (decide (k = (k_host_id (cfg b), k_service_id (cfg b)))) as [->|].
        -- by rewrite bool_decide_true, decide_True by done.
        -- rewrite bool_decide_false by done. lia.
      * rewrite (W5 id b k E). unfold listens_to. by rewrite Es.
    + assert (H0 : ServiceBook.occurs (w_book w) k x = 0%nat).
      { apply W6; [done|]. intros j a Ha. destruct (decide (id = j)) as [<-|]; [congruence|].
        apply (Hn j a). by rewrite lookup_delete_ne. }
      destruct (is_service (cfg b)); [|done]. rewrite ServiceBook.occurs_unlisten. lia.
  - intros i b Hb. rewrite Eb. by apply (W7 i).
Qed.

Lemma remove_valid w id i : valid (_remove_kpi w id) i <-> valid w i.
Proof.
  unfold valid, _remove_kpi. destruct (w_applied w !! id) as [a|]; [|done]. cbn [w_heap].
  destruct (find_ba (k_ba_id (cfg a))) as [my_ba|]; [|done]. cbn [with_bas ba_objects].
  split; intros H b o Hb Ho.
  - destruct (decide (my_ba = b)) as [->|Hne].
    + specialize (H b (remove_impact (obj a) o) Hb). cbn in H. apply H. by rewrite lookup_alter_eq, Ho.
    + apply (H b o Hb). by rewrite lookup_alter_ne.
  - apply alter_lookup_Some in Ho as (o' & Ho & ->). specialize (H b o' Hb Ho). by case_decide.
Qed.

(** A new heap with the same objects, when the impacts are those of applied indicators. *)
Lemma with_heap_wf w h : wf w -> next h = next (w_heap w) ->
  (forall x, is_Some (kpi_objects h !! x) <-> is_Some (kpi_objects (w_heap w) !! x)) ->
  (forall b, is_Some (ba_objects h !! b) <-> is_Some (ba_objects (w_heap w) !! b)) ->
  (forall i b o x, find_ba i = Some b -> ba_objects h !! b = Some o -> x ∈ bo_impacts o ->
    exists id a, w_applied w !! id = Some a /\ obj a = x /\ k_ba_id (cfg a) = i) ->
  wf (with_heap w h).
Proof.
  intros [W1 W2 W3 W4 W5 W6 W7 _ W9] En Ek Eb Hi. split; cbn [with_heap w_heap w_applied w_book].
  - intros id a Ha. apply Ek. by apply (W1 id).
  - intros x Hx. rewrite En. apply W2. by apply Ek.
  - exact W3.
  - intros k x. rewrite En. apply W4.
  - exact W5.
  - intros x k Hx. apply W6. by apply Ek.
  - intros i b Hb. apply Eb. by apply (W7 i).
  - exact Hi.
  - exact W9.
Qed.

Lemma publish_wf w l : wf w -> wf (World (w_heap w) (w_applied w) (w_book w) l).
Proof. intros []. by split. Qed.

(** ** Invalid activities *)

Lemma remove_of_applied i w p k :
  w_applied (remove_kpi_of i w p) !! k
  = (if decide (k = p.1 /\ k_ba_id (cfg p.2) = i) then None else w_applied w !! k).
Proof.
  unfold remove_kpi_of. destruct (Z.eqb_spec (k_ba_id (cfg p.2)) i) as [E|E].
  - rewrite remove_applied. destruct (decide (k = p.1)) as [->|].
    + rewrite decide_True by done. apply lookup_delete_eq.
    + rewrite decide_False by tauto. by rewrite lookup_delete_ne.
  - by rewrite decide_False by tauto.
Qed.

Lemma remove_of_all i l : forall w, wf w ->
  let w' := fold_left (remove_kpi_of i) l w in
  wf w' /\ (forall j, valid w' j <-> valid w j)
  /\ (forall k, w_applied w' !! k = None \/ w_applied w' !! k = w_applied w !! k)
  /\ (forall k a, (k, a) ∈ l -> k_ba_id (cfg a) = i -> w_applied w' !! k = None)
  /\ (forall k, (forall a, (k, a) ∈ l -> k_ba_id (cfg a) <> i) -> w_applied w' !! k = w_applied w !! k).
Proof.
  induction l as [|p l IH]; intros w W; cbn [fold_left].
  { split; [done|]. split; [done|]. split; [by right|]. split; [|done]. intros ? ? []%elem_of_nil. }
  assert (W1 : wf (remove_kpi_of i w p)) by (unfold remove_kpi_of; case_match; [by apply kpi_remove_wf|done]).
  destruct (IH _ W1) as (W' & V' & O' & R' & K'). split; [done|]. split; [|split; [|split]].
  - intros j. rewrite V'. unfold remove_kpi_of. case_match; [apply remove_valid|done].
  - intros k. destruct (O' k) as [->| ->]; [by left|]. rewrite remove_of_applied. case_decide; [by left|by right].
  - intros k a [<-|Hin]%elem_of_cons Hi; [|by apply (R' k a)].
    destruct (O' k) as [->| ->]; [done|]. rewrite remove_of_applied. by rewrite decide_True.
  - intros k Hk. rewrite K' by (intros; apply Hk; by right). rewrite remove_of_applied.
    case_decide as H; [|done]. destruct H as [-> H]. destruct p as [k a]. by destruct (Hk a); [left|].
Qed.

Lemma invalidate_applied w c k : wf w ->
  w_applied (_invalidate_ba w c) !! k
  = match w_applied w !! k with
    | Some a => if k_ba_id (cfg a) =? k_ba_id c then None else Some a
    | None => None
    end.
Proof.
  intros W. unfold _invalidate_ba. set (w0 := World _ _ _ _).
  destruct (remove_of_all (k_ba_id c) (items (w_applied w0)) w0 (publish_wf _ _ W)) as (_ & _ & O & R & K).
  assert (E : forall w1 : world, w_applied (match find_ba (k_ba_id c) with
    | Some my_ba => with_heap w1 (with_bas (w_heap w1) (alter (BaApplier.set_valid false) my_ba (ba_objects (w_heap w1))))
    | None => w1 end) = w_applied w1) by (intros; by case_match).
  rewrite E. clear E. change (w_applied w) with (w_applied w0). destruct (w_applied w0 !! k) as [a|] eqn:Ea.
  - destruct (Z.eqb_spec (k_ba_id (cfg a)) (k_ba_id c)) as [Ei|Ei].
    + apply (R k a); [by apply elem_of_items|done].
    + rewrite K; [done|]. intros a' Ha'%elem_of_items. congruence.
  - destruct (O k) as [->|Ho]; [done|]. congruence.
Qed.

Lemma invalidate_wf w c : wf w -> wf (_invalidate_ba w c).
Proof.
  intros W. unfold _invalidate_ba. set (w0 := World _ _ _ _).
  destruct (remove_of_all (k_ba_id c) (items (w_applied w0)) w0 (publish_wf _ _ W)) as (W' & _).
  set (w1 := fold_left _ _ _) in *. destruct (find_ba (k_ba_id c)) as [my_ba|]; [|done].
  apply with_heap_wf; cbn [with_bas next kpi_objects ba_objects]; try done.
  - intros b. apply lookup_alter_is_Some.
  - intros i b o x Hi Ho Hx. apply alter_lookup_Some in Ho as (o' & Ho & ->).
    apply (wf_impacts w1 W' i b o' x Hi Ho). by case_decide.
Qed.

Lemma invalidate_valid w c i : wf w ->
  valid (_invalidate_ba w c) i <-> valid w i /\ (i <> k_ba_id c \/ find_ba i = None).
Proof.
  intros W. unfold _invalidate_ba. set (w0 := World _ _ _ _).
  destruct (remove_of_all (k_ba_id c) (items (w_applied w0)) w0 (publish_wf _ _ W)) as (W' & V' & _).
  set (w1 := fold_left _ _ _) in *. assert (Hv : valid w1 i <-> valid w i) by (rewrite V'; done). rewrite <-Hv. clear Hv V'.
  destruct (find_ba (k_ba_id c)) as [my_ba|] eqn:Eb.
  2:{ split; [|tauto]. intros H. split; [done|]. destruct (decide (i = k_ba_id c)) as [->|]; [by right|by left]. }
  unfold valid. cbn [with_heap w_heap with_bas ba_objects]. split.
  - intros H. destruct (decide (i = k_ba_id c)) as [->|Hne].
    + exfalso. destruct (wf_bas w1 W' _ _ Eb) as [o Ho].
      specialize (H my_ba (BaApplier.set_valid false o) Eb). rewrite lookup_alter_eq, Ho in H. by specialize (H eq_refl).
    + split; [|by left]. intros b o Hb Ho. apply (H b o Hb). rewrite lookup_alter_ne; [done|].
      intros ->. by apply Hne, (find_ba_inj i (k_ba_id c) b).
  - intros [H Hi] b o Hb Ho. apply alter_lookup_Some in Ho as (o' & Ho & ->). rewrite decide_False; [by apply (H b)|].
    intros ->. destruct Hi as [Hi|Hi]; [|congruence]. by apply Hi, (find_ba_inj i (k_ba_id c) b).
Qed.

(** ** The resolution *)

Lemma source_resolvable c : resolvable c = false <-> find_ba (k_ba_id c) = None \/ source_of c = None.
Proof.
  unfold resolvable. rewrite bool_decide_eq_false. rewrite !is_Some_alt.
  destruct (find_ba (k_ba_id c)), (source_of c); naive_solver.
Qed.

(** What a resolution changes. *)
Lemma resolve_objects h c x h' : _resolve_kpi h c x = Some h' ->
  resolvable c = true /\ next h' = next h
  /\ (forall y, is_Some (kpi_objects h' !! y) <-> is_Some (kpi_objects h !! y))
  /\ exists b, find_ba (k_ba_id c) = Some b /\ ba_objects h' = alter (add_impact x) b (ba_objects h).
Proof.
  unfold _resolve_kpi, resolvable. destruct (find_ba (k_ba_id c)) as [b|]; [|done].
  destruct (source_of c) as [s|]; [|done]. intros [= <-]. split; [by apply bool_decide_eq_true|].
  destruct s, (Kpi.kpi_id (k_event c) =? 0); cbn [add_parent with_bas with_kpis next kpi_objects ba_objects];
    (split; [done|]); (split; [intros y; by rewrite ?lookup_alter_is_Some|]); by exists b.
Qed.

Lemma resolve_none h c x : _resolve_kpi h c x = None <-> resolvable c = false.
Proof.
  rewrite source_resolvable. unfold _resolve_kpi.
  destruct (find_ba (k_ba_id c)), (source_of c); naive_solver.
Qed.

Lemma resolve_linked w id a h : wf w -> w_applied w !! id = Some a -> _resolve_kpi (w_heap w) (cfg a) (obj a) = Some h ->
  let w' := with_heap w h in
  wf w' /\ linked w' a /\ (forall a', linked w a' -> linked w' a') /\ (forall i, valid w' i <-> valid w i).
Proof.
  intros W E (_ & En & Ek & b & Eb & Ho)%resolve_objects. destruct (wf_bas w W _ _ Eb) as [o Hob].
  assert (Himp : forall o' y, y ∈ bo_impacts (add_impact (obj a) o') <-> y ∈ bo_impacts o' \/ y = obj a).
  { intros o' y. apply elem_of_add_impact. }
  split; [apply with_heap_wf; [done|done|done| |]|split; [|split]].
  - intros b'. rewrite Ho. apply lookup_alter_is_Some.
  - intros i b' o' x Hi. rewrite Ho. intros (o0 & Ho0 & ->)%alter_lookup_Some Hx.
    destruct (decide (b = b')) as [->|]; [|by apply (wf_impacts w W i b' o0)].
    apply Himp in Hx as [Hx| ->]; [by apply (wf_impacts w W i b' o0)|]. exists id, a. split; [done|]. split; [done|].
    by apply (find_ba_inj _ _ b').
  - exists b, (add_impact (obj a) o). split; [done|]. cbn [with_heap w_heap]. rewrite Ho, lookup_alter_eq, Hob.
    split; [done|]. apply Himp. by right.
  - intros a' (b' & o' & Hb' & Ho' & Hx). destruct (decide (b = b')) as [<-|].
    + exists b, (add_impact (obj a) o'). split; [done|]. cbn [with_heap w_heap]. rewrite Ho, lookup_alter_eq, Ho'.
      split; [done|]. apply Himp. by left.
    + exists b', o'. split; [done|]. cbn [with_heap w_heap]. by rewrite Ho, lookup_alter_ne.
  - assert (Hva : forall o', bo_valid (add_impact (obj a) o') = bo_valid o') by (intros; unfold add_impact; by case_decide).
    intros i. unfold valid. cbn [with_heap w_heap]. rewrite Ho. split; intros H b' o' Hb' Ho'.
    + destruct (decide (b = b')) as [<-|].
      * rewrite <-(Hva o'). apply (H b _ Hb'). by rewrite lookup_alter_eq, Ho'.
      * apply (H b' o' Hb'). by rewrite lookup_alter_ne.
    + apply alter_lookup_Some in Ho' as (o0 & Ho0 & ->). case_decide; [rewrite Hva|]; by apply (H b').
Qed.

(** An indicator that cannot be resolved impacts the activity. *)
Definition culprit w (ba_id : Z) : Prop :=
  exists id a, w_applied w !! id = Some a /\ k_ba_id (cfg a) = ba_id /\ resolvable (cfg a) = false.

(** What the resolution does to a state. *)
Definition resolved w w' : Prop :=
  wf w' /\ (forall id a, w_applied w' !! id = Some a <-> w_applied w !! id = Some a /\ ~ culprit w (k_ba_id (cfg a)))
  /\ (forall id a, w_applied w' !! id = Some a -> linked w' a)
  /\ (forall i, valid w' i <-> valid w i /\ (find_ba i = None \/ ~ culprit w i)).

Lemma invalidate_culprit w c i : wf w ->
  culprit (_invalidate_ba w c) i <-> culprit w i /\ i <> k_ba_id c.
Proof.
  intros W. unfold culprit. setoid_rewrite invalidate_applied; [|done]. split.
  - intros (id & a & Ha & Hi & Hr). destruct (w_applied w !! id) as [a'|] eqn:E; [|done].
    destruct (Z.eqb_spec (k_ba_id (cfg a')) (k_ba_id c)); [done|]. injection Ha as ->.
    split; [by exists id, a|congruence].
  - intros [(id & a & Ha & Hi & Hr) Hne]. exists id, a. rewrite Ha.
    destruct (Z.eqb_spec (k_ba_id (cfg a)) (k_ba_id c)); [congruence|done].
Qed.

Lemma invalidate_resolved w c w' : wf w -> culprit w (k_ba_id c) ->
  resolved (_invalidate_ba w c) w' -> resolved w w'.
Proof.
  intros W Hc (W' & A' & L' & V'). split; [done|]. split; [|split; [done|]].
  - intros id a. rewrite A', invalidate_culprit by done. rewrite invalidate_applied by done.
    destruct (w_applied w !! id) as [a'|]; [|naive_solver].
    destruct (Z.eqb_spec (k_ba_id (cfg a')) (k_ba_id c)) as [E|E].
    + split; [by intros []|]. intros [[= ->] Hn]. rewrite E in Hn. done.
    + split; intros [[= ->] Hn]; (split; [done|]); tauto.
  - intros i. rewrite V', invalidate_valid, invalidate_culprit by done. destruct (decide (i = k_ba_id c)) as [->|]; tauto.
Qed.

Lemma invalidate_size w id a : wf w -> w_applied w !! id = Some a ->
  (size (w_applied (_invalidate_ba w (cfg a))) < size (w_applied w))%nat.
Proof.
  intros W E. assert (H : w_applied (_invalidate_ba w (cfg a)) ⊆ delete id (w_applied w)).
  { apply map_subseteq_spec. intros k b. rewrite invalidate_applied by done.
    destruct (w_applied w !! k) as [b'|] eqn:Ek; [|done].
    destruct (Z.eqb_spec (k_ba_id (cfg b')) (k_ba_id (cfg a))) as [|Hne]; [done|]. intros [= ->].
    rewrite lookup_delete_ne; [done|]. intros ->. congruence. }
  apply map_subseteq_size in H. rewrite map_size_delete_Some in H by eauto.
  assert (size (w_applied w) <> 0%nat); [|lia]. intros H0. apply map_size_empty_inv in H0. by rewrite H0 in E.
Qed.

Lemma resolve_loop_ok n fuel : forall w todo,
  wf w -> (size (w_applied w) <= n)%nat -> (length todo <= n)%nat ->
  (size (w_applied w) * S n + length todo < fuel)%nat ->
  (forall id a, w_applied w !! id = Some a -> id ∈ todo \/ (linked w a /\ resolvable (cfg a) = true)) ->
  exists w', resolve_loop fuel w todo = Returns w' /\ resolved w w'.
Proof.
  induction fuel as [|fuel IH]; intros w todo W Hn Ht Hf Hd; [lia|]. cbn [resolve_loop].
  destruct todo as [|id rest].
  { exists w. split; [done|]. assert (Hnc : forall i, ~ culprit w i).
    { intros i (id & a & Ha & _ & Hr). destruct (Hd id a Ha) as [[]%elem_of_nil|[_ Hr']]. congruence. }
    split; [done|]. split; [naive_solver|]. split; [|naive_solver]. intros id a Ha.
    by destruct (Hd id a Ha) as [[]%elem_of_nil|[]]. }
  cbn [length] in *. destruct (w_applied w !! id) as [a|] eqn:E.
  2:{ apply IH; [done|lia..|]. intros k b Hb. destruct (Hd k b Hb) as [[->|]%elem_of_cons|]; [congruence|by left|by right]. }
  rewrite (wf_cast w W id a E), andb_false_r.
  destruct (_resolve_kpi (w_heap w) (cfg a) (obj a)) as [h|] eqn:Er.
  - destruct (resolve_linked w id a h W E Er) as (W' & L & L' & V). apply resolve_objects in Er as (Hr & _).
    destruct (IH (with_heap w h) rest W') as (w' & -> & W'' & A'' & L'' & V''); cbn [with_heap w_applied]; [lia..| |].
    + intros k b Hb. destruct (Hd k b Hb) as [[->|]%elem_of_cons|[]]; [|by left|right; by split; [apply L'|]].
      right. rewrite E in Hb. by injection Hb as <-.
    + exists w'. split; [done|]. split; [done|]. split; [exact A''|]. split; [done|]. intros i. rewrite V'', V. done.
  - apply resolve_none in Er. pose proof (invalidate_size w id a W E) as Hs.
    assert (Hl : length (items (w_applied (_invalidate_ba w (cfg a)))).*1 = size (w_applied (_invalidate_ba w (cfg a)))).
    { rewrite length_fmap. apply items_length. }
    destruct (IH (_invalidate_ba w (cfg a)) (items (w_applied (_invalidate_ba w (cfg a)))).*1) as (w' & -> & R).
    + by apply invalidate_wf.
    + lia.
    + lia.
    + rewrite Hl. nia.
    + intros k b Hb. left. apply list_elem_of_fmap. exists (k, b). by rewrite elem_of_items.
    + exists w'. split; [done|]. apply (invalidate_resolved w (cfg a)); [done|by exists id, a|done].
Qed.

Lemma resolve_all_ok w : wf w -> exists w', resolve_all w = Returns w' /\ resolved w w'.
Proof.
  intros W. unfold resolve_all. apply (resolve_loop_ok (size (w_applied w))); [done..| | |].
  - rewrite length_fmap, items_length. done.
  - rewrite length_fmap, items_length. unfold resolution_fuel. lia.
  - intros id a Ha. left. apply list_elem_of_fmap. exists (id, a). by rewrite elem_of_items.
Qed.

(** ** The creation *)

Lemma kpi_remove_all l : forall w, wf w ->
  let w' := fold_left _remove_kpi l w in
  wf w' /\ (forall i, valid w' i <-> valid w i)
  /\ forall k, w_applied w' !! k = if decide (k ∈ l) then None else w_applied w !! k.
Proof.
  induction l as [|id l IH]; intros w W; cbn [fold_left].
  { split; [done|]. split; [done|]. intros k. by rewrite decide_False by apply not_elem_of_nil. }
  destruct (IH (_remove_kpi w id) (kpi_remove_wf w id W)) as (W' & V' & A'). split; [done|].
  split; [intros i; by rewrite V', remove_valid|]. intros k. rewrite A', remove_applied.
  destruct (decide (k = id)) as [->|].
  - rewrite lookup_delete_eq. rewrite (decide_True (P := id ∈ id :: l)) by by left. by case_decide.
  - rewrite lookup_delete_ne by done. destruct (decide (k ∈ l)).
    + by rewrite decide_True by by right.
    + rewrite decide_False; [done|]. by apply not_elem_of_cons.
Qed.

Lemma new_kpi_wf w id c x w1 : wf w -> w_applied w !! id = None -> miscast c = false -> _new_kpi w c = Some (x, w1) ->
  let w' := World (w_heap w1) (<[id := Applied c x]> (w_applied w1)) (w_book w1) (w_published w1) in
  wf w' /\ w_applied w1 = w_applied w /\ ba_objects (w_heap w1) = ba_objects (w_heap w).
Proof.
  intros [W1 W2 W3 W4 W5 W6 W7 W8 W9] E Hc. unfold _new_kpi. destruct (kind_of c) as [kind|]; [|done].
  intros [= <- <-]. cbn zeta. remember (next (w_heap w)) as x eqn:Hx.
  assert (Hobj : forall j b, w_applied w !! j = Some b -> obj b < x) by (intros j b Hb; by apply W2, (W1 j)).
  assert (Hocc : forall k y, ServiceBook.occurs
      (if is_service c then ServiceBook.listen (w_book w) (k_host_id c) (k_service_id c) x else w_book w) k y
      = (ServiceBook.occurs (w_book w) k y + if decide (y = x) then if listens_to c k then 1 else 0 else 0)%nat).
  { intros k y. unfold listens_to. destruct (is_service c); cbn [andb]; [|case_decide; lia].
    rewrite ServiceBook.occurs_listen. repeat case_decide; repeat case_bool_decide; naive_solver lia. }
  split; [|done]. split; cbn [w_heap w_applied w_book with_kpis bump next kpi_objects ba_objects].
  - intros j b Hb. destruct (decide (j = id)) as [->|].
    + rewrite lookup_insert_eq in Hb. injection Hb as <-. cbn [obj]. rewrite lookup_insert_eq. by eexists.
    + rewrite lookup_insert_ne in Hb by done. specialize (Hobj j b Hb). rewrite lookup_insert_ne by lia. by apply (W1 j).
  - intros y Hy%lookup_insert_is_Some. destruct Hy as [Hy|[_ Hy]]; [|specialize (W2 y Hy)]; lia.
  - intros i j a b Ha Hb Heq. destruct (decide (i = id)) as [->|], (decide (j = id)) as [->|]; [done| | |].
    + rewrite lookup_insert_eq in Ha. rewrite lookup_insert_ne in Hb by done. injection Ha as <-. cbn [obj] in *. specialize (Hobj j b Hb). lia.
    + rewrite lookup_insert_eq in Hb. rewrite lookup_insert_ne in Ha by done. injection Hb as <-. cbn [obj] in *. specialize (Hobj i a Ha). lia.
    + rewrite lookup_insert_ne in Ha, Hb by done. by apply (W3 i j a b).
  - intros k y Hy. rewrite Hocc, W4, decide_False by lia. done.
  - intros j b k Hb. rewrite Hocc. destruct (decide (j = id)) as [->|].
    + rewrite lookup_insert_eq in Hb. injection Hb as <-. cbn [obj cfg]. by rewrite W4, decide_True by lia.
    + rewrite lookup_insert_ne in Hb by done. specialize (Hobj j b Hb). rewrite (W5 j b k Hb), decide_False; lia.
  - intros y k Hy Hn. rewrite Hocc. assert (Hyx : y <> x) by (intros ->; by apply (Hn id (Applied c x)); [rewrite lookup_insert_eq|]).
    rewrite decide_False, W6; [done| | |done].
    + apply lookup_insert_is_Some in Hy as [->|[_ Hy]]; done.
    + intros j b Hb. apply (Hn j b). rewrite lookup_insert_ne; [done|]. intros <-. congruence.
  - exact W7.
  - intros i b o y Hi Ho Hy. destruct (W8 i b o y Hi Ho Hy) as (j & a & Ha & H). exists j, a. split; [|done].
    rewrite lookup_insert_ne; [done|]. intros <-. congruence.
  - intros j a [[_ <-]|[_ Ha]]%lookup_insert_Some; [done|by apply (W9 j)].
Qed.

Definition activated (c : kpi) : bool := HstSvcMapping.get_activated mapping (k_host_id c) (k_service_id c).

(** An indicator that is made and follows nothing: it makes its activity invalid. *)
Definition kindless (c : kpi) : bool := activated c && bool_decide (kind_of c = None).

Lemma create_kpi_kind w id c : wf w -> w_applied w !! id = None -> miscast c = false -> kindless c = false ->
  let w' := create_kpi w (id, c) in
  wf w' /\ (forall i, valid w' i <-> valid w i) /\ (forall k, k <> id -> w_applied w' !! k = w_applied w !! k)
  /\ cfg <$> w_applied w' !! id = if activated c then Some c else None.
Proof.
  intros W E Hc Hk. unfold create_kpi, kindless, activated in *. cbn [fst snd].
  case_match; [|by rewrite E]. cbn [andb] in Hk. apply bool_decide_eq_false in Hk.
  destruct (_new_kpi w c) as [[x w1]|] eqn:En; [|unfold _new_kpi in En; by destruct (kind_of c)].
  destruct (new_kpi_wf w id c x w1 W E Hc En) as (W' & Ea & Eb). split; [done|]. split; [|split].
  - intros i. unfold valid. cbn [w_heap]. by rewrite Eb.
  - intros k Hne. cbn [w_applied]. rewrite lookup_insert_ne by done. by rewrite Ea.
  - cbn [w_applied]. by rewrite lookup_insert_eq.
Qed.

Lemma create_kpi_kindless w id c : kindless c = true -> create_kpi w (id, c) = _invalidate_ba w c.
Proof.
  intros [Ha Hk%bool_decide_eq_true]%andb_true_iff. unfold create_kpi, _new_kpi. cbn [fst snd].
  unfold activated in Ha. by rewrite Ha, Hk.
Qed.

(** One of the indicators to make has no kind and impacts the activity. *)
Definition spoils (l : list (Z * kpi)) (ba_id k : Z) : Prop :=
  exists c, (k, c) ∈ l /\ kindless c = true /\ k_ba_id c = ba_id.

Lemma spoils_cons k c l i j : spoils ((k, c) :: l) i j <-> (j = k /\ kindless c = true /\ k_ba_id c = i) \/ spoils l i j.
Proof.
  unfold spoils. setoid_rewrite elem_of_cons. split.
  - intros (c' & [E|H] & Hc); [injection E as -> ->; by left|right; by exists c'].
  - intros [(-> & Hc)|(c' & H & Hc)]; [exists c; auto|exists c'; auto].
Qed.

(** What is applied after the indicators [l] are made in [w]. *)
Record created_from w (l : list (Z * kpi)) w' : Prop := Created_from {
  cf_wf : wf w';
  cf_valid : forall i, valid w' i <-> valid w i /\ (find_ba i = None \/ forall j, ~ spoils l i j);
  cf_before : forall k a, k ∉ l.*1 ->
    w_applied w' !! k = Some a <-> w_applied w !! k = Some a /\ forall j, ~ spoils l (k_ba_id (cfg a)) j;
  cf_made : forall k c c', (k, c) ∈ l ->
    cfg <$> w_applied w' !! k = Some c'
    <-> c' = c /\ activated c = true /\ kindless c = false /\ forall j, spoils l (k_ba_id c) j -> j < k
}.

Lemma created_kind k c l w w1 w' : StronglySorted (fun p q => p.1 < q.1) ((k, c) :: l) -> w_applied w !! k = None ->
  kindless c = false -> (forall i, valid w1 i <-> valid w i) -> (forall k', k' <> k -> w_applied w1 !! k' = w_applied w !! k') ->
  cfg <$> w_applied w1 !! k = (if activated c then Some c else None) -> created_from w1 l w' -> created_from w ((k, c) :: l) w'.
Proof.
  intros [Hs Hlt]%StronglySorted_inv Hn Hc V O E [W' V' B' M']. rewrite Forall_forall in Hlt.
  assert (Hsp : forall i j, spoils ((k, c) :: l) i j <-> spoils l i j).
  { intros i j. rewrite spoils_cons. split; [intros [(_ & H & _)|H]; [congruence|done]|by right]. }
  assert (Hgt : forall i j, spoils l i j -> k < j) by (intros i j (d & Hd & _); by apply (Hlt (j, d))).
  assert (Hkl : k ∉ l.*1) by (intros ([k' d] & -> & H)%list_elem_of_fmap; specialize (Hlt _ H); cbn in Hlt; lia).
  split; [done| | |].
  - intros i. rewrite V', V. setoid_rewrite Hsp. done.
  - intros k' a [Hne Hk']%not_elem_of_cons. setoid_rewrite Hsp. rewrite B', O by done. done.
  - intros k' d d' [Heq|H]%elem_of_cons; setoid_rewrite Hsp; [|by apply M']. injection Heq as -> ->. rewrite fmap_Some. split.
    + intros (a & [Ha Hj]%B' & ->); [|done]. rewrite Ha in E. cbn in E. destruct (activated c); [|done].
      injection E as E. rewrite E in *. repeat (split; [done|]). intros j Hj'. by apply Hj in Hj'.
    + intros (-> & Ha & _ & Hj). rewrite Ha in E. apply fmap_Some in E as (a & E & ->). exists a. split; [|done].
      apply B'; [done|]. split; [done|]. intros j Hj'. pose proof (Hj j Hj'). specialize (Hgt _ j Hj'). lia.
Qed.

Lemma created_kindless k c l w w' : StronglySorted (fun p q => p.1 < q.1) ((k, c) :: l) -> wf w ->
  w_applied w !! k = None -> kindless c = true -> (forall k' c', (k', c') ∈ l -> w_applied w !! k' = None) ->
  created_from (_invalidate_ba w c) l w' -> created_from w ((k, c) :: l) w'.
Proof.
  intros [Hs Hlt]%StronglySorted_inv W Hn Hc Hl [W' V' B' M']. rewrite Forall_forall in Hlt.
  assert (Hkl : k ∉ l.*1) by (intros ([k' d] & -> & H)%list_elem_of_fmap; specialize (Hlt _ H); cbn in Hlt; lia).
  assert (Hsp : forall i, (forall j, ~ spoils ((k, c) :: l) i j) <-> i <> k_ba_id c /\ forall j, ~ spoils l i j).
  { intros i. setoid_rewrite spoils_cons. split; [|naive_solver]. intros H. split; [intros ->; apply (H k); by left|].
    intros j Hj. apply (H j). by right. }
  split; [done| | |].
  - intros i. rewrite V', invalidate_valid, Hsp by done. tauto.
  - intros k' a [Hne Hk']%not_elem_of_cons. rewrite B', invalidate_applied, Hsp by done.
    destruct (w_applied w !! k') as [a'|]; [|naive_solver].
    destruct (Z.eqb_spec (k_ba_id (cfg a')) (k_ba_id c)); naive_solver.
  - intros k' d d' [Heq|H]%elem_of_cons.
    + injection Heq as -> ->. split; [|naive_solver congruence]. intros (a & Ha & ->)%fmap_Some. apply B' in Ha as [Ha _]; [|done].
      rewrite invalidate_applied, Hn in Ha by done. done.
    + rewrite M' by done. assert (Hk : forall j, spoils ((k, c) :: l) (k_ba_id d) j -> j < k' <-> (j = k \/ spoils l (k_ba_id d) j) -> j < k').
      { intros j. rewrite spoils_cons. specialize (Hlt _ H). cbn in Hlt. intuition lia. }
      specialize (Hlt _ H). cbn in Hlt. split; intros (-> & Ha & Hd & Hj); repeat (split; [done|]); intros j Hj'; [|apply Hj].
      * apply spoils_cons in Hj' as [(-> & _)|Hj']; [lia|by apply Hj].
      * apply spoils_cons. by right.
Qed.

Lemma create_kpis l : forall w, wf w -> StronglySorted (fun p q => p.1 < q.1) l ->
  (forall k c, (k, c) ∈ l -> w_applied w !! k = None /\ miscast c = false) -> created_from w l (fold_left create_kpi l w).
Proof.
  induction l as [|[k c] l IH]; intros w W Hl Hin; cbn [fold_left].
  { assert (H0 : forall i j, ~ spoils [] i j) by (intros i j (c & []%elem_of_nil & _)).
    split; [done|intros; naive_solver|intros; naive_solver|]. intros ? ? ? []%elem_of_nil. }
  destruct (Hin k c) as [Hn Hm]; [by left|]. pose proof (StronglySorted_inv Hl) as [Hl' Hlt]. rewrite Forall_forall in Hlt.
  destruct (kindless c) eqn:Hc.
  - rewrite create_kpi_kindless by done. apply created_kindless; [done..| |].
    + intros k' c' H. apply (Hin k' c'). by right.
    + apply IH; [by apply invalidate_wf|done|]. intros k' c' H. destruct (Hin k' c') as [Hn' Hm']; [by right|].
      split; [|done]. by rewrite invalidate_applied, Hn'.
  - destruct (create_kpi_kind w k c W Hn Hm Hc) as (W1 & V1 & O1 & E1). eapply created_kind; [done..|].
    apply IH; [done..|]. intros k' c' H. destruct (Hin k' c') as [Hn' Hm']; [by right|]. split; [|done].
    rewrite O1; [done|]. specialize (Hlt _ H). cbn in Hlt. lia.
Qed.

(** No indicator has a service and follows something else. *)
Definition well_cast (my_kpis : gmap Z kpi) : Prop := forall id c, my_kpis !! id = Some c -> miscast c = false.

(** The configured indicators that did not change and are kept; the others are
    made, unless their service is deactivated. *)
Definition kept_kpi w (my_kpis : gmap Z kpi) (id : Z) : option kpi :=
  c ← my_kpis !! id; a ← w_applied w !! id; if kpi_eqb (cfg a) c then Some (cfg a) else None.
Definition new_kpi w (my_kpis : gmap Z kpi) (id : Z) : option kpi :=
  c ← my_kpis !! id; if kept_kpi w my_kpis id then None else if activated c then Some c else None.

(** One of those that are made follows nothing and impacts the activity. *)
Definition spoiled w (my_kpis : gmap Z kpi) (ba_id id : Z) : Prop :=
  exists c, new_kpi w my_kpis id = Some c /\ kind_of c = None /\ k_ba_id c = ba_id.

(** The indicators a configuration asks for. One that follows nothing takes
    away those of its activity that were kept or made before it. *)
Definition wanted w (my_kpis : gmap Z kpi) (id : Z) (c : kpi) : Prop :=
  (kept_kpi w my_kpis id = Some c /\ forall j, ~ spoiled w my_kpis (k_ba_id c) j)
  \/ (new_kpi w my_kpis id = Some c /\ is_Some (kind_of c) /\ forall j, spoiled w my_kpis (k_ba_id c) j -> j < id).

(** An activity one of whose indicators cannot be resolved. *)
Definition broken w (my_kpis : gmap Z kpi) (ba_id : Z) : Prop :=
  exists id c, wanted w my_kpis id c /\ k_ba_id c = ba_id /\ resolvable c = false.

(** The two lists of an applier, as [kept_kpi] and [new_kpi] say. *)
Lemma diff_kpis w my_kpis d c : diff_recreate cfg (fun a b => negb (kpi_eqb a b)) (w_applied w) my_kpis = (d, c) ->
  (forall k, cfg <$> (if d !! k then None else w_applied w !! k) = kept_kpi w my_kpis k)
  /\ (forall k, c !! k = if kept_kpi w my_kpis k then None else my_kpis !! k).
Proof.
  intros [Hd Hc]%diff_recreate_spec. split; intros k; unfold kept_kpi; [rewrite Hd|rewrite Hc];
    (destruct (my_kpis !! k) as [x|]; [|cbn; by destruct (w_applied w !! k)]);
    (destruct (w_applied w !! k) as [a|]; cbn; [|done]); by destruct (kpi_eqb (cfg a) x).
Qed.

Lemma spoils_spoiled w my_kpis c i j : (forall k, c !! k = if kept_kpi w my_kpis k then None else my_kpis !! k) ->
  spoils (items c) i j <-> spoiled w my_kpis i j.
Proof.
  intros Hc. unfold spoils, spoiled, new_kpi, kindless. setoid_rewrite elem_of_items. rewrite Hc.
  split.
  - intros (x & Hx & [Ha Hk%bool_decide_eq_true]%andb_true_iff & Hi). exists x.
    destruct (kept_kpi w my_kpis j); [done|]. rewrite Hx. cbn. by rewrite Ha.
  - intros (x & Hx & Hk & Hi). exists x. apply bind_Some in Hx as (y & Hy & Hx). destruct (kept_kpi w my_kpis j); [done|].
    destruct (activated y) eqn:Ha; [|done]. injection Hx as ->. rewrite Ha, bool_decide_eq_true_2 by done. done.
Qed.

Lemma create_all_ok w my_kpis : wf w -> well_cast my_kpis ->
  let w' := create_all w my_kpis in
  wf w' /\ (forall i, valid w' i <-> valid w i /\ (find_ba i = None \/ forall j, ~ spoiled w my_kpis i j))
  /\ forall id c, cfg <$> w_applied w' !! id = Some c <-> wanted w my_kpis id c.
Proof.
  intros W Hm. unfold create_all. destruct (diff_recreate _ _ _ _) as [d c] eqn:Ed.
  apply diff_kpis in Ed as [Hd Hc]. pose proof (fun i j => spoils_spoiled w my_kpis c i j Hc) as Hsp.
  destruct (kpi_remove_all (items d).*1 w W) as (W1 & V1 & A1). set (w1 := fold_left _remove_kpi _ _) in *.
  assert (E1 : forall k, w_applied w1 !! k = if d !! k then None else w_applied w !! k).
  { intros k. rewrite A1. destruct (d !! k) as [a|] eqn:E.
    - rewrite decide_True; [done|]. apply list_elem_of_fmap. exists (k, a). by rewrite elem_of_items.
    - rewrite decide_False; [done|]. intros ([k' a] & -> & H%elem_of_items)%list_elem_of_fmap. cbn in E. congruence. }
  destruct (create_kpis (items c) w1 W1 (items_sorted c)) as [W2 V2 B2 M2].
  { intros k x H%elem_of_items. rewrite Hc in H. specialize (Hd k). rewrite <-E1 in Hd.
    destruct (kept_kpi w my_kpis k); [done|]. apply fmap_None in Hd. split; [done|by apply (Hm k)]. }
  split; [done|]. split; [intros i; rewrite V2, V1; by setoid_rewrite Hsp|]. intros k x. unfold wanted, new_kpi.
  specialize (Hd k). rewrite <-E1 in Hd. specialize (Hc k). destruct (c !! k) as [y|] eqn:Ec.
  - destruct (kept_kpi w my_kpis k); [done|]. rewrite (M2 k y x) by by apply elem_of_items. setoid_rewrite Hsp.
    rewrite <-Hc. cbn [mbind option_bind]. unfold kindless. destruct (activated y) eqn:Ha; [|naive_solver].
    cbn [andb]. rewrite bool_decide_eq_false. rewrite <-not_eq_None_Some. naive_solver.
  - rewrite fmap_Some. setoid_rewrite (fun a => B2 k a ltac:(intros ([k' z] & -> & H%elem_of_items)%list_elem_of_fmap; cbn in Ec; congruence)).
    setoid_rewrite Hsp. rewrite <-Hd. destruct (w_applied w1 !! k) as [a|]; cbn [fmap option_fmap option_map].
    + destruct (my_kpis !! k) as [z|]; cbn [mbind option_bind]; rewrite <-?Hd; cbn; naive_solver.
    + destruct (kept_kpi w my_kpis k); [done|]. rewrite <-Hc. cbn. naive_solver.
Qed.

Lemma culprit_broken w my_kpis w0 i : (forall id c, cfg <$> w_applied w0 !! id = Some c <-> wanted w my_kpis id c) ->
  culprit w0 i <-> broken w my_kpis i.
Proof.
  intros H. unfold culprit, broken. setoid_rewrite <-H. split.
  - intros (id & a & Ha & Hi & Hr). exists id, (cfg a). by rewrite Ha.
  - intros (id & c & Hc & Hi & Hr). apply fmap_Some in Hc as (a & Ha & ->). by exists id, a.
Qed.

(** ** What is left alone *)

(** All of an activity but its impacts and its validity. *)
Definition settings (o : ba_object) : ba_object := BaApplier.set_valid true (with_impacts [] o).

Lemma settings_kept o o' : settings o' = settings o ->
  BaApplier.own_service o' = BaApplier.own_service o /\ forall c, BaApplier.shows c o -> BaApplier.shows c o'.
Proof. destruct o, o'. by intros [= -> -> -> -> -> -> -> -> ->]. Qed.

Lemma settings_before o o' : settings o' = settings o ->
  (forall o0, BaApplier.kept o0 o -> BaApplier.kept o0 o') /\ forall c, BaApplier.made c o -> BaApplier.made c o'.
Proof.
  destruct o, o'. intros [= -> -> -> -> -> -> -> -> ->]. split; [|done]. intros o0 [K1 K2 K3 K4]. by split.
Qed.

(** The other objects, the listeners that are no indicators, and of the
    activities all but their impacts and their validity. *)
Record frame w w' : Prop := Frame {
  f_next : next (w_heap w) <= next (w_heap w');
  f_metas : meta_objects (w_heap w') = meta_objects (w_heap w);
  f_kpi : forall x, x < next (w_heap w) ->
    is_Some (kpi_objects (w_heap w') !! x) <-> is_Some (kpi_objects (w_heap w) !! x);
  f_ba : forall x, is_Some (ba_objects (w_heap w') !! x) <-> is_Some (ba_objects (w_heap w) !! x);
  f_settings : forall x o o', ba_objects (w_heap w) !! x = Some o -> ba_objects (w_heap w') !! x = Some o' ->
    settings o' = settings o;
  f_quiet : forall k x, x < next (w_heap w) -> kpi_objects (w_heap w) !! x = None ->
    ServiceBook.occurs (w_book w') k x = ServiceBook.occurs (w_book w) k x
}.

Lemma kpi_frame_refl w : frame w w.
Proof. split; try done. intros x o o' H1 H2. by simplify_eq. Qed.

Lemma kpi_frame_trans w1 w2 w3 : frame w1 w2 -> frame w2 w3 -> frame w1 w3.
Proof.
  intros [A1 A2 A3 A4 A5 A6] [B1 B2 B3 B4 B5 B6]. split; [lia|congruence| | | |].
  - intros x Hx. rewrite B3, A3 by lia. done.
  - intros x. by rewrite B4, A4.
  - intros x o1 o3 H1 H3. destruct (proj2 (A4 x) ltac:(by eexists)) as [o2 H2].
    rewrite (B5 x o2 o3 H2 H3). by apply (A5 x o1 o2).
  - intros k x Hx Hn. rewrite B6, A6; [done|done|done|lia|].
    apply eq_None_not_Some. rewrite A3 by done. rewrite Hn. by intros [? ?].
Qed.

(** A change of the impacts and of the validity of an activity only. *)
Definition keeps_settings (f : ba_object -> ba_object) : Prop := forall o, settings (f o) = settings o.

Lemma kpi_alter_frame w f b m p applied : keeps_settings f ->
  (forall y, is_Some (m !! y) <-> is_Some (kpi_objects (w_heap w) !! y)) ->
  forall h, next h = next (w_heap w) -> meta_objects h = meta_objects (w_heap w) -> kpi_objects h = m ->
  ba_objects h = alter f b (ba_objects (w_heap w)) -> frame w (World h applied (w_book w) p).
Proof.
  intros Hf Hm h En Em Ek Eb. split; cbn [w_heap w_book]; rewrite ?En, ?Em, ?Ek, ?Eb; try done.
  - intros x. apply lookup_alter_is_Some.
  - intros x o o' Ho Ho'. apply alter_lookup_Some in Ho' as (o0 & Ho0 & ->). simplify_eq. case_decide; [by apply Hf|done].
Qed.

Lemma keeps_valid v : keeps_settings (BaApplier.set_valid v).
Proof. by intros o. Qed.
Lemma keeps_remove x : keeps_settings (remove_impact x).
Proof. by intros o. Qed.
Lemma keeps_add x : keeps_settings (add_impact x).
Proof. intros o. unfold add_impact. by case_decide. Qed.

Lemma same_heap_frame w applied p : frame w (World (w_heap w) applied (w_book w) p).
Proof. split; cbn [w_heap w_book]; try done. intros x o o' H1 H2. by simplify_eq. Qed.

Lemma kpi_remove_frame w id : wf w -> frame w (_remove_kpi w id).
Proof.
  intros W. unfold _remove_kpi. destruct (w_applied w !! id) as [a|] eqn:E; [|apply kpi_frame_refl].
  destruct (wf_object w W id a E) as [o Ho]. cbn zeta.
  apply kpi_frame_trans with (w2 := World (w_heap w) (w_applied w)
    (if is_service (cfg a) then ServiceBook.unlisten (w_book w) (k_host_id (cfg a)) (k_service_id (cfg a)) (obj a) else w_book w) (w_published w)).
  - split; cbn [w_heap w_book]; try done; [intros x o1 o2 H1 H2; by simplify_eq|].
    intros k x _ Hn. destruct (is_service (cfg a)); [|done]. rewrite ServiceBook.occurs_unlisten, decide_False; [lia|].
    intros [_ ->]. congruence.
  - destruct (find_ba (k_ba_id (cfg a))); [|apply (same_heap_frame (World _ _ _ _))].
    eapply (kpi_alter_frame (World _ _ _ _)); [apply keeps_remove|reflexivity|done..].
Qed.

Lemma remove_of_frame i l : forall w, wf w -> frame w (fold_left (remove_kpi_of i) l w).
Proof.
  induction l as [|p l IH]; intros w W; cbn [fold_left]; [apply kpi_frame_refl|]. unfold remove_kpi_of at 2.
  destruct (k_ba_id (cfg p.2) =? i); [|by apply IH].
  eapply kpi_frame_trans; [by apply kpi_remove_frame|]. by apply IH, kpi_remove_wf.
Qed.

Lemma invalidate_frame w c : wf w -> frame w (_invalidate_ba w c).
Proof.
  intros W. unfold _invalidate_ba. set (w0 := World _ _ _ _).
  assert (F : frame w (fold_left (remove_kpi_of (k_ba_id c)) (items (w_applied w0)) w0)).
  { eapply kpi_frame_trans; [|by apply remove_of_frame, publish_wf]. apply same_heap_frame. }
  destruct (find_ba (k_ba_id c)); [|done]. eapply kpi_frame_trans; [exact F|].
  eapply kpi_alter_frame; [apply (keeps_valid false)|reflexivity|done..].
Qed.

Lemma removes_frame l : forall w, wf w -> frame w (fold_left _remove_kpi l w).
Proof.
  induction l as [|id l IH]; intros w W; cbn [fold_left]; [apply kpi_frame_refl|].
  eapply kpi_frame_trans; [by apply kpi_remove_frame|]. by apply IH, kpi_remove_wf.
Qed.

Lemma kpi_create_frame w p : wf w -> frame w (create_kpi w p).
Proof.
  intros W. unfold create_kpi. case_match; [|apply kpi_frame_refl].
  destruct (_new_kpi w p.2) as [[x w1]|] eqn:E; [|by apply invalidate_frame].
  unfold _new_kpi in E. destruct (kind_of p.2) as [kind|]; [|done]. injection E as <- <-.
  split; cbn [w_heap w_book with_kpis bump next meta_objects kpi_objects ba_objects]; try done; [lia| | |].
  - intros x Hx. by rewrite lookup_insert_ne by lia.
  - intros x o o' H1 H2. by simplify_eq.
  - intros k x Hx _. destruct (is_service p.2); [|done]. rewrite ServiceBook.occurs_listen, decide_False; lia.
Qed.

Lemma creates_frame l : forall w, wf w -> StronglySorted (fun p q => p.1 < q.1) l ->
  (forall k c, (k, c) ∈ l -> w_applied w !! k = None /\ miscast c = false) -> frame w (fold_left create_kpi l w).
Proof.
  induction l as [|[k x] l IH]; intros w W Hs Hl; cbn [fold_left]; [apply kpi_frame_refl|].
  eapply kpi_frame_trans; [by apply kpi_create_frame|]. pose proof (StronglySorted_inv Hs) as [Hs' Hlt].
  destruct (create_kpis [(k, x)] w W) as [W2 _ B2 _].
  { by repeat constructor. }
  { intros k' x' H%list_elem_of_singleton. apply (Hl k'). rewrite H. by left. }
  apply IH; [done..|]. intros k' x' H. destruct (Hl k' x') as [Hn Hm']; [by right|]. split; [|done].
  rewrite Forall_forall in Hlt. specialize (Hlt _ H). cbn in Hlt. apply eq_None_not_Some. intros [a Ha].
  apply B2 in Ha as [Ha _]; [congruence|]. cbn. intros ->%list_elem_of_singleton. lia.
Qed.

Lemma create_all_frame w my_kpis : wf w -> well_cast my_kpis -> frame w (create_all w my_kpis).
Proof.
  intros W Hm. unfold create_all. destruct (diff_recreate _ _ _ _) as [d c] eqn:Ed.
  apply diff_kpis in Ed as [Hd Hc]. destruct (kpi_remove_all (items d).*1 w W) as (W1 & _ & A1).
  eapply kpi_frame_trans; [by apply removes_frame|]. apply creates_frame; [done|apply items_sorted|].
  intros k x H%elem_of_items. rewrite Hc in H. specialize (Hd k). destruct (kept_kpi w my_kpis k); [done|].
  apply fmap_None in Hd. split; [|by apply (Hm k)]. rewrite A1. case_decide as Hk; [done|].
  destruct (d !! k) as [a|] eqn:E; [|done]. destruct Hk. apply list_elem_of_fmap. exists (k, a). by rewrite elem_of_items.
Qed.

Lemma resolve_frame w c x h : _resolve_kpi (w_heap w) c x = Some h -> frame w (with_heap w h).
Proof.
  intros E. assert (Em : meta_objects h = meta_objects (w_heap w)).
  { unfold _resolve_kpi in E. destruct (find_ba (k_ba_id c)); [|done]. destruct (source_of c) as [s|]; [|done].
    injection E as <-. by destruct s, (Kpi.kpi_id (k_event c) =? 0). }
  apply resolve_objects in E as (_ & En & Ek & b & _ & Eb). by eapply kpi_alter_frame; [apply (keeps_add x)|exact Ek|..].
Qed.

Lemma resolve_loop_frame fuel : forall w todo w', wf w -> resolve_loop fuel w todo = Returns w' -> frame w w'.
Proof.
  induction fuel as [|fuel IH]; intros w todo w' W E; [done|]. cbn [resolve_loop] in E.
  destruct todo as [|id rest]; [injection E as <-; apply kpi_frame_refl|].
  destruct (w_applied w !! id) as [a|] eqn:Ea; [|by apply IH in E].
  destruct (bool_decide _ && _); [done|].
  destruct (_resolve_kpi (w_heap w) (cfg a) (obj a)) as [h|] eqn:Er.
  - eapply kpi_frame_trans; [by apply resolve_frame in Er|]. apply IH in E; [done|]. by eapply resolve_linked.
  - eapply kpi_frame_trans; [by apply (invalidate_frame w (cfg a))|]. apply IH in E; [done|]. by apply invalidate_wf.
Qed.

Lemma kpi_apply_ok w my_kpis :
  wf w -> well_cast my_kpis ->
  exists w', apply w my_kpis = Returns w' /\ wf w' /\ frame w w'
  /\ (forall id c, cfg <$> w_applied w' !! id = Some c
        <-> wanted w my_kpis id c /\ ~ broken w my_kpis (k_ba_id c))
  /\ forall i b, find_ba i = Some b -> exists o, ba_objects (w_heap w') !! b = Some o
        /\ (bo_valid o = true <-> valid w i /\ (forall j, ~ spoiled w my_kpis i j) /\ ~ broken w my_kpis i)
        /\ forall x, x ∈ bo_impacts o
             <-> exists id a, w_applied w' !! id = Some a /\ obj a = x /\ k_ba_id (cfg a) = i.
Proof.
  intros W Hm. destruct (create_all_ok w my_kpis W Hm) as (W0 & V0 & A0).
  destruct (resolve_all_ok _ W0) as (w' & E & W' & A' & L' & V').
  assert (Hb : forall i, culprit (create_all w my_kpis) i <-> broken w my_kpis i) by (intros; by apply culprit_broken).
  exists w'. split; [done|]. split; [done|].
  split; [eapply kpi_frame_trans; [by apply create_all_frame|]; by eapply resolve_loop_frame|]. split.
  - intros id c. rewrite <-A0, <-Hb, fmap_Some. split.
    + intros (a & Ha & ->). apply A' in Ha as [-> Hc]. done.
    + intros [Hc Hn]. apply fmap_Some in Hc as (a & Ha & ->). exists a. by rewrite A'.
  - intros i b Hi. destruct (wf_bas w' W' i b Hi) as [o Ho]. exists o. split; [done|]. split.
    + assert (Hv : bo_valid o = true <-> valid w' i).
      { unfold valid. split; [intros Hv b' o' Hb' Ho'; congruence|intros Hv; by apply (Hv b o)]. }
      rewrite Hv, V', V0, Hb. rewrite Hi. intuition congruence.
    + intros x. split; [by apply (wf_impacts w' W' i b o)|].
      intros (id & a & Ha & <- & Hba). destruct (L' id a Ha) as (b' & o' & Hb' & Ho' & Hx). congruence.
Qed.

(** C23. Applying any configuration of indicators ends, provided none has both a
    service and something else to follow (it would be taken for an object of
    another class). An indicator that follows nothing takes away those of its
    activity that were kept or made before it; of what is left, the indicators
    that are applied in the end are those whose activity has none that cannot be
    resolved. An activity is valid afterwards exactly when it was before and has
    no indicator of either sort, and its impacts are exactly its applied
    indicators, those it keeps when it is not valid included. *)
Theorem apply_kpis_resolves w my_kpis :
  wf w -> well_cast my_kpis ->
  exists w', apply w my_kpis = Returns w' /\ wf w'
  /\ (forall id c, cfg <$> w_applied w' !! id = Some c
        <-> wanted w my_kpis id c /\ ~ broken w my_kpis (k_ba_id c))
  /\ forall i b, find_ba i = Some b -> exists o, ba_objects (w_heap w') !! b = Some o
        /\ (bo_valid o = true <-> valid w i /\ (forall j, ~ spoiled w my_kpis i j) /\ ~ broken w my_kpis i)
        /\ forall x, x ∈ bo_impacts o
             <-> exists id a, w_applied w' !! id = Some a /\ obj a = x /\ k_ba_id (cfg a) = i.
Proof.
  intros W Hm. destruct (kpi_apply_ok w my_kpis W Hm) as (w' & E & W' & _ & A'). by exists w'.
Qed.

End Proofs.
End Apply.

(** The applier as the others leave it: with other activities, whose impacts are
    those they had or none, and with no listener of its own moved. *)
Lemma kpi_frame_wf find_ba find_ba' w h b pub : wf find_ba w -> next (w_heap w) <= next h ->
  (forall x, is_Some (kpi_objects h !! x) <-> is_Some (kpi_objects (w_heap w) !! x)) ->
  (forall k x, is_Some (kpi_objects (w_heap w) !! x) -> ServiceBook.occurs b k x = ServiceBook.occurs (w_book w) k x) ->
  (forall k x, next h <= x -> ServiceBook.occurs b k x = 0%nat) ->
  (forall i a, find_ba' i = Some a -> is_Some (ba_objects h !! a)) ->
  (forall i a o x, find_ba' i = Some a -> ba_objects h !! a = Some o -> x ∈ bo_impacts o ->
    find_ba i = Some a /\ exists o0, ba_objects (w_heap w) !! a = Some o0 /\ x ∈ bo_impacts o0) ->
  wf find_ba' (World h (w_applied w) b pub).
Proof.
  intros [W1 W2 W3 W4 W5 W6 W7 W8 W9] Hn Hd Hb Hnb Hf Hi. split; cbn [w_heap w_applied w_book]; try done.
  - intros id a Ha. apply Hd. by apply (W1 id).
  - intros x Hx%Hd%W2. lia.
  - intros id a k Ha. rewrite Hb by by apply (W1 id). by apply (W5 id).
  - intros x k Hx%Hd Hr. rewrite Hb by done. by apply W6.
  - intros i a o x Ha Ho Hx. destruct (Hi i a o x Ha Ho Hx) as (Ha' & o0 & Ho0 & Hx'). by apply (W8 i a o0).
Qed.

(** ** On an example *)

Definition demo_kpi (id ba_id service_id indicator_ba_id : Z) : kpi :=
  Mk_kpi id 1 (if service_id =? 0 then 0 else 1) service_id ba_id indicator_ba_id 0 0 0 0 false false false false
    (Dbl.of_Z 0) (Dbl.of_Z 0) (Dbl.of_Z 0) no_kpi_event.

(** Activities 1 and 2 at the addresses 1 and 2. *)
Definition demo_bas : gmap Z ba_object :=
  {[1 := BaApplier.new_object (BaApplier.demo_ba 1 10 "shop" 80); 2 := BaApplier.new_object (BaApplier.demo_ba 2 11 "mail" 80)]}.
Definition demo_find_ba (id : Z) : option Z := if (id =? 1) || (id =? 2) then Some id else None.
Definition demo_world : world := World (Heap 3 demo_bas ∅ ∅ ∅) ∅ ∅ [].
Definition none (id : Z) : option Z := None.

(** Indicator 6 follows an activity that does not exist. *)
Definition demo_kpis : gmap Z kpi :=
  {[5 := demo_kpi 5 1 20 0; 6 := demo_kpi 6 1 0 9; 7 := demo_kpi 7 2 21 0]}.

Definition demo_applied : outcome (list Z * option (bool * list Z) * option (bool * list Z)) :=
  w ← apply 5 demo_find_ba none none HstSvcMapping.new_mapping demo_world demo_kpis;
  let state b := (fun o => (bo_valid o, bo_impacts o)) <$> ba_objects (w_heap w) !! b in
  Returns ((items (w_applied w)).*1, state 1, state 2).

Example demo_isolated : demo_applied = Returns ([7], Some (false, []), Some (true, [5])).
Proof. by vm_compute. Qed.

Lemma demo_world_wf : wf demo_find_ba demo_world.
Proof.
  split; cbn [demo_world w_heap w_applied w_book next kpi_objects ba_objects]; try done.
  - intros x [y H]. done.
  - intros i b. unfold demo_find_ba. destruct (Z.eqb_spec i 1) as [->|]; [intros [= <-]; by eexists|].
    destruct (Z.eqb_spec i 2) as [->|]; [intros [= <-]; by eexists|done].
  - intros i b o x _ H Hx. exfalso. unfold demo_bas in H.
    apply lookup_insert_Some in H as [[_ <-]|[_ [_ <-]%lookup_singleton_Some]]; by apply elem_of_nil in Hx.
Qed.

Lemma apply_kpis_resolves_witness :
  wf demo_find_ba demo_world
  /\ exists w', apply 5 demo_find_ba none none HstSvcMapping.new_mapping demo_world demo_kpis = Returns w'
       /\ wf demo_find_ba w'.
Proof.
  split; [exact demo_world_wf|].
  destruct (apply_kpis_resolves 5 demo_find_ba none none HstSvcMapping.new_mapping) with (w := demo_world) (my_kpis := demo_kpis)
    as (w' & E & W' & _).
  - intros i j b. unfold demo_find_ba. intros. repeat case_match; congruence.
  - exact demo_world_wf.
  - intros id c H. unfold demo_kpis in H. apply lookup_insert_Some in H as [[<- <-]|[_ H]]; [done|].
    by apply lookup_insert_Some in H as [[<- <-]|[_ [<- <-]%lookup_singleton_Some]].
  - by exists w'.
Defined.

(** An indicator that follows nothing makes its activity invalid as it is made,
    and does not keep the indicators that are made after it from impacting the
    activity. *)
Example invalid_activity_keeps_later_indicators :
  let kpis : gmap Z kpi := {[5 := demo_kpi 5 1 0 0; 6 := demo_kpi 6 1 20 0]} in
  (w ← apply 5 demo_find_ba none none HstSvcMapping.new_mapping demo_world kpis;
   Returns ((items (w_applied w)).*1, (fun o => (bo_valid o, length (bo_impacts o))) <$> ba_objects (w_heap w) !! 1))
  = Returns ([6], Some (false, 1%nat)).
Proof. by vm_compute. Qed.

(** The reader gives an indicator of a meta-service the service that stands for
    the meta-service (reader_v2.cc, _load of the indicators): it is made as one
    of a service and then taken for one of a meta-service. *)
Example meta_indicator_miscast :
  let c := Mk_kpi 5 1 1 20 1 0 4 0 0 0 false false false false (Dbl.of_Z 0) (Dbl.of_Z 0) (Dbl.of_Z 0) no_kpi_event in
  is_meta c = true /\ miscast c = true
  /\ apply 5 demo_find_ba (fun id => Some id) none HstSvcMapping.new_mapping demo_world {[5 := c]} = Diverges.
Proof. by vm_compute. Qed.

(** Each time a configuration is applied, an indicator that did not change gets
    its activity once more as a parent. *)
Example parents_pile_up :
  let kpis : gmap Z kpi := {[5 := demo_kpi 5 1 20 0]} in
  let again w := apply 5 demo_find_ba none none HstSvcMapping.new_mapping w kpis in
  (w ← again demo_world; w ← again w; w ← again w; Returns (default [] (parents (w_heap w) !! 3)))
  = Returns [1; 1; 1].
Proof. by vm_compute. Qed.

End KpiApplier.
