(* ===== verification/BamState.v ===== *)
(** * Applying a configuration of BAM (bam/src/configuration/applier/state.cc,
    bool_expression.cc)

    The configuration is searched for loops, then the business activities, the
    meta-services, the boolean expressions and the indicators are applied, in
    that order. The theorem composes those of the appliers: what holds of the
    objects and of the book of services after a configuration is applied holds
    again after the next one. *)

From Stdlib Require Import ZArith Lia ZifyNat ZifyBool Strings.Byte.
From stdpp Require Import base option list numbers strings gmap sets relations.
From S2P Require Import Prelude Double Kpi Ba MetaService HstSvcMapping BoolValue ExpTokenizer ExpParser ExpBuilder BamConfig BamGraph BaApplier MetaApplier KpiApplier.

(** ** Boolean expressions

    The services of an expression are objects of their own. Calls and metrics,
    which the builder of ExpBuilder leaves out, are left out. *)

Module BoolApplier.
Import Ordered BamConfig BamHeap Diff.

Record applied : Type := Applied {
  cfg : bool_expression;
  obj : Z;
  tree : BoolValue.bool_value;
  impact_if : bool;
  svc : list (Z * BoolValue.bool_service)
}.

Record world : Type := World {
  w_heap : heap;
  w_applied : gmap Z applied;
  w_book : ServiceBook.book
}.
Implicit Types w : world.

Definition unlisten_service (b : ServiceBook.book) (s : Z * BoolValue.bool_service) : ServiceBook.book :=
  ServiceBook.unlisten b (BoolValue._host_id s.2) (BoolValue._service_id s.2) s.1.

Definition remove_exp w (p : Z * applied) : world :=
  World (w_heap w) (delete p.1 (w_applied w)) (fold_left unlisten_service (svc p.2) (w_book w)).

(** A new object for each service, listening. *)
Fixpoint listen_services (h : heap) (b : ServiceBook.book) (l : list BoolValue.bool_service)
  : heap * ServiceBook.book * list (Z * BoolValue.bool_service) :=
  match l with
  | [] => (h, b, [])
  | s :: l =>
    let x := next h in
    let b := ServiceBook.listen b (BoolValue._host_id s) (BoolValue._service_id s) x in
    let '(h, b, svc) := listen_services (bump h) b l in
    (h, b, (x, s) :: svc)
  end.

Section Apply.
Context (fuel : nat) (mapping : HstSvcMapping.hst_svc_mapping).

(** An expression that does not compile is discarded. *)
Definition create_exp w (p : Z * bool_expression) : outcome world :=
  match ExpBuilder.compile fuel mapping (e_expression p.2) with
  | Returns b =>
    let x := next (w_heap w) in
    let '(h, book, svc) := listen_services (bump (w_heap w)) (w_book w) (ExpBuilder.get_services b) in
    Returns (World h (<[p.1 := Applied p.2 x (ExpBuilder._tree b) (e_impact_if p.2) svc]> (w_applied w)) book)
  | Throws _ => Returns w
  | Diverges => Diverges
  end.

Fixpoint create_exps w (l : list (Z * bool_expression)) : outcome world :=
  match l with
  | [] => Returns w
  | p :: l => w ← create_exp w p; create_exps w l
  end.

Definition apply w (my_bools : gmap Z bool_expression) : outcome world :=
  let '(to_delete, to_create) := diff_recreate cfg (fun a b => negb (bool_expression_eqb a b)) (w_applied w) my_bools in
  create_exps (fold_left remove_exp (items to_delete) w) (items to_create).

Definition find_boolexp w (id : Z) : option Z := obj <$> w_applied w !! id.

(** ** What is left alone *)

Definition owned w (x : Z) : Prop := exists id a, w_applied w !! id = Some a /\ x ∈ (svc a).*1.

Record frame w w' : Prop := Frame {
  f_next : next (w_heap w) <= next (w_heap w');
  f_bas : ba_objects (w_heap w') = ba_objects (w_heap w);
  f_kpis : kpi_objects (w_heap w') = kpi_objects (w_heap w);
  f_metas : meta_objects (w_heap w') = meta_objects (w_heap w);
  f_owned : forall x, owned w' x -> owned w x \/ next (w_heap w) <= x < next (w_heap w');
  f_quiet : forall k x, ~ owned w x -> x < next (w_heap w) \/ next (w_heap w') <= x ->
    ServiceBook.occurs (w_book w') k x = ServiceBook.occurs (w_book w) k x
}.

Lemma exp_frame_refl w : frame w w.
Proof. split; try done. by left. Qed.

Lemma exp_frame_trans w1 w2 w3 : frame w1 w2 -> frame w2 w3 -> frame w1 w3.
Proof.
  intros [A1 A2 A3 A4 A5 A6] [B1 B2 B3 B4 B5 B6]. split; [lia|congruence|congruence|congruence| |].
  - intros x [[H|H]%A5|H]%B5; [by left|right; lia|right; lia].
  - intros k x Hn Hx. rewrite B6, A6; [done|done|lia| |lia]. intros [H|H]%A5; [done|lia].
Qed.

Lemma unlisten_services l : forall b k x, x ∉ l.*1 ->
  ServiceBook.occurs (fold_left unlisten_service l b) k x = ServiceBook.occurs b k x.
Proof.
  induction l as [|[y s] l IH]; intros b k x Hx; cbn [fold_left]; [done|].
  cbn [fmap list_fmap fst] in Hx. apply not_elem_of_cons in Hx as [Hne Hx]. rewrite IH by done.
  unfold unlisten_service. cbn [fst snd]. rewrite ServiceBook.occurs_unlisten, decide_False; [lia|tauto].
Qed.

Lemma exp_remove_frame w id a : w_applied w !! id = Some a -> frame w (remove_exp w (id, a)).
Proof.
  intros E. unfold remove_exp. split; cbn [w_heap w_applied w_book fst snd]; try done.
  - intros x (j & b & Hb & Hx). cbn [w_applied] in Hb. apply lookup_delete_Some in Hb as [_ Hb]. left. by exists j, b.
  - intros k x Hn _. apply unlisten_services. intros H. apply Hn. by exists id, a.
Qed.

Lemma listen_services_spec l : forall h b h' b' svc, listen_services h b l = (h', b', svc) ->
  next h <= next h' /\ ba_objects h' = ba_objects h /\ kpi_objects h' = kpi_objects h /\ meta_objects h' = meta_objects h
  /\ (forall x, x ∈ svc.*1 -> next h <= x < next h')
  /\ forall k x, x < next h \/ next h' <= x -> ServiceBook.occurs b' k x = ServiceBook.occurs b k x.
Proof.
  induction l as [|s l IH]; intros h b h' b' svc E; cbn [listen_services] in E.
  { injection E as <- <- <-. repeat (split; [done|]). split; [|done]. intros x []%elem_of_nil. }
  destruct (listen_services (bump h) _ l) as [[h1 b1] svc1] eqn:E1. injection E as <- <- <-.
  apply IH in E1 as (H1 & H2 & H3 & H4 & H5 & H6). cbn [bump next] in *. split; [lia|].
  split; [done|]. split; [done|]. split; [done|]. split.
  - intros x [->|H]%elem_of_cons; cbn [fst]; [lia|]. specialize (H5 x H). lia.
  - intros k x Hx. rewrite H6 by lia. rewrite ServiceBook.occurs_listen, decide_False; lia.
Qed.

Lemma exp_create_frame w p w' : create_exp w p = Returns w' -> frame w w'.
Proof.
  unfold create_exp. destruct (ExpBuilder.compile _ _ _) as [b|e|]; [|intros [= <-]; apply exp_frame_refl|done].
  destruct (listen_services _ _ _) as [[h book] svc'] eqn:E. intros [= <-].
  apply listen_services_spec in E as (H1 & H2 & H3 & H4 & H5 & H6). cbn [bump next] in *.
  split; cbn [w_heap w_applied w_book]; [lia|done..| |].
  - intros x (j & a & Ha & Hx). cbn [w_applied] in Ha.
    apply lookup_insert_Some in Ha as [[<- <-]|[_ Ha]]; [right; specialize (H5 x Hx); lia|]. left. by exists j, a.
  - intros k x _ Hx. apply H6. lia.
Qed.

Lemma apply_frame w my_bools w' : apply w my_bools = Returns w' -> frame w w'.
Proof.
  unfold apply. destruct (diff_recreate _ _ _ _) as [d c] eqn:Ed. apply diff_recreate_spec in Ed as [Hd _].
  assert (Hr : forall l w0, NoDup l.*1 -> (forall k a, (k, a) ∈ l -> w_applied w0 !! k = Some a) ->
    frame w0 (fold_left remove_exp l w0)).
  { induction l as [|[k a] l IH]; intros w0 Hl Hin; cbn [fold_left]; [apply exp_frame_refl|].
    cbn [fmap list_fmap fst] in Hl. apply NoDup_cons in Hl as [Hk Hl].
    eapply exp_frame_trans; [apply (exp_remove_frame _ k a), Hin; by left|]. apply IH; [done|].
    intros k' a' H. cbn [remove_exp w_applied fst]. rewrite lookup_delete_ne; [apply Hin; by right|].
    intros ->. apply Hk. by apply (list_elem_of_fmap_2 fst) in H. }
  assert (Hc : forall l w0, create_exps w0 l = Returns w' -> frame w0 w').
  { induction l as [|p l IH]; intros w0 E; cbn [create_exps] in E; [injection E as <-; apply exp_frame_refl|].
    apply bind_Returns in E as (w1 & E1 & E2). eapply exp_frame_trans; [by eapply exp_create_frame|]. by apply IH. }
  intros E. eapply exp_frame_trans; [|by apply (Hc (items c))]. apply Hr; [apply items_NoDup|].
  intros k a H%elem_of_items. rewrite Hd in H. destruct (my_bools !! k); [|done]. by destruct (unchanged _ _ _ _).
Qed.

(** Nothing but a text the parser never ends on keeps expressions from being applied. *)
Lemma apply_total w my_bools :
  (forall id e, my_bools !! id = Some e -> ExpBuilder.compile fuel mapping (e_expression e) <> Diverges) ->
  exists w', apply w my_bools = Returns w'.
Proof.
  intros Hr. unfold apply. destruct (diff_recreate _ _ _ _) as [d c] eqn:Ed. apply diff_recreate_spec in Ed as [_ Hc].
  assert (Hl : forall k e, (k, e) ∈ items c -> ExpBuilder.compile fuel mapping (e_expression e) <> Diverges).
  { intros k e H%elem_of_items. rewrite Hc in H. destruct (my_bools !! k) eqn:E; [|done].
    destruct (unchanged _ _ _ _); [done|]. injection H as <-. by apply (Hr k). }
  generalize (fold_left remove_exp (items d) w) as w0. revert Hl. generalize (items c) as l.
  induction l as [|[k e] l IH]; intros Hl w0; cbn [create_exps]; [by exists w0|].
  assert (H1 : exists w1, create_exp w0 (k, e) = Returns w1).
  { unfold create_exp. cbn [snd]. specialize (Hl k e ltac:(by left)).
    destruct (ExpBuilder.compile _ _ _); [destruct (listen_services _ _ _) as [[? ?] ?]; eauto|eauto|done]. }
  destruct H1 as [w1 ->]. cbn [mbind outcome_bind]. apply IH. intros k' e' H. apply (Hl k'). by right.
Qed.

(** ** Which expressions are applied *)

(** What an expression is made into. *)
Record built (e : bool_expression) (b : ExpBuilder.exp_builder) (a : applied) : Prop := Built {
  b_cfg : cfg a = e;
  b_tree : tree a = ExpBuilder._tree b;
  b_impact_if : impact_if a = e_impact_if e;
  b_services : (svc a).*2 = ExpBuilder.get_services b
}.

Definition made w (id : Z) (e : bool_expression) : Prop :=
  match ExpBuilder.compile fuel mapping (e_expression e) with
  | Returns b => exists a, w_applied w !! id = Some a /\ built e b a
  | _ => w_applied w !! id = None
  end.

Definition same_as (a : option applied) (e : bool_expression) : bool :=
  match a with Some a => bool_expression_eqb (cfg a) e | None => false end.

(** An expression that did not change is kept, another one is made anew. *)
Definition applied_as w w' (my_bools : gmap Z bool_expression) (id : Z) : Prop :=
  match my_bools !! id with
  | Some e => if same_as (w_applied w !! id) e then w_applied w' !! id = w_applied w !! id else made w' id e
  | None => w_applied w' !! id = None
  end.

Lemma listen_services_list l : forall h b, (listen_services h b l).2.*2 = l.
Proof.
  induction l as [|s l IH]; intros h b; cbn [listen_services]; [done|]. specialize (IH (bump h)
    (ServiceBook.listen b (BoolValue._host_id s) (BoolValue._service_id s) (next h))).
  destruct (listen_services _ _ l) as [[h' b'] svc']. cbn [snd fmap list_fmap] in *. by rewrite IH.
Qed.

Lemma create_exp_applied w k e w' : w_applied w !! k = None -> create_exp w (k, e) = Returns w' ->
  made w' k e /\ forall j, j <> k -> w_applied w' !! j = w_applied w !! j.
Proof.
  intros Hn. unfold create_exp, made. cbn [fst snd]. destruct (ExpBuilder.compile _ _ _) as [b|x|]; [|by intros [= <-]|done].
  pose proof (listen_services_list (ExpBuilder.get_services b) (bump (w_heap w)) (w_book w)) as Hl.
  destruct (listen_services _ _ _) as [[h book] svc']. intros [= <-]. cbn [w_applied snd] in *. split.
  - eexists. rewrite lookup_insert_eq. by split.
  - intros j Hj. by rewrite lookup_insert_ne.
Qed.

Lemma create_exps_applied l : forall w w', NoDup l.*1 -> (forall k e, (k, e) ∈ l -> w_applied w !! k = None) ->
  create_exps w l = Returns w' ->
  (forall k e, (k, e) ∈ l -> made w' k e) /\ forall k, k ∉ l.*1 -> w_applied w' !! k = w_applied w !! k.
Proof.
  induction l as [|[k e] l IH]; intros w w' Hl Hn E; cbn [create_exps] in E.
  { injection E as <-. split; [|done]. intros ? ? []%elem_of_nil. }
  apply bind_Returns in E as (w1 & E1 & E2). cbn [fmap list_fmap fst] in Hl. apply NoDup_cons in Hl as [Hk Hl].
  apply create_exp_applied in E1 as [M1 O1]; [|apply (Hn k e); by left].
  assert (Hne : forall k' e', (k', e') ∈ l -> k' <> k) by (intros k' e' H ->; by apply Hk, (list_elem_of_fmap_2 fst _ _ H)).
  destruct (IH w1 w' Hl) as [M2 O2]; [|done|].
  { intros k' e' H. rewrite O1 by by eapply Hne. apply (Hn k' e'). by right. }
  split.
  - intros k' e' [Heq|H]%elem_of_cons; [|by apply M2]. injection Heq as -> ->. revert M1. unfold made.
    by rewrite (O2 k).
  - intros k' [Hk' Hl']%not_elem_of_cons. by rewrite O2, O1.
Qed.

Lemma remove_exps_applied l : forall w k,
  w_applied (fold_left remove_exp l w) !! k = if decide (k ∈ l.*1) then None else w_applied w !! k.
Proof.
  induction l as [|[j a] l IH]; intros w k; cbn [fold_left]; [by rewrite decide_False by apply not_elem_of_nil|].
  rewrite IH. cbn [remove_exp w_applied fmap list_fmap fst]. destruct (decide (k = j)) as [->|Hne].
  - rewrite lookup_delete_eq. rewrite (decide_True (P := j ∈ j :: _)) by by left. by case_decide.
  - rewrite lookup_delete_ne by done. destruct (decide (k ∈ l.*1)).
    + by rewrite decide_True by by right.
    + rewrite decide_False; [done|]. by apply not_elem_of_cons.
Qed.

Lemma apply_applied w my_bools w' : apply w my_bools = Returns w' -> forall id, applied_as w w' my_bools id.
Proof.
  unfold apply. destruct (diff_recreate _ _ _ _) as [d c] eqn:Ed. apply diff_recreate_spec in Ed as [Hd Hc]. intros E id.
  assert (Hu : forall k e, unchanged cfg (fun a b => negb (bool_expression_eqb a b)) (w_applied w !! k) e = same_as (w_applied w !! k) e).
  { intros k e. destruct (w_applied w !! k); [|done]. apply negb_involutive. }
  assert (H1 : forall k, w_applied (fold_left remove_exp (items d) w) !! k = if d !! k then None else w_applied w !! k).
  { intros k. rewrite remove_exps_applied. destruct (d !! k) as [a|] eqn:Ek.
    - rewrite decide_True; [done|]. apply list_elem_of_fmap. exists (k, a). by rewrite elem_of_items.
    - rewrite decide_False; [done|]. intros ([k' a] & -> & H%elem_of_items)%list_elem_of_fmap. cbn in Ek. congruence. }
  assert (Hn : forall k e, (k, e) ∈ items c -> w_applied (fold_left remove_exp (items d) w) !! k = None /\ made w' k e).
  { destruct (create_exps_applied (items c) (fold_left remove_exp (items d) w) w' (items_NoDup c)) as [M _]; [|exact E|].
    - intros k e H%elem_of_items. rewrite H1, Hd. rewrite Hc in H. destruct (my_bools !! k); [|done].
      destruct (unchanged _ _ _ _); [done|]. by destruct (w_applied w !! k).
    - intros k e H. split; [|by apply M]. apply elem_of_items in H. rewrite H1, Hd. rewrite Hc in H.
      destruct (my_bools !! k); [|done]. destruct (unchanged _ _ _ _); [done|]. by destruct (w_applied w !! k). }
  destruct (create_exps_applied (items c) (fold_left remove_exp (items d) w) w' (items_NoDup c)) as [_ O];
    [intros k e H; by apply (Hn k e)|exact E|].
  unfold applied_as. specialize (Hd id). specialize (Hc id). specialize (H1 id). specialize (Hn id). specialize (O id).
  assert (Ho : c !! id = None -> w_applied w' !! id = if d !! id then None else w_applied w !! id).
  { intros Hx. rewrite O, H1; [done|]. intros ([k' e] & -> & H%elem_of_items)%list_elem_of_fmap. cbn in Hx. congruence. }
  destruct (my_bools !! id) as [e|]; [rewrite Hu in Hd, Hc; destruct (same_as (w_applied w !! id) e)|].
  - by rewrite Ho, Hd.
  - apply (Hn e). by apply elem_of_items.
  - rewrite Ho, Hd by done. by destruct (w_applied w !! id).
Qed.

End Apply.
End BoolApplier.

(** ** The whole state *)

Module BamState.
Import Ordered BamConfig BamHeap.

Record state : Type := State {
  s_heap : heap;
  s_bas : gmap Z BaApplier.applied;
  s_metas : gmap Z MetaApplier.applied;
  s_exps : gmap Z BoolApplier.applied;
  s_kpis : gmap Z KpiApplier.applied;
  s_book_service : ServiceBook.book;
  s_book_metric : MetaService.book;
  s_published : list published
}.
Implicit Types st : state.

(** What each applier is given. *)
Definition ba_world st : BaApplier.world := BaApplier.World (s_heap st) (s_bas st) (s_book_service st) (s_published st).
Definition meta_world st : MetaApplier.world :=
  MetaApplier.World (s_heap st) (s_metas st) (s_book_metric st) (s_published st).
Definition exp_world st : BoolApplier.world := BoolApplier.World (s_heap st) (s_exps st) (s_book_service st).
Definition kpi_world st : KpiApplier.world :=
  KpiApplier.World (s_heap st) (s_kpis st) (s_book_service st) (s_published st).

Definition with_ba st (w : BaApplier.world) : state :=
  State (BaApplier.w_heap w) (BaApplier.w_applied w) (s_metas st) (s_exps st) (s_kpis st) (BaApplier.w_book w)
    (s_book_metric st) (BaApplier.w_published w).
Definition with_meta st (w : MetaApplier.world) : state :=
  State (MetaApplier.w_heap w) (s_bas st) (MetaApplier.w_applied w) (s_exps st) (s_kpis st) (s_book_service st)
    (MetaApplier.w_book w) (MetaApplier.w_published w).
Definition with_exp st (w : BoolApplier.world) : state :=
  State (BoolApplier.w_heap w) (s_bas st) (s_metas st) (BoolApplier.w_applied w) (s_kpis st) (BoolApplier.w_book w)
    (s_book_metric st) (s_published st).
Definition with_kpi st (w : KpiApplier.world) : state :=
  State (KpiApplier.w_heap w) (s_bas st) (s_metas st) (s_exps st) (KpiApplier.w_applied w) (KpiApplier.w_book w)
    (s_book_metric st) (KpiApplier.w_published w).

Definition find_ba st : Z -> option Z := BaApplier.find_ba (ba_world st).
Definition find_meta st : Z -> option Z := MetaApplier.find_meta (meta_world st).
Definition find_boolexp st : Z -> option Z := BoolApplier.find_boolexp (exp_world st).

(** The members of the worlds made from a state. *)
Ltac members :=
  cbn [with_ba with_meta with_exp with_kpi ba_world meta_world kpi_world exp_world s_heap s_bas s_metas s_exps s_kpis
       s_book_service s_book_metric s_published BaApplier.w_heap BaApplier.w_applied BaApplier.w_book MetaApplier.w_heap
       MetaApplier.w_applied MetaApplier.w_book KpiApplier.w_heap KpiApplier.w_applied KpiApplier.w_book BoolApplier.w_heap
       BoolApplier.w_applied BoolApplier.w_book] in *.

Section Apply.
(** The time, the poller, the fuel of the tokenizer and the orders of std::set
    and std::unordered_map. *)
Context (now poller_id : Z) (fuel : nat) (targets_order : gset cstring -> list cstring)
  (nodes_order : gmap cstring BamGraph.circular_check_node -> list cstring).

Definition apply_kpis st (my_state : BamConfig.state) : outcome state :=
  w ← KpiApplier.apply now (find_ba st) (find_meta st) (find_boolexp st) (mapping my_state) (kpi_world st) (kpis my_state);
  Returns (with_kpi st w).

Definition apply st (my_state : BamConfig.state) : outcome state :=
  _ ← BamGraph._circular_check fuel targets_order nodes_order my_state;
  let st := with_ba st (BaApplier.apply now poller_id (ba_world st) (bas my_state)) in
  let st := with_meta st (MetaApplier.apply now poller_id (meta_world st) (meta_services my_state)) in
  w ← BoolApplier.apply fuel (mapping my_state) (exp_world st) (bool_exps my_state);
  apply_kpis (with_exp st w) my_state.

(** ** What holds between two configurations *)

(** What each applier keeps, and that no two objects have the same address. *)
Record wf st : Prop := Wf {
  wf_ba : BaApplier.wf (ba_world st);
  wf_meta : MetaApplier.wf (meta_world st);
  wf_kpi : KpiApplier.wf (find_ba st) (kpi_world st);
  wf_apart : forall x, is_Some (ba_objects (s_heap st) !! x) -> kpi_objects (s_heap st) !! x = None;
  wf_owned : forall x, BoolApplier.owned (exp_world st) x ->
    x < next (s_heap st) /\ ba_objects (s_heap st) !! x = None /\ kpi_objects (s_heap st) !! x = None
}.

Lemma find_ba_inj st : wf st -> forall i j b, find_ba st i = Some b -> find_ba st j = Some b -> i = j.
Proof.
  intros W i j b Hi Hj. unfold find_ba, BaApplier.find_ba in *. apply fmap_Some in Hi as (a & Ha & ->), Hj as (a' & Ha' & Ho).
  by apply (BaApplier.wf_inj _ (wf_ba st W) i j a a').
Qed.

Lemma apply_ba_wf st my_bas : wf st -> BaApplier.keyed my_bas ->
  wf (with_ba st (BaApplier.apply now poller_id (ba_world st) my_bas)).
Proof.
  intros W Hk. destruct (BaApplier.ba_apply_ok now poller_id _ my_bas (wf_ba st W) Hk) as (Wb & F & _).
  set (w := BaApplier.apply now poller_id (ba_world st) my_bas) in *. destruct F as [F1 F2 F3 F4 F5 F6].
  pose proof (BaApplier.wf_next _ (wf_ba st W)) as Hbn. pose proof (KpiApplier.wf_next _ _ (wf_kpi st W)) as Hkn.
  members.
  assert (Hba : forall x, is_Some (ba_objects (BaApplier.w_heap w) !! x) ->
    next (s_heap st) <= x \/ is_Some (ba_objects (s_heap st) !! x)).
  { intros x [o H]. destruct (F4 x o H) as [[H' _]|(o0 & H' & _)]; [by left|right; by eexists]. }
  split; members.
  - by destruct w.
  - by apply (MetaApplier.meta_frame_wf (meta_world st)); [apply wf_meta| |].
  - apply (KpiApplier.kpi_frame_wf (find_ba st) _ (kpi_world st)); members; [apply W|done| | | | |].
    + intros x. by rewrite F2.
    + intros k x Hx. apply F5; [by apply Hkn|]. apply eq_None_not_Some. intros H. apply (wf_apart st W) in H. rewrite H in Hx. by destruct Hx.
    + apply (BaApplier.wf_book_next _ Wb).
    + intros i b Hb. apply fmap_Some in Hb as (a & Ha & ->). destruct (BaApplier.wf_object _ Wb i a Ha) as (_ & o & Ho & _). by exists o.
    + intros i b o x Hb Ho Hx. apply fmap_Some in Hb as (a & Ha & ->). cbn in Ha.
      destruct (F4 _ o Ho) as [[_ H]|(o0 & Ho0 & _ & H)]; [rewrite H in Hx; by apply elem_of_nil in Hx|].
      specialize (Hbn (BaApplier.obj a) ltac:(by eexists)).
      destruct (F6 i a Ha) as [(a0 & Ha0 & Heq)|H']; [|lia]. split; [|exists o0; by rewrite <-H].
      unfold find_ba, BaApplier.find_ba. cbn. rewrite Ha0. cbn. by rewrite Heq.
  - intros x Hx. rewrite F2. apply Hba in Hx as [Hx|Hx]; [|by apply W].
    apply eq_None_not_Some. intros H. specialize (Hkn x H). lia.
  - intros x Hx. destruct (wf_owned st W x Hx) as (H1 & H2 & H3). rewrite F2. split; [lia|]. split; [|done].
    apply eq_None_not_Some. intros H. apply Hba in H as [H|H]; [lia|]. rewrite H2 in H. by destruct H.
Qed.

Lemma apply_meta_wf st my_metas : wf st -> MetaApplier.keyed my_metas ->
  wf (with_meta st (MetaApplier.apply now poller_id (meta_world st) my_metas)).
Proof.
  intros W Hk. destruct (MetaApplier.meta_apply_ok now poller_id _ my_metas (wf_meta st W) Hk) as (Wm & _).
  destruct (MetaApplier.apply_keeps_others now poller_id (meta_world st) my_metas) as (F1 & F2 & F3).
  set (w := MetaApplier.apply now poller_id (meta_world st) my_metas) in *.
  pose proof (BaApplier.wf_book_next _ (wf_ba st W)) as Hn. members.
  split; members.
  - apply (BaApplier.ba_frame_wf (ba_world st)); members; [apply W|done| | |done|].
    + intros x. by rewrite F2.
    + intros x o o'. rewrite F2. intros. by simplify_eq.
    + intros k x Hx. apply Hn. lia.
  - by destruct w.
  - apply (KpiApplier.kpi_frame_wf (find_ba st) _ (kpi_world st)); members; [apply W|done| |done| | |].
    + intros x. by rewrite F3.
    + intros k x Hx. apply Hn. lia.
    + intros i b Hb. rewrite F2. by apply (KpiApplier.wf_bas _ _ (wf_kpi st W) i).
    + intros i b o x Hb. rewrite F2. intros Ho Hx. split; [done|by exists o].
  - intros x. rewrite F2, F3. apply W.
  - intros x Hx. destruct (wf_owned st W x Hx) as (H1 & H2 & H3). rewrite F2, F3. split; [lia|done].
Qed.

Lemma apply_exp_wf st m my_bools w : wf st -> BoolApplier.apply fuel m (exp_world st) my_bools = Returns w ->
  wf (with_exp st w).
Proof.
  intros W E. apply BoolApplier.apply_frame in E as [F1 F2 F3 F4 F5 F6].
  pose proof (BaApplier.wf_book_next _ (wf_ba st W)) as Hn. members.
  pose proof (BaApplier.wf_next _ (wf_ba st W)) as Hbn. pose proof (KpiApplier.wf_next _ _ (wf_kpi st W)) as Hkn.
  members.
  assert (Hn' : forall k x, next (BoolApplier.w_heap w) <= x -> ServiceBook.occurs (BoolApplier.w_book w) k x = 0%nat).
  { intros k x Hx. rewrite F6; [apply Hn; lia| |lia]. intros H. destruct (wf_owned st W x H). lia. }
  split; members.
  - apply (BaApplier.ba_frame_wf (ba_world st)); members; [apply W|done| | | |done].
    + intros x. by rewrite F2.
    + intros x o o'. rewrite F2. intros. by simplify_eq.
    + intros k x Hx. apply F6; [|left; by apply Hbn]. intros H. destruct (wf_owned st W x H) as (_ & H' & _).
      rewrite H' in Hx. by destruct Hx.
  - by apply (MetaApplier.meta_frame_wf (meta_world st)); [apply W| |].
  - apply (KpiApplier.kpi_frame_wf (find_ba st) _ (kpi_world st)); members; [apply W|done| | |done| |].
    + intros x. by rewrite F3.
    + intros k x Hx. apply F6; [|left; by apply Hkn]. intros H. destruct (wf_owned st W x H) as (_ & _ & H').
      rewrite H' in Hx. by destruct Hx.
    + intros i b Hb. rewrite F2. by apply (KpiApplier.wf_bas _ _ (wf_kpi st W) i).
    + intros i b o x Hb. rewrite F2. intros Ho Hx. split; [done|by exists o].
  - intros x. rewrite F2, F3. apply W.
  - intros x Hx. rewrite F2, F3. destruct w as [h applied book]. cbn in *. apply F5 in Hx as [Hx|Hx].
    + destruct (wf_owned st W x Hx) as (H1 & H2 & H3). split; [lia|done].
    + split; [lia|]. split; apply eq_None_not_Some; intros H; [specialize (Hbn x H)|specialize (Hkn x H)]; lia.
Qed.

Lemma apply_kpi_wf st w : wf st ->
  KpiApplier.wf (find_ba st) w -> KpiApplier.frame (kpi_world st) w -> wf (with_kpi st w).
Proof.
  intros W Wk F. destruct F as [F1 F2 F3 F4 F5 F6]. pose proof (BaApplier.wf_next _ (wf_ba st W)) as Hbn.
  pose proof (KpiApplier.wf_next _ _ (wf_kpi st W)) as Hkn. members.
  assert (Hkpi : forall x, x < next (s_heap st) -> kpi_objects (s_heap st) !! x = None ->
    kpi_objects (KpiApplier.w_heap w) !! x = None).
  { intros x Hx Hn. apply eq_None_not_Some. rewrite F3 by done. rewrite Hn. by intros [? ?]. }
  split; members.
  - apply (BaApplier.ba_frame_wf (ba_world st)); members; [apply W|done|done| | |apply Wk].
    { intros x o o' Ho Ho'. apply KpiApplier.settings_kept, (F5 x); done. }
    intros k x Hx. apply F6; [by apply Hbn|]. by apply W.
  - by apply (MetaApplier.meta_frame_wf (meta_world st)); [apply W| |].
  - by destruct w.
  - intros x Hx. rewrite F4 in Hx. apply Hkpi; [by apply Hbn|]. by apply W.
  - intros x Hx. destruct (wf_owned st W x Hx) as (H1 & H2 & H3). split; [lia|]. split; [|by apply Hkpi].
    apply eq_None_not_Some. rewrite F4, H2. by intros [? ?].
Qed.

Definition all_valid st : Prop := forall i, KpiApplier.valid (find_ba st) (kpi_world st) i.

Lemma apply_ba_valid st my_bas : wf st -> BaApplier.keyed my_bas ->
  all_valid (with_ba st (BaApplier.apply now poller_id (ba_world st) my_bas)).
Proof.
  intros W Hk. destruct (BaApplier.ba_apply_ok now poller_id _ my_bas (wf_ba st W) Hk) as (_ & _ & A).
  set (w := BaApplier.apply now poller_id (ba_world st) my_bas) in *.
  intros i b o Hb Ho. unfold find_ba, BaApplier.find_ba in Hb. members. apply fmap_Some in Hb as (a & Ha & ->).
  specialize (A i). destruct (my_bas !! i) as [c|]; [|congruence]. destruct A as (a' & o' & [Ha' _ Ho' Hv _ _ _]).
  congruence.
Qed.

(** What is asked of a configuration: activities and meta-services under their
    own identifiers, meta-services with metrics only, no indicator that has a
    service and follows something else, and a fuel in proportion to the texts of
    its expressions. *)
Record acceptable (my_state : BamConfig.state) : Prop := Acceptable {
  acc_bas : BaApplier.keyed (bas my_state);
  acc_metas : MetaApplier.keyed (meta_services my_state);
  acc_plain : BamGraph.plain_metas my_state;
  acc_cast : KpiApplier.well_cast (kpis my_state);
  acc_fuel : BamGraph.enough_fuel fuel my_state
}.

(** The indicators asked for, the activities with an indicator that follows
    nothing and those with one that cannot be resolved, once the other appliers
    are done. *)
Definition wanted st (my_state : BamConfig.state) (id : Z) (c : kpi) : Prop :=
  KpiApplier.wanted (mapping my_state) (kpi_world st) (kpis my_state) id c.
Definition spoiled st (my_state : BamConfig.state) (ba_id : Z) : Prop :=
  exists id, KpiApplier.spoiled (mapping my_state) (kpi_world st) (kpis my_state) ba_id id.
Definition broken st st' (my_state : BamConfig.state) (ba_id : Z) : Prop :=
  KpiApplier.broken (find_ba st') (find_meta st') (find_boolexp st') (mapping my_state) (kpi_world st) (kpis my_state) ba_id.

(** The object of an activity of the configuration: what the configuration sets,
    what it keeps from before or was made with, its one service, its impacts. *)
Record ba_applied st st' (my_state : BamConfig.state) (id : Z) (c : ba) (a : BaApplier.applied) (o : ba_object) : Prop := Ba_applied {
  a_applied : s_bas st' !! id = Some a;
  a_same : BaApplier.cfg a = c \/ ba_eqb (BaApplier.cfg a) c = true;
  a_object : ba_objects (s_heap st') !! BaApplier.obj a = Some o;
  a_shows : BaApplier.shows (BaApplier.cfg a) o;
  a_before : match s_bas st !! id with
             | Some a0 => BaApplier.obj a = BaApplier.obj a0
                 /\ exists o0, ba_objects (s_heap st) !! BaApplier.obj a0 = Some o0 /\ BaApplier.kept o0 o
             | None => BaApplier.made c o
             end;
  a_listens : forall k, ServiceBook.occurs (s_book_service st') k (BaApplier.obj a)
                        = (if decide (k = BaApplier.own_service o) then 1 else 0)%nat;
  a_valid : bo_valid o = true <-> ~ spoiled st my_state id /\ ~ broken st st' my_state id;
  a_impacts : forall x, x ∈ bo_impacts o
      <-> exists i k, s_kpis st' !! i = Some k /\ KpiApplier.obj k = x /\ k_ba_id (KpiApplier.cfg k) = id
}.

(** The object of a meta-service of the configuration. *)
Record meta_applied st st' (id : Z) (c : meta_service) (a : MetaApplier.applied) (o : MetaService.meta_service) : Prop := Meta_applied {
  t_applied : s_metas st' !! id = Some a;
  t_same : MetaApplier.cfg a = c \/ meta_service_eqb (MetaApplier.cfg a) c = true;
  t_object : meta_objects (s_heap st') !! MetaApplier.obj a = Some o;
  t_shows : MetaApplier.shows (MetaApplier.cfg a) o;
  t_listens : forall k, MetaApplier.occurs (s_book_metric st') k (MetaApplier.obj a) = MetaApplier.named (MetaApplier.cfg a) k;
  t_before : forall a0, s_metas st !! id = Some a0 -> MetaApplier.obj a = MetaApplier.obj a0
}.

Definition exp_applied st st' (my_state : BamConfig.state) (id : Z) : Prop :=
  BoolApplier.applied_as fuel (mapping my_state) (exp_world st) (exp_world st') (bool_exps my_state) id.

(** The appliers before the indicators. *)
Lemma apply_objects st my_state : wf st -> acceptable my_state -> exists w,
  let st1 := with_ba st (BaApplier.apply now poller_id (ba_world st) (bas my_state)) in
  let st2 := with_meta st1 (MetaApplier.apply now poller_id (meta_world st1) (meta_services my_state)) in
  let st3 := with_exp st2 w in
  BoolApplier.apply fuel (mapping my_state) (exp_world st2) (bool_exps my_state) = Returns w
  /\ wf st3 /\ all_valid st3 /\ ba_objects (s_heap st3) = ba_objects (s_heap st1)
  /\ meta_objects (s_heap st3) = meta_objects (s_heap st2)
  /\ forall id, exp_applied st st3 my_state id.
Proof.
  intros W [Hb Hm _ _ Hr]. pose proof (apply_ba_wf st (bas my_state) W Hb) as W1. pose proof (apply_ba_valid st (bas my_state) W Hb) as V1.
  set (st1 := with_ba st _) in *. pose proof (apply_meta_wf st1 _ W1 Hm) as W2.
  destruct (MetaApplier.apply_keeps_others now poller_id (meta_world st1) (meta_services my_state)) as (_ & E2 & _).
  set (st2 := with_meta st1 _) in *. change (ba_objects (s_heap st2) = ba_objects (s_heap st1)) in E2.
  destruct (BoolApplier.apply_total fuel (mapping my_state) (exp_world st2) (bool_exps my_state)) as [w Ew].
  { intros id e He. apply ExpBuilder.compile_ends. by apply (Hr id). }
  exists w. cbn zeta. pose proof (apply_exp_wf st2 _ _ _ W2 Ew) as W3. pose proof (BoolApplier.apply_applied _ _ _ _ _ Ew) as A3.
  pose proof (BoolApplier.apply_frame _ _ _ _ _ Ew) as [_ E3 _ E4 _ _]. set (st3 := with_exp st2 w) in *.
  change (ba_objects (s_heap st3) = ba_objects (s_heap st2)) in E3.
  assert (E31 : ba_objects (s_heap st3) = ba_objects (s_heap st1)) by by rewrite E3.
  split; [done|]. split; [done|]. split; [|split; [done|split; [exact E4|exact A3]]].
  intros i b o Hi Ho. apply (V1 i b o); [done|]. change (ba_objects (s_heap st3) !! b = Some o) in Ho. by rewrite E31 in Ho.
Qed.

Definition impacts_are st' (i : Z) (o : ba_object) : Prop := forall x, x ∈ bo_impacts o
  <-> exists id a, s_kpis st' !! id = Some a /\ KpiApplier.obj a = x /\ k_ba_id (KpiApplier.cfg a) = i.

Lemma ba_applied_ok st st' my_state wb id c a o1 :
  BaApplier.mirrors (ba_world st) wb id c a o1 -> wf st' -> s_bas st' = BaApplier.w_applied wb ->
  (forall x o o', ba_objects (BaApplier.w_heap wb) !! x = Some o -> ba_objects (s_heap st') !! x = Some o' ->
    KpiApplier.settings o' = KpiApplier.settings o) ->
  (forall i b, find_ba st' i = Some b -> exists o, ba_objects (s_heap st') !! b = Some o
    /\ (bo_valid o = true <-> ~ spoiled st my_state i /\ ~ broken st st' my_state i) /\ impacts_are st' i o) ->
  exists o, ba_applied st st' my_state id c a o.
Proof.
  intros [M1 M2 M3 M4 M5 M6 M7] W' Ea Hs Hb. rewrite <-Ea in M1.
  assert (Hf : find_ba st' id = Some (BaApplier.obj a)) by (unfold find_ba, BaApplier.find_ba; members; by rewrite M1).
  destruct (Hb id _ Hf) as (o & Ho & Hv & Hi). exists o. specialize (Hs _ _ _ M3 Ho).
  destruct (KpiApplier.settings_kept _ _ Hs) as [_ Hsh], (KpiApplier.settings_before _ _ Hs) as [Hk Hm].
  split; [done|done|done|by apply Hsh| | |done|done].
  - members. destruct (s_bas st !! id) as [a0|]; [|by apply Hm, M7]. destruct M7 as [Hob (o0 & Ho0 & Hk0 & _)].
    split; [done|]. exists o0. split; [done|]. by apply Hk.
  - intros k. by apply (BaApplier.wf_listens _ (wf_ba st' W') id a o k).
Qed.

(** C21. A configuration with a loop is refused with an exception. Any other one
    is applied to the end. The applied activities, meta-services and boolean
    expressions are then exactly those of the configuration, less the
    expressions whose text is not accepted. Each activity has its name, its
    source and its levels and listens once to its own service, each meta-service
    its properties and listens to the metrics it names, the ones that were
    applied before on the same objects; an expression that did not change is
    kept and another one is what its text compiles to. The applied indicators
    are those asked for whose activity has none that cannot be resolved; an
    activity is valid exactly when it has none of these and no new one that
    follows nothing, and its impacts are exactly its applied indicators. What
    held of the objects, of their addresses and of the book of services holds
    again. *)
Theorem apply_state st my_state
  (targets_order_spec : forall s x, x ∈ targets_order s <-> x ∈ s)
  (nodes_order_spec : forall g x, x ∈ nodes_order g <-> is_Some (g !! x)) :
  wf st -> acceptable my_state -> BamGraph.ids_unsigned fuel my_state ->
  (BamGraph.has_loop fuel my_state -> apply st my_state = Throws Exn_msg)
  /\ (~ BamGraph.has_loop fuel my_state ->
      exists st', apply st my_state = Returns st' /\ wf st'
      /\ (forall id, match bas my_state !! id with
                     | Some c => exists a o, ba_applied st st' my_state id c a o
                     | None => s_bas st' !! id = None
                     end)
      /\ (forall id, match meta_services my_state !! id with
                     | Some c => exists a o, meta_applied st st' id c a o
                     | None => s_metas st' !! id = None
                     end)
      /\ (forall id, exp_applied st st' my_state id)
      /\ forall id c, KpiApplier.cfg <$> s_kpis st' !! id = Some c
           <-> wanted st my_state id c /\ ~ broken st st' my_state (k_ba_id c)).
Proof.
  intros W Ha Hu. pose proof Ha as [Hb Hm Hp Hk Hr].
  destruct (BamGraph.circular_check_ok fuel targets_order nodes_order targets_order_spec my_state nodes_order_spec Hr Hp Hu) as [Hl Hn].
  unfold apply. split; [intros H; by rewrite (Hl H)|]. intros H. rewrite (Hn H). cbn [mbind outcome_bind].
  destruct (apply_objects st my_state W Ha) as (we & Ee & W3 & V3 & E31 & E32 & A3).
  destruct (BaApplier.ba_apply_ok now poller_id _ (bas my_state) (wf_ba st W) Hb) as (_ & _ & A1).
  pose proof (apply_ba_wf st (bas my_state) W Hb) as W1. set (st1 := with_ba st _) in *.
  destruct (MetaApplier.meta_apply_ok now poller_id _ (meta_services my_state) (wf_meta st1 W1) Hm) as [_ A2].
  set (st2 := with_meta st1 _) in *. rewrite Ee. cbn [mbind outcome_bind]. set (st3 := with_exp st2 we) in *. unfold apply_kpis.
  destruct (KpiApplier.kpi_apply_ok now (find_ba st3) (find_meta st3) (find_boolexp st3) (mapping my_state) (find_ba_inj st3 W3)
    (kpi_world st3) (kpis my_state) (wf_kpi st3 W3) Hk) as (w & -> & Wk & Fk & A4 & B4).
  cbn [mbind outcome_bind]. exists (with_kpi st3 w). pose proof (apply_kpi_wf st3 w W3 Wk Fk) as W4.
  split; [done|]. split; [done|]. split; [|split; [|split; [exact A3|exact A4]]].
  - intros id. specialize (A1 id). destruct (bas my_state !! id) as [c|]; [|exact A1]. destruct A1 as (a & o & M). exists a.
    apply (ba_applied_ok st _ my_state _ id c a o M W4 eq_refl).
    + intros x o1 o' Ho Ho'. apply (KpiApplier.f_settings _ _ Fk x); [|done].
      change (ba_objects (s_heap st3) !! x = Some o1). rewrite E31. exact Ho.
    + intros i b Hi. destruct (B4 i b Hi) as (o' & Ho' & Hv & Himp). exists o'. split; [done|]. split; [|exact Himp].
      rewrite Hv. unfold spoiled. specialize (V3 i). split; [intros (_ & Hs & ?); split; [|done]; by intros [j Hj%Hs]|].
      intros [Hs ?]. split; [done|]. split; [|done]. intros j Hj. apply Hs. by exists j.
  - intros id. specialize (A2 id). destruct (meta_services my_state !! id) as [c|]; [|exact A2].
    destruct A2 as (a & o & Ma & Ms & Mo & Msh & Ml & Mb). exists a, o. split; [done..| |done|done|done].
    change (meta_objects (KpiApplier.w_heap w) !! MetaApplier.obj a = Some o). rewrite (KpiApplier.f_metas _ _ Fk).
    change (meta_objects (s_heap st3) !! MetaApplier.obj a = Some o). by rewrite E32.
Qed.

(** Nothing applied. *)
Definition new_state : state := State (Heap 1 ∅ ∅ ∅ ∅) ∅ ∅ ∅ ∅ ∅ ∅ [].

Lemma new_state_wf : wf new_state.
Proof.
  split; try (split; cbn; intros; try done; by destruct H); try done. by intros x (? & ? & ? & ?).
Qed.

End Apply.

(** ** On an example *)

Import BamGraph.

(** Activity 1 has indicator 5, of expression 7; a second configuration gives
    it an indicator of a meta-service that does not exist. *)
Definition demo_text : string := "{web disk /} IS CRITICAL".
Definition demo_other : BamConfig.state :=
  BamConfig.State (bas (demo_state demo_text))
    (<[6 := Mk_kpi 6 1 0 0 1 0 9 0 0 0 false false false false (Dbl.of_Z 0) (Dbl.of_Z 0) (Dbl.of_Z 0) no_kpi_event]> (kpis (demo_state demo_text)))
    (bool_exps (demo_state demo_text)) ∅ ExpBuilder.demo_mapping.

Definition demo_view (s : outcome state) : outcome (list Z * list Z * option (bool * nat)) :=
  s ← s;
  Returns ((items (s_kpis s)).*1, (items (s_exps s)).*1,
           (fun o => (bo_valid o, length (bo_impacts o))) <$> ba_objects (s_heap s) !! 1).

Definition demo_apply (s : state) (c : BamConfig.state) : outcome state := apply 5 7 200 elements all_nodes s c.

(** The activity becomes invalid, and valid again when the first configuration is back. *)
Example demo_invalid_then_valid :
  demo_view (demo_apply new_state (demo_state demo_text)) = Returns ([5], [7], Some (true, 1%nat))
  /\ demo_view (s ← demo_apply new_state (demo_state demo_text); demo_apply s demo_other) = Returns ([], [7], Some (false, 0%nat))
  /\ demo_view (s ← demo_apply new_state (demo_state demo_text); s ← demo_apply s demo_other; demo_apply s (demo_state demo_text))
     = Returns ([5], [7], Some (true, 1%nat)).
Proof. by vm_compute. Qed.

Lemma apply_state_witness :
  apply 5 7 200 elements all_nodes new_state (demo_state "{web http} IS CRITICAL") = Throws Exn_msg
  /\ exists st', apply 5 7 200 elements all_nodes new_state (demo_state demo_text) = Returns st' /\ wf st'.
Proof.
  assert (Hacc : forall text, (length (str text) <= 24)%nat -> acceptable 200 (demo_state text)).
  { intros text Hl. split.
    - intros id c H. cbn in H. by apply lookup_singleton_Some in H as [<- <-].
    - done.
    - done.
    - intros id c H. cbn in H. by apply lookup_singleton_Some in H as [<- <-].
    - by apply demo_enough. }
  assert (Hs : services_of 200 ExpBuilder.demo_mapping (str demo_text) = Returns [BoolValue.new_service 1 11]) by by vm_compute.
  assert (Hu := demo_unsigned demo_text 11 ltac:(done) Hs).
  assert (L1 : (length (str "{web http} IS CRITICAL") <= 24)%nat) by (vm_compute; lia).
  assert (L2 : (length (str demo_text) <= 24)%nat) by (vm_compute; lia).
  split.
  - apply (apply_state 5 7 200 elements all_nodes new_state (demo_state "{web http} IS CRITICAL")
      (fun s x => elem_of_elements s x) all_nodes_spec new_state_wf (Hacc _ L1)
      (demo_unsigned _ 10 ltac:(done) demo_services)). exact demo_loop.
  - destruct (apply_state 5 7 200 elements all_nodes new_state (demo_state demo_text) (fun s x => elem_of_elements s x)
      all_nodes_spec new_state_wf (Hacc _ L2) Hu) as [_ H].
    assert (Hn : ~ has_loop 200 (demo_state demo_text)).
    { intros Hl. destruct (circular_check_ok 200 elements all_nodes (fun s x => elem_of_elements s x) (demo_state demo_text)
        all_nodes_spec (demo_enough _ L2) ltac:(done) Hu) as [H' _]. specialize (H' Hl). unfold demo_text in H'.
      by rewrite demo_no_loop in H'. }
    destruct (H Hn) as (st' & E & W & _). exists st'. split; [exact E|exact W].
Defined.

End BamState.
