(* ===== verification/LuaUtils.v ===== *)
(** * What scripts are given (lua/src/broker_utils.cc)

    The functions json_encode, json_decode and url_encode of the Lua module
    broker. The texts of JSON are read with a reader of its strings (RFC 8259),
    those of URLs with a reader of percent-encodings (RFC 3986); the theorems say
    what comes back of what is written. *)

From Stdlib Require Import ZArith Lia ZifyNat ZifyBool Strings.Byte Strings.String.
From stdpp Require Import base option list numbers strings gmap.
From S2P Require Import Prelude Misc Double Ba Events Perfdata.

Module LuaUtils.
Import Events.

(** ** Texts *)

(** A text given as a char const*. *)
Fixpoint c_str (s : cstring) : cstring :=
  match s with
  | [] => []
  | b :: s => if byte_eqb b x00 then [] else b :: c_str s
  end.

Definition backslash : byte := x5c.
Definition quote : byte := x22.
Definition tab : byte := x09.
Definition carriage_return : byte := x0d.
Definition newline : byte := x0a.

Definition is_special (b : byte) : bool :=
  byte_eqb b backslash || byte_eqb b quote || byte_eqb b tab || byte_eqb b carriage_return || byte_eqb b newline.

(** replacement[1], [previous] when no case applies. *)
Definition replacement (previous b : byte) : byte :=
  if byte_eqb b backslash then backslash
  else if byte_eqb b quote then quote
  else if byte_eqb b tab then x74
  else if byte_eqb b carriage_return then x72
  else if byte_eqb b newline then x6e
  else previous.

Definition find_from (P : byte -> bool) (s : cstring) (pos : nat) : option nat :=
  (fun i => (pos + i)%nat) <$> find_first_if P (drop pos s).

(** The loop of escape_str. *)
Fixpoint escape_loop (fuel : nat) (s : cstring) (pos : nat) (previous : byte) : outcome cstring :=
  match fuel with
  | O => Diverges
  | S fuel =>
    let r := replacement previous (nth pos s x00) in
    let s := take pos s ++ [backslash; r] ++ drop (S pos) s in
    match find_from is_special s (pos + 2) with
    | Some pos => escape_loop fuel s pos r
    | None => Returns s
    end
  end.

Definition escape_str (content : cstring) : outcome cstring :=
  let content := c_str content in
  match find_first_if is_special content with
  | Some pos => escape_loop (S (length content)) content pos backslash
  | None => Returns content
  end.

(** The loop of broker_json_decode on the value of a string. *)
Definition escaped_char (b : byte) : option byte :=
  if byte_eqb b backslash then Some backslash
  else if byte_eqb b quote then Some quote
  else if byte_eqb b x74 then Some tab
  else if byte_eqb b x72 then Some carriage_return
  else if byte_eqb b x6e then Some newline
  else None.

Fixpoint unescape_loop (fuel : nat) (s : cstring) (pos : nat) : outcome cstring :=
  match fuel with
  | O => Diverges
  | S fuel =>
    let s :=
      match escaped_char (nth (S pos) s x00) with
      | Some b => take pos s ++ [b] ++ drop (pos + 2) s
      | None => s
      end in
    match find_from (fun b => byte_eqb b backslash) s (S pos) with
    | Some pos => unescape_loop fuel s pos
    | None => Returns s
    end
  end.

Definition decode_string (value : cstring) : outcome cstring :=
  s ← match find_first_if (fun b => byte_eqb b backslash) value with
      | Some pos => unescape_loop (S (length value)) value pos
      | None => Returns value
      end;
  Returns (c_str s).

(** ** Lua values *)

(** Numbers are in the text Lua gives them; the entries of a table are in the
    order of lua_next. *)
Inductive lua_key : Type :=
  | K_integer (z : Z)
  | K_number (text : cstring)
  | K_string (s : cstring).

Inductive lua_value : Type :=
  | L_number (text : cstring)
  | L_string (s : cstring)
  | L_boolean (b : bool)
  | L_table (entries : list (lua_key * lua_value))
  | L_event
  | L_other.

(** int index(lua_tointeger(key)) is 1. *)
Definition starts_array (k : lua_key) : bool := match k with K_integer z => i32 z =? 1 | _ => false end.

Definition is_integer (k : lua_key) : bool := match k with K_integer _ => true | _ => false end.

(** lua_tostring of a key makes a number a text, that lua_next does not find in
    the table (unless it also has this text as a key, which is left out): it
    then raises an error. *)
Definition key_text (k : lua_key) : outcome cstring :=
  match k with
  | K_string s => Returns (c_str s)
  | K_integer _ | K_number _ => Throws Exn_msg
  end.

(** json_encode of what is not the argument itself: an event is looked for in
    the first argument, which is a table. *)
Fixpoint broker_json_encode (v : lua_value) : outcome cstring :=
  match v with
  | L_number text => Returns text
  | L_string s => e ← escape_str s; Returns ([quote] ++ e ++ [quote])
  | L_boolean b => Returns (if b then str "true" else str "false")
  | L_table [] => Returns (str "[]")
  | L_table ((k, v) :: entries) =>
    if starts_array k then
      first ← broker_json_encode v;
      rest ← (fix elements (l : list (lua_key * lua_value)) : outcome cstring :=
        match l with
        | [] => Returns []
        | (k, v) :: l =>
          e ← (if is_integer k then e ← broker_json_encode v; Returns (str "," ++ e) else Returns []);
          r ← elements l;
          Returns (e ++ r)
        end) entries;
      Returns (str "[" ++ first ++ rest ++ str "]")
    else
      name ← key_text k;
      first ← broker_json_encode v;
      rest ← (fix members (l : list (lua_key * lua_value)) : outcome cstring :=
        match l with
        | [] => Returns []
        | (k, v) :: l =>
          name ← key_text k;
          e ← broker_json_encode v;
          r ← members l;
          Returns (str "," ++ [quote] ++ name ++ [quote] ++ str ":" ++ e ++ r)
        end) entries;
      Returns (str "{" ++ [quote] ++ name ++ [quote] ++ str ":" ++ first ++ rest ++ str "}")
  | L_event | L_other => Throws Exn_msg
  end.

(** ** Events *)

Section Encode.
(** fmt of a double. *)
Context (format_double : double -> cstring).

(** fmt::format of {comma quote name quote colon text}. *)
Definition member (name text : cstring) : cstring := str ", " ++ [quote] ++ name ++ [quote] ++ str ":" ++ text.

(** A number that its attribute may leave out. *)
Definition numeric (attribute : Z) (name text : cstring) (val minus_one : Z) : cstring :=
  if (attribute =? invalid_on_zero) && (val =? 0) then []
  else if (attribute =? invalid_on_minus_one) && (val =? minus_one) then []
  else member name text.

Definition encode_member (name : cstring) (attribute : Z) (v : value) : outcome cstring :=
  match v with
  | VBool b => Returns (member name (if b then str "true" else str "false"))
  | VDouble d => Returns (member name (format_double d))
  | VInt z => Returns (numeric attribute name (Ba.int_text z) z (-1))
  | VShort z => Returns (member name (Ba.int_text z))
  | VString s =>
    if (attribute =? invalid_on_zero) && bool_decide (s = []) then Returns []
    else e ← escape_str s; Returns (member name ([quote] ++ e ++ [quote]))
  | VTime z => Returns (numeric attribute name ([quote] ++ Ba.int_text z ++ [quote]) z (-1))
  | VUint z => Returns (numeric attribute name (Ba.int_text z) z (2 ^ 32 - 1))
  end.

Fixpoint encode_members (mapping : list entry) (fields : list value) : outcome cstring :=
  match mapping, fields with
  | e :: mapping, v :: fields =>
    m ← match get_name_v2 e with
        | Some (b :: name) => encode_member (b :: name) (get_attribute e) v
        | _ => Returns []
        end;
    r ← encode_members mapping fields;
    Returns (m ++ r)
  | _, _ => Returns []
  end.

Definition broker_json_encode_broker_event (r : registry) (type : Z) (fields : list value) : outcome cstring :=
  match get_event_info r type with
  | Some info =>
    m ← encode_members (get_mapping info) fields;
    Returns (str "{ " ++ [quote] ++ str "_type" ++ [quote] ++ str ": " ++ Ba.int_text type
      ++ str ", " ++ [quote] ++ str "category" ++ [quote] ++ str ": " ++ Ba.int_text (Z.shiftr type 16)
      ++ str ", " ++ [quote] ++ str "element" ++ [quote] ++ str ": " ++ Ba.int_text (Z.land type 65535)
      ++ m ++ str "}}")
  | None => Throws Exn_msg
  end.

End Encode.

(** ** URLs *)

Definition isalnum (b : byte) : bool :=
  let z := Z_of_byte b in
  ((48 <=? z) && (z <=? 57)) || ((65 <=? z) && (z <=? 90)) || ((97 <=? z) && (z <=? 122)).

Definition kept (b : byte) : bool :=
  isalnum b || byte_eqb b x2d || byte_eqb b x5f || byte_eqb b x2e || byte_eqb b x7e.

Definition url_encode (s : cstring) : cstring :=
  concat ((fun b => if kept b then [b]
                    else [x25; Hex.hex_digit (Z_of_byte b / 16); Hex.hex_digit (Z_of_byte b mod 16)]) <$> c_str s).

(** ** What json_decode pushes *)

(** What json11 gives; a number is what number_value and int_value return, an
    object is in the order of its keys. *)
Inductive json : Type :=
  | J_string (s : cstring)
  | J_number (value : double) (intvalue : Z)
  | J_bool (b : bool)
  | J_array (l : list json)
  | J_object (l : list (cstring * json))
  | J_null.

(** The values of the Lua stack; a table is the assignments made to it, in
    order. *)
Inductive pushed : Type :=
  | P_string (s : cstring)
  | P_integer (z : Z)
  | P_number (d : double)
  | P_boolean (b : bool)
  | P_table (assigned : list (pushed * pushed)).

(** The top first. None: the call is not allowed by the Lua API. *)
Definition stack : Type := list pushed.

(** lua_rawseti(L, -2, i): -2 must be a table. *)
Definition lua_rawseti (i : Z) (L : stack) : outcome (option stack) :=
  match L with
  | v :: P_table l :: L => Returns (Some (P_table (l ++ [(P_integer i, v)]) :: L))
  | _ => Returns None
  end.

(** lua_settable(L, -3): a Lua error when -3 is not a table. *)
Definition lua_settable (L : stack) : outcome (option stack) :=
  match L with
  | v :: k :: P_table l :: L => Returns (Some (P_table (l ++ [(k, v)]) :: L))
  | v :: k :: _ :: L => Throws Exn_msg
  | _ => Returns None
  end.

Definition then_ (o : outcome (option stack)) (f : stack -> outcome (option stack)) : outcome (option stack) :=
  L ← o; match L with Some L => f L | None => Returns None end.

Fixpoint broker_json_decode (it : json) (L : stack) : outcome (option stack) :=
  match it with
  | J_string s => s ← decode_string s; Returns (Some (P_string s :: L))
  | J_number value intvalue =>
    Returns (Some ((if Dbl.eqb value (Dbl.of_Z intvalue) then P_integer intvalue else P_number value) :: L))
  | J_bool b => Returns (Some (P_boolean b :: L))
  | J_array l =>
    (fix elements (l : list json) (i : Z) (L : stack) : outcome (option stack) :=
      match l with
      | [] => Returns (Some L)
      | it :: l => then_ (then_ (broker_json_decode it L) (lua_rawseti i)) (elements l (Z.succ i))
      end) l 1 (P_table [] :: L)
  | J_object l =>
    (fix members (l : list (cstring * json)) (L : stack) : outcome (option stack) :=
      match l with
      | [] => Returns (Some L)
      | (name, it) :: l => then_ (then_ (broker_json_decode it (P_string (c_str name) :: L)) lua_settable) (members l)
      end) l (P_table [] :: L)
  | J_null => Returns (Some L)
  end.

(** ** What parse_perfdata pushes *)

Definition field (name : string) (v : pushed) : pushed * pushed := (P_string (str name), v).

(** The entry of a metric. *)
Definition perfdata_entry (full : bool) (pd : Perfdata.perfdata) : pushed * pushed :=
  (P_string (c_str (Perfdata._name pd)),
   if full then
     P_table
       [field "value" (P_number (Perfdata._value pd)); field "uom" (P_string (c_str (Perfdata._unit pd)));
        field "min" (P_number (Perfdata._min pd)); field "max" (P_number (Perfdata._max pd));
        field "warning_high" (P_number (Perfdata._warning pd)); field "warning_low" (P_number (Perfdata._warning_low pd));
        field "warning_mode" (P_boolean (Perfdata._warning_mode pd));
        field "critical_high" (P_number (Perfdata._critical pd)); field "critical_low" (P_number (Perfdata._critical_low pd));
        field "critical_mode" (P_boolean (Perfdata._critical_mode pd))]
   else P_number (Perfdata._value pd)).

Section Parse.
Context (metric_name_size unit_name_size : nat).

(** None: the text is read out of its bounds. The parser throws nothing, so that
    there always is a table. *)
Definition broker_parse_perfdata (perf_data : cstring) (full : bool) : outcome (option pushed) :=
  pds ← Perfdata.parse_perfdata metric_name_size unit_name_size (c_str perf_data) [];
  Returns (match pds with Some pds => Some (P_table (perfdata_entry full <$> pds)) | None => None end).

End Parse.

(** ** In one pass *)

Definition escape_char (b : byte) : cstring := if is_special b then [backslash; replacement b b] else [b].
Definition escaped (s : cstring) : cstring := concat (escape_char <$> s).

Fixpoint unescaped (s : cstring) : cstring :=
  match s with
  | [] => []
  | b :: s =>
    if byte_eqb b backslash then
      match s with
      | c :: s' => match escaped_char c with Some c' => c' :: unescaped s' | None => b :: unescaped s end
      | [] => [b]
      end
    else b :: unescaped s
  end.

Lemma escaped_app a b : escaped (a ++ b) = escaped a ++ escaped b.
Proof. unfold escaped. by rewrite fmap_app, concat_app. Qed.

Lemma escaped_plain s : forallb (fun b => negb (is_special b)) s = true -> escaped s = s.
Proof.
  unfold escaped. induction s as [|b s IH]; cbn [forallb]; [done|]. intros H. zbool. cbn. unfold escape_char at 1. rewrite H.
  cbn. by rewrite IH.
Qed.

Lemma replacement_special p q b : is_special b = true -> replacement p b = replacement q b.
Proof. unfold is_special, replacement. repeat case_match; try done. Qed.

(** What a first occurrence splits. *)
Lemma first_split (P : byte -> bool) s i : find_first_if P s = Some i ->
  exists a b c, s = a ++ b :: c /\ length a = i /\ P b = true /\ forallb (fun x => negb (P x)) a = true.
Proof.
  revert i. induction s as [|x s IH]; intros i; cbn [find_first_if]; [done|]. destruct (P x) eqn:E.
  - intros [= <-]. by exists [], x, s.
  - destruct (find_first_if P s) as [j|]; [|done]. intros [= <-]. destruct (IH j eq_refl) as (a & b & c & -> & <- & Hb & Ha).
    exists (x :: a), b, c. cbn [forallb length]. by rewrite E, Ha.
Qed.

Lemma found_from_app (P : byte -> bool) a s : find_from P (a ++ s) (length a) = (fun i => (length a + i)%nat) <$> find_first_if P s.
Proof. unfold find_from. by rewrite drop_app_length. Qed.

Lemma escape_loop_spec fuel : forall a b c previous, is_special b = true -> (length c < fuel)%nat ->
  escape_loop fuel (a ++ b :: c) (length a) previous = Returns (a ++ escaped (b :: c)).
Proof.
  induction fuel as [|fuel IH]; intros a b c previous Hb Hf; [lia|]. cbn [escape_loop].
  rewrite nth_middle, take_app_length, (drop_app_ge a) by lia.
  replace (S (length a) - length a)%nat with 1%nat by lia. change (drop 1 (b :: c)) with c.
  rewrite (replacement_special previous b b Hb).
  replace (a ++ [backslash; replacement b b] ++ c) with ((a ++ [backslash; replacement b b]) ++ c) by by rewrite <-app_assoc.
  replace (length a + 2)%nat with (length (a ++ [backslash; replacement b b])) by (rewrite length_app; done).
  rewrite found_from_app. change (escaped (b :: c)) with (escape_char b ++ escaped c). unfold escape_char at 1. rewrite Hb.
  destruct (find_first_if is_special c) as [i|] eqn:E; cbn [fmap option_fmap option_map].
  - apply first_split in E as (u & x & v & -> & <- & Hx & Hu). rewrite app_assoc, <-length_app.
    rewrite IH; [|done|rewrite length_app in Hf; cbn in Hf; lia]. f_equal. rewrite escaped_app, (escaped_plain u) by done.
    by rewrite <-!app_assoc.
  - apply find_first_if_None in E. rewrite escaped_plain by done. by rewrite <-app_assoc.
Qed.

(** escape_str ends and is the replacement of each character. *)
Lemma escape_str_spec s : escape_str s = Returns (escaped (c_str s)).
Proof.
  unfold escape_str. destruct (find_first_if is_special (c_str s)) as [i|] eqn:E.
  - apply first_split in E as (a & b & c & -> & <- & Hb & Ha). rewrite escape_loop_spec by (done || (rewrite length_app; cbn; lia)).
    by rewrite escaped_app, (escaped_plain a).
  - apply find_first_if_None in E. by rewrite escaped_plain.
Qed.

Lemma unescaped_plain a s : forallb (fun b => negb (byte_eqb b backslash)) a = true -> unescaped (a ++ s) = a ++ unescaped s.
Proof. induction a as [|b a IH]; cbn [forallb app]; [done|]. intros H. zbool. cbn [unescaped]. rewrite H. by rewrite IH. Qed.

Lemma unescape_loop_spec fuel : forall a s, (length s < fuel)%nat ->
  unescape_loop fuel (a ++ backslash :: s) (length a) = Returns (a ++ unescaped (backslash :: s)).
Proof.
  induction fuel as [|fuel IH]; intros a s Hf; [lia|]. cbn [unescape_loop].
  assert (Hnext : forall (a' : cstring) s', (length s' <= length s)%nat ->
    match find_from (fun b => byte_eqb b backslash) (a' ++ s') (length a') with
    | Some pos => unescape_loop fuel (a' ++ s') pos
    | None => Returns (a' ++ s')
    end = Returns (a' ++ unescaped s')).
  { intros a' s' Hs. rewrite found_from_app. destruct (find_first_if _ s') as [i|] eqn:E; cbn [fmap option_fmap option_map].
    - apply first_split in E as (u & x & v & -> & <- & Hx & Hu). apply byte_eqb_eq in Hx as ->.
      rewrite app_assoc, <-length_app. rewrite length_app in Hs. cbn in Hs. rewrite IH by lia.
      by rewrite (unescaped_plain u) by done; rewrite <-app_assoc.
    - apply find_first_if_None in E. rewrite <-(app_nil_r s') at 2. rewrite unescaped_plain by done. cbn. by rewrite app_nil_r. }
  rewrite app_nth2 by lia. replace (S (length a) - length a)%nat with 1%nat by lia. cbn [nth].
  destruct s as [|c s]; cbn [nth unescaped].
  - change (escaped_char x00) with (@None byte). cbn zeta.
    replace (S (length a)) with (length (a ++ [backslash])) by (rewrite length_app; cbn; lia).
    specialize (Hnext (a ++ [backslash]) [] ltac:(cbn; lia)). rewrite app_nil_r in Hnext. rewrite Hnext. cbn.
    by rewrite app_nil_r.
  - rewrite byte_eqb_refl. destruct (escaped_char c) as [b|]; cbn zeta.
    + rewrite take_app_length, (drop_app_ge a) by lia. replace (length a + 2 - length a)%nat with 2%nat by lia. change (drop 2 (backslash :: c :: s)) with s.
      replace (a ++ [b] ++ s) with ((a ++ [b]) ++ s) by by rewrite <-app_assoc.
      replace (S (length a)) with (length (a ++ [b])) by (rewrite length_app; cbn; lia).
      rewrite Hnext by (cbn; lia). by rewrite <-app_assoc.
    + replace (a ++ backslash :: c :: s) with ((a ++ [backslash]) ++ c :: s) by by rewrite <-app_assoc.
      replace (S (length a)) with (length (a ++ [backslash])) by (rewrite length_app; cbn; lia).
      rewrite Hnext by done. by rewrite <-app_assoc.
Qed.

Lemma decode_string_spec s : decode_string s = Returns (c_str (unescaped s)).
Proof.
  unfold decode_string. destruct (find_first_if _ s) as [i|] eqn:E.
  - apply first_split in E as (a & b & c & -> & <- & Hb & Ha). apply byte_eqb_eq in Hb as ->.
    rewrite unescape_loop_spec by (rewrite length_app; cbn; lia). cbn [mbind outcome_bind]. by rewrite unescaped_plain.
  - apply find_first_if_None in E. cbn [mbind outcome_bind]. rewrite <-(app_nil_r s) at 2. rewrite unescaped_plain by done.
    cbn. by rewrite app_nil_r.
Qed.

(** ** Reading strings of JSON (RFC 8259, section 7) *)

(** The text after the opening quote, and what follows the closing one; the
    escapes by code point are left out, nothing writes them. *)
Fixpoint read_json_string (s : cstring) : option (cstring * cstring) :=
  match s with
  | [] => None
  | b :: s =>
    if byte_eqb b quote then Some ([], s)
    else if byte_eqb b backslash then
      match s with
      | [] => None
      | c :: s =>
        c ← (if byte_eqb c quote || byte_eqb c backslash || byte_eqb c x2f then Some c
             else if byte_eqb c x62 then Some x08
             else if byte_eqb c x66 then Some x0c
             else if byte_eqb c x6e then Some x0a
             else if byte_eqb c x72 then Some x0d
             else if byte_eqb c x74 then Some x09
             else None);
        r ← read_json_string s;
        Some (c :: r.1, r.2)
      end
    else if Z_of_byte b <? 32 then None
    else r ← read_json_string s; Some (b :: r.1, r.2)
  end.

(** No control character other than those escape_str replaces. *)
Definition writable (b : byte) : bool := (32 <=? Z_of_byte b) || is_special b.

(** No character of the text looks like an escape sequence. *)
Fixpoint clean (s : cstring) : bool :=
  match s with
  | [] => true
  | b :: s =>
    (if byte_eqb b backslash then match s with c :: _ => match escaped_char c with Some _ => false | None => true end | [] => true end
     else true) && clean s
  end.

Lemma c_str_writable s : forallb writable s = true -> c_str s = s.
Proof.
  induction s as [|b s IH]; cbn [forallb c_str]; [done|]. intros [Hb Hs]%andb_true_iff. destruct (byte_eqb b x00) eqn:E.
  - by apply byte_eqb_eq in E as ->.
  - by rewrite IH.
Qed.

Lemma read_escape_char b s : writable b = true ->
  read_json_string (escape_char b ++ s) = r ← read_json_string s; Some (b :: r.1, r.2).
Proof.
  unfold writable, escape_char. destruct (is_special b) eqn:E.
  - intros _. unfold is_special in E. rewrite !orb_true_iff, !byte_eqb_eq in E.
    destruct E as [[[[-> | ->] | ->] | ->] | ->]; done.
  - intros Hb. zbool. unfold is_special in E. cbn [app read_json_string]. unfold quote, backslash in *.
    rewrite !orb_false_iff in E. destruct E as [[[[-> ->] _] _] _]. rewrite (proj2 (Z.ltb_ge _ _)) by lia. done.
Qed.

Lemma read_json_escaped s rest : forallb writable s = true -> read_json_string (escaped s ++ quote :: rest) = Some (s, rest).
Proof.
  induction s as [|b s IH]; cbn [forallb]; [done|]. intros [Hb Hs]%andb_true_iff.
  change (escaped (b :: s)) with (escape_char b ++ escaped s). rewrite <-app_assoc, read_escape_char, IH by done. done.
Qed.

Lemma unescaped_length s : (length (unescaped s) <= length s)%nat.
Proof.
  enough (H : forall n s, (length s <= n)%nat -> (length (unescaped s) <= length s)%nat) by by eapply H.
  clear. induction n as [|n IH]; intros [|b s] Hn; cbn [length unescaped] in *; try lia.
  destruct (byte_eqb b backslash).
  - destruct s as [|c s]; [done|]. destruct (escaped_char c); cbn [length] in *; [pose proof (IH s); lia|].
    pose proof (IH (c :: s)). cbn [length] in *. lia.
  - cbn [length]. pose proof (IH s). lia.
Qed.

Lemma unescaped_clean s : unescaped s = s <-> clean s = true.
Proof.
  induction s as [|b s IH]; cbn [unescaped clean]; [done|]. destruct (byte_eqb b backslash) eqn:E; cbn [andb].
  - destruct s as [|c s]; [done|]. destruct (escaped_char c).
    + split; [|done]. intros H. pose proof (unescaped_length s). apply (f_equal length) in H. cbn [length] in H. lia.
    + rewrite andb_true_l, <-IH. split; [by intros [= H]|by intros ->].
  - rewrite <-IH. split; [by intros [= H]|by intros ->].
Qed.

Lemma c_str_length s : (length (c_str s) <= length s)%nat.
Proof. induction s as [|b s IH]; cbn [c_str length]; [lia|]. destruct (byte_eqb b x00); cbn [length]; lia. Qed.

Lemma decode_string_clean s : forallb writable s = true -> decode_string s = Returns s <-> clean s = true.
Proof.
  intros Hs. rewrite decode_string_spec, <-unescaped_clean. split.
  - intros [= H]. pose proof (unescaped_length s). pose proof (c_str_length (unescaped s)).
    assert (length (c_str (unescaped s)) = length s) by by rewrite H.
    enough (c_str (unescaped s) = unescaped s) by congruence.
    assert (Hl : forall l, length (c_str l) = length l -> c_str l = l).
    { induction l as [|b l IH]; cbn [c_str length]; [done|]. destruct (byte_eqb b x00); cbn [length]; [lia|].
      intros [= Hl]. by rewrite IH. }
    apply Hl. lia.
  - intros H. by rewrite H, c_str_writable.
Qed.

(** C26. The text json_encode writes for a string of printable characters, tabulations and
    ends of lines is a string of JSON that reads as this string; json_decode,
    that replaces escape sequences once more, gives it back exactly when it has
    no backslash before a backslash, a quote or one of the letters t, r, n. *)
Theorem json_string_written s rest L : forallb writable s = true ->
  exists text, broker_json_encode (L_string s) = Returns (quote :: text ++ [quote])
    /\ read_json_string (text ++ quote :: rest) = Some (s, rest)
    /\ (broker_json_decode (J_string s) L = Returns (Some (P_string s :: L)) <-> clean s = true).
Proof.
  intros Hs. exists (escaped s). cbn [broker_json_encode broker_json_decode]. rewrite escape_str_spec, c_str_writable by done.
  split_and!; [done|by apply read_json_escaped|]. rewrite <-decode_string_clean, decode_string_spec by done. cbn [mbind outcome_bind].
  split; [by intros [= ->]|by intros [= H]; rewrite H].
Qed.

Lemma json_string_written_witness : exists text,
  broker_json_encode (L_string (str "C:\temp")) = Returns (quote :: text ++ [quote])
  /\ read_json_string (text ++ quote :: []) = Some (str "C:\temp", [])
  /\ (broker_json_decode (J_string (str "C:\temp")) [] = Returns (Some [P_string (str "C:\temp")]) <-> clean (str "C:\temp") = true).
Proof. apply (json_string_written (str "C:\temp") [] []). vm_compute. reflexivity. Defined.

Definition two_braces (text : cstring) : Prop := exists inner, text = inner ++ str "}}".

Lemma two_braces_app a text : two_braces text -> two_braces (a ++ text).
Proof. intros [inner ->]. exists (a ++ inner). by rewrite <-app_assoc. Qed.

Lemma two_braces_cons b text : two_braces text -> two_braces (b :: text).
Proof. intros [inner ->]. by exists (b :: inner). Qed.

(** An event is closed with two braces, where one opens it. *)
Lemma event_two_braces format_double r type fields text :
  broker_json_encode_broker_event format_double r type fields = Returns text -> two_braces text.
Proof.
  unfold broker_json_encode_broker_event. destruct (get_event_info r type); [|done].
  destruct (encode_members _ _ _) as [m| |]; cbn [mbind outcome_bind]; [|done..]. intros [= <-].
  change (str "}}") with (@nil byte ++ str "}}"). set (e2 := [] ++ str "}}") in *.
  assert (He : two_braces e2) by by exists [].
  clearbody e2. cbn [app]. repeat (exact He || apply two_braces_app || apply two_braces_cons).
Qed.

(** ** Reading percent-encodings (RFC 3986, section 2.1) *)

Fixpoint percent_decode (s : cstring) : option cstring :=
  match s with
  | [] => Some []
  | b :: s =>
    if byte_eqb b x25 then
      match s with
      | h :: l :: s =>
        h ← Hex.digit_value h; l ← Hex.digit_value l; r ← percent_decode s; Some (byte_of_Z (h * 16 + l) :: r)
      | _ => None
      end
    else r ← percent_decode s; Some (b :: r)
  end.

(** The unreserved characters (section 2.3) and those of percent-encodings. *)
Definition in_url (b : byte) : bool := kept b || byte_eqb b x25.

Lemma hex_digit_kept b : kept (Hex.hex_digit (Z_of_byte b / 16)) = true /\ kept (Hex.hex_digit (Z_of_byte b mod 16)) = true.
Proof.
  assert (H : forallb (fun b => kept (Hex.hex_digit (Z_of_byte b / 16)) && kept (Hex.hex_digit (Z_of_byte b mod 16))) all_bytes = true)
    by (vm_compute; reflexivity).
  pose proof (forall_bytes _ H b) as Hb. by apply andb_true_iff in Hb.
Qed.

(** The text url_encode gives has only unreserved characters and
    percent-encodings, and decodes as the text it was given. *)
Theorem url_encode_read s : forallb in_url (url_encode s) = true /\ percent_decode (url_encode s) = Some (c_str s).
Proof.
  unfold url_encode. induction (c_str s) as [|b l [IH1 IH2]]; [done|]. cbn [fmap list_fmap concat]. rewrite forallb_app, IH1.
  destruct (kept b) eqn:E; cbn [app forallb percent_decode].
  - unfold in_url. rewrite E. split; [done|]. destruct (byte_eqb b x25) eqn:E'; [by apply byte_eqb_eq in E' as ->|]. by rewrite IH2.
  - destruct (hex_digit_kept b) as [H1 H2]. destruct (Hex.hex_digit_value b) as [Hh Hl]. unfold in_url. rewrite H1, H2.
    split; [done|]. rewrite byte_eqb_refl, Hh, Hl, IH2. cbn [mbind option_bind]. do 2 f_equal.
    rewrite <-(byte_of_Z_of_byte b) at 3. f_equal. pose proof (Z.div_mod (Z_of_byte b) 16 ltac:(lia)). lia.
Qed.

(** ** What json_decode gives *)

(** The Lua value of a JSON value. *)
Fixpoint lua_of (it : json) : pushed :=
  match it with
  | J_string s => P_string (c_str (unescaped s))
  | J_number value intvalue => if Dbl.eqb value (Dbl.of_Z intvalue) then P_integer intvalue else P_number value
  | J_bool b => P_boolean b
  | J_array l => P_table (zip (P_integer <$> seqZ 1 (Z.of_nat (length l))) (map lua_of l))
  | J_object l => P_table (map (fun m => (P_string (c_str m.1), lua_of m.2)) l)
  | J_null => P_table []
  end.

Fixpoint has_null (it : json) : bool :=
  match it with
  | J_array l => existsb has_null l
  | J_object l => existsb (fun m => has_null m.2) l
  | J_null => true
  | _ => false
  end.

Section Induction.
Context (P : json -> Prop) (Hs : forall s, P (J_string s)) (Hn : forall v i, P (J_number v i)) (Hb : forall b, P (J_bool b))
  (Ha : forall l, Forall P l -> P (J_array l)) (Ho : forall l, Forall (fun m => P m.2) l -> P (J_object l)) (H0 : P J_null).

Fixpoint json_tree_ind (it : json) : P it :=
  match it with
  | J_string s => Hs s
  | J_number v i => Hn v i
  | J_bool b => Hb b
  | J_array l => Ha l ((fix go l : Forall P l := match l with [] => Forall_nil_2 _ | it :: l => Forall_cons_2 _ _ _ (json_tree_ind it) (go l) end) l)
  | J_object l =>
    Ho l ((fix go l : Forall (fun m => P m.2) l :=
      match l with [] => Forall_nil_2 _ | m :: l => Forall_cons_2 _ m _ (json_tree_ind m.2) (go l) end) l)
  | J_null => H0
  end.
End Induction.

(** A value of JSON without null is pushed as one Lua value: its strings,
    its numbers, its booleans, a table numbered from 1 for an array and a table
    by names for an object. *)
Theorem json_decode_pushes it L : has_null it = false -> broker_json_decode it L = Returns (Some (lua_of it :: L)).
Proof.
  revert L. induction it as [s|v i|b|l IH|l IH|] using json_tree_ind; intros L; cbn [has_null broker_json_decode lua_of]; try done.
  - by rewrite decode_string_spec.
  - replace (zip _ _) with ([] ++ zip (P_integer <$> seqZ 1 (Z.of_nat (length l))) (map lua_of l)) by done.
    generalize ([] : list (pushed * pushed)) as done_. generalize 1 as i.
    induction IH as [|it l Hit _ IHl]; cbn [existsb length map]; intros i done_ Hl.
    + by rewrite app_nil_r.
    + apply orb_false_iff in Hl as [H1 H2]. rewrite Hit by done. cbn [then_ mbind outcome_bind lua_rawseti].
      rewrite IHl by done. rewrite (seqZ_cons i) by lia. cbn [fmap list_fmap zip zip_with]. rewrite <-app_assoc.
      replace (Z.pred (Z.of_nat (S (length l)))) with (Z.of_nat (length l)) by lia. done.
  - replace (map _ l) with ([] ++ map (fun m : cstring * json => (P_string (c_str m.1), lua_of m.2)) l) by done.
    generalize ([] : list (pushed * pushed)) as done_.
    induction IH as [|[name it] l Hit _ IHl]; cbn [existsb map fst snd]; intros done_ Hl.
    + by rewrite app_nil_r.
    + apply orb_false_iff in Hl as [H1 H2]. cbn [snd] in Hit. rewrite Hit by done. cbn [then_ mbind outcome_bind lua_settable].
      rewrite IHl by done. by rewrite <-app_assoc.
Qed.

Lemma json_decode_pushes_witness :
  broker_json_decode (J_object [(str "a", J_array [J_bool true; J_string (str "x")])]) []
  = Returns (Some [P_table [(P_string (str "a"), P_table [(P_integer 1, P_boolean true); (P_integer 2, P_string (str "x"))])]]).
Proof. apply (json_decode_pushes (J_object [(str "a", J_array [J_bool true; J_string (str "x")])]) []). reflexivity. Defined.

(** A null pushes nothing: json_decode gives back the text it read, and an array
    or an object that has one is assigned to what is below it. *)
Example null_is_the_text : broker_json_decode J_null [P_string (str "null")] = Returns (Some [P_string (str "null")]).
Proof. reflexivity. Qed.

Example null_in_object : broker_json_decode (J_object [(str "a", J_null)]) [P_string (str "{}")] = Throws Exn_msg.
Proof. reflexivity. Qed.

Example null_in_array : broker_json_decode (J_array [J_null]) [P_string (str "[null]")] = Returns None.
Proof. reflexivity. Qed.

(** The names of a table are written as they are. *)
Example name_not_escaped : broker_json_encode (L_table [(K_string [quote], L_boolean true)])
  = Returns (str "{" ++ [quote; quote; quote] ++ str ":true}").
Proof. reflexivity. Qed.

End LuaUtils.
